(* ===== verification/_CoqProject ===== *)
-Q . S2P
Prelude.v
Mem.v
Links.v
Counts.v
Fcall9P.v
Fcall9PSpec.v
Dir9P.v
Dir9PSpec.v
Pager.v
PagerSpec.v
PagerThms.v
QLock.v
QLockSpec.v
RWLockSpec.v
QLockThms.v
Intmap.v
IntmapSpec.v
Files.v
FilesSpec.v
FilesOps.v
FilesThms.v
Srv.v
FidSpec.v
ReqSpec.v
RespondSpec.v
ServeSpec.v
HandlerSpec.v
WalkSpec.v
DispatchSpec.v
SrvThms.v
SrvSafe.v
PermThms.v
Block.v
BlockSpec.v
BlockThms.v
Qio.v
QioSpec.v
Qproc.v
QprocSpec.v
QprocThms.v
Utf.v
UtfSpec.v
UtfThms.v
Cleanname.v
CleannameSpec.v
Heap.v
Quote.v
QuoteSpec.v
QuoteThms.v
Sums.v
Chan.v
ChanSpec.v
PathSpec.v
Mount.v
MountSpec.v
TableSpec.v
MountOps.v
UnmountSpec.v
PgrpSpec.v
PgrpcpySpec.v
CrossSpec.v
NewSpec.v
NsThms.v
