(* ===== verification/Prelude.v ===== *)
(** * LP49: a verification library

    LP49 is an operating system with the structure of Plan 9 on top of the L4
    microkernel. A process HVM starts the others and owns the physical memory;
    the core process runs the Plan 9 kernel (channels, name space, devices,
    protocols) as L4 threads; user processes are L4 tasks that reach the core
    process by messages; file servers are reached with the 9P2000 protocol.
    Page faults and memory requests of all processes go to the memory server, a
    thread of HVM.

    This library models parts of the system as executable definitions that
    follow the C sources statement by statement, and proves properties of them.
    File names below are relative to the repository.

    ** How C is modelled

    A C function is a function of its arguments and of an explicit state. Where
    it has statements that leave a block early it is a value of type
    [cmd S R A], a state monad whose statements may also end in [Brk] (break,
    or a goto to the end of the block), [Ret] (return) or [Abt] (abort, panic,
    failed assertion, use of memory that is not there); [ccall] is the boundary
    of a function. Integers are [Z] with the wrap-around of the C type written
    out ([u8] .. [s64], a 32-bit target with 32-bit long); pointers into bytes
    are addresses of a flat memory ([Mem]), [padd] is the addition of the
    processor. Loops are recursive functions on a fuel. The fuel is the bound
    that the code's own loop has (the 4 strings of an entry, the 128 nodes of
    the lock's array, the pages of the memory map, the pages of a copy); where
    the code has no such bound the fuel is a parameter, and termination, or its
    failure, is a theorem.

    ** The parts

    - [Prelude] (this file), [Mem]: integers, the statement monad, byte memory,
      with the lemmas that all parts share.

    - 9P messages. [Fcall9P] models include/fcall.h and
      src/libc/9sys/convM2S.c and convS2M.c: [convM2S], [convS2M], [sizeS2M],
      one definition per arm of the switches ([m2s_Twalk], [s2m_Twalk], ...).
      [Fcall9PSpec] gives the specification: messages as an inductive type
      [msg], their encoding [enc], when an [Fcall] in memory represents a
      message. Its theorems: [convS2M] writes [enc] and nothing else, or
      returns 0 without room; [convM2S] accepts every encoding and yields the
      message; what it accepts is an encoding, and it reads inside the buffer
      only; the round trip; the byte count of a data field that wraps around
      the address space is accepted.

    - Directory entries. [Dir9P] models convM2D.c and convD2M.c: [statcheck],
      [convM2D], [convD2M], [sizeD2M]; [Dir9PSpec] has the abstract entry [dirv],
      its encoding and the same kinds of theorems.

    - The memory server. [Pager] models src/9/hvm/mx-pager.c,
      proc2proc-copy.c and the mm_ functions of thread.c: the map of physical
      pages [memmap], the page directories and tables in memory, [alloc_page],
      [alloc_dma_page], [free_page], [get_targetpage], [clone_space],
      [free_space], the copies [copy2task], [set2task], [proc2proc_copy], and
      the request loop [mxpager_thread] with one handler per request. sigma0,
      which grants pages, and the L4 system calls are parameters. [PagerSpec]
      has the ownership invariant [inv] (every page in a table is allocated, to
      one slot), and [PagerThms] the theorems: requests keep the invariant and
      the contents of other processes; paging, copying and freeing do what they
      should; when the search for DMA pages ends; two requests that break the
      promises.

    - Queueing locks. [QLock] models src/9/port/qlock.c ([Kernel]) and
      src/libc/9sys/qlock-l4.c ([User]), every operation one step under the
      object's spin lock. [QLockSpec] states what a lock promises as the class
      [QueueLock], proves from the class alone that any implementation refines
      an abstract lock (one holder, a first-come-first-served queue), and gives
      the two instances. [RWLockSpec] does the same for the library's
      read-write lock, with an abstract lock that excludes writers from readers
      by an invariant. [QLockThms] has the theorems, among them the faults of
      the kernel's [wlock] and of the library's [wunlock], which does not wake
      the readers that wait.

    - Integer maps. [Intmap] models src/lib9p/intmap.c, the hash tables that the
      file server library keeps its fids and requests in; [IntmapSpec] proves that
      they are finite maps. [Links] and [Counts] are lemmas on linked lists in
      memory and on counting the references of a heap.

    - File trees. [Files] models src/lib9p/file.c and uid.c on a heap of files,
      list nodes, readers and trees: [createfile], [removefile], [walkfile],
      [opendirfile], [readdirfile], [hasperm]. [FilesSpec] and [FilesOps] have the
      invariant of the reference counts and that every operation keeps it;
      [FilesThms] what a server gets: a created file is found, a removed one is
      not, a directory is read in whole entries, and the faults. A [File] on the
      free list, whose strings are freed, stays in the heap; to read, write or
      count it there stops the model.

    - The service loop. [Srv] models src/lib9p/fid.c, req.c and srv.c: every
      handler, [respond] and its second halves, [getreq] and the loop of [srv].
      A server's own functions take a request over and give it back with the
      step [answer], in any order. [FidSpec] and [ReqSpec] have the invariants of
      fids and requests, [RespondSpec], [ServeSpec], [HandlerSpec], [WalkSpec]
      and [DispatchSpec] that the code keeps them, [SrvThms] and [SrvSafe] the
      theorems on whole sessions: the library does not stop, each message is
      answered once, an idle server holds no requests. The sessions are those of
      [polite], which leaves out the messages and answers at which the library
      is known to stop; [SrvThms] has one session for each of these.
      [PermThms] has what a user may not do.

    - Blocks and queues of the kernel. [Block] models src/9/port/allocb.c and the
      functions on blocks of src/9/port/qio.c, with the allocator as a class;
      [BlockSpec] says which bytes a list of blocks holds and who owns the blocks,
      and [BlockThms] that any sequence of the operations does to the lists of
      blocks what it says on lists of bytes. [Qio] models the rest of qio.c,
      each critical section one function; [QioSpec] has a lemma for each: what
      it does to the bytes, the state bits and the sleepers. [Qproc] has the
      processes that read, write, flush and close a queue as a step relation;
      the parameter [atomic] says whether [sleep] tests its condition and enrols
      the caller in one step, as in Plan 9, or in two, as in this kernel.
      [QprocSpec] has the invariant of the steps and [QprocThms] the theorems:
      bytes arrive in order and none is lost or invented; a sleeping reader has
      nothing to read when [atomic] holds; a wakeup is missed when it does not.
      Two kinds of calls come only when they may ([may]): qpass not for a closed
      queue, qget and qconsume not between the critical sections of a qread.
      Byte counts are bounded by 2^31 ([fits]), which an [int] of the code needs;
      a loop over blocks has as fuel one more than the number of blocks
      there are, which bounds the length of a list.

    - Text. [Utf] models the UTF-8 and string routines under src/libc/port
      (rune.c, utf*.c, strchr.c, strrchr.c, strstr.c, strncmp.c, memccpy.c) on
      the bytes of [Mem]; [UtfSpec] has the runes of a string, in which a byte
      that starts no encoding is the rune U+FFFD, and what each routine does on
      them; [UtfThms] the theorems: what is encoded is read back, searches find
      what they should, a copy is cut between runes. [Cleanname] models
      cleanname.c with its three pointers into one buffer; [CleannameSpec] has
      the name that it should leave, by a stack of path elements, and that a
      name leads to the same place before and after. [Quote] models quote.c,
      tokenize.c, the scan of src/libc/fmt/fmtquote.c and parsecmd of
      src/lib9p/parse.c; [Heap] is the class of the allocators they are called
      with, with an instance; [QuoteSpec] has words, quoted words and lines, and
      [QuoteThms] the theorems: quoting round trips, a command is split into its
      words. A loop over a string has as fuel one more than the number of bytes
      stored in the memory when the function is called, more than the string
      has.

    - Channels and name spaces. [Chan] models, of src/9/port/chan.c, reference
      counts, [newchan], [cclose] and all that it closes in turn, and the paths
      of channels; [Mount] the mount table of a process group (chan.c, pgrp.c):
      [cmount], [cunmount], [findmount], [domount], [undomount], [newpgrp],
      [closepgrp], [pgrpcpy]. Objects are in a heap; what is used after it was
      freed stops the model. [Sums] has sums over finite maps, [ChanSpec] the
      invariant [rc]: the count of each object is the number of references to it
      from the heap and from running code ([ext]); closing keeps it and ends.
      [PathSpec] has the names of paths ([addelem]). [MountSpec] says which
      mounts are on the list of a mount point, [TableSpec] which name space a
      hash table stands for: [nsmap], a finite map from files (type, device, qid)
      to what is mounted there; [MountOps], [UnmountSpec], [CrossSpec],
      [PgrpSpec] and [PgrpcpySpec] say what each operation does to that map and
      that it keeps the invariant [nsok] of counts and tables; [NewSpec] does
      this for new channels and groups, and [NsThms] has the theorems.
      Hypotheses [room] say that no count comes near 2^31. Fuel is one more
      than the number of objects of a kind.

    ** Left

    What could be added beside what is there: the resolution of names ([walk],
    [namec]); the reading helpers of the file server library (dirread9p,
    readbuf); the rest of the memory server (that [clone_space]
    copies a space, [proc2proc_copy]); the specification of [qcopy] and
    [pullupqueue]; getfields and gettokens of the C library and the routines on
    strings of Runes.

    ** Not modelled

    Drivers, graphics, the protocols under src/9/ip, applications and the
    libraries that come from Plan 9 without change. Inside the modelled files:
    printing and debugging output, [check_sigma0_pages] of the memory server,
    [_qlockinit] of the locks, the posting of a server to /srv and ramfs of
    lib9p, blocks with a [free] function of their own and the statistics of
    allocb.c, the bodies of the functions [kick] and [bypass] of a queue (their
    calls are recorded). The spin locks themselves are not modelled: critical
    sections are steps. The read-write locks of lib9p are held by one thread;
    a call of [qiwrite] or [qpass] is one step, although the code gives the spin
    lock back between its chunks. Allocation in lib9p does not fail. Each operation
    on channels and mount tables is one step under the locks that it takes; what the
    close function of a device does is not modelled, its calls are recorded. *)

From Stdlib Require Export ZArith Lia.
From stdpp Require Export base gmap list numbers.

#[global] Set Default Goal Selector "!".

Declare Scope lp49_scope.
Delimit Scope lp49_scope with lp49.
Open Scope Z_scope.

(** ** Machine integers: the values of the C types of a 32-bit ix86 target *)

Definition u8 (x : Z) : Z := x mod 2 ^ 8.
Definition u16 (x : Z) : Z := x mod 2 ^ 16.
Definition u32 (x : Z) : Z := x mod 2 ^ 32.
Definition u64 (x : Z) : Z := x mod 2 ^ 64.
Definition s8 (x : Z) : Z := (x + 2 ^ 7) mod 2 ^ 8 - 2 ^ 7.
Definition s32 (x : Z) : Z := (x + 2 ^ 31) mod 2 ^ 32 - 2 ^ 31.
Definition s64 (x : Z) : Z := (x + 2 ^ 63) mod 2 ^ 64 - 2 ^ 63.

(** ** C statements: a state monad whose statements may also leave the
    enclosing block. [Brk] is [break] (or a [goto] to the end of the block),
    [Ret] is [return], [Abt] is a call of [abort], [panic] or a failed
    [assert]. *)

Inductive ctl (R A : Type) : Type :=
  | Go (a : A)
  | Brk
  | Ret (r : R)
  | Abt.
Arguments Go {R A} a.
Arguments Brk {R A}.
Arguments Ret {R A} r.
Arguments Abt {R A}.

Definition cmd (S R A : Type) : Type := S -> ctl R A * S.

Section Cmd.
Context {S R : Type}.

Definition cret {A} (a : A) : cmd S R A := fun s => (Go a, s).

Definition cbind {A B} (c : cmd S R A) (k : A -> cmd S R B) : cmd S R B :=
  fun s =>
    match c s with
    | (Go a, s') => k a s'
    | (Brk, s') => (Brk, s')
    | (Ret r, s') => (Ret r, s')
    | (Abt, s') => (Abt, s')
    end.

Definition creturn {A} (r : R) : cmd S R A := fun s => (Ret r, s).
Definition cbreak {A} : cmd S R A := fun s => (Brk, s).
Definition cabort {A} : cmd S R A := fun s => (Abt, s).
Definition cget : cmd S R S := fun s => (Go s, s).
Definition cgets {A} (f : S -> A) : cmd S R A := fun s => (Go (f s), s).
Definition cmodify (f : S -> S) : cmd S R unit := fun s => (Go tt, f s).

Definition cwhen (b : bool) (c : cmd S R unit) : cmd S R unit :=
  if b then c else cret tt.

(** A block that [break] leaves: the body of a [switch] or of a loop. *)
Definition cblock (c : cmd S R unit) : cmd S R unit :=
  fun s =>
    match c s with
    | (Brk, s') => (Go tt, s')
    | r => r
    end.

(** [for(i = 0; i < n; i++) body], with [n] evaluated once; a [break] in the
    body leaves the loop. *)
Fixpoint cloop (i : Z) (n : nat) (body : Z -> cmd S R unit) : cmd S R unit :=
  match n with
  | O => cret tt
  | Datatypes.S n' => cbind (body i) (fun _ => cloop (i + 1) n' body)
  end.

Definition cfor (n : Z) (body : Z -> cmd S R unit) : cmd S R unit :=
  cblock (cloop 0 (Z.to_nat n) body).

(** [for(i = a; i < b; i++) body], with [b] evaluated once. *)
Definition cforto (a b : Z) (body : Z -> cmd S R unit) : cmd S R unit :=
  cblock (cloop a (Z.to_nat (b - a)) body).

(** [while(1) body] for at most [fuel] rounds: [true] when [break] left the
    loop, [false] when the rounds did not suffice. *)
Fixpoint cwhile1 (fuel : nat) (body : cmd S R unit) : cmd S R bool :=
  fun s =>
    match fuel with
    | O => (Go false, s)
    | Datatypes.S fuel' =>
        match body s with
        | (Go _, s') => cwhile1 fuel' body s'
        | (Brk, s') => (Go true, s')
        | (Ret r, s') => (Ret r, s')
        | (Abt, s') => (Abt, s')
        end
    end.
End Cmd.

(** A call of a C function with body [c]: its [return] gives the value of the
    call. *)
Definition ccall {S R A} (c : cmd S A A) : cmd S R A :=
  fun s =>
    match c s with
    | (Go a, s') | (Ret a, s') => (Go a, s')
    | (_, s') => (Abt, s')
    end.

Notation "x <- c ;; k" := (cbind c (fun x => k))
  (at level 100, c at next level, right associativity) : lp49_scope.
Notation "c ;; k" := (cbind c (fun _ => k))
  (at level 100, right associativity) : lp49_scope.
Open Scope lp49_scope.

(** ** Facts about machine integers *)

Ltac zwrap :=
  unfold u8, u16, u32, u64, s8, s32, s64 in *;
  change (2 ^ 7) with 128 in *; change (2 ^ 8) with 256 in *;
  change (2 ^ 16) with 65536 in *;
  change (2 ^ 31) with 2147483648 in *; change (2 ^ 32) with 4294967296 in *;
  change (2 ^ 63) with 9223372036854775808 in *;
  change (2 ^ 64) with 18446744073709551616 in *.

(** [zlia]: linear arithmetic that also knows the machine integers. *)
Ltac zlia := zwrap; Z.div_mod_to_equations; lia.

Create HintDb lp49.
Create Rewrite HintDb lp49.
Create Rewrite HintDb lp49w.

Lemma u8_range x : 0 <= u8 x < 256.
Proof. zlia. Qed.
Lemma u16_range x : 0 <= u16 x < 65536.
Proof. zlia. Qed.
Lemma u32_range x : 0 <= u32 x < 4294967296.
Proof. zlia. Qed.
Lemma u8_small x : 0 <= x < 256 -> u8 x = x.
Proof. intros; zlia. Qed.
Lemma u16_small x : 0 <= x < 65536 -> u16 x = x.
Proof. intros; zlia. Qed.
Lemma u32_small x : 0 <= x < 4294967296 -> u32 x = x.
Proof. intros; zlia. Qed.
Lemma u64_small x : 0 <= x < 18446744073709551616 -> u64 x = x.
Proof. intros; zlia. Qed.
Lemma s32_small x : -2147483648 <= x < 2147483648 -> s32 x = x.
Proof. intros; zlia. Qed.
Lemma u8_u8 x : u8 (u8 x) = u8 x.
Proof. zlia. Qed.

#[export] Hint Rewrite u8_u8 : lp49.
#[export] Hint Rewrite u8_small u16_small u32_small u64_small s32_small
  using lia : lp49w.

(** ** Facts about the statement monad *)

Section CmdFacts.
Context {S R : Type}.

Lemma cbind_go {A B} (c : cmd S R A) (k : A -> cmd S R B) s a s' :
  c s = (Go a, s') -> cbind c k s = k a s'.
Proof. intros H. unfold cbind. by rewrite H. Qed.

Lemma cbind_ret {A B} (c : cmd S R A) (k : A -> cmd S R B) s r s' :
  c s = (Ret r, s') -> cbind c k s = (Ret r, s').
Proof. intros H. unfold cbind. by rewrite H. Qed.

Lemma cbind_brk {A B} (c : cmd S R A) (k : A -> cmd S R B) s s' :
  c s = (Brk, s') -> cbind c k s = (Brk, s').
Proof. intros H. unfold cbind. by rewrite H. Qed.

(** Inversion of a sequence that runs to its end. *)
Lemma cbind_go_inv {A B} (c : cmd S R A) (k : A -> cmd S R B) s b s2 :
  cbind c k s = (Go b, s2) ->
  exists a s1, c s = (Go a, s1) /\ k a s1 = (Go b, s2).
Proof.
  unfold cbind. destruct (c s) as [[a| |r|] s1]; intros H; try discriminate.
  eauto.
Qed.
End CmdFacts.

(** *** Weakest preconditions: [wp c s Q] says that [Q] holds of the outcome
    and of the state in which [c] leaves when it starts in [s]. *)
Section Wp.
Context {S R : Type}.

Definition wp {A} (c : cmd S R A) (s : S) (Q : ctl R A -> S -> Prop) : Prop :=
  Q (fst (c s)) (snd (c s)).

Lemma wp_bind {A B} (c : cmd S R A) (k : A -> cmd S R B) s Q :
  wp c s (fun r s' =>
    match r with
    | Go a => wp (k a) s' Q
    | Brk => Q Brk s'
    | Ret v => Q (Ret v) s'
    | Abt => Q Abt s'
    end) ->
  wp (cbind c k) s Q.
Proof. unfold wp, cbind. by destruct (c s) as [[a| |r|] s']. Qed.

Lemma wp_ret {A} (a : A) s (Q : ctl R A -> S -> Prop) : Q (Go a) s -> wp (cret a) s Q.
Proof. done. Qed.
Lemma wp_return {A} (r : R) s (Q : ctl R A -> S -> Prop) : Q (Ret r) s -> wp (creturn r) s Q.
Proof. done. Qed.
Lemma wp_gets {A} (f : S -> A) s (Q : ctl R A -> S -> Prop) : Q (Go (f s)) s -> wp (cgets f) s Q.
Proof. done. Qed.

Lemma wp_block (c : cmd S R unit) s Q :
  wp c s (fun r s' => match r with Brk => Q (Go tt) s' | _ => Q r s' end) ->
  wp (cblock c) s Q.
Proof. unfold wp, cblock. by destruct (c s) as [[a| |r|] s']. Qed.

Lemma wp_conseq {A} (c : cmd S R A) s (Q Q' : ctl R A -> S -> Prop) :
  wp c s Q -> (forall r s', Q r s' -> Q' r s') -> wp c s Q'.
Proof. unfold wp. auto. Qed.
End Wp.
