(* ===== verification/Mem.v ===== *)
(** Byte-addressed memory, as the C code sees it: little-endian loads and
    stores, [memmove], [memset], [memcmp] and NUL-terminated strings, with the
    frame and round-trip lemmas every component uses. *)

From S2P Require Import Prelude.

(** ** Operations *)

Abbreviation mem := (gmap Z Z).

(** A byte that was never stored reads as 0; a load masks to 8 bits, as a
    store of a wider value does. *)
Definition rd8 (m : mem) (a : Z) : Z := u8 (default 0 (m !! a)).
Definition wr8 (m : mem) (a v : Z) : mem := <[a := u8 v]> m.

Fixpoint ld_bytes (m : mem) (p : Z) (n : nat) : list Z :=
  match n with
  | O => []
  | S n' => rd8 m p :: ld_bytes m (p + 1) n'
  end.

Fixpoint st_bytes (m : mem) (p : Z) (l : list Z) : mem :=
  match l with
  | [] => m
  | b :: l' => st_bytes (wr8 m p b) (p + 1) l'
  end.

(** [memmove(d, s, n)]: the source is read before the destination changes. *)
Definition memmove (m : mem) (d s n : Z) : mem :=
  st_bytes m d (ld_bytes m s (Z.to_nat n)).

Definition memset (m : mem) (d c n : Z) : mem :=
  st_bytes m d (replicate (Z.to_nat n) (u8 c)).

(** [strlen]. A run of non-zero bytes is stored bytes only, so one step more
    than the number of stored bytes always finds the terminator
    ([strlen_spec]). *)
Fixpoint strlen_fuel (fuel : nat) (m : mem) (s : Z) : Z :=
  match fuel with
  | O => 0
  | S f => if rd8 m s =? 0 then 0 else 1 + strlen_fuel f m (s + 1)
  end.

Definition strlen (m : mem) (s : Z) : Z := strlen_fuel (S (size m)) m s.

(** The little-endian bytes of a value, and back. *)
Fixpoint le (n : nat) (v : Z) : list Z :=
  match n with
  | O => []
  | S n' => u8 v :: le n' (v / 256)
  end.

Fixpoint unle (l : list Z) : Z :=
  match l with
  | [] => 0
  | b :: l' => b + 256 * unle l'
  end.

(** ** What the memory holds *)

Abbreviation byte_list := (Forall (fun b : Z => 0 <= b < 256)).

(** The bytes [l] are stored from address [p] on. *)
Definition bytes_at (m : mem) (p : Z) (l : list Z) : Prop :=
  ld_bytes m p (length l) = l.

(** The C string [s] (without its NUL) is stored at address [p]. *)
Definition cstr (m : mem) (p : Z) (s : list Z) : Prop :=
  bytes_at m p (s ++ [0]) /\ Forall (fun b => b <> 0) s.

(** [m'] differs from [m] at most in [lo, hi). *)
Definition same_out (lo hi : Z) (m m' : mem) : Prop :=
  forall a, ~ (lo <= a < hi) -> rd8 m' a = rd8 m a.

Definition zlen {A} (l : list A) : Z := Z.of_nat (length l).

(** ** Lemmas *)

Lemma zlen_nonneg {A} (l : list A) : 0 <= zlen l.
Proof. unfold zlen; lia. Qed.
Lemma zlen_nil {A} : zlen (@nil A) = 0.
Proof. done. Qed.
Lemma zlen_cons {A} (x : A) l : zlen (x :: l) = 1 + zlen l.
Proof. unfold zlen; simpl; lia. Qed.
Lemma zlen_app {A} (l k : list A) : zlen (l ++ k) = zlen l + zlen k.
Proof. unfold zlen; rewrite length_app; lia. Qed.
#[export] Hint Rewrite @zlen_nil @zlen_cons @zlen_app : lp49.

Lemma rd8_range m a : 0 <= rd8 m a < 256.
Proof. apply u8_range. Qed.

Lemma rd8_wr8_eq m a v : rd8 (wr8 m a v) a = u8 v.
Proof. unfold rd8, wr8. rewrite lookup_insert_eq. apply u8_u8. Qed.

Lemma rd8_wr8_ne m a b v : a <> b -> rd8 (wr8 m a v) b = rd8 m b.
Proof. intros. unfold rd8, wr8. by rewrite lookup_insert_ne. Qed.

Lemma length_ld_bytes m p n : length (ld_bytes m p n) = n.
Proof. revert p; induction n; intros; simpl; [done|by rewrite IHn]. Qed.

Lemma zlen_ld_bytes m p n : 0 <= n -> zlen (ld_bytes m p (Z.to_nat n)) = n.
Proof. intros. unfold zlen. rewrite length_ld_bytes. lia. Qed.

Lemma ld_bytes_range m p n : byte_list (ld_bytes m p n).
Proof.
  revert p; induction n; intros; constructor; [apply rd8_range|apply IHn].
Qed.

Lemma ld_bytes_app m p a b :
  ld_bytes m p (a + b) = ld_bytes m p a ++ ld_bytes m (p + Z.of_nat a) b.
Proof.
  revert p; induction a; intros; simpl.
  - by rewrite Z.add_0_r.
  - rewrite IHa. do 3 f_equal. lia.
Qed.

Lemma ld_bytes_ext m m' p n :
  (forall a, p <= a < p + Z.of_nat n -> rd8 m' a = rd8 m a) ->
  ld_bytes m' p n = ld_bytes m p n.
Proof.
  revert p; induction n; intros p H; simpl; [done|].
  f_equal; [apply H; lia|]. apply IHn. intros; apply H; lia.
Qed.

Lemma bytes_at_nil m p : bytes_at m p [].
Proof. done. Qed.

Lemma bytes_at_cons m p b l :
  bytes_at m p (b :: l) <-> rd8 m p = b /\ bytes_at m (p + 1) l.
Proof.
  unfold bytes_at; simpl. split.
  - intros H. by injection H.
  - intros [-> H]. by f_equal.
Qed.

Lemma bytes_at_app m p l k :
  bytes_at m p (l ++ k) <-> bytes_at m p l /\ bytes_at m (p + zlen l) k.
Proof.
  revert p; induction l as [|b l IH]; intros p; simpl.
  - rewrite zlen_nil, Z.add_0_r. split; [intros; split; [done|done]|by intros [_ ?]].
  - rewrite !bytes_at_cons, IH, zlen_cons.
    replace (p + 1 + zlen l) with (p + (1 + zlen l)) by lia. tauto.
Qed.

Lemma bytes_at_ld m p n : bytes_at m p (ld_bytes m p n).
Proof. unfold bytes_at. by rewrite length_ld_bytes. Qed.

Lemma bytes_at_ext m m' p l :
  (forall a, p <= a < p + zlen l -> rd8 m' a = rd8 m a) ->
  bytes_at m p l -> bytes_at m' p l.
Proof. unfold bytes_at, zlen. intros H E. by rewrite (ld_bytes_ext m m'). Qed.

Lemma bytes_at_ld_eq m p l n : bytes_at m p l -> n = zlen l ->
  ld_bytes m p (Z.to_nat n) = l.
Proof. intros H ->. unfold zlen. by rewrite Nat2Z.id. Qed.

Lemma rd8_st_bytes_out m p l a :
  ~ (p <= a < p + zlen l) -> rd8 (st_bytes m p l) a = rd8 m a.
Proof.
  revert m p; induction l as [|b l IH]; intros m p H; simpl; [done|].
  rewrite zlen_cons in H. rewrite IH by lia. apply rd8_wr8_ne. pose proof (zlen_nonneg l). lia.
Qed.

Lemma st_bytes_same_out m p l lo hi :
  lo <= p -> p + zlen l <= hi -> same_out lo hi m (st_bytes m p l).
Proof. intros ?? a ?. apply rd8_st_bytes_out. lia. Qed.

Lemma wr8_same_out m p v lo hi :
  lo <= p < hi -> same_out lo hi m (wr8 m p v).
Proof. intros ? a ?. apply rd8_wr8_ne. lia. Qed.

Lemma bytes_at_st_bytes m p l : byte_list l -> bytes_at (st_bytes m p l) p l.
Proof.
  revert m p; induction l as [|b l IH]; intros m p H; simpl; [done|].
  apply Forall_cons_1 in H as [Hb Hl]. apply bytes_at_cons. split; [|by apply IH].
  rewrite rd8_st_bytes_out by lia. rewrite rd8_wr8_eq. by apply u8_small.
Qed.

Lemma st_bytes_app m p l k :
  st_bytes m p (l ++ k) = st_bytes (st_bytes m p l) (p + zlen l) k.
Proof.
  revert m p; induction l as [|b l IH]; intros m p; simpl.
  - by rewrite zlen_nil, Z.add_0_r.
  - rewrite IH, zlen_cons. f_equal; lia.
Qed.

Lemma same_out_refl lo hi m : same_out lo hi m m.
Proof. by intros a _. Qed.

Lemma same_out_trans lo hi m1 m2 m3 :
  same_out lo hi m1 m2 -> same_out lo hi m2 m3 -> same_out lo hi m1 m3.
Proof. intros H1 H2 a Ha. by rewrite H2, H1. Qed.

Lemma same_out_weaken lo hi lo' hi' m m' :
  same_out lo hi m m' -> lo' <= lo -> hi <= hi' -> same_out lo' hi' m m'.
Proof. intros H ?? a Ha. apply H. lia. Qed.

#[export] Instance same_out_preorder lo hi : PreOrder (same_out lo hi).
Proof.
  split; [intros m; apply same_out_refl|intros m1 m2 m3; apply same_out_trans].
Qed.

Lemma bytes_at_same_out lo hi m m' p l :
  same_out lo hi m m' -> (p + zlen l <= lo \/ hi <= p) ->
  bytes_at m p l -> bytes_at m' p l.
Proof. intros H D. apply bytes_at_ext. intros; apply H; lia. Qed.

Lemma cstr_same_out lo hi m m' p s :
  same_out lo hi m m' -> (p + zlen s + 1 <= lo \/ hi <= p) ->
  cstr m p s -> cstr m' p s.
Proof.
  intros H D [B N]. split; [|done]. eapply bytes_at_same_out; eauto.
  rewrite zlen_app, zlen_cons, zlen_nil. lia.
Qed.

Lemma memmove_same_out m d s n lo hi :
  0 <= n -> lo <= d -> d + n <= hi -> same_out lo hi m (memmove m d s n).
Proof.
  intros. apply st_bytes_same_out; [done|]. rewrite zlen_ld_bytes; lia.
Qed.

Lemma bytes_at_memmove m d s n l :
  bytes_at m s l -> n = zlen l -> bytes_at (memmove m d s n) d l.
Proof.
  intros H ->. unfold memmove. rewrite (bytes_at_ld_eq m s l) by done.
  apply bytes_at_st_bytes. rewrite <- H. apply ld_bytes_range.
Qed.

Lemma bytes_at_memset m d c n :
  0 <= n -> bytes_at (memset m d c n) d (replicate (Z.to_nat n) (u8 c)).
Proof.
  intros. apply bytes_at_st_bytes. apply Forall_replicate, u8_range.
Qed.

Lemma zlen_replicate {A} n (x : A) : 0 <= n -> zlen (replicate (Z.to_nat n) x) = n.
Proof. intros. unfold zlen. rewrite length_replicate. lia. Qed.

Lemma memset_same_out m d c n lo hi :
  0 <= n -> lo <= d -> d + n <= hi -> same_out lo hi m (memset m d c n).
Proof.
  intros. apply st_bytes_same_out; [done|]. rewrite zlen_replicate; lia.
Qed.

(** *** Little-endian values *)

Lemma length_le n v : length (le n v) = n.
Proof. revert v; induction n; intros; simpl; [done|by rewrite IHn]. Qed.

Lemma zlen_le n v : zlen (le n v) = Z.of_nat n.
Proof. unfold zlen. by rewrite length_le. Qed.
#[export] Hint Rewrite zlen_le : lp49.

Lemma le_range n v : byte_list (le n v).
Proof. revert v; induction n; intros; constructor; [apply u8_range|apply IHn]. Qed.

Lemma unle_le n v : unle (le n v) = v mod 256 ^ Z.of_nat n.
Proof.
  revert v; induction n; intros v; [by rewrite Z.mod_1_r|].
  cbn [unle le]. rewrite IHn, Nat2Z.inj_succ, Z.pow_succ_r by lia.
  change (u8 v) with (v mod 256).
  rewrite Z.rem_mul_r by lia. lia.
Qed.

Lemma unle_range l : byte_list l -> 0 <= unle l < 256 ^ zlen l.
Proof.
  induction 1 as [|b l Hb _ IH]; [by vm_compute|].
  cbn [unle]. rewrite zlen_cons, Z.pow_add_r by (pose proof (zlen_nonneg l); lia).
  rewrite Z.pow_1_r. lia.
Qed.

Lemma le_unle l : byte_list l -> le (length l) (unle l) = l.
Proof.
  induction 1 as [|b l Hb _ IH]; [done|]. cbn [unle le length].
  assert ((b + 256 * unle l) / 256 = unle l) as -> by (Z.div_mod_to_equations; lia).
  rewrite IH. f_equal. zlia.
Qed.

Lemma lor_shiftl_add a b n :
  0 <= n -> 0 <= a < 2 ^ n -> Z.lor a (Z.shiftl b n) = a + b * 2 ^ n.
Proof.
  intros Hn Ha. rewrite <- Z.shiftl_mul_pow2 by done.
  assert (Z.land a (Z.shiftl b n) = 0) as L.
  { apply Z.bits_inj'. intros i Hi. rewrite Z.land_spec, Z.bits_0.
    destruct (Z.lt_ge_cases i n) as [|G].
    - rewrite Z.shiftl_spec_low by lia. apply andb_false_r.
    - rewrite <- (Z.mod_small a (2 ^ n)) by done.
      rewrite Z.mod_pow2_bits_high by lia. done. }
  pose proof (Z.add_lor_land a (Z.shiftl b n)) as E. lia.
Qed.

(** *** Strings *)

Lemma cstr_nil m p : rd8 m p = 0 -> cstr m p [].
Proof. intros H. split; [|constructor]. apply bytes_at_cons. split; done. Qed.

Lemma cstr_cons m p b s :
  cstr m p (b :: s) <-> rd8 m p = b /\ b <> 0 /\ cstr m (p + 1) s.
Proof.
  unfold cstr. simpl. rewrite bytes_at_cons, List.Forall_cons_iff. tauto.
Qed.

Lemma strlen_fuel_spec f m p s :
  cstr m p s -> (length s < f)%nat -> strlen_fuel f m p = zlen s.
Proof.
  revert m p s; induction f as [|f IH]; intros m p s H L; [lia|]; simpl.
  destruct s as [|b s].
  - destruct H as [H _]. apply bytes_at_cons in H as [H _]. by rewrite H.
  - apply cstr_cons in H as (<- & Hb & H).
    destruct (Z.eqb_spec (rd8 m p) 0); [done|].
    rewrite zlen_cons, (IH _ _ s) by (simpl in L; try done; lia). done.
Qed.

Lemma nonzero_run_size m p s :
  bytes_at m p s -> Forall (fun b => b <> 0) s -> (length s <= size m)%nat.
Proof.
  intros B N.
  assert (list_to_set (C := gset Z) (seqZ p (zlen s)) ⊆ dom m) as D.
  { intros a. rewrite elem_of_list_to_set, elem_of_seqZ, elem_of_dom. intros Ha.
    destruct (m !! a) eqn:E; [eauto|]. exfalso.
    assert (rd8 m a = 0) as Z0 by (unfold rd8; by rewrite E).
    revert p B N Ha. induction s as [|b s IH]; intros p B N Ha.
    - rewrite zlen_nil in Ha; lia.
    - apply bytes_at_cons in B as [Bb B]. apply Forall_cons_1 in N as [Nb N].
      rewrite zlen_cons in Ha. destruct (Z.eq_dec p a) as [->|]; [congruence|].
      apply (IH (p + 1)); auto; lia. }
  apply subseteq_size in D. rewrite size_dom in D.
  rewrite size_list_to_set in D by apply NoDup_seqZ.
  rewrite length_seqZ in D. unfold zlen in D. lia.
Qed.

(** [strlen] returns the length of the string stored at its argument. *)
Lemma strlen_spec m p s : cstr m p s -> strlen m p = zlen s.
Proof.
  intros H. apply strlen_fuel_spec; [done|]. destruct H as [B N].
  apply bytes_at_app in B as [B _]. pose proof (nonzero_run_size m p s B N). lia.
Qed.
