(* ===== verification/Links.v ===== *)
(** Singly linked lists in memory: the nodes at given addresses hold given values
    and lead to each other; list segments; queues with a head and a tail
    pointer. *)

From S2P Require Import Prelude.

Section Linked.
Context {A : Type}.
Implicit Types (f : Z -> option (A * Z)) (ps : list (Z * A)).

Definition hd_addr ps : Z := match ps with [] => 0 | (a, _) :: _ => a end.
Fixpoint last_addr ps : Z :=
  match ps with [] => 0 | [(a, _)] => a | _ :: r => last_addr r end.

(** The nodes at the addresses of [ps] hold its values and lead to each other. *)
Fixpoint linked f ps : Prop :=
  match ps with
  | [] => True
  | (a, x) :: r => a <> 0 /\ f a = Some (x, hd_addr r) /\ linked f r
  end.

Lemma linked_ext f f' ps :
  (forall a, a ∈ ps.*1 -> f' a = f a) -> linked f ps -> linked f' ps.
Proof.
induction ps as [|[a x] r IH]; [done|]. cbn. intros H (Ha & Hf & Hr). split_and!; [done| |].
- rewrite H; [done|]. by left.
- apply IH; [|done]. intros b Hb. apply H. by right.
Qed.

Lemma last_addr_snoc ps a x : last_addr (ps ++ [(a, x)]) = a.
Proof.
induction ps as [|[b y] r IH]; [done|]. cbn [app].
destruct r as [|[c z] r']; [done|]. exact IH.
Qed.

Lemma hd_addr_snoc ps a x : hd_addr (ps ++ [(a, x)]) = if decide (ps = []) then a else hd_addr ps.
Proof. destruct ps as [|[b y] r]; cbn; [done|]. by rewrite decide_False. Qed.

Lemma linked_hd_nz f ps : linked f ps -> ps <> [] -> hd_addr ps <> 0.
Proof. destruct ps as [|[a x] r]; [done|]. by intros (? & _). Qed.

Lemma last_addr_nz f ps : linked f ps -> ps <> [] -> last_addr ps <> 0 /\ last_addr ps ∈ ps.*1.
Proof.
intros H Hne. destruct ps as [|[a x] r _] using rev_ind; [done|].
rewrite last_addr_snoc. split.
- clear Hne. induction r as [|[b y] r IH]; cbn in H; [by destruct H|].
  destruct H as (_ & _ & H). by apply IH.
- rewrite fmap_app. apply elem_of_app. right. by left.
Qed.

(** Appending the node [a]: the last node is linked to it. *)
Lemma linked_snoc f f' ps a x :
  linked f ps -> NoDup ps.*1 -> a <> 0 -> a ∉ ps.*1 ->
  f' a = Some (x, 0) ->
  (forall b y n, b ∈ ps.*1 -> f b = Some (y, n) ->
     f' b = Some (y, if decide (b = last_addr ps) then a else n)) ->
  linked f' (ps ++ [(a, x)]).
Proof.
induction ps as [|[b y] r IH]; cbn [app linked]; intros H Hnd Ha Hni Hfa Hf.
{ by split_and!. }
destruct H as (Hb & Hfb & Hr). cbn in Hnd, Hni. apply list.NoDup_cons in Hnd as [Hbr Hnd].
apply not_elem_of_cons in Hni as [Hab Har].
split_and!; [done| |].
- rewrite (Hf b y (hd_addr r)) by (done || by left). f_equal. f_equal.
  rewrite hd_addr_snoc. destruct r as [|[c z] r'].
  + cbn. by rewrite decide_True.
  + rewrite (decide_False (P := (c, z) :: r' = [])) by done. rewrite decide_False; [done|].
    intros Heq. apply Hbr. rewrite Heq.
    change (last_addr ((b, y) :: (c, z) :: r')) with (last_addr ((c, z) :: r')).
    by eapply last_addr_nz.
- apply IH; try done. intros c z n Hc Hfc.
  rewrite (Hf c z n) by (done || by right). f_equal. f_equal.
  destruct r as [|[d w] r']; [by apply not_elem_of_nil in Hc|].
  change (last_addr ((b, y) :: (d, w) :: r')) with (last_addr ((d, w) :: r')). done.
Qed.
End Linked.

(** A queue with head and tail pointers. *)
Definition queue_rep {A} (f : Z -> option (A * Z)) (head tail : Z) (ps : list (Z * A)) : Prop :=
  head = hd_addr ps /\ tail = last_addr ps /\ linked f ps /\ NoDup ps.*1.

Lemma queue_rep_pop {A} (f : Z -> option (A * Z)) head tail a x ps :
  queue_rep f head tail ((a, x) :: ps) ->
  head = a /\ a <> 0 /\ f a = Some (x, hd_addr ps) /\ (a ∉ ps.*1) /\
  queue_rep f (hd_addr ps) (if decide (hd_addr ps = 0) then 0 else tail) ps.
Proof.
intros (Hh & Ht & (Ha & Hf & Hl) & Hnd). cbn in Hnd. apply list.NoDup_cons in Hnd as [Hni Hnd].
split_and!; try done. split_and!; try done.
destruct ps as [|[b y] r]; [done|]. rewrite decide_False; [done|]. by destruct Hl.
Qed.

(** *** Segments: lists that end at a given address *)

Section Seg.
Context {A : Type}.
Implicit Types (f : Z -> option (A * Z)) (ps : list (Z * A)).

Definition hd_or ps (e : Z) : Z := match ps with [] => e | (a, _) :: _ => a end.

Fixpoint seg f ps (e : Z) : Prop :=
  match ps with
  | [] => True
  | (a, x) :: r => a <> 0 /\ f a = Some (x, hd_or r e) /\ seg f r e
  end.

Lemma hd_or_app ps qs e : hd_or (ps ++ qs) e = hd_or ps (hd_or qs e).
Proof. by destruct ps as [|[a x] r]. Qed.

Lemma seg_app f ps qs e : seg f (ps ++ qs) e <-> seg f ps (hd_or qs e) /\ seg f qs e.
Proof.
induction ps as [|[a x] r IH]; cbn [app seg]; [tauto|]. rewrite IH, hd_or_app. tauto.
Qed.

Lemma seg_ext f f' ps e : (forall a, a ∈ ps.*1 -> f' a = f a) -> seg f ps e -> seg f' ps e.
Proof.
induction ps as [|[a x] r IH]; [done|]. cbn. intros H (Ha & Hf & Hr). split_and!; [done| |].
- rewrite H; [done|]. by left.
- apply IH; [|done]. intros b Hb. apply H. by right.
Qed.

Lemma seg_in f ps e a : seg f ps e -> a ∈ ps.*1 -> a <> 0 /\ is_Some (f a).
Proof.
induction ps as [|[b x] r IH]; cbn; [by intros _ H%not_elem_of_nil|].
intros (Hb & Hf & Hr) [->|Ha]%elem_of_cons; [by eauto|by apply IH].
Qed.

Lemma seg_lookup f ps e a x : seg f ps e -> (a, x) ∈ ps -> exists n, f a = Some (x, n).
Proof.
induction ps as [|[b y] r IH]; cbn; [by intros _ H%not_elem_of_nil|].
intros (Hb & Hf & Hr) [[= -> ->]|Ha]%elem_of_cons; [by eauto|by apply IH].
Qed.

(** The last node's link is set to [e']. *)
Lemma seg_relink f f' ps a x e e' : seg f (ps ++ [(a, x)]) e -> NoDup (ps ++ [(a, x)]).*1 ->
  f' a = Some (x, e') -> (forall b, b <> a -> f' b = f b) -> seg f' (ps ++ [(a, x)]) e'.
Proof.
rewrite !seg_app. cbn. intros (H1 & Ha & _ & _) Hnd Hfa Hf. split_and!; try done.
eapply seg_ext; [|exact H1]. intros b Hb. apply Hf. intros ->.
rewrite fmap_app in Hnd. apply list.NoDup_app in Hnd as (_ & Hnd & _).
apply (Hnd a Hb). apply list_elem_of_here.
Qed.

(** A node's value is changed. *)
Lemma seg_update f f' ps qs a x y e : seg f (ps ++ (a, x) :: qs) e -> NoDup (ps ++ (a, x) :: qs).*1 ->
  (forall n, f a = Some (x, n) -> f' a = Some (y, n)) -> (forall b, b <> a -> f' b = f b) ->
  seg f' (ps ++ (a, y) :: qs) e.
Proof.
rewrite !seg_app. cbn. intros (H1 & Ha & Hfa & H2) Hnd Hf' Hf.
rewrite fmap_app in Hnd. cbn in Hnd. apply list.NoDup_app in Hnd as (_ & Hnd & Hnd2).
apply list.NoDup_cons in Hnd2 as [Hnd2 _]. split_and!; try done.
- eapply seg_ext; [|exact H1]. intros b Hb. apply Hf. intros ->. apply (Hnd a Hb), list_elem_of_here.
- by apply Hf'.
- eapply seg_ext; [|exact H2]. intros b Hb. apply Hf. by intros ->.
Qed.

(** A list has no more nodes than the map that holds them. *)
Lemma seg_size {B} (m : gmap Z B) f ps e : seg f ps e -> NoDup ps.*1 ->
  (forall a, is_Some (f a) -> is_Some (m !! a)) -> (length ps <= size m)%nat.
Proof.
intros Hs Hnd Hm. rewrite <- (length_fmap fst ps). rewrite <- size_dom.
rewrite <- (size_list_to_set (C := gset Z) ps.*1) by done.
apply subseteq_size. intros a Ha. apply elem_of_list_to_set in Ha. apply elem_of_dom.
apply Hm. by apply (seg_in f ps e).
Qed.
End Seg.
