(* ===== verification/Counts.v ===== *)
(** Counting the objects of a heap that satisfy a property: how many of them hold
    a reference to another object. *)

From S2P Require Import Prelude.

Section Counts.
Context {V : Type}.
Implicit Types (m : gmap Z V) (P Q : V -> Prop).

Definition cnt (P : V -> Prop) `{forall v, Decision (P v)} m : Z :=
  Z.of_nat (size (filter (fun p : Z * V => P p.2) m)).

Definition b2z (A : Prop) `{Decision A} : Z := if decide A then 1 else 0.

Lemma b2z_range (A : Prop) `{Decision A} : 0 <= b2z A <= 1.
Proof. unfold b2z. case_decide; lia. Qed.

Lemma b2z_true (A : Prop) `{Decision A} : A -> b2z A = 1.
Proof. intros. unfold b2z. by rewrite decide_True. Qed.

Lemma b2z_false (A : Prop) `{Decision A} : ~ A -> b2z A = 0.
Proof. intros. unfold b2z. by rewrite decide_False. Qed.

Context (P : V -> Prop) `{forall v, Decision (P v)}.

Lemma cnt_nonneg m : 0 <= cnt P m.
Proof. unfold cnt. lia. Qed.

Lemma cnt_empty : cnt P ∅ = 0.
Proof. unfold cnt. by rewrite map_filter_empty. Qed.

Lemma cnt_insert_new m i v : m !! i = None -> cnt P (<[i := v]> m) = cnt P m + b2z (P v).
Proof.
intros Hi. unfold cnt, b2z. case_decide.
- rewrite map_filter_insert_True by done. rewrite map_size_insert_None; [lia|].
  apply map_lookup_filter_None. by left.
- rewrite map_filter_insert_False by done. rewrite delete_id by done. lia.
Qed.

Lemma cnt_delete m i u : m !! i = Some u -> cnt P (delete i m) = cnt P m - b2z (P u).
Proof.
intros Hi. unfold cnt, b2z. rewrite map_filter_delete. case_decide as Hd.
- assert (filter (fun p : Z * V => P p.2) m !! i = Some u) as Hl by (by apply map_lookup_filter_Some).
  rewrite map_size_delete_Some by done.
  assert (size (filter (fun p : Z * V => P p.2) m) <> 0%nat); [|lia].
  apply map_size_non_empty_iff. intros E. rewrite E in Hl. done.
- rewrite delete_id; [lia|]. apply map_lookup_filter_None. right. intros x Hx. by simplify_eq.
Qed.

Lemma cnt_update m i u v : m !! i = Some u -> cnt P (<[i := v]> m) = cnt P m - b2z (P u) + b2z (P v).
Proof.
intros Hi. rewrite <- insert_delete_eq, cnt_insert_new by apply lookup_delete_eq.
by rewrite (cnt_delete m i u).
Qed.

Lemma cnt_pos m i u : m !! i = Some u -> P u -> 0 < cnt P m.
Proof.
intros Hi Hu. pose proof (cnt_delete m i u Hi) as E. rewrite b2z_true in E by done.
unfold cnt in *. lia.
Qed.

(** Updates that do not change what is counted. *)
Lemma cnt_keep m i u v : m !! i = Some u -> (P u <-> P v) -> cnt P (<[i := v]> m) = cnt P m.
Proof.
intros Hi Hp. rewrite (cnt_update m i u) by done. unfold b2z. repeat case_decide; try lia; tauto.
Qed.

Lemma cnt_zero m : (forall i u, m !! i = Some u -> ~ P u) -> cnt P m = 0.
Proof.
intros Hno. unfold cnt. rewrite map_empty_filter_2; [done|]. intros i u Hi. by apply (Hno i).
Qed.
End Counts.

Lemma cnt_mono {V} (P Q : V -> Prop) `{forall v, Decision (P v)} `{forall v, Decision (Q v)} (m : gmap Z V) :
  (forall i u, m !! i = Some u -> P u -> Q u) -> cnt P m <= cnt Q m.
Proof.
intros Hpq. unfold cnt. apply inj_le, map_subseteq_size.
apply map_subseteq_spec. intros i u [Hu Hp]%map_lookup_filter_Some.
apply map_lookup_filter_Some. split; [done|]. by apply (Hpq i).
Qed.

