(* ===== verification/Fcall9P.v ===== *)
(** The 9P2000 wire format: the [Fcall] structure and the conversions between
    it and the message bytes, include/fcall.h and src/libc/9sys/convM2S.c,
    convS2M.c and read9pmsg.c.

    Pointers are addresses of a flat 32-bit memory and [padd] is the addition
    the processor performs. The union inside [Fcall] is modelled by one field
    per member: each message type reads and writes the members of one arm
    only, so no value is seen through another arm. Strings and data are
    pointers into the memory, as in the code: [convM2S] leaves them pointing
    into the message buffer, which it edits in place. *)

From S2P Require Import Prelude Mem.

(** ** fcall.h *)

Definition BIT8SZ : Z := 1.
Definition BIT16SZ : Z := 2.
Definition BIT32SZ : Z := 4.
Definition BIT64SZ : Z := 8.
Definition QIDSZ : Z := BIT8SZ + BIT32SZ + BIT64SZ.
Definition STATFIXLEN : Z :=
  BIT16SZ + QIDSZ + 5 * BIT16SZ + 4 * BIT32SZ + 1 * BIT64SZ.
Definition MAXWELEM : Z := 16.
Definition NOTAG : Z := 65535.
Definition NOFID : Z := 4294967295.
Definition IOHDRSZ : Z := 24.

Definition Tversion : Z := 100.
Definition Rversion : Z := 101.
Definition Tauth : Z := 102.
Definition Rauth : Z := 103.
Definition Tattach : Z := 104.
Definition Rattach : Z := 105.
Definition Terror : Z := 106.
Definition Rerror : Z := 107.
Definition Tflush : Z := 108.
Definition Rflush : Z := 109.
Definition Twalk : Z := 110.
Definition Rwalk : Z := 111.
Definition Topen : Z := 112.
Definition Ropen : Z := 113.
Definition Tcreate : Z := 114.
Definition Rcreate : Z := 115.
Definition Tread : Z := 116.
Definition Rread : Z := 117.
Definition Twrite : Z := 118.
Definition Rwrite : Z := 119.
Definition Tclunk : Z := 120.
Definition Rclunk : Z := 121.
Definition Tremove : Z := 122.
Definition Rremove : Z := 123.
Definition Tstat : Z := 124.
Definition Rstat : Z := 125.
Definition Twstat : Z := 126.
Definition Rwstat : Z := 127.
Definition Tmax : Z := 128.

(** The [GBIT] macros give the bits they read; [GBIT32] is an [int] expression
    in C, a caller that keeps it in an [int] applies [s32]. *)
Definition GBIT8 (m : mem) (p : Z) : Z := rd8 m p.
Definition GBIT16 (m : mem) (p : Z) : Z :=
  Z.lor (rd8 m p) (Z.shiftl (rd8 m (p + 1)) 8).
Definition GBIT32 (m : mem) (p : Z) : Z :=
  Z.lor (Z.lor (Z.lor (rd8 m p) (Z.shiftl (rd8 m (p + 1)) 8))
               (Z.shiftl (rd8 m (p + 2)) 16))
        (Z.shiftl (rd8 m (p + 3)) 24).
Definition GBIT64 (m : mem) (p : Z) : Z :=
  Z.lor (GBIT32 m p) (Z.shiftl (GBIT32 m (p + 4)) 32).

Definition PBIT8 (m : mem) (p v : Z) : mem := wr8 m p v.
Definition PBIT16 (m : mem) (p v : Z) : mem :=
  wr8 (wr8 m p v) (p + 1) (Z.shiftr v 8).
Definition PBIT32 (m : mem) (p v : Z) : mem :=
  wr8 (wr8 (wr8 (wr8 m p v) (p + 1) (Z.shiftr v 8))
           (p + 2) (Z.shiftr v 16))
      (p + 3) (Z.shiftr v 24).
Definition PBIT64 (m : mem) (p v : Z) : mem :=
  wr8 (wr8 (wr8 (wr8 (PBIT32 m p v)
       (p + 4) (Z.shiftr v 32)) (p + 5) (Z.shiftr v 40))
       (p + 6) (Z.shiftr v 48)) (p + 7) (Z.shiftr v 56).

Record Qid := MkQid { q_path : Z; q_vers : Z; q_type : Z }.

Record Fcall := MkFcall {
  f_type : Z;  (* uchar *)
  f_fid : Z;  (* u32int *)
  f_tag : Z;  (* ushort *)
  f_msize : Z;  (* Tversion, Rversion *)
  f_version : Z;  (* char* *)
  f_oldtag : Z;  (* Tflush *)
  f_ename : Z;  (* Rerror, char* *)
  f_qid : Qid;  (* Rattach, Ropen, Rcreate *)
  f_iounit : Z;  (* Ropen, Rcreate *)
  f_aqid : Qid;  (* Rauth *)
  f_afid : Z;  (* Tauth, Tattach *)
  f_uname : Z;  (* char* *)
  f_aname : Z;  (* char* *)
  f_perm : Z;  (* Tcreate *)
  f_name : Z;  (* Tcreate, char* *)
  f_mode : Z;  (* Tcreate, Topen *)
  f_newfid : Z;  (* Twalk *)
  f_nwname : Z;  (* Twalk *)
  f_wname : list Z;  (* Twalk, char*[MAXWELEM] *)
  f_nwqid : Z;  (* Rwalk *)
  f_wqid : list Qid;  (* Rwalk, Qid[MAXWELEM] *)
  f_offset : Z;  (* Tread, Twrite, vlong *)
  f_count : Z;  (* Tread, Twrite, Rread *)
  f_data : Z;  (* Twrite, Rread, char* *)
  f_nstat : Z;  (* Twstat, Rstat *)
  f_stat : Z  (* Twstat, Rstat, uchar* *)
}.

Definition set_f_type (x : Z) (f : Fcall) : Fcall :=
  MkFcall x (f_fid f) (f_tag f) (f_msize f) (f_version f) (f_oldtag f) (f_ename
     f) (f_qid f) (f_iounit f) (f_aqid f) (f_afid f) (f_uname f) (f_aname
     f) (f_perm f) (f_name f) (f_mode f) (f_newfid f) (f_nwname f) (f_wname
     f) (f_nwqid f) (f_wqid f) (f_offset f) (f_count f) (f_data f) (f_nstat
     f) (f_stat f).
Definition set_f_fid (x : Z) (f : Fcall) : Fcall :=
  MkFcall (f_type f) x (f_tag f) (f_msize f) (f_version f) (f_oldtag f) (f_ename
     f) (f_qid f) (f_iounit f) (f_aqid f) (f_afid f) (f_uname f) (f_aname
     f) (f_perm f) (f_name f) (f_mode f) (f_newfid f) (f_nwname f) (f_wname
     f) (f_nwqid f) (f_wqid f) (f_offset f) (f_count f) (f_data f) (f_nstat
     f) (f_stat f).
Definition set_f_tag (x : Z) (f : Fcall) : Fcall :=
  MkFcall (f_type f) (f_fid f) x (f_msize f) (f_version f) (f_oldtag f) (f_ename
     f) (f_qid f) (f_iounit f) (f_aqid f) (f_afid f) (f_uname f) (f_aname
     f) (f_perm f) (f_name f) (f_mode f) (f_newfid f) (f_nwname f) (f_wname
     f) (f_nwqid f) (f_wqid f) (f_offset f) (f_count f) (f_data f) (f_nstat
     f) (f_stat f).
Definition set_f_msize (x : Z) (f : Fcall) : Fcall :=
  MkFcall (f_type f) (f_fid f) (f_tag f) x (f_version f) (f_oldtag f) (f_ename
     f) (f_qid f) (f_iounit f) (f_aqid f) (f_afid f) (f_uname f) (f_aname
     f) (f_perm f) (f_name f) (f_mode f) (f_newfid f) (f_nwname f) (f_wname
     f) (f_nwqid f) (f_wqid f) (f_offset f) (f_count f) (f_data f) (f_nstat
     f) (f_stat f).
Definition set_f_version (x : Z) (f : Fcall) : Fcall :=
  MkFcall (f_type f) (f_fid f) (f_tag f) (f_msize f) x (f_oldtag f) (f_ename f)
     (f_qid f) (f_iounit f) (f_aqid f) (f_afid f) (f_uname f) (f_aname f)
     (f_perm f) (f_name f) (f_mode f) (f_newfid f) (f_nwname f) (f_wname f)
     (f_nwqid f) (f_wqid f) (f_offset f) (f_count f) (f_data f) (f_nstat f)
     (f_stat f).
Definition set_f_oldtag (x : Z) (f : Fcall) : Fcall :=
  MkFcall (f_type f) (f_fid f) (f_tag f) (f_msize f) (f_version f) x (f_ename f)
     (f_qid f) (f_iounit f) (f_aqid f) (f_afid f) (f_uname f) (f_aname f)
     (f_perm f) (f_name f) (f_mode f) (f_newfid f) (f_nwname f) (f_wname f)
     (f_nwqid f) (f_wqid f) (f_offset f) (f_count f) (f_data f) (f_nstat f)
     (f_stat f).
Definition set_f_ename (x : Z) (f : Fcall) : Fcall :=
  MkFcall (f_type f) (f_fid f) (f_tag f) (f_msize f) (f_version f) (f_oldtag f)
     x (f_qid f) (f_iounit f) (f_aqid f) (f_afid f) (f_uname f) (f_aname f)
     (f_perm f) (f_name f) (f_mode f) (f_newfid f) (f_nwname f) (f_wname f)
     (f_nwqid f) (f_wqid f) (f_offset f) (f_count f) (f_data f) (f_nstat f)
     (f_stat f).
Definition set_f_qid (x : Qid) (f : Fcall) : Fcall :=
  MkFcall (f_type f) (f_fid f) (f_tag f) (f_msize f) (f_version f) (f_oldtag f)
     (f_ename f) x (f_iounit f) (f_aqid f) (f_afid f) (f_uname f) (f_aname
     f) (f_perm f) (f_name f) (f_mode f) (f_newfid f) (f_nwname f) (f_wname
     f) (f_nwqid f) (f_wqid f) (f_offset f) (f_count f) (f_data f) (f_nstat
     f) (f_stat f).
Definition set_f_iounit (x : Z) (f : Fcall) : Fcall :=
  MkFcall (f_type f) (f_fid f) (f_tag f) (f_msize f) (f_version f) (f_oldtag f)
     (f_ename f) (f_qid f) x (f_aqid f) (f_afid f) (f_uname f) (f_aname f)
     (f_perm f) (f_name f) (f_mode f) (f_newfid f) (f_nwname f) (f_wname f)
     (f_nwqid f) (f_wqid f) (f_offset f) (f_count f) (f_data f) (f_nstat f)
     (f_stat f).
Definition set_f_aqid (x : Qid) (f : Fcall) : Fcall :=
  MkFcall (f_type f) (f_fid f) (f_tag f) (f_msize f) (f_version f) (f_oldtag f)
     (f_ename f) (f_qid f) (f_iounit f) x (f_afid f) (f_uname f) (f_aname
     f) (f_perm f) (f_name f) (f_mode f) (f_newfid f) (f_nwname f) (f_wname
     f) (f_nwqid f) (f_wqid f) (f_offset f) (f_count f) (f_data f) (f_nstat
     f) (f_stat f).
Definition set_f_afid (x : Z) (f : Fcall) : Fcall :=
  MkFcall (f_type f) (f_fid f) (f_tag f) (f_msize f) (f_version f) (f_oldtag f)
     (f_ename f) (f_qid f) (f_iounit f) (f_aqid f) x (f_uname f) (f_aname
     f) (f_perm f) (f_name f) (f_mode f) (f_newfid f) (f_nwname f) (f_wname
     f) (f_nwqid f) (f_wqid f) (f_offset f) (f_count f) (f_data f) (f_nstat
     f) (f_stat f).
Definition set_f_uname (x : Z) (f : Fcall) : Fcall :=
  MkFcall (f_type f) (f_fid f) (f_tag f) (f_msize f) (f_version f) (f_oldtag f)
     (f_ename f) (f_qid f) (f_iounit f) (f_aqid f) (f_afid f) x (f_aname f)
     (f_perm f) (f_name f) (f_mode f) (f_newfid f) (f_nwname f) (f_wname f)
     (f_nwqid f) (f_wqid f) (f_offset f) (f_count f) (f_data f) (f_nstat f)
     (f_stat f).
Definition set_f_aname (x : Z) (f : Fcall) : Fcall :=
  MkFcall (f_type f) (f_fid f) (f_tag f) (f_msize f) (f_version f) (f_oldtag f)
     (f_ename f) (f_qid f) (f_iounit f) (f_aqid f) (f_afid f) (f_uname f) x
     (f_perm f) (f_name f) (f_mode f) (f_newfid f) (f_nwname f) (f_wname f)
     (f_nwqid f) (f_wqid f) (f_offset f) (f_count f) (f_data f) (f_nstat f)
     (f_stat f).
Definition set_f_perm (x : Z) (f : Fcall) : Fcall :=
  MkFcall (f_type f) (f_fid f) (f_tag f) (f_msize f) (f_version f) (f_oldtag f)
     (f_ename f) (f_qid f) (f_iounit f) (f_aqid f) (f_afid f) (f_uname f)
     (f_aname f) x (f_name f) (f_mode f) (f_newfid f) (f_nwname f) (f_wname
     f) (f_nwqid f) (f_wqid f) (f_offset f) (f_count f) (f_data f) (f_nstat
     f) (f_stat f).
Definition set_f_name (x : Z) (f : Fcall) : Fcall :=
  MkFcall (f_type f) (f_fid f) (f_tag f) (f_msize f) (f_version f) (f_oldtag f)
     (f_ename f) (f_qid f) (f_iounit f) (f_aqid f) (f_afid f) (f_uname f)
     (f_aname f) (f_perm f) x (f_mode f) (f_newfid f) (f_nwname f) (f_wname
     f) (f_nwqid f) (f_wqid f) (f_offset f) (f_count f) (f_data f) (f_nstat
     f) (f_stat f).
Definition set_f_mode (x : Z) (f : Fcall) : Fcall :=
  MkFcall (f_type f) (f_fid f) (f_tag f) (f_msize f) (f_version f) (f_oldtag f)
     (f_ename f) (f_qid f) (f_iounit f) (f_aqid f) (f_afid f) (f_uname f)
     (f_aname f) (f_perm f) (f_name f) x (f_newfid f) (f_nwname f) (f_wname
     f) (f_nwqid f) (f_wqid f) (f_offset f) (f_count f) (f_data f) (f_nstat
     f) (f_stat f).
Definition set_f_newfid (x : Z) (f : Fcall) : Fcall :=
  MkFcall (f_type f) (f_fid f) (f_tag f) (f_msize f) (f_version f) (f_oldtag f)
     (f_ename f) (f_qid f) (f_iounit f) (f_aqid f) (f_afid f) (f_uname f)
     (f_aname f) (f_perm f) (f_name f) (f_mode f) x (f_nwname f) (f_wname
     f) (f_nwqid f) (f_wqid f) (f_offset f) (f_count f) (f_data f) (f_nstat
     f) (f_stat f).
Definition set_f_nwname (x : Z) (f : Fcall) : Fcall :=
  MkFcall (f_type f) (f_fid f) (f_tag f) (f_msize f) (f_version f) (f_oldtag f)
     (f_ename f) (f_qid f) (f_iounit f) (f_aqid f) (f_afid f) (f_uname f)
     (f_aname f) (f_perm f) (f_name f) (f_mode f) (f_newfid f) x (f_wname
     f) (f_nwqid f) (f_wqid f) (f_offset f) (f_count f) (f_data f) (f_nstat
     f) (f_stat f).
Definition set_f_wname (x : list Z) (f : Fcall) : Fcall :=
  MkFcall (f_type f) (f_fid f) (f_tag f) (f_msize f) (f_version f) (f_oldtag f)
     (f_ename f) (f_qid f) (f_iounit f) (f_aqid f) (f_afid f) (f_uname f)
     (f_aname f) (f_perm f) (f_name f) (f_mode f) (f_newfid f) (f_nwname f)
     x (f_nwqid f) (f_wqid f) (f_offset f) (f_count f) (f_data f) (f_nstat
     f) (f_stat f).
Definition set_f_nwqid (x : Z) (f : Fcall) : Fcall :=
  MkFcall (f_type f) (f_fid f) (f_tag f) (f_msize f) (f_version f) (f_oldtag f)
     (f_ename f) (f_qid f) (f_iounit f) (f_aqid f) (f_afid f) (f_uname f)
     (f_aname f) (f_perm f) (f_name f) (f_mode f) (f_newfid f) (f_nwname f)
     (f_wname f) x (f_wqid f) (f_offset f) (f_count f) (f_data f) (f_nstat
     f) (f_stat f).
Definition set_f_wqid (x : list Qid) (f : Fcall) : Fcall :=
  MkFcall (f_type f) (f_fid f) (f_tag f) (f_msize f) (f_version f) (f_oldtag f)
     (f_ename f) (f_qid f) (f_iounit f) (f_aqid f) (f_afid f) (f_uname f)
     (f_aname f) (f_perm f) (f_name f) (f_mode f) (f_newfid f) (f_nwname f)
     (f_wname f) (f_nwqid f) x (f_offset f) (f_count f) (f_data f) (f_nstat
     f) (f_stat f).
Definition set_f_offset (x : Z) (f : Fcall) : Fcall :=
  MkFcall (f_type f) (f_fid f) (f_tag f) (f_msize f) (f_version f) (f_oldtag f)
     (f_ename f) (f_qid f) (f_iounit f) (f_aqid f) (f_afid f) (f_uname f)
     (f_aname f) (f_perm f) (f_name f) (f_mode f) (f_newfid f) (f_nwname f)
     (f_wname f) (f_nwqid f) (f_wqid f) x (f_count f) (f_data f) (f_nstat
     f) (f_stat f).
Definition set_f_count (x : Z) (f : Fcall) : Fcall :=
  MkFcall (f_type f) (f_fid f) (f_tag f) (f_msize f) (f_version f) (f_oldtag f)
     (f_ename f) (f_qid f) (f_iounit f) (f_aqid f) (f_afid f) (f_uname f)
     (f_aname f) (f_perm f) (f_name f) (f_mode f) (f_newfid f) (f_nwname f)
     (f_wname f) (f_nwqid f) (f_wqid f) (f_offset f) x (f_data f) (f_nstat
     f) (f_stat f).
Definition set_f_data (x : Z) (f : Fcall) : Fcall :=
  MkFcall (f_type f) (f_fid f) (f_tag f) (f_msize f) (f_version f) (f_oldtag f)
     (f_ename f) (f_qid f) (f_iounit f) (f_aqid f) (f_afid f) (f_uname f)
     (f_aname f) (f_perm f) (f_name f) (f_mode f) (f_newfid f) (f_nwname f)
     (f_wname f) (f_nwqid f) (f_wqid f) (f_offset f) (f_count f) x (f_nstat
     f) (f_stat f).
Definition set_f_nstat (x : Z) (f : Fcall) : Fcall :=
  MkFcall (f_type f) (f_fid f) (f_tag f) (f_msize f) (f_version f) (f_oldtag f)
     (f_ename f) (f_qid f) (f_iounit f) (f_aqid f) (f_afid f) (f_uname f)
     (f_aname f) (f_perm f) (f_name f) (f_mode f) (f_newfid f) (f_nwname f)
     (f_wname f) (f_nwqid f) (f_wqid f) (f_offset f) (f_count f) (f_data f)
     x (f_stat f).
Definition set_f_stat (x : Z) (f : Fcall) : Fcall :=
  MkFcall (f_type f) (f_fid f) (f_tag f) (f_msize f) (f_version f) (f_oldtag f)
     (f_ename f) (f_qid f) (f_iounit f) (f_aqid f) (f_afid f) (f_uname f)
     (f_aname f) (f_perm f) (f_name f) (f_mode f) (f_newfid f) (f_nwname f)
     (f_wname f) (f_nwqid f) (f_wqid f) (f_offset f) (f_count f) (f_data f)
     (f_nstat f) x.

Definition nil : Z := 0.

(** Pointer plus integer on the 32-bit target. *)
Definition padd (p n : Z) : Z := u32 (p + n).

(** ** convM2S.c *)

Definition gstring (m : mem) (p ep : Z) : option (mem * Z * Z) :=
  if decide (ep < padd p BIT16SZ) then None
  else
    let n := GBIT16 m p in
    let p := padd p (BIT16SZ - 1) in
    if decide (ep < padd p (n + 1)) then None
    else
      let m := memmove m p (padd p 1) n in
      let m := wr8 m (padd p n) 0 in
      Some (m, p, padd p (n + 1)).

Definition gqid (m : mem) (p ep : Z) : option (Qid * Z) :=
  if decide (ep < padd p QIDSZ) then None
  else
    let type := GBIT8 m p in
    let p := padd p BIT8SZ in
    let vers := GBIT32 m p in
    let p := padd p BIT32SZ in
    let path := GBIT64 m p in
    Some (MkQid path vers type, padd p BIT64SZ).

(** The variables of [convM2S]: the memory, [p] and [*f]. *)
Record m2s := M2S { m_mem : mem; m_p : Z; m_f : Fcall }.

Section ConvM2S.
Variable ep : Z.

Let cm := cmd m2s Z.

(** [if(p+n > ep) return 0;] *)
Definition need (n : Z) : cm unit := fun s =>
  if decide (ep < padd (m_p s) n) then (Ret 0, s) else (Go tt, s).

(** [x = GBITn(p); p += BITnSZ;] *)
Definition g8 : cm Z := fun s =>
  (Go (GBIT8 (m_mem s) (m_p s)), M2S (m_mem s) (padd (m_p s) BIT8SZ) (m_f s)).
Definition g16 : cm Z := fun s =>
  (Go (GBIT16 (m_mem s) (m_p s)), M2S (m_mem s) (padd (m_p s) BIT16SZ) (m_f s)).
Definition g32 : cm Z := fun s =>
  (Go (GBIT32 (m_mem s) (m_p s)), M2S (m_mem s) (padd (m_p s) BIT32SZ) (m_f s)).
Definition g64 : cm Z := fun s =>
  (Go (GBIT64 (m_mem s) (m_p s)), M2S (m_mem s) (padd (m_p s) BIT64SZ) (m_f s)).

(** [f->field = ...;] *)
Definition setf (g : Fcall -> Fcall) : cm unit := fun s =>
  (Go tt, M2S (m_mem s) (m_p s) (g (m_f s))).

(** [p = gstring(p, ep, &f->field);] *)
Definition gstr (set : Z -> Fcall -> Fcall) : cm unit := fun s =>
  match gstring (m_mem s) (m_p s) ep with
  | Some (m', str, p') => (Go tt, M2S m' p' (set str (m_f s)))
  | None => (Go tt, M2S (m_mem s) nil (m_f s))
  end.

(** [p = gqid(p, ep, &f->field);] *)
Definition gqd (set : Qid -> Fcall -> Fcall) : cm unit := fun s =>
  match gqid (m_mem s) (m_p s) ep with
  | Some (q, p') => (Go tt, M2S (m_mem s) p' (set q (m_f s)))
  | None => (Go tt, M2S (m_mem s) nil (m_f s))
  end.

(** [if(p == nil) break;] *)
Definition brk_nil : cm unit := fun s =>
  if decide (m_p s = nil) then (Brk, s) else (Go tt, s).

(** [if(p+f->count > ep) return 0; f->data = p; p += f->count;], the data of
    a message. *)
Definition gdata (count : Fcall -> Z) (set : Z -> Fcall -> Fcall) : cm unit :=
  f <- cgets m_f;;
  need (count f);;
  p <- cgets m_p;;
  setf (set p);;
  fun s => (Go tt, M2S (m_mem s) (padd (m_p s) (count f)) (m_f s)).

Definition get32 (set : Z -> Fcall -> Fcall) : cm unit := x <- g32;; setf (set x).
Definition get16 (set : Z -> Fcall -> Fcall) : cm unit := x <- g16;; setf (set x).
Definition get8 (set : Z -> Fcall -> Fcall) : cm unit := x <- g8;; setf (set x).
Definition get64s (set : Z -> Fcall -> Fcall) : cm unit :=
  x <- g64;; setf (set (s64 x)).

Definition set_wname (i s : Z) (f : Fcall) : Fcall :=
  set_f_wname (<[Z.to_nat i := s]> (f_wname f)) f.
Definition set_wqid (i : Z) (q : Qid) (f : Fcall) : Fcall :=
  set_f_wqid (<[Z.to_nat i := q]> (f_wqid f)) f.

(** The cases of the switch, in the order of the source. *)
Definition m2s_version : cm unit :=
  need BIT32SZ;; get32 set_f_msize;; gstr set_f_version.

Definition m2s_Tflush : cm unit := need BIT16SZ;; get16 set_f_oldtag.

Definition m2s_Tauth : cm unit :=
  need BIT32SZ;; get32 set_f_afid;;
  gstr set_f_uname;; brk_nil;;
  gstr set_f_aname;; brk_nil.

Definition m2s_Tattach : cm unit :=
  need BIT32SZ;; get32 set_f_fid;;
  need BIT32SZ;; get32 set_f_afid;;
  gstr set_f_uname;; brk_nil;;
  gstr set_f_aname;; brk_nil.

Definition m2s_Twalk : cm unit :=
  need (BIT32SZ + BIT32SZ + BIT16SZ);;
  get32 set_f_fid;; get32 set_f_newfid;; get16 set_f_nwname;;
  f <- cgets m_f;;
  if decide (MAXWELEM < f_nwname f) then creturn 0
  else cfor (f_nwname f) (fun i => gstr (set_wname i);; brk_nil).

Definition m2s_Topen : cm unit :=
  need (BIT32SZ + BIT8SZ);; get32 set_f_fid;; get8 set_f_mode.

Definition m2s_Tcreate : cm unit :=
  need BIT32SZ;; get32 set_f_fid;;
  gstr set_f_name;; brk_nil;;
  need (BIT32SZ + BIT8SZ);; get32 set_f_perm;; get8 set_f_mode.

Definition m2s_Tread : cm unit :=
  need (BIT32SZ + BIT64SZ + BIT32SZ);;
  get32 set_f_fid;; get64s set_f_offset;; get32 set_f_count.

Definition m2s_Twrite : cm unit :=
  need (BIT32SZ + BIT64SZ + BIT32SZ);;
  get32 set_f_fid;; get64s set_f_offset;; get32 set_f_count;;
  gdata f_count set_f_data.

Definition m2s_fid : cm unit := need BIT32SZ;; get32 set_f_fid.

Definition m2s_Twstat : cm unit :=
  need (BIT32SZ + BIT16SZ);; get32 set_f_fid;; get16 set_f_nstat;;
  gdata f_nstat set_f_stat.

Definition m2s_Rerror : cm unit := gstr set_f_ename.
Definition m2s_Rauth : cm unit := gqd set_f_aqid;; brk_nil.
Definition m2s_Rattach : cm unit := gqd set_f_qid;; brk_nil.

Definition m2s_Rwalk : cm unit :=
  need BIT16SZ;; get16 set_f_nwqid;;
  f <- cgets m_f;;
  if decide (MAXWELEM < f_nwqid f) then creturn 0
  else cfor (f_nwqid f) (fun i => gqd (set_wqid i);; brk_nil).

Definition m2s_Ropen : cm unit :=
  gqd set_f_qid;; brk_nil;;
  need BIT32SZ;; get32 set_f_iounit.

Definition m2s_Rread : cm unit :=
  need BIT32SZ;; get32 set_f_count;; gdata f_count set_f_data.

Definition m2s_Rwrite : cm unit := need BIT32SZ;; get32 set_f_count.

Definition m2s_Rstat : cm unit :=
  need BIT16SZ;; get16 set_f_nstat;; gdata f_nstat set_f_stat.

(** [switch(f->type)]. *)
Definition m2s_T (t : Z) : option (cm unit) :=
  if t =? Tversion then Some m2s_version
  else if t =? Tflush then Some m2s_Tflush
  else if t =? Tauth then Some m2s_Tauth
  else if t =? Tattach then Some m2s_Tattach
  else if t =? Twalk then Some m2s_Twalk
  else if t =? Topen then Some m2s_Topen
  else if t =? Tcreate then Some m2s_Tcreate
  else if t =? Tread then Some m2s_Tread
  else if t =? Twrite then Some m2s_Twrite
  else if (t =? Tclunk) || (t =? Tremove) then Some m2s_fid
  else if t =? Tstat then Some m2s_fid
  else if t =? Twstat then Some m2s_Twstat
  else None.

Definition m2s_R (t : Z) : option (cm unit) :=
  if t =? Rversion then Some m2s_version
  else if t =? Rerror then Some m2s_Rerror
  else if t =? Rflush then Some (cret tt)
  else if t =? Rauth then Some m2s_Rauth
  else if t =? Rattach then Some m2s_Rattach
  else if t =? Rwalk then Some m2s_Rwalk
  else if (t =? Ropen) || (t =? Rcreate) then Some m2s_Ropen
  else if t =? Rread then Some m2s_Rread
  else if t =? Rwrite then Some m2s_Rwrite
  else if (t =? Rclunk) || (t =? Rremove) then Some (cret tt)
  else if t =? Rstat then Some m2s_Rstat
  else if t =? Rwstat then Some (cret tt)
  else None.

Definition m2s_switch (t : Z) : cm unit :=
  match m2s_T t with
  | Some c => c
  | None => match m2s_R t with
            | Some c => c
            | None => creturn 0
            end
  end.

Definition m2s_prog (ap : Z) : cm unit :=
  need (BIT32SZ + BIT8SZ + BIT16SZ);;
  size <- g32;;
  if decide (size < BIT32SZ + BIT8SZ + BIT16SZ) then creturn 0
  else
    get8 set_f_type;; get16 set_f_tag;;
    f <- cgets m_f;;
    cblock (m2s_switch (f_type f));;
    p <- cgets m_p;;
    if decide (p = nil \/ ep < p) then creturn 0
    else if decide (padd ap size = p) then creturn size
    else creturn 0.
End ConvM2S.

(** [convM2S(ap, nap, f)]: the value returned, the memory with the strings
    moved, and [*f]. Every path of the program ends in a [return]. *)
Definition convM2S (ap nap : Z) (m : mem) (f : Fcall) : Z * mem * Fcall :=
  match m2s_prog (padd ap nap) ap (M2S m ap f) with
  | (Ret n, s) => (n, m_mem s, m_f s)
  | (_, s) => (0, m_mem s, m_f s)
  end.

(** ** convS2M.c *)

Definition pstring (m : mem) (p s : Z) : mem * Z :=
  if decide (s = nil) then (PBIT16 m p 0, padd p BIT16SZ)
  else
    let n := strlen m s in
    let m := PBIT16 m p n in
    let p := padd p BIT16SZ in
    let m := memmove m p s n in
    (m, padd p n).

Definition pqid (m : mem) (p : Z) (q : Qid) : mem * Z :=
  let m := PBIT8 m p (q_type q) in
  let p := padd p BIT8SZ in
  let m := PBIT32 m p (q_vers q) in
  let p := padd p BIT32SZ in
  let m := PBIT64 m p (q_path q) in
  (m, padd p BIT64SZ).

Definition stringsz (m : mem) (s : Z) : Z :=
  if decide (s = nil) then BIT16SZ else u32 (BIT16SZ + strlen m s).

(** [for(i=0; i<f->nwname; i++) n += stringsz(f->wname[i]);] [None] when the
    loop reads past the array. *)
Fixpoint size_wnames (m : mem) (f : Fcall) (i k : nat) (n : Z) : option Z :=
  match k with
  | O => Some n
  | S k' =>
      s ← f_wname f !! i;
      size_wnames m f (S i) k' (u32 (n + stringsz m s))
  end.

Definition sizeS2M_T (m : mem) (f : Fcall) (n : Z) : option (option Z) :=
  let t := f_type f in
  if t =? Tversion then Some (Some (u32 (n + BIT32SZ + stringsz m (f_version f))))
  else if t =? Tflush then Some (Some (n + BIT16SZ))
  else if t =? Tauth then
    Some (Some (u32 (n + BIT32SZ + stringsz m (f_uname f) + stringsz m (f_aname f))))
  else if t =? Tattach then
    Some (Some (u32 (n + BIT32SZ + BIT32SZ + stringsz m (f_uname f)
                     + stringsz m (f_aname f))))
  else if t =? Twalk then
    Some (size_wnames m f 0 (Z.to_nat (f_nwname f)) (n + BIT32SZ + BIT32SZ + BIT16SZ))
  else if t =? Topen then Some (Some (n + BIT32SZ + BIT8SZ))
  else if t =? Tcreate then
    Some (Some (u32 (n + BIT32SZ + stringsz m (f_name f) + BIT32SZ + BIT8SZ)))
  else if t =? Tread then Some (Some (n + BIT32SZ + BIT64SZ + BIT32SZ))
  else if t =? Twrite then
    Some (Some (u32 (n + BIT32SZ + BIT64SZ + BIT32SZ + f_count f)))
  else if (t =? Tclunk) || (t =? Tremove) then Some (Some (n + BIT32SZ))
  else if t =? Tstat then Some (Some (n + BIT32SZ))
  else if t =? Twstat then Some (Some (u32 (n + BIT32SZ + BIT16SZ + f_nstat f)))
  else None.

Definition sizeS2M_R (m : mem) (f : Fcall) (n : Z) : option Z :=
  let t := f_type f in
  if t =? Rversion then Some (u32 (n + BIT32SZ + stringsz m (f_version f)))
  else if t =? Rerror then Some (u32 (n + stringsz m (f_ename f)))
  else if t =? Rflush then Some n
  else if t =? Rauth then Some (n + QIDSZ)
  else if t =? Rattach then Some (n + QIDSZ)
  else if t =? Rwalk then Some (u32 (n + BIT16SZ + f_nwqid f * QIDSZ))
  else if (t =? Ropen) || (t =? Rcreate) then Some (n + QIDSZ + BIT32SZ)
  else if t =? Rread then Some (u32 (n + BIT32SZ + f_count f))
  else if t =? Rwrite then Some (n + BIT32SZ)
  else if t =? Rclunk then Some n
  else if t =? Rremove then Some n
  else if t =? Rstat then Some (u32 (n + BIT16SZ + f_nstat f))
  else if t =? Rwstat then Some n
  else None.

(** [sizeS2M(f)]; the outer [None] is a read outside [f->wname]. *)
Definition sizeS2M (m : mem) (f : Fcall) : option Z :=
  let n := BIT32SZ + BIT8SZ + BIT16SZ in
  match sizeS2M_T m f n with
  | Some r => r
  | None => match sizeS2M_R m f n with
            | Some r => Some r
            | None => Some 0
            end
  end.

(** The variables of [convS2M]: the memory and [p]. *)
Definition s2m : Type := mem * Z.

Section ConvS2M.
Variable f : Fcall.

Let cm := cmd s2m Z unit.

Definition pb8 (v : Z) : cm := fun '(m, p) => (Go tt, (PBIT8 m p v, padd p BIT8SZ)).
Definition pb16 (v : Z) : cm := fun '(m, p) => (Go tt, (PBIT16 m p v, padd p BIT16SZ)).
Definition pb32 (v : Z) : cm := fun '(m, p) => (Go tt, (PBIT32 m p v, padd p BIT32SZ)).
Definition pb64 (v : Z) : cm := fun '(m, p) => (Go tt, (PBIT64 m p v, padd p BIT64SZ)).
Definition pstr (s : Z) : cm := fun '(m, p) => (Go tt, pstring m p s).
Definition pqd (q : Qid) : cm := fun '(m, p) => (Go tt, pqid m p q).
(** [memmove(p, data, n); p += n;] *)
Definition pdata (data n : Z) : cm :=
  fun '(m, p) => (Go tt, (memmove m p data n, padd p n)).

Definition s2m_version : cm := pb32 (f_msize f);; pstr (f_version f).
Definition s2m_Tflush : cm := pb16 (f_oldtag f).
Definition s2m_Tauth : cm := pb32 (f_afid f);; pstr (f_uname f);; pstr (f_aname f).
Definition s2m_Tattach : cm :=
  pb32 (f_fid f);; pb32 (f_afid f);; pstr (f_uname f);; pstr (f_aname f).
Definition s2m_Twalk : cm :=
  pb32 (f_fid f);; pb32 (f_newfid f);; pb16 (f_nwname f);;
  if decide (MAXWELEM < f_nwname f) then creturn 0
  else cfor (f_nwname f) (fun i =>
         match f_wname f !! Z.to_nat i with
         | Some s => pstr s
         | None => cabort
         end).
Definition s2m_Topen : cm := pb32 (f_fid f);; pb8 (f_mode f).
Definition s2m_Tcreate : cm :=
  pb32 (f_fid f);; pstr (f_name f);; pb32 (f_perm f);; pb8 (f_mode f).
Definition s2m_Tread : cm :=
  pb32 (f_fid f);; pb64 (f_offset f);; pb32 (f_count f).
Definition s2m_Twrite : cm :=
  pb32 (f_fid f);; pb64 (f_offset f);; pb32 (f_count f);;
  pdata (f_data f) (f_count f).
Definition s2m_fid : cm := pb32 (f_fid f).
Definition s2m_Twstat : cm :=
  pb32 (f_fid f);; pb16 (f_nstat f);; pdata (f_stat f) (f_nstat f).
Definition s2m_Rerror : cm := pstr (f_ename f).
Definition s2m_Rauth : cm := pqd (f_aqid f).
Definition s2m_Rattach : cm := pqd (f_qid f).
Definition s2m_Rwalk : cm :=
  pb16 (f_nwqid f);;
  if decide (MAXWELEM < f_nwqid f) then creturn 0
  else cfor (f_nwqid f) (fun i =>
         match f_wqid f !! Z.to_nat i with
         | Some q => pqd q
         | None => cabort
         end).
Definition s2m_Ropen : cm := pqd (f_qid f);; pb32 (f_iounit f).
Definition s2m_Rread : cm := pb32 (f_count f);; pdata (f_data f) (f_count f).
Definition s2m_Rwrite : cm := pb32 (f_count f).
Definition s2m_Rstat : cm := pb16 (f_nstat f);; pdata (f_stat f) (f_nstat f).

Definition s2m_T : option cm :=
  let t := f_type f in
  if t =? Tversion then Some s2m_version
  else if t =? Tflush then Some s2m_Tflush
  else if t =? Tauth then Some s2m_Tauth
  else if t =? Tattach then Some s2m_Tattach
  else if t =? Twalk then Some s2m_Twalk
  else if t =? Topen then Some s2m_Topen
  else if t =? Tcreate then Some s2m_Tcreate
  else if t =? Tread then Some s2m_Tread
  else if t =? Twrite then Some s2m_Twrite
  else if (t =? Tclunk) || (t =? Tremove) then Some s2m_fid
  else if t =? Tstat then Some s2m_fid
  else if t =? Twstat then Some s2m_Twstat
  else None.

Definition s2m_R : option cm :=
  let t := f_type f in
  if t =? Rversion then Some s2m_version
  else if t =? Rerror then Some s2m_Rerror
  else if t =? Rflush then Some (cret tt)
  else if t =? Rauth then Some s2m_Rauth
  else if t =? Rattach then Some s2m_Rattach
  else if t =? Rwalk then Some s2m_Rwalk
  else if (t =? Ropen) || (t =? Rcreate) then Some s2m_Ropen
  else if t =? Rread then Some s2m_Rread
  else if t =? Rwrite then Some s2m_Rwrite
  else if t =? Rclunk then Some (cret tt)
  else if t =? Rremove then Some (cret tt)
  else if t =? Rstat then Some s2m_Rstat
  else if t =? Rwstat then Some (cret tt)
  else None.

Definition s2m_switch : cm :=
  match s2m_T with
  | Some c => c
  | None => match s2m_R with
            | Some c => c
            | None => creturn 0
            end
  end.

Definition s2m_prog (ap size : Z) : cm :=
  pb32 size;; pb8 (f_type f);; pb16 (f_tag f);;
  cblock s2m_switch;;
  p <- cgets snd;;
  if decide (size <> u32 (p - ap)) then creturn 0 else creturn size.
End ConvS2M.

(** [convS2M(f, ap, nap)]: the value returned and the memory; [None] when the
    code reads outside the array [f->wname] or [f->wqid]. *)
Definition convS2M (f : Fcall) (ap nap : Z) (m : mem) : option (Z * mem) :=
  match sizeS2M m f with
  | None => None
  | Some size =>
      if decide (size = 0) then Some (0, m)
      else if decide (nap < size) then Some (0, m)
      else match s2m_prog f ap size (m, ap) with
           | (Ret n, (m', _)) => Some (n, m')
           | (_, _) => None
           end
  end.
