(* ===== verification/Fcall9PSpec.v ===== *)
(** The contract of the 9P2000 conversions: an abstract message type, its wire
    encoding [enc], and the proofs that [convS2M] writes [enc] and that
    [convM2S] reads exactly the messages [enc] produces. *)

From S2P Require Import Prelude Mem Fcall9P.

(** ** Abstract messages and their encoding *)

Abbreviation bytes := (list Z).

Inductive msg :=
  | MTversion (msize : Z) (version : bytes)
  | MTflush (oldtag : Z)
  | MTauth (afid : Z) (uname aname : bytes)
  | MTattach (fid afid : Z) (uname aname : bytes)
  | MTwalk (fid newfid : Z) (wname : list bytes)
  | MTopen (fid mode : Z)
  | MTcreate (fid : Z) (name : bytes) (perm mode : Z)
  | MTread (fid offset count : Z)
  | MTwrite (fid offset : Z) (data : bytes)
  | MTclunk (fid : Z)
  | MTremove (fid : Z)
  | MTstat (fid : Z)
  | MTwstat (fid : Z) (stat : bytes)
  | MRversion (msize : Z) (version : bytes)
  | MRerror (ename : bytes)
  | MRflush
  | MRauth (aqid : Qid)
  | MRattach (qid : Qid)
  | MRwalk (wqid : list Qid)
  | MRopen (qid : Qid) (iounit : Z)
  | MRcreate (qid : Qid) (iounit : Z)
  | MRread (data : bytes)
  | MRwrite (count : Z)
  | MRclunk
  | MRremove
  | MRstat (stat : bytes)
  | MRwstat.

Definition mtype (g : msg) : Z :=
  match g with
  | MTversion _ _ => Tversion | MTflush _ => Tflush | MTauth _ _ _ => Tauth
  | MTattach _ _ _ _ => Tattach | MTwalk _ _ _ => Twalk | MTopen _ _ => Topen
  | MTcreate _ _ _ _ => Tcreate | MTread _ _ _ => Tread | MTwrite _ _ _ => Twrite
  | MTclunk _ => Tclunk | MTremove _ => Tremove | MTstat _ => Tstat
  | MTwstat _ _ => Twstat
  | MRversion _ _ => Rversion | MRerror _ => Rerror | MRflush => Rflush
  | MRauth _ => Rauth | MRattach _ => Rattach | MRwalk _ => Rwalk
  | MRopen _ _ => Ropen | MRcreate _ _ => Rcreate | MRread _ => Rread
  | MRwrite _ => Rwrite | MRclunk => Rclunk | MRremove => Rremove
  | MRstat _ => Rstat | MRwstat => Rwstat
  end.

Definition enc_str (s : bytes) : bytes := le 2 (zlen s) ++ s.
Definition enc_qid (q : Qid) : bytes :=
  le 1 (q_type q) ++ le 4 (q_vers q) ++ le 8 (q_path q).

Definition enc_body (g : msg) : bytes :=
  match g with
  | MTversion ms v | MRversion ms v => le 4 ms ++ enc_str v
  | MTflush t => le 2 t
  | MTauth a u n => le 4 a ++ enc_str u ++ enc_str n
  | MTattach f a u n => le 4 f ++ le 4 a ++ enc_str u ++ enc_str n
  | MTwalk f nf ws =>
      le 4 f ++ le 4 nf ++ le 2 (zlen ws) ++ concat (enc_str <$> ws)
  | MTopen f md => le 4 f ++ le 1 md
  | MTcreate f n pm md => le 4 f ++ enc_str n ++ le 4 pm ++ le 1 md
  | MTread f off c => le 4 f ++ le 8 off ++ le 4 c
  | MTwrite f off d => le 4 f ++ le 8 off ++ le 4 (zlen d) ++ d
  | MTclunk f | MTremove f | MTstat f => le 4 f
  | MTwstat f st => le 4 f ++ le 2 (zlen st) ++ st
  | MRerror e => enc_str e
  | MRauth q | MRattach q => enc_qid q
  | MRwalk qs => le 2 (zlen qs) ++ concat (enc_qid <$> qs)
  | MRopen q io | MRcreate q io => enc_qid q ++ le 4 io
  | MRread d => le 4 (zlen d) ++ d
  | MRwrite c => le 4 c
  | MRstat st => le 2 (zlen st) ++ st
  | MRflush | MRclunk | MRremove | MRwstat => []
  end.

Definition msg_size (g : msg) : Z := 7 + zlen (enc_body g).

Definition enc (tag : Z) (g : msg) : bytes :=
  le 4 (msg_size g) ++ le 1 (mtype g) ++ le 2 tag ++ enc_body g.

(** The limits of the format: field widths, 16-bit string lengths, at most
    [MAXWELEM] walk elements, a 32-bit message size. *)
Definition is8 (x : Z) : Prop := 0 <= x < 2 ^ 8.
Definition is16 (x : Z) : Prop := 0 <= x < 2 ^ 16.
Definition is32 (x : Z) : Prop := 0 <= x < 2 ^ 32.
Definition is64 (x : Z) : Prop := 0 <= x < 2 ^ 64.
Definition is_vlong (x : Z) : Prop := - 2 ^ 63 <= x < 2 ^ 63.
Definition wf_str (s : bytes) : Prop := is16 (zlen s).
Definition wf_qid (q : Qid) : Prop :=
  is8 (q_type q) /\ is32 (q_vers q) /\ is64 (q_path q).

Definition wf_msg (g : msg) : Prop :=
  match g with
  | MTversion ms v | MRversion ms v => is32 ms /\ wf_str v
  | MTflush t => is16 t
  | MTauth a u n => is32 a /\ wf_str u /\ wf_str n
  | MTattach f a u n => is32 f /\ is32 a /\ wf_str u /\ wf_str n
  | MTwalk f nf ws =>
      is32 f /\ is32 nf /\ zlen ws <= MAXWELEM /\ Forall wf_str ws
  | MTopen f md => is32 f /\ is8 md
  | MTcreate f n pm md => is32 f /\ wf_str n /\ is32 pm /\ is8 md
  | MTread f off c => is32 f /\ is_vlong off /\ is32 c
  | MTwrite f off d => is32 f /\ is_vlong off /\ is32 (zlen d)
  | MTclunk f | MTremove f | MTstat f => is32 f
  | MTwstat f st => is32 f /\ is16 (zlen st)
  | MRerror e => wf_str e
  | MRauth q | MRattach q => wf_qid q
  | MRwalk qs => zlen qs <= MAXWELEM /\ Forall wf_qid qs
  | MRopen q io | MRcreate q io => wf_qid q /\ is32 io
  | MRread d => is32 (zlen d)
  | MRwrite c => is32 c
  | MRstat st => is16 (zlen st)
  | MRflush | MRclunk | MRremove | MRwstat => True
  end.

(** The members of an [Fcall] that a message of type [f_type] uses, as an
    abstract message. [PS p s] says that the string pointer [p] stands for [s],
    [PD p d] that the data pointer [p] stands for [d]. *)
Section Rep.
Variables PS PD : Z -> bytes -> Prop.

Definition rep_body (f : Fcall) (g : msg) : Prop :=
  match g with
  | MTversion ms v | MRversion ms v => f_msize f = ms /\ PS (f_version f) v
  | MTflush t => f_oldtag f = t
  | MTauth a u n => f_afid f = a /\ PS (f_uname f) u /\ PS (f_aname f) n
  | MTattach fd a u n =>
      f_fid f = fd /\ f_afid f = a /\ PS (f_uname f) u /\ PS (f_aname f) n
  | MTwalk fd nf ws =>
      f_fid f = fd /\ f_newfid f = nf /\ f_nwname f = zlen ws /\
      forall i s, ws !! i = Some s -> exists p, f_wname f !! i = Some p /\ PS p s
  | MTopen fd md => f_fid f = fd /\ f_mode f = md
  | MTcreate fd n pm md =>
      f_fid f = fd /\ PS (f_name f) n /\ f_perm f = pm /\ f_mode f = md
  | MTread fd off c => f_fid f = fd /\ f_offset f = off /\ f_count f = c
  | MTwrite fd off d =>
      f_fid f = fd /\ f_offset f = off /\ f_count f = zlen d /\ PD (f_data f) d
  | MTclunk fd | MTremove fd | MTstat fd => f_fid f = fd
  | MTwstat fd st => f_fid f = fd /\ f_nstat f = zlen st /\ PD (f_stat f) st
  | MRerror e => PS (f_ename f) e
  | MRauth q => f_aqid f = q
  | MRattach q => f_qid f = q
  | MRwalk qs =>
      f_nwqid f = zlen qs /\ forall i q, qs !! i = Some q -> f_wqid f !! i = Some q
  | MRopen q io | MRcreate q io => f_qid f = q /\ f_iounit f = io
  | MRread d => f_count f = zlen d /\ PD (f_data f) d
  | MRwrite c => f_count f = c
  | MRstat st => f_nstat f = zlen st /\ PD (f_stat f) st
  | MRflush | MRclunk | MRremove | MRwstat => True
  end.

Definition rep (f : Fcall) (tag : Z) (g : msg) : Prop :=
  f_type f = mtype g /\ f_tag f = tag /\ rep_body f g.
End Rep.

(** A string argument of [convS2M]: [nil] stands for the empty string; the
    string lies outside the buffer [lo, hi) that is being filled. *)
Definition src_str (m : mem) (lo hi p : Z) (s : bytes) : Prop :=
  (p = nil /\ s = []) \/
  (p <> nil /\ cstr m p s /\ (p + zlen s + 1 <= lo \/ hi <= p)).

Definition src_data (m : mem) (lo hi p : Z) (d : bytes) : Prop :=
  bytes_at m p d /\ (p + zlen d <= lo \/ hi <= p).

(** A string or data result of [convM2S]: NUL-terminated bytes (data: bytes)
    inside the message buffer [lo, hi). *)
Definition buf_str (m : mem) (lo hi p : Z) (s : bytes) : Prop :=
  bytes_at m p (s ++ [0]) /\ lo <= p /\ p + zlen s + 1 <= hi.

Definition buf_data (m : mem) (lo hi p : Z) (d : bytes) : Prop :=
  bytes_at m p d /\ lo <= p /\ p + zlen d <= hi.

Definition wrap_msg : bytes :=
  le 4 22 ++ le 1 Twrite ++ le 2 1 ++ le 4 7 ++ le 8 0 ++ le 4 4294967295.

Definition fcall0 : Fcall :=
  MkFcall 0 0 0 0 0 0 0 (MkQid 0 0 0) 0 (MkQid 0 0 0) 0 0 0 0 0 0 0 0
    (replicate 16 0) 0 (replicate 16 (MkQid 0 0 0)) 0 0 0 0 0.

(** A walk request for the two names "ab" and "c", in C memory: the strings at
    addresses 100 and 200, the message buffer at 4096. *)
Definition walk_msg : msg := MTwalk 1 2 [[97; 98]; [99]].
Definition walk_mem : mem := st_bytes (st_bytes ∅ 100 [97; 98; 0]) 200 [99; 0].
Definition walk_fcall : Fcall :=
  set_f_type Twalk (set_f_tag 5 (set_f_fid 1 (set_f_newfid 2 (set_f_nwname 2
    (set_f_wname (100 :: 200 :: replicate 14 0) fcall0))))).

(** ** The byte macros are little-endian loads and stores *)

Lemma wr8_u8 m p v : wr8 m p (u8 v) = wr8 m p v.
Proof. unfold wr8. by rewrite u8_u8. Qed.

(** Put the addresses [p + a + b] in the form [p + c]. *)
Ltac addrs :=
  repeat match goal with
    | |- context [?p + Z.pos ?a + Z.pos ?b] =>
        let c := eval vm_compute in (Z.pos a + Z.pos b) in
        replace (p + Z.pos a + Z.pos b) with (p + c) by lia
    end.

Ltac shr := rewrite ?Z.shiftr_div_pow2 by lia; cbn [Z.pow Z.pow_pos Pos.iter Z.mul Pos.mul].

Lemma PBIT8_st m p v : PBIT8 m p v = st_bytes m p (le 1 v).
Proof. cbn [le st_bytes]. by rewrite wr8_u8. Qed.

Lemma PBIT16_st m p v : PBIT16 m p v = st_bytes m p (le 2 v).
Proof. cbn [le st_bytes]. rewrite !wr8_u8. unfold PBIT16. by shr. Qed.

Lemma PBIT32_st m p v : PBIT32 m p v = st_bytes m p (le 4 v).
Proof.
  cbn [le st_bytes]. rewrite !wr8_u8, !Z.div_div by lia.
  unfold PBIT32. shr. by addrs.
Qed.

Lemma PBIT64_st m p v : PBIT64 m p v = st_bytes m p (le 8 v).
Proof.
  cbn [le st_bytes]. rewrite !wr8_u8, !Z.div_div by lia.
  unfold PBIT64, PBIT32. shr. by addrs.
Qed.

Lemma GBIT16_ld m p : GBIT16 m p = unle (ld_bytes m p 2).
Proof.
  unfold GBIT16. pose proof (rd8_range m p).
  rewrite lor_shiftl_add by lia. cbn [ld_bytes unle]. lia.
Qed.

Lemma GBIT32_ld m p : GBIT32 m p = unle (ld_bytes m p 4).
Proof.
  unfold GBIT32. pose proof (rd8_range m p). pose proof (rd8_range m (p + 1)).
  pose proof (rd8_range m (p + 2)).
  rewrite (lor_shiftl_add _ _ 8), (lor_shiftl_add _ _ 16), (lor_shiftl_add _ _ 24) by lia.
  addrs. cbn [ld_bytes unle]. addrs. lia.
Qed.

Lemma GBIT64_ld m p : GBIT64 m p = unle (ld_bytes m p 8).
Proof.
  unfold GBIT64. rewrite !GBIT32_ld.
  pose proof (unle_range (ld_bytes m p 4) (ld_bytes_range m p 4)) as R.
  change (zlen (ld_bytes m p 4)) with 4 in R.
  rewrite lor_shiftl_add by (change (256 ^ 4) with 4294967296 in R; lia).
  addrs. cbn [ld_bytes unle]. addrs. lia.
Qed.

#[global] Arguments le : simpl never.
#[global] Arguments ld_bytes : simpl never.
#[global] Arguments unle : simpl never.

(** ** [convS2M] writes the encoding *)

(** Evaluate the comparisons of a [switch] on a known message type. *)
Ltac eval_type :=
  cbv [Tversion Rversion Tauth Rauth Tattach Rattach Terror Rerror Tflush Rflush
       Twalk Rwalk Topen Ropen Tcreate Rcreate Tread Rread Twrite Rwrite Tclunk
       Rclunk Tremove Rremove Tstat Rstat Twstat Rwstat Z.eqb Pos.eqb orb
       s2m_version s2m_Tflush s2m_Tauth s2m_Tattach s2m_Twalk s2m_Topen
       s2m_Tcreate s2m_Tread s2m_Twrite s2m_fid s2m_Twstat s2m_Rerror s2m_Rauth
       s2m_Rattach s2m_Rwalk s2m_Ropen s2m_Rread s2m_Rwrite s2m_Rstat
       m2s_version m2s_Tflush m2s_Tauth m2s_Tattach m2s_Twalk m2s_Topen
       m2s_Tcreate m2s_Tread m2s_Twrite m2s_fid m2s_Twstat m2s_Rerror m2s_Rauth
       m2s_Rattach m2s_Rwalk m2s_Ropen m2s_Rread m2s_Rwrite m2s_Rstat].

Lemma padd_small p n : 0 <= p + n < 2 ^ 32 -> padd p n = p + n.
Proof. apply u32_small. Qed.

Section Emits.
Variables (m0 : mem) (ap hi : Z).
Hypothesis Hap : 0 < ap.
Hypothesis Hhi : hi < 2 ^ 32.

(** The bytes [k] have been written from [ap] on and nothing else changed. *)
Definition winv (k : bytes) (s : s2m) : Prop :=
  s.2 = ap + zlen k /\ bytes_at s.1 ap k /\ same_out ap hi m0 s.1.

(** The statement [c] appends the bytes [l]. *)
Definition emits (c : cmd s2m Z unit) (l : bytes) : Prop :=
  forall k s, winv k s -> ap + zlen k + zlen l <= hi ->
    exists s', c s = (Go tt, s') /\ winv (k ++ l) s'.

Lemma emits_st c l :
  byte_list l ->
  (forall m p, same_out ap hi m0 m -> ap <= p -> p + zlen l <= hi ->
     c (m, p) = (Go tt, (st_bytes m p l, p + zlen l))) ->
  emits c l.
Proof.
  intros Hl Hc k [m p] (Hp & Hk & Hs) Hroom. simpl in *.
  pose proof (zlen_nonneg k). eexists; split; [apply Hc; auto; lia|].
  repeat split; simpl.
  - rewrite zlen_app. lia.
  - apply bytes_at_app. subst p. split; [|by apply bytes_at_st_bytes].
    eapply (bytes_at_same_out (ap + zlen k) hi); [|lia|done].
    apply st_bytes_same_out; lia.
  - etransitivity; [done|]. apply st_bytes_same_out; lia.
Qed.

Lemma emits_ret : emits (cret tt) [].
Proof. intros k s H _. exists s. by rewrite app_nil_r. Qed.

Lemma emits_seq c1 c2 l1 l2 :
  emits c1 l1 -> emits c2 l2 -> emits (c1;; c2) (l1 ++ l2).
Proof.
  intros H1 H2 k s Hk Hroom. rewrite zlen_app in Hroom.
  pose proof (zlen_nonneg l2).
  destruct (H1 k s) as (s1 & E1 & W1); [done|lia|].
  destruct (H2 (k ++ l1) s1) as (s2 & E2 & W2); [done|rewrite zlen_app; lia|].
  exists s2. rewrite (cbind_go _ _ _ _ _ E1), app_assoc. done.
Qed.

Lemma emits_pb8 v : emits (pb8 v) (le 1 v).
Proof.
  apply emits_st; [apply le_range|]. intros m p _ ? ?.
  unfold pb8. rewrite PBIT8_st, padd_small; [done|]. rewrite zlen_le in *. unfold BIT8SZ; lia.
Qed.

Lemma emits_pb16 v : emits (pb16 v) (le 2 v).
Proof.
  apply emits_st; [apply le_range|]. intros m p _ ? ?.
  unfold pb16. rewrite PBIT16_st, padd_small; [done|]. rewrite zlen_le in *. unfold BIT16SZ; lia.
Qed.

Lemma emits_pb32 v : emits (pb32 v) (le 4 v).
Proof.
  apply emits_st; [apply le_range|]. intros m p _ ? ?.
  unfold pb32. rewrite PBIT32_st, padd_small; [done|]. rewrite zlen_le in *. unfold BIT32SZ; lia.
Qed.

Lemma emits_pb64 v : emits (pb64 v) (le 8 v).
Proof.
  apply emits_st; [apply le_range|]. intros m p _ ? ?.
  unfold pb64. rewrite PBIT64_st, padd_small; [done|]. rewrite zlen_le in *. unfold BIT64SZ; lia.
Qed.

Lemma emits_pqd q : emits (pqd q) (enc_qid q).
Proof.
  apply emits_st.
  { unfold enc_qid. rewrite !Forall_app. split_and!; apply le_range. }
  intros m p _ ? Hr. unfold pqd, pqid, enc_qid in *.
  rewrite !zlen_app, !zlen_le in *. unfold BIT8SZ, BIT32SZ, BIT64SZ.
  rewrite !padd_small by (rewrite ?padd_small; lia).
  rewrite PBIT8_st, PBIT32_st, PBIT64_st, !st_bytes_app, !zlen_le.
  apply pair_eq; split; [done|]. apply pair_eq; split; [done|lia].
Qed.

Lemma bytes_at_range m p l : bytes_at m p l -> byte_list l.
Proof. intros <-. apply ld_bytes_range. Qed.

Lemma emits_pdata d l n :
  src_data m0 ap hi d l -> n = zlen l -> emits (pdata d n) l.
Proof.
  intros [Hl Hd] ->. apply emits_st; [eauto using bytes_at_range|].
  intros m p Hs ? ?. unfold pdata, memmove. pose proof (zlen_nonneg l).
  rewrite padd_small by lia.
  rewrite (bytes_at_ld_eq m d l); [done| |done].
  eapply bytes_at_same_out; eauto.
Qed.

Lemma emits_pstr p s : src_str m0 ap hi p s -> emits (pstr p) (enc_str s).
Proof.
  intros Hsrc. unfold enc_str. apply emits_st.
  { rewrite Forall_app. split; [apply le_range|].
    destruct Hsrc as [[_ ->]|(_ & [H _] & _)]; [constructor|].
    apply bytes_at_app in H as [H _]. by eapply bytes_at_range. }
  intros m q Hs Hq Hr. rewrite zlen_app, zlen_le in *. pose proof (zlen_nonneg s).
  unfold pstr, pstring. destruct Hsrc as [[-> ->]|(Hn & Hc & Hd)].
  - rewrite decide_True by done. rewrite zlen_nil in *.
    rewrite PBIT16_st, app_nil_r, padd_small by (unfold BIT16SZ; lia).
    done.
  - rewrite decide_False by done.
    rewrite (strlen_spec m p s) by (eapply cstr_same_out; eauto; lia).
    unfold BIT16SZ. rewrite !padd_small by (rewrite ?padd_small; lia).
    unfold memmove. rewrite (bytes_at_ld_eq _ p s).
    + rewrite PBIT16_st, st_bytes_app, zlen_le. apply pair_eq; split; [done|]. apply pair_eq; split; [done|lia].
    + destruct Hc as [Hc _]. apply bytes_at_app in Hc as [Hc _].
      eapply (bytes_at_same_out ap hi); [|lia|exact Hc].
      etransitivity; [done|]. rewrite PBIT16_st.
      apply st_bytes_same_out; rewrite ?zlen_le; lia.
    + done.
Qed.

Lemma emits_loop {A} (ls : list A) (e : A -> bytes) body i :
  (forall j a, ls !! j = Some a -> emits (body (i + Z.of_nat j)) (e a)) ->
  emits (cloop i (length ls) body) (concat (e <$> ls)).
Proof.
  revert i; induction ls as [|a ls IH]; intros i H; simpl; [apply emits_ret|].
  apply emits_seq.
  - specialize (H O a eq_refl). by rewrite Z.add_0_r in H.
  - apply IH. intros j b Hb. specialize (H (S j) b Hb).
    by replace (i + 1 + Z.of_nat j) with (i + Z.of_nat (S j)) by lia.
Qed.

Lemma emits_block c l : emits c l -> emits (cblock c) l.
Proof.
  intros H k s Hk Hr. destruct (H k s Hk Hr) as (s' & E & W).
  exists s'. unfold cblock. by rewrite E.
Qed.

Lemma emits_for {A} (ls : list A) (e : A -> bytes) body n :
  n = zlen ls ->
  (forall j a, ls !! j = Some a -> emits (body (Z.of_nat j)) (e a)) ->
  emits (cfor n body) (concat (e <$> ls)).
Proof.
  intros -> H. apply emits_block. unfold zlen. rewrite Nat2Z.id.
  apply emits_loop. intros j a Ha. rewrite Z.add_0_l. eauto.
Qed.

Ltac emit_cases :=
  repeat match goal with
    | |- emits (cbind _ _) (_ ++ _) => apply emits_seq
    | |- emits (cret tt) _ => apply emits_ret
    | |- emits (pb8 _) _ => apply emits_pb8
    | |- emits (pb16 _) _ => apply emits_pb16
    | |- emits (pb32 _) _ => apply emits_pb32
    | |- emits (pb64 _) _ => apply emits_pb64
    | |- emits (pqd _) _ => apply emits_pqd
    | |- emits (pstr _) _ => apply emits_pstr; assumption
    | |- emits (pdata _ _) _ => eapply emits_pdata; [eassumption|done]
    end.

(** The switch of [convS2M] emits the body of the message. *)
Lemma emits_switch f tag g :
  rep (src_str m0 ap hi) (src_data m0 ap hi) f tag g -> wf_msg g ->
  emits (s2m_switch f) (enc_body g).
Proof.
  intros (Ht & _ & Hb) Hwf.
  unfold s2m_switch, s2m_T, s2m_R. rewrite Ht. clear Ht.
  destruct g; cbn [rep_body wf_msg] in Hb, Hwf; cbn [mtype enc_body]; eval_type;
    destruct_and?; subst;
    repeat match goal with H : _ = zlen _ |- _ => rewrite H; clear H end;
    emit_cases.
  - rewrite decide_False by lia. apply emits_for; [done|].
    intros j s Hj. rewrite Nat2Z.id.
    match goal with H : forall i s, _ |- _ => destruct (H _ _ Hj) as (p & -> & Hp) end.
    by apply emits_pstr.
  - rewrite decide_False by lia. apply emits_for; [done|].
    intros j q Hj. rewrite Nat2Z.id.
    match goal with H : forall i q, _ |- _ => rewrite (H _ _ Hj) end.
    apply emits_pqd.
Qed.
End Emits.

(** [sizeS2M] computes the size of the encoding. *)
Section Size.
Variables (m : mem) (lo hi : Z).

Lemma zlen_enc_str s : zlen (enc_str s) = 2 + zlen s.
Proof. unfold enc_str. by rewrite zlen_app, zlen_le. Qed.

Lemma zlen_enc_qid q : zlen (enc_qid q) = QIDSZ.
Proof. unfold enc_qid. by rewrite !zlen_app, !zlen_le. Qed.

Lemma zlen_enc_qids qs : zlen (concat (enc_qid <$> qs)) = zlen qs * QIDSZ.
Proof.
  induction qs as [|q qs IH]; [done|].
  rewrite fmap_cons, zlen_cons. cbn [concat]. rewrite zlen_app, zlen_enc_qid, IH. lia.
Qed.

Lemma stringsz_src p s :
  src_str m lo hi p s -> wf_str s -> stringsz m p = zlen (enc_str s).
Proof.
  intros H Hw. rewrite zlen_enc_str. unfold stringsz.
  destruct H as [[-> ->]|(Hn & Hc & _)].
  - rewrite decide_True by done. done.
  - rewrite decide_False, (strlen_spec m p s) by done.
    unfold wf_str, is16 in Hw. rewrite u32_small; unfold BIT16SZ; lia.
Qed.

Lemma size_wnames_src f ws i n :
  (forall j s, ws !! j = Some s ->
     exists p, f_wname f !! (i + j)%nat = Some p /\ src_str m lo hi p s) ->
  Forall wf_str ws -> 0 <= n ->
  n + zlen (concat (enc_str <$> ws)) < 2 ^ 32 ->
  size_wnames m f i (length ws) n = Some (n + zlen (concat (enc_str <$> ws))).
Proof.
  revert i n; induction ws as [|s ws IH]; intros i n H Hw Hn Hsz;
    cbn [size_wnames length].
  - rewrite fmap_nil. cbn [concat]. by rewrite zlen_nil, Z.add_0_r.
  - apply Forall_cons_1 in Hw as [Hs Hw].
    rewrite fmap_cons in *; cbn [concat] in *. rewrite zlen_app in *. pose proof (zlen_nonneg (enc_str s)).
    pose proof (zlen_nonneg (concat (enc_str <$> ws))).
    destruct (H O s eq_refl) as (p & Hp & Hps). rewrite Nat.add_0_r in Hp.
    rewrite Hp. simpl. rewrite (stringsz_src p s) by done.
    rewrite u32_small by lia. rewrite IH; [f_equal; lia| |done|lia|lia].
    intros j s' Hj. destruct (H (S j) s' Hj) as (p' & Hp' & ?).
    exists p'. by rewrite Nat.add_succ_r in Hp'.
Qed.

Lemma sizeS2M_rep f tag g :
  rep (src_str m lo hi) (src_data m lo hi) f tag g -> wf_msg g ->
  is32 (msg_size g) -> sizeS2M m f = Some (msg_size g).
Proof.
  intros (Ht & _ & Hb) Hwf [_ Hsz]. unfold msg_size in *.
  unfold sizeS2M, sizeS2M_T, sizeS2M_R. rewrite Ht. clear Ht.
  destruct g; cbn [rep_body wf_msg] in Hb, Hwf; cbn [mtype enc_body] in *; eval_type;
    destruct_and?;
    repeat match goal with
      | H : src_str m lo hi _ _ |- _ => rewrite (stringsz_src _ _ H) by done; clear H
      | H : _ = zlen _ |- _ => rewrite H; clear H
      end;
    rewrite ?zlen_app, ?zlen_le, ?zlen_enc_qid, ?zlen_enc_qids in Hsz |- *;
    unfold QIDSZ, BIT32SZ, BIT16SZ, BIT8SZ, BIT64SZ in *;
    repeat match goal with
      | |- context [zlen ?l] =>
          lazymatch goal with
          | H : 0 <= zlen l |- _ => fail
          | _ => pose proof (zlen_nonneg l)
          end
      end.
  all: unfold BIT32SZ, BIT8SZ, BIT64SZ in *.
  all: try (f_equal; rewrite ?u32_small by lia; lia).
  unfold zlen at 1. rewrite Nat2Z.id.
  rewrite size_wnames_src; [f_equal; lia|done|done|lia|lia].
Qed.
End Size.

(** [convS2M_spec]: given room, [convS2M] writes the encoding of the message at
    [ap], changes nothing else, and returns its size. *)
Lemma convS2M_writes f ap nap m tag g :
  0 < ap -> ap + msg_size g < 2 ^ 32 -> msg_size g <= nap ->
  wf_msg g ->
  rep (src_str m ap (ap + msg_size g)) (src_data m ap (ap + msg_size g)) f tag g ->
  exists m', convS2M f ap nap m = Some (msg_size g, m') /\
    bytes_at m' ap (enc tag g) /\ same_out ap (ap + msg_size g) m m'.
Proof.
  intros Hap Hfit Hroom Hwf Hrep.
  pose proof (zlen_nonneg (enc_body g)).
  assert (7 <= msg_size g) by (unfold msg_size; lia).
  unfold convS2M. erewrite sizeS2M_rep by (eauto; unfold is32; lia).
  rewrite !decide_False by lia.
  set (hi := ap + msg_size g) in *.
  assert (emits m ap hi (pb32 (msg_size g);; pb8 (f_type f);; pb16 (f_tag f);;
            cblock (s2m_switch f)) (enc tag g)) as E.
  { destruct Hrep as (Ht & Htag & Hb). unfold enc. rewrite <- Ht, <- Htag.
    repeat apply emits_seq; auto using emits_pb32, emits_pb8, emits_pb16.
    apply emits_block. by eapply emits_switch. }
  destruct (E [] (m, ap)) as ([m' p'] & Hrun & Hp & Hat & Hsame).
  - split_and!; [simpl; rewrite zlen_nil; lia|done|apply same_out_refl].
  - rewrite zlen_nil. unfold enc. rewrite !zlen_app, !zlen_le. subst hi.
    unfold msg_size. lia.
  - simpl in *. exists m'. split; [|done].
    unfold s2m_prog.
    assert (zlen (enc tag g) = msg_size g) as Hl
      by (unfold enc, msg_size; rewrite !zlen_app, !zlen_le; lia).
    rewrite Hl in Hp.
    cbv [cbind pb32 pb8 pb16] in Hrun |- *. rewrite Hrun. unfold cgets; simpl.
    replace (u32 (p' - ap)) with (msg_size g) by (rewrite Hp, u32_small; lia).
    rewrite decide_False by lia. done.
Qed.

(** ** [convM2S] reads the encoding *)

Lemma bytes_at_le_unle m p n : bytes_at m p (le n (unle (ld_bytes m p n))).
Proof.
  pose proof (le_unle (ld_bytes m p n) (ld_bytes_range m p n)) as E.
  rewrite length_ld_bytes in E. rewrite E. apply bytes_at_ld.
Qed.

(** The values a message holds at an address of the original buffer. *)
Definition val (m : mem) (p : Z) (n : nat) : Z := unle (ld_bytes m p n).
Definition str_at (m : mem) (p : Z) : bytes :=
  ld_bytes m (p + 2) (Z.to_nat (val m p 2)).
Definition qid_at (m : mem) (p : Z) : Qid :=
  MkQid (val m (p + 5) 8) (val m (p + 1) 4) (val m p 1).

Lemma val_range m p n : 0 <= val m p n < 256 ^ Z.of_nat n.
Proof.
  unfold val. pose proof (unle_range _ (ld_bytes_range m p n)) as H.
  unfold zlen in H. by rewrite length_ld_bytes in H.
Qed.

Lemma val_at_mod m p n x rest :
  bytes_at m p (le n x ++ rest) -> val m p n = x mod 256 ^ Z.of_nat n.
Proof.
  intros H. apply bytes_at_app in H as [H _]. unfold val.
  pose proof (bytes_at_ld_eq m p (le n x) (Z.of_nat n) H) as E.
  rewrite Nat2Z.id, zlen_le in E. rewrite E by done. apply unle_le.
Qed.

Lemma val_at m p n x rest :
  bytes_at m p (le n x ++ rest) -> 0 <= x < 256 ^ Z.of_nat n -> val m p n = x.
Proof. intros H Hx. rewrite (val_at_mod m p n x rest H). by apply Z.mod_small. Qed.

Lemma le_mod n v w : v mod 256 ^ Z.of_nat n = w mod 256 ^ Z.of_nat n -> le n v = le n w.
Proof.
  intros E. rewrite <- !unle_le in E.
  rewrite <- (le_unle (le n v)), <- (le_unle (le n w)) by apply le_range.
  by rewrite !length_le, E.
Qed.

(** A [vlong] read from the wire has the bytes it was read from. *)
Lemma bytes_at_le_s64 m p : bytes_at m p (le 8 (s64 (val m p 8))).
Proof.
  rewrite (le_mod 8 _ (val m p 8)); [apply bytes_at_le_unle|].
  change (256 ^ Z.of_nat 8) with (2 ^ 64). zlia.
Qed.

Lemma s64_val_at m p x rest :
  bytes_at m p (le 8 x ++ rest) -> is_vlong x -> s64 (val m p 8) = x.
Proof.
  intros H Hx. rewrite (val_at_mod _ _ _ _ _ H). unfold is_vlong in Hx.
  change (256 ^ Z.of_nat 8) with (2 ^ 64). zlia.
Qed.

Lemma str_at_range m p : 0 <= val m p 2 < 65536.
Proof. exact (val_range m p 2). Qed.

Lemma zlen_str_at m p : zlen (str_at m p) = val m p 2.
Proof. unfold str_at. pose proof (str_at_range m p). apply zlen_ld_bytes. lia. Qed.

Lemma str_at_enc m p s rest :
  bytes_at m p (enc_str s ++ rest) -> wf_str s -> str_at m p = s.
Proof.
  unfold enc_str. rewrite <- app_assoc. intros H Hs. unfold str_at.
  rewrite (val_at m p 2 (zlen s) (s ++ rest)); [|done|exact Hs].
  apply bytes_at_app in H as [_ H]. apply bytes_at_app in H as [H _].
  rewrite zlen_le in H. by apply bytes_at_ld_eq.
Qed.

Lemma bytes_at_enc_str m p : bytes_at m p (enc_str (str_at m p)).
Proof.
  unfold enc_str. apply bytes_at_app. split.
  - rewrite zlen_str_at. apply bytes_at_le_unle.
  - rewrite zlen_le. apply bytes_at_ld.
Qed.

Lemma qid_at_enc m p q rest :
  bytes_at m p (enc_qid q ++ rest) -> wf_qid q -> qid_at m p = q.
Proof.
  unfold enc_qid, wf_qid, is8, is32, is64, qid_at. rewrite <- !app_assoc.
  intros H (Ht & Hv & Hp). destruct q as [path vers type];
    cbn [q_path q_vers q_type] in *.
  rewrite (val_at m p 1 type _ H) by done.
  apply bytes_at_app in H as [_ H]. rewrite zlen_le in H.
  rewrite (val_at m (p + 1) 4 vers _ H) by done.
  apply bytes_at_app in H as [_ H]. rewrite zlen_le, <- Z.add_assoc in H.
  by rewrite (val_at m (p + 5) 8 path _ H) by done.
Qed.

Lemma bytes_at_enc_qid m p : bytes_at m p (enc_qid (qid_at m p)).
Proof.
  unfold enc_qid, qid_at; cbn [q_path q_vers q_type]. rewrite !bytes_at_app, !zlen_le.
  split_and!; try apply bytes_at_le_unle.
  change (Z.of_nat 4) with 4; change (Z.of_nat 1) with 1. addrs. apply bytes_at_le_unle.
Qed.

Lemma wf_qid_at m p : wf_qid (qid_at m p).
Proof.
  unfold wf_qid, is8, is32, is64; simpl.
  pose proof (val_range m p 1). pose proof (val_range m (p + 1) 4).
  pose proof (val_range m (p + 5) 8). done.
Qed.

(** The statements of [convM2S], run in a memory [m] that differs from the
    original [m0] only in [ap, p), the part of the buffer already read. *)
Section M2SRules.
Variables (m0 : mem) (ap ep : Z).
Hypothesis Hap : 0 < ap.
Hypothesis Hep : ep < 2 ^ 32.

Implicit Types (Q : ctl Z unit -> m2s -> Prop) (f : Fcall) (m : mem).

Lemma ld_same m p n : same_out ap p m0 m -> ld_bytes m p n = ld_bytes m0 p n.
Proof. intros H. apply ld_bytes_ext. intros; apply H; lia. Qed.

Lemma rd8_val m p : rd8 m p = val m p 1.
Proof. unfold val. cbv [ld_bytes unle]. lia. Qed.

Lemma wp_need n m p f Q :
  0 <= p + n < 2 ^ 32 ->
  (p + n <= ep -> Q (Go tt) (M2S m p f)) -> (ep < p + n -> Q (Ret 0) (M2S m p f)) ->
  wp (need ep n) (M2S m p f) Q.
Proof.
  intros Hr H1 H2. unfold wp, need; simpl. rewrite padd_small by done.
  case_decide; [apply H2|apply H1]; lia.
Qed.

Lemma wp_get8 set m p f Q :
  same_out ap p m0 m -> 0 <= p -> p + 1 < 2 ^ 32 ->
  Q (Go tt) (M2S m (p + 1) (set (val m0 p 1) f)) ->
  wp (get8 set) (M2S m p f) Q.
Proof.
  intros Hs ? ? H. unfold get8, g8. apply wp_bind. unfold wp, setf; simpl.
  unfold GBIT8. rewrite rd8_val. unfold val at 1. rewrite (ld_same _ _ _ Hs).
  rewrite padd_small by (unfold BIT8SZ; lia). done.
Qed.

Lemma wp_get16 set m p f Q :
  same_out ap p m0 m -> 0 <= p -> p + 2 < 2 ^ 32 ->
  Q (Go tt) (M2S m (p + 2) (set (val m0 p 2) f)) ->
  wp (get16 set) (M2S m p f) Q.
Proof.
  intros Hs ? ? H. unfold get16, g16. apply wp_bind. unfold wp, setf; simpl.
  rewrite GBIT16_ld, (ld_same _ _ _ Hs).
  rewrite padd_small by (unfold BIT16SZ; lia). done.
Qed.

Lemma wp_g32 m p f (Q : ctl Z Z -> m2s -> Prop) :
  same_out ap p m0 m -> 0 <= p -> p + 4 < 2 ^ 32 ->
  Q (Go (val m0 p 4)) (M2S m (p + 4) f) ->
  wp g32 (M2S m p f) Q.
Proof.
  intros Hs ? ? H. unfold wp, g32; simpl. rewrite GBIT32_ld, (ld_same _ _ _ Hs).
  rewrite padd_small by (unfold BIT32SZ; lia). done.
Qed.

Lemma wp_get32 set m p f Q :
  same_out ap p m0 m -> 0 <= p -> p + 4 < 2 ^ 32 ->
  Q (Go tt) (M2S m (p + 4) (set (val m0 p 4) f)) ->
  wp (get32 set) (M2S m p f) Q.
Proof.
  intros Hs ? ? H. unfold get32. apply wp_bind. apply wp_g32; done.
Qed.

Lemma wp_get64s set m p f Q :
  same_out ap p m0 m -> 0 <= p -> p + 8 < 2 ^ 32 ->
  Q (Go tt) (M2S m (p + 8) (set (s64 (val m0 p 8)) f)) ->
  wp (get64s set) (M2S m p f) Q.
Proof.
  intros Hs ? ? H. unfold get64s, g64. apply wp_bind. unfold wp, setf; simpl.
  rewrite GBIT64_ld, (ld_same _ _ _ Hs).
  rewrite padd_small by (unfold BIT64SZ; lia). done.
Qed.

(** [gstring] moves the string one byte down over its count and terminates
    it, inside the bytes of the string field. *)
Lemma wp_gstr set m p f Q :
  same_out ap p m0 m -> ap <= p -> p + 2 + 65536 < 2 ^ 32 ->
  (forall m', p + 2 + zlen (str_at m0 p) <= ep ->
     same_out p (p + 2 + zlen (str_at m0 p)) m m' ->
     buf_str m' p (p + 2 + zlen (str_at m0 p)) (p + 1) (str_at m0 p) ->
     Q (Go tt) (M2S m' (p + 2 + zlen (str_at m0 p)) (set (p + 1) f))) ->
  (ep < p + 2 + zlen (str_at m0 p) -> Q (Go tt) (M2S m nil f)) ->
  wp (gstr ep set) (M2S m p f) Q.
Proof.
  intros Hs Hle Hfit Hok Hnil. unfold wp, gstr, gstring; simpl.
  rewrite GBIT16_ld, (ld_same _ _ _ Hs). fold (val m0 p 2).
  pose proof (str_at_range m0 p). unfold BIT16SZ.
  rewrite (padd_small p 2), (padd_small p (2 - 1)) by lia.
  rewrite (padd_small (p + (2 - 1))) by lia.
  rewrite zlen_str_at in Hok, Hnil.
  case_decide; [apply Hnil; lia|]. case_decide; [apply Hnil; lia|]. simpl.
  change (2 - 1) with 1 in *. rewrite !padd_small by lia.
  replace (p + 1 + (val m0 p 2 + 1)) with (p + 2 + val m0 p 2) by lia.
  assert (bytes_at m (p + 2) (str_at m0 p)) as Hstr.
  { apply (bytes_at_ext m0).
    - intros a Ha. apply Hs. lia.
    - apply bytes_at_ld. }
  replace (p + 1 + 1) with (p + 2) by lia.
  apply Hok; [lia| |].
  - etransitivity; [apply memmove_same_out|apply wr8_same_out]; lia.
  - split; [|rewrite zlen_str_at; lia]. apply bytes_at_app. split.
    + eapply bytes_at_same_out;
        [apply (wr8_same_out _ _ 0 (p + 1 + val m0 p 2) (p + 2 + val m0 p 2)); lia|
         rewrite zlen_str_at; lia|].
      apply bytes_at_memmove; [done|by rewrite zlen_str_at].
    + rewrite zlen_str_at. apply bytes_at_cons. split; [apply rd8_wr8_eq|done].
Qed.

Lemma wp_gqd set m p f Q :
  same_out ap p m0 m -> ap <= p -> p + 13 < 2 ^ 32 ->
  (p + 13 <= ep -> Q (Go tt) (M2S m (p + 13) (set (qid_at m0 p) f))) ->
  (ep < p + 13 -> Q (Go tt) (M2S m nil f)) ->
  wp (gqd ep set) (M2S m p f) Q.
Proof.
  intros Hs Hle Hfit Hok Hnil. unfold wp, gqd, gqid; simpl.
  unfold QIDSZ, BIT8SZ, BIT32SZ, BIT64SZ.
  rewrite (padd_small p) by lia. case_decide; [apply Hnil; lia|]. simpl.
  rewrite (padd_small p), (padd_small (p + 1)), (padd_small (p + 1 + 4)) by lia.
  unfold GBIT8. rewrite rd8_val, GBIT32_ld, GBIT64_ld. addrs.
  unfold val at 1. rewrite (ld_same m p 1), (ld_same m (p + 1) 4), (ld_same m (p + 5) 8)
    by (intros a Ha; apply Hs; lia).
  apply Hok; lia.
Qed.

Lemma wp_brk_nil m p f Q :
  (p <> nil -> Q (Go tt) (M2S m p f)) -> (p = nil -> Q Brk (M2S m p f)) ->
  wp brk_nil (M2S m p f) Q.
Proof. intros H1 H2. unfold wp, brk_nil; simpl. case_decide; auto. Qed.

Lemma wp_gdata count set m p f Q :
  0 <= p -> 0 <= count f -> p + count f < 2 ^ 32 ->
  (p + count f <= ep -> Q (Go tt) (M2S m (p + count f) (set p f))) ->
  (ep < p + count f -> Q (Ret 0) (M2S m p f)) ->
  wp (gdata ep count set) (M2S m p f) Q.
Proof.
  intros ? ? ? H1 H2. unfold gdata. apply wp_bind, wp_gets; cbv beta iota.
  apply wp_bind, wp_need; [simpl; lia| |exact H2]. intros Hle.
  apply wp_bind, wp_gets; cbv beta iota. apply wp_bind. unfold wp, setf; simpl.
  rewrite padd_small by (simpl; lia). by apply H1.
Qed.
End M2SRules.

(** *** The message a buffer holds *)

Fixpoint walk_at (m : mem) (p : Z) (k : nat) : list bytes :=
  match k with
  | O => []
  | S k' => str_at m p :: walk_at m (p + 2 + zlen (str_at m p)) k'
  end.

Fixpoint qids_at (m : mem) (p : Z) (k : nat) : list Qid :=
  match k with
  | O => []
  | S k' => qid_at m p :: qids_at m (p + 13) k'
  end.

Definition after_str (m : mem) (p : Z) : Z := p + 2 + zlen (str_at m p).

(** The body of a message of type [t] whose fields start at [p]. *)
Definition msg_at (m : mem) (p t : Z) : option msg :=
  if t =? Tversion then Some (MTversion (val m p 4) (str_at m (p + 4)))
  else if t =? Rversion then Some (MRversion (val m p 4) (str_at m (p + 4)))
  else if t =? Tflush then Some (MTflush (val m p 2))
  else if t =? Tauth then
    Some (MTauth (val m p 4) (str_at m (p + 4)) (str_at m (after_str m (p + 4))))
  else if t =? Tattach then
    Some (MTattach (val m p 4) (val m (p + 4) 4) (str_at m (p + 8))
                   (str_at m (after_str m (p + 8))))
  else if t =? Twalk then
    Some (MTwalk (val m p 4) (val m (p + 4) 4)
                 (walk_at m (p + 10) (Z.to_nat (val m (p + 8) 2))))
  else if t =? Topen then Some (MTopen (val m p 4) (val m (p + 4) 1))
  else if t =? Tcreate then
    let q := after_str m (p + 4) in
    Some (MTcreate (val m p 4) (str_at m (p + 4)) (val m q 4) (val m (q + 4) 1))
  else if t =? Tread then
    Some (MTread (val m p 4) (s64 (val m (p + 4) 8)) (val m (p + 12) 4))
  else if t =? Twrite then
    Some (MTwrite (val m p 4) (s64 (val m (p + 4) 8))
                  (ld_bytes m (p + 16) (Z.to_nat (val m (p + 12) 4))))
  else if t =? Tclunk then Some (MTclunk (val m p 4))
  else if t =? Tremove then Some (MTremove (val m p 4))
  else if t =? Tstat then Some (MTstat (val m p 4))
  else if t =? Twstat then
    Some (MTwstat (val m p 4) (ld_bytes m (p + 6) (Z.to_nat (val m (p + 4) 2))))
  else if t =? Rerror then Some (MRerror (str_at m p))
  else if t =? Rflush then Some MRflush
  else if t =? Rauth then Some (MRauth (qid_at m p))
  else if t =? Rattach then Some (MRattach (qid_at m p))
  else if t =? Rwalk then Some (MRwalk (qids_at m (p + 2) (Z.to_nat (val m p 2))))
  else if t =? Ropen then Some (MRopen (qid_at m p) (val m (p + 13) 4))
  else if t =? Rcreate then Some (MRcreate (qid_at m p) (val m (p + 13) 4))
  else if t =? Rread then Some (MRread (ld_bytes m (p + 4) (Z.to_nat (val m p 4))))
  else if t =? Rwrite then Some (MRwrite (val m p 4))
  else if t =? Rclunk then Some MRclunk
  else if t =? Rremove then Some MRremove
  else if t =? Rstat then Some (MRstat (ld_bytes m (p + 2) (Z.to_nat (val m p 2))))
  else if t =? Rwstat then Some MRwstat
  else None.

Lemma length_walk_at m p k : length (walk_at m p k) = k.
Proof. revert p; induction k; intros p; simpl; [done|by rewrite IHk]. Qed.

Lemma length_qids_at m p k : length (qids_at m p k) = k.
Proof. revert p; induction k; intros p; simpl; [done|by rewrite IHk]. Qed.

Lemma bytes_at_walk m p k : bytes_at m p (concat (enc_str <$> walk_at m p k)).
Proof.
  revert p; induction k; intros p; [apply bytes_at_nil|].
  cbn [walk_at]. rewrite fmap_cons. cbn [concat]. apply bytes_at_app.
  rewrite zlen_enc_str. split; [apply bytes_at_enc_str|].
  replace (p + (2 + zlen (str_at m p))) with (p + 2 + zlen (str_at m p)) by lia. apply IHk.
Qed.

Lemma bytes_at_qids m p k : bytes_at m p (concat (enc_qid <$> qids_at m p k)).
Proof.
  revert p; induction k; intros p; [apply bytes_at_nil|].
  cbn [qids_at]. rewrite fmap_cons. cbn [concat]. apply bytes_at_app.
  rewrite zlen_enc_qid. split; [apply bytes_at_enc_qid|apply IHk].
Qed.

Lemma walk_at_enc m p ws :
  bytes_at m p (concat (enc_str <$> ws)) -> Forall wf_str ws ->
  walk_at m p (length ws) = ws.
Proof.
  revert p; induction ws as [|s ws IH]; intros p H Hw; [done|].
  apply Forall_cons_1 in Hw as [Hs Hw]. rewrite fmap_cons in H. cbn [concat] in H.
  cbn [walk_at length]. rewrite (str_at_enc m p s _ H Hs).
  apply bytes_at_app in H as [_ H]. rewrite zlen_enc_str in H. f_equal. apply IH; [|done].
  by replace (p + 2 + zlen s) with (p + (2 + zlen s)) by lia.
Qed.

Lemma qids_at_enc m p qs :
  bytes_at m p (concat (enc_qid <$> qs)) -> Forall wf_qid qs ->
  qids_at m p (length qs) = qs.
Proof.
  revert p; induction qs as [|q qs IH]; intros p H Hw; [done|].
  apply Forall_cons_1 in Hw as [Hq Hw]. rewrite fmap_cons in H. cbn [concat] in H.
  cbn [qids_at length]. rewrite (qid_at_enc m p q _ H Hq).
  apply bytes_at_app in H as [_ H]. rewrite zlen_enc_qid in H. f_equal. by apply IH.
Qed.

Lemma wf_str_at m p : wf_str (str_at m p).
Proof. unfold wf_str, is16. rewrite zlen_str_at. apply str_at_range. Qed.

Lemma wf_walk_at m p k : Forall wf_str (walk_at m p k).
Proof. revert p; induction k; intros p; constructor; [apply wf_str_at|apply IHk]. Qed.

Lemma wf_qids_at m p k : Forall wf_qid (qids_at m p k).
Proof. revert p; induction k; intros p; constructor; [apply wf_qid_at|apply IHk]. Qed.

Lemma s64_vlong x : is_vlong (s64 x).
Proof. unfold is_vlong. zlia. Qed.

Lemma zlen_ld_val m p q n : zlen (ld_bytes m p (Z.to_nat (val m q n))) = val m q n.
Proof. apply zlen_ld_bytes. apply val_range. Qed.

Lemma zlen_walk_val m p q n :
  zlen (walk_at m p (Z.to_nat (val m q n))) = val m q n.
Proof. unfold zlen. rewrite length_walk_at. pose proof (val_range m q n). lia. Qed.

Lemma zlen_qids_val m p q n :
  zlen (qids_at m p (Z.to_nat (val m q n))) = val m q n.
Proof. unfold zlen. rewrite length_qids_at. pose proof (val_range m q n). lia. Qed.

Lemma msg_at_type m p t g : msg_at m p t = Some g -> mtype g = t.
Proof.
  unfold msg_at. intros H.
  repeat (case_match; [match goal with E : (_ =? _) = true |- _ => apply Z.eqb_eq in E end;
                       simplify_eq; reflexivity|]).
  discriminate.
Qed.

(** Split [bytes_at m p (l1 ++ l2 ++ ...)], with the addresses kept in the form
    [p + c]. *)
Ltac split_at :=
  rewrite ?bytes_at_app, ?zlen_le, ?zlen_enc_str, ?zlen_enc_qid, ?Z.add_assoc;
  change QIDSZ with 13; change (Z.of_nat 1) with 1; change (Z.of_nat 2) with 2;
  change (Z.of_nat 4) with 4; change (Z.of_nat 8) with 8; addrs.

(** Whatever the bytes are, they are the encoding of the message they hold. *)
Lemma bytes_at_msg_at m p t g : msg_at m p t = Some g -> bytes_at m p (enc_body g).
Proof.
  unfold msg_at. intros H.
  repeat (case_match; [|]); simplify_eq; cbn [enc_body];
    unfold after_str; split_at; split_and?;
    try apply bytes_at_le_unle; try apply bytes_at_enc_str; try apply bytes_at_enc_qid;
    try apply bytes_at_le_s64; try apply bytes_at_nil; try apply bytes_at_ld;
    rewrite ?zlen_ld_val, ?zlen_walk_val, ?zlen_qids_val;
    first [apply bytes_at_le_unle|apply bytes_at_walk|apply bytes_at_qids].
Qed.

(** The walk limit is the only limit of the format that the bytes can break. *)
Definition walk_ok (g : msg) : Prop :=
  match g with
  | MTwalk _ _ ws => zlen ws <= MAXWELEM
  | MRwalk qs => zlen qs <= MAXWELEM
  | _ => True
  end.

Lemma wf_msg_at m p t g : msg_at m p t = Some g -> walk_ok g -> wf_msg g.
Proof.
  unfold msg_at. intros H.
  repeat (case_match; [|]); simplify_eq; cbn [walk_ok wf_msg]; intros Hk;
    rewrite ?zlen_ld_val; split_and?;
    try solve [apply (val_range _ _ 1)|apply (val_range _ _ 2)|apply (val_range _ _ 4)
              |apply wf_str_at|apply wf_qid_at|apply s64_vlong|apply wf_walk_at
              |apply wf_qids_at|done].
Qed.

(** The message is determined by its encoding. *)
Lemma val_at' m p n x :
  bytes_at m p (le n x) -> 0 <= x < 256 ^ Z.of_nat n -> val m p n = x.
Proof. intros H. apply (val_at m p n x []). by rewrite app_nil_r. Qed.

Lemma s64_val_at' m p x : bytes_at m p (le 8 x) -> is_vlong x -> s64 (val m p 8) = x.
Proof. intros H. apply (s64_val_at m p x []). by rewrite app_nil_r. Qed.

Lemma str_at_enc' m p s : bytes_at m p (enc_str s) -> wf_str s -> str_at m p = s.
Proof. intros H. apply (str_at_enc m p s []). by rewrite app_nil_r. Qed.

Lemma qid_at_enc' m p q : bytes_at m p (enc_qid q) -> wf_qid q -> qid_at m p = q.
Proof. intros H. apply (qid_at_enc m p q []). by rewrite app_nil_r. Qed.

Ltac read_field :=
  match goal with
  | H : bytes_at ?m ?q (le 8 ?x) |- context [val ?m ?q 8] =>
      rewrite (s64_val_at' m q x H) by assumption
  | H : bytes_at ?m ?q (le ?n ?x) |- context [val ?m ?q ?n] =>
      rewrite (val_at' m q n x H) by assumption
  | H : bytes_at ?m ?q (enc_str ?s) |- context [str_at ?m ?q] =>
      rewrite (str_at_enc' m q s H) by assumption
  | H : bytes_at ?m ?q (enc_qid ?s) |- context [qid_at ?m ?q] =>
      rewrite (qid_at_enc' m q s H) by assumption
  end.

Lemma is16_walk n : 0 <= n <= MAXWELEM -> 0 <= n < 256 ^ Z.of_nat 2.
Proof. unfold MAXWELEM. change (256 ^ Z.of_nat 2) with 65536. lia. Qed.

Lemma msg_at_enc m p g :
  bytes_at m p (enc_body g) -> wf_msg g -> msg_at m p (mtype g) = Some g.
Proof.
  intros H Hwf. unfold msg_at, after_str.
  destruct g; cbn [enc_body wf_msg] in H, Hwf; cbn [mtype]; eval_type;
    revert H; split_at; intros H; destruct_and?;
    repeat read_field; addrs; repeat read_field; try reflexivity;
    try (rewrite (bytes_at_ld_eq m _ _ _ ltac:(eassumption)) by reflexivity; reflexivity);
    match goal with H : bytes_at m _ (le 2 ?x) |- _ =>
      rewrite (val_at' m _ 2 x H) by (apply is16_walk; split; [apply zlen_nonneg|done])
    end; unfold zlen; rewrite Nat2Z.id.
  - rewrite (walk_at_enc m) by done. done.
  - rewrite (qids_at_enc m) by done. done.
Qed.

(** *** Running [convM2S] *)

Lemma buf_str_weaken m m' lo hi lo' hi' p s :
  buf_str m lo hi p s -> same_out hi hi' m m' -> lo' <= lo -> hi <= hi' ->
  buf_str m' lo' hi' p s.
Proof.
  intros (Hb & ? & ?) Hs ??. split; [|lia].
  eapply bytes_at_same_out; [exact Hs| |done]. rewrite zlen_app, zlen_cons, zlen_nil. lia.
Qed.

(** Both arrays of an [Fcall] have [MAXWELEM] elements. *)
Definition wf_fcall (f : Fcall) : Prop :=
  length (f_wname f) = 16%nat /\ length (f_wqid f) = 16%nat.

Section Run.
Variables (m0 : mem) (ap ep : Z).
Hypothesis Hap : 0 < ap.
Hypothesis Hep : ep + 131072 < 2 ^ 32.

Ltac so := solve [eapply same_out_weaken; [eassumption|lia|lia]].
Ltac bounds :=
  repeat match goal with
    | |- context [zlen (str_at m0 ?p)] =>
        lazymatch goal with
        | H : 0 <= zlen (str_at m0 p) < 65536 |- _ => fail
        | _ => assert (0 <= zlen (str_at m0 p) < 65536)
                 by (rewrite zlen_str_at; apply str_at_range)
        end
    end.

Lemma wp_wname_loop k : forall i m p f (Q : ctl Z unit -> m2s -> Prop),
  same_out ap p m0 m -> ap <= p -> p <= ep ->
  length (f_wname f) = 16%nat -> (i + k <= 16)%nat ->
  let fin := p + zlen (concat (enc_str <$> walk_at m0 p k)) in
  (forall m' l, fin <= ep -> same_out p fin m m' -> length l = 16%nat ->
     (forall j, (j < i)%nat -> l !! j = f_wname f !! j) ->
     (forall j s, walk_at m0 p k !! j = Some s ->
        exists q, l !! (i + j)%nat = Some q /\ buf_str m' p fin q s) ->
     Q (Go tt) (M2S m' fin (set_f_wname l f))) ->
  (forall m' f', ep < fin -> Q Brk (M2S m' nil f')) ->
  wp (cloop (Z.of_nat i) k (fun i => gstr ep (set_wname i);; brk_nil)) (M2S m p f) Q.
Proof.
  induction k as [|k IH]; intros i m p f Q Hs Hle Hpe Hlen Hik fin Hok Hbrk; subst fin.
  { cbn [cloop]. apply wp_ret. cbn [walk_at concat] in Hok. rewrite fmap_nil in Hok.
    cbn [concat] in Hok. rewrite zlen_nil, Z.add_0_r in Hok.
    specialize (Hok m (f_wname f)). destruct f; by apply Hok. }
  cbn [cloop]. cbn [walk_at] in Hok, Hbrk. rewrite fmap_cons in Hok, Hbrk.
  cbn [concat] in Hok, Hbrk. rewrite zlen_app, zlen_enc_str in Hok, Hbrk.
  set (s := str_at m0 p) in *. set (p1 := p + 2 + zlen s) in *.
  replace (p + (2 + zlen s + zlen (concat (enc_str <$> walk_at m0 p1 k))))
    with (p1 + zlen (concat (enc_str <$> walk_at m0 p1 k))) in * by (subst p1; lia).
  set (fin := p1 + _) in *. pose proof (zlen_nonneg (concat (enc_str <$> walk_at m0 p1 k))).
  assert (0 <= zlen s < 65536) by (subst s; rewrite zlen_str_at; apply str_at_range).
  apply wp_bind. apply wp_bind.
  apply (wp_gstr m0 ap ep); [done..|lia|lia| |]; fold s p1.
  - intros m1 Hp1 Hsame Hbuf. cbv beta iota. apply wp_brk_nil; [intros _|unfold nil; lia].
    cbv beta iota. replace (Z.of_nat i + 1) with (Z.of_nat (S i)) by lia.
    apply IH; [etransitivity; so|lia|lia| |lia| |].
    + unfold set_wname. destruct f; simpl in *. by rewrite length_insert.
    + intros m' l Hfin Hsm Hl Hlow Hall.
      replace (set_f_wname l (set_wname (Z.of_nat i) (p + 1) f)) with (set_f_wname l f)
        by (by destruct f).

      assert (f_wname (set_wname (Z.of_nat i) (p + 1) f) = <[i:=p + 1]> (f_wname f)) as Ew
        by (unfold set_wname; rewrite Nat2Z.id; by destruct f).
      rewrite Ew in Hlow.
      apply Hok; [done|etransitivity; so|done| |].
      * intros j Hj. rewrite Hlow by lia. by rewrite list_lookup_insert_ne by lia.
      * intros [|j] s' Hj.
        -- simpl in Hj. simplify_eq. exists (p + 1). rewrite Nat.add_0_r.
           rewrite Hlow, list_lookup_insert_eq by lia. split; [done|].
           eapply buf_str_weaken; [exact Hbuf|exact Hsm|lia|lia].
        -- simpl in Hj. destruct (Hall j s' Hj) as (q & Hq & Hb).
           exists q. rewrite Nat.add_succ_r. split; [done|].
           destruct Hb as (? & ? & ?). split; [done|lia].
    + intros m' f' ?. apply Hbrk. lia.
  - intros Hlt. cbv beta iota. apply wp_brk_nil; [done|intros _].
    cbv beta iota. apply Hbrk. lia.
Qed.

Lemma wp_wqid_loop k : forall i m p f (Q : ctl Z unit -> m2s -> Prop),
  same_out ap p m0 m -> ap <= p -> p <= ep ->
  length (f_wqid f) = 16%nat -> (i + k <= 16)%nat ->
  let fin := p + zlen (concat (enc_qid <$> qids_at m0 p k)) in
  (forall l, fin <= ep -> length l = 16%nat ->
     (forall j, (j < i)%nat -> l !! j = f_wqid f !! j) ->
     (forall j q, qids_at m0 p k !! j = Some q -> l !! (i + j)%nat = Some q) ->
     Q (Go tt) (M2S m fin (set_f_wqid l f))) ->
  (forall f', ep < fin -> Q Brk (M2S m nil f')) ->
  wp (cloop (Z.of_nat i) k (fun i => gqd ep (set_wqid i);; brk_nil)) (M2S m p f) Q.
Proof.
  induction k as [|k IH]; intros i m p f Q Hs Hle Hpe Hlen Hik fin Hok Hbrk; subst fin.
  { cbn [cloop]. apply wp_ret. cbn [qids_at] in Hok. rewrite fmap_nil in Hok.
    cbn [concat] in Hok. rewrite zlen_nil, Z.add_0_r in Hok.
    specialize (Hok (f_wqid f)). destruct f; by apply Hok. }
  cbn [cloop]. cbn [qids_at] in Hok, Hbrk. rewrite fmap_cons in Hok, Hbrk.
  cbn [concat] in Hok, Hbrk. rewrite zlen_app, zlen_enc_qid in Hok, Hbrk.
  change QIDSZ with 13 in *. rewrite Z.add_assoc in Hok, Hbrk.
  set (fin := p + 13 + _) in *.
  pose proof (zlen_nonneg (concat (enc_qid <$> qids_at m0 (p + 13) k))).
  apply wp_bind. apply wp_bind.
  apply (wp_gqd m0 ap ep); [done..|lia|lia| |].
  - intros Hp1. cbv beta iota. apply wp_brk_nil; [intros _|unfold nil; lia].
    cbv beta iota. replace (Z.of_nat i + 1) with (Z.of_nat (S i)) by lia.
    apply IH; [so|lia|lia| |lia| |].
    + unfold set_wqid. destruct f; simpl in *. by rewrite length_insert.
    + intros l Hfin Hl Hlow Hall.
      replace (set_f_wqid l (set_wqid (Z.of_nat i) (qid_at m0 p) f)) with (set_f_wqid l f)
        by (by destruct f).
      assert (f_wqid (set_wqid (Z.of_nat i) (qid_at m0 p) f) =
              <[i:=qid_at m0 p]> (f_wqid f)) as Ew
        by (unfold set_wqid; rewrite Nat2Z.id; by destruct f).
      rewrite Ew in Hlow. apply Hok; [done|done| |].
      * intros j Hj. rewrite Hlow by lia. by rewrite list_lookup_insert_ne by lia.
      * intros [|j] q Hj; simpl in Hj.
        -- simplify_eq. rewrite Nat.add_0_r, Hlow, list_lookup_insert_eq by lia. done.
        -- rewrite Nat.add_succ_r. apply (Hall j q Hj).
    + intros f' ?. apply Hbrk. lia.
  - intros Hlt. cbv beta iota. apply wp_brk_nil; [done|intros _].
    cbv beta iota. apply Hbrk. lia.
Qed.
End Run.

(** The two messages with a 32-bit data count: the sum of the data pointer and
    the count stays inside the address space. [convM2S] compares that sum with
    the end of the buffer, and the addition wraps. *)
Definition no_count_wrap (m : mem) (ap t : Z) : Prop :=
  (t = Twrite -> ap + 23 + val m (ap + 19) 4 < 2 ^ 32) /\
  (t = Rread -> ap + 11 + val m (ap + 7) 4 < 2 ^ 32).

(** Reduce the members of an updated [Fcall]. *)
Ltac fcbn :=
  cbn [f_type f_fid f_tag f_msize f_version f_oldtag f_ename f_qid f_iounit
       f_aqid f_afid f_uname f_aname f_perm f_name f_mode f_newfid f_nwname
       f_wname f_nwqid f_wqid f_offset f_count f_data f_nstat f_stat
       set_f_type set_f_fid set_f_tag set_f_msize set_f_version set_f_oldtag
       set_f_ename set_f_qid set_f_iounit set_f_aqid set_f_afid set_f_uname
       set_f_aname set_f_perm set_f_name set_f_mode set_f_newfid set_f_nwname
       set_f_wname set_f_nwqid set_f_wqid set_f_offset set_f_count set_f_data
       set_f_nstat set_f_stat m_mem m_p m_f].

Section Switch.
Variables (m0 : mem) (ap ep : Z).
Hypothesis Hap : 0 < ap.
Hypothesis Hep : ep + 131072 < 2 ^ 32.

(** The switch left having read the message body [g] ... *)
Definition got (f : Fcall) (g : msg) (r : ctl Z unit) (s : m2s) : Prop :=
  r = Go tt /\ m_p s = ap + 7 + zlen (enc_body g) /\ m_p s <= ep /\
  same_out ap (m_p s) m0 (m_mem s) /\
  rep_body (buf_str (m_mem s) ap (m_p s)) (buf_data (m_mem s) ap (m_p s)) (m_f s) g /\
  f_type (m_f s) = f_type f /\ f_tag (m_f s) = f_tag f.

(** ... or on its way to [return 0]. *)
Definition failed (r : ctl Z unit) (s : m2s) : Prop :=
  r = Ret 0 \/ (r = Go tt \/ r = Brk) /\ m_p s = nil.

Ltac so := solve [apply same_out_refl|eapply same_out_weaken; [eassumption|lia|lia]].
Ltac failed_tac :=
  right; split; [unfold failed; simpl; tauto|
    unfold BIT8SZ, BIT16SZ, BIT32SZ, BIT64SZ in *;
    first [left; lia|right; cbn [walk_ok]; lia]].
Ltac grow_str :=
  match goal with
  | H0 : context [zlen (concat ?l)] |- _ =>
      lazymatch goal with
      | H : 0 <= zlen (concat l) |- _ => fail
      | _ => pose proof (zlen_nonneg (concat l))
      end
  | H0 : context [zlen (str_at ?m ?p)] |- _ =>
      lazymatch goal with
      | H : 0 <= zlen (str_at m p) < 65536 |- _ => fail
      | _ => assert (0 <= zlen (str_at m p) < 65536)
               by (rewrite zlen_str_at; apply str_at_range)
      end
  | |- context [zlen (str_at ?m ?p)] =>
      lazymatch goal with
      | H : 0 <= zlen (str_at m p) < 65536 |- _ => fail
      | _ => assert (0 <= zlen (str_at m p) < 65536)
               by (rewrite zlen_str_at; apply str_at_range)
      end
  | |- context [val ?m ?p ?n] =>
      lazymatch goal with
      | H : 0 <= val m p n < _ |- _ => fail
      | _ => let H := fresh in pose proof (val_range m p n) as H;
             let c := eval vm_compute in (256 ^ Z.of_nat n) in
             change (256 ^ Z.of_nat n) with c in H
      end
  end.
Ltac side := unfold BIT8SZ, BIT16SZ, BIT32SZ, BIT64SZ in *; lia.

Ltac mstep :=
  cbv beta iota;
  lazymatch goal with
  | |- wp (cbind _ _) _ _ => apply wp_bind
  | |- wp (need _ _) _ _ =>
      apply wp_need; [side|intros ?|intros ?; try failed_tac]
  | |- wp (get8 _) _ _ => apply (wp_get8 m0 ap); [so|side|side|]
  | |- wp (get16 _) _ _ => apply (wp_get16 m0 ap); [so|side|side|]
  | |- wp (get32 _) _ _ => apply (wp_get32 m0 ap); [so|side|side|]
  | |- wp (get64s _) _ _ => apply (wp_get64s m0 ap); [so|side|side|]
  | |- wp (gstr _ _) (M2S ?m ?p _) _ =>
      apply (wp_gstr m0 ap); [done..|so|side|side| |];
        [intros ? ? ? ?;
         match goal with
         | H : same_out p ?e m ?m' |- _ =>
             assert (same_out ap e m0 m')
               by (apply (same_out_trans _ _ _ m); so)
         end|intros ?]
  | |- wp (gqd _ _) _ _ => apply (wp_gqd m0 ap); [done..|so|side|side|intros ?|intros ?]
  | |- wp brk_nil _ _ =>
      apply wp_brk_nil; intros ?; try (exfalso; unfold nil in *; congruence || lia)
  | |- wp (gdata _ _ _) _ _ =>
      apply wp_gdata; cbn [f_count f_nstat set_f_count set_f_nstat]; [side|side|side|intros ?|intros ?]
  | |- wp (cgets _) _ _ => apply wp_gets
  | |- wp (cret _) _ _ => apply wp_ret
  | |- _ \/ _ => failed_tac
  end.

Ltac got_tac :=
  left; split; [first [exact I|cbn [walk_ok]; lia]|];
  unfold got; cbn [m_p m_mem m_f]; split_and?;
  cbn [enc_body];
  rewrite ?zlen_app, ?zlen_le, ?zlen_enc_str, ?zlen_enc_qid, ?zlen_ld_val, ?zlen_nil;
  change QIDSZ with 13; first [reflexivity|side|so|idtac];
  cbn [rep_body]; fcbn; rewrite ?zlen_ld_val; split_and?; try reflexivity;
  try match goal with
    | H : buf_str ?m ?lo ?hi ?q ?s |- buf_str ?m' _ _ ?e ?s =>
        replace e with q by lia; eapply buf_str_weaken; [exact H|so|lia|lia]
    | |- buf_data _ _ _ _ _ => split; [apply bytes_at_ld|rewrite ?zlen_ld_val; lia]
    end.

Lemma switch_run f t g :
  msg_at m0 (ap + 7) t = Some g -> no_count_wrap m0 ap t -> wf_fcall f -> ap + 7 <= ep ->
  wp (m2s_switch ep t) (M2S m0 (ap + 7) f) (fun r s =>
    (walk_ok g /\ got f g r s) \/
    (failed r s /\ (ep < ap + 7 + zlen (enc_body g) \/ ~ walk_ok g))).
Proof.
  intros Hg [Hw Hr] [Hwn Hwq] Hle. pose proof (msg_at_type _ _ _ _ Hg) as Ht. subst t.
  revert Hg Hw Hr. unfold msg_at, m2s_switch, m2s_T, m2s_R, after_str.
  destruct g; cbn [mtype]; eval_type; intros Hg Hw Hr; simplify_eq; addrs;
    match goal with |- context [zlen (enc_body ?g)] =>
      remember (zlen (enc_body g)) as L eqn:HL end;
    cbn [enc_body] in HL;
    rewrite ?zlen_app, ?zlen_le, ?zlen_enc_str, ?zlen_enc_qid, ?zlen_ld_val,
      ?zlen_nil in HL;
    change QIDSZ with 13 in HL; repeat grow_str;
    repeat (mstep; addrs); try got_tac.
  - fcbn. case_decide; [apply wp_return; right; split; [by left|right]|].
    { cbn [walk_ok]. rewrite zlen_walk_val. lia. }
    unfold cfor. apply wp_block. change 0 with (Z.of_nat 0) at 1.
    unfold MAXWELEM in *.
    apply (wp_wname_loop m0 ap ep); [done|done|so|lia|side|by destruct f|lia| |].
    + intros m' l Hfin Hsm Hl _ Hall. left.
      split; [cbn [walk_ok]; rewrite zlen_walk_val; unfold MAXWELEM; lia|].
      unfold got. fcbn. cbn [enc_body]. rewrite ?zlen_app, ?zlen_le.
      split_and?; [reflexivity|lia|lia| | |reflexivity|reflexivity].
      * apply (same_out_trans _ _ _ m0); so.
      * cbn [rep_body]; fcbn. split_and?; [done|done|by rewrite zlen_walk_val|].
        intros j s Hj. destruct (Hall j s Hj) as (q & Hq & Hb). exists q.
        split; [done|]. destruct Hb as (? & ? & ?). split; [done|lia].
    + intros m' f' Hfin. right. split; [right; split; [by left|done]|left; lia].
  - fcbn. case_decide; [apply wp_return; right; split; [by left|right]|].
    { cbn [walk_ok]. rewrite zlen_qids_val. lia. }
    unfold cfor. apply wp_block. change 0 with (Z.of_nat 0) at 1.
    unfold MAXWELEM in *.
    apply (wp_wqid_loop m0 ap ep); [done|done|so|lia|side|by destruct f|lia| |].
    + intros l Hfin Hl _ Hall. left.
      split; [cbn [walk_ok]; rewrite zlen_qids_val; unfold MAXWELEM; lia|].
      unfold got. fcbn. cbn [enc_body]. rewrite ?zlen_app, ?zlen_le.
      split_and?; [reflexivity|lia|lia|so| |reflexivity|reflexivity].
      cbn [rep_body]; fcbn. split_and?; [by rewrite zlen_qids_val|].
      intros j q Hj. exact (Hall j q Hj).
    + intros f' Hfin. right. split; [right; split; [by left|done]|left; lia].
Qed.
End Switch.

(** The unit a [convM2S] call returns with: the message at [ap] when the buffer
    holds all of it, 0 otherwise. *)
Lemma convM2S_run ap nap m f n m' f' :
  0 < ap -> 0 <= nap -> ap + nap + 131072 < 2 ^ 32 -> wf_fcall f ->
  no_count_wrap m ap (val m (ap + 4) 1) ->
  convM2S ap nap m f = (n, m', f') ->
  (n = 0 /\
   forall g, msg_at m (ap + 7) (val m (ap + 4) 1) = Some g -> walk_ok g ->
     val m ap 4 = msg_size g -> nap < msg_size g) \/
  (exists g, msg_at m (ap + 7) (val m (ap + 4) 1) = Some g /\ walk_ok g /\
     n = msg_size g /\ n = val m ap 4 /\ n <= nap /\ same_out ap (ap + n) m m' /\
     rep (buf_str m' ap (ap + n)) (buf_data m' ap (ap + n)) f' (val m (ap + 5) 2) g).
Proof.
  intros Hap Hnap Hfit Hf Hw. unfold convM2S. rewrite padd_small by lia.
  remember (ap + nap) as ep eqn:Hepdef. set (t := val m (ap + 4) 1) in *.
  pose proof (val_range m ap 4) as Hsz. change (256 ^ Z.of_nat 4) with (2 ^ 32) in Hsz.
  assert (wp (m2s_prog ep ap) (M2S m ap f) (fun r s =>
    match r with Ret k => k | _ => 0 end = n -> m_mem s = m' -> m_f s = f' ->
    (n = 0 /\ forall g, msg_at m (ap + 7) t = Some g -> walk_ok g ->
       val m ap 4 = msg_size g -> nap < msg_size g) \/
    (exists g, msg_at m (ap + 7) t = Some g /\ walk_ok g /\
     n = msg_size g /\ n = val m ap 4 /\ n <= nap /\ same_out ap (ap + n) m m' /\
     rep (buf_str m' ap (ap + n)) (buf_data m' ap (ap + n)) f' (val m (ap + 5) 2) g))) as H.
  2: { unfold wp in H. destruct (m2s_prog ep ap (M2S m ap f)) as [[u| |k|] s];
         simpl in H; intros E; simplify_eq; by apply H. }
  assert (forall g, 7 <= msg_size g) as H7
    by (intros g; unfold msg_size; pose proof (zlen_nonneg (enc_body g)); lia).
  unfold m2s_prog. apply wp_bind. unfold BIT32SZ, BIT8SZ, BIT16SZ.
  change (4 + 1 + 2) with 7. apply wp_need; [lia| |].
  2: { intros ? <- ??. left. split; [done|]. intros g _ _ _. specialize (H7 g). lia. }
  intros H7ep. apply wp_bind. apply (wp_g32 m ap); [apply same_out_refl|lia|lia|].
  cbv beta iota. case_decide as Hsmall.
  { apply wp_return. intros <- ??. left. split; [done|]. intros g _ _ E.
    specialize (H7 g). lia. }
  apply wp_bind. apply (wp_get8 m ap); [apply same_out_refl|lia|lia|]. cbv beta iota.
  apply wp_bind. apply (wp_get16 m ap); [apply same_out_refl|lia|lia|]. cbv beta iota.
  addrs. apply wp_bind, wp_gets. cbv beta iota. fcbn. fold t.
  set (f1 := set_f_tag (val m (ap + 5) 2) (set_f_type t f)).
  assert (wf_fcall f1) as Hf1 by (by destruct f).
  apply wp_bind, wp_block.
  destruct (msg_at m (ap + 7) t) as [g|] eqn:Hg.
  - eapply wp_conseq; [apply (switch_run m ap ep); try done; lia|].
    intros r s [[Hk Hgot]|[Hfail Hwhy]].
    + destruct Hgot as (-> & Hp & Hple & Hsame & Hrep & Hty & Htg). apply wp_bind, wp_gets.
      cbv beta iota. pose proof (H7 g). unfold msg_size in *.
      rewrite decide_False by (unfold nil; lia). case_decide as Hend.
      * apply wp_return. intros <- <- <-. right. exists g.
        assert (m_p s = ap + val m ap 4) as Epos.
        { destruct (Z.lt_ge_cases (ap + val m ap 4) (2 ^ 32)) as [Hlt|Hge].
          - rewrite padd_small in Hend; lia.
          - exfalso. unfold padd, u32 in Hend.
            rewrite <- (Z_mod_plus_full _ (-1)) in Hend. rewrite Z.mod_small in Hend; lia. }
        rewrite <- Epos. split_and!; try done; [lia|lia|].
        split; [|done]. rewrite Hty. symmetry. by eapply msg_at_type.
      * apply wp_return. intros <- ??. left. split; [done|].
        intros g' Eg _ Esz. simplify_eq. exfalso. apply Hend.
        rewrite padd_small; lia.
    + assert (forall g', Some g = Some g' -> walk_ok g' -> val m ap 4 = msg_size g' ->
        nap < msg_size g') as Hno.
      { intros g' Eg Hk Esz. simplify_eq. destruct Hwhy as [Hlt|Hn]; [|done].
        unfold msg_size. lia. }
      destruct Hfail as [->|[[->| ->] Hnil]].
      * intros <- ??. by left.
      * apply wp_bind, wp_gets. cbv beta iota. rewrite decide_True by auto.
        apply wp_return. intros <- ??. by left.
      * apply wp_bind, wp_gets. cbv beta iota. rewrite decide_True by auto.
        apply wp_return. intros <- ??. by left.
  - assert (m2s_switch ep t = creturn 0) as ->.
    { revert Hg. unfold msg_at, m2s_switch, m2s_T, m2s_R. clear.
      intros H. repeat (case_match; [discriminate H|]).
      repeat match goal with E : (_ =? _) = false |- _ => rewrite E; clear E end. done. }
    apply wp_return. intros <- ??. left. split; [done|]. discriminate.
Qed.

Lemma enc_fields m p tag g :
  bytes_at m p (enc tag g) -> wf_msg g -> is16 tag -> is32 (msg_size g) ->
  val m p 4 = msg_size g /\ val m (p + 4) 1 = mtype g /\ val m (p + 5) 2 = tag /\
  msg_at m (p + 7) (mtype g) = Some g /\ bytes_at m (p + 7) (enc_body g).
Proof.
  unfold enc. split_at. intros (Hs & Ht & Htag & Hb) Hwf Htag16 Hs32.
  split_and!.
  - by apply val_at'.
  - apply val_at'; [done|]. destruct g; by vm_compute.
  - by apply val_at'.
  - by apply msg_at_enc.
  - done.
Qed.

Lemma walk_ok_wf g : wf_msg g -> walk_ok g.
Proof. destruct g; simpl; tauto. Qed.

Lemma no_count_wrap_enc m p g :
  bytes_at m (p + 7) (enc_body g) -> wf_msg g -> p + msg_size g < 2 ^ 32 ->
  no_count_wrap m p (mtype g).
Proof.
  unfold msg_size, no_count_wrap.
  intros H Hwf Hfit; destruct g; split; intros Ht; try discriminate Ht; revert H;
    cbn [enc_body wf_msg] in *; split_at; intros H; destruct_and?;
    rewrite !zlen_app, !zlen_le in Hfit.
  - rewrite (val_at' m (p + 19) 4 (zlen data)) by done. lia.
  - rewrite (val_at' m (p + 7) 4 (zlen data)) by done. lia.
Qed.

Lemma convM2S_reads ap nap m f tag g :
  0 < ap -> ap + nap + 131072 < 2 ^ 32 -> wf_fcall f ->
  wf_msg g -> is16 tag -> msg_size g <= nap -> bytes_at m ap (enc tag g) ->
  exists m' f', convM2S ap nap m f = (msg_size g, m', f') /\
    same_out ap (ap + msg_size g) m m' /\
    rep (buf_str m' ap (ap + msg_size g)) (buf_data m' ap (ap + msg_size g)) f' tag g.
Proof.
  intros Hap Hfit Hf Hwf Htag Hroom Hat.
  assert (7 <= msg_size g) by (unfold msg_size; pose proof (zlen_nonneg (enc_body g)); lia).
  destruct (enc_fields _ _ _ _ Hat Hwf Htag) as (Es & Et & Etag & Eg & Hb);
    [unfold is32; lia|].
  destruct (convM2S ap nap m f) as [[n m'] f'] eqn:E.
  apply convM2S_run in E; try done; [|lia|rewrite Et; apply no_count_wrap_enc; auto; lia].
  rewrite Et in E. destruct E as [[_ Hno]|(g' & Eg' & _ & Hn & _ & _ & Hs & Hr)].
  - exfalso. specialize (Hno g Eg (walk_ok_wf g Hwf) Es). lia.
  - simplify_eq. by exists m', f'.
Qed.

(** C1: a message written by [convS2M] is read back by [convM2S] as the same
    message: both return its size, every field, string and data block is
    restored, and no byte outside the message buffer changes. *)
Theorem convS2M_convM2S_roundtrip f f0 ap nap m tag g :
  0 < ap -> ap + nap + 131072 < 2 ^ 32 -> msg_size g <= nap ->
  wf_msg g -> is16 tag -> wf_fcall f0 ->
  rep (src_str m ap (ap + msg_size g)) (src_data m ap (ap + msg_size g)) f tag g ->
  exists m1 m2 f',
    convS2M f ap nap m = Some (msg_size g, m1) /\
    convM2S ap nap m1 f0 = (msg_size g, m2, f') /\
    rep (buf_str m2 ap (ap + msg_size g)) (buf_data m2 ap (ap + msg_size g)) f' tag g /\
    same_out ap (ap + msg_size g) m m2.
Proof.
  intros Hap Hfit Hroom Hwf Htag Hf0 Hrep.
  destruct (convS2M_writes f ap nap m tag g) as (m1 & E1 & Hat & Hs1); try done; [lia|].
  destruct (convM2S_reads ap nap m1 f0 tag g) as (m2 & f' & E2 & Hs2 & Hr); try done.
  exists m1, m2, f'. split_and!; try done. by etransitivity.
Qed.

(** C33: [convS2M] implements the wire format: given room, it returns the size
    of the message, the buffer holds exactly the encoding of the message, and
    no byte outside it changes. *)
Theorem convS2M_refines_enc f ap nap m tag g :
  0 < ap -> ap + msg_size g < 2 ^ 32 -> msg_size g <= nap -> wf_msg g ->
  rep (src_str m ap (ap + msg_size g)) (src_data m ap (ap + msg_size g)) f tag g ->
  exists m', convS2M f ap nap m = Some (msg_size g, m') /\
    bytes_at m' ap (enc tag g) /\ same_out ap (ap + msg_size g) m m'.
Proof. apply convS2M_writes. Qed.

(** C14: [convM2S] accepts only well-formed messages: when it returns a
    non-zero size, the buffer holds the complete encoding of a message of that
    size within its limits, [*f] is that message, and only the message bytes
    were touched. It assumes that the data count of a Twrite or an Rread does not wrap the
    pointer beyond 2^32 ([no_count_wrap]); with one that does, the code accepts what is no
    message ([convM2S_count_wrap_accepted]). *)
Theorem convM2S_sound ap nap m f n m' f' :
  0 < ap -> 0 <= nap -> ap + nap + 131072 < 2 ^ 32 -> wf_fcall f ->
  no_count_wrap m ap (rd8 m (ap + 4)) ->
  convM2S ap nap m f = (n, m', f') -> n <> 0 ->
  exists tag g, wf_msg g /\ is16 tag /\ n = msg_size g /\ n <= nap /\
    bytes_at m ap (enc tag g) /\ same_out ap (ap + n) m m' /\
    rep (buf_str m' ap (ap + n)) (buf_data m' ap (ap + n)) f' tag g.
Proof.
  intros Hap Hnap Hfit Hf Hw E Hn. rewrite rd8_val in Hw.
  destruct (convM2S_run _ _ _ _ _ _ _ Hap Hnap Hfit Hf Hw E)
    as [[? _]|(g & Hg & Hk & -> & Hsz & Hle & Hs & Hr)]; [done|].
  exists (val m (ap + 5) 2), g.
  split; [by eapply wf_msg_at|]. split; [apply (val_range m (ap + 5) 2)|].
  split; [done|]. split; [done|]. split; [|done].
  pose proof (msg_at_type _ _ _ _ Hg) as Ht. unfold enc. split_at. split_and!.
  - rewrite Hsz. apply bytes_at_le_unle.
  - rewrite Ht. apply bytes_at_le_unle.
  - apply bytes_at_le_unle.
  - by eapply bytes_at_msg_at.
Qed.

(** Without the wrap condition the bounds check of [convM2S] fails: a
    22-byte [Twrite] whose data count is 2^32 - 1 is accepted, with the data
    block reaching outside the message. *)
Theorem convM2S_count_wrap_accepted :
  let '(n, _, f') := convM2S 4096 23 (st_bytes ∅ 4096 wrap_msg) fcall0 in
  n = 22 /\ f_type f' = Twrite /\ f_count f' = 4294967295 /\
  4096 + 23 < f_data f' + f_count f'.
Proof. vm_compute. repeat split. Qed.

(** C39: [convS2M] never overruns its buffer: when the message does not fit, it
    returns 0 and leaves the memory unchanged. *)
Theorem convS2M_no_room f ap nap m tag g :
  is32 (msg_size g) -> nap < msg_size g -> wf_msg g ->
  rep (src_str m ap (ap + msg_size g)) (src_data m ap (ap + msg_size g)) f tag g ->
  convS2M f ap nap m = Some (0, m).
Proof.
  intros Hs Hroom Hwf Hrep. unfold convS2M.
  erewrite sizeS2M_rep by eauto. case_decide; [done|].
  by rewrite decide_True.
Qed.

(** C37: [convM2S] accepts every well-formed message that is complete in its
    buffer, whatever follows it. *)
Theorem convM2S_complete ap nap m f tag g :
  0 < ap -> ap + nap + 131072 < 2 ^ 32 -> wf_fcall f ->
  wf_msg g -> is16 tag -> msg_size g <= nap -> bytes_at m ap (enc tag g) ->
  exists m' f', convM2S ap nap m f = (msg_size g, m', f') /\
    same_out ap (ap + msg_size g) m m' /\
    rep (buf_str m' ap (ap + msg_size g)) (buf_data m' ap (ap + msg_size g)) f' tag g.
Proof. apply convM2S_reads. Qed.

(** *** Witnesses: a walk of two elements *)

Lemma walk_rep : rep (src_str walk_mem 4096 (4096 + msg_size walk_msg))
  (src_data walk_mem 4096 (4096 + msg_size walk_msg)) walk_fcall 5 walk_msg.
Proof.
  split; [done|]. split; [done|]. cbn [rep_body walk_msg].
  split_and!; [done..|]. intros [|[|i]] s Hi; simpl in Hi; simplify_eq.
  - exists 100. split; [done|]. right. split_and!; [done|split; [done|]|left; done].
    repeat constructor; done.
  - exists 200. split; [done|]. right. split_and!; [done|split; [done|]|left; done].
    repeat constructor; done.
Qed.

Lemma walk_wf : wf_msg walk_msg.
Proof. repeat constructor; done. Qed.

Lemma convS2M_convM2S_roundtrip_witness :
  exists m1 m2 f',
    convS2M walk_fcall 4096 64 walk_mem = Some (24, m1) /\
    convM2S 4096 64 m1 fcall0 = (24, m2, f') /\
    rep (buf_str m2 4096 (4096 + 24)) (buf_data m2 4096 (4096 + 24)) f' 5 walk_msg /\
    same_out 4096 (4096 + 24) walk_mem m2.
Proof.
  apply (convS2M_convM2S_roundtrip walk_fcall fcall0 4096 64 walk_mem 5 walk_msg);
    [done|done|done|exact walk_wf|done|done|exact walk_rep].
Defined.

Lemma convS2M_refines_enc_witness :
  exists m', convS2M walk_fcall 4096 64 walk_mem = Some (24, m') /\
    bytes_at m' 4096 (enc 5 walk_msg) /\ same_out 4096 (4096 + 24) walk_mem m'.
Proof.
  apply (convS2M_refines_enc walk_fcall 4096 64 walk_mem 5 walk_msg);
    [done|done|done|exact walk_wf|exact walk_rep].
Defined.

Lemma convM2S_sound_witness :
  exists m' f', convM2S 4096 64 (st_bytes ∅ 4096 (enc 5 walk_msg)) fcall0 = (24, m', f') /\
    exists tag g, wf_msg g /\ is16 tag /\ 24 = msg_size g /\ 24 <= 64 /\
    bytes_at (st_bytes ∅ 4096 (enc 5 walk_msg)) 4096 (enc tag g) /\
    same_out 4096 (4096 + 24) (st_bytes ∅ 4096 (enc 5 walk_msg)) m' /\
    rep (buf_str m' 4096 (4096 + 24)) (buf_data m' 4096 (4096 + 24)) f' tag g.
Proof.
  eexists _, _. split; [vm_compute; reflexivity|].
  apply (convM2S_sound 4096 64 (st_bytes ∅ 4096 (enc 5 walk_msg)) fcall0);
    [done|done|done|done| |vm_compute; reflexivity|done].
  split; intros H; discriminate H.
Defined.

Lemma convS2M_no_room_witness : convS2M walk_fcall 4096 23 walk_mem = Some (0, walk_mem).
Proof.
  apply (convS2M_no_room walk_fcall 4096 23 walk_mem 5 walk_msg);
    [done|done|exact walk_wf|exact walk_rep].
Defined.

Lemma convM2S_complete_witness :
  exists m' f', convM2S 4096 64 (st_bytes ∅ 4096 (enc 5 walk_msg)) fcall0 = (24, m', f') /\
    same_out 4096 (4096 + 24) (st_bytes ∅ 4096 (enc 5 walk_msg)) m' /\
    rep (buf_str m' 4096 (4096 + 24)) (buf_data m' 4096 (4096 + 24)) f' 5 walk_msg.
Proof.
  apply (convM2S_complete 4096 64 (st_bytes ∅ 4096 (enc 5 walk_msg)) fcall0 5 walk_msg);
    [done|done|done|exact walk_wf|done|done|vm_compute; reflexivity].
Defined.
