(* ===== verification/Dir9P.v ===== *)
(** Directory entries on the wire: [Dir] and the conversions of
    src/libc/9sys/convM2D.c and convD2M.c. The strings of an entry are pointers
    into memory; [convM2D] copies them to [strs], which lib9p lets be the very
    buffer that is being parsed. *)

From S2P Require Import Prelude Mem Fcall9P.

Record Dir := MkDir {
  d_type : Z;   (* ushort *)
  d_dev : Z;    (* uint *)
  d_qid : Qid;
  d_mode : Z;   (* ulong *)
  d_atime : Z;  (* ulong *)
  d_mtime : Z;  (* ulong *)
  d_length : Z; (* vlong *)
  d_name : Z;   (* char* *)
  d_uid : Z;    (* char* *)
  d_gid : Z;    (* char* *)
  d_muid : Z    (* char* *)
}.

(** ** convD2M.c *)

(** [strlen] of the entries of [sv] that are not [nil]. *)
Definition svlen (m : mem) (s : Z) : Z := if decide (s = nil) then 0 else strlen m s.

Definition dir_strs (d : Dir) : list Z := [d_name d; d_uid d; d_gid d; d_muid d].

(** [ns = 0; for(i = 0; i < 4; i++) ns += nsv[i];], on [int]s. *)
Definition strs_total (m : mem) (d : Dir) : Z :=
  foldl (fun ns s => s32 (ns + svlen m s)) 0 (dir_strs d).

Definition sizeD2M (m : mem) (d : Dir) : Z := u32 (STATFIXLEN + strs_total m d).

Section ConvD2M.
Variables (d : Dir) (ebuf : Z).

Let cm := cmd s2m Z unit.

(** The fixed part of the entry, after the size. *)
Definition d2m_fixed : cm :=
  pb16 (d_type d);; pb32 (d_dev d);;
  pb8 (q_type (d_qid d));; pb32 (q_vers (d_qid d));; pb64 (q_path (d_qid d));;
  pb32 (d_mode d);; pb32 (d_atime d);; pb32 (d_mtime d);; pb64 (d_length d).

(** One round of the string loop; [ns] is [nsv[i]], computed before. *)
Definition d2m_str (ns s : Z) : cm :=
  p <- cgets snd;;
  if decide (ebuf < padd (padd p ns) BIT16SZ) then creturn 0
  else
    pb16 ns;;
    if decide (ns = 0) then cret tt else pdata s ns.

Definition d2m_strs (nsv : list Z) : cm :=
  cfor 4 (fun i =>
    match nsv !! Z.to_nat i, dir_strs d !! Z.to_nat i with
    | Some ns, Some s => d2m_str ns s
    | _, _ => cabort
    end).
End ConvD2M.

(** [convD2M(d, buf, nbuf)]: the value returned and the memory. *)
Definition convD2M (d : Dir) (buf nbuf : Z) (m : mem) : option (Z * mem) :=
  if decide (nbuf < BIT16SZ) then Some (0, m)
  else
    let ebuf := padd buf nbuf in
    let nsv := svlen m <$> dir_strs d in
    let ss := s32 (STATFIXLEN + strs_total m d) in
    match pb16 (ss - BIT16SZ) (m, buf) with
    | (_, (m1, p1)) =>
        if decide (nbuf < u32 ss) then Some (BIT16SZ, m1)
        else
          match (d2m_fixed d;; d2m_strs d ebuf nsv) (m1, p1) with
          | (Go _, (m2, p2)) =>
              if decide (ss <> s32 (p2 - buf)) then Some (0, m2)
              else Some (u32 (p2 - buf), m2)
          | (Ret r, (m2, _)) => Some (r, m2)
          | (_, _) => None
          end
    end.

(** ** convM2D.c *)

(** The loop of [statcheck] over the four strings: [buf] after [k] more
    strings, [None] for [return -1]. *)
Fixpoint statcheck_strs (m : mem) (ebuf : Z) (k : nat) (buf : Z) : option Z :=
  match k with
  | O => Some buf
  | S k' =>
      if decide (ebuf < padd buf BIT16SZ) then None
      else statcheck_strs m ebuf k' (padd buf (BIT16SZ + GBIT16 m buf))
  end.

Definition statcheck (m : mem) (buf nbuf : Z) : Z :=
  let ebuf := padd buf nbuf in
  if decide (nbuf < STATFIXLEN) then -1
  else if decide (nbuf <> BIT16SZ + GBIT16 m buf) then -1
  else
    match statcheck_strs m ebuf 4 (padd buf (STATFIXLEN - 4 * BIT16SZ)) with
    | None => -1
    | Some buf' => if decide (buf' <> ebuf) then -1 else 0
    end.

Section ConvM2D.
(** The address of the static [nullstring], an empty string. *)
Variable nullstring : Z.

(** One round of the string loop: the memory, [p], [strs] and [sv]. *)
Definition m2d_str (ebuf : Z) (st : mem * Z * Z * list Z) : option (mem * Z * Z * list Z) :=
  let '(m, p, strs, sv) := st in
  if decide (ebuf < padd p BIT16SZ) then None
  else
    let ns := GBIT16 m p in
    let p := padd p BIT16SZ in
    if decide (ebuf < padd p ns) then None
    else if decide (strs = nil) then Some (m, padd p ns, strs, sv)
    else
      let m := memmove m strs p ns in
      let sv := sv ++ [strs] in
      let strs' := padd strs ns in
      let m := wr8 m strs' 0 in
      Some (m, padd p ns, padd strs' 1, sv).

Fixpoint m2d_strs (ebuf : Z) (k : nat) (st : mem * Z * Z * list Z)
    : mem * option (Z * list Z) :=
  match k with
  | O => let '(m, p, _, sv) := st in (m, Some (p, sv))
  | S k' =>
      match m2d_str ebuf st with
      | None => let '(m, _, _, _) := st in (m, None)
      | Some st' => m2d_strs ebuf k' st'
      end
  end.

(** [convM2D(buf, nbuf, d, strs)]: the value returned, the memory and [*d]. *)
Definition convM2D (buf nbuf : Z) (m : mem) (d : Dir) (strs : Z) : Z * mem * Dir :=
  if decide (nbuf < STATFIXLEN) then (0, m, d)
  else
    let ebuf := padd buf nbuf in
    let p := padd buf BIT16SZ in
    let d_type' := GBIT16 m p in
    let p := padd p BIT16SZ in
    let d_dev' := GBIT32 m p in
    let p := padd p BIT32SZ in
    let qtype := GBIT8 m p in
    let p := padd p BIT8SZ in
    let qvers := GBIT32 m p in
    let p := padd p BIT32SZ in
    let qpath := GBIT64 m p in
    let p := padd p BIT64SZ in
    let d_mode' := GBIT32 m p in
    let p := padd p BIT32SZ in
    let d_atime' := GBIT32 m p in
    let p := padd p BIT32SZ in
    let d_mtime' := GBIT32 m p in
    let p := padd p BIT32SZ in
    let d_length' := s64 (GBIT64 m p) in
    let p := padd p BIT64SZ in
    let d1 := MkDir d_type' d_dev' (MkQid qpath qvers qtype) d_mode' d_atime' d_mtime'
                d_length' (d_name d) (d_uid d) (d_gid d) (d_muid d) in
    match m2d_strs ebuf 4 (m, p, strs, []) with
    | (m', None) => (0, m', d1)
    | (m', Some (p', sv)) =>
        let set n u g w :=
          MkDir d_type' d_dev' (MkQid qpath qvers qtype) d_mode' d_atime' d_mtime'
            d_length' n u g w in
        match sv with
        | [n; u; g; w] => (u32 (p' - buf), m', set n u g w)
        | _ => (u32 (p' - buf), m', set nullstring nullstring nullstring nullstring)
        end
    end.
End ConvM2D.
