(* ===== verification/Dir9PSpec.v ===== *)
(** The contract of the directory-entry conversions: an abstract entry, its
    encoding, and the proofs about [convD2M], [statcheck] and [convM2D]. *)

From S2P Require Import Prelude Mem Fcall9P Fcall9PSpec Dir9P.

(** ** Abstract entries *)

Record dirv := Dirv {
  v_type : Z; v_dev : Z; v_qid : Qid; v_mode : Z; v_atime : Z; v_mtime : Z;
  v_length : Z; v_name : bytes; v_uid : bytes; v_gid : bytes; v_muid : bytes
}.

Definition v_strs (v : dirv) : list bytes := [v_name v; v_uid v; v_gid v; v_muid v].
Definition v_total (v : dirv) : Z :=
  zlen (v_name v) + zlen (v_uid v) + zlen (v_gid v) + zlen (v_muid v).
Definition dir_size (v : dirv) : Z := STATFIXLEN + v_total v.

Definition enc_fixed (v : dirv) : bytes :=
  le 2 (v_type v) ++ le 4 (v_dev v) ++
  le 1 (q_type (v_qid v)) ++ le 4 (q_vers (v_qid v)) ++ le 8 (q_path (v_qid v)) ++
  le 4 (v_mode v) ++ le 4 (v_atime v) ++ le 4 (v_mtime v) ++ le 8 (v_length v).

Definition enc_dir (v : dirv) : bytes :=
  le 2 (dir_size v - BIT16SZ) ++ enc_fixed v ++ concat (enc_str <$> v_strs v).

Definition wf_dirv (v : dirv) : Prop :=
  is16 (v_type v) /\ is32 (v_dev v) /\ wf_qid (v_qid v) /\ is32 (v_mode v) /\
  is32 (v_atime v) /\ is32 (v_mtime v) /\ is_vlong (v_length v) /\
  is16 (dir_size v - BIT16SZ).

(** [d] stands for [v], its string pointers for the strings of [v]. *)
Definition dir_rep (PS : Z -> bytes -> Prop) (d : Dir) (v : dirv) : Prop :=
  d_type d = v_type v /\ d_dev d = v_dev v /\ d_qid d = v_qid v /\
  d_mode d = v_mode v /\ d_atime d = v_atime v /\ d_mtime d = v_mtime v /\
  d_length d = v_length v /\
  PS (d_name d) (v_name v) /\ PS (d_uid d) (v_uid v) /\
  PS (d_gid d) (v_gid v) /\ PS (d_muid d) (v_muid v).

(** A NUL-terminated copy of [s] at [p]. *)
Definition copied (m : mem) (p : Z) (s : bytes) : Prop := bytes_at m p (s ++ [0]).

(** Where [convM2D] puts the copies of the strings [ws], from [strs] on. *)
Fixpoint sv_at (strs : Z) (ws : list bytes) : list Z :=
  match ws with
  | [] => []
  | w :: ws' => strs :: sv_at (strs + zlen w + 1) ws'
  end.

Fixpoint terminated (ws : list bytes) : Z :=
  match ws with
  | [] => 0
  | w :: ws' => zlen w + 1 + terminated ws'
  end.

(** ** Sizes *)

Lemma v_total_strs v : zlen (concat (enc_str <$> v_strs v)) = 8 + v_total v.
Proof.
unfold v_strs, v_total. rewrite !fmap_cons, fmap_nil. cbn [concat].
rewrite !zlen_app, !zlen_enc_str, zlen_nil. lia.
Qed.

Lemma v_total_nonneg v : 0 <= v_total v.
Proof.
unfold v_total. pose proof (zlen_nonneg (v_name v)). pose proof (zlen_nonneg (v_uid v)).
pose proof (zlen_nonneg (v_gid v)). pose proof (zlen_nonneg (v_muid v)). lia.
Qed.

Lemma zlen_enc_fixed v : zlen (enc_fixed v) = 39.
Proof. unfold enc_fixed. by rewrite !zlen_app, !zlen_le. Qed.

Lemma zlen_enc_dir v : zlen (enc_dir v) = dir_size v.
Proof.
unfold enc_dir, dir_size. rewrite !zlen_app, zlen_le, zlen_enc_fixed, v_total_strs.
change STATFIXLEN with 49. lia.
Qed.

(** ** [convD2M] writes the encoding *)

Section D2M.
Variables (m0 : mem) (lo hi : Z).

Lemma svlen_src p s : src_str m0 lo hi p s -> svlen m0 p = zlen s.
Proof.
intros [[-> ->]|(Hn & Hc & _)]; unfold svlen.
- by rewrite decide_True.
- rewrite decide_False by done. by apply strlen_spec.
Qed.

Lemma strs_total_rep d v :
  dir_rep (src_str m0 lo hi) d v -> v_total v < 2 ^ 31 -> strs_total m0 d = v_total v.
Proof.
intros (_ & _ & _ & _ & _ & _ & _ & Hn & Hu & Hg & Hw) Hlt.
unfold strs_total, dir_strs. cbn [foldl].
rewrite (svlen_src _ _ Hn), (svlen_src _ _ Hu), (svlen_src _ _ Hg), (svlen_src _ _ Hw).
unfold v_total in *. pose proof (zlen_nonneg (v_name v)). pose proof (zlen_nonneg (v_uid v)).
pose proof (zlen_nonneg (v_gid v)). pose proof (zlen_nonneg (v_muid v)).
rewrite (s32_small (0 + _)) by lia. rewrite (s32_small (_ + zlen (v_uid v))) by lia.
rewrite (s32_small (_ + zlen (v_gid v))) by lia. rewrite s32_small; lia.
Qed.

Hypothesis Hlo : 0 < lo.
Hypothesis Hhi : hi < 2 ^ 32.

Lemma emits_fixed d v PS : dir_rep PS d v -> emits m0 lo hi (d2m_fixed d) (enc_fixed v).
Proof.
intros (Ht & Hd & Hq & Hm & Ha & Hmt & Hl & _).
unfold d2m_fixed. rewrite Ht, Hd, Hq, Hm, Ha, Hmt, Hl.
repeat (apply emits_seq; [auto using emits_pb8, emits_pb16, emits_pb32, emits_pb64|]).
by apply emits_pb64.
Qed.

Lemma emits_d2m_str ebuf p s :
  src_str m0 lo hi p s -> hi <= ebuf ->
  emits m0 lo hi (d2m_str ebuf (zlen s) p) (enc_str s).
Proof.
intros Hs Hle.
assert (emits m0 lo hi (pb16 (zlen s);; if decide (zlen s = 0) then cret tt else pdata p (zlen s))
          (enc_str s)) as E.
{ apply emits_seq; [by apply emits_pb16|]. case_decide as Hz.
  - destruct s; [apply emits_ret|rewrite zlen_cons in Hz; pose proof (zlen_nonneg s); lia].
  - apply emits_pdata; [done..| |done]. destruct Hs as [[_ ->]|(_ & [Hc _] & Hd)]; [done|].
    apply bytes_at_app in Hc as [Hc _]. split; [done|lia]. }
intros k [m q] Hw Hroom. destruct (E k (m, q) Hw Hroom) as (s' & Hrun & Hw').
exists s'. split; [|done]. unfold d2m_str. unfold cbind at 1, cgets. cbn [snd].
destruct Hw as (Hq & _ & _). cbn [snd] in Hq. rewrite zlen_enc_str in Hroom.
pose proof (zlen_nonneg k). pose proof (zlen_nonneg s). unfold BIT16SZ.
rewrite !padd_small by (rewrite ?padd_small; lia). rewrite decide_False by lia. done.
Qed.

Lemma emits_d2m_strs ebuf d v :
  dir_rep (src_str m0 lo hi) d v -> hi <= ebuf ->
  emits m0 lo hi (d2m_strs d ebuf (svlen m0 <$> dir_strs d)) (concat (enc_str <$> v_strs v)).
Proof.
intros (_ & _ & _ & _ & _ & _ & _ & Hn & Hu & Hg & Hw) Hle.
apply (emits_for m0 lo hi); [done|]. intros j s Hj. rewrite Nat2Z.id.
unfold dir_strs. rewrite !fmap_cons, fmap_nil.
rewrite (svlen_src _ _ Hn), (svlen_src _ _ Hu), (svlen_src _ _ Hg), (svlen_src _ _ Hw).
destruct j as [|[|[|[|j]]]]; cbn in Hj |- *; simplify_eq; by apply emits_d2m_str.
Qed.
End D2M.

Lemma convD2M_writes d buf nbuf m v :
  0 < buf -> buf + nbuf < 2 ^ 32 -> dir_size v <= nbuf -> dir_size v < 2 ^ 31 ->
  dir_rep (src_str m buf (buf + dir_size v)) d v ->
  exists m', convD2M d buf nbuf m = Some (dir_size v, m') /\
    bytes_at m' buf (enc_dir v) /\ same_out buf (buf + dir_size v) m m'.
Proof.
intros Hb Hfit Hroom H31 Hrep. pose proof (v_total_nonneg v) as Ht.
assert (strs_total m d = v_total v) as Etot.
{ eapply strs_total_rep; [done|]. unfold dir_size in H31. change STATFIXLEN with 49 in H31. lia. }
unfold convD2M. rewrite Etot. fold (dir_size v).
assert (49 <= dir_size v) by (unfold dir_size; change STATFIXLEN with 49; lia).
rewrite decide_False by (unfold BIT16SZ; lia). rewrite (padd_small buf nbuf) by lia.
rewrite (s32_small (dir_size v)) by lia. rewrite (u32_small (dir_size v)) by lia.
set (hi := buf + dir_size v).
assert (emits m buf hi (pb16 (dir_size v - BIT16SZ);; d2m_fixed d;;
          d2m_strs d (buf + nbuf) (svlen m <$> dir_strs d)) (enc_dir v)) as E.
{ apply emits_seq; [apply emits_pb16; lia|]. apply emits_seq.
  - eapply emits_fixed; try done. subst hi; lia.
  - apply emits_d2m_strs; try done; subst hi; lia. }
destruct (E [] (m, buf)) as ([m' p'] & Hrun & Hp & Hat & Hs).
- split_and!; [simpl; rewrite zlen_nil; lia|done|apply same_out_refl].
- rewrite zlen_nil, zlen_enc_dir. subst hi. lia.
- rewrite app_nil_l in *. simpl in Hp. rewrite zlen_enc_dir in Hp. simpl in Hat, Hs.
  exists m'. split; [|done]. cbv [cbind pb16] in Hrun |- *. rewrite decide_False by lia.
  rewrite Hrun. replace (p' - buf) with (dir_size v) by lia.
  rewrite s32_small, u32_small by lia. by rewrite decide_False by lia.
Qed.

(** ** The string loops of [statcheck] and [convM2D] *)

Lemma GBIT16_val m p : GBIT16 m p = val m p 2.
Proof. apply GBIT16_ld. Qed.
Lemma GBIT32_val m p : GBIT32 m p = val m p 4.
Proof. apply GBIT32_ld. Qed.
Lemma GBIT64_val m p : GBIT64 m p = val m p 8.
Proof. apply GBIT64_ld. Qed.

Lemma zlen_encs_nonneg ws : 0 <= zlen (concat (enc_str <$> ws)).
Proof. apply zlen_nonneg. Qed.

Lemma concat_enc_cons w ws :
  concat (enc_str <$> (w :: ws)) = enc_str w ++ concat (enc_str <$> ws).
Proof. done. Qed.

(** [statcheck]'s loop ends at [q <= ebuf] exactly when [k] encoded strings lie
    between [buf] and [q]. *)
Lemma statcheck_strs_iff m ebuf k buf q :
  0 < buf -> buf <= ebuf + 65537 -> ebuf + 65540 < 2 ^ 32 -> q <= ebuf ->
  statcheck_strs m ebuf k buf = Some q <->
  exists ws, length ws = k /\ Forall wf_str ws /\
    bytes_at m buf (concat (enc_str <$> ws)) /\ q = buf + zlen (concat (enc_str <$> ws)).
Proof.
revert buf; induction k as [|k IH]; intros buf Hb Hlt Hfit Hq; cbn [statcheck_strs].
{ split.
  - intros [= <-]. exists []. repeat split; [constructor|]. cbn. rewrite zlen_nil. lia.
  - intros (ws & Hk & _ & _ & ->). destruct ws; [|done]. cbn. f_equal. rewrite zlen_nil. lia. }
unfold BIT16SZ. rewrite (padd_small buf) by lia. rewrite GBIT16_val.
pose proof (str_at_range m buf). case_decide as Hd.
{ split; [done|]. intros ([|w ws] & Hk & _ & _ & ->); [done|].
  rewrite concat_enc_cons, zlen_app, zlen_enc_str in Hq.
  pose proof (zlen_nonneg w). pose proof (zlen_encs_nonneg ws). lia. }
rewrite padd_small by lia. rewrite IH by lia. split.
- intros (ws & Hk & Hw & Hat & ->). exists (str_at m buf :: ws).
  rewrite concat_enc_cons, zlen_app, zlen_enc_str, zlen_str_at. split_and!.
  + simpl; lia.
  + constructor; [apply wf_str_at|done].
  + apply bytes_at_app. split; [apply bytes_at_enc_str|].
    by rewrite zlen_enc_str, zlen_str_at.
  + lia.
- intros ([|w ws] & Hk & Hw & Hat & ->); [done|].
  rewrite concat_enc_cons in *. apply Forall_cons_1 in Hw as [Hw Hws].
  pose proof (str_at_enc _ _ _ _ Hat Hw) as Es. apply bytes_at_app in Hat as [_ Hat].
  rewrite <- zlen_str_at, Es. exists ws. rewrite zlen_enc_str in Hat.
  rewrite zlen_app, zlen_enc_str. simpl in Hk. split_and!; try done; lia.
Qed.

(** The entry whose fixed part is stored at [p] and whose strings are [ws]. *)
Definition dirv_at (m : mem) (p : Z) (n u g w : bytes) : dirv :=
  Dirv (val m p 2) (val m (p + 2) 4) (qid_at m (p + 6)) (val m (p + 19) 4)
    (val m (p + 23) 4) (val m (p + 27) 4) (s64 (val m (p + 31) 8)) n u g w.

Lemma bytes_at_enc_fixed m p n u g w : bytes_at m p (enc_fixed (dirv_at m p n u g w)).
Proof.
unfold enc_fixed, dirv_at; cbn. pose proof (bytes_at_enc_qid m (p + 6)) as Q.
unfold enc_qid in Q. rewrite !bytes_at_app, !zlen_le in *.
change (Z.of_nat 2) with 2 in *; change (Z.of_nat 4) with 4 in *;
  change (Z.of_nat 1) with 1 in *; change (Z.of_nat 8) with 8 in *.
revert Q. addrs. intros (? & ? & ?). split_and!; auto using bytes_at_le_unle, bytes_at_le_s64.
Qed.

Lemma dirv_at_enc m p v rest :
  bytes_at m p (enc_fixed v ++ rest) -> wf_dirv v ->
  dirv_at m p (v_name v) (v_uid v) (v_gid v) (v_muid v) = v.
Proof.
unfold wf_dirv, is16, is32. intros H (Ht & Hd & Hq & Hm & Ha & Hmt & Hl & _).
apply bytes_at_app in H as [H _]. unfold enc_fixed in H.
assert (bytes_at m (p + 6) (enc_qid (v_qid v))) as Q.
{ unfold enc_qid. rewrite !bytes_at_app, !zlen_le in *.
  change (Z.of_nat 2) with 2 in *; change (Z.of_nat 4) with 4 in *;
  change (Z.of_nat 1) with 1 in *. revert H. addrs. tauto. }
rewrite !bytes_at_app, !zlen_le in H.
change (Z.of_nat 2) with 2 in *; change (Z.of_nat 4) with 4 in *;
  change (Z.of_nat 1) with 1 in *; change (Z.of_nat 8) with 8 in *.
revert H. addrs. intros (H1 & H2 & _ & _ & _ & H3 & H4 & H5 & H6).
unfold dirv_at. rewrite (qid_at_enc' _ _ _ Q) by done.
rewrite (val_at' _ _ _ _ H1), (val_at' _ _ _ _ H2), (val_at' _ _ _ _ H3),
  (val_at' _ _ _ _ H4), (val_at' _ _ _ _ H5), (s64_val_at' _ _ _ H6) by done.
by destruct v.
Qed.

Lemma wf_dirv_at m p n u g w :
  is16 (dir_size (dirv_at m p n u g w) - BIT16SZ) -> wf_dirv (dirv_at m p n u g w).
Proof.
intros H. unfold wf_dirv; split_and!; try exact H; unfold dirv_at, is16, is32; cbn.
- apply (val_range m p 2).
- apply (val_range m (p + 2) 4).
- apply wf_qid_at.
- apply (val_range m (p + 19) 4).
- apply (val_range m (p + 23) 4).
- apply (val_range m (p + 27) 4).
- apply s64_vlong.
Qed.

Lemma zlen_encs ws : zlen (concat (enc_str <$> ws)) = 2 * zlen ws + zlen (concat ws).
Proof.
induction ws as [|w ws IH]; [done|].
rewrite concat_enc_cons, zlen_app, zlen_enc_str, IH, zlen_cons. cbn [concat].
rewrite zlen_app. lia.
Qed.

(** The loop of [convM2D], where the copies either stay behind the bytes that
    are still to be read or lie outside the buffer. *)
Lemma m2d_strs_reads ebuf ws m p strs sv :
  0 < p -> 0 < strs -> p + zlen (concat (enc_str <$> ws)) <= ebuf -> ebuf + 65540 < 2 ^ 32 ->
  strs + terminated ws < 2 ^ 32 -> Forall wf_str ws ->
  bytes_at m p (concat (enc_str <$> ws)) ->
  strs <= p \/ p + zlen (concat (enc_str <$> ws)) <= strs ->
  exists m', m2d_strs ebuf (length ws) (m, p, strs, sv) =
      (m', Some (p + zlen (concat (enc_str <$> ws)), sv ++ sv_at strs ws)) /\
    Forall2 (copied m') (sv_at strs ws) ws /\ same_out strs (strs + terminated ws) m m'.
Proof.
revert m p strs sv; induction ws as [|w ws IH]; intros m p strs sv Hp Hs Hroom Hfit Hsfit Hwf Hat Hd.
{ exists m. cbn. rewrite zlen_nil, Z.add_0_r, app_nil_r. split_and!; [done|constructor|apply same_out_refl]. }
rewrite concat_enc_cons, zlen_app, zlen_enc_str in *. cbn [terminated sv_at] in *.
apply Forall_cons_1 in Hwf as [Hw Hws].
pose proof (zlen_nonneg w). pose proof (zlen_encs_nonneg ws).
assert (0 <= terminated ws) as Ht by (clear; induction ws; cbn [terminated];
  [lia|pose proof (zlen_nonneg a); lia]).
pose proof (str_at_enc _ _ _ _ Hat Hw) as Es.
assert (val m p 2 = zlen w) as Ev by (by rewrite <- zlen_str_at, Es).
apply bytes_at_app in Hat as [Hatw Hat]. apply bytes_at_app in Hatw as [_ Hatw].
rewrite zlen_enc_str in Hat. rewrite zlen_le in Hatw. change (Z.of_nat 2) with 2 in Hatw.
cbn [length m2d_strs]. unfold m2d_str. rewrite GBIT16_val, Ev. unfold BIT16SZ.
rewrite (padd_small p) by lia. rewrite decide_False by lia.
rewrite (padd_small (p + 2)) by lia. rewrite decide_False by lia.
rewrite decide_False by (unfold nil; lia).
rewrite (padd_small strs) by lia. rewrite (padd_small (strs + _)) by lia.
set (m1 := wr8 (memmove m strs (p + 2) (zlen w)) (strs + zlen w) 0).
assert (copied m1 strs w) as Hc.
{ apply bytes_at_app. split.
  - apply (bytes_at_same_out (strs + zlen w) (strs + zlen w + 1) (memmove m strs (p + 2) (zlen w)));
      [apply wr8_same_out; lia|lia|]. by apply bytes_at_memmove.
  - apply bytes_at_cons. split; [apply rd8_wr8_eq|done]. }
assert (same_out strs (strs + zlen w + 1) m m1) as Hso.
{ etransitivity; [apply memmove_same_out|apply wr8_same_out]; lia. }
destruct (IH m1 (p + 2 + zlen w) (strs + zlen w + 1) (sv ++ [strs])) as (m' & E & F & So);
  try lia; [done| |].
{ eapply bytes_at_same_out; [exact Hso|lia|]. by rewrite <- Z.add_assoc. }
exists m'. rewrite E. split_and!.
- rewrite <- app_assoc. by replace (p + 2 + zlen w + zlen (concat (enc_str <$> ws)))
    with (p + (2 + zlen w + zlen (concat (enc_str <$> ws)))) by lia.
- constructor; [|done]. unfold copied in *. eapply bytes_at_same_out; [exact So| |done].
  rewrite zlen_app, zlen_cons, zlen_nil. lia.
- etransitivity; (eapply same_out_weaken; [eassumption|lia|lia]).
Qed.

(** The loop of [convM2D] with [strs == nil] only measures. *)
Lemma m2d_strs_nil ebuf ws m p sv :
  0 < p -> p + zlen (concat (enc_str <$> ws)) <= ebuf -> ebuf + 65540 < 2 ^ 32 ->
  Forall wf_str ws -> bytes_at m p (concat (enc_str <$> ws)) ->
  m2d_strs ebuf (length ws) (m, p, nil, sv) =
    (m, Some (p + zlen (concat (enc_str <$> ws)), sv)).
Proof.
revert p; induction ws as [|w ws IH]; intros p Hp Hroom Hfit Hwf Hat.
{ cbn. by rewrite zlen_nil, Z.add_0_r. }
rewrite concat_enc_cons, zlen_app, zlen_enc_str in *. apply Forall_cons_1 in Hwf as [Hw Hws].
pose proof (zlen_nonneg w). pose proof (zlen_encs_nonneg ws).
pose proof (str_at_enc _ _ _ _ Hat Hw) as Es.
assert (val m p 2 = zlen w) as Ev by (by rewrite <- zlen_str_at, Es).
apply bytes_at_app in Hat as [_ Hat]. rewrite zlen_enc_str in Hat.
cbn [length m2d_strs]. unfold m2d_str. rewrite GBIT16_val, Ev. unfold BIT16SZ.
rewrite (padd_small p) by lia. rewrite decide_False by lia.
rewrite (padd_small (p + 2)) by lia. rewrite decide_False by lia.
rewrite decide_True by done.
rewrite IH; [f_equal; f_equal; f_equal; lia|lia|lia|done|done|].
by rewrite <- Z.add_assoc.
Qed.

(** When the loop ends without an error, the strings were there. *)
Lemma m2d_strs_sound ebuf k m p strs sv m' q sv' :
  0 < p -> 0 <= strs -> p <= ebuf -> ebuf + 65540 < 2 ^ 32 -> strs + 65536 * Z.of_nat k < 2 ^ 32 ->
  strs <= p \/ ebuf <= strs ->
  m2d_strs ebuf k (m, p, strs, sv) = (m', Some (q, sv')) ->
  exists ws, length ws = k /\ Forall wf_str ws /\ bytes_at m p (concat (enc_str <$> ws)) /\
    q = p + zlen (concat (enc_str <$> ws)) /\ q <= ebuf.
Proof.
revert m p strs sv; induction k as [|k IH]; intros m p strs sv Hp Hs Hle Hfit Hsfit Hd.
{ intros [= <- <- <-]. exists []. cbn. rewrite zlen_nil. repeat split; [constructor|lia|lia]. }
cbn [m2d_strs]. unfold m2d_str. rewrite GBIT16_val. unfold BIT16SZ.
pose proof (str_at_range m p) as Hr. rewrite (padd_small p) by lia.
case_decide; [done|]. rewrite (padd_small (p + 2)) by lia. case_decide; [done|].
assert (forall rest, bytes_at m (p + 2 + val m p 2) (concat (enc_str <$> rest)) ->
  Forall wf_str rest -> length rest = k -> 
  p + 2 + val m p 2 + zlen (concat (enc_str <$> rest)) <= ebuf ->
  exists ws, length ws = S k /\ Forall wf_str ws /\ bytes_at m p (concat (enc_str <$> ws)) /\
    p + 2 + val m p 2 + zlen (concat (enc_str <$> rest)) = p + zlen (concat (enc_str <$> ws)) /\
    p + 2 + val m p 2 + zlen (concat (enc_str <$> rest)) <= ebuf) as Hgoal.
{ intros rest Hrest Hwf Hk Hq. exists (str_at m p :: rest).
  rewrite concat_enc_cons, zlen_app, zlen_enc_str, zlen_str_at. split_and!.
  - simpl; lia.
  - constructor; [apply wf_str_at|done].
  - apply bytes_at_app. split; [apply bytes_at_enc_str|].
    rewrite zlen_enc_str, zlen_str_at. by rewrite Z.add_assoc.
  - lia.
  - lia. }
case_decide as Hnil.
- subst strs. unfold nil. intros E. apply IH in E as (rest & Hk & Hwf & Hat & -> & Hq); try lia.
  by apply Hgoal.
- unfold nil in Hnil. rewrite (padd_small strs) by lia. rewrite (padd_small (strs + _)) by lia.
  set (m1 := wr8 _ _ _). intros E.
  assert (same_out strs (strs + val m p 2 + 1) m m1) as Hso.
  { etransitivity; [apply memmove_same_out|apply wr8_same_out]; lia. }
  apply IH in E as (rest & Hk & Hwf & Hat & -> & Hq); try lia.
  apply Hgoal; try done. eapply bytes_at_ext; [|exact Hat].
  intros a Ha. symmetry. apply Hso. pose proof (zlen_encs_nonneg rest). lia.
Qed.

(** ** The three routines *)

(** The result of [convM2D] from its fixed part [v] and its string pointers. *)
Definition dir_of (v : dirv) (n u g w : Z) : Dir :=
  MkDir (v_type v) (v_dev v) (v_qid v) (v_mode v) (v_atime v) (v_mtime v) (v_length v) n u g w.

Lemma convM2D_loop ns buf nbuf m d strs :
  0 < buf -> STATFIXLEN <= nbuf -> buf + nbuf < 2 ^ 32 ->
  convM2D ns buf nbuf m d strs =
    let v := dirv_at m (buf + 2) [] [] [] [] in
    match m2d_strs (buf + nbuf) 4 (m, buf + 41, strs, []) with
    | (m', None) => (0, m', dir_of v (d_name d) (d_uid d) (d_gid d) (d_muid d))
    | (m', Some (p', [n; u; g; w])) => (u32 (p' - buf), m', dir_of v n u g w)
    | (m', Some (p', _)) => (u32 (p' - buf), m', dir_of v ns ns ns ns)
    end.
Proof.
change STATFIXLEN with 49. intros Hb Hn Hfit. unfold convM2D. change STATFIXLEN with 49.
rewrite decide_False by lia. unfold BIT8SZ, BIT16SZ, BIT32SZ, BIT64SZ, GBIT8.
repeat (first [rewrite (padd_small buf) by lia | rewrite (padd_small (buf + _)) by lia]; addrs).
cbv zeta. rewrite !GBIT16_val, !GBIT32_val, !GBIT64_val, !rd8_val.
unfold dirv_at, dir_of, qid_at; cbn [v_type v_dev v_qid v_mode v_atime v_mtime v_length]. addrs.
destruct (m2d_strs _ _ _) as [m' [[p' [|? [|? [|? [|? [|? ?]]]]]]|]]; done.
Qed.

Lemma bytes_at_entry m p v :
  bytes_at m p (enc_fixed v ++ concat (enc_str <$> v_strs v)) <->
  bytes_at m p (enc_fixed v) /\ bytes_at m (p + 39) (concat (enc_str <$> v_strs v)).
Proof. by rewrite bytes_at_app, zlen_enc_fixed. Qed.

Lemma wf_v_strs v : wf_dirv v -> Forall wf_str (v_strs v).
Proof.
intros (_ & _ & _ & _ & _ & _ & _ & H). unfold is16, dir_size, v_total in H.
change STATFIXLEN with 49 in H. change BIT16SZ with 2 in H. unfold v_strs, wf_str, is16.
pose proof (zlen_nonneg (v_name v)). pose proof (zlen_nonneg (v_uid v)).
pose proof (zlen_nonneg (v_gid v)). pose proof (zlen_nonneg (v_muid v)).
repeat constructor; lia.
Qed.

Lemma convM2D_reads ns buf nbuf m d strs v :
  0 < buf -> 0 < strs -> dir_size v <= nbuf -> buf + nbuf + 65540 < 2 ^ 32 ->
  strs + terminated (v_strs v) < 2 ^ 32 -> wf_dirv v ->
  bytes_at m (buf + 2) (enc_fixed v ++ concat (enc_str <$> v_strs v)) ->
  strs <= buf + 41 \/ buf + dir_size v <= strs ->
  exists m' d', convM2D ns buf nbuf m d strs = (dir_size v, m', d') /\
    dir_rep (copied m') d' v /\ same_out strs (strs + terminated (v_strs v)) m m'.
Proof.
intros Hb Hs Hsz Hfit Hsfit Hwf Hat Hd. pose proof (v_total_nonneg v) as Ht.
pose proof (dirv_at_enc _ _ _ _ Hat Hwf) as Ev. apply bytes_at_entry in Hat as [_ Hat].
pose proof (v_total_strs v) as Hl. unfold dir_size in *. change STATFIXLEN with 49 in *.
rewrite convM2D_loop by (change STATFIXLEN with 49; lia).
replace (buf + 2 + 39) with (buf + 41) in Hat by lia.
destruct (m2d_strs_reads (buf + nbuf) (v_strs v) m (buf + 41) strs []) as (m' & E & F & So);
  try lia; [by apply wf_v_strs|done|].
change (length (v_strs v)) with 4%nat in E. rewrite E. rewrite app_nil_l. cbn [sv_at v_strs] in *.
eexists m', _. split; [f_equal; f_equal; rewrite Hl, u32_small; lia|]. split; [|done].
unfold dir_of, dir_rep; cbn. rewrite <- Ev. cbn.
repeat match goal with H : Forall2 _ _ _ |- _ => apply Forall2_cons_1 in H as [? H] end.
split_and!; try done; by rewrite Ev.
Qed.

Lemma enc_dir_split m p v : bytes_at m p (enc_dir v) <->
  bytes_at m p (le 2 (dir_size v - BIT16SZ)) /\
  bytes_at m (p + 2) (enc_fixed v ++ concat (enc_str <$> v_strs v)).
Proof. unfold enc_dir. by rewrite bytes_at_app, zlen_le. Qed.

(** An encoded entry passes [statcheck]. *)
Lemma statcheck_enc m buf v :
  0 < buf -> buf + dir_size v + 65540 < 2 ^ 32 -> wf_dirv v -> bytes_at m buf (enc_dir v) ->
  statcheck m buf (dir_size v) = 0.
Proof.
intros Hb Hfit Hwf Hat. apply enc_dir_split in Hat as [Hsz Hat].
apply bytes_at_entry in Hat as [_ Hat]. replace (buf + 2 + 39) with (buf + 41) in Hat by lia.
pose proof (v_total_nonneg v). pose proof (v_total_strs v) as Hl.
assert (dir_size v = 49 + v_total v) as Hd by done.
unfold statcheck. change STATFIXLEN with 49. unfold BIT16SZ. rewrite GBIT16_val.
rewrite (val_at' m buf 2 (dir_size v - BIT16SZ)) by (done || apply Hwf).
rewrite !padd_small by lia. rewrite decide_False by lia.
rewrite decide_False by (unfold BIT16SZ; lia). change (49 - 4 * 2) with 41.
rewrite (proj2 (statcheck_strs_iff m (buf + dir_size v) 4 (buf + 41) (buf + dir_size v)
  ltac:(lia) ltac:(lia) ltac:(lia) ltac:(lia))); [by rewrite decide_False by lia|].
exists (v_strs v). split_and!; [done|by apply wf_v_strs|done|lia].
Qed.

(** The concrete entry of the examples: "a" owned by "b", group "", "cd". *)
Definition ex_dirv : dirv :=
  Dirv 1 2 (MkQid 9 3 128) 511 10 11 77 [97] [98] [] [99; 100].
Definition ex_dmem : mem := st_bytes (st_bytes (st_bytes ∅ 100 [97; 0]) 110 [98; 0]) 120 [99; 100; 0].
Definition ex_dir : Dir := MkDir 1 2 (MkQid 9 3 128) 511 10 11 77 100 110 0 120.
Definition dir0 : Dir := MkDir 0 0 (MkQid 0 0 0) 0 0 0 0 0 0 0 0.

(** [convD2M], given room, writes the encoding of the entry at [buf], nothing
    outside it, and returns the size that [sizeD2M] announces. *)
Theorem convD2M_refines_enc_dir d buf nbuf m v :
  0 < buf -> buf + nbuf < 2 ^ 32 -> dir_size v <= nbuf -> dir_size v < 2 ^ 31 ->
  dir_rep (src_str m buf (buf + dir_size v)) d v ->
  exists m', convD2M d buf nbuf m = Some (sizeD2M m d, m') /\ sizeD2M m d = dir_size v /\
    bytes_at m' buf (enc_dir v) /\ same_out buf (buf + dir_size v) m m'.
Proof.
intros Hb Hfit Hroom H31 Hrep. pose proof (v_total_nonneg v).
destruct (convD2M_writes d buf nbuf m v) as (m' & E & ? & ?); try done.
assert (sizeD2M m d = dir_size v) as Es.
{ unfold sizeD2M, dir_size in *. change STATFIXLEN with 49 in *.
  erewrite strs_total_rep by (try done; lia). rewrite u32_small; lia. }
exists m'. by rewrite Es.
Qed.

(** A buffer that has room for the size only (the caller asks how much is
    needed) gets exactly the size, and [BIT16SZ] is returned; a shorter one is
    left alone and 0 is returned. *)
Theorem convD2M_too_small d buf nbuf m v :
  0 < buf -> buf + nbuf < 2 ^ 32 -> 0 <= nbuf < dir_size v -> dir_size v < 2 ^ 31 ->
  dir_rep (src_str m buf (buf + nbuf)) d v ->
  convD2M d buf nbuf m =
    if decide (nbuf < BIT16SZ) then Some (0, m)
    else Some (BIT16SZ, st_bytes m buf (le 2 (dir_size v - BIT16SZ))).
Proof.
intros Hb Hfit Hn H31 Hrep. pose proof (v_total_nonneg v). unfold convD2M.
case_decide; [done|]. unfold dir_size in *. change STATFIXLEN with 49 in *.
erewrite strs_total_rep by (try done; lia). unfold pb16.
rewrite s32_small, u32_small by lia. rewrite decide_True by lia.
by rewrite PBIT16_st.
Qed.

(** C28: [statcheck] accepts exactly the buffers that hold one encoded entry and
    nothing more. *)
Theorem statcheck_iff m buf nbuf :
  0 < buf -> 0 <= nbuf -> buf + nbuf + 65540 < 2 ^ 32 ->
  statcheck m buf nbuf = 0 <->
  exists v, wf_dirv v /\ dir_size v = nbuf /\ bytes_at m buf (enc_dir v).
Proof.
intros Hb Hn Hfit. unfold statcheck. change STATFIXLEN with 49.
pose proof (str_at_range m buf) as Hr. unfold BIT16SZ. rewrite GBIT16_val.
rewrite !padd_small by lia. change (49 - 4 * 2) with 41. split.
- case_decide; [done|]. case_decide as Hsz; [done|].
  destruct (statcheck_strs _ _ _ _) as [q|] eqn:E; [|done]. case_decide as Hq; [done|].
  subst q. intros _.
  apply statcheck_strs_iff in E as (ws & Hk & Hw & Hat & Hend); try lia.
  destruct ws as [|n [|u [|g [|w [|? ?]]]]]; try done.
  pose (v := dirv_at m (buf + 2) n u g w).
  assert (dir_size v = nbuf) as Hv.
  { unfold dir_size. change STATFIXLEN with 49. pose proof (v_total_strs v) as Hl.
    change (v_strs v) with [n; u; g; w] in Hl. lia. }
  exists v. split_and!; [apply wf_dirv_at; fold v; unfold is16, BIT16SZ; lia|done|].
  apply enc_dir_split. split.
  + replace (dir_size v - BIT16SZ) with (val m buf 2) by (unfold BIT16SZ; lia).
    apply bytes_at_le_unle.
  + apply bytes_at_entry. replace (buf + 2 + 39) with (buf + 41) by lia.
    split; [apply bytes_at_enc_fixed|exact Hat].
- intros (v & Hwf & <- & Hat). pose proof (statcheck_enc m buf v Hb Hfit Hwf Hat) as E.
  unfold statcheck in E. change STATFIXLEN with 49 in E. unfold BIT16SZ in E.
  by rewrite GBIT16_val, !padd_small in E by lia.
Qed.

(** [convM2D] delivers the entry that is encoded in the buffer, its strings
    copied and NUL-terminated from [strs] on, also when [strs] is the buffer
    itself. *)
Theorem convM2D_correct ns buf nbuf m d strs v :
  0 < buf -> 0 < strs -> dir_size v <= nbuf -> buf + nbuf + 65540 < 2 ^ 32 ->
  strs + v_total v + 4 < 2 ^ 32 -> wf_dirv v -> bytes_at m buf (enc_dir v) ->
  strs <= buf \/ buf + nbuf <= strs ->
  exists m' d', convM2D ns buf nbuf m d strs = (dir_size v, m', d') /\
    dir_rep (copied m') d' v /\ same_out strs (strs + v_total v + 4) m m'.
Proof.
intros Hb Hs Hsz Hfit Hsfit Hwf Hat Hd. apply enc_dir_split in Hat as [_ Hat].
replace (strs + v_total v + 4) with (strs + terminated (v_strs v)) in * by
  (cbn [terminated v_strs]; unfold v_total; lia).
apply convM2D_reads; try done. lia.
Qed.

(** Whatever the buffer holds, when [convM2D] does not return 0 the bytes it
    went over are an entry inside the buffer: [p - buf] bytes, of which it
    returns the fields. (The size in the first two bytes is ignored.) *)
Theorem convM2D_sound ns buf nbuf m d strs n m' d' :
  0 < buf -> 0 <= strs -> 0 <= nbuf -> buf + nbuf + 65540 < 2 ^ 32 -> strs + 4 * 65536 < 2 ^ 32 ->
  strs <= buf \/ buf + nbuf <= strs ->
  convM2D ns buf nbuf m d strs = (n, m', d') -> n <> 0 ->
  exists v, n = dir_size v /\ n <= nbuf /\
    bytes_at m (buf + 2) (enc_fixed v ++ concat (enc_str <$> v_strs v)) /\
    Forall wf_str (v_strs v) /\
    d_qid d' = v_qid v /\ d_length d' = v_length v /\ d_mode d' = v_mode v /\
    (strs = 0 -> m' = m /\ d_name d' = ns).
Proof.
intros Hb Hs Hn Hfit Hsfit Hd. destruct (decide (nbuf < STATFIXLEN)) as [Hlt|Hge].
{ unfold convM2D. rewrite decide_True by done. congruence. }
rewrite convM2D_loop by lia. change STATFIXLEN with 49 in Hge. cbv zeta.
destruct (m2d_strs _ _ _) as [m1 [[q sv]|]] eqn:E; [|congruence].
assert (strs = 0 -> m1 = m /\ sv = []) as Hnil.
{ intros ->. pose proof E as E'. apply m2d_strs_sound in E' as (ws & Hk & Hw & Hat & -> & Hle); try lia.
  change 0 with nil in E. rewrite <- Hk, m2d_strs_nil in E by (done || lia). by simplify_eq. }
apply m2d_strs_sound in E as (ws & Hk & Hw & Hat & -> & Hle); try lia.
destruct ws as [|nm [|u [|g [|w [|? ?]]]]]; try done.
pose (v := dirv_at m (buf + 2) nm u g w). pose proof (v_total_strs v) as Hl.
change (v_strs v) with [nm; u; g; w] in Hl. pose proof (v_total_nonneg v).
replace (u32 _) with (dir_size v) by
  (unfold dir_size; change STATFIXLEN with 49; rewrite u32_small; lia).
intros Heq _. exists v.
assert (d_qid d' = v_qid v /\ d_length d' = v_length v /\ d_mode d' = v_mode v /\
  n = dir_size v /\ m' = m1 /\ (sv = [] -> d_name d' = ns)) as (-> & -> & -> & -> & -> & Hsv).
{ destruct sv as [|? [|? [|? [|? [|? ?]]]]]; simplify_eq; done. }
split_and!; try done.
- unfold dir_size. change STATFIXLEN with 49. lia.
- apply bytes_at_entry. replace (buf + 2 + 39) with (buf + 41) by lia.
  split; [apply bytes_at_enc_fixed|exact Hat].
- intros H0. destruct (Hnil H0) as [-> ->]. auto.
Qed.

(** C17: Encoding with [convD2M] and decoding with [convM2D], in place or to a
    separate string buffer, gives the same entry back. *)
Theorem convD2M_convM2D_roundtrip ns d d0 buf nbuf m v strs :
  0 < buf -> 0 < strs -> dir_size v <= nbuf -> buf + nbuf + 65540 < 2 ^ 32 ->
  strs + v_total v + 4 < 2 ^ 32 -> wf_dirv v -> strs <= buf \/ buf + nbuf <= strs ->
  dir_rep (src_str m buf (buf + dir_size v)) d v ->
  exists m1 m2 d', convD2M d buf nbuf m = Some (dir_size v, m1) /\
    statcheck m1 buf (dir_size v) = 0 /\
    convM2D ns buf nbuf m1 d0 strs = (dir_size v, m2, d') /\ dir_rep (copied m2) d' v.
Proof.
intros Hb Hs Hsz Hfit Hsfit Hwf Hd Hrep. pose proof (v_total_nonneg v).
assert (dir_size v < 2 ^ 31).
{ destruct Hwf as (_ & _ & _ & _ & _ & _ & _ & [_ H16]). unfold BIT16SZ in H16. lia. }
destruct (convD2M_writes d buf nbuf m v) as (m1 & E1 & Hat & So); try done; [lia|].
assert (statcheck m1 buf (dir_size v) = 0) as Esc by (apply statcheck_enc; try done; lia).
apply enc_dir_split in Hat as [_ Hat].
destruct (convM2D_reads ns buf nbuf m1 d0 strs v) as (m2 & d' & E2 & Hr & _); try done;
  [cbn [terminated v_strs]; unfold v_total in Hsfit; lia|lia|].
by exists m1, m2, d'.
Qed.

(** *** Witnesses *)

Lemma ex_dir_rep hi : dir_rep (src_str ex_dmem 4096 hi) ex_dir ex_dirv.
Proof.
assert (forall p s, p <> nil -> cstr ex_dmem p s -> p + zlen s + 1 <= 4096 ->
  src_str ex_dmem 4096 hi p s) as H by (intros; right; eauto).
unfold dir_rep; cbn [ex_dir ex_dirv d_type d_dev d_qid d_mode d_atime d_mtime d_length
  d_name d_uid d_gid d_muid v_type v_dev v_qid v_mode v_atime v_mtime v_length
  v_name v_uid v_gid v_muid].
split_and!; try done.
- apply H; [done|split; [done|repeat constructor; done]|done].
- apply H; [done|split; [done|repeat constructor; done]|done].
- by left.
- apply H; [done|split; [done|repeat constructor; done]|done].
Qed.

Lemma ex_dirv_wf : wf_dirv ex_dirv.
Proof. repeat constructor; done. Qed.

Lemma convD2M_refines_enc_dir_witness :
  exists m', convD2M ex_dir 4096 100 ex_dmem = Some (sizeD2M ex_dmem ex_dir, m') /\
    sizeD2M ex_dmem ex_dir = dir_size ex_dirv /\
    bytes_at m' 4096 (enc_dir ex_dirv) /\ same_out 4096 (4096 + dir_size ex_dirv) ex_dmem m'.
Proof.
apply (convD2M_refines_enc_dir ex_dir 4096 100 ex_dmem ex_dirv);
  [done|done|done|done|apply ex_dir_rep].
Defined.

Lemma convD2M_too_small_witness :
  convD2M ex_dir 4096 2 ex_dmem = Some (2, st_bytes ex_dmem 4096 [51; 0]).
Proof.
rewrite (convD2M_too_small ex_dir 4096 2 ex_dmem ex_dirv);
  [done|done|done|done|done|apply ex_dir_rep].
Defined.

Lemma statcheck_iff_witness :
  statcheck (st_bytes ∅ 4096 (enc_dir ex_dirv)) 4096 53 = 0.
Proof.
apply (statcheck_iff (st_bytes ∅ 4096 (enc_dir ex_dirv)) 4096 53); [done|done|done|].
exists ex_dirv. split; [exact ex_dirv_wf|split; [done|vm_compute; reflexivity]].
Defined.

Lemma convM2D_correct_witness :
  exists m' d', convM2D 8 4096 53 (st_bytes ∅ 4096 (enc_dir ex_dirv)) dir0 4096 = (53, m', d') /\
    dir_rep (copied m') d' ex_dirv /\
    same_out 4096 (4096 + v_total ex_dirv + 4) (st_bytes ∅ 4096 (enc_dir ex_dirv)) m'.
Proof.
apply (convM2D_correct 8 4096 53 (st_bytes ∅ 4096 (enc_dir ex_dirv)) dir0 4096 ex_dirv);
  [done|done|done|done|done|exact ex_dirv_wf|vm_compute; reflexivity|by left].
Defined.

Lemma convM2D_sound_witness :
  exists m' d', convM2D 8 4096 60 (st_bytes ∅ 4096 (enc_dir ex_dirv)) dir0 0 = (53, m', d') /\
  exists v, 53 = dir_size v /\ 53 <= 60 /\
    bytes_at (st_bytes ∅ 4096 (enc_dir ex_dirv)) (4096 + 2)
      (enc_fixed v ++ concat (enc_str <$> v_strs v)) /\
    Forall wf_str (v_strs v) /\
    d_qid d' = v_qid v /\ d_length d' = v_length v /\ d_mode d' = v_mode v /\
    (0 = 0 -> m' = st_bytes ∅ 4096 (enc_dir ex_dirv) /\ d_name d' = 8).
Proof.
eexists _, _. split; [vm_compute; reflexivity|].
apply (convM2D_sound 8 4096 60 (st_bytes ∅ 4096 (enc_dir ex_dirv)) dir0 0);
  [done|done|done|done|done|by left|vm_compute; reflexivity|done].
Defined.

Lemma convD2M_convM2D_roundtrip_witness :
  exists m1 m2 d', convD2M ex_dir 4096 100 ex_dmem = Some (53, m1) /\
    statcheck m1 4096 53 = 0 /\
    convM2D 8 4096 100 m1 dir0 4096 = (53, m2, d') /\ dir_rep (copied m2) d' ex_dirv.
Proof.
apply (convD2M_convM2D_roundtrip 8 ex_dir dir0 4096 100 ex_dmem ex_dirv 4096);
  [done|done|done|done|done|exact ex_dirv_wf|by left|apply ex_dir_rep].
Defined.
