(* ===== verification/Pager.v ===== *)
(** The memory server of the HVM process, src/9/hvm/mx-pager.c and
    proc2proc-copy.c: the map of physical pages, the two-level page tables of
    the processes, and the requests that the thread [mxpager_thread] serves.
    Page tables are words in memory, read and written with the C expressions. *)

From S2P Require Import Prelude Mem Fcall9P.

Definition NR_PROCS : Z := 128.
Definition MAXMEM : Z := 236 * 1024 * 1024.
Definition MEMPOOL_ADRS : Z := 0x80000000.
Definition INSIGMA0 : Z := 127.
Definition RESERVED0 : Z := 126.
Definition ALLOCATED : Z := 1.
Definition FREEPAGE : Z := 0.
Definition INDEX_16M : Z := 4096.
Definition INDEX_8M : Z := 2048.
Definition INDEX_1M : Z := 256.

Record mproc_t := Mproc { pagelink : Z; pages : Z }.

(** The static variables of the server, its memory, and [s0], the state of the
    task sigma0 that hands out physical pages. *)
Record pager {Sg : Type} := Pager {
  pmem : mem;
  memmap : gmap Z Z;      (* char memmap[MAXMEM / 4096] *)
  totalpages : Z;
  index : Z;
  indexdma : Z;
  mproc : gmap Z mproc_t; (* mproc[NR_PROCS] *)
  s0 : Sg
}.
Arguments pager : clear implicits.
Arguments Pager {Sg}.

Definition ld32 (m : mem) (p : Z) : Z := GBIT32 m p.
Definition st32 (m : mem) (p v : Z) : mem := PBIT32 m p v.

(** [_memset]: [n] bytes, one after the other. *)
Definition _memset (m : mem) (s c n : Z) : mem := memset m s c n.

(** [memcpy]: a forward loop over the bytes. *)
Fixpoint memcpy_loop (m : mem) (p1 p2 : Z) (n : nat) : mem :=
  match n with
  | O => m
  | S n' => memcpy_loop (wr8 m p1 (rd8 m p2)) (padd p1 1) (padd p2 1) n'
  end.
Definition memcpy (m : mem) (s1 s2 n : Z) : mem := memcpy_loop m s1 s2 (Z.to_nat n).

(** L4 flexpages: [raw] is the base with the bits rwx (0-2) and s (4-9) set. *)
Definition L4_FpageLog2 (base size : Z) : Z :=
  Z.lor (Z.land base (Z.lnot 0x3f7)) (Z.shiftl (Z.land size 63) 4).
Definition L4_Set_Rights (fp rwx : Z) : Z := Z.lor (Z.land fp (Z.lnot 7)) rwx.
Definition L4_FullyAccessible : Z := 7.
Definition L4_Fpage (base size : Z) : Z :=
  let msb := Z.log2 size in
  L4_FpageLog2 base (if decide (u32 (Z.shiftl 1 msb) < size) then msb + 1 else msb).
Definition L4_IsNilFpage (fp : Z) : bool := fp =? 0.

(** A map item: the flexpage and the address it is mapped to, in units of 1K. *)
Record map_item := MapItem { snd_base : Z; snd_fpage : Z }.
Definition L4_MapItem (fp base : Z) : map_item := MapItem (Z.shiftr base 10) fp.

(** The L4 system calls that the server makes. *)
Inductive sysop :=
  | ThreadControl
  | SpaceControl
  | AssociateInterrupt
  | DeassociateInterrupt
  | Send.

(** A request as [L4_ReplyWait] delivers it, and an answer. A word beyond the
    ones that were sent is taken to be 0. *)
Record request := Request { rq_src : Z; rq_label : Z; rq_words : list Z }.
Record reply := Reply { rp_label : Z; rp_words : list Z; rp_items : list map_item }.
Definition MsgWord (r : request) (i : nat) : Z := nth i (rq_words r) 0.

(** include/lp49/lp49.h *)
Definition THREAD_CONTROL : Z := 11.
Definition SPACE_CONTROL : Z := 12.
Definition ASSOCIATE_INTR : Z := 13.
Definition DEASSOCIATE_INTR : Z := 14.
Definition PROC2PROC_COPY : Z := 15.
Definition ALLOC_DMA : Z := 16.
Definition GET_PADDR : Z := 17.
Definition PROC_MEMSET : Z := 18.
Definition PHYS_MEM_ALLOC : Z := 19.
Definition MM_FORK : Z := 30.
Definition START_VIA_PAGER : Z := 31.
Definition MM_FREESPACE : Z := 32.
Definition CHK_PGMAP : Z := 40.
Definition KIP_BASE : Z := 0x100000.
Definition UTCB_BASE : Z := 0x200000.
Definition TID2PROCNR (tid : Z) : Z := Z.shiftr tid 24.
Definition L4_nilthread : Z := 0.

(** The static variables before [create_mxpager]. *)
Definition pager_static {Sg} (g : Sg) : pager Sg := Pager ∅ ∅ 0 INDEX_16M INDEX_8M ∅ g.

Section Pager.
Context {Sg : Type}.

(** An IPC call of sigma0: the words of the request, the receive window, and
    the words of the answer, [None] when the IPC failed. *)
Variable sigma0 : list Z -> Z -> Sg -> option (list Z) * Sg.

(** The other system calls of the server: their arguments and their result. *)
Variable syscall : sysop -> list Z -> Sg -> Z * Sg.

Let pg := pager Sg.
Let pcmd := cmd pg Z.

Definition set_mem (f : mem -> mem) (s : pg) : pg :=
  Pager (f (pmem s)) (memmap s) (totalpages s) (index s) (indexdma s) (mproc s) (s0 s).
Definition set_memmap (f : gmap Z Z -> gmap Z Z) (s : pg) : pg :=
  Pager (pmem s) (f (memmap s)) (totalpages s) (index s) (indexdma s) (mproc s) (s0 s).
Definition set_index (i : Z) (s : pg) : pg :=
  Pager (pmem s) (memmap s) (totalpages s) i (indexdma s) (mproc s) (s0 s).
Definition set_indexdma (i : Z) (s : pg) : pg :=
  Pager (pmem s) (memmap s) (totalpages s) (index s) i (mproc s) (s0 s).
Definition set_totalpages (i : Z) (s : pg) : pg :=
  Pager (pmem s) (memmap s) i (index s) (indexdma s) (mproc s) (s0 s).
Definition set_mproc (f : gmap Z mproc_t -> gmap Z mproc_t) (s : pg) : pg :=
  Pager (pmem s) (memmap s) (totalpages s) (index s) (indexdma s) (f (mproc s)) (s0 s).
Definition set_s0 (g : Sg) (s : pg) : pg :=
  Pager (pmem s) (memmap s) (totalpages s) (index s) (indexdma s) (mproc s) g.

(** Array accesses; one outside the array is undefined behaviour. *)
Definition memmap_at (s : pg) (i : Z) : Z := default 0 (memmap s !! i).
Definition in_memmap (i : Z) : bool := (0 <=? i) && (i <? MAXMEM / 4096).
Definition memmap_get (i : Z) : pcmd Z :=
  if in_memmap i then cgets (fun s => memmap_at s i) else cabort.
Definition memmap_set (i v : Z) : pcmd unit :=
  if in_memmap i then cmodify (set_memmap (<[i := s8 v]>)) else cabort.

Definition mproc_at (s : pg) (p : Z) : mproc_t := default (Mproc 0 0) (mproc s !! p).
Definition in_mproc (p : Z) : bool := (0 <=? p) && (p <? NR_PROCS).
Definition pagelink_get (p : Z) : pcmd Z :=
  if in_mproc p then cgets (fun s => pagelink (mproc_at s p)) else cabort.
Definition pagelink_set (p v : Z) : pcmd unit :=
  if in_mproc p then
    cmodify (fun s => set_mproc (<[p := Mproc v (pages (mproc_at s p))]>) s)
  else cabort.
Definition pages_set (p : Z) (f : Z -> Z) : pcmd unit :=
  if in_mproc p then
    cmodify (fun s => set_mproc
      (<[p := Mproc (pagelink (mproc_at s p)) (s32 (f (pages (mproc_at s p))))]>) s)
  else cabort.
Definition pages_inc (p : Z) : pcmd unit := pages_set p (fun n => n + 1).

(** [t[i]] for a table of words at [t]. *)
Definition entry_get (t i : Z) : pcmd Z := cgets (fun s => ld32 (pmem s) (padd t (4 * i))).
Definition entry_set (t i v : Z) : pcmd unit :=
  cmodify (set_mem (fun m => st32 m (padd t (4 * i)) v)).
Definition clear_page (a : Z) : pcmd unit := cmodify (set_mem (fun m => _memset m a 0 4096)).

Definition SIGMA0_LABEL : Z := u32 (-96). (* (L4_Word_t) -6UL << 4 *)

Definition get_pages_from_sigma0 (sigma0_adrs map_to log2pages : Z) : pcmd Z :=
  let request_fp := L4_FpageLog2 sigma0_adrs (12 + log2pages) in
  let recv_fp := L4_FpageLog2 map_to (12 + log2pages) in
  fun s =>
    let '(answer, g) := sigma0 [SIGMA0_LABEL; request_fp; 0] recv_fp (s0 s) in
    let s' := set_s0 g s in
    match answer with
    | None => (Go 0, s')
    | Some words =>
        let result_fp := nth 1 words 0 in
        if L4_IsNilFpage result_fp then (Go 0, s') else (Go 1, s')
    end.

Definition get_page_from_sigma0 (sigma0_adrs map_to : Z) : pcmd Z :=
  get_pages_from_sigma0 sigma0_adrs map_to 0.

(** ** Physical pages *)

(** The search of [alloc_page]; the result is [i] and [j] after the loop. *)
Fixpoint alloc_scan (n : nat) (i j : Z) : pcmd (Z * Z) :=
  match n with
  | O => cret (i, j)
  | S n' =>
      tp <- cgets totalpages;;
      (let i := if decide (i = tp) then INDEX_16M else i in
       v <- memmap_get i;;
       if decide (v = INSIGMA0) then
         (r <- get_pages_from_sigma0 (i * 4096) (i * 4096 + MEMPOOL_ADRS) 0;;
          if decide (r = 0) then (memmap_set i RESERVED0;; alloc_scan n' (i + 1) (j + 1))
          else cret (i, j))
       else if decide (v = FREEPAGE) then cret (i, j)
       else alloc_scan n' (i + 1) (j + 1))
  end.

Definition alloc_page (procnr : Z) : pcmd Z :=
  tp <- cgets totalpages;;
  i0 <- cgets index;;
  ij <- alloc_scan (Z.to_nat tp) i0 0;;
  (let '(i, j) := ij in
   if decide (tp - 1 <= j) then cret 0
   else
     memmap_set i ALLOCATED;;
     cmodify (set_index (i + 1));;
     cret (u32 (Z.shiftl i 12 + MEMPOOL_ADRS))).

Definition alloc_phys_page (p_adrs : Z) : pcmd Z :=
  let pgx := Z.shiftr p_adrs 12 in
  v <- memmap_get pgx;;
  if decide (v = 0) then (memmap_set pgx 1;; cret (u32 (Z.shiftl pgx 12 + MEMPOOL_ADRS)))
  else cret 0.

(** [success]: are [n] pages from [i] on free? *)
Fixpoint dma_test (n : nat) (i : Z) : pcmd bool :=
  match n with
  | O => cret true
  | S n' =>
      v <- memmap_get i;;
      if decide (v <> 0) then cret false else dma_test n' (i + 1)
  end.

(** One round of the loop of [alloc_dma_page]. *)
Definition dma_round (npages oldindex : Z) : pcmd unit :=
  i0 <- cgets indexdma;;
  cwhen (INDEX_16M <=? i0 + npages) (cmodify (set_indexdma INDEX_8M));;
  i <- cgets indexdma;;
  success <- dma_test (Z.to_nat npages) i;;
  if (success : bool) then
    let adrs := u32 (Z.shiftl i 12 + MEMPOOL_ADRS) in
    cfor npages (fun _ =>
      k <- cgets indexdma;; memmap_set k 1;; cmodify (set_indexdma (k + 1)));;
    k <- cgets indexdma;;
    cwhen (k =? INDEX_16M) (cmodify (set_indexdma INDEX_8M));;
    creturn adrs
  else
    cmodify (set_indexdma (i + 1));;
    if decide (i + 1 = oldindex) then creturn 0
    else cwhen (INDEX_16M <=? i + 1) (cmodify (set_indexdma INDEX_8M)).

(** [alloc_dma_page] within [fuel] rounds; [None]: they did not suffice. *)
Definition alloc_dma_page (fuel : nat) (npages : Z) : pcmd (option Z) :=
  oldindex <- cgets indexdma;;
  (fun s =>
     match cwhile1 fuel (dma_round npages oldindex) s with
     | (Ret a, s') => (Go (Some a), s')
     | (Go _, s') => (Go None, s')
     | (_, s') => (Abt, s')
     end).

Definition free_page (adrs : Z) : pcmd unit :=
  if decide (adrs < MEMPOOL_ADRS) then cret tt
  else
    let n := Z.shiftr (adrs - MEMPOOL_ADRS) 12 in
    tp <- cgets totalpages;;
    if decide (tp <= n) then cret tt
    else
      v <- memmap_get n;;
      memmap_set n (v - 1);;
      v' <- memmap_get n;;
      cwhen ((INDEX_16M <? n) && (v' =? 0)) (cmodify (set_index n)).

(** ** Address spaces *)

Definition prepare_space (procnr : Z) : pcmd Z :=
  dirtblp <- alloc_page procnr;;
  if decide (dirtblp <> 0) then
    pagelink_set procnr dirtblp;; clear_page dirtblp;; cret 1
  else cret 0.

Definition free_space (procnr : Z) : pcmd Z :=
  p1 <- pagelink_get procnr;;
  if decide (p1 = 0) then cret 0
  else
    cfor 1024 (fun i =>
      p2 <- entry_get p1 i;;
      if decide (p2 = 0) then cret tt
      else
        cfor 1024 (fun j =>
          p3 <- entry_get p2 j;;
          if decide (p3 <> 0) then free_page p3 else cret tt);;
        free_page p2);;
    free_page p1;;
    pagelink_set procnr 0;;
    pages_set procnr (fun _ => 0);;
    cret 1.

(** The inner loop of [clone_space]: the pages of one page table; the result is
    [pagecnt], [return] is [goto nomemory]. *)
Fixpoint clone_pages (childprocnr i p2 c2 : Z) (j : Z) (n : nat) (pagecnt : Z) : pcmd Z :=
  match n with
  | O => cret pagecnt
  | S n' =>
      p3 <- entry_get p2 j;;
      if decide (p3 <> 0) then
        if decide (i = 0 /\ j = 0) then clone_pages childprocnr i p2 c2 (j + 1) n' pagecnt
        else
          c3 <- alloc_page childprocnr;;
          if decide (c3 = 0) then creturn 0
          else
            cmodify (set_mem (fun m => memcpy m c3 p3 4096));;
            entry_set c2 j c3;;
            clone_pages childprocnr i p2 c2 (j + 1) n' (s32 (pagecnt + 1))
      else
        entry_set c2 j 0;;
        clone_pages childprocnr i p2 c2 (j + 1) n' pagecnt
  end.

Fixpoint clone_tables (childprocnr p1 c1 : Z) (i : Z) (n : nat) (pagecnt : Z) : pcmd Z :=
  match n with
  | O => cret pagecnt
  | S n' =>
      p2 <- entry_get p1 i;;
      if decide (p2 <> 0) then
        c2 <- alloc_page childprocnr;;
        if decide (c2 = 0) then creturn 0
        else
          clear_page c2;;
          entry_set c1 i c2;;
          k <- clone_pages childprocnr i p2 c2 0 1024 (s32 (pagecnt + 1));;
          clone_tables childprocnr p1 c1 (i + 1) n' k
      else clone_tables childprocnr p1 c1 (i + 1) n' pagecnt
  end.

Definition clone_space (parentprocnr childprocnr : Z) : pcmd Z :=
  r <- ccall (
    p1 <- pagelink_get parentprocnr;;
    c1 <- alloc_page childprocnr;;
    if decide (c1 = 0) then creturn 0
    else
      pagelink_set childprocnr c1;;
      clear_page c1;;
      k <- clone_tables childprocnr p1 c1 0 1024 1;;
      pages_set childprocnr (fun _ => k);;
      creturn 1);;
  if decide (r = 0) then (free_space childprocnr;; cret 0) else cret 1.

(** [get_targetpage]: the page that holds [tgtadrs] in the space of a task;
    directory, table and page are allocated on demand. [return] is
    [goto out_of_memory]. *)
Definition target_dir (tasknr : Z) : pcmd Z :=
  dirtblp <- pagelink_get tasknr;;
  if decide (dirtblp = 0) then
    dirtblp <- alloc_page tasknr;;
    if decide (dirtblp <> 0) then
      pagelink_set tasknr dirtblp;; pages_inc tasknr;; clear_page dirtblp;; cret dirtblp
    else creturn 0
  else cret dirtblp.

Definition target_table (tasknr dirtblp tgtadrs : Z) : pcmd Z :=
  pagetblp <- entry_get dirtblp (Z.shiftr tgtadrs 22);;
  if decide (pagetblp = 0) then
    pagetblp <- alloc_page tasknr;;
    if decide (pagetblp <> 0) then
      entry_set dirtblp (Z.shiftr tgtadrs 22) pagetblp;;
      pages_inc tasknr;; clear_page pagetblp;; cret pagetblp
    else creturn 0
  else cret pagetblp.

Definition target_page (tasknr pagetblp tgtadrs : Z) : pcmd Z :=
  targetpage <- entry_get pagetblp (Z.land (Z.shiftr tgtadrs 12) 0x03FF);;
  if decide (targetpage = 0) then
    targetpage <- alloc_page tasknr;;
    if decide (targetpage <> 0) then
      entry_set pagetblp (Z.land (Z.shiftr tgtadrs 12) 0x03FF) targetpage;;
      pages_inc tasknr;; cret targetpage
    else creturn 0
  else cret targetpage.

Definition get_targetpage (tasknr tgtadrs : Z) : pcmd Z := ccall (
  dirtblp <- target_dir tasknr;;
  pagetblp <- target_table tasknr dirtblp tgtadrs;;
  targetpage <- target_page tasknr pagetblp tgtadrs;;
  creturn targetpage).

(** ** Copies between address spaces *)

Definition copy_bytes (d s n : Z) : pcmd unit := cmodify (set_mem (fun m => memcpy m d s n)).
Definition fill_bytes (d c n : Z) : pcmd unit := cmodify (set_mem (fun m => _memset m d c n)).

(** The loop of [proc2proc_copy] when [a1 >= a2]; [fuel] bounds its rounds. *)
Fixpoint p2p_loop1 (fuel : nat) (fromproc toproc size a1 a2 b1 fromadrs toadrs p2 sz : Z)
    : pcmd Z :=
  match fuel with
  | O => cabort
  | S fuel' =>
      let c1 := a1 - a2 in
      let d1 := b1 + a2 in
      let c1 := if decide (u32 sz <= c1) then u32 sz else c1 in
      let fromadrs := u32 (fromadrs + 4096) in
      p1 <- get_targetpage fromproc fromadrs;;
      copy_bytes (padd (padd p2 a2) b1) p1 c1;;
      (let sz := s32 (sz - c1) in
       if decide (sz = 0) then creturn size
       else
         let d1 := if decide (u32 sz <= d1) then u32 sz else d1 in
         let toadrs := u32 (toadrs + 4096) in
         p2 <- get_targetpage toproc toadrs;;
         copy_bytes p2 (padd p1 c1) d1;;
         (let sz := s32 (sz - d1) in
          if decide (sz = 0) then creturn size
          else p2p_loop1 fuel' fromproc toproc size a1 a2 b1 fromadrs toadrs p2 sz))
  end.

(** The loop when [a1 < a2]. *)
Fixpoint p2p_loop2 (fuel : nat) (fromproc toproc size a1 a2 b2 fromadrs toadrs p1 sz : Z)
    : pcmd Z :=
  match fuel with
  | O => cabort
  | S fuel' =>
      let c2 := a2 - a1 in
      let d2 := a1 + b2 in
      let c2 := if decide (u32 sz <= c2) then u32 sz else c2 in
      let toadrs := u32 (toadrs + 4096) in
      p2 <- get_targetpage toproc toadrs;;
      copy_bytes p2 (padd (padd p1 a1) b2) c2;;
      (let sz := s32 (sz - c2) in
       if decide (sz = 0) then creturn size
       else
         let d2 := if decide (u32 sz <= d2) then u32 sz else d2 in
         let fromadrs := u32 (fromadrs + 4096) in
         p1 <- get_targetpage fromproc fromadrs;;
         copy_bytes (padd p2 (a2 - a1)) p1 d2;;
         (let sz := s32 (sz - d2) in
          if decide (sz = 0) then creturn size
          else p2p_loop2 fuel' fromproc toproc size a1 a2 b2 fromadrs toadrs p1 sz))
  end.

(** Rounds that always suffice: every round but the last moves a page. *)
Definition p2p_fuel (size : Z) : nat := Z.to_nat (u32 size / 4096 + 2).

Definition proc2proc_copy (fromproc fromadrs toproc toadrs size : Z) : pcmd Z := ccall (
  let a1 := Z.land fromadrs 0xFFF in
  let a2 := Z.land toadrs 0xFFF in
  let b1 := 4096 - a1 in
  let b2 := 4096 - a2 in
  p1 <- get_targetpage fromproc fromadrs;;
  p2 <- get_targetpage toproc toadrs;;
  if decide (a2 <= a1) then
    let b1 := if decide (u32 size <= b1) then u32 size else b1 in
    copy_bytes (padd p2 a2) (padd p1 a1) b1;;
    (let sz := s32 (size - b1) in
     if decide (sz = 0) then creturn size
     else p2p_loop1 (p2p_fuel size) fromproc toproc size a1 a2 b1 fromadrs toadrs p2 sz)
  else
    let b2 := if decide (u32 size <= b2) then u32 size else b2 in
    copy_bytes (padd p2 a2) (padd p1 a1) b2;;
    (let sz := s32 (size - b2) in
     if decide (sz = 0) then creturn size
     else p2p_loop2 (p2p_fuel size) fromproc toproc size a1 a2 b2 fromadrs toadrs p1 sz)).

Fixpoint pmemset_loop (fuel : nat) (procnr ap value from sz : Z) : pcmd Z :=
  match fuel with
  | O => cabort
  | S fuel' =>
      let c1 := if decide (sz <= 4096) then sz else 4096 in
      let from := u32 (from + 4096) in
      p1 <- get_targetpage procnr from;;
      fill_bytes p1 value c1;;
      (let sz := s32 (sz - c1) in
       if decide (sz <= 0) then cret ap
       else pmemset_loop fuel' procnr ap value from sz)
  end.

Definition proc_memset (procnr ap value size : Z) : pcmd Z := ccall (
  let a1 := Z.land ap 0xFFF in
  let b1 := 4096 - a1 in
  let b1 := if decide (u32 size <= b1) then u32 size else b1 in
  p1 <- get_targetpage procnr ap;;
  fill_bytes (padd p1 a1) value b1;;
  (let sz := s32 (size - b1) in
   if decide (sz <= 0) then creturn ap
   else pmemset_loop (p2p_fuel size) procnr ap value ap sz)).

(** The loop of [copy2task]: [to] is a page boundary. *)
Fixpoint copy2task_loop (fuel : nat) (from tasknr to size : Z) : pcmd Z :=
  match fuel with
  | O => cabort
  | S fuel' =>
      if decide (size = 0) then cret 1
      else
        let sz := if decide (4096 < size) then 4096 else u32 size in
        to_page <- get_targetpage tasknr to;;
        if decide (to_page = 0) then creturn 0
        else
          copy_bytes to_page from (s32 sz);;
          copy2task_loop fuel' (padd from 4096) tasknr (padd to 4096) (s32 (size - sz))
  end.

Definition copy2task (from tasknr to size : Z) : pcmd Z := ccall (
  let to_offset := Z.land to 0xfff in
  if decide (u32 (to_offset + size) <= 4096) then
    to_page <- get_targetpage tasknr to;;
    if decide (to_page = 0) then creturn 0
    else copy_bytes (padd to_page to_offset) from size;; creturn 1
  else
    let sz := 4096 - to_offset in
    to_page <- get_targetpage tasknr to;;
    if decide (to_page = 0) then creturn 0
    else
      copy_bytes (padd to_page to_offset) from sz;;
      copy2task_loop (p2p_fuel size) (padd from sz) tasknr (padd to sz) (s32 (size - sz))).

Fixpoint set2task_loop (fuel : nat) (val tasknr to size : Z) : pcmd Z :=
  match fuel with
  | O => cabort
  | S fuel' =>
      if decide (size = 0) then cret 1
      else
        let sz := if decide (4096 < size) then 4096 else u32 size in
        to_page <- get_targetpage tasknr to;;
        if decide (to_page = 0) then creturn 0
        else
          fill_bytes to_page val (s32 sz);;
          set2task_loop fuel' val tasknr (padd to 4096) (s32 (size - sz))
  end.

Definition set2task (val tasknr to size : Z) : pcmd Z := ccall (
  let to_offset := Z.land to 0xfff in
  if decide (u32 (to_offset + size) <= 4096) then
    to_page <- get_targetpage tasknr to;;
    if decide (to_page = 0) then creturn 0
    else fill_bytes (padd to_page to_offset) val size;; creturn 1
  else
    let sz := 4096 - to_offset in
    to_page <- get_targetpage tasknr to;;
    if decide (to_page = 0) then creturn 0
    else
      fill_bytes (padd to_page to_offset) val sz;;
      set2task_loop (p2p_fuel size) val tasknr (padd to sz) (s32 (size - sz))).

(** ** The requests of [mxpager_thread] *)

Definition do_syscall (op : sysop) (args : list Z) : pcmd Z :=
  fun s => let '(rc, g) := syscall op args (s0 s) in (Go rc, set_s0 g s).

(** src/9/hvm/thread.c *)
Definition mm_start_thread (target ip sp pager : Z) : pcmd unit :=
  _ <- do_syscall Send [target; ip; sp; pager];; cret tt.

Definition utcb_area (utcb_base max_thd_num : Z) : Z :=
  L4_Fpage utcb_base (Z.land (u32 (max_thd_num * 0x200 + 4095)) 0xFFFFF000).

Definition mm_create_task (myself task_tid max_thd_num kip utcb_base pager : Z) : pcmd Z :=
  rc <- do_syscall ThreadControl [task_tid; task_tid; myself; L4_nilthread; 0xFFFFFFFF];;
  if decide (rc = 0) then cret 0
  else
    rc <- do_syscall SpaceControl
            [task_tid; 0; L4_Fpage kip 4096; utcb_area utcb_base max_thd_num; L4_nilthread];;
    if decide (rc = 0) then cret 0
    else
      rc <- do_syscall ThreadControl [task_tid; task_tid; myself; pager; utcb_base];;
      if decide (rc = 0) then cret 0 else cret 1.

Definition mm_create_start_task (myself task_tid max_thd_num kip utcb_base pager ip sp : Z)
    : pcmd Z :=
  rc <- mm_create_task myself task_tid max_thd_num kip utcb_base pager;;
  if decide (rc = 0) then cret 0
  else mm_start_thread task_tid ip sp pager;; cret 1.

Definition mm_fork (myself parent_tid child_tid th_max pager ip sp : Z) : pcmd Z :=
  rc <- clone_space (TID2PROCNR parent_tid) (TID2PROCNR child_tid);;
  if decide (rc = 0) then cret 0
  else
    rc <- mm_create_start_task myself child_tid th_max KIP_BASE UTCB_BASE pager ip sp;;
    if decide (rc = 0) then cret 0 else cret 1.

(** The loop with which [ALLOC_DMA] and [PHYS_MEM_ALLOC] enter [n] pages from
    [hvm_addr] on into the tables of a task; [return] is [goto] the failure. *)
Fixpoint map_pages (task dirtblp logical_addr hvm_addr : Z) (i : Z) (n : nat) : pcmd unit :=
  match n with
  | O => cret tt
  | S n' =>
      let logical_page := Z.land (u32 (logical_addr + i * 4096)) 0xfffff000 in
      pagetblp0 <- entry_get dirtblp (Z.shiftr logical_page 22);;
      pagetblp <-
        (if decide (pagetblp0 = 0) then
           t <- alloc_page task;;
           if decide (t = 0) then creturn 0
           else
             entry_set dirtblp (Z.shiftr logical_page 22) t;;
             pages_inc task;; clear_page t;; cret t
         else cret pagetblp0);;
      targetpage <- entry_get pagetblp (Z.land (Z.shiftr logical_page 12) 0x3ff);;
      (if decide (targetpage = 0) then
         entry_set pagetblp (Z.land (Z.shiftr logical_page 12) 0x3ff) (u32 (hvm_addr + i * 4096));;
         pages_inc task
       else cret tt);;
      map_pages task dirtblp logical_addr hvm_addr (i + 1) n'
  end.

Definition dma_pages (logical_addr size : Z) : Z :=
  s32 (u32 (Z.shiftr (u32 (logical_addr + size - 1)) 12 - Z.shiftr logical_addr 12 + 1)).

(** [ALLOC_DMA]: 0, or the address in the server of the pages. *)
Definition alloc_dma (fuel : nat) (targettask size logical_addr : Z) : pcmd Z := ccall (
  let npages := dma_pages logical_addr size in
  if decide (size <= 0) then creturn 0
  else
    r <- alloc_dma_page fuel npages;;
    match r with
    | None => cabort
    | Some hvm_addr =>
        if decide (hvm_addr = 0) then creturn 0
        else
          dirtblp <- pagelink_get targettask;;
          map_pages targettask dirtblp logical_addr hvm_addr 0 (Z.to_nat npages);;
          creturn hvm_addr
    end).

Definition alloc_dma_handler (fuel : nat) (rq : request) : pcmd reply :=
  let size := MsgWord rq 0 in
  let logical_addr := MsgWord rq 1 in
  hvm_addr <- alloc_dma fuel (TID2PROCNR (rq_src rq)) size logical_addr;;
  if decide (hvm_addr = 0) then cret (Reply 0 [0xFFFFFFFF] [])
  else
    let fpage := L4_Set_Rights (L4_Fpage hvm_addr (dma_pages logical_addr size * 4096))
                   L4_FullyAccessible in
    cret (Reply 0 [0; u32 (hvm_addr - MEMPOOL_ADRS)]
            [L4_MapItem fpage (Z.land logical_addr 0xfffff000)]).

(** [in_sigma0] and [in_mxpager] of [PHYS_MEM_ALLOC]. *)
Fixpoint phys_scan (n : nat) (i : Z) (in_sigma0 in_mxpager : bool) : pcmd (bool * bool) :=
  match n with
  | O => cret (in_sigma0, in_mxpager)
  | S n' =>
      v <- memmap_get i;;
      phys_scan n' (i + 1) (in_sigma0 && (v =? INSIGMA0)) (in_mxpager && (v =? FREEPAGE))
  end.

(** [1 << log2pages]; the ix86 shift counts modulo 32. *)
Definition phys_pages (log2size : Z) : Z := s32 (Z.shiftl 1 (Z.land (log2size - 12) 31)).

(** [PHYS_MEM_ALLOC]: 0, or the address in the server of the pages. *)
Definition phys_mem_alloc (targettask physical_addr logical_addr log2size : Z) : pcmd Z := ccall (
  let npages := phys_pages log2size in
  let phys_pgx := Z.shiftr physical_addr 12 in
  f <- phys_scan (Z.to_nat npages) phys_pgx true true;;
  (let '(in_sigma0, in_mxpager) := f in
   (if (in_mxpager : bool) then cret tt
    else if (in_sigma0 : bool) then
      r <- get_pages_from_sigma0 physical_addr (u32 (physical_addr + MEMPOOL_ADRS))
             (log2size - 12);;
      if decide (r = 0) then creturn 0 else cret tt
    else creturn 0);;
   let hvm_addr := u32 (physical_addr + MEMPOOL_ADRS) in
   dirtblp <- pagelink_get targettask;;
   map_pages targettask dirtblp logical_addr hvm_addr 0 (Z.to_nat npages);;
   creturn hvm_addr)).

Definition phys_mem_alloc_handler (rq : request) : pcmd reply :=
  let physical_addr := Z.land (MsgWord rq 0) 0xFFFFF000 in
  let logical_addr := Z.land (MsgWord rq 1) 0xFFFFF000 in
  let log2size := MsgWord rq 2 in
  hvm_addr <- phys_mem_alloc (TID2PROCNR (rq_src rq)) physical_addr logical_addr log2size;;
  if decide (hvm_addr = 0) then cret (Reply 0 [0] [])
  else
    let fpage := L4_Set_Rights (L4_FpageLog2 hvm_addr log2size) L4_FullyAccessible in
    cret (Reply 0 [u32 (phys_pages log2size * 4096); physical_addr]
            [L4_MapItem fpage logical_addr]).

Definition get_paddr_handler (rq : request) : pcmd reply :=
  let vaddr := MsgWord rq 0 in
  targetpage <- get_targetpage (TID2PROCNR (rq_src rq)) vaddr;;
  (let hvm_addr := padd targetpage (Z.land vaddr 0x0FFF) in
   cret (Reply 0 [u32 (hvm_addr - MEMPOOL_ADRS)] [])).

Definition page_fault_handler (rq : request) : pcmd reply :=
  let pfadrs := MsgWord rq 0 in
  let pf_page := Z.land pfadrs 0xFFFFF000 in
  targetpage <- get_targetpage (TID2PROCNR (rq_src rq)) pfadrs;;
  (let fpage := L4_Set_Rights (L4_Fpage targetpage 4096) L4_FullyAccessible in
   cret (Reply 0 [] [L4_MapItem fpage pf_page])).

(** [dbg_pagemap] and [dbg_dump_mem] only print; the page that [CHK_PGMAP]
    shows is looked up, and allocated if need be, with [get_targetpage]. *)
Definition chk_pgmap_handler (rq : request) : pcmd reply :=
  let procnr := if decide (128 < s32 (MsgWord rq 0)) then 1 else s32 (MsgWord rq 0) in
  let adrs := MsgWord rq 1 in
  (if decide (adrs = 0) then _ <- pagelink_get procnr;; cret tt
   else _ <- get_targetpage procnr adrs;; cret tt);;
  cret (Reply 0 [] []).

(** [L4_Set_MsgLabel]: the label is a field of 16 bits. *)
Definition label_reply (rc : Z) : reply := Reply (u16 rc) [] [].

Definition thread_control_handler (rq : request) : pcmd reply :=
  let w := MsgWord rq in
  rc <- do_syscall ThreadControl [w 0%nat; w 1%nat; w 2%nat; w 3%nat; w 4%nat];;
  cret (label_reply rc).

Definition space_control_handler (rq : request) : pcmd reply :=
  let w := MsgWord rq in
  rc <- do_syscall SpaceControl [w 0%nat; w 1%nat; w 2%nat; w 3%nat; w 4%nat];;
  cret (label_reply rc).

Definition associate_intr_handler (rq : request) : pcmd reply :=
  rc <- do_syscall AssociateInterrupt [MsgWord rq 0; MsgWord rq 1];; cret (label_reply rc).

Definition deassociate_intr_handler (rq : request) : pcmd reply :=
  rc <- do_syscall DeassociateInterrupt [MsgWord rq 0];; cret (label_reply rc).

Definition proc2proc_copy_handler (rq : request) : pcmd reply :=
  let w := MsgWord rq in
  _ <- proc2proc_copy (w 0%nat) (w 1%nat) (w 2%nat) (w 3%nat) (s32 (w 4%nat));;
  cret (label_reply 1).

Definition proc_memset_handler (rq : request) : pcmd reply :=
  let w := MsgWord rq in
  _ <- proc_memset (w 0%nat) (w 1%nat) (w 2%nat) (s32 (w 3%nat));; cret (label_reply 1).

Definition mm_fork_handler (myself : Z) (rq : request) : pcmd reply :=
  let w := MsgWord rq in
  rc <- mm_fork myself (w 0%nat) (w 1%nat) (w 2%nat) (w 3%nat) (w 4%nat) (w 5%nat);;
  cret (label_reply rc).

(** The message to [target] is [ip, sp]. *)
Definition start_via_pager_handler (rq : request) : pcmd reply :=
  _ <- do_syscall Send [MsgWord rq 0; MsgWord rq 2; MsgWord rq 1];; cret (Reply 0 [] []).

Definition mm_freespace_handler (rq : request) : pcmd reply :=
  _ <- free_space (MsgWord rq 0);; cret (label_reply 1).

(** One round of the loop of [mxpager_thread]: from the request that was
    received to the answer that [L4_ReplyWait] sends. *)
Definition mxpager_serve (fuel : nat) (myself : Z) (rq : request) : pcmd reply :=
  let label := rq_label rq in
  if decide (label = THREAD_CONTROL) then thread_control_handler rq
  else if decide (label = SPACE_CONTROL) then space_control_handler rq
  else if decide (label = ASSOCIATE_INTR) then associate_intr_handler rq
  else if decide (label = DEASSOCIATE_INTR) then deassociate_intr_handler rq
  else if decide (label = PROC2PROC_COPY) then proc2proc_copy_handler rq
  else if decide (label = PROC_MEMSET) then proc_memset_handler rq
  else if decide (label = MM_FORK) then mm_fork_handler myself rq
  else if decide (label = CHK_PGMAP) then chk_pgmap_handler rq
  else if decide (label = START_VIA_PAGER) then start_via_pager_handler rq
  else if decide (label = MM_FREESPACE) then mm_freespace_handler rq
  else if decide (label = ALLOC_DMA) then alloc_dma_handler fuel rq
  else if decide (label = PHYS_MEM_ALLOC) then phys_mem_alloc_handler rq
  else if decide (label = GET_PADDR) then get_paddr_handler rq
  else page_fault_handler rq.

(** The server on a sequence of requests. *)
Fixpoint mxpager_thread (fuel : nat) (myself : Z) (rqs : list request) : pcmd (list reply) :=
  match rqs with
  | [] => cret []
  | rq :: rqs' =>
      r <- mxpager_serve fuel myself rq;;
      rs <- mxpager_thread fuel myself rqs';;
      cret (r :: rs)
  end.

(** ** Start-up *)

(** [get_pages_from_sigma0] for the pages [INDEX_1M <= j < INDEX_16M]. *)
Definition grab_page (j : Z) : pcmd unit :=
  rc <- get_pages_from_sigma0 (j * 4096) (MEMPOOL_ADRS + j * 4096) 0;;
  memmap_set j (if decide (rc = 0) then RESERVED0 else FREEPAGE).

(** The part of [create_mxpager] that sets the server's state;
    [max_padrs] is what [installed_max_mem] found. *)
Definition create_mxpager (max_padrs : Z) : pcmd Z :=
  let max_padrs := if decide (MAXMEM < max_padrs) then MAXMEM else max_padrs in
  cmodify (set_totalpages (max_padrs / 4096));;
  cfor NR_PROCS (fun i => pagelink_set i 0;; pages_set i (fun _ => 0));;
  cfor (max_padrs / 4096) (fun j => memmap_set j INSIGMA0);;
  cforto INDEX_1M INDEX_16M grab_page;;
  cret 1.
End Pager.

(** [installed_max_mem]: the largest end of a conventional physical region in
    the memory descriptors (two words each) of the kernel. *)
Definition md_low (d : Z * Z) : Z := Z.land d.1 0xFFFFFC00.
Definition md_high (d : Z * Z) : Z := u32 (d.2 + 1024).
Definition md_type (d : Z * Z) : Z := Z.land d.1 0xF.
Definition md_virtual (d : Z * Z) : Z := Z.shiftr (Z.land d.1 0x200) 9.

Definition installed_max_mem (descs : list (Z * Z)) : Z :=
  foldl (fun max d =>
    if decide (md_type d = 1 /\ md_virtual d = 0) then
      if decide (max < md_high d) then md_high d else max
    else max) 0 descs.
