(* ===== verification/PagerSpec.v ===== *)
(** What the memory server promises: pages are owned by one slot of one page
    table at most, requests keep the translations of every process, the copies
    between address spaces move the bytes they should. *)

From S2P Require Import Prelude Mem Fcall9P Fcall9PSpec Pager.

(** ** Loops *)

Section Loops.
Context {S R : Type}.

Lemma cloop_inv (P : Z -> S -> Prop) (body : Z -> cmd S R unit) n i s :
  P i s ->
  (forall k s, i <= k < i + Z.of_nat n -> P k s -> exists s', body k s = (Go tt, s') /\ P (k + 1) s') ->
  exists s', cloop i n body s = (Go tt, s') /\ P (i + Z.of_nat n) s'.
Proof.
revert i s; induction n as [|n IH]; intros i s H0 Hstep.
- exists s. rewrite Z.add_0_r. done.
- destruct (Hstep i s) as (s1 & E & H1); [lia|done|].
  destruct (IH (i + 1) s1 H1) as (s2 & E2 & H2).
  { intros k s' Hk. apply Hstep. lia. }
  exists s2. cbn [cloop]. rewrite (cbind_go _ _ _ _ _ E).
  by replace (i + Z.of_nat (Datatypes.S n)) with (i + 1 + Z.of_nat n) by lia.
Qed.

Lemma cfor_inv (P : Z -> S -> Prop) (body : Z -> cmd S R unit) n s :
  0 <= n -> P 0 s ->
  (forall k s, 0 <= k < n -> P k s -> exists s', body k s = (Go tt, s') /\ P (k + 1) s') ->
  exists s', cfor n body s = (Go tt, s') /\ P n s'.
Proof.
intros Hn H0 Hstep. destruct (cloop_inv P body (Z.to_nat n) 0 s H0) as (s' & E & H).
{ intros k s' Hk. apply Hstep. lia. }
exists s'. unfold cfor, cblock. rewrite E.
rewrite Z.add_0_l, Z2Nat.id in H by lia. done.
Qed.
End Loops.

(** ** Words of page tables *)

Definition pte (m : mem) (t i : Z) : Z := val m (t + 4 * i) 4.

Lemma val_same_out lo hi m m' q n :
  same_out lo hi m m' -> q + Z.of_nat n <= lo \/ hi <= q -> val m' q n = val m q n.
Proof. intros H D. unfold val. f_equal. apply ld_bytes_ext. intros a Ha. apply H. lia. Qed.

Lemma pte_range m t i : 0 <= pte m t i < 2 ^ 32.
Proof. apply (val_range m (t + 4 * i) 4). Qed.

Lemma st32_same_out m p v : same_out p (p + 4) m (st32 m p v).
Proof. unfold st32. rewrite PBIT32_st. apply st_bytes_same_out; rewrite ?zlen_le; lia. Qed.

Lemma pte_st32 m t i v : 0 <= v < 2 ^ 32 -> pte (st32 m (t + 4 * i) v) t i = v.
Proof.
intros Hv. unfold pte, st32. rewrite PBIT32_st. apply (val_at' _ _ 4); [|exact Hv].
apply bytes_at_st_bytes, le_range.
Qed.

Lemma memset_out m a lo hi : lo <= a -> a + 4096 <= hi -> same_out lo hi m (_memset m a 0 4096).
Proof. intros. by apply memset_same_out. Qed.

Lemma rd8_memset0 m a n x : 0 <= n -> a <= x < a + n -> rd8 (_memset m a 0 n) x = 0.
Proof.
intros Hn Hx. pose proof (bytes_at_memset m a 0 n Hn) as H. change (u8 0) with 0 in H.
replace (Z.to_nat n) with (Z.to_nat (x - a) + Datatypes.S (Z.to_nat (n - (x - a) - 1)))%nat in H by lia.
rewrite replicate_add in H. apply bytes_at_app in H as [_ H]. rewrite zlen_replicate in H by lia.
cbn [replicate] in H. apply bytes_at_cons in H as [H _].
by replace (a + (x - a)) with x in H by lia.
Qed.

Lemma pte_memset0 m a i : 0 <= i < 1024 -> pte (_memset m a 0 4096) a i = 0.
Proof.
intros Hi. unfold pte, val. 
assert (forall n p, a <= p -> p + Z.of_nat n <= a + 4096 ->
  unle (ld_bytes (_memset m a 0 4096) p n) = 0) as H.
{ induction n as [|n IH]; intros p H1 H2; [done|].
  change (rd8 (_memset m a 0 4096) p + 256 * unle (ld_bytes (_memset m a 0 4096) (p + 1) n) = 0).
  rewrite rd8_memset0, IH by lia. done. }
apply H; lia.
Qed.

(** ** Slots: the places that may hold the address of a page *)

Inductive slot :=
  | SDir (p : Z)
  | STab (p i : Z)
  | SPage (p i j : Z).

#[export] Instance slot_eq_dec : EqDecision slot.
Proof. solve_decision. Defined.

Definition slot_ok (s : slot) : Prop :=
  match s with
  | SDir p => 0 <= p < NR_PROCS
  | STab p i => 0 <= p < NR_PROCS /\ 0 <= i < 1024
  | SPage p i j => 0 <= p < NR_PROCS /\ 0 <= i < 1024 /\ 0 <= j < 1024
  end.

Definition slot_proc (s : slot) : Z :=
  match s with SDir p | STab p _ | SPage p _ _ => p end.

Section Slots.
Variables (m : mem) (link : Z -> Z).

Definition dir_val (p : Z) : Z := link p.
Definition tab_val (p i : Z) : Z := if decide (dir_val p = 0) then 0 else pte m (dir_val p) i.
Definition page_val (p i j : Z) : Z :=
  if decide (tab_val p i = 0) then 0 else pte m (tab_val p i) j.

Definition slot_val (s : slot) : Z :=
  match s with
  | SDir p => dir_val p
  | STab p i => tab_val p i
  | SPage p i j => page_val p i j
  end.
End Slots.

Definition page_adrs (n : Z) : Z := MEMPOOL_ADRS + 4096 * n.

(** [x] is an address in the page at [a]. *)
Definition in_page (a x : Z) : Prop := a <= x < a + 4096.

(** The ownership of pages in a memory and page-table roots: every page in a
    slot is a page of the pool for which [own] holds, and no page is in two
    slots. *)
Record owned (m : mem) (link : Z -> Z) (tp : Z) (own : Z -> Prop) : Prop := Owned {
  owned_page s : slot_ok s -> slot_val m link s <> 0 ->
    exists n, 0 <= n < tp /\ slot_val m link s = page_adrs n /\ own n;
  owned_inj s1 s2 : slot_ok s1 -> slot_ok s2 ->
    slot_val m link s1 <> 0 -> slot_val m link s1 = slot_val m link s2 -> s1 = s2
}.

Lemma page_adrs_inj n k : page_adrs n = page_adrs k -> n = k.
Proof. unfold page_adrs. lia. Qed.

Lemma page_adrs_pos n : 0 <= n -> MEMPOOL_ADRS <= page_adrs n.
Proof. unfold page_adrs. lia. Qed.

Lemma pages_apart n k : n <> k ->
  page_adrs n + 4096 <= page_adrs k \/ page_adrs k + 4096 <= page_adrs n.
Proof. unfold page_adrs. lia. Qed.

(** Entering the page [a] into the empty slot [s]. *)
Definition link_link (link : Z -> Z) (s : slot) (a : Z) : Z -> Z :=
  match s with
  | SDir p => fun q => if decide (q = p) then a else link q
  | _ => link
  end.
Definition link_mem (m : mem) (link : Z -> Z) (s : slot) (a : Z) : mem :=
  match s with
  | SDir _ => _memset m a 0 4096
  | STab p i => _memset (st32 m (dir_val link p + 4 * i) a) a 0 4096
  | SPage p i j => st32 m (tab_val m link p i + 4 * j) a
  end.
Definition parent_val (m : mem) (link : Z -> Z) (s : slot) : Z :=
  match s with
  | SDir _ => 1
  | STab p _ => dir_val link p
  | SPage p i _ => tab_val m link p i
  end.

(** The page number [n] is fresh and the slot [s] is empty and has a parent. *)
Record linkable (m : mem) (link : Z -> Z) (tp : Z) (own : Z -> Prop) (s : slot) (n : Z) : Prop :=
Linkable {
  lk_own : owned m link tp own;
  lk_ok : slot_ok s;
  lk_empty : slot_val m link s = 0;
  lk_parent : parent_val m link s <> 0;
  lk_n : 0 <= n < tp;
  lk_tp : tp <= MAXMEM / 4096;
  lk_fresh s' : slot_ok s' -> slot_val m link s' <> page_adrs n
}.

Lemma page_adrs_range tp k : tp <= MAXMEM / 4096 -> 0 <= k < tp ->
  0 < page_adrs k < 2 ^ 32 - 4096.
Proof. change (MAXMEM / 4096) with 60416. unfold page_adrs, MEMPOOL_ADRS. lia. Qed.

Section Link.
Context {m : mem} {link : Z -> Z} {tp : Z} {own : Z -> Prop}.

Lemma slot_page s n s' : linkable m link tp own s n ->
  slot_ok s' -> slot_val m link s' <> 0 ->
  exists k, 0 <= k < tp /\ slot_val m link s' = page_adrs k /\ k <> n.
Proof.
intros [Hown _ _ _ _ _ Hfresh] Hs Hv.
destruct (owned_page _ _ _ _ Hown s' Hs Hv) as (k & Hk & E & _).
exists k. split_and!; [lia..|done|]. intros ->. by eapply Hfresh.
Qed.

(** Where entering a page writes. *)
Definition link_at (s : slot) (a : Z) : Z :=
  match s with
  | SDir _ => a
  | STab p i => dir_val link p + 4 * i
  | SPage p i j => tab_val m link p i + 4 * j
  end.

Lemma link_same_out s a x :
  ~ (link_at s a <= x < link_at s a + 4) -> ~ in_page a x ->
  rd8 (link_mem m link s a) x = rd8 m x.
Proof.
unfold in_page. destruct s as [p|p i|p i j]; cbn [link_at link_mem]; intros H1 H2.
- apply (memset_out m a a (a + 4096)); lia.
- rewrite (memset_out _ a a (a + 4096)) by lia. by apply st32_same_out.
- by apply st32_same_out.
Qed.

Lemma st32_pte_ne t i i' v : i <> i' -> pte (st32 m (t + 4 * i') v) t i = pte m t i.
Proof.
intros Hne. unfold pte. apply (val_same_out (t + 4 * i') (t + 4 * i' + 4));
  [apply st32_same_out|lia].
Qed.

(** The words of the page at [t] are kept if [t] is neither the new page nor
    the page that is written. *)
Lemma link_pte_other s n t k i : linkable m link tp own s n ->
  t = page_adrs k -> k <> n -> 0 <= i < 1024 -> parent_val m link s <> t ->
  pte (link_mem m link s (page_adrs n)) t i = pte m t i.
Proof.
intros L -> Hk Hi Hpt. unfold pte, val. f_equal. apply ld_bytes_ext. intros x Hx.
pose proof (pages_apart k n Hk) as Hap.
apply link_same_out; [|unfold in_page; lia].
pose proof (lk_ok _ _ _ _ _ _ L) as Ho. pose proof (lk_parent _ _ _ _ _ _ L) as Hp.
destruct s as [p|p i'|p i' j]; cbn [link_at slot_ok parent_val] in *; [lia| |].
- destruct (slot_page _ _ (SDir p) L) as (k' & Hk' & E & _); cbn [slot_ok slot_val]; [lia|done|].
  cbn [slot_val] in E. rewrite E in *.
  assert (k' <> k) by congruence. pose proof (pages_apart k k' ltac:(done)). lia.
- destruct (slot_page _ _ (STab p i') L) as (k' & Hk' & E & _); cbn [slot_ok slot_val]; [lia|done|].
  cbn [slot_val] in E. rewrite E in *.
  assert (k' <> k) by congruence. pose proof (pages_apart k k' ltac:(done)). lia.
Qed.

Lemma link_adrs_range s n : linkable m link tp own s n -> 0 < page_adrs n < 2 ^ 32 - 4096.
Proof. intros L. eapply page_adrs_range; [apply (lk_tp _ _ _ _ _ _ L)|apply L]. Qed.

(** The slot that is the page a table slot is in. *)
Definition parent_slot (s : slot) : option slot :=
  match s with
  | SDir _ => None
  | STab p _ => Some (SDir p)
  | SPage p i _ => Some (STab p i)
  end.
Definition slot_index (s : slot) : Z :=
  match s with SDir _ => 0 | STab _ i => i | SPage _ _ j => j end.

Lemma parent_slot_val s s1 : parent_slot s = Some s1 ->
  parent_val m link s = slot_val m link s1.
Proof. destruct s; intros [= <-]; done. Qed.

Lemma parent_slot_inj s s' s1 :
  parent_slot s = Some s1 -> parent_slot s' = Some s1 -> slot_index s = slot_index s' -> s = s'.
Proof. destruct s, s'; cbn; intros; simplify_eq; done. Qed.

Lemma parent_slot_ok s s1 : parent_slot s = Some s1 -> slot_ok s ->
  slot_ok s1 /\ 0 <= slot_index s < 1024.
Proof. destruct s; intros [= <-]; cbn; lia. Qed.

(** The word of the slot [s'], whose parent keeps its page, after entering. *)
Lemma pte_after s n s' s1 : linkable m link tp own s n ->
  slot_ok s' -> parent_slot s' = Some s1 -> slot_val m link s1 <> 0 ->
  pte (link_mem m link s (page_adrs n)) (slot_val m link s1) (slot_index s') =
    if decide (s' = s) then page_adrs n else pte m (slot_val m link s1) (slot_index s').
Proof.
intros L Ho' Hp' Hv. pose proof (link_adrs_range _ _ L) as Ha.
destruct (parent_slot_ok _ _ Hp' Ho') as [Ho1 Hi].
destruct (slot_page _ _ s1 L Ho1 Hv) as (k & Hk & E & Hkn).
destruct (decide (parent_slot s = Some s1)) as [Hp|Hp].
- pose proof (parent_slot_val _ _ Hp) as Epar.
  assert (pte (link_mem m link s (page_adrs n)) (slot_val m link s1) (slot_index s') =
    pte (st32 m (slot_val m link s1 + 4 * slot_index s) (page_adrs n)) (slot_val m link s1)
      (slot_index s')) as ->.
  { destruct s as [p|p i|p i j]; cbn [parent_slot] in Hp; [done| |];
      cbn [parent_val link_mem slot_index] in *; rewrite Epar; [|done].
    apply (val_same_out (page_adrs n) (page_adrs n + 4096)); [apply memset_out; lia|].
    pose proof (pages_apart k n Hkn). lia. }
  case_decide as Hs.
  + subst s'. apply pte_st32. lia.
  + apply st32_pte_ne. intros Ei. apply Hs. by eapply parent_slot_inj.
- rewrite decide_False by congruence. apply (link_pte_other _ _ _ k _ L); try done.
  intros Epar. apply Hp. pose proof (lk_ok _ _ _ _ _ _ L) as Hos.
  destruct (parent_slot s) as [s2|] eqn:E2.
  + f_equal. apply (owned_inj _ _ _ _ (lk_own _ _ _ _ _ _ L)).
    * by eapply parent_slot_ok.
    * done.
    * rewrite (parent_slot_val _ _ E2) in Epar. congruence.
    * by rewrite <- (parent_slot_val _ _ E2).
  + destruct s; try done. cbn [parent_val] in Epar. rewrite E in Epar.
    unfold page_adrs, MEMPOOL_ADRS in Epar. lia.
Qed.

Lemma new_table_empty s n i : linkable m link tp own s n ->
  (forall p i' j, s <> SPage p i' j) -> 0 <= i < 1024 ->
  pte (link_mem m link s (page_adrs n)) (page_adrs n) i = 0.
Proof.
intros L Hs Hi. destruct s as [p|p i'|p i' j]; cbn [link_mem].
- by apply pte_memset0.
- by apply pte_memset0.
- by destruct (Hs p i' j).
Qed.

(** Entering a fresh page sets its slot and no other. *)
Lemma link_vals s n s' : linkable m link tp own s n -> slot_ok s' ->
  slot_val (link_mem m link s (page_adrs n)) (link_link link s (page_adrs n)) s' =
    if decide (s' = s) then page_adrs n else slot_val m link s'.
Proof.
intros L Ho'. pose proof (link_adrs_range _ _ L) as Ha.
set (m' := link_mem m link s (page_adrs n)). set (link' := link_link link s (page_adrs n)).
assert (forall p, 0 <= p < NR_PROCS -> dir_val link' p =
  if decide (SDir p = s) then page_adrs n else dir_val link p) as Hdir.
{ intros p Hp. unfold dir_val, link', link_link. destruct s; [|done..].
  repeat case_decide; congruence. }
assert (forall p i, slot_ok (STab p i) -> tab_val m' link' p i =
  if decide (STab p i = s) then page_adrs n else tab_val m link p i) as Htab.
{ intros p i Ho. cbn [slot_ok] in Ho. unfold tab_val at 1. rewrite Hdir by lia.
  pose proof (lk_empty _ _ _ _ _ _ L) as Hemp. pose proof (lk_parent _ _ _ _ _ _ L) as Hpar.
  destruct (decide (SDir p = s)) as [<-|Hne].
  - rewrite decide_False by lia. rewrite decide_False by done.
    unfold m'. rewrite new_table_empty by (done || lia). unfold tab_val.
    cbn [slot_val] in Hemp. by rewrite decide_True.
  - destruct (decide (dir_val link p = 0)) as [Hz|Hz].
    + rewrite decide_False; [unfold tab_val; by rewrite decide_True|].
      intros <-. cbn [parent_val] in Hpar. done.
    + pose proof (pte_after s n (STab p i) (SDir p) L Ho eq_refl Hz) as P.
      cbn [slot_index slot_val] in P. fold m' in P. rewrite P. unfold tab_val.
      by rewrite (decide_False (P := dir_val link p = 0)). }
destruct s' as [p|p i|p i j]; cbn [slot_val].
- by apply Hdir.
- by apply Htab.
- cbn [slot_ok] in Ho'. unfold page_val at 1. rewrite Htab by (cbn; lia).
  pose proof (lk_empty _ _ _ _ _ _ L) as Hemp. pose proof (lk_parent _ _ _ _ _ _ L) as Hpar.
  destruct (decide (STab p i = s)) as [<-|Hne].
  + rewrite decide_False by lia. rewrite decide_False by done.
    unfold m'. rewrite new_table_empty by (done || lia). unfold page_val.
    cbn [slot_val] in Hemp. by rewrite decide_True.
  + destruct (decide (tab_val m link p i = 0)) as [Hz|Hz].
    * rewrite decide_False; [unfold page_val; by rewrite decide_True|].
      intros <-. cbn [parent_val] in Hpar. done.
    * pose proof (pte_after s n (SPage p i j) (STab p i) L Ho' eq_refl Hz) as P.
      cbn [slot_index slot_val] in P. fold m' in P. rewrite P. unfold page_val.
      by rewrite (decide_False (P := tab_val m link p i = 0)).
Qed.

Lemma link_owned s n (own' : Z -> Prop) : linkable m link tp own s n ->
  own' n -> (forall k, own k -> own' k) ->
  owned (link_mem m link s (page_adrs n)) (link_link link s (page_adrs n)) tp own'.
Proof.
intros L Hn Hmono. split.
- intros s' Ho'. rewrite (link_vals s n s' L Ho'). case_decide.
  + intros _. exists n. split; [apply L|done].
  + intros Hv. destruct (owned_page _ _ _ _ (lk_own _ _ _ _ _ _ L) s' Ho' Hv) as (k & ? & ? & ?).
    exists k. auto.
- intros s1 s2 Ho1 Ho2. rewrite (link_vals s n s1 L Ho1), (link_vals s n s2 L Ho2).
  pose proof (lk_fresh _ _ _ _ _ _ L) as Hf.
  repeat case_decide; subst; intros Hv E; try done.
  + by destruct (Hf s2 Ho2).
  + by destruct (Hf s1 Ho1).
  + by apply (owned_inj _ _ _ _ (lk_own _ _ _ _ _ _ L)).
Qed.
End Link.

(** ** The page map *)

Definition plink {Sg} (st : pager Sg) (p : Z) : Z := pagelink (mproc_at st p).

(** The invariant of the server. *)
Record inv {Sg} (st : pager Sg) : Prop := Inv {
  inv_tp : INDEX_16M < totalpages st <= MAXMEM / 4096;
  inv_index : INDEX_16M <= index st <= totalpages st;
  inv_own : owned (pmem st) (plink st) (totalpages st) (fun n => memmap_at st n = ALLOCATED)
}.

Definition sval {Sg} (st : pager Sg) (s : slot) : Z := slot_val (pmem st) (plink st) s.

(** The page that holds the address [va] of process [p], 0 if there is none. *)
Definition trans {Sg} (st : pager Sg) (p va : Z) : Z :=
  sval st (SPage p (Z.shiftr va 22) (Z.land (Z.shiftr va 12) 0x3ff)).

(** A search may find pages that sigma0 does not give. *)
Definition resv {Sg} (st st' : pager Sg) : Prop :=
  forall k, memmap_at st' k = memmap_at st k \/
    (memmap_at st k = INSIGMA0 /\ memmap_at st' k = RESERVED0).

(** [st'] is [st] but for the page map, the index and sigma0. *)
Definition same_space {Sg} (st st' : pager Sg) : Prop :=
  pmem st' = pmem st /\ mproc st' = mproc st /\ totalpages st' = totalpages st /\
  indexdma st' = indexdma st.

Section Alloc.
Context {Sg : Type}.
Variable sigma0 : list Z -> Z -> Sg -> option (list Z) * Sg.
Implicit Types st : pager Sg.

Lemma resv_refl st : resv st st.
Proof. by left. Qed.

Lemma resv_trans st1 st2 st3 : resv st1 st2 -> resv st2 st3 -> resv st1 st3.
Proof.
intros H1 H2 k. destruct (H1 k) as [E1|[E1 E1']], (H2 k) as [E2|[E2 E2']].
- left; congruence.
- right; split; congruence.
- right; split; congruence.
- rewrite E1' in E2. done.
Qed.

Lemma same_space_refl st : same_space st st.
Proof. done. Qed.

Lemma same_space_trans st1 st2 st3 : same_space st1 st2 -> same_space st2 st3 -> same_space st1 st3.
Proof. unfold same_space. intros (?&?&?&?) (?&?&?&?). split_and!; congruence. Qed.

Lemma in_memmap_true i : 0 <= i < MAXMEM / 4096 -> in_memmap i = true.
Proof. unfold in_memmap. intros. apply andb_true_iff. split; [apply Z.leb_le|apply Z.ltb_lt]; lia. Qed.

Lemma memmap_get_go i st (Hi : 0 <= i < MAXMEM / 4096) :
  memmap_get i st = (Go (memmap_at st i), st).
Proof. unfold memmap_get. by rewrite in_memmap_true. Qed.

Lemma memmap_set_go i v st (Hi : 0 <= i < MAXMEM / 4096) :
  memmap_set i v st = (Go tt, set_memmap (<[i := s8 v]>) st).
Proof. unfold memmap_set. by rewrite in_memmap_true. Qed.

Lemma memmap_at_set i v st k :
  memmap_at (set_memmap (<[i := v]>) st) k = if decide (k = i) then v else memmap_at st k.
Proof.
unfold memmap_at, set_memmap; cbn. case_decide as H.
- subst. by rewrite lookup_insert_eq.
- by rewrite lookup_insert_ne.
Qed.

Lemma get_pages_go a b l st : exists r g,
  get_pages_from_sigma0 sigma0 a b l st = (Go r, set_s0 g st) /\ (r = 0 \/ r = 1).
Proof.
unfold get_pages_from_sigma0. destruct (sigma0 _ _ _) as [[ws|] g]; [|eauto].
case_match; eauto.
Qed.

Definition ring_next (tp i : Z) : Z := if decide (i = tp) then INDEX_16M else i.

(** Steps of the search from [i] to the page [k]. *)
Definition ring_dist (tp i k : Z) : Z :=
  if decide (ring_next tp i <= k) then k - ring_next tp i
  else (tp - ring_next tp i) + (k - INDEX_16M).

Lemma alloc_scan_spec n i j st :
  INDEX_16M < totalpages st <= MAXMEM / 4096 -> INDEX_16M <= i <= totalpages st ->
  exists i' j' st', alloc_scan sigma0 n i j st = (Go (i', j'), st') /\
    same_space st st' /\ index st' = index st /\ resv st st' /\ j <= j' <= j + Z.of_nat n /\
    (j' < j + Z.of_nat n ->
       INDEX_16M <= i' < totalpages st /\ memmap_at st' i' = memmap_at st i' /\
       (memmap_at st i' = INSIGMA0 \/ memmap_at st i' = FREEPAGE)) /\
    (forall k, INDEX_16M <= k < totalpages st -> memmap_at st k = FREEPAGE ->
       ring_dist (totalpages st) i k < Z.of_nat n -> j' <= j + ring_dist (totalpages st) i k).
Proof.
revert i j st; induction n as [|n IH]; intros i j st Htp Hi.
{ exists i, j, st. split_and!; try done; [apply resv_refl|lia..|]. intros k Hk _ Hd.
  unfold ring_dist, ring_next in *. repeat case_decide; lia. }
cbn [alloc_scan]. unfold cbind at 1. cbn [cgets]. set (i1 := ring_next (totalpages st) i).
assert (INDEX_16M <= i1 < totalpages st) as Hi1 by (unfold i1, ring_next; case_decide; lia).
assert (0 <= i1) by (unfold INDEX_16M in Hi1; lia).
unfold cgets. cbv zeta. fold (ring_next (totalpages st) i). fold i1.
rewrite (cbind_go _ _ _ _ _ (memmap_get_go i1 st ltac:(lia))).
assert (forall st1, same_space st st1 -> index st1 = index st -> resv st st1 ->
  (forall k, memmap_at st k = FREEPAGE -> memmap_at st1 k = FREEPAGE) ->
  memmap_at st i1 <> FREEPAGE ->
  exists i' j' st', alloc_scan sigma0 n (i1 + 1) (j + 1) st1 = (Go (i', j'), st') /\
    same_space st st' /\ index st' = index st /\ resv st st' /\ j <= j' <= j + Z.of_nat (S n) /\
    (j' < j + Z.of_nat (S n) ->
       INDEX_16M <= i' < totalpages st /\ memmap_at st' i' = memmap_at st i' /\
       (memmap_at st i' = INSIGMA0 \/ memmap_at st i' = FREEPAGE)) /\
    (forall k, INDEX_16M <= k < totalpages st -> memmap_at st k = FREEPAGE ->
       ring_dist (totalpages st) i k < Z.of_nat (S n) -> j' <= j + ring_dist (totalpages st) i k))
  as Hnext.
{ intros st1 Hs1 Hx1 Hr1 Hf1 Hne. assert (totalpages st1 = totalpages st) as Et by apply Hs1.
  destruct (IH (i1 + 1) (j + 1) st1) as (i' & j' & st' & E & Hs & Hx & Hr & Hj & Hfound & Hdist);
    [rewrite Et; lia..|].
  rewrite Et in *. exists i', j', st'. split_and!.
  - done.
  - by eapply same_space_trans.
  - congruence.
  - by eapply resv_trans.
  - lia.
  - lia.
  - intros Hlt. destruct Hfound as (? & E1 & Hv); [lia|]. split; [done|].
    destruct (Hr1 i') as [E2|[_ E2]].
    + rewrite E1, E2 in *. done.
    + rewrite E2 in Hv. by destruct Hv.
  - intros k Hk Hfree Hd. assert (k <> i1) by congruence.
    assert (ring_dist (totalpages st) (i1 + 1) k + 1 = ring_dist (totalpages st) i k) as Hd'.
    { unfold ring_dist. fold i1. unfold ring_next. repeat case_decide; lia. }
    specialize (Hdist k Hk (Hf1 k Hfree)). lia. }
case_decide as Hin.
- destruct (get_pages_go (i1 * 4096) (i1 * 4096 + MEMPOOL_ADRS) 0 st) as (r & g & E & Hr).
  rewrite (cbind_go _ _ _ _ _ E). case_decide.
  + rewrite (cbind_go _ _ _ _ _ (memmap_set_go i1 RESERVED0 _ ltac:(lia))).
    apply Hnext; try done.
    * intros k. rewrite memmap_at_set. case_decide; [subst; right; done|by left].
    * intros k Hk. rewrite memmap_at_set. case_decide; [|done]. subst. by rewrite Hk in Hin.
    * by rewrite Hin.
  + exists i1, j, (set_s0 g st). split_and!; try done; [by left|lia..| |].
    * intros _. auto.
    * intros k Hk Hf Hd. unfold ring_dist. fold i1. case_decide; lia.
- case_decide as Hfr.
  + exists i1, j, st. split_and!; try done; [apply resv_refl|lia..| |].
    * intros _. auto.
    * intros k Hk Hf Hd. unfold ring_dist. fold i1. case_decide; lia.
  + by apply Hnext; [apply same_space_refl| |apply resv_refl| |].
Qed.

(** [alloc_page] marks the page [n] allocated. *)
Definition allocs st st' (n : Z) : Prop :=
  INDEX_16M <= n < totalpages st /\ (memmap_at st n = INSIGMA0 \/ memmap_at st n = FREEPAGE) /\
  memmap_at st' n = ALLOCATED /\
  forall k, k <> n -> memmap_at st' k = memmap_at st k \/
    (memmap_at st k = INSIGMA0 /\ memmap_at st' k = RESERVED0).

Definition no_free st : Prop :=
  forall k, INDEX_16M <= k < totalpages st -> memmap_at st k <> FREEPAGE.

Lemma shiftl12 n : Z.shiftl n 12 = 4096 * n.
Proof. rewrite Z.shiftl_mul_pow2 by lia. change (2 ^ 12) with 4096. lia. Qed.

Lemma alloc_page_spec p st :
  INDEX_16M < totalpages st <= MAXMEM / 4096 -> INDEX_16M <= index st <= totalpages st ->
  exists a st', alloc_page sigma0 p st = (Go a, st') /\ same_space st st' /\
    INDEX_16M <= index st' <= totalpages st /\
    ((a = 0 /\ resv st st' /\ no_free st) \/ (exists n, a = page_adrs n /\ allocs st st' n)).
Proof.
intros Htp Hix. unfold alloc_page. unfold cbind at 1 2, cgets.
destruct (alloc_scan_spec (Z.to_nat (totalpages st)) (index st) 0 st Htp Hix)
  as (i & j & st1 & E & Hs & Hx & Hr & Hj & Hfound & Hdist).
rewrite (cbind_go _ _ _ _ _ E). assert (0 <= totalpages st) by (unfold INDEX_16M in Htp; lia).
rewrite Z2Nat.id in * by done. case_decide as Hout.
- exists 0, st1. split_and!; try done; [lia..|]. left. split_and!; try done.
  intros k Hk Hf. specialize (Hdist k Hk Hf). unfold ring_dist, ring_next, INDEX_16M in *.
  repeat case_decide; lia.
- destruct Hfound as (Hi & E1 & Hv); [lia|]. assert (0 <= i) by (unfold INDEX_16M in Hi; lia).
  rewrite (cbind_go _ _ _ _ _ (memmap_set_go i ALLOCATED st1 ltac:(lia))).
  eexists _, _. split; [reflexivity|]. split_and!; try done; [cbn; lia..|].
  right. exists i. split.
  + rewrite shiftl12. pose proof (page_adrs_range _ i (proj2 Htp)) as Hp. unfold page_adrs in *.
    rewrite u32_small; lia.
  + change (s8 ALLOCATED) with ALLOCATED. split_and!; try done; [lia..| |].
    * change (memmap_at (set_memmap (<[i:=ALLOCATED]>) st1) i = ALLOCATED).
      by rewrite memmap_at_set, decide_True.
    * intros k Hk. change (memmap_at (set_index (i + 1) (set_memmap (<[i:=ALLOCATED]>) st1)) k)
        with (memmap_at (set_memmap (<[i:=ALLOCATED]>) st1) k).
      rewrite memmap_at_set, decide_False by done. apply Hr.
Qed.

(** Allocation keeps the invariant; the page is in no slot. *)
Lemma allocs_allocated st st' n k : allocs st st' n ->
  memmap_at st k = ALLOCATED -> memmap_at st' k = ALLOCATED.
Proof.
intros (_ & _ & Hn & Hk) E. destruct (decide (k = n)) as [->|Hne]; [done|].
destruct (Hk k Hne) as [->|[E2 _]]; [done|]. by rewrite E in E2.
Qed.

Lemma resv_allocated st st' k : resv st st' ->
  memmap_at st k = ALLOCATED -> memmap_at st' k = ALLOCATED.
Proof. intros H E. destruct (H k) as [->|[E2 _]]; [done|]. by rewrite E in E2. Qed.

Lemma plink_mproc st st' : mproc st' = mproc st -> forall p, plink st' p = plink st p.
Proof. intros E p. unfold plink, mproc_at. by rewrite E. Qed.

Lemma slot_val_ext m m' link link' s :
  m' = m -> (forall p, link' p = link p) -> slot_val m' link' s = slot_val m link s.
Proof.
intros -> Hl. destruct s; unfold slot_val, page_val, tab_val, dir_val; by rewrite ?Hl.
Qed.

Lemma owned_ext m link link' tp own own' :
  (forall p, link' p = link p) -> (forall k, own k -> own' k) ->
  owned m link tp own -> owned m link' tp own'.
Proof.
intros Hl Ho [Hp Hi]. split.
- intros s Hs. rewrite (slot_val_ext m m link link' s) by done. intros Hv.
  destruct (Hp s Hs Hv) as (n & ? & ? & ?). eauto.
- intros s1 s2 H1 H2. rewrite !(slot_val_ext m m link link') by done. by apply Hi.
Qed.

Lemma same_space_inv st st' :
  same_space st st' -> INDEX_16M <= index st' <= totalpages st ->
  (forall k, memmap_at st k = ALLOCATED -> memmap_at st' k = ALLOCATED) -> inv st -> inv st'.
Proof.
intros (Hm & Hp & Ht & _) Hx Hmono [H1 H2 H3]. split; rewrite ?Ht, ?Hm; [done..|].
eapply owned_ext; [|exact Hmono|exact H3]. by apply plink_mproc.
Qed.

Lemma same_space_sval st st' s : same_space st st' -> sval st' s = sval st s.
Proof.
intros (Hm & Hp & _). unfold sval. apply slot_val_ext; [done|]. by apply plink_mproc.
Qed.

Lemma alloc_page_inv p st : inv st ->
  exists a st', alloc_page sigma0 p st = (Go a, st') /\ same_space st st' /\ inv st' /\
    ((a = 0 /\ resv st st' /\ no_free st) \/
     (exists n, a = page_adrs n /\ a <> 0 /\ allocs st st' n /\
        forall s, slot_ok s -> sval st' s <> page_adrs n)).
Proof.
intros Hinv. destruct Hinv as [H1 H2 H3] eqn:Einv. clear Einv.
destruct (alloc_page_spec p st H1 H2) as (a & st' & E & Hs & Hx & Ho).
exists a, st'. split; [done|]. split; [done|]. split.
- apply (same_space_inv st); try done. destruct Ho as [(_ & Hr & _)|(n & _ & Ha)].
  + intros k. by apply resv_allocated.
  + intros k. by eapply allocs_allocated.
- destruct Ho as [Ho|(n & -> & Ha)]; [by left|]. right. exists n. split_and!; [done| |done|].
  + destruct Ha as (Hn & _). unfold INDEX_16M in Hn. pose proof (page_adrs_pos n). 
    unfold MEMPOOL_ADRS in *. lia.
  + intros s Hok. rewrite (same_space_sval _ _ _ Hs). intros Eq.
    assert (sval st s <> 0) as Hv.
    { rewrite Eq. destruct Ha as (Hn & _). unfold INDEX_16M in Hn.
      pose proof (page_adrs_pos n). unfold MEMPOOL_ADRS in *. lia. }
    destruct (owned_page _ _ _ _ H3 s Hok Hv) as (k & Hk & Ek & Hown).
    unfold sval in Eq. rewrite Ek in Eq. apply page_adrs_inj in Eq as ->.
    destruct Ha as (_ & [Hm|Hm] & _); by rewrite Hown in Hm.
Qed.

(** ** Growing address spaces *)

(** [st'] extends [st]: slots that held a page keep it, only the slots of
    [path] may have been filled, no byte of a mapped page or below the pool
    has changed, and newly allocated pages are in slots of [path]. *)
Record grows (path : slot -> Prop) st st' : Prop := Grows {
  gr_old s : slot_ok s -> sval st s <> 0 -> sval st' s = sval st s;
  gr_other s : slot_ok s -> ~ path s -> sval st' s = sval st s;
  gr_leaf p i j x : slot_ok (SPage p i j) -> sval st (SPage p i j) <> 0 ->
    in_page (sval st (SPage p i j)) x -> rd8 (pmem st') x = rd8 (pmem st) x;
  gr_low x : x < MEMPOOL_ADRS -> rd8 (pmem st') x = rd8 (pmem st) x;
  gr_tp : totalpages st' = totalpages st;
  gr_alloc k : memmap_at st k = ALLOCATED -> memmap_at st' k = ALLOCATED;
  gr_acct k : page_adrs k <> 0 -> memmap_at st' k = ALLOCATED -> memmap_at st k = ALLOCATED \/
    exists s, slot_ok s /\ path s /\ sval st' s = page_adrs k
}.

Lemma grows_refl path st : grows path st st.
Proof. by split; auto. Qed.

Lemma page_adrs_nz k : 0 <= k -> page_adrs k <> 0.
Proof. unfold page_adrs, MEMPOOL_ADRS. lia. Qed.

Lemma memmap_alloc_nonneg (st : pager Sg) s k : inv st ->
  slot_ok s -> sval st s = page_adrs k -> page_adrs k <> 0 -> 0 <= k < totalpages st.
Proof.
intros [_ _ Ho] Hs E Hz. destruct (owned_page _ _ _ _ Ho s Hs) as (n & Hn & En & _).
- unfold sval in E. congruence.
- unfold sval in E. rewrite E in En. apply page_adrs_inj in En. lia.
Qed.

Lemma grows_trans path st1 st2 st3 :
  grows path st1 st2 -> grows path st2 st3 -> grows path st1 st3.
Proof.
intros [a1 a2 a3 a4 a5 a6 a7] [b1 b2 b3 b4 b5 b6 b7]. split.
- intros s Hs Hv. rewrite b1; [by apply a1|done|by rewrite a1].
- intros s Hs Hp. rewrite b2 by done. by apply a2.
- intros p i j x Hs Hv Hx. pose proof (a1 _ Hs Hv) as E.
  rewrite (b3 p i j) by (rewrite ?E; done). by eapply a3.
- intros x Hx. rewrite b4 by done. by apply a4.
- congruence.
- auto.
- intros k Hz Hk. destruct (b7 k Hz Hk) as [H|?]; [|by right].
  destruct (a7 k Hz H) as [?|(s & Hs & Hp & E)]; [by left|]. right. exists s. split_and!; try done.
  rewrite b1; [done|done|by rewrite E].
Qed.

Lemma grows_weaken (path path' : slot -> Prop) st st' :
  (forall s, path s -> path' s) -> grows path st st' -> grows path' st st'.
Proof.
intros Hp [a1 a2 a3 a4 a5 a6 a7]. split; auto.
intros k Hz Hk. destruct (a7 k Hz Hk) as [?|(s & ? & ? & ?)]; eauto 6.
Qed.

(** A page map change without slots, as a search that fails makes. *)
Lemma resv_grows path st st' : same_space st st' -> resv st st' -> grows path st st'.
Proof.
intros Hs Hr. split; intros.
- by apply same_space_sval.
- by apply same_space_sval.
- by destruct Hs as (-> & _).
- by destruct Hs as (-> & _).
- by destruct Hs as (_ & _ & -> & _).
- by eapply resv_allocated.
- left. destruct (Hr k) as [<-|[_ E]]; [done|]. by rewrite E in *.
Qed.

Lemma parent_page st s : inv st -> slot_ok s -> parent_val (pmem st) (plink st) s <> 0 ->
  forall s1, parent_slot s = Some s1 ->
  slot_ok s1 /\ exists k, 0 <= k < totalpages st /\
    parent_val (pmem st) (plink st) s = page_adrs k /\ sval st s1 = page_adrs k.
Proof.
intros [_ _ Ho] Hs Hp s1 E. destruct (parent_slot_ok _ _ E Hs) as [H1 _]. split; [done|].
rewrite (parent_slot_val _ _ E) in *. destruct (owned_page _ _ _ _ Ho s1 H1 Hp) as (k & ? & ? & _).
by exists k.
Qed.

(** Allocating a page and entering it into an empty slot. *)
Lemma link_step st st1 st2 s n :
  inv st -> same_space st st1 -> inv st1 -> allocs st st1 n ->
  (forall s', slot_ok s' -> sval st1 s' <> page_adrs n) ->
  slot_ok s -> sval st s = 0 -> parent_val (pmem st) (plink st) s <> 0 ->
  pmem st2 = link_mem (pmem st) (plink st) s (page_adrs n) ->
  (forall p, plink st2 p = link_link (plink st) s (page_adrs n) p) ->
  memmap st2 = memmap st1 -> index st2 = index st1 -> totalpages st2 = totalpages st1 ->
  inv st2 /\ grows (eq s) st st2 /\ sval st2 s = page_adrs n.
Proof.
intros Hinv Hs1 Hinv1 Ha Hf Hok Hz Hpar Em El Emm Eix Etp.
assert (totalpages st1 = totalpages st) as Et by apply Hs1.
assert (linkable (pmem st) (plink st) (totalpages st) (fun k => memmap_at st k = ALLOCATED) s n)
  as L.
{ split; try done.
  - apply Hinv.
  - destruct Ha as (Hn & _). unfold INDEX_16M in Hn. lia.
  - apply Hinv.
  - intros s' Hs'. specialize (Hf s' Hs'). by rewrite (same_space_sval _ _ _ Hs1) in Hf. }
assert (forall s', slot_ok s' -> sval st2 s' = if decide (s' = s) then page_adrs n else sval st s')
  as Hvals.
{ intros s' Hs'. unfold sval at 1.
  rewrite (slot_val_ext (link_mem (pmem st) (plink st) s (page_adrs n)) (pmem st2)
    (link_link (plink st) s (page_adrs n)) (plink st2)) by done.
  by apply (link_vals s n s' L). }
assert (forall k, memmap_at st2 k = memmap_at st1 k) as Hmm by (intros; unfold memmap_at; by rewrite Emm).
pose proof (link_adrs_range _ _ L) as Hrange.
assert (0 <= n) by (destruct Ha as (Hn & _); unfold INDEX_16M in Hn; lia).
split_and!.
- split.
  + rewrite Etp, Et. apply Hinv.
  + rewrite Etp, Eix. apply Hinv1.
  + rewrite Em. eapply owned_ext; [exact El|intros k Hk; exact Hk|].
    rewrite Etp, Et. apply (link_owned _ _ _ L).
    * rewrite Hmm. apply Ha.
    * intros k Hk. rewrite Hmm. by eapply allocs_allocated.
- assert (forall x, rd8 (pmem st2) x <> rd8 (pmem st) x -> in_page (page_adrs n) x \/
    exists s1, parent_slot s = Some s1 /\ in_page (sval st s1) x) as Hmem.
  { intros x Hx. rewrite Em in Hx. destruct (decide (in_page (page_adrs n) x)); [by left|].
    destruct (decide (link_at (m := pmem st) (link := plink st) s (page_adrs n) <= x <
      link_at (m := pmem st) (link := plink st) s (page_adrs n) + 4)) as [Hin|Hin];
      [|by rewrite link_same_out in Hx]. right.
    destruct s as [p|p i|p i j]; cbn [link_at slot_ok] in *.
    - unfold in_page in *. lia.
    - exists (SDir p). split; [done|]. unfold in_page. cbn [sval slot_val]. unfold sval. cbn. lia.
    - exists (STab p i). split; [done|]. unfold in_page. unfold sval. cbn [slot_val]. lia. }
  assert (forall x y, {x = y} + {x <> y :> Z}) as Hdec by apply Z.eq_dec.
  split.
  + intros s' Hs' Hv. rewrite Hvals by done. case_decide; [congruence|done].
  + intros s' Hs' Hp. rewrite Hvals by done. case_decide; [by subst|done].
  + intros p i j x Hs' Hv Hx. destruct (Hdec (rd8 (pmem st2) x) (rd8 (pmem st) x)) as [E|E]; [done|].
    exfalso. destruct (owned_page _ _ _ _ (inv_own _ Hinv) _ Hs' Hv) as (k & Hk & Ek & Hown).
    unfold sval in Hx, Hv. rewrite Ek in Hx.
    destruct (Hmem x E) as [Hn|(s1 & Hp1 & Hin)].
    * assert (k <> n) as Hne by (intros ->; destruct Ha as (_ & [E1|E1] & _); by rewrite E1 in Hown).
      unfold in_page in *. pose proof (pages_apart k n Hne). lia.
    * destruct (parent_page st s Hinv Hok Hpar s1 Hp1) as (Ho1 & k1 & Hk1 & _ & E1).
      assert (k1 <> k) as Hne.
      { intros ->. assert (s1 = SPage p i j); [|subst; destruct s; done].
        apply (owned_inj _ _ _ _ (inv_own _ Hinv)); try done.
        - unfold sval in E1. rewrite E1. apply page_adrs_nz. lia.
        - unfold sval in E1. congruence. }
      rewrite E1 in Hin. unfold in_page in *. pose proof (pages_apart k k1 ltac:(done)). lia.
  + intros x Hx. destruct (Hdec (rd8 (pmem st2) x) (rd8 (pmem st) x)) as [E|E]; [done|].
    exfalso. destruct (Hmem x E) as [Hn|(s1 & Hp1 & Hin)].
    * unfold in_page in Hn. pose proof (page_adrs_pos n). lia.
    * destruct (parent_page st s Hinv Hok Hpar s1 Hp1) as (Ho1 & k1 & Hk1 & _ & E1).
      rewrite E1 in Hin. unfold in_page in Hin. pose proof (page_adrs_pos k1). lia.
  + congruence.
  + intros k Hk. rewrite Hmm. by eapply allocs_allocated.
  + intros k Hzk Hk. rewrite Hmm in Hk. destruct (decide (k = n)) as [->|Hne].
    * right. exists s. split_and!; [done..|]. rewrite Hvals by done. by rewrite decide_True.
    * left. destruct Ha as (_ & _ & _ & Hother). destruct (Hother k Hne) as [<-|[_ E]]; [done|].
      by rewrite E in Hk.
- rewrite Hvals by done. by rewrite decide_True.
Qed.

(** ** [get_targetpage] *)

Lemma sval_tab st p i : plink st p <> 0 -> sval st (STab p i) = pte (pmem st) (plink st p) i.
Proof. intros H. unfold sval, slot_val, tab_val, dir_val. by rewrite decide_False. Qed.

Lemma sval_page st p i j : sval st (STab p i) <> 0 ->
  sval st (SPage p i j) = pte (pmem st) (sval st (STab p i)) j.
Proof. intros H. unfold sval, slot_val, page_val in *. by rewrite decide_False. Qed.

Lemma entry_adrs st n i : inv st -> 0 <= n < totalpages st -> 0 <= i < 1024 ->
  padd (page_adrs n) (4 * i) = page_adrs n + 4 * i.
Proof.
intros Hinv Hn Hi. pose proof (page_adrs_range _ n (proj2 (inv_tp _ Hinv)) Hn).
apply padd_small. lia.
Qed.

Lemma entry_get_go st n i : inv st -> 0 <= n < totalpages st -> 0 <= i < 1024 ->
  entry_get (page_adrs n) i st = (Go (pte (pmem st) (page_adrs n) i), st).
Proof.
intros Hinv Hn Hi. unfold entry_get, cgets, pte, ld32. rewrite (entry_adrs st) by done.
by rewrite GBIT32_ld.
Qed.

Lemma entry_set_go st n i v : inv st -> 0 <= n < totalpages st -> 0 <= i < 1024 ->
  entry_set (page_adrs n) i v st =
    (Go tt, set_mem (fun m => st32 m (page_adrs n + 4 * i) v) st).
Proof. intros Hinv Hn Hi. unfold entry_set, cmodify. by rewrite (entry_adrs st). Qed.

Lemma in_mproc_true p : 0 <= p < NR_PROCS -> in_mproc p = true.
Proof. unfold in_mproc. intros. apply andb_true_iff. split; [apply Z.leb_le|apply Z.ltb_lt]; lia. Qed.

Lemma pagelink_get_go st p : 0 <= p < NR_PROCS -> pagelink_get p st = (Go (plink st p), st).
Proof. intros H. unfold pagelink_get. by rewrite in_mproc_true. Qed.

Lemma pagelink_set_go st p v : 0 <= p < NR_PROCS ->
  pagelink_set p v st = (Go tt, set_mproc (<[p := Mproc v (pages (mproc_at st p))]>) st).
Proof. intros H. unfold pagelink_set. by rewrite in_mproc_true. Qed.

Lemma pages_set_go st p f : 0 <= p < NR_PROCS ->
  pages_set p f st = (Go tt,
    set_mproc (<[p := Mproc (plink st p) (s32 (f (pages (mproc_at st p))))]>) st).
Proof. intros H. unfold pages_set. by rewrite in_mproc_true. Qed.

Lemma plink_set st p v k q :
  plink (set_mproc (<[p := Mproc v k]>) st) q = if decide (q = p) then v else plink st q.
Proof.
unfold plink, mproc_at, set_mproc; cbn. case_decide as H.
- subst. by rewrite lookup_insert_eq.
- by rewrite lookup_insert_ne.
Qed.

Lemma va_dir va : 0 <= va < 2 ^ 32 -> 0 <= Z.shiftr va 22 < 1024.
Proof.
intros H. rewrite Z.shiftr_div_pow2 by lia. change (2 ^ 22) with 4194304.
split; [apply Z.div_pos; lia|apply Z.div_lt_upper_bound; lia].
Qed.

Lemma land_ones_range x : 0 <= Z.land x 0x3ff < 1024.
Proof. change 0x3ff with (Z.ones 10). rewrite Z.land_ones by lia. apply Z.mod_pos_bound. lia. Qed.

(** What one level of [get_targetpage] does for the slot [s]. *)
Definition ensured (s : slot) st (r : ctl Z Z) st' : Prop :=
  inv st' /\ grows (eq s) st st' /\ (sval st s <> 0 -> st' = st /\ r = Go (sval st s)) /\
  ((r = Ret 0 /\ no_free st') \/ (r = Go (sval st' s) /\ sval st' s <> 0)).

Lemma no_free_resv st st' : same_space st st' -> resv st st' -> no_free st -> no_free st'.
Proof.
intros Hs Hr Hf k Hk. assert (totalpages st' = totalpages st) as Et by apply Hs. rewrite Et in Hk.
destruct (Hr k) as [->|[_ ->]]; [by apply Hf|done].
Qed.

Lemma target_dir_spec p st : inv st -> 0 <= p < NR_PROCS ->
  exists r st', target_dir sigma0 p st = (r, st') /\ ensured (SDir p) st r st'.
Proof.
intros Hinv Hp. unfold target_dir.
rewrite (cbind_go _ _ _ _ _ (pagelink_get_go st p Hp)). case_decide as Hz.
- destruct (alloc_page_inv p st Hinv) as (a & st1 & E & Hs & Hinv1 & Ho).
  rewrite (cbind_go _ _ _ _ _ E). destruct Ho as [(-> & Hr & Hf)|(n & -> & Hnz & Ha & Hfr)].
  + exists (Ret 0), st1. split; [done|]. split_and!; [done|by apply resv_grows|done|].
    left. split; [done|]. by eapply no_free_resv.
  + rewrite decide_True by done. rewrite (cbind_go _ _ _ _ _ (pagelink_set_go st1 p _ Hp)).
    unfold pages_inc. rewrite (cbind_go _ _ _ _ _ (pages_set_go _ p _ Hp)).
    eexists _, _. split; [reflexivity|].
    match goal with |- ensured _ _ _ ?s2 => destruct (link_step st st1 s2 (SDir p) n Hinv Hs Hinv1 Ha Hfr Hp Hz ltac:(done))
      as (I & G & V) end; [| |reflexivity..|].
    * destruct Hs as (Hm & _). cbn [pmem set_mem set_mproc link_mem]. by rewrite Hm.
    * intros q. cbn [link_link]. change (plink (set_mem ?f ?s) q) with (plink s q).
      rewrite !plink_set. repeat case_decide; try done. by apply plink_mproc, Hs.
    * split_and!; [done|done|done|]. right. rewrite V. done.
- exists (Go (plink st p)), st. split; [done|]. split_and!; [done|apply grows_refl|done|].
  right. done.
Qed.

Lemma target_table_spec p va st : inv st -> 0 <= p < NR_PROCS -> 0 <= va < 2 ^ 32 ->
  sval st (SDir p) <> 0 ->
  exists r st', target_table sigma0 p (sval st (SDir p)) va st = (r, st') /\
    ensured (STab p (Z.shiftr va 22)) st r st'.
Proof.
intros Hinv Hp Hva Hd. pose proof (va_dir va Hva) as Hi. set (i := Z.shiftr va 22) in *.
assert (parent_val (pmem st) (plink st) (STab p i) <> 0) as Hpar by exact Hd.
destruct (owned_page _ _ _ _ (inv_own _ Hinv) (SDir p) Hp Hd) as (d & Hdr & Ed & _).
fold (sval st (SDir p)) in Ed. pose proof (sval_tab st p i Hd) as Et.
change (plink st p) with (sval st (SDir p)) in Et. rewrite Ed in *.
unfold target_table. fold i. rewrite (cbind_go _ _ _ _ _ (entry_get_go st d i Hinv Hdr Hi)).
rewrite <- Et. case_decide as Hz.
- destruct (alloc_page_inv p st Hinv) as (a & st1 & E & Hs & Hinv1 & Ho).
  rewrite (cbind_go _ _ _ _ _ E). destruct Ho as [(-> & Hr & Hf)|(n & -> & Hnz & Ha & Hfr)].
  + exists (Ret 0), st1. split; [done|]. split_and!; [done|by apply resv_grows|done|].
    left. split; [done|]. by eapply no_free_resv.
  + rewrite decide_True by done. assert (totalpages st1 = totalpages st) as Etp by apply Hs.
    rewrite (cbind_go _ _ _ _ _ (entry_set_go st1 d i (page_adrs n) Hinv1 ltac:(lia) Hi)).
    unfold pages_inc. rewrite (cbind_go _ _ _ _ _ (pages_set_go _ p _ Hp)).
    eexists _, _. split; [reflexivity|].
    match goal with |- ensured _ _ _ ?s2 => destruct (link_step st st1 s2 (STab p i) n Hinv Hs Hinv1 Ha Hfr (conj Hp Hi) Hz Hpar)
      as (I & G & V) end; [| |reflexivity..|].
    * destruct Hs as (Hm & _). cbn [pmem set_mem set_mproc link_mem]. rewrite Hm.
      change (dir_val (plink st) p) with (sval st (SDir p)). rewrite Ed. reflexivity.
    * intros q. cbn [link_link]. change (plink (set_mem ?f ?s) q) with (plink s q).
      rewrite !plink_set. change (plink (set_mem ?f ?s) ?q) with (plink s q).
      case_decide; subst; by apply plink_mproc, Hs.
    * split_and!; [done|done|done|]. right. rewrite V. done.
- eexists _, st. split; [reflexivity|]. split_and!; [done|apply grows_refl|done|by right].
Qed.

Lemma target_page_spec p va st : inv st -> 0 <= p < NR_PROCS -> 0 <= va < 2 ^ 32 ->
  sval st (STab p (Z.shiftr va 22)) <> 0 ->
  exists r st', target_page sigma0 p (sval st (STab p (Z.shiftr va 22))) va st = (r, st') /\
    ensured (SPage p (Z.shiftr va 22) (Z.land (Z.shiftr va 12) 0x3ff)) st r st'.
Proof.
intros Hinv Hp Hva Hd. pose proof (va_dir va Hva) as Hi. set (i := Z.shiftr va 22) in *.
pose proof (land_ones_range (Z.shiftr va 12)) as Hj. set (j := Z.land (Z.shiftr va 12) 0x3ff) in *.
assert (parent_val (pmem st) (plink st) (SPage p i j) <> 0) as Hpar by exact Hd.
destruct (owned_page _ _ _ _ (inv_own _ Hinv) (STab p i) (conj Hp Hi) Hd) as (d & Hdr & Ed & _).
fold (sval st (STab p i)) in Ed. pose proof (sval_page st p i j Hd) as Et. rewrite Ed in *.
unfold target_page. fold j. rewrite (cbind_go _ _ _ _ _ (entry_get_go st d j Hinv Hdr Hj)).
rewrite <- Et. case_decide as Hz.
- destruct (alloc_page_inv p st Hinv) as (a & st1 & E & Hs & Hinv1 & Ho).
  rewrite (cbind_go _ _ _ _ _ E). destruct Ho as [(-> & Hr & Hf)|(n & -> & Hnz & Ha & Hfr)].
  + exists (Ret 0), st1. split; [done|]. split_and!; [done|by apply resv_grows|done|].
    left. split; [done|]. by eapply no_free_resv.
  + rewrite decide_True by done. assert (totalpages st1 = totalpages st) as Etp by apply Hs.
    rewrite (cbind_go _ _ _ _ _ (entry_set_go st1 d j (page_adrs n) Hinv1 ltac:(lia) Hj)).
    unfold pages_inc. rewrite (cbind_go _ _ _ _ _ (pages_set_go _ p _ Hp)).
    eexists _, _. split; [reflexivity|].
    match goal with |- ensured _ _ _ ?s2 => destruct (link_step st st1 s2 (SPage p i j) n Hinv Hs Hinv1 Ha Hfr (conj Hp (conj Hi Hj)) Hz Hpar)
      as (I & G & V) end; [| |reflexivity..|].
    * destruct Hs as (Hm & _). cbn [pmem set_mem set_mproc link_mem]. rewrite Hm.
      change (tab_val (pmem st) (plink st) p i) with (sval st (STab p i)). rewrite Ed. reflexivity.
    * intros q. cbn [link_link]. rewrite !plink_set.
      change (plink (set_mem ?f ?s) ?q) with (plink s q).
      case_decide; subst; by apply plink_mproc, Hs.
    * split_and!; [done|done|done|]. right. rewrite V. done.
- eexists _, st. split; [reflexivity|]. split_and!; [done|apply grows_refl|done|by right].
Qed.

(** The slots on the way to the address [va]. *)
Definition on_path (p va : Z) (s : slot) : Prop :=
  s = SDir p \/ s = STab p (Z.shiftr va 22) \/
  s = SPage p (Z.shiftr va 22) (Z.land (Z.shiftr va 12) 0x3ff).

Lemma get_targetpage_spec p va st : inv st -> 0 <= p < NR_PROCS -> 0 <= va < 2 ^ 32 ->
  exists v st', get_targetpage sigma0 p va st = (Go v, st') /\
    inv st' /\ grows (on_path p va) st st' /\
    ((v = 0 /\ no_free st') \/ (v <> 0 /\ v = trans st' p va)) /\
    (trans st p va <> 0 -> st' = st /\ v = trans st p va).
Proof.
intros Hinv Hp Hva. unfold get_targetpage, ccall.
assert (trans st p va <> 0 -> sval st (STab p (Z.shiftr va 22)) <> 0) as Ht.
{ unfold trans, sval. cbn [slot_val]. unfold page_val. by case_decide. }
assert (sval st (STab p (Z.shiftr va 22)) <> 0 -> sval st (SDir p) <> 0) as Hd.
{ unfold sval. cbn [slot_val]. unfold tab_val. by case_decide. }
destruct (target_dir_spec p st Hinv Hp) as (r1 & st1 & E1 & I1 & G1 & S1 & O1).
assert (grows (on_path p va) st st1) as G1' by (eapply grows_weaken; [|exact G1]; intros ? <-; by left).
destruct O1 as [(-> & F)|(-> & V1)].
{ rewrite (cbind_ret _ _ _ _ _ E1). exists 0, st1. split_and!; try done; [by left|].
  intros Hv. by destruct (S1 (Hd (Ht Hv))). }
rewrite (cbind_go _ _ _ _ _ E1).
destruct (target_table_spec p va st1 I1 Hp Hva V1) as (r2 & st2 & E2 & I2 & G2 & S2 & O2).
assert (grows (on_path p va) st st2) as G2'.
{ eapply grows_trans; [exact G1'|]. eapply grows_weaken; [|exact G2]. intros ? <-. right. by left. }
destruct O2 as [(-> & F)|(-> & V2)].
{ rewrite (cbind_ret _ _ _ _ _ E2). exists 0, st2. split_and!; try done; [by left|].
  intros Hv. destruct (S1 (Hd (Ht Hv))) as [-> _]. by destruct (S2 (Ht Hv)). }
rewrite (cbind_go _ _ _ _ _ E2).
destruct (target_page_spec p va st2 I2 Hp Hva V2) as (r3 & st3 & E3 & I3 & G3 & S3 & O3).
assert (grows (on_path p va) st st3) as G3'.
{ eapply grows_trans; [exact G2'|]. eapply grows_weaken; [|exact G3]. intros ? <-. right. by right. }
assert (trans st p va <> 0 -> st3 = st /\ r3 = Go (trans st p va)) as Hsame.
{ intros Hv. destruct (S1 (Hd (Ht Hv))) as [-> _]. destruct (S2 (Ht Hv)) as [-> _].
  by apply S3. }
destruct O3 as [(-> & F)|(-> & V3)].
- rewrite (cbind_ret _ _ _ _ _ E3). exists 0, st3. split_and!; try done; [by left|].
  intros Hv. by destruct (Hsame Hv).
- rewrite (cbind_go _ _ _ _ _ E3). eexists _, st3. split; [reflexivity|]. split_and!; try done.
  + by right.
  + intros Hv. by destruct (Hsame Hv) as [-> _].
Qed.

End Alloc.

(** ** Virtual memory *)

Definition va_i (va : Z) : Z := va / 4194304.
Definition va_j (va : Z) : Z := (va / 4096) mod 1024.
Definition va_o (va : Z) : Z := va mod 4096.
Definition va_slot (p va : Z) : slot := SPage p (va_i va) (va_j va).

Lemma va_slot_eq p va : SPage p (Z.shiftr va 22) (Z.land (Z.shiftr va 12) 0x3ff) = va_slot p va.
Proof.
unfold va_slot, va_i, va_j. rewrite !Z.shiftr_div_pow2 by lia.
change 0x3ff with (Z.ones 10). by rewrite Z.land_ones by lia.
Qed.

Lemma va_o_land va : Z.land va 0xfff = va_o va.
Proof. change 0xfff with (Z.ones 12). by rewrite Z.land_ones by lia. Qed.

Lemma va_slot_ok p va : 0 <= p < NR_PROCS -> 0 <= va < 2 ^ 32 -> slot_ok (va_slot p va).
Proof.
intros Hp Hva. cbn. unfold va_i, va_j. change (2 ^ 32) with 4294967296 in Hva.
split; [done|]. Z.div_mod_to_equations. lia.
Qed.

Lemma va_o_range va : 0 <= va_o va < 4096.
Proof. apply Z.mod_pos_bound. lia. Qed.

Lemma va_same_page va k : 0 <= k -> va_o va + k < 4096 ->
  va_i (va + k) = va_i va /\ va_j (va + k) = va_j va /\ va_o (va + k) = va_o va + k.
Proof.
unfold va_i, va_j, va_o. intros. assert ((va + k) / 4096 = va / 4096) as E by
  (Z.div_mod_to_equations; lia).
split_and!.
- change 4194304 with (4096 * 1024). by rewrite <- !Z.div_div, E by lia.
- by rewrite E.
- Z.div_mod_to_equations. lia.
Qed.

Lemma va_inj x y : va_i x = va_i y -> va_j x = va_j y -> va_o x = va_o y -> x = y.
Proof. unfold va_i, va_j, va_o. intros. Z.div_mod_to_equations. lia. Qed.

Definition in_task (q x : Z) : Prop := 0 <= q < NR_PROCS /\ 0 <= x < 2 ^ 32.

Lemma va_o_next va : in_task 0 va -> va_o va = 0 -> va + 4096 < 2 ^ 32 -> va_o (va + 4096) = 0.
Proof. unfold va_o. intros _ H _. Z.div_mod_to_equations. lia. Qed.

Section Virtual.
Context {Sg : Type}.
Variable sigma0 : list Z -> Z -> Sg -> option (list Z) * Sg.
Implicit Types st : pager Sg.

Lemma trans_slot st p va : trans st p va = sval st (va_slot p va).
Proof. unfold trans. by rewrite va_slot_eq. Qed.

(** The byte at the address [va] of process [p]. *)
Definition vread st (p va : Z) : option Z :=
  if decide (trans st p va = 0) then None else Some (rd8 (pmem st) (trans st p va + va_o va)).

(** [st'] is [st] with the bytes [f] at the addresses [va, va + n) of [p]; no
    other mapped byte has changed. *)
Record wrote (p va n : Z) (f : Z -> Z) st st' : Prop := Wrote {
  wr_inv : inv st';
  wr_bytes k : 0 <= k < n -> vread st' p (va + k) = Some (f k);
  wr_other q x b : in_task q x -> vread st q x = Some b ->
    (q <> p \/ ~ va <= x < va + n) -> vread st' q x = Some b;
  wr_mapped q x : in_task q x -> trans st q x <> 0 -> trans st' q x = trans st q x;
  wr_low x : x < MEMPOOL_ADRS -> rd8 (pmem st') x = rd8 (pmem st) x;
  wr_tp : totalpages st' = totalpages st
}.

Lemma grows_vread path st st' q x b : grows path st st' -> in_task q x ->
  vread st q x = Some b -> vread st' q x = Some b.
Proof.
intros G [Hq Hx]. unfold vread. rewrite !trans_slot. pose proof (va_slot_ok q x Hq Hx) as Hok.
case_decide as Hz; [done|]. rewrite (gr_old _ _ _ G _ Hok Hz). rewrite decide_False by done.
intros [= <-]. f_equal. eapply (gr_leaf _ _ _ G); [exact Hok|exact Hz|].
change (in_page (sval st (va_slot q x)) (sval st (va_slot q x) + va_o x)).
unfold in_page. pose proof (va_o_range x). lia.
Qed.

Lemma grows_wrote p va f path st st' : inv st' -> grows path st st' -> wrote p va 0 f st st'.
Proof.
intros Hinv G. split; try done.
- lia.
- intros q x b Ht Hv _. by eapply grows_vread.
- intros q x [Hq Hx]. rewrite !trans_slot. apply (gr_old _ _ _ G). by apply va_slot_ok.
- apply (gr_low _ _ _ G).
- apply (gr_tp _ _ _ G).
Qed.

Lemma wrote_app p va n1 n2 f st st1 st2 : 0 <= n1 -> 0 <= n2 ->
  in_task p va -> va + n1 + n2 <= 2 ^ 32 ->
  wrote p va n1 f st st1 -> wrote p (va + n1) n2 (fun k => f (n1 + k)) st1 st2 ->
  wrote p va (n1 + n2) f st st2.
Proof.
intros H1 H2 Hp Hend [a1 a2 a3 a6 a4 a5] [b1 b2 b3 b6 b4 b5]. split; try done.
- intros k Hk. destruct (decide (k < n1)).
  + apply b3; [destruct Hp; split; lia|apply a2; lia|lia].
  + specialize (b2 (k - n1) ltac:(lia)). replace (va + k) with (va + n1 + (k - n1)) by lia. rewrite b2. f_equal. f_equal. lia.
- intros q x b Ht Hv Hne. apply b3; [done|apply a3; [done|done|lia]|lia].
- intros q x Ht Hv. rewrite b6; [by apply a6|done|by rewrite a6].
- intros x Hx. rewrite b4 by done. by apply a4.
- congruence.
Qed.

(** Changing bytes outside directories and tables keeps slots and invariant. *)
Lemma set_mem_slots st m' : inv st ->
  (forall x, rd8 m' x <> rd8 (pmem st) x -> x < MEMPOOL_ADRS \/
     exists p i j, slot_ok (SPage p i j) /\ sval st (SPage p i j) <> 0 /\
       in_page (sval st (SPage p i j)) x) ->
  inv (set_mem (fun _ => m') st) /\
  forall s, slot_ok s -> sval (set_mem (fun _ => m') st) s = sval st s.
Proof.
intros Hinv Hm.
assert (forall s1 i, slot_ok s1 -> (forall p i j, s1 <> SPage p i j) -> sval st s1 <> 0 ->
  0 <= i < 1024 -> pte m' (sval st s1) i = pte (pmem st) (sval st s1) i) as Hpte.
{ intros s1 i H1 Hnl Hz Hi. unfold pte, val. f_equal. apply ld_bytes_ext. intros x Hx.
  destruct (owned_page _ _ _ _ (inv_own _ Hinv) s1 H1 Hz) as (k & Hk & Ek & _).
  fold (sval st s1) in Ek. rewrite Ek in Hx.
  destruct (Z.eq_dec (rd8 m' x) (rd8 (pmem st) x)) as [E|E]; [done|]. exfalso.
  pose proof (page_adrs_pos k). destruct (Hm x E) as [Hl|(q & i' & j' & Hok & Hv & Hin)]; [lia|].
  destruct (owned_page _ _ _ _ (inv_own _ Hinv) _ Hok Hv) as (k' & Hk' & Ek' & _).
  fold (sval st (SPage q i' j')) in Ek'. rewrite Ek' in Hin. unfold in_page in Hin.
  destruct (decide (k' = k)) as [->|Hne].
  - apply (Hnl q i' j'). apply (owned_inj _ _ _ _ (inv_own _ Hinv)); try done.
    unfold sval in *. congruence.
  - pose proof (pages_apart k' k Hne). lia. }
assert (forall s, slot_ok s -> sval (set_mem (fun _ => m') st) s = sval st s) as Hval.
{ assert (forall p, sval (set_mem (fun _ => m') st) (SDir p) = sval st (SDir p)) as Hd by done.
  assert (forall p i, slot_ok (STab p i) ->
    sval (set_mem (fun _ => m') st) (STab p i) = sval st (STab p i)) as Ht.
  { intros p i Ho. cbn in Ho. unfold sval at 1 2. cbn [slot_val]. unfold tab_val.
    change (dir_val (plink (set_mem (fun _ => m') st)) p) with (sval st (SDir p)).
    change (dir_val (plink st) p) with (sval st (SDir p)). case_decide; [done|].
    apply (Hpte (SDir p)); cbn; done || lia. }
  intros [p|p i|p i j] Ho; [done|by apply Ht|]. cbn in Ho. specialize (Ht p i ltac:(cbn; lia)).
  unfold sval at 1 2. cbn [slot_val]. unfold page_val.
  unfold sval in Ht. cbn [slot_val] in Ht. rewrite Ht.
  change (tab_val (pmem st) (plink st) p i) with (sval st (STab p i)). case_decide; [done|].
  apply (Hpte (STab p i)); cbn; done || lia. }
split; [|exact Hval]. destruct Hinv as [H1 H2 [H3 H4]]. split; [done..|]. split.
- intros s Hs. specialize (Hval s Hs). unfold sval in Hval. rewrite Hval. by apply H3.
- intros s1 s2 Hs1 Hs2. pose proof (Hval s1 Hs1) as E1. pose proof (Hval s2 Hs2) as E2.
  unfold sval in E1, E2. rewrite E1, E2. by apply H4.
Qed.

(** Writing [n] bytes into the page that holds [va]. *)
Lemma put_bytes st p va n f m' :
  inv st -> in_task p va -> 0 <= n -> va_o va + n <= 4096 -> trans st p va <> 0 ->
  same_out (trans st p va + va_o va) (trans st p va + va_o va + n) (pmem st) m' ->
  (forall k, 0 <= k < n -> rd8 m' (trans st p va + va_o va + k) = f k) ->
  wrote p va n f st (set_mem (fun _ => m') st).
Proof.
intros Hinv [Hp Hva] Hn Hfit Hz Hso Hf. pose proof (va_o_range va) as Hvo.
pose proof (va_slot_ok p va Hp Hva) as Hok.
rewrite !trans_slot in *. set (v := sval st (va_slot p va)) in *.
destruct (owned_page _ _ _ _ (inv_own _ Hinv) _ Hok Hz) as (kv & Hkv & Ev & _).
fold (sval st (va_slot p va)) in Ev. fold v in Ev.
assert (forall x, rd8 m' x <> rd8 (pmem st) x -> in_page v x) as Hin.
{ intros x Hx. unfold in_page. destruct (decide (v + va_o va <= x < v + va_o va + n)); [lia|].
  by rewrite Hso in Hx. }
destruct (set_mem_slots st m' Hinv) as [Hinv' Hval].
{ intros x Hx. right. exists p, (va_i va), (va_j va). by auto. }
assert (forall q x, in_task q x -> trans (set_mem (fun _ => m') st) q x = trans st q x) as Htr.
{ intros q x [Hq Hx]. rewrite !trans_slot. apply Hval. by apply va_slot_ok. }
split; try done.
- intros k Hk. destruct (va_same_page va k) as (Ei & Ej & Eo); [lia..|].
  assert (sval st (va_slot p (va + k)) = v) as E by (unfold va_slot; by rewrite Ei, Ej).
  assert (sval (set_mem (fun _ => m') st) (va_slot p (va + k)) = v) as E'.
  { unfold va_slot. rewrite Ei, Ej. by apply Hval. }
  unfold vread. rewrite trans_slot, E'. rewrite decide_False by done. f_equal.
  rewrite Eo. cbn [pmem set_mem]. rewrite Z.add_assoc. by apply Hf.
- intros q x b Ht. unfold vread. rewrite Htr by done. case_decide as Hz'; [done|].
  intros [= <-] Hne. f_equal. cbn [pmem set_mem]. apply Hso. intros Hx.
  destruct Ht as [Hq Hxr]. pose proof (va_slot_ok q x Hq Hxr) as Hok'.
  rewrite trans_slot in Hz', Hx.
  destruct (owned_page _ _ _ _ (inv_own _ Hinv) _ Hok' Hz') as (kx & Hkx & Ex & _).
  fold (sval st (va_slot q x)) in Ex. pose proof (va_o_range x) as Hxo.
  destruct (decide (kx = kv)) as [->|Hd].
  + assert (va_slot q x = va_slot p va) as Es.
    { apply (owned_inj _ _ _ _ (inv_own _ Hinv)); try done. unfold sval in *. subst v. congruence. }
    rewrite Es in Hx. fold v in Hx. unfold va_slot in Es. injection Es as -> Ei Ej.
    destruct Hne as [|Hne]; [done|]. apply Hne.
    destruct (va_same_page va (va_o x - va_o va)) as (Ei' & Ej' & Eo'); [lia..|].
    assert (x = va + (va_o x - va_o va)) as Exx by (apply va_inj; rewrite ?Ei', ?Ej', ?Eo'; lia).
    lia.
  + pose proof (pages_apart kx kv Hd). lia.
- intros q x Ht _. by apply Htr.
- intros x Hx. cbn [pmem set_mem]. apply Hso. pose proof (page_adrs_pos kv). lia.
Qed.

(** ** Copies *)

Lemma memcpy_loop_spec m d s n :
  0 <= d -> 0 <= s -> d + Z.of_nat n < 2 ^ 32 -> s + Z.of_nat n < 2 ^ 32 ->
  same_out d (d + Z.of_nat n) m (memcpy_loop m d s n) /\
  (s + Z.of_nat n <= d \/ d + Z.of_nat n <= s ->
   forall k, 0 <= k < Z.of_nat n -> rd8 (memcpy_loop m d s n) (d + k) = rd8 m (s + k)).
Proof.
revert m d s; induction n as [|n IH]; intros m d s Hd Hs Hdn Hsn; cbn [memcpy_loop].
{ split; [apply same_out_refl|lia]. }
rewrite !padd_small by lia.
destruct (IH (wr8 m d (rd8 m s)) (d + 1) (s + 1)) as [So Hb]; [lia..|].
split.
- etransitivity; [apply (wr8_same_out m d); lia|]. eapply same_out_weaken; [exact So|lia|lia].
- intros Hdis k Hk. destruct (decide (k = 0)) as [->|Hne].
  + rewrite !Z.add_0_r, So, rd8_wr8_eq by lia. unfold rd8. apply u8_u8.
  + replace (d + k) with (d + 1 + (k - 1)) by lia. rewrite Hb by lia.
    rewrite rd8_wr8_ne by lia. f_equal. lia.
Qed.

Lemma memset_bytes m d c n k : 0 <= n -> 0 <= k < n -> rd8 (_memset m d c n) (d + k) = u8 c.
Proof.
intros Hn Hk. pose proof (bytes_at_memset m d c n Hn) as H.
replace (Z.to_nat n) with (Z.to_nat k + Datatypes.S (Z.to_nat (n - k - 1)))%nat in H by lia.
rewrite replicate_add in H. apply bytes_at_app in H as [_ H]. rewrite zlen_replicate in H by lia.
cbn [replicate] in H. by apply bytes_at_cons in H as [H _].
Qed.

(** Looking up the page of [va] and writing [n] bytes [f] into it with [w]. *)
Lemma target_write p va n f (w : Z -> mem -> mem) st :
  inv st -> in_task p va -> 0 <= n -> va_o va + n <= 4096 ->
  (forall a m, MEMPOOL_ADRS <= a -> a + n < 2 ^ 32 ->
     (forall x, x < MEMPOOL_ADRS -> rd8 m x = rd8 (pmem st) x) ->
     same_out a (a + n) m (w a m) /\ forall k, 0 <= k < n -> rd8 (w a m) (a + k) = f k) ->
  exists v st1, get_targetpage sigma0 p va st = (Go v, st1) /\
    ((v = 0 /\ no_free st1 /\ wrote p va 0 f st st1) \/
     (v <> 0 /\ wrote p va n f st (set_mem (w (padd v (va_o va))) st1))).
Proof.
intros Hinv Ht Hn Hfit Hw. destruct (get_targetpage_spec sigma0 p va st Hinv (proj1 Ht) (proj2 Ht))
  as (v & st1 & E & Hinv1 & G & Ho & _).
exists v, st1. split; [done|]. destruct Ho as [(-> & Hf)|(Hz & ->)].
{ left. split_and!; try done. by eapply grows_wrote. }
right. split; [done|].
assert (wrote p va 0 f st st1) as W0 by (by eapply grows_wrote).
replace n with (0 + n) by lia. apply (wrote_app p va 0 n f st st1); [lia|lia|done| |done|].
{ destruct Ht as [_ Hva]. unfold va_o in Hfit. change (2 ^ 32) with 4294967296 in *.
  Z.div_mod_to_equations. lia. }
rewrite Z.add_0_r. change (fun k => f (0 + k)) with (fun k => f k).
pose proof (va_slot_ok p va (proj1 Ht) (proj2 Ht)) as Hok. pose proof (va_o_range va).
rewrite trans_slot in Hz.
destruct (owned_page _ _ _ _ (inv_own _ Hinv1) _ Hok Hz) as (kv & Hkv & Ev & _).
fold (sval st1 (va_slot p va)) in Ev.
pose proof (page_adrs_range _ kv (proj2 (inv_tp _ Hinv1)) Hkv). pose proof (page_adrs_pos kv).
assert (padd (trans st1 p va) (va_o va) = trans st1 p va + va_o va) as Ea.
{ apply padd_small. rewrite trans_slot, Ev. lia. }
destruct (Hw (trans st1 p va + va_o va) (pmem st1)) as [So Hb].
{ rewrite trans_slot, Ev. lia. }
{ rewrite trans_slot, Ev. lia. }
{ apply (wr_low _ _ _ _ _ _ W0). }
rewrite Ea. apply (put_bytes st1 p va n _ (w (trans st1 p va + va_o va) (pmem st1))); try done.
by rewrite trans_slot.
Qed.

Definition low_byte st (a : Z) : Z -> Z := fun k => rd8 (pmem st) (a + k).

Lemma copy_write st a n : 0 <= a -> 0 <= n -> a + n <= MEMPOOL_ADRS ->
  forall d m, MEMPOOL_ADRS <= d -> d + n < 2 ^ 32 ->
  (forall x, x < MEMPOOL_ADRS -> rd8 m x = rd8 (pmem st) x) ->
  same_out d (d + n) m (memcpy m d a n) /\
  forall k, 0 <= k < n -> rd8 (memcpy m d a n) (d + k) = low_byte st a k.
Proof.
intros Ha Hn Hlow d m Hd Hdn Hm. unfold memcpy.
assert (MEMPOOL_ADRS < 2 ^ 32) by done.
destruct (memcpy_loop_spec m d a (Z.to_nat n)) as [So Hb]; rewrite ?Z2Nat.id by lia; try lia.
rewrite Z2Nat.id in So, Hb by lia. split; [done|]. intros k Hk. unfold low_byte.
rewrite Hb by lia. apply Hm. lia.
Qed.

Lemma wrote_ext p va n f g st st' :
  (forall k, 0 <= k < n -> f k = g k) -> wrote p va n f st st' -> wrote p va n g st st'.
Proof.
intros E [a1 a2 a3 a4 a5 a6]. split; try done. intros k Hk. rewrite <- E by done. by apply a2.
Qed.

Lemma wrote_refl p va f st : inv st -> wrote p va 0 f st st.
Proof. intros H. by apply (grows_wrote p va f (fun _ => False)); [|apply grows_refl]. Qed.

(** The page loops of [copy2task] and [set2task]: [r] is the outcome, the
    bytes [f] have been written from [va] on, all of them if it is 1. *)
Definition stored (p va size : Z) (f : Z -> Z) st (r : ctl Z Z) st' : Prop :=
  (r = Go 1 /\ wrote p va size f st st') \/
  (r = Ret 0 /\ no_free st' /\ exists n, 0 <= n <= size /\ wrote p va n f st st').

Lemma stored_step p va n f st st1 size r st2 : 0 <= n -> n <= size ->
  in_task p va -> va + size <= 2 ^ 32 -> wrote p va n f st st1 ->
  stored p (va + n) (size - n) (fun k => f (n + k)) st1 r st2 -> stored p va size f st r st2.
Proof.
intros Hn Hle Ht Hend W [(-> & W2)|(-> & F & k & Hk & W2)].
- left. split; [done|]. replace size with (n + (size - n)) by lia.
  by eapply wrote_app; [lia|lia|done|lia|exact W|].
- right. split_and!; try done. exists (n + k). split; [lia|].
  by eapply wrote_app; [lia|lia|done|lia|exact W|].
Qed.

Lemma stored_ext p va size f g st r st' :
  (forall k, 0 <= k < size -> f k = g k) -> stored p va size f st r st' ->
  stored p va size g st r st'.
Proof.
intros E [(-> & W)|(-> & F & n & Hn & W)].
- left. split; [done|]. by eapply wrote_ext.
- right. split_and!; try done. exists n. split; [done|].
  eapply wrote_ext; [|exact W]. intros k Hk. apply E. lia.
Qed.

(** [target_write] at the start of a page. *)
Lemma page_write p va n f (w : Z -> mem -> mem) st :
  inv st -> in_task p va -> 0 <= n <= 4096 -> va_o va = 0 ->
  (forall a m, MEMPOOL_ADRS <= a -> a + n < 2 ^ 32 ->
     (forall x, x < MEMPOOL_ADRS -> rd8 m x = rd8 (pmem st) x) ->
     same_out a (a + n) m (w a m) /\ forall k, 0 <= k < n -> rd8 (w a m) (a + k) = f k) ->
  exists v st1, get_targetpage sigma0 p va st = (Go v, st1) /\
    ((v = 0 /\ no_free st1 /\ wrote p va 0 f st st1) \/
     (v <> 0 /\ wrote p va n f st (set_mem (w v) st1))).
Proof.
intros Hinv Ht Hn Ho Hw.
destruct (target_write p va n f w st Hinv Ht) as (v & st1 & E & Hv); [lia|lia|done|].
exists v, st1. split; [done|]. destruct Hv as [Hv|(Hv & W)]; [by left|right].
split; [done|]. rewrite Ho in W.
destruct (get_targetpage_spec sigma0 p va st Hinv (proj1 Ht) (proj2 Ht)) as (v' & st' & E' & I' & _ & Hv' & _).
rewrite E in E'. injection E' as <- <-. destruct Hv' as [[? _]|[_ Ev]]; [done|].
rewrite trans_slot in Ev. rewrite Ev in Hv.
destruct (owned_page _ _ _ _ (inv_own _ I') (va_slot p va)) as (k & Hk & Ek & _);
  [by apply va_slot_ok; destruct Ht|done|].
pose proof (page_adrs_range _ k (proj2 (inv_tp _ I')) Hk). fold (sval st1 (va_slot p va)) in Ek.
rewrite Ek in Ev. rewrite padd_small in W by lia. by rewrite Z.add_0_r in W.
Qed.

Lemma copy2task_loop_spec fuel from p to_ size st :
  inv st -> 0 <= p < NR_PROCS -> 0 <= size < 2 ^ 31 -> size <= 4096 * (Z.of_nat fuel - 1) ->
  (0 < size -> in_task p to_) -> to_ + size <= 2 ^ 32 -> va_o to_ = 0 ->
  0 <= from -> from + size <= MEMPOOL_ADRS ->
  exists r st', copy2task_loop sigma0 fuel from p to_ size st = (r, st') /\
    stored p to_ size (low_byte st from) st r st'.
Proof.
revert from to_ size st; induction fuel as [|fuel IH];
  intros from to_ size st Hinv Hp Hsz Hfuel Ht Hend Ho Hfrom Hlow; [lia|].
cbn [copy2task_loop]. case_decide as Hz.
{ exists (Go 1), st. split; [done|]. left. split; [done|]. subst. by apply wrote_refl. }
set (sz := if decide (4096 < size) then 4096 else u32 size).
assert (sz = Z.min size 4096) as Esz by (unfold sz; case_decide; rewrite ?u32_small; lia).
assert (in_task p to_) as Ht' by (apply Ht; lia).
destruct (page_write p to_ sz (low_byte st from)
  (fun a m => memcpy m a from (s32 sz)) st Hinv Ht') as (v & st1 & E & Hv); [lia|done| |].
{ intros a m Ha Ham Hm. rewrite s32_small by lia. apply copy_write; try done; lia. }
rewrite (cbind_go _ _ _ _ _ E). destruct Hv as [(-> & F & W)|(Hv & W)].
{ exists (Ret 0), st1. split; [done|]. right. split_and!; try done. exists 0. split; [lia|done]. }
rewrite decide_False by done. unfold copy_bytes, cmodify, cbind at 1.
set (st2 := set_mem _ st1) in *.
destruct (decide (size = sz)) as [Ee|Ne].
{ rewrite <- Ee. rewrite Z.sub_diag. change (s32 0) with 0.
  destruct fuel as [|fuel']; [lia|]. cbn [copy2task_loop]. rewrite decide_True by done.
  exists (Go 1), st2. split; [done|]. left. split; [done|]. by rewrite Ee. }
assert (sz = 4096) as Ez by lia. rewrite Ez in *. destruct Ht' as [_ Hto].
rewrite s32_small, !padd_small by (unfold MEMPOOL_ADRS in *; lia).
destruct (IH (from + 4096) (to_ + 4096) (size - 4096) st2) as (r & st3 & E3 & S3); try lia.
- apply W.
- intros _. split; [done|lia].
- apply (va_o_next to_); [split; [done|lia]|done|lia].
- exists r, st3. split; [exact E3|].
  eapply (stored_step p to_ 4096); [lia|lia|by split|lia|exact W|].
  eapply stored_ext; [|exact S3]. intros k Hk.
  unfold low_byte. rewrite (wr_low _ _ _ _ _ _ W) by lia. f_equal. lia.
Qed.

Lemma fill_write st c n : 0 <= n -> forall d m, MEMPOOL_ADRS <= d -> d + n < 2 ^ 32 ->
  (forall x, x < MEMPOOL_ADRS -> rd8 m x = rd8 (pmem st) x) ->
  same_out d (d + n) m (_memset m d c n) /\
  forall k, 0 <= k < n -> rd8 (_memset m d c n) (d + k) = u8 c.
Proof.
intros Hn d m _ _ _. split; [apply memset_same_out; lia|]. intros k Hk. by apply memset_bytes.
Qed.

Lemma set2task_loop_spec fuel c p to_ size st :
  inv st -> 0 <= p < NR_PROCS -> 0 <= size < 2 ^ 31 -> size <= 4096 * (Z.of_nat fuel - 1) ->
  (0 < size -> in_task p to_) -> to_ + size <= 2 ^ 32 -> va_o to_ = 0 ->
  exists r st', set2task_loop sigma0 fuel c p to_ size st = (r, st') /\
    stored p to_ size (fun _ => u8 c) st r st'.
Proof.
revert to_ size st; induction fuel as [|fuel IH];
  intros to_ size st Hinv Hp Hsz Hfuel Ht Hend Ho; [lia|].
cbn [set2task_loop]. case_decide as Hz.
{ exists (Go 1), st. split; [done|]. left. split; [done|]. subst. by apply wrote_refl. }
set (sz := if decide (4096 < size) then 4096 else u32 size).
assert (sz = Z.min size 4096) as Esz by (unfold sz; case_decide; rewrite ?u32_small; lia).
assert (in_task p to_) as Ht' by (apply Ht; lia).
destruct (page_write p to_ sz (fun _ => u8 c)
  (fun a m => _memset m a c (s32 sz)) st Hinv Ht') as (v & st1 & E & Hv); [lia|done| |].
{ intros a m Ha Ham Hm. rewrite s32_small by lia. apply (fill_write st); try done; lia. }
rewrite (cbind_go _ _ _ _ _ E). destruct Hv as [(-> & F & W)|(Hv & W)].
{ exists (Ret 0), st1. split; [done|]. right. split_and!; try done. exists 0. split; [lia|done]. }
rewrite decide_False by done. unfold fill_bytes, cmodify, cbind at 1.
set (st2 := set_mem _ st1) in *.
destruct (decide (size = sz)) as [Ee|Ne].
{ rewrite <- Ee. rewrite Z.sub_diag. change (s32 0) with 0.
  destruct fuel as [|fuel']; [lia|]. cbn [set2task_loop]. rewrite decide_True by done.
  exists (Go 1), st2. split; [done|]. left. split; [done|]. by rewrite Ee. }
assert (sz = 4096) as Ez by lia. rewrite Ez in *. destruct Ht' as [_ Hto].
rewrite s32_small, padd_small by lia.
destruct (IH (to_ + 4096) (size - 4096) st2) as (r & st3 & E3 & S3); try lia.
- apply W.
- intros _. split; [done|lia].
- apply (va_o_next to_); [split; [done|lia]|done|lia].
- exists r, st3. split; [exact E3|].
  by eapply (stored_step p to_ 4096); [lia|lia|by split|lia|exact W|].
Qed.

(** The first, partial page, and then the loop. *)
Lemma stored_ret p va size f st r st' : stored p va size f st r st' ->
  exists v, ccall (R := Z) (fun s => (r, st')) st = (Go v, st') /\ (v = 1 \/ v = 0) /\
    (v = 1 -> wrote p va size f st st') /\
    (v = 0 -> no_free st' /\ exists n, 0 <= n <= size /\ wrote p va n f st st').
Proof.
intros [(-> & W)|(-> & F & W)]; eexists; (split; [reflexivity|]); split_and!; auto; done.
Qed.

Lemma copy2task_spec from p to_ size st :
  inv st -> in_task p to_ -> 0 <= size < 2 ^ 31 -> to_ + size <= 2 ^ 32 ->
  0 <= from -> from + size <= MEMPOOL_ADRS ->
  exists v st', copy2task sigma0 from p to_ size st = (Go v, st') /\ (v = 1 \/ v = 0) /\
    (v = 1 -> wrote p to_ size (low_byte st from) st st') /\
    (v = 0 -> no_free st' /\ exists n, 0 <= n <= size /\ wrote p to_ n (low_byte st from) st st').
Proof.
intros Hinv Ht Hsz Hend Hfrom Hlow. unfold copy2task. rewrite va_o_land.
pose proof (va_o_range to_) as Hvo. rewrite u32_small by lia. unfold ccall. case_decide as Hfit.
- destruct (target_write p to_ size (low_byte st from) (fun a m => memcpy m a from size) st Hinv Ht)
    as (v & st1 & E & Hv); [lia|lia|by apply copy_write; lia|].
  rewrite (cbind_go _ _ _ _ _ E). destruct Hv as [(-> & F & W)|(Hv & W)].
  + exists 0, st1. split_and!; [done|by right|done|]. intros _. split; [done|]. exists 0. split; [lia|done].
  + rewrite decide_False by done. eexists 1, _. split; [reflexivity|]. split_and!; [by left|done|done].
- set (n := 4096 - va_o to_) in *.
  destruct (target_write p to_ n (low_byte st from) (fun a m => memcpy m a from n) st Hinv Ht)
    as (v & st1 & E & Hv); [lia|lia|apply copy_write; lia|].
  rewrite (cbind_go _ _ _ _ _ E). destruct Hv as [(-> & F & W)|(Hv & W)].
  + exists 0, st1. split_and!; [done|by right|done|]. intros _. split; [done|]. exists 0. split; [lia|done].
  + rewrite decide_False by done. unfold copy_bytes, cmodify, cbind. set (st2 := set_mem _ st1) in *.
    destruct Ht as [Hp Hto]. rewrite s32_small by lia.
    rewrite !padd_small by (unfold MEMPOOL_ADRS in Hlow; lia).
    destruct (copy2task_loop_spec (p2p_fuel size) (from + n) p (to_ + n) (size - n) st2)
      as (r & st3 & E3 & S3); try lia; try done.
    * apply W.
    * unfold p2p_fuel. rewrite u32_small by lia. Z.div_mod_to_equations. lia.
    * intros _. split; [done|lia].
    * unfold va_o, n. unfold va_o. Z.div_mod_to_equations. lia.
    * assert (stored p to_ size (low_byte st from) st r st3) as S.
      { eapply (stored_step p to_ n); [lia|lia|by split|lia|exact W|].
        eapply stored_ext; [|exact S3]. intros k Hk.
        unfold low_byte. rewrite (wr_low _ _ _ _ _ _ W) by lia. f_equal. lia. }
      destruct (stored_ret _ _ _ _ _ _ _ S) as (v' & Ev & Hr). unfold ccall in Ev.
      exists v', st3. split; [|done]. by rewrite E3.
Qed.

Lemma set2task_spec c p to_ size st :
  inv st -> in_task p to_ -> 0 <= size < 2 ^ 31 -> to_ + size <= 2 ^ 32 ->
  exists v st', set2task sigma0 c p to_ size st = (Go v, st') /\ (v = 1 \/ v = 0) /\
    (v = 1 -> wrote p to_ size (fun _ => u8 c) st st') /\
    (v = 0 -> no_free st' /\ exists n, 0 <= n <= size /\ wrote p to_ n (fun _ => u8 c) st st').
Proof.
intros Hinv Ht Hsz Hend. unfold set2task. rewrite va_o_land.
pose proof (va_o_range to_) as Hvo. rewrite u32_small by lia. unfold ccall. case_decide as Hfit.
- destruct (target_write p to_ size (fun _ => u8 c) (fun a m => _memset m a c size) st Hinv Ht)
    as (v & st1 & E & Hv); [lia|lia|by apply (fill_write st); lia|].
  rewrite (cbind_go _ _ _ _ _ E). destruct Hv as [(-> & F & W)|(Hv & W)].
  + exists 0, st1. split_and!; [done|by right|done|]. intros _. split; [done|]. exists 0. split; [lia|done].
  + rewrite decide_False by done. eexists 1, _. split; [reflexivity|]. split_and!; [by left|done|done].
- set (n := 4096 - va_o to_) in *.
  destruct (target_write p to_ n (fun _ => u8 c) (fun a m => _memset m a c n) st Hinv Ht)
    as (v & st1 & E & Hv); [lia|lia|apply (fill_write st); lia|].
  rewrite (cbind_go _ _ _ _ _ E). destruct Hv as [(-> & F & W)|(Hv & W)].
  + exists 0, st1. split_and!; [done|by right|done|]. intros _. split; [done|]. exists 0. split; [lia|done].
  + rewrite decide_False by done. unfold fill_bytes, cmodify, cbind. set (st2 := set_mem _ st1) in *.
    destruct Ht as [Hp Hto]. rewrite s32_small by lia. rewrite !padd_small by lia.
    destruct (set2task_loop_spec (p2p_fuel size) c p (to_ + n) (size - n) st2)
      as (r & st3 & E3 & S3); try lia; try done.
    * apply W.
    * unfold p2p_fuel. rewrite u32_small by lia. Z.div_mod_to_equations. lia.
    * intros _. split; [done|lia].
    * unfold va_o, n. unfold va_o. Z.div_mod_to_equations. lia.
    * assert (stored p to_ size (fun _ => u8 c) st r st3) as S
        by (by eapply (stored_step p to_ n); [lia|lia|by split|lia|exact W|]).
      destruct (stored_ret _ _ _ _ _ _ _ S) as (v' & Ev & Hr). unfold ccall in Ev.
      exists v', st3. split; [|done]. by rewrite E3.
Qed.

(** ** [free_space] *)

(** During [free_space]: the pages of the slots [F] have been freed. *)
Definition freed (st0 : pager Sg) (F : slot -> Prop) (k : Z) : Prop :=
  exists s, slot_ok s /\ F s /\ sval st0 s = page_adrs k.

Record freeing st0 (F : slot -> Prop) st : Prop := Freeing {
  fr_mem : pmem st = pmem st0;
  fr_proc : mproc st = mproc st0;
  fr_tp : totalpages st = totalpages st0;
  fr_index : INDEX_16M <= index st <= totalpages st0;
  fr_freed k : 0 <= k < totalpages st0 -> freed st0 F k -> memmap_at st k = FREEPAGE;
  fr_kept k : 0 <= k < totalpages st0 -> ~ freed st0 F k -> memmap_at st k = memmap_at st0 k
}.

Lemma freeing_ext st0 (F F' : slot -> Prop) st :
  (forall s, slot_ok s -> sval st0 s <> 0 -> F s <-> F' s) -> freeing st0 F st -> freeing st0 F' st.
Proof.
intros E [a1 a2 a3 a4 a5 a6].
assert (forall k, 0 <= k < totalpages st0 -> freed st0 F k <-> freed st0 F' k) as Ef.
{ intros k Hk. unfold freed. split; intros (s & Hs & HF & Ev); exists s; split_and!; try done;
    apply (E s); try done; rewrite Ev; apply page_adrs_nz; lia. }
split; try done; intros k Hk Hf.
- apply a5; [done|]. by apply Ef.
- apply a6; [done|]. by rewrite Ef.
Qed.

Lemma free_page_go st0 F st s : inv st0 -> freeing st0 F st -> slot_ok s ->
  sval st0 s <> 0 -> ~ F s ->
  exists st', free_page (sval st0 s) st = (Go tt, st') /\ freeing st0 (fun s' => F s' \/ s' = s) st'.
Proof.
intros Hinv [a1 a2 a3 a4 a5 a6] Hs Hz HF.
destruct (owned_page _ _ _ _ (inv_own _ Hinv) s Hs Hz) as (n & Hn & En & Hown).
fold (sval st0 s) in En. pose proof (page_adrs_range _ n (proj2 (inv_tp _ Hinv)) Hn).
pose proof (page_adrs_pos n). pose proof (inv_tp _ Hinv) as Htp.
assert (~ freed st0 F n) as Hnf.
{ intros (s' & Hs' & HF' & E'). apply HF. replace s with s'; [done|].
  apply (owned_inj _ _ _ _ (inv_own _ Hinv)); try done.
  - fold (sval st0 s'). rewrite E'. apply page_adrs_nz. lia.
  - fold (sval st0 s') (sval st0 s). congruence. }
assert (memmap_at st n = ALLOCATED) as Em by (rewrite a6; done).
assert (Z.shiftr (sval st0 s - MEMPOOL_ADRS) 12 = n) as Esh.
{ rewrite En. unfold page_adrs. rewrite Z.shiftr_div_pow2 by lia. change (2 ^ 12) with 4096.
  replace (MEMPOOL_ADRS + 4096 * n - MEMPOOL_ADRS) with (n * 4096) by lia. by apply Z.div_mul. }
unfold free_page. rewrite decide_False by lia. rewrite Esh. unfold cbind at 1, cgets.
rewrite a3. rewrite decide_False by lia.
rewrite (cbind_go _ _ _ _ _ (memmap_get_go n st ltac:(lia))). rewrite Em.
rewrite (cbind_go _ _ _ _ _ (memmap_set_go n (ALLOCATED - 1) st ltac:(lia))).
change (s8 (ALLOCATED - 1)) with FREEPAGE.
rewrite (cbind_go _ _ _ _ _ (memmap_get_go n _ ltac:(lia))).
set (st1 := set_memmap (<[n := FREEPAGE]>) st).
assert (forall st2, (st2 = st1 \/ st2 = set_index n st1) ->
  INDEX_16M <= index st2 <= totalpages st0 ->
  freeing st0 (fun s' => F s' \/ s' = s) st2) as Hfin.
{ intros st2 E2 Hix.
  assert (forall k, memmap_at st2 k = if decide (k = n) then FREEPAGE else memmap_at st k) as Emm.
  { intros k. rewrite <- (memmap_at_set n FREEPAGE st k). by destruct E2 as [->| ->]. }
  split; try (by destruct E2 as [->| ->]).
  - intros k Hk (s' & Hs' & [HF'| ->] & E'); rewrite Emm; case_decide; try done.
    + apply a5; [done|]. by exists s'.
    + rewrite En in E'. apply page_adrs_inj in E'. congruence.
  - intros k Hk Hnf'. rewrite Emm. case_decide as Hkn.
    + subst. exfalso. apply Hnf'. exists s. auto.
    + apply a6; [done|]. intros (s' & ? & ? & ?). apply Hnf'. exists s'. auto. }
unfold cwhen. case_match eqn:Hc.
- eexists. split; [reflexivity|]. apply Hfin; [by right|]. cbn.
  apply andb_true_iff in Hc as [Hc _]. apply Z.ltb_lt in Hc. lia.
- eexists. split; [reflexivity|]. apply Hfin; [by left|]. exact a4.
Qed.

(** The slots of process [p] that are freed before the page of entry [j] of
    table [i], resp. before table [i]. *)
Definition before_page (p i j : Z) (s : slot) : Prop :=
  match s with
  | SDir _ => False
  | STab q i' => q = p /\ i' < i
  | SPage q i' j' => q = p /\ (i' < i \/ (i' = i /\ j' < j))
  end.

Lemma free_space_spec p st : inv st -> 0 <= p < NR_PROCS ->
  exists r st', free_space p st = (Go r, st') /\
    (sval st (SDir p) = 0 -> r = 0 /\ st' = st) /\
    (sval st (SDir p) <> 0 -> r = 1 /\
       (exists st1, freeing st (fun s => slot_proc s = p) st1 /\
          st' = set_mproc (<[p := Mproc 0 0]>) st1)).
Proof.
intros Hinv Hp. unfold free_space. rewrite (cbind_go _ _ _ _ _ (pagelink_get_go st p Hp)).
change (plink st p) with (sval st (SDir p)). case_decide as Hz.
{ exists 0, st. by split_and!. }
destruct (owned_page _ _ _ _ (inv_own _ Hinv) (SDir p) Hp Hz) as (d & Hd & Ed & _).
fold (sval st (SDir p)) in Ed.
assert (forall st1 F n i, freeing st F st1 -> 0 <= n < totalpages st -> 0 <= i < 1024 ->
  entry_get (page_adrs n) i st1 = (Go (pte (pmem st) (page_adrs n) i), st1)) as Hget.
{ intros st1 F n i Hf Hn Hi. unfold entry_get, cgets, pte, ld32.
  rewrite (entry_adrs st) by done. rewrite (fr_mem _ _ _ Hf). by rewrite GBIT32_ld. }
match goal with |- context [cfor 1024 ?body] =>
  destruct (cfor_inv (fun i st1 => freeing st (before_page p i 0) st1) body 1024 st) as (st1 & E1 & F1)
end; [lia| | |].
- split; try done; [apply Hinv|]. intros k Hk ([q|q i|q i j] & Hs & HF & _); cbn in Hs, HF; lia.
- intros i st1 Hi F1. rewrite Ed. rewrite (cbind_go _ _ _ _ _ (Hget st1 _ d i F1 Hd Hi)).
  assert (pte (pmem st) (page_adrs d) i = sval st (STab p i)) as Et.
  { rewrite <- Ed. symmetry. by apply sval_tab. }
  rewrite Et. case_decide as Hzt.
  + exists st1. split; [done|]. eapply freeing_ext; [|exact F1].
    intros [q|q i'|q i' j'] Hs Hv; cbn [before_page slot_ok] in *; [done|..].
    * split; [lia|]. intros [-> Hi']. split; [done|].
      destruct (decide (i' = i)) as [->|]; [done|lia].
    * split; [lia|]. intros [-> Hi']. split; [done|].
      destruct (decide (i' = i)) as [->|]; [|lia]. exfalso. apply Hv. 
      unfold sval in *. cbn [slot_val] in *. unfold page_val. by rewrite decide_True.
  + destruct (owned_page _ _ _ _ (inv_own _ Hinv) (STab p i) (conj Hp Hi) Hzt) as (t & Ht & Et' & _).
    fold (sval st (STab p i)) in Et'.
    match goal with |- context [cfor 1024 ?body] =>
      destruct (cfor_inv (fun j st2 => freeing st (before_page p i j) st2) body 1024 st1)
        as (st2 & E2 & F2) end; [lia|done| |].
    * intros j st2 Hj F2. rewrite Et'. rewrite (cbind_go _ _ _ _ _ (Hget st2 _ t j F2 Ht Hj)).
      assert (pte (pmem st) (page_adrs t) j = sval st (SPage p i j)) as Ep.
      { rewrite <- Et'. symmetry. by apply sval_page. }
      rewrite Ep. case_decide as Hzp.
      -- destruct (free_page_go st _ st2 (SPage p i j) Hinv F2) as (st3 & E3 & F3); try done.
         { cbn. lia. }
         exists st3. split; [done|]. eapply freeing_ext; [|exact F3].
         intros [q|q i'|q i' j'] Hs Hv; cbn [before_page] in *.
         ++ split; [intros [?|?]|]; done.
         ++ split; [intros [?|?]; [done|congruence]|by left].
         ++ split.
            ** intros [?|[= -> -> ->]]; lia.
            ** intros [-> H]. destruct (decide (i' = i /\ j' = j)) as [[-> ->]|]; [by right|left; lia].
      -- exists st2. split; [done|]. eapply freeing_ext; [|exact F2].
         intros [q|q i'|q i' j'] Hs Hv; cbn [before_page] in *; [done..|].
         split; [lia|]. intros [-> H]. split; [done|].
         destruct (decide (i' = i /\ j' = j)) as [[-> ->]|]; [done|lia].
    * rewrite (cbind_go _ _ _ _ _ E2).
      destruct (free_page_go st _ st2 (STab p i) Hinv F2) as (st3 & E3 & F3); try done.
      { cbn. lia. }
      exists st3. split; [done|]. eapply freeing_ext; [|exact F3].
      intros [q|q i'|q i' j'] Hs Hv; cbn [before_page slot_ok] in *.
      -- split; [intros [?|?]|]; done.
      -- split; [intros [?|[= -> ->]]; lia|]. intros [-> H].
         destruct (decide (i' = i)) as [->|]; [by right|left; lia].
      -- split; [intros [?|?]; [lia|done]|]. intros [-> H]. left. lia.
- rewrite (cbind_go _ _ _ _ _ E1).
  destruct (free_page_go st _ st1 (SDir p) Hinv F1) as (st2 & E2 & F2); try done; [by intros []|].
  rewrite (cbind_go _ _ _ _ _ E2), (cbind_go _ _ _ _ _ (pagelink_set_go st2 p 0 Hp)),
    (cbind_go _ _ _ _ _ (pages_set_go _ p _ Hp)).
  eexists 1, _. split; [reflexivity|]. split; [done|]. intros _. split; [done|].
  exists st2. split.
  + eapply freeing_ext; [|exact F2].
    intros [q|q i'|q i' j'] Hs Hv; cbn [before_page slot_ok slot_proc] in *.
    * split; [intros [[]|[= ->]]; done|]. intros ->. by right.
    * split; [intros [?|?]; [lia|done]|]. intros ->. left. lia.
    * split; [intros [?|?]; [lia|done]|]. intros ->. left. lia.
  + unfold set_mproc. cbn. f_equal. rewrite insert_insert_eq.
    unfold plink, mproc_at. cbn. rewrite lookup_insert_eq. reflexivity.
Qed.

(** ** DMA pages *)

Definition run_free st (i np : Z) : Prop := forall k, i <= k < i + np -> memmap_at st k = 0.

Lemma dma_test_spec n i st : 0 <= i -> i + Z.of_nat n <= MAXMEM / 4096 ->
  exists b, dma_test n i st = (Go b, st) /\ (b = true <-> run_free st i (Z.of_nat n)).
Proof.
revert i; induction n as [|n IH]; intros i Hi Hn; cbn [dma_test].
{ exists true. split; [done|]. split; [|done]. intros _ k Hk. lia. }
rewrite (cbind_go _ _ _ _ _ (memmap_get_go i st ltac:(lia))). case_decide as Hz.
- exists false. split; [done|]. split; [done|]. intros H. exfalso. apply Hz, H. lia.
- destruct (IH (i + 1)) as (b & E & Hb); [lia..|]. exists b. split; [done|]. rewrite Hb.
  unfold run_free. split; intros H k Hk.
  + destruct (decide (k = i)) as [->|]; [done|]. apply H. lia.
  + apply H. lia.
Qed.

Lemma set_indexdma_twice a b st : set_indexdma a (set_indexdma b st) = set_indexdma a st.
Proof. done. Qed.

(** The place where a round looks. *)
Definition dma_start (i0 np : Z) : Z := if decide (INDEX_16M <= i0 + np) then INDEX_8M else i0.

Lemma dma_round_start np old st i : i = dma_start (indexdma st) np ->
  dma_round np old st =
    (success <- dma_test (Z.to_nat np) i;;
     if (success : bool) then
       cfor np (fun _ => k <- cgets indexdma;; memmap_set k 1;; cmodify (set_indexdma (k + 1)));;
       k <- cgets indexdma;;
       cwhen (k =? INDEX_16M) (cmodify (set_indexdma INDEX_8M));;
       creturn (u32 (Z.shiftl i 12 + MEMPOOL_ADRS))
     else
       cmodify (set_indexdma (i + 1));;
       if decide (i + 1 = old) then creturn 0
       else cwhen (INDEX_16M <=? i + 1) (cmodify (set_indexdma INDEX_8M))) (set_indexdma i st).
Proof.
intros ->. unfold dma_round, dma_start. unfold cbind at 1, cgets at 1.
unfold cbind at 1, cwhen at 1. destruct (Z.leb_spec INDEX_16M (indexdma st + np)) as [H|H].
- rewrite decide_True by done. done.
- rewrite decide_False by lia. by destruct st.
Qed.

Lemma dma_round_miss np old st i :
  0 <= np -> i = dma_start (indexdma st) np -> 0 <= i -> i + np <= MAXMEM / 4096 ->
  ~ run_free st i np ->
  dma_round np old st =
    (if decide (i + 1 = old) then Ret 0 else Go tt,
     set_indexdma (if decide (i + 1 = old) then i + 1
                   else if decide (INDEX_16M <= i + 1) then INDEX_8M else i + 1) st).
Proof.
intros Hnp Ei Hi Hr Hno. rewrite (dma_round_start np old st i Ei).
destruct (dma_test_spec (Z.to_nat np) i (set_indexdma i st)) as (b & E & Hb); [lia..|].
rewrite (cbind_go _ _ _ _ _ E). rewrite Z2Nat.id in Hb by lia.
destruct b; [by destruct Hno; apply Hb|]. unfold cbind, cmodify. rewrite set_indexdma_twice.
case_decide; [done|]. unfold cwhen. destruct (Z.leb_spec INDEX_16M (i + 1)).
- by rewrite decide_True.
- by rewrite decide_False by lia.
Qed.

(** Marking the pages of a run. *)
Lemma dma_mark np st i : 0 <= np -> indexdma st = i -> 0 <= i -> i + np <= MAXMEM / 4096 ->
  exists st', cfor np (fun _ => k <- cgets indexdma;; memmap_set (Sg := Sg) k 1;;
      cmodify (set_indexdma (k + 1))) st = (Go tt, st') /\
    indexdma st' = i + np /\ pmem st' = pmem st /\ mproc st' = mproc st /\
    totalpages st' = totalpages st /\ index st' = index st /\
    forall k, memmap_at st' k = if decide (i <= k < i + np) then ALLOCATED else memmap_at st k.
Proof.
intros Hnp Ei Hi Hr.
destruct (cfor_inv (fun c st' => indexdma st' = i + c /\ pmem st' = pmem st /\ mproc st' = mproc st /\
    totalpages st' = totalpages st /\ index st' = index st /\
    forall k, memmap_at st' k = if decide (i <= k < i + c) then ALLOCATED else memmap_at st k)
  (fun _ => k <- cgets indexdma;; memmap_set (Sg := Sg) k 1;; cmodify (set_indexdma (k + 1))) np st)
  as (st' & E & H); [done| | |by exists st'].
- split_and!; try done; [lia|]. intros k. by rewrite decide_False by lia.
- intros c st1 Hc (H1 & H2 & H3 & H4 & H5 & H6). unfold cbind at 1, cgets. rewrite H1.
  rewrite (cbind_go _ _ _ _ _ (memmap_set_go (i + c) 1 st1 ltac:(lia))).
  eexists. split; [reflexivity|]. split_and!; try done; [cbn; lia|]. intros k.
  change (memmap_at (set_memmap (<[i + c := s8 1]>) st1) k =
    if decide (i <= k < i + (c + 1)) then ALLOCATED else memmap_at st k).
  rewrite memmap_at_set, H6. repeat case_decide; try done; lia.
Qed.

(** What a successful search returns. *)
Definition dma_got st (np a : Z) st' : Prop :=
  exists n, a = page_adrs n /\ INDEX_8M <= n /\ n + np <= INDEX_16M /\ run_free st n np /\
    pmem st' = pmem st /\ mproc st' = mproc st /\ totalpages st' = totalpages st /\
    index st' = index st /\ INDEX_8M <= indexdma st' < INDEX_16M /\
    forall k, memmap_at st' k = if decide (n <= k < n + np) then ALLOCATED else memmap_at st k.

Lemma dma_round_hit np old st i :
  0 < np -> i = dma_start (indexdma st) np -> INDEX_8M <= i -> i + np <= INDEX_16M ->
  run_free st i np ->
  exists a st', dma_round np old st = (Ret a, st') /\ dma_got st np a st'.
Proof.
intros Hnp Ei Hi Hr Hfree. unfold INDEX_8M, INDEX_16M in Hi, Hr.
assert (4096 <= MAXMEM / 4096) as Hmm by done.
rewrite (dma_round_start np old st i Ei).
destruct (dma_test_spec (Z.to_nat np) i (set_indexdma i st)) as (b & E & Hb); [lia..|].
rewrite (cbind_go _ _ _ _ _ E). rewrite Z2Nat.id in Hb by lia.
destruct b; [|by assert (false = true) by (apply Hb; exact Hfree)].
destruct (dma_mark np (set_indexdma i st) i) as (st1 & E1 & H1 & H2 & H3 & H4 & H5 & H6);
  [lia|done|lia|lia|].
rewrite (cbind_go _ _ _ _ _ E1). unfold cbind at 1, cgets. rewrite H1.
assert (u32 (Z.shiftl i 12 + MEMPOOL_ADRS) = page_adrs i) as Ea.
{ rewrite shiftl12. unfold page_adrs, MEMPOOL_ADRS. rewrite u32_small; lia. }
rewrite Ea. unfold cwhen. destruct (Z.eqb_spec (i + np) INDEX_16M) as [He|He].
- eexists _, _. split; [reflexivity|]. exists i. unfold INDEX_8M, INDEX_16M in *. by split_and!.
- eexists _, _. split; [reflexivity|]. exists i. unfold INDEX_8M, INDEX_16M in *.
  split_and!; try done; lia.
Qed.

Lemma run_free_dec st i np : 0 <= np -> Decision (run_free st i np).
Proof.
intros H. destruct (decide (Forall (fun k => memmap_at st k = 0) (seqZ i np))) as [F|F].
- left. intros k Hk. rewrite List.Forall_forall in F. apply F. apply list_elem_of_In, elem_of_seqZ. lia.
- right. intros R. apply F, List.Forall_forall. intros k Hk.
  apply list_elem_of_In, elem_of_seqZ in Hk. by apply R.
Qed.

(** Rounds that are left when the next one starts at [i]. *)
Definition dma_left (old i : Z) : Z :=
  if decide (i < old) then old - i else (INDEX_16M - i) + (old - INDEX_8M) + 1.

(** No run was found where the search has been when the next round starts at [i]. *)
Definition dma_missed st (old i np : Z) : Prop := forall j, INDEX_8M <= j -> j + np < INDEX_16M ->
  (if decide (i < old) then j < i \/ old <= j else old <= j < i) -> ~ run_free st j np.

(** The search ends when it started at [old] with [INDEX_8M < old <=
    INDEX_16M - np], and it fails only when no run below [INDEX_16M] is free. *)
Lemma dma_loop_terminates fuel np old st :
  0 < np -> INDEX_8M < old -> old + np <= INDEX_16M -> INDEX_8M <= indexdma st < INDEX_16M ->
  dma_left old (indexdma st) < Z.of_nat fuel -> dma_missed st old (indexdma st) np ->
  exists a st', cwhile1 fuel (dma_round np old) st = (Ret a, st') /\
    ((a = 0 /\ st' = set_indexdma old st /\
      forall j, INDEX_8M <= j -> j + np < INDEX_16M -> ~ run_free st j np) \/ dma_got st np a st').
Proof.
revert st; induction fuel as [|fuel IH]; intros st Hnp Hold Hfit Hix Hleft Hmiss.
{ unfold dma_left, INDEX_8M, INDEX_16M in *. case_decide; lia. }
cbn [cwhile1]. set (i := dma_start (indexdma st) np).
assert (INDEX_8M <= i /\ i + np <= INDEX_16M) as [Hi Hir].
{ unfold i, dma_start, INDEX_8M, INDEX_16M in *. case_decide; lia. }
assert (4096 <= MAXMEM / 4096) as Hmm by done.
destruct (run_free_dec st i np) as [Hfree|Hno]; [lia| |].
- destruct (dma_round_hit np old st i Hnp eq_refl Hi Hir Hfree) as (a & st' & E & H).
  rewrite E. eauto.
- unfold INDEX_8M, INDEX_16M in Hi, Hir.
  rewrite (dma_round_miss np old st i); try done; [|lia..].
  destruct (decide (i + 1 = old)) as [He|He].
  + eexists _, _. split; [reflexivity|]. left. split; [done|]. split; [by rewrite He|].
    intros j Hj Hjr. destruct (decide (j = i)) as [->|Hne]; [exact Hno|]. apply Hmiss; [done|done|].
    unfold i, dma_start, INDEX_8M, INDEX_16M in *. revert He Hne. case_decide; intros; case_decide; lia.
  + set (i' := if decide (INDEX_16M <= i + 1) then INDEX_8M else i + 1).
    assert ((i = indexdma st /\ indexdma st + np < INDEX_16M) \/
      (i = INDEX_8M /\ INDEX_16M <= indexdma st + np)) as Hst.
    { unfold i, dma_start. case_decide; [by right|left; split; [done|lia]]. }
    unfold INDEX_8M, INDEX_16M in *.
    assert (i' = i + 1) as Ei' by (unfold i'; rewrite decide_False; lia).
    clearbody i i'.
    destruct (IH (set_indexdma i' st)) as (a & st' & E & H); try done.
    * cbn. lia.
    * cbn. unfold dma_left, INDEX_8M, INDEX_16M in *. case_decide; case_decide; lia.
    * intros j Hj Hjr Hd. cbn [indexdma set_indexdma] in Hd. change (~ run_free st j np).
      destruct (decide (j = i)) as [->|Hne]; [exact Hno|]. apply Hmiss; [done|done|].
      unfold INDEX_8M, INDEX_16M in *. revert Hd. case_decide; intros; case_decide; lia.
    * exists a, st'. split; [exact E|exact H].
Qed.

(** ... and never ends when it started elsewhere and there is no free run. *)
Lemma dma_loop_diverges fuel np old st :
  0 < np <= 2047 -> old = INDEX_8M \/ INDEX_16M < old + np ->
  INDEX_8M <= indexdma st < INDEX_16M ->
  (forall i, INDEX_8M <= i -> i + np <= INDEX_16M -> ~ run_free st i np) ->
  exists st', cwhile1 fuel (dma_round np old) st = (Go false, st').
Proof.
revert st; induction fuel as [|fuel IH]; intros st Hnp Hold Hix Hno; [by exists st|].
cbn [cwhile1]. set (i := dma_start (indexdma st) np).
assert (INDEX_8M <= i /\ i + np <= INDEX_16M) as [Hi Hir].
{ unfold i, dma_start, INDEX_8M, INDEX_16M in *. case_decide; lia. }
assert (4096 <= MAXMEM / 4096) as Hmm by done.
assert (i + np < INDEX_16M \/ i = INDEX_8M) as Hst
  by (unfold i, dma_start; case_decide; [by right|left; lia]).
specialize (Hno i Hi Hir) as Hn. unfold INDEX_8M, INDEX_16M in Hi, Hir, Hst.
rewrite (dma_round_miss np old st i); try done; [|lia..].
rewrite decide_False by (unfold INDEX_8M, INDEX_16M in Hold; lia).
rewrite decide_False by (unfold INDEX_8M, INDEX_16M in Hold; lia).
apply IH; [done|done| |exact Hno]. cbn [indexdma set_indexdma]. unfold INDEX_8M, INDEX_16M.
case_decide; lia.
Qed.
End Virtual.
