(* ===== verification/PagerThms.v ===== *)
(** The properties of the memory server. *)

From S2P Require Import Prelude Mem Fcall9P Fcall9PSpec Pager PagerSpec.

(** ** Preservation of the invariant by the requests *)

(** Whether the label of a request is the next one of the [else if] chain. *)
Ltac next_label H :=
  match goal with
  | |- context [decide (rq_label ?r = ?l)] => destruct (decide (rq_label r = l)) as [H|H]
  end.

Section Serve.
Context {Sg : Type}.
Variable sigma0 : list Z -> Z -> Sg -> option (list Z) * Sg.
Variable syscall : sysop -> list Z -> Sg -> Z * Sg.
Implicit Types st : pager Sg.

Lemma set_s0_inv g st : inv st -> inv (set_s0 g st).
Proof. by intros [H1 H2 H3]. Qed.

Lemma free_space_inv p st : inv st -> 0 <= p < NR_PROCS ->
  exists r st', free_space p st = (Go r, st') /\ inv st' /\
    (forall s, slot_ok s -> slot_proc s <> p -> sval st' s = sval st s) /\
    (sval st (SDir p) <> 0 -> r = 1 /\ pmem st' = pmem st /\
       (forall s, slot_ok s -> slot_proc s = p -> sval st' s = 0) /\
       (forall k, 0 <= k < totalpages st ->
          freed st (fun s => slot_proc s = p) k -> memmap_at st' k = FREEPAGE) /\
       (forall k, 0 <= k < totalpages st ->
          ~ freed st (fun s => slot_proc s = p) k -> memmap_at st' k = memmap_at st k)).
Proof.
intros Hinv Hp. destruct (free_space_spec p st Hinv Hp) as (r & st' & E & H0 & H1).
exists r, st'. split; [done|]. destruct (decide (sval st (SDir p) = 0)) as [Hz|Hz].
{ destruct (H0 Hz) as [-> ->]. by split_and!. }
destruct (H1 Hz) as (-> & st1 & F & ->). clear H0 H1 E.
set (st2 := set_mproc _ st1).
assert (forall q, plink st2 q = if decide (q = p) then 0 else plink st q) as Hl.
{ intros q. unfold st2. rewrite plink_set. case_decide; [done|].
  apply plink_mproc, (fr_proc _ _ _ F). }
assert (pmem st2 = pmem st) as Em by apply (fr_mem _ _ _ F).
assert (forall s, slot_ok s -> slot_proc s = p -> sval st2 s = 0) as Hown.
{ intros s Hs <-. destruct s as [q|q i|q i j]; unfold sval; cbn [slot_val slot_proc];
    unfold page_val, tab_val, dir_val; rewrite Hl; 
    rewrite (decide_True (P := q = q)) by done; done. }
assert (forall s, slot_ok s -> slot_proc s <> p -> sval st2 s = sval st s) as Hother.
{ intros s Hs Hne. unfold sval. rewrite Em. destruct s as [q|q i|q i j]; cbn [slot_val slot_proc] in *;
    unfold page_val, tab_val, dir_val; rewrite Hl; by rewrite (decide_False (P := q = p)). }
split_and!; try done.
- split.
  + cbn. rewrite (fr_tp _ _ _ F). apply Hinv.
  + cbn. rewrite (fr_tp _ _ _ F). apply (fr_index _ _ _ F).
  + split.
    * intros s Hs. change (slot_val (pmem st2) (plink st2) s) with (sval st2 s).
      destruct (decide (slot_proc s = p)) as [He|Hne]; [by rewrite Hown|].
      rewrite (Hother s Hs Hne). intros Hv.
      destruct (owned_page _ _ _ _ (inv_own _ Hinv) s Hs Hv) as (n & Hn & En & Ho).
      exists n. cbn. rewrite (fr_tp _ _ _ F). split_and!; try done; try lia.
      change (memmap_at st1 n = ALLOCATED). rewrite (fr_kept _ _ _ F); [done|done|].
      intros (s' & Hs' & Hp' & E'). apply Hne. rewrite <- Hp'. f_equal.
      apply (owned_inj _ _ _ _ (inv_own _ Hinv)); try done. fold (sval st s'). congruence.
    * intros s1 s2 Hs1 Hs2. change (slot_val (pmem st2) (plink st2) ?s) with (sval st2 s).
      destruct (decide (slot_proc s1 = p)); [by rewrite Hown|].
      destruct (decide (slot_proc s2 = p)); [rewrite (Hown s2) by done; congruence|].
      rewrite !Hother by done. by apply (owned_inj _ _ _ _ (inv_own _ Hinv)).
- intros _. split_and!; try done; [apply (fr_freed _ _ _ F)|apply (fr_kept _ _ _ F)].
Qed.

(** The requests covered by the server's invariant: their labels and the
    process numbers they name. *)
Definition tame (rq : request) : Prop :=
  0 <= TID2PROCNR (rq_src rq) < NR_PROCS /\
  (forall i, 0 <= MsgWord rq i < 2 ^ 32) /\
  (rq_label rq ∉ [PROC2PROC_COPY; PROC_MEMSET; MM_FORK; ALLOC_DMA; PHYS_MEM_ALLOC]) /\
  (rq_label rq = MM_FREESPACE -> MsgWord rq 0 < NR_PROCS) /\
  (rq_label rq = CHK_PGMAP -> 0 <= s32 (MsgWord rq 0) /\ s32 (MsgWord rq 0) <> NR_PROCS).

(** Every process keeps what it had, other than by its own [MM_FREESPACE]. *)
Definition keeps (fs : Z -> Prop) st st' : Prop :=
  forall q x b, in_task q x -> ~ fs q -> vread st q x = Some b -> vread st' q x = Some b.

Lemma pager_keeps_refl fs st : keeps fs st st.
Proof. by intros q x b _ _. Qed.

Lemma pager_keeps_trans fs st1 st2 st3 : keeps fs st1 st2 -> keeps fs st2 st3 -> keeps fs st1 st3.
Proof. intros H1 H2 q x b Ht Hf Hv. apply H2; try done. by apply H1. Qed.

Definition freed_by (rq : request) (q : Z) : Prop :=
  rq_label rq = MM_FREESPACE /\ q = MsgWord rq 0.

Lemma target_keeps p va st : inv st -> in_task p va ->
  exists v st', get_targetpage sigma0 p va st = (Go v, st') /\ inv st' /\
    (forall fs, keeps fs st st') /\ (v <> 0 -> v = trans st' p va) /\ (v = 0 -> no_free st').
Proof.
intros Hinv [Hp Hva]. destruct (get_targetpage_spec sigma0 p va st Hinv Hp Hva)
  as (v & st' & E & I & G & Ho & _).
exists v, st'. split_and!; try done.
- intros fs q x b Ht _ Hv. by eapply grows_vread.
- intros Hz. by destruct Ho as [[? _]|[_ ?]].
- intros ->. by destruct Ho as [[_ ?]|[? _]].
Qed.

Lemma do_syscall_keeps op args st : inv st -> exists rc st',
  do_syscall syscall op args st = (Go rc, st') /\ inv st' /\ forall fs, keeps fs st st'.
Proof.
intros Hinv. unfold do_syscall. destruct (syscall op args (s0 st)) as [rc g].
exists rc, (set_s0 g st). split_and!; [done|by apply set_s0_inv|].
by intros fs q x b _ _.
Qed.

Lemma serve_keeps fuel myself rq st : inv st -> tame rq ->
  exists rp st', mxpager_serve sigma0 syscall fuel myself rq st = (Go rp, st') /\ inv st' /\
    keeps (freed_by rq) st st'.
Proof.
intros Hinv (Hsrc & Hw & Hl & Hfs & Hck). unfold mxpager_serve.
assert (forall op args k, exists rp st',
  (rc <- do_syscall syscall op args;; cret (k rc)) st = (Go (rp : reply), st') /\ inv st' /\
  keeps (freed_by rq) st st') as Hsys.
{ intros op args k. destruct (do_syscall_keeps op args st Hinv) as (rc & st' & E & I & K).
  rewrite (cbind_go _ _ _ _ _ E). eexists _, st'. by split_and!. }
assert (forall l, l ∈ [PROC2PROC_COPY; PROC_MEMSET; MM_FORK; ALLOC_DMA; PHYS_MEM_ALLOC] ->
  rq_label rq <> l) as Hno.
{ intros l Hin El. subst l. done. }
do 4 (next_label Hc; [apply Hsys|clear Hc]).
do 3 (next_label Hc; [exfalso; eapply Hno; [|exact Hc]; clear; set_solver|clear Hc]).
next_label Hc.
{ destruct (Hck Hc) as [Hc1 Hc2]. unfold chk_pgmap_handler.
  set (procnr := if decide (128 < s32 (MsgWord rq 0)) then 1 else s32 (MsgWord rq 0)).
  assert (0 <= procnr < NR_PROCS) as Hp.
  { unfold procnr, NR_PROCS in *. case_decide; lia. }
  clearbody procnr.
  case_decide as Ha.
  - unfold cbind at 1 2. rewrite pagelink_get_go by done. eexists _, st.
    split_and!; [reflexivity|done|apply pager_keeps_refl].
  - destruct (target_keeps procnr (MsgWord rq 1) st Hinv) as (v & st' & E & I & K & _);
      [by split|].
    unfold cbind at 1 2. rewrite E. eexists _, st'. by split_and!. }
next_label Hs; [apply Hsys|clear Hs]. next_label Hf.
{ specialize (Hfs Hf). destruct (free_space_inv (MsgWord rq 0) st Hinv) as (r & st' & E & I & K & F).
  { specialize (Hw 0%nat). lia. }
  unfold mm_freespace_handler. rewrite (cbind_go _ _ _ _ _ E). eexists _, st'. split_and!; try done.
  intros q x b [Hq Hx] Hnf Hv. unfold vread in *. rewrite !trans_slot in *.
  assert (q <> MsgWord rq 0) as Hne by (intros ->; by apply Hnf).
  rewrite (K (va_slot q x)) by (done || by apply va_slot_ok).
  destruct (decide (sval st (SDir (MsgWord rq 0)) = 0)) as [Hz|Hz].
  - destruct (free_space_spec (MsgWord rq 0) st Hinv) as (r' & st2 & E' & Hn & _).
    { specialize (Hw 0%nat). lia. }
    rewrite E in E'. injection E' as <- <-. by destruct (Hn Hz) as [_ ->].
  - destruct (F Hz) as (_ & -> & _). done. }
do 2 (next_label Hs; [exfalso; eapply Hno; [|exact Hs]; clear; set_solver|clear Hs]).
next_label Hs.
- unfold get_paddr_handler. destruct (target_keeps (TID2PROCNR (rq_src rq)) (MsgWord rq 0) st Hinv)
    as (v & st' & E & I & K & _); [by split|].
  rewrite (cbind_go _ _ _ _ _ E). eexists _, st'. by split_and!.
- unfold page_fault_handler.
  destruct (target_keeps (TID2PROCNR (rq_src rq)) (MsgWord rq 0) st Hinv)
    as (v & st' & E & I & K & _); [by split|].
  rewrite (cbind_go _ _ _ _ _ E). eexists _, st'. by split_and!.
Qed.
Lemma thread_keeps fuel myself rqs st :
  inv st -> Forall tame rqs ->
  exists rps st', mxpager_thread sigma0 syscall fuel myself rqs st = (Go rps, st') /\
    length rps = length rqs /\ inv st' /\
    keeps (fun q => Exists (fun rq => freed_by rq q) rqs) st st'.
Proof.
revert st; induction rqs as [|rq rqs IH]; intros st Hinv Hall.
{ exists [], st. split_and!; [done|done|done|apply pager_keeps_refl]. }
apply Forall_cons_1 in Hall as [Ht Hall]. cbn [mxpager_thread].
destruct (serve_keeps fuel myself rq st Hinv Ht) as (rp & st1 & E & I & K).
rewrite (cbind_go _ _ _ _ _ E).
destruct (IH st1 I Hall) as (rps & st2 & E2 & L & I2 & K2).
rewrite (cbind_go _ _ _ _ _ E2). exists (rp :: rps), st2. split_and!; [done| |done|].
- cbn. lia.
- intros q x b Hq Hn Hv. apply K2; [done| |apply K; [done| |done]].
  + intros He. apply Hn. by apply Exists_cons_tl.
  + intros He. apply Hn. by apply Exists_cons_hd.
Qed.
End Serve.

(** ** Concrete servers *)

(** A sigma0 that grants every page, and system calls that succeed. *)
Definition grant : list Z -> Z -> unit -> option (list Z) * unit := fun w _ g => (Some (0 :: w), g).
Definition sys_ok : sysop -> list Z -> unit -> Z * unit := fun _ _ g => (1, g).

(** 5000 pages, all free, no process has a page. *)
Definition pager5000 : pager unit := Pager ∅ ∅ 5000 4096 2048 ∅ tt.

Lemma no_process_inv {Sg} (st : pager Sg) :
  INDEX_16M < totalpages st <= MAXMEM / 4096 -> INDEX_16M <= index st <= totalpages st ->
  mproc st = ∅ -> inv st.
Proof.
intros Ht Hx Hm.
assert (forall s, sval st s = 0) as Hz.
{ assert (forall p, plink st p = 0) as Hp by (intros p; unfold plink, mproc_at; by rewrite Hm).
  intros [p|p i|p i j]; unfold sval; cbn [slot_val]; unfold page_val, tab_val, dir_val;
    by rewrite Hp. }
split; [done..|]. split; intros s1; fold (sval st s1); rewrite Hz; done.
Qed.

Lemma pager5000_inv : inv pager5000.
Proof. by apply no_process_inv. Qed.

(** The state after process 9 touched 0x400000, and the answer. *)
Definition fault9 : request := Request (Z.shiftl 9 24) 0xFFE0 [0x400000; 0].
Definition fault10 : request := Request (Z.shiftl 10 24) 0xFFE0 [0x400000; 0].
Definition pager_after (rqs : list request) : pager unit :=
  snd (mxpager_thread grant sys_ok 4097 0 rqs pager5000).

(** The requests of the examples are tame, so the state after them is well-formed. *)
Lemma fault_tame p : 0 <= p < 128 -> tame (Request (Z.shiftl p 24) 0xFFE0 [0x400000; 0]).
Proof.
intros Hp. refine (conj _ (conj _ (conj _ (conj _ _)))).
- unfold TID2PROCNR; cbn [rq_src]. rewrite Z.shiftr_shiftl_l, Z.sub_diag, Z.shiftl_0_r by lia.
  unfold NR_PROCS. lia.
- intros [|[|[|i]]]; done.
- rewrite list_elem_of_In. cbn. unfold PROC2PROC_COPY, PROC_MEMSET, MM_FORK, ALLOC_DMA,
    PHYS_MEM_ALLOC. lia.
- done.
- done.
Qed.

Lemma pager_after_inv rqs : Forall tame rqs -> inv (pager_after rqs).
Proof.
intros H. destruct (thread_keeps grant sys_ok 4097 0 rqs pager5000 pager5000_inv H)
  as (rps & st' & E & _ & I & _).
unfold pager_after. rewrite E. exact I.
Qed.

(** Process 9 asks for the physical page 4099 at its address 0x401000. *)
Definition phys9 : request :=
  Request (Z.shiftl 9 24) PHYS_MEM_ALLOC [4099 * 4096; 0x401000; 12].

Lemma bool_decide_keep (P : Prop) `{Decision P} : bool_decide P = true -> P.
Proof. apply bool_decide_eq_true. Qed.

(** C27: [get_targetpage] keeps the page map and the page tables consistent (every
    page in use is marked allocated and is in one place of one table), returns
    the page that now holds the address, and leaves every translation and
    every byte of all processes as it was. It returns 0 only when no free
    page is left above 16M. *)
Theorem get_targetpage_correct {Sg} (sigma0 : list Z -> Z -> Sg -> option (list Z) * Sg) p va st :
  inv st -> in_task p va ->
  exists v st', get_targetpage sigma0 p va st = (Go v, st') /\ inv st' /\
    (forall q x, in_task q x -> trans st q x <> 0 -> trans st' q x = trans st q x) /\
    (forall q x b, in_task q x -> vread st q x = Some b -> vread st' q x = Some b) /\
    (v = 0 -> no_free st') /\ (v <> 0 -> v = trans st' p va) /\
    (trans st p va <> 0 -> v = trans st p va /\ st' = st).
Proof.
intros Hinv [Hp Hva].
destruct (get_targetpage_spec sigma0 p va st Hinv Hp Hva) as (v & st' & E & I & G & Ho & Hs).
exists v, st'. split_and!; try done.
- intros q x [Hq Hx]. rewrite !trans_slot. apply (gr_old _ _ _ G). by apply va_slot_ok.
- intros q x b Ht Hv. by eapply grows_vread.
- intros ->. by destruct Ho as [[_ ?]|[? _]].
- intros Hz. by destruct Ho as [[? _]|[_ ?]].
- intros Hz. by destruct (Hs Hz) as [-> ->].
Qed.

Lemma get_targetpage_correct_witness :
  exists st', get_targetpage grant 9 0x400123 pager5000 = (Go (page_adrs 4098), st') /\
    inv st' /\ page_adrs 4098 = trans st' 9 0x400123.
Proof.
destruct (get_targetpage_correct grant 9 0x400123 pager5000 pager5000_inv)
  as (v & st' & E & I & _ & _ & _ & Hv & _); [split; split; done|].
assert (fst (get_targetpage grant 9 0x400123 pager5000) = Go (page_adrs 4098)) as Ev
  by (vm_compute; reflexivity).
rewrite E in Ev. injection Ev as ->. exists st'. split; [exact E|split; [exact I|]].
apply Hv. discriminate.
Defined.

(** C6: For requests other than copies, forks and device memory, the server
    answers every sequence of them, keeps its invariant (so no page is ever in
    the space of two processes), and what a process has mapped it keeps,
    unless a request freed its space. *)
Theorem mxpager_thread_safe {Sg} (sigma0 : list Z -> Z -> Sg -> option (list Z) * Sg) syscall fuel
    myself rqs st :
  inv st -> Forall tame rqs ->
  exists rps st', mxpager_thread sigma0 syscall fuel myself rqs st = (Go rps, st') /\
    length rps = length rqs /\ inv st' /\
    keeps (fun q => Exists (fun rq => freed_by rq q) rqs) st st'.
Proof. apply thread_keeps. Qed.

Lemma mxpager_thread_safe_witness :
  exists rps st', mxpager_thread grant sys_ok 0 0 [fault9; fault10] pager5000 = (Go rps, st') /\
    length rps = 2%nat /\ inv st' /\
    keeps (fun q => Exists (fun rq => freed_by rq q) [fault9; fault10]) pager5000 st'.
Proof.
apply (mxpager_thread_safe grant sys_ok 0 0 [fault9; fault10] pager5000 pager5000_inv).
constructor; [apply (fault_tame 9); lia|constructor; [apply (fault_tame 10); lia|constructor]].
Defined.

(** C32: [copy2task], when it succeeds, has stored the [size] bytes from [from] at
    the addresses from [to] on in the space of the task, whatever pages they
    are in, and has changed no other mapped byte of any process; when it
    fails, no free page is left. *)
Theorem copy2task_correct {Sg} (sigma0 : list Z -> Z -> Sg -> option (list Z) * Sg)
    from p to_ size st :
  inv st -> in_task p to_ -> 0 <= size < 2 ^ 31 -> to_ + size <= 2 ^ 32 ->
  0 <= from -> from + size <= MEMPOOL_ADRS ->
  exists v st', copy2task sigma0 from p to_ size st = (Go v, st') /\ (v = 1 \/ v = 0) /\ inv st' /\
    (v = 1 -> forall k, 0 <= k < size ->
       vread st' p (to_ + k) = Some (rd8 (pmem st) (from + k))) /\
    (v = 0 -> no_free st') /\
    (forall q x b, in_task q x -> (q <> p \/ ~ to_ <= x < to_ + size) ->
       vread st q x = Some b -> vread st' q x = Some b).
Proof.
intros Hinv Ht Hsz Hend Hfrom Hlow.
destruct (copy2task_spec sigma0 from p to_ size st Hinv Ht Hsz Hend Hfrom Hlow)
  as (v & st' & E & Hv & H1 & H0).
exists v, st'. split; [done|]. split; [done|]. destruct Hv as [-> | ->].
- specialize (H1 eq_refl). split_and!; [apply H1| |done|].
  + intros _ k Hk. by apply (wr_bytes _ _ _ _ _ _ H1).
  + intros q x b Hq Hne Hv. by apply (wr_other _ _ _ _ _ _ H1).
- destruct (H0 eq_refl) as (F & n & Hn & W). split_and!; [apply W|done|done|].
  intros q x b Hq Hne Hv. apply (wr_other _ _ _ _ _ _ W); [done|done|]. lia.
Qed.

Lemma copy2task_correct_witness :
  exists st', copy2task grant 100 9 0x400FFE 4 (set_mem (fun _ => st_bytes ∅ 100 [1; 2; 3; 4]) pager5000)
      = (Go 1, st') /\ inv st' /\
    vread st' 9 (0x400FFE + 3) = Some 4.
Proof.
pose (st0 := set_mem (fun _ => st_bytes ∅ 100 [1; 2; 3; 4]) pager5000).
assert (inv st0) as I0 by (by apply no_process_inv).
destruct (copy2task_correct grant 100 9 0x400FFE 4 st0 I0) as (v & st' & E & _ & I & H1 & _ & _);
  [split; split; done|done|done|done|done|].
assert (fst (copy2task grant 100 9 0x400FFE 4 st0) = Go 1) as Ev by (vm_compute; reflexivity).
rewrite E in Ev. injection Ev as ->. exists st'. split; [exact E|split; [exact I|]].
rewrite (H1 eq_refl 3) by lia. vm_compute. reflexivity.
Defined.

(** [set2task], when it succeeds, has filled the [size] bytes from [to] on in
    the space of the task, and has changed no other mapped byte. *)
Theorem set2task_correct {Sg} (sigma0 : list Z -> Z -> Sg -> option (list Z) * Sg)
    c p to_ size st :
  inv st -> in_task p to_ -> 0 <= size < 2 ^ 31 -> to_ + size <= 2 ^ 32 ->
  exists v st', set2task sigma0 c p to_ size st = (Go v, st') /\ (v = 1 \/ v = 0) /\ inv st' /\
    (v = 1 -> forall k, 0 <= k < size -> vread st' p (to_ + k) = Some (u8 c)) /\
    (v = 0 -> no_free st') /\
    (forall q x b, in_task q x -> (q <> p \/ ~ to_ <= x < to_ + size) ->
       vread st q x = Some b -> vread st' q x = Some b).
Proof.
intros Hinv Ht Hsz Hend.
destruct (set2task_spec sigma0 c p to_ size st Hinv Ht Hsz Hend) as (v & st' & E & Hv & H1 & H0).
exists v, st'. split; [done|]. split; [done|]. destruct Hv as [-> | ->].
- specialize (H1 eq_refl). split_and!; [apply H1| |done|].
  + intros _ k Hk. by apply (wr_bytes _ _ _ _ _ _ H1).
  + intros q x b Hq Hne Hv. by apply (wr_other _ _ _ _ _ _ H1).
- destruct (H0 eq_refl) as (F & n & Hn & W). split_and!; [apply W|done|done|].
  intros q x b Hq Hne Hv. apply (wr_other _ _ _ _ _ _ W); [done|done|]. lia.
Qed.

Lemma set2task_correct_witness :
  exists st', set2task grant 7 9 0x400FFE 4 pager5000 = (Go 1, st') /\ inv st' /\
    vread st' 9 (0x400FFE + 3) = Some 7.
Proof.
destruct (set2task_correct grant 7 9 0x400FFE 4 pager5000 pager5000_inv)
  as (v & st' & E & _ & I & H1 & _ & _); [split; split; done|done|done|].
assert (fst (set2task grant 7 9 0x400FFE 4 pager5000) = Go 1) as Ev by (vm_compute; reflexivity).
rewrite E in Ev. injection Ev as ->. exists st'. split; [exact E|split; [exact I|]].
rewrite (H1 eq_refl 3) by lia. vm_compute. reflexivity.
Defined.

(** C35: [free_space] returns every page of the process to the map, its directory
    and tables included, and nothing else; the process has no page left and
    all other processes keep theirs. *)
Theorem free_space_frees {Sg} p (st : pager Sg) :
  inv st -> 0 <= p < NR_PROCS -> sval st (SDir p) <> 0 ->
  exists st', free_space p st = (Go 1, st') /\ inv st' /\ pmem st' = pmem st /\
    (forall s, slot_ok s -> slot_proc s = p -> sval st' s = 0) /\
    (forall s, slot_ok s -> slot_proc s <> p -> sval st' s = sval st s) /\
    (forall s k, slot_ok s -> slot_proc s = p -> 0 <= k < totalpages st ->
       sval st s = page_adrs k -> memmap_at st' k = FREEPAGE) /\
    (forall k, 0 <= k < totalpages st ->
       (forall s, slot_ok s -> slot_proc s = p -> sval st s <> page_adrs k) ->
       memmap_at st' k = memmap_at st k).
Proof.
intros Hinv Hp Hz. destruct (free_space_inv p st Hinv Hp) as (r & st' & E & I & Ho & H).
destruct (H Hz) as (-> & Hm & H0 & H1 & H2). exists st'. split_and!; try done.
- intros s k Hs Hsp Hk Ek. apply H1; [done|]. by exists s.
- intros k Hk Hn. apply H2; [done|]. intros (s & Hs & Hsp & Ek). by apply (Hn s).
Qed.

Lemma free_space_frees_witness :
  exists st', free_space 9 (pager_after [fault9]) = (Go 1, st') /\ inv st' /\
    pmem st' = pmem (pager_after [fault9]) /\
    memmap_at st' 4098 = FREEPAGE.
Proof.
assert (inv (pager_after [fault9])) as I0.
{ apply pager_after_inv. constructor; [apply (fault_tame 9); lia|constructor]. }
destruct (free_space_frees 9 (pager_after [fault9]) I0)
  as (st' & E & I & Em & _ & _ & Hf & _); [done| |].
{ assert (sval (pager_after [fault9]) (SDir 9) = page_adrs 4096) as -> by (vm_compute; reflexivity).
  discriminate. }
exists st'. split; [exact E|split; [exact I|split; [exact Em|]]].
apply (Hf (SPage 9 1 0)).
- clear. cbn. unfold NR_PROCS. lia.
- reflexivity.
- clear. assert (totalpages (pager_after [fault9]) = 5000) as -> by (vm_compute; reflexivity). lia.
- clear. vm_compute. reflexivity.
Defined.

(** C38: A search for DMA pages that starts in the DMA area, above its first page
    and low enough for the run, ends: it returns pages [8M, 16M) that were
    all free and are now all marked, or it returns 0 and marks nothing, and
    then no run of that length was free in the area (one that ends with the
    last page of the area apart, at which the loop does not look). *)
Theorem alloc_dma_page_terminates {Sg} np (st : pager Sg) :
  0 < np -> INDEX_8M < indexdma st -> indexdma st + np <= INDEX_16M ->
  exists a st', alloc_dma_page 4097 np st = (Go (Some a), st') /\
    ((a = 0 /\ memmap st' = memmap st /\
      forall i, INDEX_8M <= i -> i + np < INDEX_16M -> ~ run_free st i np) \/
     (exists n, a = page_adrs n /\ INDEX_8M <= n /\ n + np <= INDEX_16M /\
        run_free st n np /\
        forall k, memmap_at st' k = if decide (n <= k < n + np) then ALLOCATED else memmap_at st k)).
Proof.
intros Hnp Hold Hfit. unfold alloc_dma_page, cbind at 1, cgets at 1.
destruct (dma_loop_terminates 4097 np (indexdma st) st) as (a & st' & E & H); try done.
{ unfold INDEX_8M, INDEX_16M in *. lia. }
{ unfold dma_left, INDEX_8M, INDEX_16M in *. rewrite decide_False by lia. lia. }
{ intros j _ _ Hd. rewrite decide_False in Hd by lia. lia. }
exists a, st'. rewrite E. split; [done|]. destruct H as [(-> & -> & H)|(n & H)]; [by left|].
right. exists n. destruct H as (? & ? & ? & ? & _ & _ & _ & _ & _ & ?). done.
Qed.

Definition dma_state : pager unit := set_indexdma 2049 pager5000.

Lemma alloc_dma_page_terminates_witness :
  exists st', alloc_dma_page 4097 2 dma_state = (Go (Some (page_adrs 2049)), st') /\
    run_free dma_state 2049 2 /\ memmap_at st' 2050 = ALLOCATED.
Proof.
destruct (alloc_dma_page_terminates 2 dma_state) as (a & st' & E & H);
  [done|done|vm_compute; discriminate|].
assert (fst (alloc_dma_page 4097 2 dma_state) = Go (Some (page_adrs 2049))) as Ev
  by (vm_compute; reflexivity).
rewrite E in Ev. injection Ev as ->. exists st'. split; [exact E|].
destruct H as [(H & _)|(n & Hn & _ & _ & Hf & Hm)]; [discriminate H|].
apply page_adrs_inj in Hn as <-. split; [exact Hf|]. rewrite Hm. reflexivity.
Defined.

(** With no free run of [np] pages, a search that starts at the first page of
    the DMA area (where it starts after boot), or too close to its end,
    never ends: the loop only stops when its index comes back to where it
    started, and it never does. *)
Theorem alloc_dma_page_diverges {Sg} fuel np (st : pager Sg) :
  0 < np <= 2047 -> indexdma st = INDEX_8M \/ INDEX_16M < indexdma st + np ->
  INDEX_8M <= indexdma st < INDEX_16M ->
  (forall i, INDEX_8M <= i -> i + np <= INDEX_16M -> ~ run_free st i np) ->
  exists st', alloc_dma_page fuel np st = (Go None, st').
Proof.
intros Hnp Hold Hix Hno. unfold alloc_dma_page, cbind at 1, cgets at 1.
destruct (dma_loop_diverges fuel np (indexdma st) st Hnp Hold Hix Hno) as (st' & E).
exists st'. by rewrite E.
Qed.

(** After boot, with every other page of the area taken. *)
Definition full_dma : pager unit :=
  set_memmap (fun _ => list_to_map ((fun k => (k, 1)) <$> seqZ 2048 2048)) pager5000.

Lemma alloc_dma_page_diverges_witness :
  exists st', alloc_dma_page 4097 1 full_dma = (Go None, st').
Proof.
apply (alloc_dma_page_diverges 4097 1 full_dma);
  [done|by left|split; vm_compute; done|].
intros i Hi Hr Hf. unfold INDEX_8M, INDEX_16M in *.
assert (Forall (fun k => memmap_at full_dma k <> 0) (seqZ 2048 2048)) as Hall.
{ apply (bool_decide_keep _). vm_compute. reflexivity. }
rewrite List.Forall_forall in Hall. apply (Hall i).
- apply list_elem_of_In, elem_of_seqZ. lia.
- apply Hf. lia.
Defined.

(** [PHYS_MEM_ALLOC] enters free pages into the space of the caller without
    marking them allocated, so they are given away again: here the page that
    process 9 was given becomes the page directory of process 10. *)
Theorem phys_mem_alloc_shares_page :
  let st := pager_after [fault9; phys9; fault10] in
  sval st (SPage 9 1 1) = page_adrs 4099 /\ sval st (SDir 10) = page_adrs 4099 /\ ~ inv st.
Proof.
cbv zeta. set (st := pager_after _).
assert (sval st (SPage 9 1 1) = page_adrs 4099) as E1 by (vm_compute; reflexivity).
assert (sval st (SDir 10) = page_adrs 4099) as E2 by (vm_compute; reflexivity).
split; [exact E1|]. split; [exact E2|]. intros [_ _ [_ Hinj]].
assert (SPage 9 1 1 = SDir 10) as E; [|done].
apply Hinj; [cbn; unfold NR_PROCS; lia|cbn; unfold NR_PROCS; lia| |].
- fold (sval st (SPage 9 1 1)). by rewrite E1.
- fold (sval st (SPage 9 1 1)) (sval st (SDir 10)). congruence.
Qed.

(** The process manager numbers processes up to [PROCNRMAX] = 255, the server
    has [NR_PROCS] = 128 entries: the first page fault of process 128 or
    more indexes [mproc] out of bounds. *)
Theorem page_fault_beyond_table {Sg} (sigma0 : list Z -> Z -> Sg -> option (list Z) * Sg) syscall
    fuel myself src va (st : pager Sg) :
  NR_PROCS <= TID2PROCNR src ->
  mxpager_serve sigma0 syscall fuel myself (Request src 0xFFE0 [va; 0]) st = (Abt, st).
Proof.
intros H. unfold mxpager_serve. cbn [rq_label].
do 13 (rewrite decide_False by done). unfold page_fault_handler, get_targetpage. cbn [rq_src].
unfold cbind at 1, ccall, cbind at 1, target_dir, cbind at 1, pagelink_get, in_mproc.
rewrite (proj2 (Z.ltb_ge _ _) H). by rewrite andb_false_r.
Qed.

Lemma page_fault_beyond_table_witness :
  mxpager_serve grant sys_ok 0 0 (Request (Z.shiftl 200 24) 0xFFE0 [0x400000; 0]) pager5000
    = (Abt, pager5000).
Proof. apply (page_fault_beyond_table grant sys_ok 0 0); vm_compute; discriminate. Defined.
