(* ===== verification/QLock.v ===== *)
(** Queueing locks. The kernel's (src/9/port/qlock.c) keep the waiting threads
    in a list of nodes from [malloc], the C library's (src/libc/9sys/qlock-l4.c)
    in nodes of a static array. A waiting thread sleeps in [L4_Wait] until the
    thread that passes the lock on sends it a message.

    Each function runs under the spin lock [use] (library: [lock]) of the
    object and is one step here; what a thread does after it has released the
    spin lock (sleep, send the messages) is the result of the step. *)

From S2P Require Import Prelude.

(** The threads that the step sends a wake-up message, or none. *)
Inductive act :=
  | Return             (* the call returns *)
  | Sleep (mp : Z)     (* the caller waits for a message; [mp] is its node *)
  | Wake (tid : list Z). (* messages are sent, then the call returns *)

Module Kernel.

(** [Threadque.state] *)
Definition Queueing : Z := 5.
Definition QueueingR : Z := 6.
Definition QueueingW : Z := 7.

Record Threadque := Tq { qnext : Z; tid : Z; state : Z }.

Record rwstats_t := Rwstats {
  st_rlock : Z; st_rlockq : Z; st_wlock : Z; st_wlockq : Z; st_qlock : Z; st_qlockq : Z }.

(** The nodes in use, the next address [malloc] returns, the statistics. *)
Record kmem := Kmem { nodes : gmap Z Threadque; fresh : Z; rwstats : rwstats_t }.

Record QLock := MkQLock { q_head : Z; q_tail : Z; q_locked : Z }.
Record RWlock := MkRWlock {
  r_head : Z; r_tail : Z; r_wpc : Z; r_wproc : Z; r_readers : Z; r_writer : Z }.

Section Ops.
(** [L] is the lock, [QLock] or [RWlock]. *)
Context {L : Type}.

Let kcmd := cmd (kmem * L) act.

Definition kget {A} (f : L -> A) : kcmd A := cgets (fun s => f s.2).
Definition kmod (f : L -> L) : kcmd unit := cmodify (fun s => (s.1, f s.2)).
Definition kstat (f : rwstats_t -> rwstats_t) : kcmd unit :=
  cmodify (fun s => (Kmem (nodes s.1) (fresh s.1) (f (rwstats s.1)), s.2)).

(** [p->...]: a node that is not allocated may not be used. *)
Definition node_get (p : Z) : kcmd Threadque := fun s =>
  match nodes s.1 !! p with Some n => (Go n, s) | None => (Abt, s) end.
Definition node_set (p : Z) (f : Threadque -> Threadque) : kcmd unit := fun s =>
  match nodes s.1 !! p with
  | Some n => (Go tt, (Kmem (<[p := f n]> (nodes s.1)) (fresh s.1) (rwstats s.1), s.2))
  | None => (Abt, s)
  end.
Definition set_qnext (v : Z) (n : Threadque) : Threadque := Tq v (tid n) (state n).

Definition malloc (n : Threadque) : kcmd Z := fun s =>
  (Go (fresh s.1), (Kmem (<[fresh s.1 := n]> (nodes s.1)) (fresh s.1 + 1) (rwstats s.1), s.2)).
Definition free (p : Z) : kcmd unit := fun s =>
  match nodes s.1 !! p with
  | Some _ => (Go tt, (Kmem (delete p (nodes s.1)) (fresh s.1) (rwstats s.1), s.2))
  | None => (Abt, s)
  end.
End Ops.

Definition set_locked (v : Z) (q : QLock) : QLock := MkQLock (q_head q) (q_tail q) v.
Definition set_head (v : Z) (q : QLock) : QLock := MkQLock v (q_tail q) (q_locked q).
Definition set_tail (v : Z) (q : QLock) : QLock := MkQLock (q_head q) v (q_locked q).

Definition inc_qlock (r : rwstats_t) := Rwstats (st_rlock r) (st_rlockq r) (st_wlock r)
  (st_wlockq r) (u32 (st_qlock r + 1)) (st_qlockq r).
Definition inc_qlockq (r : rwstats_t) := Rwstats (st_rlock r) (st_rlockq r) (st_wlock r)
  (st_wlockq r) (st_qlock r) (u32 (st_qlockq r + 1)).
Definition inc_rlock (r : rwstats_t) := Rwstats (u32 (st_rlock r + 1)) (st_rlockq r) (st_wlock r)
  (st_wlockq r) (st_qlock r) (st_qlockq r).
Definition inc_rlockq (r : rwstats_t) := Rwstats (st_rlock r) (u32 (st_rlockq r + 1)) (st_wlock r)
  (st_wlockq r) (st_qlock r) (st_qlockq r).
Definition inc_wlock (r : rwstats_t) := Rwstats (st_rlock r) (st_rlockq r) (u32 (st_wlock r + 1))
  (st_wlockq r) (st_qlock r) (st_qlockq r).
Definition inc_wlockq (r : rwstats_t) := Rwstats (st_rlock r) (st_rlockq r) (st_wlock r)
  (u32 (st_wlockq r + 1)) (st_qlock r) (st_qlockq r).

(** *** QLock *)

Abbreviation qcmd := (cmd (kmem * QLock) act).

Definition qlock (myself : Z) : qcmd act := ccall (
  kstat inc_qlock;;
  locked <- kget q_locked;;
  if decide (locked = 0) then
    kmod (set_locked 1);; creturn Return
  else
    kstat inc_qlockq;;
    r <- malloc (Tq 0 myself Queueing);;
    p <- kget q_tail;;
    (if decide (p = 0) then kmod (set_head r) else node_set p (set_qnext r));;
    kmod (set_tail r);;
    creturn (Sleep r)).

(** [canqlock] when the spin lock is free: was the lock taken? *)
Definition canqlock : qcmd bool :=
  locked <- kget q_locked;;
  if decide (locked <> 0) then cret false
  else kmod (set_locked 1);; cret true.

Definition qunlock : qcmd act := ccall (
  p <- kget q_head;;
  if decide (p <> 0) then
    n <- node_get p;;
    kmod (set_head (qnext n));;
    (if decide (qnext n = 0) then kmod (set_tail 0) else cret tt);;
    free p;;
    creturn (Wake [tid n])
  else
    kmod (set_locked 0);; creturn Return).

(** *** RWlock *)

Abbreviation rcmd := (cmd (kmem * RWlock) act).

Definition rset_head (v : Z) (q : RWlock) := MkRWlock v (r_tail q) (r_wpc q) (r_wproc q) (r_readers q) (r_writer q).
Definition rset_tail (v : Z) (q : RWlock) := MkRWlock (r_head q) v (r_wpc q) (r_wproc q) (r_readers q) (r_writer q).
Definition rset_readers (v : Z) (q : RWlock) := MkRWlock (r_head q) (r_tail q) (r_wpc q) (r_wproc q) (s32 v) (r_writer q).
Definition rset_writer (v : Z) (q : RWlock) := MkRWlock (r_head q) (r_tail q) (r_wpc q) (r_wproc q) (r_readers q) v.
Definition rset_wpc (pc up : Z) (q : RWlock) := MkRWlock (r_head q) (r_tail q) pc up (r_readers q) (r_writer q).

Definition rlock (myself : Z) : rcmd act := ccall (
  kstat inc_rlock;;
  writer <- kget r_writer;;
  head <- kget r_head;;
  if decide (writer = 0 /\ head = 0) then
    n <- kget r_readers;;
    kmod (rset_readers (n + 1));; creturn Return
  else
    kstat inc_rlockq;;
    r <- malloc (Tq 0 myself QueueingR);;
    p <- kget r_tail;;
    (if decide (p = 0) then kmod (rset_head r) else node_set p (set_qnext r));;
    kmod (rset_tail r);;
    creturn (Sleep r)).

Definition runlock : rcmd act := ccall (
  p <- kget r_head;;
  n <- kget r_readers;;
  kmod (rset_readers (n - 1));;
  n' <- kget r_readers;;
  if decide (0 < n' \/ p = 0) then creturn Return
  else
    nd <- node_get p;;
    if decide (state nd <> QueueingW) then cabort (* panic("runlock") *)
    else
      kmod (rset_head (qnext nd));;
      (if decide (qnext nd = 0) then kmod (rset_tail 0) else cret tt);;
      kmod (rset_writer 1);;
      free p;;
      creturn (Wake [tid nd])).

(** The statement [q->tail = up] of the original is commented out, and nothing
    takes its place. *)
Definition wlock (myself pc up : Z) : rcmd act := ccall (
  kstat inc_wlock;;
  readers <- kget r_readers;;
  writer <- kget r_writer;;
  if decide (readers = 0 /\ writer = 0) then
    kmod (rset_wpc pc up);; kmod (rset_writer 1);; creturn Return
  else
    kstat inc_wlockq;;
    p <- kget r_tail;;
    r <- malloc (Tq 0 myself QueueingW);;
    (if decide (p = 0) then kmod (rset_head r) else node_set p (set_qnext r));;
    creturn (Sleep r)).

(** The loop of [wunlock] that wakes readers; the threads woken so far. *)
Fixpoint wake_readers (fuel : nat) (woken : list Z) : rcmd (list Z) :=
  match fuel with
  | O => cabort
  | S fuel' =>
      p <- kget r_head;;
      if decide (p = 0) then cret woken
      else
        nd <- node_get p;;
        if decide (state nd = QueueingR) then
          kmod (rset_head (qnext nd));;
          n <- kget r_readers;;
          kmod (rset_readers (n + 1));;
          free p;;
          wake_readers fuel' (woken ++ [tid nd])
        else cret woken
  end.

Definition wunlock : rcmd act := ccall (
  p <- kget r_head;;
  if decide (p = 0) then kmod (rset_writer 0);; creturn Return
  else
    nd <- node_get p;;
    if decide (state nd = QueueingW) then
      kmod (rset_head (qnext nd));;
      (if decide (qnext nd = 0) then kmod (rset_tail 0) else cret tt);;
      free p;;
      creturn (Wake [tid nd])
    else if decide (state nd <> QueueingR) then cabort (* panic("wunlock") *)
    else
      fuel <- cgets (fun s => S (size (nodes s.1)));;
      woken <- wake_readers fuel [];;
      head <- kget r_head;;
      (if decide (head = 0) then kmod (rset_tail 0) else cret tt);;
      kmod (rset_writer 0);;
      creturn (Wake woken)).

Definition canrlock : rcmd bool :=
  kstat inc_rlock;;
  writer <- kget r_writer;;
  head <- kget r_head;;
  if decide (writer = 0 /\ head = 0) then
    n <- kget r_readers;; kmod (rset_readers (n + 1));; cret true
  else cret false.
End Kernel.

Module User.

Definition Queuing : Z := 0.
Definition QueuingR : Z := 1.
Definition QueuingW : Z := 2.
Definition NQLP : Z := 128.

(** What [_tas] stores (src/libc/386/_tas.S), as an [int]. *)
Definition TAS : Z := s32 0xdeaddead.

(** Node [i] of the array [ql.x] has the address [i + 1]; 0 is [nil]. *)
Record QLp := MkQLp { inuse : Z; next : Z; tid : Z; state : Z }.

Record ulist := Ulist { ql_p : Z; ql_x : gmap Z QLp }.

Record QLock := MkQLock { locked : Z; head : Z; tail : Z }.
Record RWLock := MkRWLock { readers : Z; writer : Z; rhead : Z; rtail : Z }.

Definition qlp_at (u : ulist) (p : Z) : QLp := default (MkQLp 0 0 0 0) (ql_x u !! p).

Section Ops.
Context {L : Type}.
Let ucmd := cmd (ulist * L) act.

Definition uget {A} (f : L -> A) : ucmd A := cgets (fun s => f s.2).
Definition umod (f : L -> L) : ucmd unit := cmodify (fun s => (s.1, f s.2)).
Definition unode (p : Z) : ucmd QLp :=
  if decide (1 <= p <= NQLP) then cgets (fun s => qlp_at s.1 p) else cabort.
Definition unode_set (p : Z) (f : QLp -> QLp) : ucmd unit :=
  if decide (1 <= p <= NQLP) then
    cmodify (fun s => (Ulist (ql_p s.1) (<[p := f (qlp_at s.1 p)]> (ql_x s.1)), s.2))
  else cabort.

Definition set_inuse v n := MkQLp v (next n) (tid n) (state n).
Definition set_next v n := MkQLp (inuse n) v (tid n) (state n).
Definition set_tid v n := MkQLp (inuse n) (next n) v (state n).
Definition set_state v n := MkQLp (inuse n) (next n) (tid n) v.

(** The search of [getqlp] from [p]: every node but [op] is tried once. *)
Fixpoint getqlp_loop (fuel : nat) (op p : Z) : ucmd Z :=
  match fuel with
  | O => cabort
  | S fuel' =>
      let p := if decide (p = NQLP + 1) then 1 else p in
      if decide (p = op) then cabort (* abort() *)
      else
        n <- unode p;;
        unode_set p (set_inuse TAS);; (* _tas(&(p->inuse)) *)
        if decide (inuse n = 0) then
          cmodify (fun s => (Ulist p (ql_x s.1), s.2));;
          unode_set p (set_next 0);;
          cret p
        else getqlp_loop fuel' op (p + 1)
  end.

Definition getqlp : ucmd Z :=
  op <- cgets (fun s => ql_p s.1);;
  getqlp_loop (Z.to_nat NQLP) op (op + 1).

(** After the wake-up message: [mp->inuse = 0]. *)
Definition resume (mp : Z) : ucmd unit := unode_set mp (set_inuse 0).
End Ops.

Abbreviation qcmd := (cmd (ulist * QLock) act).

Definition set_locked (v : Z) (q : QLock) : QLock := MkQLock v (head q) (tail q).
Definition set_head (v : Z) (q : QLock) : QLock := MkQLock (locked q) v (tail q).
Definition set_tail (v : Z) (q : QLock) : QLock := MkQLock (locked q) (head q) v.

Definition qlock (myself : Z) : qcmd act := ccall (
  l <- uget locked;;
  if decide (l = 0) then umod (set_locked 1);; creturn Return
  else
    mp <- getqlp;;
    p <- uget tail;;
    (if decide (p = 0) then umod (set_head mp) else unode_set p (set_next mp));;
    umod (set_tail mp);;
    unode_set mp (set_state Queuing);;
    unode_set mp (set_tid myself);;
    creturn (Sleep mp)).

Definition qunlock : qcmd act := ccall (
  p <- uget head;;
  if decide (p <> 0) then
    n <- unode p;;
    umod (set_head (next n));;
    (if decide (next n = 0) then umod (set_tail 0) else cret tt);;
    creturn (Wake [tid n])
  else umod (set_locked 0);; creturn Return).

Definition canqlock : qcmd bool :=
  l <- uget locked;;
  if decide (l = 0) then umod (set_locked 1);; cret true else cret false.

Abbreviation rcmd := (cmd (ulist * RWLock) act).

Definition set_readers (v : Z) (q : RWLock) := MkRWLock (s32 v) (writer q) (rhead q) (rtail q).
Definition set_writer (v : Z) (q : RWLock) := MkRWLock (readers q) v (rhead q) (rtail q).
Definition set_rhead (v : Z) (q : RWLock) := MkRWLock (readers q) (writer q) v (rtail q).
Definition set_rtail (v : Z) (q : RWLock) := MkRWLock (readers q) (writer q) (rhead q) v.

Definition rlock (myself : Z) : rcmd act := ccall (
  w <- uget writer;;
  h <- uget rhead;;
  if decide (w = 0 /\ h = 0) then
    n <- uget readers;; umod (set_readers (n + 1));; creturn Return
  else
    mp <- getqlp;;
    p <- uget rtail;;
    (if decide (p = 0) then umod (set_rhead mp) else unode_set p (set_next mp));;
    umod (set_rtail mp);;
    unode_set mp (set_next 0);;
    unode_set mp (set_state QueuingR);;
    unode_set mp (set_tid myself);;
    creturn (Sleep mp)).

Definition canrlock : rcmd bool :=
  w <- uget writer;;
  h <- uget rhead;;
  if decide (w = 0 /\ h = 0) then
    n <- uget readers;; umod (set_readers (n + 1));; cret true
  else cret false.

Definition runlock : rcmd act := ccall (
  n <- uget readers;;
  if decide (n <= 0) then cabort
  else
    p <- uget rhead;;
    umod (set_readers (n - 1));;
    n' <- uget readers;;
    if decide (0 < n' \/ p = 0) then creturn Return
    else
      nd <- unode p;;
      if decide (state nd <> QueuingW) then cabort
      else
        umod (set_rhead (next nd));;
        (if decide (next nd = 0) then umod (set_rtail 0) else cret tt);;
        umod (set_writer 1);;
        creturn (Wake [tid nd])).

Definition wlock (myself : Z) : rcmd act := ccall (
  n <- uget readers;;
  w <- uget writer;;
  if decide (n = 0 /\ w = 0) then umod (set_writer 1);; creturn Return
  else
    p <- uget rtail;;
    mp <- getqlp;;
    (if decide (p = 0) then umod (set_rhead mp) else unode_set p (set_next mp));;
    umod (set_rtail mp);;
    unode_set mp (set_next 0);;
    unode_set mp (set_state QueuingW);;
    unode_set mp (set_tid myself);;
    creturn (Sleep mp)).

Definition canwlock : rcmd bool :=
  n <- uget readers;;
  w <- uget writer;;
  if decide (n = 0 /\ w = 0) then umod (set_writer 1);; cret true else cret false.

(** [wunlock]. For waiting readers it calls [rendezvous], the system call of
    the original, and sends them no message: they sleep in [L4_Wait] and go on
    sleeping. [rendezvous p] tells whether the call ever returns for the node
    [p]; one that does not leaves the thread inside [wunlock], with the spin
    lock held. *)
Inductive wu_act := WU (a : act) | Stuck (p : Z).

Section Wunlock.
Variable rendezvous : Z -> bool.

(** The loop of [wunlock] for the readers that wait first. *)
Fixpoint wake_readers (fuel : nat) : cmd (ulist * RWLock) wu_act unit :=
  match fuel with
  | O => cabort
  | S fuel' => fun s =>
      let p := rhead s.2 in
      let nd := qlp_at s.1 p in
      if decide (p <> 0 /\ state nd = QueuingR) then
        let s' := (s.1, set_readers (readers s.2 + 1) (set_rhead (next nd) s.2)) in
        if rendezvous p then wake_readers fuel' s' else (Ret (Stuck p), s')
      else (Go tt, s)
  end.

Definition wunlock : cmd (ulist * RWLock) wu_act wu_act := ccall (
  w <- cgets (fun s => writer s.2);;
  if decide (w = 0) then cabort
  else
    p <- cgets (fun s => rhead s.2);;
    if decide (p = 0) then
      cmodify (fun s => (s.1, set_writer 0 s.2));; creturn (WU Return)
    else
      nd <- cgets (fun s => qlp_at s.1 p);;
      if decide (state nd = QueuingW) then
        cmodify (fun s => (s.1, set_rhead (next nd) s.2));;
        (if decide (next nd = 0) then cmodify (fun s => (s.1, set_rtail 0 s.2)) else cret tt);;
        creturn (WU (Wake [tid nd]))
      else if decide (state nd <> QueuingR) then cabort
      else
        wake_readers (Z.to_nat NQLP + 1);;
        h <- cgets (fun s => rhead s.2);;
        (if decide (h = 0) then cmodify (fun s => (s.1, set_rtail 0 s.2)) else cret tt);;
        cmodify (fun s => (s.1, set_writer 0 s.2));;
        creturn (WU Return)).
End Wunlock.

(** [rsleep] does nothing, [rwakeup] and [rwakeupall] only return 1: the
    bodies of the original are compiled out. *)
Definition rsleep {S} (s : S) : S := s.
Definition rwakeup {S} (s : S) : Z * S := (1, s).
Definition rwakeupall {S} (s : S) : Z * S := (1, s).
End User.
