(* ===== verification/QLockSpec.v ===== *)
(** The contract of a queueing lock, as an interface that the kernel's and the
    library's lock implement; its users' properties (mutual exclusion, first
    come first served) are proved from the interface alone. *)

From S2P Require Import Prelude Links QLock.

(** ** The interface *)

(** A lock object [S]: [lock myself], [unlock], [canlock], and [resume mp], what
    a waiting thread does when it has been woken. [rep s held ws rs]: is the
    lock held, the waiting threads with their nodes in order, the nodes of
    woken threads that have not resumed. [room n]: with [n] nodes in use
    another thread can wait. *)
Class QueueLock (S : Type) := {
  ql_lock : Z -> S -> ctl act act * S;
  ql_unlock : S -> ctl act act * S;
  ql_can : S -> ctl act bool * S;
  ql_resume : Z -> S -> ctl act unit * S;
  ql_rep : S -> bool -> list (Z * Z) -> list Z -> Prop;
  ql_room : nat -> Prop;
  ql_room_mono n k : (n <= k)%nat -> ql_room k -> ql_room n;
  ql_free_empty s ws rs : ql_rep s false ws rs -> ws = [];
  ql_lock_free t s rs : ql_rep s false [] rs ->
    exists s', ql_lock t s = (Go Return, s') /\ ql_rep s' true [] rs;
  ql_lock_busy t s ws rs : ql_rep s true ws rs -> ql_room (length ws + length rs) ->
    exists mp s', ql_lock t s = (Go (Sleep mp), s') /\ ql_rep s' true (ws ++ [(mp, t)]) rs;
  ql_unlock_last s rs : ql_rep s true [] rs ->
    exists s', ql_unlock s = (Go Return, s') /\ ql_rep s' false [] rs;
  ql_unlock_next s mp t ws rs : ql_rep s true ((mp, t) :: ws) rs ->
    exists s', ql_unlock s = (Go (Wake [t]), s') /\ ql_rep s' true ws (mp :: rs);
  ql_can_spec s held ws rs : ql_rep s held ws rs ->
    exists s', ql_can s = (Go (negb held), s') /\ ql_rep s' true ws rs;
  ql_resume_spec s held ws mp rs : ql_rep s held ws (mp :: rs) ->
    exists s', ql_resume mp s = (Go tt, s') /\ ql_rep s' held ws rs
}.

(** *** What threads do with a lock *)

Inductive event :=
  | ELock (t : Z)
  | ECanlock (t : Z)
  | EUnlock (t : Z)
  | EResume (t : Z).

Inductive tstat := Owner | Waiting (mp : Z) | Woken (mp : Z).

Record sys (S : Type) := Sys { obj : S; thr : gmap Z tstat }.
Arguments Sys {S}.
Arguments obj {S}.
Arguments thr {S}.

Section System.
Context {S : Type} `{QueueLock S}.

(** One event: the thread calls the operation; [None] when that is a call the
    thread cannot make now, or when the operation aborts. *)
Definition csys_step (e : event) (y : sys S) : option (sys S) :=
  match e with
  | ELock t =>
      match thr y !! t with
      | Some _ => None
      | None =>
          match ql_lock t (obj y) with
          | (Go Return, s) => Some (Sys s (<[t := Owner]> (thr y)))
          | (Go (Sleep mp), s) => Some (Sys s (<[t := Waiting mp]> (thr y)))
          | _ => None
          end
      end
  | ECanlock t =>
      match thr y !! t with
      | Some _ => None
      | None =>
          match ql_can (obj y) with
          | (Go true, s) => Some (Sys s (<[t := Owner]> (thr y)))
          | (Go false, s) => Some (Sys s (thr y))
          | _ => None
          end
      end
  | EUnlock t =>
      match thr y !! t with
      | Some Owner =>
          match ql_unlock (obj y) with
          | (Go Return, s) => Some (Sys s (delete t (thr y)))
          | (Go (Wake [t']), s) =>
              match thr y !! t' with
              | Some (Waiting mp) => Some (Sys s (<[t' := Woken mp]> (delete t (thr y))))
              | _ => None
              end
          | _ => None
          end
      | _ => None
      end
  | EResume t =>
      match thr y !! t with
      | Some (Woken mp) =>
          match ql_resume mp (obj y) with
          | (Go _, s) => Some (Sys s (<[t := Owner]> (thr y)))
          | _ => None
          end
      | _ => None
      end
  end.

Fixpoint csys_run (es : list event) (y : sys S) : option (sys S) :=
  match es with
  | [] => Some y
  | e :: es' => match csys_step e y with Some y' => csys_run es' y' | None => None end
  end.
End System.

(** *** The abstract lock: a holder and a queue *)

(** The holder, [true] if it has returned from [qlock], and the queue. *)
Record alock := Alock { holder : option (Z * bool); queue : list Z }.

Definition idle (a : alock) (t : Z) : Prop := fst <$> holder a <> Some t /\ t ∉ queue a.

#[export] Instance idle_dec a t : Decision (idle a t).
Proof. unfold idle. apply _. Defined.

Definition alock_step (e : event) (a : alock) : option alock :=
  match e with
  | ELock t =>
      if decide (idle a t) then
        match holder a with
        | None => Some (Alock (Some (t, true)) (queue a))
        | Some h => Some (Alock (Some h) (queue a ++ [t]))
        end
      else None
  | ECanlock t =>
      if decide (idle a t) then
        match holder a with
        | None => Some (Alock (Some (t, true)) (queue a))
        | Some h => Some a
        end
      else None
  | EUnlock t =>
      if decide (holder a = Some (t, true)) then
        match queue a with
        | [] => Some (Alock None [])
        | t' :: q => Some (Alock (Some (t', false)) q)
        end
      else None
  | EResume t =>
      if decide (holder a = Some (t, false)) then Some (Alock (Some (t, true)) (queue a)) else None
  end.

Fixpoint alock_run (es : list event) (a : alock) : option alock :=
  match es with
  | [] => Some a
  | e :: es' => match alock_step e a with Some a' => alock_run es' a' | None => None end
  end.

(** [P] holds of the number of waiting threads all along the run. *)
Fixpoint bounded_run (P : nat -> Prop) (es : list event) (a : alock) : Prop :=
  match es with
  | [] => True
  | e :: es' =>
      match alock_step e a with
      | Some a' => P (length (queue a')) /\ bounded_run P es' a'
      | None => True
      end
  end.

Section Refinement.
Context {S : Type} `{QueueLock S}.

(** The simulation relation. *)
Definition sim (a : alock) (y : sys S) : Prop :=
  exists ws, ws.*2 = queue a /\ NoDup (queue a) /\
    (forall mp t, (mp, t) ∈ ws -> thr y !! t = Some (Waiting mp)) /\
    (forall t, idle a t -> thr y !! t = None) /\
    match holder a with
    | None => ws = [] /\ ql_rep (obj y) false [] []
    | Some (h, true) => (h ∉ queue a) /\ thr y !! h = Some Owner /\ ql_rep (obj y) true ws []
    | Some (h, false) =>
        (h ∉ queue a) /\ exists mp, thr y !! h = Some (Woken mp) /\ ql_rep (obj y) true ws [mp]
    end.

Lemma sim_not_idle a y t : sim a y -> thr y !! t <> None -> ~ idle a t.
Proof. intros (ws & _ & _ & _ & Hi & _) Ht Hidle. by apply Ht, Hi. Qed.

Lemma waiting_in a (ws : list (Z * Z)) mp t : ws.*2 = queue a -> (mp, t) ∈ ws -> t ∈ queue a.
Proof. intros <- H1. apply (list_elem_of_fmap_2 snd) in H1. done. Qed.

Lemma sim_lock t a y a' : sim a y -> alock_step (ELock t) a = Some a' ->
  ql_room (length (queue a')) ->
  exists y', csys_step (ELock t) y = Some y' /\ sim a' y'.
Proof.
intros (ws & Hws & Hnd & Hw & Hi & Hh) Hstep Hroom. cbn in *. case_decide as Hid; [|done].
rewrite (Hi t Hid). destruct Hid as [Hid1 Hid2]. destruct (holder a) as [[h b]|] eqn:Eh.
- simplify_eq/=. rewrite length_app in Hroom. cbn in Hroom.
  assert (exists rs, ql_rep (obj y) true ws rs /\ (length rs <= 1)%nat /\ (h ∉ queue a) /\
    match b with true => rs = [] /\ thr y !! h = Some Owner
    | false => exists mp, rs = [mp] /\ thr y !! h = Some (Woken mp) end) as (rs & Hrep & Hlen & Hhq & Hb).
  { destruct b; [destruct Hh as (? & ? & ?); exists []; auto|].
    destruct Hh as (? & mp & ? & ?). exists [mp]. split_and!; auto. by exists mp. }
  assert (length ws = length (queue a)) as Hlw by (by rewrite <- Hws, length_fmap).
  destruct (ql_lock_busy t (obj y) ws rs Hrep) as (mp & s' & E & Hrep').
  { eapply ql_room_mono; [|exact Hroom]. lia. }
  rewrite E. eexists. split; [reflexivity|]. exists (ws ++ [(mp, t)]). cbn.
  split_and!.
  + by rewrite fmap_app, Hws.
  + apply list.NoDup_app. split_and!; [done| |by apply NoDup_singleton].
    intros x Hx ->%list_elem_of_singleton. done.
  + intros mp' t' [Hin|Hin]%elem_of_app.
    * rewrite lookup_insert_ne; [by apply Hw|]. intros <-. apply Hid2. by eapply waiting_in.
    * apply list_elem_of_singleton in Hin as [= -> ->]. by rewrite lookup_insert_eq.
  + intros t' [Ht1 Ht2]. cbn in *. apply not_elem_of_app in Ht2 as [Ht2 Ht3].
    rewrite lookup_insert_ne; [apply Hi; by split; [rewrite Eh|]|].
    intros ->. apply Ht3. by left.
  + assert (h <> t) as Hht by congruence.
    assert (h ∉ queue a ++ [t]) as Hq.
    { apply not_elem_of_app. split; [done|]. by rewrite list_elem_of_singleton. }
    destruct b.
    * destruct Hb as [-> Ho]. split_and!; [done| |done]. by rewrite lookup_insert_ne by congruence.
    * destruct Hb as (mp' & -> & Ho). split; [done|]. exists mp'. split; [|done].
      by rewrite lookup_insert_ne by congruence.
- simplify_eq/=. destruct Hh as [-> Hrep].
  destruct (ql_lock_free t (obj y) [] Hrep) as (s' & E & Hrep').
  rewrite E. eexists. split; [reflexivity|]. exists []. cbn in *. rewrite <- Hws in *. split_and!; try done.
  + by intros mp' t' Hin%not_elem_of_nil.
  + intros t' [Ht1 Ht2]. cbn in *. rewrite lookup_insert_ne by congruence.
    apply Hi. split; [by rewrite Eh|by rewrite <- Hws].
  + by rewrite lookup_insert_eq.
Qed.

Lemma sim_canlock t a y a' : sim a y -> alock_step (ECanlock t) a = Some a' ->
  exists y', csys_step (ECanlock t) y = Some y' /\ sim a' y'.
Proof.
intros (ws & Hws & Hnd & Hw & Hi & Hh) Hstep. cbn in *. case_decide as Hid; [|done].
rewrite (Hi t Hid). destruct Hid as [Hid1 Hid2]. destruct (holder a) as [[h b]|] eqn:Eh; simplify_eq.
- assert (exists rs, ql_rep (obj y) true ws rs) as (rs & Hrep).
  { destruct b; [by destruct Hh as (_ & _ & ?); eauto|]. by destruct Hh as (_ & mp & _ & ?); eauto. }
  destruct (ql_can_spec (obj y) true ws rs Hrep) as (s' & E & Hrep'). rewrite E.
  eexists. split; [reflexivity|]. exists ws. rewrite Eh. cbn. split_and!; try done.
  assert (forall rs0, ql_rep (obj y) true ws rs0 -> ql_rep s' true ws rs0) as Hall.
  { intros rs0 H0. destruct (ql_can_spec (obj y) true ws rs0 H0) as (s2 & E2 & R2).
    rewrite E in E2. by injection E2 as <-. }
  destruct b.
  + destruct Hh as (? & ? & ?). auto.
  + destruct Hh as (? & mp & ? & ?). eauto.
- destruct Hh as [-> Hrep]. destruct (ql_can_spec (obj y) false [] [] Hrep) as (s' & E & Hrep').
  rewrite E. cbn. eexists. split; [reflexivity|]. exists []. cbn in *. rewrite <- Hws in *.
  split_and!; try done.
  + by intros mp' t' Hin%not_elem_of_nil.
  + intros t' [Ht1 Ht2]. cbn in *. rewrite lookup_insert_ne by congruence.
    apply Hi. split; [by rewrite Eh|by rewrite <- Hws].
  + by rewrite lookup_insert_eq.
Qed.

Lemma sim_unlock t a y a' : sim a y -> alock_step (EUnlock t) a = Some a' ->
  exists y', csys_step (EUnlock t) y = Some y' /\ sim a' y'.
Proof.
intros (ws & Hws & Hnd & Hw & Hi & Hh) Hstep. cbn in *. case_decide as Ho; [|done].
rewrite Ho in Hh. destruct Hh as (Hq & Hown & Hrep). rewrite Hown.
destruct ws as [|[mp t'] ws].
- cbn in Hws. rewrite <- Hws in Hstep. simplify_eq.
  destruct (ql_unlock_last (obj y) [] Hrep) as (s' & E & Hrep'). rewrite E.
  eexists. split; [reflexivity|]. exists []. cbn. split_and!; try done.
  + constructor.
  + by intros mp' t' Hin%not_elem_of_nil.
  + intros t' _. destruct (decide (t' = t)) as [->|Hne]; [by rewrite lookup_delete_eq|].
    rewrite lookup_delete_ne by done. apply Hi. split; [rewrite Ho; cbn; congruence|].
    rewrite <- Hws. by apply not_elem_of_nil.
- cbn in Hws. rewrite <- Hws in *. simplify_eq/=.
  destruct (ql_unlock_next (obj y) mp t' ws [] Hrep) as (s' & E & Hrep'). rewrite E.
  rewrite (Hw mp t') by left. eexists. split; [reflexivity|].
  apply list.NoDup_cons in Hnd as [Hni Hnd]. apply not_elem_of_cons in Hq as [Htt Hq].
  exists ws. cbn. split_and!; try done.
  + intros mp2 t2 Hin. assert (t2 ∈ ws.*2) as Hin2 by (by apply (list_elem_of_fmap_2 snd) in Hin).
    rewrite lookup_insert_ne by (intros ->; done).
    rewrite lookup_delete_ne by (intros ->; done). apply Hw. by right.
  + intros t2 [H1 H2]. cbn in *. rewrite lookup_insert_ne by congruence.
    destruct (decide (t2 = t)) as [->|Hne]; [by rewrite lookup_delete_eq|].
    rewrite lookup_delete_ne by done. apply Hi. split; [rewrite Ho; cbn; congruence|].
    rewrite <- Hws. apply not_elem_of_cons. split; [congruence|done].
  + exists mp. by rewrite lookup_insert_eq.
Qed.

Lemma sim_resume t a y a' : sim a y -> alock_step (EResume t) a = Some a' ->
  exists y', csys_step (EResume t) y = Some y' /\ sim a' y'.
Proof.
intros (ws & Hws & Hnd & Hw & Hi & Hh) Hstep. cbn in *. case_decide as Ho; [|done]. simplify_eq.
rewrite Ho in Hh. destruct Hh as (Hq & mp & Hwk & Hrep). rewrite Hwk.
destruct (ql_resume_spec (obj y) true ws mp [] Hrep) as (s' & E & Hrep'). rewrite E.
eexists. split; [reflexivity|]. exists ws. cbn. split_and!; try done.
- intros mp2 t2 Hin. rewrite lookup_insert_ne; [by apply Hw|]. intros <-.
  apply Hq. by eapply waiting_in.
- intros t2 [H1 H2]. cbn in *. rewrite lookup_insert_ne by congruence.
  apply Hi. split; [rewrite Ho; cbn; congruence|done].
- by rewrite lookup_insert_eq.
Qed.

(** Every run of the abstract lock is a run of the implementation. *)
Lemma sim_run es a y a' : sim a y -> alock_run es a = Some a' -> bounded_run ql_room es a ->
  exists y', csys_run es y = Some y' /\ sim a' y'.
Proof.
revert a y; induction es as [|e es IH]; intros a y Hsim Hrun Hb; cbn in *.
{ simplify_eq. by exists y. }
destruct (alock_step e a) as [a1|] eqn:E; [|done]. destruct Hb as [Hroom Hb].
assert (exists y', csys_step e y = Some y' /\ sim a1 y') as (y' & E' & Hs').
{ destruct e; [by eapply sim_lock|by eapply sim_canlock|by eapply sim_unlock|by eapply sim_resume]. }
rewrite E'. by eapply IH.
Qed.

(** What the threads see of the state of the abstract lock. *)
Definition agrees (a : alock) (y : sys S) : Prop :=
  (forall t, thr y !! t = Some Owner <-> holder a = Some (t, true)) /\
  (forall t, (exists mp, thr y !! t = Some (Woken mp)) <-> holder a = Some (t, false)) /\
  (forall t, (exists mp, thr y !! t = Some (Waiting mp)) <-> t ∈ queue a).

Lemma sim_agrees a y : sim a y -> agrees a y.
Proof.
intros (ws & Hws & Hnd & Hw & Hi & Hh).
assert (forall t, t ∈ queue a -> exists mp, thr y !! t = Some (Waiting mp)) as Hq.
{ intros t Ht. rewrite <- Hws in Ht. apply list_elem_of_fmap in Ht as ([mp t'] & -> & Hin).
  exists mp. by apply Hw. }
assert (forall t, thr y !! t <> None -> t ∈ queue a \/ exists b, holder a = Some (t, b)) as Hcase.
{ intros t Ht. destruct (decide (t ∈ queue a)) as [?|Hnq]; [by left|right].
  destruct (holder a) as [[h b]|] eqn:Eh.
  - destruct (decide (h = t)) as [->|Hne]; [by exists b|].
    exfalso. apply Ht, Hi. split; [rewrite Eh; cbn; congruence|done].
  - exfalso. apply Ht, Hi. split; [by rewrite Eh|done]. }
split_and!; intros t; split.
- intros E. destruct (Hcase t) as [H1|[b Eb]]; [by rewrite E| |].
  + destruct (Hq t H1) as [mp E']. congruence.
  + rewrite Eb in *. destruct b; [done|]. destruct Hh as (_ & mp & E' & _). congruence.
- intros Eb. rewrite Eb in Hh. by destruct Hh as (_ & ? & _).
- intros [mp E]. destruct (Hcase t) as [H1|[b Eb]]; [by rewrite E| |].
  + destruct (Hq t H1) as [mp' E']. congruence.
  + rewrite Eb in *. destruct b; [|done]. destruct Hh as (_ & E' & _). congruence.
- intros Eb. rewrite Eb in Hh. destruct Hh as (_ & mp & ? & _). by exists mp.
- intros [mp E]. destruct (Hcase t) as [H1|[b Eb]]; [by rewrite E|done|].
  rewrite Eb in Hh. destruct b; [destruct Hh as (_ & E' & _)|destruct Hh as (_ & mp' & E' & _)]; congruence.
- apply Hq.
Qed.

Lemma lock_init_sim s : ql_rep s false [] [] -> sim (Alock None []) (Sys s ∅).
Proof.
intros Hr. exists []. cbn. split_and!; try done; [constructor|].
by intros mp t Hin%not_elem_of_nil.
Qed.
End Refinement.

(** ** The kernel's lock *)

Module KernelLock.
Import QLock.Kernel.

Definition kst : Type := kmem * QLock.

(** The node at an address: the thread and the next node. *)
Definition knode (s : kst) (p : Z) : option (Z * Z) :=
  (fun n => (tid n, qnext n)) <$> nodes s.1 !! p.

(** [malloc] returns addresses that are not in use and not [nil]. *)
Definition kwf (k : kmem) : Prop :=
  0 < fresh k /\ forall p, fresh k <= p -> nodes k !! p = None.

Definition krep (s : kst) (held : bool) (ws : list (Z * Z)) (rs : list Z) : Prop :=
  kwf s.1 /\ q_locked s.2 = (if held then 1 else 0) /\ (held = false -> ws = []) /\
  queue_rep (knode s) (q_head s.2) (q_tail s.2) ws.

Ltac kstep :=
  cbv [ccall kstat kget kmod malloc free node_get node_set cgets cmodify creturn cret cabort cbind
    set_locked set_head set_tail rset_head rset_tail rset_readers rset_writer rset_wpc];
  cbn [fst snd q_locked q_head q_tail nodes fresh rwstats
    r_head r_tail r_wpc r_wproc r_readers r_writer].

Lemma linked_alloc s ws a : linked (knode s) ws -> a ∈ ws.*1 -> is_Some (nodes s.1 !! a).
Proof.
intros H Ha. induction ws as [|[b x] r IH]; [by apply not_elem_of_nil in Ha|].
cbn in *. destruct H as (_ & Hb & Hr). apply elem_of_cons in Ha as [->|Ha]; [|by apply IH].
unfold knode in Hb. by destruct (nodes s.1 !! b).
Qed.

(** Appending a fresh node. *)
Lemma queue_append (k : kmem) (q q' : QLock) ws t st rw :
  kwf k -> queue_rep (knode (k, q)) (q_head q) (q_tail q) ws ->
  let n1 := <[fresh k := Tq 0 t st]> (nodes k) in
  let nd := if decide (q_tail q = 0) then n1
            else match n1 !! q_tail q with Some n => <[q_tail q := set_qnext (fresh k) n]> n1 | None => n1 end in
  (q_tail q <> 0 -> is_Some (n1 !! q_tail q)) /\
  kwf (Kmem nd (fresh k + 1) rw) /\
  queue_rep (knode (Kmem nd (fresh k + 1) rw, q')) (if decide (q_tail q = 0) then fresh k else q_head q)
    (fresh k) (ws ++ [(fresh k, t)]).
Proof.
intros [Hf1 Hf2] (Hh & Ht & Hl & Hnd). cbv zeta.
set (n1 := <[fresh k := Tq 0 t st]> (nodes k)).
assert (forall a, a ∈ ws.*1 -> is_Some (nodes k !! a) /\ a <> fresh k) as Halloc.
{ intros a Ha. pose proof (linked_alloc _ _ _ Hl Ha) as Hs. split; [done|]. intros ->.
  cbn in Hs. rewrite Hf2 in Hs by lia. by destruct Hs. }
assert (fresh k ∉ ws.*1) as Hni by (intros Ha; by destruct (Halloc _ Ha)).
assert (n1 !! fresh k = Some (Tq 0 t st)) as En by (unfold n1; by rewrite lookup_insert_eq).
assert (forall a, a <> fresh k -> n1 !! a = nodes k !! a) as Eo
  by (intros a Ha; unfold n1; by rewrite lookup_insert_ne by congruence).
destruct (decide (ws = [])) as [->|Hne].
- cbn in Ht, Hh. rewrite Ht. rewrite !decide_True by done. split; [done|]. split.
  + split; cbn; [lia|]. intros p Hp. rewrite Eo by lia. apply Hf2. lia.
  + split_and!; try done.
    * cbn. split_and!; [lia| |done]. unfold knode; cbn. by rewrite En.
    * apply NoDup_singleton.
- destruct (last_addr_nz _ _ Hl Hne) as [Hlz Hlin]. rewrite <- Ht in Hlz, Hlin.
  destruct (Halloc _ Hlin) as [[n Hn] Hlf]. rewrite (decide_False (P := q_tail q = 0)) by done.
  rewrite Eo by done. rewrite Hn.
  split; [by eauto|]. split.
  + split; cbn; [lia|]. intros p Hp. rewrite lookup_insert_ne.
    * rewrite Eo by lia. apply Hf2. lia.
    * intros Heq. rewrite Hf2 in Hn; [done|lia].
  + split_and!.
    * rewrite hd_addr_snoc. by rewrite !decide_False by done.
    * by rewrite last_addr_snoc.
    * eapply linked_snoc; [exact Hl|done|lia|done| |].
      -- unfold knode; cbn. rewrite lookup_insert_ne by congruence. by rewrite En.
      -- intros b y m Hb Hk. unfold knode in *; cbn in *. rewrite <- Ht.
         destruct (Halloc _ Hb) as [_ Hbf]. case_decide as Hd.
         ++ subst b. rewrite lookup_insert_eq. rewrite Hn in Hk. cbn in *. by simplify_eq.
         ++ rewrite lookup_insert_ne by congruence. by rewrite Eo.
    * rewrite fmap_app. apply list.NoDup_app. split_and!; [done| |by apply NoDup_singleton].
      intros x Hx ->%list_elem_of_singleton. done.
Qed.

Lemma krep_lock_busy t s ws rs : krep s true ws rs ->
  exists mp s', qlock t s = (Go (Sleep mp), s') /\ krep s' true (ws ++ [(mp, t)]) rs.
Proof.
destruct s as [k q]. intros (Hw & Hl & _ & Hq). cbn in Hl, Hw, Hq.
unfold qlock. kstep. rewrite Hl. rewrite decide_False by done. kstep.
pose (k1 := Kmem (nodes k) (fresh k) (inc_qlockq (inc_qlock (rwstats k)))).
destruct (queue_append k1 q (MkQLock (if decide (q_tail q = 0) then fresh k else q_head q) (fresh k) 1)
  ws t Queueing (rwstats k1) Hw Hq) as (Hs & Hw' & Hq').
cbn [k1 nodes fresh] in Hs, Hw', Hq'.
destruct q as [qh qt ql]. cbn in *. subst ql. destruct (decide (qt = 0)) as [Hz|Hz].
- eexists _, _. split; [reflexivity|]. split_and!; try done. 
- kstep. destruct (Hs Hz) as [n Hn]. rewrite Hn in *. kstep.
  eexists _, _. split; [reflexivity|]. by split_and!.
Qed.

Lemma krep_pop (k : kmem) (q q' : QLock) p t ws rw :
  kwf k -> queue_rep (knode (k, q)) (q_head q) (q_tail q) ((p, t) :: ws) ->
  q_head q = p /\ p <> 0 /\
  exists n, nodes k !! p = Some n /\ tid n = t /\ qnext n = hd_addr ws /\
    kwf (Kmem (delete p (nodes k)) (fresh k) rw) /\
    queue_rep (knode (Kmem (delete p (nodes k)) (fresh k) rw, q')) (hd_addr ws)
      (if decide (hd_addr ws = 0) then 0 else q_tail q) ws.
Proof.
intros [Hf1 Hf2] Hq. apply queue_rep_pop in Hq as (Hh & Hp & Hk & Hni & Hq).
split; [done|]. split; [done|]. unfold knode in Hk; cbn in Hk.
destruct (nodes k !! p) as [n|] eqn:En; [|done]. cbn in Hk. simplify_eq.
exists n. split_and!; try done.
- split; [done|]. intros a Ha. cbn. destruct (decide (a = q_head q)) as [->|]; [by rewrite lookup_delete_eq|].
  rewrite lookup_delete_ne by done. by apply Hf2.
- destruct Hq as (H1 & H2 & H3 & H4). split_and!; try done.
  eapply linked_ext; [|exact H3]. intros a Ha. unfold knode; cbn.
  rewrite lookup_delete_ne; [done|]. by intros <-.
Qed.

#[global] Program Instance kernel_lock : QueueLock kst := {|
  ql_lock := qlock;
  ql_unlock := qunlock;
  ql_can := canqlock;
  ql_resume := fun _ s => (Go tt, s);
  ql_rep := krep;
  ql_room := fun _ => True
|}.
Next Obligation. done. Qed.
Next Obligation. by intros s ws rs (_ & _ & H & _); apply H. Qed.
Next Obligation.
intros t [k q] rs (Hw & Hl & _ & Hq). cbn in *. unfold qlock. kstep.
rewrite Hl. rewrite decide_True by done. eexists. split; [reflexivity|]. by split_and!.
Qed.
Next Obligation. intros t s ws rs H _. by apply krep_lock_busy. Qed.
Next Obligation.
intros [k q] rs (Hw & Hl & _ & Hq). cbn in *. unfold qunlock. kstep.
pose proof (proj1 Hq) as Hh. cbn in Hh. rewrite Hh. rewrite decide_False by lia.
eexists. split; [reflexivity|]. by split_and!.
Qed.
Next Obligation.
intros [k q] mp t ws rs (Hw & Hl & _ & Hq). cbn in *.
destruct (krep_pop k q (MkQLock (hd_addr ws) (if decide (hd_addr ws = 0) then 0 else q_tail q) 1)
  mp t ws (rwstats k) Hw Hq) as (Hh & Hp & n & En & Ht & Hn & Hw' & Hq').
unfold qunlock. kstep. rewrite Hh. rewrite decide_True by done. kstep. rewrite En. kstep. rewrite Hn.
case_decide; kstep; rewrite En, Hl, Ht; kstep; (eexists; split; [reflexivity|]); by split_and!.
Qed.
Next Obligation.
intros [k q] held ws rs (Hw & Hl & He & Hq). cbn in *. unfold canqlock. kstep. rewrite Hl.
destruct held; cbn.
- eexists. split; [reflexivity|]. by split_and!.
- eexists. split; [reflexivity|]. by split_and!.
Qed.
Next Obligation. intros s held ws mp rs H. exists s. by split. Qed.

Definition kinit : kst :=
  (Kmem ∅ 1 (Rwstats 0 0 0 0 0 0), MkQLock 0 0 0).

Lemma kinit_rep : ql_rep kinit false [] [].
Proof. split_and!; try done. split_and!; try done. constructor. Qed.
End KernelLock.

(** ** The library's lock *)

Module UserLock.
Import QLock.User.

Definition ust : Type := ulist * QLock.

Definition in_array (p : Z) : Prop := 1 <= p <= NQLP.

(** The nodes of [used] are in use, all others are free. *)
Definition uwf (u : ulist) (used : list Z) : Prop :=
  in_array (ql_p u) /\ NoDup used /\ Forall in_array used /\
  forall p, in_array p -> inuse (qlp_at u p) = if decide (p ∈ used) then TAS else 0.

Ltac ustep :=
  cbv [ccall uget umod cgets cmodify creturn cret cabort cbind set_locked set_head set_tail];
  cbn [fst snd locked head tail ql_p ql_x].

Lemma qlp_at_set u p n a :
  qlp_at (Ulist (ql_p u) (<[p := n]> (ql_x u))) a = if decide (a = p) then n else qlp_at u a.
Proof.
unfold qlp_at; cbn. case_decide as H; [subst; by rewrite lookup_insert_eq|].
by rewrite lookup_insert_ne.
Qed.

Section Getqlp.
Context {L : Type}.

Lemma unode_go p (u : ulist) (q : L) : in_array p -> unode p (u, q) = (Go (qlp_at u p), (u, q)).
Proof. intros H. unfold unode. by rewrite decide_True. Qed.

Lemma unode_set_go p f (u : ulist) (q : L) : in_array p ->
  unode_set p f (u, q) = (Go tt, (Ulist (ql_p u) (<[p := f (qlp_at u p)]> (ql_x u)), q)).
Proof. intros H. unfold unode_set. by rewrite decide_True. Qed.

Definition wrapq (p : Z) : Z := if decide (p = NQLP + 1) then 1 else p.

(** Steps of the search from [p] to [q]. *)
Definition qdist (p q : Z) : Z :=
  if decide (wrapq p <= q) then q - wrapq p else NQLP - wrapq p + q.

Lemma getqlp_loop_spec fuel op p q (u : ulist) (l : L) :
  in_array op -> 2 <= p <= NQLP + 1 \/ wrapq p = op -> in_array q ->
  (forall a, in_array a -> inuse (qlp_at u a) = 0 \/ inuse (qlp_at u a) = TAS) ->
  inuse (qlp_at u q) = 0 -> qdist p q < qdist p op -> qdist p q < Z.of_nat fuel ->
  exists mp u', getqlp_loop fuel op p (u, l) = (Go mp, (u', l)) /\ in_array mp /\
    inuse (qlp_at u mp) = 0 /\ ql_p u' = mp /\
    forall a, qlp_at u' a = if decide (a = mp) then MkQLp TAS 0 (tid (qlp_at u a)) (state (qlp_at u a))
                            else qlp_at u a.
Proof.
revert p u; induction fuel as [|fuel IH]; intros p u Hop Hp Hq Hwf Hfree Hd Hf.
{ unfold qdist, wrapq, in_array, NQLP in *. repeat case_decide; lia. }
cbn [getqlp_loop]. fold (wrapq p). cbv zeta.
assert (wrapq p <> op) as Hne.
{ intros E. unfold qdist in Hd. rewrite E in Hd. unfold in_array, NQLP in *. repeat case_decide; lia. }
assert (in_array (wrapq p)) as Hin.
{ destruct Hp as [Hp|Hp]; [|done]. unfold wrapq, in_array, NQLP in *. case_decide; lia. }
rewrite decide_False by done.
rewrite (cbind_go _ _ _ _ _ (unode_go (wrapq p) u l Hin)).
rewrite (cbind_go _ _ _ _ _ (unode_set_go (wrapq p) (set_inuse TAS) u l Hin)).
set (u1 := Ulist _ _). case_decide as Hu.
- unfold cbind at 1, cmodify. cbn [fst snd].
  rewrite (cbind_go _ _ _ _ _ (unode_set_go (wrapq p) (set_next 0) (Ulist (wrapq p) (ql_x u1)) l Hin)).
  exists (wrapq p). eexists. split; [reflexivity|]. split_and!; try done.
  intros a. rewrite (qlp_at_set (Ulist (wrapq p) (ql_x u1))).
  change (qlp_at (Ulist (wrapq p) (ql_x u1)) ?b) with (qlp_at u1 b). unfold u1.
  rewrite !qlp_at_set. rewrite (decide_True (P := wrapq p = wrapq p)) by done.
  case_decide; [by subst|done].
- assert (forall a, qlp_at u1 a = qlp_at u a) as Eu.
  { intros a. unfold u1. rewrite qlp_at_set. case_decide; [|done]. subst a.
    destruct (Hwf _ Hin) as [?|E]; [done|]. destruct (qlp_at u (wrapq p)). cbn in *. by subst. }
  assert (wrapq p <> q) as Hpq by congruence.
  assert (qdist (wrapq p + 1) q = qdist p q - 1 /\ qdist (wrapq p + 1) op = qdist p op - 1) as [Eq Eop].
  { unfold qdist. set (w := wrapq p) in *. unfold wrapq, in_array, NQLP in *.
    repeat case_decide; lia. }
  destruct (IH (wrapq p + 1) u1) as (mp & u' & E & H1 & H2 & H3 & H4); try done.
  + left. unfold in_array in Hin. lia.
  + intros a Ha. rewrite Eu. by apply Hwf.
  + by rewrite Eu.
  + lia.
  + lia.
  + exists mp, u'. rewrite Eu in H2. split_and!; try done. intros a. rewrite H4, Eu. done.
Qed.

(** With fewer than [NQLP - 1] nodes in use [getqlp] finds a free one. *)
Lemma getqlp_spec u used (l : L) : uwf u used -> (length used < 127)%nat ->
  exists mp u', getqlp (u, l) = (Go mp, (u', l)) /\ in_array mp /\ (mp ∉ used) /\
    uwf u' (used ++ [mp]) /\
    forall a, qlp_at u' a = if decide (a = mp) then MkQLp TAS 0 (tid (qlp_at u a)) (state (qlp_at u a))
                            else qlp_at u a.
Proof.
intros (Hop & Hnd & Hall & Hin) Hlen.
assert (exists q, in_array q /\ q <> ql_p u /\ (q ∉ used)) as (q & Hq & Hqop & Hqu).
{ destruct (decide (Forall (fun q => q ∈ ql_p u :: used) (seqZ 1 NQLP))) as [F|F].
  - exfalso. assert (length (seqZ 1 NQLP) <= length (ql_p u :: used))%nat as Hle.
    { apply List.NoDup_incl_length; [apply NoDup_ListNoDup, NoDup_seqZ|].
      intros x Hx. apply list_elem_of_In. rewrite list.Forall_forall in F. apply F.
      by apply list_elem_of_In. }
    rewrite length_seqZ in Hle. cbn in Hle. unfold NQLP in Hle. lia.
  - apply not_Forall_Exists in F; [|apply _]. apply Exists_exists in F as (q & Hq & Hn).
    apply list_elem_of_In, elem_of_seqZ in Hq. apply not_elem_of_cons in Hn as [H1 H2].
    exists q. split_and!; try done; unfold in_array; lia. }
assert (forall a, in_array a -> inuse (qlp_at u a) = 0 \/ inuse (qlp_at u a) = TAS) as Hwf.
{ intros a Ha. rewrite Hin by done. case_decide; auto. }
assert (inuse (qlp_at u q) = 0) as Hfree by (rewrite Hin by done; by rewrite decide_False).
unfold getqlp, cbind, cgets. cbn [fst].
destruct (getqlp_loop_spec (Z.to_nat NQLP) (ql_p u) (ql_p u + 1) q u l) as (mp & u' & E & H1 & H2 & H3 & H4);
  try done.
- left. unfold in_array in Hop. lia.
- unfold qdist, wrapq, in_array, NQLP in *. repeat case_decide; lia.
- unfold qdist, wrapq, in_array, NQLP in *. repeat case_decide; lia.
- exists mp, u'. assert (mp ∉ used) as Hni.
  { intros Hc. rewrite Hin in H2 by done. rewrite decide_True in H2 by done. done. }
  split_and!; try done. split_and!.
  + by rewrite H3.
  + apply list.NoDup_app. split_and!; [done| |by apply NoDup_singleton].
    intros x Hx ->%list_elem_of_singleton. done.
  + apply Forall_app. split; [done|]. by constructor.
  + intros a Ha. rewrite H4. case_decide as Hd.
    * subst. rewrite decide_True; [done|]. apply elem_of_app. right. by left.
    * rewrite Hin by done. destruct (decide (a ∈ used)).
      -- rewrite decide_True; [done|]. apply elem_of_app. by left.
      -- rewrite decide_False; [done|]. intros [Hc|Hc]%elem_of_app; [done|].
         by apply list_elem_of_singleton in Hc.
Qed.
End Getqlp.

Lemma uwf_perm u used used' : used ≡ₚ used' -> uwf u used -> uwf u used'.
Proof.
intros P (H1 & H2 & H3 & H4). split_and!; [done|by rewrite <- P|by rewrite <- P|].
intros p Hp. rewrite H4 by done. destruct (decide (p ∈ used)) as [Hi|Hi].
- rewrite decide_True; [done|]. by rewrite <- P.
- rewrite decide_False; [done|]. by rewrite <- P.
Qed.

(** Changing links and contents of nodes keeps which are in use. *)
Lemma uwf_same u u' used : ql_p u' = ql_p u ->
  (forall a, inuse (qlp_at u' a) = inuse (qlp_at u a)) -> uwf u used -> uwf u' used.
Proof.
intros Hp Hi (H1 & H2 & H3 & H4). split_and!; try done; [by rewrite Hp|].
intros p Ha. rewrite Hi. by apply H4.
Qed.

(** [getqlp] took the node [mp]: the others are as before. *)
Definition taken (u u1 : ulist) (mp : Z) : Prop :=
  forall a, qlp_at u1 a = if decide (a = mp) then MkQLp TAS 0 (tid (qlp_at u a)) (state (qlp_at u a))
                          else qlp_at u a.

(** The statement [if(p == nil) q->head = mp; else p->next = mp], on the nodes. *)
Definition linked_to (u : ulist) (tl mp : Z) : ulist :=
  if decide (tl = 0) then u else Ulist (ql_p u) (<[tl := set_next mp (qlp_at u tl)]> (ql_x u)).

(** The nodes when [mp] has become the last of a queue that ended at [tl]. *)
Definition queued (u u' : ulist) (tl mp t st : Z) : Prop :=
  forall a, qlp_at u' a = if decide (a = mp) then MkQLp TAS 0 t st
    else if decide (tl <> 0 /\ a = tl) then set_next mp (qlp_at u tl) else qlp_at u a.

Lemma linked_to_at u tl mp a : qlp_at (linked_to u tl mp) a =
  if decide (tl <> 0 /\ a = tl) then set_next mp (qlp_at u tl) else qlp_at u a.
Proof.
unfold linked_to. destruct (decide (tl = 0)) as [Hz|Hz].
- rewrite decide_False; [done|]. tauto.
- rewrite qlp_at_set. destruct (decide (a = tl)).
  + by rewrite decide_True.
  + rewrite decide_False; [done|]. tauto.
Qed.

(** Linking [mp] and then storing into [mp] only gives [queued]. *)
Lemma queued_intro u u1 u' tl mp t st : taken u u1 mp -> tl <> mp ->
  (forall a, a <> mp -> qlp_at u' a = qlp_at (linked_to u1 tl mp) a) ->
  qlp_at u' mp = MkQLp TAS 0 t st -> queued u u' tl mp t st.
Proof.
intros Ht Hne Ho Hm a. destruct (decide (a = mp)) as [->|Ha]; [done|].
rewrite Ho by done. rewrite linked_to_at.
destruct (decide (tl <> 0 /\ a = tl)) as [[Hz ->]|Hd]; rewrite Ht; by rewrite decide_False.
Qed.

Lemma taken_at_mp u u1 tl mp : taken u u1 mp -> tl <> mp ->
  qlp_at (linked_to u1 tl mp) mp = MkQLp TAS 0 (tid (qlp_at u mp)) (state (qlp_at u mp)).
Proof.
intros Ht Hne. rewrite linked_to_at. rewrite decide_False by (intros [_ ?]; congruence).
rewrite Ht. by rewrite decide_True.
Qed.

Section Enqueue.
(** What a client keeps of a node. *)
Context {A : Type} (g : QLp -> A) (Hg : forall v n, g (set_next v n) = g n).

Definition nodes_of (u : ulist) (p : Z) : option (A * Z) :=
  if decide (in_array p) then Some (g (qlp_at u p), next (qlp_at u p)) else None.

Lemma nodes_of_in u p : in_array p -> nodes_of u p = Some (g (qlp_at u p), next (qlp_at u p)).
Proof. intros H. unfold nodes_of. by rewrite decide_True. Qed.

Lemma ws_in_array u (ws : list (Z * A)) rs a : uwf u (ws.*1 ++ rs) -> a ∈ ws.*1 -> in_array a.
Proof.
intros (_ & _ & H & _) Ha. apply Forall_app in H as [H _].
rewrite list.Forall_forall in H. by apply H.
Qed.

(** The tail of a queue is a node of the array, and not the one just taken. *)
Lemma tail_in_array u hd tl (ws : list (Z * A)) rs mp :
  uwf u (ws.*1 ++ rs) -> queue_rep (nodes_of u) hd tl ws -> (mp ∉ ws.*1 ++ rs) -> in_array mp ->
  tl <> mp /\ (tl <> 0 -> in_array tl).
Proof.
intros Hwf (Hh & Ht & Hlk & _) Hni Hmp. destruct (decide (ws = [])) as [->|Hne].
- cbn in Ht. subst tl. split; [|done]. unfold in_array in Hmp. lia.
- destruct (last_addr_nz _ _ Hlk Hne) as [_ Hin]. rewrite <- Ht in Hin. split.
  + intros ->. apply Hni, elem_of_app. by left.
  + intros _. exact (ws_in_array _ _ _ _ Hwf Hin).
Qed.

Lemma enqueue_spec u u1 u' hd tl ws rs mp t st :
  uwf u (ws.*1 ++ rs) -> queue_rep (nodes_of u) hd tl ws -> (mp ∉ ws.*1 ++ rs) ->
  in_array mp -> uwf u1 ((ws.*1 ++ rs) ++ [mp]) -> taken u u1 mp -> ql_p u' = ql_p u1 ->
  queued u u' tl mp t st ->
  uwf u' ((ws ++ [(mp, g (MkQLp TAS 0 t st))]).*1 ++ rs) /\
  queue_rep (nodes_of u') (if decide (tl = 0) then mp else hd) mp (ws ++ [(mp, g (MkQLp TAS 0 t st))]).
Proof.
intros Hwf (Hh & Ht & Hlk & Hnd) Hni Hmp Hwf1 Hat Hp E4.
assert (mp ∉ ws.*1) as Hniw by (intros Hc; apply Hni, elem_of_app; by left).
split.
- apply (uwf_same u1); [done| |].
  + intros a. rewrite E4, Hat. destruct (decide (a = mp)) as [->|]; [done|].
    by destruct (decide (tl <> 0 /\ a = tl)) as [[_ ->]|].
  + eapply uwf_perm; [|exact Hwf1]. rewrite fmap_app. cbn. rewrite <- !app_assoc.
    apply Permutation_app_head. apply Permutation_app_comm.
- split_and!.
  + rewrite hd_addr_snoc. destruct (decide (tl = 0)) as [Hz|Hz].
    * destruct ws as [|w ws']; [done|]. exfalso.
      destruct (last_addr_nz _ _ Hlk ltac:(done)) as [Hlz _]. congruence.
    * rewrite decide_False; [done|]. by intros ->.
  + by rewrite last_addr_snoc.
  + eapply linked_snoc; [exact Hlk|done|unfold in_array in Hmp; lia|done| |].
    * rewrite nodes_of_in by done. rewrite E4. by rewrite decide_True.
    * intros b y m Hb Hk. assert (in_array b) as Hba by exact (ws_in_array _ _ _ _ Hwf Hb).
      rewrite nodes_of_in in Hk |- * by done. rewrite E4.
      rewrite decide_False by congruence. rewrite <- Ht. injection Hk as <- <-.
      assert (tl <> 0) as Hz.
      { intros ->. assert (ws <> []) as Hne by (intros ->; by apply not_elem_of_nil in Hb).
        destruct (last_addr_nz _ _ Hlk Hne). congruence. }
      destruct (decide (b = tl)) as [->|Hd].
      -- rewrite decide_True by done. by rewrite Hg.
      -- rewrite decide_False; [done|]. tauto.
  + rewrite fmap_app. apply list.NoDup_app. split_and!; [done| |by apply NoDup_singleton].
    intros x Hx ->%list_elem_of_singleton. done.
Qed.

(** [resume]: the node [mp] of a woken thread is free again. *)
Lemma resume_spec {L} (q : L) u hd tl (ws : list (Z * A)) mp rs :
  uwf u (ws.*1 ++ mp :: rs) -> queue_rep (nodes_of u) hd tl ws ->
  exists u', resume mp (u, q) = (Go tt, (u', q)) /\ uwf u' (ws.*1 ++ rs) /\
    queue_rep (nodes_of u') hd tl ws.
Proof.
intros Hw (Q1 & Q2 & Q3 & Q4). pose proof Hw as (H1 & H2 & H3 & H4).
apply list.NoDup_app in H2 as (Ha & Hb & Hc). apply list.NoDup_cons in Hc as [Hc1 Hc2].
apply Forall_app in H3 as [H3 H3']. apply Forall_cons_1 in H3' as [Hin H3'].
assert (forall a, a ∈ ws.*1 -> a <> mp) as Hd.
{ intros a Ha' ->. apply (Hb mp Ha'). apply list_elem_of_here. }
eexists. split; [by apply unode_set_go|]. split; split_and!; try done.
- apply list.NoDup_app. split_and!; try done. intros x Hx Hx'. apply (Hb x Hx). by right.
- by apply Forall_app.
- intros a Ha'. rewrite qlp_at_set. destruct (decide (a = mp)) as [->|Hm].
  + rewrite decide_False; [done|]. intros [Hx|Hx]%elem_of_app; [|done]. by apply (Hd mp).
  + rewrite H4 by done. destruct (decide (a ∈ ws.*1 ++ rs)) as [Hx|Hx].
    * rewrite decide_True; [done|]. apply elem_of_app in Hx as [Hx|Hx]; apply elem_of_app; [by left|].
      right. by right.
    * rewrite decide_False; [done|]. intros [Hy|Hy]%elem_of_app; apply Hx, elem_of_app; [by left|].
      apply elem_of_cons in Hy as [?|?]; [done|by right].
- eapply linked_ext; [|exact Q3]. intros a Ha'.
  rewrite !nodes_of_in by exact (ws_in_array _ _ _ _ Hw Ha').
  rewrite qlp_at_set. rewrite decide_False by (by apply Hd). done.
Qed.
End Enqueue.

Definition urep (s : ust) (held : bool) (ws : list (Z * Z)) (rs : list Z) : Prop :=
  uwf s.1 (ws.*1 ++ rs) /\ locked s.2 = (if held then 1 else 0) /\ (held = false -> ws = []) /\
  queue_rep (nodes_of tid s.1) (head s.2) (tail s.2) ws.

Lemma urep_lock_busy t s ws rs : urep s true ws rs -> (length ws + length rs < 127)%nat ->
  exists mp s', qlock t s = (Go (Sleep mp), s') /\ urep s' true (ws ++ [(mp, t)]) rs.
Proof.
destruct s as [u [lk hd tl]]. intros (Hwf & Hl & _ & Hq) Hroom. cbn [fst snd locked head tail] in *.
subst lk.
destruct (getqlp_spec u (ws.*1 ++ rs) (MkQLock 1 hd tl) Hwf) as (mp & u1 & E & Hmp & Hni & Hwf1 & Hat).
{ rewrite length_app, length_fmap. lia. }
destruct (tail_in_array tid u hd tl ws rs mp Hwf Hq Hni Hmp) as [Hne Htl].
unfold qlock. ustep. rewrite decide_False by done. ustep. rewrite E. ustep.
pose (u2 := linked_to u1 tl mp).
pose (u3 := Ulist (ql_p u2) (<[mp := set_state Queuing (qlp_at u2 mp)]> (ql_x u2))).
pose (u4 := Ulist (ql_p u3) (<[mp := set_tid t (qlp_at u3 mp)]> (ql_x u3))).
assert (queued u u4 tl mp t Queuing) as E4.
{ apply (queued_intro u u1); [done|done| |].
  - intros a Ha. unfold u4, u3. rewrite !qlp_at_set. by rewrite !decide_False.
  - unfold u4, u3. rewrite !qlp_at_set. rewrite !decide_True by done.
    unfold u2. by rewrite (taken_at_mp u). }
exists mp, (u4, MkQLock 1 (if decide (tl = 0) then mp else hd) mp). split.
- unfold u4, u3, u2, linked_to. destruct (decide (tl = 0)) as [Hz|Hz].
  + ustep. rewrite !unode_set_go by done. ustep. reflexivity.
  + rewrite unode_set_go by (by apply Htl). ustep. rewrite !unode_set_go by done. ustep.
    reflexivity.
- destruct (enqueue_spec tid ltac:(done) u u1 u4 hd tl ws rs mp t Queuing) as [Hwf' Hq']; try done.
  unfold u4, u3, u2, linked_to. by case_decide.
Qed.

#[global] Program Instance user_lock : QueueLock ust := {|
  ql_lock := qlock;
  ql_unlock := qunlock;
  ql_can := canqlock;
  ql_resume := resume;
  ql_rep := urep;
  ql_room := fun n => (n < 127)%nat
|}.
Next Obligation. cbn. lia. Qed.
Next Obligation. by intros s ws rs (_ & _ & H & _); apply H. Qed.
Next Obligation.
intros t [u [lk hd tl]] rs (Hw & Hl & _ & Hq). cbn [fst snd locked head tail] in *.
unfold qlock. ustep. rewrite Hl. rewrite decide_True by done.
eexists. split; [reflexivity|]. by split_and!.
Qed.
Next Obligation. intros t s ws rs H Hr. by apply urep_lock_busy. Qed.
Next Obligation.
intros [u [lk hd tl]] rs (Hw & Hl & _ & Hq). cbn [fst snd locked head tail] in *.
unfold qunlock. ustep. pose proof (proj1 Hq) as Hh. cbn in Hh. subst hd. ustep.
rewrite decide_False by lia. eexists. split; [reflexivity|]. by split_and!.
Qed.
Next Obligation.
intros [u [lk hd tl]] mp t ws rs (Hw & Hl & _ & Hq). cbn [fst snd locked head tail] in *.
assert (in_array mp) as Hin by (apply (ws_in_array u ((mp, t) :: ws) rs mp Hw), list_elem_of_here).
apply queue_rep_pop in Hq as (-> & Hz & Hk & Hni & Hq). rewrite nodes_of_in in Hk by done.
injection Hk as Ht Hn. unfold qunlock. ustep. rewrite decide_True by done.
rewrite unode_go by done. ustep. rewrite Hn.
assert (uwf u (ws.*1 ++ mp :: rs)) as Hw'.
{ eapply uwf_perm; [|exact Hw]. cbn. by rewrite Permutation_middle. }
destruct (decide (hd_addr ws = 0)) as [He|He]; ustep; rewrite Ht, Hl;
  (eexists; split; [reflexivity|]); by split_and!.
Qed.
Next Obligation.
intros [u [lk hd tl]] held ws rs (Hw & Hl & He & Hq). cbn [fst snd locked head tail] in *.
unfold canqlock. ustep. rewrite Hl. destruct held.
- rewrite decide_False by done. eexists. split; [reflexivity|]. by split_and!.
- rewrite decide_True by done. eexists. split; [reflexivity|]. by split_and!.
Qed.
Next Obligation.
intros [u q] held ws mp rs (Hw & Hl & He & Hq).
destruct (resume_spec tid q u _ _ ws mp rs Hw Hq) as (u' & E & Hw' & Hq').
exists (u', q). by split_and!.
Qed.

(** The static array: no node in use, [ql.p] at its first node. *)
Definition uinit : ust := (Ulist 1 ∅, MkQLock 0 0 0).

Lemma uinit_rep : ql_rep uinit false [] [].
Proof.
split_and!; try done. 
- split_and!; try done. constructor.
- split_and!; try done. constructor.
Qed.
End UserLock.
