(* ===== verification/RWLockSpec.v ===== *)
(** The read-write locks: what a read-write lock promises, as transitions of an
    abstract lock, and that the C library's operations (src/libc/9sys/qlock-l4.c)
    make these transitions; the lists of the kernel's (src/9/port/qlock.c). *)

From S2P Require Import Prelude Links QLock QLockSpec.

(** ** The abstract lock *)

Import QLock.User.

(** The readers, is there a writer, the waiting threads with what they wait for
    ([QueuingR] or [QueuingW]). *)
Record arw := Arw { ar : Z; aw : bool; aq : list (Z * Z) }.

(** A writer excludes readers and other writers; threads wait only for someone
    who holds the lock, and a reader only waits first for a writer. *)
Definition awf (a : arw) : Prop :=
  0 <= ar a /\ (aw a = true -> ar a = 0) /\
  (aq a <> [] -> 0 < ar a \/ aw a = true) /\
  (forall t q, aq a = (t, QueuingR) :: q -> aw a = true) /\
  Forall (fun x => x.2 = QueuingR \/ x.2 = QueuingW) (aq a).

Inductive rwop := RLock (t : Z) | WLock (t : Z) | CanRLock | CanWLock | RUnlock | WUnlock.

Inductive rwres := Granted | Waits | Refused | Done | Wakes (ts : list Z).

(** The readers at the head of the queue. *)
Fixpoint lead_readers (q : list (Z * Z)) : list (Z * Z) :=
  match q with
  | (t, st) :: q' => if decide (st = QueuingR) then (t, st) :: lead_readers q' else []
  | [] => []
  end.

(** [None] when the caller does not hold the lock. *)
Definition arw_step (op : rwop) (a : arw) : option (rwres * arw) :=
  match op with
  | RLock t =>
      if decide (aw a = false /\ aq a = []) then Some (Granted, Arw (ar a + 1) false [])
      else Some (Waits, Arw (ar a) (aw a) (aq a ++ [(t, QueuingR)]))
  | WLock t =>
      if decide (ar a = 0 /\ aw a = false) then Some (Granted, Arw 0 true (aq a))
      else Some (Waits, Arw (ar a) (aw a) (aq a ++ [(t, QueuingW)]))
  | CanRLock =>
      if decide (aw a = false /\ aq a = []) then Some (Granted, Arw (ar a + 1) false [])
      else Some (Refused, a)
  | CanWLock =>
      if decide (ar a = 0 /\ aw a = false) then Some (Granted, Arw 0 true (aq a))
      else Some (Refused, a)
  | RUnlock =>
      if decide (ar a <= 0) then None
      else match aq a with
           | (t, _) :: q => if decide (ar a = 1) then Some (Wakes [t], Arw 0 true q)
                            else Some (Done, Arw (ar a - 1) (aw a) (aq a))
           | [] => Some (Done, Arw (ar a - 1) (aw a) [])
           end
  | WUnlock =>
      if aw a then
        match aq a with
        | [] => Some (Done, Arw 0 false [])
        | (t, st) :: q =>
            if decide (st = QueuingW) then Some (Wakes [t], Arw 0 true q)
            else let rds := lead_readers (aq a) in
                 Some (Wakes rds.*1, Arw (Z.of_nat (length rds)) false (drop (length rds) (aq a)))
        end
      else None
  end.

Lemma lead_readers_split q : q = lead_readers q ++ drop (length (lead_readers q)) q.
Proof.
induction q as [|[t st] q IH]; [done|]. cbn. case_decide; [|done]. cbn. by rewrite <- IH.
Qed.

Lemma lead_readers_rest q t st q' :
  drop (length (lead_readers q)) q = (t, st) :: q' -> st <> QueuingR.
Proof.
induction q as [|[t1 st1] q IH]; [done|]. cbn. case_decide; [exact IH|]. cbn. congruence.
Qed.

(** The transitions keep the lock well formed. *)
Lemma awf_step op a r a' : awf a -> arw_step op a = Some (r, a') -> awf a'.
Proof.
intros (H1 & H2 & H3 & H4 & H5) Hs. destruct a as [n w q]. cbn in *.
assert (forall t st, Forall (fun x : Z * Z => x.2 = QueuingR \/ x.2 = QueuingW) q ->
  st = QueuingR \/ st = QueuingW ->
  Forall (fun x : Z * Z => x.2 = QueuingR \/ x.2 = QueuingW) (q ++ [(t, st)])) as Happ.
{ intros t st Hq Hst. apply Forall_app. split; [done|]. by constructor. }
destruct op as [t|t| | | |]; cbn in Hs.
- case_decide as Hd; simplify_eq.
  + split_and!; cbn; try done; lia.
  + split_and!; cbn; try done; [| |apply Happ; auto].
    * intros _. destruct q as [|x q]; [|by apply H3]. destruct w; [by right|]. tauto.
    * intros t' q' Hq. destruct q as [|x q]; [|cbn in Hq; simplify_eq; by eapply H4].
      destruct w; [done|]. tauto.
- case_decide as Hd; simplify_eq.
  + split_and!; cbn; try done. intros _. by right.
  + split_and!; cbn; try done; [| |apply Happ; auto].
    * intros _. destruct w; [by right|left]. lia.
    * intros t' q' Hq. destruct q as [|x q]; [done|]. cbn in Hq. simplify_eq. by eapply H4.
- case_decide as Hd; simplify_eq; [|done].
  split_and!; cbn; try done; lia.
- case_decide as Hd; simplify_eq; [|done]. split_and!; cbn; try done. intros _. by right.
- case_decide as Hd; [done|]. assert (w = false) as ->.
  { destruct w; [|done]. specialize (H2 eq_refl). lia. }
  destruct q as [|[t st] q]; simplify_eq.
  + split_and!; cbn; try done; lia.
  + apply Forall_cons_1 in H5 as [H5 H6]. case_decide; simplify_eq.
    * split_and!; cbn; try done. by right.
    * split_and!; cbn; try done; [lia|left; lia|by constructor].
- destruct w; [|done]. destruct q as [|[t st] q]; simplify_eq.
  { split_and!; cbn; done. }
  destruct (decide (st = QueuingW)); simplify_eq.
  + apply Forall_cons_1 in H5 as [H5 H6]. split_and!; cbn; try done. by right.
  + apply Forall_cons_1 in H5 as [H5 H6]. cbn in H5. destruct H5 as [H5|H5]; [|done].
    cbn [lead_readers]. rewrite decide_True by done. cbn [length drop].
    split_and!; cbn; try done; [| |].
    * intros _. left. lia.
    * intros t' q' Hq. by apply lead_readers_rest in Hq.
    * rewrite (lead_readers_split q) in H6. by apply Forall_app in H6 as [_ H6].
Qed.

(** ** The library's lock *)

Module UserRW.
Import QLockSpec.UserLock.

Definition urst : Type := ulist * RWLock.

(** What the queue keeps of a node: the thread and what it waits for. *)
Definition waiter (n : QLp) : Z * Z := (tid n, state n).

(** The abstract lock [a], the nodes of woken threads that have not resumed. *)
Definition rep (s : urst) (a : arw) (rs : list Z) : Prop :=
  exists ws, ws.*2 = aq a /\ uwf s.1 (ws.*1 ++ rs) /\
    readers s.2 = ar a /\ writer s.2 = (if aw a then 1 else 0) /\
    queue_rep (nodes_of waiter s.1) (rhead s.2) (rtail s.2) ws.

Section Op.
Variable rendezvous : Z -> bool.

(** The call of an operation; [None] if it aborts or does not return. *)
Definition user_rw (op : rwop) (s : urst) : option (rwres * urst) :=
  let act_res (x : ctl act act * urst) (ret : rwres) :=
    match x with
    | (Go Return, s') => Some (ret, s')
    | (Go (Sleep _), s') => Some (Waits, s')
    | (Go (Wake ts), s') => Some (Wakes ts, s')
    | _ => None
    end in
  let bool_res (x : ctl act bool * urst) :=
    match x with
    | (Go true, s') => Some (Granted, s')
    | (Go false, s') => Some (Refused, s')
    | _ => None
    end in
  match op with
  | RLock t => act_res (rlock t s) Granted
  | WLock t => act_res (wlock t s) Granted
  | CanRLock => bool_res (canrlock s)
  | CanWLock => bool_res (canwlock s)
  | RUnlock => act_res (runlock s) Done
  | WUnlock =>
      match wunlock rendezvous s with
      | (Go (WU Return), s') => Some (Done, s')
      | (Go (WU (Wake ts)), s') => Some (Wakes ts, s')
      | _ => None
      end
  end.
End Op.

Ltac rwstep :=
  cbv [user_rw ccall uget umod cgets cmodify creturn cret cabort cbind set_readers set_writer set_rhead set_rtail];
  cbn [fst snd readers writer rhead rtail ql_p ql_x].

(** An empty queue has a [nil] head, and only an empty one. *)
Lemma rep_head u (ws : list (Z * (Z * Z))) hd tl (q : list (Z * Z)) :
  queue_rep (nodes_of waiter u) hd tl ws -> ws.*2 = q -> hd = 0 <-> q = [].
Proof.
intros (Hh & _ & Hl & _) <-. destruct ws as [|[a x] ws]; cbn in *; [done|].
destruct Hl as [Ha _]. split; [congruence|done].
Qed.

(** The first waiting thread leaves the queue. *)
Lemma rep_pop (u : ulist) hd tl (a : Z) (t st : Z) ws rs :
  uwf u (((a, (t, st)) :: ws).*1 ++ rs) ->
  queue_rep (nodes_of waiter u) hd tl ((a, (t, st)) :: ws) ->
  hd = a /\ in_array a /\ a <> 0 /\ tid (qlp_at u a) = t /\ state (qlp_at u a) = st /\
  next (qlp_at u a) = hd_addr ws /\ uwf u (ws.*1 ++ a :: rs) /\
  queue_rep (nodes_of waiter u) (hd_addr ws) (if decide (hd_addr ws = 0) then 0 else tl) ws.
Proof.
intros Hw Hq. assert (in_array a) as Hin.
{ apply (ws_in_array u ((a, (t, st)) :: ws) rs a Hw), list_elem_of_here. }
apply queue_rep_pop in Hq as (-> & Ha & Hk & Hni & Hq). rewrite nodes_of_in in Hk by done.
unfold waiter in Hk. injection Hk as Ht Hs Hn. split_and!; try done.
eapply uwf_perm; [|exact Hw]. cbn. by rewrite Permutation_middle.
Qed.

(** *** Waiting *)

Definition put (p : Z) (f : QLp -> QLp) (u : ulist) : ulist :=
  Ulist (ql_p u) (<[p := f (qlp_at u p)]> (ql_x u)).

(** The nodes after [mp] has been linked and filled in. *)
Definition filled (u : ulist) (tl mp t st : Z) : ulist :=
  put mp (set_tid t) (put mp (set_state st) (put mp (set_next 0) (linked_to u tl mp))).

Lemma filled_queued u u1 tl mp t st : taken u u1 mp -> tl <> mp ->
  queued u (filled u1 tl mp t st) tl mp t st.
Proof.
intros Ht Hne. apply (queued_intro u u1); [done|done| |].
- intros a Ha. unfold filled, put. rewrite !qlp_at_set. by rewrite !decide_False.
- unfold filled, put. rewrite !qlp_at_set. rewrite !decide_True by done.
  by rewrite (taken_at_mp u).
Qed.

(** The end of [rlock] and [wlock]: link the node, fill it in, wait. *)
Definition enqueue (t st mp p : Z) : cmd (ulist * RWLock) act act :=
  (if decide (p = 0) then umod (set_rhead mp) else unode_set p (set_next mp));;
  umod (set_rtail mp);;
  unode_set mp (set_next 0);;
  unode_set mp (set_state st);;
  unode_set mp (set_tid t);;
  creturn (Sleep mp).

Lemma enqueue_go t st mp u n w hd tl : in_array mp -> (tl <> 0 -> in_array tl) ->
  enqueue t st mp tl (u, MkRWLock n w hd tl) =
  (Ret (Sleep mp), (filled u tl mp t st, MkRWLock n w (if decide (tl = 0) then mp else hd) mp)).
Proof.
intros Hmp Htl. unfold enqueue, filled, linked_to. destruct (decide (tl = 0)) as [Hz|Hz].
- rwstep. repeat (rewrite unode_set_go by done; rwstep). done.
- rwstep. rewrite unode_set_go by (by apply Htl). rwstep. repeat (rewrite unode_set_go by done; rwstep).
  done.
Qed.

Lemma rep_enqueue u n w hd tl ws rs t st :
  uwf u (ws.*1 ++ rs) -> queue_rep (nodes_of waiter u) hd tl ws ->
  (length ws + length rs < 127)%nat ->
  exists mp u1, in_array mp /\ (tl <> 0 -> in_array tl) /\
    getqlp (u, MkRWLock n w hd tl) = (Go mp, (u1, MkRWLock n w hd tl)) /\
    uwf (filled u1 tl mp t st) ((ws ++ [(mp, (t, st))]).*1 ++ rs) /\
    queue_rep (nodes_of waiter (filled u1 tl mp t st)) (if decide (tl = 0) then mp else hd) mp
      (ws ++ [(mp, (t, st))]).
Proof.
intros Hw Hq Hlen.
destruct (getqlp_spec u (ws.*1 ++ rs) (MkRWLock n w hd tl) Hw) as (mp & u1 & E & Hmp & Hni & Hw1 & Hat).
{ rewrite length_app, length_fmap. lia. }
destruct (tail_in_array waiter u hd tl ws rs mp Hw Hq Hni Hmp) as [Hne Htl].
exists mp, u1. split_and!; try done;
  apply (enqueue_spec waiter ltac:(done) u u1 (filled u1 tl mp t st) hd tl ws rs mp t st);
  try done; try (by apply filled_queued);
  unfold filled, put, linked_to; by case_decide.
Qed.

(** *** The operations *)

(** The simulation of one operation. *)
Definition simulates (op : rwop) (rdv : Z -> bool) : Prop :=
  forall s a rs r a', rep s a rs -> awf a -> arw_step op a = Some (r, a') ->
  ar a < 2 ^ 31 - 1 -> (length (aq a) + length rs < 127)%nat ->
  exists s' rs', user_rw rdv op s = Some (r, s') /\ rep s' a' rs' /\
    (length (aq a') + length rs' <= S (length (aq a) + length rs))%nat.

Lemma waits_sim t st s a rs : rep s a rs -> (length (aq a) + length rs < 127)%nat ->
  exists mp u1 s', getqlp s = (Go mp, (u1, s.2)) /\
    enqueue t st mp (rtail s.2) (u1, s.2) = (Ret (Sleep mp), s') /\
    rep s' (Arw (ar a) (aw a) (aq a ++ [(t, st)])) rs.
Proof.
destruct s as [u [n w hd tl]]. intros (ws & Hws & Hw & Hn & Hwr & Hq) Hlen.
cbn [fst snd rhead rtail readers writer] in *.
destruct (rep_enqueue u n w hd tl ws rs t st Hw Hq) as (mp & u1 & Hmp & Htl & E & Hw' & Hq').
{ rewrite <- Hws, length_fmap in Hlen. done. }
exists mp, u1. eexists. split; [exact E|]. split; [by apply enqueue_go|].
exists (ws ++ [(mp, (t, st))]). split_and!; try done. cbn. by rewrite fmap_app, Hws.
Qed.

Lemma rlock_busy t s mp u1 s' : ~ (writer s.2 = 0 /\ rhead s.2 = 0) ->
  getqlp s = (Go mp, (u1, s.2)) ->
  enqueue t QueuingR mp (rtail s.2) (u1, s.2) = (Ret (Sleep mp), s') ->
  rlock t s = (Go (Sleep mp), s').
Proof.
intros H E1 E2. unfold rlock, ccall, cbind at 1 2, uget at 1 2, cgets at 1 2.
rewrite decide_False by done. rewrite (cbind_go _ _ _ _ _ E1).
match goal with |- context [cbind (uget rtail) ?K ?s1] =>
  change (cbind (uget rtail) K s1) with (enqueue t QueuingR mp (rtail s.2) (u1, s.2)) end.
by rewrite E2.
Qed.

Lemma wlock_busy t s mp u1 s' : ~ (readers s.2 = 0 /\ writer s.2 = 0) ->
  getqlp s = (Go mp, (u1, s.2)) ->
  enqueue t QueuingW mp (rtail s.2) (u1, s.2) = (Ret (Sleep mp), s') ->
  wlock t s = (Go (Sleep mp), s').
Proof.
intros H E1 E2. unfold wlock, ccall, cbind at 1 2, uget at 1 2, cgets at 1 2.
rewrite decide_False by done. unfold cbind at 1, uget at 1, cgets at 1.
rewrite (cbind_go _ _ _ _ _ E1).
match goal with |- context [cbind (if decide (rtail s.2 = 0) then ?A else ?B) ?K ?s1] =>
  change (cbind (if decide (rtail s.2 = 0) then A else B) K s1)
    with (enqueue t QueuingW mp (rtail s.2) (u1, s.2)) end.
by rewrite E2.
Qed.

(** The tests of [rlock] and [wlock]. *)
Lemma rep_rguard s a rs : rep s a rs ->
  writer s.2 = 0 /\ rhead s.2 = 0 <-> aw a = false /\ aq a = [].
Proof.
intros (ws & Hws & _ & _ & Hwr & Hq). rewrite (rep_head _ _ _ _ _ Hq Hws), Hwr.
by destruct (aw a); split; intros [? ?].
Qed.

Lemma rep_wguard s a rs : rep s a rs ->
  readers s.2 = 0 /\ writer s.2 = 0 <-> ar a = 0 /\ aw a = false.
Proof.
intros (ws & _ & _ & Hn & Hwr & _). rewrite Hn, Hwr. by destruct (aw a); split; intros [? ?].
Qed.

(** The operations that only change the counts. *)
Lemma rep_counts s a rs n w w' : rep s a rs -> - 2 ^ 31 <= n < 2 ^ 31 -> w' = (if w : bool then 1 else 0) ->
  rep (s.1, MkRWLock (s32 n) w' (rhead s.2) (rtail s.2)) (Arw n w (aq a)) rs.
Proof.
intros (ws & Hws & Hw & _ & _ & Hq) Hn ->. exists ws. split_and!; try done. cbn. apply s32_small. lia.
Qed.

Lemma rlock_sim rdv t : simulates (RLock t) rdv.
Proof.
intros s a rs r a' Hr Hwf Hs Hmax Hlen. pose proof (rep_rguard s a rs Hr) as Hg.
destruct Hwf as (H0 & _). cbn in Hs.
destruct (decide (aw a = false /\ aq a = [])) as [Hd|Hd]; simplify_eq.
- pose proof (rep_counts s a rs (ar a + 1) false 0 Hr ltac:(lia) eq_refl) as Hr'.
  destruct Hd as [Hd1 Hd2]. pose proof Hr as (ws & _ & _ & Hn & Hwr & _). rewrite Hd1 in Hwr.
  unfold user_rw, rlock. rwstep. rewrite decide_True by tauto. rwstep.
  rewrite Hn, Hwr. rewrite Hd2 in *.
  eexists _, rs. split; [reflexivity|]. split; [exact Hr'|cbn; lia].
- destruct (waits_sim t QueuingR s a rs Hr Hlen) as (mp & u1 & s' & E1 & E2 & Hr').
  exists s', rs. split; [|split; [exact Hr'|cbn; rewrite length_app; cbn; lia]].
  unfold user_rw. by rewrite (rlock_busy t s mp u1 s') by (done || tauto).
Qed.

Lemma wlock_sim rdv t : simulates (WLock t) rdv.
Proof.
intros s a rs r a' Hr Hwf Hs Hmax Hlen. pose proof (rep_wguard s a rs Hr) as Hg.
destruct Hwf as (H0 & _). cbn in Hs.
destruct (decide (ar a = 0 /\ aw a = false)) as [Hd|Hd]; simplify_eq.
- destruct Hr as (ws & Hws & Hw & Hn & Hwr & Hq).
  unfold user_rw, wlock. rwstep. rewrite decide_True by tauto. rwstep.
  eexists _, rs. split; [reflexivity|]. split; [|cbn; lia].
  exists ws. split_and!; try done. cbn. tauto.
- destruct (waits_sim t QueuingW s a rs Hr Hlen) as (mp & u1 & s' & E1 & E2 & Hr').
  exists s', rs. split; [|split; [exact Hr'|cbn; rewrite length_app; cbn; lia]].
  unfold user_rw. by rewrite (wlock_busy t s mp u1 s') by (done || tauto).
Qed.

Lemma canrlock_sim rdv : simulates CanRLock rdv.
Proof.
intros s a rs r a' Hr Hwf Hs Hmax Hlen. pose proof (rep_rguard s a rs Hr) as Hg.
destruct Hwf as (H0 & _). cbn in Hs. unfold user_rw, canrlock.
destruct (decide (aw a = false /\ aq a = [])) as [Hd|Hd]; simplify_eq.
- pose proof (rep_counts s a rs (ar a + 1) false 0 Hr ltac:(lia) eq_refl) as Hr'.
  destruct Hd as [Hd1 Hd2]. pose proof Hr as (ws & _ & _ & Hn & Hwr & _). rewrite Hd1 in Hwr.
  rwstep. rewrite decide_True by tauto. rwstep.
  rewrite Hn, Hwr. rewrite Hd2 in *.
  eexists _, rs. split; [reflexivity|]. split; [exact Hr'|cbn; lia].
- rwstep. rewrite decide_False by tauto. rwstep. exists s, rs. split; [done|]. split; [done|lia].
Qed.

Lemma canwlock_sim rdv : simulates CanWLock rdv.
Proof.
intros s a rs r a' Hr Hwf Hs Hmax Hlen. pose proof (rep_wguard s a rs Hr) as Hg.
destruct Hwf as (H0 & _). cbn in Hs. unfold user_rw, canwlock.
destruct (decide (ar a = 0 /\ aw a = false)) as [Hd|Hd]; simplify_eq.
- destruct Hr as (ws & Hws & Hw & Hn & Hwr & Hq). rwstep. rewrite decide_True by tauto. rwstep.
  eexists _, rs. split; [reflexivity|]. split; [|cbn; lia].
  exists ws. split_and!; try done. cbn. tauto.
- rwstep. rewrite decide_False by tauto. rwstep. exists s, rs. split; [done|]. split; [done|lia].
Qed.

Lemma runlock_sim rdv : simulates RUnlock rdv.
Proof.
intros s a rs r a' Hr Hwf Hs Hmax Hlen. destruct Hwf as (H0 & H1 & _ & H4 & H5). cbn in Hs.
destruct (decide (ar a <= 0)) as [|Hpos]; [done|].
pose proof (rep_counts s a rs (ar a - 1) (aw a) (writer s.2) Hr ltac:(lia)) as Hr'.
destruct s as [u [n w hd tl]]. pose proof Hr as (ws & Hws & Hw & Hn & Hwr & Hq).
cbn [fst snd rhead rtail readers writer] in *. specialize (Hr' Hwr).
pose proof (rep_head _ _ _ _ _ Hq Hws) as Hh.
unfold user_rw, runlock. rwstep. rewrite decide_False by lia. rwstep.
rewrite s32_small by lia. rewrite s32_small in Hr' by lia. rewrite <- Hn in *.
destruct (aq a) as [|[t st] q] eqn:Eq.
- simplify_eq. rewrite decide_True by tauto. eexists _, rs. split; [reflexivity|].
  split; [exact Hr'|cbn; lia].
- destruct (decide (n = 1)) as [->|Hn1]; simplify_eq.
  + destruct ws as [|[mp x] ws]; [done|]. cbn in Hws. injection Hws as -> Hws.
    assert (st = QueuingW) as ->.
    { apply Forall_cons_1 in H5 as [[H5|H5] _]; cbn in H5; [rewrite H5 in H4|done].
      specialize (H4 t q eq_refl). specialize (H1 H4). lia. }
    destruct (rep_pop u hd tl mp t QueuingW ws rs Hw Hq) as (-> & Hin & Hz & Ht & Hst & Hnx & Hw' & Hq').
    rewrite decide_False by lia. rewrite unode_go by done. rewrite decide_False by (intros Hc; by apply Hc).
    rwstep. rewrite Hnx, Ht.
    exists (u, MkRWLock 0 1 (hd_addr ws) (if decide (hd_addr ws = 0) then 0 else tl)), (mp :: rs).
    split; [by case_decide|]. split; [|cbn; lia].
    exists ws. split_and!; try done.
  + rewrite decide_True by lia. eexists _, rs. split; [reflexivity|].
    split; [exact Hr'|cbn; lia].
Qed.

(** The loop for the readers at the head of the queue; [tl0] is the stored
    tail, which the loop leaves alone. *)
Lemma wake_readers_spec rdv fuel u n w hd tl tl0 rds ws rs :
  uwf u ((rds ++ ws).*1 ++ rs) -> queue_rep (nodes_of waiter u) hd tl (rds ++ ws) ->
  Forall (fun x => x.2.2 = QueuingR) rds -> (forall x ws', ws = x :: ws' -> x.2.2 <> QueuingR) ->
  (length rds < fuel)%nat -> 0 <= n -> n + Z.of_nat (length rds) < 2 ^ 31 ->
  (forall mp, mp ∈ rds.*1 -> rdv mp = true) ->
  exists tl' rs', wake_readers rdv fuel (u, MkRWLock n w hd tl0) =
      (Go tt, (u, MkRWLock (n + Z.of_nat (length rds)) w (hd_addr ws) tl0)) /\
    (hd_addr ws <> 0 -> tl' = tl) /\
    uwf u (ws.*1 ++ rs') /\ queue_rep (nodes_of waiter u) (hd_addr ws) tl' ws /\
    length rs' = (length rds + length rs)%nat.
Proof.
revert fuel n hd tl rs. induction rds as [|[mp [t st]] rds IH];
  intros fuel n hd tl rs Hw Hq HR Hnr Hf Hn Hmax Hrdv;
  (destruct fuel as [|fuel]; [cbn in Hf; lia|]); cbn [wake_readers fst snd rhead].
- exists tl, rs. cbn [app] in *. pose proof (proj1 Hq) as ->.
  rewrite decide_False.
  + cbn. rewrite Z.add_0_r. by split_and!.
  + intros [Hz Hst]. destruct ws as [|[a [t st]] ws]; [done|].
    destruct (rep_pop u _ tl a t st ws rs Hw Hq) as (_ & _ & _ & _ & Hs & _).
    apply (Hnr (a, (t, st)) ws eq_refl). cbn in *. congruence.
- cbn [app] in Hw, Hq.
  destruct (rep_pop u hd tl mp t st (rds ++ ws) rs Hw Hq) as (-> & Hin & Hz & Ht & Hst & Hnx & Hw' & Hq').
  apply Forall_cons_1 in HR as [HR1 HR]. cbn in HR1. rewrite HR1 in Hst. rewrite decide_True by done.
  rewrite Hrdv by apply list_elem_of_here. unfold set_readers, set_rhead. cbn [readers writer rhead rtail].
  cbn [length] in Hf, Hmax. rewrite s32_small by lia. rewrite Hnx.
  destruct (IH fuel (n + 1) _ _ _ Hw' Hq') as (tl' & rs' & E & Htl & Hw2 & Hq2 & Hlen);
    try done; try lia.
  { intros mp' Hmp'. apply Hrdv. by apply list_elem_of_further. }
  exists tl', rs'. rewrite E. split_and!; try done.
  + f_equal. f_equal. f_equal. cbn [length]. lia.
  + intros Hz'. rewrite (Htl Hz'). rewrite decide_False; [done|].
    destruct rds as [|[b y] rds]; [done|]. destruct Hq' as (_ & _ & Hl' & _). cbn in Hl' |- *. tauto.
  + cbn in *. lia.
Qed.

Lemma lead_readers_all q : Forall (fun x : Z * Z => x.2 = QueuingR) (lead_readers q).
Proof.
induction q as [|[t st] q IH]; cbn; [constructor|]. case_decide; [|constructor]. by constructor.
Qed.

(** [wunlock] with readers first: they have the lock, and nobody tells them. *)
Lemma wunlock_readers rdv s a rs t q : rep s a rs -> awf a -> aw a = true ->
  aq a = (t, QueuingR) :: q -> (length (aq a) + length rs < 127)%nat ->
  (forall mp, rdv mp = true) ->
  let rds := lead_readers (aq a) in
  exists s' rs', wunlock rdv s = (Go (WU Return), s') /\
    rep s' (Arw (Z.of_nat (length rds)) false (drop (length rds) (aq a))) rs' /\
    length rs' = (length rds + length rs)%nat.
Proof.
intros (ws & Hws & Hw & Hn & Hwr & Hq) (_ & H1 & _) Haw Haq Hlen Hrdv rds.
rewrite Haw in Hwr. rewrite (H1 Haw) in Hn. destruct s as [u [n w hd tl]].
cbn [fst snd rhead rtail readers writer] in *. subst n w.
assert (take (length rds) ws ++ drop (length rds) ws = ws) as Hsp by apply take_drop.
set (w1 := take (length rds) ws) in *. set (w2 := drop (length rds) ws) in *.
assert (w1.*2 = rds /\ w2.*2 = drop (length rds) (aq a)) as [E1 E2].
{ unfold w1, w2. rewrite fmap_take, fmap_drop, Hws. split; [|done].
  unfold rds. rewrite (lead_readers_split (aq a)) at 2. apply take_app_length. }
assert (length w1 = length rds) as Hl1 by (by rewrite <- E1, length_fmap).
assert (hd <> 0 /\ state (qlp_at u hd) = QueuingR) as [Hz Hst].
{ rewrite Haq in Hws. destruct ws as [|[mp x] ws']; [done|]. cbn in Hws. injection Hws as -> _.
  destruct (rep_pop u hd tl mp t QueuingR ws' rs Hw Hq) as (-> & _ & ? & _ & ? & _). done. }
destruct (wake_readers_spec rdv (Z.to_nat NQLP + 1) u 0 1 hd tl tl w1 w2 rs)
  as (tl' & rs' & E & Htl & Hw' & Hq' & Hlen'); try (by rewrite Hsp); try done.
{ apply list.Forall_forall. intros x Hx. apply (list_elem_of_fmap_2 snd) in Hx. rewrite E1 in Hx.
  by pose proof (proj1 (list.Forall_forall _ _) (lead_readers_all (aq a)) _ Hx). }
{ intros [mp [t2 st2]] ws' Hx. rewrite Hx in E2. cbn in E2. by eapply lead_readers_rest. }
{ assert (length w1 <= length (aq a))%nat.
  { rewrite <- Hws, length_fmap. unfold w1. rewrite length_take. lia. }
  change (Z.to_nat NQLP) with 128%nat. lia. }
{ rewrite Hl1. assert (length rds <= length (aq a))%nat.
  { rewrite <- Hl1, <- Hws, length_fmap. unfold w1. rewrite length_take. lia. }
  lia. }
assert (tl' = if decide (hd_addr w2 = 0) then 0 else tl) as ->.
{ destruct (decide (hd_addr w2 = 0)) as [Hc|Hc]; [|by apply Htl].
  destruct Hq' as (_ & -> & Hl & _). destruct w2 as [|[b y] w2']; [done|]. by destruct Hl. }
exists (u, MkRWLock (Z.of_nat (length w1)) 0 (hd_addr w2) (if decide (hd_addr w2 = 0) then 0 else tl)), rs'.
split.
- unfold wunlock, ccall. rwstep. rewrite decide_False by done. rwstep. rewrite decide_False by done.
  rwstep. rewrite Hst. rewrite decide_False by done. rewrite decide_False by (intros Hc; by apply Hc).
  rwstep. rewrite E. cbn [fst snd rhead].
  by destruct (decide (hd_addr w2 = 0)).
- rewrite <- Hl1 at 3. split; [|lia]. exists w2. split_and!; try done. cbn. by rewrite Hl1.
Qed.

Lemma wunlock_sim rdv s a rs r a' :
  (forall t q, aq a <> (t, QueuingR) :: q) ->
  rep s a rs -> awf a -> arw_step WUnlock a = Some (r, a') ->
  ar a < 2 ^ 31 - 1 -> (length (aq a) + length rs < 127)%nat ->
  exists s' rs', user_rw rdv WUnlock s = Some (r, s') /\ rep s' a' rs' /\
    (length (aq a') + length rs' <= S (length (aq a) + length rs))%nat.
Proof.
intros Hnr Hr Hwf Hs Hmax Hlen. cbn in Hs. destruct (aw a) eqn:Haw; [|done].
destruct (aq a) as [|[t st] q] eqn:Eq; simplify_eq.
- destruct Hr as (ws & Hws & Hw & Hn & Hwr & Hq). pose proof (rep_head _ _ _ _ _ Hq Hws) as Hh.
  destruct Hwf as (_ & H1 & _). rewrite Haw in Hwr. rewrite (H1 Haw) in Hn.
  unfold user_rw, wunlock, ccall. rwstep. rewrite decide_False by lia. rwstep.
  rewrite decide_True by tauto. eexists _, rs. split; [reflexivity|]. split; [|cbn in *; lia].
  exists ws. split_and!; try done; cbn; congruence.
- destruct (decide (st = QueuingW)) as [->|Hst]; simplify_eq.
  + destruct Hr as (ws & Hws & Hw & Hn & Hwr & Hq). destruct Hwf as (_ & H1 & _).
    rewrite Haw in Hwr. rewrite (H1 Haw) in Hn. rewrite Eq in Hws.
    destruct ws as [|[mp x] ws]; [done|]. cbn in Hws. injection Hws as -> Hws.
    destruct s as [u [n w hd tl]]. cbn [fst snd rhead rtail readers writer] in *.
    destruct (rep_pop u hd tl mp t QueuingW ws rs Hw Hq) as (-> & Hin & Hz & Ht & Hs' & Hnx & Hw' & Hq').
    unfold user_rw, wunlock, ccall. rwstep. rewrite decide_False by lia. rwstep.
    rewrite decide_False by done. rwstep. rewrite decide_True by done. rwstep. rewrite Hnx, Ht.
    exists (u, MkRWLock n w (hd_addr ws) (if decide (hd_addr ws = 0) then 0 else tl)), (mp :: rs).
    split; [by case_decide|]. split; [|cbn in *; lia]. exists ws. by split_and!.
  + destruct Hwf as (Hwf1 & Hwf2 & Hwf3 & Hwf4 & Hwf5).
    assert (st = QueuingR) as ->.
    { rewrite Eq in Hwf5. apply Forall_cons_1 in Hwf5 as [[H5|H5] _]; [exact H5|done]. }
    by destruct (Hnr t q).
Qed.

Lemma wake_readers_stuck rdv fuel u n w mp tl : mp <> 0 ->
  state (qlp_at u mp) = QueuingR -> rdv mp = false ->
  wake_readers rdv (S fuel) (u, MkRWLock n w mp tl) =
  (Ret (Stuck mp), (u, MkRWLock (s32 (n + 1)) w (next (qlp_at u mp)) tl)).
Proof. intros Hz Hst Hr. cbn [wake_readers fst snd rhead]. rewrite decide_True by done. by rewrite Hr. Qed.

(** A reader at the head of the queue whose [rendezvous] does not return: the
    writer never gets out of [wunlock]. *)
Lemma wunlock_stuck rdv u n w tl mp : w <> 0 -> in_array mp ->
  state (qlp_at u mp) = QueuingR -> rdv mp = false ->
  wunlock rdv (u, MkRWLock n w mp tl) =
  (Go (Stuck mp), (u, MkRWLock (s32 (n + 1)) w (next (qlp_at u mp)) tl)).
Proof.
intros Hw Hin Hst Hr. assert (mp <> 0) as Hz by (unfold in_array in Hin; lia).
unfold wunlock, ccall. rwstep. rewrite decide_False by done. rwstep. rewrite decide_False by done.
rwstep. rewrite Hst. rewrite decide_False by done. rewrite decide_False by (intros Hc; by apply Hc).
rwstep. replace (Z.to_nat NQLP + 1)%nat with (S (Z.to_nat NQLP)) by lia.
rewrite wake_readers_stuck by done. reflexivity.
Qed.

Lemma op_sim rdv op s a rs r a' :
  (op = WUnlock -> forall t q, aq a <> (t, QueuingR) :: q) ->
  rep s a rs -> awf a -> arw_step op a = Some (r, a') ->
  ar a < 2 ^ 31 - 1 -> (length (aq a) + length rs < 127)%nat ->
  exists s' rs', user_rw rdv op s = Some (r, s') /\ rep s' a' rs' /\
    (length (aq a') + length rs' <= S (length (aq a) + length rs))%nat.
Proof.
intros Hnr. destruct op as [t|t| | | |].
- by apply rlock_sim.
- by apply wlock_sim.
- by apply canrlock_sim.
- by apply canwlock_sim.
- by apply runlock_sim.
- apply wunlock_sim. by apply Hnr.
Qed.

Definition uinit : urst := (Ulist 1 ∅, MkRWLock 0 0 0 0).

Lemma urw_init_rep : rep uinit (Arw 0 false []) [].
Proof. exists []. split_and!; try done; split_and!; try done; constructor. Qed.
End UserRW.

(** ** The kernel's lock *)

Module KernelRW.
Import QLock.Kernel QLockSpec.KernelLock.

(** The node at an address: the thread, what it waits for, the next node. *)
Definition rwnode (k : kmem) (p : Z) : option ((Z * Z) * Z) :=
  (fun n => ((tid n, state n), qnext n)) <$> nodes k !! p.

Lemma rwnode_alloc k ws a : linked (rwnode k) ws -> a ∈ ws.*1 -> is_Some (nodes k !! a).
Proof.
intros H Ha. induction ws as [|[b x] r IH]; [by apply not_elem_of_nil in Ha|].
cbn in *. destruct H as (_ & Hb & Hr). apply elem_of_cons in Ha as [->|Ha]; [|by apply IH].
unfold rwnode in Hb. by destruct (nodes k !! b).
Qed.

(** A queue has no more nodes than are allocated. *)
Lemma queue_size k ws : linked (rwnode k) ws -> NoDup ws.*1 -> (length ws <= size (nodes k))%nat.
Proof.
intros Hl Hnd. rewrite <- (length_fmap fst ws). rewrite <- size_dom.
rewrite <- (size_list_to_set (C := gset Z) ws.*1) by done.
apply subseteq_size. intros a Ha. apply elem_of_list_to_set in Ha. apply elem_of_dom.
by eapply rwnode_alloc.
Qed.

Lemma kernel_wake_readers_spec fuel woken k hd tl pc wp n w ws :
  queue_rep (rwnode k) hd tl ws -> Forall (fun x => x.2.2 = QueueingR) ws ->
  (length ws < fuel)%nat -> 0 <= n -> n + Z.of_nat (length ws) < 2 ^ 31 ->
  exists nds, wake_readers fuel woken (k, MkRWlock hd tl pc wp n w) =
    (Go (woken ++ ws.*2.*1),
      (Kmem nds (fresh k) (rwstats k), MkRWlock 0 tl pc wp (n + Z.of_nat (length ws)) w)) /\
    forall p, nds !! p = if decide (p ∈ ws.*1) then None else nodes k !! p.
Proof.
intros (Hh & _ & Hl & Hnd). revert fuel woken k hd n Hh Hl.
induction ws as [|[mp [t st]] ws IH]; intros fuel woken k hd n Hh Hl HR Hf Hn Hmax;
  (destruct fuel as [|fuel]; [cbn in Hf; lia|]).
- cbn in Hh. subst hd. exists (nodes k). split; [|intros p; by rewrite decide_False by (apply not_elem_of_nil)].
  cbn. rewrite app_nil_r, Z.add_0_r. by destruct k.
- cbn in Hh. subst hd. destruct Hl as (Hz & Hk & Hl). cbn in Hnd. apply list.NoDup_cons in Hnd as [Hni Hnd].
  apply Forall_cons_1 in HR as [HR1 HR]. cbn in HR1. subst st. unfold rwnode in Hk.
  destruct (nodes k !! mp) as [nd|] eqn:En; [|done]. cbn in Hk. injection Hk as Ht Hst Hnx.
  cbn [length] in *.
  set (k1 := Kmem (delete mp (nodes k)) (fresh k) (rwstats k)).
  destruct (IH Hnd fuel (woken ++ [t]) k1 (hd_addr ws) (n + 1)) as (nds & E & Hnds); try done; try lia.
  { eapply linked_ext; [|exact Hl]. intros a Ha. unfold rwnode, k1. cbn.
    rewrite lookup_delete_ne; [done|]. by intros ->. }
  exists nds. split.
  + cbn [wake_readers]. kstep. rewrite decide_False by done. kstep. rewrite En. kstep.
    rewrite decide_True by done. kstep. rewrite En. kstep. rewrite Hnx, Ht.
    rewrite s32_small by lia. fold k1. rewrite E. f_equal; [cbn; by rewrite <- app_assoc|].
    f_equal. f_equal. lia.
  + intros p. rewrite Hnds. unfold k1. cbn. destruct (decide (p = mp)) as [->|Hp].
    * rewrite lookup_delete_eq. rewrite (decide_True (P := mp ∈ mp :: ws.*1)) by apply list_elem_of_here.
      by case_decide.
    * rewrite lookup_delete_ne by done. destruct (decide (p ∈ ws.*1)) as [Hi|Hi].
      -- rewrite decide_True; [done|]. by apply list_elem_of_further.
      -- rewrite decide_False; [done|]. by apply not_elem_of_cons.
Qed.

(** A thread that cannot have the lock waits in [wlock]: the tail stays. *)
Lemma wlock_waits t pc up k hd tl pc0 wp n w : n <> 0 \/ w <> 0 -> tl = 0 ->
  exists st, wlock t pc up (k, MkRWlock hd tl pc0 wp n w) =
  (Go (Sleep (fresh k)), (Kmem (<[fresh k := Tq 0 t QueueingW]> (nodes k)) (fresh k + 1) st,
    MkRWlock (fresh k) 0 pc0 wp n w)).
Proof.
intros H ->. unfold wlock. kstep. rewrite decide_False by lia. kstep. by eexists.
Qed.
End KernelRW.
