(* ===== verification/QLockThms.v ===== *)
(** The properties of the locks: the kernel's and the library's [qlock] refine
    the same abstract lock, the bound on the library's waiters, and what the
    read-write locks do. *)

From S2P Require Import Prelude Links QLock QLockSpec RWLockSpec.

(** ** Runs of the abstract lock *)

Lemma bounded_run_all es a : bounded_run (fun _ => True) es a.
Proof.
revert a; induction es as [|e es IH]; intros a; cbn; [done|]. destruct (alock_step e a); auto.
Qed.

Definition alock0 : alock := Alock None [].

(** Two threads wait behind a third one, each gets the lock in its turn. *)
Definition three_threads : list event :=
  [ELock 7; ELock 8; ECanlock 9; ELock 9; EUnlock 7; ELock 7; EResume 8; EUnlock 8; EResume 9].

(** C8: the kernel's [qlock], [canqlock] and [qunlock] implement the abstract
    lock: every run of the abstract lock, of any threads in any order, is a
    run of the implementation on a new [QLock] that never panics and never
    touches a freed node; after it the thread that has returned from [qlock],
    the thread that is to be woken and the waiting threads are those of the
    abstract lock, which has one holder and serves its queue in order. *)
Theorem kernel_qlock_correct es a : alock_run es alock0 = Some a ->
  exists y, csys_run es (Sys KernelLock.kinit ∅) = Some y /\ agrees a y.
Proof.
intros H. destruct (sim_run es alock0 (Sys KernelLock.kinit ∅) a) as (y & E & Hs).
- apply lock_init_sim, KernelLock.kinit_rep.
- done.
- apply bounded_run_all.
- exists y. split; [done|]. by apply sim_agrees.
Qed.

Lemma kernel_qlock_correct_witness : exists y,
  csys_run three_threads (Sys KernelLock.kinit ∅) = Some y /\ agrees (Alock (Some (9, true)) [7]) y.
Proof. apply kernel_qlock_correct. vm_compute. reflexivity. Defined.

(** C34: the same refinement for the C library's lock, as long as fewer than 127
    threads wait for it. *)
Theorem user_qlock_correct es a : alock_run es alock0 = Some a ->
  bounded_run (fun n => (n < 127)%nat) es alock0 ->
  exists y, csys_run es (Sys UserLock.uinit ∅) = Some y /\ agrees a y.
Proof.
intros H Hb. destruct (sim_run es alock0 (Sys UserLock.uinit ∅) a) as (y & E & Hs).
- apply lock_init_sim, UserLock.uinit_rep.
- done.
- exact Hb.
- exists y. split; [done|]. by apply sim_agrees.
Qed.

Lemma user_qlock_correct_witness : exists y,
  csys_run three_threads (Sys UserLock.uinit ∅) = Some y /\ agrees (Alock (Some (9, true)) [7]) y.
Proof.
apply user_qlock_correct; [vm_compute; reflexivity|].
vm_compute. repeat (split; [lia|]). exact I.
Defined.

(** The system after [n] calls of [qlock], by different threads, and what the
    next call does: waits for ever ([true]) or aborts. *)
Definition next_aborts (n : Z) : option bool :=
  match csys_run (ELock <$> seqZ 1 n) (Sys UserLock.uinit ∅) with
  | Some y => match QLock.User.qlock (n + 1) (obj y) with (Abt, _) => Some true | _ => Some false end
  | None => None
  end.

(** The bound is real: with one thread holding the library's lock and 128
    waiting, the next [qlock] finds no free [QLp] and aborts, while it holds the
    spin lock; up to there every call waits. *)
Theorem user_qlock_exhausted :
  exists y, csys_run (ELock <$> seqZ 1 129) (Sys UserLock.uinit ∅) = Some y /\
    (QLock.User.qlock 130 (obj y)).1 = Abt.
Proof.
assert (next_aborts 129 = Some true) as H by (vm_compute; reflexivity).
unfold next_aborts in H. destruct (csys_run _ _) as [y|]; [|done]. exists y. split; [done|].
change (129 + 1) with 130 in H. by destruct (QLock.User.qlock 130 (obj y)) as [[]].
Qed.

(** ** Read-write locks *)

(** C22: every operation on the library's read-write lock, but for [wunlock]
    when a reader waits first, makes the transition of the abstract lock and
    returns its result, while fewer than 127 threads wait: a reader enters when
    there is no writer and nobody waits, a writer when there is nobody; others
    wait in order; the last reader passes the lock to the waiting writer, a
    writer to the next waiting writer. A writer thus always excludes readers.
    A reader that waits first is not woken by [wunlock]: it does not return
    ([user_wunlock_stuck]), or leaves the reader asleep
    ([user_wunlock_leaves_readers_asleep]). *)
Theorem user_rwlock_correct rdv op s a rs r a' :
  (op = WUnlock -> forall t q, aq a <> (t, QLock.User.QueuingR) :: q) ->
  UserRW.rep s a rs -> awf a -> arw_step op a = Some (r, a') ->
  ar a < 2 ^ 31 - 1 -> (length (aq a) + length rs < 127)%nat ->
  exists s' rs', UserRW.user_rw rdv op s = Some (r, s') /\ UserRW.rep s' a' rs' /\ awf a'.
Proof.
intros Hnr Hr Hwf Hs Hmax Hlen.
destruct (UserRW.op_sim rdv op s a rs r a' Hnr Hr Hwf Hs Hmax Hlen) as (s' & rs' & E & Hr' & _).
exists s', rs'. split_and!; try done. by eapply awf_step.
Qed.

Lemma user_rwlock_correct_witness : exists s' rs',
  UserRW.user_rw (fun _ => false) (WLock 5) UserRW.uinit = Some (Granted, s') /\
  UserRW.rep s' (Arw 0 true []) rs' /\ awf (Arw 0 true []).
Proof.
apply (user_rwlock_correct (fun _ => false) (WLock 5) UserRW.uinit (Arw 0 false []) []).
- discriminate.
- exact UserRW.urw_init_rep.
- split_and!; cbn; try done.
- reflexivity.
- cbn. lia.
- cbn. lia.
Defined.

(** When [rendezvous] does return for every node, a writer that unlocks while
    readers wait first counts those readers as holders of the lock and takes
    them out of the queue, but no thread is sent a message: they sleep on, and
    nobody knows of them any more. *)
Theorem user_wunlock_leaves_readers_asleep rdv s a rs t q : (forall mp, rdv mp = true) ->
  UserRW.rep s a rs -> awf a -> aw a = true -> aq a = (t, QLock.User.QueuingR) :: q ->
  (length (aq a) + length rs < 127)%nat ->
  let rds := lead_readers (aq a) in
  exists s' rs', QLock.User.wunlock rdv s = (Go (QLock.User.WU Return), s') /\
    UserRW.rep s' (Arw (Z.of_nat (length rds)) false (drop (length rds) (aq a))) rs'.
Proof.
intros Hrdv Hr Hwf Haw Haq Hlen.
destruct (UserRW.wunlock_readers rdv s a rs t q Hr Hwf Haw Haq Hlen Hrdv) as (s' & rs' & E & Hr' & _). eauto.
Qed.

(** A writer that unlocks while a reader waits first calls [rendezvous] for
    the reader's node. The reader sleeps in [L4_Wait], not in [rendezvous]: when
    [rendezvous] does not return for it the writer stays inside [wunlock], with
    the lock's spin lock held, whatever else is queued. *)
Theorem user_wunlock_stuck rdv u n w tl mp : w <> 0 -> UserLock.in_array mp ->
  QLock.User.state (QLock.User.qlp_at u mp) = QLock.User.QueuingR -> rdv mp = false ->
  exists s', QLock.User.wunlock rdv (u, QLock.User.MkRWLock n w mp tl) = (Go (QLock.User.Stuck mp), s') /\
    QLock.User.writer s'.2 = w.
Proof.
intros Hw Hin Hst Hr. eexists. split; [by apply UserRW.wunlock_stuck|done].
Qed.

Lemma user_wunlock_stuck_witness : exists s',
  QLock.User.wunlock (fun _ => false)
    (QLock.User.Ulist 2 {[ 2 := QLock.User.MkQLp QLock.User.TAS 0 8 QLock.User.QueuingR ]},
     QLock.User.MkRWLock 0 1 2 2) = (Go (QLock.User.Stuck 2), s') /\ QLock.User.writer s'.2 = 1.
Proof.
apply user_wunlock_stuck; [lia|unfold UserLock.in_array, QLock.User.NQLP; lia|reflexivity|reflexivity].
Defined.

(** When the kernel's writer unlocks and only readers wait, all of them are
    woken in order, each node is freed once and no other, the lock counts them
    and has no writer and an empty queue. *)
Theorem kernel_wunlock_wakes_readers k hd tl pc wp w ws :
  queue_rep (KernelRW.rwnode k) hd tl ws -> ws <> [] ->
  Forall (fun x => x.2.2 = QLock.Kernel.QueueingR) ws -> Z.of_nat (length ws) < 2 ^ 31 ->
  exists nds, QLock.Kernel.wunlock (k, QLock.Kernel.MkRWlock hd tl pc wp 0 w) =
    (Go (Wake ws.*2.*1),
      (QLock.Kernel.Kmem nds (QLock.Kernel.fresh k) (QLock.Kernel.rwstats k),
       QLock.Kernel.MkRWlock 0 0 pc wp (Z.of_nat (length ws)) 0)) /\
    forall p, nds !! p = if decide (p ∈ ws.*1) then None else QLock.Kernel.nodes k !! p.
Proof.
intros Hq Hne HR Hmax. pose proof Hq as (Hh & _ & Hl & Hnd).
destruct (KernelRW.kernel_wake_readers_spec (S (size (QLock.Kernel.nodes k))) [] k hd tl pc wp 0 w ws)
  as (nds & E & Hnds); try done.
{ pose proof (KernelRW.queue_size k ws Hl Hnd). lia. }
exists nds. split; [|done]. pose proof (linked_hd_nz _ _ Hl Hne) as Hz. rewrite <- Hh in Hz.
destruct ws as [|[mp [t st]] ws']; [done|]. cbn in Hh. subst mp.
destruct Hl as (_ & Hk & _). unfold KernelRW.rwnode in Hk.
destruct (QLock.Kernel.nodes k !! hd) as [nd|] eqn:En; [|done]. cbn in Hk. injection Hk as _ Hst _.
apply Forall_cons_1 in HR as [HR _]. cbn in HR.
unfold QLock.Kernel.wunlock. KernelLock.kstep. rewrite decide_False by done. KernelLock.kstep.
rewrite En. KernelLock.kstep. rewrite Hst, HR. rewrite decide_False by done.
rewrite decide_False by (intros Hc; by apply Hc). KernelLock.kstep. by rewrite E.
Qed.

Definition two_readers : QLock.Kernel.kmem :=
  QLock.Kernel.Kmem {[ 1 := QLock.Kernel.Tq 2 8 QLock.Kernel.QueueingR;
    2 := QLock.Kernel.Tq 0 9 QLock.Kernel.QueueingR ]} 3 (QLock.Kernel.Rwstats 0 0 0 0 0 0).

Lemma kernel_wunlock_wakes_readers_witness : exists nds,
  QLock.Kernel.wunlock (two_readers, QLock.Kernel.MkRWlock 1 2 0 0 0 1) =
    (Go (Wake [8; 9]), (QLock.Kernel.Kmem nds 3 (QLock.Kernel.Rwstats 0 0 0 0 0 0),
       QLock.Kernel.MkRWlock 0 0 0 0 2 0)) /\
  forall p, nds !! p = if decide (p ∈ [1; 2]) then None else QLock.Kernel.nodes two_readers !! p.
Proof.
apply (kernel_wunlock_wakes_readers two_readers
  1 2 0 0 1 [(1, (8, QLock.Kernel.QueueingR)); (2, (9, QLock.Kernel.QueueingR))]).
- split_and!; [reflexivity|reflexivity| |].
  + cbn. by split_and!.
  + apply list.NoDup_cons. split; [|apply NoDup_singleton]. rewrite list_elem_of_singleton. done.
- discriminate.
- repeat constructor.
- cbn. lia.
Defined.

(** A thread that waits in the kernel's [wlock] is lost: [wlock] leaves
    [q->tail] alone, the next thread that waits becomes the head of the queue
    instead of its successor, and when it has had the lock the queue is empty
    and the lock free, while the first thread still sleeps and its node is
    still allocated. *)
Theorem kernel_wlock_loses_waiter t t2 pc up k pc0 wp w : w <> 0 -> KernelLock.kwf k ->
  exists s1 s2 s3 s4,
    QLock.Kernel.wlock t pc up (k, QLock.Kernel.MkRWlock 0 0 pc0 wp 0 w) =
      (Go (Sleep (QLock.Kernel.fresh k)), s1) /\
    QLock.Kernel.wlock t2 pc up s1 = (Go (Sleep (QLock.Kernel.fresh k + 1)), s2) /\
    QLock.Kernel.wunlock s2 = (Go (Wake [t2]), s3) /\
    QLock.Kernel.wunlock s3 = (Go Return, s4) /\
    s4.2 = QLock.Kernel.MkRWlock 0 0 pc0 wp 0 0 /\
    QLock.Kernel.nodes s4.1 !! QLock.Kernel.fresh k = Some (QLock.Kernel.Tq 0 t QLock.Kernel.QueueingW).
Proof.
intros Hw [Hf _].
destruct (KernelRW.wlock_waits t pc up k 0 0 pc0 wp 0 w (or_intror Hw) eq_refl) as [st1 E1].
eexists _. set (k1 := QLock.Kernel.Kmem _ _ st1) in E1.
destruct (KernelRW.wlock_waits t2 pc up k1 (QLock.Kernel.fresh k) 0 pc0 wp 0 w (or_intror Hw) eq_refl)
  as [st2 E2]. cbn in E2.
do 3 eexists. split; [exact E1|]. split; [exact E2|]. split_and!.
- unfold QLock.Kernel.wunlock. KernelLock.kstep. rewrite decide_False by (cbn; lia). KernelLock.kstep.
  rewrite lookup_insert_eq. KernelLock.kstep. rewrite decide_True by done. KernelLock.kstep.
  cbn [QLock.Kernel.qnext]. rewrite decide_True by done. KernelLock.kstep. rewrite lookup_insert_eq.
  reflexivity.
- reflexivity.
- reflexivity.
- cbn. rewrite lookup_delete_ne by lia. rewrite lookup_insert_ne by lia. by rewrite lookup_insert_eq.
Qed.

Lemma kernel_wlock_loses_waiter_witness : exists s1 s2 s3 s4,
  QLock.Kernel.wlock 8 0 0 (KernelLock.kinit.1, QLock.Kernel.MkRWlock 0 0 0 0 0 1) = (Go (Sleep 1), s1) /\
  QLock.Kernel.wlock 9 0 0 s1 = (Go (Sleep 2), s2) /\
  QLock.Kernel.wunlock s2 = (Go (Wake [9]), s3) /\
  QLock.Kernel.wunlock s3 = (Go Return, s4) /\
  s4.2 = QLock.Kernel.MkRWlock 0 0 0 0 0 0 /\
  QLock.Kernel.nodes s4.1 !! 1 = Some (QLock.Kernel.Tq 0 8 QLock.Kernel.QueueingW).
Proof.
apply (kernel_wlock_loses_waiter 8 9 0 0 KernelLock.kinit.1 0 0 1); [lia|].
split; [cbn; lia|]. intros p _. reflexivity.
Defined.

(** The same missing store makes [runlock] panic: a reader holds the lock, a
    writer waits, then a second reader; the second reader takes the writer's
    place at the head of the queue, where the first reader's [runlock] finds a
    node that is not a writer's. *)
Theorem kernel_runlock_panics t t2 pc up k pc0 wp : KernelLock.kwf k ->
  exists mp s1 mp2 s2 s3,
    QLock.Kernel.wlock t pc up (k, QLock.Kernel.MkRWlock 0 0 pc0 wp 1 0) = (Go (Sleep mp), s1) /\
    QLock.Kernel.rlock t2 s1 = (Go (Sleep mp2), s2) /\
    QLock.Kernel.runlock s2 = (Abt, s3).
Proof.
intros [Hf _]. assert (1 <> 0) as H1 by lia.
destruct (KernelRW.wlock_waits t pc up k 0 0 pc0 wp 1 0 (or_introl H1) eq_refl) as [st1 E1].
do 2 eexists. do 3 eexists. split; [exact E1|]. split.
- unfold QLock.Kernel.rlock. KernelLock.kstep. rewrite decide_False by lia. KernelLock.kstep. reflexivity.
- unfold QLock.Kernel.runlock. KernelLock.kstep. rewrite s32_small by lia.
  rewrite decide_False by (cbn; lia). KernelLock.kstep. rewrite lookup_insert_eq. KernelLock.kstep.
  rewrite decide_True by done. reflexivity.
Qed.

Lemma kernel_runlock_panics_witness : exists mp s1 mp2 s2 s3,
  QLock.Kernel.wlock 8 0 0 (KernelLock.kinit.1, QLock.Kernel.MkRWlock 0 0 0 0 1 0) = (Go (Sleep mp), s1) /\
  QLock.Kernel.rlock 9 s1 = (Go (Sleep mp2), s2) /\
  QLock.Kernel.runlock s2 = (Abt, s3).
Proof. apply kernel_runlock_panics. split; [cbn; lia|]. intros p _. reflexivity. Defined.
