(* ===== verification/Intmap.v ===== *)
(** Maps from ulongs to pointers, src/lib9p/intmap.c: an array of [NHASH] lists.
    Every operation runs under the map's read-write lock and is one step; [inc],
    which [lookupkey] calls while it holds the lock, is a parameter, a change of
    the state [St] that the values live in. *)

From S2P Require Import Prelude.

Definition NHASH : Z := 128.

Definition hashid (id : Z) : Z := id mod NHASH.

Section Intmap.
Context {V St : Type}.

(** [struct Intlist]: the fields [id] and [aux]; a list follows the links. *)
Definition Intlist : Type := list (Z * V).

Record Intmap := MkIntmap { hash : gmap Z Intlist; inc : V -> St -> St }.

Definition bucket (m : Intmap) (h : Z) : Intlist := default [] (hash m !! h).

Definition set_bucket (m : Intmap) (h : Z) (l : Intlist) : Intmap :=
  MkIntmap (<[h := l]> (hash m)) (inc m).

Definition nop (_ : V) (s : St) : St := s.

Definition allocmap (inc : option (V -> St -> St)) : Intmap :=
  MkIntmap ∅ (default nop inc).

(** The loop of [llookup]: the nodes before the one that [*lf] points to, and
    the list from there on. *)
Fixpoint lloop (l : Intlist) (id : Z) : Intlist * Intlist :=
  match l with
  | [] => ([], [])
  | (id', aux) :: link =>
      if decide (id' = id) then ([], l)
      else let '(before, f) := lloop link id in ((id', aux) :: before, f)
  end.

Definition llookup (m : Intmap) (id : Z) : Intlist * Intlist := lloop (bucket m (hashid id)) id.

Definition lookupkey (m : Intmap) (id : Z) (s : St) : option V * St :=
  match (llookup m id).2 with
  | (_, v) :: _ => (Some v, inc m v s)
  | [] => (None, s)
  end.

(** [f->link = map->hash[h]; map->hash[h] = f] *)
Definition addkey (m : Intmap) (id : Z) (v : V) : Intmap :=
  let h := hashid id in set_bucket m h ((id, v) :: bucket m h).

Definition insertkey (m : Intmap) (id : Z) (v : V) : option V * Intmap :=
  match llookup m id with
  | (before, (_, ov) :: link) => (Some ov, set_bucket m (hashid id) (before ++ (id, v) :: link))
  | (_, []) => (None, addkey m id v)
  end.

Definition caninsertkey (m : Intmap) (id : Z) (v : V) : bool * Intmap :=
  match (llookup m id).2 with
  | _ :: _ => (false, m)
  | [] => (true, addkey m id v)
  end.

Definition deletekey (m : Intmap) (id : Z) : option V * Intmap :=
  match llookup m id with
  | (before, (_, ov) :: link) => (Some ov, set_bucket m (hashid id) (before ++ link))
  | (_, []) => (None, m)
  end.

(** [freemap(map, destroy)] on a state of [destroy]. *)
Definition freemap {D} (m : Intmap) (destroy : V -> D -> D) (s : D) : D :=
  foldl (fun s h => foldl (fun s p => destroy p.2 s) s (bucket m h)) s (seqZ 0 NHASH).
End Intmap.
Arguments Intmap : clear implicits.
Arguments Intlist : clear implicits.
