(* ===== verification/IntmapSpec.v ===== *)
(** An [Intmap] is a finite map: the proofs. *)

From S2P Require Import Prelude Intmap.

Section Spec.
Context {V St : Type}.
Implicit Types (m : Intmap V St) (l : Intlist V).

(** What a list or a map holds. *)
Definition list_map l : gmap Z V := list_to_map l.

(** The map holds [g]: every key is in the list of its hash, once. *)
Definition imap_rep m (g : gmap Z V) : Prop :=
  (forall h, NoDup (bucket m h).*1) /\
  (forall h p, p ∈ bucket m h -> hashid p.1 = h) /\
  (forall id v, g !! id = Some v <-> (id, v) ∈ bucket m (hashid id)).

Lemma lloop_app l id : let '(before, f) := lloop l id in l = before ++ f.
Proof.
induction l as [|[i v] l IH]; cbn; [done|]. case_decide; [done|].
destruct (lloop l id) as [b f]. cbn. by rewrite <- IH.
Qed.

Lemma lloop_before l id before f : lloop l id = (before, f) -> id ∉ before.*1.
Proof.
revert before; induction l as [|[i v] l IH]; cbn; intros before H.
{ injection H as <- <-. by apply not_elem_of_nil. }
case_decide as Hd; [injection H as <- <-; by apply not_elem_of_nil|].
destruct (lloop l id) as [b f'] eqn:E. injection H as <- <-. cbn.
apply not_elem_of_cons. split; [congruence|]. by apply (IH b).
Qed.

(** The node found has the key; there is none only if the key is absent. *)
Lemma lloop_found l id before i v f : lloop l id = (before, (i, v) :: f) -> i = id.
Proof.
revert before; induction l as [|[i' v'] l IH]; cbn; intros before H; [done|].
case_decide as Hd; [injection H as <- -> -> ->; done|].
destruct (lloop l id) as [b f'] eqn:E. injection H as <- ->. by apply (IH b).
Qed.

Lemma bucket_set m h l h' : bucket (set_bucket m h l) h' = if decide (h' = h) then l else bucket m h'.
Proof.
unfold bucket, set_bucket; cbn. case_decide as Hd; [subst; by rewrite lookup_insert_eq|].
by rewrite lookup_insert_ne.
Qed.

(** The cases of a search. *)
Lemma llookup_cases m g id : imap_rep m g ->
  (exists before v link, llookup m id = (before, (id, v) :: link) /\ g !! id = Some v /\
     bucket m (hashid id) = before ++ (id, v) :: link) \/
  (exists before, llookup m id = (before, []) /\ g !! id = None /\ (id ∉ (bucket m (hashid id)).*1)).
Proof.
intros (Hnd & Hh & Hg). unfold llookup. pose proof (lloop_app (bucket m (hashid id)) id) as Happ.
destruct (lloop (bucket m (hashid id)) id) as [before f] eqn:E.
pose proof (lloop_before _ _ _ _ E) as Hb. destruct f as [|[i v] f].
- right. exists before. rewrite app_nil_r in Happ. subst before. split; [done|]. split; [|done].
  destruct (g !! id) as [v|] eqn:Eg; [|done]. exfalso. apply Hb. apply Hg in Eg.
  by apply (list_elem_of_fmap_2 fst) in Eg.
- left. pose proof (lloop_found _ _ _ _ _ _ E) as ->. exists before, v, f. split_and!; try done.
  apply Hg. rewrite Happ. apply elem_of_app. right. by left.
Qed.

Lemma elem_of_fmap_fst (A B : Type) (x : A) (y : B) (k : list (A * B)) : (x, y) ∈ k -> x ∈ k.*1.
Proof. apply (list_elem_of_fmap_2 fst k (x, y)). Qed.

(** Changing the list of one hash. *)
Lemma imap_rep_set m g g' id l : imap_rep m g ->
  NoDup l.*1 -> (forall p, p ∈ l -> hashid p.1 = hashid id) ->
  (forall i, hashid i <> hashid id -> g' !! i = g !! i) ->
  (forall i v, hashid i = hashid id -> g' !! i = Some v <-> (i, v) ∈ l) ->
  imap_rep (set_bucket m (hashid id) l) g'.
Proof.
intros (Hnd & Hh & Hg) H1 H2 H3 H4. split_and!.
- intros h. rewrite bucket_set. by case_decide.
- intros h p. rewrite bucket_set. case_decide as Hd; [subst; apply H2|apply Hh].
- intros i v. rewrite bucket_set. case_decide as Hd; [by apply H4|]. rewrite H3 by done. apply Hg.
Qed.

Lemma imap_rep_add m g id v : imap_rep m g -> g !! id = None -> (id ∉ (bucket m (hashid id)).*1) ->
  imap_rep (addkey m id v) (<[id := v]> g).
Proof.
intros Hr Hn Hni. pose proof Hr as (Hnd & Hh & Hg). apply (imap_rep_set m g); [done| | | |].
- cbn. by apply list.NoDup_cons.
- intros p [->|Hp]%elem_of_cons; [done|]. by apply Hh.
- intros i Hi. rewrite lookup_insert_ne; [done|]. by intros ->.
- intros i w Hi. destruct (decide (i = id)) as [->|Hne].
  + rewrite lookup_insert_eq. split; [intros [= ->]; by left|].
    intros [[= ->]|Hin]%elem_of_cons; [done|]. by apply elem_of_fmap_fst in Hin.
  + rewrite lookup_insert_ne by done. rewrite Hg, Hi. split; [by right|].
    intros [[= -> ->]|Hin]%elem_of_cons; done.
Qed.

Lemma lookupkey_spec m g id s : imap_rep m g ->
  lookupkey m id s = match g !! id with Some v => (Some v, inc m v s) | None => (None, s) end.
Proof.
intros Hr. unfold lookupkey.
destruct (llookup_cases m g id Hr) as [(b & v & f & E & Eg & _)|(b & E & Eg & _)]; by rewrite E, Eg.
Qed.

Lemma insertkey_spec m g id v : imap_rep m g ->
  exists m', insertkey m id v = (g !! id, m') /\ imap_rep m' (<[id := v]> g) /\ inc m' = inc m.
Proof.
intros Hr. unfold insertkey. pose proof Hr as (Hnd & Hh & Hg).
destruct (llookup_cases m g id Hr) as [(b & ov & f & E & Eg & Eb)|(b & E & Eg & Hni)]; rewrite E, Eg.
- eexists. split; [done|]. split; [|done]. specialize (Hnd (hashid id)). rewrite Eb in Hnd.
  rewrite fmap_app in Hnd. cbn in Hnd. apply (imap_rep_set m g); [done| | | |].
  + by rewrite fmap_app.
  + intros p Hp. apply elem_of_app in Hp as [Hp|Hp].
    * apply Hh. rewrite Eb. apply elem_of_app. by left.
    * apply elem_of_cons in Hp as [->|Hp]; [done|]. apply Hh. rewrite Eb. apply elem_of_app. right. by right.
  + intros i Hi. rewrite lookup_insert_ne; [done|]. by intros ->.
  + apply list.NoDup_app in Hnd as (_ & Hb & Hf). apply list.NoDup_cons in Hf as [Hf _].
    intros i w Hi. destruct (decide (i = id)) as [->|Hne].
    * rewrite lookup_insert_eq. split; [intros [= ->]; apply elem_of_app; right; by left|].
      intros [Hin|[[= ->]|Hin]%elem_of_cons]%elem_of_app; [|done|].
      -- apply elem_of_fmap_fst in Hin. exfalso. apply (Hb id Hin). by left.
      -- by apply elem_of_fmap_fst in Hin.
    * rewrite lookup_insert_ne by done. rewrite Hg, Hi, Eb. rewrite !elem_of_app, !elem_of_cons.
      split; intros [?|[[= ? ?]|?]]; try congruence; auto.
- eexists. split; [done|]. split; [|done]. by apply imap_rep_add.
Qed.

Lemma caninsertkey_spec m g id v : imap_rep m g ->
  exists m', caninsertkey m id v = (bool_decide (g !! id = None), m') /\
    imap_rep m' (match g !! id with Some _ => g | None => <[id := v]> g end) /\ inc m' = inc m.
Proof.
intros Hr. unfold caninsertkey.
destruct (llookup_cases m g id Hr) as [(b & ov & f & E & Eg & Eb)|(b & E & Eg & Hni)]; rewrite E, Eg.
- by exists m.
- exists (addkey m id v). split; [done|]. split; [|done]. by apply imap_rep_add.
Qed.

Lemma deletekey_spec m g id : imap_rep m g ->
  exists m', deletekey m id = (g !! id, m') /\ imap_rep m' (delete id g) /\ inc m' = inc m.
Proof.
intros Hr. unfold deletekey. pose proof Hr as (Hnd & Hh & Hg).
destruct (llookup_cases m g id Hr) as [(b & ov & f & E & Eg & Eb)|(b & E & Eg & Hni)]; rewrite E, Eg.
- eexists. split; [done|]. split; [|done]. specialize (Hnd (hashid id)). rewrite Eb in Hnd.
  rewrite fmap_app in Hnd. cbn in Hnd. apply list.NoDup_app in Hnd as (Hb1 & Hb & Hf).
  apply list.NoDup_cons in Hf as [Hf Hf2]. apply (imap_rep_set m g); [done| | | |].
  + rewrite fmap_app. apply list.NoDup_app. split_and!; try done. intros x Hx Hx'.
    apply (Hb x Hx). by right.
  + intros p Hp. apply Hh. rewrite Eb. apply elem_of_app in Hp as [Hp|Hp]; apply elem_of_app; [by left|].
    right. by right.
  + intros i Hi. rewrite lookup_delete_ne; [done|]. by intros ->.
  + intros i w Hi. destruct (decide (i = id)) as [->|Hne].
    * rewrite lookup_delete_eq. split; [done|]. intros [Hin|Hin]%elem_of_app.
      -- apply elem_of_fmap_fst in Hin. exfalso. apply (Hb id Hin). by left.
      -- by apply elem_of_fmap_fst in Hin.
    * rewrite lookup_delete_ne by done. rewrite Hg, Hi, Eb. rewrite !elem_of_app, !elem_of_cons.
      split; [intros [?|[[= ? ?]|?]]|intros [?|?]]; try congruence; auto.
- exists m. split; [done|]. split; [|done]. by rewrite delete_id.
Qed.

Lemma allocmap_rep i : imap_rep (allocmap (St := St) i) ∅.
Proof.
split_and!.
- intros h. constructor.
- intros h p Hp. by apply not_elem_of_nil in Hp.
- intros id v. split; [done|]. intros Hp. by apply not_elem_of_nil in Hp.
Qed.

(** [freemap] visits the entries of the map, each once. *)
Definition entries m : Intlist V := concat (bucket m <$> seqZ 0 NHASH).

Lemma freemap_entries {D} m destroy (s : D) :
  freemap m destroy s = foldl (fun s p => destroy p.2 s) s (entries m).
Proof.
unfold freemap, entries. generalize (seqZ 0 NHASH) as hs. intros hs.
revert s; induction hs as [|h hs IH]; intros s; cbn; [done|]. rewrite foldl_app. by rewrite <- IH.
Qed.

Lemma hashid_range id : 0 <= hashid id < NHASH.
Proof. unfold hashid, NHASH. by apply Z.mod_pos_bound. Qed.

Lemma elem_of_entries m p : p ∈ entries m <-> exists h, 0 <= h < NHASH /\ p ∈ bucket m h.
Proof.
unfold entries. rewrite list_elem_of_In, List.in_concat. split.
- intros (l & Hl & Hp). apply list_elem_of_In, list_elem_of_fmap in Hl as (h & -> & Hh).
  apply elem_of_seqZ in Hh. exists h. split; [lia|]. by apply list_elem_of_In.
- intros (h & Hh & Hp). exists (bucket m h). split; [|by apply list_elem_of_In].
  apply list_elem_of_In, list_elem_of_fmap. exists h. split; [done|]. apply elem_of_seqZ. lia.
Qed.

Lemma entries_perm m g : imap_rep m g -> entries m ≡ₚ map_to_list g.
Proof.
intros (Hnd & Hh & Hg). apply NoDup_Permutation.
- assert (forall hs, NoDup hs -> NoDup (concat (bucket m <$> hs))) as Hc; [|by apply Hc, NoDup_seqZ].
  induction hs as [|h hs IH]; cbn; intros Hhs; [constructor|].
  apply list.NoDup_cons in Hhs as [Hni Hhs]. apply list.NoDup_app. split_and!.
  + apply (NoDup_fmap_1 fst), Hnd.
  + intros p Hp Hp'. apply list_elem_of_In, List.in_concat in Hp' as (l & Hl & Hp').
    apply list_elem_of_In, list_elem_of_fmap in Hl as (h' & -> & Hh').
    apply list_elem_of_In in Hp'. apply Hni. by rewrite <- (Hh h p Hp), (Hh h' p Hp').
  + by apply IH.
- apply NoDup_map_to_list.
- intros [id v]. rewrite elem_of_entries, elem_of_map_to_list, Hg. split.
  + intros (h & _ & Hp). by pose proof (Hh h _ Hp) as <-.
  + intros Hp. exists (hashid id). split; [apply hashid_range|done].
Qed.

(** ** Runs *)

Inductive iop := ILookup (id : Z) | IInsert (id : Z) (v : V) | ICanInsert (id : Z) (v : V) | IDelete (id : Z).

Inductive ires := IVal (v : option V) | IBool (b : bool).

Definition istep (op : iop) (x : Intmap V St * St) : ires * (Intmap V St * St) :=
  let '(m, s) := x in
  match op with
  | ILookup id => let '(v, s') := lookupkey m id s in (IVal v, (m, s'))
  | IInsert id v => let '(ov, m') := insertkey m id v in (IVal ov, (m', s))
  | ICanInsert id v => let '(b, m') := caninsertkey m id v in (IBool b, (m', s))
  | IDelete id => let '(ov, m') := deletekey m id in (IVal ov, (m', s))
  end.

(** The same operations on a finite map; [incr] counts a value that is looked up. *)
Definition gstep (incr : V -> St -> St) (op : iop) (x : gmap Z V * St) : ires * (gmap Z V * St) :=
  let '(g, s) := x in
  match op with
  | ILookup id => (IVal (g !! id), (g, match g !! id with Some v => incr v s | None => s end))
  | IInsert id v => (IVal (g !! id), (<[id := v]> g, s))
  | ICanInsert id v =>
      match g !! id with
      | Some _ => (IBool false, (g, s))
      | None => (IBool true, (<[id := v]> g, s))
      end
  | IDelete id => (IVal (g !! id), (delete id g, s))
  end.

Fixpoint runs {X} (step : iop -> X -> ires * X) (ops : list iop) (x : X) : list ires * X :=
  match ops with
  | [] => ([], x)
  | op :: ops' => let '(r, x') := step op x in let '(rs, x'') := runs step ops' x' in (r :: rs, x'')
  end.

Lemma istep_sim incr op m g (s : St) : imap_rep m g -> inc m = incr ->
  exists r m' g' s', istep op (m, s) = (r, (m', s')) /\ gstep incr op (g, s) = (r, (g', s')) /\
    imap_rep m' g' /\ inc m' = incr.
Proof.
intros Hr Hi. destruct op as [id|id v|id v|id]; cbn.
- rewrite (lookupkey_spec m g id s Hr), Hi. destruct (g !! id); eauto 10.
- destruct (insertkey_spec m g id v Hr) as (m' & -> & Hr' & Hi'). rewrite Hi in Hi'. eauto 10.
- destruct (caninsertkey_spec m g id v Hr) as (m' & -> & Hr' & Hi'). rewrite Hi in Hi'.
  destruct (g !! id) eqn:E; eauto 10.
- destruct (deletekey_spec m g id Hr) as (m' & -> & Hr' & Hi'). rewrite Hi in Hi'. eauto 10.
Qed.

Lemma runs_sim incr ops m g (s : St) : imap_rep m g -> inc m = incr ->
  exists rs m' g' s', runs istep ops (m, s) = (rs, (m', s')) /\ runs (gstep incr) ops (g, s) = (rs, (g', s')) /\
    imap_rep m' g'.
Proof.
revert m g s; induction ops as [|op ops IH]; intros m g s Hr Hi; cbn [runs]; [eauto 10|].
destruct (istep_sim incr op m g s Hr Hi) as (r & m1 & g1 & s1 & -> & -> & Hr1 & Hi1).
destruct (IH m1 g1 s1 Hr1 Hi1) as (rs & m' & g' & s' & -> & -> & Hr'). eauto 10.
Qed.
End Spec.

Arguments iop : clear implicits.
Arguments ires : clear implicits.

(** C23: on any sequence of operations from [allocmap] an [Intmap] returns what a
    finite map returns, [inc] is called for exactly the values that are looked
    up, and [freemap] afterwards destroys every value that is in the map,
    once. *)
Theorem intmap_refines_map {V St : Type} (incr : V -> St -> St) (destroy : V -> St -> St) ops s :
  exists rs m g s', runs istep ops (allocmap (Some incr), s) = (rs, (m, s')) /\
    runs (gstep incr) ops (∅, s) = (rs, (g, s')) /\
    exists l, l ≡ₚ map_to_list g /\ freemap m destroy s' = foldl (fun s p => destroy p.2 s) s' l.
Proof.
destruct (runs_sim incr ops (allocmap (Some incr)) ∅ s (allocmap_rep _) eq_refl)
  as (rs & m & g & s' & E1 & E2 & Hr).
exists rs, m, g, s'. split_and!; try done. exists (entries m).
split; [by apply entries_perm|apply freemap_entries].
Qed.
