(* ===== verification/Files.v ===== *)
(** File trees of the file server library, src/lib9p/file.c and uid.c: [File]s
    with reference counts, the [Filelist] of a directory, trees, and the
    [Readdir] that reads a directory through a pointer into its list.

    Files, list nodes, readers and trees are objects of a heap. Each operation
    holds the read-write locks of the files that it changes and is one step; an
    object that is not allocated may not be used. [freefile] frees the strings of
    a [File] and puts the [File] on the free list: from then on, until [allocfile]
    takes it, a use of it aborts, its strings not being there. The strings of a [Dir] are
    copies that only their file has, so they are values; [convD2M] is used
    through its contract in Dir9PSpec. [f->tree->destroy] is a function of the
    server: the files it is called for are recorded, in order. *)

From S2P Require Import Prelude Mem Fcall9P Fcall9PSpec Dir9P Dir9PSpec.

Definition QTDIR : Z := 0x80.
Definition QTAPPEND : Z := 0x40.
Definition QTEXCL : Z := 0x20.
Definition DMDIR : Z := 0x80000000.
Definition DMAPPEND : Z := 0x40000000.
Definition DMEXCL : Z := 0x20000000.

(** [0] is [nil] for every pointer. *)
Record File := MkFile {
  f_ref : Z; f_dir : dirv; f_parent : Z; f_aux : Z;
  f_list : Z; (* filelist *)
  f_tree : Z; f_nchild : Z; f_allocd : Z; f_nxchild : Z; f_readers : Z;
  f_free : bool (* on the free list, its strings freed *) }.

Record Filelist := MkFilelist { fl_f : Z; fl_link : Z }.
Record Readdir := MkReaddir { rd_dir : Z; rd_fl : Z }.
Record Tree := MkTree { t_root : Z; t_qidgen : Z; t_dirqidgen : Z }.

(** The messages given to [werrstr]. *)
Inductive ferr :=
  | NoError
  | NoParent (* no parent *)
  | CannotRemoveRoot (* cannot remove root *)
  | HasChildren (* has children *)
  | ParentChanged (* parent changed underfoot *)
  | CreateInNonDirectory (* create in non-directory *)
  | FileExists. (* file already exists *)

Record fheap := FHeap {
  files : gmap Z File; fls : gmap Z Filelist; rds : gmap Z Readdir; trees : gmap Z Tree;
  freefilelist : Z;
  brk : Z; (* the next address of emalloc9p *)
  destroyed : list Z; errstr : ferr }.

Definition empty_dir : dirv := Dirv 0 0 (MkQid 0 0 0) 0 0 0 0 [] [] [] [].
Definition zero_file : File := MkFile 0 empty_dir 0 0 0 0 0 0 0 0 false.

(** *** Fields *)

Definition set_ref x f := MkFile x (f_dir f) (f_parent f) (f_aux f) (f_list f) (f_tree f) (f_nchild f) (f_allocd f) (f_nxchild f) (f_readers f) (f_free f).
Definition set_dir x f := MkFile (f_ref f) x (f_parent f) (f_aux f) (f_list f) (f_tree f) (f_nchild f) (f_allocd f) (f_nxchild f) (f_readers f) (f_free f).
Definition set_parent x f := MkFile (f_ref f) (f_dir f) x (f_aux f) (f_list f) (f_tree f) (f_nchild f) (f_allocd f) (f_nxchild f) (f_readers f) (f_free f).
Definition set_aux x f := MkFile (f_ref f) (f_dir f) (f_parent f) x (f_list f) (f_tree f) (f_nchild f) (f_allocd f) (f_nxchild f) (f_readers f) (f_free f).
Definition set_list x f := MkFile (f_ref f) (f_dir f) (f_parent f) (f_aux f) x (f_tree f) (f_nchild f) (f_allocd f) (f_nxchild f) (f_readers f) (f_free f).
Definition set_tree x f := MkFile (f_ref f) (f_dir f) (f_parent f) (f_aux f) (f_list f) x (f_nchild f) (f_allocd f) (f_nxchild f) (f_readers f) (f_free f).
Definition set_nchild x f := MkFile (f_ref f) (f_dir f) (f_parent f) (f_aux f) (f_list f) (f_tree f) (s32 x) (f_allocd f) (f_nxchild f) (f_readers f) (f_free f).
Definition set_allocd x f := MkFile (f_ref f) (f_dir f) (f_parent f) (f_aux f) (f_list f) (f_tree f) (f_nchild f) x (f_nxchild f) (f_readers f) (f_free f).
Definition set_nxchild x f := MkFile (f_ref f) (f_dir f) (f_parent f) (f_aux f) (f_list f) (f_tree f) (f_nchild f) (f_allocd f) (s32 x) (f_readers f) (f_free f).
Definition set_readers x f := MkFile (f_ref f) (f_dir f) (f_parent f) (f_aux f) (f_list f) (f_tree f) (f_nchild f) (f_allocd f) (f_nxchild f) x (f_free f).
Definition set_free x f := MkFile (f_ref f) (f_dir f) (f_parent f) (f_aux f) (f_list f) (f_tree f) (f_nchild f) (f_allocd f) (f_nxchild f) (f_readers f) x.

Definition set_files x s := FHeap x (fls s) (rds s) (trees s) (freefilelist s) (brk s) (destroyed s) (errstr s).
Definition set_fls x s := FHeap (files s) x (rds s) (trees s) (freefilelist s) (brk s) (destroyed s) (errstr s).
Definition set_rds x s := FHeap (files s) (fls s) x (trees s) (freefilelist s) (brk s) (destroyed s) (errstr s).
Definition set_trees x s := FHeap (files s) (fls s) (rds s) x (freefilelist s) (brk s) (destroyed s) (errstr s).
Definition set_freefilelist x s := FHeap (files s) (fls s) (rds s) (trees s) x (brk s) (destroyed s) (errstr s).
Definition set_brk x s := FHeap (files s) (fls s) (rds s) (trees s) (freefilelist s) x (destroyed s) (errstr s).
Definition set_destroyed x s := FHeap (files s) (fls s) (rds s) (trees s) (freefilelist s) (brk s) x (errstr s).
Definition set_errstr x s := FHeap (files s) (fls s) (rds s) (trees s) (freefilelist s) (brk s) (destroyed s) x.

Section Files.
Context {R : Type}.
Abbreviation fcmd := (cmd fheap R).

(** A file in use. *)
Definition fget (p : Z) : fcmd File := fun s =>
  match files s !! p with
  | Some f => if f_free f then (Abt, s) else (Go f, s)
  | None => (Abt, s)
  end.
Definition fset (p : Z) (g : File -> File) : fcmd unit := fun s =>
  match files s !! p with
  | Some f => if f_free f then (Abt, s) else (Go tt, set_files (<[p := g f]> (files s)) s)
  | None => (Abt, s)
  end.

(** A file on the free list. *)
Definition free_get (p : Z) : fcmd File := fun s =>
  match files s !! p with Some f => (Go f, s) | None => (Abt, s) end.
Definition free_put (p : Z) (f : File) : fcmd unit := cmodify (fun s => set_files (<[p := f]> (files s)) s).

Definition flget (p : Z) : fcmd Filelist := fun s =>
  match fls s !! p with Some f => (Go f, s) | None => (Abt, s) end.
Definition flset (p : Z) (v : Filelist) : fcmd unit := fun s =>
  match fls s !! p with
  | Some _ => (Go tt, set_fls (<[p := v]> (fls s)) s)
  | None => (Abt, s)
  end.
Definition flfree (p : Z) : fcmd unit := cmodify (fun s => set_fls (delete p (fls s)) s).
Definition werrstr (e : ferr) : fcmd unit := cmodify (set_errstr e).

(** [emalloc9p(n*sizeof ..)]: [n] consecutive objects. *)
Definition emalloc (n : Z) : fcmd Z := fun s => (Go (brk s), set_brk (brk s + n) s).

(** [incref] and [decref] of the field [_ref]. *)
Definition incref (p : Z) : fcmd unit := fset p (fun f => set_ref (s32 (f_ref f + 1)) f).
Definition decref (p : Z) : fcmd Z :=
  fset p (fun f => set_ref (s32 (f_ref f - 1)) f);;
  f <- fget p;; cret (f_ref f).

(** *** allocfile, freefile *)

Definition NFILES : Z := 16.

(** The [N] new files, linked by [aux]. *)
Definition new_files (a : Z) : list (Z * File) :=
  (fun i => (a + i, set_free true (set_allocd (if decide (i = 0) then 1 else 0)
      (set_aux (if decide (i = NFILES - 1) then 0 else a + i + 1) zero_file)))) <$> seqZ 0 NFILES.

Definition allocfile : fcmd Z :=
  fr <- cgets freefilelist;;
  (if decide (fr = 0) then
     a <- emalloc NFILES;;
     cmodify (fun s => set_files (list_to_map (new_files a) ∪ files s) s);;
     cmodify (set_freefilelist a)
   else cret tt);;
  f <- cgets freefilelist;;
  fo <- free_get f;;
  cmodify (set_freefilelist (f_aux fo));;
  free_put f (set_allocd (f_allocd fo) zero_file);;
  cret f.

(** The loop of [freefile]: every entry is empty. *)
Fixpoint freelist_loop (fuel : nat) (fl : Z) : fcmd unit :=
  match fuel with
  | O => cabort
  | S fuel' =>
      if decide (fl = 0) then cret tt
      else
        n <- flget fl;;
        if decide (fl_f n <> 0) then cabort (* assert(fl->f == nil) *)
        else flfree fl;; freelist_loop fuel' (fl_link n)
  end.

Definition flfuel : fcmd nat := cgets (fun s => S (size (fls s))).

Definition freefile (f : Z) : fcmd unit :=
  fo <- fget f;;
  fuel <- flfuel;;
  freelist_loop fuel (f_list fo);;
  if decide (f_ref fo <> 0) then cabort
  else
    fr <- cgets freefilelist;;
    fset f (fun o => set_free true (set_aux fr o));; (* the strings were freed before *)
    cmodify (set_freefilelist f).

(** *** cleanfilelist *)

(** The loop of [cleanfilelist]: [None] is [&f->filelist], [Some p] is
    [&p->link]. *)
Definition lget (f : Z) (l : option Z) : fcmd Z :=
  match l with
  | None => fo <- fget f;; cret (f_list fo)
  | Some p => n <- flget p;; cret (fl_link n)
  end.
Definition lset (f : Z) (l : option Z) (v : Z) : fcmd unit :=
  match l with
  | None => fset f (set_list v)
  | Some p => n <- flget p;; flset p (MkFilelist (fl_f n) v)
  end.

Fixpoint clean_loop (fuel : nat) (f : Z) (l : option Z) : fcmd unit :=
  match fuel with
  | O => cabort
  | S fuel' =>
      fl <- lget f l;;
      if decide (fl = 0) then cret tt
      else
        n <- flget fl;;
        if decide (fl_f n = 0) then
          lset f l (fl_link n);; flfree fl;; clean_loop fuel' f l
        else clean_loop fuel' f (Some fl)
  end.

Definition cleanfilelist (f : Z) : fcmd unit :=
  fo <- fget f;;
  if decide (f_readers fo <> 0) then cret tt
  else if decide (f_nxchild fo = 0) then cret tt
  else
    fuel <- flfuel;;
    clean_loop fuel f None;;
    fset f (set_nxchild 0).

(** *** closefile *)

Definition closefile (f : Z) : fcmd unit :=
  n <- decref f;;
  if decide (n = 0) then
    cmodify (fun s => set_destroyed (destroyed s ++ [f]) s);;
    freefile f
  else cret tt.

(** *** removefile *)

(** The search for the list node of [f]; 0 at the end of the list. *)
Fixpoint find_node (fuel : nat) (f fl : Z) : fcmd Z :=
  match fuel with
  | O => cabort
  | S fuel' =>
      if decide (fl = 0) then cret 0
      else
        n <- flget fl;;
        if decide (fl_f n = f) then cret fl else find_node fuel' f (fl_link n)
  end.
End Files.

Abbreviation fcall R A := (cmd fheap R A).

Definition removefile {R} (f : Z) : fcall R Z := ccall (
  fo <- fget f;;
  let fp := f_parent fo in
  if decide (fp = 0) then
    werrstr NoParent;; closefile f;; creturn (-1)
  else if decide (fp = f) then
    werrstr CannotRemoveRoot;; closefile f;; creturn (-1)
  else
    fo <- fget f;;
    if decide (f_nchild fo <> 0) then
      werrstr HasChildren;; closefile f;; creturn (-1)
    else if decide (f_parent fo <> fp) then
      werrstr ParentChanged;; closefile f;; creturn (-1)
    else
      fpo <- fget fp;;
      fuel <- flfuel;;
      fl <- find_node fuel f (f_list fpo);;
      if decide (fl = 0) then cabort (* assert(fl != nil && fl->f == f) *)
      else
        n <- flget fl;;
        flset fl (MkFilelist 0 (fl_link n));;
        fset fp (fun o => set_nchild (f_nchild o - 1) o);;
        fset fp (fun o => set_nxchild (f_nxchild o + 1) o);;
        fset f (set_parent 0);;
        cleanfilelist fp;;
        closefile fp;; (* reference from child *)
        closefile f;;  (* reference from tree *)
        closefile f;;
        creturn 0).

(** *** createfile *)

Section Create.
Context {R : Type}.
Abbreviation fcmd := (cmd fheap R).

(** The loop to the end of the list of [fp]: the link field that holds [nil],
    or [None] when a file with the name is met. *)
Fixpoint create_loop (fuel : nat) (fp : Z) (name : bytes) (l : option Z) : fcmd (option (option Z)) :=
  match fuel with
  | O => cabort
  | S fuel' =>
      fl <- lget fp l;;
      if decide (fl = 0) then cret (Some l)
      else
        n <- flget fl;;
        if decide (fl_f n <> 0) then
          c <- fget (fl_f n);;
          if decide (v_name (f_dir c) = name) then cret None
          else create_loop fuel' fp name (Some fl)
        else create_loop fuel' fp name (Some fl)
  end.
End Create.

(** The qid type that the permissions give. *)
Definition perm_qtype (perm : Z) : Z :=
  let t := if decide (Z.land perm DMDIR <> 0) then QTDIR else 0 in
  let t := if decide (Z.land perm DMAPPEND <> 0) then Z.lor t QTAPPEND else t in
  if decide (Z.land perm DMEXCL <> 0) then Z.lor t QTEXCL else t.

(** The string "unknown". *)
Definition unknown : bytes := [117; 110; 107; 110; 111; 119; 110].

(** [createfile(fp, name, uid, perm, aux)] at the time [now]; [uid] is [None]
    for [nil]. *)
Definition createfile {R} (fp : Z) (name : bytes) (uid : option bytes) (perm aux now : Z) : fcall R Z := ccall (
  fpo <- fget fp;;
  if decide (Z.land (q_type (v_qid (f_dir fpo))) QTDIR = 0) then
    werrstr CreateInNonDirectory;; creturn 0
  else
    fuel <- flfuel;;
    l <- create_loop fuel fp name None;;
    match l with
    | None => werrstr FileExists;; creturn 0
    | Some l =>
        fl <- emalloc 1;;
        cmodify (fun s => set_fls (<[fl := MkFilelist 0 0]> (fls s)) s);;
        lset fp l fl;;
        f <- allocfile;;
        fpo <- fget fp;;
        let t := f_tree fpo in
        ts <- cgets (fun s => trees s !! t);;
        match ts with
        | None => cabort
        | Some to =>
            cmodify (fun s => set_trees
              (<[t := MkTree (t_root to) (u32 (t_qidgen to + 1)) (t_dirqidgen to)]> (trees s)) s);;
            fset f (set_dir (Dirv 0 0 (MkQid (t_qidgen to) 0 (perm_qtype perm)) perm now now 0
              name (default (v_uid (f_dir fpo)) uid) (v_gid (f_dir fpo)) (default unknown uid)));;
            fset f (set_aux aux);;
            fset f (set_parent fp);;
            incref fp;;
            fset f (set_tree t);;
            incref f;; (* being returned *)
            incref f;; (* for the tree *)
            flset fl (MkFilelist f 0);;
            fset fp (fun o => set_nchild (f_nchild o + 1) o);;
            creturn f
        end
    end).

(** *** walkfile *)

Definition dotdot : bytes := [46; 46].

Section Walk.
Context {R : Type}.
Abbreviation fcmd := (cmd fheap R).

(** The search of [walkfile1] for a child with the name; 0 when there is none. *)
Fixpoint walk_loop (fuel : nat) (elem : bytes) (fl : Z) : fcmd Z :=
  match fuel with
  | O => cabort
  | S fuel' =>
      if decide (fl = 0) then cret 0
      else
        n <- flget fl;;
        if decide (fl_f n <> 0) then
          c <- fget (fl_f n);;
          if decide (v_name (f_dir c) = elem) then incref (fl_f n);; cret (fl_f n)
          else walk_loop fuel' elem (fl_link n)
        else walk_loop fuel' elem (fl_link n)
  end.
End Walk.

(** The reference to [dir] is the caller's, and given up. *)
Definition walkfile1 {R} (dir : Z) (elem : bytes) : fcall R Z := ccall (
  d <- fget dir;;
  if decide (elem = dotdot) then
    let fp := f_parent d in
    incref fp;; closefile dir;; creturn fp
  else
    fuel <- flfuel;;
    fp <- walk_loop fuel elem (f_list d);;
    closefile dir;; creturn fp).

(** The path up to the first slash, and what follows it. *)
Fixpoint split_slash (path : bytes) : bytes * option bytes :=
  match path with
  | [] => ([], None)
  | c :: r =>
      if decide (c = 47) then ([], Some r)
      else let '(a, b) := split_slash r in (c :: a, b)
  end.

Fixpoint walk_path {R} (fuel : nat) (f : Z) (s : bytes) : fcall R Z :=
  match fuel with
  | O => cabort
  | S fuel' =>
      if decide (s = []) then cret f
      else
        let '(elem, nexts) := split_slash s in
        nf <- walkfile1 f elem;;
        closefile f;;
        if decide (nf = 0) then cret 0
        else walk_path fuel' nf (default [] nexts)
  end.

Definition walkfile {R} (f : Z) (path : bytes) : fcall R Z := ccall (
  if decide (47 ∉ path) then nf <- walkfile1 f path;; creturn nf
  else
    incref f;;
    nf <- walk_path (S (length path)) f path;;
    creturn nf).

(** *** Trees *)

(** [alloctree(uid, gid, mode, destroy)]; [user] is what [getuser] returns, or
    "none". *)
Definition alloctree {R} (user : bytes) (uid gid : option bytes) (mode now : Z) : fcall R Z :=
  t <- emalloc 1;;
  f <- allocfile;;
  let uid := default user uid in
  fset f (set_dir (Dirv 0 0 (MkQid 0 0 QTDIR) (Z.lor DMDIR mode) now now 0
    [47] uid (default uid gid) uid));;
  fset f (set_tree t);;
  fset f (set_parent f);;
  incref f;;
  cmodify (fun s => set_trees (<[t := MkTree f 0 1]> (trees s)) s);;
  cret t.

(** [_freefiles], which calls itself for the children; every call frees a file
    or a list node. *)
Fixpoint freefiles {R} (fuel : nat) (f : Z) : fcall R unit :=
  match fuel with
  | O => cabort
  | S fuel' =>
      fo <- fget f;;
      (fix loop (k : nat) (fl : Z) : fcall R unit :=
         match k with
         | O => cabort
         | S k' =>
             if decide (fl = 0) then cret tt
             else
               n <- flget fl;;
               freefiles fuel' (fl_f n);;
               flfree fl;;
               loop k' (fl_link n)
         end) fuel' (f_list fo);;
      cmodify (fun s => set_destroyed (destroyed s ++ [f]) s);;
      freefile f
  end.

Definition freetree {R} (t : Z) : fcall R unit := fun s =>
  match trees s !! t with
  | None => (Abt, s)
  | Some to =>
      (freefiles (S (size (fls s) + size (files s))) (t_root to);;
       cmodify (fun s => set_trees (delete t (trees s)) s)) s
  end.

(** *** Reading a directory *)

Definition opendirfile {R} (dir : Z) : fcall R Z := ccall (
  d <- fget dir;;
  if decide (Z.land (v_mode (f_dir d)) DMDIR = 0) then creturn 0
  else
    r <- emalloc 1;;
    cmodify (fun s => set_rds (<[r := MkReaddir dir (f_list d)]> (rds s)) s);;
    fset dir (fun d => set_readers (s32 (f_readers d + 1)) d);;
    creturn r).

(** [convD2M(&f->_dir, buf, n)]: the value returned and the bytes stored. *)
Definition dir_store (v : dirv) (n : Z) : Z * bytes :=
  if decide (n < BIT16SZ) then (0, [])
  else if decide (n < dir_size v) then (BIT16SZ, le 2 (dir_size v - BIT16SZ))
  else (dir_size v, enc_dir v).

(** The loop of [readdirfile]: [m], the bytes stored at [buf], where the loop
    ends. *)
Fixpoint readdir_loop {R} (fuel : nat) (n fl m : Z) (buf : bytes) : fcall R (Z * Z * bytes) :=
  match fuel with
  | O => cabort
  | S fuel' =>
      if decide (fl <> 0 /\ m + 2 <= n) then
        nd <- flget fl;;
        if decide (fl_f nd = 0) then readdir_loop fuel' n (fl_link nd) m buf
        else
          f <- fget (fl_f nd);;
          let '(x, out) := dir_store (f_dir f) (n - m) in
          if decide (x <= BIT16SZ) then cret (fl, m, buf ++ out)
          else readdir_loop fuel' n (fl_link nd) (m + x) (buf ++ out)
      else cret (fl, m, buf)
  end.

(** [readdirfile(r, buf, n)]: the value returned and the bytes stored. *)
Definition readdirfile {R} (r n : Z) : fcall R (Z * bytes) := fun s =>
  match rds s !! r with
  | None => (Abt, s)
  | Some ro =>
      (fuel <- flfuel;;
       x <- readdir_loop fuel n (rd_fl ro) 0 [];;
       let '(fl, m, buf) := x in
       cmodify (fun s => set_rds (<[r := MkReaddir (rd_dir ro) fl]> (rds s)) s);;
       cret (m, buf)) s
  end.

Definition closedirfile {R} (r : Z) : fcall R unit := fun s =>
  match rds s !! r with
  | None => (Abt, s)
  | Some ro =>
      let dir := rd_dir ro in
      (fset dir (fun d => set_readers (s32 (f_readers d - 1)) d);;
       d <- fget dir;;
       (if decide (f_readers d = 0) then cleanfilelist dir else cret tt);;
       cmodify (fun s => set_rds (delete r (rds s)) s)) s
  end.

(** *** Permissions (uid.c) *)

(** [hasperm(f, uid, p)] on the entry of [f]. *)
Definition hasperm (d : dirv) (uid : bytes) (p : Z) : bool :=
  let m := Z.land (v_mode d) 7 in
  if decide (Z.land p m = p) then true
  else
    let m1 := if decide (v_uid d = uid) then Z.lor m (Z.land (Z.shiftr (v_mode d) 6) 7) else m in
    if decide (v_uid d = uid /\ Z.land p m1 = p) then true
    else
      let m2 := if decide (v_gid d = uid) then Z.lor m1 (Z.land (Z.shiftr (v_mode d) 3) 7) else m1 in
      if decide (v_gid d = uid /\ Z.land p m2 = p) then true else false.
