(* ===== verification/FilesSpec.v ===== *)
(** The reference counts of the file trees: the invariant that ties the count of
    a file to its holders, its children and its place in the tree, and that
    every operation keeps it without touching freed memory. *)

From S2P Require Import Prelude Mem Links Counts Fcall9P Fcall9PSpec Dir9P Dir9PSpec Files.

(** ** The invariant *)

(** The list node at an address: the file and the next node. *)
Definition flnode (s : fheap) (a : Z) : option (Z * Z) :=
  (fun n => (fl_f n, fl_link n)) <$> fls s !! a.

(** The files of a list; removed files leave nodes that hold 0. *)
Definition nz (l : list (Z * Z)) : list Z := filter (fun c => c <> 0) l.*2.

Definition kids (K : Z -> list (Z * Z)) (f : Z) : Z := Z.of_nat (length (nz (K f))).

(** The reference that a file's parent has to it. *)
Definition pref (fo : File) : Z := if decide (f_parent fo = 0) then 0 else 1.

(** The open readers of a directory. *)
Definition nrd (s : fheap) (f : Z) : Z := cnt (fun r => rd_dir r = f) (rds s).

(** The free files, linked by [aux]. *)
Fixpoint free_list (s : fheap) (l : list Z) (h : Z) : Prop :=
  match l with
  | [] => h = 0
  | f :: l' => h = f /\ exists fo, files s !! f = Some fo /\ f_ref fo = 0 /\ free_list s l' (f_aux fo)
  end.

(** [ext f] references to [f] are held outside the tree; [K d] are the nodes of
    the list of [d] with the files in them. *)
Record finv (s : fheap) (ext : Z -> Z) (K : Z -> list (Z * Z)) : Prop := {
  fi_brk : 0 < brk s;
  fi_files f fo : files s !! f = Some fo -> 0 < f < brk s;
  fi_fls a n : fls s !! a = Some n -> 0 < a < brk s;
  fi_rds r ro : rds s !! r = Some ro -> 0 < r < brk s;
  fi_trees t x : trees s !! t = Some x -> 0 < t < brk s;
  fi_ext f : 0 <= ext f;
  fi_none f : files s !! f = None -> ext f = 0 /\ K f = [];
  fi_ref f fo : files s !! f = Some fo -> f_ref fo = ext f + kids K f + pref fo;
  fi_bound f fo : files s !! f = Some fo -> f_ref fo < 2 ^ 31;
  fi_dead f fo : files s !! f = Some fo -> f_ref fo = 0 -> K f = [];
  fi_list f fo : files s !! f = Some fo -> f_ref fo <> 0 ->
    f_list fo = hd_or (K f) 0 /\ seg (flnode s) (K f) 0;
  fi_nodes d : NoDup (K d).*1;
  fi_disj d d' a : a ∈ (K d).*1 -> a ∈ (K d').*1 -> d = d';
  fi_nodup d : NoDup (nz (K d));
  fi_child d c : c ∈ nz (K d) -> c <> d /\ exists co, files s !! c = Some co /\ f_parent co = d;
  fi_parent c co : files s !! c = Some co -> f_parent co <> 0 -> f_parent co <> c ->
    c ∈ nz (K (f_parent co));
  fi_nchild f fo : files s !! f = Some fo -> f_ref fo <> 0 -> f_nchild fo = kids K f;
  fi_tree f fo : files s !! f = Some fo -> f_ref fo <> 0 -> is_Some (trees s !! f_tree fo);
  fi_readers f fo : files s !! f = Some fo -> f_ref fo <> 0 -> f_readers fo = nrd s f;
  fi_nrd f : nrd s f <= ext f;
  fi_rd r ro : rds s !! r = Some ro -> rd_fl ro = 0 \/ rd_fl ro ∈ (K (rd_dir ro)).*1;
  fi_live f fo : files s !! f = Some fo -> f_ref fo <> 0 -> f_free fo = false;
  fi_free : exists l, NoDup l /\ free_list s l (freefilelist s)
}.

(** A change of the count of one file. *)
Definition upd (g : Z -> Z) (f d : Z) : Z -> Z := fun x => if decide (x = f) then g x + d else g x.

Lemma upd_eq g f d : upd g f d f = g f + d.
Proof. unfold upd. by rewrite decide_True. Qed.
Lemma upd_ne g f d x : x <> f -> upd g f d x = g x.
Proof. intros H. unfold upd. by rewrite decide_False. Qed.

Lemma elem_of_nz c l : c ∈ nz l <-> c <> 0 /\ c ∈ l.*2.
Proof. unfold nz. by rewrite list_elem_of_filter. Qed.

Lemma nz_app l l' : nz (l ++ l') = nz l ++ nz l'.
Proof. unfold nz. by rewrite fmap_app, list.filter_app. Qed.

Lemma nz_cons a x l : nz ((a, x) :: l) = if decide (x <> 0) then x :: nz l else nz l.
Proof. reflexivity. Qed.

Lemma kids_nonneg K f : 0 <= kids K f.
Proof. unfold kids. lia. Qed.

Lemma pref_range fo : 0 <= pref fo <= 1.
Proof. unfold pref. case_decide; lia. Qed.

Lemma nrd_nonneg s f : 0 <= nrd s f.
Proof. apply cnt_nonneg. Qed.

(** A file that may be used. *)
Definition usable (s : fheap) (f : Z) : Prop := exists fo, files s !! f = Some fo /\ f_free fo = false.

(** A file that is held, or has children, or is in the tree, is alive. *)
Lemma ref_pos s ext K f fo : finv s ext K -> files s !! f = Some fo ->
  0 < ext f \/ K f <> [] \/ f_parent fo <> 0 -> 0 < f_ref fo.
Proof.
intros I Hf H. pose proof (fi_ref _ _ _ I f fo Hf) as Hr. pose proof (fi_ext _ _ _ I f).
pose proof (kids_nonneg K f). pose proof (pref_range fo).
destruct H as [H|[H|H]]; [lia| |].
- destruct (decide (f_ref fo = 0)) as [Hz|]; [|lia]. exfalso. apply H. by apply (fi_dead _ _ _ I f fo).
- unfold pref in *. rewrite decide_False in * by done. lia.
Qed.

Lemma held_file s ext K f : finv s ext K -> 0 < ext f -> exists fo, files s !! f = Some fo /\ 0 < f_ref fo.
Proof.
intros I H. destruct (files s !! f) as [fo|] eqn:E.
- exists fo. split; [done|]. eapply ref_pos; eauto.
- destruct (fi_none _ _ _ I f E). lia.
Qed.

(** The parent of a file in the tree is alive. *)
Lemma parent_file s ext K c co : finv s ext K -> files s !! c = Some co -> f_parent co <> 0 ->
  exists po, files s !! (f_parent co) = Some po /\ 0 < f_ref po.
Proof.
intros I Hc Hp. destruct (decide (f_parent co = c)) as [E|Hne].
- rewrite E. exists co. split; [done|]. eapply ref_pos; eauto.
- pose proof (fi_parent _ _ _ I c co Hc Hp Hne) as Hin.
  assert (K (f_parent co) <> []) as HK by (intros E; rewrite E in Hin; by apply not_elem_of_nil in Hin).
  destruct (files s !! f_parent co) as [po|] eqn:E.
  + exists po. split; [done|]. eapply ref_pos; eauto.
  + destruct (fi_none _ _ _ I _ E) as [_ ?]. done.
Qed.

(** The files in the lists may be used. *)
Lemma kid_usable s ext K d c : finv s ext K -> c ∈ nz (K d) -> usable s c.
Proof.
intros I Hc. destruct (fi_child _ _ _ I d c Hc) as (Hcd & co & Hco & Hp). exists co. split; [done|].
assert (d <> 0) as Hd.
{ intros ->. destruct (files s !! 0) as [x|] eqn:E; [pose proof (fi_files _ _ _ I 0 x E); lia|].
  destruct (fi_none _ _ _ I 0 E) as [_ HK]. rewrite HK in Hc. by apply not_elem_of_nil in Hc. }
apply (fi_live _ _ _ I c co Hco). assert (0 < f_ref co); [|lia]. eapply ref_pos; [exact I|exact Hco|]. right. right. congruence.
Qed.

(** A file that is alive may be used. *)
Ltac alive := cbn; first [reflexivity | assumption | match goal with
  | I : finv ?s ?e ?K, H : files ?s !! ?f = Some ?fo |- f_free ?fo = false =>
      apply (fi_live s e K I f fo H); first [assumption | lia | apply Z.neq_sym, Z.lt_neq, (ref_pos s e K f fo I H); first [tauto | left; lia]]
  end].

(** ** Single accesses *)

Section Access.
Context {R : Type}.
Implicit Types (s : fheap).

Lemma fget_go p s f : files s !! p = Some f -> f_free f = false -> fget (R := R) p s = (Go f, s).
Proof. intros H E. unfold fget. by rewrite H, E. Qed.

Lemma fset_go p g s f : files s !! p = Some f -> f_free f = false ->
  fset (R := R) p g s = (Go tt, set_files (<[p := g f]> (files s)) s).
Proof. intros H E. unfold fset. by rewrite H, E. Qed.

Lemma flget_go p s n : fls s !! p = Some n -> flget (R := R) p s = (Go n, s).
Proof. intros H. unfold flget. by rewrite H. Qed.

Lemma flset_go p v s n : fls s !! p = Some n ->
  flset (R := R) p v s = (Go tt, set_fls (<[p := v]> (fls s)) s).
Proof. intros H. unfold flset. by rewrite H. Qed.

Lemma decref_go p s f : files s !! p = Some f -> f_free f = false ->
  decref (R := R) p s = (Go (s32 (f_ref f - 1)), set_files (<[p := set_ref (s32 (f_ref f - 1)) f]> (files s)) s).
Proof.
intros H E. unfold decref. rewrite (cbind_go _ _ _ _ _ (fset_go _ _ _ _ H E)).
rewrite (cbind_go _ _ _ _ _ (fget_go p (set_files (<[p:=set_ref (s32 (f_ref f - 1)) f]> (files s)) s) _ (lookup_insert_eq _ _ _) E)). done.
Qed.

Lemma flnode_some s a x n : flnode s a = Some (x, n) -> fls s !! a = Some (MkFilelist x n).
Proof. unfold flnode. destruct (fls s !! a) as [[]|]; cbn; congruence. Qed.

Lemma seg_fls_size s ns e : seg (flnode s) ns e -> NoDup ns.*1 -> (length ns <= size (fls s))%nat.
Proof.
intros Hs Hn. apply (seg_size (fls s) (flnode s) ns e); [done..|].
intros a [y Hy]. unfold flnode in Hy. by destruct (fls s !! a).
Qed.

Lemma freelist_loop_go fuel ns s : seg (flnode s) ns 0 -> NoDup ns.*1 -> nz ns = [] ->
  (length ns < fuel)%nat ->
  exists m, freelist_loop (R := R) fuel (hd_or ns 0) s = (Go tt, set_fls m s) /\
    forall a, m !! a = if decide (a ∈ ns.*1) then None else fls s !! a.
Proof.
revert ns s; induction fuel as [|fuel IH]; intros ns s Hs Hn Hz Hf; [lia|].
destruct ns as [|[a x] ns]; cbn [freelist_loop hd_or].
- exists (fls s). split; [by destruct s|]. intros a. rewrite decide_False; [done|]. apply not_elem_of_nil.
- destruct Hs as (Ha & Hk & Hs). rewrite nz_cons in Hz.
  destruct (decide (x <> 0)) as [|Hx]; [done|]. assert (x = 0) as -> by lia.
  rewrite decide_False by done. apply flnode_some in Hk.
  rewrite (cbind_go _ _ _ _ _ (flget_go _ _ _ Hk)). cbn [fl_f fl_link].
  rewrite decide_False by (intros H; by apply H). unfold cbind at 1, flfree, cmodify.
  cbn in Hn. apply list.NoDup_cons in Hn as [Hni Hn]. cbn in Hf.
  destruct (IH ns (set_fls (delete a (fls s)) s)) as (m & E & Hm); try done; try lia.
  { eapply seg_ext; [|exact Hs]. intros b Hb. unfold flnode. cbn. rewrite lookup_delete_ne; [done|].
    by intros ->. }
  exists m. split; [exact E|]. intros b. rewrite Hm. cbn.
  destruct (decide (b = a)) as [->|Hne].
  + rewrite lookup_delete_eq. rewrite (decide_True (P := a ∈ a :: ns.*1)) by apply list_elem_of_here.
    by case_decide.
  + rewrite lookup_delete_ne by done. destruct (decide (b ∈ ns.*1)) as [Hi|Hi].
    * rewrite decide_True; [done|]. by right.
    * rewrite decide_False; [done|]. by apply not_elem_of_cons.
Qed.
End Access.

(** ** Keeping the invariant *)

Lemma free_list_ext_in s s' l h :
  (forall f fo, f ∈ l -> files s !! f = Some fo -> f_ref fo = 0 ->
     exists fo', files s' !! f = Some fo' /\ f_ref fo' = 0 /\ f_aux fo' = f_aux fo) ->
  free_list s l h -> free_list s' l h.
Proof.
revert h; induction l as [|f l IH]; intros h H; cbn; [done|].
intros (-> & fo & Hf & Hr & Hl). split; [done|].
destruct (H f fo (list_elem_of_here _ _) Hf Hr) as (fo' & Hf' & Hr' & Ha).
exists fo'. rewrite Ha. split_and!; try done. apply IH; [|done]. intros g go Hg. apply H. by right.
Qed.

Lemma free_list_ext s s' l h :
  (forall f fo, files s !! f = Some fo -> f_ref fo = 0 ->
     exists fo', files s' !! f = Some fo' /\ f_ref fo' = 0 /\ f_aux fo' = f_aux fo) ->
  free_list s l h -> free_list s' l h.
Proof. intros H. apply free_list_ext_in. intros f fo _. apply H. Qed.

Lemma free_list_in s l h f : free_list s l h -> f ∈ l -> exists fo, files s !! f = Some fo /\ f_ref fo = 0.
Proof.
revert h; induction l as [|g l IH]; intros h; cbn; [by intros _ H%not_elem_of_nil|].
intros (-> & fo & Hf & Hr & Hl) [->|Hin]%elem_of_cons; [by eauto|by eapply IH].
Qed.

Lemma nrd_in s r ro : rds s !! r = Some ro -> 0 < nrd s (rd_dir ro).
Proof. intros H. by apply (cnt_pos _ _ r ro). Qed.

(** What the lists and the readers of a file depend on. *)
Definition same_shape (fo fo' : File) : Prop :=
  f_parent fo' = f_parent fo /\ f_list fo' = f_list fo /\ f_nchild fo' = f_nchild fo /\
  f_tree fo' = f_tree fo /\ f_readers fo' = f_readers fo /\ f_free fo' = f_free fo.

Lemma finv_set_file s ext ext' K f fo fo' : finv s ext K -> files s !! f = Some fo ->
  same_shape fo fo' -> f_ref fo' = ext' f + kids K f + pref fo -> f_ref fo' < 2 ^ 31 ->
  (f_ref fo = 0 <-> f_ref fo' = 0) -> (f_ref fo = 0 -> f_aux fo' = f_aux fo) ->
  (forall g, g <> f -> ext' g = ext g) -> 0 <= ext' f -> nrd s f <= ext' f ->
  finv (set_files (<[f := fo']> (files s)) s) ext' K.
Proof.
intros I Hf (Hp & Hl & Hn & Ht & Hr & Hfr) Href Hb Hz Ha Hext He0 Hrd.
assert (forall g go, <[f := fo']> (files s) !! g = Some go ->
  exists go0, files s !! g = Some go0 /\ same_shape go0 go /\ (f_ref go0 = 0 <-> f_ref go = 0) /\
    pref go = pref go0) as Hsh.
{ intros g go. destruct (decide (g = f)) as [->|Hne].
  - rewrite lookup_insert_eq. intros [= <-]. exists fo. split_and!; try done; [by apply Hz..|].
    unfold pref. by rewrite Hp.
  - rewrite lookup_insert_ne by done. intros Hg. by exists go. }
assert (forall g go0, files s !! g = Some go0 -> exists go, <[f := fo']> (files s) !! g = Some go /\
    f_parent go = f_parent go0) as Hsh'.
{ intros g go0 Hg. destruct (decide (g = f)) as [->|Hne].
  - exists fo'. rewrite lookup_insert_eq. split; [done|]. congruence.
  - exists go0. by rewrite lookup_insert_ne. }
constructor; cbn.
- apply I.
- intros g go Hg. destruct (Hsh g go Hg) as (go0 & Hg0 & _). by apply (fi_files _ _ _ I g go0).
- apply I.
- apply I.
- apply I.
- intros g. destruct (decide (g = f)) as [->|Hne]; [done|]. rewrite Hext by done. apply I.
- intros g Hg. assert (g <> f) as Hne by (intros ->; by rewrite lookup_insert_eq in Hg).
  rewrite lookup_insert_ne in Hg by done. rewrite Hext by done. by apply (fi_none _ _ _ I).
- intros g go Hg. destruct (decide (g = f)) as [->|Hne].
  + rewrite lookup_insert_eq in Hg. injection Hg as <-. rewrite Href. unfold pref. by rewrite Hp.
  + rewrite lookup_insert_ne in Hg by done. rewrite Hext by done. by apply (fi_ref _ _ _ I).
- intros g go Hg. destruct (decide (g = f)) as [->|Hne].
  + rewrite lookup_insert_eq in Hg. by injection Hg as <-.
  + rewrite lookup_insert_ne in Hg by done. by apply (fi_bound _ _ _ I g).
- intros g go Hg Hz'. destruct (Hsh g go Hg) as (go0 & Hg0 & _ & Hzz & _).
  apply (fi_dead _ _ _ I g go0 Hg0). tauto.
- intros g go Hg Hz'. destruct (Hsh g go Hg) as (go0 & Hg0 & (_ & Hl0 & _) & Hzz & _).
  rewrite Hl0. apply (fi_list _ _ _ I g go0 Hg0). tauto.
- apply I.
- apply I.
- apply I.
- intros d c Hc. destruct (fi_child _ _ _ I d c Hc) as (Hcd & co & Hco & Hcp). split; [done|].
  destruct (Hsh' c co Hco) as (co' & Hco' & Hp'). exists co'. split; [done|]. congruence.
- intros c co Hc Hcp Hcne. destruct (Hsh c co Hc) as (co0 & Hc0 & (Hp0 & _) & _).
  rewrite Hp0 in *. by apply (fi_parent _ _ _ I c co0).
- intros g go Hg Hz'. destruct (Hsh g go Hg) as (go0 & Hg0 & (_ & _ & Hn0 & _) & Hzz & _).
  rewrite Hn0. apply (fi_nchild _ _ _ I g go0 Hg0). tauto.
- intros g go Hg Hz'. destruct (Hsh g go Hg) as (go0 & Hg0 & (_ & _ & _ & Ht0 & _) & Hzz & _).
  rewrite Ht0. apply (fi_tree _ _ _ I g go0 Hg0). tauto.
- intros g go Hg Hz'. destruct (Hsh g go Hg) as (go0 & Hg0 & (_ & _ & _ & _ & Hr0 & _) & Hzz & _).
  rewrite Hr0. apply (fi_readers _ _ _ I g go0 Hg0). tauto.
- intros g. change (nrd (set_files (<[f := fo']> (files s)) s) g) with (nrd s g).
  destruct (decide (g = f)) as [->|Hne]; [done|]. rewrite Hext by done. apply I.
- apply I.
- intros g go Hg Hz'. destruct (Hsh g go Hg) as (go0 & Hg0 & (_ & _ & _ & _ & _ & Hf0) & Hzz & _).
  rewrite Hf0. apply (fi_live _ _ _ I g go0 Hg0). tauto.
- destruct (fi_free _ _ _ I) as (l & Hnd & Hfl). exists l. split; [done|].
  eapply free_list_ext; [|exact Hfl]. intros g go Hg Hgz. cbn. destruct (decide (g = f)) as [->|Hne].
  + rewrite Hf in Hg. injection Hg as <-. exists fo'. rewrite lookup_insert_eq. split_and!; [done|tauto|auto].
  + exists go. by rewrite lookup_insert_ne.
Qed.

Section Ops.
Context {R : Type}.

(** [incref] *)
Lemma incref_spec s ext K f fo : finv s ext K -> files s !! f = Some fo -> 0 < f_ref fo < 2 ^ 31 - 1 ->
  incref (R := R) f s = (Go tt, set_files (<[f := set_ref (f_ref fo + 1) fo]> (files s)) s) /\
  finv (set_files (<[f := set_ref (f_ref fo + 1) fo]> (files s)) s) (upd ext f 1) K.
Proof.
intros I Hf Hb. unfold incref. rewrite (fset_go _ _ _ _ Hf ltac:(alive)). rewrite s32_small by lia. split; [done|].
pose proof (fi_ref _ _ _ I f fo Hf). pose proof (fi_ext _ _ _ I f). pose proof (fi_nrd _ _ _ I f).
apply (finv_set_file s ext _ K f fo); try done; try (rewrite ?upd_eq; cbn; lia).
intros g Hg. by apply upd_ne.
Qed.
End Ops.

(** The list of a file is emptied. *)
Definition forget (K : Z -> list (Z * Z)) (f : Z) : Z -> list (Z * Z) := fun d => if decide (d = f) then [] else K d.

Lemma forget_eq K f : forget K f f = [].
Proof. unfold forget. by rewrite decide_True. Qed.
Lemma forget_ne K f d : d <> f -> forget K f d = K d.
Proof. intros H. unfold forget. by rewrite decide_False. Qed.

Lemma forget_in K f d a : a ∈ (forget K f d).*1 -> d <> f /\ a ∈ (K d).*1.
Proof. unfold forget. case_decide; [by intros Hin%not_elem_of_nil|done]. Qed.

(** The last reference to a file without children and outside the tree is
    given up: the file is destroyed and freed. *)
Lemma finv_free s ext K f fo m dl : finv s ext K -> files s !! f = Some fo ->
  f_ref fo = 1 -> ext f = 1 -> nrd s f = 0 ->
  (forall a, m !! a = if decide (a ∈ (K f).*1) then None else fls s !! a) ->
  finv (FHeap (<[f := set_free true (set_aux (freefilelist s) (set_ref 0 fo))]> (files s)) m (rds s) (trees s) f (brk s) dl (errstr s))
    (upd ext f (-1)) (forget K f).
Proof.
intros I Hf Hr He Hrd Hm.
pose proof (fi_ref _ _ _ I f fo Hf) as Href. pose proof (kids_nonneg K f). pose proof (pref_range fo).
assert (kids K f = 0 /\ pref fo = 0) as [Hk Hpf] by lia.
assert (f_parent fo = 0) as Hp by (unfold pref in Hpf; case_decide; lia).
assert (nz (K f) = []) as Hnz by (unfold kids in Hk; destruct (nz (K f)); cbn in Hk; [done|lia]).
assert (forall g go, <[f := set_free true (set_aux (freefilelist s) (set_ref 0 fo))]> (files s) !! g = Some go ->
  f_ref go <> 0 -> g <> f /\ files s !! g = Some go) as Hlive.
{ intros g go. destruct (decide (g = f)) as [->|Hne].
  - rewrite lookup_insert_eq. intros [= <-]. by cbn.
  - by rewrite lookup_insert_ne. }
assert (forall d a, a ∈ (forget K f d).*1 -> m !! a = fls s !! a) as Hkeep.
{ intros d a Ha. apply forget_in in Ha as [Hd Ha]. rewrite Hm. rewrite decide_False; [done|].
  intros Hin. apply Hd. by apply (fi_disj _ _ _ I d f a). }
constructor; cbn.
- apply I.
- intros g go. destruct (decide (g = f)) as [->|Hne].
  + intros _. by apply (fi_files _ _ _ I f fo).
  + rewrite lookup_insert_ne by done. apply I.
- intros a n. rewrite Hm. case_decide; [done|]. apply I.
- apply I.
- apply I.
- intros g. destruct (decide (g = f)) as [->|Hne]; [rewrite upd_eq; lia|]. rewrite upd_ne by done. apply I.
- intros g Hg. assert (g <> f) as Hne by (intros ->; by rewrite lookup_insert_eq in Hg).
  rewrite lookup_insert_ne in Hg by done. rewrite upd_ne, forget_ne by done. by apply (fi_none _ _ _ I).
- intros g go. unfold kids. destruct (decide (g = f)) as [->|Hne].
  + rewrite lookup_insert_eq. intros [= <-]. rewrite upd_eq, forget_eq. cbn. unfold pref. cbn.
    rewrite decide_True by done. lia.
  + rewrite lookup_insert_ne by done. rewrite upd_ne, forget_ne by done. apply (fi_ref _ _ _ I).
- intros g go. destruct (decide (g = f)) as [->|Hne].
  + rewrite lookup_insert_eq. intros [= <-]. cbn. lia.
  + rewrite lookup_insert_ne by done. apply (fi_bound _ _ _ I g).
- intros g go. destruct (decide (g = f)) as [->|Hne]; [by rewrite forget_eq|].
  rewrite lookup_insert_ne, forget_ne by done. apply (fi_dead _ _ _ I g).
- intros g go Hg Hz. destruct (Hlive g go Hg Hz) as [Hne Hg0]. pose proof (Hkeep g) as Hk2.
  rewrite forget_ne in * by done.
  destruct (fi_list _ _ _ I g go Hg0 Hz) as [H1 H2]. split; [done|].
  eapply seg_ext; [|exact H2]. intros a Ha. unfold flnode. cbn. by rewrite Hk2.
- intros d. destruct (decide (d = f)) as [->|Hne]; [rewrite forget_eq; constructor|].
  rewrite forget_ne by done. apply I.
- intros d d' a Ha Ha'. apply forget_in in Ha as [_ Ha]. apply forget_in in Ha' as [_ Ha'].
  by apply (fi_disj _ _ _ I d d' a).
- intros d. destruct (decide (d = f)) as [->|Hne]; [rewrite forget_eq; constructor|].
  rewrite forget_ne by done. apply I.
- intros d c Hc. destruct (decide (d = f)) as [->|Hne]; [rewrite forget_eq in Hc; by apply not_elem_of_nil in Hc|].
  rewrite forget_ne in Hc by done. destruct (fi_child _ _ _ I d c Hc) as (Hcd & co & Hco & Hcp).
  split; [done|]. assert (c <> f) as Hcf.
  { intros ->. rewrite Hf in Hco. injection Hco as <-. rewrite Hp in Hcp. subst d.
    destruct (files s !! 0) as [x|] eqn:E0.
    - pose proof (fi_files _ _ _ I 0 x E0). lia.
    - destruct (fi_none _ _ _ I 0 E0) as [_ E]. rewrite E in Hc. by apply not_elem_of_nil in Hc. }
  exists co. by rewrite lookup_insert_ne.
- intros c co. destruct (decide (c = f)) as [->|Hne].
  + rewrite lookup_insert_eq. intros [= <-]. cbn. by rewrite Hp.
  + rewrite lookup_insert_ne by done. intros Hc Hcp Hcc. pose proof (fi_parent _ _ _ I c co Hc Hcp Hcc) as Hin.
    destruct (decide (f_parent co = f)) as [E|Hpf']; [|by rewrite forget_ne].
    rewrite E, Hnz in Hin. by apply not_elem_of_nil in Hin.
- intros g go Hg Hz. destruct (Hlive g go Hg Hz) as [Hne Hg0]. unfold kids. rewrite forget_ne by done.
  by apply (fi_nchild _ _ _ I).
- intros g go Hg Hz. destruct (Hlive g go Hg Hz) as [Hne Hg0]. by apply (fi_tree _ _ _ I g).
- intros g go Hg Hz. destruct (Hlive g go Hg Hz) as [Hne Hg0]. by apply (fi_readers _ _ _ I g).
- intros g. change (nrd _ g) with (nrd s g).
  destruct (decide (g = f)) as [->|Hne]; [rewrite upd_eq; lia|]. rewrite upd_ne by done. apply I.
- intros r ro Hro. assert (rd_dir ro <> f) as Hne.
  { intros E. pose proof (nrd_in s r ro Hro). rewrite E in *. lia. }
  rewrite forget_ne by done. by apply (fi_rd _ _ _ I r).
- intros g go Hg Hz. destruct (Hlive g go Hg Hz) as [Hne Hg0]. by apply (fi_live _ _ _ I g).
- destruct (fi_free _ _ _ I) as (l & Hnd & Hfl). assert (f ∉ l) as Hni.
  { intros Hin. destruct (free_list_in _ _ _ _ Hfl Hin) as (fo' & Hf' & Hz). rewrite Hf in Hf'.
    injection Hf' as <-. lia. }
  exists (f :: l). split; [by apply list.NoDup_cons|]. cbn. split; [done|].
  eexists. split; [by rewrite lookup_insert_eq|]. split; [done|]. cbn.
  eapply free_list_ext; [|exact Hfl]. intros g go Hg Hgz. cbn. exists go.
  destruct (decide (g = f)) as [->|Hne]; [|by rewrite lookup_insert_ne].
  rewrite Hf in Hg. injection Hg as <-. lia.
Qed.

(** What the operations leave alone: the entry, the place and the readers of
    every file, and the freed files. *)
Definition keeps (s s' : fheap) : Prop :=
  (forall f fo, files s !! f = Some fo -> exists fo', files s' !! f = Some fo' /\
     f_dir fo' = f_dir fo /\ f_parent fo' = f_parent fo /\ f_tree fo' = f_tree fo /\ f_readers fo' = f_readers fo) /\
  rds s' = rds s /\ trees s' = trees s /\ brk s' = brk s.

Lemma keeps_refl s : keeps s s.
Proof. split_and!; try done. intros f fo H. by exists fo. Qed.

Lemma keeps_trans s1 s2 s3 : keeps s1 s2 -> keeps s2 s3 -> keeps s1 s3.
Proof.
intros (H1 & H2 & H3 & H4) (G1 & G2 & G3 & G4). split_and!; [|congruence..].
intros f fo Hf. destruct (H1 f fo Hf) as (fo1 & Hf1 & ? & ? & ? & ?).
destruct (G1 f fo1 Hf1) as (fo2 & Hf2 & ? & ? & ? & ?). exists fo2. split_and!; congruence.
Qed.

Lemma keeps_set s f fo fo' : files s !! f = Some fo -> f_dir fo' = f_dir fo -> f_parent fo' = f_parent fo ->
  f_tree fo' = f_tree fo -> f_readers fo' = f_readers fo ->
  keeps s (set_files (<[f := fo']> (files s)) s).
Proof.
intros Hf H1 H2 H3 H4. split_and!; try done. intros g go Hg. cbn.
destruct (decide (g = f)) as [->|Hne].
- rewrite Hf in Hg. injection Hg as <-. exists fo'. by rewrite lookup_insert_eq.
- exists go. by rewrite lookup_insert_ne.
Qed.

Lemma set_files_id s : set_files (files s) s = s.
Proof. by destruct s. Qed.

(** [closefile] gives up a reference that is held; it never frees a file that is
    still used, and no assertion of [freefile] fails. *)
Lemma closefile_spec {R} s ext K f : finv s ext K -> 0 < ext f -> nrd s f <= ext f - 1 ->
  exists s' K', closefile (R := R) f s = (Go tt, s') /\ finv s' (upd ext f (-1)) K' /\ keeps s s' /\
    (forall d, nz (K' d) = nz (K d)).
Proof.
intros I He Hrd. destruct (held_file _ _ _ _ I He) as (fo & Hf & Hpos).
pose proof (fi_ref _ _ _ I f fo Hf) as Href. pose proof (fi_bound _ _ _ I f fo Hf).
pose proof (kids_nonneg K f). pose proof (pref_range fo). pose proof (nrd_nonneg s f).
unfold closefile. rewrite (cbind_go _ _ _ _ _ (decref_go _ _ _ Hf ltac:(alive))). rewrite s32_small by lia.
destruct (decide (f_ref fo - 1 = 0)) as [Hz|Hz].
- assert (ext f = 1 /\ kids K f = 0) as [He1 Hk0] by lia.
  assert (nz (K f) = []) as Hnz by (unfold kids in Hk0; destruct (nz (K f)); cbn in Hk0; [done|lia]).
  destruct (fi_list _ _ _ I f fo Hf ltac:(lia)) as [Hfl Hseg].
  unfold cbind at 1, cmodify at 1. unfold freefile.
  set (s1 := set_destroyed _ _).
  assert (files s1 !! f = Some (set_ref (f_ref fo - 1) fo)) as Hf1 by (cbn; by rewrite lookup_insert_eq).
  rewrite (cbind_go _ _ _ _ _ (fget_go f s1 _ Hf1 ltac:(alive))). unfold cbind at 1, flfuel, cgets at 1.
  cbn [f_list set_ref]. rewrite Hfl.
  destruct (freelist_loop_go (R := R) (S (size (fls s1))) (K f) s1) as (m & E & Hm).
  + exact Hseg.
  + apply I.
  + done.
  + apply le_n_S. apply (seg_fls_size s1 _ 0); [exact Hseg|apply I].
  + rewrite (cbind_go _ _ _ _ _ E). rewrite decide_False by (cbn; lia).
    unfold cbind at 1, cgets at 1.
    assert (files (set_fls m s1) !! f = Some (set_ref (f_ref fo - 1) fo)) as Hf2 by exact Hf1.
    rewrite (cbind_go _ _ _ _ _ (fset_go _ _ _ _ Hf2 ltac:(alive))). unfold cmodify.
    eexists _, (forget K f). split; [reflexivity|]. rewrite Hz. cbn.
    rewrite insert_insert_eq. split_and!.
    * apply (finv_free s ext K f fo m); try done; try lia.
    * split_and!; try done. intros g go Hg. cbn. destruct (decide (g = f)) as [->|Hne].
      -- rewrite Hf in Hg. injection Hg as <-. rewrite lookup_insert_eq. by eexists.
      -- rewrite lookup_insert_ne by done. by eexists.
    * intros d. destruct (decide (d = f)) as [->|Hne]; [|by rewrite forget_ne].
      by rewrite forget_eq, Hnz.
- exists (set_files (<[f := set_ref (f_ref fo - 1) fo]> (files s)) s), K. split; [done|].
  pose proof (fi_ext _ _ _ I f). split_and!; [|by apply (keeps_set s f fo)|done].
  apply (finv_set_file s ext _ K f fo); try done; try (rewrite ?upd_eq; cbn; lia).
  intros g Hg. by apply upd_ne.
Qed.

(** *** cleanfilelist *)

(** The nodes of [m]. *)
Definition mnode (m : gmap Z Filelist) (a : Z) : option (Z * Z) := (fun n => (fl_f n, fl_link n)) <$> m !! a.

(** The link field that leads from the nodes [P] of a list to the rest. *)
Definition lpos (P : list (Z * Z)) : option Z := if decide (P = []) then None else Some (last_addr P).

Lemma lpos_snoc P a x : lpos (P ++ [(a, x)]) = Some a.
Proof.
unfold lpos. rewrite decide_False by (intros E; by apply app_eq_nil in E as [_ ?]).
by rewrite last_addr_snoc.
Qed.

(** The heap with other list nodes and another list for [f]. *)
Definition relist (m : gmap Z Filelist) (f h : Z) (fo : File) (s : fheap) : fheap :=
  set_fls m (set_files (<[f := set_list h fo]> (files s)) s).

Section Clean.
Context {R : Type}.

Lemma lget_spec f fo s P ns : files s !! f = Some fo -> f_free fo = false -> f_list fo = hd_or (P ++ ns) 0 ->
  seg (flnode s) (P ++ ns) 0 -> lget (R := R) f (lpos P) s = (Go (hd_or ns 0), s).
Proof.
intros Hf Hlv Hl Hs. destruct P as [|[a x] P _] using rev_ind.
- unfold lpos. rewrite decide_True by done. cbn [lget]. rewrite (cbind_go _ _ _ _ _ (fget_go f s fo Hf ltac:(alive))).
  by rewrite Hl.
- rewrite lpos_snoc. cbn [lget]. rewrite <- app_assoc in Hs. apply seg_app in Hs as [_ (_ & Ha & _)].
  apply flnode_some in Ha. by rewrite (cbind_go _ _ _ _ _ (flget_go a s _ Ha)).
Qed.

Lemma lset_spec f fo s P ns ns' : files s !! f = Some fo -> f_free fo = false -> f_list fo = hd_or (P ++ ns) 0 ->
  seg (flnode s) (P ++ ns) 0 -> NoDup (P ++ ns).*1 -> seg (flnode s) ns' 0 ->
  (forall a, a ∈ ns'.*1 -> a ∉ P.*1) ->
  exists m, lset (R := R) f (lpos P) (hd_or ns' 0) s = (Go tt, relist m f (hd_or (P ++ ns') 0) fo s) /\
    seg (mnode m) (P ++ ns') 0 /\ (forall a, a ∉ P.*1 -> m !! a = fls s !! a) /\
    (forall a n, m !! a = Some n -> is_Some (fls s !! a)).
Proof.
intros Hf Hlv Hl Hs Hnd Hs' Hd. destruct P as [|[a x] P _] using rev_ind.
- exists (fls s). unfold lpos. rewrite decide_True by done. cbn [lset app hd_or].
  rewrite (fset_go _ _ _ _ Hf ltac:(alive)). unfold relist. split_and!; [by destruct s|done|done|by eauto].
- rewrite lpos_snoc. cbn [lset]. rewrite <- app_assoc in Hs, Hnd. cbn in Hs, Hnd.
  pose proof Hs as Hs2. apply seg_app in Hs2 as [H1 (Ha0 & Ha & _)]. cbn in H1.
  apply flnode_some in Ha. rewrite (cbind_go _ _ _ _ _ (flget_go a s _ Ha)). rewrite (flset_go _ _ _ _ Ha).
  assert (files s = <[f := set_list (hd_or ((P ++ [(a, x)]) ++ ns') 0) fo]> (files s)) as Ef.
  { rewrite insert_id; [done|]. rewrite Hf. f_equal. rewrite <- app_assoc, !hd_or_app in *. cbn in *.
    rewrite <- Hl. by destruct fo. }
  exists (<[a := MkFilelist x (hd_or ns' 0)]> (fls s)). split_and!.
  + f_equal. unfold relist. rewrite <- Ef. by destruct s.
  + rewrite <- app_assoc. cbn. apply seg_app. rewrite fmap_app in Hnd.
    apply list.NoDup_app in Hnd as (_ & Hnd & _).
    split; [|split_and!].
    * cbn. eapply seg_ext; [|exact H1]. intros b Hb. unfold mnode, flnode. rewrite lookup_insert_ne; [done|].
      intros <-. apply (Hnd a Hb). cbn. by left.
    * done.
    * unfold mnode. by rewrite lookup_insert_eq.
    * eapply seg_ext; [|exact Hs']. intros b Hb. unfold mnode, flnode. rewrite lookup_insert_ne; [done|].
      intros <-. apply (Hd a Hb). rewrite fmap_app. apply elem_of_app. right. by left.
  + intros b Hb. rewrite lookup_insert_ne; [done|]. intros <-. apply Hb. rewrite fmap_app.
    apply elem_of_app. right. by left.
  + intros b n. destruct (decide (b = a)) as [->|Hne]; [by rewrite Ha; eauto|].
    rewrite lookup_insert_ne by done. by intros ->.
Qed.

(** The nodes that stay. *)
Definition live_nodes (ns : list (Z * Z)) : list (Z * Z) := filter (fun p => p.2 <> 0) ns.

Lemma live_nodes_sub ns a : a ∈ (live_nodes ns).*1 -> a ∈ ns.*1.
Proof.
intros H. apply list_elem_of_fmap in H as ([b x] & -> & H). unfold live_nodes in H.
rewrite list_elem_of_filter in H. destruct H as [_ H]. by apply (list_elem_of_fmap_2 fst) in H.
Qed.

Lemma nz_live ns : nz (live_nodes ns) = nz ns.
Proof.
induction ns as [|[a x] ns IH]; [done|]. unfold live_nodes. rewrite list.filter_cons. cbn [snd].
rewrite nz_cons. case_decide; [|exact IH]. rewrite nz_cons. rewrite decide_True by done. f_equal. exact IH.
Qed.

Lemma NoDup_live ns : NoDup ns.*1 -> NoDup (live_nodes ns).*1.
Proof.
induction ns as [|[a x] ns IH]; [done|]. unfold live_nodes. rewrite list.filter_cons. cbn [snd fmap list_fmap].
intros [Hni Hnd]%list.NoDup_cons. case_decide; [|by apply IH]. cbn. apply list.NoDup_cons.
split; [|by apply IH]. intros Hin. by apply Hni, live_nodes_sub.
Qed.

Lemma relist_relist m m' f h h' fo s :
  relist m' f h' (set_list h fo) (relist m f h fo s) = relist m' f h' fo s.
Proof. unfold relist; cbn. by rewrite insert_insert_eq. Qed.

Lemma clean_loop_spec fuel f fo s P ns : files s !! f = Some fo -> f_free fo = false -> f_list fo = hd_or (P ++ ns) 0 ->
  seg (flnode s) (P ++ ns) 0 -> NoDup (P ++ ns).*1 -> (length ns < fuel)%nat ->
  exists m, clean_loop (R := R) fuel f (lpos P) s =
      (Go tt, relist m f (hd_or (P ++ live_nodes ns) 0) fo s) /\
    seg (mnode m) (P ++ live_nodes ns) 0 /\ (forall a, a ∉ (P ++ ns).*1 -> m !! a = fls s !! a) /\
    (forall a n, m !! a = Some n -> is_Some (fls s !! a)).
Proof.
revert fo s P ns; induction fuel as [|fuel IH]; intros fo s P ns Hf Hlv Hl Hs Hnd Hfu; [lia|].
cbn [clean_loop]. rewrite (cbind_go _ _ _ _ _ (lget_spec f fo s P ns Hf Hlv Hl Hs)).
destruct ns as [|[a x] ns]; cbn [hd_or].
- rewrite decide_True by done. exists (fls s). split_and!; [|done..|by eauto].
  unfold cret, relist. rewrite insert_id; [by destruct s|]. rewrite Hf. f_equal. cbn. rewrite <- Hl. by destruct fo.
- pose proof Hs as Hs2. apply seg_app in Hs2 as [H1 (Ha0 & Ha & H2)]. pose proof (flnode_some _ _ _ _ Ha) as Ha'.
  rewrite decide_False by done. rewrite (cbind_go _ _ _ _ _ (flget_go a s _ Ha')). cbn [fl_f fl_link].
  pose proof Hnd as Hnd2. rewrite fmap_app in Hnd2. cbn in Hnd2. apply list.NoDup_app in Hnd2 as (HP & Hd & Hn).
  apply list.NoDup_cons in Hn as [Hna Hn]. cbn in Hfu.
  destruct (decide (x = 0)) as [->|Hx].
  + destruct (lset_spec f fo s P ((a, 0) :: ns) ns Hf Hlv Hl Hs Hnd H2) as (m & E & Hsm & Hm & Hdm).
    { intros b Hb HbP. apply (Hd b HbP). by right. }
    rewrite (cbind_go _ _ _ _ _ E). unfold cbind at 1, flfree, cmodify.
    change (set_fls (delete a (fls (relist m f (hd_or (P ++ ns) 0) fo s))) (relist m f (hd_or (P ++ ns) 0) fo s))
      with (relist (delete a m) f (hd_or (P ++ ns) 0) fo s).
    set (s2 := relist (delete a m) f (hd_or (P ++ ns) 0) fo s).
    assert (a ∉ (P ++ ns).*1) as HaPn.
    { rewrite fmap_app. intros [H|H]%elem_of_app; [|done]. apply (Hd a H). by left. }
    destruct (IH (set_list (hd_or (P ++ ns) 0) fo) s2 P ns) as (m' & E' & Hs' & Hm' & Hdm').
    * unfold s2, relist. cbn. by rewrite lookup_insert_eq.
    * done.
    * done.
    * eapply seg_ext; [|exact Hsm]. intros b Hb. unfold flnode, mnode, s2. cbn.
      rewrite lookup_delete_ne; [done|]. by intros ->.
    * rewrite fmap_app. apply list.NoDup_app. split_and!; try done. intros b HbP Hb. apply (Hd b HbP). by right.
    * lia.
    * exists m'. rewrite E'. unfold s2. rewrite relist_relist.
      change (live_nodes ((a, 0) :: ns)) with (live_nodes ns). split_and!; try done.
      -- intros b Hb. assert (b <> a /\ (b ∉ P.*1) /\ (b ∉ (P ++ ns).*1)) as (Hba & HbP & Hbn).
         { rewrite fmap_app in Hb |- *. cbn in Hb. apply not_elem_of_app in Hb as [Hb1 Hb2].
           apply not_elem_of_cons in Hb2 as [Hb2 Hb3]. split_and!; try done. by apply not_elem_of_app. }
         rewrite Hm' by done. unfold s2, relist. cbn. rewrite lookup_delete_ne by done. by apply Hm.
      -- intros b n Hb. apply Hdm' in Hb as [n' Hb]. unfold s2, relist in Hb. cbn in Hb.
         destruct (decide (b = a)) as [->|Hne]; [by rewrite lookup_delete_eq in Hb|].
         rewrite lookup_delete_ne in Hb by done. by eapply Hdm.
  + replace (Some a) with (lpos (P ++ [(a, x)])) by apply lpos_snoc.
    destruct (IH fo s (P ++ [(a, x)]) ns) as (m & E & Hsm & Hm & Hdm); try done.
    * by rewrite <- app_assoc.
    * by rewrite <- app_assoc.
    * by rewrite <- app_assoc.
    * lia.
    * exists m. rewrite E. assert (live_nodes ((a, x) :: ns) = (a, x) :: live_nodes ns) as ->.
      { unfold live_nodes. rewrite list.filter_cons. cbn [snd]. by rewrite decide_True. }
      rewrite <- !app_assoc in *. by split_and!.
Qed.
End Clean.

Definition kset (K : Z -> list (Z * Z)) (f : Z) (L : list (Z * Z)) : Z -> list (Z * Z) :=
  fun d => if decide (d = f) then L else K d.

Lemma kset_eq K f L : kset K f L f = L.
Proof. unfold kset. by rewrite decide_True. Qed.
Lemma kset_ne K f L d : d <> f -> kset K f L d = K d.
Proof. intros H. unfold kset. by rewrite decide_False. Qed.
Lemma kset_id K f d : kset K f (K f) d = K d.
Proof. unfold kset. case_decide; by subst. Qed.

(** The nodes of the lists are allocated. *)
Lemma node_alloc s ext K d a : finv s ext K -> a ∈ (K d).*1 -> is_Some (fls s !! a).
Proof.
intros I Ha. destruct (files s !! d) as [fo|] eqn:E.
- destruct (decide (f_ref fo = 0)) as [Hz|Hz].
  + rewrite (fi_dead _ _ _ I d fo E Hz) in Ha. by apply not_elem_of_nil in Ha.
  + destruct (fi_list _ _ _ I d fo E Hz) as [_ Hs]. destruct (seg_in _ _ _ _ Hs Ha) as [_ [y Hy]].
    unfold flnode in Hy. by destruct (fls s !! a).
- destruct (fi_none _ _ _ I d E) as [_ HK]. rewrite HK in Ha. by apply not_elem_of_nil in Ha.
Qed.

(** The list of [f] loses empty nodes, which no reader points to, or gets new
    ones. *)
Lemma finv_relist s s' ext K f fo L : finv s ext K -> files s !! f = Some fo -> f_ref fo <> 0 ->
  files s' = <[f := set_list (hd_or L 0) fo]> (files s) -> rds s' = rds s -> trees s' = trees s ->
  freefilelist s' = freefilelist s -> brk s <= brk s' ->
  nz L = nz (K f) -> NoDup L.*1 -> (forall a, a ∈ L.*1 -> a ∈ (K f).*1 \/ fls s !! a = None) ->
  nrd s f = 0 \/ (forall a, a ∈ (K f).*1 -> a ∈ L.*1) ->
  seg (flnode s') L 0 -> (forall a, a ∉ (K f).*1 -> is_Some (fls s !! a) -> fls s' !! a = fls s !! a) ->
  (forall a n, fls s' !! a = Some n -> 0 < a < brk s') ->
  finv s' ext (kset K f L).
Proof.
intros I Hf Hr Efs Erd Etr Efr Ebr Hnz Hnd Hsub Hsup Hseg Hm Hdm.
assert (Hknz : forall d, nz (kset K f L d) = nz (K d)).
{ intros d. destruct (decide (d = f)) as [->|Hne]; [by rewrite kset_eq|by rewrite kset_ne]. }
assert (Hksub : forall d a, a ∈ (kset K f L d).*1 -> a ∈ (K d).*1 \/ (d = f /\ fls s !! a = None)).
{ intros d a. destruct (decide (d = f)) as [->|Hne]; [rewrite kset_eq|rewrite kset_ne by done; auto].
  intros Ha. destruct (Hsub a Ha); auto. }
assert (Hsh : forall g go, files s' !! g = Some go ->
  exists go0, files s !! g = Some go0 /\ f_ref go = f_ref go0 /\ f_parent go = f_parent go0 /\
    f_tree go = f_tree go0 /\ f_nchild go = f_nchild go0 /\ f_readers go = f_readers go0 /\
    (g <> f -> go = go0)).
{ intros g go. rewrite Efs. destruct (decide (g = f)) as [->|Hne].
  - rewrite lookup_insert_eq. intros [= <-]. by exists fo.
  - rewrite lookup_insert_ne by done. intros Hg. by exists go. }
constructor.
- pose proof (fi_brk _ _ _ I). lia.
- intros g go Hg. destruct (Hsh g go Hg) as (go0 & Hg0 & _). pose proof (fi_files _ _ _ I g go0 Hg0). lia.
- exact Hdm.
- intros r ro. rewrite Erd. intros H. pose proof (fi_rds _ _ _ I r ro H). lia.
- intros r ro. rewrite Etr. intros H. pose proof (fi_trees _ _ _ I r ro H). lia.
- apply I.
- intros g Hg. rewrite Efs in Hg. assert (g <> f) as Hne by (intros ->; by rewrite lookup_insert_eq in Hg).
  rewrite kset_ne by done. rewrite lookup_insert_ne in Hg by done. by apply (fi_none _ _ _ I).
- intros g go Hg. destruct (Hsh g go Hg) as (go0 & Hg0 & -> & Hp & _).
  unfold kids, pref. rewrite Hknz, Hp. by apply (fi_ref _ _ _ I).
- intros g go Hg. destruct (Hsh g go Hg) as (go0 & Hg0 & -> & _). by apply (fi_bound _ _ _ I g).
- intros g go Hg Hz. destruct (Hsh g go Hg) as (go0 & Hg0 & Hr0 & _). rewrite Hr0 in Hz.
  destruct (decide (g = f)) as [->|Hne]; [congruence|]. rewrite kset_ne by done. by apply (fi_dead _ _ _ I g go0).
- intros g go Hg Hz. destruct (decide (g = f)) as [->|Hne].
  + rewrite Efs, lookup_insert_eq in Hg. injection Hg as <-. rewrite kset_eq. by split.
  + destruct (Hsh g go Hg) as (go0 & Hg0 & _ & _ & _ & _ & _ & E). rewrite (E Hne) in *.
    rewrite kset_ne by done. destruct (fi_list _ _ _ I g go0 Hg0 Hz) as [H1 H2]. split; [done|].
    eapply seg_ext; [|exact H2]. intros a Ha. unfold flnode. rewrite Hm; [done| |by apply (node_alloc s ext K g)].
    intros Hin. apply Hne. by apply (fi_disj _ _ _ I g f a).
- intros d. destruct (decide (d = f)) as [->|Hne]; [by rewrite kset_eq|]. rewrite kset_ne by done. apply I.
- intros d d' a Ha Ha'.
  destruct (Hksub d a Ha) as [H1|[-> H1]], (Hksub d' a Ha') as [H2|[-> H2]]; try done.
  + by apply (fi_disj _ _ _ I d d' a).
  + destruct (node_alloc s ext K d a I H1). congruence.
  + destruct (node_alloc s ext K d' a I H2). congruence.
- intros d. rewrite Hknz. apply I.
- intros d c Hc. rewrite Hknz in Hc. destruct (fi_child _ _ _ I d c Hc) as (Hcd & co & Hco & Hcp).
  split; [done|]. rewrite Efs. destruct (decide (c = f)) as [->|Hne].
  + rewrite Hf in Hco. injection Hco as <-. rewrite lookup_insert_eq. by eexists.
  + rewrite lookup_insert_ne by done. by eexists.
- intros c co Hc Hcp Hcc. destruct (Hsh c co Hc) as (co0 & Hc0 & _ & Hp & _). rewrite Hp in *.
  rewrite Hknz. by apply (fi_parent _ _ _ I c co0).
- intros g go Hg Hz. destruct (Hsh g go Hg) as (go0 & Hg0 & Hr0 & _ & _ & Hn & _).
  unfold kids. rewrite Hknz, Hn. apply (fi_nchild _ _ _ I g go0 Hg0). congruence.
- intros g go Hg Hz. destruct (Hsh g go Hg) as (go0 & Hg0 & Hr0 & _ & Ht & _). rewrite Ht, Etr.
  apply (fi_tree _ _ _ I g go0 Hg0). congruence.
- intros g go Hg Hz. destruct (Hsh g go Hg) as (go0 & Hg0 & Hr0 & _ & _ & _ & Hre & _). rewrite Hre.
  unfold nrd. rewrite Erd. apply (fi_readers _ _ _ I g go0 Hg0). congruence.
- intros g. unfold nrd. rewrite Erd. apply I.
- intros r ro. rewrite Erd. intros Hro. destruct (decide (rd_dir ro = f)) as [E|Hne].
  + destruct Hsup as [Hz|Hsup]; [pose proof (nrd_in s r ro Hro); rewrite E in *; lia|].
    rewrite E, kset_eq. destruct (fi_rd _ _ _ I r ro Hro) as [H|H]; [by left|right]. apply Hsup. by rewrite <- E.
  + rewrite kset_ne by done. by apply (fi_rd _ _ _ I r).
- intros g go Hg Hz. rewrite Efs in Hg. destruct (decide (g = f)) as [->|Hne].
  + rewrite lookup_insert_eq in Hg. injection Hg as <-. by apply (fi_live _ _ _ I f fo).
  + rewrite lookup_insert_ne in Hg by done. by apply (fi_live _ _ _ I g go).
- destruct (fi_free _ _ _ I) as (l & Hl & Hfl). exists l. split; [done|]. rewrite Efr.
  eapply free_list_ext; [|exact Hfl]. intros g go Hg Hgz. rewrite Efs. exists go.
  destruct (decide (g = f)) as [->|Hne]; [congruence|by rewrite lookup_insert_ne].
Qed.

(** Two descriptions of the same lists. *)
Lemma finv_ext s ext ext' K K' : finv s ext K -> (forall f, ext' f = ext f) -> (forall d, K' d = K d) ->
  finv s ext' K'.
Proof.
intros I He HK. destruct I. constructor; intros; unfold kids in *; rewrite ?He; rewrite ?HK in *; eauto.
Qed.

Lemma keeps_relist s m f fo fo' : files s !! f = Some fo -> f_dir fo' = f_dir fo ->
  f_parent fo' = f_parent fo -> f_tree fo' = f_tree fo -> f_readers fo' = f_readers fo ->
  keeps s (set_fls m (set_files (<[f := fo']> (files s)) s)).
Proof.
intros Hf H1 H2 H3 H4. destruct (keeps_set s f fo fo' Hf H1 H2 H3 H4) as (G & _). by split_and!.
Qed.

(** [cleanfilelist] on a file that is used: empty nodes go, unless somebody
    reads the directory. *)
Lemma cleanfilelist_spec {R} s ext K f fo : finv s ext K -> files s !! f = Some fo -> f_ref fo <> 0 ->
  exists s' K', cleanfilelist (R := R) f s = (Go tt, s') /\ finv s' ext K' /\ keeps s s' /\
    (forall d, nz (K' d) = nz (K d)) /\
    (forall g go, files s !! g = Some go -> exists go', files s' !! g = Some go' /\ f_ref go' = f_ref go).
Proof.
intros I Hf Hr. unfold cleanfilelist. rewrite (cbind_go _ _ _ _ _ (fget_go f s fo Hf ltac:(alive))).
pose proof (fi_readers _ _ _ I f fo Hf Hr) as Hrd.
destruct (decide (f_readers fo <> 0)) as [|H0].
{ exists s, K. split_and!; try done; [apply keeps_refl|by eauto]. }
destruct (decide (f_nxchild fo = 0)) as [|Hx].
{ exists s, K. split_and!; try done; [apply keeps_refl|by eauto]. }
unfold cbind at 1, flfuel, cgets. destruct (fi_list _ _ _ I f fo Hf Hr) as [Hl Hs].
destruct (clean_loop_spec (R := R) (S (size (fls s))) f fo s [] (K f)) as (m & E & Hsm & Hm & Hdm); try done.
{ by apply (fi_live _ _ _ I f). }
{ apply I. }
{ apply le_n_S. apply (seg_fls_size s _ 0); [exact Hs|apply I]. }
change (lpos []) with (@None Z) in E. cbn [app] in *. rewrite (cbind_go _ _ _ _ _ E).
set (s1 := relist m f (hd_or (live_nodes (K f)) 0) fo s).
assert (finv s1 ext (kset K f (live_nodes (K f)))) as I1.
{ apply (finv_relist s s1 ext K f fo); try done.
  - apply nz_live.
  - by apply NoDup_live, I.
  - intros a Ha. left. by apply live_nodes_sub.
  - left. lia.
  - intros a Ha _. by apply Hm.
  - intros a n Ha. destruct (Hdm a n Ha) as [n' Ha']. by apply (fi_fls _ _ _ I a n'). }
assert (files s1 !! f = Some (set_list (hd_or (live_nodes (K f)) 0) fo)) as Hf1
  by (unfold s1, relist; cbn; by rewrite lookup_insert_eq).
rewrite (fset_go _ _ _ _ Hf1 ltac:(alive)). eexists _, (kset K f (live_nodes (K f))). split; [reflexivity|].
pose proof (fi_ref _ _ _ I f fo Hf). pose proof (fi_bound _ _ _ I f fo Hf). split_and!.
- apply (finv_set_file s1 ext _ _ f _ _ I1 Hf1); try done.
  + pose proof (fi_ref _ _ _ I1 f _ Hf1) as Hr1. cbn in Hr1 |- *. rewrite Hr1. done.
  + apply I.
  + change (nrd s1 f) with (nrd s f). apply I.
- unfold s1, relist. cbn. rewrite insert_insert_eq. by apply (keeps_relist s m f fo).
- intros d. destruct (decide (d = f)) as [->|Hne]; [rewrite kset_eq; apply nz_live|by rewrite kset_ne].
- intros g go Hg. unfold s1, relist. cbn. rewrite insert_insert_eq.
  destruct (decide (g = f)) as [->|Hne].
  + rewrite Hf in Hg. injection Hg as <-. rewrite lookup_insert_eq. by eexists.
  + rewrite lookup_insert_ne by done. by eexists.
Qed.

(** *** removefile *)

Lemma find_node_spec {R} fuel f s ns : seg (flnode s) ns 0 -> f ∈ ns.*2 -> (length ns < fuel)%nat ->
  exists P a Q, find_node (R := R) fuel f (hd_or ns 0) s = (Go a, s) /\ ns = P ++ (a, f) :: Q /\
    fls s !! a = Some (MkFilelist f (hd_or Q 0)).
Proof.
revert ns; induction fuel as [|fuel IH]; intros ns Hs Hin Hf; [lia|].
destruct ns as [|[a x] ns]; [by apply not_elem_of_nil in Hin|].
destruct Hs as (Ha & Hk & Hs). apply flnode_some in Hk. cbn [find_node hd_or].
rewrite decide_False by done. rewrite (cbind_go _ _ _ _ _ (flget_go a s _ Hk)). cbn [fl_f fl_link].
destruct (decide (x = f)) as [->|Hx].
- by exists [], a, ns.
- cbn in Hin. apply elem_of_cons in Hin as [->|Hin]; [done|]. cbn in Hf.
  destruct (IH ns Hs Hin ltac:(lia)) as (P & b & Q & E & -> & Hb). rewrite E. by exists ((a, x) :: P), b, Q.
Qed.

Lemma unlink_nz s ext K f fp P a Q d x : finv s ext K -> f <> 0 -> K fp = P ++ (a, f) :: Q ->
  x ∈ nz (kset K fp (P ++ (a, 0) :: Q) d) <-> x ∈ nz (K d) /\ ~ (d = fp /\ x = f).
Proof.
intros I Hf0 HK. pose proof (fi_nodup _ _ _ I fp) as Hnd.
rewrite HK, nz_app, nz_cons, decide_True in Hnd by done.
apply list.NoDup_app in Hnd as (_ & H2 & H3). apply list.NoDup_cons in H3 as [H3 _].
destruct (decide (d = fp)) as [->|Hne]; [|rewrite kset_ne by done; tauto].
rewrite kset_eq, HK, !nz_app, !nz_cons. rewrite decide_False by (intros H; by apply H).
rewrite decide_True by done. rewrite !elem_of_app, elem_of_cons. split.
- intros [H|H]; (split; [tauto|]); intros [_ ->]; [apply (H2 f H); by left|done].
- intros [[H|[->|H]] Hx]; [tauto|by destruct Hx|tauto].
Qed.

(** The file [f] is taken out of the directory [fp]; the references that the
    parent had to [f] and [f] to the parent are now held by the caller. *)
Lemma finv_unlink s ext K f fo fp po po' P a Q : finv s ext K -> files s !! f = Some fo ->
  f_parent fo = fp -> fp <> 0 -> fp <> f -> files s !! fp = Some po -> K fp = P ++ (a, f) :: Q ->
  f_ref po' = f_ref po -> f_parent po' = f_parent po -> f_list po' = f_list po ->
  f_tree po' = f_tree po -> f_readers po' = f_readers po -> f_nchild po' = f_nchild po - 1 ->
  f_free po' = f_free po ->
  finv (set_fls (<[a := MkFilelist 0 (hd_or Q 0)]> (fls s))
      (set_files (<[f := set_parent 0 fo]> (<[fp := po']> (files s))) s))
    (upd (upd ext fp 1) f 1) (kset K fp (P ++ (a, 0) :: Q)).
Proof.
intros I Hf Hp Hp0 Hpf Hfp HK Er Ep El Et Ere En Efr.
assert (Hnzf : nz (K fp) = nz P ++ f :: nz Q).
{ rewrite HK, nz_app, nz_cons. rewrite decide_True; [done|].
  intros ->. pose proof (fi_files _ _ _ I 0 fo Hf). lia. }
assert (Hnz1 : nz (P ++ (a, 0) :: Q) = nz P ++ nz Q).
{ rewrite nz_app, nz_cons. rewrite decide_False; [done|]. intros H. by apply H. }
pose proof (fi_nodup _ _ _ I fp) as Hnd. rewrite Hnzf in Hnd.
assert (NoDup (nz P ++ nz Q)) as Hnd'.
{ apply list.NoDup_app in Hnd as (H1 & H2 & H3). apply list.NoDup_cons in H3 as [H3 H4].
  apply list.NoDup_app. split_and!; try done. intros x Hx Hx'. apply (H2 x Hx). by right. }
assert (Hf0 : f <> 0) by (pose proof (fi_files _ _ _ I f fo Hf); lia).
pose proof (fun d x => unlink_nz s ext K f fp P a Q d x I Hf0 HK) as Hksub.
assert (Hnodes : forall d, (kset K fp (P ++ (a, 0) :: Q) d).*1 = (K d).*1).
{ intros d. destruct (decide (d = fp)) as [->|Hne]; [|by rewrite kset_ne].
  rewrite kset_eq, HK. by rewrite !fmap_app. }
assert (Hsh : forall g go, (<[f := set_parent 0 fo]> (<[fp := po']> (files s))) !! g = Some go ->
  exists go0, files s !! g = Some go0 /\ f_ref go = f_ref go0 /\ f_list go = f_list go0 /\
    f_tree go = f_tree go0 /\ f_readers go = f_readers go0 /\
    f_parent go = (if decide (g = f) then 0 else f_parent go0) /\
    f_nchild go = (if decide (g = fp) then f_nchild go0 - 1 else f_nchild go0)).
{ intros g go. destruct (decide (g = f)) as [->|Hgf].
  - rewrite lookup_insert_eq. intros [= <-]. exists fo. cbn. rewrite decide_False by done. by split_and!.
  - rewrite lookup_insert_ne by done. destruct (decide (g = fp)) as [->|Hgp].
    + rewrite lookup_insert_eq. intros [= <-]. exists po. by split_and!.
    + rewrite lookup_insert_ne by done. intros Hg. exists go. by split_and!. }
assert (Hsh' : forall g go0, files s !! g = Some go0 ->
  exists go, (<[f := set_parent 0 fo]> (<[fp := po']> (files s))) !! g = Some go).
{ intros g go0 Hg. destruct (decide (g = f)) as [->|Hgf]; [rewrite lookup_insert_eq; by eexists|].
  rewrite lookup_insert_ne by done. destruct (decide (g = fp)) as [->|Hgp]; [rewrite lookup_insert_eq; by eexists|].
  rewrite lookup_insert_ne by done. by eexists. }
assert (Hkids : forall g, kids (kset K fp (P ++ (a, 0) :: Q)) g = if decide (g = fp) then kids K g - 1 else kids K g).
{ intros g. unfold kids. destruct (decide (g = fp)) as [->|Hne]; [|by rewrite kset_ne].
  rewrite kset_eq, Hnz1, Hnzf. rewrite !length_app. cbn. lia. }
assert (Hpop : 0 < f_ref po).
{ eapply ref_pos; [exact I|done|]. right. left. rewrite HK. by destruct P. }
assert (Ha : a ∈ (K fp).*1) by (rewrite HK, fmap_app; apply elem_of_app; right; by left).
constructor; cbn.
- apply I.
- intros g go Hg. destruct (Hsh g go Hg) as (go0 & Hg0 & _). by apply (fi_files _ _ _ I g go0).
- intros b n. destruct (decide (b = a)) as [->|Hne]; [|rewrite lookup_insert_ne by done; apply I].
  intros _. destruct (fi_list _ _ _ I fp po Hfp ltac:(lia)) as [_ Hs].
  destruct (seg_in _ _ _ _ Hs Ha) as [_ [y Hy]]. unfold flnode in Hy.
  destruct (fls s !! a) as [n'|] eqn:E; [|done]. by apply (fi_fls _ _ _ I a n').
- apply I.
- apply I.
- intros g. unfold upd. pose proof (fi_ext _ _ _ I g). repeat case_decide; lia.
- intros g Hg. assert (files s !! g = None) as Hg0.
  { destruct (files s !! g) as [go|] eqn:E; [|done]. destruct (Hsh' g go E) as [? E']. congruence. }
  assert (g <> f /\ g <> fp) as [Hgf Hgp] by (split; congruence).
  rewrite !upd_ne, kset_ne by done. by apply (fi_none _ _ _ I).
- intros g go Hg. destruct (Hsh g go Hg) as (go0 & Hg0 & -> & _ & _ & _ & Hpar & _).
  pose proof (fi_ref _ _ _ I g go0 Hg0) as Hr. rewrite Hkids. unfold pref in *. rewrite Hpar. unfold upd.
  destruct (decide (g = f)) as [->|Hgf].
  + rewrite (decide_False (P := f = fp)) by done. rewrite (decide_True (P := 0 = 0)) by done.
    rewrite Hf in Hg0. injection Hg0 as <-. rewrite Hp in Hr. rewrite decide_False in Hr by done.
    rewrite (decide_False (P := f = fp)) by done. lia.
  + destruct (decide (g = fp)) as [->|Hgp]; lia.
- intros g go Hg. destruct (Hsh g go Hg) as (go0 & Hg0 & -> & _). by apply (fi_bound _ _ _ I g).
- intros g go Hg Hz. destruct (Hsh g go Hg) as (go0 & Hg0 & Hr0 & _). rewrite Hr0 in Hz.
  destruct (decide (g = fp)) as [->|Hne].
  + rewrite Hfp in Hg0. injection Hg0 as <-. lia.
  + rewrite kset_ne by done. by apply (fi_dead _ _ _ I g go0).
- intros g go Hg Hz. destruct (Hsh g go Hg) as (go0 & Hg0 & Hr0 & Hl0 & _). rewrite Hr0 in Hz.
  destruct (fi_list _ _ _ I g go0 Hg0 Hz) as [H1 H2]. rewrite Hl0, H1.
  destruct (decide (g = fp)) as [->|Hne].
  + rewrite kset_eq. rewrite HK in H2 |- *. split; [by rewrite !hd_or_app|].
    eapply seg_update; [exact H2|rewrite <- HK; apply I| |].
    * intros n Hn. unfold flnode. cbn. rewrite lookup_insert_eq. cbn. do 2 f_equal.
      apply seg_app in H2 as [_ (_ & H2 & _)]. rewrite H2 in Hn. congruence.
    * intros b Hb. unfold flnode. cbn. by rewrite lookup_insert_ne.
  + rewrite kset_ne by done. split; [done|]. eapply seg_ext; [|exact H2]. intros b Hb. unfold flnode. cbn.
    rewrite lookup_insert_ne; [done|]. intros <-. apply Hne. by apply (fi_disj _ _ _ I g fp a).
- intros d. rewrite Hnodes. apply I.
- intros d d' b. rewrite !Hnodes. apply I.
- intros d. destruct (decide (d = fp)) as [->|Hne]; [by rewrite kset_eq, Hnz1|]. rewrite kset_ne by done. apply I.
- intros d c Hc. apply Hksub in Hc as [Hc Hcf]. destruct (fi_child _ _ _ I d c Hc) as (Hcd & co & Hco & Hcp).
  split; [done|]. destruct (Hsh' c co Hco) as [co' Hco']. exists co'. split; [done|].
  destruct (Hsh c co' Hco') as (co0 & Hco0 & _ & _ & _ & _ & Hpar & _). rewrite Hco in Hco0. injection Hco0 as <-.
  rewrite Hpar. rewrite decide_False; [done|]. intros ->. apply Hcf. split; [|done].
  rewrite Hf in Hco. injection Hco as <-. congruence.
- intros c co Hc Hcp Hcc. destruct (Hsh c co Hc) as (co0 & Hc0 & _ & _ & _ & _ & Hpar & _). rewrite Hpar in *.
  destruct (decide (c = f)) as [->|Hcf]; [done|]. apply Hksub. split; [by apply (fi_parent _ _ _ I c co0)|tauto].
- intros g go Hg Hz. destruct (Hsh g go Hg) as (go0 & Hg0 & Hr0 & _ & _ & _ & _ & Hn). rewrite Hr0 in Hz.
  rewrite Hkids, Hn. rewrite (fi_nchild _ _ _ I g go0 Hg0 Hz). done.
- intros g go Hg Hz. destruct (Hsh g go Hg) as (go0 & Hg0 & Hr0 & _ & Ht & _). rewrite Ht.
  apply (fi_tree _ _ _ I g go0 Hg0). congruence.
- intros g go Hg Hz. destruct (Hsh g go Hg) as (go0 & Hg0 & Hr0 & _ & _ & Hre & _). rewrite Hre.
  apply (fi_readers _ _ _ I g go0 Hg0). congruence.
- intros g. change (nrd _ g) with (nrd s g). pose proof (fi_nrd _ _ _ I g). unfold upd. repeat case_decide; lia.
- intros r ro Hro. rewrite Hnodes. by apply (fi_rd _ _ _ I r).
- intros g go. destruct (decide (g = f)) as [->|Hgf].
  { rewrite lookup_insert_eq. intros [= <-] Hz. by apply (fi_live _ _ _ I f fo). }
  rewrite lookup_insert_ne by done. destruct (decide (g = fp)) as [->|Hgp]; [|rewrite lookup_insert_ne by done; apply I].
  rewrite lookup_insert_eq. intros [= <-] Hz. rewrite Efr. apply (fi_live _ _ _ I fp po Hfp). congruence.
- destruct (fi_free _ _ _ I) as (l & Hl & Hfl). exists l. split; [done|].
  eapply free_list_ext; [|exact Hfl]. intros g go Hg Hgz. cbn.
  assert (g <> fp) as Hgp by (intros ->; rewrite Hfp in Hg; injection Hg as <-; lia).
  destruct (decide (g = f)) as [->|Hgf].
  + rewrite Hf in Hg. injection Hg as <-. eexists. rewrite lookup_insert_eq. done.
  + exists go. by rewrite !lookup_insert_ne.
Qed.

(** As [keeps], but [f] may have lost its place. *)
Definition keeps_but (f : Z) (s s' : fheap) : Prop :=
  (forall g go, files s !! g = Some go -> exists go', files s' !! g = Some go' /\
     f_dir go' = f_dir go /\ (g <> f -> f_parent go' = f_parent go) /\ f_tree go' = f_tree go /\
     f_readers go' = f_readers go) /\
  rds s' = rds s /\ trees s' = trees s /\ brk s' = brk s.

Lemma keeps_keeps_but f s s' : keeps s s' -> keeps_but f s s'.
Proof.
intros (H1 & H2). split; [|done]. intros g go Hg. destruct (H1 g go Hg) as (go' & ? & ? & ? & ? & ?).
exists go'. by split_and!.
Qed.

Lemma keeps_but_trans f s1 s2 s3 : keeps_but f s1 s2 -> keeps_but f s2 s3 -> keeps_but f s1 s3.
Proof.
intros (H1 & H2 & H3 & H4) (G1 & G2 & G3 & G4). split_and!; [|congruence..].
intros g go Hg. destruct (H1 g go Hg) as (go1 & Hg1 & ? & E1 & ? & ?).
destruct (G1 g go1 Hg1) as (go2 & Hg2 & ? & E2 & ? & ?). exists go2. split_and!; try congruence.
intros Hne. rewrite E2 by done. by apply E1.
Qed.

Lemma nrd_rds s s' f : rds s' = rds s -> nrd s' f = nrd s f.
Proof. intros E. unfold nrd. by rewrite E. Qed.

Lemma finv_errstr s ext K e : finv s ext K -> finv (set_errstr e s) ext K.
Proof.
intros I. pose proof (fi_free _ _ _ I) as (l & Hl & Hfl). destruct I. constructor; try done.
exists l. split; [done|]. eapply free_list_ext; [|exact Hfl]. intros f fo Hf Hz. by exists fo.
Qed.

(** Why [removefile] refuses. *)
Definition not_removable (s : fheap) (f : Z) (fo : File) : Prop :=
  f_parent fo = 0 \/ f_parent fo = f \/ f_nchild fo <> 0.

Lemma removefile_refuses {R} s ext K f fo : finv s ext K -> files s !! f = Some fo -> 0 < ext f ->
  nrd s f <= ext f - 1 -> not_removable s f fo ->
  exists s' K', removefile (R := R) f s = (Go (-1), s') /\ finv s' (upd ext f (-1)) K' /\ keeps s s' /\
    (forall d, nz (K' d) = nz (K d)).
Proof.
intros I Hf He Hrd Hn. unfold removefile, ccall. rewrite (cbind_go _ _ _ _ _ (fget_go f s fo Hf ltac:(alive))).
assert (forall e, exists s' K', (werrstr (R := Z) e;; closefile f;; creturn (A := Z) (-1)) s = (Ret (-1), s') /\
  finv s' (upd ext f (-1)) K' /\ keeps s s' /\ (forall d, nz (K' d) = nz (K d))) as Hfail.
{ intros e. unfold cbind at 1, werrstr, cmodify.
  assert (finv (set_errstr e s) ext K) as I' by (by apply finv_errstr).
  destruct (closefile_spec (R := Z) _ ext K f I' He Hrd) as (s' & K' & E & I2 & Hk & HK).
  rewrite (cbind_go _ _ _ _ _ E). exists s', K'. done. }
destruct (decide (f_parent fo = 0)) as [Hp|Hp].
{ destruct (Hfail NoParent) as (s' & K' & -> & ?). eauto. }
destruct (decide (f_parent fo = f)) as [Hpf|Hpf].
{ destruct (Hfail CannotRemoveRoot) as (s' & K' & -> & ?). eauto. }
rewrite (cbind_go _ _ _ _ _ (fget_go f s fo Hf ltac:(alive))). destruct Hn as [?|[?|Hn]]; [done..|].
rewrite decide_True by done. destruct (Hfail HasChildren) as (s' & K' & -> & ?). eauto.
Qed.

Lemma upd_chain ext f fp : fp <> f ->
  forall x, upd ext f (-1) x = upd (upd (upd (upd (upd ext fp 1) f 1) fp (-1)) f (-1)) f (-1) x.
Proof. intros H x. unfold upd. repeat case_decide; subst; lia. Qed.

(** The end of [removefile]: the references between [f] and its parent go. *)
Lemma remove_closes {R} s ext K f fp : finv s (upd (upd ext fp 1) f 1) K -> fp <> f -> 0 < ext f ->
  0 <= ext fp -> nrd s f <= ext f - 1 -> nrd s fp <= ext fp ->
  exists s' K', (closefile (R := R) fp;; closefile f;; closefile f) s = (Go tt, s') /\
    finv s' (upd ext f (-1)) K' /\ keeps s s' /\ (forall d, nz (K' d) = nz (K d)).
Proof.
intros I Hne He Hep Hrd Hrdp.
destruct (closefile_spec (R := R) s _ K fp I) as (s1 & K1 & E1 & I1 & Hk1 & HK1).
{ rewrite upd_ne, upd_eq by done. lia. }
{ rewrite upd_ne, upd_eq by done. lia. }
pose proof Hk1 as (_ & Hr1 & _).
destruct (closefile_spec (R := R) s1 _ K1 f I1) as (s2 & K2 & E2 & I2 & Hk2 & HK2).
{ rewrite upd_ne, upd_eq, upd_ne by done. lia. }
{ rewrite upd_ne, upd_eq, upd_ne, (nrd_rds _ _ _ Hr1) by done. lia. }
pose proof Hk2 as (_ & Hr2 & _).
destruct (closefile_spec (R := R) s2 _ K2 f I2) as (s3 & K3 & E3 & I3 & Hk3 & HK3).
{ rewrite upd_eq, upd_ne, upd_eq, upd_ne by done. lia. }
{ rewrite upd_eq, upd_ne, upd_eq, upd_ne, (nrd_rds _ _ _ Hr2), (nrd_rds _ _ _ Hr1) by done. lia. }
exists s3, K3. rewrite (cbind_go _ _ _ _ _ E1), (cbind_go _ _ _ _ _ E2). split; [done|]. split; [|split].
- eapply finv_ext; [exact I3| |done]. by apply upd_chain.
- eapply keeps_trans; [exact Hk1|]. eapply keeps_trans; [exact Hk2|exact Hk3].
- intros d. by rewrite HK3, HK2.
Qed.

Lemma removefile_removes {R} s ext K f fo : finv s ext K -> files s !! f = Some fo -> 0 < ext f ->
  nrd s f <= ext f - 1 -> ~ not_removable s f fo ->
  exists s' K' fo', removefile (R := R) f s = (Go 0, s') /\ finv s' (upd ext f (-1)) K' /\ keeps_but f s s' /\
    files s' !! f = Some fo' /\ f_parent fo' = 0 /\
    (forall d c, c ∈ nz (K' d) <-> c ∈ nz (K d) /\ ~ (d = f_parent fo /\ c = f)).
Proof.
intros I Hf He Hrd Hn. unfold not_removable in Hn.
assert (f_parent fo <> 0 /\ f_parent fo <> f /\ f_nchild fo = 0) as (Hp & Hpf & Hnc) by (split_and!; lia).
unfold removefile, ccall. rewrite (cbind_go _ _ _ _ _ (fget_go f s fo Hf ltac:(alive))).
rewrite decide_False by done. rewrite decide_False by done. rewrite (cbind_go _ _ _ _ _ (fget_go f s fo Hf ltac:(alive))).
rewrite decide_False by (rewrite Hnc; intros Hc; by apply Hc). rewrite decide_False by (intros Hc; by apply Hc).
set (fp := f_parent fo) in *. destruct (parent_file _ _ _ _ _ I Hf Hp) as (po & Hpo & Hpop). fold fp in Hpo.
rewrite (cbind_go _ _ _ _ _ (fget_go fp s po Hpo ltac:(alive))). unfold cbind at 1, flfuel, cgets at 1.
destruct (fi_list _ _ _ I fp po Hpo ltac:(lia)) as [Hl Hs]. rewrite Hl.
pose proof (fi_parent _ _ _ I f fo Hf Hp Hpf) as Hin. apply elem_of_nz in Hin as [Hf0 Hin].
destruct (find_node_spec (R := Z) (S (size (fls s))) f s (K fp) Hs Hin) as (P & a & Q & E & HK & Ha).
{ apply le_n_S. apply (seg_fls_size s _ 0); [exact Hs|apply I]. }
rewrite (cbind_go _ _ _ _ _ E).
assert (a <> 0) as Ha0 by (pose proof (fi_fls _ _ _ I a _ Ha); lia).
rewrite decide_False by done. rewrite (cbind_go _ _ _ _ _ (flget_go a s _ Ha)). cbn [fl_link].
rewrite (cbind_go _ _ _ _ _ (flset_go a _ s _ Ha)). set (s1 := set_fls _ s).
rewrite (cbind_go _ _ _ _ _ (fset_go fp _ s1 po Hpo ltac:(alive))). set (s2 := set_files _ s1).
assert (files s2 !! fp = Some (set_nchild (f_nchild po - 1) po)) as Hp2 by (cbn; by rewrite lookup_insert_eq).
rewrite (cbind_go _ _ _ _ _ (fset_go fp _ s2 _ Hp2 ltac:(alive))). set (s3 := set_files _ s2).
assert (files s3 !! f = Some fo) as Hf3 by (cbn; by rewrite !lookup_insert_ne by congruence).
rewrite (cbind_go _ _ _ _ _ (fset_go f _ s3 _ Hf3 ltac:(alive))). set (s4 := set_files _ s3).
pose proof (fi_nchild _ _ _ I fp po Hpo ltac:(lia)) as Hnp.
pose proof (fi_ref _ _ _ I fp po Hpo) as Href. pose proof (fi_bound _ _ _ I fp po Hpo).
pose proof (fi_ext _ _ _ I fp). pose proof (pref_range po). pose proof (kids_nonneg K fp).
pose proof (fi_nrd _ _ _ I fp) as Hnrp.
assert (finv s4 (upd (upd ext fp 1) f 1) (kset K fp (P ++ (a, 0) :: Q))) as I4.
{ unfold s4, s3, s2, s1. cbn. rewrite insert_insert_eq.
  apply (finv_unlink s ext K f fo fp po); try done. cbn. rewrite s32_small by lia. done. }
assert (keeps_but f s s4) as Hk4.
{ split_and!; try done. intros g go Hg. unfold s4, s3, s2, s1. cbn. rewrite insert_insert_eq.
  destruct (decide (g = f)) as [->|Hgf].
  - rewrite Hf in Hg. injection Hg as <-. rewrite lookup_insert_eq. by eexists.
  - rewrite lookup_insert_ne by done. destruct (decide (g = fp)) as [->|Hgp].
    + rewrite Hpo in Hg. injection Hg as <-. rewrite lookup_insert_eq. by eexists.
    + rewrite lookup_insert_ne by done. by eexists. }
assert (exists po4, files s4 !! fp = Some po4 /\ f_ref po4 = f_ref po) as (po4 & Hp4 & Hpr4).
{ unfold s4, s3, s2, s1. cbn. rewrite insert_insert_eq, lookup_insert_ne, lookup_insert_eq by congruence. by eexists. }
destruct (cleanfilelist_spec (R := Z) s4 _ _ fp po4 I4 Hp4 ltac:(lia)) as (s5 & K5 & E5 & I5 & Hk5 & HK5 & _).
rewrite (cbind_go _ _ _ _ _ E5). pose proof Hk5 as (Hk5' & Hr5 & _).
destruct (remove_closes (R := Z) s5 ext K5 f fp I5) as (s6 & K6 & E6 & I6 & Hk6 & HK6); try done; try lia.
{ rewrite (nrd_rds _ _ _ Hr5). exact Hrd. }
{ rewrite (nrd_rds _ _ _ Hr5). exact Hnrp. }
assert (files s4 !! f = Some (set_parent 0 fo)) as Hf4 by (cbn; by rewrite lookup_insert_eq).
destruct (Hk5' f _ Hf4) as (fo5 & Hf5 & _ & Hp5 & _). destruct Hk6 as (Hk6' & Hk6'').
destruct (Hk6' f _ Hf5) as (fo6 & Hf6 & _ & Hp6 & _).
exists s6, K6, fo6. split; [|split; [done|split; [|split; [done|split; [cbn in Hp5; congruence|]]]]].
- unfold cbind in E6 |- *. destruct (closefile fp s5) as [[[]| | |] ?]; try done.
  destruct (closefile f _) as [[[]| | |] ?]; try done. by destruct (closefile f _) as [[[]| | |] ?]; simplify_eq.
- eapply keeps_but_trans; [exact Hk4|]. eapply keeps_but_trans; [by apply keeps_keeps_but|].
  by apply keeps_keeps_but.
- intros d c. rewrite HK6, HK5. by eapply (unlink_nz s ext K f fp P a Q).
Qed.

(** *** allocfile *)

(** The file [i] of a new block at [a]. *)
Definition new_file (a i : Z) : File :=
  set_free true (set_allocd (if decide (i = 0) then 1 else 0)
    (set_aux (if decide (i = NFILES - 1) then 0 else a + i + 1) zero_file)).

Lemma new_files_lookup a g : (list_to_map (new_files a) : gmap Z File) !! g =
  if decide (a <= g < a + NFILES) then Some (new_file a (g - a)) else None.
Proof.
assert (new_files a = (fun i => (a + i, new_file a i)) <$> seqZ 0 NFILES) as E by done.
case_decide as Hd.
- apply elem_of_list_to_map_1.
  + rewrite E, <- list_fmap_compose.
    change ((fst ∘ (fun i : Z => (a + i, new_file a i)))) with (fun i => a + i).
    apply NoDup_fmap_2; [intros x y H; lia|apply NoDup_seqZ].
  + rewrite E. apply list_elem_of_fmap. exists (g - a). split; [f_equal; lia|]. apply elem_of_seqZ. lia.
- apply not_elem_of_list_to_map_1. rewrite E. intros Hin. apply list_elem_of_fmap in Hin as ([k v] & -> & Hin).
  apply list_elem_of_fmap in Hin as (i & [= -> ->] & Hi). apply elem_of_seqZ in Hi. cbn in Hd. lia.
Qed.

Lemma new_free_list s a n : (forall g, a <= g < a + NFILES -> files s !! g = Some (new_file a (g - a))) ->
  (n <= 15)%nat -> free_list s (seqZ (a + NFILES - Z.of_nat n) (Z.of_nat n))
    (if decide (n = 0%nat) then 0 else a + NFILES - Z.of_nat n).
Proof.
intros H. induction n as [|n IH]; intros Hn; [done|].
rewrite seqZ_cons by lia. rewrite decide_False by done. cbn [free_list]. split; [done|].
exists (new_file a (NFILES - Z.of_nat (S n))). split; [|split; [done|]].
- rewrite H by (unfold NFILES; lia). do 2 f_equal. lia.
- replace (Z.succ (a + NFILES - Z.of_nat (S n))) with (a + NFILES - Z.of_nat n) by lia.
  replace (Z.pred (Z.of_nat (S n))) with (Z.of_nat n) by lia.
  assert (f_aux (new_file a (NFILES - Z.of_nat (S n))) = if decide (n = 0%nat) then 0 else a + NFILES - Z.of_nat n) as ->.
  { unfold new_file, NFILES. cbn. repeat case_decide; lia. }
  apply IH. lia.
Qed.

(** The heap after the first part of [allocfile]: a block of new files. *)
Definition grown (s : fheap) : fheap :=
  set_freefilelist (brk s) (set_files (list_to_map (new_files (brk s)) ∪ files s) (set_brk (brk s + NFILES) s)).

Lemma grown_lookup s g : files (grown s) !! g =
  if decide (brk s <= g < brk s + NFILES) then Some (new_file (brk s) (g - brk s)) else files s !! g.
Proof.
unfold grown. cbn. rewrite lookup_union, new_files_lookup. case_decide; [by destruct (files s !! g)|].
by destruct (files s !! g).
Qed.

Lemma grown_new s ext K g : finv s ext K -> brk s <= g -> files s !! g = None.
Proof. intros I Hg. destruct (files s !! g) as [go|] eqn:E; [|done]. pose proof (fi_files _ _ _ I g go E). lia. Qed.

Lemma finv_grown s ext K : finv s ext K -> freefilelist s = 0 -> finv (grown s) ext K.
Proof.
intros I H0. pose proof (fi_brk _ _ _ I) as Hb.
assert (Hlive : forall g go, files (grown s) !! g = Some go -> f_ref go <> 0 -> files s !! g = Some go).
{ intros g go. rewrite grown_lookup. case_decide; [|done]. intros [= <-] Hz. by cbn in Hz. }
assert (Hnew : forall g go, files (grown s) !! g = Some go -> files s !! g = Some go \/
  (brk s <= g < brk s + NFILES /\ go = new_file (brk s) (g - brk s) /\ ext g = 0 /\ K g = [])).
{ intros g go. rewrite grown_lookup. case_decide as Hd; [|by left]. intros [= <-]. right.
  destruct (fi_none _ _ _ I g) as [H1 H2]; [by apply (grown_new s ext K); [|lia]|]. done. }
assert (Hold : forall g go, files s !! g = Some go -> files (grown s) !! g = Some go).
{ intros g go Hg. rewrite grown_lookup. pose proof (fi_files _ _ _ I g go Hg). rewrite decide_False by lia. done. }
constructor.
- cbn. unfold NFILES. lia.
- intros g go Hg. cbn. destruct (Hnew g go Hg) as [Hg'|(? & _)]; [|lia].
  pose proof (fi_files _ _ _ I g go Hg'). unfold NFILES. lia.
- intros a n Ha. cbn in *. pose proof (fi_fls _ _ _ I a n Ha). unfold NFILES. lia.
- intros a n Ha. cbn in *. pose proof (fi_rds _ _ _ I a n Ha). unfold NFILES. lia.
- intros a n Ha. cbn in *. pose proof (fi_trees _ _ _ I a n Ha). unfold NFILES. lia.
- apply I.
- intros g Hg. rewrite grown_lookup in Hg. case_decide; [done|]. by apply (fi_none _ _ _ I).
- intros g go Hg. destruct (Hnew g go Hg) as [Hg'|(_ & -> & H1 & H2)]; [by apply (fi_ref _ _ _ I)|].
  unfold kids. by rewrite H1, H2.
- intros g go Hg. destruct (Hnew g go Hg) as [Hg'|(_ & -> & _)]; [by apply (fi_bound _ _ _ I g)|]. cbn. lia.
- intros g go Hg Hz. destruct (Hnew g go Hg) as [Hg'|(_ & -> & H1 & H2)]; [by apply (fi_dead _ _ _ I g go)|done].
- intros g go Hg Hz. by apply (fi_list _ _ _ I g go), Hz; apply Hlive.
- apply I.
- apply I.
- apply I.
- intros d c Hc. destruct (fi_child _ _ _ I d c Hc) as (Hcd & co & Hco & Hcp). split; [done|].
  exists co. split; [by apply Hold|done].
- intros c co Hc Hcp Hcc. destruct (Hnew c co Hc) as [Hc'|(_ & -> & _)]; [|done]. by apply (fi_parent _ _ _ I).
- intros g go Hg Hz. by apply (fi_nchild _ _ _ I g go), Hz; apply Hlive.
- intros g go Hg Hz. apply (fi_tree _ _ _ I g go); [by apply Hlive|done].
- intros g go Hg Hz. by apply (fi_readers _ _ _ I g go), Hz; apply Hlive.
- apply I.
- apply I.
- intros g go Hg Hz. apply (fi_live _ _ _ I g go); [by apply Hlive|done].
- exists (seqZ (brk s) NFILES). split; [apply NoDup_seqZ|].
  unfold NFILES. rewrite seqZ_cons by lia. cbn [free_list]. split; [done|].
  exists (new_file (brk s) 0). split; [|split; [done|]].
  + rewrite grown_lookup. rewrite decide_True by (unfold NFILES; lia). by rewrite Z.sub_diag.
  + pose proof (new_free_list (grown s) (brk s) 15) as Hn.
    change (Z.of_nat 15) with 15 in Hn. change NFILES with 16 in Hn.
    replace (brk s + 16 - 15) with (brk s + 1) in Hn by lia.
    change (f_aux (new_file (brk s) 0)) with (brk s + 0 + 1). rewrite Z.add_0_r.
    apply Hn; [|lia]. intros g Hg. rewrite grown_lookup. rewrite decide_True by (unfold NFILES; lia). done.
Qed.

Lemma dead_facts s ext K f fo : finv s ext K -> files s !! f = Some fo -> f_ref fo = 0 ->
  ext f = 0 /\ K f = [] /\ f_parent fo = 0.
Proof.
intros I Hf Hz. pose proof (fi_ref _ _ _ I f fo Hf). pose proof (fi_ext _ _ _ I f).
pose proof (kids_nonneg K f). pose proof (pref_range fo). split_and!; [lia|by apply (fi_dead _ _ _ I f fo)|].
unfold pref in *. case_decide; [done|lia].
Qed.

(** The first free file is taken and cleared. *)
Lemma finv_take s ext K f fo fo' l : finv s ext K -> files s !! f = Some fo -> f_ref fo = 0 ->
  f_ref fo' = 0 -> f_parent fo' = 0 -> NoDup l -> f ∉ l -> free_list s l (f_aux fo) ->
  finv (set_files (<[f := fo']> (files s)) (set_freefilelist (f_aux fo) s)) ext K /\
  free_list (set_files (<[f := fo']> (files s)) (set_freefilelist (f_aux fo) s)) l (f_aux fo).
Proof.
intros I Hf Hr Hr' Hp' Hnd Hni Hfl. destruct (dead_facts _ _ _ _ _ I Hf Hr) as (He & HK & Hp).
set (s' := set_files _ _).
assert (Hlive : forall g go, files s' !! g = Some go -> f_ref go <> 0 -> files s !! g = Some go).
{ intros g go. cbn. destruct (decide (g = f)) as [->|Hne].
  - rewrite lookup_insert_eq. by intros [= <-].
  - by rewrite lookup_insert_ne. }
assert (Hall : forall g go, files s' !! g = Some go -> exists go0, files s !! g = Some go0 /\
  f_ref go = f_ref go0 /\ f_parent go = f_parent go0).
{ intros g go. cbn. destruct (decide (g = f)) as [->|Hne].
  - rewrite lookup_insert_eq. intros [= <-]. exists fo. split_and!; congruence.
  - rewrite lookup_insert_ne by done. by exists go. }
assert (Hfree : free_list s' l (f_aux fo)).
{ clear Hnd. revert Hfl. generalize (f_aux fo). induction l as [|g l IH]; intros h; cbn; [done|].
  apply not_elem_of_cons in Hni as [Hgf Hni]. intros (-> & go & Hg & Hgr & Hl). split; [done|].
  exists go. rewrite lookup_insert_ne by congruence. split_and!; try done. by apply IH. }
split; [|done]. constructor.
- apply I.
- intros g go Hg. destruct (Hall g go Hg) as (go0 & Hg0 & _). by apply (fi_files _ _ _ I g go0).
- apply I.
- apply I.
- apply I.
- apply I.
- intros g Hg. cbn in Hg. destruct (decide (g = f)) as [->|Hne]; [by rewrite lookup_insert_eq in Hg|].
  rewrite lookup_insert_ne in Hg by done. by apply (fi_none _ _ _ I).
- intros g go Hg. destruct (Hall g go Hg) as (go0 & Hg0 & -> & Hpar). unfold pref. rewrite Hpar. by apply (fi_ref _ _ _ I).
- intros g go Hg. destruct (Hall g go Hg) as (go0 & Hg0 & -> & Hpar). by apply (fi_bound _ _ _ I g).
- intros g go Hg Hz. destruct (Hall g go Hg) as (go0 & Hg0 & E & Hpar). apply (fi_dead _ _ _ I g go0); congruence.
- intros g go Hg Hz. by apply (fi_list _ _ _ I g go), Hz; apply Hlive.
- apply I.
- apply I.
- apply I.
- intros d c Hc. destruct (fi_child _ _ _ I d c Hc) as (Hcd & co & Hco & Hcp). split; [done|]. cbn.
  destruct (decide (c = f)) as [->|Hne].
  + exists fo'. rewrite lookup_insert_eq. split; [done|]. congruence.
  + exists co. by rewrite lookup_insert_ne.
- intros c co Hc Hcp Hcc. destruct (Hall c co Hc) as (co0 & Hc0 & _ & Hpar). rewrite Hpar in *.
  by apply (fi_parent _ _ _ I).
- intros g go Hg Hz. by apply (fi_nchild _ _ _ I g go), Hz; apply Hlive.
- intros g go Hg Hz. apply (fi_tree _ _ _ I g go); [by apply Hlive|done].
- intros g go Hg Hz. by apply (fi_readers _ _ _ I g go), Hz; apply Hlive.
- apply I.
- apply I.
- intros g go Hg Hz. apply (fi_live _ _ _ I g go); [by apply Hlive|done].
- by exists l.
Qed.

(** The heap [s'] has the files of [s] that are in use, and perhaps more room. *)
Definition same_live (s s' : fheap) : Prop :=
  (forall g go, files s !! g = Some go -> f_ref go <> 0 -> files s' !! g = Some go) /\
  fls s' = fls s /\ rds s' = rds s /\ trees s' = trees s /\ brk s <= brk s'.

Lemma allocfile_spec {R} s ext K : finv s ext K ->
  exists f s' a l, allocfile (R := R) s = (Go f, s') /\ finv s' ext K /\
    files s' !! f = Some (set_allocd a zero_file) /\ NoDup l /\ (f ∉ l) /\
    free_list s' l (freefilelist s') /\ same_live s s'.
Proof.
intros I. unfold allocfile. unfold cbind at 1, cgets at 1.
assert (exists s1, (if decide (freefilelist s = 0)
   then a <- emalloc (R := R) NFILES;; cmodify (fun s => set_files (list_to_map (new_files a) ∪ files s) s);;
        cmodify (set_freefilelist a)
   else cret tt) s = (Go tt, s1) /\ finv s1 ext K /\ same_live s s1 /\ freefilelist s1 <> 0) as (s1 & E & I1 & Hs1 & Hz).
{ destruct (decide (freefilelist s = 0)) as [H0|H0].
  - exists (grown s). split; [done|]. split; [by apply finv_grown|]. pose proof (fi_brk _ _ _ I). split.
    + split; [|cbn; unfold NFILES; split_and!; try done; lia]. intros g go Hg Hr. rewrite grown_lookup.
      pose proof (fi_files _ _ _ I g go Hg). by rewrite decide_False by lia.
    + cbn. lia.
  - exists s. by split_and!. }
rewrite (cbind_go _ _ _ _ _ E). unfold cbind at 1, cgets at 1.
destruct (fi_free _ _ _ I1) as (l & Hnd & Hfl). destruct l as [|f l]; [done|].
cbn [free_list] in Hfl. destruct Hfl as (Hff & fo & Hf & Hr & Hfl). rewrite Hff.
assert (free_get (R := R) f s1 = (Go fo, s1)) as Eg by (unfold free_get; by rewrite Hf).
rewrite (cbind_go _ _ _ _ _ Eg). unfold cbind at 1, cmodify at 1. unfold cbind at 1, free_put, cmodify.
apply list.NoDup_cons in Hnd as [Hni Hnd]. cbn [files set_freefilelist].
destruct (finv_take s1 ext K f fo (set_allocd (f_allocd fo) zero_file) l I1 Hf Hr eq_refl eq_refl Hnd Hni Hfl) as [I2 Hfl2].
eexists f, _, (f_allocd fo), l. split; [reflexivity|]. split; [exact I2|].
split; [cbn; by rewrite lookup_insert_eq|]. split; [done|]. split; [done|]. split; [exact Hfl2|].
destruct Hs1 as (Hs1 & Hs1'). split; [|exact Hs1'].
intros g go Hg Hgr. specialize (Hs1 g go Hg Hgr). cbn.
rewrite lookup_insert_ne; [done|]. intros ->. congruence.
Qed.

(** *** createfile *)

(** A cleared file becomes the file of an empty node of the directory [fp]. *)
Lemma finv_link s s' ext K f fo fo' fp po po' P fl l : finv s ext K -> files s !! f = Some fo ->
  f_ref fo = 0 -> files s !! fp = Some po -> 0 < f_ref po < 2 ^ 31 - 1 -> K fp = P ++ [(fl, 0)] ->
  NoDup l -> f ∉ l -> free_list s l (freefilelist s) ->
  files s' !! f = Some fo' -> files s' !! fp = Some po' ->
  (forall g, g <> f -> g <> fp -> files s' !! g = files s !! g) ->
  fls s' !! fl = Some (MkFilelist f 0) -> (forall b, b <> fl -> fls s' !! b = fls s !! b) ->
  rds s' = rds s -> (forall t, is_Some (trees s' !! t) <-> is_Some (trees s !! t)) ->
  freefilelist s' = freefilelist s -> brk s' = brk s ->
  f_ref fo' = 2 -> f_parent fo' = fp -> f_tree fo' = f_tree po -> f_list fo' = 0 ->
  f_nchild fo' = 0 -> f_readers fo' = 0 ->
  f_ref po' = f_ref po + 1 -> f_nchild po' = f_nchild po + 1 -> f_parent po' = f_parent po ->
  f_tree po' = f_tree po -> f_list po' = f_list po -> f_readers po' = f_readers po ->
  f_free fo' = false -> f_free po' = f_free po ->
  finv s' (upd ext f 1) (kset K fp (P ++ [(fl, f)])).
Proof.
intros I Hf Hz Hfp Hb HK Hl Hni Hfl Ef Efp Eo Efl Eflo Erd Etr Efr Ebr R1 R2 R3 R4 R5 R6 Q1 Q2 Q3 Q4 Q5 Q6 R7 Q7.
destruct (dead_facts _ _ _ _ _ I Hf Hz) as (He & HKf & Hpf).
assert (Hne : f <> fp) by (intros ->; rewrite Hf in Hfp; injection Hfp as <-; lia).
assert (Hf0 : f <> 0) by (pose proof (fi_files _ _ _ I f fo Hf); lia).
assert (Hfp0 : fp <> 0) by (pose proof (fi_files _ _ _ I fp po Hfp); lia).
assert (Hnz : nz (K fp) = nz P).
{ rewrite HK, nz_app, nz_cons. rewrite decide_False by (intros H; by apply H). by rewrite app_nil_r. }
assert (Hnz' : nz (P ++ [(fl, f)]) = nz P ++ [f]).
{ rewrite nz_app, nz_cons. by rewrite decide_True. }
assert (Hnew : forall d, f ∉ nz (K d)).
{ intros d Hc. destruct (fi_child _ _ _ I d f Hc) as (_ & co & Hco & Hcp). rewrite Hf in Hco.
  injection Hco as <-. rewrite Hpf in Hcp. subst d.
  destruct (files s !! 0) as [x|] eqn:E0; [pose proof (fi_files _ _ _ I 0 x E0); lia|].
  destruct (fi_none _ _ _ I 0 E0) as [_ E]. rewrite E in Hc. by apply not_elem_of_nil in Hc. }
assert (Hnodes : forall d, (kset K fp (P ++ [(fl, f)]) d).*1 = (K d).*1).
{ intros d. destruct (decide (d = fp)) as [->|Hd]; [|by rewrite kset_ne].
  rewrite kset_eq, HK. by rewrite !fmap_app. }
assert (Hknz : forall d x, x ∈ nz (kset K fp (P ++ [(fl, f)]) d) <-> x ∈ nz (K d) \/ (d = fp /\ x = f)).
{ intros d x. destruct (decide (d = fp)) as [->|Hd].
  - rewrite kset_eq, Hnz', Hnz, elem_of_app, list_elem_of_singleton. tauto.
  - rewrite kset_ne by done. tauto. }
assert (Hkids : forall g, kids (kset K fp (P ++ [(fl, f)])) g = if decide (g = fp) then kids K g + 1 else kids K g).
{ intros g. unfold kids. destruct (decide (g = fp)) as [->|Hd]; [|by rewrite kset_ne].
  rewrite kset_eq, Hnz', Hnz, length_app. cbn. lia. }
assert (Hsh : forall g go, files s' !! g = Some go -> g = f /\ go = fo' \/ g = fp /\ go = po' \/
  g <> f /\ g <> fp /\ files s !! g = Some go).
{ intros g go Hg. destruct (decide (g = f)) as [->|Hgf]; [left; split; [done|congruence]|right].
  destruct (decide (g = fp)) as [->|Hgp]; [left; split; [done|congruence]|right]. rewrite <- Eo by done. done. }
assert (Hdf : nrd s f = 0) by (pose proof (fi_nrd _ _ _ I f); pose proof (nrd_nonneg s f); lia).
assert (Hnrd : forall g, nrd s' g = nrd s g) by (intros g; by apply nrd_rds).
assert (Hfla : fl ∈ (K fp).*1) by (rewrite HK, fmap_app; apply elem_of_app; right; by left).
constructor.
- rewrite Ebr. apply I.
- intros g go Hg. rewrite Ebr. destruct (Hsh g go Hg) as [[-> _]|[[-> _]|(_ & _ & Hg')]]; by eapply I.
- intros a n Ha. rewrite Ebr. destruct (decide (a = fl)) as [->|Hd].
  + destruct (node_alloc s ext K fp fl I Hfla) as [n' Hn']. by apply (fi_fls _ _ _ I fl n').
  + rewrite Eflo in Ha by done. by apply (fi_fls _ _ _ I a n).
- rewrite Erd, Ebr. apply I.
- intros t x Ht. rewrite Ebr. destruct (proj1 (Etr t) (ex_intro _ x Ht)) as [x' Hx']. by apply (fi_trees _ _ _ I t x').
- intros g. unfold upd. pose proof (fi_ext _ _ _ I g). case_decide; lia.
- intros g Hg. assert (g <> f /\ g <> fp) as [Hgf Hgp] by (split; congruence).
  rewrite upd_ne, kset_ne by done. apply (fi_none _ _ _ I). by rewrite <- Eo.
- intros g go Hg. rewrite Hkids. destruct (Hsh g go Hg) as [[-> ->]|[[-> ->]|(Hgf & Hgp & Hg')]].
  + rewrite upd_eq. rewrite decide_False by done. unfold kids, pref. rewrite HKf, R2. rewrite decide_False by done.
    rewrite R1, He. done.
  + rewrite upd_ne by done. rewrite decide_True by done. unfold pref. rewrite Q3, Q1.
    rewrite (fi_ref _ _ _ I fp po Hfp). unfold pref. lia.
  + rewrite upd_ne by done. rewrite decide_False by done. by apply (fi_ref _ _ _ I).
- intros g go Hg. destruct (Hsh g go Hg) as [[-> ->]|[[-> ->]|(Hgf & Hgp & Hg')]]; [lia|lia|].
  by apply (fi_bound _ _ _ I g).
- intros g go Hg Hgz. destruct (Hsh g go Hg) as [[-> ->]|[[-> ->]|(Hgf & Hgp & Hg')]]; [lia|lia|].
  rewrite kset_ne by done. by apply (fi_dead _ _ _ I g go).
- intros g go Hg Hgz. destruct (Hsh g go Hg) as [[-> ->]|[[-> ->]|(Hgf & Hgp & Hg')]].
  + rewrite kset_ne by done. rewrite HKf. by split.
  + destruct (fi_list _ _ _ I fp po Hfp ltac:(lia)) as [H1 H2]. rewrite Q5, H1, kset_eq.
    pose proof (fi_nodes _ _ _ I fp) as Hndp. rewrite HK in *. split; [by rewrite !hd_or_app|].
    eapply seg_update; [exact H2|done| |].
    * intros n Hn. unfold flnode. rewrite Efl. apply seg_app in H2 as [_ (_ & H2 & _)]. rewrite H2 in Hn.
      cbn in *. congruence.
    * intros b Hbf. unfold flnode. by rewrite Eflo.
  + rewrite kset_ne by done. destruct (fi_list _ _ _ I g go Hg' Hgz) as [H1 H2]. split; [done|].
    eapply seg_ext; [|exact H2]. intros a Ha. unfold flnode. rewrite Eflo; [done|]. intros ->.
    apply Hgp. by apply (fi_disj _ _ _ I g fp fl).
- intros d. rewrite Hnodes. apply I.
- intros d d' a. rewrite !Hnodes. apply I.
- intros d. destruct (decide (d = fp)) as [->|Hd]; [|rewrite kset_ne by done; apply I].
  rewrite kset_eq, Hnz', <- Hnz. apply list.NoDup_app. split_and!; [apply I| |by apply NoDup_singleton].
  intros x Hx ->%list_elem_of_singleton. by apply (Hnew fp).
- intros d c Hc. apply Hknz in Hc as [Hc|[-> ->]]; [|by split; [|exists fo']].
  destruct (fi_child _ _ _ I d c Hc) as (Hcd & co & Hco & Hcp). split; [done|].
  assert (c <> f) as Hcf by (intros ->; by apply (Hnew d)).
  destruct (decide (c = fp)) as [->|Hcp']; [|exists co; by rewrite Eo].
  exists po'. split; [done|]. rewrite Q3. congruence.
- intros c co Hc Hcp Hcc. apply Hknz. destruct (Hsh c co Hc) as [[-> ->]|[[-> ->]|(Hgf & Hgp & Hg')]].
  + right. by split.
  + left. rewrite Q3 in *. by apply (fi_parent _ _ _ I fp po).
  + left. by apply (fi_parent _ _ _ I c co).
- intros g go Hg Hgz. rewrite Hkids. destruct (Hsh g go Hg) as [[-> ->]|[[-> ->]|(Hgf & Hgp & Hg')]].
  + rewrite decide_False by done. unfold kids. by rewrite HKf, R5.
  + rewrite decide_True by done. rewrite Q2. rewrite (fi_nchild _ _ _ I fp po Hfp); lia.
  + rewrite decide_False by done. by apply (fi_nchild _ _ _ I g go).
- intros g go Hg Hgz. apply Etr. destruct (Hsh g go Hg) as [[-> ->]|[[-> ->]|(Hgf & Hgp & Hg')]].
  + rewrite R3. apply (fi_tree _ _ _ I fp po Hfp). lia.
  + rewrite Q4. apply (fi_tree _ _ _ I fp po Hfp). lia.
  + by apply (fi_tree _ _ _ I g go).
- intros g go Hg Hgz. rewrite Hnrd. destruct (Hsh g go Hg) as [[-> ->]|[[-> ->]|(Hgf & Hgp & Hg')]].
  + lia.
  + rewrite Q6. apply (fi_readers _ _ _ I fp po Hfp). lia.
  + by apply (fi_readers _ _ _ I g go).
- intros g. rewrite Hnrd. pose proof (fi_nrd _ _ _ I g). unfold upd. case_decide; lia.
- rewrite Erd. intros r ro Hro. rewrite Hnodes. by apply (fi_rd _ _ _ I r).
- intros g go Hg Hgz. destruct (Hsh g go Hg) as [[-> ->]|[[-> ->]|(Hgf & Hgp & Hg')]]; [done| |by apply (fi_live _ _ _ I g go)].
  rewrite Q7. apply (fi_live _ _ _ I fp po Hfp). lia.
- exists l. split; [done|]. rewrite Efr. clear Hl. revert Hfl. generalize (freefilelist s).
  induction l as [|g l IH]; intros h; cbn; [done|]. apply not_elem_of_cons in Hni as [Hgf Hni].
  intros (-> & go & Hg & Hgr & Hrest). split; [done|]. assert (g <> fp) as Hgp by (intros ->; rewrite Hfp in Hg; injection Hg as <-; lia).
  exists go. rewrite Eo by congruence. split_and!; try done. by apply IH.
Qed.

(** The child [c] of [d] has the name. *)
Definition named (s : fheap) (name : bytes) (c : Z) : Prop :=
  exists co, files s !! c = Some co /\ v_name (f_dir co) = name.

Lemma create_loop_spec {R} fuel s fp po name P ns : files s !! fp = Some po -> f_free po = false -> f_list po = hd_or (P ++ ns) 0 ->
  seg (flnode s) (P ++ ns) 0 -> (forall c, c ∈ nz ns -> usable s c) -> (length ns < fuel)%nat ->
  exists r, create_loop (R := R) fuel fp name (lpos P) s = (Go r, s) /\
    ((r = None /\ exists c, c ∈ nz ns /\ named s name c) \/
     (r = Some (lpos (P ++ ns)) /\ forall c, c ∈ nz ns -> ~ named s name c)).
Proof.
intros Hfp Hlv Hl Hs Hc. revert P ns Hl Hs Hc; induction fuel as [|fuel IH]; intros P ns Hl Hs Hc Hf; [lia|].
cbn [create_loop]. rewrite (cbind_go _ _ _ _ _ (lget_spec fp po s P ns Hfp Hlv Hl Hs)).
destruct ns as [|[a x] ns]; cbn [hd_or].
- rewrite decide_True by done. eexists. split; [done|]. right. rewrite app_nil_r. split; [done|].
  intros c H. by apply not_elem_of_nil in H.
- pose proof Hs as Hs2. apply seg_app in Hs2 as [_ (Ha0 & Ha & _)]. apply flnode_some in Ha.
  rewrite decide_False by done. rewrite (cbind_go _ _ _ _ _ (flget_go a s _ Ha)). cbn [fl_f].
  replace (Some a) with (lpos (P ++ [(a, x)])) by apply lpos_snoc. cbn in Hf.
  assert (exists r, create_loop (R := R) fuel fp name (lpos (P ++ [(a, x)])) s = (Go r, s) /\
    ((r = None /\ exists c, c ∈ nz ns /\ named s name c) \/
     (r = Some (lpos (P ++ (a, x) :: ns)) /\ forall c, c ∈ nz ns -> ~ named s name c))) as (r & E & Hr).
  { destruct (IH (P ++ [(a, x)]) ns) as (r & E & Hr); rewrite <- ?app_assoc; try done.
    - intros c Hin. apply Hc. rewrite nz_cons. case_decide; [by right|done].
    - lia.
    - exists r. split; [done|]. by rewrite <- app_assoc in Hr. }
  rewrite nz_cons. destruct (decide (x <> 0)) as [Hx|Hx].
  + destruct (Hc x) as (co & Hco & Hlc); [rewrite nz_cons, decide_True by done; by left|].
    rewrite (cbind_go _ _ _ _ _ (fget_go x s co Hco ltac:(alive))). destruct (decide (v_name (f_dir co) = name)) as [Hn|Hn].
    * eexists. split; [done|]. left. split; [done|]. exists x. split; [by left|by exists co].
    * exists r. split; [exact E|]. destruct Hr as [(-> & c & Hc1 & Hc2)|(-> & Hr)].
      -- left. split; [done|]. exists c. split; [by right|done].
      -- right. split; [done|]. intros c [->|Hin]%elem_of_cons; [|by apply Hr].
         intros (co' & Hco' & Hn'). congruence.
  + exists r. by split.
Qed.

(** The new node of [createfile] is appended to the list of [fp]. *)
Lemma finv_append {R} s ext K fp po : finv s ext K -> files s !! fp = Some po -> f_ref po <> 0 ->
  let s0 := set_fls (<[brk s := MkFilelist 0 0]> (fls s)) (set_brk (brk s + 1) s) in
  exists m, lset (R := R) fp (lpos (K fp)) (brk s) s0 =
      (Go tt, relist m fp (hd_or (K fp ++ [(brk s, 0)]) 0) po s0) /\
    finv (relist m fp (hd_or (K fp ++ [(brk s, 0)]) 0) po s0) ext (kset K fp (K fp ++ [(brk s, 0)])) /\
    m !! brk s = Some (MkFilelist 0 0).
Proof.
intros I Hfp Hr s0. pose proof (fi_brk _ _ _ I) as Hb.
assert (Hnew : fls s !! brk s = None).
{ destruct (fls s !! brk s) as [n|] eqn:E; [|done]. pose proof (fi_fls _ _ _ I _ _ E). lia. }
destruct (fi_list _ _ _ I fp po Hfp Hr) as [Hl Hs].
assert (Hni : brk s ∉ (K fp).*1).
{ intros Hin. destruct (node_alloc s ext K fp _ I Hin). congruence. }
destruct (lset_spec (R := R) fp po s0 (K fp) [] [(brk s, 0)]) as (m & E & Hsm & Hm & Hdm).
- exact Hfp.
- alive.
- by rewrite app_nil_r.
- rewrite app_nil_r. eapply seg_ext; [|exact Hs]. intros a Ha. unfold flnode, s0. cbn.
  rewrite lookup_insert_ne; [done|]. congruence.
- rewrite app_nil_r. apply I.
- cbn. split_and!; [lia| |done]. unfold flnode, s0. cbn. by rewrite lookup_insert_eq.
- intros a Ha. apply list_elem_of_singleton in Ha. by subst.
- exists m. split; [exact E|].
  assert (m !! brk s = Some (MkFilelist 0 0)) as Hmb.
  { rewrite Hm by done. unfold s0. cbn. by rewrite lookup_insert_eq. }
  split; [|done]. apply (finv_relist s _ ext K fp po (K fp ++ [(brk s, 0)])); try done.
  + cbn. lia.
  + rewrite nz_app. by rewrite app_nil_r.
  + rewrite fmap_app. apply list.NoDup_app. split_and!; [apply I| |by apply NoDup_singleton].
    intros x Hx ->%list_elem_of_singleton. done.
  + intros a. rewrite fmap_app. intros [Ha|Ha]%elem_of_app; [by left|right].
    apply list_elem_of_singleton in Ha. by subst.
  + right. intros a Ha. rewrite fmap_app. apply elem_of_app. by left.
  + intros a Ha [n Hn]. unfold relist, s0. cbn. rewrite Hm by done. unfold s0. cbn.
    rewrite lookup_insert_ne; [done|]. congruence.
  + intros a n Ha. unfold relist, s0 in *. cbn in *. apply Hdm in Ha as [n' Ha]. unfold s0 in Ha. cbn in Ha.
    destruct (decide (a = brk s)) as [->|Hne]; [lia|]. rewrite lookup_insert_ne in Ha by done.
    pose proof (fi_fls _ _ _ I _ _ Ha). lia.
Qed.

(** What [createfile] leaves alone in the files that are in use. *)
Definition keeps_live (s s' : fheap) : Prop :=
  (forall g go, files s !! g = Some go -> f_ref go <> 0 -> exists go', files s' !! g = Some go' /\
     f_dir go' = f_dir go /\ f_parent go' = f_parent go /\ f_tree go' = f_tree go /\ f_readers go' = f_readers go) /\
  rds s' = rds s.

Lemma createfile_refuses {R} s ext K fp po name uid perm aux now : finv s ext K -> files s !! fp = Some po ->
  f_ref po <> 0 -> Z.land (q_type (v_qid (f_dir po))) QTDIR = 0 \/ (exists c, c ∈ nz (K fp) /\ named s name c) ->
  exists e, createfile (R := R) fp name uid perm aux now s = (Go 0, set_errstr e s).
Proof.
intros I Hfp Hr H. unfold createfile, ccall. rewrite (cbind_go _ _ _ _ _ (fget_go fp s po Hfp ltac:(alive))).
destruct (decide (Z.land (q_type (v_qid (f_dir po))) QTDIR = 0)) as [Hd|Hd]; [by eexists|].
destruct H as [?|(c & Hc & Hn)]; [done|]. unfold cbind at 1, flfuel, cgets at 1.
destruct (fi_list _ _ _ I fp po Hfp Hr) as [Hl Hs].
destruct (create_loop_spec (R := Z) (S (size (fls s))) s fp po name [] (K fp)) as (r & E & Hr'); try done.
- by apply (fi_live _ _ _ I fp).
- intros c' Hc'. by apply (kid_usable s ext K fp).
- apply le_n_S. apply (seg_fls_size s _ 0); [exact Hs|apply I].
- change (lpos []) with (@None Z) in E. rewrite (cbind_go _ _ _ _ _ E).
  destruct Hr' as [(-> & _)|(-> & Hr')]; [by eexists|]. by destruct (Hr' c Hc).
Qed.

(** The entry of a new file: the type of the qid has the three high bits of the
    permissions, which say directory, append only and exclusive use. *)
Definition new_entry (po : File) (path : Z) (name : bytes) (uid : option bytes) (perm now : Z) : dirv :=
  Dirv 0 0 (MkQid path 0 (Z.land (Z.shiftr perm 24) 0xE0)) perm now now 0
    name (default (v_uid (f_dir po)) uid) (v_gid (f_dir po)) (default unknown uid).

Lemma land_bit a k : 0 <= k -> Z.land a (2 ^ k) = if Z.testbit a k then 2 ^ k else 0.
Proof.
intros Hk. apply Z.bits_inj'. intros n Hn. rewrite Z.land_spec, Z.pow2_bits_eqb by done.
destruct (Z.eqb_spec k n) as [->|Hne].
- destruct (Z.testbit a n); [by rewrite Z.pow2_bits_true|by rewrite Z.bits_0].
- rewrite andb_false_r. destruct (Z.testbit a k); [by rewrite Z.pow2_bits_false|by rewrite Z.bits_0].
Qed.

Lemma perm_qtype_bits perm : perm_qtype perm = Z.land (Z.shiftr perm 24) 0xE0.
Proof.
change 0xE0 with (Z.lor (2 ^ 7) (Z.lor (2 ^ 6) (2 ^ 5))). rewrite !Z.land_lor_distr_r, !land_bit, !Z.shiftr_spec by lia.
unfold perm_qtype. change DMDIR with (2 ^ 31). change DMAPPEND with (2 ^ 30). change DMEXCL with (2 ^ 29).
rewrite !land_bit by lia. cbn [Z.add Pos.add].
change (7 + 24) with 31. change (6 + 24) with 30. change (5 + 24) with 29.
by destruct (Z.testbit perm 31), (Z.testbit perm 30), (Z.testbit perm 29).
Qed.

(** The entry as [createfile] sets it. *)
Lemma new_entry_eq po path name uid perm now :
  Dirv 0 0 (MkQid path 0 (perm_qtype perm)) perm now now 0
    name (default (v_uid (f_dir po)) uid) (v_gid (f_dir po)) (default unknown uid) = new_entry po path name uid perm now.
Proof. unfold new_entry. by rewrite perm_qtype_bits. Qed.

(** The stores of [createfile] from the choice of the qid on. *)
Definition create_tail (fp f fl t : Z) (entry : dirv) (aux : Z) : cmd fheap Z Z :=
  fset f (set_dir entry);;
  fset f (set_aux aux);;
  fset f (set_parent fp);;
  incref fp;;
  fset f (set_tree t);;
  incref f;;
  incref f;;
  flset fl (MkFilelist f 0);;
  fset fp (fun o => set_nchild (f_nchild o + 1) o);;
  creturn f.

Lemma create_tail_spec s fp f fl t entry aux fo po n : files s !! f = Some fo -> f_ref fo = 0 ->
  f_free fo = false -> f_free po = false -> files s !! fp = Some po -> fp <> f -> 0 <= f_ref po < 2 ^ 31 - 1 -> 0 <= f_nchild po < 2 ^ 31 - 1 ->
  fls s !! fl = Some n ->
  exists s' fo' po', create_tail fp f fl t entry aux s = (Ret f, s') /\
    files s' !! f = Some fo' /\ files s' !! fp = Some po' /\
    (forall g, g <> f -> g <> fp -> files s' !! g = files s !! g) /\
    fls s' !! fl = Some (MkFilelist f 0) /\ (forall b, b <> fl -> fls s' !! b = fls s !! b) /\
    rds s' = rds s /\ trees s' = trees s /\ freefilelist s' = freefilelist s /\ brk s' = brk s /\
    f_ref fo' = 2 /\ f_parent fo' = fp /\ f_tree fo' = t /\ f_dir fo' = entry /\
    f_list fo' = f_list fo /\ f_nchild fo' = f_nchild fo /\ f_readers fo' = f_readers fo /\
    f_ref po' = f_ref po + 1 /\ f_nchild po' = f_nchild po + 1 /\ f_parent po' = f_parent po /\
    f_tree po' = f_tree po /\ f_list po' = f_list po /\ f_readers po' = f_readers po /\ f_dir po' = f_dir po /\
    f_free fo' = false /\ f_free po' = f_free po.
Proof.
intros Hf Hz Hlf Hlp Hfp Hne Hr Hn Hfl. unfold create_tail, incref.
rewrite (cbind_go _ _ _ _ _ (fset_go f _ s fo Hf ltac:(alive))). set (s1 := set_files _ s).
assert (files s1 !! f = Some (set_dir entry fo)) as E1 by (cbn; by rewrite lookup_insert_eq).
rewrite (cbind_go _ _ _ _ _ (fset_go f _ s1 _ E1 ltac:(alive))). set (s2 := set_files _ s1).
assert (files s2 !! f = Some (set_aux aux (set_dir entry fo))) as E2 by (cbn; by rewrite lookup_insert_eq).
rewrite (cbind_go _ _ _ _ _ (fset_go f _ s2 _ E2 ltac:(alive))). set (s3 := set_files _ s2).
assert (files s3 !! fp = Some po) as E3 by (cbn; by rewrite !lookup_insert_ne by congruence).
rewrite (cbind_go _ _ _ _ _ (fset_go fp _ s3 _ E3 ltac:(alive))). set (s4 := set_files _ s3).
assert (files s4 !! f = Some (set_parent fp (set_aux aux (set_dir entry fo)))) as E4
  by (cbn; by rewrite lookup_insert_ne, lookup_insert_eq by congruence).
rewrite (cbind_go _ _ _ _ _ (fset_go f _ s4 _ E4 ltac:(alive))). set (s5 := set_files _ s4).
assert (files s5 !! f = Some (set_tree t (set_parent fp (set_aux aux (set_dir entry fo))))) as E5
  by (cbn; by rewrite lookup_insert_eq).
rewrite (cbind_go _ _ _ _ _ (fset_go f _ s5 _ E5 ltac:(alive))). set (s6 := set_files _ s5).
assert (files s6 !! f = Some (set_ref 1 (set_tree t (set_parent fp (set_aux aux (set_dir entry fo)))))) as E6
  by (cbn; rewrite lookup_insert_eq; by rewrite Hz).
rewrite (cbind_go _ _ _ _ _ (fset_go f _ s6 _ E6 ltac:(alive))). set (s7 := set_files _ s6).
assert (fls s7 !! fl = Some n) as E7 by done.
rewrite (cbind_go _ _ _ _ _ (flset_go fl _ s7 n E7)). set (s8 := set_fls _ s7).
assert (files s8 !! fp = Some (set_ref (f_ref po + 1) po)) as E8.
{ cbn. rewrite !lookup_insert_ne by congruence. rewrite lookup_insert_eq. by rewrite s32_small by lia. }
rewrite (cbind_go _ _ _ _ _ (fset_go fp _ s8 _ E8 ltac:(alive))).
eexists _, (set_ref 2 (set_tree t (set_parent fp (set_aux aux (set_dir entry fo))))),
  (set_nchild (f_nchild po + 1) (set_ref (f_ref po + 1) po)).
split; [reflexivity|]. split; [cbn; by rewrite lookup_insert_ne, lookup_insert_eq by congruence|].
split; [cbn; by rewrite lookup_insert_eq|]. split.
{ intros g Hgf Hgp. cbn. by rewrite !lookup_insert_ne by congruence. }
split; [cbn; by rewrite lookup_insert_eq|]. split; [intros b Hb; cbn; by rewrite lookup_insert_ne|].
cbn. rewrite (s32_small (f_nchild po + 1)) by lia. by split_and!.
Qed.

Lemma createfile_spec {R} s ext K fp po name uid perm aux now : finv s ext K -> files s !! fp = Some po ->
  0 < f_ref po < 2 ^ 31 - 1 -> Z.land (q_type (v_qid (f_dir po))) QTDIR <> 0 ->
  (forall c, c ∈ nz (K fp) -> ~ named s name c) ->
  exists f s' K' fo' to, createfile (R := R) fp name uid perm aux now s = (Go f, s') /\
    f <> 0 /\ finv s' (upd ext f 1) K' /\ keeps_live s s' /\
    files s' !! f = Some fo' /\ f_parent fo' = fp /\ trees s !! f_tree po = Some to /\
    f_dir fo' = new_entry po (t_qidgen to) name uid perm now /\
    (exists fl, K' fp = K fp ++ [(fl, f)]) /\ (forall d, d <> fp -> K' d = K d) /\
    (forall fo, files s !! f = Some fo -> f_ref fo = 0) /\
    (forall t x, trees s' !! t = Some x -> exists x0, trees s !! t = Some x0 /\ t_root x0 = t_root x).
Proof.
intros I Hfp Hb Hd Hn. unfold createfile, ccall. rewrite (cbind_go _ _ _ _ _ (fget_go fp s po Hfp ltac:(alive))).
rewrite decide_False by done. unfold cbind at 1, flfuel, cgets at 1.
destruct (fi_list _ _ _ I fp po Hfp ltac:(lia)) as [Hl Hs].
destruct (create_loop_spec (R := Z) (S (size (fls s))) s fp po name [] (K fp)) as (r & E & Hr'); try done.
{ apply (fi_live _ _ _ I fp); [done|lia]. }
{ intros c' Hc'. by apply (kid_usable s ext K fp). }
{ apply le_n_S. apply (seg_fls_size s _ 0); [exact Hs|apply I]. }
change (lpos []) with (@None Z) in E. rewrite (cbind_go _ _ _ _ _ E).
destruct Hr' as [(-> & c & Hc & Hnc)|(-> & _)]; [by destruct (Hn c Hc)|]. clear E. cbn [app].
unfold cbind at 1, emalloc. unfold cbind at 1, cmodify at 1.
destruct (finv_append (R := Z) s ext K fp po I Hfp ltac:(lia)) as (m & E & I1 & Hm).
set (s0 := set_fls _ _) in E. 
change (set_fls (<[brk s:=MkFilelist 0 0]> (fls (set_brk (brk s + 1) s))) (set_brk (brk s + 1) s)) with s0.
rewrite (cbind_go _ _ _ _ _ E). set (s1 := relist m fp _ po s0) in *.
assert (files s1 !! fp = Some (set_list (hd_or (K fp ++ [(brk s, 0)]) 0) po)) as Hfp1
  by (unfold s1, relist; cbn; by rewrite lookup_insert_eq).
destruct (allocfile_spec (R := Z) s1 ext _ I1) as (f & s2 & a & l & E2 & I2 & Hf2 & Hl2 & Hni & Hfl2 & Hlive).
rewrite (cbind_go _ _ _ _ _ E2). destruct Hlive as (Hlive & Efls & Erds & Etr & Ebr).
pose proof (Hlive fp _ Hfp1 ltac:(cbn; lia)) as Hfp2.
rewrite (cbind_go _ _ _ _ _ (fget_go fp s2 _ Hfp2 ltac:(alive))). cbn [f_tree set_list].
destruct (fi_tree _ _ _ I fp po Hfp ltac:(lia)) as [to Hto].
assert (trees s2 !! f_tree po = Some to) as Hto2 by (rewrite Etr; exact Hto).
unfold cbind at 1, cgets at 1. rewrite Hto2. unfold cbind at 1, cmodify at 1.
set (s3 := set_trees _ s2).
pose proof (fi_ref _ _ _ I fp po Hfp) as Href. pose proof (fi_ext _ _ _ I fp). pose proof (kids_nonneg K fp).
pose proof (pref_range po). pose proof (fi_nchild _ _ _ I fp po Hfp ltac:(lia)) as Hnc.
assert (f_ref po <> 0) as Hr0 by lia.
assert (fp <> f) as Hne by (intros ->; rewrite Hf2 in Hfp2; injection Hfp2; cbn; intros; congruence).
destruct (create_tail_spec s3 fp f (brk s) (f_tree po)
  (Dirv 0 0 (MkQid (t_qidgen to) 0 (perm_qtype perm)) perm now now 0
    name (default (v_uid (f_dir po)) uid) (v_gid (f_dir po)) (default unknown uid)) aux (set_allocd a zero_file)
  (set_list (hd_or (K fp ++ [(brk s, 0)]) 0) po) (MkFilelist 0 0))
  as (s4 & fo' & po' & E4 & F1 & F2 & F3 & F4 & F5 & F6 & F7 & F8 & F9 & G1 & G2 & G3 & G4 & G5 & G6 & G7 &
      H1' & H2' & H3' & H4' & H5' & H6' & H7' & H8' & H9'); try done; try (cbn; lia).
{ cbn. alive. }
{ unfold s3. cbn. rewrite Efls. exact Hm. }
exists f, s4, (kset (kset K fp (K fp ++ [(brk s, 0)])) fp (K fp ++ [(brk s, f)])), fo', to.
pose proof (fi_files _ _ _ I2 f _ Hf2) as Hfpos.
split; [|split; [lia|split; [|split; [|split; [done|split; [done|split; [done|split; [by rewrite <- new_entry_eq|split]]]]]]]].
- match goal with |- context [cbind (fset f ?g) ?k s3] => assert (cbind (fset f g) k s3 = (Ret f, s4)) as -> by exact E4 end.
  done.
- apply (finv_link s2 s4 ext _ f (set_allocd a zero_file) fo' fp
    (set_list (hd_or (K fp ++ [(brk s, 0)]) 0) po) po' (K fp) (brk s) l); try done; try (cbn; lia).
  + by rewrite kset_eq.
  + intros t. rewrite F7. unfold s3. cbn. destruct (decide (t = f_tree po)) as [->|Hne'].
    * rewrite lookup_insert_eq, Etr. split; intros _; [by rewrite <- Etr, Hto2|by eexists].
    * by rewrite lookup_insert_ne.
- (* keeps *) split; [|rewrite F6; exact Erds]. intros g go Hg Hgr. pose proof Hg as Hg'.
  destruct (decide (g = fp)) as [->|Hgp].
  + rewrite Hfp in Hg. injection Hg as <-. exists po'. by split_and!.
  + assert (files s1 !! g = Some go) as Hg1 by (unfold s1, relist; cbn; by rewrite lookup_insert_ne).
    pose proof (Hlive g go Hg1 Hgr) as Hg2. exists go. rewrite F3; [by split_and!| |done].
    intros ->. rewrite Hf2 in Hg2. injection Hg2 as <-. by apply Hgr.
- exists (brk s). by rewrite kset_eq.
- split; [intros d Hdp; by rewrite !kset_ne|]. split.
  { intros fo Hfo. destruct (decide (f_ref fo = 0)) as [|Hgr]; [done|exfalso].
    assert (files s1 !! f = Some fo) as Hg1 by (unfold s1, relist; cbn; by rewrite lookup_insert_ne).
    pose proof (Hlive f fo Hg1 Hgr) as Hg2. rewrite Hf2 in Hg2. injection Hg2 as <-. by apply Hgr. }
  intros t x. rewrite F7. unfold s3. cbn. rewrite Etr. destruct (decide (t = f_tree po)) as [->|Hne'].
  + rewrite lookup_insert_eq. intros [= <-]. by exists to.
  + rewrite lookup_insert_ne by done. intros Hx. by exists x.
Qed.
