(* ===== verification/FilesOps.v ===== *)
(** The file trees, continued: walking, directory readers and new trees keep
    the invariant of FilesSpec. *)

From S2P Require Import Prelude Mem Links Counts Fcall9P Fcall9PSpec Dir9P Dir9PSpec Files FilesSpec.

Lemma cbind_run {S R A B} (c c' : cmd S R A) (k : A -> cmd S R B) s s' :
  c s = c' s' -> cbind c k s = cbind c' k s'.
Proof. intros H. unfold cbind. by rewrite H. Qed.

Lemma cbind_assoc {S R A B C} (c : cmd S R A) (f : A -> cmd S R B) (g : B -> cmd S R C) s :
  cbind (cbind c f) g s = cbind c (fun x => cbind (f x) g) s.
Proof. unfold cbind. by destruct (c s) as [[]]. Qed.

(** ** walkfile1 *)

Lemma flfuel_go {R} s : flfuel (R := R) s = (Go (S (size (fls s))), s).
Proof. done. Qed.

Lemma walk_loop_spec {R} fuel s elem ns : seg (flnode s) ns 0 -> (forall c, c ∈ nz ns -> usable s c) ->
  (length ns < fuel)%nat ->
  (walk_loop (R := R) fuel elem (hd_or ns 0) s = (Go 0, s) /\ forall c, c ∈ nz ns -> ~ named s elem c) \/
  (exists c, c ∈ nz ns /\ named s elem c /\
     walk_loop (R := R) fuel elem (hd_or ns 0) s = (incref c;; cret c) s).
Proof.
revert ns; induction fuel as [|fuel IH]; intros ns Hs Hc Hf; [lia|].
destruct ns as [|[a x] ns]; cbn [walk_loop hd_or].
- rewrite decide_True by done. left. split; [done|]. intros c H. by apply not_elem_of_nil in H.
- destruct Hs as (Ha & Hk & Hs). apply flnode_some in Hk. rewrite decide_False by done.
  rewrite (cbind_go _ _ _ _ _ (flget_go a s _ Hk)). cbn [fl_f fl_link]. cbn in Hf.
  rewrite nz_cons in *. destruct (decide (x <> 0)) as [Hx|Hx]; [|apply IH; try done; lia].
  destruct (Hc x) as (co & Hco & Hlc); [by left|]. rewrite (cbind_go _ _ _ _ _ (fget_go x s co Hco Hlc)).
  destruct (decide (v_name (f_dir co) = elem)) as [Hn|Hn].
  + right. exists x. split; [by left|]. split; [by exists co|done].
  + destruct (IH ns Hs) as [[E Hno]|(c & Hin & Hcn & E)]; [|lia| |].
    * intros c Hin. apply Hc. by right.
    * left. split; [exact E|]. intros c [->|Hin]%elem_of_cons; [|by apply Hno].
      intros (co' & Hco' & Hn'). congruence.
    * right. exists c. split; [by right|]. by split.
Qed.

(** A reference moves from [dir] to [g]. *)
Lemma move_ref s ext K dir g go : finv s ext K -> files s !! g = Some go -> 0 < f_ref go < 2 ^ 31 - 1 ->
  0 < ext dir -> nrd s dir <= ext dir - 1 ->
  exists s' K', (incref g;; closefile dir;; creturn (A := Z) g) s = (Ret g, s') /\
    finv s' (upd (upd ext g 1) dir (-1)) K' /\ keeps s s' /\ (forall d, nz (K' d) = nz (K d)).
Proof.
intros I Hg Hb He Hrd. destruct (incref_spec (R := Z) s ext K g go I Hg Hb) as [E I1].
rewrite (cbind_go _ _ _ _ _ E). set (s1 := set_files _ s) in *.
assert (ext dir <= upd ext g 1 dir) as Hle by (unfold upd; case_decide; lia).
destruct (closefile_spec (R := Z) s1 _ K dir I1) as (s2 & K2 & E2 & I2 & Hk & HK).
{ lia. }
{ change (nrd s1 dir) with (nrd s dir). lia. }
exists s2, K2. rewrite (cbind_go _ _ _ _ _ E2). split; [done|]. split; [done|]. split; [|done].
eapply keeps_trans; [|exact Hk]. by apply (keeps_set s g go).
Qed.

Lemma walkfile1_parent {R} s ext K dir d po : finv s ext K -> files s !! dir = Some d -> 0 < ext dir ->
  nrd s dir <= ext dir - 1 -> files s !! f_parent d = Some po -> f_parent d <> 0 -> f_ref po < 2 ^ 31 - 1 ->
  exists s' K', walkfile1 (R := R) dir dotdot s = (Go (f_parent d), s') /\
    finv s' (upd (upd ext (f_parent d) 1) dir (-1)) K' /\ keeps s s' /\ (forall x, nz (K' x) = nz (K x)).
Proof.
intros I Hd He Hrd Hpo Hp Hb. unfold walkfile1, ccall. rewrite (cbind_go _ _ _ _ _ (fget_go dir s d Hd ltac:(alive))).
rewrite decide_True by done. destruct (parent_file _ _ _ _ _ I Hd Hp) as (po' & Hpo' & Hpos).
rewrite Hpo in Hpo'. injection Hpo' as <-.
destruct (move_ref s ext K dir (f_parent d) po I Hpo ltac:(lia) He Hrd) as (s' & K' & E & H).
exists s', K'. by rewrite E.
Qed.

Lemma walkfile1_child {R} s ext K dir d elem : finv s ext K -> files s !! dir = Some d -> 0 < ext dir ->
  nrd s dir <= ext dir - 1 -> elem <> dotdot ->
  (forall c co, c ∈ nz (K dir) -> files s !! c = Some co -> v_name (f_dir co) = elem -> f_ref co < 2 ^ 31 - 1) ->
  exists s' K', (forall x, nz (K' x) = nz (K x)) /\ keeps s s' /\
    ((walkfile1 (R := R) dir elem s = (Go 0, s') /\ finv s' (upd ext dir (-1)) K' /\
      forall c, c ∈ nz (K dir) -> ~ named s elem c) \/
     (exists c, c ∈ nz (K dir) /\ named s elem c /\ walkfile1 (R := R) dir elem s = (Go c, s') /\
      finv s' (upd (upd ext c 1) dir (-1)) K')).
Proof.
intros I Hd He Hrd Hel Hb. unfold walkfile1, ccall. rewrite (cbind_go _ _ _ _ _ (fget_go dir s d Hd ltac:(alive))).
rewrite !decide_False by done. rewrite (cbind_go _ _ s _ s (flfuel_go s)).
assert (0 < f_ref d) as Hpos by (eapply ref_pos; eauto).
destruct (fi_list _ _ _ I dir d Hd ltac:(lia)) as [Hl Hs]. rewrite Hl.
destruct (walk_loop_spec (R := Z) (S (size (fls s))) s elem (K dir) Hs) as [[E Hno]|(c & Hc & Hn & E)].
- intros c Hc. by apply (kid_usable s ext K dir).
- apply le_n_S. apply (seg_fls_size s _ 0); [exact Hs|apply I].
- destruct (closefile_spec (R := Z) s ext K dir I He Hrd) as (s' & K' & E' & I' & Hk & HK).
  exists s', K'. split; [done|]. split; [done|]. left.
  rewrite (cbind_go _ _ _ _ _ E), (cbind_go _ _ _ _ _ E'). done.
- destruct (fi_child _ _ _ I dir c Hc) as (_ & co & Hco & Hcp).
  assert (dir <> 0) as Hd0 by (pose proof (fi_files _ _ _ I dir d Hd); lia).
  assert (0 < f_ref co) as Hcpos by (eapply ref_pos; [exact I|exact Hco|]; right; right; congruence).
  destruct (move_ref s ext K dir c co I Hco) as (s' & K' & E' & I' & Hk & HK); try done.
  { split; [done|]. apply (Hb c co Hc Hco). destruct Hn as (co' & Hco' & Hn). congruence. }
  exists s', K'. split; [done|]. split; [done|]. right. exists c. split; [done|]. split; [done|].
  split; [|done]. rewrite (cbind_run _ _ _ s _ E), cbind_assoc. unfold cret at 1.
  match goal with |- context [cbind (incref c) ?k s] => change (cbind (incref c) k s) with ((incref c;; closefile dir;; creturn (A := Z) c) s) end. by rewrite E'.
Qed.

(** ** Directory readers *)

Lemma nrd_insert s r ro f : rds s !! r = None ->
  nrd (set_rds (<[r := ro]> (rds s)) s) f = nrd s f + b2z (rd_dir ro = f).
Proof. intros Hr. unfold nrd. cbn. by rewrite cnt_insert_new. Qed.

Lemma nrd_update s r ro ro' f : rds s !! r = Some ro -> rd_dir ro' = rd_dir ro ->
  nrd (set_rds (<[r := ro']> (rds s)) s) f = nrd s f.
Proof. intros Hr Hd. unfold nrd. cbn. apply (cnt_keep _ _ r ro); [done|]. by rewrite Hd. Qed.

Lemma nrd_delete s r ro f : rds s !! r = Some ro ->
  nrd (set_rds (delete r (rds s)) s) f = nrd s f - b2z (rd_dir ro = f).
Proof. intros Hr. unfold nrd. cbn. by rewrite (cnt_delete _ _ r ro). Qed.

(** The readers of [dir] change; the reader of every directory points into its
    list. *)
Lemma finv_readers s s' ext K dir d n : finv s ext K -> files s !! dir = Some d ->
  files s' = <[dir := set_readers n d]> (files s) -> fls s' = fls s -> trees s' = trees s ->
  freefilelist s' = freefilelist s -> brk s <= brk s' ->
  (forall r ro, rds s' !! r = Some ro -> 0 < r < brk s' /\ (rd_fl ro = 0 \/ rd_fl ro ∈ (K (rd_dir ro)).*1)) ->
  (forall f, f <> dir -> nrd s' f = nrd s f) -> nrd s' dir = n -> n <= ext dir -> finv s' ext K.
Proof.
intros I Hd Efs Efl Etr Efr Ebr Hrds Hne Heq Hn.
assert (Hsh : forall g go, files s' !! g = Some go -> exists go0, files s !! g = Some go0 /\
  f_ref go = f_ref go0 /\ f_parent go = f_parent go0 /\ f_list go = f_list go0 /\ f_tree go = f_tree go0 /\
  f_nchild go = f_nchild go0 /\ f_readers go = if decide (g = dir) then n else f_readers go0).
{ intros g go. rewrite Efs. destruct (decide (g = dir)) as [->|Hg].
  - rewrite lookup_insert_eq. intros [= <-]. exists d. by split_and!.
  - rewrite lookup_insert_ne by done. intros H. exists go. by split_and!. }
assert (Hsh' : forall g go0, files s !! g = Some go0 -> exists go, files s' !! g = Some go /\
  f_parent go = f_parent go0 /\ f_ref go = f_ref go0 /\ f_aux go = f_aux go0).
{ intros g go. rewrite Efs. destruct (decide (g = dir)) as [->|Hg].
  - rewrite lookup_insert_eq, Hd. intros [= <-]. by eexists.
  - rewrite lookup_insert_ne by done. by exists go. }
assert (Hseg : forall l, seg (flnode s) l 0 -> seg (flnode s') l 0).
{ intros l. apply seg_ext. intros a _. unfold flnode. by rewrite Efl. }
constructor; rewrite ?Efl, ?Etr; try apply I.
- pose proof (fi_brk _ _ _ I). lia.
- intros g go Hg. destruct (Hsh g go Hg) as (go0 & Hg0 & _). pose proof (fi_files _ _ _ I g go0 Hg0). lia.
- intros a x Ha. pose proof (fi_fls _ _ _ I a x Ha). lia.
- intros r ro Hr. by apply Hrds in Hr as [? _].
- intros a x Ha. pose proof (fi_trees _ _ _ I a x Ha). lia.
- intros g Hg. destruct (files s !! g) as [go|] eqn:E; [|by apply (fi_none _ _ _ I)].
  destruct (Hsh' g go E) as (? & ? & _). congruence.
- intros g go Hg. destruct (Hsh g go Hg) as (go0 & Hg0 & -> & Hp & _). unfold pref. rewrite Hp. by apply (fi_ref _ _ _ I).
- intros g go Hg. destruct (Hsh g go Hg) as (go0 & Hg0 & -> & _). by apply (fi_bound _ _ _ I g).
- intros g go Hg Hz. destruct (Hsh g go Hg) as (go0 & Hg0 & Hr0 & _). apply (fi_dead _ _ _ I g go0); congruence.
- intros g go Hg Hz. destruct (Hsh g go Hg) as (go0 & Hg0 & Hr0 & _ & -> & _).
  destruct (fi_list _ _ _ I g go0 Hg0) as [H1 H2]; [congruence|]. split; [done|by apply Hseg].
- intros x c Hc. destruct (fi_child _ _ _ I x c Hc) as (Hcd & co & Hco & Hcp). split; [done|].
  destruct (Hsh' c co Hco) as (co' & Hco' & Hp & _). exists co'. split; [done|congruence].
- intros c co Hc Hcp Hcc. destruct (Hsh c co Hc) as (co0 & Hc0 & _ & Hp & _). rewrite Hp in *. by apply (fi_parent _ _ _ I c co0).
- intros g go Hg Hz. destruct (Hsh g go Hg) as (go0 & Hg0 & Hr0 & _ & _ & _ & -> & _). apply (fi_nchild _ _ _ I g go0); congruence.
- intros g go Hg Hz. destruct (Hsh g go Hg) as (go0 & Hg0 & Hr0 & _ & _ & -> & _). apply (fi_tree _ _ _ I g go0); congruence.
- intros g go Hg Hz. destruct (Hsh g go Hg) as (go0 & Hg0 & Hr0 & _ & _ & _ & _ & ->).
  case_decide; [congruence|]. rewrite Hne by done. apply (fi_readers _ _ _ I g go0); congruence.
- intros g. destruct (decide (g = dir)) as [->|Hg]; [lia|]. rewrite Hne by done. apply I.
- intros r ro Hr. by apply Hrds in Hr as [_ ?].
- intros g go. rewrite Efs. destruct (decide (g = dir)) as [->|Hg]; [|rewrite lookup_insert_ne by done; apply I].
  rewrite lookup_insert_eq. intros [= <-]. by apply (fi_live _ _ _ I dir d).
- destruct (fi_free _ _ _ I) as (l & Hl & Hfl). exists l. split; [done|]. rewrite Efr.
  eapply free_list_ext; [|exact Hfl]. intros g go Hg Hgz. destruct (Hsh' g go Hg) as (go' & Hg' & _ & Hr' & Ha').
  exists go'. split_and!; congruence.
Qed.

(** What the readers leave alone: everything but the reader counts. *)
Definition keeps_dirs (s s' : fheap) : Prop :=
  (forall f fo, files s !! f = Some fo -> exists fo', files s' !! f = Some fo' /\
     f_dir fo' = f_dir fo /\ f_parent fo' = f_parent fo /\ f_tree fo' = f_tree fo) /\ trees s' = trees s.

Lemma set_readers_keeps s s' dir d n : files s !! dir = Some d ->
  files s' = <[dir := set_readers n d]> (files s) -> trees s' = trees s -> keeps_dirs s s'.
Proof.
intros Hd Efs Etr. split; [|done]. intros g go Hg. rewrite Efs. destruct (decide (g = dir)) as [->|Hne].
- rewrite lookup_insert_eq. rewrite Hd in Hg. injection Hg as <-. by eexists.
- rewrite lookup_insert_ne by done. by eexists.
Qed.

Lemma reader_new s ext K : finv s ext K -> rds s !! brk s = None.
Proof. intros I. destruct (rds s !! brk s) as [ro|] eqn:E; [|done]. pose proof (fi_rds _ _ _ I _ _ E). lia. Qed.

Lemma opendirfile_spec {R} s ext K dir d : finv s ext K -> files s !! dir = Some d -> nrd s dir < ext dir ->
  Z.land (v_mode (f_dir d)) DMDIR <> 0 ->
  exists r s', opendirfile (R := R) dir s = (Go r, s') /\ finv s' ext K /\ keeps_dirs s s' /\
    rds s' = <[r := MkReaddir dir (hd_or (K dir) 0)]> (rds s) /\ rds s !! r = None /\ r <> 0.
Proof.
intros I Hd Hn Hm. pose proof (nrd_nonneg s dir) as Hnn.
assert (0 < f_ref d) as Hpos by (eapply ref_pos; [done|done|left; lia]).
unfold opendirfile, ccall. rewrite (cbind_go _ _ _ _ _ (fget_go dir s d Hd ltac:(alive))).
rewrite decide_False by done. unfold cbind at 1, emalloc. unfold cbind at 1, cmodify at 1.
set (s1 := set_rds _ _). assert (files s1 !! dir = Some d) as Hd1 by done.
rewrite (cbind_go _ _ _ _ _ (fset_go dir _ s1 d Hd1 ltac:(alive))). eexists _, _. split; [reflexivity|].
pose proof (fi_brk _ _ _ I) as Hb.
pose proof (fi_readers _ _ _ I dir d Hd ltac:(lia)) as Hrd. pose proof (fi_ref _ _ _ I dir d Hd).
pose proof (fi_bound _ _ _ I dir d Hd). pose proof (kids_nonneg K dir). pose proof (pref_range d).
destruct (fi_list _ _ _ I dir d Hd ltac:(lia)) as [Hl _]. pose proof (reader_new _ _ _ I) as Hnew.
pose proof (fun f => nrd_insert s (brk s) (MkReaddir dir (f_list d)) f Hnew) as Hnrd. cbn [rd_dir] in Hnrd.
split; [|split; [|split; [|split]]].
- eapply (finv_readers s _ ext K dir d (nrd s dir + 1)); try done.
  + cbn. rewrite s32_small by lia. by rewrite Hrd.
  + cbn. lia.
  + intros r ro. cbn. destruct (decide (r = brk s)) as [->|Hne].
    * rewrite lookup_insert_eq. intros [= <-]. split; [lia|]. cbn. rewrite Hl.
      destruct (K dir) as [|[a x] ns]; [by left|right; by left].
    * rewrite lookup_insert_ne by done. intros Hr. pose proof (fi_rds _ _ _ I r ro Hr). split; [lia|]. by apply (fi_rd _ _ _ I r).
  + intros f Hf. etransitivity; [apply Hnrd|]. rewrite b2z_false by done. lia.
  + etransitivity; [apply Hnrd|]. by rewrite b2z_true.
  + lia.
- by eapply (set_readers_keeps s _ dir d).
- cbn. by rewrite Hl.
- done.
- lia.
Qed.

(** ** Reading *)

(** The entry of a file. *)
Definition entry (s : fheap) (c : Z) : dirv := default empty_dir (f_dir <$> files s !! c).

(** The entries of the files of a list, as they are read. *)
Definition entries (s : fheap) (ns : list (Z * Z)) : bytes := concat (enc_dir ∘ entry s <$> nz ns).

Lemma entries_app s ns ns' : entries s (ns ++ ns') = entries s ns ++ entries s ns'.
Proof. unfold entries. by rewrite nz_app, fmap_app, concat_app. Qed.

(** [n] bytes have no room for what comes next. *)
Definition no_room (s : fheap) (n : Z) (ns : list (Z * Z)) : Prop :=
  match ns with
  | [] => True
  | (_, c) :: _ => n < 2 \/ c <> 0 /\ n < dir_size (entry s c)
  end.

Lemma dir_size_ge v : 49 <= dir_size v.
Proof.
unfold dir_size, v_total. pose proof (zlen_nonneg (v_name v)). pose proof (zlen_nonneg (v_uid v)).
pose proof (zlen_nonneg (v_gid v)). pose proof (zlen_nonneg (v_muid v)). change STATFIXLEN with 49. lia.
Qed.

Lemma readdir_loop_spec {R} fuel n s ns m buf : seg (flnode s) ns 0 ->
  (forall c, c ∈ nz ns -> usable s c) -> (length ns < fuel)%nat -> m <= n ->
  exists P Q junk, ns = P ++ Q /\ m + zlen (entries s P) <= n /\ no_room s (n - (m + zlen (entries s P))) Q /\
    readdir_loop (R := R) fuel n (hd_or ns 0) m buf s =
    (Go (hd_or Q 0, m + zlen (entries s P), buf ++ entries s P ++ junk), s).
Proof.
revert ns m buf; induction fuel as [|fuel IH]; intros ns m buf Hs Hc Hf Hm; [lia|].
assert (forall junk, (cret (hd_or ns 0, m, buf ++ junk) : cmd fheap R _) s =
  (Go (hd_or ns 0, m + zlen (entries s []), buf ++ entries s [] ++ junk), s)) as Hstop.
{ intros junk. change (zlen (entries s [])) with 0. by rewrite Z.add_0_r. }
cbn [readdir_loop]. destruct (decide (hd_or ns 0 <> 0 /\ m + 2 <= n)) as [[Hh Hroom]|Hno].
2:{ exists [], ns, []. split; [done|]. change (zlen (entries s [])) with 0. change (entries s []) with ([] : bytes). split; [lia|]. split.
    - destruct ns as [|[a c] ns]; [done|]. destruct Hs as (Ha & _). cbn in Hno. left. lia.
    - rewrite Z.add_0_r. by rewrite app_nil_r. }
destruct ns as [|[a c] ns]; [done|]. destruct Hs as (Ha & Hk & Hs). apply flnode_some in Hk. cbn [hd_or] in *.
rewrite (cbind_go _ _ _ _ _ (flget_go a s _ Hk)). cbn [fl_f fl_link]. cbn in Hf. rewrite nz_cons in Hc.
destruct (decide (c = 0)) as [->|Hc0].
- rewrite decide_False in Hc by (intros H; by apply H).
  destruct (IH ns m buf) as (P & Q & junk & -> & Hle & Hnr & E); try done; [lia|].
  exists ((a, 0) :: P), Q, junk. change (entries s ((a, 0) :: P)) with (entries s P). done.
- rewrite decide_True in Hc by done. destruct (Hc c) as (co & Hco & Hlc); [by left|].
  rewrite (cbind_go _ _ _ _ _ (fget_go c s co Hco Hlc)). unfold dir_store. rewrite decide_False by (unfold BIT16SZ; lia).
  pose proof (dir_size_ge (f_dir co)) as H49. assert (entry s c = f_dir co) as Hent by (unfold entry; by rewrite Hco).
  destruct (decide (n - m < dir_size (f_dir co))) as [Hbig|Hfit].
  + rewrite decide_True by done. rewrite Hstop. eexists [], ((a, c) :: ns), _. split; [done|].
    split; [change (zlen (entries s [])) with 0; lia|]. split; [|done].
    right. split; [done|]. rewrite Hent. change (zlen (entries s [])) with 0. lia.
  + rewrite decide_False by (unfold BIT16SZ; lia).
    assert (forall P, entries s ((a, c) :: P) = enc_dir (f_dir co) ++ entries s P) as Hcons.
    { intros P. unfold entries. rewrite nz_cons, decide_True by done. cbn. by rewrite Hent. }
    destruct (IH ns (m + dir_size (f_dir co)) (buf ++ enc_dir (f_dir co))) as (P & Q & junk & -> & Hle & Hnr & E); try done; try lia.
    { intros x Hx. apply Hc. by right. }
    exists ((a, c) :: P), Q, junk. rewrite Hcons, zlen_app, zlen_enc_dir, Z.add_assoc. split_and!; try done.
    rewrite E. by rewrite <- !app_assoc.
Qed.

Lemma suffix_at (ns : list (Z * Z)) a : a = 0 \/ a ∈ ns.*1 -> exists P Q, ns = P ++ Q /\ a = hd_or Q 0.
Proof.
intros [->|Ha]; [by exists ns, []; rewrite app_nil_r|].
apply list_elem_of_fmap in Ha as ([b c] & -> & Hin). apply list_elem_of_split in Hin as (P & Q & ->).
by exists P, ((b, c) :: Q).
Qed.

Lemma reader_file s ext K r ro : finv s ext K -> rds s !! r = Some ro ->
  exists d, files s !! rd_dir ro = Some d /\ 0 < f_ref d /\ f_readers d = nrd s (rd_dir ro) /\
    0 < nrd s (rd_dir ro) <= ext (rd_dir ro) /\ nrd s (rd_dir ro) < 2 ^ 31.
Proof.
intros I Hr. pose proof (nrd_in s r ro Hr) as Hp. pose proof (fi_nrd _ _ _ I (rd_dir ro)) as Hle.
destruct (held_file _ _ _ (rd_dir ro) I ltac:(lia)) as (d & Hd & Hpos). exists d.
pose proof (fi_ref _ _ _ I _ d Hd). pose proof (fi_bound _ _ _ I _ d Hd).
pose proof (kids_nonneg K (rd_dir ro)). pose proof (pref_range d).
split_and!; try done; try lia. apply (fi_readers _ _ _ I _ d Hd). lia.
Qed.

(** A read goes from the place [P0] of the list past the nodes [P]. *)
Lemma readdirfile_spec {R} s ext K r ro P0 ns n : finv s ext K -> rds s !! r = Some ro -> 0 <= n ->
  K (rd_dir ro) = P0 ++ ns -> rd_fl ro = hd_or ns 0 ->
  exists P Q junk s', ns = P ++ Q /\ zlen (entries s P) <= n /\ no_room s (n - zlen (entries s P)) Q /\
    readdirfile (R := R) r n s = (Go (zlen (entries s P), entries s P ++ junk), s') /\
    finv s' ext K /\ s' = set_rds (<[r := MkReaddir (rd_dir ro) (hd_or Q 0)]> (rds s)) s.
Proof.
intros I Hr Hn HK Hfl. unfold readdirfile. rewrite Hr. rewrite (cbind_go _ _ s _ s (flfuel_go s)), Hfl.
destruct (reader_file _ _ _ _ _ I Hr) as (d & Hd & Hpos & Hrd & Hnrd & _). set (dir := rd_dir ro) in *.
destruct (fi_list _ _ _ I dir d Hd ltac:(lia)) as [_ Hs]. pose proof (seg_fls_size s _ _ Hs (fi_nodes _ _ _ I dir)) as Hsz.
rewrite HK in Hs, Hsz. apply seg_app in Hs as [_ Hs]. rewrite length_app in Hsz.
destruct (readdir_loop_spec (R := R) (S (size (fls s))) n s ns 0 [] Hs) as (P & Q & junk & -> & Hle & Hnr & E); [|lia|lia|].
{ intros c Hc. apply (kid_usable s ext K dir c I). rewrite HK, nz_app. apply elem_of_app. by right. }
rewrite (cbind_go _ _ _ _ _ E). cbn [app]. unfold cbind at 1, cmodify. rewrite Z.add_0_l in *.
exists P, Q, junk. eexists. split; [done|]. split; [done|]. split; [done|]. split; [done|]. split; [|done].
eapply (finv_readers s _ ext K dir d (f_readers d)); try done.
- cbn. rewrite insert_id; [done|]. rewrite Hd. by destruct d.
- intros r' ro'. cbn. pose proof (fi_rds _ _ _ I r ro Hr). destruct (decide (r' = r)) as [->|Hne].
  + rewrite lookup_insert_eq. intros [= <-]. split; [done|]. cbn. rewrite HK.
    destruct Q as [|[a x] Q]; [by left|right]. rewrite !fmap_app. do 2 (apply elem_of_app; right). by left.
  + rewrite lookup_insert_ne by done. intros Hr'. split; [by apply (fi_rds _ _ _ I r' ro')|by apply (fi_rd _ _ _ I r')].
- intros f Hf. by apply (nrd_update s r ro).
- rewrite Hrd. by apply (nrd_update s r ro).
- lia.
Qed.

Lemma readers_cleaned {R} s ext K f fo : finv s ext K -> files s !! f = Some fo -> f_ref fo <> 0 ->
  exists s' K', (if decide (f_readers fo = 0) then cleanfilelist (R := R) f else cret tt) s = (Go tt, s') /\
    finv s' ext K' /\ keeps s s' /\ (forall d, nz (K' d) = nz (K d)).
Proof.
intros I Hf Hr. case_decide.
- destruct (cleanfilelist_spec (R := R) s ext K f fo I Hf Hr) as (s' & K' & E & I' & Hk & HK & _). eauto 6.
- exists s, K. split; [done|]. split; [done|]. split; [apply keeps_refl|done].
Qed.

(** Commands that do not use the readers. *)
Definition rds_blind {R A} (c : cmd fheap R A) : Prop :=
  forall x s, c (set_rds x s) = ((c s).1, set_rds x (c s).2).

Section Blind.
Context {R : Type}.

Lemma blind_bind {A B} (c : cmd fheap R A) (k : A -> cmd fheap R B) :
  rds_blind c -> (forall a, rds_blind (k a)) -> rds_blind (cbind c k).
Proof. intros Hc Hk x s. unfold cbind. rewrite Hc. destruct (c s) as [[a| | |] s1]; cbn; [apply Hk|done..]. Qed.

Lemma blind_if {A} (P : Prop) `{Decision P} (c c' : cmd fheap R A) :
  rds_blind c -> rds_blind c' -> rds_blind (if decide P then c else c').
Proof. intros. by case_decide. Qed.

Lemma blind_ret {A} (a : A) : rds_blind (R := R) (cret a).
Proof. done. Qed.
Lemma blind_abort {A} : rds_blind (R := R) (A := A) cabort.
Proof. done. Qed.
Lemma blind_fget p : rds_blind (fget (R := R) p).
Proof. intros x s. unfold fget. cbn. destruct (files s !! p) as [f|]; [by destruct (f_free f)|done]. Qed.
Lemma blind_fset p g : rds_blind (fset (R := R) p g).
Proof. intros x s. unfold fset. cbn. destruct (files s !! p) as [f|]; [by destruct (f_free f)|done]. Qed.
Lemma blind_flget p : rds_blind (flget (R := R) p).
Proof. intros x s. unfold flget. cbn. by destruct (fls s !! p). Qed.
Lemma blind_flset p v : rds_blind (flset (R := R) p v).
Proof. intros x s. unfold flset. cbn. by destruct (fls s !! p). Qed.
Lemma blind_flfree p : rds_blind (flfree (R := R) p).
Proof. done. Qed.
Lemma blind_flfuel : rds_blind (flfuel (R := R)).
Proof. done. Qed.
End Blind.

Create HintDb rds_blind.
#[export] Hint Resolve blind_bind blind_if blind_ret blind_abort blind_fget blind_fset blind_flget blind_flset
  blind_flfree blind_flfuel : rds_blind.

Lemma blind_lget {R} f l : rds_blind (lget (R := R) f l).
Proof. destruct l; cbn [lget]; eauto with rds_blind. Qed.
Lemma blind_lset {R} f l v : rds_blind (lset (R := R) f l v).
Proof. destruct l; cbn [lset]; eauto with rds_blind. Qed.
#[export] Hint Resolve blind_lget blind_lset : rds_blind.

Lemma blind_clean_loop {R} fuel f l : rds_blind (clean_loop (R := R) fuel f l).
Proof. revert l; induction fuel as [|fuel IH]; intros l; cbn [clean_loop]; eauto 10 with rds_blind. Qed.
#[export] Hint Resolve blind_clean_loop : rds_blind.

Lemma blind_cleanfilelist {R} f : rds_blind (cleanfilelist (R := R) f).
Proof. unfold cleanfilelist. eauto 10 with rds_blind. Qed.

(** [closedirfile]: the last reader of a directory cleans its list. *)
Lemma closedirfile_spec {R} s ext K r ro : finv s ext K -> rds s !! r = Some ro ->
  exists s' K', closedirfile (R := R) r s = (Go tt, s') /\ finv s' ext K' /\ keeps_dirs s s' /\
    rds s' = delete r (rds s) /\ (forall d, nz (K' d) = nz (K d)).
Proof.
intros I Hr. unfold closedirfile. rewrite Hr.
destruct (reader_file _ _ _ _ _ I Hr) as (d & Hd & Hpos & Hrd & Hnrd & Hb). set (dir := rd_dir ro) in *.
rewrite (cbind_go _ _ _ _ _ (fset_go dir _ s d Hd ltac:(alive))). cbn beta. set (s1 := set_files _ s).
assert (files s1 !! dir = Some (set_readers (s32 (f_readers d - 1)) d)) as Hd1 by (cbn; by rewrite lookup_insert_eq).
rewrite (cbind_go _ _ _ _ _ (fget_go dir s1 _ Hd1 ltac:(alive))). cbn [f_readers set_readers].
set (s0 := set_rds (delete r (rds s)) s1).
pose proof (nrd_delete s r ro dir Hr) as Hdel. rewrite b2z_true in Hdel by done.
assert (finv s0 ext K) as I0.
{ apply (finv_readers s s0 ext K dir d (s32 (f_readers d - 1))); try done.
  - intros r' ro'. cbn. intros Hr'. apply lookup_delete_Some in Hr' as [_ Hr'].
    split; [by apply (fi_rds _ _ _ I r' ro')|by apply (fi_rd _ _ _ I r')].
  - intros f Hf. etransitivity; [by apply (nrd_delete s r ro f)|]. rewrite b2z_false by (intros E; by apply Hf). lia.
  - rewrite Hrd, s32_small by lia. exact Hdel.
  - rewrite Hrd, s32_small by lia. lia. }
destruct (readers_cleaned (R := R) s0 ext K dir _ I0 Hd1 ltac:(cbn; lia)) as (s2 & K2 & E & I2 & Hk & HK).
assert (rds_blind (R := R) (if decide (s32 (f_readers d - 1) = 0) then cleanfilelist dir else cret tt)) as Hbl
  by (apply blind_if; [apply blind_cleanfilelist|apply blind_ret]).
exists s2, K2. cbn [f_readers set_readers] in E. unfold s0 in E. rewrite Hbl in E. injection E as E1 E2.
destruct ((if decide (s32 (f_readers d - 1) = 0) then cleanfilelist dir else cret tt) s1) as [c3 s3] eqn:E3.
cbn in E1, E2. subst c3. pose proof (Hbl (rds s) s1) as H3. change (set_rds (rds s) s1) with s1 in H3.
rewrite E3 in H3. injection H3 as H3. rewrite (cbind_go _ _ _ _ _ E3). unfold cmodify.
split; [|split; [done|]].
- f_equal. rewrite <- E2. f_equal. rewrite H3. done.
- destruct Hk as (Hk1 & Hk2 & Hk3 & Hk4). split; [|split; [exact Hk2|done]]. split; [|exact Hk3].
  intros g go Hg. destruct (set_readers_keeps s s0 dir d _ Hd eq_refl eq_refl) as [Hs0 _].
  destruct (Hs0 g go Hg) as (go1 & Hg1 & ? & ? & ?). destruct (Hk1 g go1 Hg1) as (go2 & Hg2 & ? & ? & ? & _).
  exists go2. split_and!; congruence.
Qed.

(** ** Trees *)

Definition init_heap : fheap := FHeap ∅ ∅ ∅ ∅ 0 1 [] NoError.

Lemma finv_init : finv init_heap (fun _ => 0) (fun _ => []).
Proof.
constructor; cbn; intros; try done; try lia.
- constructor.
- by apply not_elem_of_nil in H.
- constructor.
- by apply not_elem_of_nil in H.
- exists []. split; [constructor|done].
Qed.

(** A cleared file becomes the root of the tree [t]. *)
Lemma finv_root s s' ext K f fo fo' t x l : finv s ext K -> files s !! f = Some fo -> f_ref fo = 0 ->
  NoDup l -> f ∉ l -> free_list s l (freefilelist s) ->
  files s' = <[f := fo']> (files s) -> fls s' = fls s -> rds s' = rds s -> trees s' = <[t := x]> (trees s) ->
  0 < t < brk s -> freefilelist s' = freefilelist s -> brk s' = brk s ->
  f_ref fo' = 1 -> f_parent fo' = f -> f_tree fo' = t -> f_list fo' = 0 -> f_nchild fo' = 0 -> f_readers fo' = 0 ->
  f_free fo' = false -> finv s' ext K.
Proof.
intros I Hf Hz Hl Hni Hfl Ef Efl Erd Etr Ht Efr Ebr R1 R2 R3 R4 R5 R6 R7.
destruct (dead_facts _ _ _ _ _ I Hf Hz) as (He & HKf & Hpf).
assert (Hf0 : f <> 0) by (pose proof (fi_files _ _ _ I f fo Hf); lia).
assert (Hsh : forall g go, files s' !! g = Some go -> g = f /\ go = fo' \/ g <> f /\ files s !! g = Some go).
{ intros g go. rewrite Ef. destruct (decide (g = f)) as [->|Hg].
  - rewrite lookup_insert_eq. intros [= <-]. by left.
  - rewrite lookup_insert_ne by done. by right. }
assert (Hnew : forall d, f ∉ nz (K d)).
{ intros d Hc. destruct (fi_child _ _ _ I d f Hc) as (_ & co & Hco & Hcp). rewrite Hf in Hco.
  injection Hco as <-. rewrite Hpf in Hcp. subst d.
  destruct (files s !! 0) as [y|] eqn:E0; [pose proof (fi_files _ _ _ I 0 y E0); lia|].
  destruct (fi_none _ _ _ I 0 E0) as [_ E]. rewrite E in Hc. by apply not_elem_of_nil in Hc. }
assert (Hnrd : forall g, nrd s' g = nrd s g) by (intros g; by apply nrd_rds).
assert (Hdf : nrd s f = 0) by (pose proof (fi_nrd _ _ _ I f); pose proof (nrd_nonneg s f); lia).
constructor; rewrite ?Ebr, ?Erd; try apply I.
- intros g go Hg. destruct (Hsh g go Hg) as [[-> _]|[_ Hg']]; by eapply I.
- rewrite Efl. apply I.
- intros t' x'. rewrite Etr. destruct (decide (t' = t)) as [->|Hne]; [done|].
  rewrite lookup_insert_ne by done. apply I.
- intros g Hg. apply (fi_none _ _ _ I). rewrite Ef in Hg. by apply lookup_insert_None in Hg as [? _].
- intros g go Hg. destruct (Hsh g go Hg) as [[-> ->]|[_ Hg']]; [|by apply (fi_ref _ _ _ I)].
  unfold kids, pref. rewrite HKf, R2, He, R1. by rewrite decide_False.
- intros g go Hg. destruct (Hsh g go Hg) as [[-> ->]|[_ Hg']]; [lia|by apply (fi_bound _ _ _ I g)].
- intros g go Hg Hgz. destruct (Hsh g go Hg) as [[-> ->]|[_ Hg']]; [lia|by apply (fi_dead _ _ _ I g go)].
- intros g go Hg Hgz. destruct (Hsh g go Hg) as [[-> ->]|[_ Hg']].
  + by rewrite HKf.
  + destruct (fi_list _ _ _ I g go Hg' Hgz) as [H1 H2]. split; [done|].
    eapply seg_ext; [|exact H2]. intros a _. unfold flnode. by rewrite Efl.
- intros d c Hc. destruct (fi_child _ _ _ I d c Hc) as (Hcd & co & Hco & Hcp). split; [done|].
  exists co. rewrite Ef, lookup_insert_ne; [done|]. intros <-. by apply (Hnew d).
- intros c co Hc. destruct (Hsh c co Hc) as [[-> ->]|[_ Hc']]; [by rewrite R2|by apply (fi_parent _ _ _ I)].
- intros g go Hg Hgz. destruct (Hsh g go Hg) as [[-> ->]|[_ Hg']]; [|by apply (fi_nchild _ _ _ I)].
  unfold kids. by rewrite HKf.
- intros g go Hg Hgz. rewrite Etr. apply lookup_insert_is_Some'. destruct (Hsh g go Hg) as [[-> ->]|[_ Hg']]; [by left|right].
  by apply (fi_tree _ _ _ I g go).
- intros g go Hg Hgz. rewrite Hnrd. destruct (Hsh g go Hg) as [[-> ->]|[_ Hg']]; [lia|by apply (fi_readers _ _ _ I)].
- intros g. rewrite Hnrd. apply I.
- intros g go Hg Hgz. destruct (Hsh g go Hg) as [[-> ->]|[_ Hg']]; [done|by apply (fi_live _ _ _ I g)].
- exists l. split; [done|]. rewrite Efr. eapply free_list_ext_in; [|exact Hfl].
  intros g go Hin Hg Hgr. exists go. rewrite Ef, lookup_insert_ne; [done|]. by intros ->.
Qed.

Lemma finv_brk s ext K n : finv s ext K -> 0 <= n -> finv (set_brk (brk s + n) s) ext K.
Proof.
intros I Hn. constructor; cbn; try apply I.
- pose proof (fi_brk _ _ _ I). lia.
- intros f fo Hf. pose proof (fi_files _ _ _ I f fo Hf). lia.
- intros f fo Hf. pose proof (fi_fls _ _ _ I f fo Hf). lia.
- intros f fo Hf. pose proof (fi_rds _ _ _ I f fo Hf). lia.
- intros f fo Hf. pose proof (fi_trees _ _ _ I f fo Hf). lia.
- destruct (fi_free _ _ _ I) as (l & Hl & Hfl). exists l. split; [done|].
  eapply free_list_ext; [|exact Hfl]. intros g go Hg Hz. by exists go.
Qed.

(** The entry of the root of a new tree. *)
Definition root_entry (user : bytes) (uid gid : option bytes) (mode now : Z) : dirv :=
  Dirv 0 0 (MkQid 0 0 QTDIR) (Z.lor DMDIR mode) now now 0 [47] (default user uid)
    (default (default user uid) gid) (default user uid).

Lemma alloctree_spec {R} s ext K user uid gid mode now : finv s ext K ->
  exists t f s' fo, alloctree (R := R) user uid gid mode now s = (Go t, s') /\ finv s' ext K /\
    trees s' = <[t := MkTree f 0 1]> (trees s) /\ trees s !! t = None /\
    files s' !! f = Some fo /\ f_ref fo = 1 /\ f_parent fo = f /\ f_tree fo = t /\
    f_dir fo = root_entry user uid gid mode now /\
    (forall g go, files s !! g = Some go -> f_ref go <> 0 -> g <> f /\ files s' !! g = Some go) /\
    rds s' = rds s.
Proof.
intros I. unfold alloctree. unfold cbind at 1, emalloc. pose proof (finv_brk s ext K 1 I ltac:(lia)) as I0.
destruct (allocfile_spec (R := R) _ ext K I0) as (f & s1 & a & l & E & I1 & Hf & Hl & Hni & Hfl & Hlive & Efl & Erd & Etr & Eb).
rewrite (cbind_go _ _ _ _ _ E). cbn zeta.
rewrite (cbind_go _ _ _ _ _ (fset_go f _ s1 _ Hf ltac:(alive))). set (s2 := set_files _ s1).
assert (exists fo2, files s2 !! f = Some fo2 /\ f_free fo2 = false) as (fo2 & E2 & L2) by (eexists; cbn; rewrite lookup_insert_eq; by split).
rewrite (cbind_go _ _ _ _ _ (fset_go f _ s2 _ E2 ltac:(alive))). set (s3 := set_files _ s2).
assert (exists fo3, files s3 !! f = Some fo3 /\ f_free fo3 = false) as (fo3 & E3 & L3) by (eexists; cbn; rewrite lookup_insert_eq; by split).
rewrite (cbind_go _ _ _ _ _ (fset_go f _ s3 _ E3 ltac:(alive))). set (s4 := set_files _ s3).
assert (exists fo4, files s4 !! f = Some fo4 /\ f_free fo4 = false) as (fo4 & E4 & L4) by (eexists; cbn; rewrite lookup_insert_eq; by split).
unfold incref. rewrite (cbind_go _ _ _ _ _ (fset_go f _ s4 _ E4 ltac:(alive))). set (s5 := set_files _ s4).
clear L2 L3 L4. revert E2 E3 E4. cbn. rewrite !lookup_insert_eq. intros [= <-] [= <-] [= <-].
pose proof (fi_brk _ _ _ I) as Hb.
eexists (brk s), f, _, _. split; [reflexivity|]. split_and!.
- eapply (finv_root s1 _ ext K f _ _ (brk s) (MkTree f 0 1) l I1 Hf); try done;
    [cbn; rewrite !insert_insert_eq; reflexivity|cbn in Eb |- *; lia|done..].
- cbn. by rewrite Etr.
- destruct (trees s !! brk s) as [x|] eqn:Et; [|done]. pose proof (fi_trees _ _ _ I _ x Et). lia.
- cbn. by rewrite lookup_insert_eq.
- done.
- done.
- done.
- done.
- intros g go Hg Hr. pose proof (Hlive g go Hg Hr) as Hg1. assert (g <> f) as Hne.
  { intros ->. rewrite Hf in Hg1. injection Hg1 as <-. by apply Hr. }
  split; [done|]. cbn. by rewrite !lookup_insert_ne.
- cbn. by rewrite Erd.
Qed.
