(* ===== verification/FilesThms.v ===== *)
(** The file trees: what the library of file.c promises to a server that uses
    it, and where it does not keep the promise. *)

From S2P Require Import Prelude Mem Links Fcall9P Fcall9PSpec Dir9P Dir9PSpec Files FilesSpec FilesOps.

(** ** The operations of a server *)

Inductive fop :=
  | OTree (user : bytes) (uid gid : option bytes) (mode now : Z)
  | OCreate (fp : Z) (name : bytes) (uid : option bytes) (perm aux now : Z)
  | ORemove (f : Z)
  | OWalk (dir : Z) (elem : bytes)
  | OIncref (f : Z)
  | OClose (f : Z)
  | OOpendir (dir : Z)
  | OReaddir (r n : Z)
  | OClosedir (r : Z).

Definition do_op {R} (o : fop) : fcall R Z :=
  match o with
  | OTree user uid gid mode now => alloctree user uid gid mode now
  | OCreate fp name uid perm aux now => createfile fp name uid perm aux now
  | ORemove f => removefile f
  | OWalk dir elem => walkfile1 dir elem
  | OIncref f => incref f;; cret 0
  | OClose f => closefile f;; cret 0
  | OOpendir dir => opendirfile dir
  | OReaddir r n => x <- readdirfile r n;; cret x.1
  | OClosedir r => closedirfile r;; cret 0
  end.

(** The references that the server holds after an operation that returned [v]:
    a file that is returned comes with one, [removefile], [walkfile1] and
    [closefile] take one. *)
Definition refs_after (o : fop) (v : Z) (ext : Z -> Z) : Z -> Z :=
  match o with
  | OCreate _ _ _ _ _ _ => if decide (v = 0) then ext else upd ext v 1
  | ORemove f | OClose f => upd ext f (-1)
  | OWalk dir _ => if decide (v = 0) then upd ext dir (-1) else upd (upd ext v 1) dir (-1)
  | OIncref f => upd ext f 1
  | _ => ext
  end.

(** What an operation asks of the server: to hold a reference to the file that it
    names, and one more for each reader that is open on a file whose reference it
    gives up; a new name that is not in use needs no check. *)
Definition may_op (s : fheap) (ext : Z -> Z) (o : fop) : Prop :=
  match o with
  | OTree _ _ _ _ _ => True
  | OCreate fp _ _ _ _ _ => 0 < ext fp
  | ORemove f | OClose f => nrd s f < ext f
  | OWalk dir elem => nrd s dir < ext dir /\
      (elem = dotdot -> exists d, files s !! dir = Some d /\ f_parent d <> 0)
  | OIncref f => 0 < ext f \/ exists t to, trees s !! t = Some to /\ t_root to = f
  | OOpendir dir => nrd s dir < ext dir
  | OReaddir r n => is_Some (rds s !! r) /\ 0 <= n
  | OClosedir r => is_Some (rds s !! r)
  end /\ (forall g go, files s !! g = Some go -> f_ref go < 2 ^ 31 - 1).

(** ** The invariant of the library *)

(** The names in a directory are distinct. *)
Definition uniq (s : fheap) (K : Z -> list (Z * Z)) : Prop :=
  forall d c c' co co', c ∈ nz (K d) -> c' ∈ nz (K d) -> files s !! c = Some co -> files s !! c' = Some co' ->
    v_name (f_dir co) = v_name (f_dir co') -> c = c'.

(** The root of a tree is its own parent. *)
Definition roots (s : fheap) : Prop :=
  forall t x, trees s !! t = Some x -> exists fo, files s !! t_root x = Some fo /\ f_parent fo = t_root x.

Definition fwf (s : fheap) (ext : Z -> Z) (K : Z -> list (Z * Z)) : Prop := finv s ext K /\ uniq s K /\ roots s.

(** A file that is in use keeps its entry, and a root stays a root. *)
Definition evolves (s s' : fheap) : Prop :=
  forall g go, files s !! g = Some go -> f_ref go <> 0 -> exists go', files s' !! g = Some go' /\
    f_dir go' = f_dir go /\ (f_parent go = g -> f_parent go' = g).

Lemma child_live s ext K d c co : finv s ext K -> c ∈ nz (K d) -> files s !! c = Some co -> f_ref co <> 0.
Proof.
intros I Hc Hco. destruct (fi_child _ _ _ I d c Hc) as (_ & co' & Hco' & Hp). rewrite Hco in Hco'.
injection Hco' as <-. assert (d <> 0) as Hd.
{ intros ->. destruct (files s !! 0) as [y|] eqn:E0; [pose proof (fi_files _ _ _ I 0 y E0); lia|].
  destruct (fi_none _ _ _ I 0 E0) as [_ E]. rewrite E in Hc. by apply not_elem_of_nil in Hc. }
assert (0 < f_ref co); [|lia]. eapply ref_pos; [exact I|exact Hco|]. right. right. congruence.
Qed.

Lemma uniq_evolves s s' ext K K' : finv s ext K -> evolves s s' ->
  (forall d c, c ∈ nz (K' d) -> c ∈ nz (K d)) -> uniq s K -> uniq s' K'.
Proof.
intros I He HK Hu d c c' co co' Hc Hc' Hco Hco' Hn. apply HK in Hc, Hc'.
destruct (fi_child _ _ _ I d c Hc) as (_ & o & Ho & _). destruct (fi_child _ _ _ I d c' Hc') as (_ & o' & Ho' & _).
destruct (He c o Ho (child_live _ _ _ _ _ _ I Hc Ho)) as (x & Hx & Ex & _).
destruct (He c' o' Ho' (child_live _ _ _ _ _ _ I Hc' Ho')) as (x' & Hx' & Ex' & _).
apply (Hu d c c' o o'); try done. congruence.
Qed.

Lemma root_live s ext K t x fo : finv s ext K -> trees s !! t = Some x -> files s !! t_root x = Some fo ->
  f_parent fo = t_root x -> 0 < f_ref fo.
Proof.
intros I Ht Hf Hp. eapply ref_pos; [exact I|exact Hf|]. right. right. rewrite Hp.
pose proof (fi_files _ _ _ I _ fo Hf). lia.
Qed.

Lemma roots_evolves s s' ext K : finv s ext K -> evolves s s' ->
  (forall t x, trees s' !! t = Some x -> exists x0, trees s !! t = Some x0 /\ t_root x0 = t_root x) ->
  roots s -> roots s'.
Proof.
intros I He Ht Hr t x Hx. destruct (Ht t x Hx) as (x0 & Hx0 & E). destruct (Hr t x0 Hx0) as (fo & Hf & Hp).
pose proof (root_live _ _ _ _ _ _ I Hx0 Hf Hp) as Hpos. destruct (He _ fo Hf ltac:(lia)) as (fo' & Hf' & _ & Hp').
exists fo'. rewrite <- E. split; [done|by apply Hp'].
Qed.

Lemma fwf_evolves s s' ext ext' K K' : fwf s ext K -> finv s' ext' K' -> evolves s s' ->
  (forall d c, c ∈ nz (K' d) -> c ∈ nz (K d)) -> trees s' = trees s -> fwf s' ext' K'.
Proof.
intros (I & U & Hr) I' He HK Et. split; [done|]. split; [exact (uniq_evolves s s' ext K K' I He HK U)|].
apply (roots_evolves s s' ext K I He); [|done]. intros t x Hx. exists x. by rewrite <- Et.
Qed.

Lemma keeps_evolves s s' : keeps s s' -> evolves s s'.
Proof. intros (H & _) g go Hg _. destruct (H g go Hg) as (go' & ? & ? & ? & _). exists go'. split_and!; congruence. Qed.

Lemma keeps_dirs_evolves s s' : keeps_dirs s s' -> evolves s s'.
Proof. intros (H & _) g go Hg _. destruct (H g go Hg) as (go' & ? & ? & ? & _). exists go'. split_and!; congruence. Qed.

Lemma keeps_live_evolves s s' : keeps_live s s' -> evolves s s'.
Proof. intros (H & _) g go Hg Hr. destruct (H g go Hg Hr) as (go' & ? & ? & ? & _). exists go'. split_and!; congruence. Qed.

Lemma keeps_but_evolves s s' f fo : files s !! f = Some fo -> f_parent fo <> f -> keeps_but f s s' -> evolves s s'.
Proof.
intros Hf Hp (H & _) g go Hg _. destruct (H g go Hg) as (go' & Hg' & Hd & Hpar & _). exists go'.
split; [done|]. split; [done|]. intros E. destruct (decide (g = f)) as [->|Hne]; [congruence|].
by rewrite Hpar.
Qed.

Lemma sub_of_eq (K K' : Z -> list (Z * Z)) : (forall d, nz (K' d) = nz (K d)) ->
  forall d c, c ∈ nz (K' d) -> c ∈ nz (K d).
Proof. intros H d c. by rewrite H. Qed.

Lemma evolves_refl s : evolves s s.
Proof. intros g go Hg _. by exists go. Qed.

(** ** Every operation *)

Definition op_ok {R} (s : fheap) (ext : Z -> Z) (o : fop) : Prop :=
  exists v s' K', do_op (R := R) o s = (Go v, s') /\ fwf s' (refs_after o v ext) K'.

Section Steps.
Context {R : Type} (s : fheap) (ext : Z -> Z) (K : Z -> list (Z * Z)) (W : fwf s ext K).

Lemma tree_ok user uid gid mode now : op_ok (R := R) s ext (OTree user uid gid mode now).
Proof.
destruct W as (I & U & Hr).
destruct (alloctree_spec (R := R) s ext K user uid gid mode now I)
  as (t & f & s' & fo & E & I' & Et & Htn & Hf & H1 & H2 & H3 & H4 & Hlive & _).
assert (evolves s s') as He.
{ intros g go Hg Hz. destruct (Hlive g go Hg Hz) as [_ Hg']. by exists go. }
exists t, s', K. split; [exact E|]. split; [done|]. split; [exact (uniq_evolves s s' ext K K I He (fun _ _ H => H) U)|].
intros t' x. rewrite Et. destruct (decide (t' = t)) as [->|Hne].
- rewrite lookup_insert_eq. intros [= <-]. by exists fo.
- rewrite lookup_insert_ne by done. intros Hx. destruct (Hr t' x Hx) as (go & Hg & Hp).
  pose proof (root_live _ _ _ _ _ _ I Hx Hg Hp). destruct (Hlive _ go Hg ltac:(lia)) as [_ Hg']. by exists go.
Qed.

Lemma create_uniq s' ext' K' fp f fo' name fl : finv s' ext' K' -> evolves s s' ->
  files s' !! f = Some fo' -> v_name (f_dir fo') = name -> K' fp = K fp ++ [(fl, f)] ->
  (forall d, d <> fp -> K' d = K d) -> (forall c, c ∈ nz (K fp) -> ~ named s name c) -> uniq s' K'.
Proof.
intros I' He Hf Hn HKp HK Hno. destruct W as (I & U & _). intros d.
destruct (decide (d = fp)) as [->|Hd].
2:{ rewrite !HK by done. intros c c'. apply (uniq_evolves s s' ext K K I He (fun _ _ H => H) U). }
assert (forall c co, c ∈ nz (K fp) -> files s' !! c = Some co -> v_name (f_dir co) <> name) as Hold.
{ intros c co Hc Hco Hcn. destruct (fi_child _ _ _ I fp c Hc) as (_ & o & Ho & _).
  destruct (He c o Ho (child_live _ _ _ _ _ _ I Hc Ho)) as (x & Hx & Ex & _).
  apply (Hno c Hc). exists o. split; [done|]. congruence. }
assert (forall c, c ∈ nz (K' fp) -> c ∈ nz (K fp) \/ c = f) as Hin.
{ intros c. rewrite HKp, nz_app, elem_of_app, nz_cons. case_decide; [rewrite list_elem_of_singleton|]; [tauto|].
  intros [?|H0]; [by left|by apply not_elem_of_nil in H0]. }
intros c c' co co' Hc Hc' Hco Hco' E.
destruct (Hin c Hc) as [H1| ->], (Hin c' Hc') as [H2| ->].
- exact (uniq_evolves s s' ext K K I He (fun _ _ H => H) U fp c c' co co' H1 H2 Hco Hco' E).
- exfalso. apply (Hold c co H1 Hco). congruence.
- exfalso. apply (Hold c' co' H2 Hco'). congruence.
- done.
Qed.

Lemma named_dec name fp : (exists c, c ∈ nz (K fp) /\ named s name c) \/ (forall c, c ∈ nz (K fp) -> ~ named s name c).
Proof.
destruct (decide (Exists (fun c => (fun o => v_name (f_dir o)) <$> files s !! c = Some name) (nz (K fp)))) as [H|H].
- left. apply list.Exists_exists in H as (c & Hc & Hn). exists c. split; [done|].
  destruct (files s !! c) as [co|] eqn:E; [|done]. exists co. split; [done|]. cbn in Hn. congruence.
- right. intros c Hc (co & Hco & Hn). apply H. apply list.Exists_exists. exists c. split; [done|].
  rewrite Hco. cbn. congruence.
Qed.

Lemma create_ok fp name uid perm aux now : may_op s ext (OCreate fp name uid perm aux now) ->
  op_ok (R := R) s ext (OCreate fp name uid perm aux now).
Proof.
intros [He Hb]. destruct W as (I & U & Hr). destruct (held_file _ _ _ _ I He) as (po & Hpo & Hpos).
assert (Z.land (q_type (v_qid (f_dir po))) QTDIR = 0 \/ (exists c, c ∈ nz (K fp) /\ named s name c) ->
  op_ok (R := R) s ext (OCreate fp name uid perm aux now)) as Hrefuse.
{ intros H. destruct (createfile_refuses (R := R) s ext K fp po name uid perm aux now I Hpo ltac:(lia) H) as [e E].
  exists 0, (set_errstr e s), K. split; [exact E|]. split; [by apply finv_errstr|done]. }
destruct (decide (Z.land (q_type (v_qid (f_dir po))) QTDIR = 0)) as [Hd|Hd]; [by apply Hrefuse; left|].
destruct (named_dec name fp) as [Hn|Hn]; [by apply Hrefuse; right|].
destruct (createfile_spec (R := R) s ext K fp po name uid perm aux now I Hpo) as
  (f & s' & K' & fo' & to & E & Hf0 & I' & Hk & Hf & Hp & Hto & Hdir & [fl HKp] & HK & Hdead & Htr); try done.
{ specialize (Hb fp po Hpo). lia. }
exists f, s', K'. split; [exact E|]. cbn [refs_after]. rewrite decide_False by done.
pose proof (keeps_live_evolves _ _ Hk) as Hev. split; [done|]. split.
- eapply (create_uniq s' _ K' fp f fo' name fl); try done. by rewrite Hdir.
- exact (roots_evolves s s' ext K I Hev Htr Hr).
Qed.

Lemma close_ok f : may_op s ext (OClose f) -> op_ok (R := R) s ext (OClose f).
Proof.
intros [He _]. pose proof (nrd_nonneg s f). destruct (closefile_spec (R := R) s ext K f) as (s' & K' & E & I' & Hk & HK);
  [apply W|lia|lia|].
exists 0, s', K'. split; [cbn [do_op]; by rewrite (cbind_go _ _ _ _ _ E)|].
eapply fwf_evolves; [exact W|exact I'|by apply keeps_evolves|by apply sub_of_eq|apply Hk].
Qed.

Lemma remove_ok f : may_op s ext (ORemove f) -> op_ok (R := R) s ext (ORemove f).
Proof.
intros [He Hb]. pose proof (nrd_nonneg s f). pose proof W as (I & _).
destruct (held_file s ext K f I ltac:(lia)) as (fo & Hf & Hpos).
destruct (decide (f_parent fo = 0 \/ f_parent fo = f \/ f_nchild fo <> 0)) as [Hn|Hn].
- destruct (removefile_refuses (R := R) s ext K f fo I Hf ltac:(lia) ltac:(lia) Hn) as (s' & K' & E & I' & Hk & HK).
  exists (-1), s', K'. split; [exact E|].
  eapply fwf_evolves; [exact W|exact I'|by apply keeps_evolves|by apply sub_of_eq|apply Hk].
- destruct (removefile_removes (R := R) s ext K f fo I Hf ltac:(lia) ltac:(lia) Hn)
    as (s' & K' & fo' & E & I' & Hk & _ & _ & HK).
  exists 0, s', K'. split; [exact E|]. eapply fwf_evolves; [exact W|exact I'| | |apply Hk].
  + eapply keeps_but_evolves; [exact Hf| |exact Hk]. intros Hp. apply Hn. by right; left.
  + intros d c Hc. by apply HK in Hc as [? _].
Qed.

Lemma walk_ok dir elem : may_op s ext (OWalk dir elem) -> op_ok (R := R) s ext (OWalk dir elem).
Proof.
intros [[He Hdd] Hb]. pose proof (nrd_nonneg s dir). pose proof W as (I & _).
destruct (held_file s ext K dir I ltac:(lia)) as (d & Hd & Hpos).
destruct (decide (elem = dotdot)) as [->|Hne].
- destruct (Hdd eq_refl) as (d' & Hd' & Hp). rewrite Hd in Hd'. injection Hd' as <-.
  destruct (parent_file _ _ _ _ _ I Hd Hp) as (po & Hpo & _).
  destruct (walkfile1_parent (R := R) s ext K dir d po I Hd ltac:(lia) ltac:(lia) Hpo Hp (Hb _ _ Hpo))
    as (s' & K' & E & I' & Hk & HK).
  exists (f_parent d), s', K'. split; [exact E|]. cbn [refs_after]. rewrite decide_False by done.
  eapply fwf_evolves; [exact W|exact I'|by apply keeps_evolves|by apply sub_of_eq|apply Hk].
- destruct (walkfile1_child (R := R) s ext K dir d elem I Hd ltac:(lia) ltac:(lia) Hne)
    as (s' & K' & HK & Hk & H'); [by intros c co _ Hco _; apply (Hb c co)|].
  destruct H' as [(E & I' & _)|(c & Hc & _ & E & I')].
  + exists 0, s', K'. split; [exact E|]. eapply fwf_evolves; [exact W|exact I'|by apply keeps_evolves|by apply sub_of_eq|apply Hk].
  + exists c, s', K'. split; [exact E|]. cbn [refs_after]. apply elem_of_nz in Hc as [Hc0 _].
    rewrite decide_False by done.
    eapply fwf_evolves; [exact W|exact I'|by apply keeps_evolves|by apply sub_of_eq|apply Hk].
Qed.

Lemma incref_ok f : may_op s ext (OIncref f) -> op_ok (R := R) s ext (OIncref f).
Proof.
intros [He Hb]. pose proof W as (I & U & Hr). assert (exists fo, files s !! f = Some fo /\ 0 < f_ref fo) as (fo & Hf & Hpos).
{ destruct He as [He|(t & x & Ht & <-)]; [by apply (held_file _ _ _ _ I)|].
  destruct (Hr t x Ht) as (fo & Hf & Hp). exists fo. split; [done|]. by eapply root_live. }
destruct (incref_spec (R := R) s ext K f fo I Hf) as [E I']; [specialize (Hb f fo Hf); lia|].
eexists 0, _, K. split; [cbn [do_op]; by rewrite (cbind_go _ _ _ _ _ E)|].
eapply fwf_evolves; [exact W|exact I'| |done|done]. apply keeps_evolves. by apply (keeps_set s f fo).
Qed.

Lemma opendir_ok dir : may_op s ext (OOpendir dir) -> op_ok (R := R) s ext (OOpendir dir).
Proof.
intros [He Hb]. pose proof (nrd_nonneg s dir). pose proof W as (I & _).
destruct (held_file s ext K dir I ltac:(lia)) as (d & Hd & Hpos).
destruct (decide (Z.land (v_mode (f_dir d)) DMDIR = 0)) as [Hm|Hm].
- exists 0, s, K. split; [|exact W]. cbn [do_op]. unfold opendirfile, ccall.
  rewrite (cbind_go _ _ _ _ _ (fget_go dir s d Hd ltac:(alive))). by rewrite decide_True.
- destruct (opendirfile_spec (R := R) s ext K dir d I Hd He Hm) as (r & s' & E & I' & Hk & _).
  exists r, s', K. split; [exact E|].
  eapply fwf_evolves; [exact W|exact I'|by apply keeps_dirs_evolves|done|apply Hk].
Qed.

Lemma readdir_ok r n : may_op s ext (OReaddir r n) -> op_ok (R := R) s ext (OReaddir r n).
Proof.
intros [[[ro Hr] Hn] _]. pose proof W as (I & _).
destruct (suffix_at (K (rd_dir ro)) (rd_fl ro) (fi_rd _ _ _ I r ro Hr)) as (P0 & ns & HK & Hfl).
destruct (readdirfile_spec (R := R) s ext K r ro P0 ns n I Hr Hn HK Hfl) as (P & Q & junk & s' & _ & _ & _ & E & I' & Es).
eexists _, s', K. split; [cbn [do_op]; by rewrite (cbind_go _ _ _ _ _ E)|].
subst s'. eapply fwf_evolves; [exact W|exact I'| |done|done]. intros g go Hg _. by exists go.
Qed.

Lemma closedir_ok r : may_op s ext (OClosedir r) -> op_ok (R := R) s ext (OClosedir r).
Proof.
intros [[ro Hr] _]. pose proof W as (I & _).
destruct (closedirfile_spec (R := R) s ext K r ro I Hr) as (s' & K' & E & I' & Hk & _ & HK).
exists 0, s', K'. split; [cbn [do_op]; by rewrite (cbind_go _ _ _ _ _ E)|].
eapply fwf_evolves; [exact W|exact I'|by apply keeps_dirs_evolves|by apply sub_of_eq|apply Hk].
Qed.
End Steps.

Lemma every_op_ok {R} s ext K o : fwf s ext K -> may_op s ext o -> op_ok (R := R) s ext o.
Proof.
intros W. destruct o; [intros _; by eapply tree_ok|by eapply create_ok|by eapply remove_ok|by eapply walk_ok|
  by eapply incref_ok|by eapply close_ok|by eapply opendir_ok|by eapply readdir_ok|by eapply closedir_ok].
Qed.

(** ** Sequences of operations *)

Fixpoint run_ops (ops : list fop) (s : fheap) (ext : Z -> Z) : option (fheap * (Z -> Z)) :=
  match ops with
  | [] => Some (s, ext)
  | o :: ops' =>
      match do_op (R := Z) o s with
      | (Go v, s') => run_ops ops' s' (refs_after o v ext)
      | _ => None
      end
  end.

(** Every operation may be called when its turn comes. *)
Fixpoint legal (ops : list fop) (s : fheap) (ext : Z -> Z) : Prop :=
  match ops with
  | [] => True
  | o :: ops' =>
      may_op s ext o /\
      match do_op (R := Z) o s with
      | (Go v, s') => legal ops' s' (refs_after o v ext)
      | _ => True
      end
  end.

Lemma run_ops_ok ops s ext K : fwf s ext K -> legal ops s ext ->
  exists s' ext' K', run_ops ops s ext = Some (s', ext') /\ fwf s' ext' K'.
Proof.
revert s ext K; induction ops as [|o ops IH]; intros s ext K W; cbn [legal run_ops].
- intros _. by exists s, ext, K.
- intros [Hm Hl]. destruct (every_op_ok (R := Z) s ext K o W Hm) as (v & s' & K' & E & W').
  rewrite E in *. by eapply IH.
Qed.

Lemma fwf_init : fwf init_heap (fun _ => 0) (fun _ => []).
Proof. split; [apply finv_init|]. split; [|done]. intros d c c' co co' H. by apply not_elem_of_nil in H. Qed.

(** [may_op] as a test. *)
Definition may_opb (s : fheap) (ext : Z -> Z) (o : fop) : bool :=
  match o with
  | OTree _ _ _ _ _ => true
  | OCreate fp _ _ _ _ _ => bool_decide (0 < ext fp)
  | ORemove f | OClose f => bool_decide (nrd s f < ext f)
  | OWalk dir elem => bool_decide (nrd s dir < ext dir) &&
      (bool_decide (elem <> dotdot) ||
       match files s !! dir with Some d => bool_decide (f_parent d <> 0) | None => false end)
  | OIncref f => bool_decide (0 < ext f) || bool_decide (map_Exists (fun _ to => t_root to = f) (trees s))
  | OOpendir dir => bool_decide (nrd s dir < ext dir)
  | OReaddir r n => bool_decide (is_Some (rds s !! r)) && bool_decide (0 <= n)
  | OClosedir r => bool_decide (is_Some (rds s !! r))
  end && bool_decide (map_Forall (fun _ go => f_ref go < 2 ^ 31 - 1) (files s)).

Fixpoint legalb (ops : list fop) (s : fheap) (ext : Z -> Z) : bool :=
  match ops with
  | [] => true
  | o :: ops' =>
      may_opb s ext o &&
      match do_op (R := Z) o s with
      | (Go v, s') => legalb ops' s' (refs_after o v ext)
      | _ => true
      end
  end.

Lemma may_opb_sound s ext o : may_opb s ext o = true -> may_op s ext o.
Proof.
unfold may_opb, may_op. intros [H1 H2]%andb_true_iff. apply bool_decide_eq_true in H2.
split; [|by intros g go Hg; apply (H2 g go)]. destruct o; try (by apply bool_decide_eq_true in H1); try done.
- apply andb_true_iff in H1 as [Ha Hb]. apply bool_decide_eq_true in Ha. split; [done|]. intros ->.
  apply orb_true_iff in Hb as [Hb|Hb]; [by apply bool_decide_eq_true in Hb|].
  destruct (files s !! dir) as [d|]; [|done]. exists d. split; [done|]. by apply bool_decide_eq_true in Hb.
- apply orb_true_iff in H1 as [H1|H1]; apply bool_decide_eq_true in H1; [by left|right].
  destruct H1 as (t & to & Ht & E). by exists t, to.
- apply andb_true_iff in H1 as [Ha Hb]. by apply bool_decide_eq_true in Ha, Hb.
Qed.

Lemma legalb_sound ops s ext : legalb ops s ext = true -> legal ops s ext.
Proof.
revert s ext; induction ops as [|o ops IH]; intros s ext; cbn [legal legalb]; [done|].
intros [H1 H2]%andb_true_iff. split; [by apply may_opb_sound|]. destruct (do_op o s) as [[v| | |] s']; try done.
by apply IH.
Qed.

(** C11: a server that calls the library as it may never makes it use a freed object
    (a [File] on the free list, whose strings are freed, included) or fail an
    assertion; after every such sequence of calls the count of each file is the
    number of its holders outside, of its children and of its parent, the lists hold
    each child once, names in a directory are distinct, and every file that the
    server holds is alive and not on the free list. As it may: it names only files
    that it holds (one reference more than its open readers of a file when it gives
    one up) and readers that are open, walks to ".." only from a file that is in a
    tree, and keeps the counts below the limit of an int; the calls are those of
    [fop], without [walkfile] on a path with a slash and [freetree]. *)
Theorem file_api_keeps_refcounts ops :
  legal ops init_heap (fun _ => 0) ->
  exists s ext K, run_ops ops init_heap (fun _ => 0) = Some (s, ext) /\ fwf s ext K /\
    (forall f, 0 < ext f -> exists fo, files s !! f = Some fo /\ 0 < f_ref fo /\ f_free fo = false).
Proof.
intros Hl. destruct (run_ops_ok ops _ _ _ fwf_init Hl) as (s & ext & K & E & W).
exists s, ext, K. split; [done|]. split; [done|]. intros f Hf. pose proof W as (I & _).
destruct (held_file s ext K f I Hf) as (fo & Hfo & Hr). exists fo. split; [done|]. split; [done|]. alive.
Qed.

(** A tree with a directory and two files in it: the directory is read while a
    file is removed, then all is given back. *)
Definition example_ops : list fop :=
  [OTree [117] None None 493 0; OIncref 2; OIncref 2; OCreate 2 [97] None (Z.lor DMDIR 493) 0 0;
   OCreate 3 [98] None 420 0 0; OCreate 3 [99] None 420 0 0; OCreate 3 [99] None 420 0 0;
   OOpendir 3; OReaddir 21 100; ORemove 4; OReaddir 21 100; OWalk 2 [97]; OWalk 3 [99]; OWalk 5 dotdot;
   OClosedir 21; OClose 3; OClose 5; OClose 2].

Lemma file_api_keeps_refcounts_witness : exists s ext K,
  run_ops example_ops init_heap (fun _ => 0) = Some (s, ext) /\ fwf s ext K /\
    (forall f, 0 < ext f -> exists fo, files s !! f = Some fo /\ 0 < f_ref fo /\ f_free fo = false).
Proof. apply file_api_keeps_refcounts, legalb_sound. vm_compute. reflexivity. Defined.

(** ** createfile and removefile, functionally *)

(** Two counts to spare everywhere. *)
Definition spare (s : fheap) : Prop := forall g go, files s !! g = Some go -> f_ref go < 2 ^ 31 - 3.

(** A file that is in use keeps its parent. *)
Definition evolves_place (s s' : fheap) : Prop :=
  forall g go, files s !! g = Some go -> f_ref go <> 0 -> exists go', files s' !! g = Some go' /\
    f_parent go' = f_parent go.

Lemma created_child_bound s s' ext K K' fp f fl c co : finv s ext K -> finv s' (upd ext f 1) K' ->
  evolves_place s s' -> spare s -> (exists po, files s !! fp = Some po /\ f_ref po <> 0) ->
  K' fp = K fp ++ [(fl, f)] -> (forall d, d <> fp -> K' d = K d) ->
  (forall fo, files s !! f = Some fo -> f_ref fo = 0) -> c ∈ nz (K' fp) -> files s' !! c = Some co ->
  f_ref co < 2 ^ 31 - 1.
Proof.
intros I I' He Hb (po & Hpo & Hr) HKp HK Hdead Hc Hco. rewrite (fi_ref _ _ _ I' c co Hco). pose proof (pref_range co).
assert (f <> fp) as Hne by (intros ->; by apply Hr, Hdead).
assert (ext f = 0 /\ K f = []) as [Hx HKf].
{ destruct (files s !! f) as [fo|] eqn:E; [|by apply (fi_none _ _ _ I)].
  destruct (dead_facts _ _ _ _ _ I E (Hdead fo eq_refl)) as (? & ? & _). done. }
destruct (decide (c = f)) as [->|Hcf].
{ rewrite upd_eq, Hx. unfold kids. rewrite HK, HKf by done. cbn. lia. }
assert (c ∈ nz (K fp)) as Hcold.
{ revert Hc. rewrite HKp, nz_app, elem_of_app, nz_cons. case_decide; [rewrite list_elem_of_singleton|]; [tauto|].
  intros [Hx1|Hx1]; [done|by apply not_elem_of_nil in Hx1]. }
destruct (fi_child _ _ _ I fp c Hcold) as (Hcp & co0 & Hco0 & _).
pose proof (child_live _ _ _ _ _ _ I Hcold Hco0) as Hl. destruct (He c co0 Hco0 Hl) as (co1 & Hco1 & Hp1).
rewrite Hco in Hco1. injection Hco1 as <-. specialize (Hb c co0 Hco0). rewrite (fi_ref _ _ _ I c co0 Hco0) in Hb.
rewrite upd_ne by done. unfold kids in *. rewrite HK by done. unfold pref in *. rewrite Hp1. lia.
Qed.

(** C24: [createfile] refuses, without a change to the files, in a file that is not
    a directory and for a name that is in use; otherwise the new file has the
    entry asked for, whose qid has the next path of the tree and the three high bits
    of the permissions as its type, and a walk from the directory to the name reaches
    the file, unless the name is "..", which [createfile] accepts and every walk takes
    for the parent. The caller holds the directory, and no count is near the limit of
    an int. *)
Theorem createfile_then_walk s ext K fp po name uid perm aux now : fwf s ext K -> files s !! fp = Some po ->
  nrd s fp < ext fp -> spare s ->
  exists v s', createfile (R := Z) fp name uid perm aux now s = (Go v, s') /\
    ((v = 0 /\ files s' = files s /\
      (Z.land (q_type (v_qid (f_dir po))) QTDIR = 0 \/ exists c, c ∈ nz (K fp) /\ named s name c)) \/
     (v <> 0 /\ Z.land (q_type (v_qid (f_dir po))) QTDIR <> 0 /\ (forall c, c ∈ nz (K fp) -> ~ named s name c) /\
      (exists fo to, files s' !! v = Some fo /\ trees s !! f_tree po = Some to /\
         f_dir fo = new_entry po (t_qidgen to) name uid perm now /\ f_parent fo = fp) /\
      (name <> dotdot -> exists s'', walkfile1 (R := Z) fp name s' = (Go v, s'')))).
Proof.
intros W Hpo He Hb. pose proof W as (I & U & Hr). pose proof (nrd_nonneg s fp) as Hnn.
assert (0 < f_ref po) as Hpos by (eapply ref_pos; [exact I|exact Hpo|left; lia]).
assert (Hrefuse : Z.land (q_type (v_qid (f_dir po))) QTDIR = 0 \/ (exists c, c ∈ nz (K fp) /\ named s name c) ->
  exists e, createfile (R := Z) fp name uid perm aux now s = (Go 0, set_errstr e s)).
{ apply (createfile_refuses s ext K fp po); [exact I|exact Hpo|lia]. }
destruct (decide (Z.land (q_type (v_qid (f_dir po))) QTDIR = 0)) as [Hd|Hd].
{ destruct (Hrefuse (or_introl Hd)) as [e E]. eexists _, _. split; [exact E|]. left. auto. }
destruct (named_dec s K name fp) as [Hn|Hn].
{ destruct (Hrefuse (or_intror Hn)) as [e E]. eexists _, _. split; [exact E|]. left. auto. }
pose proof (Hb fp po Hpo) as Hbp.
destruct (createfile_spec (R := Z) s ext K fp po name uid perm aux now I Hpo) as
  (f & s' & K' & fo & to & E & Hf0 & I' & Hk & Hf & Hp & Hto & Hdir & [fl HKp] & HK & Hdead & Htr); try done; [lia|].
exists f, s'. split; [exact E|]. right. split; [done|]. split; [done|]. split; [done|].
split; [by exists fo, to|]. intros Hnd. destruct Hk as [Hk Hrd]. destruct (Hk fp po Hpo ltac:(lia)) as (po' & Hpo' & _).
assert (U' : uniq s' K').
{ eapply (create_uniq s ext K W s' _ K' fp f fo name fl); try done; [by apply keeps_live_evolves; split|by rewrite Hdir]. }
destruct (walkfile1_child (R := Z) s' _ K' fp po' name I' Hpo') as (s'' & K'' & _ & _ & H'); try done.
{ unfold upd. case_decide; lia. }
{ rewrite (nrd_rds _ _ _ Hrd). unfold upd. case_decide; lia. }
{ intros c co Hc Hco _. apply (created_child_bound s s' ext K K' fp f fl c co); try done.
  - intros g go Hg Hgr. destruct (Hk g go Hg Hgr) as (go' & ? & _ & ? & _). by exists go'.
  - exists po. split; [done|lia]. }
assert (f ∈ nz (K' fp)) as Hin by (rewrite HKp, nz_app, nz_cons, decide_True by done; apply elem_of_app; right; by left).
assert (named s' name f) as Hnf by (exists fo; split; [done|by rewrite Hdir]).
destruct H' as [(_ & _ & Hno)|(c & Hc & (co & Hco & Hcn) & Ew & _)]; [by destruct (Hno f Hin)|].
assert (c = f) as ->; [|by exists s''].
apply (U' fp c f co fo Hc Hin Hco Hf). rewrite Hcn. destruct Hnf as (fo' & Hfo' & Hnf). congruence.
Qed.

(** A tree whose root the server holds twice. *)
Definition root_ops : list fop := [OTree [117] None None 493 0; OIncref 2; OIncref 2].
Definition after (ops : list fop) : fheap * (Z -> Z) := default (init_heap, fun _ => 0) (run_ops ops init_heap (fun _ => 0)).

Lemma after_wf ops : legalb ops init_heap (fun _ => 0) = true -> exists K, fwf (after ops).1 (after ops).2 K.
Proof.
intros H. destruct (run_ops_ok ops _ _ _ fwf_init (legalb_sound _ _ _ H)) as (s & ext & K & E & W).
exists K. unfold after. by rewrite E.
Qed.

Lemma spareb s : bool_decide (map_Forall (fun _ go => f_ref go < 2 ^ 31 - 3) (files s)) = true -> spare s.
Proof. intros H g go Hg. apply bool_decide_eq_true in H. by apply (H g go). Qed.

Lemma createfile_then_walk_witness : exists v s',
  createfile (R := Z) 2 [97] None (Z.lor DMDIR 493) 0 0 (after root_ops).1 = (Go v, s').
Proof.
destruct (after_wf root_ops ltac:(by vm_compute)) as [K W].
destruct (createfile_then_walk _ _ K 2 (default zero_file (files (after root_ops).1 !! 2)) [97] None (Z.lor DMDIR 493) 0 0 W)
  as (v & s' & E & _).
- vm_compute. reflexivity.
- vm_compute. reflexivity.
- apply spareb. vm_compute. reflexivity.
- exists v, s'. exact E.
Defined.

(** C25: [removefile] of a file whose name is not ".." gives the reference up in every case. It refuses, and leaves
    every file where it is, exactly for a file outside the tree, the root and a
    file with children; otherwise the file leaves the tree (a walk from its old
    parent to its name finds nothing, whoever still holds it), and the file that
    is still held stays alive. *)
Theorem removefile_then_walk s ext K f fo : fwf s ext K -> files s !! f = Some fo -> nrd s f < ext f ->
  v_name (f_dir fo) <> dotdot ->
  exists v s' K', removefile (R := Z) f s = (Go v, s') /\ fwf s' (upd ext f (-1)) K' /\
    ((v = -1 /\ not_removable s f fo /\ keeps s s') \/
     (v = 0 /\ ~ not_removable s f fo /\
      (exists fo', files s' !! f = Some fo' /\ f_parent fo' = 0 /\ (1 < ext f -> 0 < f_ref fo')) /\
      (nrd s (f_parent fo) < ext (f_parent fo) ->
       exists s'', walkfile1 (R := Z) (f_parent fo) (v_name (f_dir fo)) s' = (Go 0, s'')))).
Proof.
intros W Hf He Hnd. pose proof W as (I & U & Hr). pose proof (nrd_nonneg s f) as Hnn.
destruct (decide (f_parent fo = 0 \/ f_parent fo = f \/ f_nchild fo <> 0)) as [Hn|Hn].
{ destruct (removefile_refuses (R := Z) s ext K f fo I Hf ltac:(lia) ltac:(lia) Hn) as (s' & K' & E & I' & Hk & HK).
  exists (-1), s', K'. split; [exact E|]. split; [|by left].
  eapply fwf_evolves; [exact W|exact I'|by apply keeps_evolves|by apply sub_of_eq|apply Hk]. }
destruct (removefile_removes (R := Z) s ext K f fo I Hf ltac:(lia) ltac:(lia) Hn)
  as (s' & K' & fo' & E & I' & Hk & Hf' & Hp' & HK).
assert (f_parent fo <> 0 /\ f_parent fo <> f) as [Hp0 Hpf] by (split; intros H; apply Hn; auto).
pose proof (keeps_but_evolves s s' f fo Hf Hpf Hk) as Hev.
assert (W' : fwf s' (upd ext f (-1)) K').
{ eapply fwf_evolves; [exact W|exact I'|exact Hev| |apply Hk]. intros d c Hc. by apply HK in Hc as [? _]. }
exists 0, s', K'. split; [exact E|]. split; [exact W'|]. right. split; [done|]. split; [done|]. split.
{ exists fo'. split; [done|]. split; [done|]. intros H1. eapply ref_pos; [exact I'|exact Hf'|]. left. rewrite upd_eq. lia. }
intros Hep. set (p := f_parent fo) in *. pose proof (nrd_nonneg s p).
destruct (held_file s ext K p I ltac:(lia)) as (po & Hpo & Hpos). destruct Hk as (Hk & Hrd & _).
destruct (Hk p po Hpo) as (po' & Hpo' & _).
assert (Hno : forall c, c ∈ nz (K' p) -> ~ named s' (v_name (f_dir fo)) c).
{ intros c Hc (co & Hco & Hcn). apply HK in Hc as [Hc Hcf].
  destruct (fi_child _ _ _ I p c Hc) as (_ & co0 & Hco0 & _). destruct (Hk c co0 Hco0) as (co1 & Hco1 & Hd1 & _).
  rewrite Hco in Hco1. injection Hco1 as <-. apply Hcf. split; [done|].
  apply (U p c f co0 fo); try done; [by apply (fi_parent _ _ _ I f fo)|congruence]. }
destruct (walkfile1_child (R := Z) s' _ K' p po' (v_name (f_dir fo)) I' Hpo') as (s'' & K'' & _ & _ & H'); try done.
- rewrite upd_ne by done. lia.
- rewrite (nrd_rds _ _ _ Hrd), upd_ne by done. lia.
- intros c co Hc Hco Hcn. exfalso. apply (Hno c Hc). by exists co.
- destruct H' as [(Ew & _)|(c & Hc & Hcn & _)]; [by exists s''|]. by destruct (Hno c Hc).
Qed.

Definition file_ops : list fop := root_ops ++ [OCreate 2 [97] None 420 0 0; OIncref 3].

Lemma removefile_then_walk_witness : exists v s', removefile (R := Z) 3 (after file_ops).1 = (Go v, s').
Proof.
destruct (after_wf file_ops ltac:(by vm_compute)) as [K W].
destruct (removefile_then_walk _ _ K 3 (default zero_file (files (after file_ops).1 !! 3)) W)
  as (v & s' & K' & E & _).
- vm_compute. reflexivity.
- vm_compute. reflexivity.
- vm_compute. discriminate.
- exists v, s'. exact E.
Defined.

(** ** Reading a directory *)

(** The reads of a reader, one for each size, and the bytes they return. *)
Fixpoint reads {R} (r : Z) (sizes : list Z) : fcall R bytes :=
  match sizes with
  | [] => cret []
  | n :: sizes' =>
      x <- readdirfile r n;;
      y <- reads r sizes';;
      cret (take (Z.to_nat x.1) x.2 ++ y)
  end.

Lemma entries_rds x s ns : entries (set_rds x s) ns = entries s ns.
Proof. done. Qed.

(** A buffer for every entry of the list. *)
Definition big_enough (s : fheap) (ns : list (Z * Z)) (n : Z) : Prop :=
  2 <= n /\ forall c, c ∈ nz ns -> dir_size (entry s c) <= n.

Lemma read_progress s n P Q : big_enough s (P ++ Q) n -> no_room s (n - zlen (entries s P)) Q ->
  nz P <> [] \/ nz Q = [].
Proof.
intros [H2 Hn] Hno. destruct (decide (nz P = [])) as [E|]; [right|by left].
assert (zlen (entries s P) = 0) as Hz by (unfold entries; by rewrite E).
destruct Q as [|[a c] Q]; [done|]. exfalso. cbn [no_room] in Hno. rewrite Hz in Hno.
destruct Hno as [H|[Hc H]]; [lia|].
specialize (Hn c). rewrite nz_app, elem_of_app, nz_cons, decide_True in Hn by done.
specialize (Hn (or_intror (list_elem_of_here _ _))). lia.
Qed.

Lemma reads_spec {R} sizes s ext K r ro P0 ns : finv s ext K -> rds s !! r = Some ro ->
  K (rd_dir ro) = P0 ++ ns -> rd_fl ro = hd_or ns 0 -> Forall (fun n => 0 <= n) sizes ->
  exists P Q s', ns = P ++ Q /\ reads (R := R) r sizes s = (Go (entries s P), s') /\ finv s' ext K /\
    (Forall (big_enough s ns) sizes -> (length (nz ns) <= length sizes)%nat -> nz Q = []).
Proof.
revert s ro P0 ns; induction sizes as [|n sizes IH]; intros s ro P0 ns I Hr HK Hfl Hn.
{ exists [], ns, s. split; [done|]. split; [done|]. split; [done|]. intros _ Hl. cbn in Hl. destruct (nz ns); [done|cbn in Hl; lia]. }
apply Forall_cons_1 in Hn as [Hn0 Hn].
destruct (readdirfile_spec (R := R) s ext K r ro P0 ns n I Hr Hn0 HK Hfl) as (P & Q & junk & s1 & -> & Hle & Hno & E & I1 & Es).
cbn [reads]. rewrite (cbind_go _ _ _ _ _ E). cbn [fst snd].
assert (take (Z.to_nat (zlen (entries s P))) (entries s P ++ junk) = entries s P) as Htake.
{ unfold zlen. by rewrite Nat2Z.id, take_app_length. }
rewrite Htake. assert (rds s1 !! r = Some (MkReaddir (rd_dir ro) (hd_or Q 0))) as Hr1 by (rewrite Es; cbn; by rewrite lookup_insert_eq).
destruct (IH s1 _ (P0 ++ P) Q I1 Hr1) as (P' & Q' & s2 & -> & E2 & I2 & Hall); try done.
{ cbn. by rewrite HK, <- app_assoc. }
rewrite (cbind_go _ _ _ _ _ E2). exists (P ++ P'), Q', s2. split; [by rewrite app_assoc|].
rewrite entries_app. split; [by rewrite Es|]. split; [done|]. intros Hbig Hl.
assert (forall m, big_enough s (P ++ P' ++ Q') m -> big_enough s1 (P' ++ Q') m) as Hsub.
{ intros m [Hm2 Hm]. split; [done|]. intros c Hc. rewrite Es. change (entry (set_rds _ s) c) with (entry s c).
  apply Hm. rewrite nz_app. apply elem_of_app. by right. }
apply Forall_cons_1 in Hbig as [Hb0 Hbig]. destruct (read_progress s n P (P' ++ Q') Hb0 Hno) as [HP|HQ].
- apply Hall; [exact (Forall_impl _ Hsub Hbig)|]. rewrite nz_app, length_app in Hl. cbn in Hl.
  destruct (nz P); [done|]. cbn in Hl. lia.
- rewrite nz_app in HQ. by apply app_eq_nil in HQ as [_ ?].
Qed.

(** C26: the reads of a directory return, without gap or repetition and in order, the
    marshalled entries of its files, each entry whole, whatever the sizes of the
    buffers; when every buffer has room for every entry and there are as many
    reads as files, they return them all. *)
Theorem readdir_reads_whole_entries s ext K dir d sizes : fwf s ext K -> files s !! dir = Some d ->
  nrd s dir < ext dir -> Z.land (v_mode (f_dir d)) DMDIR <> 0 -> Forall (fun n => 0 <= n) sizes ->
  exists r s1 s2 cs cs', opendirfile (R := Z) dir s = (Go r, s1) /\ r <> 0 /\ nz (K dir) = cs ++ cs' /\
    reads (R := Z) r sizes s1 = (Go (concat (enc_dir ∘ entry s <$> cs)), s2) /\
    (Forall (big_enough s (K dir)) sizes -> (length (nz (K dir)) <= length sizes)%nat -> cs' = []).
Proof.
intros (I & _) Hd Hn Hm Hs.
destruct (opendirfile_spec (R := Z) s ext K dir d I Hd Hn Hm) as (r & s1 & E & I1 & Hk & Er & _ & Hr0).
assert (rds s1 !! r = Some (MkReaddir dir (hd_or (K dir) 0))) as Hr by (rewrite Er; by rewrite lookup_insert_eq).
destruct (reads_spec (R := Z) sizes s1 ext K r _ [] (K dir) I1 Hr) as (P & Q & s2 & HK & E2 & I2 & Hall); try done.
assert (forall c, c ∈ nz (K dir) -> entry s1 c = entry s c) as Hent.
{ intros c Hc. destruct (fi_child _ _ _ I dir c Hc) as (_ & co & Hco & _). destruct Hk as [Hk _].
  destruct (Hk c co Hco) as (co' & Hco' & Hd' & _). unfold entry. by rewrite Hco, Hco'; cbn; rewrite Hd'. }
exists r, s1, s2, (nz P), (nz Q). split; [done|]. split; [done|]. split; [by rewrite HK, nz_app|]. split.
- rewrite E2. do 2 f_equal. unfold entries. f_equal. apply list_fmap_ext. intros i c Hc. cbn. f_equal. apply Hent.
  rewrite HK, nz_app. apply elem_of_app. left. by eapply list_elem_of_lookup_2.
- intros Hbig Hl. apply Hall; [|done]. eapply Forall_impl; [|exact Hbig]. intros n [H2 Hn']. split; [done|].
  intros c Hc. rewrite Hent by done. by apply Hn'.
Qed.

(** A directory with two files; the buffer of the second read has no room for an entry. *)
Definition dir_ops : list fop := root_ops ++ [OCreate 2 [97] None 420 0 0; OCreate 2 [98] None 420 0 0; OClose 3].

Lemma readdir_reads_whole_entries_witness : exists r s1 s2 out, opendirfile (R := Z) 2 (after dir_ops).1 = (Go r, s1) /\
  reads (R := Z) r [100; 20; 60] s1 = (Go out, s2).
Proof.
destruct (after_wf dir_ops ltac:(by vm_compute)) as [K W].
destruct (readdir_reads_whole_entries _ _ K 2 (default zero_file (files (after dir_ops).1 !! 2)) [100; 20; 60] W)
  as (r & s1 & s2 & cs & cs' & E & _ & _ & E2 & _).
- vm_compute. reflexivity.
- vm_compute. reflexivity.
- vm_compute. discriminate.
- repeat constructor; discriminate.
- eexists r, s1, s2, _. split; [exact E|exact E2].
Defined.

(** ** Where the library fails *)

(** [freetree] of a tree without files fails the assertion of [freefile] on the
    root: the root is its own parent, with a reference that nobody gives up. *)
Theorem freetree_of_empty_tree_aborts s ext K t x : fwf s ext K -> trees s !! t = Some x -> K (t_root x) = [] ->
  freetree (R := Z) t s = (Abt, set_destroyed (destroyed s ++ [t_root x]) s).
Proof.
intros (I & _ & Hr) Ht HK. destruct (Hr t x Ht) as (fo & Hf & Hp).
pose proof (root_live _ _ _ _ _ _ I Ht Hf Hp) as Hpos. set (f := t_root x) in *.
destruct (fi_list _ _ _ I f fo Hf ltac:(lia)) as [Hl _]. rewrite HK in Hl. cbn in Hl.
assert (exists n, (size (fls s) + size (files s))%nat = S n) as [n En].
{ assert (size (files s) <> 0%nat) as Hz.
  { apply map_size_non_empty_iff. intros E. by rewrite E in Hf. }
  exists (size (fls s) + size (files s) - 1)%nat. lia. }
unfold freetree. rewrite Ht, En. fold f.
assert (freefiles (R := Z) (S (S n)) f s = (Abt, set_destroyed (destroyed s ++ [f]) s)) as E.
{ cbn [freefiles]. rewrite (cbind_go _ _ _ _ _ (fget_go f s fo Hf ltac:(alive))). rewrite Hl.
  rewrite (cbind_go _ _ s tt s) by (by rewrite decide_True).
  unfold cbind at 1, cmodify at 1. set (s1 := set_destroyed _ s).
  assert (files s1 !! f = Some fo) as Hf1 by done. unfold freefile.
  rewrite (cbind_go _ _ _ _ _ (fget_go f s1 fo Hf1 ltac:(alive))), (cbind_go _ _ s1 _ s1 (flfuel_go s1)), Hl.
  rewrite (cbind_go _ _ s1 tt s1) by (cbn [freelist_loop]; by rewrite decide_True).
  rewrite decide_True by lia. done. }
unfold cbind at 1. by rewrite E.
Qed.

(** [walkfile] gives up the reference to a file in the middle of the path twice. A
    server that holds only references to the root makes a directory disappear
    under its child by walking to the child: the second walk frees the directory
    and fails the assertion on its list. *)
Definition deep_ops : list fop :=
  [OTree [117] None None 493 0; OIncref 2; OIncref 2; OIncref 2; OCreate 2 [97] None (Z.lor DMDIR 493) 0 0;
   OCreate 3 [98] None 420 0 0; OClose 3; OClose 4].

Theorem walkfile_closes_directories_twice :
  legal deep_ops init_heap (fun _ => 0) /\ (after deep_ops).2 2 = 3 /\
  exists s1 s2, walkfile (R := Z) 2 [97; 47; 98] (after deep_ops).1 = (Go 4, s1) /\
    f_ref <$> files (after deep_ops).1 !! 3 = Some 2 /\ f_ref <$> files s1 !! 3 = Some 1 /\
    walkfile (R := Z) 2 [97; 47; 98] s1 = (Abt, s2).
Proof.
split; [apply legalb_sound; by vm_compute|]. split; [by vm_compute|].
eexists _, _. split; [vm_compute; reflexivity|]. split; [by vm_compute|]. split; [by vm_compute|].
vm_compute. reflexivity.
Qed.

(** A walk to the parent of a file that was removed uses the pointer that
    [removefile] cleared. *)
Theorem dotdot_of_removed_file_aborts s ext K f fo : finv s ext K -> files s !! f = Some fo -> f_parent fo = 0 ->
  walkfile1 (R := Z) f dotdot s = (Abt, s).
Proof.
intros I Hf Hp. unfold walkfile1, ccall. unfold cbind at 1, fget. rewrite Hf. destruct (f_free fo); [done|].
rewrite decide_True by done. rewrite Hp. unfold incref, fset, cbind.
destruct (files s !! 0) as [y|] eqn:E0; [pose proof (fi_files _ _ _ I 0 y E0); lia|done].
Qed.

(** [createfile] accepts the name "..", which no walk reaches. *)
Theorem createfile_accepts_dotdot :
  let r := createfile (R := Z) 2 dotdot None 420 0 0 (after root_ops).1 in
  r.1 = Go 3 /\ (walkfile1 (R := Z) 2 dotdot r.2).1 = Go 2.
Proof. split; vm_compute; reflexivity. Qed.

(** The first file that is created in a tree has the qid path of the root. *)
Theorem first_file_has_the_qid_of_the_root :
  let s := (after [OTree [117] None None 493 0; OIncref 2; OCreate 2 [97] None (Z.lor DMDIR 493) 0 0]).1 in
  v_qid (entry s 2) = MkQid 0 0 QTDIR /\ v_qid (entry s 3) = MkQid 0 0 QTDIR.
Proof. split; vm_compute; reflexivity. Qed.
