(* ===== verification/Srv.v ===== *)
(** The 9P service loop, src/lib9p/fid.c, req.c and srv.c: fids, requests, the
    handler of every message and [respond].

    Messages are the values of Fcall9PSpec, as [convM2S] gives them and [convS2M]
    takes them; their strings are C strings. The functions of the server in
    [struct Srv] that answer a request take it over: [calls] lists the requests
    that they have, and [answer] is the call of [respond] with which they give one
    back. Allocation does not fail and writing to [outfd] succeeds. *)

From stdpp Require Import strings.
From S2P Require Import Prelude Mem Fcall9P Fcall9PSpec Dir9P Dir9PSpec Intmap Files.

Definition bytes_of (s : string) : bytes :=
  (fun c => Z.of_N (Ascii.N_of_ascii c)) <$> String.list_ascii_of_string s.

Definition Ebotch := bytes_of "9P protocol botch".
Definition Ebadoffset := bytes_of "bad offset".
Definition Ecreatenondir := bytes_of "create in non-directory".
Definition Edupfid := bytes_of "duplicate fid".
Definition Eduptag := bytes_of "duplicate tag".
Definition Eisdir := bytes_of "is a directory".
Definition Enocreate := bytes_of "create prohibited".
Definition Enoremove := bytes_of "remove prohibited".
Definition Enostat := bytes_of "stat prohibited".
Definition Enotfound := bytes_of "file not found".
Definition Enowstat := bytes_of "wstat prohibited".
Definition Eperm := bytes_of "permission denied".
Definition Eunknownfid := bytes_of "unknown fid".
Definition Ebaddir := bytes_of "bad directory in wstat".
Definition Ewalknodir := bytes_of "walk in non-directory".

Definition ERRMAX : Z := 128.
Definition OREAD : Z := 0.
Definition OWRITE : Z := 1.
Definition ORDWR : Z := 2.
Definition OEXEC : Z := 3.
Definition OTRUNC : Z := 16.
Definition ORCLOSE : Z := 64.
Definition AEXEC : Z := 1.
Definition AWRITE : Z := 2.
Definition AREAD : Z := 4.

(** ** fid.c *)

(** [fd_omode] is a [char]; -1 says that the fid is not open. *)
Record Fid := MkFid {
  fd_fid : Z; fd_omode : Z; fd_file : Z; fd_uid : option bytes; fd_qid : Qid;
  fd_rdir : Z; fd_ref : Z; fd_diroffset : Z }.

(** The fids, the [Fidpool] and the file tree; [dfids] are the fids that
    [pool->destroy] was called for. *)
Record fidst := FidSt {
  fs : fheap; fids : gmap Z Fid; fpool : Intmap Z (option (gmap Z Fid)); fbrk : Z; dfids : list Z }.

Definition set_fid_omode x f := MkFid (fd_fid f) x (fd_file f) (fd_uid f) (fd_qid f) (fd_rdir f) (fd_ref f) (fd_diroffset f).
Definition set_fid_file x f := MkFid (fd_fid f) (fd_omode f) x (fd_uid f) (fd_qid f) (fd_rdir f) (fd_ref f) (fd_diroffset f).
Definition set_fid_uid x f := MkFid (fd_fid f) (fd_omode f) (fd_file f) x (fd_qid f) (fd_rdir f) (fd_ref f) (fd_diroffset f).
Definition set_fid_qid x f := MkFid (fd_fid f) (fd_omode f) (fd_file f) (fd_uid f) x (fd_rdir f) (fd_ref f) (fd_diroffset f).
Definition set_fid_rdir x f := MkFid (fd_fid f) (fd_omode f) (fd_file f) (fd_uid f) (fd_qid f) x (fd_ref f) (fd_diroffset f).
Definition set_fid_ref x f := MkFid (fd_fid f) (fd_omode f) (fd_file f) (fd_uid f) (fd_qid f) (fd_rdir f) x (fd_diroffset f).
Definition set_fid_diroffset x f := MkFid (fd_fid f) (fd_omode f) (fd_file f) (fd_uid f) (fd_qid f) (fd_rdir f) (fd_ref f) (s64 x).

Definition set_fs x s := FidSt x (fids s) (fpool s) (fbrk s) (dfids s).
Definition set_fids x s := FidSt (fs s) x (fpool s) (fbrk s) (dfids s).
Definition set_fpool x s := FidSt (fs s) (fids s) x (fbrk s) (dfids s).
Definition set_fbrk x s := FidSt (fs s) (fids s) (fpool s) x (dfids s).
Definition set_dfids x s := FidSt (fs s) (fids s) (fpool s) (fbrk s) x.

(** [incfidref]; [None]: memory was used that is not there. *)
Definition incfidref (v : Z) (m : option (gmap Z Fid)) : option (gmap Z Fid) :=
  if decide (v = 0) then m
  else
    m ← m;
    f ← m !! v;
    Some (<[v := set_fid_ref (s32 (fd_ref f + 1)) f]> m).

Definition empty_fid : Fid := MkFid 0 0 0 None (MkQid 0 0 0) 0 0 0.

Section Fids.
Context {R : Type}.
Abbreviation fidcmd := (cmd fidst R).

(** A call into file.c. *)
Definition onfs {A} (c : cmd fheap R A) : fidcmd A := fun s =>
  let '(r, h) := c (fs s) in (r, set_fs h s).

Definition xget (x : Z) : fidcmd Fid := fun s =>
  match fids s !! x with Some f => (Go f, s) | None => (Abt, s) end.
Definition xset (x : Z) (g : Fid -> Fid) : fidcmd unit := fun s =>
  match fids s !! x with
  | Some f => (Go tt, set_fids (<[x := g f]> (fids s)) s)
  | None => (Abt, s)
  end.

(** [incfidref(f)] outside a map. *)
Definition fid_incref (x : Z) : fidcmd unit := xset x (fun f => set_fid_ref (s32 (fd_ref f + 1)) f).

Definition closefid (x : Z) : fidcmd unit :=
  xset x (fun f => set_fid_ref (s32 (fd_ref f - 1)) f);;
  f <- xget x;;
  if decide (fd_ref f = 0) then
    (if decide (fd_rdir f <> 0) then onfs (closedirfile (fd_rdir f)) else cret tt);;
    cmodify (fun s => set_dfids (dfids s ++ [x]) s);;
    (if decide (fd_file f <> 0) then onfs (closefile (fd_file f)) else cret tt);;
    cmodify (fun s => set_fids (delete x (fids s)) s)
  else cret tt.

Definition allocfid (fid : Z) : fidcmd Z :=
  x <- cgets fbrk;;
  cmodify (set_fbrk (x + 1));;
  cmodify (fun s => set_fids (<[x := empty_fid]> (fids s)) s);;
  xset x (fun f => MkFid fid (-1) (fd_file f) (fd_uid f) (fd_qid f) (fd_rdir f) (fd_ref f) (fd_diroffset f));;
  fid_incref x;;
  fid_incref x;;
  m <- cgets fpool;;
  let '(b, m') := caninsertkey m fid x in
  cmodify (set_fpool m');;
  if b : bool then cret x
  else closefid x;; closefid x;; cret 0.

Definition lookupfid (fid : Z) : fidcmd Z := fun s =>
  match lookupkey (fpool s) fid (Some (fids s)) with
  | (Some x, Some m) => (Go x, set_fids m s)
  | (None, _) => (Go 0, s)
  | (Some _, None) => (Abt, s)
  end.

Definition removefid (fid : Z) : fidcmd Z := fun s =>
  let '(v, m) := deletekey (fpool s) fid in (Go (default 0 v), set_fpool m s).
End Fids.

(** ** Requests *)

(** The members of [r->ofcall] that the replies use; [wqid] is the array up to
    the last entry that was set. *)
Record Ofcall := MkOfcall {
  o_msize : Z; o_version : bytes; o_qid : Qid; o_aqid : Qid; o_iounit : Z;
  o_nwqid : Z; o_wqid : list Qid; o_count : Z; o_data : bytes; o_stat : bytes }.

Definition empty_ofcall : Ofcall := MkOfcall 0 [] (MkQid 0 0 0) (MkQid 0 0 0) 0 0 [] 0 [] [].

Record Req := MkReq {
  rq_tag : Z; rq_ifcall : msg; rq_ofcall : Ofcall; rq_d : dirv; rq_wstat : option (mem * Dir);
  rq_oldreq : Z; rq_fid : Z; rq_afid : Z; rq_newfid : Z; rq_ref : Z;
  rq_pool : bool; (* r->pool is not nil *)
  rq_responded : bool; rq_error : option bytes; rq_flush : list Z;
  rq_statfree : bool (* the buffer r->ofcall.stat was freed *) }.

(** The functions of [struct Srv] that take a request over. *)
Inductive call :=
  | CAuth | CAttach | CFlush | COpen | CCreate | CRead | CWrite | CRemove | CStat | CWstat | CWalk.

Record srvst := SrvSt {
  sf : fidst; reqs : gmap Z Req; rpool : Intmap Z (option (gmap Z Req)); rbrk : Z;
  msize : Z;
  out : list (Z * msg); (* the replies written to outfd *)
  calls : list (call * Z); dreqs : list Z }.

Definition set_rq_ifcall x r := MkReq (rq_tag r) x (rq_ofcall r) (rq_d r) (rq_wstat r) (rq_oldreq r) (rq_fid r) (rq_afid r) (rq_newfid r) (rq_ref r) (rq_pool r) (rq_responded r) (rq_error r) (rq_flush r) (rq_statfree r).
Definition set_rq_ofcall x r := MkReq (rq_tag r) (rq_ifcall r) x (rq_d r) (rq_wstat r) (rq_oldreq r) (rq_fid r) (rq_afid r) (rq_newfid r) (rq_ref r) (rq_pool r) (rq_responded r) (rq_error r) (rq_flush r) (rq_statfree r).
Definition set_rq_d x r := MkReq (rq_tag r) (rq_ifcall r) (rq_ofcall r) x (rq_wstat r) (rq_oldreq r) (rq_fid r) (rq_afid r) (rq_newfid r) (rq_ref r) (rq_pool r) (rq_responded r) (rq_error r) (rq_flush r) (rq_statfree r).
Definition set_rq_wstat x r := MkReq (rq_tag r) (rq_ifcall r) (rq_ofcall r) (rq_d r) x (rq_oldreq r) (rq_fid r) (rq_afid r) (rq_newfid r) (rq_ref r) (rq_pool r) (rq_responded r) (rq_error r) (rq_flush r) (rq_statfree r).
Definition set_rq_oldreq x r := MkReq (rq_tag r) (rq_ifcall r) (rq_ofcall r) (rq_d r) (rq_wstat r) x (rq_fid r) (rq_afid r) (rq_newfid r) (rq_ref r) (rq_pool r) (rq_responded r) (rq_error r) (rq_flush r) (rq_statfree r).
Definition set_rq_fid x r := MkReq (rq_tag r) (rq_ifcall r) (rq_ofcall r) (rq_d r) (rq_wstat r) (rq_oldreq r) x (rq_afid r) (rq_newfid r) (rq_ref r) (rq_pool r) (rq_responded r) (rq_error r) (rq_flush r) (rq_statfree r).
Definition set_rq_afid x r := MkReq (rq_tag r) (rq_ifcall r) (rq_ofcall r) (rq_d r) (rq_wstat r) (rq_oldreq r) (rq_fid r) x (rq_newfid r) (rq_ref r) (rq_pool r) (rq_responded r) (rq_error r) (rq_flush r) (rq_statfree r).
Definition set_rq_newfid x r := MkReq (rq_tag r) (rq_ifcall r) (rq_ofcall r) (rq_d r) (rq_wstat r) (rq_oldreq r) (rq_fid r) (rq_afid r) x (rq_ref r) (rq_pool r) (rq_responded r) (rq_error r) (rq_flush r) (rq_statfree r).
Definition set_rq_ref x r := MkReq (rq_tag r) (rq_ifcall r) (rq_ofcall r) (rq_d r) (rq_wstat r) (rq_oldreq r) (rq_fid r) (rq_afid r) (rq_newfid r) x (rq_pool r) (rq_responded r) (rq_error r) (rq_flush r) (rq_statfree r).
Definition set_rq_responded x r := MkReq (rq_tag r) (rq_ifcall r) (rq_ofcall r) (rq_d r) (rq_wstat r) (rq_oldreq r) (rq_fid r) (rq_afid r) (rq_newfid r) (rq_ref r) (rq_pool r) x (rq_error r) (rq_flush r) (rq_statfree r).
Definition set_rq_error x r := MkReq (rq_tag r) (rq_ifcall r) (rq_ofcall r) (rq_d r) (rq_wstat r) (rq_oldreq r) (rq_fid r) (rq_afid r) (rq_newfid r) (rq_ref r) (rq_pool r) (rq_responded r) x (rq_flush r) (rq_statfree r).
Definition set_rq_flush x r := MkReq (rq_tag r) (rq_ifcall r) (rq_ofcall r) (rq_d r) (rq_wstat r) (rq_oldreq r) (rq_fid r) (rq_afid r) (rq_newfid r) (rq_ref r) (rq_pool r) (rq_responded r) (rq_error r) x (rq_statfree r).
Definition set_rq_statfree x r := MkReq (rq_tag r) (rq_ifcall r) (rq_ofcall r) (rq_d r) (rq_wstat r) (rq_oldreq r) (rq_fid r) (rq_afid r) (rq_newfid r) (rq_ref r) (rq_pool r) (rq_responded r) (rq_error r) (rq_flush r) x.

Definition set_sf x s := SrvSt x (reqs s) (rpool s) (rbrk s) (msize s) (out s) (calls s) (dreqs s).
Definition set_reqs x s := SrvSt (sf s) x (rpool s) (rbrk s) (msize s) (out s) (calls s) (dreqs s).
Definition set_rpool x s := SrvSt (sf s) (reqs s) x (rbrk s) (msize s) (out s) (calls s) (dreqs s).
Definition set_rbrk x s := SrvSt (sf s) (reqs s) (rpool s) x (msize s) (out s) (calls s) (dreqs s).
Definition set_msize x s := SrvSt (sf s) (reqs s) (rpool s) (rbrk s) x (out s) (calls s) (dreqs s).
Definition set_out x s := SrvSt (sf s) (reqs s) (rpool s) (rbrk s) (msize s) x (calls s) (dreqs s).
Definition set_calls x s := SrvSt (sf s) (reqs s) (rpool s) (rbrk s) (msize s) (out s) x (dreqs s).
Definition set_dreqs x s := SrvSt (sf s) (reqs s) (rpool s) (rbrk s) (msize s) (out s) (calls s) x.

Definition increqref (v : Z) (m : option (gmap Z Req)) : option (gmap Z Req) :=
  if decide (v = 0) then m
  else
    m ← m;
    r ← m !! v;
    Some (<[v := set_rq_ref (s32 (rq_ref r + 1)) r]> m).

(** The reply of type [r->ifcall.type+1], or [setfcallerror]; [None]: the type
    that [respond] asserts not to get. *)
Definition reply (i : msg) (o : Ofcall) (e : option bytes) : option msg :=
  match i with
  | MTversion _ _ | MTauth _ _ _ | MTattach _ _ _ _ | MTflush _ | MTwalk _ _ _ | MTopen _ _
  | MTcreate _ _ _ _ | MTread _ _ _ | MTwrite _ _ _ | MTclunk _ | MTremove _ | MTstat _ | MTwstat _ _ =>
      match e with
      | Some e => Some (MRerror e)
      | None =>
          Some (match i with
            | MTversion _ _ => MRversion (o_msize o) (o_version o)
            | MTauth _ _ _ => MRauth (o_aqid o)
            | MTattach _ _ _ _ => MRattach (o_qid o)
            | MTwalk _ _ _ => MRwalk (take (Z.to_nat (o_nwqid o)) (o_wqid o))
            | MTopen _ _ => MRopen (o_qid o) (o_iounit o)
            | MTcreate _ _ _ _ => MRcreate (o_qid o) (o_iounit o)
            | MTread _ _ _ => MRread (take (Z.to_nat (o_count o)) (o_data o))
            | MTwrite _ _ _ => MRwrite (o_count o)
            | MTclunk _ => MRclunk
            | MTremove _ => MRremove
            | MTstat _ => MRstat (o_stat o)
            | MTwstat _ _ => MRwstat
            | _ => MRflush
            end)
      end
  | _ => None
  end.

(** [%r]: the message of [errstr]. *)
Definition errstr_bytes (e : ferr) : bytes :=
  match e with
  | NoError => []
  | NoParent => bytes_of "no parent"
  | CannotRemoveRoot => bytes_of "cannot remove root"
  | HasChildren => bytes_of "has children"
  | ParentChanged => bytes_of "parent changed underfoot"
  | CreateInNonDirectory => bytes_of "create in non-directory"
  | FileExists => bytes_of "file already exists"
  end.

(** [snprint(errbuf, ERRMAX, "remove %s: %r", name)] *)
Definition remove_error (name : bytes) (e : ferr) : bytes :=
  take (Z.to_nat (ERRMAX - 1)) (bytes_of "remove " ++ name ++ bytes_of ": " ++ errstr_bytes e).

Section Respond.
Context {R : Type}.
Abbreviation scmd := (cmd srvst R).

Definition onfid {A} (c : cmd fidst R A) : scmd A := fun s =>
  let '(r, x) := c (sf s) in (r, set_sf x s).
Definition onfile {A} (c : cmd fheap R A) : scmd A := onfid (onfs c).

Definition rget (r : Z) : scmd Req := fun s =>
  match reqs s !! r with Some x => (Go x, s) | None => (Abt, s) end.
Definition rset (r : Z) (g : Req -> Req) : scmd unit := fun s =>
  match reqs s !! r with
  | Some x => (Go tt, set_reqs (<[r := g x]> (reqs s)) s)
  | None => (Abt, s)
  end.
Definition req_incref (r : Z) : scmd unit := rset r (fun x => set_rq_ref (s32 (rq_ref x + 1)) x).

Definition lookupreq (tag : Z) : scmd Z := fun s =>
  match lookupkey (rpool s) tag (Some (reqs s)) with
  | (Some x, Some m) => (Go x, set_reqs m s)
  | (None, _) => (Go 0, s)
  | (Some _, None) => (Abt, s)
  end.

Definition removereq (tag : Z) : scmd Z := fun s =>
  let '(v, m) := deletekey (rpool s) tag in (Go (default 0 v), set_rpool m s).

(** [closefid(removefid(r->srv->fpool, x->fid))] *)
Definition dropfid (x : Z) : scmd unit :=
  f <- onfid (xget x);;
  y <- onfid (removefid (fd_fid f));;
  onfid (closefid y).

(** *** The second halves of the handlers *)

Definition rversion (r : Z) (error : option bytes) : scmd unit :=
  match error with
  | Some _ => cabort
  | None => ro <- rget r;; cmodify (set_msize (u32 (o_msize (rq_ofcall ro))))
  end.

Definition rauth (r : Z) (error : option bytes) : scmd unit :=
  ro <- rget r;;
  if decide (error <> None /\ rq_afid ro <> 0) then dropfid (rq_afid ro) else cret tt.

Definition rattach (r : Z) (error : option bytes) : scmd unit :=
  ro <- rget r;;
  if decide (error <> None /\ rq_fid ro <> 0) then dropfid (rq_fid ro) else cret tt.

(** [true]: the response is delayed. *)
Definition rflush (closereq : Z -> scmd unit) (r : Z) (error : option bytes) : scmd bool :=
  match error with
  | Some _ => cabort
  | None =>
      ro <- rget r;;
      let or := rq_oldreq ro in
      if decide (or <> 0) then
        oro <- rget or;;
        if rq_responded oro then
          closereq or;;
          rset r (set_rq_oldreq 0);;
          cret false
        else
          rset or (fun x => set_rq_flush (rq_flush x ++ [r]) x);;
          cret true
      else
        rset r (set_rq_oldreq 0);;
        cret false
  end.

Definition rwalk (r : Z) (fid newfid : Z) (nwname : Z) (error : option bytes) : scmd unit :=
  ro <- rget r;;
  let nwqid := o_nwqid (rq_ofcall ro) in
  if decide (error <> None \/ nwqid < nwname) then
    (if decide (fid <> newfid /\ rq_newfid ro <> 0) then dropfid (rq_newfid ro) else cret tt);;
    if decide (nwqid = 0) then
      if decide (error = None /\ nwname <> 0) then rset r (set_rq_error (Some Enotfound)) else cret tt
    else rset r (set_rq_error None)
  else if decide (nwqid = 0) then
    f <- onfid (xget (rq_fid ro));;
    onfid (xset (rq_newfid ro) (set_fid_qid (fd_qid f)))
  else
    match o_wqid (rq_ofcall ro) !! Z.to_nat (nwqid - 1) with
    | Some q => onfid (xset (rq_newfid ro) (set_fid_qid q))
    | None => cabort
    end.

Definition ropen (r mode : Z) (error : option bytes) : scmd unit :=
  match error with
  | Some _ => cret tt
  | None =>
      ro <- rget r;;
      onfid (xset (rq_fid ro) (set_fid_omode (s8 mode)));;
      onfid (xset (rq_fid ro) (set_fid_qid (o_qid (rq_ofcall ro))));;
      if decide (Z.land (q_type (o_qid (rq_ofcall ro))) QTDIR <> 0) then
        onfid (xset (rq_fid ro) (set_fid_diroffset 0))
      else cret tt
  end.

Definition rcreate (r mode : Z) (error : option bytes) : scmd unit :=
  match error with
  | Some _ => cret tt
  | None =>
      ro <- rget r;;
      onfid (xset (rq_fid ro) (set_fid_omode (s8 mode)));;
      onfid (xset (rq_fid ro) (set_fid_qid (o_qid (rq_ofcall ro))))
  end.

Definition rread (r : Z) (error : option bytes) : scmd unit :=
  match error with
  | Some _ => cret tt
  | None =>
      ro <- rget r;;
      f <- onfid (xget (rq_fid ro));;
      if decide (Z.land (q_type (fd_qid f)) QTDIR <> 0) then
        onfid (xset (rq_fid ro) (fun f => set_fid_diroffset (fd_diroffset f + o_count (rq_ofcall ro)) f))
      else cret tt
  end.

(** The entry of a file with another version of its qid. *)
Definition bump_vers (v : dirv) : dirv :=
  let q := v_qid v in
  Dirv (v_type v) (v_dev v) (MkQid (q_path q) (u32 (q_vers q + 1)) (q_type q)) (v_mode v) (v_atime v)
    (v_mtime v) (v_length v) (v_name v) (v_uid v) (v_gid v) (v_muid v).

Definition rwrite (r : Z) (error : option bytes) : scmd unit :=
  match error with
  | Some _ => cret tt
  | None =>
      ro <- rget r;;
      f <- onfid (xget (rq_fid ro));;
      if decide (fd_file f <> 0) then onfile (fset (fd_file f) (fun o => set_dir (bump_vers (f_dir o)) o))
      else cret tt
  end.

Definition rremove (r : Z) (error : option bytes) : scmd unit :=
  match error with
  | Some _ => cret tt
  | None =>
      ro <- rget r;;
      f <- onfid (xget (rq_fid ro));;
      if decide (fd_file f <> 0) then
        n <- onfile (removefile (fd_file f));;
        (if decide (n < 0) then
           fo <- onfile (fget (fd_file f));;
           e <- cgets (fun s => errstr (fs (sf s)));;
           rset r (set_rq_error (Some (remove_error (v_name (f_dir fo)) e)))
         else cret tt);;
        onfid (xset (rq_fid ro) (set_fid_file 0))
      else cret tt
  end.

Definition set_o_stat x o := MkOfcall (o_msize o) (o_version o) (o_qid o) (o_aqid o) (o_iounit o) (o_nwqid o) (o_wqid o) (o_count o) (o_data o) x.

(** The two calls of [convD2M], first for the size alone. When the second fails, the
    buffer is freed and [r->ofcall.stat] still points to it. *)
Definition rstat (r : Z) (error : option bytes) : scmd unit :=
  match error with
  | Some _ => cret tt
  | None =>
      ro <- rget r;;
      let '(x, tmp) := dir_store (rq_d ro) BIT16SZ in
      if decide (x <> BIT16SZ) then
        rset r (set_rq_error (Some (bytes_of "convD2M(_,_,BIT16SZ) did not return BIT16SZ")))
      else
        let n := unle tmp + BIT16SZ in
        let '(x, stat) := dir_store (rq_d ro) n in
        if decide (u16 x <= BIT16SZ) then
          rset r (set_rq_error (Some (bytes_of "convD2M fails")));;
          rset r (set_rq_statfree true)
        else rset r (fun q => set_rq_ofcall (set_o_stat (take (Z.to_nat (u16 x)) stat) (rq_ofcall q)) q)
  end.

(** *** respond and closereq *)

Fixpoint respond (fuel : nat) (r : Z) (error : option bytes) {struct fuel} : scmd unit :=
  match fuel with
  | O => cabort
  | S fuel' =>
      ro <- rget r;;
      if rq_responded ro then cabort (* assert(r->responded == 0) *)
      else
        rset r (set_rq_error error);;
        delayed <-
          match rq_ifcall ro with
          | MTflush _ => rflush (closereq fuel') r error
          | MTversion _ _ => rversion r error;; cret false
          | MTauth _ _ _ => rauth r error;; cret false
          | MTattach _ _ _ _ => rattach r error;; cret false
          | MTwalk fid newfid wname => rwalk r fid newfid (zlen wname) error;; cret false
          | MTopen _ mode => ropen r mode error;; cret false
          | MTcreate _ _ _ mode => rcreate r mode error;; cret false
          | MTread _ _ _ => rread r error;; cret false
          | MTwrite _ _ _ => rwrite r error;; cret false
          | MTclunk _ => cret false
          | MTremove _ => rremove r error;; cret false
          | MTstat _ => rstat r error;; cret false
          | MTwstat _ _ => cret false
          | _ => cabort (* assert(0) *)
          end;;
        if delayed : bool then cret tt
        else
          ro <- rget r;;
          ms <- cgets msize;;
          match reply (rq_ifcall ro) (rq_ofcall ro) (rq_error ro) with
          | None => cabort
          | Some g =>
              if decide (ms < msg_size g) then cabort (* convS2M gives 0 *)
              else
                (if rq_pool ro then x <- removereq (rq_tag ro);; closereq fuel' x else cret tt);;
                cmodify (fun s => set_out (out s ++ [(rq_tag ro, g)]) s);;
                rset r (set_rq_responded true);;
                ro <- rget r;;
                (fix loop (l : list Z) : scmd unit :=
                   match l with
                   | [] => cret tt
                   | f :: l' => respond fuel' f None;; loop l'
                   end) (rq_flush ro);;
                rset r (set_rq_flush []);;
                if rq_pool ro then closereq fuel' r
                else cmodify (fun s => set_reqs (delete r (reqs s)) s)
          end
  end
with closereq (fuel : nat) (r : Z) {struct fuel} : scmd unit :=
  match fuel with
  | O => cabort
  | S fuel' =>
      if decide (r = 0) then cret tt
      else
        rset r (fun x => set_rq_ref (s32 (rq_ref x - 1)) x);;
        ro <- rget r;;
        if decide (rq_ref ro = 0) then
          (if decide (rq_fid ro <> 0) then onfid (closefid (rq_fid ro)) else cret tt);;
          (if decide (rq_newfid ro <> 0) then onfid (closefid (rq_newfid ro)) else cret tt);;
          (if decide (rq_afid ro <> 0) then onfid (closefid (rq_afid ro)) else cret tt);;
          (if decide (rq_oldreq ro <> 0) then closereq fuel' (rq_oldreq ro) else cret tt);;
          (fix loop (l : list Z) : scmd unit :=
             match l with
             | [] => cret tt
             | f :: l' => respond fuel' f None;; loop l'
             end) (rq_flush ro);;
          (match rq_ifcall ro with
           | MTstat _ => if rq_statfree ro then cabort (* free(r->ofcall.stat), again *) else cret tt
           | _ => cret tt
           end);;
          (if rq_pool ro then cmodify (fun s => set_dreqs (dreqs s ++ [r]) s) else cabort);;
          cmodify (fun s => set_reqs (delete r (reqs s)) s)
        else cret tt
  end.

(** A bound on the depth of the calls. *)
Definition rfuel : scmd nat := cgets (fun s => 2 * size (reqs s) + 4)%nat.
Definition respond_ (r : Z) (error : option bytes) : scmd unit := fuel <- rfuel;; respond fuel r error.
Definition closereq_ (r : Z) : scmd unit := fuel <- rfuel;; closereq fuel r.
End Respond.

(** ** The server's functions *)

(** What the server put into [struct Srv]: the tree (0 for [nil]) and which of
    the functions there are; [walk1] and [clone] answer at once. *)
Record Srv := MkSrv {
  srv_tree : Z; srv_auth : bool; srv_attach : bool; srv_flush : bool; srv_open : bool;
  srv_create : bool; srv_read : bool; srv_write : bool; srv_remove : bool; srv_stat : bool;
  srv_wstat : bool; srv_walk : bool;
  srv_walk1 : option (srvst -> Z -> bytes -> option bytes * Qid);
  srv_clone : option (srvst -> Z -> Z -> option bytes) }.

(** The hexadecimal digits that [%ux] prints. *)
Fixpoint hex_digits (fuel : nat) (n : Z) : bytes :=
  match fuel with
  | O => []
  | S fuel' =>
      let d := n mod 16 in
      (if decide (n < 16) then [] else hex_digits fuel' (n / 16)) ++
      [if decide (d < 10) then 48 + d else 87 + d]
  end.

Section Handlers.
Variable srv : Srv.
(** The name of the program and the memory in which a [Twstat] is parsed. *)
Variables (argv0 : bytes) (nullstring : Z).
Context {R : Type}.
Abbreviation scmd := (cmd srvst R).

(** [srv->f(r)] *)
Definition upcall (c : call) (r : Z) : scmd unit := cmodify (fun s => set_calls (calls s ++ [(c, r)]) s).

Definition snprint (e : bytes) : bytes := take (Z.to_nat (ERRMAX - 1)) e.

Definition set_o_version v ms o := MkOfcall ms v (o_qid o) (o_aqid o) (o_iounit o) (o_nwqid o) (o_wqid o) (o_count o) (o_data o) (o_stat o).
Definition set_o_qid q o := MkOfcall (o_msize o) (o_version o) q (o_aqid o) (o_iounit o) (o_nwqid o) (o_wqid o) (o_count o) (o_data o) (o_stat o).
Definition set_o_nwqid n o := MkOfcall (o_msize o) (o_version o) (o_qid o) (o_aqid o) (o_iounit o) n (o_wqid o) (o_count o) (o_data o) (o_stat o).
Definition add_o_wqid q o := MkOfcall (o_msize o) (o_version o) (o_qid o) (o_aqid o) (o_iounit o) (o_nwqid o) (o_wqid o ++ [q]) (o_count o) (o_data o) (o_stat o).
Definition set_o_data n d o := MkOfcall (o_msize o) (o_version o) (o_qid o) (o_aqid o) (o_iounit o) (o_nwqid o) (o_wqid o) n d (o_stat o).
Definition oset (r : Z) (g : Ofcall -> Ofcall) : scmd unit := rset r (fun x => set_rq_ofcall (g (rq_ofcall x)) x).

Definition sversion (r : Z) (ms : Z) (version : bytes) : scmd unit :=
  if decide (take 2 version <> [57; 80]) then (* "9P" *)
    oset r (fun o => set_o_version (bytes_of "unknown") (o_msize o) o);;
    respond_ r None
  else
    oset r (set_o_version (bytes_of "9P2000") ms);;
    respond_ r None.

Definition sauth (r afid : Z) : scmd unit :=
  x <- onfid (allocfid afid);;
  rset r (set_rq_afid x);;
  if decide (x = 0) then respond_ r (Some Edupfid)
  else if srv_auth srv then upcall CAuth r
  else respond_ r (Some (snprint (argv0 ++ bytes_of ": authentication not required"))).

Definition sattach (r fid afid : Z) (uname : bytes) : scmd unit :=
  x <- onfid (allocfid fid);;
  rset r (set_rq_fid x);;
  if decide (x = 0) then respond_ r (Some Edupfid)
  else
    rset r (set_rq_afid 0);;
    ok <-
      (if decide (afid <> NOFID) then
         a <- onfid (lookupfid afid);;
         rset r (set_rq_afid a);;
         cret (bool_decide (a <> 0))
       else cret true);;
    if negb ok then respond_ r (Some Eunknownfid)
    else
      onfid (xset x (set_fid_uid (Some uname)));;
      (if decide (srv_tree srv <> 0) then
         ts <- cgets (fun s => trees (fs (sf s)) !! srv_tree srv);;
         match ts with
         | None => cabort
         | Some t =>
             onfid (xset x (set_fid_file (t_root t)));;
             onfile (incref (t_root t));;
             fo <- onfile (fget (t_root t));;
             oset r (set_o_qid (v_qid (f_dir fo)));;
             onfid (xset x (set_fid_qid (v_qid (f_dir fo))))
         end
       else cret tt);;
      if srv_attach srv then upcall CAttach r else respond_ r None.

Definition sflush (r oldtag : Z) : scmd unit :=
  or <- lookupreq oldtag;;
  rset r (set_rq_oldreq or);;
  if decide (or = 0 \/ or = r) then respond_ r None
  else if srv_flush srv then upcall CFlush r
  else respond_ r None.

(** The loop of [filewalk] over the names: the file reached, or 0. *)
Fixpoint walk_names (r f : Z) (wname : list bytes) (i : Z) : scmd (Z * Z) :=
  match wname with
  | [] => cret (f, i)
  | w :: ws =>
      f' <- onfile (walkfile f w);;
      if decide (f' <> 0) then
        fo <- onfile (fget f');;
        oset r (add_o_wqid (v_qid (f_dir fo)));;
        walk_names r f' ws (i + 1)
      else cret (0, i)
  end.

Definition filewalk (r : Z) (wname : list bytes) : scmd unit :=
  ro <- rget r;;
  x <- onfid (xget (rq_fid ro));;
  if decide (fd_file x = 0) then cabort
  else
    onfile (incref (fd_file x));;
    y <- walk_names r (fd_file x) wname 0;;
    let '(f, i) := y in
    oset r (set_o_nwqid i);;
    (if decide (f <> 0) then
       onfid (xset (rq_newfid ro) (set_fid_file f));;
       fo <- onfile (fget f);;
       onfid (xset (rq_newfid ro) (set_fid_qid (v_qid (f_dir fo))))
     else cret tt);;
    respond_ r None.

(** [oldwalk1] *)
Definition oldwalk1 (walk1 : srvst -> Z -> bytes -> option bytes * Qid) (x : Z) (name : bytes) : scmd (option bytes) := fun s =>
  match walk1 s x name with
  | (Some e, _) => (Go (Some e), s)
  | (None, q) => (onfid (xset x (set_fid_qid q));; cret None) s
  end.

(** [oldclone] *)
Definition oldclone (x y : Z) : scmd (option bytes) := fun s =>
  match srv_clone srv with
  | None => (Go None, s)
  | Some clone => (Go (clone s x y), s)
  end.

(** The loop of [walkandclone] over the names. *)
Fixpoint walk1_names (walk1 : Z -> bytes -> scmd (option bytes)) (r newfid : Z) (wname : list bytes) (i : Z)
    : scmd (option bytes * Z) :=
  match wname with
  | [] => cret (None, i)
  | w :: ws =>
      e <- walk1 newfid w;;
      match e with
      | Some e => cret (Some e, i)
      | None =>
          f <- onfid (xget newfid);;
          oset r (add_o_wqid (fd_qid f));;
          walk1_names walk1 r newfid ws (i + 1)
      end
  end.

Definition walkandclone (r : Z) (wname : list bytes) (walk1 : Z -> bytes -> scmd (option bytes))
    (clone : Z -> Z -> scmd (option bytes)) : scmd unit :=
  ro <- rget r;;
  let x := rq_fid ro in
  let y := rq_newfid ro in
  if decide (x = y /\ 1 < zlen wname) then
    respond_ r (Some (bytes_of "lib9p: unused documented feature not implemented"))
  else
    e <-
      (if decide (x <> y) then
         f <- onfid (xget x);;
         onfid (xset y (set_fid_qid (fd_qid f)));;
         clone x y
       else cret None);;
    match e with
    | Some e => respond_ r (Some e)
    | None =>
        z <- walk1_names walk1 r y wname 0;;
        let '(e, i) := z in
        oset r (set_o_nwqid i);;
        if decide (e <> None /\ i = 0) then respond_ r e else respond_ r None
    end.

Definition swalk (r fid newfid : Z) (wname : list bytes) : scmd unit :=
  x <- onfid (lookupfid fid);;
  rset r (set_rq_fid x);;
  if decide (x = 0) then respond_ r (Some Eunknownfid)
  else
    f <- onfid (xget x);;
    if decide (fd_omode f <> -1) then respond_ r (Some (bytes_of "cannot clone open fid"))
    else if decide (zlen wname <> 0 /\ Z.land (q_type (fd_qid f)) QTDIR = 0) then respond_ r (Some Ewalknodir)
    else
      y <-
        (if decide (fid <> newfid) then
           y <- onfid (allocfid newfid);;
           rset r (set_rq_newfid y);;
           cret y
         else onfid (fid_incref x);; rset r (set_rq_newfid x);; cret x);;
      if decide (y = 0) then respond_ r (Some Edupfid)
      else
        (if decide (fid <> newfid) then
           match fd_uid f with
           | None => cabort (* estrdup9p(nil) *)
           | Some u => onfid (xset y (set_fid_uid (Some u)))
           end
         else cret tt);;
        if decide (fd_file f <> 0) then filewalk r wname
        else
          match srv_walk1 srv with
          | Some walk1 => walkandclone r wname (oldwalk1 walk1) oldclone
          | None => if srv_walk srv then upcall CWalk r else cabort (* sysfatal *)
          end.

(** [hasperm(f, uid, p)]; [strcmp] of a [nil] uid fails. *)
Definition file_hasperm (f : Z) (uid : option bytes) (p : Z) : scmd bool :=
  fo <- onfile (fget f);;
  match uid with
  | None => cabort
  | Some u => cret (hasperm (f_dir fo) u p)
  end.

(** The access that the open mode asks for. *)
Definition open_access (mode : Z) : Z :=
  let p :=
    if decide (Z.land mode 3 = OREAD) then AREAD
    else if decide (Z.land mode 3 = OWRITE) then AWRITE
    else if decide (Z.land mode 3 = ORDWR) then Z.lor AREAD AWRITE
    else AEXEC in
  if decide (Z.land mode OTRUNC <> 0) then Z.lor p AWRITE else p.

Definition open_end (r : Z) : scmd unit := if srv_open srv then upcall COpen r else respond_ r None.

Definition sopen (r fid mode : Z) : scmd unit :=
  x <- onfid (lookupfid fid);;
  rset r (set_rq_fid x);;
  if decide (x = 0) then respond_ r (Some Eunknownfid)
  else
    f <- onfid (xget x);;
    if decide (fd_omode f <> -1) then respond_ r (Some Ebotch)
    else if decide (Z.land (q_type (fd_qid f)) QTDIR <> 0 /\ Z.land mode (Z.lnot ORCLOSE) <> OREAD) then
      respond_ r (Some Eisdir)
    else
      oset r (set_o_qid (fd_qid f));;
      let p := open_access mode in
      if decide (Z.land (q_type (fd_qid f)) QTDIR <> 0 /\ p <> AREAD) then respond_ r (Some Eperm)
      else if decide (fd_file f <> 0) then
        ok <- file_hasperm (fd_file f) (fd_uid f) p;;
        if negb ok then respond_ r (Some Eperm)
        else
          ok <-
            (if decide (Z.land mode ORCLOSE <> 0) then
               fo <- onfile (fget (fd_file f));;
               file_hasperm (f_parent fo) (fd_uid f) AWRITE
             else cret true);;
          if negb ok then respond_ r (Some Eperm)
          else
            fo <- onfile (fget (fd_file f));;
            oset r (set_o_qid (v_qid (f_dir fo)));;
            if decide (Z.land (q_type (v_qid (f_dir fo))) QTDIR <> 0) then
              d <- onfile (opendirfile (fd_file f));;
              onfid (xset x (set_fid_rdir d));;
              if decide (d = 0) then respond_ r (Some (bytes_of "opendirfile failed"))
              else open_end r
            else open_end r
      else open_end r.

Definition screate (r fid : Z) : scmd unit :=
  x <- onfid (lookupfid fid);;
  rset r (set_rq_fid x);;
  if decide (x = 0) then respond_ r (Some Eunknownfid)
  else
    f <- onfid (xget x);;
    if decide (fd_omode f <> -1) then respond_ r (Some Ebotch)
    else if decide (Z.land (q_type (fd_qid f)) QTDIR = 0) then respond_ r (Some Ecreatenondir)
    else
      ok <- (if decide (fd_file f <> 0) then file_hasperm (fd_file f) (fd_uid f) AWRITE else cret true);;
      if negb ok then respond_ r (Some Eperm)
      else if srv_create srv then upcall CCreate r
      else respond_ r (Some Enocreate).

Definition sread (r fid offset count : Z) : scmd unit :=
  x <- onfid (lookupfid fid);;
  rset r (set_rq_fid x);;
  if decide (x = 0) then respond_ r (Some Eunknownfid)
  else if decide (s32 count < 0) then respond_ r (Some Ebotch)
  else
    f <- onfid (xget x);;
    if decide (offset < 0 \/ (Z.land (q_type (fd_qid f)) QTDIR <> 0 /\ offset <> 0 /\ offset <> fd_diroffset f)) then
      respond_ r (Some Ebadoffset)
    else
      ms <- cgets msize;;
      let count := if decide (u32 (ms - IOHDRSZ) < count) then u32 (ms - IOHDRSZ) else count in
      rset r (set_rq_ifcall (MTread fid offset count));;
      let o := Z.land (fd_omode f) 3 in
      if decide (o <> OREAD /\ o <> ORDWR /\ o <> OEXEC) then respond_ r (Some Ebotch)
      else if decide (Z.land (q_type (fd_qid f)) QTDIR <> 0 /\ fd_file f <> 0) then
        y <- onfile (readdirfile (fd_rdir f) count);;
        oset r (set_o_data y.1 y.2);;
        respond_ r None
      else if srv_read srv then upcall CRead r
      else respond_ r (Some (bytes_of "no srv->read")).

Definition swrite (r fid offset : Z) (data : bytes) : scmd unit :=
  x <- onfid (lookupfid fid);;
  rset r (set_rq_fid x);;
  if decide (x = 0) then respond_ r (Some Eunknownfid)
  else if decide (s32 (zlen data) < 0) then respond_ r (Some Ebotch)
  else if decide (offset < 0) then respond_ r (Some Ebotch)
  else
    ms <- cgets msize;;
    rset r (set_rq_ifcall (MTwrite fid offset (take (Z.to_nat (u32 (ms - IOHDRSZ))) data)));;
    f <- onfid (xget x);;
    let o := Z.land (fd_omode f) 3 in
    if decide (o <> OWRITE /\ o <> ORDWR) then
      respond_ r (Some (snprint (bytes_of "write on fid with open mode 0x" ++ hex_digits 8 (u32 (fd_omode f)))))
    else if srv_write srv then upcall CWrite r
    else respond_ r (Some (bytes_of "no srv->write")).

Definition sclunk (r fid : Z) : scmd unit :=
  x <- onfid (removefid fid);;
  rset r (set_rq_fid x);;
  if decide (x = 0) then respond_ r (Some Eunknownfid) else respond_ r None.

Definition sremove (r fid : Z) : scmd unit :=
  x <- onfid (removefid fid);;
  rset r (set_rq_fid x);;
  if decide (x = 0) then respond_ r (Some Eunknownfid)
  else
    f <- onfid (xget x);;
    ok <-
      (if decide (fd_file f <> 0) then
         fo <- onfile (fget (fd_file f));;
         file_hasperm (f_parent fo) (fd_uid f) AWRITE
       else cret true);;
    if negb ok then respond_ r (Some Eperm)
    else if srv_remove srv then upcall CRemove r
    else respond_ r (if decide (fd_file f <> 0) then None else Some Enoremove).

Definition sstat (r fid : Z) : scmd unit :=
  x <- onfid (lookupfid fid);;
  rset r (set_rq_fid x);;
  if decide (x = 0) then respond_ r (Some Eunknownfid)
  else
    f <- onfid (xget x);;
    (if decide (fd_file f <> 0) then
       fo <- onfile (fget (fd_file f));;
       rset r (set_rq_d (f_dir fo))
     else cret tt);;
    if srv_stat srv then upcall CStat r
    else if decide (fd_file f <> 0) then respond_ r None
    else respond_ r (Some Enostat).

(** The address of [r->ifcall.stat]. *)
Definition statbuf : Z := 4096.
Definition dir0 : Dir := MkDir 0 0 (MkQid 0 0 0) 0 0 0 0 0 0 0 0.

(** The checks of [swstat] on the entry that was parsed. *)
Definition wstat_error (m : mem) (d : Dir) (ftype : Z) : option bytes :=
  if decide (u16 (Z.lnot (d_type d)) <> 0) then Some (bytes_of "wstat -- attempt to change type")
  else if decide (u32 (Z.lnot (d_dev d)) <> 0) then Some (bytes_of "wstat -- attempt to change dev")
  else if decide (u8 (Z.lnot (q_type (d_qid d))) <> 0 \/ u32 (Z.lnot (q_vers (d_qid d))) <> 0 \/
      u64 (Z.lnot (q_path (d_qid d))) <> 0) then Some (bytes_of "wstat -- attempt to change qid")
  else if decide (d_muid d <> 0 /\ rd8 m (d_muid d) <> 0) then Some (bytes_of "wstat -- attempt to change muid")
  else if decide (u32 (Z.lnot (d_mode d)) <> 0 /\
      Z.shiftr (Z.land (d_mode d) DMDIR) 24 <> Z.land ftype QTDIR) then
    Some (bytes_of "wstat -- attempt to change DMDIR bit")
  else None.

Definition swstat (r fid : Z) (stat : bytes) : scmd unit :=
  x <- onfid (lookupfid fid);;
  rset r (set_rq_fid x);;
  if decide (x = 0) then respond_ r (Some Eunknownfid)
  else if negb (srv_wstat srv) then respond_ r (Some Enowstat)
  else
    let '(n, m, d) := convM2D nullstring statbuf (zlen stat) (st_bytes ∅ statbuf stat) dir0 statbuf in
    rset r (set_rq_wstat (Some (m, d)));;
    if decide (n <> zlen stat) then respond_ r (Some Ebaddir)
    else
      f <- onfid (xget x);;
      match wstat_error m d (q_type (fd_qid f)) with
      | Some e => respond_ r (Some e)
      | None => upcall CWstat r
      end.

(** ** The loop of srv *)

(** [allocreq]; the request is new and owns nothing. *)
Definition allocreq (tag : Z) : scmd Z :=
  r <- cgets rbrk;;
  cmodify (set_rbrk (r + 1));;
  cmodify (fun s => set_reqs
    (<[r := MkReq tag MRflush empty_ofcall empty_dir None 0 0 0 0 0 true false None [] false]> (reqs s)) s);;
  req_incref r;;
  req_incref r;;
  m <- cgets rpool;;
  let '(b, m') := caninsertkey m tag r in
  cmodify (set_rpool m');;
  if b : bool then cret r
  else closereq_ r;; closereq_ r;; cret 0.

(** [getreq] with the message that [convM2S] read: the request and whether its tag
    is in use. *)
Definition getreq (tag : Z) (g : msg) : scmd (Z * bool) :=
  r <- allocreq tag;;
  if decide (r = 0) then
    r <- cgets rbrk;;
    cmodify (set_rbrk (r + 1));;
    cmodify (fun s => set_reqs
      (<[r := MkReq tag g empty_ofcall empty_dir None 0 0 0 0 1 false false (Some Eduptag) [] false]> (reqs s)) s);;
    cret (r, true)
  else
    rset r (fun x => set_rq_ofcall empty_ofcall (set_rq_ifcall g x));;
    cret (r, false).

(** The body of the loop of [srv]. *)
Definition serve (tag : Z) (g : msg) : scmd unit :=
  x <- getreq tag g;;
  let '(r, dup) := x in
  if dup : bool then respond_ r (Some Eduptag)
  else
    match g with
    | MTversion ms v => sversion r ms v
    | MTauth afid _ _ => sauth r afid
    | MTattach fid afid uname _ => sattach r fid afid uname
    | MTflush oldtag => sflush r oldtag
    | MTwalk fid newfid wname => swalk r fid newfid wname
    | MTopen fid mode => sopen r fid mode
    | MTcreate fid _ _ _ => screate r fid
    | MTread fid offset count => sread r fid offset count
    | MTwrite fid offset data => swrite r fid offset data
    | MTclunk fid => sclunk r fid
    | MTremove fid => sremove r fid
    | MTstat fid => sstat r fid
    | MTwstat fid stat => swstat r fid stat
    | _ => respond_ r (Some (bytes_of "unknown message"))
    end.

(** After the loop: the pools are freed; every fid and request that is still in a
    map is given to the server's [destroy] function. *)
Definition srv_end : scmd unit :=
  cmodify (set_msize 0);;
  onfid (cmodify (fun s => set_fpool (allocmap (Some incfidref))
    (set_dfids (freemap (fpool s) (fun x l => l ++ [x]) (dfids s)) s)));;
  cmodify (fun s => set_rpool (allocmap (Some increqref))
    (set_dreqs (freemap (rpool s) (fun x l => l ++ [x]) (dreqs s)) s)).

(** The server responds to a request that it has, with changes to the reply and to
    the entry of a [Tstat]. *)
Definition answer (r : Z) (o : Ofcall -> Ofcall) (d : dirv -> dirv) (error : option bytes) : scmd unit :=
  s <- cget;;
  if decide (r ∈ (calls s).*2) then
    cmodify (fun s => set_calls (filter (fun c => c.2 <> r) (calls s)) s);;
    oset r o;;
    rset r (fun x => set_rq_d (d (rq_d x)) x);;
    respond_ r error
  else cabort.
End Handlers.

(** The state when [srv] enters its loop. *)
Definition srv_start (h : fheap) : srvst :=
  SrvSt (FidSt h ∅ (allocmap (Some incfidref)) 1 []) ∅ (allocmap (Some increqref)) 1 (8192 + IOHDRSZ) [] [] [].
