(* ===== verification/FidSpec.v ===== *)
(** Fids and their references: the count of a fid is the number of its holders and
    of its place in the pool, and the references of the fids to files are those
    that the invariant of the file trees asks for. *)

From S2P Require Import Prelude Mem Links Counts Fcall9P Fcall9PSpec Dir9P Dir9PSpec Intmap IntmapSpec Files FilesSpec FilesOps FilesThms Srv.

(** The references to a file: one of each fid, and [gx] of the server. *)
Definition fext (s : fidst) (gx : Z -> Z) (f : Z) : Z :=
  if decide (f = 0) then 0 else cnt (fun x => fd_file x = f) (fids s) + gx f.

(** The fids that read the directory [f]. *)
Definition reading (f : Z) (x : Fid) : Prop := fd_file x = f /\ fd_rdir x <> 0.
#[export] Instance reading_dec f x : Decision (reading f x).
Proof. unfold reading. apply _. Defined.

(** [fh x] references to the fid [x] are held outside, [g] is the pool as a map. *)
Record fidinv (s : fidst) (fh gx : Z -> Z) (g : gmap Z Z) (K : Z -> list (Z * Z)) : Prop := {
  xi_wf : fwf (fs s) (fext s gx) K;
  xi_map : imap_rep (fpool s) g;
  xi_inc : inc (fpool s) = incfidref;
  xi_pool id x : g !! id = Some x -> exists f, fids s !! x = Some f /\ fd_fid f = id;
  xi_brk : 0 < fbrk s;
  xi_fids x f : fids s !! x = Some f -> 0 < x < fbrk s;
  xi_ref x f : fids s !! x = Some f -> fd_ref f = fh x + b2z (g !! fd_fid f = Some x);
  xi_pos x f : fids s !! x = Some f -> 0 < fd_ref f < 2 ^ 31;
  xi_held x : 0 <= fh x;
  xi_none x : fids s !! x = None -> fh x = 0;
  xi_gx f : 0 <= gx f;
  xi_uid x f : fids s !! x = Some f -> fd_file f <> 0 -> fd_uid f <> None;
  xi_rdir x f : fids s !! x = Some f -> fd_rdir f <> 0 ->
    fd_file f <> 0 /\ exists ro, rds (fs s) !! fd_rdir f = Some ro /\ rd_dir ro = fd_file f;
  xi_rdirs x y f f' : fids s !! x = Some f -> fids s !! y = Some f' -> fd_rdir f <> 0 ->
    fd_rdir f = fd_rdir f' -> x = y;
  xi_readers f : nrd (fs s) f <= cnt (reading f) (fids s) + gx f
}.

Section Access.
Context {R : Type}.

Lemma xget_go x s f : fids s !! x = Some f -> xget (R := R) x s = (Go f, s).
Proof. intros H. unfold xget. by rewrite H. Qed.

Lemma xset_go x g s f : fids s !! x = Some f ->
  xset (R := R) x g s = (Go tt, set_fids (<[x := g f]> (fids s)) s).
Proof. intros H. unfold xset. by rewrite H. Qed.

Lemma onfs_go {A} (c : cmd fheap R A) s a h : c (fs s) = (Go a, h) -> onfs c s = (Go a, set_fs h s).
Proof. intros H. unfold onfs. by rewrite H. Qed.
End Access.

Lemma held_fid s fh gx g K x : fidinv s fh gx g K -> 0 < fh x -> exists f, fids s !! x = Some f.
Proof.
intros I H. destruct (fids s !! x) as [f|] eqn:E; [by exists f|]. pose proof (xi_none _ _ _ _ _ I x E). lia.
Qed.

(** The file of a fid is alive. *)
Lemma fid_file s fh gx g K x f : fidinv s fh gx g K -> fids s !! x = Some f -> fd_file f <> 0 ->
  0 < fext s gx (fd_file f) /\ exists fo, files (fs s) !! fd_file f = Some fo /\ 0 < f_ref fo.
Proof.
intros I Hf Hz. assert (0 < fext s gx (fd_file f)) as Hp.
{ unfold fext. rewrite decide_False by done. pose proof (xi_gx _ _ _ _ _ I (fd_file f)).
  pose proof (cnt_pos (fun x => fd_file x = fd_file f) (fids s) x f Hf eq_refl). lia. }
split; [done|]. eapply held_file; [apply (xi_wf _ _ _ _ _ I)|done].
Qed.

(** A fid that does not read its file leaves a reference to spare. *)
Lemma fid_spare s fh gx g K x f : fidinv s fh gx g K -> fids s !! x = Some f -> fd_file f <> 0 ->
  fd_rdir f = 0 -> nrd (fs s) (fd_file f) < fext s gx (fd_file f).
Proof.
intros I Hf Hz Hr. unfold fext. rewrite decide_False by done. pose proof (xi_readers _ _ _ _ _ I (fd_file f)) as Hn.
assert (cnt (reading (fd_file f)) (fids s) < cnt (fun x => fd_file x = fd_file f) (fids s)); [|lia].
pose proof (cnt_delete (reading (fd_file f)) (fids s) x f Hf) as E1.
pose proof (cnt_delete (fun x => fd_file x = fd_file f) (fids s) x f Hf) as E2.
rewrite b2z_false in E1 by (intros [_ H]; done). rewrite b2z_true in E2 by done.
pose proof (cnt_mono (reading (fd_file f)) (fun x => fd_file x = fd_file f) (delete x (fids s)) (fun _ _ _ H => proj1 H)).
lia.
Qed.

Lemma fwf_ext h ext ext' K : fwf h ext K -> (forall f, ext' f = ext f) -> fwf h ext' K.
Proof. intros (I & U & Hr) E. split; [by eapply finv_ext|by split]. Qed.

(** A fid is changed where the invariant does not look. *)
Lemma fidinv_set s fh gx g K x f f' : fidinv s fh gx g K -> fids s !! x = Some f ->
  fd_fid f' = fd_fid f -> fd_file f' = fd_file f -> fd_rdir f' = fd_rdir f -> fd_ref f' = fd_ref f ->
  (fd_file f <> 0 -> fd_uid f' <> None) ->
  fidinv (set_fids (<[x := f']> (fids s)) s) fh gx g K.
Proof.
intros I Hf E1 E2 E3 E4 Hu.
assert (forall y o, <[x := f']> (fids s) !! y = Some o -> exists o0, fids s !! y = Some o0 /\
  fd_fid o = fd_fid o0 /\ fd_file o = fd_file o0 /\ fd_rdir o = fd_rdir o0 /\ fd_ref o = fd_ref o0) as Hsh.
{ intros y o. destruct (decide (y = x)) as [->|Hne].
  - rewrite lookup_insert_eq. intros [= <-]. by exists f.
  - rewrite lookup_insert_ne by done. intros Ho. by exists o. }
assert (forall f0, cnt (fun o => fd_file o = f0) (<[x := f']> (fids s)) = cnt (fun o => fd_file o = f0) (fids s)) as Hc
  by (intros f0; apply (cnt_keep _ _ x f); [done|by rewrite E2]).
constructor; cbn; try apply I.
- eapply fwf_ext; [apply I|]. intros f0. unfold fext. cbn. by rewrite Hc.
- intros id y Hy. destruct (xi_pool _ _ _ _ _ I id y Hy) as (o & Ho & Hid). destruct (decide (y = x)) as [->|Hne].
  + exists f'. rewrite lookup_insert_eq. split; [done|congruence].
  + exists o. by rewrite lookup_insert_ne.
- intros y o Ho. destruct (Hsh y o Ho) as (o0 & Ho0 & _). by apply (xi_fids _ _ _ _ _ I y o0).
- intros y o Ho. destruct (Hsh y o Ho) as (o0 & Ho0 & -> & _ & _ & ->). by apply (xi_ref _ _ _ _ _ I).
- intros y o Ho. destruct (Hsh y o Ho) as (o0 & Ho0 & _ & _ & _ & ->). by apply (xi_pos _ _ _ _ _ I y).
- intros y Hy. apply (xi_none _ _ _ _ _ I). by apply lookup_insert_None in Hy as [? _].
- intros y o. destruct (decide (y = x)) as [->|Hne].
  + rewrite lookup_insert_eq. intros [= <-]. by rewrite E2.
  + rewrite lookup_insert_ne by done. apply (xi_uid _ _ _ _ _ I).
- intros y o Ho. destruct (Hsh y o Ho) as (o0 & Ho0 & _ & -> & -> & _). by apply (xi_rdir _ _ _ _ _ I y).
- intros y z o o' Ho Ho'. destruct (Hsh y o Ho) as (o0 & Ho0 & _ & _ & -> & _).
  destruct (Hsh z o' Ho') as (o0' & Ho0' & _ & _ & -> & _). by apply (xi_rdirs _ _ _ _ _ I y z).
- intros f0. rewrite (cnt_keep _ _ x f); [apply (xi_readers _ _ _ _ _ I)|done|]. unfold reading. by rewrite E2, E3.
Qed.

(** The count of a fid, the pool and the holders change together. *)
Lemma fidinv_refs s s' fh fh' gx g g' K x f n : fidinv s fh gx g K -> fids s !! x = Some f ->
  fids s' = <[x := set_fid_ref n f]> (fids s) -> fs s' = fs s -> fbrk s' = fbrk s ->
  imap_rep (fpool s') g' -> inc (fpool s') = incfidref ->
  (forall y, y <> x -> fh' y = fh y) -> (forall y id, y <> x -> g' !! id = Some y <-> g !! id = Some y) ->
  (forall id, g' !! id = Some x -> fd_fid f = id) ->
  n = fh' x + b2z (g' !! fd_fid f = Some x) -> 0 < n < 2 ^ 31 -> 0 <= fh' x ->
  fidinv s' fh' gx g' K.
Proof.
intros I Hf Efs Eh Eb Hm Hi Hfh Hg Hgx Hn Hb H0.
assert (forall y o, fids s' !! y = Some o -> (y = x /\ o = set_fid_ref n f) \/ (y <> x /\ fids s !! y = Some o)) as Hsh.
{ intros y o. rewrite Efs. destruct (decide (y = x)) as [->|Hne].
  - rewrite lookup_insert_eq. intros [= <-]. by left.
  - rewrite lookup_insert_ne by done. by right. }
assert (forall y o, fids s' !! y = Some o -> exists o0, fids s !! y = Some o0 /\ fd_fid o = fd_fid o0 /\
   fd_file o = fd_file o0 /\ fd_rdir o = fd_rdir o0 /\ fd_uid o = fd_uid o0) as Hsh2.
{ intros y o Ho. destruct (Hsh y o Ho) as [[-> ->]|[_ ?]]; [by exists f|by exists o]. }
assert (forall (P : Fid -> Prop) `{forall v, Decision (P v)}, (P f <-> P (set_fid_ref n f)) ->
  cnt P (fids s') = cnt P (fids s)) as Hc.
{ intros P HP Hiff. rewrite Efs. by apply (cnt_keep _ _ x f). }
constructor; rewrite ?Eh, ?Eb; try apply I; try done.
- eapply fwf_ext; [apply I|]. intros f0. unfold fext. by rewrite Hc.
- intros id y Hy. destruct (decide (y = x)) as [->|Hne].
  + exists (set_fid_ref n f). rewrite Efs, lookup_insert_eq. split; [done|]. by apply Hgx.
  + apply Hg in Hy; [|done]. destruct (xi_pool _ _ _ _ _ I id y Hy) as (o & Ho & Hid). exists o.
    by rewrite Efs, lookup_insert_ne.
- intros y o Ho. destruct (Hsh2 y o Ho) as (o0 & Ho0 & _). by apply (xi_fids _ _ _ _ _ I y o0).
- intros y o Ho. destruct (Hsh y o Ho) as [[-> ->]|[Hne Ho0]]; [done|]. rewrite Hfh by done.
  rewrite (xi_ref _ _ _ _ _ I y o Ho0). f_equal. pose proof (Hg y (fd_fid o) Hne). unfold b2z. repeat case_decide; tauto || lia.
- intros y o Ho. destruct (Hsh y o Ho) as [[-> ->]|[Hne Ho0]]; [done|by apply (xi_pos _ _ _ _ _ I y)].
- intros y. destruct (decide (y = x)) as [->|Hne]; [done|]. rewrite Hfh by done. apply I.
- intros y Hy. rewrite Efs in Hy. apply lookup_insert_None in Hy as [Hy Hne]. rewrite Hfh by done. by apply (xi_none _ _ _ _ _ I).
- intros y o Ho. destruct (Hsh2 y o Ho) as (o0 & Ho0 & _ & -> & _ & ->). by apply (xi_uid _ _ _ _ _ I y).
- intros y o Ho. destruct (Hsh2 y o Ho) as (o0 & Ho0 & _ & -> & -> & _). by apply (xi_rdir _ _ _ _ _ I y).
- intros y z o o' Ho Ho'. destruct (Hsh2 y o Ho) as (o0 & Ho0 & _ & _ & -> & _).
  destruct (Hsh2 z o' Ho') as (o0' & Ho0' & _ & _ & -> & _). by apply (xi_rdirs _ _ _ _ _ I y z).
- intros f0. rewrite Hc by done. apply (xi_readers _ _ _ _ _ I).
Qed.

Lemma incfidref_some x f m : x <> 0 -> m !! x = Some f ->
  incfidref x (Some m) = Some (<[x := set_fid_ref (s32 (fd_ref f + 1)) f]> m).
Proof. intros Hx Hf. unfold incfidref. rewrite decide_False by done. cbn. by rewrite Hf. Qed.

Section Ops.
Context {R : Type}.

Lemma lookupfid_none s fh gx g K fid : fidinv s fh gx g K -> g !! fid = None ->
  lookupfid (R := R) fid s = (Go 0, s).
Proof.
intros I Hg. unfold lookupfid. rewrite (lookupkey_spec _ g) by apply I. by rewrite Hg.
Qed.

Lemma lookupfid_some s fh gx g K fid x : fidinv s fh gx g K -> g !! fid = Some x ->
  (forall f, fids s !! x = Some f -> fd_ref f < 2 ^ 31 - 1) ->
  exists s' f, lookupfid (R := R) fid s = (Go x, s') /\ fidinv s' (upd fh x 1) gx g K /\ x <> 0 /\
    fids s !! x = Some f /\ fd_fid f = fid /\ fids s' = <[x := set_fid_ref (fd_ref f + 1) f]> (fids s) /\ fs s' = fs s.
Proof.
intros I Hg Hb. destruct (xi_pool _ _ _ _ _ I fid x Hg) as (f & Hf & Hid).
pose proof (xi_fids _ _ _ _ _ I x f Hf). pose proof (xi_pos _ _ _ _ _ I x f Hf). specialize (Hb f Hf).
unfold lookupfid. rewrite (lookupkey_spec _ g) by apply I. rewrite Hg, (xi_inc _ _ _ _ _ I).
rewrite (incfidref_some x f) by (done || lia). rewrite s32_small by lia.
eexists _, f. split; [reflexivity|]. split; [|split; [lia|by split_and!]].
pose proof (xi_held _ _ _ _ _ I x). pose proof (xi_ref _ _ _ _ _ I x f Hf).
eapply (fidinv_refs s _ fh _ gx g g K x f (fd_ref f + 1)); try done; try apply I; rewrite ?upd_eq; try lia.
- intros y Hy. by apply upd_ne.
- intros id Hid'. destruct (xi_pool _ _ _ _ _ I id x Hid') as (f' & Hf' & E). congruence.
Qed.

Lemma removefid_none s fh gx g K fid : fidinv s fh gx g K -> g !! fid = None ->
  exists s', removefid (R := R) fid s = (Go 0, s') /\ fidinv s' fh gx g K /\ fids s' = fids s /\ fs s' = fs s.
Proof.
intros I Hg. unfold removefid. destruct (deletekey_spec (fpool s) g fid (xi_map _ _ _ _ _ I)) as (m' & E & Hm & Hi).
rewrite E, Hg. eexists. split; [reflexivity|]. split; [|done]. rewrite delete_id in Hm by done.
destruct I. constructor; try done. cbn. by rewrite Hi.
Qed.

Lemma removefid_some s fh gx g K fid x : fidinv s fh gx g K -> g !! fid = Some x ->
  exists s' f, removefid (R := R) fid s = (Go x, s') /\ fidinv s' (upd fh x 1) gx (delete fid g) K /\ x <> 0 /\
    fids s !! x = Some f /\ fd_fid f = fid /\ fids s' = fids s /\ fs s' = fs s.
Proof.
intros I Hg. unfold removefid. destruct (deletekey_spec (fpool s) g fid (xi_map _ _ _ _ _ I)) as (m' & E & Hm & Hi).
destruct (xi_pool _ _ _ _ _ I fid x Hg) as (f & Hf & Hid). pose proof (xi_fids _ _ _ _ _ I x f Hf).
rewrite E, Hg. eexists _, f. split; [reflexivity|]. split; [|split; [cbn; lia|by split_and!]].
pose proof (xi_held _ _ _ _ _ I x). pose proof (xi_ref _ _ _ _ _ I x f Hf) as Hr. pose proof (xi_pos _ _ _ _ _ I x f Hf).
assert (forall id, g !! id = Some x -> fid = id) as Hx.
{ intros id Hid'. destruct (xi_pool _ _ _ _ _ I id x Hid') as (f' & Hf' & E'). congruence. }
eapply (fidinv_refs s _ fh _ gx g (delete fid g) K x f (fd_ref f)); try done; rewrite ?upd_eq; try lia.
- cbn. rewrite insert_id; [done|]. rewrite Hf. by destruct f.
- cbn. rewrite Hi. apply I.
- intros y Hy. by apply upd_ne.
- intros y id Hy. rewrite lookup_delete_Some. split; [tauto|]. intros Hid'. split; [|done]. congruence.
- intros id Hid'. apply lookup_delete_Some in Hid' as [_ Hid']. rewrite Hid. by apply Hx.
- rewrite Hr, Hid. rewrite b2z_true by done. rewrite b2z_false by (rewrite lookup_delete_eq; done). lia.
Qed.

End Ops.

(** A reference to [x] that is not the last one is given up. *)
Lemma closefid_dec {R} s fh gx g K x f : fidinv s fh gx g K -> fids s !! x = Some f -> 0 < fh x -> fd_ref f <> 1 ->
  closefid (R := R) x s = (Go tt, set_fids (<[x := set_fid_ref (fd_ref f - 1) f]> (fids s)) s) /\
  fidinv (set_fids (<[x := set_fid_ref (fd_ref f - 1) f]> (fids s)) s) (upd fh x (-1)) gx g K.
Proof.
intros I Hf Hh Hne. pose proof (xi_pos _ _ _ _ _ I x f Hf) as Hp. pose proof (xi_ref _ _ _ _ _ I x f Hf) as Hr.
unfold closefid. rewrite (cbind_go _ _ _ _ _ (xset_go x _ s f Hf)). rewrite s32_small by lia.
set (s1 := set_fids _ s). assert (fids s1 !! x = Some (set_fid_ref (fd_ref f - 1) f)) as Hf1 by (cbn; by rewrite lookup_insert_eq).
rewrite (cbind_go _ _ _ _ _ (xget_go x s1 _ Hf1)). rewrite decide_False by (cbn; lia). split; [done|].
eapply (fidinv_refs s s1 fh _ gx g g K x f (fd_ref f - 1)); try done; try apply I; rewrite ?upd_eq; try lia.
- intros y Hy. by apply upd_ne.
- intros id Hid. destruct (xi_pool _ _ _ _ _ I id x Hid) as (f' & Hf' & E). congruence.
Qed.

(** The fid is gone, and so is its reference to its file. *)
Lemma fidinv_delete s s' fh gx g K K' x f : fidinv s fh gx g K -> fids s !! x = Some f ->
  (forall id, g !! id <> Some x) -> fh x = 1 ->
  fids s' = delete x (fids s) -> fpool s' = fpool s -> fbrk s' = fbrk s ->
  fwf (fs s') (if decide (fd_file f = 0) then fext s gx else upd (fext s gx) (fd_file f) (-1)) K' ->
  (forall r ro, rds (fs s) !! r = Some ro -> r <> fd_rdir f -> rds (fs s') !! r = Some ro) ->
  (forall y, nrd (fs s') y = nrd (fs s) y - b2z (fd_rdir f <> 0 /\ fd_file f = y)) ->
  fidinv s' (upd fh x (-1)) gx g K'.
Proof.
intros I Hf Hg Hh Efs Ep Eb W Hrds Hnrd.
assert (Hsub : forall y o, fids s' !! y = Some o -> y <> x /\ fids s !! y = Some o).
{ intros y o. rewrite Efs. intros [? ?]%lookup_delete_Some. by split. }
constructor; rewrite ?Ep, ?Eb; try apply I.
- eapply fwf_ext; [exact W|]. intros y. unfold fext. rewrite Efs, (cnt_delete _ _ x f Hf).
  destruct (decide (fd_file f = 0)) as [Hz|Hz].
  + destruct (decide (y = 0)); [done|]. rewrite b2z_false by congruence. lia.
  + unfold upd. cbn beta. destruct (decide (y = fd_file f)) as [->|Hne].
    * rewrite b2z_true by done. repeat case_decide; try done; lia.
    * destruct (decide (y = 0)); [done|]. rewrite b2z_false by done. lia.
- intros id y Hy. destruct (xi_pool _ _ _ _ _ I id y Hy) as (o & Ho & Hid). exists o. split; [|done].
  rewrite Efs, lookup_delete_ne; [done|]. intros <-. by apply (Hg id).
- intros y o Ho. destruct (Hsub y o Ho) as [_ Ho']. by apply (xi_fids _ _ _ _ _ I y o).
- intros y o Ho. destruct (Hsub y o Ho) as [Hne Ho']. rewrite upd_ne by done. by apply (xi_ref _ _ _ _ _ I).
- intros y o Ho. destruct (Hsub y o Ho) as [Hne Ho']. by apply (xi_pos _ _ _ _ _ I y).
- intros y. pose proof (xi_held _ _ _ _ _ I y). unfold upd. destruct (decide (y = x)) as [->|Hne]; [rewrite Hh; lia|done].
- intros y Hy. destruct (decide (y = x)) as [->|Hne]; [rewrite upd_eq; lia|]. rewrite upd_ne by done.
  apply (xi_none _ _ _ _ _ I). rewrite Efs in Hy. apply lookup_delete_None in Hy as [?|?]; [congruence|done].
- intros y o Ho. destruct (Hsub y o Ho) as [_ Ho']. by apply (xi_uid _ _ _ _ _ I y).
- intros y o Ho Hr. destruct (Hsub y o Ho) as [Hne Ho']. destruct (xi_rdir _ _ _ _ _ I y o Ho' Hr) as (Hz & ro & Hro & Hd).
  split; [done|]. exists ro. split; [|done]. apply Hrds; [done|]. intros E.
  apply Hne. by apply (xi_rdirs _ _ _ _ _ I y x o f).
- intros y z o o' Ho Ho'. destruct (Hsub y o Ho) as [_ H1]. destruct (Hsub z o' Ho') as [_ H2]. by apply (xi_rdirs _ _ _ _ _ I y z).
- intros y. rewrite Hnrd, Efs, (cnt_delete _ _ x f Hf). pose proof (xi_readers _ _ _ _ _ I y).
  unfold reading, b2z in *. repeat case_decide; try lia; tauto.
Qed.

(** [closefid]: the last reference closes the reader of the fid and gives up its
    file. *)
Lemma closefid_last {R} s fh gx g K x f : fidinv s fh gx g K -> fids s !! x = Some f -> 0 < fh x -> fd_ref f = 1 ->
  exists s' K', closefid (R := R) x s = (Go tt, s') /\ fidinv s' (upd fh x (-1)) gx g K' /\
    fids s' = delete x (fids s) /\ trees (fs s') = trees (fs s).
Proof.
intros I Hf Hh H1. pose proof (xi_pos _ _ _ _ _ I x f Hf) as Hp. pose proof (xi_ref _ _ _ _ _ I x f Hf) as Hr.
pose proof (b2z_range (g !! fd_fid f = Some x)). pose proof (xi_wf _ _ _ _ _ I) as W.
assert (forall id, g !! id <> Some x) as Hg.
{ intros id Hid. destruct (xi_pool _ _ _ _ _ I id x Hid) as (f' & Hf' & E). rewrite Hf in Hf'. injection Hf' as <-.
  rewrite <- E in Hid. rewrite b2z_true in Hr by done. lia. }
unfold closefid. rewrite (cbind_go _ _ _ _ _ (xset_go x _ s f Hf)). rewrite s32_small by lia.
set (s1 := set_fids _ s). assert (fids s1 !! x = Some (set_fid_ref (fd_ref f - 1) f)) as Hf1 by (cbn; by rewrite lookup_insert_eq).
rewrite (cbind_go _ _ _ _ _ (xget_go x s1 _ Hf1)). rewrite decide_True by (cbn; lia). cbn [fd_rdir fd_file set_fid_ref].
assert (exists h1 K1, (if decide (fd_rdir f <> 0) then onfs (R := R) (closedirfile (fd_rdir f)) else cret tt) s1 = (Go tt, set_fs h1 s1) /\
  fwf h1 (fext s gx) K1 /\ (forall r ro, rds (fs s) !! r = Some ro -> r <> fd_rdir f -> rds h1 !! r = Some ro) /\
  (forall y, nrd h1 y = nrd (fs s) y - b2z (fd_rdir f <> 0 /\ fd_file f = y)) /\ trees h1 = trees (fs s))
  as (h1 & K1 & E1 & W1 & Hr1 & Hn1 & Ht1).
{ destruct (decide (fd_rdir f <> 0)) as [Hrd|Hrd].
  - destruct (xi_rdir _ _ _ _ _ I x f Hf Hrd) as (Hz & ro & Hro & Hd).
    destruct (closedirfile_spec (R := R) (fs s) _ K _ ro (proj1 W) Hro) as (h1 & K1 & E & I1 & Hk & Er & HK).
    exists h1, K1. split; [by apply (onfs_go _ s1)|]. split; [|split; [|split; [|apply Hk]]].
    + eapply fwf_evolves; [exact W|exact I1|by apply keeps_dirs_evolves|by apply sub_of_eq|apply Hk].
    + intros r ro' Hr' Hne. rewrite Er. by rewrite lookup_delete_ne.
    + intros y. unfold nrd. rewrite Er, (cnt_delete _ _ _ ro Hro). rewrite Hd. unfold b2z. repeat case_decide; try lia; tauto.
  - exists (fs s), K. split; [by destruct s|]. split; [done|]. split; [done|]. split; [|done].
    intros y. rewrite b2z_false by tauto. lia. }
rewrite (cbind_go _ _ _ _ _ E1). unfold cbind at 1, cmodify at 1. set (s2 := set_dfids _ _).
assert (exists h2 K2, (if decide (fd_file f <> 0) then onfs (R := R) (closefile (fd_file f)) else cret tt) s2 = (Go tt, set_fs h2 s2) /\
  fwf h2 (if decide (fd_file f = 0) then fext s gx else upd (fext s gx) (fd_file f) (-1)) K2 /\
  rds h2 = rds h1 /\ trees h2 = trees h1) as (h2 & K2 & E2 & W2 & Hr2 & Ht2).
{ destruct (decide (fd_file f <> 0)) as [Hz|Hz].
  - rewrite decide_False by done.
    assert (nrd h1 (fd_file f) < fext s gx (fd_file f)) as Hlt.
    { rewrite Hn1. destruct (decide (fd_rdir f = 0)) as [E|E].
      - pose proof (fid_spare _ _ _ _ _ _ _ I Hf Hz E). rewrite b2z_false by tauto. lia.
      - rewrite b2z_true by done. unfold fext. rewrite decide_False by done.
        pose proof (xi_readers _ _ _ _ _ I (fd_file f)).
        pose proof (cnt_mono (reading (fd_file f)) (fun x => fd_file x = fd_file f) (fids s) (fun _ _ _ H => proj1 H)). lia. }
    pose proof (nrd_nonneg h1 (fd_file f)).
    destruct (closefile_spec (R := R) h1 _ K1 (fd_file f) (proj1 W1)) as (h2 & K2 & E & I2 & Hk & HK); [lia|lia|].
    exists h2, K2. split; [by apply (onfs_go _ s2)|]. split; [|split; apply Hk].
    eapply fwf_evolves; [exact W1|exact I2|by apply keeps_evolves|by apply sub_of_eq|apply Hk].
  - rewrite decide_True by lia. by exists h1, K1. }
rewrite (cbind_go _ _ _ _ _ E2). unfold cmodify. eexists _, K2. split; [reflexivity|].
assert (delete x (<[x := set_fid_ref (fd_ref f - 1) f]> (fids s)) = delete x (fids s)) as Edel by apply delete_insert_eq.
split; [|split; [done|cbn; congruence]]. apply (fidinv_delete s _ fh gx g K K2 x f I Hf Hg); try done.
- rewrite b2z_false in Hr by apply Hg. lia.
- intros r ro Hro Hne. cbn. rewrite Hr2. by apply Hr1.
- intros y. cbn. rewrite (nrd_rds _ _ _ Hr2). apply Hn1.
Qed.

Lemma closefid_spec {R} s fh gx g K x f : fidinv s fh gx g K -> fids s !! x = Some f -> 0 < fh x ->
  exists s' K', closefid (R := R) x s = (Go tt, s') /\ fidinv s' (upd fh x (-1)) gx g K' /\
    fids s' = (if decide (fd_ref f = 1) then delete x (fids s) else <[x := set_fid_ref (fd_ref f - 1) f]> (fids s)) /\
    trees (fs s') = trees (fs s).
Proof.
intros I Hf Hh. case_decide as H1.
- by apply (closefid_last (R := R) s fh gx g K x f).
- destruct (closefid_dec (R := R) s fh gx g K x f I Hf Hh H1) as [E I']. by eauto 8.
Qed.

Lemma fidinv_ext s fh fh' gx gx' g K : fidinv s fh gx g K -> (forall x, fh' x = fh x) -> (forall f, gx' f = gx f) ->
  fidinv s fh' gx' g K.
Proof.
intros I Hf Hg. constructor; try apply I.
- eapply fwf_ext; [apply I|]. intros f. unfold fext. by rewrite Hg.
- intros x f Hx. rewrite Hf. by apply (xi_ref _ _ _ _ _ I).
- intros x. rewrite Hf. apply I.
- intros x Hx. rewrite Hf. by apply (xi_none _ _ _ _ _ I).
- intros f. rewrite Hg. apply I.
- intros f. rewrite Hg. apply I.
Qed.

(** *** allocfid *)

Definition new_fid (fid n : Z) : Fid := MkFid fid (-1) 0 None (MkQid 0 0 0) 0 n 0.

(** A new fid with [k] references outside. *)
Lemma fidinv_new s s' fh gx g g' K x fid n k : fidinv s fh gx g K -> fids s !! x = None -> 0 < x < fbrk s' ->
  fbrk s <= fbrk s' -> fids s' = <[x := new_fid fid n]> (fids s) -> fs s' = fs s ->
  imap_rep (fpool s') g' -> inc (fpool s') = incfidref ->
  (g' = g \/ g' = <[fid := x]> g /\ g !! fid = None) -> 0 <= k -> 0 < n < 2 ^ 31 ->
  n = k + b2z (g' !! fid = Some x) -> fidinv s' (upd fh x k) gx g' K.
Proof.
intros I Hnew Hx Hb Efs Eh Hm Hi Hg Hk Hn Hnk.
assert (Hsh : forall y o, fids s' !! y = Some o -> (y = x /\ o = new_fid fid n) \/ (y <> x /\ fids s !! y = Some o)).
{ intros y o. rewrite Efs. destruct (decide (y = x)) as [->|Hne].
  - rewrite lookup_insert_eq. intros [= <-]. by left.
  - rewrite lookup_insert_ne by done. by right. }
assert (Hx0 : fh x = 0) by (by apply (xi_none _ _ _ _ _ I)).
assert (Hgx : forall id, g !! id <> Some x).
{ intros id Hid. destruct (xi_pool _ _ _ _ _ I id x Hid) as (o & Ho & _). congruence. }
assert (Hg' : forall y id, y <> x -> g' !! id = Some y <-> g !! id = Some y).
{ intros y id Hne. destruct Hg as [->|[-> Hf]]; [done|]. rewrite lookup_insert_Some. split; [|intros H; right; split; [congruence|done]].
  intros [[_ E]|[_ E]]; congruence. }
constructor; rewrite ?Eh; try apply I; try done.
- eapply fwf_ext; [apply I|]. intros y. unfold fext. rewrite Efs, cnt_insert_new by done.
  destruct (decide (y = 0)); [done|]. rewrite b2z_false by (cbn; congruence). lia.
- intros id y Hy. destruct (decide (y = x)) as [->|Hne].
  + exists (new_fid fid n). rewrite Efs, lookup_insert_eq. split; [done|]. cbn.
    destruct Hg as [->|[-> Hf]]; [by destruct (Hgx id)|].
    apply lookup_insert_Some in Hy as [[? _]|[_ Hy]]; [done|by destruct (Hgx id)].
  + apply Hg' in Hy; [|done]. destruct (xi_pool _ _ _ _ _ I id y Hy) as (o & Ho & Hid). exists o.
    by rewrite Efs, lookup_insert_ne.
- pose proof (xi_brk _ _ _ _ _ I). lia.
- intros y o Ho. destruct (Hsh y o Ho) as [[-> ->]|[Hne Ho0]]; [done|].
  pose proof (xi_fids _ _ _ _ _ I y o Ho0). lia.
- intros y o Ho. destruct (Hsh y o Ho) as [[-> ->]|[Hne Ho0]]; [rewrite upd_eq, Hx0; cbn; lia|].
  rewrite upd_ne by done. rewrite (xi_ref _ _ _ _ _ I y o Ho0). pose proof (Hg' y (fd_fid o) Hne).
  unfold b2z. repeat case_decide; try lia; tauto.
- intros y o Ho. destruct (Hsh y o Ho) as [[-> ->]|[Hne Ho0]]; [done|by apply (xi_pos _ _ _ _ _ I y)].
- intros y. unfold upd. pose proof (xi_held _ _ _ _ _ I y). destruct (decide (y = x)); lia.
- intros y Hy. rewrite Efs in Hy. apply lookup_insert_None in Hy as [Hy Hne]. rewrite upd_ne by done. by apply (xi_none _ _ _ _ _ I).
- intros y o Ho. destruct (Hsh y o Ho) as [[-> ->]|[Hne Ho0]]; [done|by apply (xi_uid _ _ _ _ _ I y)].
- intros y o Ho. destruct (Hsh y o Ho) as [[-> ->]|[Hne Ho0]]; [done|by apply (xi_rdir _ _ _ _ _ I y)].
- intros y z o o' Ho Ho' Hr E. destruct (Hsh y o Ho) as [[-> ->]|[Hne Ho0]]; [done|].
  destruct (Hsh z o' Ho') as [[-> ->]|[Hne' Ho0']]; [by rewrite E in Hr|]. by apply (xi_rdirs _ _ _ _ _ I y z o o').
- intros y. rewrite Efs, cnt_insert_new by done. pose proof (xi_readers _ _ _ _ _ I y).
  pose proof (b2z_range (reading y (new_fid fid n))). lia.
Qed.

Section Alloc.
Context {R : Type}.

Lemma allocfid_run s fh gx g K fid : fidinv s fh gx g K ->
  exists x s', allocfid (R := R) fid s =
      (if bool_decide (g !! fid = None) then cret x else closefid x;; closefid x;; cret 0) s' /\
    fids s !! x = None /\ 0 < x < fbrk s' /\ fbrk s <= fbrk s' /\ fids s' = <[x := new_fid fid 2]> (fids s) /\
    fs s' = fs s /\ inc (fpool s') = incfidref /\
    imap_rep (fpool s') (match g !! fid with Some _ => g | None => <[fid := x]> g end).
Proof.
intros I. unfold allocfid. unfold cbind at 1, cgets at 1. unfold cbind at 1, cmodify at 1. unfold cbind at 1, cmodify at 1.
set (x := fbrk s). pose proof (xi_brk _ _ _ _ _ I) as Hbrk. assert (fids s !! x = None) as Hnew.
{ destruct (fids s !! x) as [f|] eqn:E; [|done]. pose proof (xi_fids _ _ _ _ _ I x f E). unfold x in *. lia. }
set (s1 := set_fids _ _). assert (fids s1 !! x = Some empty_fid) as H1 by (cbn; by rewrite lookup_insert_eq).
rewrite (cbind_go _ _ _ _ _ (xset_go x _ s1 _ H1)). set (s2 := set_fids _ s1).
unfold fid_incref.
assert (exists f2, fids s2 !! x = Some f2) as [f2 H2] by (eexists; cbn; by rewrite lookup_insert_eq).
rewrite (cbind_go _ _ _ _ _ (xset_go x _ s2 _ H2)). set (s3 := set_fids _ s2).
assert (exists f3, fids s3 !! x = Some f3) as [f3 H3] by (eexists; cbn; by rewrite lookup_insert_eq).
rewrite (cbind_go _ _ _ _ _ (xset_go x _ s3 _ H3)). set (s4 := set_fids _ s3).
assert (fids s4 = <[x := new_fid fid 2]> (fids s)) as E4.
{ cbn in H2. rewrite lookup_insert_eq in H2. injection H2 as <-.
  cbn in H3. rewrite lookup_insert_eq in H3. injection H3 as <-. cbn. by rewrite !insert_insert_eq. }
unfold cbind at 1, cgets at 1. change (fpool s4) with (fpool s).
destruct (caninsertkey_spec (fpool s) g fid x (xi_map _ _ _ _ _ I)) as (m' & E & Hm & Hi). rewrite E.
rewrite (xi_inc _ _ _ _ _ I) in Hi. unfold cbind at 1, cmodify at 1.
exists x, (set_fpool m' s4). split; [done|]. split; [done|]. cbn. by split_and!; try lia.
Qed.

Lemma allocfid_spec s fh gx g K fid : fidinv s fh gx g K ->
  (g !! fid = None /\ exists x s', allocfid (R := R) fid s = (Go x, s') /\ x <> 0 /\ fids s !! x = None /\
     fidinv s' (upd fh x 1) gx (<[fid := x]> g) K /\
     fids s' = <[x := new_fid fid 2]> (fids s) /\ fs s' = fs s) \/
  (is_Some (g !! fid) /\ exists s' K', allocfid (R := R) fid s = (Go 0, s') /\ fidinv s' fh gx g K' /\
     fids s' = fids s /\ trees (fs s') = trees (fs s)).
Proof.
intros I. destruct (allocfid_run s fh gx g K fid I) as (x & s5 & -> & Hnew & Hx & Hb & Efs & Eh & Hi & Hm).
destruct (g !! fid) as [y|] eqn:Eg.
- right. rewrite bool_decide_eq_false_2 by done. split; [done|].
  assert (fidinv s5 (upd fh x 2) gx g K) as I5.
  { assert (g !! fid <> Some x) as Hgx.
    { intros Hid. destruct (xi_pool _ _ _ _ _ I fid x Hid) as (o & Ho & _). congruence. }
    apply (fidinv_new s s5 fh gx g g K x fid 2 2); try done; [by left|]. by rewrite b2z_false by done. }
  assert (fids s5 !! x = Some (new_fid fid 2)) as H5 by (by rewrite Efs, lookup_insert_eq).
  pose proof (xi_none _ _ _ _ _ I x Hnew) as H0.
  destruct (closefid_dec (R := R) s5 _ gx g K x _ I5 H5) as [Ec I6]; [rewrite upd_eq; lia|done|].
  rewrite (cbind_go _ _ _ _ _ Ec). set (s6 := set_fids _ s5) in *.
  assert (fids s6 !! x = Some (set_fid_ref 1 (new_fid fid 2))) as H6 by (cbn; by rewrite lookup_insert_eq).
  destruct (closefid_last (R := R) s6 _ gx g K x _ I6 H6) as (s7 & K7 & Ec7 & I7 & E7 & Et7); [rewrite !upd_eq; lia|done|].
  rewrite (cbind_go _ _ _ _ _ Ec7). exists s7, K7. split; [done|]. split.
  + eapply fidinv_ext; [exact I7| |done]. intros z. unfold upd. repeat case_decide; lia.
  + split; [|rewrite Et7; cbn; by rewrite Eh]. rewrite E7. cbn. rewrite Efs. rewrite !delete_insert_eq. by apply delete_id.
- left. rewrite bool_decide_eq_true_2 by done. split; [done|]. exists x, s5. split; [done|]. split; [lia|].
  split; [done|]. split; [|done].
  apply (fidinv_new s s5 fh gx g (<[fid := x]> g) K x fid 2 1); try done; [by right|].
  by rewrite b2z_true by (by rewrite lookup_insert_eq).
Qed.
End Alloc.

(** *** The files of the fids *)

(** A step of the file tree that keeps the readers of the fids. *)
Lemma fidinv_heap s fh gx gx' g K K' h : fidinv s fh gx g K -> fwf h (fext s gx') K' ->
  (forall r ro, rds (fs s) !! r = Some ro -> exists ro', rds h !! r = Some ro' /\ rd_dir ro' = rd_dir ro) ->
  (forall f, 0 <= gx' f) -> (forall f, nrd h f <= cnt (reading f) (fids s) + gx' f) ->
  fidinv (set_fs h s) fh gx' g K'.
Proof.
intros I W Hr H0 Hn. constructor; cbn; try apply I; try done.
intros x f Hf Hrd. destruct (xi_rdir _ _ _ _ _ I x f Hf Hrd) as (Hz & ro & Hro & Hd). split; [done|].
destruct (Hr _ ro Hro) as (ro' & Hro' & E). exists ro'. split; [done|congruence].
Qed.

(** The step of a file operation that leaves the readers alone: the server holds
    [d] more references to [f]. *)
Lemma fidinv_keeps s fh gx g K K' h f d : fidinv s fh gx g K -> finv h (upd (fext s gx) f d) K' -> f <> 0 ->
  evolves (fs s) h -> rds h = rds (fs s) -> trees h = trees (fs s) ->
  (forall y c, c ∈ nz (K' y) -> c ∈ nz (K y)) -> 0 <= d -> fidinv (set_fs h s) fh (upd gx f d) g K'.
Proof.
intros I If Hf He Hr Ht HK Hd. apply (fidinv_heap s fh gx _ g K).
- done.
- eapply fwf_ext; [eapply fwf_evolves; [apply I|exact If|done|done|done]|].
  intros y. unfold fext, upd. repeat case_decide; try lia; congruence.
- intros r ro Hro. exists ro. by rewrite Hr.
- intros y. pose proof (xi_gx _ _ _ _ _ I y). unfold upd. case_decide; lia.
- intros y. rewrite (nrd_rds _ _ _ Hr). pose proof (xi_readers _ _ _ _ _ I y). unfold upd. case_decide; lia.
Qed.

(** What the references to files become when the file of a fid changes from [f0]
    to [f1]. *)
Definition move (gx : Z -> Z) (f0 f1 : Z) : Z -> Z :=
  fun f => if decide (f = 0) then gx f else gx f + b2z (f0 = f) - b2z (f1 = f).

Lemma fidinv_setfile s fh gx g K x f f' : fidinv s fh gx g K -> fids s !! x = Some f -> fd_rdir f = 0 ->
  fd_fid f' = fd_fid f -> fd_rdir f' = 0 -> fd_ref f' = fd_ref f ->
  (fd_file f' <> 0 -> fd_uid f' <> None /\ 0 < fext s gx (fd_file f')) ->
  (fd_file f' <> 0 -> fd_file f' <> fd_file f -> 0 < gx (fd_file f') /\
     nrd (fs s) (fd_file f') < cnt (reading (fd_file f')) (fids s) + gx (fd_file f')) ->
  fidinv (set_fids (<[x := f']> (fids s)) s) fh (move gx (fd_file f) (fd_file f')) g K.
Proof.
intros I Hf Hr E1 E2 E3 Hu Hgx.
assert (forall y o, <[x := f']> (fids s) !! y = Some o -> exists o0, fids s !! y = Some o0 /\
  fd_fid o = fd_fid o0 /\ fd_rdir o = fd_rdir o0 /\ fd_ref o = fd_ref o0 /\ (y <> x -> o = o0) /\ (y = x -> o = f')) as Hsh.
{ intros y o. destruct (decide (y = x)) as [->|Hne].
  - rewrite lookup_insert_eq. intros [= <-]. exists f. split_and!; try done. congruence.
  - rewrite lookup_insert_ne by done. intros Ho. by exists o. }
assert (forall y, cnt (reading y) (<[x := f']> (fids s)) = cnt (reading y) (fids s)) as Hc.
{ intros y. apply (cnt_keep _ _ x f); [done|]. unfold reading. rewrite Hr, E2. tauto. }
constructor; cbn; try apply I.
- eapply fwf_ext; [apply I|]. intros y. unfold fext, move. cbn. rewrite (cnt_update _ _ x f) by done.
  destruct (decide (y = 0)); [done|]. lia.
- intros id y Hy. destruct (xi_pool _ _ _ _ _ I id y Hy) as (o & Ho & Hid). destruct (decide (y = x)) as [->|Hne].
  + exists f'. rewrite lookup_insert_eq. split; [done|congruence].
  + exists o. by rewrite lookup_insert_ne.
- intros y o Ho. destruct (Hsh y o Ho) as (o0 & Ho0 & _). by apply (xi_fids _ _ _ _ _ I y o0).
- intros y o Ho. destruct (Hsh y o Ho) as (o0 & Ho0 & -> & _ & -> & _). by apply (xi_ref _ _ _ _ _ I).
- intros y o Ho. destruct (Hsh y o Ho) as (o0 & Ho0 & _ & _ & -> & _). by apply (xi_pos _ _ _ _ _ I y).
- intros y Hy. apply (xi_none _ _ _ _ _ I). by apply lookup_insert_None in Hy as [? _].
- intros y. pose proof (xi_gx _ _ _ _ _ I y). unfold move. destruct (decide (y = 0)); [done|].
  pose proof (b2z_range (fd_file f = y)). unfold b2z in *. destruct (decide (fd_file f' = y)) as [E|]; [|lia].
  destruct (decide (fd_file f = y)); [lia|]. destruct Hgx as [? _]; [congruence..|]. rewrite E in *. lia.
- intros y o Ho Hz. destruct (Hsh y o Ho) as (o0 & Ho0 & _ & _ & _ & Hne & Heq). destruct (decide (y = x)) as [->|Hyx].
  + rewrite (Heq eq_refl) in *. by apply Hu.
  + rewrite (Hne Hyx) in *. by apply (xi_uid _ _ _ _ _ I y).
- intros y o Ho Hz. destruct (Hsh y o Ho) as (o0 & Ho0 & _ & Hrd & _ & Hne & Heq). destruct (decide (y = x)) as [->|Hyx].
  + rewrite (Heq eq_refl) in Hz. by rewrite E2 in Hz.
  + rewrite (Hne Hyx) in *. by apply (xi_rdir _ _ _ _ _ I y).
- intros y z o o' Ho Ho'. destruct (Hsh y o Ho) as (o0 & Ho0 & _ & -> & _).
  destruct (Hsh z o' Ho') as (o0' & Ho0' & _ & -> & _). by apply (xi_rdirs _ _ _ _ _ I y z).
- intros y. rewrite Hc. pose proof (xi_readers _ _ _ _ _ I y). unfold move. destruct (decide (y = 0)); [done|].
  pose proof (b2z_range (fd_file f = y)). unfold b2z in *. destruct (decide (fd_file f' = y)) as [E|]; [|lia].
  destruct (decide (fd_file f = y)); [lia|]. destruct Hgx as [_ ?]; [congruence..|]. rewrite E in *. lia.
Qed.

(** [opendirfile] on the file of a fid that does not read yet. *)
Lemma open_reader {R} s fh gx g K x f fo : fidinv s fh gx g K -> fids s !! x = Some f -> fd_rdir f = 0 ->
  fd_file f <> 0 -> files (fs s) !! fd_file f = Some fo ->
  exists d s', onfs (R := R) (opendirfile (fd_file f)) s = (Go d, s') /\ fids s' = fids s /\ trees (fs s') = trees (fs s) /\
    ((d = 0 /\ s' = s) \/
     (d <> 0 /\ fidinv (set_fids (<[x := set_fid_rdir d f]> (fids s)) s') fh gx g K)).
Proof.
intros I Hf Hr Hz Hfo. pose proof (xi_wf _ _ _ _ _ I) as W. pose proof (fid_spare _ _ _ _ _ _ _ I Hf Hz Hr) as Hsp.
pose proof (proj1 W) as If. pose proof (nrd_nonneg (fs s) (fd_file f)).
destruct (decide (Z.land (v_mode (f_dir fo)) DMDIR = 0)) as [Hm|Hm].
{ exists 0, s. split; [|split; [done|split; [done|by left]]]. unfold onfs, opendirfile, ccall.
  rewrite (cbind_go _ _ _ _ _ (fget_go _ _ _ Hfo ltac:(alive))). rewrite decide_True by done. by destruct s. }
destruct (opendirfile_spec (R := R) (fs s) _ K _ fo (proj1 W) Hfo Hsp Hm) as (d & h & E & Ih & Hk & Er & Hnew & Hd).
exists d, (set_fs h s). split; [by apply onfs_go|]. split; [done|]. split; [apply Hk|]. right. split; [done|].
assert (fwf h (fext s gx) K) as Wh.
{ eapply fwf_evolves; [exact W|exact Ih|by apply keeps_dirs_evolves|done|apply Hk]. }
assert (forall y o, <[x := set_fid_rdir d f]> (fids s) !! y = Some o ->
  y = x /\ o = set_fid_rdir d f \/ y <> x /\ fids s !! y = Some o) as Hsh.
{ intros y o. destruct (decide (y = x)) as [->|Hne].
  - rewrite lookup_insert_eq. intros [= <-]. by left.
  - rewrite lookup_insert_ne by done. by right. }
assert (forall y o, fids s !! y = Some o -> fd_rdir o <> 0 -> fd_rdir o <> d) as Hold.
{ intros y o Ho Hrd Ed. destruct (xi_rdir _ _ _ _ _ I y o Ho Hrd) as (_ & ro & Hro & _). congruence. }
constructor; cbn; try apply I.
- eapply fwf_ext; [exact Wh|]. intros y. unfold fext. cbn. by rewrite (cnt_keep _ _ x f).
- intros id y Hy. destruct (xi_pool _ _ _ _ _ I id y Hy) as (o & Ho & Hid). destruct (decide (y = x)) as [->|Hne].
  + exists (set_fid_rdir d f). rewrite lookup_insert_eq. split; [done|]. cbn. congruence.
  + exists o. by rewrite lookup_insert_ne.
- intros y o Ho. destruct (Hsh y o Ho) as [[-> ->]|[_ Ho']]; by eapply (xi_fids _ _ _ _ _ I).
- intros y o Ho. destruct (Hsh y o Ho) as [[-> ->]|[_ Ho']]; [by apply (xi_ref _ _ _ _ _ I x f)|by apply (xi_ref _ _ _ _ _ I)].
- intros y o Ho. destruct (Hsh y o Ho) as [[-> ->]|[_ Ho']]; [by apply (xi_pos _ _ _ _ _ I x f)|by apply (xi_pos _ _ _ _ _ I y)].
- intros y Hy. apply (xi_none _ _ _ _ _ I). by apply lookup_insert_None in Hy as [? _].
- intros y o Ho. destruct (Hsh y o Ho) as [[-> ->]|[_ Ho']]; [by apply (xi_uid _ _ _ _ _ I x f)|by apply (xi_uid _ _ _ _ _ I y)].
- intros y o Ho Hrd. destruct (Hsh y o Ho) as [[-> ->]|[_ Ho']].
  + cbn. split; [done|]. eexists. rewrite Er, lookup_insert_eq. split; [done|]. done.
  + destruct (xi_rdir _ _ _ _ _ I y o Ho' Hrd) as (Hz' & ro & Hro & Hd'). split; [done|]. exists ro.
    rewrite Er, lookup_insert_ne; [done|]. intros Ed. by apply (Hold y o).
- intros y z o o' Ho Ho' Hrd E'. destruct (Hsh y o Ho) as [[-> ->]|[Hy Ho1]], (Hsh z o' Ho') as [[-> ->]|[Hz' Ho2]]; [done|..].
  + exfalso. cbn in E'. apply (Hold z o' Ho2); [by rewrite <- E'|done].
  + exfalso. cbn in E'. by apply (Hold y o Ho1).
  + by apply (xi_rdirs _ _ _ _ _ I y z o o').
- intros y. unfold nrd. rewrite Er, cnt_insert_new by done. cbn. rewrite (cnt_update _ _ x f) by done.
  pose proof (xi_readers _ _ _ _ _ I y) as Hn. unfold nrd in Hn. unfold reading, b2z in *. cbn.
  repeat case_decide; try lia; tauto.
Qed.
