(* ===== verification/ReqSpec.v ===== *)
(** Requests and their references: who holds a request, which requests wait for
    another one to be answered, and that [respond] answers each once. *)

From S2P Require Import Prelude Mem Links Counts Fcall9P Fcall9PSpec Dir9P Dir9PSpec Intmap IntmapSpec Files FilesSpec FilesOps FilesThms Srv FidSpec.

Definition is_flush (g : msg) : Prop := exists t, g = MTflush t.

(** The references of a request to the fid [x]. *)
Definition hold3 (q : Req) (x : Z) : Z := b2z (rq_fid q = x) + b2z (rq_afid q = x) + b2z (rq_newfid q = x).

(** The references of all requests to the fid [x]. *)
Definition rheld (m : gmap Z Req) (x : Z) : Z :=
  if decide (x = 0) then 0
  else cnt (fun q => rq_fid q = x) m + cnt (fun q => rq_afid q = x) m + cnt (fun q => rq_newfid q = x) m.

(** The requests whose [oldreq] is [r]. *)
Definition olds (m : gmap Z Req) (r : Z) : Z := cnt (fun q => rq_oldreq q = r) m.

(** [P] are the requests that somebody is to respond to, [rx r] references to [r]
    are held by calls in progress, [t] is the pool as a map. A request that is not
    answered is in [P] or waits in the list of flushes of an older request. *)
Record rinv (s : srvst) (rx : Z -> Z) (t : gmap Z Z) (P : gset Z) : Prop := {
  si_map : imap_rep (rpool s) t;
  si_inc : inc (rpool s) = increqref;
  si_pool tag r : t !! tag = Some r -> exists ro, reqs s !! r = Some ro /\ rq_tag ro = tag /\
    rq_pool ro = true /\ rq_responded ro = false;
  si_brk : 0 < rbrk s;
  si_reqs r ro : reqs s !! r = Some ro -> 0 < r < rbrk s;
  si_unres r ro : reqs s !! r = Some ro -> rq_pool ro = true -> rq_responded ro = false -> t !! rq_tag ro = Some r;
  si_ref r ro : reqs s !! r = Some ro -> rq_pool ro = true ->
    rq_ref ro = b2z (t !! rq_tag ro = Some r) + b2z (rq_responded ro = false) + olds (reqs s) r + rx r;
  si_pos r ro : reqs s !! r = Some ro -> 0 < rq_ref ro < 2 ^ 31;
  si_rx r : 0 <= rx r;
  si_none r : reqs s !! r = None -> rx r = 0;
  si_fake r ro : reqs s !! r = Some ro -> rq_pool ro = false ->
    rq_fid ro = 0 /\ rq_afid ro = 0 /\ rq_newfid ro = 0 /\ rx r = 0 /\ rq_responded ro = false /\
    ~ is_flush (rq_ifcall ro) /\ rq_flush ro = [];
  si_flush r ro f : reqs s !! r = Some ro -> rq_responded ro = false -> f ∈ rq_flush ro ->
    exists fo, reqs s !! f = Some fo /\ rq_oldreq fo = r /\ rq_responded fo = false /\
      is_flush (rq_ifcall fo) /\ (f ∉ P);
  si_nodup r ro : reqs s !! r = Some ro -> NoDup (rq_flush ro);
  si_stale r ro : reqs s !! r = Some ro -> rq_responded ro = true -> rq_flush ro = [] \/ 0 < rx r;
  si_owed f fo : reqs s !! f = Some fo -> rq_responded fo = false -> f ∈ P \/
    exists ro, reqs s !! rq_oldreq fo = Some ro /\ rq_responded ro = false /\ f ∈ rq_flush ro;
  si_P r : r ∈ P -> exists ro, reqs s !! r = Some ro /\ rq_responded ro = false;
  si_old f fo : reqs s !! f = Some fo -> rq_oldreq fo <> 0 ->
    rq_responded fo = false /\ is_flush (rq_ifcall fo) /\ rq_oldreq fo < f /\
    exists ro, reqs s !! rq_oldreq fo = Some ro /\ rq_pool ro = true;
  si_stat r ro : reqs s !! r = Some ro -> rq_statfree ro = false
}.

(** What is due for the tag [tau]: the replies sent and the requests that are not
    answered. *)
Definition answered (s : srvst) (tau : Z) : Z := Z.of_nat (length (filter (fun p => p.1 = tau) (out s))).
Definition waiting (s : srvst) (tau : Z) : Z :=
  cnt (fun q => rq_responded q = false /\ rq_tag q = tau) (reqs s).
Definition due (s : srvst) (tau : Z) : Z := answered s tau + waiting s tau.

Lemma hold3_nonneg q x : 0 <= hold3 q x.
Proof.
unfold hold3. pose proof (b2z_range (rq_fid q = x)). pose proof (b2z_range (rq_afid q = x)).
pose proof (b2z_range (rq_newfid q = x)). lia.
Qed.

Lemma rheld_update m r q q' x : m !! r = Some q -> x <> 0 ->
  rheld (<[r := q']> m) x = rheld m x - hold3 q x + hold3 q' x.
Proof.
intros Hr Hx. unfold rheld, hold3. rewrite !decide_False by done. rewrite !(cnt_update _ _ r q) by done. lia.
Qed.

Lemma rheld_delete m r q x : m !! r = Some q -> x <> 0 -> rheld (delete r m) x = rheld m x - hold3 q x.
Proof.
intros Hr Hx. unfold rheld, hold3. rewrite !decide_False by done. rewrite !(cnt_delete _ _ r q) by done. lia.
Qed.

Lemma rheld_insert m r q x : m !! r = None -> x <> 0 -> rheld (<[r := q]> m) x = rheld m x + hold3 q x.
Proof.
intros Hr Hx. unfold rheld, hold3. rewrite !decide_False by done. rewrite !cnt_insert_new by done. lia.
Qed.

Lemma rheld_0 m : rheld m 0 = 0.
Proof. done. Qed.

Lemma rheld_pos m r q x : m !! r = Some q -> x <> 0 -> hold3 q x <= rheld m x.
Proof.
intros Hr Hx. pose proof (rheld_delete m r q x Hr Hx) as E. unfold rheld in *. rewrite !decide_False in * by done.
pose proof (cnt_nonneg (fun q => rq_fid q = x) (delete r m)). pose proof (cnt_nonneg (fun q => rq_afid q = x) (delete r m)).
pose proof (cnt_nonneg (fun q => rq_newfid q = x) (delete r m)). lia.
Qed.

Lemma olds_nonneg m r : 0 <= olds m r.
Proof. apply cnt_nonneg. Qed.

Section Access.
Context {R : Type}.

Lemma rget_go r s q : reqs s !! r = Some q -> rget (R := R) r s = (Go q, s).
Proof. intros H. unfold rget. by rewrite H. Qed.

Lemma rset_go r g s q : reqs s !! r = Some q ->
  rset (R := R) r g s = (Go tt, set_reqs (<[r := g q]> (reqs s)) s).
Proof. intros H. unfold rset. by rewrite H. Qed.

Lemma onfid_go {A} (c : cmd fidst R A) s a x : c (sf s) = (Go a, x) -> onfid c s = (Go a, set_sf x s).
Proof. intros H. unfold onfid. by rewrite H. Qed.
End Access.

(** The requests do not depend on the fids. *)
Lemma rinv_sf s rx t P x : rinv s rx t P -> rinv (set_sf x s) rx t P.
Proof. intros I. constructor; apply I. Qed.

Lemma rinv_ext s s' rx rx' t P : rinv s rx t P -> reqs s' = reqs s -> rpool s' = rpool s -> rbrk s' = rbrk s ->
  (forall r, rx' r = rx r) -> rinv s' rx' t P.
Proof.
intros I Er Ep Eb Ex. constructor; rewrite ?Er, ?Ep, ?Eb; try apply I.
- intros r ro Hr. rewrite Ex. by apply (si_ref _ _ _ _ I).
- intros r. rewrite Ex. apply I.
- intros r Hr. rewrite Ex. by apply (si_none _ _ _ _ I).
- intros r ro Hr. rewrite Ex. by apply (si_fake _ _ _ _ I).
- intros r ro Hr. rewrite Ex. by apply (si_stale _ _ _ _ I).
Qed.

(** What may happen to a request [r] that stays unanswered or answered: its
    references move between [rx], its [oldreq] and that of another request, and
    requests of [P] may begin to wait for it. *)
Record req_change (s : srvst) (rx rx' : Z -> Z) (P P' : gset Z) (r : Z) (q q' : Req) : Prop := {
  rc_req : reqs s !! r = Some q;
  rc_same : rq_tag q' = rq_tag q /\ rq_pool q' = rq_pool q /\ rq_responded q' = rq_responded q /\
    (is_flush (rq_ifcall q') <-> is_flush (rq_ifcall q));
  rc_fake : rq_pool q = false -> rq_fid q' = 0 /\ rq_afid q' = 0 /\ rq_newfid q' = 0 /\ rq_flush q' = [];
  rc_pos : 0 < rq_ref q' < 2 ^ 31;
  rc_refs y : y <> 0 -> (if decide (y = r) then rq_ref q' - rq_ref q else 0) =
    b2z (rq_oldreq q' = y) - b2z (rq_oldreq q = y) + (rx' y - rx y);
  rc_rx y : 0 <= rx' y /\ (rx' y = rx y \/ exists o, reqs s !! y = Some o /\ rq_pool o = true);
  rc_stale y o : reqs s !! y = Some o -> rq_responded o = true -> rq_flush o = [] \/ 0 < rx' y;
  rc_resp : rq_responded q = true -> rq_flush q' = rq_flush q \/ rq_flush q' = [];
  rc_P : P' ⊆ P;
  rc_owed f : f ∈ P -> (f ∈ P') \/ f ∈ rq_flush q' /\ rq_responded q = false;
  rc_flush f : rq_responded q = false -> f ∈ rq_flush q' -> f ∈ rq_flush q \/ (f ∈ P) /\ (f ∉ P') /\ f <> r /\
    exists fo, reqs s !! f = Some fo /\ rq_oldreq fo = r /\ is_flush (rq_ifcall fo);
  rc_kept f : rq_responded q = false -> f ∈ rq_flush q -> f ∈ rq_flush q';
  rc_nodup : NoDup (rq_flush q');
  rc_old : rq_oldreq q' = rq_oldreq q \/ (r ∈ P) /\ (r ∈ P');
  rc_new : rq_oldreq q' <> 0 -> rq_oldreq q' = rq_oldreq q \/
    is_flush (rq_ifcall q) /\ rq_oldreq q' < r /\ exists o, reqs s !! rq_oldreq q' = Some o /\ rq_pool o = true;
  rc_stat : rq_statfree q' = rq_statfree q
}.

(** The requests before and after a change at [r]. *)
Lemma change_at {A} (m : gmap Z A) r q' y o : <[r := q']> m !! y = Some o ->
  (y = r /\ o = q') \/ (y <> r /\ m !! y = Some o).
Proof.
destruct (decide (y = r)) as [->|Hne].
- rewrite lookup_insert_eq. intros [= <-]. by left.
- rewrite lookup_insert_ne by done. by right.
Qed.

Lemma rinv_change s rx rx' t P P' r q q' : rinv s rx t P -> req_change s rx rx' P P' r q q' ->
  rinv (set_reqs (<[r := q']> (reqs s)) s) rx' t P'.
Proof.
intros I [Hr (T1 & T2 & T3 & T4) Hfk Hpos Hrefs Hrx Hst Hresp HP Howed Hfl Hkept Hnd Hold Hnew Hsf].
assert (Hsh : forall y o, <[r := q']> (reqs s) !! y = Some o -> exists o0, reqs s !! y = Some o0 /\
  rq_tag o = rq_tag o0 /\ rq_pool o = rq_pool o0 /\ rq_responded o = rq_responded o0 /\
  (is_flush (rq_ifcall o) <-> is_flush (rq_ifcall o0))).
{ intros y o [[-> ->]|[Hne Ho]]%change_at; [by exists q|by exists o]. }
assert (Hsh' : forall y o0, reqs s !! y = Some o0 -> exists o, <[r := q']> (reqs s) !! y = Some o /\
  rq_tag o = rq_tag o0 /\ rq_pool o = rq_pool o0 /\ rq_responded o = rq_responded o0 /\
  (is_flush (rq_ifcall o) <-> is_flush (rq_ifcall o0)) /\ (y <> r -> o = o0) /\ (y = r -> o = q' /\ o0 = q)).
{ intros y o0 Ho. destruct (decide (y = r)) as [->|Hne].
  - rewrite Hr in Ho. injection Ho as <-. exists q'. by rewrite lookup_insert_eq.
  - exists o0. by rewrite lookup_insert_ne. }
assert (Hin : forall y o f, reqs s !! y = Some o -> rq_responded o = false -> f ∈ rq_flush o -> exists fo,
  <[r := q']> (reqs s) !! f = Some fo /\ rq_oldreq fo = y /\ rq_responded fo = false /\ is_flush (rq_ifcall fo) /\ (f ∉ P)).
{ intros y o f Ho Hu Hf. destruct (si_flush _ _ _ _ I y o f Ho Hu Hf) as (fo & Hfo & G1 & G2 & G3 & G4).
  destruct (Hsh' f fo Hfo) as (fo' & Hfo' & _ & _ & F3 & F4 & F5 & F6). exists fo'. split; [done|].
  split; [|split_and!; [congruence|tauto|done]]. destruct (decide (f = r)) as [->|Hne]; [|by rewrite F5].
  destruct (F6 eq_refl) as [-> ->]. destruct Hold as [->|[? _]]; [done|done]. }
constructor; cbn; try apply I.
- intros tag y Hy. destruct (si_pool _ _ _ _ I tag y Hy) as (o0 & Ho0 & ? & ? & ?).
  destruct (Hsh' y o0 Ho0) as (o & Ho & E1 & E2 & E3 & _). exists o. split_and!; congruence.
- intros y o Ho. destruct (Hsh y o Ho) as (o0 & Ho0 & _). by apply (si_reqs _ _ _ _ I y o0).
- intros y o Ho Hp Hu. destruct (Hsh y o Ho) as (o0 & Ho0 & E1 & E2 & E3 & _). rewrite E1.
  apply (si_unres _ _ _ _ I y o0); congruence.
- intros y o Ho Hp. destruct (Hsh y o Ho) as (o0 & Ho0 & E1 & E2 & E3 & _). rewrite E1, E3.
  pose proof (si_reqs _ _ _ _ I y o0 Ho0). pose proof (si_ref _ _ _ _ I y o0 Ho0 ltac:(congruence)) as Href.
  specialize (Hrefs y ltac:(lia)). unfold olds in *. rewrite (cnt_update _ _ r q) by done.
  apply change_at in Ho as [[-> ->]|[Hne Ho]]; [rewrite decide_True in Hrefs by done|rewrite decide_False in Hrefs by done].
  + rewrite Hr in Ho0. injection Ho0 as <-. lia.
  + rewrite Ho0 in Ho. injection Ho as <-. lia.
- intros y o [[-> ->]|[Hne Ho]]%change_at; [done|by apply (si_pos _ _ _ _ I y)].
- intros y. apply Hrx.
- intros y Hy. apply lookup_insert_None in Hy as [Hy _]. destruct (Hrx y) as [_ [->|(o & Ho & _)]]; [|congruence].
  by apply (si_none _ _ _ _ I).
- intros y o Ho Hp. assert (rx' y = rx y) as ->.
  { destruct (Hsh y o Ho) as (o0 & Ho0 & _ & E2 & _). destruct (Hrx y) as [_ [->|(o1 & Ho1 & Hp1)]]; congruence. }
  apply change_at in Ho as [[-> ->]|[Hne Ho]]; [|by apply (si_fake _ _ _ _ I)].
  rewrite T2 in Hp. destruct (Hfk Hp) as (? & ? & ? & ?).
  destruct (si_fake _ _ _ _ I r q Hr Hp) as (_ & _ & _ & ? & ? & ? & _). split_and!; try done; [congruence|tauto].
- intros y o f [[-> ->]|[Hne Ho]]%change_at Hu Hf.
  + rewrite T3 in Hu. destruct (Hfl f Hu Hf) as [Hf0|(HfP & HfP' & Hne & fo & Hfo & G1 & G2)].
    * destruct (Hin r q f Hr Hu Hf0) as (fo & G1 & G2 & G3 & G4 & G5). exists fo. split_and!; try done. by intros ?%HP.
    * exists fo. rewrite lookup_insert_ne by done. split_and!; try done.
      destruct (si_P _ _ _ _ I f HfP) as (fo' & Hfo' & ?). congruence.
  + destruct (Hin y o f Ho Hu Hf) as (fo & G1 & G2 & G3 & G4 & G5). exists fo. split_and!; try done. by intros ?%HP.
- intros y o [[-> ->]|[Hne Ho]]%change_at; [done|by apply (si_nodup _ _ _ _ I y)].
- intros y o [[-> ->]|[Hne Ho]]%change_at Hu; [|by apply (Hst y o)].
  rewrite T3 in Hu. destruct (Hresp Hu) as [->| ->]; [|by left]. by apply (Hst r q).
- intros f fo Hfo Hu. destruct (Hsh f fo Hfo) as (o0 & Ho0 & _ & _ & E3 & _). rewrite E3 in Hu.
  assert (rq_oldreq fo = rq_oldreq o0 \/ f ∈ P') as [Eo|?]; [|rewrite Eo|by left].
  { apply change_at in Hfo as [[-> ->]|[Hne Hfo]]; [|left; congruence]. rewrite Hr in Ho0. injection Ho0 as <-. tauto. }
  destruct (si_owed _ _ _ _ I f o0 Ho0 Hu) as [Hf|(ro & Hro & G1 & G2)].
  + destruct (Howed f Hf) as [?|[Hf' Huq]]; [by left|right]. assert (rq_oldreq o0 = r) as ->.
    { destruct (Hfl f Huq Hf') as [Hf0|(_ & _ & _ & fo' & Hfo' & ? & _)]; [|congruence].
      by destruct (si_flush _ _ _ _ I r q f Hr Huq Hf0) as (? & _ & _ & _ & _ & ?). }
    exists q'. rewrite lookup_insert_eq. split_and!; [done|congruence|done].
  + right. destruct (Hsh' _ ro Hro) as (ro' & Hro' & _ & _ & F3 & _ & F5 & F6). exists ro'. split; [done|]. split; [congruence|].
    destruct (decide (rq_oldreq o0 = r)) as [E|Hne]; [|by rewrite F5]. destruct (F6 E) as [-> ->]. by apply Hkept.
- intros y Hy. destruct (si_P _ _ _ _ I y (HP y Hy)) as (o0 & Ho0 & Hu). destruct (Hsh' y o0 Ho0) as (o & Ho & _ & _ & E3 & _).
  exists o. split; congruence.
- intros f fo Hfo Hz. assert (exists ro, reqs s !! rq_oldreq fo = Some ro /\ rq_pool ro = true) as (ro & Hro & Hp).
  { apply change_at in Hfo as [[-> ->]|[Hne Hfo]]; [|by apply (si_old _ _ _ _ I f fo)].
    destruct (Hnew Hz) as [E|(_ & _ & ?)]; [|done]. rewrite E. apply (si_old _ _ _ _ I r q); [done|congruence]. }
  destruct (Hsh' _ ro Hro) as (ro' & Hro' & _ & F2 & _).
  apply change_at in Hfo as [[-> ->]|[Hne Hfo]].
  + destruct (Hnew Hz) as [E|(G1 & G2 & _)].
    * destruct (si_old _ _ _ _ I r q Hr) as (G1 & G2 & G3 & _); [congruence|]. rewrite T3, T4, E.
      split_and!; try done. exists ro'. split; congruence.
    * rewrite T3, T4. split_and!; try done; [|exists ro'; split; congruence].
      destruct Hold as [E|[HrP _]]; [apply (si_old _ _ _ _ I r q Hr); congruence|].
      destruct (si_P _ _ _ _ I r HrP) as (q0 & Hq0 & ?). congruence.
  + destruct (si_old _ _ _ _ I f fo Hfo Hz) as (G1 & G2 & G3 & _). split_and!; try done. exists ro'. split; congruence.
- intros y o [[-> ->]|[Hne Ho]]%change_at; [rewrite Hsf; by apply (si_stat _ _ _ _ I r)|by apply (si_stat _ _ _ _ I y)].
Qed.

(** A request is changed where the invariant does not look; its count with the
    references that calls hold. *)
Definition same_req (q q' : Req) : Prop :=
  rq_tag q' = rq_tag q /\ rq_pool q' = rq_pool q /\ rq_responded q' = rq_responded q /\
  rq_oldreq q' = rq_oldreq q /\ rq_flush q' = rq_flush q /\ (is_flush (rq_ifcall q') <-> is_flush (rq_ifcall q)) /\
  (rq_pool q = false -> rq_fid q' = 0 /\ rq_afid q' = 0 /\ rq_newfid q' = 0) /\ rq_statfree q' = rq_statfree q.

Lemma rinv_count s rx t P r q q' d : rinv s rx t P -> reqs s !! r = Some q -> same_req q q' ->
  rq_ref q' = rq_ref q + d -> 0 < rq_ref q' < 2 ^ 31 -> 0 <= rx r + d -> (d <> 0 -> rq_pool q = true) ->
  (rq_responded q = true -> rq_flush q = [] \/ 0 < rx r + d) ->
  rinv (set_reqs (<[r := q']> (reqs s)) s) (upd rx r d) t P.
Proof.
intros I Hr (T1 & T2 & T3 & T4 & T5 & T6 & T7 & T8) Hd Hpos Hx Hp Hst. apply (rinv_change s rx _ t P P r q q' I).
constructor; try done; rewrite ?T4, ?T5; try done; try (by left); try (intros; by left); try (by apply (si_nodup _ _ _ _ I r q)).
- intros Hf. destruct (T7 Hf) as (? & ? & ?). split_and!; try done. by apply (si_fake _ _ _ _ I r q).
- intros y Hy. unfold upd. case_decide; subst; lia.
- intros y. unfold upd. pose proof (si_rx _ _ _ _ I y). destruct (decide (y = r)) as [->|]; [|by split; [|left]].
  split; [done|]. destruct (decide (d = 0)) as [->|Hne]; [left; lia|right; eauto].
- intros y o Ho Hu. unfold upd. destruct (decide (y = r)) as [->|]; [|by apply (si_stale _ _ _ _ I y o)].
  rewrite Hr in Ho. injection Ho as <-. by apply Hst.
Qed.

Lemma rinv_upd s rx t P r q q' : rinv s rx t P -> reqs s !! r = Some q -> same_req q q' -> rq_ref q' = rq_ref q ->
  rinv (set_reqs (<[r := q']> (reqs s)) s) rx t P.
Proof.
intros I Hr Hq Href. pose proof (si_pos _ _ _ _ I r q Hr). pose proof (si_rx _ _ _ _ I r).
eapply rinv_ext; [apply (rinv_count s rx t P r q q' 0 I Hr Hq)|done..|]; try lia.
- intros Hu. destruct (si_stale _ _ _ _ I r q Hr Hu); [by left|right; lia].
- intros y. unfold upd. case_decide; subst; lia.
Qed.

Lemma rinv_incr s rx t P r q : rinv s rx t P -> reqs s !! r = Some q -> rq_pool q = true -> rq_ref q < 2 ^ 31 - 1 ->
  rinv (set_reqs (<[r := set_rq_ref (rq_ref q + 1) q]> (reqs s)) s) (upd rx r 1) t P.
Proof.
intros I Hr Hp Hb. pose proof (si_pos _ _ _ _ I r q Hr). pose proof (si_rx _ _ _ _ I r).
apply (rinv_count s rx t P r q); try done; cbn; try lia. split_and!; try done. intros ?. congruence.
Qed.

Lemma rinv_decr s rx t P r q : rinv s rx t P -> reqs s !! r = Some q -> rq_pool q = true -> 0 < rx r -> rq_ref q <> 1 ->
  (rq_responded q = true -> rq_flush q = [] \/ 1 < rx r) ->
  rinv (set_reqs (<[r := set_rq_ref (rq_ref q - 1) q]> (reqs s)) s) (upd rx r (-1)) t P.
Proof.
intros I Hr Hp Hx H1 Hf. pose proof (si_pos _ _ _ _ I r q Hr).
apply (rinv_count s rx t P r q); try done; cbn; try lia; [split_and!; try done; intros ?; congruence|].
intros Hu. destruct (Hf Hu); [by left|right; lia].
Qed.

(** A request of [P] is in no list of flushes, and a flush is not a fake. *)
Lemma flush_pool s rx t P r q : rinv s rx t P -> reqs s !! r = Some q -> is_flush (rq_ifcall q) -> rq_pool q = true.
Proof.
intros I Hr Hf. destruct (rq_pool q) eqn:E; [done|]. by destruct (si_fake _ _ _ _ I r q Hr E) as (_ & _ & _ & _ & _ & ? & _).
Qed.

(** [r] starts to wait for the older request [o]: the reference to [o] becomes its
    [oldreq]. *)
Lemma rinv_setold s rx t P r q o oo : rinv s rx t P -> reqs s !! r = Some q -> rq_oldreq q = 0 -> r ∈ P ->
  is_flush (rq_ifcall q) -> reqs s !! o = Some oo -> rq_pool oo = true -> o < r -> 0 < rx o ->
  (rq_responded oo = true -> rq_flush oo = []) ->
  rinv (set_reqs (<[r := set_rq_oldreq o q]> (reqs s)) s) (upd rx o (-1)) t P.
Proof.
intros I Hr Hz HP Hfl Ho Hpo Hlt Hx Hst. apply (rinv_change s rx _ t P P r q _ I).
pose proof (flush_pool _ _ _ _ _ _ I Hr Hfl) as Hp.
constructor; cbn; try done; try (by left); try (intros; by left); try (by apply (si_nodup _ _ _ _ I r q)).
- by rewrite Hp.
- by apply (si_pos _ _ _ _ I r q).
- intros y Hy. rewrite Hz. unfold upd, b2z. repeat case_decide; subst; lia.
- intros y. unfold upd. pose proof (si_rx _ _ _ _ I y). destruct (decide (y = o)) as [->|]; [|by split; [|left]].
  split; [lia|right; eauto].
- intros y y0 Hy Hu. unfold upd. destruct (decide (y = o)) as [->|]; [|by apply (si_stale _ _ _ _ I y y0)].
  left. rewrite Ho in Hy. injection Hy as <-. by apply Hst.
- by right.
- intros _. right. eauto.
Qed.

(** [r] waits no more: its reference to [o] is a call's. *)
Lemma rinv_clrold s rx t P r q o : rinv s rx t P -> reqs s !! r = Some q -> rq_oldreq q = o -> o <> 0 -> r ∈ P ->
  rinv (set_reqs (<[r := set_rq_oldreq 0 q]> (reqs s)) s) (upd rx o 1) t P.
Proof.
intros I Hr Ho Ho0 HP. destruct (si_old _ _ _ _ I r q Hr) as (Hu & Hfl & Hlt & oo & Hoo & Hpo); [congruence|]. rewrite Ho in *.
apply (rinv_change s rx _ t P P r q _ I). pose proof (flush_pool _ _ _ _ _ _ I Hr Hfl) as Hp.
constructor; cbn; try done; try (by left); try (intros; by left); try (by apply (si_nodup _ _ _ _ I r q)).
- by rewrite Hp.
- by apply (si_pos _ _ _ _ I r q).
- intros y Hy. rewrite Ho. unfold upd, b2z. repeat case_decide; subst; lia.
- intros y. unfold upd. pose proof (si_rx _ _ _ _ I y). destruct (decide (y = o)) as [->|]; [|by split; [|left]].
  split; [lia|right; eauto].
- intros y y0 Hy Hy1. unfold upd. destruct (si_stale _ _ _ _ I y y0 Hy Hy1); [by left|right]. case_decide; lia.
- by right.
Qed.

(** The response to the flush [r] is delayed until [o] is answered. *)
Lemma rinv_delay s rx t P r q o oo : rinv s rx t P -> reqs s !! r = Some q -> rq_oldreq q = o -> r ∈ P ->
  reqs s !! o = Some oo -> rq_responded oo = false -> o <> 0 ->
  rinv (set_reqs (<[o := set_rq_flush (rq_flush oo ++ [r]) oo]> (reqs s)) s) rx t (P ∖ {[r]}).
Proof.
intros I Hr Ho HP Hoo Huo Ho0. destruct (si_old _ _ _ _ I r q Hr) as (Hu & Hfl & Hlt & oo' & Hoo' & Hpo); [congruence|].
rewrite Ho, Hoo in Hoo'. injection Hoo' as <-. rewrite Ho in Hlt.
apply (rinv_change s rx rx t P _ o oo _ I). constructor; cbn; try done; try (by left).
- by rewrite Hpo.
- by apply (si_pos _ _ _ _ I o oo).
- intros y Hy. case_decide; lia.
- intros y. split; [apply I|by left].
- apply (si_stale _ _ _ _ I).
- congruence.
- by intros ? [? _]%elem_of_difference.
- intros f Hf. destruct (decide (f = r)) as [->|]; [right|left; set_solver]. split; [|done]. apply elem_of_app. right. by left.
- intros f _ [Hf| ->%list_elem_of_singleton]%elem_of_app; [by left|right]. split_and!; [done|by intros [_ []%not_elem_of_singleton]%elem_of_difference|lia|]. exists q. by split_and!.
- intros f _ Hf. apply elem_of_app. by left.
- apply list.NoDup_app. split_and!; [by apply (si_nodup _ _ _ _ I o)| |by apply NoDup_singleton].
  intros f Hf ->%list_elem_of_singleton. by destruct (si_flush _ _ _ _ I o oo r Hoo Huo Hf) as (? & _ & _ & _ & _ & ?).
Qed.

(** ** Requests come and go *)

(** [r] is answered: its place in the pool and the reference of the answer are held
    by the call, and the flushes that waited for it are to be responded to. *)
Lemma rinv_finish s s' rx t P r q q' : rinv s rx t P -> reqs s !! r = Some q -> rq_pool q = true -> r ∈ P ->
  rq_oldreq q = 0 -> rq_tag q' = rq_tag q -> rq_pool q' = true -> rq_responded q' = true -> rq_oldreq q' = 0 ->
  rq_flush q' = rq_flush q -> rq_ref q' = rq_ref q - 1 -> rq_statfree q' = rq_statfree q ->
  reqs s' = <[r := q']> (reqs s) -> imap_rep (rpool s') (delete (rq_tag q) t) -> inc (rpool s') = increqref ->
  rbrk s' = rbrk s ->
  rinv s' (upd rx r 1) (delete (rq_tag q) t) (P ∖ {[r]} ∪ list_to_set (rq_flush q)).
Proof.
intros I Hr Hp HP Hz T1 T2 T3 T4 T5 T6 T7 Er Hm Hi Eb.
destruct (si_P _ _ _ _ I r HP) as (q0 & Hq0 & Hu). rewrite Hr in Hq0. injection Hq0 as <-.
pose proof (si_unres _ _ _ _ I r q Hr Hp Hu) as Ht. pose proof (si_rx _ _ _ _ I) as Hrx.
pose proof (olds_nonneg (reqs s) r) as Hol. pose proof (si_ref _ _ _ _ I r q Hr Hp) as Href.
rewrite !b2z_true in Href by done.
assert (Hold : forall x, olds (reqs s') x = olds (reqs s) x).
{ intros x. unfold olds. rewrite Er. apply (cnt_keep _ _ r q); [done|]. by rewrite T4, Hz. }
assert (Hsh : forall y o, reqs s' !! y = Some o -> (y = r /\ o = q') \/ (y <> r /\ reqs s !! y = Some o)).
{ intros y o. rewrite Er. apply change_at. }
assert (Hne' : forall y o, reqs s !! y = Some o -> y <> r -> reqs s' !! y = Some o) by (intros; by rewrite Er, lookup_insert_ne).
assert (Htag : forall y o, y <> r -> reqs s !! y = Some o -> rq_responded o = false -> t !! rq_tag o = Some y -> rq_tag o <> rq_tag q).
{ intros y o Hne _ _ Hy E. rewrite E in Hy. congruence. }
constructor; rewrite ?Eb; try apply I; try done.
- intros tag y Hy. apply lookup_delete_Some in Hy as [Hne Hy]. destruct (si_pool _ _ _ _ I tag y Hy) as (o & Ho & E1 & E2 & E3).
  exists o. split_and!; try done. apply Hne'; [done|]. intros ->. congruence.
- intros y o Ho. destruct (Hsh y o Ho) as [[-> ->]|[_ Ho0]]; [by apply (si_reqs _ _ _ _ I r q)|by apply (si_reqs _ _ _ _ I y o)].
- intros y o Ho Hp' Hu'. destruct (Hsh y o Ho) as [[-> ->]|[Hne Ho0]]; [congruence|].
  pose proof (si_unres _ _ _ _ I y o Ho0 Hp' Hu'). rewrite lookup_delete_ne; [done|]. intros E. congruence.
- intros y o Ho Hp'. rewrite Hold. destruct (Hsh y o Ho) as [[-> ->]|[Hne Ho0]].
  + rewrite upd_eq, T1, b2z_false, b2z_false by (rewrite ?lookup_delete_eq; congruence). lia.
  + rewrite upd_ne by done. rewrite (si_ref _ _ _ _ I y o Ho0 Hp'). do 3 f_equal. unfold b2z.
    destruct (decide (t !! rq_tag o = Some y)) as [E|E].
    * rewrite decide_True; [done|]. rewrite lookup_delete_ne; [done|]. intros E'. congruence.
    * rewrite decide_False; [done|]. by intros [_ ?]%lookup_delete_Some.
- intros y o Ho. destruct (Hsh y o Ho) as [[-> ->]|[_ Ho0]]; [|by apply (si_pos _ _ _ _ I y o)].
  pose proof (si_pos _ _ _ _ I r q Hr). specialize (Hrx r). lia.
- intros y. specialize (Hrx y). unfold upd. case_decide; lia.
- intros y Hy. rewrite Er in Hy. apply lookup_insert_None in Hy as [Hy Hne]. rewrite upd_ne by congruence. by apply (si_none _ _ _ _ I).
- intros y o Ho Hp'. destruct (Hsh y o Ho) as [[-> ->]|[Hne Ho0]]; [congruence|]. rewrite upd_ne by done. by apply (si_fake _ _ _ _ I).
- intros y o f Ho Hu' Hf. destruct (Hsh y o Ho) as [[-> ->]|[Hne Ho0]]; [congruence|].
  destruct (si_flush _ _ _ _ I y o f Ho0 Hu' Hf) as (fo & Hfo & G1 & G2 & G3 & G4). exists fo.
  split; [apply Hne'; [done|]; by intros ->|]. split_and!; try done.
  intros [[? _]%elem_of_difference|Hf'%elem_of_list_to_set]%elem_of_union; [done|].
  destruct (si_flush _ _ _ _ I r q f Hr Hu Hf') as (fo' & Hfo' & G1' & _). congruence.
- intros y o Ho. destruct (Hsh y o Ho) as [[-> ->]|[_ Ho0]]; [rewrite T5; by apply (si_nodup _ _ _ _ I r q)|by apply (si_nodup _ _ _ _ I y o)].
- intros y o Ho Hu'. specialize (Hrx y). destruct (Hsh y o Ho) as [[-> ->]|[Hne Ho0]]; [right; rewrite upd_eq; lia|].
  rewrite upd_ne by done. by apply (si_stale _ _ _ _ I y o).
- intros f fo Hfo Hu'. destruct (Hsh f fo Hfo) as [[-> ->]|[Hne Hf0]]; [congruence|].
  destruct (si_owed _ _ _ _ I f fo Hf0 Hu') as [Hf|(ro & Hro & G1 & G2)].
  + left. apply elem_of_union. left. apply elem_of_difference. split; [done|]. by rewrite elem_of_singleton.
  + destruct (decide (rq_oldreq fo = r)) as [E|Hne2].
    * left. apply elem_of_union. right. apply elem_of_list_to_set. rewrite E in Hro. congruence.
    * right. exists ro. split; [|done]. by apply Hne'.
- intros y [[Hy Hne]%elem_of_difference|Hy%elem_of_list_to_set]%elem_of_union.
  + rewrite elem_of_singleton in Hne. destruct (si_P _ _ _ _ I y Hy) as (o & Ho & ?). exists o. split; [by apply Hne'|done].
  + destruct (si_flush _ _ _ _ I r q y Hr Hu Hy) as (fo & Hfo & G1 & G2 & G3 & G4). exists fo.
    split; [|done]. apply Hne'; [done|]. by intros ->.
- intros f fo Hfo Hz'. destruct (Hsh f fo Hfo) as [[-> ->]|[Hne Hf0]]; [congruence|].
  destruct (si_old _ _ _ _ I f fo Hf0 Hz') as (G1 & G2 & G3 & ro & Hro & G4). split_and!; try done.
  destruct (decide (rq_oldreq fo = r)) as [E|Hne2]; [|exists ro; split; [by apply Hne'|done]].
  exists q'. by rewrite Er, E, lookup_insert_eq.
- intros y o Ho. destruct (Hsh y o Ho) as [[-> ->]|[_ Ho0]]; [rewrite T7; by apply (si_stat _ _ _ _ I r)|by apply (si_stat _ _ _ _ I y)].
Qed.

(** [r] is freed: an answered request with its last reference, or a fake. *)
Lemma rinv_delete s s' rx rx' t P r q : rinv s rx t P -> reqs s !! r = Some q -> rq_flush q = [] -> rq_oldreq q = 0 ->
  (rq_pool q = true -> rq_responded q = true /\ rq_ref q = 1 /\ 0 < rx r) ->
  rx' r = 0 -> (forall y, y <> r -> rx' y = rx y) ->
  reqs s' = delete r (reqs s) -> rpool s' = rpool s -> rbrk s' = rbrk s -> rinv s' rx' t (P ∖ {[r]}).
Proof.
intros I Hr Hfl Hz Hlast Hxr Hx Er Ep Eb. pose proof (si_reqs _ _ _ _ I r q Hr) as Hrng.
assert (olds (reqs s) r = 0 /\ forall tag, t !! tag <> Some r) as [Hol Ht].
{ destruct (rq_pool q) eqn:Hp.
  - destruct (Hlast eq_refl) as (Hu & H1 & Hx1). pose proof (si_ref _ _ _ _ I r q Hr Hp) as Href.
    pose proof (olds_nonneg (reqs s) r). pose proof (b2z_range (t !! rq_tag q = Some r)).
    rewrite (b2z_false (rq_responded q = false)) in Href by congruence. split; [lia|]. intros tag Htag.
    destruct (si_pool _ _ _ _ I tag r Htag) as (o & Ho & _ & _ & ?). congruence.
  - split.
    + apply cnt_zero. intros f fo Hf E. destruct (si_old _ _ _ _ I f fo Hf) as (_ & _ & _ & ro & Hro & ?); [lia|]. congruence.
    + intros tag Htag. destruct (si_pool _ _ _ _ I tag r Htag) as (o & Ho & _ & ? & _). congruence. }
assert (Hno : forall f fo, reqs s !! f = Some fo -> rq_oldreq fo <> r).
{ intros f fo Hf E. unfold olds in Hol. pose proof (cnt_pos (fun q => rq_oldreq q = r) _ f fo Hf E). lia. }
assert (Hsh : forall y o, reqs s' !! y = Some o -> y <> r /\ reqs s !! y = Some o).
{ intros y o. rewrite Er. intros [? ?]%lookup_delete_Some. by split. }
assert (Hin : forall y o, reqs s !! y = Some o -> y <> r -> reqs s' !! y = Some o) by (intros; by rewrite Er, lookup_delete_ne).
constructor; rewrite ?Ep, ?Eb; try apply I.
- intros tag y Hy. destruct (si_pool _ _ _ _ I tag y Hy) as (o & Ho & G). exists o. split; [|done]. apply Hin; [done|].
  intros ->. by apply (Ht tag).
- intros y o [_ Ho]%Hsh. by apply (si_reqs _ _ _ _ I y o).
- intros y o [_ Ho]%Hsh. by apply (si_unres _ _ _ _ I y o).
- intros y o [Hne Ho]%Hsh Hp. rewrite Hx by done. rewrite (si_ref _ _ _ _ I y o Ho Hp). f_equal. f_equal.
  unfold olds. rewrite Er, (cnt_delete _ _ r q Hr). rewrite b2z_false; [lia|].
  pose proof (si_reqs _ _ _ _ I y o Ho). lia.
- intros y o [_ Ho]%Hsh. by apply (si_pos _ _ _ _ I y o).
- intros y. destruct (decide (y = r)) as [->|]; [lia|]. rewrite Hx by done. apply I.
- intros y Hy. destruct (decide (y = r)) as [->|Hne]; [done|]. rewrite Hx by done. apply (si_none _ _ _ _ I).
  destruct (reqs s !! y) eqn:E; [|done]. by rewrite (Hin y _ E Hne) in Hy.
- intros y o [Hne Ho]%Hsh Hp. rewrite Hx by done. by apply (si_fake _ _ _ _ I).
- intros y o f [_ Ho]%Hsh Hu Hf. destruct (si_flush _ _ _ _ I y o f Ho Hu Hf) as (fo & Hfo & G1 & G2 & G3 & G4).
  exists fo. split; [apply Hin; [done|]|split_and!; try done; by intros [? _]%elem_of_difference].
  intros ->. rewrite Hr in Hfo. injection Hfo as <-. pose proof (si_reqs _ _ _ _ I y o Ho). lia.
- intros y o [_ Ho]%Hsh. by apply (si_nodup _ _ _ _ I y o).
- intros y o [Hne Ho]%Hsh. rewrite Hx by done. by apply (si_stale _ _ _ _ I y o).
- intros f fo [Hne Hfo]%Hsh Hu. destruct (si_owed _ _ _ _ I f fo Hfo Hu) as [Hf|(ro & Hro & G1 & G2)].
  + left. apply elem_of_difference. by rewrite elem_of_singleton.
  + right. exists ro. split; [|done]. apply Hin; [done|]. by apply (Hno f fo).
- intros y [Hy Hne]%elem_of_difference. rewrite elem_of_singleton in Hne.
  destruct (si_P _ _ _ _ I y Hy) as (o & Ho & Hu). exists o. split; [by apply Hin|done].
- intros f fo [Hne Hfo]%Hsh Hz'. destruct (si_old _ _ _ _ I f fo Hfo Hz') as (G1 & G2 & G3 & ro & Hro & G4).
  split_and!; try done. exists ro. split; [|done]. apply Hin; [done|]. by apply (Hno f fo).
- intros y o [_ Ho]%Hsh. by apply (si_stat _ _ _ _ I y).
Qed.

(** A new request, in the pool or a fake. *)
Lemma rinv_new s s' rx t t' P r q : rinv s rx t P -> reqs s !! r = None -> 0 < r < rbrk s' -> rbrk s <= rbrk s' ->
  rq_fid q = 0 -> rq_afid q = 0 -> rq_newfid q = 0 -> rq_oldreq q = 0 -> rq_responded q = false -> rq_flush q = [] -> rq_statfree q = false ->
  (rq_pool q = true /\ rq_ref q = 2 /\ t !! rq_tag q = None /\ t' = <[rq_tag q := r]> t \/
   rq_pool q = false /\ rq_ref q = 1 /\ t' = t /\ ~ is_flush (rq_ifcall q)) ->
  reqs s' = <[r := q]> (reqs s) -> imap_rep (rpool s') t' -> inc (rpool s') = increqref ->
  rinv s' rx t' ({[r]} ∪ P).
Proof.
intros I Hnew Hrng Hb F1 F2 F3 Hz Hu Hfl Hsf Hkind Er Hm Hi.
pose proof (si_none _ _ _ _ I r Hnew) as Hxr. 
assert (Hol : olds (reqs s) r = 0).
{ apply cnt_zero. intros f fo Hf E. destruct (si_old _ _ _ _ I f fo Hf) as (_ & _ & _ & ro & Hro & ?); [lia|]. congruence. }
assert (Hsh : forall y o, reqs s' !! y = Some o -> (y = r /\ o = q) \/ (y <> r /\ reqs s !! y = Some o)).
{ intros y o. rewrite Er. apply change_at. }
assert (Hin : forall y o, reqs s !! y = Some o -> y <> r /\ reqs s' !! y = Some o).
{ intros y o Ho. assert (y <> r) by (intros ->; congruence). by rewrite Er, lookup_insert_ne. }
assert (Ht : forall tag y, y <> r -> t' !! tag = Some y <-> t !! tag = Some y).
{ intros tag y Hne. destruct Hkind as [(_ & _ & Hn & ->)|(_ & _ & -> & _)]; [|done]. rewrite lookup_insert_Some. split.
  - by intros [[_ ?]|[_ ?]].
  - intros Hy. right. split; [|done]. intros <-. congruence. }
assert (Hold : forall x, x <> 0 -> olds (reqs s') x = olds (reqs s) x).
{ intros x Hx. unfold olds. rewrite Er, cnt_insert_new by done. rewrite b2z_false by congruence. lia. }
constructor; try done.
- intros tag y Hy. destruct (decide (y = r)) as [->|Hne].
  + exists q. rewrite Er, lookup_insert_eq. split; [done|]. destruct Hkind as [(Hp & _ & Hn & ->)|(_ & _ & -> & _)].
    * apply lookup_insert_Some in Hy as [[<- _]|[_ Hy]]; [done|]. destruct (si_pool _ _ _ _ I tag r Hy) as (o & Ho & _). congruence.
    * destruct (si_pool _ _ _ _ I tag r Hy) as (o & Ho & _). congruence.
  + apply Ht in Hy; [|done]. destruct (si_pool _ _ _ _ I tag y Hy) as (o & Ho & G). exists o. split; [by apply Hin|done].
- pose proof (si_brk _ _ _ _ I). lia.
- intros y o Ho. destruct (Hsh y o Ho) as [[-> ->]|[_ Ho0]]; [done|]. pose proof (si_reqs _ _ _ _ I y o Ho0). lia.
- intros y o Ho Hp Hu'. destruct (Hsh y o Ho) as [[-> ->]|[Hne Ho0]].
  + destruct Hkind as [(_ & _ & _ & ->)|(? & _)]; [by rewrite lookup_insert_eq|congruence].
  + apply Ht; [done|]. by apply (si_unres _ _ _ _ I y o).
- intros y o Ho Hp. destruct (Hsh y o Ho) as [[-> ->]|[Hne Ho0]].
  + rewrite Hold by lia. destruct Hkind as [(_ & -> & _ & ->)|(? & _)]; [|congruence].
    rewrite !b2z_true by (done || by rewrite lookup_insert_eq). lia.
  + pose proof (si_reqs _ _ _ _ I y o Ho0). rewrite Hold by lia. rewrite (si_ref _ _ _ _ I y o Ho0 Hp). do 3 f_equal.
    pose proof (Ht (rq_tag o) y Hne). unfold b2z. repeat case_decide; tauto.
- intros y o Ho. destruct (Hsh y o Ho) as [[-> ->]|[_ Ho0]]; [|by apply (si_pos _ _ _ _ I y o)].
  destruct Hkind as [(_ & -> & _)|(_ & -> & _)]; done.
- apply I.
- intros y Hy. rewrite Er in Hy. apply lookup_insert_None in Hy as [Hy _]. by apply (si_none _ _ _ _ I).
- intros y o Ho Hp. destruct (Hsh y o Ho) as [[-> ->]|[_ Ho0]]; [|by apply (si_fake _ _ _ _ I)].
  destruct Hkind as [(? & _)|(_ & _ & _ & Hf)]; [congruence|]. by split_and!.
- intros y o f Ho Hu' Hf. destruct (Hsh y o Ho) as [[-> ->]|[Hne Ho0]]; [rewrite Hfl in Hf; by apply not_elem_of_nil in Hf|].
  destruct (si_flush _ _ _ _ I y o f Ho0 Hu' Hf) as (fo & Hfo & G1 & G2 & G3 & G4). destruct (Hin f fo Hfo) as [Hfr Hfo'].
  exists fo. split_and!; try done. by intros [->%elem_of_singleton|?]%elem_of_union.
- intros y o Ho. destruct (Hsh y o Ho) as [[-> ->]|[_ Ho0]]; [rewrite Hfl; apply NoDup_nil_2|by apply (si_nodup _ _ _ _ I y o)].
- intros y o Ho Hu'. destruct (Hsh y o Ho) as [[-> ->]|[_ Ho0]]; [by left|by apply (si_stale _ _ _ _ I y o)].
- intros f fo Hfo Hu'. destruct (Hsh f fo Hfo) as [[-> ->]|[_ Hf0]]; [left; by apply elem_of_union_l, elem_of_singleton|].
  destruct (si_owed _ _ _ _ I f fo Hf0 Hu') as [?|(ro & Hro & G)]; [left; by apply elem_of_union_r|right].
  exists ro. split; [by apply Hin|done].
- intros y [->%elem_of_singleton|Hy]%elem_of_union; [exists q; by rewrite Er, lookup_insert_eq|].
  destruct (si_P _ _ _ _ I y Hy) as (o & Ho & ?). exists o. split; [by apply Hin|done].
- intros f fo Hfo Hz'. destruct (Hsh f fo Hfo) as [[-> ->]|[_ Hf0]]; [congruence|].
  destruct (si_old _ _ _ _ I f fo Hf0 Hz') as (G1 & G2 & G3 & ro & Hro & G4). split_and!; try done.
  exists ro. split; [by apply Hin|done].
- intros y o Ho. destruct (Hsh y o Ho) as [[-> ->]|[_ Ho0]]; [done|by apply (si_stat _ _ _ _ I y)].
Qed.

(** A call gives up its reference to an answered request, which may be the last. *)
Lemma rinv_release s s' rx t P r q : rinv s rx t P -> reqs s !! r = Some q -> rq_pool q = true ->
  rq_responded q = true -> 0 < rx r -> rq_flush q = [] \/ 1 < rx r ->
  reqs s' = (if decide (rq_ref q = 1) then delete r (reqs s) else <[r := set_rq_ref (rq_ref q - 1) q]> (reqs s)) ->
  rpool s' = rpool s -> rbrk s' = rbrk s -> rinv s' (upd rx r (-1)) t P.
Proof.
intros I Hr Hp Hu Hx Hfl Er Ep Eb.
assert (Hz : rq_oldreq q = 0).
{ destruct (decide (rq_oldreq q = 0)) as [|Hz]; [done|]. destruct (si_old _ _ _ _ I r q Hr Hz) as [? _]. congruence. }
assert (HrP : r ∉ P).
{ intros HP. destruct (si_P _ _ _ _ I r HP) as (q0 & Hq0 & ?). congruence. }
case_decide as H1.
- pose proof (si_ref _ _ _ _ I r q Hr Hp) as Href. pose proof (olds_nonneg (reqs s) r).
  pose proof (b2z_range (t !! rq_tag q = Some r)). rewrite (b2z_false (rq_responded q = false)) in Href by congruence.
  assert (P ∖ {[r]} = P) as <- by (by apply difference_disjoint_L, disjoint_singleton_r).
  apply (rinv_delete s s' rx _ t P r q); try done; [destruct Hfl; [done|lia]|rewrite upd_eq; lia|].
  intros y Hy. by apply upd_ne.
- eapply rinv_ext; [apply (rinv_decr s rx t P r q I Hr Hp Hx H1); by intros _|done..].
Qed.

(** The list of an answered request is given up. *)
Lemma rinv_clear s rx t P r q : rinv s rx t P -> reqs s !! r = Some q -> rq_responded q = true -> 
  rinv (set_reqs (<[r := set_rq_flush [] q]> (reqs s)) s) rx t P.
Proof.
intros I Hr Hu. apply (rinv_change s rx rx t P P r q _ I).
constructor; cbn; try done; try (by left); try (by right); try (intros; by left); try congruence.
- intros Hp. destruct (si_fake _ _ _ _ I r q Hr Hp). tauto.
- by apply (si_pos _ _ _ _ I r q).
- intros y Hy. case_decide; lia.
- intros y. split; [apply I|by left].
- apply (si_stale _ _ _ _ I).
Qed.
