(* ===== verification/RespondSpec.v ===== *)
(** [respond] and [closereq]: what they do to the fids and requests, and that a
    request is answered once, with those that wait for it. *)

From stdpp Require Import strings.
From S2P Require Import Prelude Mem Links Counts Fcall9P Fcall9PSpec Dir9P Dir9PSpec Intmap IntmapSpec Files FilesSpec FilesOps FilesThms Srv FidSpec ReqSpec.

(** The fids, with [fh x] references to the fid [x] outside. *)
Definition fok (f : fidst) (fh : Z -> Z) : Prop := exists gx g K, fidinv f fh gx g K.

(** The references of the request [q] to fids. *)
Definition hold (q : Req) (x : Z) : Z := if decide (x = 0) then 0 else hold3 q x.

Lemma fok_ext f fh fh' : fok f fh -> (forall x, fh' x = fh x) -> fok f fh'.
Proof. intros (gx & g & K & I) E. exists gx, g, K. by eapply fidinv_ext. Qed.

Lemma hold_nonneg q x : 0 <= hold q x.
Proof. unfold hold. pose proof (hold3_nonneg q x). case_decide; lia. Qed.

Lemma rheld_del m r q x : m !! r = Some q -> rheld (delete r m) x = rheld m x - hold q x.
Proof. intros Hr. unfold hold. destruct (decide (x = 0)) as [->|Hx]; [done|]. by apply rheld_delete. Qed.

Lemma rheld_upd m r q q' x : m !! r = Some q -> rheld (<[r := q']> m) x = rheld m x - hold q x + hold q' x.
Proof. intros Hr. unfold hold. destruct (decide (x = 0)) as [->|Hx]; [done|]. by apply rheld_update. Qed.

Lemma rheld_new m r q x : m !! r = None -> rheld (<[r := q]> m) x = rheld m x + hold q x.
Proof. intros Hr. unfold hold. destruct (decide (x = 0)) as [->|Hx]; [done|]. by apply rheld_insert. Qed.

Lemma rheld_hold m r q x : m !! r = Some q -> hold q x <= rheld m x.
Proof. intros Hr. unfold hold. destruct (decide (x = 0)) as [->|Hx]; [done|]. by apply (rheld_pos m r). Qed.

Lemma rheld_same m r q q' x : m !! r = Some q -> rq_fid q' = rq_fid q -> rq_afid q' = rq_afid q -> rq_newfid q' = rq_newfid q ->
  rheld (<[r := q']> m) x = rheld m x.
Proof.
intros Hr E1 E2 E3. rewrite (rheld_upd m r q) by done. unfold hold, hold3. rewrite E1, E2, E3. lia.
Qed.

Section Closing.
Context {R : Type}.

(** A reference to a fid is given up, if there is one. *)
Definition drop1 (fh : Z -> Z) (x : Z) : Z -> Z := if decide (x = 0) then fh else upd fh x (-1).

Lemma closefid_held s fh x : fok (sf s) fh -> (x <> 0 -> 0 < fh x) ->
  exists f', (if decide (x <> 0) then onfid (R := R) (closefid x) else cret tt) s = (Go tt, set_sf f' s) /\
    fok f' (drop1 fh x) /\ trees (fs f') = trees (fs (sf s)).
Proof.
intros (gx & g & K & I) Hx. unfold drop1. destruct (decide (x = 0)) as [->|Hz].
- exists (sf s). rewrite decide_False by tauto. split; [by destruct s|]. split; [by exists gx, g, K|done].
- rewrite decide_True by done. specialize (Hx Hz). destruct (held_fid _ _ _ _ _ _ I Hx) as (fo & Hfo).
  destruct (closefid_spec (R := R) (sf s) fh gx g K x fo I Hfo Hx) as (f' & K' & E & I' & _ & Ht).
  exists f'. split; [by apply onfid_go|]. split; [by exists gx, g, K'|done].
Qed.

Lemma closereq_run n s fh o oo : fok (sf s) fh -> reqs s !! o = Some oo -> o <> 0 -> 0 < rq_ref oo < 2 ^ 31 ->
  rq_pool oo = true -> rq_statfree oo = false -> rq_oldreq oo = 0 -> (rq_ref oo = 1 -> rq_flush oo = []) ->
  (rq_ref oo = 1 -> forall x, hold oo x <= fh x) ->
  exists f' d', closereq (R := R) (S n) o s = (Go tt, set_dreqs d' (set_reqs
      (if decide (rq_ref oo = 1) then delete o (reqs s) else <[o := set_rq_ref (rq_ref oo - 1) oo]> (reqs s)) (set_sf f' s))) /\
    fok f' (if decide (rq_ref oo = 1) then fun x => fh x - hold oo x else fh) /\ trees (fs f') = trees (fs (sf s)).
Proof.
intros Hok Ho Hz Hpos Hp Hsf Hold Hfl Hfh. cbn [closereq]. rewrite decide_False by done.
rewrite (cbind_go _ _ _ _ _ (rset_go o _ s oo Ho)). rewrite s32_small by lia. set (s1 := set_reqs _ s).
set (o1 := set_rq_ref (rq_ref oo - 1) oo) in *.
assert (Ho1 : reqs s1 !! o = Some o1) by (cbn; by rewrite lookup_insert_eq).
rewrite (cbind_go _ _ _ _ _ (rget_go o s1 o1 Ho1)). destruct (decide (rq_ref oo = 1)) as [H1|H1].
2:{ rewrite decide_False by (cbn; lia). exists (sf s), (dreqs s). split; [by destruct s|by split]. }
rewrite decide_True by (cbn; lia). specialize (Hfl H1). specialize (Hfh H1). change (rq_fid o1) with (rq_fid oo).
change (rq_newfid o1) with (rq_newfid oo). change (rq_afid o1) with (rq_afid oo). change (rq_oldreq o1) with (rq_oldreq oo).
change (rq_flush o1) with (rq_flush oo). change (rq_pool o1) with (rq_pool oo). rewrite Hold, Hfl, Hp.
assert (Hh : forall x, x <> 0 -> b2z (rq_fid oo = x) + b2z (rq_afid oo = x) + b2z (rq_newfid oo = x) <= fh x).
{ intros x Hx. specialize (Hfh x). unfold hold, hold3 in Hfh. by rewrite decide_False in Hfh. }
destruct (closefid_held s1 fh (rq_fid oo)) as (f1 & E1 & Hok1 & T1); [done| |].
{ intros Hx. specialize (Hh _ Hx). rewrite (b2z_true (rq_fid oo = rq_fid oo)) in Hh by done.
  pose proof (b2z_range (rq_afid oo = rq_fid oo)). pose proof (b2z_range (rq_newfid oo = rq_fid oo)). lia. }
rewrite (cbind_go _ _ _ _ _ E1).
destruct (closefid_held (set_sf f1 s1) _ (rq_newfid oo) Hok1) as (f2 & E2 & Hok2 & T2).
{ intros Hx. specialize (Hh _ Hx). unfold drop1, upd, b2z in *. repeat case_decide; lia. }
rewrite (cbind_go _ _ _ _ _ E2).
destruct (closefid_held (set_sf f2 (set_sf f1 s1)) _ (rq_afid oo) Hok2) as (f3 & E3 & Hok3 & T3).
{ intros Hx. specialize (Hh _ Hx). unfold drop1, upd, b2z in *. repeat case_decide; lia. }
rewrite (cbind_go _ _ _ _ _ E3). rewrite decide_False by tauto.
change (rq_ifcall o1) with (rq_ifcall oo). change (rq_statfree o1) with (rq_statfree oo). rewrite Hsf.
assert (forall s, (match rq_ifcall oo with MTstat _ => cret tt | _ => cret tt end : cmd srvst R unit) s = (Go tt, s)) as Hst
  by (intros s'; by destruct (rq_ifcall oo)).
set (s4 := set_sf f3 _). do 2 rewrite (cbind_go (cret tt) _ s4 tt s4 eq_refl). rewrite (cbind_go _ _ s4 tt s4 (Hst s4)). unfold s4.
exists f3, (dreqs s ++ [o]). split; [|split].
- unfold cbind, cret, cmodify. cbn. unfold set_dreqs, set_reqs, set_sf, s1. cbn. rewrite delete_insert_eq. done.
- eapply fok_ext; [exact Hok3|]. intros x. unfold hold, hold3, drop1, upd, b2z. repeat case_decide; lia.
- cbn in *. congruence.
Qed.
End Closing.

(** ** What may be answered *)

Definition is_T (g : msg) : bool := match reply g empty_ofcall None with Some _ => true | None => false end.

(** [removefid] of the number of the fid [x] finds [x]. *)
Definition droppable (f : fidst) (x : Z) : Prop :=
  exists fo, fids f !! x = Some fo /\ (lookupkey (fpool f) (fd_fid fo) (Some (fids f))).1 = Some x.

(** The fid does not read its file. *)
Definition no_reader (f : fidst) (x : Z) : Prop := forall fo, fids f !! x = Some fo -> fd_rdir fo = 0.

(** The smallest message size that the library works with: room for the largest
    reply of a fixed form, an [Rwalk] of sixteen qids. *)
Definition MINMSIZE : Z := 256.

(** The reply to [i] with [o] fits into a message of [ms] bytes. *)
Definition o_fits (i : msg) (o : Ofcall) (ms : Z) : Prop :=
  match i with
  | MTversion _ _ => zlen (o_version o) <= ERRMAX
  | MTwalk _ _ _ => o_nwqid o <= MAXWELEM
  | MTread _ _ _ => o_count o <= ms - 11
  | MTstat _ => zlen (o_stat o) <= ms - 9
  | _ => True
  end.

(** [removefile] can remove the file of the fid, or somebody else holds the file:
    the name in the error message of [rremove] is still there. *)
Definition name_stays (f : fidst) (x : Z) : Prop := forall fo p, fids f !! x = Some fo ->
  files (fs f) !! fd_file fo = Some p -> f_parent p <> 0 \/ 1 < f_ref p.

(** What [respond] expects of its caller, for each request. *)
Definition may_answer (f : fidst) (ms : Z) (q : Req) (error : option bytes) : Prop :=
  (forall e, error = Some e -> zlen e <= ERRMAX) /\
  match rq_ifcall q with
  | MTversion _ _ => error = None /\ MINMSIZE <= o_msize (rq_ofcall q) < 2 ^ 32 /\ zlen (o_version (rq_ofcall q)) <= ERRMAX
  | MTauth _ _ _ => error <> None -> rq_afid q <> 0 -> droppable f (rq_afid q)
  | MTattach _ _ _ _ => error <> None -> rq_fid q <> 0 -> droppable f (rq_fid q)
  | MTflush _ => error = None
  | MTwalk fid newfid wname =>
      let n := o_nwqid (rq_ofcall q) in
      n <= MAXWELEM /\
      (error <> None \/ n < zlen wname -> fid <> newfid -> rq_newfid q <> 0 -> droppable f (rq_newfid q)) /\
      (error = None -> zlen wname <= n ->
        rq_fid q <> 0 /\ rq_newfid q <> 0 /\ 0 <= n <= zlen (o_wqid (rq_ofcall q)))
  | MTopen _ _ | MTcreate _ _ _ _ | MTwrite _ _ _ => error = None -> rq_fid q <> 0
  | MTread _ _ _ => error = None -> rq_fid q <> 0 /\ o_count (rq_ofcall q) <= ms - 11
  | MTremove _ => error = None -> rq_fid q <> 0 /\ no_reader f (rq_fid q) /\ name_stays f (rq_fid q)
  | MTstat _ => error = None -> dir_size (rq_d q) <= ms - 9 /\ dir_size (rq_d q) < 2 ^ 16
  | MTclunk _ | MTwstat _ _ => True
  | _ => False
  end.

Lemma reply_fits i o e ms : is_T i = true -> MINMSIZE <= ms -> (forall e', e = Some e' -> zlen e' <= ERRMAX) ->
  (e = None -> o_fits i o ms) -> exists g, reply i o e = Some g /\ msg_size g <= ms.
Proof.
intros Ht Hm He Ho. unfold MINMSIZE, ERRMAX, MAXWELEM in *.
destruct e as [e|].
- exists (MRerror e). split; [by destruct i|]. unfold msg_size. cbn [enc_body]. rewrite zlen_enc_str. specialize (He e eq_refl). lia.
- specialize (Ho eq_refl). destruct i; try discriminate Ht; (eexists; split; [reflexivity|]);
    unfold msg_size, o_fits in *; cbn [enc_body];
    rewrite ?zlen_app, ?zlen_le, ?zlen_enc_str, ?zlen_enc_qid, ?zlen_enc_qids;
    unfold QIDSZ, BIT8SZ, BIT32SZ, BIT64SZ, MAXWELEM, ERRMAX, zlen in *; rewrite ?length_take; cbn; lia.
Qed.

(** *** The second halves of the handlers *)

(** What they change: the fids, [ofcall] and [error] of the request, the message size. *)
Definition post (s : srvst) (r : Z) (q : Req) (f : fidst) (o : Ofcall) (e : option bytes) (m : Z) : srvst :=
  set_msize m (set_reqs (<[r := set_rq_ofcall o (set_rq_error e q)]> (reqs s)) (set_sf f s)).

Lemma post_sf s r q f m : reqs s !! r = Some q -> post s r q f (rq_ofcall q) (rq_error q) m = set_msize m (set_sf f s).
Proof.
intros Hr. unfold post, set_msize, set_reqs, set_sf. cbn. rewrite insert_id by (destruct q; cbn; exact Hr). done.
Qed.

Section Halves.
Context {R : Type}.
Abbreviation scmd := (cmd srvst R).

(** The command [c] leaves the fids in order, with the references [fh], and a reply that
    can be written. *)
Definition post_ok (c : scmd unit) (s : srvst) (r : Z) (q : Req) (fh : Z -> Z) : Prop :=
  exists f o e m, c s = (Go tt, post s r q f o e m) /\ fok f fh /\ trees (fs f) = trees (fs (sf s)) /\ MINMSIZE <= m < 2 ^ 32 /\
    (forall e', e = Some e' -> zlen e' <= ERRMAX) /\ (e = None -> o_fits (rq_ifcall q) o m).

Lemma held_alive s fh x : fok (sf s) fh -> 0 < fh x -> exists fo, fids (sf s) !! x = Some fo.
Proof. intros (gx & g & K & I) Hx. by eapply held_fid. Qed.

Lemma onfid_xget x s fo : fids (sf s) !! x = Some fo -> onfid (R := R) (xget x) s = (Go fo, s).
Proof. intros Hfo. rewrite (onfid_go _ s fo (sf s) (xget_go x (sf s) fo Hfo)). by destruct s. Qed.

Lemma onfid_xset s fh x g : fok (sf s) fh -> 0 < fh x ->
  (forall fo, fd_fid (g fo) = fd_fid fo /\ fd_file (g fo) = fd_file fo /\ fd_rdir (g fo) = fd_rdir fo /\ fd_ref (g fo) = fd_ref fo /\ fd_uid (g fo) = fd_uid fo) ->
  exists f', onfid (R := R) (xset x g) s = (Go tt, set_sf f' s) /\ fok f' fh /\ fs f' = fs (sf s).
Proof.
intros (gx & gm & K & I) Hx Hg. destruct (held_fid _ _ _ _ _ _ I Hx) as (fo & Hfo).
destruct (Hg fo) as (E1 & E2 & E3 & E4 & E5). eexists. split; [apply onfid_go, (xset_go x g _ fo Hfo)|]. split; [|done].
exists gx, gm, K. apply (fidinv_set _ fh gx gm K x fo); try done. rewrite E5. by apply (xi_uid _ _ _ _ _ I x).
Qed.

Lemma dropfid_spec s fh x : fok (sf s) fh -> x <> 0 -> droppable (sf s) x ->
  exists f', dropfid (R := R) x s = (Go tt, set_sf f' s) /\ fok f' fh /\ trees (fs f') = trees (fs (sf s)).
Proof.
intros (gx & g & K & I) Hx (fo & Hfo & Hlk). rewrite (lookupkey_spec _ g) in Hlk by apply I.
assert (g !! fd_fid fo = Some x) as Hg by (by destruct (g !! fd_fid fo); cbn in Hlk).
unfold dropfid. rewrite (cbind_go _ _ _ _ _ (onfid_xget x s fo Hfo)).
destruct (removefid_some (R := R) _ _ _ _ _ _ _ I Hg) as (f1 & fo' & E1 & I1 & _ & Hfo' & _ & Ef1 & Et1).
rewrite (cbind_go _ _ _ _ _ (onfid_go _ _ _ _ E1)).
destruct (closefid_spec (R := R) f1 _ gx _ K x fo I1) as (f2 & K2 & E2 & I2 & _ & Et2); [congruence| |].
{ rewrite upd_eq. pose proof (xi_held _ _ _ _ _ I x). lia. }
exists f2. split; [rewrite (onfid_go _ (set_sf f1 s) tt f2 E2); done|]. split; [|congruence].
eapply fok_ext; [by exists gx, (delete (fd_fid fo) g), K2|]. intros y. unfold upd. repeat case_decide; lia.
Qed.
End Halves.

Section Posts.
Context {R : Type} (s : srvst) (r : Z) (q : Req) (fh : Z -> Z).
Context (Hr : reqs s !! r = Some q) (Hf : fok (sf s) fh) (Hh : forall x, hold q x <= fh x)
  (Hm : MINMSIZE <= msize s < 2 ^ 32) (Ha : may_answer (sf s) (msize s) q (rq_error q)).
Abbreviation post_ok c := (post_ok (R := R) c s r q fh).

Lemma fid_held : rq_fid q <> 0 -> 0 < fh (rq_fid q).
Proof.
intros Hz. specialize (Hh (rq_fid q)). unfold hold, hold3 in Hh. rewrite decide_False in Hh by done.
rewrite (b2z_true (rq_fid q = rq_fid q)) in Hh by done.
pose proof (b2z_range (rq_afid q = rq_fid q)). pose proof (b2z_range (rq_newfid q = rq_fid q)). lia.
Qed.

Lemma newfid_held : rq_newfid q <> 0 -> 0 < fh (rq_newfid q).
Proof.
intros Hz. specialize (Hh (rq_newfid q)). unfold hold, hold3 in Hh. rewrite decide_False in Hh by done.
rewrite (b2z_true (rq_newfid q = rq_newfid q)) in Hh by done.
pose proof (b2z_range (rq_afid q = rq_newfid q)). pose proof (b2z_range (rq_fid q = rq_newfid q)). lia.
Qed.

Lemma post_fids c f : c s = (Go tt, set_sf f s) -> fok f fh -> trees (fs f) = trees (fs (sf s)) ->
  (rq_error q = None -> o_fits (rq_ifcall q) (rq_ofcall q) (msize s)) -> post_ok c.
Proof.
intros E Hok Ht Ho. exists f, (rq_ofcall q), (rq_error q), (msize s). rewrite (post_sf s r q f _ Hr).
split_and!; try done; try apply Ha; lia.
Qed.

Lemma post_nothing c : c s = (Go tt, s) ->
  (rq_error q = None -> o_fits (rq_ifcall q) (rq_ofcall q) (msize s)) -> post_ok c.
Proof. intros E Ho. apply (post_fids c (sf s)); try done. rewrite E. by destruct s. Qed.

Lemma error_cases : rq_error q = None \/ exists e, rq_error q = Some e.
Proof. destruct (rq_error q); eauto. Qed.

(** An error is set. *)
Lemma post_error c f e : c s = (Go tt, set_reqs (<[r := set_rq_error (Some e) q]> (reqs s)) (set_sf f s)) -> fok f fh ->
  trees (fs f) = trees (fs (sf s)) -> zlen e <= ERRMAX -> post_ok c.
Proof.
intros E Hok Ht Hl. exists f, (rq_ofcall q), (Some e), (msize s).
split; [rewrite E; unfold post, set_msize, set_reqs, set_sf; by destruct q|]. split_and!; try done; try lia. by intros e' [= <-].
Qed.

Lemma rversion_ok ms v : rq_ifcall q = MTversion ms v -> post_ok (rversion r (rq_error q)).
Proof.
intros Hi. pose proof Ha as Ha'. unfold may_answer in Ha'. rewrite Hi in Ha'. destruct Ha' as (_ & He & Hms & Hv).
exists (sf s), (rq_ofcall q), (rq_error q), (o_msize (rq_ofcall q)). rewrite (post_sf s r q _ _ Hr), Hi. split.
- rewrite He. unfold rversion. rewrite (cbind_go _ _ _ _ _ (rget_go r s q Hr)). unfold cmodify, u32.
  rewrite Z.mod_small by (unfold MINMSIZE in *; lia). by destruct s.
- split_and!; try done; try lia. apply Ha.
Qed.

Lemma rauth_ok a u n : rq_ifcall q = MTauth a u n -> post_ok (rauth r (rq_error q)).
Proof.
intros Hi. pose proof Ha as Ha'. unfold may_answer in Ha'. rewrite Hi in Ha'. destruct Ha' as (_ & Hd).
destruct (decide (rq_error q <> None /\ rq_afid q <> 0)) as [Hc|Hc].
- destruct Hc as [He Hz]. destruct (dropfid_spec (R := R) s fh (rq_afid q) Hf Hz (Hd He Hz)) as (f & E & Hok & Ht).
  apply (post_fids _ f); try done; try (by rewrite Hi). unfold rauth. rewrite (cbind_go _ _ _ _ _ (rget_go r s q Hr)). by rewrite decide_True.
- apply post_nothing; try (by rewrite Hi). unfold rauth. rewrite (cbind_go _ _ _ _ _ (rget_go r s q Hr)). by rewrite decide_False.
Qed.

Lemma rattach_ok a b u n : rq_ifcall q = MTattach a b u n -> post_ok (rattach r (rq_error q)).
Proof.
intros Hi. pose proof Ha as Ha'. unfold may_answer in Ha'. rewrite Hi in Ha'. destruct Ha' as (_ & Hd).
destruct (decide (rq_error q <> None /\ rq_fid q <> 0)) as [Hc|Hc].
- destruct Hc as [He Hz]. destruct (dropfid_spec (R := R) s fh (rq_fid q) Hf Hz (Hd He Hz)) as (f & E & Hok & Ht).
  apply (post_fids _ f); try done; try (by rewrite Hi). unfold rattach. rewrite (cbind_go _ _ _ _ _ (rget_go r s q Hr)). by rewrite decide_True.
- apply post_nothing; try (by rewrite Hi). unfold rattach. rewrite (cbind_go _ _ _ _ _ (rget_go r s q Hr)). by rewrite decide_False.
Qed.

(** A fid of the request is changed. *)
Lemma post_xset c x g : (c s = onfid (xset x g) s) -> 0 < fh x ->
  (forall fo, fd_fid (g fo) = fd_fid fo /\ fd_file (g fo) = fd_file fo /\ fd_rdir (g fo) = fd_rdir fo /\
    fd_ref (g fo) = fd_ref fo /\ fd_uid (g fo) = fd_uid fo) ->
  (rq_error q = None -> o_fits (rq_ifcall q) (rq_ofcall q) (msize s)) -> post_ok c.
Proof.
intros E Hx Hg Ho. destruct (onfid_xset (R := R) s fh x g Hf Hx Hg) as (f & E' & Hok & Et).
apply (post_fids _ f); try done; [by rewrite E|by rewrite Et].
Qed.

Lemma rwalk_ok fid newfid ws : rq_ifcall q = MTwalk fid newfid ws -> post_ok (rwalk r fid newfid (zlen ws) (rq_error q)).
Proof.
intros Hi. pose proof Ha as Ha'. unfold may_answer in Ha'. rewrite Hi in Ha'. destruct Ha' as (_ & Hn & Hd & Hok).
set (n := o_nwqid (rq_ofcall q)) in *.
assert (Hfit : o_fits (rq_ifcall q) (rq_ofcall q) (msize s)) by (by rewrite Hi).
destruct (decide (rq_error q <> None \/ n < zlen ws)) as [Hc|Hc].
- specialize (Hd Hc).
  assert (exists f, (if decide (fid <> newfid /\ rq_newfid q <> 0) then dropfid (R := R) (rq_newfid q) else cret tt) s = (Go tt, set_sf f s) /\
    fok f fh /\ trees (fs f) = trees (fs (sf s))) as (f & E & Hfok & Ht).
  { destruct (decide (fid <> newfid /\ rq_newfid q <> 0)) as [[H1 H2]|_].
    - apply (dropfid_spec s fh); auto.
    - exists (sf s). split; [by destruct s|done]. }
  assert (Erun : rwalk (R := R) r fid newfid (zlen ws) (rq_error q) s =
    (if decide (n = 0) then
      if decide (rq_error q = None /\ zlen ws <> 0) then rset r (set_rq_error (Some Enotfound)) else cret tt
    else rset r (set_rq_error None)) (set_sf f s)).
  { unfold rwalk. rewrite (cbind_go _ _ _ _ _ (rget_go r s q Hr)). fold n. rewrite decide_True by done. by rewrite (cbind_go _ _ _ _ _ E). }
  destruct (decide (n = 0)) as [Hn0|Hn0].
  + destruct (decide (rq_error q = None /\ zlen ws <> 0)) as [He|He].
    * apply (post_error _ f Enotfound); try done. rewrite Erun. by rewrite (rset_go r _ (set_sf f s) q Hr).
    * by apply (post_fids _ f).
  + exists f, (rq_ofcall q), None, (msize s). split; [|split_and!; try done; lia].
    rewrite Erun, (rset_go r _ (set_sf f s) q Hr). unfold post, set_msize, set_reqs, set_sf. by destruct q.
- destruct (decide (rq_error q = None)) as [He|He]; [|by destruct Hc; left].
  destruct Hok as (Hz1 & Hz2 & Hlen); [done|lia|].
  pose proof (newfid_held Hz2) as Hnf.
  assert (Erun : rwalk (R := R) r fid newfid (zlen ws) (rq_error q) s =
    (if decide (n = 0) then
      f <- onfid (xget (rq_fid q));; onfid (xset (rq_newfid q) (set_fid_qid (fd_qid f)))
    else match o_wqid (rq_ofcall q) !! Z.to_nat (n - 1) with
      | Some q0 => onfid (xset (rq_newfid q) (set_fid_qid q0))
      | None => cabort end) s).
  { unfold rwalk. rewrite (cbind_go _ _ _ _ _ (rget_go r s q Hr)). fold n. by rewrite decide_False by done. }
  destruct (decide (n = 0)) as [Hn0|Hn0].
  + destruct (held_alive s fh _ Hf (fid_held Hz1)) as (fo & Hfo).
    apply (post_xset _ (rq_newfid q) (set_fid_qid (fd_qid fo))); try done.
    by rewrite Erun, (cbind_go _ _ _ _ _ (onfid_xget _ s fo Hfo)).
  + destruct (lookup_lt_is_Some_2 (o_wqid (rq_ofcall q)) (Z.to_nat (n - 1))) as [q0 Hq0]; [unfold zlen in *; lia|].
    rewrite Hq0 in Erun. by apply (post_xset _ (rq_newfid q) (set_fid_qid q0)).
Qed.

(** [ropen] and [rcreate]. *)
Lemma open_ok mode (b : bool) : (rq_error q = None -> rq_fid q <> 0) ->
  (rq_error q = None -> o_fits (rq_ifcall q) (rq_ofcall q) (msize s)) ->
  post_ok (if b then ropen r mode (rq_error q) else rcreate r mode (rq_error q)).
Proof.
intros Hz Ho. destruct error_cases as [He|[e He]].
2:{ apply (post_nothing _); rewrite ?He; [by destruct b|done]. }
specialize (Hz He). rewrite He. pose proof (fid_held Hz) as Hx.
destruct (onfid_xset (R := R) s fh (rq_fid q) (set_fid_omode (s8 mode)) Hf Hx) as (f1 & E1 & Hok1 & Et1); [done|].
destruct (onfid_xset (R := R) (set_sf f1 s) fh (rq_fid q) (set_fid_qid (o_qid (rq_ofcall q))) Hok1 Hx) as (f2 & E2 & Hok2 & Et2); [done|].
cbn in Et2. destruct b.
- destruct (onfid_xset (R := R) (set_sf f2 (set_sf f1 s)) fh (rq_fid q) (set_fid_diroffset 0) Hok2 Hx) as (f3 & E3 & Hok3 & Et3); [done|].
  cbn in Et3. destruct (decide (Z.land (q_type (o_qid (rq_ofcall q))) QTDIR <> 0)) as [Hd|Hd].
  + apply (post_fids _ f3); try done; try congruence. unfold ropen. rewrite (cbind_go _ _ _ _ _ (rget_go r s q Hr)).
    rewrite (cbind_go _ _ _ _ _ E1), (cbind_go _ _ _ _ _ E2). by rewrite decide_True.
  + apply (post_fids _ f2); try done; try congruence. unfold ropen. rewrite (cbind_go _ _ _ _ _ (rget_go r s q Hr)).
    rewrite (cbind_go _ _ _ _ _ E1), (cbind_go _ _ _ _ _ E2). by rewrite decide_False.
- apply (post_fids _ f2); try done; try congruence. unfold rcreate. rewrite (cbind_go _ _ _ _ _ (rget_go r s q Hr)).
  by rewrite (cbind_go _ _ _ _ _ E1), E2.
Qed.

Lemma rread_ok a b c : rq_ifcall q = MTread a b c -> post_ok (rread r (rq_error q)).
Proof.
intros Hi. pose proof Ha as Ha'. unfold may_answer in Ha'. rewrite Hi in Ha'. destruct Ha' as (_ & Hok).
destruct error_cases as [He|[e He]]; [|apply (post_nothing _); rewrite ?He; done].
rewrite He. destruct (Hok He) as [Hz Hc]. pose proof (fid_held Hz) as Hx. destruct (held_alive s fh _ Hf Hx) as (fo & Hfo).
assert (rq_error q = None -> o_fits (rq_ifcall q) (rq_ofcall q) (msize s)) as Ho by (intros _; by rewrite Hi).
assert (Erun : rread (R := R) r None s = (if decide (Z.land (q_type (fd_qid fo)) QTDIR <> 0) then
  onfid (xset (rq_fid q) (fun f => set_fid_diroffset (fd_diroffset f + o_count (rq_ofcall q)) f)) else cret tt) s).
{ unfold rread. by rewrite (cbind_go _ _ _ _ _ (rget_go r s q Hr)), (cbind_go _ _ _ _ _ (onfid_xget _ s fo Hfo)). }
destruct (decide (Z.land (q_type (fd_qid fo)) QTDIR <> 0)).
- by apply (post_xset _ _ _ Erun).
- by apply post_nothing.
Qed.

(** A file gets another version. *)
Lemma fwf_bump h ext K p fo : fwf h ext K -> files h !! p = Some fo ->
  fwf (set_files (<[p := set_dir (bump_vers (f_dir fo)) fo]> (files h)) h) ext K.
Proof.
intros (I & U & Hroot) Hp. split; [|split].
- apply (finv_set_file h ext ext K p fo _ I Hp); cbn; try done.
  + by apply (fi_ref _ _ _ I).
  + by apply (fi_bound _ _ _ I p).
  + apply (fi_ext _ _ _ I).
  + apply (fi_nrd _ _ _ I).
- assert (forall c co, <[p := set_dir (bump_vers (f_dir fo)) fo]> (files h) !! c = Some co -> exists co0, files h !! c = Some co0 /\
    v_name (f_dir co) = v_name (f_dir co0)) as Hsh.
  { intros c co [[-> ->]|[_ Hc]]%change_at; [by exists fo|by exists co]. }
  intros d c c' co co' Hc Hc' Hco Hco'. destruct (Hsh c co Hco) as (c0 & H0 & ->). destruct (Hsh c' co' Hco') as (c1 & H1 & ->).
  by apply (U d).
- intros t x Ht. destruct (Hroot t x Ht) as (ro & Hro & Hpar). destruct (decide (t_root x = p)) as [<-|Hne].
  + rewrite Hro in Hp. injection Hp as <-. eexists. cbn. by rewrite lookup_insert_eq.
  + exists ro. cbn. by rewrite lookup_insert_ne.
Qed.

Lemma rwrite_ok a b c : rq_ifcall q = MTwrite a b c -> post_ok (rwrite r (rq_error q)).
Proof.
intros Hi. pose proof Ha as Ha'. unfold may_answer in Ha'. rewrite Hi in Ha'. destruct Ha' as (_ & Hok).
destruct error_cases as [He|[e He]]; [|apply (post_nothing _); rewrite ?He; done].
rewrite He. pose proof (fid_held (Hok He)) as Hx. destruct (held_alive s fh _ Hf Hx) as (fo & Hfo).
assert (rq_error q = None -> o_fits (rq_ifcall q) (rq_ofcall q) (msize s)) as Ho by (intros _; by rewrite Hi).
assert (Erun : rwrite (R := R) r None s = (if decide (fd_file fo <> 0) then
  onfile (fset (fd_file fo) (fun o => set_dir (bump_vers (f_dir o)) o)) else cret tt) s).
{ unfold rwrite. by rewrite (cbind_go _ _ _ _ _ (rget_go r s q Hr)), (cbind_go _ _ _ _ _ (onfid_xget _ s fo Hfo)). }
destruct (decide (fd_file fo <> 0)) as [Hz|Hz]; [|by apply post_nothing].
destruct Hf as (gx & g & K & I). destruct (fid_file _ _ _ _ _ _ _ I Hfo Hz) as (_ & p & Hp & Hpp).
eapply (post_fids _ (set_fs (set_files (<[fd_file fo := set_dir (bump_vers (f_dir p)) p]> (files (fs (sf s)))) (fs (sf s))) (sf s))); try done.
- rewrite Erun. unfold onfile. apply onfid_go, onfs_go. pose proof (proj1 (xi_wf _ _ _ _ _ I)) as If. by rewrite (fset_go _ _ _ p Hp ltac:(alive)).
- exists gx, g, K. apply (fidinv_heap (sf s) fh gx gx g K K); try apply I.
  + apply fwf_bump; [apply I|done].
  + intros x ro Hro. by exists ro.
Qed.

(** An entry with a size of sixteen bits is marshalled whole. *)
Lemma dir_store_small v : dir_size v < 2 ^ 16 ->
  dir_store v BIT16SZ = (BIT16SZ, le 2 (dir_size v - BIT16SZ)) /\ unle (le 2 (dir_size v - BIT16SZ)) + BIT16SZ = dir_size v /\
  dir_store v (dir_size v) = (dir_size v, enc_dir v) /\ u16 (dir_size v) = dir_size v.
Proof.
intros H. pose proof (dir_size_ge v). unfold dir_store, BIT16SZ. rewrite unle_le. change (8 * Z.of_nat 2) with 16.
rewrite !Z.mod_small by lia. rewrite decide_False, decide_True by lia. rewrite !decide_False by lia. split_and!; [done|lia|done|].
apply Z.mod_small. lia.
Qed.

Lemma rstat_ok a : rq_ifcall q = MTstat a -> post_ok (rstat r (rq_error q)).
Proof.
intros Hi. pose proof Ha as Ha'. unfold may_answer in Ha'. rewrite Hi in Ha'. destruct Ha' as (_ & Hok).
destruct error_cases as [He|[e He]]; [|apply (post_nothing _); rewrite ?He; done]. destruct (Hok He) as [Hms Hsz]. rewrite He.
destruct (dir_store_small (rq_d q) Hsz) as (E1 & E2 & E3 & E4). pose proof (dir_size_ge (rq_d q)).
exists (sf s), (set_o_stat (enc_dir (rq_d q)) (rq_ofcall q)), (rq_error q), (msize s). split.
- unfold rstat. rewrite (cbind_go _ _ _ _ _ (rget_go r s q Hr)), E1. rewrite decide_False by tauto. cbv zeta. rewrite E2, E3, E4.
  rewrite decide_False by (unfold BIT16SZ; lia). rewrite (rset_go r _ s q Hr), <- (zlen_enc_dir (rq_d q)). unfold zlen.
  rewrite Nat2Z.id, take_ge by done. unfold post, set_msize, set_reqs, set_sf. by destruct q.
- split; [done|]. split; [done|]. split; [lia|]. split; [by rewrite He|]. intros _. rewrite Hi. cbn. rewrite zlen_enc_dir. lia.
Qed.

(** The file of a fid is removed, and the fid has no file any more. *)
Lemma fidinv_dropfile f gx g K K' h x fo : fidinv f fh gx g K -> fids f !! x = Some fo -> fd_rdir fo = 0 -> fd_file fo <> 0 ->
  fwf h (upd (fext f gx) (fd_file fo) (-1)) K' -> rds h = rds (fs f) ->
  fidinv (set_fids (<[x := set_fid_file 0 fo]> (fids f)) (set_fs h f)) fh gx g K'.
Proof.
intros I Hfo Hrd Hz W Er.
assert (I1 : fidinv (set_fids (<[x := set_fid_file 0 fo]> (fids f)) f) fh (move gx (fd_file fo) 0) g K)
  by (by apply (fidinv_setfile f fh gx g K x fo)).
apply (fidinv_heap _ fh _ gx g K K' h I1).
- eapply fwf_ext; [exact W|]. intros y. unfold fext, upd. cbn. rewrite (cnt_update _ _ x fo) by done. cbn. unfold b2z.
  repeat case_decide; try lia; congruence.
- intros d ro. rewrite Er. cbn. by exists ro.
- apply (xi_gx _ _ _ _ _ I).
- intros y. rewrite (nrd_rds _ _ _ Er). cbn. rewrite (cnt_keep _ _ x fo); [apply (xi_readers _ _ _ _ _ I)|done|].
  unfold reading. cbn. rewrite Hrd. tauto.
Qed.

(** [removefile] with a reference to spare. *)
Lemma removefile_any h ext K p fo : fwf h ext K -> files h !! p = Some fo -> nrd h p < ext p ->
  exists n h' K' fo', removefile (R := R) p h = (Go n, h') /\ fwf h' (upd ext p (-1)) K' /\ rds h' = rds h /\ trees h' = trees h /\
    files h' !! p = Some fo' /\ (n < 0 -> f_parent fo <> 0 \/ 1 < f_ref fo -> f_free fo' = false).
Proof.
intros W Hp Hn. pose proof (nrd_nonneg h p). pose proof W as (I & _).
destruct (decide (f_parent fo = 0 \/ f_parent fo = p \/ f_nchild fo <> 0)) as [Hno|Hno].
- destruct (removefile_refuses (R := R) h ext K p fo I Hp ltac:(lia) ltac:(lia) Hno) as (h' & K' & E & I' & Hk & HK).
  pose proof Hk as (Hk1 & Hk2 & Hk3 & _). destruct (Hk1 p fo Hp) as (fo' & Hfo' & _ & Hpar & _).
  exists (-1), h', K', fo'. split_and!; try done.
  + eapply fwf_evolves; [exact W|exact I'|by apply keeps_evolves|by apply sub_of_eq|done].
  + intros _ Hst. apply (fi_live _ _ _ I' p fo' Hfo'). rewrite (fi_ref _ _ _ I' p fo' Hfo'), upd_eq. unfold kids. rewrite HK.
    change (Z.of_nat (length (nz (K p)))) with (kids K p). pose proof (fi_ref _ _ _ I p fo Hp). pose proof (kids_nonneg K p).
    pose proof (pref_range fo'). assert (pref fo' = pref fo) as Epr by (unfold pref; by rewrite Hpar).
    destruct Hst as [Hst|Hst]; [|lia]. assert (pref fo = 1) by (unfold pref; by rewrite decide_False). lia.
- destruct (removefile_removes (R := R) h ext K p fo I Hp ltac:(lia) ltac:(lia) Hno) as (h' & K' & fo' & E & I' & Hk & Hfo' & _ & HK).
  exists 0, h', K', fo'. pose proof Hk as (_ & Hk2 & Hk3 & _). split_and!; try done; try lia. eapply fwf_evolves; [exact W|exact I'| | |done].
  + eapply keeps_but_evolves; [exact Hp| |exact Hk]. intros Hq. apply Hno. by right; left.
  + intros d c Hc. by apply HK in Hc as [? _].
Qed.

Lemma remove_error_len name e : zlen (remove_error name e) <= ERRMAX.
Proof. unfold remove_error, zlen. rewrite length_take. unfold ERRMAX. lia. Qed.

Lemma rremove_ok a : rq_ifcall q = MTremove a -> post_ok (rremove r (rq_error q)).
Proof.
intros Hi. pose proof Ha as Ha'. unfold may_answer in Ha'. rewrite Hi in Ha'. destruct Ha' as (_ & Hok).
destruct error_cases as [He|[e He]]; [|apply (post_nothing _); rewrite ?He; done]. destruct (Hok He) as (Hz & Hrd & Hns). rewrite He.
pose proof (fid_held Hz) as Hx. destruct (held_alive s fh _ Hf Hx) as (fo & Hfo). specialize (Hrd fo Hfo).
assert (Ho : rq_error q = None -> o_fits (rq_ifcall q) (rq_ofcall q) (msize s)) by (intros _; by rewrite Hi).
destruct (decide (fd_file fo <> 0)) as [Hfz|Hfz].
2:{ apply post_nothing; [|done]. unfold rremove. rewrite (cbind_go _ _ _ _ _ (rget_go r s q Hr)), (cbind_go _ _ _ _ _ (onfid_xget _ s fo Hfo)).
  by rewrite decide_False. }
destruct Hf as (gx & g & K & I). destruct (fid_file _ _ _ _ _ _ _ I Hfo Hfz) as (_ & p & Hp & _). specialize (Hns fo p Hfo Hp).
destruct (removefile_any _ _ _ _ _ (xi_wf _ _ _ _ _ I) Hp (fid_spare _ _ _ _ _ _ _ I Hfo Hfz Hrd))
  as (n & h' & K' & p' & E & W & Er & Et & Hp' & Hlv).
set (f' := set_fids (<[rq_fid q := set_fid_file 0 fo]> (fids (sf s))) (set_fs h' (sf s))).
assert (Hok' : fok f' fh) by (exists gx, g, K'; by apply (fidinv_dropfile (sf s) gx g K K' h' _ fo)).
assert (Ex : forall s1, sf s1 = set_fs h' (sf s) -> onfid (R := R) (xset (rq_fid q) (set_fid_file 0)) s1 = (Go tt, set_sf f' s1)).
{ intros s1 E1. apply onfid_go. rewrite E1. by apply (xset_go _ _ (set_fs h' (sf s))). }
assert (Erun : rremove (R := R) r None s = ((if decide (n < 0) then
    fo' <- onfile (fget (fd_file fo));; e <- cgets (fun s => errstr (fs (sf s)));;
    rset r (set_rq_error (Some (remove_error (v_name (f_dir fo')) e)))
  else cret tt);; onfid (xset (rq_fid q) (set_fid_file 0))) (set_sf (set_fs h' (sf s)) s)).
{ unfold rremove. rewrite (cbind_go _ _ _ _ _ (rget_go r s q Hr)), (cbind_go _ _ _ _ _ (onfid_xget _ s fo Hfo)), decide_True by done.
  unfold onfile. by rewrite (cbind_go _ _ _ _ _ (onfid_go _ _ _ _ (onfs_go _ _ _ _ E))). }
set (s1 := set_sf _ s) in Erun. destruct (decide (n < 0)) as [Hn|Hn].
- specialize (Hlv Hn Hns). set (e := remove_error (v_name (f_dir p')) (errstr h')).
  apply (post_error _ f' e); [|done|done|apply remove_error_len]. rewrite Erun.
  assert (E2 : onfile (fget (R := R) (fd_file fo)) s1 = (Go p', s1)).
  { unfold onfile. rewrite (onfid_go _ s1 p' (sf s1)); [by destruct s1|]. exact (onfs_go (fget (R := R) (fd_file fo)) (sf s1) p' h' (fget_go _ h' p' Hp' Hlv)). }
  rewrite cbind_assoc, (cbind_go _ _ _ _ _ E2), cbind_assoc. unfold cbind at 1, cgets at 1. change (errstr (fs (sf s1))) with (errstr h').
  fold e. rewrite (cbind_go _ _ _ _ _ (rset_go r _ s1 q Hr)). by rewrite Ex.
- apply (post_fids _ f'); [|done|done|done]. by rewrite Erun, (cbind_go _ _ s1 tt s1), Ex.
Qed.

(** The second half of the handler of [i], other than a [Tflush]. *)
Definition second_half (i : msg) (error : option bytes) : cmd srvst R unit :=
  match i with
  | MTversion _ _ => rversion r error
  | MTauth _ _ _ => rauth r error
  | MTattach _ _ _ _ => rattach r error
  | MTwalk fid newfid wname => rwalk r fid newfid (zlen wname) error
  | MTopen _ mode => ropen r mode error
  | MTcreate _ _ _ mode => rcreate r mode error
  | MTread _ _ _ => rread r error
  | MTwrite _ _ _ => rwrite r error
  | MTremove _ => rremove r error
  | MTstat _ => rstat r error
  | _ => cret tt
  end.

Lemma second_half_ok : ~ is_flush (rq_ifcall q) -> post_ok (second_half (rq_ifcall q) (rq_error q)).
Proof.
intros Hnf. pose proof Ha as Ha'. unfold may_answer in Ha'. destruct (rq_ifcall q) eqn:Hi; try (by destruct Ha'); cbn.
all: rewrite <- Hi in *.
- by eapply rversion_ok.
- destruct Hnf. by eexists.
- by eapply rauth_ok.
- by eapply rattach_ok.
- by eapply rwalk_ok.
- apply (open_ok mode true); [apply Ha'|by rewrite Hi].
- apply (open_ok mode false); [apply Ha'|by rewrite Hi].
- by eapply rread_ok.
- by eapply rwrite_ok.
- apply post_nothing; [done|by rewrite Hi].
- by eapply rremove_ok.
- by eapply rstat_ok.
- apply post_nothing; [done|by rewrite Hi].
Qed.

Lemma may_answer_T : is_T (rq_ifcall q) = true.
Proof. pose proof Ha as [_ H]. by destruct (rq_ifcall q). Qed.
End Posts.

Section RespondRun.
Context {R : Type}.

(** The loops of [respond] and [closereq] over the flushes. *)
Definition respond_list (resp : Z -> cmd srvst R unit) : list Z -> cmd srvst R unit :=
  fix loop (l : list Z) : cmd srvst R unit :=
    match l with
    | [] => cret tt
    | f :: l' => resp f;; loop l'
    end.

(** What [respond] does after the second half of the handler. *)
Definition respond_end (n : nat) (r : Z) : cmd srvst R unit :=
  ro <- rget r;;
  ms <- cgets msize;;
  match reply (rq_ifcall ro) (rq_ofcall ro) (rq_error ro) with
  | None => cabort
  | Some g =>
      if decide (ms < msg_size g) then cabort
      else
        (if rq_pool ro then x <- removereq (rq_tag ro);; closereq n x else cret tt);;
        cmodify (fun s => set_out (out s ++ [(rq_tag ro, g)]) s);;
        rset r (set_rq_responded true);;
        ro <- rget r;;
        respond_list (fun f => respond n f None) (rq_flush ro);;
        rset r (set_rq_flush []);;
        if rq_pool ro then closereq n r
        else cmodify (fun s => set_reqs (delete r (reqs s)) s)
  end.

Lemma respond_run n r q error s : reqs s !! r = Some q -> rq_responded q = false ->
  let s1 := set_reqs (<[r := set_rq_error error q]> (reqs s)) s in
  respond (R := R) (S n) r error s =
    (delayed <-
       (match rq_ifcall q with
        | MTflush _ => rflush (closereq n) r error
        | i => if is_T i then second_half r i error;; cret false else cabort
        end);;
     if delayed : bool then cret tt else respond_end n r) s1.
Proof.
intros Hr Hu. cbn [respond]. rewrite (cbind_go _ _ _ _ _ (rget_go r s q Hr)), Hu.
rewrite (cbind_go _ _ _ _ _ (rset_go r _ s q Hr)). by destruct (rq_ifcall q).
Qed.
End RespondRun.

(** ** The effect of a response *)

Definition good (s : srvst) (rx : Z -> Z) (P : gset Z) : Prop :=
  fok (sf s) (rheld (reqs s)) /\ (exists t, rinv s rx t P) /\ MINMSIZE <= msize s < 2 ^ 32.

Definition unanswered (s : srvst) : Z := cnt (fun q => rq_responded q = false) (reqs s).

(** What others may rely on in a request. *)
Definition core (q : Req) := (rq_tag q, rq_ifcall q, rq_ofcall q, rq_d q, (rq_fid q, rq_afid q, rq_newfid q), rq_pool q, rq_responded q).

(** The requests that somebody is to respond to, but for those of [l], and those that
    are held after their answer, stay. *)
Definition frame (P : gset Z) (rx : Z -> Z) (l : list Z) (s s' : srvst) : Prop :=
  calls s' = calls s /\ trees (fs (sf s')) = trees (fs (sf s)) /\
  forall y y0, reqs s !! y = Some y0 -> (y ∉ l) -> (y ∈ P) \/ rq_responded y0 = true /\ 0 < rx y ->
    exists y1, reqs s' !! y = Some y1 /\ core y1 = core y0 /\ (rq_responded y0 = true -> rq_flush y1 = rq_flush y0).

Definition effect (P : gset Z) (rx : Z -> Z) (l : list Z) (s s' : srvst) : Prop :=
  frame P rx l s s' /\ (forall tau, due s' tau = due s tau) /\ unanswered s' <= unanswered s.

Lemma effect_refl P rx l s : effect P rx l s s.
Proof. unfold effect, frame. split_and!; try done. intros y y0 Hy _ _. by exists y0. Qed.

Lemma effect_trans P P1 P2 rx rx1 rx2 l1 l2 m s s' s'' : effect P1 rx1 l1 s s' -> effect P2 rx2 l2 s' s'' ->
  (forall y, y ∉ m -> y ∈ P -> (y ∉ l1) /\ (y ∈ P1) /\ (y ∉ l2) /\ (y ∈ P2)) ->
  (forall y y0, y ∉ m -> reqs s !! y = Some y0 -> rq_responded y0 = true -> 0 < rx y ->
    (y ∉ l1) /\ 0 < rx1 y /\ (y ∉ l2) /\ 0 < rx2 y) ->
  effect P rx m s s''.
Proof.
intros ((E1 & E2 & F) & D & U) ((E1' & E2' & F') & D' & U') HP Hx.
unfold effect, frame. split_and!; [congruence|congruence| |intros tau; by rewrite D', D|lia].
intros y y0 Hy Hm Hc.
assert ((y ∉ l1) /\ ((y ∈ P1) \/ rq_responded y0 = true /\ 0 < rx1 y) /\ (y ∉ l2) /\ ((y ∈ P2) \/ rq_responded y0 = true /\ 0 < rx2 y))
  as (Hl & Hc1 & Hl' & Hc').
{ destruct Hc as [Hc|[Hu Hc]]; [destruct (HP y Hm Hc) as (? & ? & ? & ?); tauto|].
  destruct (Hx y y0 Hm Hy Hu Hc) as (? & ? & ? & ?). tauto. }
destruct (F y y0 Hy Hl Hc1) as (y1 & Hy1 & C1 & G1).
assert (rq_responded y1 = rq_responded y0) as Eu by (unfold core in C1; congruence).
destruct (F' y y1 Hy1 Hl') as (y2 & Hy2 & C2 & G2); [rewrite Eu; tauto|].
exists y2. split_and!; [done|congruence|]. intros Hu. rewrite G2, G1; congruence.
Qed.

(** A step that changes no request but [r]. *)
Lemma effect_at P rx r s s' q : reqs s !! r = Some q -> (forall y, y <> r -> reqs s' !! y = reqs s !! y) ->
  calls s' = calls s -> trees (fs (sf s')) = trees (fs (sf s)) ->
  (forall tau, due s' tau = due s tau) -> unanswered s' <= unanswered s -> effect P rx [r] s s'.
Proof.
intros Hr Hne Ec Et D U. unfold effect, frame. split_and!; try done. intros y y0 Hy Hl _. exists y0. rewrite Hne; [done|]. intros ->.
apply Hl. by left.
Qed.

Lemma due_set s r q q' : reqs s !! r = Some q -> rq_tag q' = rq_tag q -> rq_responded q' = rq_responded q ->
  forall s', reqs s' = <[r := q']> (reqs s) -> out s' = out s ->
  (forall tau, due s' tau = due s tau) /\ unanswered s' = unanswered s.
Proof.
intros Hr E1 E2 s' Er Eo. split.
- intros tau. unfold due, answered, waiting. rewrite Eo, Er. rewrite (cnt_keep _ _ r q); [done|done|]. by rewrite E1, E2.
- unfold unanswered. rewrite Er. apply (cnt_keep _ _ r q); [done|]. by rewrite E2.
Qed.

Lemma due_delete s r q s' : reqs s !! r = Some q -> rq_responded q = true -> reqs s' = delete r (reqs s) -> out s' = out s ->
  (forall tau, due s' tau = due s tau) /\ unanswered s' = unanswered s.
Proof.
intros Hr Hu Er Eo. split.
- intros tau. unfold due, answered, waiting. rewrite Eo, Er, (cnt_delete _ _ r q) by done. rewrite b2z_false by (intros [? _]; congruence). lia.
- unfold unanswered. rewrite Er, (cnt_delete _ _ r q) by done. rewrite b2z_false by congruence. lia.
Qed.

(** The reply to [r]. *)
Lemma due_reply s r q s' m g : reqs s !! r = Some q -> rq_responded q = false -> reqs s' = m ->
  (m = delete r (reqs s) \/ exists q', m = <[r := q']> (reqs s) /\ rq_responded q' = true) ->
  out s' = out s ++ [(rq_tag q, g)] -> (forall tau, due s' tau = due s tau) /\ unanswered s' = unanswered s - 1.
Proof.
intros Hr Hu Er Hm Eo.
assert (forall (A : Req -> Prop) `{forall v, Decision (A v)}, (forall v, A v -> rq_responded v = false) -> cnt A (reqs s') = cnt A (reqs s) - b2z (A q)) as Hc.
{ intros A HA Hsub. rewrite Er. destruct Hm as [->|(q' & -> & Hq')]; [by apply cnt_delete|].
  rewrite (cnt_update _ _ r q) by done. rewrite (b2z_false (A q')); [lia|]. intros ?%Hsub. congruence. }
split.
- intros tau. unfold due, answered, waiting. rewrite Eo, Hc by (by intros v [? _]). rewrite list.filter_app, length_app.
  unfold b2z. cbn. destruct (decide (rq_tag q = tau)) as [E|E].
  + rewrite decide_True by done. cbn. lia.
  + rewrite decide_False by (by intros [_ ?]). cbn. lia.
- unfold unanswered. rewrite Hc by done. by rewrite b2z_true.
Qed.

Lemma good_ext s rx rx' P : good s rx P -> (forall y, rx' y = rx y) -> good s rx' P.
Proof. intros (F & (t & I) & M) E. split; [done|]. split; [|done]. exists t. by eapply rinv_ext. Qed.

Lemma fok_rheld f m m' : fok f (rheld m) -> (forall x, rheld m' x = rheld m x) -> fok f (rheld m').
Proof. intros H E. by eapply fok_ext. Qed.

Lemma fok_0 f fh : fok f fh -> fh 0 = 0.
Proof.
intros (gx & g & K & I). apply (xi_none _ _ _ _ _ I). destruct (fids f !! 0) as [fo|] eqn:E; [|done].
pose proof (xi_fids _ _ _ _ _ I 0 fo E). lia.
Qed.

(** The pool, the rest of the state that [closereq] does not touch. *)
Lemma release_rheld s r q n x : reqs s !! r = Some q ->
  rheld (if decide (rq_ref q = 1) then delete r (reqs s) else <[r := set_rq_ref n q]> (reqs s)) x =
  (if decide (rq_ref q = 1) then fun x => rheld (reqs s) x - hold q x else rheld (reqs s)) x.
Proof.
intros Hr. case_decide; [by apply rheld_del|]. by apply (rheld_same _ _ q).
Qed.

Lemma release_due s s' r q n : reqs s !! r = Some q -> rq_responded q = true ->
  reqs s' = (if decide (rq_ref q = 1) then delete r (reqs s) else <[r := set_rq_ref n q]> (reqs s)) -> out s' = out s ->
  (forall tau, due s' tau = due s tau) /\ unanswered s' = unanswered s.
Proof.
intros Hr Hu Er Eo. case_decide; [by apply (due_delete s r q)|].
by apply (due_set s r q (set_rq_ref n q)).
Qed.

Section RespondSpec.
Context {R : Type}.

Lemma release_spec n s rx P r q : good s rx P -> reqs s !! r = Some q -> rq_pool q = true -> rq_responded q = true ->
  0 < rx r -> rq_flush q = [] ->
  exists s', closereq (R := R) (S n) r s = (Go tt, s') /\ good s' (upd rx r (-1)) P /\ effect P rx [r] s s' /\ out s' = out s.
Proof.
intros (F & (t & I) & M) Hr Hp Hu Hx Hfl. pose proof (si_reqs _ _ _ _ I r q Hr). pose proof (si_pos _ _ _ _ I r q Hr) as Hpos.
assert (rq_oldreq q = 0) as Hz.
{ destruct (decide (rq_oldreq q = 0)) as [|Hz]; [done|]. destruct (si_old _ _ _ _ I r q Hr Hz) as [? _]. congruence. }
destruct (closereq_run (R := R) n s (rheld (reqs s)) r q F Hr) as (f' & d' & E & F' & T'); try done; [lia|by apply (si_stat _ _ _ _ I r)|intros _ x; by apply (rheld_hold _ r)|].
eexists. split; [exact E|]. split; [split; [|split; [exists t|done]]|split; [|done]].
- eapply fok_ext; [exact F'|]. intros x. by apply release_rheld.
- apply (rinv_release s _ rx t P r q); try done. by left.
- destruct (release_due s (set_dreqs d' (set_reqs (if decide (rq_ref q = 1) then delete r (reqs s)
    else <[r:=set_rq_ref (rq_ref q - 1) q]> (reqs s)) (set_sf f' s))) r q (rq_ref q - 1) Hr Hu eq_refl eq_refl) as [D U].
  apply (effect_at P rx r s _ q); try done; [|by apply Z.eq_le_incl]. intros y Hy. cbn [reqs set_dreqs set_reqs]. destruct (decide (rq_ref q = 1)); [by rewrite lookup_delete_ne|by rewrite lookup_insert_ne].
Qed.

(** The requests that are to be answered and those that flush them. *)
Lemma respond_list_spec n l : forall s rx P,
  (forall s rx P r q, good s rx P -> reqs s !! r = Some q -> r ∈ P -> may_answer (sf s) (msize s) q None ->
     unanswered s < Z.of_nat n -> exists s', respond (R := R) n r None s = (Go tt, s') /\ good s' rx (P ∖ {[r]}) /\ effect P rx [r] s s') ->
  good s rx P -> NoDup l -> (forall f, f ∈ l -> (f ∈ P) /\ exists fo, reqs s !! f = Some fo /\ is_flush (rq_ifcall fo)) ->
  unanswered s < Z.of_nat n ->
  exists s', respond_list (fun f => respond (R := R) n f None) l s = (Go tt, s') /\ good s' rx (P ∖ list_to_set l) /\ effect P rx l s s'.
Proof.
induction l as [|f l IHl]; intros s rx P IH G Hnd Hl Hu.
{ exists s. cbn. rewrite difference_empty_L. split_and!; try done. apply effect_refl. }
apply list.NoDup_cons in Hnd as [Hfl Hnd]. destruct (Hl f) as (HfP & fo & Hfo & t & Hi); [by left|].
destruct (IH s rx P f fo G Hfo HfP) as (s1 & E1 & G1 & X1); [by unfold may_answer; rewrite Hi|done|].
pose proof X1 as ((_ & _ & F1) & _ & U1).
destruct (IHl s1 rx (P ∖ {[f]}) IH G1 Hnd) as (s2 & E2 & G2 & X2); [|lia|].
{ intros g Hg. destruct (Hl g) as (HgP & go & Hgo & Hi'); [by right|]. assert (g <> f) by (by intros ->).
  split; [apply elem_of_difference; by rewrite elem_of_singleton|].
  destruct (F1 g go Hgo) as (go1 & Hgo1 & C & _); [by rewrite list_elem_of_singleton|by left|].
  exists go1. split; [done|]. unfold core in C. by assert (rq_ifcall go1 = rq_ifcall go) as -> by congruence. }
exists s2. split; [cbn; by rewrite (cbind_go _ _ _ _ _ E1)|]. split.
- cbn. by rewrite <- difference_difference_l_L.
- eapply effect_trans; [exact X1|exact X2|..].
  + intros y [Hy1 Hy2]%not_elem_of_cons Hy. rewrite list_elem_of_singleton, elem_of_difference, elem_of_singleton. tauto.
  + intros y y0 [Hy1 Hy2]%not_elem_of_cons _ _ Hx. by rewrite list_elem_of_singleton.
Qed.

Lemma removereq_spec s rx t P r q : rinv s rx t P -> t !! rq_tag q = Some r ->
  exists m, removereq (R := R) (rq_tag q) s = (Go r, set_rpool m s) /\ imap_rep m (delete (rq_tag q) t) /\ inc m = increqref.
Proof.
intros I Ht. destruct (deletekey_spec (rpool s) t (rq_tag q) (si_map _ _ _ _ I)) as (m & E & Hm & Hi).
exists m. unfold removereq. rewrite E, Ht. rewrite Hi. split; [done|]. split; [done|apply I].
Qed.

Definition resp_hyp (n : nat) : Prop := forall s rx P r q,
  good s rx P -> reqs s !! r = Some q -> r ∈ P -> may_answer (sf s) (msize s) q None -> unanswered s < Z.of_nat n ->
  exists s', respond (R := R) n r None s = (Go tt, s') /\ good s' rx (P ∖ {[r]}) /\ effect P rx [r] s s'.

(** The reply to a request in the pool: the flushes that waited become due. *)
Lemma reply_pooled n s rx P r q g : good s rx P -> reqs s !! r = Some q -> r ∈ P -> rq_pool q = true -> rq_oldreq q = 0 ->
  exists s' q', (forall k : cmd srvst R unit, ((x <- removereq (R := R) (rq_tag q);; closereq (S n) x);;
      cmodify (fun s => set_out (out s ++ [(rq_tag q, g)]) s);; rset r (set_rq_responded true);; k) s = k s') /\
    good s' (upd rx r 1) (P ∖ {[r]} ∪ list_to_set (rq_flush q)) /\ effect P rx [r] s s' /\ unanswered s' < unanswered s /\
    reqs s' !! r = Some q' /\ rq_flush q' = rq_flush q /\ rq_pool q' = true /\ rq_responded q' = true /\
    (forall y, y <> r -> reqs s' !! y = reqs s !! y) /\ out s' = out s ++ [(rq_tag q, g)].
Proof.
intros (F & (t & I) & M) Hr HP Hp Hz. destruct (si_P _ _ _ _ I r HP) as (q0 & Hq0 & Hu). rewrite Hr in Hq0. injection Hq0 as <-.
pose proof (si_reqs _ _ _ _ I r q Hr) as Hrng. pose proof (si_pos _ _ _ _ I r q Hr) as Hpos.
pose proof (si_unres _ _ _ _ I r q Hr Hp Hu) as Ht. pose proof (si_ref _ _ _ _ I r q Hr Hp) as Href.
rewrite !b2z_true in Href by done. pose proof (olds_nonneg (reqs s) r). pose proof (si_rx _ _ _ _ I r).
destruct (removereq_spec s rx t P r q I Ht) as (m & E1 & Hm & Hi).
assert (rq_ref q <> 1) as H1 by lia.
destruct (closereq_run (R := R) n (set_rpool m s) (rheld (reqs s)) r q F Hr) as (f' & d' & E2 & F' & T'); try done; [lia|by apply (si_stat _ _ _ _ I r)|].
rewrite decide_False in E2 by done. rewrite decide_False in F' by done. cbn [reqs set_rpool] in E2.
set (q1 := set_rq_ref (rq_ref q - 1) q) in *. set (s1 := set_dreqs d' _) in E2.
set (s2 := set_out (out s1 ++ [(rq_tag q, g)]) s1).
assert (Hr2 : reqs s2 !! r = Some q1) by (cbn; by rewrite lookup_insert_eq).
set (q2 := set_rq_responded true q1). set (s3 := set_reqs (<[r := q2]> (reqs s2)) s2).
assert (E3 : reqs s3 = <[r := q2]> (reqs s)) by (cbn; by rewrite insert_insert_eq).
assert (Hne : forall y, y <> r -> reqs s3 !! y = reqs s !! y) by (intros y Hy; by rewrite E3, lookup_insert_ne).
destruct (due_reply s r q s3 _ g Hr Hu E3) as [D U]; [right; by exists q2|done|].
exists s3, q2. split.
{ intros k. rewrite (cbind_go _ _ _ _ _ (eq_trans (cbind_go _ _ _ _ _ E1) E2)). unfold cbind at 1, cmodify at 1.
  by rewrite (cbind_go _ _ _ _ _ (rset_go r _ s2 q1 Hr2)). }
split; [split; [|split; [exists (delete (rq_tag q) t)|done]]|].
- eapply fok_ext; [exact F'|]. intros x. rewrite E3. by apply (rheld_same _ _ q).
- by apply (rinv_finish s s3 rx t P r q q2 I Hr Hp HP).
- split; [by apply (effect_at P rx r s s3 q); try done; lia|]. split; [lia|]. exact (conj (eq_trans (f_equal (lookup r) E3) (lookup_insert_eq _ _ _)) (conj eq_refl (conj Hp (conj eq_refl (conj Hne eq_refl))))).
Qed.

(** The rest of [respond] once the reply is written. *)
Lemma answer_flushes n s rx P r q L : resp_hyp (S n) -> good s (upd rx r 1) (P ∪ list_to_set L) -> reqs s !! r = Some q ->
  rq_flush q = L -> rq_pool q = true -> rq_responded q = true -> (r ∉ P) -> NoDup L ->
  (forall f, f ∈ L -> (f ∉ P) /\ f <> r /\ exists fo, reqs s !! f = Some fo /\ is_flush (rq_ifcall fo) /\ rq_responded fo = false) ->
  unanswered s < Z.of_nat (S n) -> 0 <= rx r ->
  exists s', (respond_list (fun f => respond (R := R) (S n) f None) L;; rset r (set_rq_flush []);; closereq (S n) r) s = (Go tt, s') /\
    good s' rx P /\ effect P rx [r] s s' /\ (L = [] -> out s' = out s).
Proof.
intros IH G Hr HL Hp Hu HrP Hnd Hfl Hun Hx.
destruct (respond_list_spec (S n) L s _ _ IH G Hnd) as (s1 & E1 & G1 & X1); [|done|].
{ intros f Hf. destruct (Hfl f Hf) as (_ & _ & fo & Hfo & Hi & _). split; [apply elem_of_union; right; by apply elem_of_list_to_set|eauto]. }
pose proof X1 as ((_ & _ & F1) & _ & U1). assert (r ∉ L) as HrL by (intros Hin; by destruct (Hfl r Hin) as (_ & ? & _)).
destruct (F1 r q Hr HrL) as (q1 & Hq1 & C & Hf1); [right; split; [done|rewrite upd_eq; lia]|].
assert (rq_pool q1 = true /\ rq_responded q1 = true) as [Hp1 Hu1] by (unfold core in C; split; congruence).
assert ((P ∪ list_to_set L) ∖ list_to_set L = P) as EP.
{ apply leibniz_equiv. intros y. rewrite elem_of_difference, elem_of_union, elem_of_list_to_set. split; [tauto|].
  intros Hy. split; [tauto|]. intros Hin. by destruct (Hfl y Hin). }
rewrite EP in G1. destruct G1 as (Fk & (t & I) & M).
set (q2 := set_rq_flush [] q1). set (s2 := set_reqs (<[r := q2]> (reqs s1)) s1).
assert (G2 : good s2 (upd rx r 1) P).
{ split; [|split; [exists t|done]]; [|by apply rinv_clear]. eapply fok_ext; [exact Fk|]. intros x. by apply (rheld_same _ _ q1). }
destruct (due_set s1 r q1 q2 Hq1 eq_refl eq_refl s2 eq_refl eq_refl) as [D2 U2].
destruct (release_spec n s2 (upd rx r 1) P r q2 G2) as (s3 & E3 & G3 & X3 & O3); try done; [cbn; by rewrite lookup_insert_eq|rewrite upd_eq; lia|].
exists s3. split; [|split; [|split]].
- rewrite (cbind_go _ _ _ _ _ E1), (cbind_go _ _ _ _ _ (rset_go r _ s1 q1 Hq1)). exact E3.
- eapply good_ext; [exact G3|]. intros y. unfold upd. repeat case_decide; lia.
- assert (X2 : effect P (upd rx r 1) [r] s1 s2).
  { apply (effect_at P _ r s1 s2 q1); try done; [|lia]. intros y Hy. cbn. by rewrite lookup_insert_ne. }
  assert (X12 : effect (P ∪ list_to_set L) (upd rx r 1) (r :: L) s s2).
  { eapply effect_trans; [exact X1|exact X2|..].
    - intros y [Hy1 Hy2]%not_elem_of_cons Hy. rewrite list_elem_of_singleton. split_and!; try done.
      apply elem_of_union in Hy as [?|Hy%elem_of_list_to_set]; done.
    - intros y y0 [Hy1 Hy2]%not_elem_of_cons _ _ Hy. by rewrite list_elem_of_singleton. }
  eapply effect_trans; [exact X12|exact X3|..].
  + intros y Hy HyP. split_and!; try done; [|by apply elem_of_union_l]. rewrite list_elem_of_singleton in Hy.
    intros [?|Hin]%elem_of_cons; [done|]. by destruct (Hfl y Hin).
  + intros y y0 Hy Hy0 Hyu Hyx. rewrite list_elem_of_singleton in *. rewrite upd_ne by done. split_and!; try done.
    intros [?|Hin]%elem_of_cons; [done|]. destruct (Hfl y Hin) as (_ & _ & fo & Hfo & _ & ?). congruence.
- intros ->. cbn in E1. injection E1 as <-. by rewrite O3.
Qed.

Lemma respond_end_spec n s rx P r q g : resp_hyp (S n) -> good s rx P -> reqs s !! r = Some q -> r ∈ P -> rq_oldreq q = 0 ->
  reply (rq_ifcall q) (rq_ofcall q) (rq_error q) = Some g -> msg_size g <= msize s -> unanswered s <= Z.of_nat (S n) ->
  exists s', respond_end (R := R) (S n) r s = (Go tt, s') /\ good s' rx (P ∖ {[r]}) /\ effect P rx [r] s s' /\
    (rq_flush q = [] -> out s' = out s ++ [(rq_tag q, g)]).
Proof.
intros IH G Hr HP Hz Hg Hsz Hun. pose proof G as (F & (t & I) & M).
destruct (si_P _ _ _ _ I r HP) as (q0 & Hq0 & Hu). rewrite Hr in Hq0. injection Hq0 as <-.
unfold respond_end. rewrite (cbind_go _ _ _ _ _ (rget_go r s q Hr)). unfold cbind at 1, cgets at 1. rewrite Hg.
rewrite decide_False by lia. destruct (rq_pool q) eqn:Hp.
- destruct (reply_pooled n s rx P r q g G Hr HP Hp Hz) as (s1 & q1 & E1 & G1 & X1 & U1 & Hq1 & Hf1 & Hp1 & Hu1 & Hne & O1).
  destruct (answer_flushes n s1 rx (P ∖ {[r]}) r q1 (rq_flush q) IH G1 Hq1 Hf1 Hp1 Hu1) as (s2 & E2 & G2 & X2 & O2).
  + intros [_ Hin]%elem_of_difference. by apply Hin, elem_of_singleton.
  + by apply (si_nodup _ _ _ _ I r q).
  + intros f Hf. destruct (si_flush _ _ _ _ I r q f Hr Hu Hf) as (fo & Hfo & G1' & G2' & G3 & G4).
    assert (f <> r) by (intros ->; congruence). split; [by intros [? _]%elem_of_difference|]. split; [done|].
    exists fo. by rewrite Hne.
  + lia.
  + apply (si_rx _ _ _ _ I).
  + exists s2. split; [|split; [done|split; [|intros Hfl; by rewrite O2]]].
    * etransitivity; [exact (E1 _)|]. rewrite (cbind_go _ _ _ _ _ (rget_go r s1 q1 Hq1)), Hf1, Hp1. exact E2.
    * eapply effect_trans; [exact X1|exact X2|..].
      -- intros y Hy HyP. split_and!; try done. apply elem_of_difference. rewrite elem_of_singleton. by rewrite list_elem_of_singleton in Hy.
      -- intros y y0 Hy _ _ Hx. by split_and!.
- destruct (si_fake _ _ _ _ I r q Hr Hp) as (F1 & F2 & F3 & Hx & _ & Hnf & Hfl).
  rewrite (cbind_go _ _ s tt s) by done. unfold cbind at 1, cmodify at 1. set (s1 := set_out _ s).
  rewrite (cbind_go _ _ _ _ _ (rset_go r _ s1 q Hr)). set (q2 := set_rq_responded true q). set (s2 := set_reqs _ s1).
  assert (Hr2 : reqs s2 !! r = Some q2) by (cbn; by rewrite lookup_insert_eq).
  rewrite (cbind_go _ _ _ _ _ (rget_go r s2 q2 Hr2)). change (rq_flush q2) with (rq_flush q). change (rq_pool q2) with (rq_pool q).
  rewrite Hfl, Hp. rewrite (cbind_go _ _ s2 tt s2) by done. rewrite (cbind_go _ _ _ _ _ (rset_go r _ s2 q2 Hr2)).
  unfold cmodify. set (s3 := set_reqs _ (set_reqs _ s2)).
  assert (Er : reqs s3 = delete r (reqs s)) by (cbn; by rewrite insert_insert_eq, delete_insert_eq).
  destruct (due_reply s r q s3 _ g Hr Hu Er) as [D U]; [by left|done|].
  exists s3. split; [done|]. split; [split; [|split; [exists t|done]]|split; [|done]].
  + eapply fok_ext; [exact F|]. intros x. rewrite Er, (rheld_del _ _ q) by done. unfold hold, hold3. rewrite F1, F2, F3.
    case_decide; [lia|]. rewrite !b2z_false by congruence. lia.
  + apply (rinv_delete s s3 rx rx t P r q); try done.
    congruence.
  + apply (effect_at P rx r s s3 q); try done; [|lia]. intros y Hy. by rewrite Er, lookup_delete_ne.
Qed.

(** A flush [r] stops to wait for the answered request [o] and gives up its reference. *)
Lemma rinv_clrold_release s rx t P r q o oo : rinv s rx t P -> reqs s !! r = Some q -> rq_oldreq q = o -> o <> 0 -> r ∈ P ->
  reqs s !! o = Some oo -> rq_responded oo = true ->
  (rq_ref oo = 1 -> rq_flush oo = []) /\
  forall s', reqs s' = (if decide (rq_ref oo = 1) then delete o (<[r := set_rq_oldreq 0 q]> (reqs s))
      else <[o := set_rq_ref (rq_ref oo - 1) oo]> (<[r := set_rq_oldreq 0 q]> (reqs s))) ->
    rpool s' = rpool s -> rbrk s' = rbrk s -> rinv s' rx t P.
Proof.
intros I Hr Ho Hz HP Hoo Huo. destruct (si_old _ _ _ _ I r q Hr) as (Hu & _ & Hlt & oo' & Hoo' & Hpo); [congruence|].
rewrite Ho, Hoo in Hoo'. injection Hoo' as <-. rewrite Ho in Hlt.
pose proof (rinv_clrold s rx t P r q o I Hr Ho Hz HP) as I1. set (s1 := set_reqs _ s) in I1.
assert (Hoo1 : reqs s1 !! o = Some oo) by (cbn; by rewrite lookup_insert_ne by lia).
pose proof (si_rx _ _ _ _ I o). assert (rq_flush oo = [] \/ 1 < upd rx o 1 o) as Hst.
{ rewrite upd_eq. destruct (si_stale _ _ _ _ I o oo Hoo Huo); [by left|right; lia]. }
split.
- intros H1. destruct Hst as [?|Hx]; [done|]. pose proof (si_ref _ _ _ _ I1 o oo Hoo1 Hpo) as Href.
  pose proof (b2z_range (t !! rq_tag oo = Some o)). pose proof (b2z_range (rq_responded oo = false)).
  pose proof (olds_nonneg (reqs s1) o). lia.
- intros s' Er Ep Eb. eapply rinv_ext; [apply (rinv_release s1 s' (upd rx o 1) t P o oo I1 Hoo1 Hpo Huo)|done..|]; try done.
  + rewrite upd_eq. lia.
  + intros y. unfold upd. repeat case_decide; lia.
Qed.

(** [rflush]: [true] when the request that is flushed is not answered yet. *)
Lemma rflush_spec n s rx P r q : good s rx P -> reqs s !! r = Some q -> r ∈ P -> is_flush (rq_ifcall q) ->
  exists (b : bool) s', rflush (closereq (R := R) (S n)) r None s = (Go b, s') /\ effect P rx [r] s s' /\ msize s' = msize s /\
    if b then good s' rx (P ∖ {[r]})
    else good s' rx P /\ reqs s' !! r = Some (set_rq_oldreq 0 q).
Proof.
intros G Hr HP Hi. pose proof G as (F & (t & I) & M). unfold rflush. rewrite (cbind_go _ _ _ _ _ (rget_go r s q Hr)).
destruct (decide (rq_oldreq q <> 0)) as [Hz|Hz].
2:{ assert (rq_oldreq q = 0) as Hz0 by lia. assert (set_rq_oldreq 0 q = q) as Eq by (rewrite <- Hz0; by destruct q).
  exists false, s. rewrite (cbind_go _ _ _ _ _ (rset_go r _ s q Hr)), Eq. rewrite insert_id by done. split; [by destruct s|].
  split; [apply effect_refl|]. done. }
destruct (si_old _ _ _ _ I r q Hr Hz) as (Hu & _ & Hlt & oo & Hoo & Hpo). set (o := rq_oldreq q) in *.
rewrite (cbind_go _ _ _ _ _ (rget_go o s oo Hoo)). pose proof (si_reqs _ _ _ _ I o oo Hoo).
destruct (rq_responded oo) eqn:Huo.
- destruct (rinv_clrold_release s rx t P r q o oo I Hr eq_refl Hz HP Hoo Huo) as (Hfl & Hrel).
  assert (rq_oldreq oo = 0) as Hzo.
  { destruct (decide (rq_oldreq oo = 0)) as [|Hzz]; [done|]. destruct (si_old _ _ _ _ I o oo Hoo Hzz) as [? _]. congruence. }
  destruct (closereq_run (R := R) n s (rheld (reqs s)) o oo F Hoo) as (f' & d' & E & F' & T'); try done; [by apply (si_pos _ _ _ _ I o)|by apply (si_stat _ _ _ _ I o)|intros _ x; by apply (rheld_hold _ o)|].
  rewrite (cbind_go _ _ _ _ _ E). set (s1 := set_dreqs _ _). set (q' := set_rq_oldreq 0 q).
  assert (Hne : forall y, y <> o -> reqs s1 !! y = reqs s !! y).
  { intros y Hy. cbn [s1 reqs set_dreqs set_reqs]. destruct (decide (rq_ref oo = 1)); [by rewrite lookup_delete_ne|by rewrite lookup_insert_ne]. }
  assert (Hr1 : reqs s1 !! r = Some q) by (rewrite Hne; [done|lia]).
  rewrite (cbind_go _ _ _ _ _ (rset_go r _ s1 q Hr1)). set (s2 := set_reqs _ s1).
  destruct (release_due s s1 o oo (rq_ref oo - 1) Hoo Huo eq_refl eq_refl) as [D1 U1].
  destruct (due_set s1 r q q' Hr1 eq_refl eq_refl s2 eq_refl eq_refl) as [D2 U2].
  exists false, s2. split; [done|]. split; [|split; [done|split; [split; [|split; [exists t|done]]|cbn; by rewrite lookup_insert_eq]]].
  + unfold effect, frame. split_and!; try done; [|intros tau; by rewrite D2, D1|lia]. intros y y0 Hy Hyr Hc.
    rewrite list_elem_of_singleton in Hyr. cbn. rewrite lookup_insert_ne by done. 
    destruct (decide (y = o)) as [->|Hyo]; [|exists y0; by rewrite Hne].
    rewrite Hoo in Hy. injection Hy as <-. destruct Hc as [HoP|[_ Hxo]].
    { destruct (si_P _ _ _ _ I o HoP) as (? & ? & ?). congruence. }
    rewrite decide_False.
    * rewrite lookup_insert_eq. by eexists.
    * pose proof (si_ref _ _ _ _ I o oo Hoo Hpo) as Href. pose proof (b2z_range (t !! rq_tag oo = Some o)).
      rewrite (b2z_false (rq_responded oo = false)) in Href by congruence.
      pose proof (cnt_pos (fun q => rq_oldreq q = o) (reqs s) r q Hr eq_refl). unfold olds in Href. lia.
  + eapply fok_ext; [exact F'|]. intros x. rewrite <- (release_rheld s o oo (rq_ref oo - 1) x Hoo). by apply (rheld_same _ _ q).
  + apply Hrel; [|done|done]. cbn. destruct (decide (rq_ref oo = 1)).
    * by rewrite delete_insert_ne by lia.
    * by rewrite insert_insert_ne by lia.
- rewrite (cbind_go _ _ _ _ _ (rset_go o _ s oo Hoo)). set (s1 := set_reqs _ s).
  destruct (due_set s o oo (set_rq_flush (rq_flush oo ++ [r]) oo) Hoo eq_refl eq_refl s1 eq_refl eq_refl) as [D U].
  exists true, s1. split; [done|]. split; [|split; [done|split; [|split; [exists t|done]]]].
  + unfold effect, frame. split_and!; try done; [|lia]. intros y y0 Hy _ _. cbn. destruct (decide (y = o)) as [->|Hne].
    * rewrite lookup_insert_eq. rewrite Hoo in Hy. injection Hy as <-. eexists. split; [done|]. split; [done|]. congruence.
    * exists y0. by rewrite lookup_insert_ne.
  + eapply fok_ext; [exact F|]. intros x. by apply (rheld_same _ _ oo).
  + by apply (rinv_delay s rx t P r q o oo).
Qed.

(** Any change of the request [r] itself. *)
Lemma good_upd s s' rx P r q q' : good s rx P -> reqs s !! r = Some q -> same_req q q' -> rq_ref q' = rq_ref q ->
  fok (sf s') (rheld (reqs s')) -> reqs s' = <[r := q']> (reqs s) -> rpool s' = rpool s -> rbrk s' = rbrk s ->
  MINMSIZE <= msize s' < 2 ^ 32 -> good s' rx P.
Proof.
intros (_ & (t & I) & _) Hr Hq Href F Er Ep Eb M. split; [done|]. split; [exists t|done].
eapply rinv_ext; [apply (rinv_upd s rx t P r q q' I Hr Hq Href)|done..].
Qed.

Lemma is_flush_dec g : is_flush g \/ ~ is_flush g.
Proof. unfold is_flush. destruct g; try (right; intros [? ?]; discriminate). left. eauto. Qed.

Theorem respond_spec n s rx P r q error : good s rx P -> reqs s !! r = Some q -> r ∈ P ->
  may_answer (sf s) (msize s) q error -> unanswered s < Z.of_nat n ->
  exists s', respond (R := R) n r error s = (Go tt, s') /\ good s' rx (P ∖ {[r]}) /\ effect P rx [r] s s'.
Proof.
revert s rx P r q error. induction n as [|n IH]; intros s rx P r q error G Hr HP Ha Hun.
{ pose proof (cnt_nonneg (fun q => rq_responded q = false) (reqs s)). unfold unanswered in Hun. lia. }
pose proof G as (F & (t & I) & M). destruct (si_P _ _ _ _ I r HP) as (q0 & Hq0 & Hu). rewrite Hr in Hq0. injection Hq0 as <-.
assert (0 < unanswered s) as Hun0 by (by apply (cnt_pos (fun q => rq_responded q = false) _ r q)).
destruct n as [|n]; [lia|]. rewrite (respond_run _ r q error s Hr Hu). cbv zeta.
set (q1 := set_rq_error error q). set (s1 := set_reqs (<[r := q1]> (reqs s)) s).
assert (Hr1 : reqs s1 !! r = Some q1) by (cbn; by rewrite lookup_insert_eq).
assert (same_req q q1) as Hq1 by (split_and!; try done; intros Hp; by destruct (si_fake _ _ _ _ I r q Hr Hp) as (? & ? & ? & _)).
destruct (due_set s r q q1 Hr eq_refl eq_refl s1 eq_refl eq_refl) as [D1 U1].
assert (F1 : fok (sf s1) (rheld (reqs s1))) by (eapply fok_rheld; [exact F|intros x; by apply (rheld_same _ _ q)]).
assert (G1 : good s1 rx P) by (by apply (good_upd s s1 rx P r q q1 G Hr Hq1)).
assert (X1 : effect P rx [r] s s1) by (apply (effect_at P rx r s s1 q); try done; [intros y Hy; cbn; by rewrite lookup_insert_ne|by apply Z.eq_le_incl]).
assert (Hcomp : forall s2 s3 P', effect P rx [r] s1 s2 -> effect P' rx [r] s2 s3 -> P' = P \/ P' = P ∖ {[r]} -> effect P rx [r] s s3).
{ intros s2 s3 P' X X' HP'. assert (forall y, y ∉ [r] -> y ∈ P -> y ∈ P') as Hin.
  { intros y Hy HyP. rewrite list_elem_of_singleton in Hy. destruct HP' as [->| ->]; [done|]. apply elem_of_difference. by rewrite elem_of_singleton. }
  eapply effect_trans; [exact X1|eapply effect_trans; [exact X|exact X'|..]|..]; try (intros; split_and!; eauto). }
destruct (is_flush_dec (rq_ifcall q)) as [Hfl|Hnf].
- destruct Hfl as [ot Hi]. pose proof Ha as [_ He]. rewrite Hi in He. subst error.
  destruct (rflush_spec n s1 rx P r q1 G1 Hr1 HP) as (b & s2 & E2 & X2 & M2 & H2); [by exists ot|].
  rewrite Hi, (cbind_go _ _ _ _ _ E2). destruct b; [exists s2; split_and!; try done; eapply (Hcomp s2 s2 P); [done|apply effect_refl|by left]|].
  destruct H2 as [G2 Hr2]. pose proof X2 as (_ & _ & U2).
  destruct (respond_end_spec n s2 rx P r _ MRflush ltac:(intros ? ? ? ? ? ? ? ? ? ?; by eapply IH) G2 Hr2 HP) as (s3 & E3 & G3 & X3 & _).
  + done.
  + cbn. by rewrite Hi.
  + rewrite M2. change (msize s1) with (msize s). change (msg_size MRflush) with 7. unfold MINMSIZE in M. lia.
  + lia.
  + exists s3. split_and!; try done. eapply (Hcomp s2 s3 P); [done|done|by left].
- assert (forall x, hold q1 x <= rheld (reqs s1) x) as Hh by (intros x; by apply (rheld_hold _ r)).
  destruct (second_half_ok (R := R) s1 r q1 _ Hr1 F1 Hh M Ha Hnf) as (f & o & e & m & E2 & F2 & T2 & M2 & He2 & Ho2).
  set (s2 := post s1 r q1 f o e m) in *. set (q2 := set_rq_ofcall o (set_rq_error e q1)).
  assert (reqs s2 !! r = Some q2) as Hr2 by (cbn; by rewrite lookup_insert_eq).
  assert (Hq2 : same_req q1 q2) by (split_and!; try done; intros Hp; by destruct (si_fake _ _ _ _ I r q Hr Hp) as (? & ? & ? & _)).
  assert (G2 : good s2 rx P).
  { apply (good_upd s1 s2 rx P r q1 q2 G1 Hr1 Hq2); try done. eapply fok_rheld; [exact F2|intros x; by apply (rheld_same _ _ q1)]. }
  destruct (due_set s1 r q1 q2 Hr1 eq_refl eq_refl s2 eq_refl eq_refl) as [D2 U2].
  assert (X2 : effect P rx [r] s1 s2) by (apply (effect_at P rx r s1 s2 q1); try done; [intros y Hy; cbn [reqs s2 post set_msize set_reqs]; by rewrite lookup_insert_ne|by apply Z.eq_le_incl]).
  pose proof (may_answer_T s q1 Ha) as Ht.
  destruct (reply_fits (rq_ifcall q) o e m Ht ltac:(lia) He2 Ho2) as (g & Hg & Hsz).
  destruct (respond_end_spec n s2 rx P r q2 g ltac:(intros ? ? ? ? ? ? ? ? ? ?; by eapply IH) G2 Hr2 HP) as (s3 & E3 & G3 & X3 & _).
  + destruct (decide (rq_oldreq q = 0)); [done|]. by destruct (si_old _ _ _ _ I r q Hr) as (_ & ? & _).
  + done.
  + done.
  + lia.
  + exists s3. split; [|split; [done|eapply (Hcomp s2 s3 P); [done|done|by left]]]. change (rq_ifcall q1) with (rq_ifcall q) in *.
    assert (forall c : cmd srvst R bool, match rq_ifcall q with MTflush _ => c | i => if is_T i then second_half r i error;; cret false else cabort end =
      (second_half r (rq_ifcall q) error;; cret false)) as ->.
    { intros c. destruct (rq_ifcall q); try done. destruct Hnf. by eexists. }
    rewrite (cbind_go _ _ s1 false s2); [exact E3|]. by rewrite (cbind_go _ _ _ _ _ E2).
Qed.
End RespondSpec.
