(* ===== verification/ServeSpec.v ===== *)
(** The handlers: every message that the service loop reads is answered, or its
    request is given to the server. *)

From stdpp Require Import strings.
From S2P Require Import Prelude Mem Links Counts Fcall9P Fcall9PSpec Dir9P Dir9PSpec Intmap IntmapSpec Files FilesSpec FilesOps FilesThms Srv FidSpec ReqSpec RespondSpec.

(** No call is in progress. *)
Abbreviation idle := (fun _ : Z => 0).

(** A request that the server has, as it must be when it is responded to. *)
Definition call_ok (q : Req) : Prop :=
  match rq_ifcall q with
  | MTwalk _ _ _ => rq_fid q <> 0 /\ rq_newfid q <> 0
  | MTopen _ _ | MTcreate _ _ _ _ | MTread _ _ _ | MTwrite _ _ _ | MTremove _ => rq_fid q <> 0
  | i => is_T i = true /\ match i with MTversion _ _ => False | _ => True end
  end.

(** The request [r] is answered, or it is now the server's. *)
Definition handled (P : gset Z) (r : Z) (s s' : srvst) : Prop :=
  good s' idle P /\ effect ({[r]} ∪ P) idle [r] s s' \/
  good s' idle ({[r]} ∪ P) /\ exists c s1 q, s' = set_calls (calls s1 ++ [(c, r)]) s1 /\
    effect ({[r]} ∪ P) idle [r] s s1 /\ reqs s' !! r = Some q /\ call_ok q.

Definition runs {R} (c : cmd srvst R unit) (P : gset Z) (r : Z) (s : srvst) : Prop :=
  exists s', c s = (Go tt, s') /\ handled P r s s'.

Lemma effect_seq P r s s1 s2 : effect P idle [r] s s1 -> effect P idle [r] s1 s2 -> effect P idle [r] s s2.
Proof. intros X1 X2. eapply effect_trans; [exact X1|exact X2|..]; intros; by split_and!. Qed.

Lemma runs_step {R} (c c' : cmd srvst R unit) P r s s1 : c s = c' s1 -> effect ({[r]} ∪ P) idle [r] s s1 -> runs c' P r s1 -> runs c P r s.
Proof.
intros E X (s' & E' & H). exists s'. split; [congruence|].
destruct H as [[G X']|(G & k & s2 & q & Es & X' & Hq & Hc)]; [left|right].
- split; [done|]. by eapply effect_seq.
- split; [done|]. exists k, s2, q. split_and!; try done. by eapply effect_seq.
Qed.

Lemma unanswered_le s : unanswered s <= Z.of_nat (size (reqs s)).
Proof. unfold unanswered, cnt. apply inj_le, map_subseteq_size, map_filter_subseteq. Qed.

Lemma add_remove (P : gset Z) r : r ∉ P -> ({[r]} ∪ P) ∖ {[r]} = P.
Proof.
intros Hr. apply leibniz_equiv. intros y. rewrite elem_of_difference, elem_of_union, elem_of_singleton.
split; [tauto|]. intros Hy. split; [tauto|]. by intros ->.
Qed.

Section Serve.
Context {R : Type}.
Abbreviation scmd := (cmd srvst R).

(** [q] is the request [r] that is being served. *)
Definition serving (s : srvst) (P : gset Z) (r : Z) (q : Req) : Prop :=
  good s idle ({[r]} ∪ P) /\ reqs s !! r = Some q /\ (r ∉ P) /\ rq_pool q = true /\ Z.of_nat (size (reqs s)) <= 2 ^ 28.

Lemma runs_respond s P r q e : serving s P r q -> may_answer (sf s) (msize s) q e -> runs (respond_ (R := R) r e) P r s.
Proof.
intros (G & Hr & HP & _) Ha. unfold respond_, runs. unfold cbind, rfuel, cgets.
destruct (respond_spec (R := R) (2 * size (reqs s) + 4) s idle _ r q e G Hr) as (s' & E & G' & X); [set_solver|done| |].
{ pose proof (unanswered_le s). lia. }
exists s'. split; [exact E|]. left. by rewrite add_remove in G'.
Qed.

Lemma runs_upcall s P r q c : serving s P r q -> call_ok q -> runs (upcall (R := R) c r) P r s.
Proof.
intros (G & Hr & HP & _) Hc. eexists. split; [reflexivity|]. right. split.
- destruct G as (F & (t & I) & M). split; [done|]. split; [exists t; by eapply rinv_ext|done].
- exists c, s, q. split; [done|]. split; [apply effect_refl|done].
Qed.

(** The request alone is changed. *)
Lemma serving_upd s P r q q' : serving s P r q -> rq_tag q' = rq_tag q -> rq_pool q' = rq_pool q ->
  rq_responded q' = rq_responded q -> rq_oldreq q' = rq_oldreq q -> rq_flush q' = rq_flush q -> rq_ref q' = rq_ref q -> rq_statfree q' = rq_statfree q ->
  (is_flush (rq_ifcall q') <-> is_flush (rq_ifcall q)) ->
  fok (sf s) (rheld (<[r := q']> (reqs s))) ->
  let s' := set_reqs (<[r := q']> (reqs s)) s in
  serving s' P r q' /\ effect ({[r]} ∪ P) idle [r] s s'.
Proof.
intros (G & Hr & HP & Hp & Hsz) E1 E2 E3 E4 E5 E6 E0 E7 F s'.
destruct (due_set s r q q' Hr E1 E3 s' eq_refl eq_refl) as [D U]. split; [split_and!|].
- apply (good_upd s s' idle _ r q q'); try done; [|apply G]. split_and!; try done. congruence.
- cbn. by rewrite lookup_insert_eq.
- done.
- congruence.
- cbn. by rewrite map_size_insert_Some by done.
- apply (effect_at _ idle r s s' q); try done; [|by apply Z.eq_le_incl]. intros y Hy. cbn. by rewrite lookup_insert_ne.
Qed.

(** A member that has no reference is set. *)
Lemma rset_step (k : scmd unit) s P r q g : serving s P r q -> rq_tag (g q) = rq_tag q -> rq_pool (g q) = rq_pool q ->
  rq_responded (g q) = rq_responded q -> rq_oldreq (g q) = rq_oldreq q -> rq_flush (g q) = rq_flush q -> rq_ref (g q) = rq_ref q -> rq_statfree (g q) = rq_statfree q ->
  (is_flush (rq_ifcall (g q)) <-> is_flush (rq_ifcall q)) ->
  rq_fid (g q) = rq_fid q -> rq_afid (g q) = rq_afid q -> rq_newfid (g q) = rq_newfid q ->
  (forall s', serving s' P r (g q) -> sf s' = sf s -> msize s' = msize s -> reqs s' = <[r := g q]> (reqs s) -> runs k P r s') ->
  runs (rset (R := R) r g;; k) P r s.
Proof.
intros S E1 E2 E3 E4 E5 E6 E0 E7 E8 E9 E10 Hk. pose proof S as ((F & _) & Hr & _).
destruct (serving_upd s P r q (g q) S) as [S' X]; try done; [eapply fok_rheld; [exact F|intros x; by apply (rheld_same _ _ q)]|].
eapply runs_step; [exact (cbind_go _ _ _ _ _ (rset_go r g s q Hr))|exact X|]. by apply Hk.
Qed.

(** The fids alone are changed. *)
Lemma serving_sf s P r q f : serving s P r q -> fok f (rheld (reqs s)) -> trees (fs f) = trees (fs (sf s)) ->
  serving (set_sf f s) P r q /\ effect ({[r]} ∪ P) idle [r] s (set_sf f s).
Proof.
intros (G & Hr & HP & Hp & Hsz) F Ht. destruct G as (_ & (t & I) & M). split; [split_and!; try done|].
- split; [done|]. split; [exists t; by apply rinv_sf|done].
- by apply (effect_at _ idle r s _ q).
Qed.

(** ** Fids of the request *)

(** [fid] is the number of the fid [x]. *)
Definition denotes (f : fidst) (fid x : Z) (fo : Fid) : Prop :=
  (lookupkey (fpool f) fid (Some (fids f))).1 = Some x /\ fids f !! x = Some fo.

Lemma cnt_le_size {V} (A : V -> Prop) `{forall v, Decision (A v)} (m : gmap Z V) : cnt A m <= Z.of_nat (size m).
Proof. unfold cnt. apply inj_le, map_subseteq_size, map_filter_subseteq. Qed.

Lemma rheld_le m x : rheld m x <= 3 * Z.of_nat (size m).
Proof.
unfold rheld. pose proof (cnt_le_size (fun q => rq_fid q = x) m). pose proof (cnt_le_size (fun q => rq_afid q = x) m).
pose proof (cnt_le_size (fun q => rq_newfid q = x) m). case_decide; lia.
Qed.

(** Requests are few, so the counts of the fids do not wrap. *)
Lemma fid_ref_small s P r q gx g K x fo : serving s P r q -> fidinv (sf s) (rheld (reqs s)) gx g K -> fids (sf s) !! x = Some fo ->
  fd_ref fo < 2 ^ 31 - 3.
Proof.
intros (_ & _ & _ & _ & Hsz) I Hfo. rewrite (xi_ref _ _ _ _ _ I x fo Hfo). pose proof (rheld_le (reqs s) x).
pose proof (b2z_range (g !! fd_fid fo = Some x)). lia.
Qed.

(** How a member that was [nil] is set. *)
Definition sets_fid (h : Z -> Req -> Req) (q : Req) : Prop := h 0 q = q /\
  forall x, same_req q (h x q) /\ rq_ref (h x q) = rq_ref q /\
    forall y, hold (h x q) y = hold q y + (if decide (y = 0) then 0 else b2z (x = y)).

(** [r->fid = lookupfid(...)], and the like for the other fids of a request: [h] sets
    the member, which was [nil]. *)
Lemma lookup_run (h : Z -> Req -> Req) {A} (k : Z -> scmd A) s P r q fid x fo : serving s P r q -> sets_fid h q -> denotes (sf s) fid x fo ->
  exists s', (x <- onfid (R := R) (lookupfid fid);; rset r (h x);; k x) s = k x s' /\ effect ({[r]} ∪ P) idle [r] s s' /\
    serving s' P r (h x q) /\ x <> 0 /\ fids (sf s') = <[x := set_fid_ref (fd_ref fo + 1) fo]> (fids (sf s)) /\ fs (sf s') = fs (sf s) /\
    fpool (sf s') = fpool (sf s) /\ msize s' = msize s /\ reqs s' = <[r := h x q]> (reqs s) /\ out s' = out s.
Proof.
intros S [_ Hh] [Hd Hdo]. pose proof S as (G & Hr & HP & Hp & Hsz). pose proof G as ((gx & g & K & I) & Gr).
assert (Eg : g !! fid = Some x) by (rewrite (lookupkey_spec _ g) in Hd by apply I; by destruct (g !! fid)).
destruct (lookupfid_some (R := R) (sf s) _ gx g K fid x I Eg) as (f' & fo' & E & I' & Hx & Hfo & Hid & Efs & Eh).
{ intros fo1 Hfo1. pose proof (fid_ref_small s P r q gx g K x fo1 S I Hfo1). lia. }
rewrite Hdo in Hfo. injection Hfo as <-.
destruct (Hh x) as ((E1 & E2 & E3 & E4 & E5 & E6 & _) & E7 & Ehold).
assert (Hpool : fpool f' = fpool (sf s)).
{ unfold lookupfid in E. rewrite (lookupkey_spec _ g) in E by apply I. rewrite Eg in E.
  destruct (inc (fpool (sf s)) x (Some (fids (sf s)))); [|discriminate]. by injection E as <-. }
set (s1 := set_sf f' s). set (s2 := set_reqs (<[r := h x q]> (reqs s1)) s1).
destruct (due_set s r q (h x q) Hr E1 E3 s2 eq_refl eq_refl) as [D U].
exists s2. split; [|split; [|split; [|done]]].
- rewrite (cbind_go _ _ _ _ _ (onfid_go _ _ _ _ E)), (cbind_go _ _ _ _ _ (rset_go r _ s1 q Hr)). reflexivity.
- apply (effect_at _ idle r s s2 q); try done; [|cbn; by rewrite Eh|by apply Z.eq_le_incl]. intros y Hy. cbn. by rewrite lookup_insert_ne.
- split_and!; try done; [|cbn; by rewrite lookup_insert_eq|congruence|cbn; by rewrite map_size_insert_Some by done].
  apply (good_upd s s2 idle _ r q (h x q)); try done; [apply Hh| |apply Gr].
  exists gx, g, K. eapply fidinv_ext; [exact I'| |done]. intros y. cbn. rewrite (rheld_upd _ _ q) by done. rewrite Ehold.
  unfold upd, b2z. repeat case_decide; subst; try lia.
Qed.

Lemma lookup_step (h : Z -> Req -> Req) (k : Z -> scmd unit) s P r q fid : serving s P r q -> sets_fid h q ->
  ((forall x fo, ~ denotes (sf s) fid x fo) -> runs (k 0) P r s) ->
  (forall x fo s', serving s' P r (h x q) -> x <> 0 -> denotes (sf s) fid x fo ->
     fids (sf s') = <[x := set_fid_ref (fd_ref fo + 1) fo]> (fids (sf s)) -> fs (sf s') = fs (sf s) ->
     fpool (sf s') = fpool (sf s) -> msize s' = msize s -> reqs s' = <[r := h x q]> (reqs s) -> runs (k x) P r s') ->
  runs (x <- onfid (R := R) (lookupfid fid);; rset r (h x);; k x) P r s.
Proof.
intros S Hset Hnone Hsome. pose proof S as (((gx & g & K & I) & _) & Hr & _).
assert (forall x, (lookupkey (fpool (sf s)) fid (Some (fids (sf s)))).1 = Some x <-> g !! fid = Some x) as Hd.
{ intros x. rewrite (lookupkey_spec _ g) by apply I. by destruct (g !! fid). }
destruct (g !! fid) as [x|] eqn:Eg.
- destruct (xi_pool _ _ _ _ _ I fid x Eg) as (fo & Hfo & _). assert (denotes (sf s) fid x fo) as Hden by (split; [by apply Hd|done]).
  destruct (lookup_run h k s P r q fid x fo S Hset Hden) as (s' & E & X & S' & Hx & H1 & H2 & H3 & H4 & H5 & _).
  eapply runs_step; [exact E|exact X|]. by apply (Hsome x fo s').
- destruct Hset as [H0 _]. assert (E : onfid (lookupfid (R := R) fid) s = (Go 0, s)).
  { rewrite (onfid_go _ s 0 (sf s)); [by destruct s|]. by apply (lookupfid_none _ (rheld (reqs s)) gx g K). }
  assert (E' : (x <- onfid (R := R) (lookupfid fid);; rset r (h x);; k x) s = k 0 s).
  { rewrite (cbind_go _ _ _ _ _ E), (cbind_go _ _ _ _ _ (rset_go r _ s q Hr)), H0. rewrite insert_id by done. by destruct s. }
  destruct Hnone as (s' & E2 & H); [by intros x fo [?%Hd _]|]. exists s'. split; [congruence|done].
Qed.

(** The member is set to a new fid, or to one that left the pool. *)
Lemma fid_step (h : Z -> Req -> Req) (k : Z -> scmd unit) s P r q x f' gx g K : serving s P r q ->
  same_req q (h x q) -> rq_ref (h x q) = rq_ref q ->
  (forall y, hold (h x q) y = hold q y + (if decide (y = 0) then 0 else b2z (x = y))) -> x <> 0 ->
  fidinv f' (upd (rheld (reqs s)) x 1) gx g K -> trees (fs f') = trees (fs (sf s)) ->
  exists s', (rset (R := R) r (h x);; k x) (set_sf f' s) = k x s' /\ serving s' P r (h x q) /\ sf s' = f' /\ msize s' = msize s /\
    effect ({[r]} ∪ P) idle [r] s s' /\ reqs s' = <[r := h x q]> (reqs s) /\ out s' = out s.
Proof.
intros S (E1 & E2 & E3 & E4 & E5 & E6 & E6') E7 Ehold Hx I' Ht. pose proof S as (G & Hr & HP & Hp & Hsz). pose proof G as (F & Gr).
set (s1 := set_sf f' s). set (s2 := set_reqs (<[r := h x q]> (reqs s1)) s1).
destruct (due_set s r q (h x q) Hr E1 E3 s2 eq_refl eq_refl) as [D U].
exists s2. split; [exact (cbind_go _ _ _ _ _ (rset_go r _ s1 q Hr))|]. split; [|split; [done|split; [done|split; [|done]]]].
- split_and!; try done; [|cbn; by rewrite lookup_insert_eq|congruence|cbn; by rewrite map_size_insert_Some by done].
  apply (good_upd s s2 idle _ r q (h x q)); try done; [|apply Gr].
  exists gx, g, K. eapply fidinv_ext; [exact I'| |done]. intros y. cbn. rewrite (rheld_upd _ _ q) by done. rewrite Ehold.
  unfold upd, b2z. repeat case_decide; subst; try lia.
- apply (effect_at _ idle r s s2 q); try done; [|by apply Z.eq_le_incl]. intros y Hy. cbn. by rewrite lookup_insert_ne.
Qed.

(** Setting the member to [nil], which it was. *)
Lemma nil_step (h : Z -> Req -> Req) (k : Z -> scmd unit) s P r q f' : serving s P r q -> h 0 q = q ->
  fok f' (rheld (reqs s)) -> trees (fs f') = trees (fs (sf s)) ->
  exists s', (rset (R := R) r (h 0);; k 0) (set_sf f' s) = k 0 s' /\ serving s' P r q /\ effect ({[r]} ∪ P) idle [r] s s' /\ sf s' = f'.
Proof.
intros S H0 F Ht. pose proof S as (G & Hr & _). destruct (serving_sf s P r q f' S F Ht) as [S' X]. exists (set_sf f' s).
split; [|done]. rewrite (cbind_go _ _ _ _ _ (rset_go r _ (set_sf f' s) q Hr)), H0. cbn. rewrite insert_id by done. by destruct s.
Qed.

Lemma alloc_step (h : Z -> Req -> Req) (k : Z -> scmd unit) s P r q fid : serving s P r q -> sets_fid h q ->
  (forall s', serving s' P r q -> runs (k 0) P r s') ->
  (forall x s', serving s' P r (h x q) -> x <> 0 -> fids (sf s) !! x = None -> fids (sf s') = <[x := new_fid fid 2]> (fids (sf s)) ->
     fs (sf s') = fs (sf s) -> droppable (sf s') x -> msize s' = msize s -> reqs s' = <[r := h x q]> (reqs s) -> runs (k x) P r s') ->
  runs (x <- onfid (R := R) (allocfid fid);; rset r (h x);; k x) P r s.
Proof.
intros S [H0 Hh] Hnone Hsome. pose proof S as (((gx & g & K & I) & Gr) & _).
destruct (allocfid_spec (R := R) (sf s) _ gx g K fid I) as [(Hg & x & f' & E & Hx & Hnew & I' & Efs & Eh)|(Hg & f' & K' & E & I' & Efs & Et)].
- destruct (Hh x) as (H1 & H2 & H3). destruct (fid_step h k s P r q x f' gx _ K S H1 H2 H3 Hx I') as (s' & E' & S' & Esf & Em & X & Er & _); [by rewrite Eh|].
  eapply runs_step; [exact (eq_trans (cbind_go _ _ _ _ _ (onfid_go _ _ _ _ E)) E')|exact X|].
  apply (Hsome x); try done; rewrite ?Esf; try done. exists (new_fid fid 2). rewrite Efs, lookup_insert_eq. split; [done|].
  rewrite (lookupkey_spec _ (<[fid := x]> g)) by apply I'. cbn. by rewrite lookup_insert_eq.
- destruct (nil_step h k s P r q f' S H0) as (s' & E' & S' & X & _); [by exists gx, g, K'|done|].
  eapply runs_step; [exact (eq_trans (cbind_go _ _ _ _ _ (onfid_go _ _ _ _ E)) E')|exact X|]. by apply Hnone.
Qed.

Lemma remove_step (h : Z -> Req -> Req) (k : Z -> scmd unit) s P r q fid : serving s P r q -> sets_fid h q ->
  (forall s', serving s' P r q -> runs (k 0) P r s') ->
  (forall x fo s', serving s' P r (h x q) -> x <> 0 -> denotes (sf s) fid x fo -> fids (sf s') = fids (sf s) ->
     fs (sf s') = fs (sf s) -> msize s' = msize s -> runs (k x) P r s') ->
  runs (x <- onfid (R := R) (removefid fid);; rset r (h x);; k x) P r s.
Proof.
intros S [H0 Hh] Hnone Hsome. pose proof S as (((gx & g & K & I) & Gr) & _). destruct (g !! fid) as [x|] eqn:Eg.
- destruct (removefid_some (R := R) _ _ _ _ _ _ _ I Eg) as (f' & fo & E & I' & Hx & Hfo & _ & Efs & Eh).
  destruct (Hh x) as (H1 & H2 & H3). destruct (fid_step h k s P r q x f' gx _ K S H1 H2 H3 Hx I') as (s' & E' & S' & Esf & Em & X & Er & _); [by rewrite Eh|].
  eapply runs_step; [exact (eq_trans (cbind_go _ _ _ _ _ (onfid_go _ _ _ _ E)) E')|exact X|].
  apply (Hsome x fo); try done; rewrite ?Esf; try done. split; [|done]. rewrite (lookupkey_spec _ g) by apply I. by rewrite Eg.
- destruct (removefid_none (R := R) _ _ _ _ _ _ I Eg) as (f' & E & I' & Efs & Eh).
  destruct (nil_step h k s P r q f' S H0) as (s' & E' & S' & X & _); [by exists gx, g, K|by rewrite Eh|].
  eapply runs_step; [exact (eq_trans (cbind_go _ _ _ _ _ (onfid_go _ _ _ _ E)) E')|exact X|]. by apply Hnone.
Qed.

Lemma set_fid_sets q : rq_fid q = 0 -> rq_pool q = true -> sets_fid set_rq_fid q.
Proof.
intros Hf Hp. split; [rewrite <- Hf; by destruct q|]. intros x. split; [split_and!; try done; congruence|]. split; [done|].
intros y. unfold hold, hold3. cbn. rewrite Hf. case_decide; [lia|]. rewrite (b2z_false (0 = y)) by congruence. lia.
Qed.

Lemma set_afid_sets q : rq_afid q = 0 -> rq_pool q = true -> sets_fid set_rq_afid q.
Proof.
intros Hf Hp. split; [rewrite <- Hf; by destruct q|]. intros x. split; [split_and!; try done; congruence|]. split; [done|].
intros y. unfold hold, hold3. cbn. rewrite Hf. case_decide; [lia|]. rewrite (b2z_false (0 = y)) by congruence. lia.
Qed.

Lemma set_newfid_sets q : rq_newfid q = 0 -> rq_pool q = true -> sets_fid set_rq_newfid q.
Proof.
intros Hf Hp. split; [rewrite <- Hf; by destruct q|]. intros x. split; [split_and!; try done; congruence|]. split; [done|].
intros y. unfold hold, hold3. cbn. rewrite Hf. case_decide; [lia|]. rewrite (b2z_false (0 = y)) by congruence. lia.
Qed.

(** ** Steps of the handlers *)

(** A request when its handler starts. *)
Definition req0 (tag : Z) (g : msg) : Req := MkReq tag g empty_ofcall empty_dir None 0 0 0 0 2 true false None [] false.

(** An error may be answered. *)
Definition may_error (f : fidst) (q : Req) : Prop :=
  match rq_ifcall q with
  | MTauth _ _ _ => rq_afid q <> 0 -> droppable f (rq_afid q)
  | MTattach _ _ _ _ => rq_fid q <> 0 -> droppable f (rq_fid q)
  | MTwalk fid newfid _ => o_nwqid (rq_ofcall q) <= MAXWELEM /\ (fid <> newfid -> rq_newfid q <> 0 -> droppable f (rq_newfid q))
  | MTversion _ _ | MTflush _ => False
  | i => is_T i = true
  end.

Lemma may_error_answer f ms q e : may_error f q -> zlen e <= ERRMAX -> may_answer f ms q (Some e).
Proof.
intros H He. split; [by intros e' [= <-]|]. unfold may_error in H. destruct (rq_ifcall q); try done; try (by intros _).
destruct H as [H1 H2]. split; [done|]. split; [by intros _|done].
Qed.

Lemma runs_error s P r q e : serving s P r q -> may_error (sf s) q -> zlen e <= ERRMAX -> runs (respond_ (R := R) r (Some e)) P r s.
Proof. intros S H He. apply (runs_respond s P r q); [done|]. by apply may_error_answer. Qed.

(** A command that only reads. *)
Lemma runs_go {A} (c : scmd A) (k : A -> scmd unit) P r s a : c s = (Go a, s) -> runs (k a) P r s -> runs (cbind c k) P r s.
Proof. intros E (s' & E' & H). exists s'. split; [by rewrite (cbind_go _ _ _ _ _ E)|done]. Qed.

Lemma runs_ext (c c' : scmd unit) P r s : c s = c' s -> runs c' P r s -> runs c P r s.
Proof. intros E (s' & E' & H). exists s'. by rewrite E. Qed.

Lemma runs_cbind {A} (c c' : scmd A) (k : A -> scmd unit) P r s : c s = c' s -> runs (cbind c' k) P r s -> runs (cbind c k) P r s.
Proof. intros E (s' & E' & H). exists s'. split; [|done]. rewrite <- E'. unfold cbind. by rewrite E. Qed.

Lemma cbind_ret_assoc {A B C} (c : scmd A) (f : A -> scmd unit) (v : A -> B) (k : B -> scmd C) s :
  (y <- (a <- c;; f a;; cret (v a));; k y) s = (a <- c;; f a;; k (v a)) s.
Proof. unfold cbind. destruct (c s) as [[a| | |] s1]; try done. by destruct (f a s1) as [[[]| | |] s2]. Qed.

Lemma runs_assoc {A B} (c : scmd A) (f : A -> scmd B) (k : B -> scmd unit) P r s :
  runs (cbind c (fun a => cbind (f a) k)) P r s -> runs (cbind (cbind c f) k) P r s.
Proof. intros (s' & E & H). exists s'. by rewrite cbind_assoc. Qed.

Lemma cseq_assoc {A B C} (c : scmd A) (f : scmd B) (g : scmd C) s : ((c;; f);; g) s = (c;; f;; g) s.
Proof. apply (cbind_assoc c (fun _ => f) (fun _ => g)). Qed.

Lemma onfile_fget s p fo : files (fs (sf s)) !! p = Some fo -> f_free fo = false -> onfile (fget (R := R) p) s = (Go fo, s).
Proof.
intros Hp Hlv. unfold onfile. rewrite (onfid_go _ s fo (sf s)); [by destruct s|].
rewrite (onfs_go _ _ _ _ (fget_go _ _ _ Hp ltac:(alive))). by destruct (sf s).
Qed.

(** A file in use, as the invariant of the fids has it. *)
Lemma live_free f fh gx g K p fo : fidinv f fh gx g K -> files (fs f) !! p = Some fo -> 0 < f_ref fo -> f_free fo = false.
Proof. intros I Hp Hr. apply (fi_live _ _ _ (proj1 (xi_wf _ _ _ _ _ I)) p fo Hp). lia. Qed.

(** [oset] changes nothing but the reply. *)
Lemma oset_step (k : scmd unit) s P r q g : serving s P r q ->
  (forall s', serving s' P r (set_rq_ofcall (g (rq_ofcall q)) q) -> sf s' = sf s -> msize s' = msize s -> runs k P r s') ->
  runs (oset (R := R) r g;; k) P r s.
Proof. intros S Hk. apply (rset_step k s P r q _ S); try done. intros s' S' Ef Em _. by apply Hk. Qed.

(** [lookupfid] for the handlers that work on the fid of the request. *)
Lemma with_fid (k : Z -> scmd unit) s P r tag g fid :
  serving s P r (req0 tag g) -> may_error (sf s) (req0 tag g) ->
  k 0 = respond_ r (Some Eunknownfid) ->
  (forall x fo0 fo s', serving s' P r (set_rq_fid x (req0 tag g)) -> x <> 0 -> denotes (sf s) fid x fo0 ->
     fo = set_fid_ref (fd_ref fo0 + 1) fo0 -> fids (sf s') !! x = Some fo -> fs (sf s') = fs (sf s) -> msize s' = msize s ->
     runs (k x) P r s') ->
  runs (x <- onfid (R := R) (lookupfid fid);; rset r (set_rq_fid x);; k x) P r s.
Proof.
intros S He H0 Hk. apply (lookup_step set_rq_fid _ s P r _ fid S).
- by apply set_fid_sets.
- intros _. rewrite H0. apply (runs_error _ P r _ _ S); [done|by vm_compute].
- intros x fo0 s' S' Hx Hd Efs Eh _ Em _. eapply (Hk x fo0 _ s'); try done. by rewrite Efs, lookup_insert_eq.
Qed.

(** A fid that the request holds is changed. *)
Lemma xset_step (k : scmd unit) s P r q x fo g : serving s P r q -> fids (sf s) !! x = Some fo ->
  fd_fid (g fo) = fd_fid fo -> fd_file (g fo) = fd_file fo -> fd_rdir (g fo) = fd_rdir fo -> fd_ref (g fo) = fd_ref fo ->
  (fd_file fo <> 0 -> fd_uid (g fo) <> None) ->
  (forall s', serving s' P r q -> sf s' = set_fids (<[x := g fo]> (fids (sf s))) (sf s) -> msize s' = msize s -> runs k P r s') ->
  runs (onfid (xset (R := R) x g);; k) P r s.
Proof.
intros S Hfo E1 E2 E3 E4 E5 Hk. pose proof S as (((gx & gm & K & I) & _) & _).
set (f := set_fids (<[x := g fo]> (fids (sf s))) (sf s)).
destruct (serving_sf s P r q f S) as [S' X]; [exists gx, gm, K; by apply (fidinv_set _ _ gx gm K x fo)|done|].
eapply runs_step; [exact (cbind_go _ _ _ _ _ (onfid_go _ _ _ _ (xset_go x g _ fo Hfo)))|exact X|]. by apply Hk.
Qed.

Lemma droppable_set f x y fo fo' : droppable f x -> fids f !! y = Some fo -> fd_fid fo' = fd_fid fo ->
  droppable (set_fids (<[y := fo']> (fids f)) f) x.
Proof.
intros (xo & Hxo & Hlk) Hy Hid.
assert (forall id m, (lookupkey (fpool f) id m).1 = (lookupkey (fpool f) id (Some (fids f))).1) as Hind.
{ intros id m. unfold lookupkey. by destruct (llookup (fpool f) id).2 as [|[? ?] ?]. }
destruct (decide (x = y)) as [->|Hne].
- exists fo'. cbn. rewrite lookup_insert_eq. split; [done|]. rewrite Hind, Hid. rewrite Hxo in Hy. by injection Hy as <-.
- exists xo. cbn. rewrite lookup_insert_ne by done. split; [done|]. by rewrite Hind.
Qed.

Lemma droppable_ext f f' x : fids f' = fids f -> fpool f' = fpool f -> droppable f x -> droppable f' x.
Proof. intros E1 E2 (xo & H1 & H2). exists xo. rewrite E1, E2. by split. Qed.

Lemma uid_at s P r q x fo : serving s P r q -> fids (sf s) !! x = Some fo -> fd_file fo <> 0 -> fd_uid fo <> None.
Proof. intros (((gx & g & K & I) & _) & _) Hfo. by apply (xi_uid _ _ _ _ _ I x). Qed.

(** Few references to files. *)
Definition few_refs (f : fidst) : Prop := forall y yo, files (fs f) !! y = Some yo -> f_ref yo < 2 ^ 31 - 2.
End Serve.

(** The request is answered with an error of the library. *)
Ltac answers S := apply (runs_error _ _ _ _ _ S); [try done; try (by intros []); try (by intros _) | by vm_compute].
