(* ===== verification/HandlerSpec.v ===== *)
(** The handlers of srv.c but for [swalk]: every message that they are called with is
    answered, or its request is given to the server. *)

From stdpp Require Import strings.
From S2P Require Import Prelude Mem Links Counts Fcall9P Fcall9PSpec Dir9P Dir9PSpec Intmap IntmapSpec Files FilesSpec FilesOps FilesThms Srv FidSpec ReqSpec RespondSpec ServeSpec.

Section Handlers.
Context {R : Type}.
Abbreviation scmd := (cmd srvst R).
Variable srv : Srv.
Variables (argv0 : bytes) (nullstring : Z).

Lemma snprint_len e : zlen (snprint e) <= ERRMAX.
Proof. unfold snprint, zlen. rewrite length_take. unfold ERRMAX. lia. Qed.

Lemma sversion_ok s P r tag ms v : serving s P r (req0 tag (MTversion ms v)) -> take 2 v = [57; 80] -> MINMSIZE <= ms < 2 ^ 32 ->
  runs (sversion (R := R) r ms v) P r s.
Proof.
intros S Hv Hm. unfold sversion. rewrite decide_False by (by intros []).
apply (rset_step _ s P r _ _ S); try done. intros s' S' _ _ _. by apply (runs_respond _ P r _ _ S').
Qed.

Lemma sauth_ok s P r tag afid u n : serving s P r (req0 tag (MTauth afid u n)) -> runs (sauth srv argv0 (R := R) r afid) P r s.
Proof.
intros S. unfold sauth. apply (alloc_step set_rq_afid _ s P r _ afid S).
- by apply set_afid_sets.
- intros s' S'. rewrite decide_True by done. answers S'.
- intros x s' S' Hx _ _ _ Hd _ _. rewrite decide_False by done. destruct (srv_auth srv).
  + by apply (runs_upcall _ P r _ _ S').
  + apply (runs_error _ P r _ _ S'); [by intros _|apply snprint_len].
Qed.

Lemma sclunk_ok s P r tag fid : serving s P r (req0 tag (MTclunk fid)) -> runs (sclunk (R := R) r fid) P r s.
Proof.
intros S. unfold sclunk. apply (remove_step set_rq_fid _ s P r _ fid S).
- by apply set_fid_sets.
- intros s' S'. rewrite decide_True by done. answers S'.
- intros x fo s' S' Hx _ _ _ _. rewrite decide_False by done. by apply (runs_respond _ P r _ _ S').
Qed.

(** *** Permissions *)

Lemma file_hasperm_run s p fo u m : files (fs (sf s)) !! p = Some fo -> f_free fo = false -> file_hasperm (R := R) p (Some u) m s = (Go (hasperm (f_dir fo) u m), s).
Proof. intros Hp Hlv. unfold file_hasperm. by rewrite (cbind_go _ _ _ _ _ (onfile_fget s p fo Hp Hlv)). Qed.

(** The file of a fid, and its owner, as the handlers find them. *)
Lemma fid_file_facts s fh x fo : fok (sf s) fh -> fids (sf s) !! x = Some fo -> fd_file fo <> 0 ->
  exists p u, files (fs (sf s)) !! fd_file fo = Some p /\ fd_uid fo = Some u /\
    (f_parent p <> 0 -> exists pp, files (fs (sf s)) !! f_parent p = Some pp /\ f_free pp = false) /\ f_free p = false.
Proof.
intros (gx & g & K & I) Hfo Hz. destruct (fid_file _ _ _ _ _ _ _ I Hfo Hz) as (_ & p & Hp & Hpos).
pose proof (xi_uid _ _ _ _ _ I x fo Hfo Hz). destruct (fd_uid fo) as [u|] eqn:Hu; [|done].
exists p, u. split; [done|]. split; [done|]. split; [|exact (live_free _ _ _ _ _ _ _ I Hp Hpos)].
intros Hpp. destruct (xi_wf _ _ _ _ _ I) as (If & _). destruct (parent_file _ _ _ _ _ If Hp Hpp) as (pp & Hpp' & Hl).
exists pp. split; [done|]. exact (live_free _ _ _ _ _ _ _ I Hpp' Hl).
Qed.

(** A file that the fid holds is in its directory. *)
Definition has_parent (f : fidst) (fo : Fid) : Prop :=
  forall p, files (fs f) !! fd_file fo = Some p -> f_parent p <> 0.

Lemma screate_ok s P r tag fid n pm md : serving s P r (req0 tag (MTcreate fid n pm md)) -> runs (screate srv (R := R) r fid) P r s.
Proof.
intros S. unfold screate. apply (lookup_step set_rq_fid _ s P r _ fid S).
- by apply set_fid_sets.
- intros _. rewrite decide_True by done. answers S.
- intros x fo0 s' S' Hx _ Efs Eh _ _ _. rewrite decide_False by done. set (fo := set_fid_ref _ fo0) in Efs.
  assert (Hfo : fids (sf s') !! x = Some fo) by (by rewrite Efs, lookup_insert_eq).
  apply (runs_go _ _ P r s' fo (onfid_xget x s' fo Hfo)).
  case_decide; [answers S'|]. case_decide; [answers S'|].
  assert (exists b, (if decide (fd_file fo <> 0) then file_hasperm (R := R) (fd_file fo) (fd_uid fo) AWRITE else cret true) s' = (Go b, s')) as [b E].
  { destruct (decide (fd_file fo <> 0)) as [Hz|]; [|by eexists]. destruct S' as ((F & _) & _).
    destruct (fid_file_facts s' _ x fo F Hfo Hz) as (p & u & Hp & -> & _ & Hlv). rewrite (file_hasperm_run s' _ p u _ Hp Hlv). by eexists. }
  apply (runs_go _ _ P r s' b E).
  destruct b; cbn [negb]; [|answers S'].
  destruct (srv_create srv); [by apply (runs_upcall _ P r _ _ S')|answers S'].
Qed.

Lemma sremove_ok s P r tag fid : serving s P r (req0 tag (MTremove fid)) ->
  (forall x fo, denotes (sf s) fid x fo -> fd_rdir fo = 0 /\ (fd_file fo <> 0 -> has_parent (sf s) fo)) ->
  runs (sremove srv (R := R) r fid) P r s.
Proof.
intros S Hc. unfold sremove. apply (remove_step set_rq_fid _ s P r _ fid S).
- by apply set_fid_sets.
- intros s' S'. rewrite decide_True by done. answers S'.
- intros x fo s' S' Hx Hd Efs Eh _. rewrite decide_False by done. destruct (Hc x fo Hd) as [Hrd Hpar].
  assert (Hfo : fids (sf s') !! x = Some fo) by (rewrite Efs; apply Hd).
  apply (runs_go _ _ P r s' fo (onfid_xget x s' fo Hfo)).
  assert (exists b, (if decide (fd_file fo <> 0) then
      p <- onfile (fget (fd_file fo));; file_hasperm (R := R) (f_parent p) (fd_uid fo) AWRITE else cret true) s' = (Go b, s')) as [b E].
  { destruct (decide (fd_file fo <> 0)) as [Hz|]; [|by eexists]. destruct S' as ((F & _) & _).
    destruct (fid_file_facts s' _ x fo F Hfo Hz) as (p & u & Hp & -> & Hpp & Hlv). rewrite (cbind_go _ _ _ _ _ (onfile_fget s' _ p Hp Hlv)).
    destruct Hpp as (pp & Hpp & Hlp); [apply (Hpar Hz p); by rewrite <- Eh|]. rewrite (file_hasperm_run s' _ pp u _ Hpp Hlp). by eexists. }
  apply (runs_go _ _ P r s' b E).
  destruct b; cbn [negb]; [|answers S'].
  destruct (srv_remove srv); [by apply (runs_upcall _ P r _ _ S')|].
  destruct (decide (fd_file fo <> 0)); [|answers S'].
  apply (runs_respond _ P r _ _ S'). split; [done|]. intros _. split; [done|]. split.
  + intros fo' Hfo'. cbn in Hfo'. congruence.
  + intros fo' p Hfo' Hp. cbn in Hfo'. left. rewrite Hfo in Hfo'. injection Hfo' as <-. rewrite Eh in Hp. by apply (Hpar n p).
Qed.

Lemma sstat_ok s P r tag fid : serving s P r (req0 tag (MTstat fid)) ->
  (forall x fo p, srv_stat srv = false -> denotes (sf s) fid x fo -> files (fs (sf s)) !! fd_file fo = Some p ->
     dir_size (f_dir p) <= msize s - 9 /\ dir_size (f_dir p) < 2 ^ 16) ->
  runs (sstat srv (R := R) r fid) P r s.
Proof.
intros S Hc. unfold sstat. apply (with_fid _ s P r tag _ fid S); [done..|].
intros x fo0 fo s' S' Hx Hd Efo Hfo Eh Em. rewrite decide_False by done. apply (runs_go _ _ P r s' fo (onfid_xget x s' fo Hfo)).
destruct (decide (fd_file fo <> 0)) as [Hz|Hz].
- pose proof S' as ((F & _) & _). destruct (fid_file_facts s' _ x fo F Hfo Hz) as (p & u & Hp & _ & _ & Hlv).
  assert (runs (rset (R := R) r (set_rq_d (f_dir p));; if srv_stat srv then upcall CStat r else respond_ r None) P r s') as Hr.
  { apply (rset_step _ s' P r _ _ S'); try done. intros s2 S2 Ef Em2 _. destruct (srv_stat srv) eqn:Es.
    - by apply (runs_upcall _ P r _ _ S2).
    - apply (runs_respond _ P r _ _ S2). split; [done|]. intros _. cbn. rewrite Em2, Em. apply (Hc x fo0 p); try done.
      rewrite <- Eh. by rewrite Efo in Hp. }
  destruct Hr as (s2 & E2 & H2). exists s2. split; [|done]. rewrite <- E2.
  unfold cbind at 1. rewrite (cbind_go _ _ _ _ _ (onfile_fget s' _ p Hp Hlv)). unfold cbind. by destruct (rset (R := R) r (set_rq_d (f_dir p)) s') as [[] ?].
- apply (runs_go (cret tt) _ P r s' tt eq_refl). destruct (srv_stat srv); [by apply (runs_upcall _ P r _ _ S')|answers S'].
Qed.

Lemma wstat_error_len m d t e : wstat_error m d t = Some e -> zlen e <= ERRMAX.
Proof. unfold wstat_error. intros H. repeat case_decide; try discriminate; injection H as <-; by vm_compute. Qed.

Lemma swstat_ok s P r tag fid stat : serving s P r (req0 tag (MTwstat fid stat)) -> runs (swstat srv nullstring (R := R) r fid stat) P r s.
Proof.
intros S. unfold swstat. apply (with_fid _ s P r tag _ fid S); [done..|].
intros x fo0 fo s' S' Hx Hd Efo Hfo Eh Em. rewrite decide_False by done.
destruct (srv_wstat srv); cbn [negb]; [|answers S'].
destruct (convM2D nullstring statbuf (zlen stat) (st_bytes ∅ statbuf stat) dir0 statbuf) as [[n m] d].
apply (rset_step _ s' P r _ _ S'); try done. intros s2 S2 Ef _ _. case_decide; [answers S2|].
apply (runs_go _ _ P r s2 fo); [apply onfid_xget; congruence|].
destruct (wstat_error m d (q_type (fd_qid fo))) as [e|] eqn:Ee.
- apply (runs_error _ P r _ _ S2); [done|]. by apply wstat_error_len in Ee.
- by apply (runs_upcall _ P r _ _ S2).
Qed.

Lemma swrite_ok s P r tag fid offset data : serving s P r (req0 tag (MTwrite fid offset data)) -> runs (swrite srv (R := R) r fid offset data) P r s.
Proof.
intros S. unfold swrite. apply (with_fid _ s P r tag _ fid S); [done..|].
intros x fo0 fo s' S' Hx Hd Efo Hfo Eh Em. rewrite decide_False by done.
case_decide; [answers S'|]. case_decide; [answers S'|]. apply (runs_go (cgets msize) _ P r s' (msize s') eq_refl).
apply (rset_step _ s' P r _ _ S'); try done; [split; intros [? ?]; discriminate|]. intros s2 S2 Ef _ _.
apply (runs_go _ _ P r s2 fo); [apply onfid_xget; congruence|].
case_decide; [apply (runs_error _ P r _ _ S2); [done|apply snprint_len]|].
destruct (srv_write srv); [by apply (runs_upcall _ P r _ _ S2)|answers S2].
Qed.

(** A read of the directory that a fid has open. *)
Lemma read_reader s fh x fo n : fok (sf s) fh -> fids (sf s) !! x = Some fo -> fd_rdir fo <> 0 -> 0 <= n ->
  exists m data f', onfile (readdirfile (R := R) (fd_rdir fo) n) s = (Go (m, data), set_sf f' s) /\ m <= n /\
    fok f' fh /\ trees (fs f') = trees (fs (sf s)).
Proof.
intros (gx & g & K & I) Hfo Hrd Hn. destruct (xi_rdir _ _ _ _ _ I x fo Hfo Hrd) as (_ & ro & Hro & _).
pose proof (xi_wf _ _ _ _ _ I) as W. pose proof W as (If & _).
destruct (suffix_at (K (rd_dir ro)) (rd_fl ro) (fi_rd _ _ _ If _ ro Hro)) as (P0 & ns & HK & Hfl).
destruct (readdirfile_spec (R := R) _ _ K _ ro P0 ns n If Hro Hn HK Hfl) as (Pn & Q & junk & h & _ & Hle & _ & E & I' & Es).
eexists _, _, (set_fs h (sf s)). split; [unfold onfile; by apply onfid_go, onfs_go|]. split; [done|].
assert (Et : trees h = trees (fs (sf s))) by (by rewrite Es). split; [|done]. exists gx, g, K.
apply (fidinv_heap (sf s) fh gx gx g K K h I).
- eapply fwf_evolves; [exact W|exact I'| |done|done]. subst h. intros y yo Hy _. by exists yo.
- intros d dro Hdr. rewrite Es. cbn. destruct (decide (d = fd_rdir fo)) as [->|Hne].
  + rewrite Hro in Hdr. injection Hdr as <-. eexists. by rewrite lookup_insert_eq.
  + exists dro. by rewrite lookup_insert_ne.
- apply (xi_gx _ _ _ _ _ I).
- intros y. rewrite Es. rewrite (nrd_update _ _ ro _ _ Hro); [|done]. apply (xi_readers _ _ _ _ _ I).
Qed.

Lemma sread_ok s P r tag fid offset count : serving s P r (req0 tag (MTread fid offset count)) -> 0 <= count ->
  (forall x fo, denotes (sf s) fid x fo -> Z.land (q_type (fd_qid fo)) QTDIR <> 0 -> fd_file fo <> 0 -> fd_rdir fo <> 0) ->
  runs (sread srv (R := R) r fid offset count) P r s.
Proof.
intros S Hc Hd0. unfold sread. apply (with_fid _ s P r tag _ fid S); [done..|].
intros x fo0 fo s' S' Hx Hd Efo Hfo Eh Em. rewrite decide_False by done. case_decide; [answers S'|].
apply (runs_go _ _ P r s' fo (onfid_xget x s' fo Hfo)). case_decide; [answers S'|].
apply (runs_go (cgets msize) _ P r s' (msize s') eq_refl). cbv zeta. pose proof S' as ((_ & _ & M) & _).
set (n := if decide (u32 (msize s' - IOHDRSZ) < count) then u32 (msize s' - IOHDRSZ) else count).
assert (0 <= n <= msize s' - 24) as Hn.
{ assert (u32 (msize s' - IOHDRSZ) = msize s' - 24) as E by (unfold u32, IOHDRSZ, MINMSIZE in *; rewrite Z.mod_small; lia).
  unfold n. rewrite E. unfold MINMSIZE in M. case_decide; lia. }
apply (rset_step _ s' P r _ _ S'); try done; [split; intros [? ?]; discriminate|]. intros s2 S2 Ef Em2 _.
case_decide; [answers S2|]. case_decide as Hdir.
- destruct Hdir as [Hq Hz]. assert (fd_rdir fo <> 0) as Hrd by (rewrite Efo; apply (Hd0 x fo0 Hd); rewrite Efo in Hq, Hz; done).
  pose proof S2 as ((F2 & _) & _).
  destruct (read_reader s2 _ x fo n F2 ltac:(congruence) Hrd ltac:(lia)) as (m & data & f' & E & Hm & F' & Et).
  destruct (serving_sf s2 P r _ f' S2 F' Et) as [S3 X3].
  eapply runs_step; [exact (cbind_go _ _ _ _ _ E)|exact X3|]. cbn [fst snd].
  apply (oset_step _ _ P r _ _ S3). intros s4 S4 _ Em4. apply (runs_respond _ P r _ _ S4).
  split; [done|]. intros _. split; [done|]. cbn in *. lia.
- destruct (srv_read srv); [by apply (runs_upcall _ P r _ _ S2)|answers S2].
Qed.

(** The fid of the request becomes a reader of its directory. *)
Lemma opendir_step (k : Z -> scmd unit) s P r q x fo p : serving s P r q -> fids (sf s) !! x = Some fo -> fd_file fo <> 0 ->
  fd_rdir fo = 0 -> files (fs (sf s)) !! fd_file fo = Some p ->
  (forall d s', serving s' P r q -> runs (k d) P r s') ->
  runs (d <- onfile (opendirfile (R := R) (fd_file fo));; onfid (xset x (set_fid_rdir d));; k d) P r s.
Proof.
intros S Hfo Hz Hrd Hp Hk. pose proof S as (((gx & g & K & I) & _) & _).
destruct (open_reader (R := R) _ _ _ _ _ x fo p I Hfo Hrd Hz Hp) as (d & f1 & E & Efs & Et & H).
set (f2 := set_fids (<[x := set_fid_rdir d fo]> (fids (sf s))) f1).
assert (Hok : fok f2 (rheld (reqs s))).
{ destruct H as [[-> ->]|[_ I']]; [|by exists gx, g, K]. exists gx, g, K. apply (fidinv_set _ _ gx g K x fo); cbn; try done; try (by rewrite Hrd).
  by apply (xi_uid _ _ _ _ _ I x). }
destruct (serving_sf s P r q f2 S Hok Et) as [S' X].
eapply runs_step; [|exact X|apply (Hk d _ S')].
unfold onfile. rewrite (cbind_go _ _ _ _ _ (onfid_go _ _ _ _ E)).
assert (E2 : xset (R := R) x (set_fid_rdir d) f1 = (Go tt, f2)) by (unfold xset, f2; by rewrite Efs, Hfo).
by rewrite (cbind_go _ _ _ _ _ (onfid_go _ (set_sf f1 s) tt f2 E2)).
Qed.

Lemma open_end_ok s P r q x fid mode : serving s P r q -> rq_ifcall q = MTopen fid mode -> rq_fid q = x -> x <> 0 ->
  runs (open_end srv (R := R) r) P r s.
Proof.
intros S Hi Hf Hx. unfold open_end. destruct (srv_open srv).
- apply (runs_upcall _ P r _ _ S). unfold call_ok. rewrite Hi. congruence.
- apply (runs_respond _ P r _ _ S). unfold may_answer. rewrite Hi. split; [done|]. congruence.
Qed.

Lemma sopen_ok s P r tag fid mode : serving s P r (req0 tag (MTopen fid mode)) ->
  (forall x fo, denotes (sf s) fid x fo -> fd_omode fo = -1 -> fd_rdir fo = 0 /\
     (Z.land mode ORCLOSE <> 0 -> fd_file fo <> 0 -> has_parent (sf s) fo)) ->
  runs (sopen srv (R := R) r fid mode) P r s.
Proof.
intros S Hc. unfold sopen. apply (with_fid _ s P r tag _ fid S); [done..|].
intros x fo0 fo s' S' Hx Hd Efo Hfo Eh Em. rewrite decide_False by done. apply (runs_go _ _ P r s' fo (onfid_xget x s' fo Hfo)).
case_decide as Hm; [answers S'|]. case_decide; [answers S'|].
destruct (Hc x fo0 Hd) as [Hrd Hpar]; [rewrite Efo in Hm; cbn in Hm; lia|].
apply (oset_step _ s' P r _ _ S'). intros s2 S2 Ef2 _. cbv zeta. case_decide; [answers S2|].
case_decide as Hz; [|by apply (open_end_ok _ P r _ x fid mode S2)].
pose proof S2 as ((F2 & _) & _). assert (Hfo2 : fids (sf s2) !! x = Some fo) by congruence.
destruct (fid_file_facts s2 _ x fo F2 Hfo2 Hz) as (p & u & Hp & Hu & Hpp & Hlv). rewrite Hu.
apply (runs_go _ _ P r s2 _ (file_hasperm_run s2 _ p u _ Hp Hlv)).
case_match; [answers S2|].
assert (exists b, (if decide (Z.land mode ORCLOSE <> 0) then
   fo' <- onfile (fget (fd_file fo));; file_hasperm (R := R) (f_parent fo') (Some u) AWRITE else cret true) s2 = (Go b, s2)) as [b E].
{ destruct (decide (Z.land mode ORCLOSE <> 0)) as [Ho|]; [|by eexists]. rewrite (cbind_go _ _ _ _ _ (onfile_fget s2 _ p Hp Hlv)).
  destruct Hpp as (pp & Hpp & Hlp); [apply (Hpar Ho); [by rewrite Efo in Hz|]; rewrite <- Eh, <- Ef2; by rewrite Efo in Hp|].
  rewrite (file_hasperm_run s2 _ pp u _ Hpp Hlp). by eexists. }
apply (runs_go _ _ P r s2 b E). clear E. destruct b; cbn [negb]; [|answers S2].
apply (runs_go _ _ P r s2 p (onfile_fget s2 _ p Hp Hlv)).
apply (oset_step _ s2 P r _ _ S2). intros s3 S3 Ef3 _.
case_decide; [|by apply (open_end_ok _ P r _ x fid mode S3)].
apply (opendir_step _ s3 P r _ x fo p S3); try congruence; [by rewrite Efo|].
intros d s4 S4. case_decide; [answers S4|by apply (open_end_ok _ P r _ x fid mode S4)].
Qed.

(** *** Flushes *)

Lemma olds_le m o : olds m o <= Z.of_nat (size m).
Proof. apply cnt_le_size. Qed.

(** [r->oldreq = lookupreq(...)] *)
Lemma oldreq_step (k : Z -> scmd unit) s P r tag oldtag : let q := req0 tag (MTflush oldtag) in
  serving s P r q -> oldtag <> tag -> rbrk s = r + 1 ->
  runs (k 0) P r s -> (forall o s', serving s' P r (set_rq_oldreq o q) -> o <> 0 -> o <> r -> runs (k o) P r s') ->
  runs (or <- lookupreq (R := R) oldtag;; rset r (set_rq_oldreq or);; k or) P r s.
Proof.
intros q S Hne Hb Hnone Hsome. pose proof S as (G & Hr & HP & Hp & Hsz). pose proof G as (F & (t & I) & M).
assert (HPr : r ∈ {[r]} ∪ P) by (apply elem_of_union; left; by apply elem_of_singleton).
destruct (t !! oldtag) as [o|] eqn:Et.
- destruct (si_pool _ _ _ _ I oldtag o Et) as (oo & Hoo & Hot & Hop & Hou). pose proof (si_reqs _ _ _ _ I o oo Hoo) as Hrng.
  assert (Hor : o <> r) by (intros ->; rewrite Hr in Hoo; injection Hoo as <-; cbn in Hot; congruence).
  pose proof (si_ref _ _ _ _ I o oo Hoo Hop) as Href. pose proof (olds_le (reqs s) o) as Hol.
  pose proof (b2z_range (t !! rq_tag oo = Some o)). pose proof (b2z_range (rq_responded oo = false)).
  pose proof (si_pos _ _ _ _ I o oo Hoo). cbv beta in Href.
  set (oo' := set_rq_ref (rq_ref oo + 1) oo). set (s1 := set_reqs (<[o := oo']> (reqs s)) s).
  assert (E1 : lookupreq (R := R) oldtag s = (Go o, s1)).
  { unfold lookupreq. rewrite (lookupkey_spec _ t) by apply I. rewrite Et, (si_inc _ _ _ _ I). unfold increqref.
    rewrite decide_False by lia. cbn. rewrite Hoo. cbn. by rewrite s32_small by lia. }
  pose proof (rinv_incr s idle t _ o oo I Hoo Hop ltac:(lia)) as I1. fold oo' s1 in I1.
  assert (Hr1 : reqs s1 !! r = Some q) by (cbn; by rewrite lookup_insert_ne).
  set (s2 := set_reqs (<[r := set_rq_oldreq o q]> (reqs s1)) s1).
  assert (I2 : rinv s2 (upd (upd idle o 1) o (-1)) t ({[r]} ∪ P)).
  { apply (rinv_setold s1 _ t _ r q o oo' I1 Hr1); try done; [by exists oldtag|cbn; by rewrite lookup_insert_eq|lia|rewrite upd_eq; lia|cbn; congruence]. }
  destruct (due_set s o oo oo' Hoo eq_refl eq_refl s1 eq_refl eq_refl) as [D1 U1].
  destruct (due_set s1 r q (set_rq_oldreq o q) Hr1 eq_refl eq_refl s2 eq_refl eq_refl) as [D2 U2].
  assert (X : effect ({[r]} ∪ P) idle [r] s s2).
  { unfold effect, frame. split_and!; try done; [|intros tau; by rewrite D2, D1|lia]. intros y y0 Hy Hyl _.
    rewrite list_elem_of_singleton in Hyl. cbn. rewrite lookup_insert_ne by done. destruct (decide (y = o)) as [->|Hyo].
    - rewrite lookup_insert_eq. rewrite Hoo in Hy. injection Hy as <-. by eexists.
    - exists y0. by rewrite lookup_insert_ne. }
  eapply runs_step; [|exact X|apply (Hsome o); try done; [|lia]].
  + rewrite (cbind_go _ _ _ _ _ E1), (cbind_go _ _ _ _ _ (rset_go r _ s1 q Hr1)). done.
  + split_and!; try done; [|cbn; by rewrite lookup_insert_eq|cbn; by rewrite !map_size_insert_Some by (by rewrite ?lookup_insert_ne)].
    split; [|split; [exists t|done]].
    * eapply fok_ext; [exact F|]. intros x. cbn. rewrite (rheld_same _ _ q) by done. by rewrite (rheld_same _ _ oo).
    * eapply rinv_ext; [exact I2|done..|]. intros y. unfold upd. repeat case_decide; lia.
- apply (runs_go _ _ P r s 0).
  { unfold lookupreq. rewrite (lookupkey_spec _ t) by apply I. by rewrite Et. }
  apply (runs_go _ _ P r s tt); [|done]. rewrite (rset_go r _ s q Hr). cbn. rewrite insert_id by done. by destruct s.
Qed.

Lemma sflush_ok s P r tag oldtag : serving s P r (req0 tag (MTflush oldtag)) -> oldtag <> tag -> rbrk s = r + 1 ->
  runs (sflush srv (R := R) r oldtag) P r s.
Proof.
intros S Hne Hb. unfold sflush. apply (oldreq_step _ s P r tag oldtag S Hne Hb).
- rewrite decide_True by tauto. by apply (runs_respond _ P r _ _ S).
- intros o s' S' Ho Hor. rewrite decide_False by tauto. destruct (srv_flush srv).
  + by apply (runs_upcall _ P r _ _ S').
  + by apply (runs_respond _ P r _ _ S').
Qed.

(** *** Attach *)

(** The fid of the request gets the root as its file. *)
Lemma root_step (k k' : scmd unit) s P r q x fo tr t : (forall s, k' s = (onfile (incref (t_root t));; k) s) -> serving s P r q -> fids (sf s) !! x = Some fo -> fd_file fo = 0 ->
  fd_rdir fo = 0 -> fd_uid fo <> None -> trees (fs (sf s)) !! tr = Some t ->
  (forall y yo, files (fs (sf s)) !! y = Some yo -> f_ref yo < 2 ^ 31 - 1) ->
  (forall s' ro, serving s' P r q -> fids (sf s') = <[x := set_fid_file (t_root t) fo]> (fids (sf s)) ->
     files (fs (sf s')) !! t_root t = Some ro -> f_free ro = false -> runs k P r s') ->
  runs (onfid (xset (R := R) x (set_fid_file (t_root t)));; k') P r s.
Proof.
intros Ek S Hfo Hz Hrd Hu Ht Hb Hk. pose proof S as (((gx & g & K & I) & _) & _). set (p := t_root t) in *.
pose proof (xi_wf _ _ _ _ _ I) as W. pose proof W as (If & _ & Hroot). destruct (Hroot tr t Ht) as (ro & Hro & Hpar).
pose proof (root_live _ _ _ _ _ _ If Ht Hro Hpar) as Hlive. fold p in Hro, Hlive. pose proof (fi_files _ _ _ If p ro Hro) as Hp0.
destruct (incref_spec (R := R) (fs (sf s)) _ K p ro If Hro) as [E I1]; [specialize (Hb p ro Hro); lia|].
set (ro' := set_ref (f_ref ro + 1) ro) in *. set (h := set_files (<[p := ro']> (files (fs (sf s)))) (fs (sf s))) in *.
assert (J1 : fidinv (set_fs h (sf s)) (rheld (reqs s)) (upd gx p 1) g K).
{ apply (fidinv_keeps (sf s) _ gx g K K h p 1 I I1); try done; [lia|]. apply keeps_evolves. by apply (keeps_set (fs (sf s)) p ro). }
pose proof (xi_gx _ _ _ _ _ I p) as Hgx.
assert (J2 : fidinv (set_fids (<[x := set_fid_file p fo]> (fids (sf s))) (set_fs h (sf s))) (rheld (reqs s)) (move (upd gx p 1) 0 p) g K).
{ replace (move (upd gx p 1) 0 p) with (move (upd gx p 1) (fd_file fo) (fd_file (set_fid_file p fo))) by (cbn; by rewrite Hz).
  apply (fidinv_setfile (set_fs h (sf s)) _ (upd gx p 1) g K x fo); try done.
  - cbn. intros _. split; [done|]. unfold fext. cbn. rewrite decide_False by lia. rewrite upd_eq.
    pose proof (cnt_nonneg (fun x => fd_file x = p) (fids (sf s))). lia.
  - cbn. intros _ _. rewrite upd_eq. split; [lia|]. pose proof (xi_readers _ _ _ _ _ I p). change (nrd h p) with (nrd (fs (sf s)) p). lia. }
set (f2 := set_fids _ (set_fs h (sf s))) in J2. destruct (serving_sf s P r q f2 S) as [S' X]; [by eexists _, _, _|done|].
eapply runs_step; [|exact X|apply (Hk _ ro' S'); [done|cbn; by rewrite lookup_insert_eq|exact (live_free _ _ _ _ _ _ _ I Hro Hlive)]].
rewrite (cbind_go _ _ _ _ _ (onfid_go _ _ _ _ (xset_go x _ _ fo Hfo))). set (s1 := set_sf _ s).
assert (E1 : onfile (incref (R := R) p) s1 = (Go tt, set_sf f2 s)).
{ unfold onfile. by rewrite (onfid_go _ s1 tt f2 (onfs_go _ (sf s1) tt h E)). }
by rewrite Ek, (cbind_go _ _ _ _ _ E1).
Qed.

Lemma sattach_ok s P r tag fid afid u n : serving s P r (req0 tag (MTattach fid afid u n)) -> few_refs (sf s) ->
  (srv_tree srv <> 0 -> is_Some (trees (fs (sf s)) !! srv_tree srv)) ->
  runs (sattach srv (R := R) r fid afid u) P r s.
Proof.
intros S Hb Htree. unfold sattach. apply (alloc_step set_rq_fid _ s P r _ fid S).
{ by apply set_fid_sets. }
{ intros s' S'. rewrite decide_True by done. answers S'. }
intros x s1 S1 Hx Hnew Efs Eh Hd Em _. rewrite decide_False by done.
apply (rset_step _ s1 P r _ _ S1); try done. intros s2 S2 Ef2 Em2 _. set (q2 := set_rq_afid 0 _) in S2.
assert (Hend : forall s3 q3, serving s3 P r q3 -> rq_ifcall q3 = MTattach fid afid u n -> fs (sf s3) = fs (sf s) ->
  (exists k, fids (sf s3) !! x = Some (new_fid fid k)) ->
  runs (onfid (xset (R := R) x (set_fid_uid (Some u)));;
    (if decide (srv_tree srv <> 0) then
       ts <- cgets (fun s => trees (fs (sf s)) !! srv_tree srv);;
       match ts with
       | None => cabort
       | Some t => onfid (xset x (set_fid_file (t_root t)));; onfile (incref (t_root t));;
           fo <- onfile (fget (t_root t));; oset r (set_o_qid (v_qid (f_dir fo)));; onfid (xset x (set_fid_qid (v_qid (f_dir fo))))
       end
     else cret tt);;
    if srv_attach srv then upcall CAttach r else respond_ r None) P r s3).
{ intros s3 q3 S3 Hi Eh3 [k Hfo3]. apply (xset_step _ s3 P r q3 x _ _ S3 Hfo3); try done.
  intros s4 S4 Ef4 Em4. set (fo4 := set_fid_uid (Some u) (new_fid fid k)) in *.
  assert (Hfo4 : fids (sf s4) !! x = Some fo4) by (rewrite Ef4; cbn; by rewrite lookup_insert_eq).
  assert (Hfin : forall s5 q5, serving s5 P r q5 -> rq_ifcall q5 = MTattach fid afid u n -> runs (if srv_attach srv then upcall (R := R) CAttach r else respond_ r None) P r s5).
  { intros s5 q5 S5 Hi5. destruct (srv_attach srv).
    - apply (runs_upcall _ P r _ _ S5). unfold call_ok. by rewrite Hi5.
    - apply (runs_respond _ P r _ _ S5). unfold may_answer. by rewrite Hi5. }
  destruct (decide (srv_tree srv <> 0)) as [Htz|Htz]; [|apply (runs_go (cret tt) _ P r s4 tt eq_refl); by apply (Hfin s4 q3)].
  destruct (Htree Htz) as [t Ht].
  assert (Ht4 : trees (fs (sf s4)) !! srv_tree srv = Some t) by (rewrite Ef4; cbn; by rewrite Eh3).
  apply runs_assoc, (runs_go (cgets (fun s => trees (fs (sf s)) !! srv_tree srv)) _ P r s4 _ eq_refl). rewrite Ht4.
  apply runs_assoc. eapply (root_step _ _ s4 P r q3 x fo4 _ t); [intros s0; apply cseq_assoc|exact S4|exact Hfo4|done..| |].
  { intros y yo Hy. rewrite Ef4 in Hy. cbn in Hy. rewrite Eh3 in Hy. specialize (Hb y yo Hy). lia. }
  intros s5 ro S5 Efs5 Hro Hlr. apply runs_assoc, (runs_go _ _ P r s5 ro (onfile_fget s5 _ ro Hro Hlr)).
  apply runs_assoc, (oset_step _ s5 P r _ _ S5). intros s6 S6 Ef6 _.
  apply (xset_step _ s6 P r _ x (set_fid_file (t_root t) fo4) _ S6); try done; [by rewrite Ef6, Efs5, lookup_insert_eq|].
  intros s7 S7 _ _. by apply (Hfin s7 _ S7). }
assert (Hfo2 : fids (sf s2) !! x = Some (new_fid fid 2)) by (rewrite Ef2, Efs; by rewrite lookup_insert_eq).
assert (Eh2 : fs (sf s2) = fs (sf s)) by (by rewrite Ef2).
destruct (decide (afid <> NOFID)) as [Ha|Ha].
- eapply runs_ext; [apply cbind_ret_assoc|]. apply (lookup_step set_rq_afid _ s2 P r q2 afid S2).
  + by apply set_afid_sets.
  + intros _. rewrite bool_decide_eq_false_2 by tauto. cbn [negb]. answers S2. intros _. by rewrite Ef2.
  + intros a ao s3 S3 Haz Hda Efs3 Eh3 Epool _ _. rewrite bool_decide_eq_true_2 by done. cbn [negb].
    apply (Hend s3 _ S3); [done|congruence|]. rewrite Efs3. destruct (decide (x = a)) as [->|Hne].
    * rewrite lookup_insert_eq. destruct Hda as [_ Hao]. rewrite Hfo2 in Hao. injection Hao as <-. by eexists.
    * rewrite lookup_insert_ne by done. by exists 2.
- apply (runs_go (cret true) _ P r s2 true eq_refl). cbn [negb]. apply (Hend s2 q2 S2); try done. by exists 2.
Qed.
End Handlers.
