(* ===== verification/WalkSpec.v ===== *)
(** The handler [swalk]: walks in the tree of the server, and walks that its [walk1]
    and [clone] do. *)

From stdpp Require Import strings.
From S2P Require Import Prelude Mem Links Counts Fcall9P Fcall9PSpec Dir9P Dir9PSpec Intmap IntmapSpec Files FilesSpec FilesOps FilesThms Srv FidSpec ReqSpec RespondSpec ServeSpec HandlerSpec.

Section Walk.
Context {R : Type}.
Abbreviation scmd := (cmd srvst R).
Variable srv : Srv.

(** What the server promises of its functions that answer at once. *)
Definition srv_ok : Prop :=
  (forall walk1 s x w e q, srv_walk1 srv = Some walk1 -> walk1 s x w = (Some e, q) -> zlen e <= ERRMAX) /\
  (forall clone s x y e, srv_clone srv = Some clone -> clone s x y = Some e -> zlen e <= ERRMAX).

Lemma walkfile_plain f w h v h' : (47 ∉ w) -> walkfile1 (R := Z) f w h = (Go v, h') -> walkfile (R := R) f w h = (Go v, h').
Proof.
intros Hw E. unfold walkfile, ccall. rewrite decide_True by done. by rewrite (cbind_go _ _ _ _ _ E).
Qed.

(** While a walk goes on the server holds one reference to the file [p] that it has
    reached; [f0] are the fids before the walk. *)
Definition walking (f0 : fidst) (fh gx : Z -> Z) (g : gmap Z Z) (K0 : Z -> list (Z * Z)) (f : fidst) (p : Z) : Prop :=
  (exists K, fidinv f fh (if decide (p = 0) then gx else upd gx p 1) g K /\ forall d, nz (K d) = nz (K0 d)) /\
  keeps (fs f0) (fs f) /\ fids f = fids f0 /\ fpool f = fpool f0 /\
  (p <> 0 -> exists po, files (fs f0) !! p = Some po /\ f_ref po <> 0).

(** Every file that is in use is in a directory. *)
Definition all_placed (f : fidst) : Prop := forall y yo, files (fs f) !! y = Some yo -> f_ref yo <> 0 -> f_parent yo <> 0.

Lemma fext_upd f gx p y : fext f (upd gx p 1) y = if decide (y = 0) then 0 else upd (fext f gx) p 1 y.
Proof. unfold fext, upd. repeat case_decide; try done; lia. Qed.

Lemma fext_upd_at f gx p y : p <> 0 -> fext f (upd gx p 1) y = upd (fext f gx) p 1 y.
Proof. intros Hp. rewrite fext_upd. unfold fext, upd. repeat case_decide; try done; congruence. Qed.

(** The file that is reached is in use. *)
Lemma walking_live f0 fh gx g K0 f p po : fidinv f0 fh gx g K0 -> walking f0 fh gx g K0 f p -> p <> 0 ->
  files (fs f) !! p = Some po -> f_free po = false.
Proof.
intros I0 ((K & I & _) & _ & Ef & _) Hp Hpo. rewrite decide_False in I by done. apply (live_free _ _ _ _ _ _ _ I Hpo).
apply (ref_pos _ _ _ p po (proj1 (xi_wf _ _ _ _ _ I)) Hpo). left. rewrite fext_upd_at, upd_eq by done.
pose proof (fi_ext _ _ _ (proj1 (xi_wf _ _ _ _ _ I0)) p) as He. unfold fext in *. rewrite Ef. lia.
Qed.

Lemma walking_bound f0 fh gx g K0 f p y yo : fidinv f0 fh gx g K0 -> walking f0 fh gx g K0 f p -> few_refs f0 ->
  files (fs f0) !! y = Some yo -> exists yo', files (fs f) !! y = Some yo' /\ f_dir yo' = f_dir yo /\ f_parent yo' = f_parent yo /\ f_ref yo' < 2 ^ 31 - 1.
Proof.
intros I0 ((K & I & HK) & (Hk & _) & Ef & _) Hb Hy. destruct (Hk y yo Hy) as (yo' & Hy' & Ed & Ep & _).
exists yo'. split; [done|]. split; [done|]. split; [done|].
pose proof (xi_wf _ _ _ _ _ I) as [If _]. pose proof (xi_wf _ _ _ _ _ I0) as [If0 _].
rewrite (fi_ref _ _ _ If y yo' Hy'). specialize (Hb y yo Hy). rewrite (fi_ref _ _ _ If0 y yo Hy) in Hb.
assert (kids K y = kids K0 y) as -> by (unfold kids; by rewrite HK).
assert (pref yo' = pref yo) as -> by (unfold pref; by rewrite Ep).
assert (fext f (if decide (p = 0) then gx else upd gx p 1) y <= fext f0 gx y + 1); [|lia].
unfold fext, upd. rewrite Ef. repeat case_decide; lia.
Qed.

Lemma readers_spare f fh gx g K p : fidinv f fh gx g K -> p <> 0 -> nrd (fs f) p <= fext f gx p.
Proof.
intros I Hp. pose proof (xi_readers _ _ _ _ _ I p). unfold fext. rewrite decide_False by done.
pose proof (cnt_mono (reading p) (fun x => fd_file x = p) (fids f) (fun _ _ _ H => proj1 H)). lia.
Qed.

Lemma walking_next f0 fh gx g K0 f p h' K' p' : fidinv f0 fh gx g K0 -> walking f0 fh gx g K0 f p -> p <> 0 ->
  finv h' (upd (if decide (p' = 0) then fext f (upd gx p 1) else upd (fext f (upd gx p 1)) p' 1) p (-1)) K' ->
  keeps (fs f) h' -> (forall d, nz (K' d) = nz (K0 d)) ->
  (p' <> 0 -> exists po, files (fs f0) !! p' = Some po /\ f_ref po <> 0) ->
  walking f0 fh gx g K0 (set_fs h' f) p'.
Proof.
intros I0 ((K & I & HK) & Hk0 & Ef & Ep & _) Hp I' Hk HK' Hlive. rewrite decide_False in I by done.
split; [|split; [|by split]]; [|by eapply keeps_trans].
exists K'. split; [|done]. apply (fidinv_heap f fh (upd gx p 1) _ g K); [done|..].
- eapply fwf_ext; [eapply fwf_evolves; [apply (xi_wf _ _ _ _ _ I)|exact I'|by apply keeps_evolves| |apply Hk]|].
  + intros d c. by rewrite HK', HK.
  + intros y. destruct (decide (p' = 0)) as [Hp'|Hp'].
    * unfold fext, upd. repeat case_decide; try lia; congruence.
    * unfold fext, upd. repeat case_decide; try lia; congruence.
- intros d dro Hdr. destruct Hk as (_ & -> & _). by exists dro.
- intros y. pose proof (xi_gx _ _ _ _ _ I0 y). unfold upd. repeat case_decide; lia.
- intros y. assert (nrd h' y = nrd (fs f0) y) as ->.
  { destruct Hk as (_ & Hr & _). destruct Hk0 as (_ & Hr0 & _). unfold nrd. by rewrite Hr, Hr0. }
  rewrite Ef. pose proof (xi_readers _ _ _ _ _ I0 y). unfold upd. repeat case_decide; lia.
Qed.

Lemma walk_step f0 fh gx g K0 f p w : fidinv f0 fh gx g K0 -> walking f0 fh gx g K0 f p -> p <> 0 -> few_refs f0 ->
  (47 ∉ w) -> (w = dotdot -> all_placed f0) ->
  exists p' h', walkfile (R := R) p w (fs f) = (Go p', h') /\ walking f0 fh gx g K0 (set_fs h' f) p' /\ trees h' = trees (fs f).
Proof.
intros I0 W Hp Hb Hw Hdd. pose proof W as ((K & I & HK) & Hk0 & Ef & Ep & Hl). rewrite decide_False in I by done.
destruct (Hl Hp) as (po & Hpo & Hr). pose proof (xi_wf _ _ _ _ _ I0) as [If0 _]. pose proof (xi_wf _ _ _ _ _ I) as [If _].
destruct (walking_bound f0 fh gx g K0 f p p po I0 W Hb Hpo) as (po' & Hpo' & _ & Epar & _).
assert (Hext : 0 < fext f (upd gx p 1) p).
{ rewrite fext_upd_at by done. rewrite upd_eq. pose proof (fi_ext _ _ _ If0 p). unfold fext in *. rewrite Ef. lia. }
assert (Hnrd : nrd (fs f) p <= fext f (upd gx p 1) p - 1).
{ rewrite fext_upd_at by done. rewrite upd_eq. pose proof (readers_spare f0 fh gx g K0 p I0 Hp) as Hs.
  assert (nrd (fs f) p = nrd (fs f0) p) as -> by (destruct Hk0 as (_ & Hr0 & _); unfold nrd; by rewrite Hr0).
  assert (fext f gx p = fext f0 gx p) as -> by (unfold fext; by rewrite Ef). lia. }
destruct (decide (w = dotdot)) as [->|Hdot].
- pose proof (Hdd eq_refl p po Hpo Hr) as Hpar. destruct (parent_file _ _ _ _ _ If0 Hpo Hpar) as (pp & Hpp & Hppr).
  destruct (walking_bound f0 fh gx g K0 f p _ pp I0 W Hb Hpp) as (pp' & Hpp' & _ & _ & Hlt).
  destruct (walkfile1_parent (R := Z) (fs f) _ K p po' pp' If Hpo' Hext Hnrd) as (h' & K' & E & I' & Hk & HK'); try congruence.
  rewrite Epar in *.
  exists (f_parent po), h'. split; [by apply walkfile_plain|]. split; [|apply Hk].
  eapply (walking_next f0 fh gx g K0 f p h' K'); try done.
  + by rewrite decide_False.
  + intros d. by rewrite HK'.
  + intros _. exists pp. split; [done|lia].
- destruct (walkfile1_child (R := Z) (fs f) _ K p po' w If Hpo' Hext Hnrd Hdot) as (h' & K' & HK' & Hk & H).
  { intros c co Hc Hco _. rewrite HK in Hc. destruct (fi_child _ _ _ If0 p c Hc) as (_ & co0 & Hco0 & _).
    destruct (walking_bound f0 fh gx g K0 f p c co0 I0 W Hb Hco0) as (co' & Hco' & _ & _ & Hlt). congruence. }
  assert (HK2 : forall d, nz (K' d) = nz (K0 d)) by (intros d; by rewrite HK').
  destruct H as [(E & I' & _)|(c & Hc & _ & E & I')].
  + exists 0, h'. split; [by apply walkfile_plain|]. split; [|apply Hk].
    by eapply (walking_next f0 fh gx g K0 f p h' K').
  + exists c, h'. split; [by apply walkfile_plain|]. split; [|apply Hk]. rewrite HK in Hc.
    destruct (fi_child _ _ _ If0 p c Hc) as (_ & co0 & Hco0 & _).
    assert (c <> 0) by (apply elem_of_nz in Hc; tauto).
    eapply (walking_next f0 fh gx g K0 f p h' K'); try done; [by rewrite decide_False|].
    intros _. exists co0. split; [done|]. by apply (child_live _ _ _ p c co0 If0).
Qed.

(** The names of a walk are names of files. *)
Definition walk_ok (f : fidst) (ws : list bytes) : Prop :=
  few_refs f /\ Forall (fun w => 47 ∉ w) ws /\ (dotdot ∈ ws -> all_placed f).

Lemma walk_names_ok f0 fh gx g K0 P r (k : Z * Z -> scmd unit) ws : fidinv f0 fh gx g K0 -> few_refs f0 ->
  Forall (fun w => 47 ∉ w) ws -> (dotdot ∈ ws -> all_placed f0) ->
  forall s q p i, serving s P r q -> (forall x, rheld (reqs s) x = fh x) -> walking f0 fh gx g K0 (sf s) p -> p <> 0 ->
  (forall p' j o s', serving s' P r (set_rq_ofcall o q) -> (forall x, rheld (reqs s') x = fh x) ->
     walking f0 fh gx g K0 (sf s') p' -> zlen (o_wqid o) = zlen (o_wqid (rq_ofcall q)) + (j - i) -> i <= j ->
     (if decide (p' = 0) then j < i + zlen ws else j = i + zlen ws) -> runs (k (p', j)) P r s') ->
  runs (cbind (walk_names (R := R) r p ws i) k) P r s.
Proof.
intros I0 Hb Hws Hdd. induction ws as [|w ws IH]; intros s q p i S Hh W Hp Hk.
- cbn [walk_names]. apply (runs_go (cret (p, i)) k P r s (p, i) eq_refl). apply (Hk p i (rq_ofcall q) s); try done; [by destruct q|lia|].
  rewrite decide_False by done. unfold zlen. cbn. lia.
- apply Forall_cons_1 in Hws as [Hw Hws].
  destruct (walk_step f0 fh gx g K0 (sf s) p w I0 W Hp Hb Hw) as (p' & h' & E & W' & Ht).
  { intros ->. apply Hdd. by left. }
  assert (E1 : onfile (walkfile (R := R) p w) s = (Go p', set_sf (set_fs h' (sf s)) s)).
  { unfold onfile. by rewrite (onfid_go _ s p' _ (onfs_go _ (sf s) p' h' E)). }
  assert (F' : fok (set_fs h' (sf s)) (rheld (reqs s))).
  { destruct W' as ((K' & I' & _) & _). eexists _, g, K'. by eapply fidinv_ext. }
  destruct (serving_sf s P r q _ S F' Ht) as [S1 X]. set (s1 := set_sf _ s) in *.
  cbn [walk_names]. apply runs_assoc. eapply runs_step; [exact (cbind_go _ _ _ _ _ E1)|exact X|].
  destruct (decide (p' <> 0)) as [Hp'|Hp'].
  + pose proof W' as ((K' & I' & _) & Hk' & _ & _ & Hl). destruct (Hl Hp') as (po & Hpo & _). destruct Hk' as (Hk' & _).
    destruct (Hk' p' po Hpo) as (po' & Hpo' & _).
    apply runs_assoc, (runs_go _ _ P r s1 po' (onfile_fget s1 p' po' Hpo' (walking_live _ _ _ _ _ _ p' po' I0 W' Hp' Hpo'))). apply runs_assoc.
    apply (rset_step _ s1 P r q _ S1); try done. intros s2 S2 Ef2 Em2 Er2. set (q2 := set_rq_ofcall _ q) in S2.
    assert (Hr1 : reqs s1 !! r = Some q) by apply S1.
    apply (IH Hws ltac:(intros ?; apply Hdd; by right) s2 q2 p' (i + 1) S2); [|by rewrite Ef2|done|].
    * intros x. rewrite Er2, (rheld_same _ _ q) by done. apply Hh.
    * intros p2 j o s' S' Hh' W2 Hlen Hj Hpj. apply (Hk p2 j o s'); try done.
      -- rewrite Hlen. cbn. unfold zlen. rewrite length_app. cbn. lia.
      -- lia.
      -- unfold zlen in *. cbn [length]. case_decide; lia.
  + apply (runs_go (cret (0, i)) k P r s1 (0, i) eq_refl). assert (p' = 0) as -> by lia.
    apply (Hk 0 i (rq_ofcall q) s1); try done; [by destruct q|lia|]. rewrite decide_True by done. unfold zlen. cbn. lia.
Qed.

(** The reference of the walk becomes that of a fid. *)
Lemma walking_setfile f0 fh gx g K0 f p y yo : fidinv f0 fh gx g K0 -> walking f0 fh gx g K0 f p -> p <> 0 ->
  fids f !! y = Some yo -> fd_rdir yo = 0 -> fd_uid yo <> None -> fok (set_fids (<[y := set_fid_file p yo]> (fids f)) f) fh.
Proof.
intros I0 ((K & I & HK) & (_ & Er & _) & Ef & _) Hp Hy Hrd Hu. rewrite decide_False in I by done.
exists (move (upd gx p 1) (fd_file yo) (fd_file (set_fid_file p yo))), g, K.
pose proof (xi_gx _ _ _ _ _ I0 p) as Hgx.
apply (fidinv_setfile f fh (upd gx p 1) g K y yo); try done.
- cbn. intros _. split; [done|]. rewrite fext_upd_at by done. rewrite upd_eq.
  pose proof (xi_wf _ _ _ _ _ I0) as [If0 _]. pose proof (fi_ext _ _ _ If0 p). unfold fext in *. rewrite Ef. lia.
- cbn. intros _ _. rewrite upd_eq. split; [lia|]. pose proof (xi_readers _ _ _ _ _ I0 p). rewrite Ef.
  assert (nrd (fs f) p = nrd (fs f0) p) as -> by (unfold nrd; by rewrite Er). lia.
Qed.

(** The walk starts with a reference of its own. *)
Lemma walking_start f fh gx g K p po : fidinv f fh gx g K -> files (fs f) !! p = Some po -> f_ref po <> 0 -> few_refs f ->
  let f' := set_fs (set_files (<[p := set_ref (f_ref po + 1) po]> (files (fs f))) (fs f)) f in
  onfs (R := R) (incref p) f = (Go tt, f') /\ walking f fh gx g K f' p /\ p <> 0.
Proof.
intros I Hp Hr Hb f'. pose proof (xi_wf _ _ _ _ _ I) as [If _]. pose proof (fi_files _ _ _ If p po Hp) as Hp0.
assert (0 <= f_ref po).
{ rewrite (fi_ref _ _ _ If p po Hp). pose proof (fi_ext _ _ _ If p). pose proof (kids_nonneg K p). unfold pref. case_decide; lia. }
destruct (incref_spec (R := R) (fs f) _ K p po If Hp) as [E I1]; [specialize (Hb p po Hp); lia|].
split; [exact (onfs_go _ f tt _ E)|]. split; [|lia].
assert (Hk : keeps (fs f) (fs f')) by (by apply (keeps_set (fs f) p po)).
split; [|split; [done|split; [done|split; [done|]]]]; [|intros _; by exists po].
exists K. split; [|done]. rewrite decide_False by lia.
apply (fidinv_keeps f fh gx g K K _ p 1 I I1); try done; [lia|]. by apply keeps_evolves.
Qed.

Lemma filewalk_ok s P r q fid newfid ws fo yo : serving s P r q -> rq_ifcall q = MTwalk fid newfid ws ->
  rq_ofcall q = empty_ofcall -> walk_ok (sf s) ws -> zlen ws <= MAXWELEM ->
  rq_fid q <> 0 -> fids (sf s) !! rq_fid q = Some fo -> fd_file fo <> 0 ->
  rq_newfid q <> 0 -> fids (sf s) !! rq_newfid q = Some yo -> fd_rdir yo = 0 -> fd_uid yo <> None ->
  (fid <> newfid -> droppable (sf s) (rq_newfid q)) -> runs (filewalk (R := R) r ws) P r s.
Proof.
intros S Hi Ho (Hb & Hws & Hdd) Hlen Hx Hfo Hz Hy Hyo Hrd Hu Hdrop. pose proof S as (((gx & g & K & I) & _) & Hr & _).
destruct (fid_file _ _ _ _ _ _ _ I Hfo Hz) as (_ & po & Hpo & Hpr).
unfold filewalk. apply (runs_go _ _ P r s q (rget_go r s q Hr)). apply (runs_go _ _ P r s fo (onfid_xget _ s fo Hfo)).
rewrite decide_False by done.
destruct (walking_start (sf s) _ gx g K (fd_file fo) po I Hpo ltac:(lia) Hb) as (E & W & _). set (f1 := set_fs _ (sf s)) in *.
assert (F1 : fok f1 (rheld (reqs s))) by (destruct W as ((K' & I' & _) & _); by eexists _, _, _).
destruct (serving_sf s P r q f1 S F1 eq_refl) as [S1 X1].
eapply runs_step; [exact (cbind_go _ _ _ _ _ (onfid_go _ _ _ _ E))|exact X1|]. clear X1.
apply (walk_names_ok (sf s) (rheld (reqs s)) gx g K P r _ ws I Hb Hws Hdd _ q _ 0 S1); try done.
intros p' j o s2 S2 Hh W2 Hlo Hj Hpj. rewrite Ho in Hlo. cbn in Hlo. set (q2 := set_rq_ofcall o q) in S2.
assert (Hj16 : j <= zlen ws) by (case_decide; lia).
apply (rset_step _ s2 P r q2 _ S2); try done. intros s3 S3 Ef3 Em3 Er3. set (q3 := set_rq_ofcall _ q2) in S3.
assert (Hh3 : forall x, rheld (reqs s3) x = rheld (reqs s) x).
{ intros x. rewrite Er3, (rheld_same _ _ q2) by (done || apply S2). apply Hh. }
assert (Hend : forall s4 q4, serving s4 P r q4 -> q4 = q3 -> (fid <> newfid -> droppable (sf s4) (rq_newfid q)) -> runs (respond_ (R := R) r None) P r s4).
{ intros s4 q4 S4 -> Hd4. apply (runs_respond s4 P r q3); [done|]. split; [done|]. cbn. rewrite Hi. split; [lia|]. split.
  - intros _ Hne _. by apply Hd4.
  - intros _ _. split; [done|]. split; [done|]. rewrite Hlo. unfold zlen. cbn. lia. }
assert (W3 : walking (sf s) (rheld (reqs s)) gx g K (sf s3) p') by (by rewrite Ef3).
pose proof W3 as (_ & (Hk3 & _) & Efs3 & Ep3 & Hl3).
assert (Hd3 : fid <> newfid -> droppable (sf s3) (rq_newfid q)).
{ intros Hne. apply (droppable_ext (sf s)); try done. by apply Hdrop. }
destruct (decide (p' <> 0)) as [Hp'|Hp'].
- assert (Hyo3 : fids (sf s3) !! rq_newfid q = Some yo) by (by rewrite Efs3).
  pose proof (walking_setfile _ _ _ _ _ (sf s3) p' _ yo I W3 Hp' Hyo3 Hrd Hu) as F4. set (f4 := set_fids _ (sf s3)) in F4.
  assert (F4' : fok f4 (rheld (reqs s3))) by (by eapply fok_ext).
  destruct (serving_sf s3 P r q3 f4 S3 F4' eq_refl) as [S4 X4].
  apply runs_assoc. eapply runs_step; [exact (cbind_go _ _ _ _ _ (onfid_go _ _ _ _ (xset_go _ _ _ yo Hyo3)))|exact X4|].
  destruct (Hl3 Hp') as (pn & Hpn & _). destruct (Hk3 p' pn Hpn) as (pn' & Hpn' & _).
  apply runs_assoc, (runs_go _ _ P r _ pn' (onfile_fget (set_sf f4 s3) p' pn' Hpn' (walking_live _ _ _ _ _ _ p' pn' I W3 Hp' Hpn'))).
  apply (xset_step _ _ P r q3 (rq_newfid q) (set_fid_file p' yo) _ S4); try done; [cbn; by rewrite lookup_insert_eq|].
  intros s5 S5 Ef5 _. apply (Hend s5 q3 S5 eq_refl). intros Hne. rewrite Ef5. cbn [sf set_sf].
  assert (droppable f4 (rq_newfid q)) as Hd4 by (apply (droppable_set (sf s3) _ _ yo); try done; by apply Hd3).
  apply (droppable_set f4 _ _ (set_fid_file p' yo)); try done. cbn. by rewrite lookup_insert_eq.
- apply (runs_go (cret tt) _ P r s3 tt eq_refl). by apply (Hend s3 q3 S3).
Qed.

(** The fid [y], which errors drop when [D] holds, gets another qid. *)
Lemma qid_step (D : Prop) (k : scmd unit) s P r q y qid : serving s P r q -> is_Some (fids (sf s) !! y) -> (D -> droppable (sf s) y) ->
  (forall s', serving s' P r q -> is_Some (fids (sf s') !! y) -> (D -> droppable (sf s') y) -> runs k P r s') ->
  runs (onfid (xset (R := R) y (set_fid_qid qid));; k) P r s.
Proof.
intros S [yo Hyo] Hd Hk. apply (xset_step k s P r q y yo _ S Hyo); try done; [exact (uid_at s P r q y yo S Hyo)|].
intros s' S' Ef _. apply (Hk s' S').
- rewrite Ef. cbn. rewrite lookup_insert_eq. by eexists.
- intros HD. rewrite Ef. apply (droppable_set (sf s) y y yo); try done. by apply Hd.
Qed.

Lemma walk1_names_ok (D : Prop) walk1 P r y q (k : option bytes * Z -> scmd unit) ws : srv_ok -> srv_walk1 srv = Some walk1 ->
  forall s o i, serving s P r (set_rq_ofcall o q) -> is_Some (fids (sf s) !! y) -> (D -> droppable (sf s) y) ->
  (forall e j o' s', serving s' P r (set_rq_ofcall o' q) -> (D -> droppable (sf s') y) ->
     zlen (o_wqid o') = zlen (o_wqid o) + (j - i) -> i <= j <= i + zlen ws -> (forall e', e = Some e' -> zlen e' <= ERRMAX) ->
     runs (k (e, j)) P r s') ->
  runs (cbind (walk1_names (R := R) (oldwalk1 walk1) r y ws i) k) P r s.
Proof.
intros [Hok _] Hw1. induction ws as [|w ws IH]; intros s o i S Hy Hd Hk; cbn [walk1_names].
- apply (runs_go (cret (None, i)) k P r s (None, i) eq_refl). apply (Hk None i o s); try done; [lia|]. unfold zlen. cbn. lia.
- apply runs_assoc. destruct (walk1 s y w) as [[e|] qid] eqn:Ew.
  + apply (runs_go (oldwalk1 walk1 y w) _ P r s (Some e)); [unfold oldwalk1; by rewrite Ew|].
    apply (runs_go (cret (Some e, i)) k P r s (Some e, i) eq_refl). apply (Hk (Some e) i o s); try done; [lia|unfold zlen; cbn; lia|].
    intros e' [= <-]. by apply (Hok walk1 s y w e qid).
  + apply (runs_cbind _ (onfid (xset (R := R) y (set_fid_qid qid));; cret None)); [unfold oldwalk1; by rewrite Ew|].
    apply runs_assoc, (qid_step D _ s P r _ y qid S Hy Hd). intros s1 S1 Hy1 Hd1.
    apply (runs_go (cret None) _ P r s1 None eq_refl). destruct Hy1 as [yo Hyo].
    apply runs_assoc, (runs_go _ _ P r s1 yo (onfid_xget _ s1 yo Hyo)). apply runs_assoc, (oset_step _ s1 P r _ _ S1).
    intros s2 S2 Ef2 _. apply (IH s2 (add_o_wqid (fd_qid yo) o) (i + 1) S2); [rewrite Ef2; by eexists|by rewrite Ef2|].
    intros e j o' s' S' Hd' Hl Hj He. apply (Hk e j o' s'); try done.
    * rewrite Hl. cbn. unfold zlen. rewrite length_app. cbn. lia.
    * unfold zlen in *. cbn [length]. lia.
Qed.

Lemma walkandclone_ok s P r q fid newfid ws walk1 : srv_ok -> srv_walk1 srv = Some walk1 -> serving s P r q ->
  rq_ifcall q = MTwalk fid newfid ws -> rq_ofcall q = empty_ofcall -> zlen ws <= MAXWELEM ->
  rq_fid q <> 0 -> is_Some (fids (sf s) !! rq_fid q) -> rq_newfid q <> 0 -> is_Some (fids (sf s) !! rq_newfid q) ->
  (fid <> newfid -> droppable (sf s) (rq_newfid q)) -> runs (walkandclone (R := R) r ws (oldwalk1 walk1) (oldclone srv)) P r s.
Proof.
intros Hok Hw1 S Hi Ho Hlen Hx Hxo Hy Hyo Hd. pose proof S as (_ & Hr & _). set (D := fid <> newfid).
assert (Herr : forall s' e o, serving s' P r (set_rq_ofcall o q) -> o_nwqid o <= MAXWELEM -> (D -> droppable (sf s') (rq_newfid q)) ->
  zlen e <= ERRMAX -> runs (respond_ (R := R) r (Some e)) P r s').
{ intros s' e o S' Hn Hd' He. apply (runs_error s' P r _ e S'); [|done]. unfold may_error. cbn. rewrite Hi. split; [done|].
  intros Hne _. by apply Hd'. }
assert (Eq : set_rq_ofcall empty_ofcall q = q) by (rewrite <- Ho; by destruct q).
assert (S0 : serving s P r (set_rq_ofcall empty_ofcall q)) by (by rewrite Eq).
unfold walkandclone. apply (runs_go _ _ P r s q (rget_go r s q Hr)). cbv zeta.
case_decide; [by apply (Herr s _ empty_ofcall)|].
assert (Hrest : forall s1, serving s1 P r (set_rq_ofcall empty_ofcall q) -> is_Some (fids (sf s1) !! rq_newfid q) ->
  (D -> droppable (sf s1) (rq_newfid q)) ->
  runs (z <- walk1_names (R := R) (oldwalk1 walk1) r (rq_newfid q) ws 0;;
        let '(e, i) := z in
        oset r (set_o_nwqid i);;
        if decide (e <> None /\ i = 0) then respond_ r e else respond_ r None) P r s1).
{ intros s1 S1 Hy1 Hd1. apply (walk1_names_ok D walk1 P r _ q _ ws Hok Hw1 s1 empty_ofcall 0 S1 Hy1 Hd1).
  intros e j o s2 S2 Hd2 Hl Hj He. cbn in Hl.
  apply (oset_step _ s2 P r _ _ S2). intros s3 S3 Ef3 _. rewrite <- Ef3 in Hd2.
  case_decide as Hc.
  - destruct e as [e|]; [|by destruct Hc]. apply (Herr s3 e _ S3); [cbn; lia|done|by apply He].
  - apply (runs_respond s3 P r _ _ S3). split; [done|]. cbn. rewrite Hi. split; [lia|]. split; [intros _ Hne _; by apply Hd2|].
    intros _ _. split; [done|]. split; [done|]. unfold zlen in *. cbn in *. lia. }
destruct (decide (rq_fid q <> rq_newfid q)) as [Hne|Hne]; [|by apply (runs_go (cret None) _ P r s None eq_refl), Hrest].
destruct Hxo as [fo Hfo].
apply runs_assoc, (runs_go _ _ P r s fo (onfid_xget _ s fo Hfo)).
apply runs_assoc, (qid_step D _ s P r _ _ _ S0 Hyo Hd). intros s1 S1 Hy1 Hd1.
assert (exists e, oldclone srv (rq_fid q) (rq_newfid q) s1 = (Go (R := R) e, s1)) as [e E].
{ unfold oldclone. destruct (srv_clone srv) as [clone|]; by eexists. }
apply (runs_go _ _ P r s1 e E). destruct e as [e|]; [|by apply Hrest].
apply (Herr s1 e _ S1); [by vm_compute|done|].
unfold oldclone in E. destruct (srv_clone srv) as [clone|] eqn:Ec; [|discriminate]. injection E as E.
destruct Hok as [_ Hok]. by apply (Hok clone s1 (rq_fid q) (rq_newfid q) e).
Qed.

(** The fid of the request is its new fid too. *)
Lemma same_step (k : Z -> scmd unit) s P r q x fo : serving s P r q -> rq_newfid q = 0 -> x <> 0 -> fids (sf s) !! x = Some fo ->
  (forall s', serving s' P r (set_rq_newfid x q) -> fids (sf s') = <[x := set_fid_ref (fd_ref fo + 1) fo]> (fids (sf s)) ->
     fs (sf s') = fs (sf s) -> runs (k x) P r s') ->
  runs (y <- (onfid (fid_incref (R := R) x);; rset r (set_rq_newfid x);; cret x);; k y) P r s.
Proof.
intros S Hn Hx Hfo Hk. pose proof S as (((gx & g & K & I) & _) & _ & _ & Hp & _).
assert (Hb : fd_ref fo < 2 ^ 31 - 3) by (by apply (fid_ref_small s P r q gx g K x fo S I)).
pose proof (xi_pos _ _ _ _ _ I x fo Hfo) as Hpos. pose proof (xi_held _ _ _ _ _ I x). pose proof (xi_ref _ _ _ _ _ I x fo Hfo).
set (f1 := set_fids (<[x := set_fid_ref (fd_ref fo + 1) fo]> (fids (sf s))) (sf s)).
assert (E : fid_incref (R := R) x (sf s) = (Go tt, f1)).
{ unfold fid_incref. rewrite (xset_go x _ (sf s) fo Hfo). by rewrite s32_small by lia. }
assert (I1 : fidinv f1 (upd (rheld (reqs s)) x 1) gx g K).
{ eapply (fidinv_refs (sf s) f1 _ _ gx g g K x fo (fd_ref fo + 1)); try done; try apply I; rewrite ?upd_eq; try lia.
  - intros y Hy. by apply upd_ne.
  - intros id Hid. destruct (xi_pool _ _ _ _ _ I id x Hid) as (f' & Hf' & E'). congruence. }
destruct (set_newfid_sets q Hn Hp) as [_ Hh]. destruct (Hh x) as (H1 & H2 & H3).
destruct (fid_step set_rq_newfid k s P r q x f1 gx g K S H1 H2 H3 Hx I1 eq_refl) as (s' & E' & S' & Esf & Em & X & Er & _).
eapply (runs_step _ (k x) P r s s'); [|exact X|apply (Hk s' S'); by rewrite Esf].
rewrite <- E', <- (cbind_go _ (fun _ => rset r (set_rq_newfid x);; k x) _ _ _ (onfid_go _ s _ _ E)).
unfold cbind. destruct (onfid (fid_incref x) s) as [[[]| | |] s1]; try done. by destruct (rset r (set_rq_newfid x) s1) as [[[]| | |] s2].
Qed.

Definition walk_cond (s : srvst) (fid newfid : Z) (ws : list bytes) : Prop :=
  zlen ws <= MAXWELEM /\
  forall x fo, denotes (sf s) fid x fo -> fd_omode fo = -1 ->
    (fid <> newfid -> fd_uid fo <> None) /\
    (fd_file fo <> 0 -> (fid = newfid -> fd_rdir fo = 0) /\ walk_ok (sf s) ws) /\
    (fd_file fo = 0 -> srv_walk1 srv <> None \/ srv_walk srv = true).

Lemma swalk_ok s P r tag fid newfid ws : srv_ok -> serving s P r (req0 tag (MTwalk fid newfid ws)) -> walk_cond s fid newfid ws ->
  runs (swalk srv (R := R) r fid newfid ws) P r s.
Proof.
intros Hok S [Hlen Hc]. unfold swalk. apply (with_fid _ s P r tag _ fid S); [done..|].
intros x fo0 fo s' S' Hx Hd Efo Hfo Eh Em. rewrite decide_False by done. apply (runs_go _ _ P r s' fo (onfid_xget x s' fo Hfo)).
case_decide as Hm; [answers S'|]. case_decide; [answers S'|].
destruct (Hc x fo0 Hd) as (Hu & Hfile & Hnofile); [rewrite Efo in Hm; cbn in Hm; lia|].
assert (Hend : forall s2 y, serving s2 P r (set_rq_newfid y (set_rq_fid x (req0 tag (MTwalk fid newfid ws)))) -> y <> 0 ->
  fs (sf s2) = fs (sf s) -> is_Some (fids (sf s2) !! y) ->
  (exists xo, fids (sf s2) !! x = Some xo /\ fd_file xo = fd_file fo) ->
  (forall yo, fids (sf s2) !! y = Some yo -> fd_file fo <> 0 -> fd_rdir yo = 0 /\ fd_uid yo <> None) -> (fid <> newfid -> droppable (sf s2) y) ->
  runs (if decide (fd_file fo <> 0) then filewalk (R := R) r ws
    else match srv_walk1 srv with
      | Some walk1 => walkandclone r ws (oldwalk1 walk1) (oldclone srv)
      | None => if srv_walk srv then upcall CWalk r else cabort end) P r s2).
{ intros s2 y S2 Hy Eh2 [yo Hyo] (xo & Hxo & Exo) Hyf Hdr. destruct (decide (fd_file fo <> 0)) as [Hz|Hz].
  - destruct (Hyf yo Hyo Hz) as [Hrd Hyu].
    apply (filewalk_ok s2 P r _ fid newfid ws xo yo S2); try congruence; try done.
    rewrite Efo in Hz. destruct (Hfile Hz) as [_ (H1 & H2 & H3)]. unfold walk_ok, few_refs, all_placed in *. by rewrite Eh2.
  - rewrite Efo in Hz. cbn in Hz. assert (fd_file fo0 = 0) as Hz0 by lia. destruct (srv_walk1 srv) as [walk1|] eqn:Ew.
    + apply (walkandclone_ok s2 P r _ fid newfid ws walk1 Hok Ew S2); try done; by eexists.
    + destruct (Hnofile Hz0) as [?|Hw]; [done|]. rewrite Hw. by apply (runs_upcall _ P r _ _ S2). }
destruct (decide (fid <> newfid)) as [Hne|Hne].
- eapply runs_ext; [apply cbind_ret_assoc|]. apply (alloc_step set_rq_newfid _ s' P r _ newfid S').
  + by apply set_newfid_sets.
  + intros s2 S2. rewrite decide_True by done. answers S2.
  + intros y s2 S2 Hy Hnew Efs Eh2 Hdr _ _. rewrite decide_False by done.
    destruct (fd_uid fo) as [u|] eqn:Eu; [|destruct (Hu Hne); by rewrite Efo in Eu].
    assert (y <> x) as Hyx by congruence.
    apply (xset_step _ s2 P r _ y (new_fid newfid 2) _ S2); try done; [by rewrite Efs, lookup_insert_eq|].
    intros s3 S3 Ef3 _. apply (Hend s3 y S3 Hy).
    * rewrite Ef3. cbn. congruence.
    * rewrite Ef3. cbn. rewrite lookup_insert_eq. by eexists.
    * exists fo. rewrite Ef3. cbn. rewrite lookup_insert_ne by congruence. by rewrite Efs, lookup_insert_ne by congruence.
    * intros yo. rewrite Ef3. cbn. rewrite lookup_insert_eq. by intros [= <-] _.
    * intros _. rewrite Ef3. apply (droppable_set (sf s2) y y (new_fid newfid 2)); try done. by rewrite Efs, lookup_insert_eq.
- apply (same_step _ s' P r _ x fo S'); try done. intros s2 S2 Efs Eh2. rewrite decide_False by done.
  apply (runs_go (cret tt) _ P r s2 tt eq_refl). set (fo2 := set_fid_ref _ fo) in Efs.
  assert (Hfo2 : fids (sf s2) !! x = Some fo2) by (by rewrite Efs, lookup_insert_eq).
  apply (Hend s2 x S2 Hx).
  + congruence.
  + by exists fo2.
  + by exists fo2.
  + intros yo Hyo Hz. rewrite Hfo2 in Hyo. injection Hyo as <-. split; [|by apply (uid_at s2 P r _ x fo2 S2)].
    unfold fo2. rewrite Efo in Hz |- *. destruct (Hfile Hz) as [Hrd _]. apply Hrd. destruct (decide (fid = newfid)); [done|]. by destruct Hne.
  + done.
Qed.
End Walk.
