(* ===== verification/DispatchSpec.v ===== *)
(** The body of the loop of [srv] and the answers of the server: [getreq], the
    dispatch to the handlers, and what they keep. *)

From stdpp Require Import strings.
From S2P Require Import Prelude Mem Links Counts Fcall9P Fcall9PSpec Dir9P Dir9PSpec Intmap IntmapSpec Files FilesSpec FilesOps FilesThms Srv FidSpec ReqSpec RespondSpec ServeSpec HandlerSpec WalkSpec.

(** ** getreq *)

(** The tag of a request that is not answered. *)
Definition in_use (s : srvst) (tag : Z) : Prop :=
  exists r q, reqs s !! r = Some q /\ rq_pool q = true /\ rq_responded q = false /\ rq_tag q = tag.

Lemma in_use_pool s rx t P tag : rinv s rx t P -> in_use s tag <-> is_Some (t !! tag).
Proof.
intros I. split.
- intros (r & q & Hr & Hp & Hu & <-). exists r. by apply (si_unres _ _ _ _ I).
- intros [r Hr]. destruct (si_pool _ _ _ _ I tag r Hr) as (q & Hq & Ht & Hp & Hu). by exists r, q.
Qed.

(** The request of a message whose tag is in use; it is in no pool. *)
Definition fake_req (tag : Z) (g : msg) : Req :=
  MkReq tag g empty_ofcall empty_dir None 0 0 0 0 1 false false (Some Eduptag) [] false.

(** A request that is due comes. *)
Lemma due_new s s' r q : reqs s !! r = None -> reqs s' = <[r := q]> (reqs s) -> rq_responded q = false -> out s' = out s ->
  forall tau, due s' tau = due s tau + b2z (rq_tag q = tau).
Proof.
intros Hr Er Hu Eo tau. unfold due, answered, waiting. rewrite Eo, Er, cnt_insert_new by done.
rewrite Hu. unfold b2z. repeat case_decide; tauto || lia.
Qed.

Section Getreq.
Context {R : Type}.

Lemma allocreq_run s t P tag : rinv s idle t P -> let r := rbrk s in
  reqs s !! r = None /\ exists m',
  allocreq (R := R) tag s =
    (if bool_decide (t !! tag = None) then cret r else closereq_ r;; closereq_ r;; cret 0)
      (set_rpool m' (set_reqs (<[r := req0 tag MRflush]> (reqs s)) (set_rbrk (r + 1) s))) /\
  imap_rep m' (match t !! tag with Some _ => t | None => <[tag := r]> t end) /\ inc m' = increqref.
Proof.
intros I r. assert (Hnew : reqs s !! r = None).
{ destruct (reqs s !! r) as [q|] eqn:E; [|done]. pose proof (si_reqs _ _ _ _ I r q E). unfold r in *. lia. }
split; [done|]. unfold allocreq. unfold cbind at 1, cgets at 1. unfold cbind at 1, cmodify at 1. unfold cbind at 1, cmodify at 1.
fold r. set (q := MkReq tag MRflush _ _ _ _ _ _ _ _ _ _ _ _ _). set (s1 := set_reqs _ _).
assert (H1 : reqs s1 !! r = Some q) by (cbn; by rewrite lookup_insert_eq). unfold req_incref.
rewrite (cbind_go _ _ _ _ _ (rset_go r _ s1 q H1)). set (s2 := set_reqs _ s1).
assert (H2 : reqs s2 !! r = Some (set_rq_ref 1 q)) by (cbn; by rewrite lookup_insert_eq).
rewrite (cbind_go _ _ _ _ _ (rset_go r _ s2 _ H2)). set (s3 := set_reqs _ s2).
assert (E3 : s3 = set_reqs (<[r := req0 tag MRflush]> (reqs s)) (set_rbrk (r + 1) s)).
{ unfold s3, s2, s1, set_reqs, set_rbrk. cbn. by rewrite !insert_insert_eq. }
rewrite E3. unfold cbind at 1, cgets at 1. cbn [rpool set_reqs set_rbrk].
destruct (caninsertkey_spec (rpool s) t tag r (si_map _ _ _ _ I)) as (m' & E & Hm & Hi). rewrite E.
rewrite (si_inc _ _ _ _ I) in Hi. exists m'. split; [done|]. split; done.
Qed.

(** Closing a request that holds nothing. *)
Lemma close_new s r q : fok (sf s) (rheld (reqs s)) -> reqs s !! r = Some q -> 0 < r -> 0 < rq_ref q < 2 ^ 31 ->
  rq_pool q = true -> rq_statfree q = false -> rq_oldreq q = 0 -> rq_flush q = [] -> (forall x, hold q x = 0) ->
  exists f' d', closereq_ (R := R) r s = (Go tt, set_dreqs d' (set_reqs
      (if decide (rq_ref q = 1) then delete r (reqs s) else <[r := set_rq_ref (rq_ref q - 1) q]> (reqs s)) (set_sf f' s))) /\
    fok f' (rheld (reqs s)) /\ trees (fs f') = trees (fs (sf s)).
Proof.
intros F Hr Hr0 Hpos Hp Hsf Hz Hfl Hh. unfold closereq_, rfuel. unfold cbind, cgets.
replace (2 * size (reqs s) + 4)%nat with (S (2 * size (reqs s) + 3)) by lia.
destruct (closereq_run (R := R) (2 * size (reqs s) + 3) s (rheld (reqs s)) r q F Hr) as (f' & d' & E & F' & T'); try done; [lia|intros _ x; by apply (rheld_hold _ r)|].
exists f', d'. split; [exact E|]. split; [|done]. eapply fok_ext; [exact F'|]. intros x. cbv beta. case_decide; [|done].
cbv beta. rewrite Hh. lia.
Qed.

(** What [getreq] does to the rest. *)
Definition comes (s s' : srvst) (r tag : Z) : Prop :=
  calls s' = calls s /\ trees (fs (sf s')) = trees (fs (sf s)) /\
  (forall y q, reqs s !! y = Some q -> reqs s' !! y = Some q) /\
  (forall tau, due s' tau = due s tau + b2z (tag = tau)) /\ out s' = out s.

Lemma new_not_in s rx t P r : rinv s rx t P -> reqs s !! r = None -> r ∉ P.
Proof. intros I Hr HP. destruct (si_P _ _ _ _ I r HP) as (q & Hq & _). congruence. Qed.

Lemma comes_insert s s' r tag q : reqs s !! r = None -> reqs s' = <[r := q]> (reqs s) -> rq_tag q = tag -> rq_responded q = false ->
  out s' = out s -> calls s' = calls s -> trees (fs (sf s')) = trees (fs (sf s)) -> comes s s' r tag.
Proof.
intros Hnew Er Et Hu Eo Ec Etr. split; [done|]. split; [done|]. split; [|split; [|done]].
- intros y y0 Hy. rewrite Er, lookup_insert_ne; [done|]. congruence.
- intros tau. rewrite (due_new s s' r q Hnew Er Hu Eo). by rewrite Et.
Qed.

Lemma getreq_new s P tag g : good s idle P -> ~ in_use s tag -> Z.of_nat (size (reqs s)) < 2 ^ 28 -> let r := rbrk s in
  exists s', getreq (R := R) tag g s = (Go (r, false), s') /\ serving s' P r (req0 tag g) /\ comes s s' r tag /\
    sf s' = sf s /\ msize s' = msize s /\ rbrk s' = r + 1.
Proof.
intros (F & (t & I) & M) Hn Hsz r. destruct (allocreq_run s t P tag I) as (Hnew & m' & E & Hm & Hi). fold r in Hnew, E, Hm.
assert (Et : t !! tag = None).
{ destruct (t !! tag) eqn:Et; [|done]. destruct Hn. apply (in_use_pool s idle t P tag I). rewrite Et. by eexists. }
rewrite Et in Hm. rewrite bool_decide_eq_true_2 in E by done.
set (s1 := set_rpool m' _) in E. assert (Hr1 : reqs s1 !! r = Some (req0 tag MRflush)) by (cbn; by rewrite lookup_insert_eq).
set (s2 := set_reqs (<[r := req0 tag g]> (reqs s)) s1).
pose proof (si_brk _ _ _ _ I) as Hbrk.
assert (Er2 : reqs s2 = <[r := req0 tag g]> (reqs s)) by done.
exists s2. split; [|split; [|split; [by apply (comes_insert s s2 r tag (req0 tag g))|done]]].
- unfold getreq. unfold cbind at 1. rewrite E. unfold cret at 1. rewrite decide_False by (unfold r; lia).
  rewrite (cbind_go _ _ _ _ _ (rset_go r _ s1 _ Hr1)). unfold cret. f_equal. unfold s2, s1, set_reqs, set_rpool. cbn. by rewrite insert_insert_eq.
- split; [|split; [by rewrite Er2, lookup_insert_eq|split; [by apply (new_not_in s idle t P r I)|split; [done|rewrite Er2, map_size_insert_None by done; lia]]]].
  split; [|split; [|done]].
  + eapply fok_ext; [exact F|]. intros x. rewrite Er2, rheld_new by done. unfold hold, hold3, b2z. cbn. repeat case_decide; lia.
  + exists (<[tag := r]> t). apply (rinv_new s s2 idle t _ P r (req0 tag g) I Hnew); try done; [cbn; lia|cbn; lia|by left].
Qed.

Lemma getreq_dup s P tag g : good s idle P -> in_use s tag -> ~ is_flush g -> let r := rbrk s + 1 in
  exists s', getreq (R := R) tag g s = (Go (r, true), s') /\ good s' idle ({[r]} ∪ P) /\ (r ∉ P) /\
    reqs s' !! r = Some (fake_req tag g) /\ comes s s' r tag.
Proof.
intros (F & (t & I) & M) Hn Hg rr. destruct (allocreq_run s t P tag I) as (Hnew & m' & E & Hm & Hi). set (r := rbrk s) in *.
apply (in_use_pool s idle t P tag I) in Hn as [r0 Et]. rewrite Et in Hm. rewrite bool_decide_eq_false_2 in E by (by rewrite Et).
pose proof (si_brk _ _ _ _ I) as Hbrk.
set (s1 := set_rpool m' _) in E. set (q0 := req0 tag MRflush) in *.
assert (Hh : forall n x, hold (set_rq_ref n q0) x = 0) by (intros n x; unfold hold, hold3, b2z; cbn; repeat case_decide; lia).
assert (Hr1 : reqs s1 !! r = Some q0) by (cbn; by rewrite lookup_insert_eq).
assert (Hrh : forall q, (forall x, hold q x = 0) -> forall x, rheld (<[r := q]> (reqs s)) x = rheld (reqs s) x).
{ intros q Hq x. rewrite rheld_new by done. rewrite Hq. lia. }
destruct (close_new s1 r q0) as (f1 & d1 & E1 & F1 & T1); try done; [|intros x; exact (Hh 2 x)|].
{ eapply fok_ext; [exact F|]. intros x. apply Hrh. intros y. exact (Hh 2 y). }
rewrite decide_False in E1 by done. set (s2 := set_dreqs _ _) in E1. set (q1 := set_rq_ref (rq_ref q0 - 1) q0) in *.
assert (Er2 : reqs s2 = <[r := q1]> (reqs s)) by (cbn; by rewrite insert_insert_eq).
destruct (close_new s2 r q1) as (f2 & d2 & E2 & F2 & T2); try done; [|by rewrite Er2, lookup_insert_eq|intros x; apply Hh|].
{ eapply fok_ext; [exact F1|]. intros x. rewrite Er2. etransitivity; [apply (Hrh q1); intros y; apply Hh|symmetry; apply (Hrh q0); intros y; exact (Hh 2 y)]. }
rewrite decide_True in E2 by done. set (s3 := set_dreqs _ _) in E2.
assert (Er3 : reqs s3 = reqs s) by (cbn [reqs s3 set_dreqs set_reqs]; rewrite Er2, delete_insert_eq; by apply delete_id).
assert (Hnew' : reqs s !! (r + 1) = None).
{ destruct (reqs s !! (r + 1)) as [q|] eqn:Eq; [|done]. pose proof (si_reqs _ _ _ _ I _ q Eq). unfold r in *. lia. }
set (s4 := set_reqs (<[r + 1 := fake_req tag g]> (reqs s)) (set_rbrk (r + 2) s3)).
assert (Er4 : reqs s4 = <[r + 1 := fake_req tag g]> (reqs s)) by done.
exists s4. split; [|split; [|split; [by apply (new_not_in s idle t P _ I)|split; [by rewrite Er4, lookup_insert_eq|]]]].
- unfold getreq. unfold cbind at 1. rewrite E. rewrite (cbind_go _ _ _ _ _ E1), (cbind_go _ _ _ _ _ E2).
  unfold cret at 1. rewrite decide_True by done. unfold cbind, cgets, cmodify, cret. unfold s4. rewrite <- Er3.
  change (rbrk s3) with (r + 1). do 2 f_equal. f_equal. lia.
- split; [|split; [|done]].
  + change (sf s4) with f2. eapply fok_ext; [exact F2|]. intros x. rewrite Er4, Er2, rheld_new by done. symmetry. rewrite (Hrh q1) by (intros y; apply Hh).
    unfold hold, hold3, b2z. cbn. repeat case_decide; lia.
  + exists t. apply (rinv_new s s4 idle t t P (r + 1) (fake_req tag g) I Hnew'); try done; [unfold r in *; cbn; lia|cbn; unfold r; lia|by right].
- apply (comes_insert s s4 (r + 1) tag (fake_req tag g) Hnew'); try done. cbn in *. congruence.
Qed.
End Getreq.

(** ** What is kept between events *)

(** The requests that the server has. *)
Definition held_by_server (s : srvst) : gset Z := list_to_set (calls s).*2.

Record srv_inv (srv : Srv) (s : srvst) : Prop := {
  sv_good : good s idle (held_by_server s);
  sv_once : NoDup (calls s).*2;
  sv_calls r q : r ∈ (calls s).*2 -> reqs s !! r = Some q -> call_ok q;
  sv_tree : srv_tree srv <> 0 -> is_Some (trees (fs (sf s)) !! srv_tree srv)
}.

(** A message that the library can serve. *)
Definition may_serve (srv : Srv) (s : srvst) (tag : Z) (g : msg) : Prop :=
  Z.of_nat (size (reqs s)) < 2 ^ 28 /\
  match g with
  | MTversion ms v => ~ in_use s tag /\ take 2 v = [57; 80] /\ MINMSIZE <= ms < 2 ^ 32
  | MTflush oldtag => ~ in_use s tag /\ oldtag <> tag
  | MTauth _ _ _ | MTcreate _ _ _ _ | MTwrite _ _ _ | MTclunk _ | MTwstat _ _ => True
  | MTattach _ _ _ _ => few_refs (sf s)
  | MTwalk fid newfid wname => walk_cond srv s fid newfid wname
  | MTopen fid mode => forall x fo, denotes (sf s) fid x fo -> fd_omode fo = -1 -> fd_rdir fo = 0 /\
      (Z.land mode ORCLOSE <> 0 -> fd_file fo <> 0 -> has_parent (sf s) fo)
  | MTread fid _ count => 0 <= count /\ forall x fo, denotes (sf s) fid x fo ->
      Z.land (q_type (fd_qid fo)) QTDIR <> 0 -> fd_file fo <> 0 -> fd_rdir fo <> 0
  | MTremove fid => forall x fo, denotes (sf s) fid x fo -> fd_rdir fo = 0 /\ (fd_file fo <> 0 -> has_parent (sf s) fo)
  | MTstat fid => forall x fo p, srv_stat srv = false -> denotes (sf s) fid x fo ->
      files (fs (sf s)) !! fd_file fo = Some p -> dir_size (f_dir p) <= msize s - 9 /\ dir_size (f_dir p) < 2 ^ 16
  | _ => False
  end.

Lemma core_call_ok q q' : core q' = core q -> call_ok q -> call_ok q'.
Proof.
unfold core, call_ok. intros E. assert (rq_ifcall q' = rq_ifcall q) as -> by congruence.
assert (rq_fid q' = rq_fid q) as -> by congruence. by assert (rq_newfid q' = rq_newfid q) as -> by congruence.
Qed.

Section Dispatch.
Context {R : Type}.
Variable srv : Srv.
Variables (argv0 : bytes) (nullstring : Z).

(** The handler of each message. *)
Definition dispatch (r : Z) (g : msg) : cmd srvst R unit :=
  match g with
  | MTversion ms v => sversion r ms v
  | MTauth afid _ _ => sauth srv argv0 r afid
  | MTattach fid afid uname _ => sattach srv r fid afid uname
  | MTflush oldtag => sflush srv r oldtag
  | MTwalk fid newfid wname => swalk srv r fid newfid wname
  | MTopen fid mode => sopen srv r fid mode
  | MTcreate fid _ _ _ => screate srv r fid
  | MTread fid offset count => sread srv r fid offset count
  | MTwrite fid offset data => swrite srv r fid offset data
  | MTclunk fid => sclunk r fid
  | MTremove fid => sremove srv r fid
  | MTstat fid => sstat srv r fid
  | MTwstat fid stat => swstat srv nullstring r fid stat
  | _ => respond_ r (Some (bytes_of "unknown message"))
  end.

Lemma dispatch_ok s s1 P tag g : srv_ok srv -> may_serve srv s tag g -> (srv_tree srv <> 0 -> is_Some (trees (fs (sf s)) !! srv_tree srv)) ->
  serving s1 P (rbrk s) (req0 tag g) -> sf s1 = sf s -> msize s1 = msize s -> rbrk s1 = rbrk s + 1 ->
  runs (dispatch (rbrk s) g) P (rbrk s) s1.
Proof.
intros Hok [_ Hm] Ht S Ef Em Eb. set (r := rbrk s) in *.
destruct g as [ms v|old|afid u n|fid afid u n|fid newfid ws|fid mode|fid n pm md|fid off cnt|fid off data|fid|fid|fid|fid st| | | | | | | | | | | | | | ];
  try done; cbn [dispatch].
- destruct Hm as (_ & Hv & Hms). by apply (sversion_ok s1 P r tag ms v S).
- destruct Hm as [_ Hne]. by apply (sflush_ok srv s1 P r tag old S).
- by apply (sauth_ok srv argv0 s1 P r tag afid u n S).
- apply (sattach_ok srv s1 P r tag fid afid u n S); by rewrite Ef.
- apply (swalk_ok srv s1 P r tag fid newfid ws Hok S). unfold walk_cond in *. by rewrite Ef.
- apply (sopen_ok srv s1 P r tag fid mode S). by rewrite Ef.
- by apply (screate_ok srv s1 P r tag fid n pm md S).
- destruct Hm as [Hc Hd]. apply (sread_ok srv s1 P r tag fid off cnt S); [done|]. by rewrite Ef.
- by apply (swrite_ok srv s1 P r tag fid off data S).
- by apply (sclunk_ok s1 P r tag fid S).
- apply (sremove_ok srv s1 P r tag fid S). by rewrite Ef.
- apply (sstat_ok srv s1 P r tag fid S). rewrite Ef, Em. done.
- by apply (swstat_ok srv nullstring s1 P r tag fid st S).
Qed.
End Dispatch.

(** The requests of the server but [r] are as they were. *)
Lemma calls_kept srv s s1 s' r tag : srv_inv srv s -> comes s s1 r tag -> (r ∉ held_by_server s) ->
  effect ({[r]} ∪ held_by_server s) idle [r] s1 s' ->
  forall y q, y ∈ (calls s).*2 -> reqs s' !! y = Some q -> call_ok q.
Proof.
intros V (Ec & Et & Hc & _) Hr ((Ec' & _ & F) & _) y q Hy Hq.
assert (HyP : y ∈ held_by_server s) by (by apply elem_of_list_to_set).
destruct (sv_good _ _ V) as (_ & (t & I) & _). destruct (si_P _ _ _ _ I y HyP) as (q0 & Hq0 & _).
destruct (F y q0 (Hc y q0 Hq0)) as (q1 & Hq1 & C & _); [by rewrite list_elem_of_singleton; intros ->|left; by apply elem_of_union_r|].
rewrite Hq in Hq1. injection Hq1 as <-. apply (core_call_ok q0 q C). by apply (sv_calls _ _ V y).
Qed.

Lemma handled_inv srv s s1 s' r tag : srv_inv srv s -> comes s s1 r tag -> (r ∉ held_by_server s) ->
  handled (held_by_server s) r s1 s' -> srv_inv srv s' /\ forall tau, due s' tau = due s tau + b2z (tag = tau).
Proof.
intros V Hcm Hr H. pose proof Hcm as (Ec & Et & Hc & D & _). destruct H as [[G X]|(G & c & s2 & q & Es & X & Hq & Hok)].
- pose proof (calls_kept srv s s1 s' r tag V Hcm Hr X) as Hk. destruct X as ((Ec' & Et' & _) & D' & _).
  assert (E : calls s' = calls s) by congruence. split; [|intros tau; by rewrite D', D].
  constructor; unfold held_by_server; rewrite ?E; try apply V; [done|exact Hk|]. rewrite Et', Et. apply V.
- pose proof (calls_kept srv s s1 s2 r tag V Hcm Hr X) as Hk. destruct X as ((Ec' & Et' & _) & D' & _).
  assert (E : calls s' = calls s ++ [(c, r)]) by (rewrite Es; cbn; congruence).
  assert (E2 : (calls s').*2 = (calls s).*2 ++ [r]) by (by rewrite E, fmap_app).
  assert (Er : reqs s' = reqs s2) by (by rewrite Es). split; [|intros tau; rewrite <- D, <- D'; by rewrite Es].
  constructor; unfold held_by_server; rewrite ?E2.
  + assert (list_to_set ((calls s).*2 ++ [r]) = {[r]} ∪ held_by_server s) as ->; [|done].
    unfold held_by_server. rewrite list_to_set_app_L. cbn. rewrite (union_empty_r_L {[r]}). by rewrite (union_comm_L (list_to_set _)).
  + apply list.NoDup_app. split; [apply V|]. split; [|apply NoDup_singleton]. intros y Hy ->%list_elem_of_singleton.
    apply Hr. by apply elem_of_list_to_set.
  + intros y qy [Hy|Hy]%elem_of_app Hqy.
    * rewrite Er in Hqy. by apply (Hk y).
    * apply list_elem_of_singleton in Hy as ->. rewrite Hq in Hqy. by injection Hqy as <-.
  + rewrite Es. cbn. rewrite Et', Et. apply V.
Qed.

Section Events.
Context {R : Type}.
Variable srv : Srv.
Variables (argv0 : bytes) (nullstring : Z).

Lemma serve_run tag g s : serve (R := R) srv argv0 nullstring tag g s =
  (x <- getreq tag g;; let '(r, dup) := x in if dup : bool then respond_ r (Some Eduptag) else dispatch srv argv0 nullstring r g) s.
Proof. done. Qed.

Lemma may_serve_T s tag g : may_serve srv s tag g -> is_T g = true.
Proof. intros [_ H]. by destruct g. Qed.

Lemma fake_may_answer f ms s tag g : may_serve srv s tag g -> in_use s tag -> may_answer f ms (fake_req tag g) (Some Eduptag).
Proof.
intros H Hu. split; [intros e [= <-]; by vm_compute|]. pose proof (may_serve_T s tag g H) as Ht. destruct H as [_ H].
destruct g; try done; cbn; try (by intros _); try (by destruct H).
Qed.

Lemma serve_ok s tag g : srv_ok srv -> srv_inv srv s -> may_serve srv s tag g ->
  exists s', serve (R := R) srv argv0 nullstring tag g s = (Go tt, s') /\ srv_inv srv s' /\
    forall tau, due s' tau = due s tau + b2z (tag = tau).
Proof.
intros Hok V Hm. set (P := held_by_server s). pose proof (sv_good _ _ V) as G. rewrite serve_run.
assert (in_use s tag \/ ~ in_use s tag) as [Hu|Hu].
{ destruct G as (_ & (t & I) & _). rewrite (in_use_pool s idle t P tag I). destruct (t !! tag); [left; by eexists|right; by intros [? ?]]. }
- destruct (getreq_dup (R := R) s P tag g G Hu) as (s1 & E & G1 & HP & Hr & Hc).
  { intros [ot ->]. by destruct Hm as (_ & ? & _). }
  set (r := rbrk s + 1) in *. rewrite (cbind_go _ _ _ _ _ E).
  destruct (respond_spec (R := R) (2 * size (reqs s1) + 4) s1 idle _ r _ (Some Eduptag) G1 Hr) as (s' & E' & G' & X); [set_solver| | |].
  + by apply (fake_may_answer _ _ s).
  + pose proof (unanswered_le s1). lia.
  + exists s'. split; [exact E'|]. apply (handled_inv srv s s1 s' r tag V Hc HP). left. split; [|done]. by rewrite add_remove in G'.
- destruct (getreq_new (R := R) s P tag g G Hu) as (s1 & E & S & Hc & Ef & Em & Eb); [apply Hm|]. rewrite (cbind_go _ _ _ _ _ E).
  destruct (dispatch_ok (R := R) srv argv0 nullstring s s1 P tag g Hok Hm (sv_tree _ _ V) S Ef Em Eb) as (s' & E' & H).
  exists s'. split; [exact E'|]. apply (handled_inv srv s s1 s' _ tag V Hc); [apply S|done].
Qed.

(** What the server may answer. *)
Definition may_respond (f : fidst) (ms : Z) (q : Req) (error : option bytes) : Prop :=
  (forall e, error = Some e -> zlen e <= ERRMAX) /\
  match rq_ifcall q with
  | MTauth _ _ _ => error <> None -> rq_afid q <> 0 -> droppable f (rq_afid q)
  | MTattach _ _ _ _ => error <> None -> rq_fid q <> 0 -> droppable f (rq_fid q)
  | MTflush _ => error = None
  | MTwalk fid newfid wname =>
      let n := o_nwqid (rq_ofcall q) in
      0 <= n <= MAXWELEM /\ n <= zlen (o_wqid (rq_ofcall q)) /\
      (error <> None \/ n < zlen wname -> fid <> newfid -> droppable f (rq_newfid q))
  | MTread _ _ _ => error = None -> o_count (rq_ofcall q) <= ms - 11
  | MTremove _ => error = None -> no_reader f (rq_fid q) /\ name_stays f (rq_fid q)
  | MTstat _ => error = None -> dir_size (rq_d q) <= ms - 9 /\ dir_size (rq_d q) < 2 ^ 16
  | _ => True
  end.

Lemma may_respond_answer f ms q e : call_ok q -> may_respond f ms q e -> may_answer f ms q e.
Proof.
intros Hc [He H]. split; [done|]. unfold call_ok in Hc. destruct (rq_ifcall q); try done; try (by destruct Hc).
- destruct H as (Hn & Hl & Hd). split; [lia|]. split; [auto|]. intros _ _. destruct Hc. split_and!; try done; lia.
- intros Hn. auto.
- intros Hn. auto.
Qed.

Definition may_call (s : srvst) (r : Z) (o : Ofcall -> Ofcall) (d : dirv -> dirv) (error : option bytes) : Prop :=
  (r ∈ (calls s).*2) /\ Z.of_nat (size (reqs s)) < 2 ^ 28 /\
  forall q, reqs s !! r = Some q -> may_respond (sf s) (msize s) (set_rq_d (d (rq_d q)) (set_rq_ofcall (o (rq_ofcall q)) q)) error.

Lemma filter_snd {A} (l : list (A * Z)) r : (filter (fun c => c.2 <> r) l).*2 = filter (fun y => y <> r) l.*2.
Proof.
induction l as [|[a y] l IH]; [done|]. rewrite fmap_cons, !filter_cons. cbn [snd].
destruct (decide (y <> r)); [by rewrite fmap_cons, IH|done].
Qed.

Lemma set_without (l : list Z) r : list_to_set (C := gset Z) (filter (fun y => y <> r) l) = list_to_set l ∖ {[r]}.
Proof.
apply leibniz_equiv. intros y. rewrite elem_of_difference, elem_of_singleton, !elem_of_list_to_set, list_elem_of_filter. tauto.
Qed.

Lemma answer_ok s r o d e : srv_inv srv s -> may_call s r o d e ->
  exists s', answer (R := R) r o d e s = (Go tt, s') /\ srv_inv srv s' /\ (forall tau, due s' tau = due s tau) /\
    (calls s').*2 = filter (fun y => y <> r) (calls s).*2.
Proof.
intros V (Hin & Hsz & Hm). set (P := held_by_server s). pose proof (sv_good _ _ V) as G. fold P in G.
assert (HrP : r ∈ P) by (by apply elem_of_list_to_set).
pose proof G as (F & (t & I) & M). destruct (si_P _ _ _ _ I r HrP) as (q & Hr & Hu).
pose proof (sv_calls _ _ V r q Hin Hr) as Hc. set (q1 := set_rq_ofcall (o (rq_ofcall q)) q). set (q2 := set_rq_d (d (rq_d q1)) q1).
set (s1 := set_calls (filter (fun c => c.2 <> r) (calls s)) s). set (s2 := set_reqs (<[r := q2]> (reqs s)) s1).
assert (Hq2 : same_req q q2) by (split_and!; try done; intros Hp; by destruct (si_fake _ _ _ _ I r q Hr Hp) as (? & ? & ? & _)).
assert (G2 : good s2 idle P).
{ apply (good_upd s s2 idle P r q q2 G Hr Hq2); try done. eapply fok_rheld; [exact F|]. intros x. by apply (rheld_same _ _ q). }
assert (Hr2 : reqs s2 !! r = Some q2) by (cbn; by rewrite lookup_insert_eq).
destruct (due_set s r q q2 Hr eq_refl eq_refl s2 eq_refl eq_refl) as [D _].
destruct (respond_spec (R := R) (2 * size (reqs s2) + 4) s2 idle P r q2 e G2 Hr2 HrP) as (s' & E' & G' & X).
{ apply may_respond_answer; [exact Hc|]. exact (Hm q Hr). }
{ pose proof (unanswered_le s2). lia. }
pose proof X as ((Ec & Et & Fr) & D' & _).
assert (Ecs : (calls s').*2 = filter (fun y => y <> r) (calls s).*2) by (rewrite Ec; apply filter_snd).
exists s'. split; [|split; [|split; [intros tau; by rewrite D', D|done]]].
- unfold answer. unfold cbind at 1, cget at 1. rewrite decide_True by done. unfold cbind at 1, cmodify at 1. fold s1.
  assert (H1 : reqs s1 !! r = Some q) by done. unfold oset. rewrite (cbind_go _ _ _ _ _ (rset_go r _ s1 q H1)).
  set (s3 := set_reqs _ s1). assert (H3 : reqs s3 !! r = Some q1) by (cbn; by rewrite lookup_insert_eq).
  rewrite (cbind_go _ _ _ _ _ (rset_go r _ s3 q1 H3)). rewrite <- E'.
  assert (set_reqs (<[r := set_rq_d (d (rq_d q1)) q1]> (reqs s3)) s3 = s2) as ->; [|done].
  unfold s3, s2, set_reqs. cbn. by rewrite insert_insert_eq.
- constructor; unfold held_by_server; rewrite ?Ecs.
  + by rewrite set_without.
  + apply list.NoDup_filter, V.
  + intros y qy [Hyr Hy]%list_elem_of_filter Hqy. assert (HyP : y ∈ P) by (by apply elem_of_list_to_set).
    destruct (si_P _ _ _ _ I y HyP) as (q0 & Hq0 & _).
    destruct (Fr y q0) as (q3 & Hq3 & C & _); [cbn; by rewrite lookup_insert_ne|by rewrite list_elem_of_singleton|by left|].
    rewrite Hqy in Hq3. injection Hq3 as <-. apply (core_call_ok q0 qy C). by apply (sv_calls _ _ V y).
  + rewrite Et. apply V.
Qed.
End Events.
