(* ===== verification/SrvThms.v ===== *)
(** Sessions of the service loop: the messages that it reads and the answers of the
    server, and the sessions in which it stops. *)

From stdpp Require Import strings.
From S2P Require Import Prelude Mem Links Fcall9P Fcall9PSpec Dir9P Dir9PSpec Intmap Files FilesSpec FilesOps FilesThms Srv.

(** A message is read, or the server responds to a request that it has. *)
Inductive event :=
  | EMsg (tag : Z) (g : msg)
  | EAnswer (r : Z) (o : Ofcall -> Ofcall) (d : dirv -> dirv) (error : option bytes).

Section Run.
Variables (srv : Srv) (argv0 : bytes) (nullstring : Z).
Context {R : Type}.

Definition event_run (e : event) : cmd srvst R unit :=
  match e with
  | EMsg tag g => serve srv argv0 nullstring tag g
  | EAnswer r o d error => answer r o d error
  end.

Fixpoint session (l : list event) : cmd srvst R unit :=
  match l with
  | [] => cret tt
  | e :: l' => event_run e;; session l'
  end.
End Run.

(** ** Sessions that stop *)

(** A tree of the user "un" with a file "b" in a directory "a". *)
Definition demo_ops : list fop :=
  [OTree [117; 110] None None 511 0; OIncref 2; OCreate 2 [97] None (Z.lor DMDIR 511) 0 0;
   OCreate 3 [98] None 420 0 0; OClose 3; OClose 4].

Definition demo_tree : fheap := (after demo_ops).1.

(** A server of that tree that answers the calls of the set. *)
Definition demo_srv (flush open read remove : bool) : Srv :=
  MkSrv 1 false false flush open false read false remove false false false None None.

Definition demo (srv : Srv) (l : list event) : ctl unit unit * srvst :=
  session srv (bytes_of "demo") 0 l (srv_start demo_tree).

Definition hello : list event := [EMsg NOTAG (MTversion 8192 (bytes_of "9P2000")); EMsg 1 (MTattach 1 NOFID [117; 110] [])].

(** The session ends in [abort], a failed assertion or the use of memory that is
    not there, after the replies [o]. *)
Definition stops (x : ctl unit unit * srvst) (o : list (Z * msg)) : Prop := x.1 = Abt /\ out x.2 = o.

Definition hello_out : list (Z * msg) :=
  [(NOTAG, MRversion 8192 (bytes_of "9P2000")); (1, MRattach (MkQid 0 0 QTDIR))].

(** Any version that does not start with "9P": the reply has the message size 0, and
    [rversion] makes it the size of the buffers before the reply is written. *)
Theorem unknown_version_aborts : stops (demo (demo_srv false false false false)
  [EMsg NOTAG (MTversion 8192 (bytes_of "X"))]) [].
Proof. split; vm_compute; reflexivity. Qed.

(** A read of a directory that was not opened: the mode -1 passes the test for
    [OEXEC], and there is no reader. *)
Theorem read_of_unopened_directory_aborts : stops (demo (demo_srv false false false false)
  (hello ++ [EMsg 2 (MTread 1 0 100)])) hello_out.
Proof. split; vm_compute; reflexivity. Qed.

(** A flush of its own tag is never answered: its response is delayed until it is
    responded to. *)
Theorem flush_of_itself_is_never_answered :
  let x := demo (demo_srv false false false false) (hello ++ [EMsg 2 (MTflush 2); EMsg 3 (MTclunk 1)]) in
  x.1 = Go tt /\ out x.2 = hello_out ++ [(3, MRclunk)] /\ calls x.2 = [] /\
  (rq_flush <$> reqs x.2 !! 3) = Some [3].
Proof. split_and!; vm_compute; reflexivity. Qed.

(** A file that was removed has no parent, whose permission [sremove] asks for when
    another fid of the file is removed. *)
Theorem second_remove_of_a_file_aborts : exists o, stops (demo (demo_srv false false false false)
  (hello ++ [EMsg 2 (MTwalk 1 2 [[97]; [98]]); EMsg 2 (MTwalk 1 3 [[97]; [98]]); EMsg 2 (MTremove 2); EMsg 2 (MTremove 3)])) o.
Proof. eexists. split; vm_compute; reflexivity. Qed.

(** A reply as a request: [srv] responds "unknown message", and [respond] asserts
    that the type is a request's. *)
Theorem unknown_message_aborts : stops (demo (demo_srv false false false false) [EMsg 1 MRclunk]) [].
Proof. split; vm_compute; reflexivity. Qed.

(** A [Tflush] or [Tversion] with a tag in use gets an error from [getreq], which
    [rflush] and [rversion] assert not to get. *)
Theorem duplicate_tag_of_flush_aborts : stops (demo (demo_srv false true false false)
  (hello ++ [EMsg 2 (MTopen 1 0); EMsg 2 (MTflush 1)])) hello_out.
Proof. split; vm_compute; reflexivity. Qed.

(** A reader of a directory that was removed while it was open uses the list of the
    directory after it was freed. *)
Theorem remove_of_open_directory_aborts : exists o, stops (demo (demo_srv false false false false)
  (hello ++ [EMsg 2 (MTwalk 1 2 [[97]; [98]]); EMsg 2 (MTwalk 1 3 [[97]]); EMsg 2 (MTopen 3 0);
    EMsg 2 (MTremove 2); EMsg 2 (MTremove 3)])) o.
Proof. eexists. split; vm_compute; reflexivity. Qed.

(** A walk of a fid to itself: its old file keeps the reference that the fid had. *)
Theorem walk_in_place_leaks_a_reference :
  let x := demo (demo_srv false false false false) (hello ++ [EMsg 2 (MTwalk 1 1 [[97]]); EMsg 2 (MTclunk 1)]) in
  x.1 = Go tt /\ size (fids (sf x.2)) = 0%nat /\
  f_ref <$> files demo_tree !! 2 = Some 3 /\ f_ref <$> files (fs (sf x.2)) !! 2 = Some 4.
Proof. split_and!; vm_compute; reflexivity. Qed.

(** An entry that does not fit into a message of the size that was agreed on. *)
Theorem stat_larger_than_msize_aborts : stops (demo (demo_srv false false false false)
  [EMsg NOTAG (MTversion 40 (bytes_of "9P2000")); EMsg 1 (MTattach 1 NOFID [117; 110] []); EMsg 2 (MTstat 1)])
  [(NOTAG, MRversion 40 (bytes_of "9P2000")); (1, MRattach (MkQid 0 0 QTDIR))].
Proof. split; vm_compute; reflexivity. Qed.

(** Two fids of a file are removed, and the server answers after both came: the
    second [removefile] refuses, and gives up the last reference to the file, whose
    name [rremove] then prints. *)
Theorem remove_answered_twice_prints_freed_name :
  let x := demo (demo_srv false false false true)
    (hello ++ [EMsg 2 (MTwalk 1 2 [[97]; [98]]); EMsg 2 (MTwalk 1 3 [[97]; [98]]); EMsg 2 (MTremove 2); EMsg 3 (MTremove 3);
      EAnswer 5 (fun o => o) (fun d => d) None; EAnswer 6 (fun o => o) (fun d => d) None]) in
  x.1 = Abt /\ f_free <$> files (fs (sf x.2)) !! 4 = Some true.
Proof. split; vm_compute; reflexivity. Qed.

(** An entry whose size has more than sixteen bits: [rstat] frees the buffer of the
    reply, and [closereq] frees it again. *)
Definition long_tree : fheap := (after [OTree (replicate (Z.to_nat 70000) 117) None None 511 0; OIncref 2]).1.

Theorem stat_of_long_entry_frees_twice : exists o, stops (session (demo_srv false false false false) (bytes_of "demo") 0
  [EMsg NOTAG (MTversion 300000 (bytes_of "9P2000")); EMsg 1 (MTattach 1 NOFID [117; 110] []); EMsg 2 (MTstat 1)] (srv_start long_tree))
  (o ++ [(2, MRerror (bytes_of "convD2M fails"))]).
Proof. eexists [_; _]. split; vm_compute; reflexivity. Qed.
