(* ===== verification/SrvSafe.v ===== *)
(** Sessions in which the client and the server keep to the rules: the library never
    stops, each message is answered once, and nothing is left when the server has
    answered all its requests. *)

From stdpp Require Import strings.
From S2P Require Import Prelude Mem Links Counts Fcall9P Fcall9PSpec Dir9P Dir9PSpec Intmap IntmapSpec Files FilesSpec FilesOps FilesThms Srv FidSpec ReqSpec RespondSpec ServeSpec HandlerSpec WalkSpec DispatchSpec SrvThms.

(** ** Polite sessions *)

Section Polite.
Variables (srv : Srv) (argv0 : bytes) (nullstring : Z).
Context {R : Type}.

Definition may_event (s : srvst) (e : event) : Prop :=
  match e with
  | EMsg tag g => may_serve srv s tag g
  | EAnswer r o d error => may_call s r o d error
  end.

(** Every event may happen when its turn comes. *)
Fixpoint polite (l : list event) (s : srvst) : Prop :=
  match l with
  | [] => True
  | e :: l' => may_event s e /\
      match event_run srv argv0 nullstring (R := R) e s with
      | (Go _, s') => polite l' s'
      | _ => True
      end
  end.

(** The messages with the tag. *)
Fixpoint received (tag : Z) (l : list event) : Z :=
  match l with
  | [] => 0
  | EMsg tag' _ :: l' => b2z (tag' = tag) + received tag l'
  | _ :: l' => received tag l'
  end.

Lemma event_ok s e : srv_ok srv -> srv_inv srv s -> may_event s e ->
  exists s', event_run srv argv0 nullstring (R := R) e s = (Go tt, s') /\ srv_inv srv s' /\
    forall tag, due s' tag = due s tag + received tag [e].
Proof.
intros Hok V Hm. destruct e as [tag g|r o d e]; cbn [may_event event_run received] in *.
- destruct (serve_ok (R := R) srv argv0 nullstring s tag g Hok V Hm) as (s' & E & V' & D). exists s'.
  split; [done|]. split; [done|]. intros tau. rewrite D. lia.
- destruct (answer_ok (R := R) srv s r o d e V Hm) as (s' & E & V' & D & _). exists s'.
  split; [done|]. split; [done|]. intros tau. rewrite D. lia.
Qed.

Lemma received_cons tag e l : received tag (e :: l) = received tag [e] + received tag l.
Proof. destruct e; cbn; lia. Qed.

Lemma session_ok l s : srv_ok srv -> srv_inv srv s -> polite l s ->
  exists s', session srv argv0 nullstring (R := R) l s = (Go tt, s') /\ srv_inv srv s' /\
    forall tag, due s' tag = due s tag + received tag l.
Proof.
intros Hok. revert s. induction l as [|e l IH]; intros s V Hp.
- exists s. split; [done|]. split; [done|]. intros tag. cbn. lia.
- destruct Hp as [Hm Hp]. destruct (event_ok s e Hok V Hm) as (s1 & E & V1 & D1). rewrite E in Hp.
  destruct (IH s1 V1 Hp) as (s2 & E2 & V2 & D2). exists s2. split; [cbn; by rewrite (cbind_go _ _ _ _ _ E)|].
  split; [done|]. intros tag. rewrite D2, D1, (received_cons tag e l). lia.
Qed.
End Polite.

(** ** The start *)

Lemma rheld_empty y : rheld ∅ y = 0.
Proof. unfold rheld. rewrite !cnt_empty. by case_decide. Qed.

Lemma srv_start_inv srv h ext K : fwf h ext K -> (srv_tree srv <> 0 -> is_Some (trees h !! srv_tree srv)) -> srv_inv srv (srv_start h).
Proof.
intros W Ht. assert (Hh := rheld_empty). assert (G : good (srv_start h) idle ∅).
{ split; [|split].
  - exists ext, ∅, K. pose proof W as [If _]. constructor; cbn; try done; try (intros; done).
    + eapply fwf_ext; [exact W|]. intros y. unfold fext. cbn. case_decide as Hy; [|unfold cnt; by rewrite map_filter_empty, map_size_empty].
      subst y. destruct (files h !! 0) as [fo|] eqn:E; [pose proof (fi_files _ _ _ If 0 fo E); lia|].
      symmetry. by apply (fi_none _ _ _ If).
    + apply allocmap_rep.
    + intros y. by rewrite Hh.
    + apply If.
    + intros y. pose proof (fi_nrd _ _ _ If y). pose proof (cnt_nonneg (reading y) (∅ : gmap Z Fid)). lia.
  - exists ∅. constructor; cbn; try done; try (intros; done). apply allocmap_rep.
  - unfold MINMSIZE, srv_start, IOHDRSZ. cbn [msize]. lia. }
constructor; try done. apply base.NoDup_nil_2.
Qed.

(** ** When the server has answered all *)

Lemma no_calls_answered s t r q : rinv s idle t ∅ -> reqs s !! r = Some q -> rq_responded q = true.
Proof.
intros I Hr. pose proof (si_reqs _ _ _ _ I r q Hr) as Hr0.
assert (forall n : nat, forall r q, r < Z.of_nat n -> reqs s !! r = Some q -> rq_responded q = true) as H; [|by apply (H (Z.to_nat (r + 1)) r); [lia|]].
clear r q Hr Hr0. induction n as [|n IH]; intros r q Hn Hr; [pose proof (si_reqs _ _ _ _ I r q Hr); lia|].
destruct (rq_responded q) eqn:Hu; [done|].
destruct (si_owed _ _ _ _ I r q Hr Hu) as [Hin|(ro & Hro & Hru & _)]; [by apply not_elem_of_empty in Hin|].
pose proof (si_reqs _ _ _ _ I _ ro Hro) as Ho. destruct (si_old _ _ _ _ I r q Hr) as (_ & _ & Hlt & _); [lia|].
rewrite (IH (rq_oldreq q) ro) in Hru; [done|lia|done].
Qed.

Lemma no_calls_no_reqs s t : rinv s idle t ∅ -> reqs s = ∅.
Proof.
intros I. apply map_empty. intros r. destruct (reqs s !! r) as [q|] eqn:Hr; [exfalso|done].
pose proof (no_calls_answered s t r q I Hr) as Hu.
assert (Hp : rq_pool q = true).
{ destruct (rq_pool q) eqn:Hp; [done|]. destruct (si_fake _ _ _ _ I r q Hr Hp) as (_ & _ & _ & _ & ? & _). congruence. }
pose proof (si_ref _ _ _ _ I r q Hr Hp) as Href. pose proof (si_pos _ _ _ _ I r q Hr) as Hpos.
rewrite (b2z_false (rq_responded q = false)) in Href by congruence. rewrite b2z_false in Href.
2:{ intros Ht. destruct (si_pool _ _ _ _ I _ r Ht) as (q' & Hq' & _ & _ & Hu'). congruence. }
assert (olds (reqs s) r = 0) as Ho; [|lia]. unfold olds. apply cnt_zero. intros f fo Hfo Hold.
pose proof (si_reqs _ _ _ _ I r q Hr). destruct (si_old _ _ _ _ I f fo Hfo) as [Hfu _]; [lia|].
by rewrite (no_calls_answered s t f fo I Hfo) in Hfu.
Qed.

Lemma idle_waiting srv s tag : srv_inv srv s -> calls s = [] -> due s tag = answered s tag.
Proof.
intros V Ec. destruct (sv_good _ _ V) as (_ & (t & I) & _). unfold held_by_server in I. rewrite Ec in I.
unfold due, waiting. rewrite (no_calls_no_reqs s t I), cnt_empty. lia.
Qed.

Lemma idle_empty srv s : srv_inv srv s -> calls s = [] ->
  reqs s = ∅ /\ forall x fo, fids (sf s) !! x = Some fo -> fd_ref fo = 1 /\ denotes (sf s) (fd_fid fo) x fo.
Proof.
intros V Ec. destruct (sv_good _ _ V) as ((gx & g & K & I) & (t & J) & _). unfold held_by_server in J. rewrite Ec in J.
pose proof (no_calls_no_reqs s t J) as Er. split; [done|]. intros x fo Hfo. rewrite Er in I.
pose proof (xi_ref _ _ _ _ _ I x fo Hfo) as Href. pose proof (xi_pos _ _ _ _ _ I x fo Hfo).
rewrite rheld_empty in Href. destruct (decide (g !! fd_fid fo = Some x)) as [Hg|Hg]; [|rewrite b2z_false in Href by done; lia].
rewrite b2z_true in Href by done. split; [done|]. split; [|done]. rewrite (lookupkey_spec _ g) by apply I. by rewrite Hg.
Qed.

(** ** The rules as a test *)

Definition den (f : fidst) (fid : Z) : option (Z * Fid) :=
  x ← (lookupkey (fpool f) fid (Some (fids f))).1; fo ← fids f !! x; Some (x, fo).

Lemma den_denotes f fid x fo : denotes f fid x fo -> den f fid = Some (x, fo).
Proof. intros [H1 H2]. unfold den. rewrite H1. cbn. by rewrite H2. Qed.

Lemma den_sound f fid x fo : den f fid = Some (x, fo) -> denotes f fid x fo.
Proof.
unfold den. intros H. apply bind_Some in H as (y & Hy & H). apply bind_Some in H as (fo' & Hfo & [= <- <-]). by split.
Qed.

(** The condition on the fid of a message. *)
Definition on_den (f : fidst) (fid : Z) (b : Fid -> bool) : bool :=
  match den f fid with Some (_, fo) => b fo | None => true end.

Lemma on_den_sound f fid b x fo : on_den f fid b = true -> denotes f fid x fo -> b fo = true.
Proof. intros H Hd. unfold on_den in H. by rewrite (den_denotes f fid x fo Hd) in H. Qed.

Definition in_useb (s : srvst) (tag : Z) : bool :=
  bool_decide (map_Exists (fun _ q => rq_pool q = true /\ rq_responded q = false /\ rq_tag q = tag) (reqs s)).

Definition has_parentb (f : fidst) (fo : Fid) : bool :=
  match files (fs f) !! fd_file fo with Some p => bool_decide (f_parent p <> 0) | None => true end.

Definition few_refsb (f : fidst) : bool := bool_decide (map_Forall (fun _ yo => f_ref yo < 2 ^ 31 - 2) (files (fs f))).

Definition walk_okb (f : fidst) (ws : list bytes) : bool :=
  few_refsb f && bool_decide (Forall (fun w => 47 ∉ w) ws) &&
  (bool_decide (dotdot ∉ ws) || bool_decide (map_Forall (fun _ yo => f_ref yo = 0 \/ f_parent yo <> 0) (files (fs f)))).

Definition may_serveb (srv : Srv) (s : srvst) (tag : Z) (g : msg) : bool :=
  bool_decide (Z.of_nat (size (reqs s)) < 2 ^ 28) &&
  match g with
  | MTversion ms v => negb (in_useb s tag) && bool_decide (take 2 v = [57; 80]) && bool_decide (MINMSIZE <= ms < 2 ^ 32)
  | MTflush oldtag => negb (in_useb s tag) && bool_decide (oldtag <> tag)
  | MTauth _ _ _ | MTcreate _ _ _ _ | MTwrite _ _ _ | MTclunk _ | MTwstat _ _ => true
  | MTattach _ _ _ _ => few_refsb (sf s)
  | MTwalk fid newfid ws => bool_decide (zlen ws <= MAXWELEM) && on_den (sf s) fid (fun fo =>
      bool_decide (fd_omode fo <> -1) ||
      (bool_decide (fid = newfid) || bool_decide (is_Some (fd_uid fo))) &&
      (if decide (fd_file fo = 0) then bool_decide (is_Some (srv_walk1 srv)) || srv_walk srv
       else (bool_decide (fid <> newfid) || bool_decide (fd_rdir fo = 0)) && walk_okb (sf s) ws))
  | MTopen fid mode => on_den (sf s) fid (fun fo => bool_decide (fd_omode fo <> -1) ||
      bool_decide (fd_rdir fo = 0) && (bool_decide (Z.land mode ORCLOSE = 0) || bool_decide (fd_file fo = 0) || has_parentb (sf s) fo))
  | MTread fid _ count => bool_decide (0 <= count) && on_den (sf s) fid (fun fo =>
      bool_decide (Z.land (q_type (fd_qid fo)) QTDIR = 0) || bool_decide (fd_file fo = 0) || bool_decide (fd_rdir fo <> 0))
  | MTremove fid => on_den (sf s) fid (fun fo => bool_decide (fd_rdir fo = 0) && (bool_decide (fd_file fo = 0) || has_parentb (sf s) fo))
  | MTstat fid => on_den (sf s) fid (fun fo => srv_stat srv ||
      match files (fs (sf s)) !! fd_file fo with Some p => bool_decide (dir_size (f_dir p) <= msize s - 9 /\ dir_size (f_dir p) < 2 ^ 16) | None => true end)
  | _ => false
  end.

Ltac btrue := repeat match goal with
  | H : _ && _ = true |- _ => apply andb_true_iff in H as [? H]
  | H : _ || _ = true |- _ => apply orb_true_iff in H as [H|H]
  | H : bool_decide _ = true |- _ => apply bool_decide_eq_true in H
  | H : negb _ = true |- _ => apply negb_true_iff in H
  end.

Lemma in_useb_sound s tag : in_useb s tag = false -> ~ in_use s tag.
Proof.
intros H (r & q & Hr & Hq). apply bool_decide_eq_false in H. apply H. by exists r, q.
Qed.

Lemma has_parentb_sound f fo : has_parentb f fo = true -> has_parent f fo.
Proof. unfold has_parentb. intros H p Hp. rewrite Hp in H. by btrue. Qed.

Lemma few_refsb_sound f : few_refsb f = true -> few_refs f.
Proof. intros H. unfold few_refsb in H. btrue. intros y yo Hy. by apply (H y yo). Qed.

Lemma walk_okb_sound f ws : walk_okb f ws = true -> walk_ok f ws.
Proof.
unfold walk_okb. intros H. apply andb_true_iff in H as [H H2]. apply andb_true_iff in H as [H H1]. split; [by apply few_refsb_sound|].
split; [by btrue|]. btrue; [done|]. intros _ y yo Hy Hr. destruct (H2 y yo Hy); [done|done].
Qed.

Lemma may_serveb_sound srv s tag g : may_serveb srv s tag g = true -> may_serve srv s tag g.
Proof.
unfold may_serveb. intros [Hs H]%andb_true_iff. split; [by btrue|].
destruct g as [ms v|old|afid u n|fid afid u n|fid newfid ws|fid mode|fid n pm md|fid off cnt|fid off data|fid|fid|fid|fid st| | | | | | | | | | | | | | ]; try done.
- apply andb_true_iff in H as [H H3]. apply andb_true_iff in H as [H1 H2]. btrue. split; [by apply in_useb_sound|by split].
- apply andb_true_iff in H as [H1 H2]. btrue. split; [by apply in_useb_sound|done].
- by apply few_refsb_sound.
- apply andb_true_iff in H as [H1 H2]. btrue. split; [done|]. intros x fo Hd Hm. pose proof (on_den_sound _ _ _ _ _ H2 Hd) as H. cbv beta in H.
  apply orb_true_iff in H as [H|H]; [by btrue|]. apply andb_true_iff in H as [Hu H]. split; [|split].
  + intros Hne. btrue; [done|]. by apply not_eq_None_Some.
  + intros Hz. rewrite decide_False in H by done. apply andb_true_iff in H as [Hr Hw]. split; [|by apply walk_okb_sound].
    intros E. by btrue.
  + intros Hz. rewrite decide_True in H by done. clear Hu. btrue; [left; by apply not_eq_None_Some|by right].
- intros x fo Hd Hm. pose proof (on_den_sound _ _ _ _ _ H Hd) as Hb. cbv beta in Hb. clear H.
  apply orb_true_iff in Hb as [Hb|Hb]; [by btrue|]. apply andb_true_iff in Hb as [H1 H2]. btrue; (split; [done|]); try done.
  intros _ _. by apply has_parentb_sound.
- apply andb_true_iff in H as [H1 H2]. btrue. split; [done|]. intros x fo Hd Hq Hz. pose proof (on_den_sound _ _ _ _ _ H2 Hd) as H. cbv beta in H. by btrue.
- intros x fo Hd. pose proof (on_den_sound _ _ _ _ _ H Hd) as Hb. cbv beta in Hb. clear H. apply andb_true_iff in Hb as [H1 H2]. btrue; (split; [done|]); [done|].
  intros _. by apply has_parentb_sound.
- intros x fo p Hst Hd Hp. pose proof (on_den_sound _ _ _ _ _ H Hd) as Hb. cbv beta in Hb. rewrite Hst, Hp in Hb. cbn in Hb. by btrue.
Qed.

Definition droppableb (f : fidst) (x : Z) : bool :=
  match fids f !! x with
  | Some fo => bool_decide ((lookupkey (fpool f) (fd_fid fo) (Some (fids f))).1 = Some x)
  | None => false
  end.

Definition may_respondb (f : fidst) (ms : Z) (q : Req) (error : option bytes) : bool :=
  match error with Some e => bool_decide (zlen e <= ERRMAX) | None => true end &&
  match rq_ifcall q with
  | MTauth _ _ _ => bool_decide (error = None) || bool_decide (rq_afid q = 0) || droppableb f (rq_afid q)
  | MTattach _ _ _ _ => bool_decide (error = None) || bool_decide (rq_fid q = 0) || droppableb f (rq_fid q)
  | MTflush _ => bool_decide (error = None)
  | MTwalk fid newfid wname =>
      let n := o_nwqid (rq_ofcall q) in
      bool_decide (0 <= n <= MAXWELEM) && bool_decide (n <= zlen (o_wqid (rq_ofcall q))) &&
      (bool_decide (error = None /\ zlen wname <= n) || bool_decide (fid = newfid) || droppableb f (rq_newfid q))
  | MTread _ _ _ => bool_decide (error <> None) || bool_decide (o_count (rq_ofcall q) <= ms - 11)
  | MTremove _ => bool_decide (error <> None) ||
      match fids f !! rq_fid q with
      | Some fo => bool_decide (fd_rdir fo = 0) &&
          match files (fs f) !! fd_file fo with Some p => bool_decide (f_parent p <> 0 \/ 1 < f_ref p) | None => true end
      | None => true
      end
  | MTstat _ => bool_decide (error <> None) || bool_decide (dir_size (rq_d q) <= ms - 9 /\ dir_size (rq_d q) < 2 ^ 16)
  | _ => true
  end.

Definition may_callb (s : srvst) (r : Z) (o : Ofcall -> Ofcall) (d : dirv -> dirv) (error : option bytes) : bool :=
  bool_decide (r ∈ (calls s).*2) && bool_decide (Z.of_nat (size (reqs s)) < 2 ^ 28) &&
  match reqs s !! r with
  | Some q => may_respondb (sf s) (msize s) (set_rq_d (d (rq_d q)) (set_rq_ofcall (o (rq_ofcall q)) q)) error
  | None => true
  end.

Lemma droppableb_sound f x : droppableb f x = true -> droppable f x.
Proof. unfold droppableb. intros H. destruct (fids f !! x) as [fo|] eqn:E; [|done]. btrue. by exists fo. Qed.

Lemma may_respondb_sound f ms q e : may_respondb f ms q e = true -> may_respond f ms q e.
Proof.
unfold may_respondb. intros [He H]%andb_true_iff. split; [intros e' ->; by btrue|].
destruct (rq_ifcall q) as [mv v|old|afid u n|fid afid u n|fid newfid ws|fid mode|fid n pm md|fid off cnt|fid off data|fid|fid|fid|fid st| | | | | | | | | | | | | | ]; try done; clear He.
- by btrue.
- intros Hn Hz. btrue; try done. by apply droppableb_sound.
- intros Hn Hz. btrue; try done. by apply droppableb_sound.
- apply andb_true_iff in H as [H H3]. apply andb_true_iff in H as [H1 H2]. cbv zeta in *.
  split; [by btrue|]. split; [by btrue|]. clear H1 H2. intros Hc Hne. btrue; [|done|by apply droppableb_sound].
  destruct H3. destruct Hc; [done|lia].
- intros ->. by btrue.
- intros ->. apply orb_true_iff in H as [H|H]; [by btrue|]. split.
  + intros fo Hfo. rewrite Hfo in H. apply andb_true_iff in H as [H _]. by btrue.
  + intros fo p Hfo Hp. rewrite Hfo in H. apply andb_true_iff in H as [_ H]. rewrite Hp in H. by btrue.
- intros ->. by btrue.
Qed.

Lemma may_callb_sound s r o d e : may_callb s r o d e = true -> may_call s r o d e.
Proof.
unfold may_callb. intros H. apply andb_true_iff in H as [H H3]. apply andb_true_iff in H as [H1 H2].
split; [by btrue|]. split; [by btrue|]. intros q Hq. rewrite Hq in H3. by apply may_respondb_sound.
Qed.

Section PoliteTest.
Variables (srv : Srv) (argv0 : bytes) (nullstring : Z).
Context {R : Type}.

Fixpoint politeb (l : list event) (s : srvst) : bool :=
  match l with
  | [] => true
  | e :: l' =>
      match e with EMsg tag g => may_serveb srv s tag g | EAnswer r o d error => may_callb s r o d error end &&
      match event_run srv argv0 nullstring (R := R) e s with
      | (Go _, s') => politeb l' s'
      | _ => true
      end
  end.

Lemma politeb_sound l s : politeb l s = true -> polite srv argv0 nullstring (R := R) l s.
Proof.
revert s. induction l as [|e l IH]; intros s; cbn [polite politeb]; [done|]. intros [H1 H2]%andb_true_iff. split.
- destruct e; [by apply may_serveb_sound|by apply may_callb_sound].
- destruct (event_run srv argv0 nullstring e s) as [[v| | |] s']; try done. by apply IH.
Qed.
End PoliteTest.

(** ** The theorems *)

Lemma start_due h tag : due (srv_start h) tag = 0.
Proof. unfold due, waiting. change (reqs (srv_start h)) with (∅ : gmap Z Req). by rewrite cnt_empty. Qed.


(** A server of [demo_tree] that keeps requests to open, read and flush, and the
    messages of a client: the flush is answered after the request that it flushes, a
    message with a tag that is in use gets an error. *)
Definition sample : list event := hello ++
  [EMsg 2 (MTwalk 1 2 [[97]; [98]]); EMsg 3 (MTopen 2 0); EMsg 4 (MTflush 3); EAnswer 5 (fun o => o) (fun d => d) None;
   EMsg 3 (MTclunk 1); EAnswer 4 (fun o => o) (fun d => d) None; EMsg 5 (MTstat 2); EMsg 6 (MTread 2 0 10);
   EAnswer 9 (set_o_data 2 [104; 105]) (fun d => d) None; EMsg 7 (MTclunk 2)].

Definition sample_srv : Srv := demo_srv true true true false.

Lemma sample_srv_ok : srv_ok sample_srv.
Proof. split; intros; discriminate. Qed.

Lemma demo_tree_fwf : exists K, fwf demo_tree (after demo_ops).2 K.
Proof. apply after_wf. vm_compute. reflexivity. Qed.

Lemma sample_polite : polite sample_srv (bytes_of "demo") 0 (R := unit) sample (srv_start demo_tree).
Proof. apply politeb_sound. vm_compute. reflexivity. Qed.






(** In the sample session the server has answered all. *)
Lemma sample_answered : calls (session sample_srv (bytes_of "demo") 0 (R := unit) sample (srv_start demo_tree)).2 = [].
Proof. vm_compute. reflexivity. Qed.
