(* ===== verification/PermThms.v ===== *)
(** What the user of a fid may not do is answered with an error, and the tree and the
    server do not see it. *)

From stdpp Require Import strings.
From S2P Require Import Prelude Mem Links Counts Fcall9P Fcall9PSpec Dir9P Dir9PSpec Intmap IntmapSpec Files FilesSpec FilesOps FilesThms Srv FidSpec ReqSpec RespondSpec ServeSpec HandlerSpec WalkSpec DispatchSpec SrvThms SrvSafe.

(** The fid denotes a file of the tree. *)
Definition names_file (f : fidst) (fid : Z) (fo : Fid) (p : File) (u : bytes) : Prop :=
  exists x, denotes f fid x fo /\ fd_file fo <> 0 /\ files (fs f) !! fd_file fo = Some p /\ fd_uid fo = Some u.

(** What the user of the fid may not do. *)
Definition forbidden (f : fidst) (g : msg) : Prop :=
  match g with
  | MTopen fid mode => exists fo p u, names_file f fid fo p u /\ hasperm (f_dir p) u (open_access mode) = false
  | MTcreate fid _ _ _ => exists fo p u, names_file f fid fo p u /\ hasperm (f_dir p) u AWRITE = false
  | MTremove fid => exists fo p u d, names_file f fid fo p u /\ files (fs f) !! f_parent p = Some d /\ hasperm (f_dir d) u AWRITE = false
  | MTwrite fid _ _ => exists x fo, denotes f fid x fo /\ Z.land (fd_omode fo) 3 <> OWRITE /\ Z.land (fd_omode fo) 3 <> ORDWR
  | _ => False
  end.

(** The messages whose second half does nothing on an error. *)
Definition quiet (g : msg) : Prop :=
  match g with MTopen _ _ | MTcreate _ _ _ _ | MTwrite _ _ _ | MTremove _ => True | _ => False end.

Section Refused.
Context {R : Type}.
Variable srv : Srv.
Variables (argv0 : bytes) (nullstring : Z).

(** A request that no flush waits for. *)
Definition alone (s : srvst) (P : gset Z) (r tag : Z) (q : Req) : Prop :=
  serving s P r q /\ rq_flush q = [] /\ quiet (rq_ifcall q) /\ rq_tag q = tag.

(** The reply to an error of the library, and nothing else. *)
Lemma respond_error_out s P r tag q e : alone s P r tag q -> zlen e <= ERRMAX ->
  exists s', respond_ (R := R) r (Some e) s = (Go tt, s') /\ good s' idle P /\ effect ({[r]} ∪ P) idle [r] s s' /\
    out s' = out s ++ [(tag, MRerror e)].
Proof.
intros ((G & Hr & HP & Hp & Hsz) & Hfl & Hq & <-) He. pose proof G as (F & (t & I) & M).
assert (HrP : r ∈ {[r]} ∪ P) by (apply elem_of_union_l; by apply elem_of_singleton).
destruct (si_P _ _ _ _ I r HrP) as (q0 & Hq0 & Hu). rewrite Hr in Hq0. injection Hq0 as <-.
assert (Hz : rq_oldreq q = 0).
{ destruct (decide (rq_oldreq q = 0)) as [|Hz]; [done|]. destruct (si_old _ _ _ _ I r q Hr Hz) as (_ & [ot Hi] & _). by rewrite Hi in Hq. }
unfold respond_, rfuel. unfold cbind at 1, cgets at 1. pose proof (unanswered_le s) as Hun.
replace (2 * size (reqs s) + 4)%nat with (S (S (2 * size (reqs s) + 2))) by lia. set (n := (2 * size (reqs s) + 2)%nat).
rewrite (respond_run _ r q (Some e) s Hr Hu). cbv zeta. set (q1 := set_rq_error (Some e) q). set (s1 := set_reqs (<[r := q1]> (reqs s)) s).
destruct (due_set s r q q1 Hr eq_refl eq_refl s1 eq_refl eq_refl) as [D1 U1].
assert (Hr1 : reqs s1 !! r = Some q1) by (cbn; by rewrite lookup_insert_eq).
assert (G1 : good s1 idle ({[r]} ∪ P)).
{ apply (good_upd s s1 idle _ r q q1 G Hr); try done; [split_and!; try done; congruence|].
  eapply fok_rheld; [exact F|]. intros x. by apply (rheld_same _ _ q). }
assert (X1 : effect ({[r]} ∪ P) idle [r] s s1).
{ apply (effect_at _ idle r s s1 q); try done; [|by apply Z.eq_le_incl]. intros y Hy. cbn. by rewrite lookup_insert_ne. }
rewrite (cbind_go _ _ s1 false s1) by (by destruct (rq_ifcall q)).
destruct (respond_end_spec (R := R) n s1 idle ({[r]} ∪ P) r q1 (MRerror e)) as (s' & E' & G' & X' & O); try done.
- intros s0 rx0 P0 r0 q0 H1 H2 H3 H4 H5. by apply (respond_spec _ s0 rx0 P0 r0 q0).
- cbn. by destruct (rq_ifcall q).
- unfold msg_size. cbn [enc_body]. rewrite zlen_enc_str. cbn [msize set_reqs s1] in *. unfold MINMSIZE, ERRMAX in *. cbn. lia.
- unfold n. lia.
- exists s'. split; [exact E'|]. split; [by rewrite add_remove in G'|]. split; [by eapply effect_seq|]. by apply O.
Qed.

(** The handler does nothing to the tree and answers with an error. *)
Definition refuses (c : cmd srvst R unit) (P : gset Z) (r tag : Z) (s : srvst) : Prop :=
  exists e s1 q, c s = respond_ r (Some e) s1 /\ alone s1 P r tag q /\ zlen e <= ERRMAX /\ effect ({[r]} ∪ P) idle [r] s s1 /\
    out s1 = out s /\ files (fs (sf s1)) = files (fs (sf s)).

Lemma refuses_now s P r tag q e : alone s P r tag q -> zlen e <= ERRMAX -> refuses (respond_ r (Some e)) P r tag s.
Proof. intros A He. exists e, s, q. split_and!; try done. apply effect_refl. Qed.

Lemma refuses_step (c c' : cmd srvst R unit) P r tag s s1 : c s = c' s1 -> effect ({[r]} ∪ P) idle [r] s s1 ->
  out s1 = out s -> files (fs (sf s1)) = files (fs (sf s)) -> refuses c' P r tag s1 -> refuses c P r tag s.
Proof.
intros E X E2 E3 (e & s2 & q & H & A & He & X2 & O & Hf). exists e, s2, q. split; [congruence|]. split; [done|]. split; [done|].
split; [by eapply effect_seq|]. split; congruence.
Qed.

Lemma refuses_go {A} (c : cmd srvst R A) (k : A -> cmd srvst R unit) P r tag s a : c s = (Go a, s) -> refuses (k a) P r tag s ->
  refuses (cbind c k) P r tag s.
Proof. intros E. apply (refuses_step _ _ P r tag s s); [by rewrite (cbind_go _ _ _ _ _ E)|apply effect_refl|done..]. Qed.

Lemma refuses_rset (k : cmd srvst R unit) s P r tag q g : alone s P r tag q -> rq_tag (g q) = rq_tag q -> rq_pool (g q) = rq_pool q ->
  rq_responded (g q) = rq_responded q -> rq_oldreq (g q) = rq_oldreq q -> rq_flush (g q) = rq_flush q -> rq_ref (g q) = rq_ref q -> rq_statfree (g q) = rq_statfree q ->
  (is_flush (rq_ifcall (g q)) <-> is_flush (rq_ifcall q)) -> quiet (rq_ifcall (g q)) ->
  rq_fid (g q) = rq_fid q -> rq_afid (g q) = rq_afid q -> rq_newfid (g q) = rq_newfid q ->
  (forall s', alone s' P r tag (g q) -> sf s' = sf s -> msize s' = msize s -> refuses k P r tag s') ->
  refuses (rset (R := R) r g;; k) P r tag s.
Proof.
intros (S & Hfl & Hq & Ht) E1 E2 E3 E4 E5 E6 E0 E7 Hq' E8 E9 E10 Hk. pose proof S as ((F & _) & Hr & _).
destruct (serving_upd s P r q (g q) S) as [S' X]; try done; [eapply fok_rheld; [exact F|intros x; by apply (rheld_same _ _ q)]|].
eapply refuses_step; [exact (cbind_go _ _ _ _ _ (rset_go r g s q Hr))|exact X|done..|]. apply Hk; [|done..].
split; [done|]. split; [congruence|]. split; [done|congruence].
Qed.

Lemma refuses_lookup s P r tag g fid x fo (k : Z -> cmd srvst R unit) : serving s P r (req0 tag g) -> quiet g -> denotes (sf s) fid x fo ->
  (forall s1 q1, x <> 0 -> alone s1 P r tag q1 -> fids (sf s1) !! x = Some (set_fid_ref (fd_ref fo + 1) fo) -> fs (sf s1) = fs (sf s) ->
    rq_ifcall q1 = g -> refuses (k x) P r tag s1) ->
  refuses (x <- onfid (lookupfid fid);; rset r (set_rq_fid x);; k x) P r tag s.
Proof.
intros S Hq Hd Hk.
destruct (lookup_run (R := R) set_rq_fid k s P r _ fid x fo S ltac:(by apply set_fid_sets) Hd) as (s1 & E & X & S1 & Hx & Hf & Eh & _ & _ & _ & Eo).
apply (refuses_step _ (k x) P r tag s s1); [exact E|exact X|exact Eo|by rewrite Eh|].
apply (Hk s1 (set_rq_fid x (req0 tag g)) Hx); try done. by rewrite Hf, lookup_insert_eq.
Qed.

Lemma refuses_remove s P r tag g fid x fo (k : Z -> cmd srvst R unit) : serving s P r (req0 tag g) -> quiet g -> denotes (sf s) fid x fo ->
  (forall s1 q1, x <> 0 -> alone s1 P r tag q1 -> fids (sf s1) !! x = Some fo -> fs (sf s1) = fs (sf s) -> refuses (k x) P r tag s1) ->
  refuses (x <- onfid (removefid fid);; rset r (set_rq_fid x);; k x) P r tag s.
Proof.
intros S Hq [Hd Hfo] Hk. pose proof S as (((gx & gm & K & I) & _) & Hr & _).
assert (Hg : gm !! fid = Some x) by (rewrite (lookupkey_spec _ gm) in Hd by apply I; by destruct (gm !! fid)).
destruct (removefid_some (R := R) _ _ _ _ _ _ _ I Hg) as (f' & fo' & E & I' & Hx & _ & _ & Efs & Eh).
destruct (set_fid_sets (req0 tag g) eq_refl eq_refl) as [_ Hh]. destruct (Hh x) as (H1 & H2 & H3).
destruct (fid_step set_rq_fid k s P r _ x f' gx _ K S H1 H2 H3 Hx I') as (s1 & E1 & S1 & Esf & _ & X & Er & Eo); [by rewrite Eh|].
apply (refuses_step _ (k x) P r tag s s1); [by rewrite (cbind_go _ _ _ _ _ (onfid_go _ _ _ _ E))|exact X|exact Eo|by rewrite Esf, Eh|].
apply (Hk s1 (set_rq_fid x (req0 tag g)) Hx); try done; rewrite Esf; congruence.
Qed.

(** The file of a fid and its directory are in use. *)
Lemma named_live s P r q fid x fo p : serving s P r q -> denotes (sf s) fid x fo -> fd_file fo <> 0 ->
  files (fs (sf s)) !! fd_file fo = Some p ->
  f_free p = false /\ forall d, files (fs (sf s)) !! f_parent p = Some d -> f_free d = false.
Proof.
intros ((F & _) & _) [_ Hfo] Hz Hp. destruct (fid_file_facts s _ x fo F Hfo Hz) as (p' & u & Hp' & _ & Hpp & Hlv).
rewrite Hp in Hp'. injection Hp' as <-. split; [done|]. intros d Hd. destruct F as (gx & g & K & I).
pose proof (fi_files _ _ _ (proj1 (xi_wf _ _ _ _ _ I)) _ d Hd). destruct Hpp as (pp & Hpd & Hld); [lia|]. congruence.
Qed.

(** The request is refused now, with an error of the library. *)
Ltac refused A := apply (refuses_now _ _ _ _ _ _ A); by vm_compute.

Lemma sopen_refuses s P r tag fid mode fo p u : serving s P r (req0 tag (MTopen fid mode)) -> names_file (sf s) fid fo p u ->
  hasperm (f_dir p) u (open_access mode) = false -> refuses (sopen srv r fid mode) P r tag s.
Proof.
intros S (x & Hd & Hz & Hp & Hu) Hno. unfold sopen. apply (refuses_lookup s P r tag (MTopen fid mode) fid x fo _ S Logic.I Hd).
intros s1 q1 Hx A Hfo1 Eh Hi. rewrite decide_False by done.
apply (refuses_go _ _ P r tag s1 _ (onfid_xget x s1 _ Hfo1)). case_decide; [refused A|]. case_decide; [refused A|].
apply (refuses_rset _ s1 P r tag q1 _ A); try done; [cbn; by rewrite Hi|]. intros s2 A2 Ef _. cbv zeta. case_decide; [refused A2|].
rewrite decide_True by done. cbn [fd_file fd_uid set_fid_ref]. rewrite Hu.
destruct (named_live s P r _ fid x fo p S Hd Hz Hp) as [Hlv _].
apply (refuses_go _ _ P r tag s2 false); [|refused A2]. rewrite <- Hno. apply file_hasperm_run; [by rewrite Ef, Eh|done].
Qed.

Lemma screate_refuses s P r tag fid n pm md fo p u : serving s P r (req0 tag (MTcreate fid n pm md)) -> names_file (sf s) fid fo p u ->
  hasperm (f_dir p) u AWRITE = false -> refuses (screate srv r fid) P r tag s.
Proof.
intros S (x & Hd & Hz & Hp & Hu) Hno. unfold screate. apply (refuses_lookup s P r tag _ fid x fo _ S Logic.I Hd).
intros s1 q1 Hx A Hfo1 Eh _. rewrite decide_False by done.
apply (refuses_go _ _ P r tag s1 _ (onfid_xget x s1 _ Hfo1)). case_decide; [refused A|]. case_decide; [refused A|].
apply (refuses_go _ _ P r tag s1 false); [|refused A]. rewrite decide_True by done. cbn [fd_file fd_uid set_fid_ref]. rewrite Hu, <- Hno.
destruct (named_live s P r _ fid x fo p S Hd Hz Hp) as [Hlv _]. apply file_hasperm_run; [by rewrite Eh|done].
Qed.

Lemma sremove_refuses s P r tag fid fo p u d : serving s P r (req0 tag (MTremove fid)) -> names_file (sf s) fid fo p u ->
  files (fs (sf s)) !! f_parent p = Some d -> hasperm (f_dir d) u AWRITE = false -> refuses (sremove srv r fid) P r tag s.
Proof.
intros S (x & Hd & Hz & Hp & Hu) Hpd Hno. unfold sremove. apply (refuses_remove s P r tag _ fid x fo _ S Logic.I Hd).
intros s1 q1 Hx A Hfo1 Eh. rewrite decide_False by done.
apply (refuses_go _ _ P r tag s1 _ (onfid_xget x s1 _ Hfo1)).
apply (refuses_go _ _ P r tag s1 false); [|refused A]. rewrite decide_True by done.
destruct (named_live s P r _ fid x fo p S Hd Hz Hp) as [Hlv Hld].
rewrite (cbind_go _ _ s1 p s1) by (apply onfile_fget; [by rewrite Eh|done]). rewrite Hu, <- Hno.
apply file_hasperm_run; [by rewrite Eh|by apply Hld].
Qed.

Lemma swrite_refuses s P r tag fid offset data x fo : serving s P r (req0 tag (MTwrite fid offset data)) -> denotes (sf s) fid x fo ->
  Z.land (fd_omode fo) 3 <> OWRITE -> Z.land (fd_omode fo) 3 <> ORDWR -> refuses (swrite srv r fid offset data) P r tag s.
Proof.
intros S Hd H1 H2. unfold swrite. apply (refuses_lookup s P r tag _ fid x fo _ S Logic.I Hd).
intros s1 q1 Hx A Hfo1 Eh Hi. rewrite decide_False by done. case_decide; [refused A|]. case_decide; [refused A|].
apply (refuses_go (cgets msize) _ P r tag s1 (msize s1) eq_refl).
apply (refuses_rset _ s1 P r tag q1 _ A); try done; [cbn; rewrite Hi; split; intros [? ?]; discriminate|]. intros s2 A2 Ef _.
apply (refuses_go _ _ P r tag s2 (set_fid_ref (fd_ref fo + 1) fo)); [apply onfid_xget; by rewrite Ef|]. rewrite decide_True by done.
apply (refuses_now _ _ _ _ _ _ A2), snprint_len.
Qed.

Lemma dispatch_refuses s P r tag g : serving s P r (req0 tag g) -> forbidden (sf s) g -> refuses (dispatch srv argv0 nullstring r g) P r tag s.
Proof.
intros S H. destruct g; try done; cbn [dispatch].
- destruct H as (fo & p & u & Hn & Hno). by eapply sopen_refuses.
- destruct H as (fo & p & u & Hn & Hno). by eapply screate_refuses.
- destruct H as (x & fo & Hd & H1 & H2). by eapply swrite_refuses.
- destruct H as (fo & p & u & d & Hn & Hd & Hno). by eapply sremove_refuses.
Qed.
End Refused.

(** C9: a [Topen] of a file with a mode that its permissions do not grant the user of
    the fid, a [Tcreate] or [Tremove] in a directory that the user may not write, and
    a [Twrite] on a fid that is not open for writing get an error as their one reply;
    the server does not hear of them, and up to the reply no file was touched. *)
Theorem forbidden_messages_are_refused srv argv0 nullstring tag g s : srv_inv srv s -> ~ in_use s tag ->
  Z.of_nat (size (reqs s)) < 2 ^ 28 -> forbidden (sf s) g ->
  exists e s1 s', serve (R := unit) srv argv0 nullstring tag g s = respond_ (rbrk s) (Some e) s1 /\
    files (fs (sf s1)) = files (fs (sf s)) /\ respond_ (R := unit) (rbrk s) (Some e) s1 = (Go tt, s') /\
    calls s' = calls s /\ out s' = out s ++ [(tag, MRerror e)].
Proof.
intros V Hn Hsz Hf. destruct (getreq_new (R := unit) s _ tag g (sv_good _ _ V) Hn Hsz) as (s0 & E & S & (Ec & _ & _ & _ & Eo) & Ef & _).
assert (Hf0 : forbidden (sf s0) g) by (by rewrite Ef).
destruct (dispatch_refuses (R := unit) srv argv0 nullstring s0 _ _ tag g S Hf0) as (e & s1 & q & E1 & A & He & X1 & O1 & F1).
destruct (respond_error_out (R := unit) s1 _ _ tag q e A He) as (s' & E2 & _ & X2 & O2).
exists e, s1, s'. split; [rewrite serve_run, (cbind_go _ _ _ _ _ E); exact E1|]. split; [by rewrite F1, Ef|]. split; [done|].
destruct X1 as ((C1 & _) & _). destruct X2 as ((C2 & _) & _). split; congruence.
Qed.

(** The user "x" has a fid of the file "b" of "un", which others may only read. *)
Definition stranger : list event :=
  [EMsg NOTAG (MTversion 8192 (bytes_of "9P2000")); EMsg 1 (MTattach 1 NOFID [120] []); EMsg 1 (MTwalk 1 2 [[97]; [98]])].

Definition stranger_end : srvst := (session sample_srv (bytes_of "demo") 0 (R := unit) stranger (srv_start demo_tree)).2.

Lemma forbidden_messages_are_refused_witness :
  exists e s1 s', serve (R := unit) sample_srv (bytes_of "demo") 0 3 (MTopen 2 OWRITE) stranger_end = respond_ (rbrk stranger_end) (Some e) s1 /\
    files (fs (sf s1)) = files (fs (sf stranger_end)) /\ respond_ (R := unit) (rbrk stranger_end) (Some e) s1 = (Go tt, s') /\
    calls s' = calls stranger_end /\ out s' = out stranger_end ++ [(3, MRerror e)].
Proof.
apply (forbidden_messages_are_refused sample_srv (bytes_of "demo") 0 3 (MTopen 2 OWRITE) stranger_end).
- destruct demo_tree_fwf as (K & W).
  destruct (session_ok sample_srv (bytes_of "demo") 0 (R := unit) stranger (srv_start demo_tree) sample_srv_ok) as (s' & E & V & _).
  + apply (srv_start_inv sample_srv demo_tree _ K W). intros _. eexists. vm_compute. reflexivity.
  + apply politeb_sound. vm_compute. reflexivity.
  + unfold stranger_end. rewrite E. exact V.
- apply in_useb_sound. vm_compute. reflexivity.
- vm_compute. reflexivity.
- assert (exists fo p u, (den (sf stranger_end) 2 = Some fo /\ files (fs (sf stranger_end)) !! fd_file fo.2 = Some p /\ fd_uid fo.2 = Some u) /\
    bool_decide (fd_file fo.2 <> 0) = true /\ hasperm (f_dir p) u (open_access OWRITE) = false) as ([x fo] & p & u & (Hd & Hp & Hu) & Hz & Hno).
  { eexists _, _, _. split; [split_and!|split]; vm_compute; reflexivity. }
  exists fo, p, u. split; [|exact Hno]. exists x. split; [exact (den_sound _ _ _ _ Hd)|]. apply bool_decide_eq_true in Hz. exact (conj Hz (conj Hp Hu)).
Defined.
