(* ===== verification/Block.v ===== *)
(** The blocks of the kernel's queues and protocols, src/9/port/allocb.c and the
    functions on lists of blocks of src/9/port/qio.c.

    A block is an object of its own: its pointers are addresses in its buffer, and a
    copy that leaves the buffer [base, lim) of one of its blocks, or names a block
    that was freed, is a fault ([Abt]). The memory of the caller that is copied from
    or to is a list of bytes. Blocks that bring their own [free] function, the
    statistics and [setmalloctag] are not modelled. *)

From S2P Require Import Prelude Mem.

Abbreviation bytes := (list Z).

(** [struct Block] without its link. *)
Record Body := MkBody { b_rp : Z; b_wp : Z; b_lim : Z; b_base : Z; b_flag : Z; b_buf : mem }.
Record Block := MkBlock { b_next : Z; b_body : Body }.

Definition set_b_rp v x := MkBody v (b_wp x) (b_lim x) (b_base x) (b_flag x) (b_buf x).
Definition set_b_wp v x := MkBody (b_rp x) v (b_lim x) (b_base x) (b_flag x) (b_buf x).
Definition set_b_flag v x := MkBody (b_rp x) (b_wp x) (b_lim x) (b_base x) v (b_buf x).
Definition set_b_buf v x := MkBody (b_rp x) (b_wp x) (b_lim x) (b_base x) (b_flag x) v.

Definition BLEN (x : Body) : Z := b_wp x - b_rp x.
Definition BALLOC (x : Body) : Z := b_lim x - b_base x.

Definition BINTR : Z := 1.
Definition Hdrspc : Z := 64.
Definition BLOCKALIGN : Z := 8.
Definition sizeof_Block : Z := 32.
Definition Maxatomic : Z := 64 * 1024.

Definition ROUND (s sz : Z) : Z := Z.land (s + (sz - 1)) (Z.lnot (sz - 1)).

(** The blocks, [ialloc.bytes], and whether the kernel stopped because [malloc] found
    no memory. *)
Record bheap := BHeap { blks : gmap Z Block; ialloc : Z; nomem : bool }.

Definition set_blks m s := BHeap m (ialloc s) (nomem s).
Definition set_ialloc v s := BHeap (blks s) v (nomem s).
Definition set_nomem v s := BHeap (blks s) (ialloc s) v.

(** What allocb.c asks of the allocator of the kernel: [mallocz] gives the address of
    a free piece of memory and its size, or nothing. *)
Class Malloc := {
  mallocz : gmap Z Block -> Z -> option (Z * Z);
  malloc_fresh m n a sz : mallocz m n = Some (a, sz) -> m !! a = None;
  malloc_room m n a sz : mallocz m n = Some (a, sz) -> 0 < a /\ n <= sz /\ a + sz < 2 ^ 32;
  conf_ialloc : Z
}.

Section Blocks.
Context {MA : Malloc} {R : Type}.
Abbreviation bcmd := (cmd bheap R).

(** *** Access *)

Definition bget (b : Z) : bcmd Block := fun s =>
  match blks s !! b with Some x => (Go x, s) | None => (Abt, s) end.
Definition bset (b : Z) (g : Body -> Body) : bcmd unit := fun s =>
  match blks s !! b with
  | Some x => (Go tt, set_blks (<[b := MkBlock (b_next x) (g (b_body x))]> (blks s)) s)
  | None => (Abt, s)
  end.
Definition bset_next (b n : Z) : bcmd unit := fun s =>
  match blks s !! b with
  | Some x => (Go tt, set_blks (<[b := MkBlock n (b_body x)]> (blks s)) s)
  | None => (Abt, s)
  end.

(** The source and the destination of a [memmove] of [n] bytes. *)
Definition bread (b p n : Z) : bcmd bytes :=
  x <- bget b;;
  let x := b_body x in
  if decide (0 <= n /\ b_base x <= p /\ p + n <= b_lim x) then cret (ld_bytes (b_buf x) p (Z.to_nat n)) else cabort.
Definition bwrite (b p : Z) (l : bytes) : bcmd unit :=
  x <- bget b;;
  let x := b_body x in
  if decide (b_base x <= p /\ p + zlen l <= b_lim x) then bset b (set_b_buf (st_bytes (b_buf x) p l)) else cabort.

(** [memmove(d->wp, l, n); d->wp += n] *)
Definition bappend (d : Z) (l : bytes) : bcmd unit :=
  x <- bget d;;
  bwrite d (b_wp (b_body x)) l;;
  bset d (fun x => set_b_wp (b_wp x + zlen l) x).

(** *** allocb.c *)

Definition _allocb (size : Z) : bcmd Z := fun s =>
  match mallocz (blks s) (u32 (sizeof_Block + size + Hdrspc)) with
  | None => (Go 0, s)
  | Some (b, msize) =>
      let base := u32 (ROUND (b + sizeof_Block) BLOCKALIGN) in
      let lim := Z.land (u32 (b + msize)) (Z.lnot (BLOCKALIGN - 1)) in
      let rp := lim - ROUND size BLOCKALIGN in
      if decide (rp < base) then (Abt, s)
      else (Go b, set_blks (<[b := MkBlock 0 (MkBody rp rp lim base 0 ∅)]> (blks s)) s)
  end.

Definition allocb (size : Z) : bcmd Z :=
  b <- _allocb size;;
  if decide (b = 0) then cmodify (set_nomem true);; cabort else cret b.

Definition iallocb (size : Z) : bcmd Z :=
  n <- cgets ialloc;;
  if decide (conf_ialloc < n) then cret 0
  else
    b <- _allocb size;;
    if decide (b = 0) then cret 0
    else
      bset b (set_b_flag BINTR);;
      x <- bget b;;
      cmodify (fun s => set_ialloc (u32 (ialloc s + BALLOC (b_body x))) s);;
      cret b.

Definition freeb (b : Z) : bcmd unit :=
  if decide (b = 0) then cret tt
  else
    x <- bget b;;
    (if decide (Z.land (b_flag (b_body x)) BINTR <> 0) then
       cmodify (fun s => set_ialloc (u32 (ialloc s - BALLOC (b_body x))) s)
     else cret tt);;
    cmodify (fun s => set_blks (delete b (blks s)) s).

(** *** Lists of blocks *)

(** A bound on the length of a list. *)
Definition bfuel : bcmd nat := cgets (fun s => S (size (blks s))).

Fixpoint freeblist_loop (fuel : nat) (b : Z) : bcmd unit :=
  match fuel with
  | O => cabort
  | S fuel' =>
      if decide (b = 0) then cret tt
      else
        x <- bget b;;
        bset_next b 0;;
        freeb b;;
        freeblist_loop fuel' (b_next x)
  end.

Definition freeblist (b : Z) : bcmd unit := fuel <- bfuel;; freeblist_loop fuel b.

Definition padblock (bp size : Z) : bcmd Z :=
  x <- bget bp;;
  let xb := b_body x in
  if decide (0 <= size) then
    if decide (size <= b_rp xb - b_base xb) then
      bset bp (fun y => set_b_rp (b_rp y - size) y);; cret bp
    else if decide (b_next x <> 0) then cabort
    else
      let n := BLEN xb in
      nbp <- allocb (size + n);;
      bset nbp (fun y => set_b_rp (b_rp y + size) y);;
      bset nbp (fun y => set_b_wp (b_rp y) y);;
      l <- bread bp (b_rp xb) n;;
      bappend nbp l;;
      freeb bp;;
      bset nbp (fun y => set_b_rp (b_rp y - size) y);;
      cret nbp
  else
    let size := - size in
    if decide (b_next x <> 0) then cabort
    else if decide (size <= b_lim xb - b_wp xb) then cret bp
    else
      let n := BLEN xb in
      nbp <- allocb (size + n);;
      l <- bread bp (b_rp xb) n;;
      bappend nbp l;;
      freeb bp;;
      cret nbp.

Fixpoint blen_loop (f : Body -> Z) (fuel : nat) (bp len : Z) : bcmd Z :=
  match fuel with
  | O => cabort
  | S fuel' =>
      if decide (bp = 0) then cret len
      else x <- bget bp;; blen_loop f fuel' (b_next x) (s32 (len + f (b_body x)))
  end.

Definition blocklen (bp : Z) : bcmd Z := fuel <- bfuel;; blen_loop BLEN fuel bp 0.
Definition blockalloclen (bp : Z) : bcmd Z := fuel <- bfuel;; blen_loop BALLOC fuel bp 0.

Fixpoint concat_loop (fuel : nat) (nb f : Z) : bcmd unit :=
  match fuel with
  | O => cabort
  | S fuel' =>
      if decide (f = 0) then cret tt
      else
        x <- bget f;;
        l <- bread f (b_rp (b_body x)) (BLEN (b_body x));;
        bappend nb l;;
        concat_loop fuel' nb (b_next x)
  end.

Definition concatblock (bp : Z) : bcmd Z :=
  x <- bget bp;;
  if decide (b_next x = 0) then cret bp
  else
    n <- blocklen bp;;
    nb <- allocb n;;
    fuel <- bfuel;;
    concat_loop fuel nb bp;;
    freeblist bp;;
    cret nb.

Fixpoint pullup_loop (fuel : nat) (bp n : Z) : bcmd Z :=
  match fuel with
  | O => cabort
  | S fuel' =>
      b <- bget bp;;
      let nbp := b_next b in
      if decide (nbp = 0) then freeb bp;; cret 0
      else
        x <- bget nbp;;
        let i := BLEN (b_body x) in
        if decide (n < i) then
          l <- bread nbp (b_rp (b_body x)) n;;
          bappend bp l;;
          bset nbp (fun y => set_b_rp (b_rp y + n) y);;
          cret bp
        else
          let i := if decide (i < 0) then 0 else i in
          l <- bread nbp (b_rp (b_body x)) i;;
          bappend bp l;;
          bset_next bp (b_next x);;
          bset_next nbp 0;;
          freeb nbp;;
          if decide (n - i = 0) then cret bp else pullup_loop fuel' bp (n - i)
  end.

Definition pullupblock (bp n : Z) : bcmd Z :=
  x <- bget bp;;
  if decide (n <= BLEN (b_body x)) then cret bp
  else
    bp <-
      (if decide (b_lim (b_body x) - b_rp (b_body x) < n) then
         nbp <- allocb n;; bset_next nbp bp;; cret nbp
       else cret bp);;
    x <- bget bp;;
    fuel <- bfuel;;
    pullup_loop fuel bp (n - BLEN (b_body x)).

Fixpoint trim_skip (fuel : nat) (bp offset : Z) : bcmd (Z * Z) :=
  match fuel with
  | O => cabort
  | S fuel' =>
      x <- bget bp;;
      let l := u32 (BLEN (b_body x)) in
      if decide (l < u32 offset) then
        bset_next bp 0;; freeb bp;; trim_skip fuel' (b_next x) (offset - l)
      else cret (bp, offset)
  end.

Fixpoint trim_keep (fuel : nat) (bp len : Z) : bcmd (Z * Z) :=
  match fuel with
  | O => cabort
  | S fuel' =>
      x <- bget bp;;
      let l := u32 (BLEN (b_body x)) in
      if decide (l < u32 len) then trim_keep fuel' (b_next x) (len - l) else cret (bp, len)
  end.

Definition trimblock (bp offset len : Z) : bcmd Z :=
  n <- blocklen bp;;
  if decide (n < s32 (offset + len)) then freeblist bp;; cret 0
  else
    fuel <- bfuel;;
    y <- trim_skip fuel bp offset;;
    let '(startb, offset) := y in
    bset startb (fun x => set_b_rp (b_rp x + offset) x);;
    fuel <- bfuel;;
    y <- trim_keep fuel startb len;;
    let '(bp, len) := y in
    bset bp (fun x => set_b_wp (b_wp x - (BLEN x - len)) x);;
    x <- bget bp;;
    (if decide (b_next x <> 0) then freeblist (b_next x);; bset_next bp 0 else cret tt);;
    cret startb.

(** The bytes that are still missing. *)
Fixpoint copy_loop (fuel : nat) (nbp bp count : Z) : bcmd Z :=
  match fuel with
  | O => cabort
  | S fuel' =>
      if decide (0 < count /\ bp <> 0) then
        x <- bget bp;;
        let l := if decide (count < BLEN (b_body x)) then count else BLEN (b_body x) in
        d <- bread bp (b_rp (b_body x)) l;;
        bappend nbp d;;
        copy_loop fuel' nbp (b_next x) (count - l)
      else cret count
  end.

Definition copyblock (bp count : Z) : bcmd Z :=
  nbp <- allocb count;;
  fuel <- bfuel;;
  count <- copy_loop fuel nbp bp count;;
  (if decide (0 < count) then bappend nbp (replicate (Z.to_nat count) 0) else cret tt);;
  cret nbp.

Definition adjustblock (bp len : Z) : bcmd Z :=
  if decide (len < 0) then freeb bp;; cret 0
  else
    x <- bget bp;;
    let xb := b_body x in
    if decide (b_lim xb < b_rp xb + len) then
      nbp <- copyblock bp len;; freeblist bp;; cret nbp
    else
      (if decide (BLEN xb < len) then bwrite bp (b_wp xb) (replicate (Z.to_nat (len - BLEN xb)) 0) else cret tt);;
      bset bp (fun y => set_b_wp (b_rp y + len) y);;
      cret bp.

(** The head of the list and the bytes thrown away; [*bph] is the argument. *)
Fixpoint pull_loop (fuel : nat) (bp count bytes : Z) : bcmd (Z * Z) :=
  match fuel with
  | O => cabort
  | S fuel' =>
      if decide (bp <> 0 /\ count <> 0) then
        x <- bget bp;;
        let n := if decide (count < BLEN (b_body x)) then count else BLEN (b_body x) in
        bset bp (fun y => set_b_rp (b_rp y + n) y);;
        x <- bget bp;;
        if decide (BLEN (b_body x) = 0) then
          bset_next bp 0;; freeb bp;; pull_loop fuel' (b_next x) (count - n) (bytes + n)
        else pull_loop fuel' bp (count - n) (bytes + n)
      else cret (bp, bytes)
  end.

Definition pullblock (bp count : Z) : bcmd (Z * Z) :=
  fuel <- bfuel;; pull_loop (S fuel) bp count 0.

(** The loop over the links: [prev] is the block whose link [l] is, 0 for [bp]. *)
Fixpoint pack_loop (fuel : nat) (head prev cur : Z) : bcmd Z :=
  match fuel with
  | O => cabort
  | S fuel' =>
      if decide (cur = 0) then cret head
      else
        x <- bget cur;;
        let n := BLEN (b_body x) in
        if decide (s32 (Z.shiftl n 2) < BALLOC (b_body x)) then
          nb <- allocb n;;
          (if decide (prev <> 0) then bset_next prev nb else cret tt);;
          d <- bread cur (b_rp (b_body x)) n;;
          bappend nb d;;
          bset_next nb (b_next x);;
          freeb cur;;
          pack_loop fuel' (if decide (prev = 0) then nb else head) nb (b_next x)
        else pack_loop fuel' head cur (b_next x)
  end.

Definition packblock (bp : Z) : bcmd Z := fuel <- bfuel;; pack_loop fuel bp 0 bp.

(** *** Blocks and the caller's memory *)

(** The bytes stored at [p] and the block returned. *)
Fixpoint bl2mem_loop (fuel : nat) (b n : Z) (acc : bytes) : bcmd (bytes * Z) :=
  match fuel with
  | O => cabort
  | S fuel' =>
      if decide (b = 0) then cret (acc, 0)
      else
        x <- bget b;;
        let i := BLEN (b_body x) in
        if decide (n < i) then
          d <- bread b (b_rp (b_body x)) n;;
          bset b (fun y => set_b_rp (b_rp y + n) y);;
          cret (acc ++ d, b)
        else
          d <- bread b (b_rp (b_body x)) i;;
          bset b (fun y => set_b_rp (b_rp y + i) y);;
          freeb b;;
          bl2mem_loop fuel' (b_next x) (n - i) (acc ++ d)
  end.

Definition bl2mem (b n : Z) : bcmd (bytes * Z) := fuel <- bfuel;; bl2mem_loop fuel b n [].

Fixpoint mem2bl_loop (fuel : nat) (p : bytes) (first prev : Z) : bcmd Z :=
  match fuel with
  | O => cabort
  | S fuel' =>
      let n := if decide (Maxatomic < zlen p) then Maxatomic else zlen p in
      b <- allocb n;;
      (if decide (prev <> 0) then bset_next prev b else cret tt);;
      bappend b (take (Z.to_nat n) p);;
      let first := if decide (prev = 0) then b else first in
      if decide (0 < zlen p - n) then mem2bl_loop fuel' (drop (Z.to_nat n) p) first b else cret first
  end.

Definition mem2bl (p : bytes) : bcmd Z := mem2bl_loop (S (length p)) p 0 0.
End Blocks.
