(* ===== verification/BlockSpec.v ===== *)
(** Lists of blocks as lists of bytes: who owns the blocks of a list, what bytes it
    holds, and what each function on blocks does to both. *)

From S2P Require Import Prelude Mem Block.

(** ** Lists of blocks *)

(** A list of blocks: their addresses and contents, in the order of the links. *)
Abbreviation chain := (list (Z * Body)).

(** The address of the first block of [l], when the last link of [l] is [e]. *)
Definition hda (l : chain) (e : Z) : Z := match l with [] => e | (a, _) :: _ => a end.

(** The heap [m] holds the list [l], whose last link is [e], and the blocks [F] besides. *)
Fixpoint own (m : gmap Z Block) (l : chain) (e : Z) (F : gmap Z Block) : Prop :=
  match l with
  | [] => m = F
  | (a, x) :: l' => a <> 0 /\ F !! a = None /\ own m l' e (<[a := MkBlock (hda l' e) x]> F)
  end.

(** The pointers of a block are in order and in its buffer. *)
Definition body_ok (x : Body) : Prop :=
  0 < b_base x /\ b_base x <= b_rp x /\ b_rp x <= b_wp x /\ b_wp x <= b_lim x /\ b_lim x < 2 ^ 32.
Definition chain_ok (l : chain) : Prop := Forall (fun p => body_ok p.2) l.

#[export] Instance body_ok_dec x : Decision (body_ok x).
Proof. unfold body_ok. apply _. Defined.
#[export] Instance chain_ok_dec l : Decision (chain_ok l).
Proof. unfold chain_ok. apply _. Defined.

(** The bytes of a block, and of a list. *)
Definition bdata (x : Body) : bytes := ld_bytes (b_buf x) (b_rp x) (Z.to_nat (BLEN x)).
Definition cdata (l : chain) : bytes := concat ((fun p => bdata p.2) <$> l).

(** A new block for [n] bytes. *)
Definition fresh_body (n : Z) (x : Body) : Prop :=
  0 < b_base x /\ b_base x <= b_rp x /\ b_rp x = b_wp x /\ b_wp x + n <= b_lim x /\ b_lim x < 2 ^ 32.

(** *** The heap of a list *)

Lemma own_lookup m l e F a v : own m l e F -> F !! a = Some v -> m !! a = Some v.
Proof.
  revert F. induction l as [|[b x] l IH]; simpl; intros F; [by intros ->|].
  intros (_ & N & H) L. apply (IH _ H). rewrite lookup_insert_ne; [done|congruence].
Qed.

Lemma own_fresh m l e F a : own m l e F -> m !! a = None -> F !! a = None.
Proof. intros H N. destruct (F !! a) eqn:E; [|done]. by rewrite (own_lookup _ _ _ _ _ _ H E) in N. Qed.

Lemma own_insert m l e F a v w :
  own m l e F -> F !! a = Some v -> own (<[a := w]> m) l e (<[a := w]> F).
Proof.
  revert F. induction l as [|[b x] l IH]; simpl; intros F; [by intros ->|].
  intros (B & N & H) L. assert (a <> b) by congruence.
  rewrite lookup_insert_ne by done. split_and!; [done..|].
  rewrite insert_insert_ne by done. apply IH; [done|]. by rewrite lookup_insert_ne.
Qed.

Lemma own_new m l e F a w :
  own m l e F -> m !! a = None -> own (<[a := w]> m) l e (<[a := w]> F).
Proof.
  revert F. induction l as [|[b x] l IH]; simpl; intros F; [by intros ->|].
  intros (B & N & H) L.
  assert (a <> b) by (intros ->; rewrite (own_lookup _ _ _ _ b _ H (lookup_insert_eq _ _ _)) in L; done).
  rewrite lookup_insert_ne by done. split_and!; [done..|].
  rewrite insert_insert_ne by done. by apply IH.
Qed.

Lemma own_delete m l e F a v :
  own m l e F -> F !! a = Some v -> own (delete a m) l e (delete a F).
Proof.
  revert F. induction l as [|[b x] l IH]; simpl; intros F; [by intros ->|].
  intros (B & N & H) L. assert (a <> b) by congruence.
  rewrite lookup_delete_ne by done. split_and!; [done..|].
  rewrite <- delete_insert_ne by done. apply IH; [done|]. by rewrite lookup_insert_ne.
Qed.

Lemma own_app m l k e F :
  own m (l ++ k) e F <-> exists G, own G l (hda k e) F /\ own m k e G.
Proof.
  revert F. induction l as [|[b x] l IH]; simpl; intros F.
  - split; [eauto|by intros (? & -> & ?)].
  - rewrite IH. replace (hda (l ++ k) e) with (hda l (hda k e)) by (by destruct l as [|[]]).
    split; [intros (B & N & G & H & K)|intros (G & (B & N & H) & K)]; eauto 6.
Qed.

Lemma own_size m l e F : own m l e F -> (length l + size F)%nat = size m.
Proof.
  revert F. induction l as [|[b x] l IH]; simpl; intros F; [by intros ->|].
  intros (_ & N & H). rewrite <- (IH _ H), map_size_insert_None by done. lia.
Qed.

Lemma own_head m a x l e F :
  own m ((a, x) :: l) e F -> a <> 0 /\ m !! a = Some (MkBlock (hda l e) x).
Proof. intros (N & _ & H). split; [done|]. eapply own_lookup; [done|]. apply lookup_insert_eq. Qed.

Lemma own_ne m l e F : own m l e F -> e = 0 -> l <> [] -> hda l e <> 0.
Proof. destruct l as [|[]]; [done|]. intros (? & _) _ _. done. Qed.

(** The first block is changed. *)
Lemma own_set_head m a x y l e F :
  own m ((a, x) :: l) e F -> own (<[a := MkBlock (hda l e) y]> m) ((a, y) :: l) e F.
Proof.
  intros (N & L & H). split_and!; [done..|].
  rewrite <- (insert_insert_eq F a _ (MkBlock (hda l e) x)). eapply own_insert; [done|].
  apply lookup_insert_eq.
Qed.

(** The first block is freed. *)
Lemma own_free_head m a x l e F : own m ((a, x) :: l) e F -> own (delete a m) l e F.
Proof.
  intros (N & L & H). apply (own_delete _ _ _ _ a (MkBlock (hda l e) x)) in H; [|apply lookup_insert_eq].
  by rewrite delete_insert_id in H.
Qed.

(** The first block is taken off. *)
Lemma own_cut_head m a x l e F n :
  own m ((a, x) :: l) e F -> own (<[a := MkBlock n x]> m) l e (<[a := MkBlock n x]> F).
Proof.
  intros (N & L & H). rewrite <- (insert_insert_eq F a _ (MkBlock (hda l e) x)).
  eapply own_insert; [done|]. apply lookup_insert_eq.
Qed.

(** The last link is changed. *)
Lemma own_link m l a x e F n :
  own m (l ++ [(a, x)]) e F -> own (<[a := MkBlock n x]> m) (l ++ [(a, x)]) n F.
Proof.
  rewrite !own_app. intros (G & H & N & L & K). exists G. split; [done|].
  split_and!; [done..|]. simpl in *. subst m. by rewrite insert_insert_eq.
Qed.

(** *** The bytes of a list *)

Lemma zlen_bdata x : b_rp x <= b_wp x -> zlen (bdata x) = BLEN x.
Proof. intros. apply zlen_ld_bytes. unfold BLEN. lia. Qed.

Lemma bdata_range x : byte_list (bdata x).
Proof. apply ld_bytes_range. Qed.

Lemma cdata_cons a x l : cdata ((a, x) :: l) = bdata x ++ cdata l.
Proof. done. Qed.
Lemma cdata_app l k : cdata (l ++ k) = cdata l ++ cdata k.
Proof. unfold cdata. by rewrite fmap_app, concat_app. Qed.
Lemma cdata_one a x : cdata [(a, x)] = bdata x.
Proof. unfold cdata. simpl. apply app_nil_r. Qed.

Lemma cdata_range l : byte_list (cdata l).
Proof. induction l as [|[a x] l IH]; [constructor|]. rewrite cdata_cons. apply Forall_app. split; [apply bdata_range|done]. Qed.

Lemma chain_ok_cons a x l : chain_ok ((a, x) :: l) <-> body_ok x /\ chain_ok l.
Proof. apply List.Forall_cons_iff. Qed.
Lemma chain_ok_app l k : chain_ok (l ++ k) <-> chain_ok l /\ chain_ok k.
Proof. apply Forall_app. Qed.
Lemma chain_ok_one a x : body_ok x -> chain_ok [(a, x)].
Proof. intros. by apply Forall_singleton. Qed.

Lemma BLEN_ok x : body_ok x -> 0 <= BLEN x < 2 ^ 32 /\ zlen (bdata x) = BLEN x.
Proof. unfold body_ok. intros H. rewrite zlen_bdata by lia. unfold BLEN. lia. Qed.

Lemma bdata_nil x : BLEN x = 0 -> bdata x = [].
Proof. intros E. unfold bdata. by rewrite E. Qed.

(** Bytes are taken off the front, or off the end, or put behind the last. *)
Lemma bdata_skip x n : 0 <= n <= BLEN x ->
  bdata (set_b_rp (b_rp x + n) x) = drop (Z.to_nat n) (bdata x).
Proof.
  intros H. unfold bdata. replace (Z.to_nat (BLEN x)) with (Z.to_nat n + Z.to_nat (BLEN x - n))%nat by lia.
  rewrite ld_bytes_app, drop_app_length' by (by rewrite length_ld_bytes).
  unfold BLEN in *. cbn [set_b_rp b_rp b_wp b_buf]. f_equal; lia.
Qed.

Lemma ld_bytes_take m p k n : (k <= n)%nat -> ld_bytes m p k = take k (ld_bytes m p n).
Proof.
  intros H. replace n with (k + (n - k))%nat by lia.
  by rewrite ld_bytes_app, take_app_length' by (by rewrite length_ld_bytes).
Qed.

Lemma bdata_shorten x n : 0 <= n <= BLEN x ->
  bdata (set_b_wp (b_rp x + n) x) = take (Z.to_nat n) (bdata x).
Proof.
  intros H. unfold bdata. rewrite <- ld_bytes_take by lia.
  unfold BLEN in *. cbn [set_b_wp b_rp b_wp b_buf]. f_equal; lia.
Qed.

(** The block after [memmove(b->wp, l, n); b->wp += n]. *)
Definition grown (l : bytes) (x : Body) : Body :=
  set_b_wp (b_wp x + zlen l) (set_b_buf (st_bytes (b_buf x) (b_wp x) l) x).

Lemma bdata_grown l x : b_rp x <= b_wp x -> byte_list l -> bdata (grown l x) = bdata x ++ l.
Proof.
  intros H R. unfold bdata. pose proof (zlen_nonneg l).
  replace (Z.to_nat (BLEN (grown l x))) with (Z.to_nat (BLEN x) + length l)%nat
    by (unfold BLEN, grown, zlen in *; cbn [set_b_wp set_b_buf b_rp b_wp b_buf] in *; lia).
  rewrite ld_bytes_app. cbn [grown set_b_wp set_b_buf b_rp b_wp b_buf]. f_equal.
  - apply ld_bytes_ext. intros a A. apply rd8_st_bytes_out. unfold BLEN in A. lia.
  - replace (b_rp x + Z.of_nat (Z.to_nat (BLEN x))) with (b_wp x) by (unfold BLEN; lia).
    by apply bytes_at_st_bytes.
Qed.

Lemma body_ok_grown l x : body_ok x -> b_wp x + zlen l <= b_lim x -> body_ok (grown l x).
Proof. unfold body_ok, grown. cbn [set_b_wp set_b_buf b_rp b_wp b_lim b_base]. pose proof (zlen_nonneg l). lia. Qed.

Lemma fresh_ok n x : 0 <= n -> fresh_body n x -> body_ok x /\ bdata x = [] /\ b_wp x + n <= b_lim x.
Proof. unfold fresh_body, body_ok. intros ? H. split_and!; try lia. apply bdata_nil. unfold BLEN. lia. Qed.

Lemma grown_grown l k x : grown k (grown l x) = grown (l ++ k) x.
Proof.
  unfold grown, set_b_wp, set_b_buf. cbn [b_wp b_buf b_rp b_lim b_base b_flag].
  rewrite st_bytes_app, zlen_app. f_equal. lia.
Qed.

(** ** Runs without a fault *)

Section Safe.
Context {MA : Malloc} {R : Type}.
Abbreviation bcmd := (cmd bheap R).

(** [c] ends and [Q] holds then, or the kernel stops because there is no memory. *)
Definition safe {A} (c : bcmd A) (s : bheap) (Q : A -> bheap -> Prop) : Prop :=
  match c s with
  | (Go a, s') => nomem s' = nomem s /\ Q a s'
  | (Abt, s') => nomem s' = true
  | _ => False
  end.

Lemma safe_bind {A B} (c : bcmd A) (k : A -> bcmd B) s Q :
  safe c s (fun a s' => safe (k a) s' Q) -> safe (cbind c k) s Q.
Proof.
  unfold safe, cbind. destruct (c s) as [[a| |r|] s'] eqn:E; try done.
  intros [N H]. destruct (k a s') as [[b| |r|] s2]; try done. by rewrite <- N.
Qed.

Lemma safe_ret {A} (a : A) s (Q : A -> bheap -> Prop) : Q a s -> safe (cret a) s Q.
Proof. done. Qed.
Lemma safe_gets {A} (f : bheap -> A) s (Q : A -> bheap -> Prop) : Q (f s) s -> safe (cgets f) s Q.
Proof. done. Qed.

Lemma safe_mono {A} (c : bcmd A) s (P Q : A -> bheap -> Prop) :
  safe c s P -> (forall a s', P a s' -> Q a s') -> safe c s Q.
Proof. unfold safe. destruct (c s) as [[a| |r|] s']; [intros [N H] K; auto|auto..]. Qed.

Lemma safe_if {A} (P : Prop) `{Decision P} (c d : bcmd A) s Q :
  (P -> safe c s Q) -> (~ P -> safe d s Q) -> safe (if decide P then c else d) s Q.
Proof. by case_decide; auto. Qed.

(** *** Access *)

Lemma safe_bget b x s (Q : Block -> bheap -> Prop) : blks s !! b = Some x -> Q x s -> safe (bget b) s Q.
Proof. intros E H. unfold safe, bget. by rewrite E. Qed.

Lemma safe_bset b n x g s (Q : unit -> bheap -> Prop) :
  blks s !! b = Some (MkBlock n x) ->
  Q tt (set_blks (<[b := MkBlock n (g x)]> (blks s)) s) -> safe (bset b g) s Q.
Proof. intros E H. unfold safe, bset. by rewrite E. Qed.

Lemma safe_bset_next b n n' x s (Q : unit -> bheap -> Prop) :
  blks s !! b = Some (MkBlock n x) ->
  Q tt (set_blks (<[b := MkBlock n' x]> (blks s)) s) -> safe (bset_next b n') s Q.
Proof. intros E H. unfold safe, bset_next. by rewrite E. Qed.

Lemma safe_bread b x p n s (Q : bytes -> bheap -> Prop) :
  blks s !! b = Some x -> 0 <= n -> b_base (b_body x) <= p -> p + n <= b_lim (b_body x) ->
  Q (ld_bytes (b_buf (b_body x)) p (Z.to_nat n)) s -> safe (bread b p n) s Q.
Proof.
  intros E H1 H2 H3 H. unfold bread. apply safe_bind. eapply safe_bget; [done|].
  rewrite decide_True by done. done.
Qed.

(** The first [n] bytes of a block. *)
Lemma safe_bread_data b x n s (Q : bytes -> bheap -> Prop) :
  blks s !! b = Some x -> body_ok (b_body x) -> 0 <= n <= BLEN (b_body x) ->
  Q (take (Z.to_nat n) (bdata (b_body x))) s -> safe (bread b (b_rp (b_body x)) n) s Q.
Proof.
  unfold body_ok, BLEN. intros E O N H. eapply safe_bread; [done|lia..|].
  unfold bdata in H. rewrite <- ld_bytes_take in H by (unfold BLEN; lia). done.
Qed.

(** All bytes of a block. *)
Lemma safe_bread_all b x s (Q : bytes -> bheap -> Prop) :
  blks s !! b = Some x -> body_ok (b_body x) ->
  Q (bdata (b_body x)) s -> safe (bread b (b_rp (b_body x)) (BLEN (b_body x))) s Q.
Proof.
  intros E O H. pose proof (BLEN_ok _ O) as [B L]. eapply safe_bread_data; [done|done|lia|].
  rewrite take_ge; [done|]. unfold zlen in L. lia.
Qed.

Lemma safe_bappend d n x l s (Q : unit -> bheap -> Prop) :
  blks s !! d = Some (MkBlock n x) -> body_ok x -> b_wp x + zlen l <= b_lim x ->
  Q tt (set_blks (<[d := MkBlock n (grown l x)]> (blks s)) s) -> safe (bappend d l) s Q.
Proof.
  unfold body_ok. intros E O L H. apply safe_bind. eapply safe_bget; [done|].
  apply safe_bind. unfold bwrite. apply safe_bind. eapply safe_bget; [done|].
  cbn [b_body]. rewrite decide_True by lia. eapply safe_bset; [done|].
  eapply safe_bset; [apply lookup_insert_eq|]. cbn [set_blks blks ialloc nomem].
  rewrite insert_insert_eq. exact H.
Qed.

Lemma safe_fuel s (Q : nat -> bheap -> Prop) : Q (S (size (blks s))) s -> safe bfuel s Q.
Proof. done. Qed.

(** *** Allocation *)

Lemma ROUND_8 n : 0 <= n -> n <= ROUND n BLOCKALIGN <= n + 7.
Proof.
  intros. unfold ROUND, BLOCKALIGN. change (8 - 1) with (Z.ones 3).
  rewrite <- Z.ldiff_land, Z.ldiff_ones_r by lia. rewrite Z.shiftl_mul_pow2, Z.shiftr_div_pow2 by lia.
  change (2 ^ 3) with 8. change (Z.ones 3) with 7. Z.div_mod_to_equations. lia.
Qed.

Lemma align_8 n : 0 <= n -> n - 7 <= Z.land n (Z.lnot (BLOCKALIGN - 1)) <= n.
Proof.
  intros. unfold BLOCKALIGN. change (8 - 1) with (Z.ones 3).
  rewrite <- Z.ldiff_land, Z.ldiff_ones_r by lia. rewrite Z.shiftl_mul_pow2, Z.shiftr_div_pow2 by lia.
  change (2 ^ 3) with 8. Z.div_mod_to_equations. lia.
Qed.

Lemma _allocb_spec n (s : bheap) : 0 <= n < 2 ^ 31 ->
  _allocb (R := R) n s = (Go 0, s) \/
  exists b x, _allocb (R := R) n s = (Go b, set_blks (<[b := MkBlock 0 x]> (blks s)) s) /\
    b <> 0 /\ blks s !! b = None /\ fresh_body n x /\ b_flag x = 0.
Proof.
  intros N. unfold _allocb. rewrite (u32_small (_ + _ + _)) by (unfold sizeof_Block, Hdrspc; lia).
  destruct (mallocz _ _) as [[b sz]|] eqn:E; [right|by left].
  pose proof (malloc_fresh _ _ _ _ E) as F. apply malloc_room in E as (B & S1 & S2).
  unfold sizeof_Block, Hdrspc in *.
  pose proof (ROUND_8 n) as R1. pose proof (ROUND_8 (b + 32)) as R2. pose proof (align_8 (b + sz)) as R3.
  rewrite (u32_small (b + sz)) by lia. rewrite (u32_small (ROUND _ _)) by lia.
  rewrite decide_False by lia. eexists b, _. split; [reflexivity|]. split_and!; [lia|done| |done].
  unfold fresh_body. cbn [b_base b_rp b_wp b_lim]. lia.
Qed.

Lemma safe_allocb n s (Q : Z -> bheap -> Prop) : 0 <= n < 2 ^ 31 ->
  (forall b x, b <> 0 -> blks s !! b = None -> fresh_body n x ->
    Q b (set_blks (<[b := MkBlock 0 x]> (blks s)) s)) ->
  safe (allocb n) s Q.
Proof.
  intros N H. unfold safe, allocb, cbind.
  destruct (_allocb_spec n s N) as [->|(b & x & -> & B & F & X & _)]; [done|].
  rewrite decide_False by done. simpl. split; [done|]. by apply H.
Qed.

Lemma safe_freeb b x s (Q : unit -> bheap -> Prop) :
  b <> 0 -> blks s !! b = Some x ->
  (forall s', blks s' = delete b (blks s) -> Q tt s') -> safe (freeb b) s Q.
Proof.
  intros B E H. unfold freeb. rewrite decide_False by done.
  apply safe_bind. eapply safe_bget; [done|]. apply safe_bind. apply safe_if; intros _.
  - split; [done|]. split; [done|]. by apply H.
  - split; [done|]. split; [done|]. by apply H.
Qed.

(** The first block of a list is freed. *)
Lemma safe_free_head a x l e F s (Q : unit -> bheap -> Prop) :
  own (blks s) ((a, x) :: l) e F ->
  (forall s', own (blks s') l e F -> Q tt s') -> safe (freeb a) s Q.
Proof.
  intros O H. pose proof (own_head _ _ _ _ _ _ O) as [A L]. eapply safe_freeb; [done|done|].
  intros s' E. apply H. rewrite E. by eapply own_free_head.
Qed.

(** The first block of a list is taken off ([b->next = n]) and freed. *)
Lemma safe_drop_head {A} a x l e F n (k : bcmd A) s (Q : A -> bheap -> Prop) :
  own (blks s) ((a, x) :: l) e F ->
  (forall s', own (blks s') l e F -> safe k s' Q) -> safe (bset_next a n;; freeb a;; k) s Q.
Proof.
  intros O H. pose proof (own_head _ _ _ _ _ _ O) as [N L]. apply safe_bind.
  eapply safe_bset_next; [done|]. apply safe_bind. eapply safe_freeb; [done|apply lookup_insert_eq|].
  intros s' E. apply H. rewrite E. cbn [set_blks blks].
  rewrite delete_insert_eq. by eapply own_free_head.
Qed.

Lemma freeblist_loop_ok l fuel F s (Q : unit -> bheap -> Prop) :
  own (blks s) l 0 F -> (length l < fuel)%nat ->
  (forall s', blks s' = F -> Q tt s') -> safe (freeblist_loop fuel (hda l 0)) s Q.
Proof.
  revert fuel s. induction l as [|[a x] l IH]; intros [|fuel] s O L H; simpl in L; try lia.
  - apply safe_ret, H. done.
  - pose proof (own_head _ _ _ _ _ _ O) as [A E]. simpl. rewrite decide_False by done.
    apply safe_bind. eapply safe_bget; [done|]. eapply safe_drop_head; [done|].
    intros s' O'. apply IH; [done|lia|done].
Qed.

(** The fuel of the loops is enough. *)
Lemma own_fuel s l e F : own (blks s) l e F -> (length l < S (size (blks s)))%nat.
Proof. intros O. apply own_size in O. lia. Qed.

Lemma safe_freeblist l F s (Q : unit -> bheap -> Prop) :
  own (blks s) l 0 F -> (forall s', blks s' = F -> Q tt s') -> safe (freeblist (hda l 0)) s Q.
Proof.
  intros O H. apply safe_bind, safe_fuel. eapply freeblist_loop_ok; [done|by eapply own_fuel|done].
Qed.

(** *** Lengths *)

Definition chain_sum (f : Body -> Z) (l : chain) : Z := foldr (fun p n => f p.2 + n) 0 l.

Lemma s32_add a b : s32 (s32 a + b) = s32 (a + b).
Proof. unfold s32. rewrite <- Z.add_sub_swap, <- Z.add_assoc. zlia. Qed.

Lemma blen_loop_ok f l fuel n F s (Q : Z -> bheap -> Prop) :
  own (blks s) l 0 F -> (length l < fuel)%nat ->
  Q (s32 (n + chain_sum f l)) s -> safe (blen_loop f fuel (hda l 0) (s32 n)) s Q.
Proof.
  revert fuel n F. induction l as [|[a x] l IH]; intros [|fuel] n F O L H; simpl in L; try lia.
  - apply safe_ret. simpl in H. by rewrite Z.add_0_r in H.
  - pose proof (own_head _ _ _ _ _ _ O) as [A E]. simpl. rewrite decide_False by done.
    apply safe_bind. eapply safe_bget; [done|]. cbn [b_next b_body]. rewrite s32_add.
    eapply IH; [apply O|lia|]. simpl in H. by rewrite <- Z.add_assoc.
Qed.

Lemma chain_sum_BLEN l : chain_ok l -> chain_sum BLEN l = zlen (cdata l).
Proof.
  induction l as [|[a x] l IH]; intros O; [done|]. apply chain_ok_cons in O as [O1 O2].
  rewrite cdata_cons, zlen_app. simpl. rewrite IH by done. pose proof (BLEN_ok _ O1). lia.
Qed.

Lemma safe_blocklen l F s (Q : Z -> bheap -> Prop) :
  own (blks s) l 0 F -> chain_ok l -> zlen (cdata l) < 2 ^ 31 ->
  Q (zlen (cdata l)) s -> safe (blocklen (hda l 0)) s Q.
Proof.
  intros O K L H. apply safe_bind, safe_fuel. change 0 with (s32 0) at 2.
  eapply blen_loop_ok; [done|by eapply own_fuel|].
  rewrite chain_sum_BLEN, Z.add_0_l by done. rewrite s32_small; [done|]. pose proof (zlen_nonneg (cdata l)). lia.
Qed.
(** *** Copies *)

(** The heap [F] beside the list has the block [b]; it is changed. *)
Lemma own_cons_set m a x l e F b n y w :
  own m ((a, x) :: l) e F -> F !! b = Some (MkBlock n y) ->
  a <> b /\ own (<[b := w]> m) l e (<[b := w]> (<[a := MkBlock (hda l e) x]> F)).
Proof.
  intros (N & L & H) E. assert (a <> b) by congruence. split; [done|].
  eapply own_insert; [done|]. by rewrite lookup_insert_ne.
Qed.

Lemma own_cons_unset m a x l e F b w : a <> 0 -> F !! a = None -> a <> b ->
  own m l e (<[b := w]> (<[a := MkBlock (hda l e) x]> F)) -> own m ((a, x) :: l) e (<[b := w]> F).
Proof. intros N L D H. split_and!; [done|by rewrite lookup_insert_ne|]. by rewrite insert_insert_ne. Qed.

Lemma grown_nil x : grown [] x = x.
Proof. destruct x. unfold grown, set_b_wp, set_b_buf. simpl. by rewrite zlen_nil, Z.add_0_r. Qed.

Lemma zlen_take {A} n (l : list A) : 0 <= n -> zlen (take (Z.to_nat n) l) = Z.min n (zlen l).
Proof. intros. unfold zlen. rewrite length_take. lia. Qed.

Lemma zlen_drop {A} n (l : list A) : 0 <= n -> zlen (drop (Z.to_nat n) l) = Z.max 0 (zlen l - n).
Proof. intros. unfold zlen. rewrite length_drop. lia. Qed.

Lemma ztake_app {A} n (l k : list A) : 0 <= n ->
  take (Z.to_nat n) (l ++ k) = take (Z.to_nat (Z.min n (zlen l))) l ++ take (Z.to_nat (n - Z.min n (zlen l))) k.
Proof.
  intros. rewrite take_app. unfold zlen. f_equal; [|f_equal; lia].
  destruct (decide (Z.of_nat (length l) <= n)).
  - rewrite !take_ge by lia. done.
  - f_equal. lia.
Qed.

Lemma zdrop_app {A} n (l k : list A) : 0 <= n ->
  drop (Z.to_nat n) (l ++ k) = drop (Z.to_nat (Z.min n (zlen l))) l ++ drop (Z.to_nat (n - Z.min n (zlen l))) k.
Proof.
  intros. rewrite drop_app. unfold zlen. f_equal; [|f_equal; lia].
  destruct (decide (Z.of_nat (length l) <= n)).
  - rewrite !drop_ge by lia. done.
  - f_equal. lia.
Qed.

Lemma concat_loop_ok l fuel F nb n y s (Q : unit -> bheap -> Prop) :
  own (blks s) l 0 F -> (length l < fuel)%nat -> F !! nb = Some (MkBlock n y) ->
  body_ok y -> chain_ok l -> b_wp y + zlen (cdata l) <= b_lim y ->
  (forall s', own (blks s') l 0 (<[nb := MkBlock n (grown (cdata l) y)]> F) -> Q tt s') ->
  safe (concat_loop fuel nb (hda l 0)) s Q.
Proof.
  revert fuel F y s. induction l as [|[a x] l IH]; intros [|fuel] F y s O L E Y K W H; simpl in L; try lia.
  - apply safe_ret, H. simpl in *. rewrite grown_nil, insert_id by done. done.
  - pose proof (own_head _ _ _ _ _ _ O) as [A M]. apply chain_ok_cons in K as [K1 K2].
    rewrite cdata_cons, zlen_app in W. pose proof (zlen_nonneg (cdata l)).
    pose proof O as O'. destruct O' as (_ & L1 & _). simpl. rewrite decide_False by done.
    apply safe_bind. eapply safe_bget; [done|]. apply safe_bind. eapply safe_bread_all; [done|done|].
    apply safe_bind. cbn [b_body]. eapply safe_bappend; [eapply own_lookup; [done|done]|done|lia|].
    eapply own_cons_set in O as [D O]; [|done]. cbn [b_next].
    eapply (IH fuel); [apply O|lia|apply lookup_insert_eq| | | |].
    + by apply body_ok_grown; [|lia].
    + done.
    + cbn [grown set_b_wp b_wp b_lim]. cbn [set_b_buf b_lim]. lia.
    + intros s' O'. apply H. rewrite insert_insert_eq, grown_grown, <- (cdata_cons a) in O'.
      by apply own_cons_unset.
Qed.

(** The bytes of [l] that [count] bytes cover. *)
Lemma copy_loop_ok l fuel F nb n y count s (Q : Z -> bheap -> Prop) :
  own (blks s) l 0 F -> (length l < fuel)%nat -> F !! nb = Some (MkBlock n y) ->
  body_ok y -> chain_ok l -> 0 <= count -> b_wp y + count <= b_lim y ->
  (forall s', own (blks s') l 0 (<[nb := MkBlock n (grown (take (Z.to_nat count) (cdata l)) y)]> F) ->
    Q (Z.max 0 (count - zlen (cdata l))) s') ->
  safe (copy_loop fuel nb (hda l 0) count) s Q.
Proof.
  revert fuel F y count s. induction l as [|[a x] l IH];
    intros [|fuel] F y count s O L E Y K C W H; simpl in L; try lia.
  - apply safe_if; intros D; [by destruct D|]. apply safe_ret. simpl in *.
    change (cdata []) with (@Datatypes.nil Z) in H. specialize (H s).
    rewrite take_nil, grown_nil, insert_id in H by done.
    replace (Z.max 0 (count - zlen (@Datatypes.nil Z))) with count in H by (change (zlen (@Datatypes.nil Z)) with 0; lia).
    by apply H.
  - pose proof (own_head _ _ _ _ _ _ O) as [A M]. apply chain_ok_cons in K as [K1 K2].
    pose proof (BLEN_ok _ K1) as [B1 B2]. pose proof (zlen_nonneg (cdata l)).
    simpl. apply safe_if; intros D.
    2:{ assert (count = 0) as -> by lia. apply safe_ret.
      simpl in H. rewrite grown_nil, insert_id in H by done.
      rewrite Z.max_l in H by (pose proof (zlen_nonneg (cdata ((a, x) :: l))); lia). by apply H. }
    rewrite cdata_cons, ztake_app, zlen_app, B2 in H by lia.
    pose proof O as O'. destruct O' as (_ & L1 & _).
    apply safe_bind. eapply safe_bget; [done|]. apply safe_bind. cbn [b_body].
    set (m := if decide (count < BLEN x) then count else BLEN x).
    assert (m = Z.min count (BLEN x)) as Em by (unfold m; case_decide; lia).
    eapply (safe_bread_data _ (MkBlock (hda l 0) x)); [done|done|cbn [b_body]; lia|]. cbn [b_body b_next].
    assert (zlen (take (Z.to_nat m) (bdata x)) = m) as Lm by (rewrite zlen_take; lia).
    apply safe_bind. eapply safe_bappend; [eapply own_lookup; [done|done]|done|lia|].
    eapply own_cons_set in O as [D' O]; [|done].
    eapply (IH fuel); [apply O|lia|apply lookup_insert_eq| |done|lia| |].
    + by apply body_ok_grown; [|lia].
    + cbn [grown set_b_wp b_wp b_lim]. cbn [set_b_buf b_lim]. lia.
    + intros s' O'. rewrite insert_insert_eq, grown_grown, Em in O'.
      replace (Z.max 0 (count - m - zlen (cdata l))) with (Z.max 0 (count - (BLEN x + zlen (cdata l)))) by lia.
      apply H. by apply own_cons_unset.
Qed.

(** A block with the data [d], all that is left of a list. *)
Lemma safe_concatblock a x l F s (Q : Z -> bheap -> Prop) :
  own (blks s) ((a, x) :: l) 0 F -> chain_ok ((a, x) :: l) -> zlen (cdata ((a, x) :: l)) < 2 ^ 31 ->
  (forall b y s', own (blks s') [(b, y)] 0 F -> body_ok y -> bdata y = cdata ((a, x) :: l) -> Q b s') ->
  safe (concatblock a) s Q.
Proof.
  intros O K L H. pose proof (own_head _ _ _ _ _ _ O) as [A M].
  apply safe_bind. eapply safe_bget; [done|]. cbn [b_next]. apply safe_if; intros D.
  - apply safe_ret. destruct l as [|[c z] l]; [|by destruct O as (_ & _ & ? & _)].
    apply chain_ok_cons in K as [K _]. eapply H; [done|done|by rewrite cdata_one].
  - apply safe_bind. apply (safe_blocklen ((a, x) :: l) F); [done..|].
    apply safe_bind. pose proof (zlen_nonneg (cdata ((a, x) :: l))).
    apply safe_allocb; [lia|]. intros b y B N Y. apply fresh_ok in Y as (Y1 & Y2 & Y3); [|lia].
    apply safe_bind, safe_fuel. apply safe_bind.
    assert (F !! b = None) by (by eapply own_fresh).
    apply (own_new _ _ _ _ b (MkBlock 0 y)) in O; [|done].
    eapply (concat_loop_ok ((a, x) :: l)); [apply O|by eapply own_fuel|apply lookup_insert_eq|done|done|done|].
    intros s' O'. rewrite insert_insert_eq in O'. apply safe_bind.
    eapply (safe_freeblist ((a, x) :: l)); [done|]. intros s2 E. apply safe_ret.
    eapply (H b (grown (cdata ((a, x) :: l)) y)).
    + by split_and!.
    + by apply body_ok_grown; [|lia].
    + rewrite bdata_grown, Y2; [done|unfold body_ok in Y1; lia|apply cdata_range].
Qed.
Lemma safe_copyblock l F count s (Q : Z -> bheap -> Prop) :
  own (blks s) l 0 F -> chain_ok l -> 0 <= count < 2 ^ 31 ->
  (forall b y s', own (blks s') l 0 (<[b := MkBlock 0 y]> F) -> b <> 0 -> F !! b = None -> body_ok y ->
    bdata y = take (Z.to_nat count) (cdata l ++ replicate (Z.to_nat count) 0) -> Q b s') ->
  safe (copyblock (hda l 0) count) s Q.
Proof.
  intros O K C H. apply safe_bind. apply safe_allocb; [done|]. intros b y B N Y.
  apply fresh_ok in Y as (Y1 & Y2 & Y3); [|lia].
  assert (F !! b = None) as Fb by (by eapply own_fresh).
  apply (own_new _ _ _ _ b (MkBlock 0 y)) in O; [|done]. pose proof (zlen_nonneg (cdata l)) as Z0.
  apply safe_bind, safe_fuel, safe_bind.
  eapply (copy_loop_ok l); [apply O|by eapply own_fuel|apply lookup_insert_eq|done|done|lia|done|].
  intros s' O'. rewrite insert_insert_eq in O'.
  set (d := take (Z.to_nat count) (cdata l)) in *.
  assert (zlen d = Z.min count (zlen (cdata l))) as Ld by (unfold d; rewrite zlen_take; lia).
  assert (byte_list d) as Rd by (apply Forall_take, cdata_range).
  rewrite ztake_app, take_replicate in H by lia. fold d in Y1. pose proof Y1 as Y1'. unfold body_ok in Y1'. apply safe_bind, safe_if; intros D.
  - eapply safe_bappend; [eapply own_lookup; [done|apply lookup_insert_eq]|by apply body_ok_grown; [|lia]| |].
    { rewrite zlen_replicate by lia. cbn [grown set_b_wp set_b_buf b_wp b_lim]. lia. }
    apply safe_ret. rewrite grown_grown. eapply own_insert in O'; [|apply lookup_insert_eq].
    rewrite insert_insert_eq in O'. eapply H; [exact O'|done|done| |].
    + apply body_ok_grown; [done|]. rewrite zlen_app, zlen_replicate; lia.
    + rewrite bdata_grown, Y2; [|lia|by apply Forall_app; split; [done|apply Forall_replicate]].
      unfold d. rewrite !take_ge by (unfold zlen in *; lia). simpl. do 2 f_equal. lia.
  - apply safe_ret, safe_ret. eapply H; [exact O'|done|done|by apply body_ok_grown; [|lia]|].
    rewrite bdata_grown, Y2 by (lia || done). simpl. unfold d.
    replace (Z.min count (zlen (cdata l))) with count by lia. rewrite Z.sub_diag. simpl. by rewrite app_nil_r.
Qed.

(** A block of its own is cut or filled up with zeros. *)
Lemma safe_adjustblock a x F len s (Q : Z -> bheap -> Prop) :
  own (blks s) [(a, x)] 0 F -> body_ok x -> 0 <= len < 2 ^ 31 ->
  (forall b y s', own (blks s') [(b, y)] 0 F -> body_ok y ->
    bdata y = take (Z.to_nat len) (bdata x ++ replicate (Z.to_nat len) 0) -> Q b s') ->
  safe (adjustblock a len) s Q.
Proof.
  intros O K C H. pose proof (own_head _ _ _ _ _ _ O) as [A M]. pose proof (BLEN_ok _ K) as [B1 B2].
  unfold adjustblock. rewrite decide_False by lia.
  apply safe_bind. eapply safe_bget; [done|]. cbn [b_body]. apply safe_if; intros D.
  - apply safe_bind. eapply (safe_copyblock [(a, x)]); [done|by apply chain_ok_one|done|].
    intros b y s' O' B F0 Y E. rewrite cdata_one in E. apply safe_bind.
    eapply (safe_freeblist [(a, x)]); [done|]. intros s2 E2. apply safe_ret. by eapply (H b y).
  - unfold body_ok in K. apply safe_bind. rewrite ztake_app, take_replicate, B2 in H by lia.
    unfold BLEN in *. apply safe_if; intros G.
    + unfold bwrite. apply safe_bind. eapply safe_bget; [done|]. cbn [b_body].
      rewrite zlen_replicate by lia. rewrite decide_True by lia. eapply safe_bset; [done|].
      apply safe_bind. eapply safe_bset; [apply lookup_insert_eq|]. apply safe_ret.
      cbn [set_blks blks ialloc nomem]. rewrite insert_insert_eq. set (r := replicate _ 0).
      assert (byte_list r) as Rr by (by apply Forall_replicate).
      replace (set_b_wp _ _) with (grown r x).
      2:{ unfold grown, set_b_wp. f_equal. unfold r. rewrite zlen_replicate by lia. cbn [set_b_buf b_rp b_wp]. lia. }
      eapply H; [by eapply own_set_head| |].
      * apply body_ok_grown; [unfold body_ok; lia|]. unfold r. rewrite zlen_replicate; lia.
      * rewrite bdata_grown by (done || lia). rewrite take_ge by (unfold zlen in B2; lia).
        f_equal. unfold r. f_equal. lia.
    + apply safe_ret, safe_bind. eapply safe_bset; [done|]. apply safe_ret.
      eapply H; [by eapply own_set_head|unfold body_ok; cbn [set_b_wp b_base b_rp b_wp b_lim]; lia|].
      rewrite bdata_shorten by (unfold BLEN; lia).
      replace (Z.min len (b_wp x - b_rp x)) with len by lia. rewrite Z.sub_diag. simpl. by rewrite app_nil_r.
Qed.
(** *** Bytes taken off the front *)

Lemma body_ok_skip n x : body_ok x -> 0 <= n <= BLEN x -> body_ok (set_b_rp (b_rp x + n) x).
Proof. unfold body_ok, BLEN. cbn [set_b_rp b_base b_rp b_wp b_lim]. lia. Qed.
Lemma body_ok_shorten n x : body_ok x -> 0 <= n <= BLEN x -> body_ok (set_b_wp (b_rp x + n) x).
Proof. unfold body_ok, BLEN. cbn [set_b_wp b_base b_rp b_wp b_lim]. lia. Qed.
Lemma BLEN_skip n x : BLEN (set_b_rp (b_rp x + n) x) = BLEN x - n.
Proof. unfold BLEN. cbn [set_b_rp b_rp b_wp]. lia. Qed.

Lemma pull_loop_ok l fuel F count n0 s (Q : Z * Z -> bheap -> Prop) :
  own (blks s) l 0 F -> (length l < fuel)%nat -> chain_ok l -> 0 <= count ->
  (forall l' s', own (blks s') l' 0 F -> chain_ok l' -> cdata l' = drop (Z.to_nat count) (cdata l) ->
    Q (hda l' 0, n0 + Z.min count (zlen (cdata l))) s') ->
  safe (pull_loop fuel (hda l 0) count n0) s Q.
Proof.
  revert fuel count n0 s. induction l as [|[a x] l IH]; intros [|fuel] count n0 s O L K C H; simpl in L; try lia.
  - apply safe_ret.
    specialize (H [] s). change (zlen (cdata [])) with 0 in H. rewrite Z.min_r, Z.add_0_r in H by lia.
    apply H; [done|done|]. change (cdata []) with (@Datatypes.nil Z). by rewrite drop_nil.
  - pose proof (own_head _ _ _ _ _ _ O) as [A M]. pose proof K as K'. apply chain_ok_cons in K' as [K1 K2].
    pose proof (BLEN_ok _ K1) as [B1 B2]. pose proof (zlen_nonneg (cdata l)).
    simpl. apply safe_if; intros D.
    2:{ assert (count = 0) as -> by lia. apply safe_ret. specialize (H ((a, x) :: l) s).
      rewrite Z.min_l, Z.add_0_r in H by apply zlen_nonneg. by apply H. }
    rewrite cdata_cons, zlen_app, zdrop_app, B2 in H by lia.
    apply safe_bind. eapply safe_bget; [done|]. cbn [b_body b_next].
    set (m := if decide (count < BLEN x) then count else BLEN x).
    assert (m = Z.min count (BLEN x)) as Em by (unfold m; case_decide; lia).
    apply safe_bind. eapply safe_bset; [done|]. apply safe_bind. eapply safe_bget; [apply lookup_insert_eq|].
    cbn [b_body b_next]. rewrite BLEN_skip. eapply own_set_head in O. apply safe_if; intros G.
    + eapply safe_drop_head; [exact O|]. intros s' O'. apply (IH fuel); [done|lia|done|lia|].
      intros l' s2 O2 K' E. replace (n0 + m + _) with (n0 + Z.min count (BLEN x + zlen (cdata l))) by lia.
      apply H; [done|done|]. rewrite E, (drop_ge (bdata x)) by (unfold zlen in B2; lia). simpl.
      f_equal. lia.
    + assert (m = count) as -> by lia. rewrite Z.sub_diag. destruct fuel; [lia|]. simpl.
      rewrite decide_False by tauto. apply safe_ret.
      replace (n0 + count) with (n0 + Z.min count (BLEN x + zlen (cdata l))) by lia.
      eapply (H ((a, _) :: l)); [exact O|apply chain_ok_cons; split; [by apply body_ok_skip; [|lia]|done]|].
      rewrite cdata_cons, bdata_skip by lia. replace (Z.min count (BLEN x)) with count by lia.
      by rewrite Z.sub_diag.
Qed.

Lemma safe_pullblock l F count s (Q : Z * Z -> bheap -> Prop) :
  own (blks s) l 0 F -> chain_ok l -> 0 <= count ->
  (forall l' s', own (blks s') l' 0 F -> chain_ok l' -> cdata l' = drop (Z.to_nat count) (cdata l) ->
    Q (hda l' 0, Z.min count (zlen (cdata l))) s') ->
  safe (pullblock (hda l 0) count) s Q.
Proof.
  intros O K C H. apply safe_bind, safe_fuel. pose proof (own_fuel _ _ _ _ O).
  eapply pull_loop_ok; [done|lia|done|done|]. intros. rewrite Z.add_0_l. by eapply H.
Qed.

(** What is left of the list after [n] bytes were copied out: nothing, or a list whose first
    block has bytes. *)
Definition rest_of (l l' : chain) : Prop :=
  l' = [] \/
  exists k a x l2 j, l = k ++ (a, x) :: l2 /\ l' = (a, set_b_rp (b_rp x + j) x) :: l2 /\ 0 <= j < BLEN x.

Lemma rest_of_cons p l l' : rest_of l l' -> rest_of (p :: l) l'.
Proof.
  intros [->|(k & a & x & l2 & j & -> & E & J)]; [by left|]. right. by exists (p :: k), a, x, l2, j.
Qed.

Lemma bl2mem_loop_ok l fuel F n acc s (Q : bytes * Z -> bheap -> Prop) :
  own (blks s) l 0 F -> (length l < fuel)%nat -> chain_ok l -> 0 <= n ->
  (forall l' s', own (blks s') l' 0 F -> chain_ok l' -> rest_of l l' ->
    cdata l' = drop (Z.to_nat n) (cdata l) ->
    Q (acc ++ take (Z.to_nat n) (cdata l), hda l' 0) s') ->
  safe (bl2mem_loop fuel (hda l 0) n acc) s Q.
Proof.
  revert fuel n acc s. induction l as [|[a x] l IH]; intros [|fuel] n acc s O L K C H; simpl in L; try lia.
  - apply safe_ret. specialize (H [] s). change (cdata []) with (@Datatypes.nil Z) in H.
    rewrite take_nil, drop_nil, app_nil_r in H. apply H; [done|done|by left|done].
  - pose proof (own_head _ _ _ _ _ _ O) as [A M]. pose proof K as K'. apply chain_ok_cons in K' as [K1 K2].
    pose proof (BLEN_ok _ K1) as [B1 B2]. pose proof (zlen_nonneg (cdata l)).
    rewrite cdata_cons, ztake_app, zdrop_app, B2 in H by lia.
    simpl. rewrite decide_False by done.
    apply safe_bind. eapply safe_bget; [done|]. cbn [b_body b_next]. apply safe_if; intros G.
    + apply safe_bind. eapply (safe_bread_data _ (MkBlock (hda l 0) x)); [done|done|cbn [b_body]; lia|].
      apply safe_bind. eapply safe_bset; [done|]. apply safe_ret. cbn [b_body]. eapply own_set_head in O.
      rewrite Z.min_l, Z.sub_diag in H by lia. simpl in H. rewrite app_nil_r in H.
      eapply (H ((a, _) :: l)); [exact O|apply chain_ok_cons; split; [apply body_ok_skip; [done|lia]|done]| |].
      * right. exists [], a, x, l, n. split_and!; [done|done|lia|lia].
      * by rewrite cdata_cons, bdata_skip by lia.
    + apply safe_bind. eapply (safe_bread_all _ (MkBlock (hda l 0) x)); [done|done|]. cbn [b_body].
      apply safe_bind. eapply safe_bset; [done|]. eapply own_set_head in O.
      apply safe_bind. eapply safe_free_head; [exact O|]. intros s' O'.
      apply (IH fuel); [done|lia|done|lia|]. intros l' s2 O2 K2' RE E.
      rewrite Z.min_r, take_ge, drop_ge in H by (unfold zlen in B2; lia). rewrite <- app_assoc.
      apply H; [done|done|by apply rest_of_cons|done].
Qed.

Lemma safe_bl2mem l F n s (Q : bytes * Z -> bheap -> Prop) :
  own (blks s) l 0 F -> chain_ok l -> 0 <= n ->
  (forall l' s', own (blks s') l' 0 F -> chain_ok l' -> rest_of l l' ->
    cdata l' = drop (Z.to_nat n) (cdata l) ->
    Q (take (Z.to_nat n) (cdata l), hda l' 0) s') ->
  safe (bl2mem (hda l 0) n) s Q.
Proof.
  intros O K C H. apply safe_bind, safe_fuel.
  eapply bl2mem_loop_ok; [done|by eapply own_fuel|done|done|]. intros. by eapply H.
Qed.
(** *** A part of a list *)

Lemma trim_skip_ok l fuel F off s (Q : Z * Z -> bheap -> Prop) :
  own (blks s) l 0 F -> (length l < fuel)%nat -> chain_ok l -> zlen (cdata l) < 2 ^ 31 ->
  0 <= off <= zlen (cdata l) -> l <> [] ->
  (forall a x l' off' s', own (blks s') ((a, x) :: l') 0 F -> chain_ok ((a, x) :: l') ->
    0 <= off' <= BLEN x -> drop (Z.to_nat off') (cdata ((a, x) :: l')) = drop (Z.to_nat off) (cdata l) ->
    Q (a, off') s') ->
  safe (trim_skip fuel (hda l 0) off) s Q.
Proof.
  revert fuel off s. induction l as [|[a x] l IH]; intros [|fuel] off s O L K T C N H; simpl in L; [done|done|lia|].
  pose proof (own_head _ _ _ _ _ _ O) as [A M]. pose proof K as K'. apply chain_ok_cons in K' as [K1 K2].
  pose proof (BLEN_ok _ K1) as [B1 B2]. pose proof (zlen_nonneg (cdata l)).
  rewrite cdata_cons, zlen_app, B2 in T, C. simpl.
  apply safe_bind. eapply safe_bget; [done|]. cbn [b_body b_next]. rewrite !u32_small by lia.
  apply safe_if; intros D.
  - eapply safe_drop_head; [done|]. intros s' O'.
    apply (IH fuel); [done|lia|done|lia|lia| |].
    + intros ->. change (zlen (cdata [])) with 0 in *. lia.
    + intros a' x' l' off' s2 O2 K3 C' E. eapply H; [done|done|done|]. rewrite E, cdata_cons.
      rewrite zdrop_app, B2 by lia. rewrite (drop_ge (bdata x)) by (unfold zlen in B2; lia). simpl.
      f_equal. lia.
  - apply safe_ret. eapply H; [done|done|lia|done].
Qed.

Lemma trim_keep_ok l fuel F n s (Q : Z * Z -> bheap -> Prop) :
  own (blks s) l 0 F -> (length l < fuel)%nat -> chain_ok l -> zlen (cdata l) < 2 ^ 31 ->
  0 <= n <= zlen (cdata l) -> l <> [] ->
  (forall k a x l2, l = k ++ (a, x) :: l2 -> 0 <= n - zlen (cdata k) <= BLEN x ->
    Q (a, n - zlen (cdata k)) s) ->
  safe (trim_keep fuel (hda l 0) n) s Q.
Proof.
  revert fuel F n. induction l as [|[a x] l IH]; intros [|fuel] F n O L K T C N H; simpl in L; [done|done|lia|].
  pose proof (own_head _ _ _ _ _ _ O) as [A M]. pose proof K as K'. apply chain_ok_cons in K' as [K1 K2].
  pose proof (BLEN_ok _ K1) as [B1 B2]. pose proof (zlen_nonneg (cdata l)).
  rewrite cdata_cons, zlen_app, B2 in T, C. simpl.
  apply safe_bind. eapply safe_bget; [done|]. cbn [b_body b_next]. rewrite !u32_small by lia.
  apply safe_if; intros D.
  - eapply IH; [apply O|lia|done|lia|lia| |].
    + intros ->. change (zlen (cdata [])) with 0 in *. lia.
    + intros k b y l2 -> C'. specialize (H ((a, x) :: k) b y l2). rewrite cdata_cons, zlen_app, B2 in H.
      replace (n - (BLEN x + zlen (cdata k))) with (n - BLEN x - zlen (cdata k)) in H by lia. by apply H.
  - apply safe_ret. specialize (H [] a x l eq_refl). change (zlen (cdata [])) with 0 in H.
    rewrite Z.sub_0_r in H. apply H. lia.
Qed.

Lemma safe_trimblock l F off n s (Q : Z -> bheap -> Prop) :
  own (blks s) l 0 F -> chain_ok l -> zlen (cdata l) < 2 ^ 31 -> l <> [] ->
  0 <= off -> 0 <= n -> off + n < 2 ^ 31 ->
  (forall l' s', own (blks s') l' 0 F -> chain_ok l' ->
    cdata l' = (if decide (zlen (cdata l) < off + n) then []
                else take (Z.to_nat n) (drop (Z.to_nat off) (cdata l))) -> Q (hda l' 0) s') ->
  safe (trimblock (hda l 0) off n) s Q.
Proof.
  intros O K T N C1 C2 C3 H. apply safe_bind. apply (safe_blocklen l F); [done..|].
  rewrite s32_small by lia. apply safe_if; intros D.
  { rewrite decide_True in H by done. apply safe_bind. eapply safe_freeblist; [done|]. intros s' E.
    apply safe_ret. apply (H []); [done|by constructor|done]. }
  rewrite decide_False in H by done. apply safe_bind, safe_fuel, safe_bind.
  eapply trim_skip_ok; [done|by eapply own_fuel|done|done|lia|done|].
  intros a x l1 o s1 O1 K1 C4 E1. pose proof K1 as K1'. apply chain_ok_cons in K1' as [Kx K1'].
  pose proof (BLEN_ok _ Kx) as [B1 B2]. pose proof (own_head _ _ _ _ _ _ O1) as [_ M].
  apply safe_bind. eapply safe_bset; [done|].
  apply (own_set_head _ _ _ (set_b_rp (b_rp x + o) x)) in O1.
  apply safe_bind, safe_fuel, safe_bind.
  set (x1 := set_b_rp (b_rp x + o) x) in *.
  assert (cdata ((a, x1) :: l1) = drop (Z.to_nat off) (cdata l)) as E2.
  { rewrite <- E1, !cdata_cons, zdrop_app, B2 by lia. rewrite Z.min_l, Z.sub_diag by lia.
    unfold x1. by rewrite bdata_skip by lia. }
  assert (chain_ok ((a, x1) :: l1)) as K2 by (apply chain_ok_cons; split; [by apply body_ok_skip|done]).
  assert (zlen (cdata ((a, x1) :: l1)) = zlen (cdata l) - off) as E3 by (rewrite E2, zlen_drop; lia).
  eapply (trim_keep_ok ((a, x1) :: l1)); [exact O1|by eapply own_fuel|done|lia|lia|done|].
  intros k b y l2 El C5. rewrite <- E2, El in H. rewrite El in O1, K2.
  apply chain_ok_app in K2 as [K3 K2]. apply chain_ok_cons in K2 as [Ky K2].
  apply own_app in O1 as (G & O1 & O2). pose proof (own_head _ _ _ _ _ _ O2) as [B0 M2].
  pose proof (BLEN_ok _ Ky) as [B3 B4]. set (n2 := n - zlen (cdata k)) in *.
  assert (a = hda (k ++ [(b, set_b_wp (b_rp y + n2) y)]) 0) as Ea by (by destruct k as [|[]]; injection El; intros; subst).
  assert (cdata (k ++ [(b, set_b_wp (b_rp y + n2) y)]) = take (Z.to_nat n) (cdata (k ++ (b, y) :: l2))) as Ec.
  { rewrite !cdata_app, cdata_one, cdata_cons, bdata_shorten by lia.
    rewrite ztake_app by lia. pose proof (zlen_nonneg (cdata k)).
    rewrite Z.min_r by (unfold n2 in *; lia). rewrite (take_ge (cdata k)) by (unfold zlen; lia). f_equal.
    fold n2. rewrite ztake_app, B4 by lia. rewrite Z.min_l, Z.sub_diag by lia. simpl. by rewrite app_nil_r. }
  assert (chain_ok (k ++ [(b, set_b_wp (b_rp y + n2) y)])) as Kc.
  { apply chain_ok_app; split; [done|]. apply chain_ok_one. by apply body_ok_shorten. }
  assert (forall s', own (blks s') (k ++ [(b, set_b_wp (b_rp y + n2) y)]) 0 F -> Q a s') as H'
    by (intros; rewrite Ea; by apply H).
  apply safe_bind. eapply safe_bset; [done|].
  replace (b_wp y - (BLEN y - n2)) with (b_rp y + n2) by (unfold BLEN; lia).
  apply (own_set_head _ _ _ (set_b_wp (b_rp y + n2) y)) in O2. apply safe_bind. eapply safe_bget; [apply lookup_insert_eq|]. cbn [b_next].
  pose proof O2 as (_ & G0 & O3). apply safe_bind, safe_if; intros D2.
  - apply safe_bind. eapply safe_freeblist; [exact O3|]. intros s2 E4.
    eapply safe_bset_next; [rewrite E4; apply lookup_insert_eq|]. apply safe_ret, H', own_app. exists G. split; [done|]. split_and!; [done..|].
    cbn [set_blks blks]. simpl. by rewrite E4, insert_insert_eq.
  - apply safe_ret, safe_ret, H', own_app. exists G. split; [done|].
    destruct l2 as [|[c z] l2]; [done|]. by destruct O3 as (? & _).
Qed.
(** *** Bytes pulled up into the first block *)

Lemma own_set_second m b y c z w l e F :
  own m ((b, y) :: (c, z) :: l) e F -> own (<[c := MkBlock (hda l e) w]> m) ((b, y) :: (c, w) :: l) e F.
Proof. intros (B & N & H). split_and!; [done..|]. by eapply own_set_head in H. Qed.

(** The second block is taken off and freed. *)
Lemma own_unlink_second m b y c z w l e F :
  own m ((b, y) :: (c, z) :: l) e F ->
  own (delete c (<[c := w]> (<[b := MkBlock (hda l e) y]> m))) ((b, y) :: l) e F.
Proof.
  intros (B & N & C & N' & H). split; [done|]. split; [done|]. cbn [fst snd hda] in *.
  assert (b <> c) by (intros ->; by rewrite lookup_insert_eq in N').
  rewrite lookup_insert_ne in N' by done.
  eapply (own_insert _ _ _ _ b _ (MkBlock (hda l e) y)) in H; [|by rewrite lookup_insert_ne, lookup_insert_eq].
  rewrite insert_insert_ne, insert_insert_eq in H by done.
  eapply (own_insert _ _ _ _ c _ w) in H; [|apply lookup_insert_eq]. rewrite insert_insert_eq in H.
  eapply own_delete in H; [|apply lookup_insert_eq].
  by rewrite (delete_insert_id (<[b := MkBlock (hda l e) y]> F)) in H by (by rewrite lookup_insert_ne).
Qed.

Lemma pullup_loop_ok l fuel F b y n s (Q : Z -> bheap -> Prop) :
  own (blks s) ((b, y) :: l) 0 F -> (length l < fuel)%nat -> body_ok y -> chain_ok l ->
  0 < n -> b_wp y + n <= b_lim y ->
  (zlen (cdata l) < n -> forall s', blks s' = F -> Q 0 s') ->
  (forall y' l' s', own (blks s') ((b, y') :: l') 0 F -> body_ok y' -> chain_ok l' -> BLEN y' = BLEN y + n ->
    n <= zlen (cdata l) -> cdata ((b, y') :: l') = cdata ((b, y) :: l) -> Q b s') ->
  safe (pullup_loop fuel b n) s Q.
Proof.
  revert fuel y n s. induction l as [|[c z] l IH]; intros [|fuel] y n s O L Y K N W H1 H2; simpl in L; try lia;
    pose proof (own_head _ _ _ _ _ _ O) as [A M]; simpl; apply safe_bind; (eapply safe_bget; [done|]); cbn [b_next].
  - apply safe_bind. eapply safe_free_head; [done|]. intros s' E. apply safe_ret, H1; done.
  - pose proof O as (_ & _ & O1). pose proof (own_head _ _ _ _ _ _ O1) as [C M1].
    apply chain_ok_cons in K as [K1 K2]. pose proof (BLEN_ok _ K1) as [B1 B2].
    pose proof (zlen_nonneg (cdata l)). rewrite decide_False by done.
    apply safe_bind. eapply safe_bget; [done|]. cbn [b_body b_next]. apply safe_if; intros D.
    + apply safe_bind. eapply (safe_bread_data _ (MkBlock (hda l 0) z)); [done|done|cbn [b_body]; lia|].
      cbn [b_body]. set (d := take _ _). assert (zlen d = n) as Ld by (unfold d; rewrite zlen_take; lia).
      assert (byte_list d) as Rd by apply Forall_take, bdata_range.
      apply safe_bind. eapply safe_bappend; [done|done|lia|].
      apply (own_set_head _ _ _ (grown d y)) in O. apply safe_bind.
      eapply safe_bset. { eapply (own_head _ c z l). apply O. }
      apply (own_set_second _ _ _ _ _ (set_b_rp (b_rp z + n) z)) in O. apply safe_ret.
      eapply H2; [exact O| | | | |].
      * apply body_ok_grown; [done|lia].
      * apply chain_ok_cons. split; [apply body_ok_skip; [done|lia]|done].
      * unfold BLEN, grown. cbn [set_b_wp set_b_buf b_wp b_rp]. lia.
      * rewrite cdata_cons, zlen_app. lia.
      * rewrite !cdata_cons, bdata_grown, bdata_skip by (lia || done || apply Y).
        rewrite <- app_assoc. f_equal. rewrite app_assoc. f_equal. apply take_drop.
    + rewrite decide_False by lia. apply safe_bind.
      eapply (safe_bread_all _ (MkBlock (hda l 0) z)); [done|done|]. cbn [b_body].
      apply safe_bind. eapply safe_bappend; [done|done|lia|].
      apply (own_set_head _ _ _ (grown (bdata z) y)) in O.
      apply safe_bind. eapply safe_bset_next; [apply lookup_insert_eq|].
      apply safe_bind. eapply safe_bset_next.
      { cbn [set_blks blks]. rewrite lookup_insert_ne; [eapply (own_head _ c z l); apply O|].
        intros ->. destruct O as (_ & _ & _ & O & _). by rewrite lookup_insert_eq in O. }
      apply safe_bind. eapply safe_freeb; [done|apply lookup_insert_eq|].
      intros s' E. cbn [set_blks blks] in E. apply (own_unlink_second _ _ _ _ _ (MkBlock 0 z)) in O.
      cbn [hda] in E, O. rewrite <- E in O. assert (body_ok (grown (bdata z) y)) as Yg by (apply body_ok_grown; [done|lia]).
      assert (forall l', cdata ((b, grown (bdata z) y) :: l') = cdata ((b, y) :: (c, z) :: l')) as Ec.
      { intros l'. rewrite !cdata_cons, bdata_grown by (apply Y || apply bdata_range). by rewrite app_assoc. }
      assert (BLEN (grown (bdata z) y) = BLEN y + BLEN z) as Eb.
      { unfold BLEN at 1, grown. cbn [set_b_wp set_b_buf b_wp b_rp]. rewrite B2. unfold BLEN. lia. }
      rewrite cdata_cons, zlen_app, B2 in H1, H2. apply safe_if; intros D2.
      * apply safe_ret. eapply H2; [exact O|done|done|lia|lia|done].
      * eapply (IH fuel); [exact O|lia|done|done|lia| | |].
        -- cbn [grown set_b_wp b_wp b_lim]. cbn [set_b_buf b_lim]. lia.
        -- intros. apply H1; [lia|done].
        -- intros y' l' s2 O2 Y2 K' E2 E3 E4. eapply H2; [done|done|done|lia|lia|by rewrite E4].
Qed.

Lemma safe_pullupblock a x l F n s (Q : Z -> bheap -> Prop) :
  own (blks s) ((a, x) :: l) 0 F -> chain_ok ((a, x) :: l) -> 0 <= n < 2 ^ 31 ->
  (zlen (cdata ((a, x) :: l)) < n -> forall s', blks s' = F -> Q 0 s') ->
  (forall b y l' s', own (blks s') ((b, y) :: l') 0 F -> chain_ok ((b, y) :: l') -> n <= BLEN y ->
    n <= zlen (cdata ((a, x) :: l)) -> cdata ((b, y) :: l') = cdata ((a, x) :: l) -> Q b s') ->
  safe (pullupblock a n) s Q.
Proof.
  intros O K C H1 H2. pose proof (own_head _ _ _ _ _ _ O) as [A M]. pose proof K as K'.
  apply chain_ok_cons in K' as [K1 K2]. pose proof (BLEN_ok _ K1) as [B1 B2]. pose proof (zlen_nonneg (cdata l)).
  assert (zlen (cdata ((a, x) :: l)) = BLEN x + zlen (cdata l)) as Ez by (rewrite cdata_cons, zlen_app; lia).
  apply safe_bind. eapply safe_bget; [done|]. cbn [b_body]. apply safe_if; intros D.
  { apply safe_ret. eapply H2; [done|done|done|lia|done]. }
  apply safe_bind, safe_if; intros G.
  - apply safe_bind. apply safe_allocb; [done|]. intros b y B N Y. apply fresh_ok in Y as (Y1 & Y2 & Y3); [|lia].
    pose proof (BLEN_ok _ Y1) as [B3 B4]. rewrite Y2 in B4. change (zlen []) with 0 in B4.
    apply safe_bind. eapply safe_bset_next; [apply lookup_insert_eq|].
    apply safe_ret. cbn [set_blks blks ialloc nomem]. rewrite insert_insert_eq.
    apply safe_bind. eapply safe_bget; [apply lookup_insert_eq|].
    assert (own (<[b := MkBlock a y]> (blks s)) ((b, y) :: (a, x) :: l) 0 F) as O'.
    { split_and!; [done|by eapply own_fresh|]. by apply own_new. }
    apply safe_bind, safe_fuel. cbn [b_body].
    eapply pullup_loop_ok; [exact O'| |done|done|lia|lia| |].
    + apply own_size in O'. simpl in *. lia.
    + intros ? s' E. apply H1; [lia|done].
    + intros y' l' s' O2 Y' K3 E2 E3 E4. eapply H2; [done|by apply chain_ok_cons|lia|lia|].
      rewrite E4, (cdata_cons b), Y2. done.
  - apply safe_ret, safe_bind. eapply safe_bget; [done|]. apply safe_bind, safe_fuel. cbn [b_body].
    eapply pullup_loop_ok; [exact O| |done|done|lia|unfold BLEN; lia| |].
    + apply own_fuel in O. simpl in *. lia.
    + intros ? s' E. apply H1; [lia|done].
    + intros y' l' s' O2 Y' K3 E2 E3 E4. eapply H2; [done|by apply chain_ok_cons|lia|lia|done].
Qed.
(** *** Lists that grow and blocks that are replaced *)

(** The link of the last block of [k], if there is one, is set to [n]. *)
Definition relink (k : chain) (n : Z) (m : gmap Z Block) : gmap Z Block :=
  match list.last k with Some (p, x) => <[p := MkBlock n x]> m | None => m end.
Definition lasta (k : chain) : Z := match list.last k with Some (p, _) => p | None => 0 end.

Lemma own_relink m k l e F n : own m (k ++ l) e F -> exists G, own G k n F /\ own (relink k n m) l e G.
Proof.
  rewrite own_app. intros (G & H1 & H2). unfold relink.
  destruct k as [|[p x] k _] using rev_ind; [simpl; eauto|]. rewrite list.last_snoc.
  exists (<[p := MkBlock n x]> G). split; [by eapply own_link|].
  apply own_app in H1 as (G1 & H1 & _ & N & E). simpl in E. subst G.
  eapply own_insert; [done|]. apply lookup_insert_eq.
Qed.

(** A block beside the list becomes a part of it. *)
Lemma own_move_in m k l e F G a y : own G k a (<[a := MkBlock (hda l e) y]> F) -> F !! a = None -> a <> 0 ->
  own m l e G -> own m (k ++ (a, y) :: l) e F.
Proof.
  intros H1 N A H2. apply own_app. pose proof (own_lookup _ _ _ _ _ _ H1 (lookup_insert_eq _ _ _)) as L.
  exists (delete a G). split.
  - eapply own_delete in H1; [|apply lookup_insert_eq]. by rewrite delete_insert_id in H1.
  - split_and!; [done|apply lookup_delete_eq|]. by rewrite insert_delete_id.
Qed.

Lemma safe_relink k l e F n s (Q : unit -> bheap -> Prop) :
  own (blks s) (k ++ l) e F ->
  (forall s', blks s' = relink k n (blks s) -> Q tt s') ->
  safe (if decide (lasta k <> 0) then bset_next (lasta k) n else cret tt) s Q.
Proof.
  unfold relink, lasta. intros O H. destruct k as [|[p x] k _] using rev_ind; simpl in *.
  - apply safe_ret. by apply H.
  - rewrite list.last_snoc in *. rewrite <- app_assoc in O. apply own_app in O as (G & _ & O).
    apply own_head in O as [P O]. rewrite decide_True by done. eapply safe_bset_next; [done|]. by apply H.
Qed.

Lemma lasta_snoc k a x : lasta (k ++ [(a, x)]) = a.
Proof. unfold lasta. by rewrite list.last_snoc. Qed.

Lemma hda_app k l e : hda (k ++ l) e = hda k (hda l e).
Proof. by destruct k as [|[]]. Qed.

Lemma relink_lookup_ne k n m a v e F : own m k e F -> F !! a = Some v -> relink k n m !! a = Some v.
Proof.
  intros O L. rewrite <- (app_nil_r k) in O. apply (own_relink _ _ _ _ _ n) in O as (G & O1 & O2).
  simpl in O2. subst. by eapply own_lookup.
Qed.

Lemma relink_lookup_app k l n m a v e F : own m (k ++ l) e F -> F !! a = Some v -> relink k n m !! a = Some v.
Proof.
  intros O L. apply (own_relink _ _ _ _ _ n) in O as (G & O1 & O2).
  eapply own_lookup; [done|]. by eapply own_lookup.
Qed.

Lemma pack_loop_ok l fuel k F s (Q : Z -> bheap -> Prop) :
  own (blks s) (k ++ l) 0 F -> (length l < fuel)%nat -> chain_ok (k ++ l) -> zlen (cdata l) < 2 ^ 31 ->
  (forall l' s', own (blks s') l' 0 F -> chain_ok l' -> cdata l' = cdata (k ++ l) -> Q (hda l' 0) s') ->
  safe (pack_loop fuel (hda (k ++ l) 0) (lasta k) (hda l 0)) s Q.
Proof.
  revert fuel k s. induction l as [|[c z] l IH]; intros [|fuel] k s O L K T H; simpl in L; try lia.
  - apply safe_ret. by apply (H (k ++ [])).
  - pose proof O as O'. apply own_app in O' as (G0 & _ & O'). pose proof (own_head _ _ _ _ _ _ O') as [C M].
    pose proof K as K'. apply chain_ok_app in K' as [K0 K']. apply chain_ok_cons in K' as [K1 K2].
    pose proof (BLEN_ok _ K1) as [B1 B2]. pose proof (zlen_nonneg (cdata l)).
    rewrite cdata_cons, zlen_app, B2 in T. cbn [pack_loop hda]. rewrite decide_False by done.
    apply safe_bind. eapply safe_bget; [done|]. cbn [b_body b_next]. apply safe_if; intros D.
    2:{ replace (k ++ (c, z) :: l) with ((k ++ [(c, z)]) ++ l) in * by (by rewrite <- app_assoc).
      pose proof (IH fuel (k ++ [(c, z)]) s) as I. rewrite lasta_snoc in I. apply I; [done|lia|done|lia|done]. }
    apply safe_bind, safe_allocb; [lia|]. intros b y B N Y. apply fresh_ok in Y as (Y1 & Y2 & Y3); [|lia].
    assert (F !! b = None) as Fb by (by eapply own_fresh).
    assert (c <> b) as Cb by congruence.
    apply (own_new _ _ _ _ b (MkBlock 0 y)) in O; [|done]. apply safe_bind.
    eapply safe_relink; [exact O|]. intros s1 E1.
    pose proof (relink_lookup_app _ _ b _ _ _ _ _ O (lookup_insert_eq _ _ _)) as Lb.
    apply (own_relink _ _ _ _ _ b) in O as (G & O1 & O2). cbn [set_blks blks] in E1. rewrite <- E1 in *.
    pose proof (own_head _ _ _ _ _ _ O2) as [_ M2].
    apply safe_bind. eapply (safe_bread_all _ (MkBlock (hda l 0) z)); [done|done|]. cbn [b_body].
    apply safe_bind. eapply safe_bappend; [done|done|lia|].
    apply safe_bind. eapply safe_bset_next; [apply lookup_insert_eq|]. cbn [set_blks blks ialloc nomem].
    rewrite insert_insert_eq. set (v := MkBlock (hda l 0) (grown (bdata z) y)).
    pose proof (own_lookup _ _ _ _ _ _ O1 (lookup_insert_eq _ _ _)) as Gb.
    eapply (own_insert _ _ _ _ b _ v) in O1; [|apply lookup_insert_eq]. rewrite insert_insert_eq in O1.
    eapply (own_insert _ _ _ _ b _ v) in O2; [|done].
    apply safe_bind. eapply safe_free_head; [exact O2|]. intros s2 O3.
    pose proof (own_move_in _ _ _ _ _ _ _ _ O1 Fb B O3) as O4.
    replace (k ++ (b, grown (bdata z) y) :: l) with ((k ++ [(b, grown (bdata z) y)]) ++ l) in O4 by (by rewrite <- app_assoc).
    replace (if decide (lasta k = 0) then b else hda (k ++ (c, z) :: l) 0)
      with (hda ((k ++ [(b, grown (bdata z) y)]) ++ l) 0).
    2:{ destruct k as [|[p px] k]; [done|]. rewrite decide_False; [done|].
      clear -O1. destruct (list.last ((p, px) :: k)) as [[q qx]|] eqn:Eq; [|by apply list.last_None in Eq].
      apply list.last_Some in Eq as [k' Eq]. rewrite Eq, lasta_snoc. rewrite Eq in O1.
      apply own_app in O1 as (? & _ & ? & _). done. }
    assert (cdata ((k ++ [(b, grown (bdata z) y)]) ++ l) = cdata (k ++ (c, z) :: l)) as Ec.
    { rewrite !cdata_app, cdata_one, cdata_cons, bdata_grown, Y2 by (apply bdata_range || apply Y1). by rewrite <- app_assoc. }
    pose proof (IH fuel (k ++ [(b, grown (bdata z) y)]) s2) as I. rewrite lasta_snoc in I.
    apply I; [done|lia| |lia|intros; apply H; [done|done|congruence]].
    rewrite !chain_ok_app. split; [split; [done|]|done]. apply chain_ok_one, body_ok_grown; [done|lia].
Qed.

Lemma safe_packblock l F s (Q : Z -> bheap -> Prop) :
  own (blks s) l 0 F -> chain_ok l -> zlen (cdata l) < 2 ^ 31 ->
  (forall l' s', own (blks s') l' 0 F -> chain_ok l' -> cdata l' = cdata l -> Q (hda l' 0) s') ->
  safe (packblock (hda l 0)) s Q.
Proof.
  intros O K T H. apply safe_bind, safe_fuel.
  apply (pack_loop_ok l _ [] F); [done|by eapply own_fuel|done|done|done].
Qed.
Lemma mem2bl_loop_ok fuel p k F s (Q : Z -> bheap -> Prop) :
  own (blks s) k 0 F -> chain_ok k -> byte_list p -> (length p < fuel)%nat ->
  (forall l' s', own (blks s') l' 0 F -> chain_ok l' -> l' <> [] -> cdata l' = cdata k ++ p -> Q (hda l' 0) s') ->
  safe (mem2bl_loop fuel p (hda k 0) (lasta k)) s Q.
Proof.
  revert p k s. induction fuel as [|fuel IH]; intros p k s O K P L H; [lia|]. cbn [mem2bl_loop].
  set (n := if decide (Maxatomic < zlen p) then Maxatomic else zlen p).
  assert (n = Z.min Maxatomic (zlen p)) as En by (unfold n; case_decide; lia). pose proof (zlen_nonneg p).
  unfold Maxatomic in En. apply safe_bind, safe_allocb; [lia|]. intros b y B N Y.
  apply fresh_ok in Y as (Y1 & Y2 & Y3); [|lia].
  assert (F !! b = None) as Fb by (by eapply own_fresh).
  set (d := take (Z.to_nat n) p). assert (zlen d = n) as Ld by (unfold d; rewrite zlen_take; lia).
  assert (byte_list d) as Rd by (by apply Forall_take).
  apply (own_new _ _ _ _ b (MkBlock 0 y)) in O; [|done]. rewrite <- (app_nil_r k) in O.
  apply safe_bind. eapply safe_relink; [exact O|]. intros s1 E1. cbn [set_blks blks] in E1.
  pose proof (relink_lookup_app _ _ b _ _ _ _ _ O (lookup_insert_eq _ _ _)) as Lb.
  apply (own_relink _ _ _ _ _ b) in O as (G & O1 & O2). rewrite <- E1 in *. simpl in O2.
  apply safe_bind. eapply safe_bappend; [done|done|lia|].
  set (v := MkBlock 0 (grown d y)). eapply (own_insert _ _ _ _ b _ v) in O1; [|apply lookup_insert_eq].
  rewrite insert_insert_eq, <- O2 in O1.
  pose proof (own_move_in _ k [] 0 F _ b (grown d y) O1 Fb B eq_refl) as O3.
  assert (chain_ok (k ++ [(b, grown d y)])) as K'.
  { apply chain_ok_app. split; [done|]. apply chain_ok_one, body_ok_grown; [done|lia]. }
  assert (cdata (k ++ [(b, grown d y)]) = cdata k ++ d) as Ec.
  { rewrite cdata_app, cdata_one, bdata_grown, Y2 by (done || apply Y1). done. }
  replace (if decide (lasta k = 0) then b else hda k 0) with (hda (k ++ [(b, grown d y)]) 0).
  2:{ clear -O1. destruct k as [|[q x] k _] using rev_ind; [done|]. rewrite lasta_snoc, decide_False, !hda_app; [by destruct k as [|[]]|].
    apply own_app in O1 as (? & _ & ? & _). done. }
  apply safe_if; intros D.
  - pose proof (IH (drop (Z.to_nat n) p) (k ++ [(b, grown d y)]) (set_blks (<[b := v]> (blks s1)) s1)) as I.
    rewrite lasta_snoc in I. apply I; [done|done|by apply Forall_drop|unfold zlen in *; rewrite length_drop; lia|].
    intros l' s' O' Ok' Nn E. apply H; [done|done|done|]. rewrite E, Ec, <- app_assoc. unfold d. by rewrite take_drop.
  - apply safe_ret. apply H; [done|done|by destruct k|]. rewrite Ec. unfold d. rewrite take_ge; [done|]. unfold zlen in *. lia.
Qed.

Lemma safe_mem2bl p F s (Q : Z -> bheap -> Prop) :
  blks s = F -> byte_list p ->
  (forall l' s', own (blks s') l' 0 F -> chain_ok l' -> l' <> [] -> cdata l' = p -> Q (hda l' 0) s') ->
  safe (mem2bl p) s Q.
Proof. intros E P H. apply (mem2bl_loop_ok _ _ [] F); [done|by constructor|done|lia|done]. Qed.

(** *** Room for headers and trailers *)

Lemma safe_padblock_front a x F n s (Q : Z -> bheap -> Prop) :
  own (blks s) [(a, x)] 0 F -> body_ok x -> 0 <= n -> n + BLEN x < 2 ^ 31 ->
  (forall b y s', own (blks s') [(b, y)] 0 F -> body_ok y -> BLEN y = n + BLEN x ->
    drop (Z.to_nat n) (bdata y) = bdata x -> Q b s') ->
  safe (padblock a n) s Q.
Proof.
  intros O K C1 C2 H. pose proof (own_head _ _ _ _ _ _ O) as [A M]. pose proof (BLEN_ok _ K) as [B1 B2].
  apply safe_bind. eapply safe_bget; [done|]. cbn [b_body b_next hda]. rewrite decide_True by done.
  assert (forall z, BLEN (set_b_rp (b_rp z - n) z) = n + BLEN z) as Eb
    by (intros; unfold BLEN; cbn [set_b_rp b_rp b_wp]; lia).
  assert (forall z, 0 <= BLEN z -> drop (Z.to_nat n) (bdata (set_b_rp (b_rp z - n) z)) = bdata z) as Ed.
  { intros z Hz. rewrite <- bdata_skip by (rewrite Eb; lia). f_equal. destruct z. unfold set_b_rp. simpl. f_equal. lia. }
  apply safe_if; intros D.
  - apply safe_bind. eapply safe_bset; [done|]. apply safe_ret.
    apply (own_set_head _ _ _ (set_b_rp (b_rp x - n) x)) in O.
    eapply H; [exact O| |done|apply Ed; lia]. unfold body_ok in *. cbn [set_b_rp b_base b_rp b_wp b_lim]. lia.
  - rewrite decide_False by tauto. apply safe_bind, safe_allocb; [lia|]. intros b y B N Y.
    assert (F !! b = None) as Fb by (by eapply own_fresh).
    apply safe_bind. eapply safe_bset; [apply lookup_insert_eq|].
    apply safe_bind. eapply safe_bset; [apply lookup_insert_eq|]. cbn [set_blks blks ialloc nomem b_body].
    rewrite !insert_insert_eq. set (y1 := set_b_wp _ _).
    assert (body_ok y1 /\ bdata y1 = [] /\ b_wp y1 + BLEN x <= b_lim y1 /\ b_base y1 + n <= b_rp y1) as (Y1 & Y2 & Y3 & Y4).
    { unfold fresh_body in Y. subst y1. split_and!; [unfold body_ok|apply bdata_nil; unfold BLEN| |];
      cbn [set_b_wp set_b_rp b_base b_rp b_wp b_lim]; lia. }
    apply (own_new _ _ _ _ b (MkBlock 0 y1)) in O; [|done].
    apply safe_bind. eapply (safe_bread_all _ (MkBlock 0 x)).
    { cbn [set_blks blks]. rewrite lookup_insert_ne; [done|]. congruence. }
    { done. }
    cbn [b_body]. apply safe_bind. eapply safe_bappend; [apply lookup_insert_eq|done|lia|].
    cbn [set_blks blks ialloc nomem]. rewrite insert_insert_eq.
    eapply (own_insert _ _ _ _ b _ (MkBlock 0 (grown (bdata x) y1))) in O; [|apply lookup_insert_eq].
    rewrite !insert_insert_eq in O. apply safe_bind. eapply safe_free_head; [exact O|]. intros s2 E2. simpl in E2.
    apply safe_bind. eapply safe_bset; [rewrite E2; apply lookup_insert_eq|]. apply safe_ret.
    rewrite E2, insert_insert_eq. set (y2 := grown (bdata x) y1).
    assert (body_ok y2) as Y5 by (apply body_ok_grown; [done|lia]).
    assert (bdata y2 = bdata x) as Y6 by (unfold y2; rewrite bdata_grown, Y2; [done|apply Y1|apply bdata_range]).
    pose proof (BLEN_ok _ Y5) as [Y7 Y8]. rewrite Y6 in Y8.
    eapply (H b (set_b_rp (b_rp y2 - n) y2)); [done| |rewrite Eb; lia|by rewrite Ed by lia].
    assert (b_rp y2 = b_rp y1 /\ b_base y2 = b_base y1) as [E3 E4] by done. unfold body_ok in *.
    cbn [set_b_rp b_base b_rp b_wp b_lim]. lia.
Qed.

Lemma safe_padblock_back a x F n s (Q : Z -> bheap -> Prop) :
  own (blks s) [(a, x)] 0 F -> body_ok x -> 0 < n -> n + BLEN x < 2 ^ 31 ->
  (forall b y s', own (blks s') [(b, y)] 0 F -> body_ok y -> b_wp y + n <= b_lim y ->
    bdata y = bdata x -> Q b s') ->
  safe (padblock a (- n)) s Q.
Proof.
  intros O K C1 C2 H. pose proof (own_head _ _ _ _ _ _ O) as [A M]. pose proof (BLEN_ok _ K) as [B1 B2].
  apply safe_bind. eapply safe_bget; [done|]. cbn [b_body b_next hda]. rewrite decide_False by lia.
  rewrite decide_False by tauto. rewrite Z.opp_involutive. apply safe_if; intros D.
  { apply safe_ret. eapply H; [done|done|lia|done]. }
  apply safe_bind, safe_allocb; [lia|]. intros b y B N Y. apply fresh_ok in Y as (Y1 & Y2 & Y3); [|lia].
  assert (F !! b = None) as Fb by (by eapply own_fresh).
  apply (own_new _ _ _ _ b (MkBlock 0 y)) in O; [|done].
  apply safe_bind. eapply (safe_bread_all _ (MkBlock 0 x)).
  { cbn [set_blks blks]. rewrite lookup_insert_ne; [done|]. congruence. }
  { done. }
  cbn [b_body]. apply safe_bind. eapply safe_bappend; [apply lookup_insert_eq|done|lia|].
  cbn [set_blks blks ialloc nomem]. rewrite insert_insert_eq.
  eapply (own_insert _ _ _ _ b _ (MkBlock 0 (grown (bdata x) y))) in O; [|apply lookup_insert_eq].
  rewrite !insert_insert_eq in O. apply safe_bind. eapply safe_free_head; [exact O|]. intros s2 E2. simpl in E2.
  apply safe_ret. eapply (H b (grown (bdata x) y)); [done|apply body_ok_grown; [done|lia]| |].
  - unfold grown. cbn [set_b_wp set_b_buf b_wp b_lim]. lia.
  - rewrite bdata_grown, Y2; [done|apply Y1|apply bdata_range].
Qed.
End Safe.
