(* ===== verification/BlockThms.v ===== *)
(** What the operations on lists of blocks do to the bytes that the lists hold: the
    operations of qio.c in the order a protocol may call them, and the same operations
    on lists of bytes. *)

From S2P Require Import Prelude Mem Block BlockSpec.

(** ** Operations *)

Inductive blk_op :=
  | OConcat | OPullup (n : Z) | OTrim (off n : Z) | OPull (n : Z) | OPack | OToMem (n : Z)
  | OCopy (n : Z) | OAdjust (n : Z) | OHeader (h : bytes) | OTrailer (t : bytes) | OLen.

Section Ops.
Context {MA : Malloc} {R : Type}.
Abbreviation bcmd := (cmd bheap R).

(** An operation as a caller uses it: the list that it leaves and what it yields. The
    functions that need a block are not called for the empty list. *)
Definition run_op (o : blk_op) (b : Z) : bcmd (Z * list Z) :=
  match o with
  | OConcat => if decide (b = 0) then cret (0, []) else b <- concatblock b;; cret (b, [])
  | OPullup n => if decide (b = 0) then cret (0, []) else b <- pullupblock b n;; cret (b, [])
  | OTrim off n => if decide (b = 0) then cret (0, []) else b <- trimblock b off n;; cret (b, [])
  | OPull n => r <- pullblock b n;; cret (r.1, [r.2])
  | OPack => b <- packblock b;; cret (b, [])
  | OToMem n => r <- bl2mem b n;; cret (r.2, r.1)
  | OCopy n =>
      nb <- copyblock b n;;
      x <- bget nb;;
      d <- bread nb (b_rp (b_body x)) (BLEN (b_body x));;
      freeb nb;;
      cret (b, d)
  | OAdjust n =>
      b <- (if decide (b = 0) then copyblock b n else b <- concatblock b;; adjustblock b n);;
      cret (b, [])
  | OHeader h =>
      if decide (b = 0) then b <- mem2bl h;; cret (b, [])
      else
        b <- concatblock b;;
        b <- padblock b (zlen h);;
        x <- bget b;;
        bwrite b (b_rp (b_body x)) h;;
        cret (b, [])
  | OTrailer t =>
      if decide (b = 0) then b <- mem2bl t;; cret (b, [])
      else
        b <- concatblock b;;
        b <- padblock b (- zlen t);;
        bappend b t;;
        cret (b, [])
  | OLen => n <- blocklen b;; cret (b, [n])
  end.

Fixpoint run_ops (os : list blk_op) (b : Z) : bcmd (Z * list (list Z)) :=
  match os with
  | [] => cret (b, [])
  | o :: os' => r <- run_op o b;; r' <- run_ops os' r.1;; cret (r'.1, r.2 :: r'.2)
  end.
End Ops.

(** The same on bytes. *)
Definition zeros (n : Z) : bytes := replicate (Z.to_nat n) 0.

Definition spec_op (o : blk_op) (d : bytes) : bytes * list Z :=
  match o with
  | OConcat | OPack => (d, [])
  | OPullup n => (if decide (zlen d < n) then [] else d, [])
  | OTrim off n => (if decide (zlen d < off + n) then [] else take (Z.to_nat n) (drop (Z.to_nat off) d), [])
  | OPull n => (drop (Z.to_nat n) d, [Z.min n (zlen d)])
  | OToMem n => (drop (Z.to_nat n) d, take (Z.to_nat n) d)
  | OCopy n => (d, take (Z.to_nat n) (d ++ zeros n))
  | OAdjust n => (take (Z.to_nat n) (d ++ zeros n), [])
  | OHeader h => (h ++ d, [])
  | OTrailer t => (d ++ t, [])
  | OLen => (d, [zlen d])
  end.

Fixpoint spec_ops (os : list blk_op) (d : bytes) : bytes * list (list Z) :=
  match os with
  | [] => (d, [])
  | o :: os' => let r := spec_op o d in let r' := spec_ops os' r.1 in (r'.1, r.2 :: r'.2)
  end.

(** The arguments are sizes and bytes, and all lists stay below 2 GB. *)
Definition op_ok (o : blk_op) : Prop :=
  match o with
  | OPullup n | OPull n | OToMem n | OCopy n | OAdjust n => 0 <= n < 2 ^ 31
  | OTrim off n => 0 <= off /\ 0 <= n /\ off + n < 2 ^ 31
  | OHeader h => byte_list h
  | OTrailer t => byte_list t /\ t <> []
  | _ => True
  end.

Fixpoint ops_ok (os : list blk_op) (d : bytes) : Prop :=
  zlen d < 2 ^ 31 /\
  match os with [] => True | o :: os' => op_ok o /\ ops_ok os' (spec_op o d).1 end.

(** ** Every operation does to the bytes what the specification says *)

Section OpsOk.
Context {MA : Malloc} {R : Type}.

(** The result [r] of an operation that turns the bytes into [d] and yields [v]. *)
Definition op_done (F : gmap Z Block) {V} (d : bytes) (v : V) (r : Z * V) (s : bheap) : Prop :=
  exists l, r = (hda l 0, v) /\ own (blks s) l 0 F /\ chain_ok l /\ cdata l = d.

Lemma op_done_one F {V} b y d (v : V) s : own (blks s) [(b, y)] 0 F -> body_ok y -> bdata y = d ->
  op_done F d v (b, v) s.
Proof. intros. exists [(b, y)]. split_and!; [done|done|by apply chain_ok_one|by rewrite cdata_one]. Qed.

Lemma op_done_nil F {V} (v : V) s : blks s = F -> op_done F [] v (0, v) s.
Proof. intros. exists []. split_and!; [done|done|by constructor|done]. Qed.

Lemma if_same (P : Prop) `{Decision P} {A} (x : A) : (if decide P then x else x) = x.
Proof. by case_decide. Qed.

Lemma header_ok a x l F h s :
  own (blks s) ((a, x) :: l) 0 F -> chain_ok ((a, x) :: l) -> byte_list h ->
  zlen (h ++ cdata ((a, x) :: l)) < 2 ^ 31 -> zlen (cdata ((a, x) :: l)) < 2 ^ 31 ->
  safe (R := R) (run_op (OHeader h) a) s (op_done F (h ++ cdata ((a, x) :: l)) []).
Proof.
  intros O K B L1 L2. unfold run_op. rewrite decide_False by (by destruct O).
  rewrite zlen_app in L1. pose proof (zlen_nonneg h).
  apply safe_bind. eapply safe_concatblock; [done|done|done|]. intros b y s1 O1 Y E.
  pose proof (BLEN_ok _ Y) as [B1 B2]. rewrite E in B2.
  apply safe_bind. eapply safe_padblock_front; [done|done|done|lia|]. intros c z s2 O2 Z1 Z2 Z3.
  pose proof (own_head _ _ _ _ _ _ O2) as [_ M].
  apply safe_bind. eapply safe_bget; [done|]. apply safe_bind. unfold bwrite. apply safe_bind.
  eapply safe_bget; [done|]. cbn [b_body]. rewrite decide_True by (unfold body_ok, BLEN in *; lia).
  eapply safe_bset; [done|]. apply safe_ret. eapply op_done_one; [by eapply own_set_head|done|].
  unfold bdata. cbn [set_b_buf b_buf b_rp]. rewrite <- E, <- Z3.
  replace (Z.to_nat (BLEN _)) with (length h + Z.to_nat (BLEN y))%nat
    by (unfold BLEN, zlen in *; cbn [set_b_buf b_wp b_rp]; lia).
  rewrite ld_bytes_app. fold (bytes_at (st_bytes (b_buf z) (b_rp z) h) (b_rp z) h). f_equal.
  - by apply bytes_at_st_bytes.
  - unfold bdata. replace (Z.to_nat (BLEN z)) with (length h + Z.to_nat (BLEN y))%nat by (unfold zlen in *; lia).
    rewrite ld_bytes_app, drop_app_length' by (rewrite length_ld_bytes; unfold zlen; lia).
    apply ld_bytes_ext. intros q Q. apply rd8_st_bytes_out. unfold zlen. lia.
Qed.

Lemma trailer_ok a x l F t s :
  own (blks s) ((a, x) :: l) 0 F -> chain_ok ((a, x) :: l) -> byte_list t -> t <> [] ->
  zlen (cdata ((a, x) :: l) ++ t) < 2 ^ 31 -> zlen (cdata ((a, x) :: l)) < 2 ^ 31 ->
  safe (R := R) (run_op (OTrailer t) a) s (op_done F (cdata ((a, x) :: l) ++ t) []).
Proof.
  intros O K B N L1 L2. unfold run_op. rewrite decide_False by (by destruct O).
  rewrite zlen_app in L1. assert (0 < zlen t) by (destruct t; [done|rewrite zlen_cons; pose proof (zlen_nonneg t); lia]).
  apply safe_bind. eapply safe_concatblock; [done|done|done|]. intros b y s1 O1 Y E.
  pose proof (BLEN_ok _ Y) as [B1 B2]. rewrite E in B2.
  apply safe_bind. eapply safe_padblock_back; [done|done|done|lia|]. intros c z s2 O2 Z1 Z2 Z3.
  pose proof (own_head _ _ _ _ _ _ O2) as [_ M].
  apply safe_bind. eapply safe_bappend; [done|done|lia|]. apply safe_ret.
  eapply op_done_one; [by eapply own_set_head|apply body_ok_grown; [done|lia]|].
  rewrite bdata_grown, Z3, E; [done|apply Z1|done].
Qed.
(** The operations that the empty list has too. *)
Lemma run_any_ok o l F s :
  own (blks s) l 0 F -> chain_ok l -> op_ok o -> zlen (cdata l) < 2 ^ 31 ->
  match o with OPack | OPull _ | OToMem _ | OCopy _ | OLen => True | _ => False end ->
  safe (R := R) (run_op o (hda l 0)) s (op_done F (spec_op o (cdata l)).1 (spec_op o (cdata l)).2).
Proof.
  intros O K B L1 M. destruct o as [| | |n| |n|n| | | |]; try done; unfold run_op; cbn [spec_op fst snd op_ok] in *.
  - apply safe_bind. eapply safe_pullblock; [done|done|lia|]. intros l' s' O' K' E. apply safe_ret. by exists l'.
  - apply safe_bind. eapply safe_packblock; [done|done|done|]. intros l' s' O' K' E. apply safe_ret. by exists l'.
  - apply safe_bind. eapply safe_bl2mem; [done|done|lia|]. intros l' s' O' K' _ E. apply safe_ret. by exists l'.
  - apply safe_bind. eapply safe_copyblock; [done|done|done|]. intros b y s' O' Nb Fb Y E.
    pose proof (own_lookup _ _ _ _ _ _ O' (lookup_insert_eq _ _ _)) as Lb.
    apply safe_bind. eapply safe_bget; [done|].
    apply safe_bind. eapply (safe_bread_all _ (MkBlock 0 y)); [done|done|]. cbn [b_body]. rewrite E.
    apply safe_bind. eapply safe_freeb; [done|done|]. intros s2 E2. apply safe_ret. exists l. split_and!; [done| |done|done].
    rewrite E2. eapply own_delete in O'; [|apply lookup_insert_eq]. by rewrite delete_insert_id in O'.
  - apply safe_bind. eapply safe_blocklen; [done|done|done|]. apply safe_ret. by exists l.
Qed.

Lemma run_op_ok o l F s :
  own (blks s) l 0 F -> chain_ok l -> op_ok o -> zlen (cdata l) < 2 ^ 31 ->
  zlen (spec_op o (cdata l)).1 < 2 ^ 31 ->
  safe (R := R) (run_op o (hda l 0)) s (op_done F (spec_op o (cdata l)).1 (spec_op o (cdata l)).2).
Proof.
  intros O K B L1 L2.
  destruct o as [|n|off n|n| |n|n|n|h|t|]; try (by apply run_any_ok);
    cbn [spec_op fst snd op_ok] in *; destruct l as [|[a x] l].
  - apply safe_ret. by apply op_done_nil.
  - unfold run_op. cbn [hda]. rewrite decide_False by (by destruct O).
    apply safe_bind. eapply safe_concatblock; [done..|]. intros b y s' O' Y E. apply safe_ret. by eapply op_done_one.
  - apply safe_ret. change (cdata []) with (@Datatypes.nil Z). rewrite if_same. by apply op_done_nil.
  - unfold run_op. cbn [hda]. rewrite decide_False by (by destruct O).
    apply safe_bind. eapply safe_pullupblock; [done|done|lia| |].
    + intros D s' E. apply safe_ret. rewrite decide_True by done. by apply op_done_nil.
    + intros b y l' s' O' K' D1 D2 E. apply safe_ret. rewrite decide_False by lia. by exists ((b, y) :: l').
  - apply safe_ret. change (cdata []) with (@Datatypes.nil Z). rewrite drop_nil, take_nil, if_same. by apply op_done_nil.
  - unfold run_op. cbn [hda]. rewrite decide_False by (by destruct O).
    apply safe_bind. eapply (safe_trimblock ((a, x) :: l)); [done|done|done|done|lia..|].
    intros l' s' O' K' E. apply safe_ret. by exists l'.
  - unfold run_op. cbn [hda]. rewrite decide_True by done. apply safe_bind.
    eapply (safe_copyblock []); [done|done|done|]. intros b y s' O' Nb Fb Y E. apply safe_ret.
    eapply op_done_one; [|done|done]. by split_and!.
  - unfold run_op. cbn [hda]. rewrite decide_False by (by destruct O).
    apply safe_bind, safe_bind. eapply safe_concatblock; [done..|]. intros b y s' O' Y E.
    eapply safe_adjustblock; [done..|]. intros c z s2 O2 Z E2. apply safe_ret. rewrite <- E. by eapply op_done_one.
  - unfold run_op. cbn [hda]. rewrite decide_True by done.
    apply safe_bind. eapply safe_mem2bl; [done|done|]. intros l' s' O' K' _ E. apply safe_ret.
    change (cdata []) with (@Datatypes.nil Z). rewrite app_nil_r. by exists l'.
  - by apply header_ok.
  - unfold run_op. cbn [hda]. rewrite decide_True by done.
    apply safe_bind. eapply safe_mem2bl; [done|apply B|]. intros l' s' O' K' _ E. apply safe_ret. by exists l'.
  - by apply trailer_ok; destruct B.
Qed.

Lemma run_block_ops_ok os l F s :
  own (blks s) l 0 F -> chain_ok l -> ops_ok os (cdata l) ->
  safe (R := R) (run_ops os (hda l 0)) s (op_done F (spec_ops os (cdata l)).1 (spec_ops os (cdata l)).2).
Proof.
  revert l s. induction os as [|o os IH]; intros l s O K B.
  - apply safe_ret. by exists l.
  - destruct B as (L & B1 & B2). cbn [run_ops spec_ops fst snd].
    assert (zlen (spec_op o (cdata l)).1 < 2 ^ 31) as L2 by (destruct os; apply B2).
    apply safe_bind. eapply safe_mono; [by apply (run_op_ok o l F)|].
    intros r s' (l' & -> & O' & K' & E'). cbn [fst snd]. rewrite <- E' in *.
    apply safe_bind. eapply safe_mono; [by apply IH|]. intros r s2 (l2 & -> & O2 & K2 & E). apply safe_ret. by exists l2.
Qed.
End OpsOk.

(** ** A kernel's memory *)

(** An allocator that takes memory above all blocks, up to 1 GB. *)
Definition top (m : gmap Z Block) : Z := map_fold (fun k _ a => Z.max k a) 0 m.

Lemma top_spec m : 0 <= top m /\ forall k x, m !! k = Some x -> k <= top m.
Proof.
  unfold top. apply (map_fold_weak_ind (fun r m => 0 <= r /\ forall k x, m !! k = Some x -> k <= r)).
  - split; [lia|]. intros k x L. by rewrite lookup_empty in L.
  - intros i x m' r N [P H]. split; [lia|]. intros k y L. destruct (decide (k = i)) as [->|D]; [lia|].
    rewrite lookup_insert_ne in L by done. specialize (H _ _ L). lia.
Qed.

Definition demo_mallocz (m : gmap Z Block) (n : Z) : option (Z * Z) :=
  let a := top m + 2 ^ 20 in if decide (a + (n + 7) < 2 ^ 30) then Some (a, n + 7) else None.

#[refine] Instance demo_malloc : Malloc := {| mallocz := demo_mallocz; conf_ialloc := 2 ^ 20 |}.
Proof.
  - unfold demo_mallocz. intros m n a sz E. case_decide; [|done]. injection E as <- <-.
    destruct (m !! _) eqn:L; [|done]. apply top_spec in L. lia.
  - unfold demo_mallocz. intros m n a sz E. case_decide; [|done]. injection E as <- <-.
    pose proof (proj1 (top_spec m)). lia.
Defined.

(** ** The theorem *)

(** C7: every sequence of operations on a list of blocks (concatblock, pullupblock,
    trimblock, pullblock, packblock, bl2mem, copyblock, adjustblock, padblock with a header
    or a trailer, blocklen, mem2bl) yields what the same operations on the list's bytes
    yield, and leaves a list of exactly the bytes that they leave: no copy leaves a buffer,
    no block is used after it was freed, every block that is not on the list that is left
    was freed, and the blocks of others are as they were. The only other outcome is that
    the kernel stops because it has no memory. *)
Theorem blocks_are_byte_lists `{!Malloc} {R} os l F s :
  own (blks s) l 0 F -> chain_ok l -> nomem s = false -> ops_ok os (cdata l) ->
  match run_ops (R := R) os (hda l 0) s with
  | (Go (b, outs), s') =>
      nomem s' = false /\ outs = (spec_ops os (cdata l)).2 /\
      exists l', b = hda l' 0 /\ own (blks s') l' 0 F /\ chain_ok l' /\ cdata l' = (spec_ops os (cdata l)).1
  | (Abt, s') => nomem s' = true
  | _ => False
  end.
Proof.
  intros O K N B. pose proof (run_block_ops_ok (R := R) os l F s O K B) as HH. unfold safe in HH.
  destruct (run_ops os (hda l 0) s) as [[[b outs]| |r|] s']; [|done..].
  destruct HH as (E & l' & E2 & O' & K' & D). injection E2 as -> ->. rewrite E, N. eauto 10.
Qed.

Definition demo_data : bytes := [1; 2; 3; 4; 5; 6; 7; 8].
Definition demo_os : list blk_op :=
  [OHeader [80; 81]; OPullup 3; OToMem 1; OCopy 12; OTrim 1 6; OPack; OTrailer [90]; OPull 2; OAdjust 7; OConcat; OLen].

(** The blocks of [demo_data], in two blocks of one byte and seven. *)
Definition demo_blocks : cmd bheap unit unit :=
  b <- mem2bl [1];; c <- mem2bl [2; 3; 4; 5; 6; 7; 8];; bset_next b c.
Definition demo_heap : bheap := (demo_blocks (BHeap ∅ 0 false)).2.
Definition demo_chain : chain :=
  (fun p => (p.1, b_body p.2)) <$> (omap (fun a => (fun x => (a, x)) <$> blks demo_heap !! a) [2 ^ 20; 2 * 2 ^ 20]).

Lemma blocks_are_byte_lists_witness :
  match run_ops (R := unit) demo_os (hda demo_chain 0) demo_heap with
  | (Go (b, outs), s') => outs = [[]; []; [80]; [81; 1; 2; 3; 4; 5; 6; 7; 8; 0; 0; 0]; []; []; []; [2]; []; []; [7]]
  | _ => False
  end.
Proof.
  assert (own (blks demo_heap) demo_chain 0 ∅) as O by (vm_compute; repeat split; discriminate).
  assert (chain_ok demo_chain) as K by (apply (bool_decide_unpack _); vm_compute; done).
  assert (ops_ok demo_os (cdata demo_chain)) as B by (repeat constructor; vm_compute; done).
  pose proof (blocks_are_byte_lists (R := unit) demo_os demo_chain ∅ demo_heap O K eq_refl B) as H.
  assert (nomem (run_ops (R := unit) demo_os (hda demo_chain 0) demo_heap).2 = false) as G by (vm_compute; reflexivity).
  destruct (run_ops demo_os (hda demo_chain 0) demo_heap) as [[[b outs]| |r|] s']; [|done|done|simpl in G; congruence].
  destruct H as (_ & -> & _). vm_compute. reflexivity.
Defined.
