(* ===== verification/Qio.v ===== *)
(** The I/O queues of the kernel, src/9/port/qio.c.

    A function that runs under the queue's spin lock is one function of the state; what it
    does after [iunlock] (wakeup, kick) follows in the same function. A function that gives
    the spin lock back and takes it again is split there: [qread] into [qread_take], the
    copy [bl2mem] and [qread_finish]; [qbwrite] into [qbwrite_put] and the loop that waits
    for room ([qbwrite_flow]). Where [qwait] or [qbwrite] go to sleep the function ends with
    an outcome that says so, and the caller runs it again when it was woken ([Qproc] has
    the threads). [kick] and [bypass] belong to the drivers: their calls are counted and the
    blocks given to [bypass] are listed. *)

From S2P Require Import Prelude Mem Block.

Section Queues.
Context {MA : Malloc}.

(** [struct Queue] without its locks. *)
Record Queue := MkQueue {
  q_bfirst : Z;
  q_blast : Z;
  q_len : Z;
  q_dlen : Z;
  q_limit : Z;
  q_inilim : Z;
  q_state : Z;
  q_noblock : Z;
  q_eof : Z;
  q_kick : bool;
  q_bypass : bool;
  q_err : bytes
}.

Definition set_q_bfirst v q := MkQueue v (q_blast q) (q_len q) (q_dlen q) (q_limit q) (q_inilim q) (q_state q) (q_noblock q) (q_eof q) (q_kick q) (q_bypass q) (q_err q).
Definition set_q_blast v q := MkQueue (q_bfirst q) v (q_len q) (q_dlen q) (q_limit q) (q_inilim q) (q_state q) (q_noblock q) (q_eof q) (q_kick q) (q_bypass q) (q_err q).
Definition set_q_len v q := MkQueue (q_bfirst q) (q_blast q) v (q_dlen q) (q_limit q) (q_inilim q) (q_state q) (q_noblock q) (q_eof q) (q_kick q) (q_bypass q) (q_err q).
Definition set_q_dlen v q := MkQueue (q_bfirst q) (q_blast q) (q_len q) v (q_limit q) (q_inilim q) (q_state q) (q_noblock q) (q_eof q) (q_kick q) (q_bypass q) (q_err q).
Definition set_q_limit v q := MkQueue (q_bfirst q) (q_blast q) (q_len q) (q_dlen q) v (q_inilim q) (q_state q) (q_noblock q) (q_eof q) (q_kick q) (q_bypass q) (q_err q).
Definition set_q_inilim v q := MkQueue (q_bfirst q) (q_blast q) (q_len q) (q_dlen q) (q_limit q) v (q_state q) (q_noblock q) (q_eof q) (q_kick q) (q_bypass q) (q_err q).
Definition set_q_state v q := MkQueue (q_bfirst q) (q_blast q) (q_len q) (q_dlen q) (q_limit q) (q_inilim q) v (q_noblock q) (q_eof q) (q_kick q) (q_bypass q) (q_err q).
Definition set_q_noblock v q := MkQueue (q_bfirst q) (q_blast q) (q_len q) (q_dlen q) (q_limit q) (q_inilim q) (q_state q) v (q_eof q) (q_kick q) (q_bypass q) (q_err q).
Definition set_q_eof v q := MkQueue (q_bfirst q) (q_blast q) (q_len q) (q_dlen q) (q_limit q) (q_inilim q) (q_state q) (q_noblock q) v (q_kick q) (q_bypass q) (q_err q).
Definition set_q_kick v q := MkQueue (q_bfirst q) (q_blast q) (q_len q) (q_dlen q) (q_limit q) (q_inilim q) (q_state q) (q_noblock q) (q_eof q) v (q_bypass q) (q_err q).
Definition set_q_bypass v q := MkQueue (q_bfirst q) (q_blast q) (q_len q) (q_dlen q) (q_limit q) (q_inilim q) (q_state q) (q_noblock q) (q_eof q) (q_kick q) v (q_err q).
Definition set_q_err v q := MkQueue (q_bfirst q) (q_blast q) (q_len q) (q_dlen q) (q_limit q) (q_inilim q) (q_state q) (q_noblock q) (q_eof q) (q_kick q) (q_bypass q) v.

Definition Qstarve : Z := 1.
Definition Qmsg : Z := 2.
Definition Qclosed : Z := 4.
Definition Qflow : Z := 8.
Definition Qcoalesce : Z := 16.
Definition Qkick : Z := 32.

Definition ERRMAX : Z := 128.
Definition Ehungup : bytes :=
  [105; 47; 111; 32; 111; 110; 32; 104; 117; 110; 103; 117; 112; 32; 99; 104; 97; 110; 110; 101; 108; 32].

(** The queue, the blocks, the two [Rendez] (somebody is enrolled), the calls of [kick]
    and the blocks that [bypass] took. *)
Record qst := QSt { hp : bheap; qq : Queue; rr : bool; wr : bool; kicks : nat; bypassed : list Z }.
Definition set_hp v s := QSt v (qq s) (rr s) (wr s) (kicks s) (bypassed s).
Definition set_qq v s := QSt (hp s) v (rr s) (wr s) (kicks s) (bypassed s).
Definition set_rr v s := QSt (hp s) (qq s) v (wr s) (kicks s) (bypassed s).
Definition set_wr v s := QSt (hp s) (qq s) (rr s) v (kicks s) (bypassed s).
Definition kicked s := QSt (hp s) (qq s) (rr s) (wr s) (S (kicks s)) (bypassed s).
Definition bypass_to b s := QSt (hp s) (qq s) (rr s) (wr s) (kicks s) (bypassed s ++ [b]).

Abbreviation qcmd := (cmd qst unit).

(** A function of the blocks. *)
Definition hpc {A} (c : cmd bheap unit A) : qcmd A := fun s => let '(r, h) := c (hp s) in (r, set_hp h s).
Definition qmod (f : Queue -> Queue) : qcmd unit := cmodify (fun s => set_qq (f (qq s)) s).
Definition qval {A} (f : Queue -> A) : qcmd A := cgets (fun s => f (qq s)).

Definition has (st bit : Z) : bool := negb (Z.land st bit =? 0).
Definition qhas (bit : Z) : qcmd bool := qval (fun q => has (q_state q) bit).
Definition qor (bit : Z) : qcmd unit := qmod (fun q => set_q_state (Z.lor (q_state q) bit) q).
Definition qclr (bit : Z) : qcmd unit := qmod (fun q => set_q_state (Z.ldiff (q_state q) bit) q).
Definition qadd (n d : Z) : qcmd unit :=
  qmod (fun q => set_q_dlen (s32 (q_dlen q + d)) (set_q_len (s32 (q_len q + n)) q)).

Definition wakeup_rr : qcmd unit := cmodify (set_rr false).
Definition wakeup_wr : qcmd unit := cmodify (set_wr false).

(** [q->kick(q->arg)] *)
Definition do_kick : qcmd unit := k <- qval q_kick;; if (k : bool) then cmodify kicked else cret tt.

(** [if(q->bfirst) q->blast->next = b; else q->bfirst = b] *)
Definition qlink (b : Z) : qcmd unit :=
  f <- qval q_bfirst;;
  if decide (f = 0) then qmod (set_q_bfirst b) else l <- qval q_blast;; hpc (bset_next l b).

(** [if((q->state & Qflow) && q->len < bound) q->state &= ~Qflow]: whether to wake writers. *)
Definition qunflow (bound : Z) : qcmd bool :=
  n <- qval q_len;; f <- qhas Qflow;;
  if decide (f = true /\ n < bound) then qclr Qflow;; cret true else cret false.
Definition half_limit : qcmd Z := qval (fun q => Z.quot (q_limit q) 2).

(** [if(q->state & Qstarve) q->state &= ~Qstarve]: whether to wake readers. *)
Definition qunstarve : qcmd bool :=
  f <- qhas Qstarve;; if (f : bool) then qclr Qstarve;; cret true else cret false.

(** [if(q->len >= bound) q->state |= Qflow] *)
Definition qreflow (bound : Z) : qcmd unit :=
  n <- qval q_len;; if decide (bound <= n) then qor Qflow else cret tt.

(** *** The queue's ends *)

(** The first block is taken off: the block is the argument. *)
Definition qunlink (b : Z) : qcmd Body :=
  x <- hpc (bget b);;
  qmod (set_q_bfirst (b_next x));;
  hpc (bset_next b 0);;
  qadd (- BALLOC (b_body x)) (- BLEN (b_body x));;
  cret (b_body x).

Definition qget : qcmd Z :=
  b <- qval q_bfirst;;
  if decide (b = 0) then qor Qstarve;; cret 0
  else
    qunlink b;;
    h <- half_limit;;
    w <- qunflow h;;
    cwhen w wakeup_wr;;
    cret b.

Fixpoint discard_loop (fuel : nat) (len sofar : Z) : qcmd Z :=
  match fuel with
  | O => cabort
  | S fuel' =>
      if decide (sofar < len) then
        b <- qval q_bfirst;;
        if decide (b = 0) then cret sofar
        else
          x <- hpc (bget b);;
          let n := BLEN (b_body x) in
          if decide (n <= len - sofar) then
            qunlink b;; hpc (freeb b);; discard_loop fuel' len (sofar + n)
          else
            let n := len - sofar in
            hpc (bset b (fun y => set_b_rp (b_rp y + n) y));;
            qadd 0 (- n);;
            discard_loop fuel' len (sofar + n)
      else cret sofar
  end.

Definition qdiscard (len : Z) : qcmd Z :=
  fuel <- hpc bfuel;;
  sofar <- discard_loop (S fuel) len 0;;
  lim <- qval q_limit;;
  w <- qunflow lim;;
  cwhen w wakeup_wr;;
  cret sofar.

(** The first block with bytes, after the empty ones went to [tofree]. *)
Fixpoint consume_skip (fuel : nat) (tofree : Z) : qcmd (Z * Z) :=
  match fuel with
  | O => cabort
  | S fuel' =>
      b <- qval q_bfirst;;
      if decide (b = 0) then cret (0, tofree)
      else
        x <- hpc (bget b);;
        if decide (0 < BLEN (b_body x)) then cret (b, tofree)
        else
          qmod (set_q_bfirst (b_next x));;
          qadd (- BALLOC (b_body x)) 0;;
          hpc (bset_next b tofree);;
          consume_skip fuel' b
  end.

(** The count and the bytes stored at [vp]. *)
Definition qconsume (len : Z) : qcmd (Z * bytes) :=
  fuel <- hpc bfuel;;
  y <- consume_skip fuel 0;;
  let '(b, tofree) := y in
  if decide (b = 0) then qor Qstarve;; cret (-1, [])
  else
    x <- hpc (bget b);;
    let n := BLEN (b_body x) in
    let len := if decide (n < len) then n else len in
    d <- hpc (bread b (b_rp (b_body x)) len);;
    hpc (bset b (fun y => set_b_rp (b_rp y + len) y));;
    qadd 0 (- len);;
    m <- qhas Qmsg;;
    tofree <-
      (if decide (m = true \/ len = n) then
         qunlink b;; hpc (bset_next b tofree);; cret b
       else cret tofree);;
    h <- half_limit;;
    w <- qunflow h;;
    cwhen w wakeup_wr;;
    (if decide (tofree <> 0) then hpc (freeblist tofree) else cret tt);;
    cret (len, d).

(** The last block of a list, and the sums. *)
Fixpoint pass_sum (fuel : nat) (b len dlen : Z) : qcmd (Z * Z * Z) :=
  match fuel with
  | O => cabort
  | S fuel' =>
      x <- hpc (bget b);;
      if decide (b_next x = 0) then cret (b, len, dlen)
      else
        y <- hpc (bget (b_next x));;
        pass_sum fuel' (b_next x) (s32 (len + BALLOC (b_body y))) (s32 (dlen + BLEN (b_body y)))
  end.

(** The end of [qpass] and [qpassnolim], from "add buffer to queue" on. *)
Definition qpass_add (b : Z) : qcmd Z :=
  qlink b;;
  x <- hpc (bget b);;
  fuel <- hpc bfuel;;
  y <- pass_sum fuel b (BALLOC (b_body x)) (BLEN (b_body x));;
  let '(last, len, dlen) := y in
  qmod (set_q_blast last);;
  qadd len dlen;;
  h <- half_limit;;
  qreflow h;;
  w <- qunstarve;;
  cwhen w wakeup_rr;;
  cret len.

Definition qpassnolim (b : Z) : qcmd Z :=
  c <- qhas Qclosed;;
  if (c : bool) then hpc (freeblist b);; x <- hpc (bget b);; cret (BALLOC (b_body x)) else qpass_add b.

Definition qpass (b : Z) : qcmd Z :=
  n <- qval q_len;; lim <- qval q_limit;;
  if decide (lim <= n) then hpc (freeblist b);; cret (-1) else qpassnolim b.

(** The block [b] becomes the last. *)
Definition qappend (b n d : Z) : qcmd unit := qlink b;; qmod (set_q_blast b);; qadd n d.

Definition qproduce (p : bytes) : qcmd Z :=
  n <- qval q_len;; lim <- qval q_limit;;
  if decide (lim <= n) then qor Qflow;; cret (-1)
  else
    b <- hpc (iallocb (zlen p));;
    if decide (b = 0) then cret 0
    else
      hpc (bappend b p);;
      x <- hpc (bget b);;
      qappend b (BALLOC (b_body x)) (BLEN (b_body x));;
      w <- qunstarve;;
      lim <- qval q_limit;;
      qreflow lim;;
      cwhen w wakeup_rr;;
      cret (zlen p).

(** [qcopy]: the block [b] that holds the offset, the bytes [n] that it has from there and
    their address [p]; 0 when the queue is too short. *)
Fixpoint copy_seek (fuel : nat) (b sofar offset : Z) : qcmd (Z * Z * Z) :=
  match fuel with
  | O => cabort
  | S fuel' =>
      if decide (b = 0) then cret (0, 0, 0)
      else
        x <- hpc (bget b);;
        let n := BLEN (b_body x) in
        if decide (offset < u32 (sofar + n)) then
          cret (b, b_rp (b_body x) + offset - sofar, n - (offset - sofar))
        else copy_seek fuel' (b_next x) (sofar + n) offset
  end.

Fixpoint copy_out (fuel : nat) (nb b p n sofar len : Z) : qcmd unit :=
  match fuel with
  | O => cabort
  | S fuel' =>
      if decide (sofar < len) then
        let n := if decide (len - sofar < n) then len - sofar else n in
        d <- hpc (bread b p n);;
        hpc (bappend nb d);;
        x <- hpc (bget b);;
        if decide (b_next x = 0) then cret tt
        else
          y <- hpc (bget (b_next x));;
          copy_out fuel' nb (b_next x) (b_rp (b_body y)) (BLEN (b_body y)) (sofar + n) len
      else cret tt
  end.

Definition qcopy (len offset : Z) : qcmd Z :=
  nb <- hpc (allocb len);;
  fuel <- hpc bfuel;;
  b <- qval q_bfirst;;
  y <- copy_seek fuel b 0 offset;;
  let '(b, p, n) := y in
  (if decide (b = 0) then cret tt else copy_out fuel nb b p n 0 len);;
  cret nb.

(** *** Opening *)

(** [malloc] clears the memory that it finds. *)
Definition no_queue : Queue := MkQueue 0 0 0 0 0 0 0 0 0 false false [].

Definition qopen (found : bool) (limit msg : Z) (kick : bool) : option Queue :=
  if found then
    Some (set_q_noblock 0 (set_q_eof 0 (set_q_state (Z.lor msg Qstarve)
      (set_q_kick kick (set_q_limit limit (set_q_inilim limit no_queue))))))
  else None.

Definition qbypass (found : bool) : option Queue :=
  if found then Some (set_q_state 0 (set_q_bypass true (set_q_limit 0 no_queue))) else None.

(** *** Readers *)

Definition notempty (q : Queue) : bool := has (q_state q) Qclosed || negb (q_bfirst q =? 0).

(** One round of the loop: [None] when the caller has to sleep. *)
Definition qwait : qcmd (option Z) :=
  b <- qval q_bfirst;;
  if decide (b <> 0) then cret (Some 1)
  else
    c <- qhas Qclosed;;
    if (c : bool) then
      qmod (fun q => set_q_eof (s32 (q_eof q + 1)) q);;
      e <- qval q_eof;;
      if decide (3 < e) then cret (Some (-1))
      else
        msg <- qval q_err;;
        if decide (msg <> [] /\ msg <> Ehungup) then cret (Some (-1)) else cret (Some 0)
    else qor Qstarve;; cret None.

Fixpoint last_loop (fuel : nat) (b : Z) : qcmd Z :=
  match fuel with
  | O => cabort
  | S fuel' => x <- hpc (bget b);; if decide (b_next x = 0) then cret b else last_loop fuel' (b_next x)
  end.

Definition qaddlist (b : Z) : qcmd unit :=
  qlink b;;
  n <- hpc (blockalloclen b);;
  d <- hpc (blocklen b);;
  qadd n d;;
  fuel <- hpc bfuel;;
  b <- last_loop fuel b;;
  qmod (set_q_blast b).

Definition qremove : qcmd Z :=
  b <- qval q_bfirst;; if decide (b = 0) then cret 0 else qunlink b;; cret b.

Definition qputback (b : Z) : qcmd unit :=
  f <- qval q_bfirst;;
  hpc (bset_next b f);;
  (if decide (f = 0) then qmod (set_q_blast b) else cret tt);;
  qmod (set_q_bfirst b);;
  x <- hpc (bget b);;
  qadd (BALLOC (b_body x)) (BLEN (b_body x)).

Definition qwakeup_iunlock : qcmd unit :=
  h <- half_limit;;
  w <- qunflow h;;
  if (w : bool) then do_kick;; wakeup_wr else cret tt.

(** What [qwait] led to: [sleep], end of file, [error(q->err)], or a value. *)
Inductive rd (A : Type) := RSleep | REof | RErr (e : bytes) | RGot (a : A).
Arguments RSleep {A}.
Arguments REof {A}.
Arguments RErr {A} e.
Arguments RGot {A} a.

Definition after_qwait {A} (c : qcmd (rd A)) : qcmd (rd A) :=
  w <- qwait;;
  match w with
  | None => cret RSleep
  | Some v =>
      if decide (v = 0) then cret REof
      else if decide (v = -1) then e <- qval q_err;; cret (RErr e)
      else c
  end.

Definition qbread (len : Z) : qcmd (rd Z) :=
  after_qwait (
    b <- qremove;;
    x <- hpc (bget b);;
    let n := BLEN (b_body x) in
    (if decide (len < n) then
       m <- qhas Qmsg;;
       (if (m : bool) then cret tt
        else
          let n := n - len in
          nb <- hpc (allocb n);;
          d <- hpc (bread b (b_rp (b_body x) + len) n);;
          hpc (bappend nb d);;
          qputback nb);;
       hpc (bset b (fun y => set_b_wp (b_rp y + len) y))
     else cret tt);;
    qwakeup_iunlock;;
    cret (RGot b)).

(** The blocks that fit in the read: the first one and the bytes. [prev] is the block taken
    last. *)
Fixpoint grab_loop (fuel : nat) (len first prev n m : Z) : qcmd (Z * Z) :=
  match fuel with
  | O => cabort
  | S fuel' =>
      b <- qremove;;
      (if decide (prev <> 0) then hpc (bset_next prev b) else cret tt);;
      let first := if decide (prev = 0) then b else first in
      let n := s32 (n + m) in
      c <- qval q_bfirst;;
      if decide (c = 0) then cret (first, n)
      else
        x <- hpc (bget c);;
        let m := BLEN (b_body x) in
        if decide (len < s32 (n + m)) then cret (first, n) else grab_loop fuel' len first b n m
  end.

(** [qread] up to the first [iunlock]: the blocks taken and their bytes. *)
Fixpoint take_loop (fuel : nat) (len : Z) : qcmd (rd (Z * Z)) :=
  match fuel with
  | O => cabort
  | S fuel' =>
      after_qwait (
        co <- qhas Qcoalesce;;
        b <- qval q_bfirst;;
        x <- hpc (bget b);;
        if decide (co = true /\ BLEN (b_body x) <= 0) then
          b <- qremove;; hpc (freeb b);; take_loop fuel' len
        else if (co : bool) then
          fuel <- hpc bfuel;;
          y <- grab_loop fuel len 0 0 0 (BLEN (b_body x));;
          cret (RGot y)
        else
          b <- qremove;;
          x <- hpc (bget b);;
          cret (RGot (b, BLEN (b_body x))))
  end.

Definition qread_take (len : Z) : qcmd (rd (Z * Z)) := fuel <- hpc bfuel;; take_loop fuel len.

(** [qread] from the second [ilock] on: [b] is what [bl2mem] left. *)
Definition qread_finish (b n : Z) : qcmd Z :=
  n <-
    (if decide (b <> 0) then
       x <- hpc (bget b);;
       let n := s32 (n - BLEN (b_body x)) in
       m <- qhas Qmsg;;
       (if (m : bool) then hpc (freeb b) else qputback b);;
       cret n
     else cret n);;
  qwakeup_iunlock;;
  cret n.

(** *** Writers *)

Definition qnotfull (q : Queue) : bool := (q_len q <? q_limit q) || has (q_state q) Qclosed.

(** [qbwrite] up to the loop that waits for room: [PDone] returns at once. *)
Inductive put := PDone (n : Z) | PErr (e : bytes) | PQueued (n : Z).

Definition qbwrite_put (b : Z) : qcmd put :=
  x <- hpc (bget b);;
  let n := BLEN (b_body x) in
  by_ <- qval q_bypass;;
  if (by_ : bool) then cmodify (bypass_to b);; cret (PDone n)
  else
    c <- qhas Qclosed;;
    if (c : bool) then
      e <- qval q_err;; hpc (freeb b);; cret (PErr e)
    else
      l <- qval q_len;; lim <- qval q_limit;; nob <- qval q_noblock;;
      if decide (lim <= l /\ nob <> 0) then hpc (freeb b);; cret (PDone n)
      else
        qlink b;;
        qmod (set_q_blast b);;
        hpc (bset_next b 0);;
        qadd (BALLOC (b_body x)) n;;
        w <- qunstarve;;
        k <- qhas Qkick;;
        (if decide (w = true \/ k = true) then do_kick else cret tt);;
        cwhen w wakeup_rr;;
        cret (PQueued n).

(** The round of the loop before [sleep]: whether [qbwrite] is through. *)
Definition qbwrite_flow : qcmd bool :=
  nob <- qval q_noblock;; f <- qval qnotfull;;
  if decide (nob <> 0 \/ f = true) then cret true else qor Qflow;; cret false.

(** [qwrite]: the block for the bytes from [sofar] on, and, after [qbwrite], how far it is
    and whether it goes on. What [qbwrite] returned is not used. *)
Definition qwrite_block (p : bytes) (sofar : Z) : qcmd Z :=
  let n := zlen p - sofar in
  let n := if decide (Maxatomic < n) then Maxatomic else n in
  b <- hpc (allocb n);;
  hpc (bappend b (take (Z.to_nat n) (drop (Z.to_nat sofar) p)));;
  cret b.
Definition qwrite_next (p : bytes) (sofar : Z) : qcmd (Z * bool) :=
  let n := zlen p - sofar in
  let n := if decide (Maxatomic < n) then Maxatomic else n in
  m <- qhas Qmsg;;
  cret (sofar + n, bool_decide (sofar + n < zlen p /\ m = false)).

Fixpoint iwrite_loop (fuel : nat) (p : bytes) (sofar : Z) (dowakeup : bool) : qcmd Z :=
  match fuel with
  | O => cabort
  | S fuel' =>
      let n := zlen p - sofar in
      let n := if decide (Maxatomic < n) then Maxatomic else n in
      b <- hpc (iallocb n);;
      if decide (b = 0) then cret sofar
      else
        hpc (bappend b (take (Z.to_nat n) (drop (Z.to_nat sofar) p)));;
        d <- qval q_dlen;;
        if decide (16 * 1024 <= d) then hpc (freeb b);; cret sofar
        else
          x <- hpc (bget b);;
          qappend b (BALLOC (b_body x)) n;;
          w <- qunstarve;;
          let dowakeup := dowakeup || w in
          cwhen dowakeup (do_kick;; wakeup_rr);;
          m <- qhas Qmsg;;
          if decide (sofar + n < zlen p /\ m = false) then iwrite_loop fuel' p (sofar + n) dowakeup
          else cret (sofar + n)
  end.

Definition qiwrite (p : bytes) : qcmd Z := iwrite_loop (S (length p)) p 0 false.

(** *** The state of the queue *)

Definition qempty : qcmd Z :=
  b <- qval q_bfirst;; qmod (fun q => set_q_dlen 0 (set_q_len 0 (set_q_bfirst 0 q)));; cret b.

Definition qclose : qcmd unit :=
  qor Qclosed;;
  qclr (Z.lor Qflow Qstarve);;
  qmod (set_q_err Ehungup);;
  b <- qempty;;
  qmod (set_q_noblock 0);;
  hpc (freeblist b);;
  wakeup_rr;;
  wakeup_wr.

(** The memory of the queue is given back then. *)
Definition qfree : qcmd unit := qclose.

Definition qhangup (msg : bytes) : qcmd unit :=
  qor Qclosed;;
  qmod (set_q_err (if decide (msg = []) then Ehungup else take (Z.to_nat (ERRMAX - 1)) msg));;
  wakeup_rr;;
  wakeup_wr.

Definition qisclosed : qcmd bool := qhas Qclosed.

Definition qreopen : qcmd unit :=
  qclr Qclosed;;
  qor Qstarve;;
  qmod (set_q_eof 0);;
  qmod (fun q => set_q_limit (q_inilim q) q).

Definition qlen : qcmd Z := qval q_dlen.
Definition qwindow : qcmd Z :=
  l <- qval (fun q => s32 (q_limit q - q_len q));; cret (if decide (l < 0) then 0 else l).
Definition qcanread : qcmd bool := qval (fun q => negb (q_bfirst q =? 0)).
Definition qsetlimit (limit : Z) : qcmd unit := qmod (set_q_limit limit).
Definition qnoblock (onoff : Z) : qcmd unit := qmod (set_q_noblock onoff).

Definition qflush : qcmd unit := b <- qempty;; hpc (freeblist b);; wakeup_wr.

Definition qfull : qcmd bool := qhas Qflow.
Definition qstate : qcmd Z := qval q_state.

(** [pullupqueue] *)
Definition pullupqueue (n : Z) : qcmd Z :=
  f <- qval q_bfirst;;
  x <- hpc (bget f);;
  if decide (n <= BLEN (b_body x)) then cret f
  else
    f <- hpc (pullupblock f n);;
    qmod (set_q_bfirst f);;
    (if decide (f = 0) then qmod (set_q_blast 0)
     else fuel <- hpc bfuel;; b <- last_loop fuel f;; qmod (set_q_blast b));;
    cret f.
End Queues.

Arguments RSleep {A}.
Arguments REof {A}.
Arguments RErr {A} e.
Arguments RGot {A} a.
