(* ===== verification/QioSpec.v ===== *)
(** The queues of qio.c as lists of blocks: what a queue holds, and what each function does
    to it, to the state bits and to the sleepers. *)

From S2P Require Import Prelude Mem Block BlockSpec Qio.

(** *** More on lists of blocks *)

(** A list beside another: they may be taken in the other order. *)
Lemma own_swap m l e' k e G' G : own G' k e G -> own m l e' G' ->
  exists G1, own G1 l e' G /\ own m k e G1.
Proof.
  revert G. induction k as [|[a x] k IH]; intros G H1 H2.
  - simpl in H1. subst. by exists m.
  - destruct H1 as (A & N & H1). apply IH in H1 as (G1 & O1 & O2); [|done].
    pose proof (own_lookup _ _ _ _ _ _ O1 (lookup_insert_eq _ _ _)) as L. exists (delete a G1). split.
    + eapply own_delete in O1; [|apply lookup_insert_eq]. by rewrite delete_insert_id in O1.
    + split_and!; [done|apply lookup_delete_eq|]. by rewrite insert_delete_id.
Qed.

(** A list is linked behind another. *)
Lemma own_concat m l k e G' G : own m l 0 G' -> own G' k e G -> own (relink l (hda k e) m) (l ++ k) e G.
Proof.
  intros H1 H2. destruct (own_swap _ _ _ _ _ _ _ H2 H1) as (G1 & O1 & O2). apply own_app.
  unfold relink. destruct l as [|[p x] l _] using rev_ind.
  - simpl in *. subst. by exists G.
  - rewrite list.last_snoc. exists (<[p := MkBlock (hda k e) x]> G1). split; [by eapply own_link|].
    apply own_app in O1 as (G2 & _ & _ & _ & E). simpl in E. subst G1.
    eapply own_insert; [done|]. apply lookup_insert_eq.
Qed.

Lemma own_one b y F : b <> 0 -> F !! b = None -> own (<[b := MkBlock 0 y]> F) [(b, y)] 0 F.
Proof. intros. by split_and!. Qed.

Lemma lasta_app l k : k <> [] -> lasta (l ++ k) = lasta k.
Proof.
  intros N. destruct k as [|[a x] k _] using rev_ind; [done|]. by rewrite app_assoc, !lasta_snoc.
Qed.

Lemma chain_sum_app f l k : chain_sum f (l ++ k) = chain_sum f l + chain_sum f k.
Proof. induction l as [|[a x] l IH]; simpl; [done|]. rewrite IH. lia. Qed.

Lemma s32_s32_add a b : s32 (s32 a + s32 b) = s32 (a + b).
Proof. rewrite s32_add, Z.add_comm, s32_add. f_equal. lia. Qed.

(** ** What a queue holds *)

Abbreviation qcmd := (cmd qst unit).

Section QioSpec.
Context {MA : Malloc}.

(** The queue of [s] is the list [l]; [G] are the other blocks. *)
Record qrep (s : qst) (l : chain) (G : gmap Z Block) : Prop := QRep {
  r_own : own (blks (hp s)) l 0 G;
  r_ok : chain_ok l;
  r_first : q_bfirst (qq s) = hda l 0;
  r_last : l <> [] -> q_blast (qq s) = lasta l;
  r_len : q_len (qq s) = s32 (chain_sum BALLOC l);
  r_dlen : q_dlen (qq s) = s32 (chain_sum BLEN l)
}.

(** What only [qsetlimit], [qnoblock] and their kind change. *)
Definition keeps (s s' : qst) : Prop :=
  q_limit (qq s') = q_limit (qq s) /\ q_inilim (qq s') = q_inilim (qq s) /\
  q_noblock (qq s') = q_noblock (qq s) /\ q_bypass (qq s') = q_bypass (qq s).

(** Bits, sleepers and the rest are untouched. *)
Definition quiet (s s' : qst) : Prop :=
  keeps s s' /\ q_state (qq s') = q_state (qq s) /\ rr s' = rr s /\ wr s' = wr s.

Lemma quiet_refl s : quiet s s.
Proof. done. Qed.
Lemma quiet_trans s1 s2 s3 : quiet s1 s2 -> quiet s2 s3 -> quiet s1 s3.
Proof. unfold quiet, keeps. intuition congruence. Qed.

(** *** Runs *)

Definition qsafe {A} (c : qcmd A) (s : qst) (Q : A -> qst -> Prop) : Prop :=
  match c s with
  | (Go a, s') => nomem (hp s') = nomem (hp s) /\ Q a s'
  | (Abt, s') => nomem (hp s') = true
  | _ => False
  end.

Lemma qsafe_bind {A B} (c : qcmd A) (k : A -> qcmd B) s Q :
  qsafe c s (fun a s' => qsafe (k a) s' Q) -> qsafe (cbind c k) s Q.
Proof.
  unfold qsafe, cbind. destruct (c s) as [[a| |r|] s'] eqn:E; try done.
  intros [N H]. destruct (k a s') as [[b| |r|] s2]; try done. by rewrite <- N.
Qed.
Lemma qsafe_ret {A} (a : A) s (Q : A -> qst -> Prop) : Q a s -> qsafe (cret a) s Q.
Proof. done. Qed.
Lemma qsafe_mono {A} (c : qcmd A) s (P Q : A -> qst -> Prop) :
  qsafe c s P -> (forall a s', P a s' -> Q a s') -> qsafe c s Q.
Proof. unfold qsafe. destruct (c s) as [[a| |r|] s']; [intros [N H] K; auto|auto..]. Qed.
Lemma qsafe_if {A} (P : Prop) `{Decision P} (c d : qcmd A) s Q :
  (P -> qsafe c s Q) -> (~ P -> qsafe d s Q) -> qsafe (if decide P then c else d) s Q.
Proof. by case_decide; auto. Qed.
Lemma qsafe_val {A} (f : Queue -> A) s (Q : A -> qst -> Prop) : Q (f (qq s)) s -> qsafe (qval f) s Q.
Proof. done. Qed.
Lemma qsafe_has b s (Q : bool -> qst -> Prop) : Q (has (q_state (qq s)) b) s -> qsafe (qhas b) s Q.
Proof. done. Qed.
Lemma qsafe_mod f s (Q : unit -> qst -> Prop) : Q tt (set_qq (f (qq s)) s) -> qsafe (qmod f) s Q.
Proof. done. Qed.
Lemma qsafe_hpc {A} (c : cmd bheap unit A) s (Q : A -> qst -> Prop) :
  safe c (hp s) (fun a h => Q a (set_hp h s)) -> qsafe (hpc c) s Q.
Proof. unfold qsafe, safe, hpc. by destruct (c (hp s)) as [[a| |r|] h]. Qed.

(** *** The ends of the queue *)

Lemma qsafe_unlink b x l G s (Q : Body -> qst -> Prop) :
  qrep s ((b, x) :: l) G ->
  (forall s', qrep s' l (<[b := MkBlock 0 x]> G) -> b <> 0 -> G !! b = None -> body_ok x -> quiet s s' -> Q x s') ->
  qsafe (qunlink b) s Q.
Proof.
  intros [O K F L N D] H. pose proof (own_head _ _ _ _ _ _ O) as [B M].
  pose proof O as (_ & Gb & _). apply chain_ok_cons in K as [K1 K2].
  apply qsafe_bind, qsafe_hpc. eapply safe_bget; [done|]. cbn [b_next b_body].
  apply qsafe_bind, qsafe_mod, qsafe_bind, qsafe_hpc. eapply safe_bset_next; [done|].
  apply qsafe_bind, qsafe_mod, qsafe_ret. apply H; [|done|done|done|done].
  split; cbn [hp qq set_hp set_qq blks set_blks q_bfirst q_blast q_len q_dlen set_q_bfirst set_q_len set_q_dlen].
  - by eapply own_cut_head.
  - done.
  - done.
  - intros NN. rewrite L by done. by apply (lasta_app [(b, x)]).
  - rewrite N, s32_add. f_equal. simpl. lia.
  - rewrite D, s32_add. f_equal. simpl. lia.
Qed.

(** [k] is linked behind the queue [l]; the sums and the last block are still those of [l]. *)
Lemma qsafe_link l k G' G s (Q : unit -> qst -> Prop) :
  qrep s l G' -> own G' k 0 G -> k <> [] ->
  (forall s', own (blks (hp s')) (l ++ k) 0 G -> q_bfirst (qq s') = hda (l ++ k) 0 ->
     q_len (qq s') = q_len (qq s) -> q_dlen (qq s') = q_dlen (qq s) -> quiet s s' -> Q tt s') ->
  qsafe (qlink (hda k 0)) s Q.
Proof.
  intros [O K F L N D] H NN HQ. pose proof (own_concat _ _ _ _ _ _ O H) as O2.
  apply qsafe_bind, qsafe_val. rewrite F. apply qsafe_if; intros Z0.
  - destruct l as [|[a x] l]; [|by destruct O]. apply qsafe_mod. by apply HQ.
  - destruct l as [|[p x] l _] using rev_ind; [done|].
    apply qsafe_bind, qsafe_val, qsafe_hpc. rewrite L by (by destruct l). rewrite lasta_snoc.
    unfold relink in O2. rewrite list.last_snoc in O2.
    apply own_app in O as (G1 & _ & O). apply own_head in O as [P M].
    eapply safe_bset_next; [done|]. apply HQ; [done| |done..]. cbn [set_hp qq]. rewrite F, !hda_app.
    by destruct l as [|[]].
Qed.

(** *** The state bits *)

Record bits := Bits { b_starve : bool; b_msg : bool; b_closed : bool; b_flow : bool; b_coal : bool }.
Definition bitsof (st : Z) : bits :=
  Bits (has st Qstarve) (has st Qmsg) (has st Qclosed) (has st Qflow) (has st Qcoalesce).
Definition sbits (s : qst) : bits := bitsof (q_state (qq s)).
Definition with_starve v b := Bits v (b_msg b) (b_closed b) (b_flow b) (b_coal b).
Definition with_closed v b := Bits (b_starve b) (b_msg b) v (b_flow b) (b_coal b).
Definition with_flow v b := Bits (b_starve b) (b_msg b) (b_closed b) v (b_coal b).

Lemma has_testbit st k : 0 <= k -> has st (2 ^ k) = Z.testbit st k.
Proof.
  intros K. unfold has. destruct (Z.eqb_spec (Z.land st (2 ^ k)) 0) as [E|E]; simpl.
  - apply (f_equal (fun z => Z.testbit z k)) in E. rewrite Z.land_spec, Z.pow2_bits_true, Z.bits_0, andb_true_r in E by done. done.
  - destruct (Z.testbit st k) eqn:T; [done|]. destruct E. apply Z.bits_inj'. intros i I.
    rewrite Z.land_spec, Z.bits_0, Z.pow2_bits_eqb by done. destruct (Z.eqb_spec k i) as [->|]; [by rewrite T|apply andb_false_r].
Qed.

Lemma bitsof_testbit st :
  bitsof st = Bits (Z.testbit st 0) (Z.testbit st 1) (Z.testbit st 2) (Z.testbit st 3) (Z.testbit st 4).
Proof. unfold bitsof. by rewrite <- !has_testbit. Qed.

Ltac bits_tac :=
  rewrite !bitsof_testbit; unfold with_starve, with_closed, with_flow;
  rewrite ?Z.lor_spec, ?Z.ldiff_spec; simpl; rewrite ?orb_false_r, ?andb_true_r, ?orb_true_r, ?andb_false_r; done.

Lemma bits_or_starve st : bitsof (Z.lor st Qstarve) = with_starve true (bitsof st).
Proof. bits_tac. Qed.
Lemma bits_clr_starve st : bitsof (Z.ldiff st Qstarve) = with_starve false (bitsof st).
Proof. bits_tac. Qed.
Lemma bits_or_flow st : bitsof (Z.lor st Qflow) = with_flow true (bitsof st).
Proof. bits_tac. Qed.
Lemma bits_clr_flow st : bitsof (Z.ldiff st Qflow) = with_flow false (bitsof st).
Proof. bits_tac. Qed.
Lemma bits_or_closed st : bitsof (Z.lor st Qclosed) = with_closed true (bitsof st).
Proof. bits_tac. Qed.
Lemma bits_clr_closed st : bitsof (Z.ldiff st Qclosed) = with_closed false (bitsof st).
Proof. bits_tac. Qed.
Lemma bits_clr_both st : bitsof (Z.ldiff st (Z.lor Qflow Qstarve)) = with_flow false (with_starve false (bitsof st)).
Proof. bits_tac. Qed.

(** [s'] differs from [s] in the bits [b] and the sleepers [r] and [w] at most. *)
Definition ctls (b : bits) (r w : bool) (s s' : qst) : Prop :=
  hp s' = hp s /\ keeps s s' /\ q_bfirst (qq s') = q_bfirst (qq s) /\ q_blast (qq s') = q_blast (qq s) /\
  q_len (qq s') = q_len (qq s) /\ q_dlen (qq s') = q_dlen (qq s) /\ sbits s' = b /\ rr s' = r /\ wr s' = w.

Lemma ctls_rep b r w s s' l G : qrep s l G -> ctls b r w s s' -> qrep s' l G.
Proof.
  intros [O K F L N D] (E1 & _ & E2 & E3 & E4 & E5 & _). split; rewrite ?E1, ?E2, ?E3, ?E4, ?E5; done.
Qed.

Lemma ctls_trans b1 r1 w1 b2 r2 w2 s1 s2 s3 :
  ctls b1 r1 w1 s1 s2 -> ctls b2 r2 w2 s2 s3 -> ctls b2 r2 w2 s1 s3.
Proof. unfold ctls, keeps. intuition congruence. Qed.

(** [if((q->state & Qflow) && q->len < h) { q->state &= ~Qflow; wakeup(&q->wr) }] *)
Definition flowing (h : Z) (s : qst) : bool := b_flow (sbits s) && bool_decide (q_len (qq s) < h).

Lemma qsafe_unflow h s (Q : bool -> qst -> Prop) :
  (forall s', ctls (if flowing h s then with_flow false (sbits s) else sbits s) (rr s) (wr s) s s' ->
     Q (flowing h s) s') ->
  qsafe (qunflow h) s Q.
Proof.
  intros H. apply qsafe_bind, qsafe_val, qsafe_bind, qsafe_has. unfold flowing in *. simpl in *.
  apply qsafe_if; intros D.
  - rewrite (proj1 D) in H. rewrite bool_decide_true in H by tauto. simpl in H.
    apply qsafe_bind, qsafe_mod, qsafe_ret, H. repeat split; try done. apply bits_clr_flow.
  - replace (has _ Qflow && _) with false in H.
    2:{ destruct (has _ Qflow); [|done]. simpl. symmetry. apply bool_decide_eq_false. tauto. }
    apply qsafe_ret, H. by repeat split.
Qed.

Lemma qsafe_when_wr (w : bool) s (Q : unit -> qst -> Prop) :
  (forall s', ctls (sbits s) (rr s) (wr s && negb w) s s' -> Q tt s') -> qsafe (cwhen w wakeup_wr) s Q.
Proof.
  intros H. destruct w; simpl in *.
  - split; [done|]. apply H. repeat split; try done. simpl. by rewrite andb_false_r.
  - apply qsafe_ret, H. repeat split; try done. by rewrite andb_true_r.
Qed.

Lemma qsafe_when_rr (w : bool) s (Q : unit -> qst -> Prop) :
  (forall s', ctls (sbits s) (rr s && negb w) (wr s) s s' -> Q tt s') -> qsafe (cwhen w wakeup_rr) s Q.
Proof.
  intros H. destruct w; simpl in *.
  - split; [done|]. apply H. repeat split; try done. simpl. by rewrite andb_false_r.
  - apply qsafe_ret, H. repeat split; try done. by rewrite andb_true_r.
Qed.

Lemma qsafe_unstarve s (Q : bool -> qst -> Prop) :
  (forall s', ctls (with_starve false (sbits s)) (rr s) (wr s) s s' -> Q (b_starve (sbits s)) s') ->
  qsafe qunstarve s Q.
Proof.
  intros H. apply qsafe_bind, qsafe_has. unfold sbits in *. simpl in *. destruct (has _ Qstarve) eqn:E.
  - apply qsafe_bind, qsafe_mod, qsafe_ret, H. repeat split; try done. apply bits_clr_starve.
  - apply qsafe_ret, H. repeat split; try done. unfold sbits, with_starve, bitsof. simpl. by rewrite E.
Qed.

Lemma qsafe_reflow h s (Q : unit -> qst -> Prop) :
  (forall s', ctls (with_flow (b_flow (sbits s) || bool_decide (h <= q_len (qq s))) (sbits s)) (rr s) (wr s) s s' -> Q tt s') ->
  qsafe (qreflow h) s Q.
Proof.
  intros H. apply qsafe_bind, qsafe_val, qsafe_if; intros D.
  - apply qsafe_mod, H. repeat split; try done. rewrite bool_decide_true, orb_true_r by done. apply bits_or_flow.
  - apply qsafe_ret, H. repeat split; try done. rewrite bool_decide_false, orb_false_r by done. done.
Qed.

Lemma qsafe_kick s (Q : unit -> qst -> Prop) :
  (forall s', ctls (sbits s) (rr s) (wr s) s s' -> Q tt s') -> qsafe do_kick s Q.
Proof.
  intros H. apply qsafe_bind, qsafe_val. destruct (q_kick _); [split; [done|]|apply qsafe_ret]; by apply H.
Qed.

(** The queue lost bytes, and writers are woken when it is below [h]. *)
Definition drained (h : Z) (s s' : qst) : Prop :=
  let w := b_flow (sbits s) && bool_decide (q_len (qq s') < h) in
  keeps s s' /\ sbits s' = (if w then with_flow false (sbits s) else sbits s) /\ rr s' = rr s /\
  wr s' = wr s && negb w.

Lemma quiet_sbits s s' : quiet s s' -> sbits s' = sbits s.
Proof. intros (_ & E & _). unfold sbits. by rewrite E. Qed.

(** The end of [qget], [qdiscard] and [qconsume]. *)
Lemma qsafe_drain {A} (k : qcmd A) h s1 s l G (Q : A -> qst -> Prop) : quiet s1 s -> qrep s l G ->
  (forall s', qrep s' l G -> drained h s1 s' -> qsafe k s' Q) ->
  qsafe (w <- qunflow h;; cwhen w wakeup_wr;; k) s Q.
Proof.
  intros Qt R H. apply qsafe_bind, qsafe_unflow. intros s2 C2.
  apply qsafe_bind, qsafe_when_wr. intros s3 C3. pose proof (ctls_trans _ _ _ _ _ _ _ _ _ C2 C3) as C.
  apply H; [by eapply ctls_rep|]. pose proof (quiet_sbits _ _ Qt) as E. destruct Qt as (Kp & _ & Er & Ew).
  destruct C2 as (_ & _ & _ & _ & _ & _ & B2 & R2 & W2).
  destruct C as (_ & K' & _ & _ & L' & _ & B' & R' & W').
  unfold drained. unfold flowing in *. rewrite L', B', B2, E, R', R2, W', W2, Er, Ew, E.
  split_and!; [|done|done|done]. unfold keeps in *. intuition congruence.
Qed.
(** *** Blocks that leave at the front *)

Definition half (s : qst) : Z := Z.quot (q_limit (qq s)) 2.

Lemma quiet_half s s' : quiet s s' -> half s' = half s.
Proof. intros ((E & _) & _). unfold half. by rewrite E. Qed.

Lemma qsafe_qget l G s (Q : Z -> qst -> Prop) :
  qrep s l G ->
  (l = [] -> forall s', qrep s' [] G -> keeps s s' -> sbits s' = with_starve true (sbits s) -> rr s' = rr s -> wr s' = wr s -> Q 0 s') ->
  (forall b x l' s', l = (b, x) :: l' -> qrep s' l' (<[b := MkBlock 0 x]> G) -> G !! b = None -> b <> 0 -> body_ok x ->
     drained (half s) s s' -> Q b s') ->
  qsafe qget s Q.
Proof.
  intros R H1 H2. pose proof R as [O K F L N D]. apply qsafe_bind, qsafe_val. rewrite F. destruct l as [|[b x] l].
  - rewrite decide_True by done. apply qsafe_bind, qsafe_mod, qsafe_ret. apply H1; [done| |done| |done|done].
    + by split.
    + apply bits_or_starve.
  - cbn [hda]. rewrite decide_False by (by destruct O). apply qsafe_bind. eapply qsafe_unlink; [done|].
    intros s1 R1 B Gb X Qt. apply qsafe_bind, qsafe_val. fold (half s1). rewrite (quiet_half s s1) by done.
    eapply qsafe_drain; [done|done|]. intros s2 R2 Dr. apply qsafe_ret. by eapply H2.
Qed.

Lemma qsafe_qremove b x l G s (Q : Z -> qst -> Prop) :
  qrep s ((b, x) :: l) G ->
  (forall s', qrep s' l (<[b := MkBlock 0 x]> G) -> b <> 0 -> G !! b = None -> body_ok x -> quiet s s' -> Q b s') ->
  qsafe qremove s Q.
Proof.
  intros R H. apply qsafe_bind, qsafe_val. rewrite (r_first _ _ _ R). cbn [hda].
  rewrite decide_False by (by destruct (r_own _ _ _ R)). apply qsafe_bind. eapply qsafe_unlink; [done|].
  intros. by apply qsafe_ret, H.
Qed.

(** The heap besides the queue. *)
Lemma qrep_hp s h l G G' : qrep s l G -> own (blks h) l 0 G' -> qrep (set_hp h s) l G'.
Proof. intros [O K F L N D] O'. by split. Qed.

Lemma qrep_delete s l G b v : qrep s l G -> G !! b = Some v ->
  forall h, blks h = delete b (blks (hp s)) -> qrep (set_hp h s) l (delete b G).
Proof. intros R E h Eh. eapply qrep_hp; [done|]. rewrite Eh. eapply own_delete; [apply R|done]. Qed.

Lemma qrep_insert s l G b v w : qrep s l G -> G !! b = Some v ->
  qrep (set_hp (set_blks (<[b := w]> (blks (hp s))) (hp s)) s) l (<[b := w]> G).
Proof. intros R E. eapply qrep_hp; [done|]. cbn [set_blks blks]. eapply own_insert; [apply R|done]. Qed.

Lemma qrep_lookup s l G b v : qrep s l G -> G !! b = Some v -> blks (hp s) !! b = Some v.
Proof. intros R E. eapply own_lookup; [apply R|done]. Qed.

(** A block beside the queue is freed. *)
Lemma qsafe_free_out b v l G s (Q : unit -> qst -> Prop) :
  qrep s l G -> G !! b = Some v -> b <> 0 ->
  (forall s', qrep s' l (delete b G) -> quiet s s' -> Q tt s') -> qsafe (hpc (freeb b)) s Q.
Proof.
  intros R E B H. apply qsafe_hpc. eapply safe_freeb; [done|by eapply qrep_lookup|]. intros h Eh.
  apply H; [by eapply qrep_delete|done].
Qed.

Lemma qsafe_new s l G n (Q : Z -> qst -> Prop) : 0 <= n < 2 ^ 31 -> qrep s l G ->
  (forall b x s', b <> 0 -> G !! b = None -> fresh_body n x -> qrep s' l (<[b := MkBlock 0 x]> G) -> quiet s s' -> Q b s') ->
  qsafe (hpc (allocb n)) s Q.
Proof.
  intros N R H. apply qsafe_hpc, safe_allocb; [done|]. intros c x C F X.
  eapply (H c x); [done|eapply own_fresh; [apply R|done]|done| |done].
  eapply qrep_hp; [done|]. cbn [set_blks blks]. apply own_new; [apply R|done].
Qed.

Lemma qsafe_append_out b m x d l G s (Q : unit -> qst -> Prop) :
  qrep s l G -> G !! b = Some (MkBlock m x) -> body_ok x -> b_wp x + zlen d <= b_lim x ->
  (forall s', qrep s' l (<[b := MkBlock m (grown d x)]> G) -> quiet s s' -> Q tt s') -> qsafe (hpc (bappend b d)) s Q.
Proof.
  intros R E X W H. apply qsafe_hpc. eapply safe_bappend; [by eapply qrep_lookup|done|done|].
  apply H; [by eapply qrep_insert|done].
Qed.

Lemma qsafe_bget b x s (Q : Block -> qst -> Prop) : blks (hp s) !! b = Some x -> Q x s -> qsafe (hpc (bget b)) s Q.
Proof. intros E H. apply qsafe_hpc. eapply safe_bget; [done|]. by destruct s. Qed.

Lemma qsafe_fuel s (Q : nat -> qst -> Prop) : Q (S (size (blks (hp s)))) s -> qsafe (hpc bfuel) s Q.
Proof. intros H. apply qsafe_hpc, safe_fuel. by destruct s. Qed.

(** The first block loses its first bytes. *)
Lemma qrep_skip s b x l G n : qrep s ((b, x) :: l) G -> 0 <= n <= BLEN x ->
  qrep (set_qq (set_q_dlen (s32 (q_dlen (qq s) + - n)) (set_q_len (s32 (q_len (qq s) + 0)) (qq s)))
        (set_hp (set_blks (<[b := MkBlock (hda l 0) (set_b_rp (b_rp x + n) x)]> (blks (hp s))) (hp s)) s))
       ((b, set_b_rp (b_rp x + n) x) :: l) G.
Proof.
  intros [O K F L N D] C. pose proof K as K'. apply chain_ok_cons in K' as [K1 K2].
  split; cbn [hp qq set_hp set_qq blks set_blks q_bfirst q_blast q_len q_dlen set_q_len set_q_dlen].
  - by eapply own_set_head.
  - apply chain_ok_cons. split; [by apply body_ok_skip|done].
  - done.
  - intros _. rewrite L by done. destruct l as [|p l]; [done|]. transitivity (lasta (p :: l)); [by apply (lasta_app [(b, x)])|symmetry; by apply (lasta_app [(b, _)])].
  - rewrite N, s32_add. f_equal. simpl. unfold BALLOC. simpl. lia.
  - rewrite D, s32_add. f_equal. simpl. rewrite BLEN_skip. lia.
Qed.

Lemma discard_loop_ok l fuel G len sofar s (Q : Z -> qst -> Prop) :
  qrep s l G -> (S (length l) < fuel)%nat -> 0 <= sofar <= len ->
  (forall l' s', qrep s' l' G -> cdata l' = drop (Z.to_nat (len - sofar)) (cdata l) -> quiet s s' ->
     Q (sofar + Z.min (len - sofar) (zlen (cdata l))) s') ->
  qsafe (discard_loop fuel len sofar) s Q.
Proof.
  revert fuel sofar s. induction l as [|[b x] l IH]; intros [|fuel] sofar s R L C H; simpl in L; try lia;
    cbn [discard_loop].
  - assert (Q sofar s).
    { specialize (H [] s). change (zlen (cdata [])) with 0 in H. rewrite Z.min_r, Z.add_0_r in H by lia.
      apply H; [done|change (cdata []) with (@Datatypes.nil Z); by rewrite drop_nil|apply quiet_refl]. }
    apply qsafe_if; intros D; [|by apply qsafe_ret]. apply qsafe_bind, qsafe_val. rewrite (r_first _ _ _ R).
    rewrite decide_True by done. by apply qsafe_ret.
  - pose proof (zlen_nonneg (cdata l)) as Z0. pose proof (r_ok _ _ _ R) as K.
    apply chain_ok_cons in K as [K1 K2]. pose proof (BLEN_ok _ K1) as [B1 B2].
    pose proof (own_head _ _ _ _ _ _ (r_own _ _ _ R)) as [B M].
    rewrite cdata_cons, zlen_app, zdrop_app, B2 in H by lia. apply qsafe_if; intros D.
    2:{ assert (sofar = len) as -> by lia. apply qsafe_ret. specialize (H ((b, x) :: l) s).
      rewrite Z.sub_diag, !Z.min_l, Z.add_0_r in H by lia. apply H; [done|done|apply quiet_refl]. }
    apply qsafe_bind, qsafe_val. rewrite (r_first _ _ _ R). cbn [hda]. rewrite decide_False by done.
    apply qsafe_bind. eapply qsafe_bget; [done|]. cbn [b_body]. apply qsafe_if; intros E.
    + apply qsafe_bind. eapply qsafe_unlink; [done|]. intros s1 R1 _ Gb _ Q1.
      apply qsafe_bind. eapply qsafe_free_out; [done|apply lookup_insert_eq|done|]. intros s2 R2 Q2.
      rewrite delete_insert_id in R2 by done. eapply (IH fuel); [exact R2|lia|lia|]. intros l' s3 R3 E3 Q3.
      replace (sofar + BLEN x + _) with (sofar + Z.min (len - sofar) (BLEN x + zlen (cdata l))) by lia.
      apply (H l'); [done| |by eapply quiet_trans; [eapply quiet_trans|]].
      rewrite E3, (drop_ge (bdata x)) by (unfold zlen in B2; lia). simpl. f_equal. lia.
    + apply qsafe_bind, qsafe_hpc. eapply safe_bset; [done|]. apply qsafe_bind, qsafe_mod.
      apply (qrep_skip _ _ _ _ _ (len - sofar)) in R; [|lia].
      destruct fuel as [|fuel]; [lia|]. cbn [discard_loop]. rewrite decide_False by lia. apply qsafe_ret.
      replace (sofar + (len - sofar)) with (sofar + Z.min (len - sofar) (BLEN x + zlen (cdata l))) by lia.
      eapply H; [exact R| |done]. rewrite cdata_cons, bdata_skip by lia.
      rewrite Z.min_l, Z.sub_diag by lia. done.
Qed.

Lemma qrep_fuel s l G : qrep s l G -> (length l < S (size (blks (hp s))))%nat.
Proof. intros R. pose proof (own_size _ _ _ _ (r_own _ _ _ R)). lia. Qed.

Lemma qsafe_qdiscard l G len s (Q : Z -> qst -> Prop) :
  qrep s l G -> 0 <= len ->
  (forall l' s', qrep s' l' G -> cdata l' = drop (Z.to_nat len) (cdata l) -> drained (q_limit (qq s)) s s' ->
     Q (Z.min len (zlen (cdata l))) s') ->
  qsafe (qdiscard len) s Q.
Proof.
  intros R L H. apply qsafe_bind, qsafe_fuel, qsafe_bind. pose proof (qrep_fuel _ _ _ R).
  eapply discard_loop_ok; [done|lia|lia|]. rewrite Z.sub_0_r. intros l' s1 R1 E Q1.
  apply qsafe_bind, qsafe_val. replace (q_limit (qq s1)) with (q_limit (qq s)) by (by destruct Q1 as ((->&_)&_)).
  eapply qsafe_drain; [done|done|]. intros s2 R2 Dr. apply qsafe_ret. by eapply H.
Qed.
(** *** [qconsume] *)

(** [tf] are the blocks to be freed. *)
Lemma consume_skip_ok l fuel tf G' G s (Q : Z * Z -> qst -> Prop) :
  qrep s l G' -> own G' tf 0 G -> (length l < fuel)%nat ->
  (forall l' tf' G2 s', qrep s' l' G2 -> own G2 tf' 0 G -> cdata l' = cdata l -> quiet s s' ->
     match l' with [] => True | (_, x) :: _ => 0 < BLEN x end -> Q (hda l' 0, hda tf' 0) s') ->
  qsafe (consume_skip fuel (hda tf 0)) s Q.
Proof.
  revert fuel tf G' s. induction l as [|[b x] l IH]; intros [|fuel] tf G' s R O L H; simpl in L; try lia; cbn [consume_skip].
  - apply qsafe_bind, qsafe_val. rewrite (r_first _ _ _ R). rewrite decide_True by done. apply qsafe_ret.
    by apply (H [] tf G').
  - pose proof (own_head _ _ _ _ _ _ (r_own _ _ _ R)) as [B M]. pose proof (r_own _ _ _ R) as (_ & Gb & _).
    pose proof (r_ok _ _ _ R) as K. apply chain_ok_cons in K as [K1 K2]. pose proof (BLEN_ok _ K1) as [B1 B2].
    apply qsafe_bind, qsafe_val. rewrite (r_first _ _ _ R). cbn [hda]. rewrite decide_False by done.
    apply qsafe_bind. eapply qsafe_bget; [done|]. cbn [b_body b_next]. apply qsafe_if; intros D.
    { apply qsafe_ret. by apply (H ((b, x) :: l) tf G'). }
    destruct R as [Ro Rk Rf Rl Rn Rd].
    apply qsafe_bind, qsafe_mod, qsafe_bind, qsafe_mod, qsafe_bind, qsafe_hpc. eapply safe_bset_next; [done|].
    eapply (IH fuel ((b, x) :: tf)); [|split_and!; [done|by eapply own_fresh|by apply own_new]|lia|].
    + split; cbn [hp qq set_hp set_qq blks set_blks q_bfirst q_blast q_len q_dlen set_q_bfirst set_q_len set_q_dlen].
      * by eapply own_cut_head.
      * done.
      * done.
      * intros NN. rewrite Rl by done. by apply (lasta_app [(b, x)]).
      * rewrite Rn, s32_add. f_equal. simpl. lia.
      * rewrite Rd, s32_add. f_equal. simpl. lia.
    + intros l' tf' G2 s' R' O' E Qt P. apply (H l' tf' G2); [done|done| |done|done].
      rewrite E, cdata_cons, (bdata_nil x) by lia. done.
Qed.

Lemma qsafe_free_list tf l G G' s (Q : unit -> qst -> Prop) :
  qrep s l G' -> own G' tf 0 G -> (forall s', qrep s' l G -> quiet s s' -> Q tt s') ->
  qsafe (hpc (freeblist (hda tf 0))) s Q.
Proof.
  intros R O H. destruct (own_swap _ _ _ _ _ _ _ O (r_own _ _ _ R)) as (G1 & O1 & O2).
  apply qsafe_hpc. eapply safe_freeblist; [done|]. intros h E. apply H; [|done].
  eapply qrep_hp; [done|by rewrite E].
Qed.

Lemma drained_quiet h s1 s2 s3 l G2 G3 :
  drained h s1 s2 -> qrep s2 l G2 -> qrep s3 l G3 -> quiet s2 s3 -> drained h s1 s3.
Proof.
  intros (K1 & A1 & A2 & A3) R2 R3 (K2 & B1 & B2 & B3). unfold drained, sbits in *.
  rewrite (r_len _ _ _ R3), <- (r_len _ _ _ R2), B1, B2, B3. unfold keeps in *. intuition congruence.
Qed.

(** The bytes that [qconsume] throws away: the rest of a message. *)
Lemma qsafe_qconsume l G len s (Q : Z * bytes -> qst -> Prop) :
  qrep s l G -> 0 <= len ->
  (cdata l = [] -> forall tf G' s', qrep s' [] G' -> own G' tf 0 G -> keeps s s' ->
     sbits s' = with_starve true (sbits s) -> rr s' = rr s -> wr s' = wr s -> Q (-1, []) s') ->
  (forall d lost l' s', qrep s' l' G -> cdata l = d ++ lost ++ cdata l' ->
     (b_msg (sbits s) = false -> lost = []) -> drained (half s) s s' -> Q (zlen d, d) s') ->
  qsafe (qconsume len) s Q.
Proof.
  intros R C H1 H2. apply qsafe_bind, qsafe_fuel, qsafe_bind.
  eapply (consume_skip_ok l _ [] G G); [done|done|by eapply qrep_fuel|].
  intros l1 tf G1 s1 R1 O1 E1 Q1 P1. destruct l1 as [|[b x] l1].
  { cbn [hda]. rewrite decide_True by done. apply qsafe_bind, qsafe_mod, qsafe_ret.
    destruct Q1 as (Kp & Es & Er & Ew). eapply H1; [by rewrite <- E1| |exact O1|done| |done|done].
    - by destruct R1; split.
    - rewrite <- (quiet_sbits s s1) by done. apply bits_or_starve. }
  pose proof (own_head _ _ _ _ _ _ (r_own _ _ _ R1)) as [B M]. cbn [hda]. rewrite decide_False by done.
  pose proof (r_ok _ _ _ R1) as K. apply chain_ok_cons in K as [K1 K2]. pose proof (BLEN_ok _ K1) as [B1 B2].
  apply qsafe_bind. eapply qsafe_bget; [done|]. cbn [b_body].
  set (m := if decide (BLEN x < len) then BLEN x else len).
  assert (m = Z.min len (BLEN x)) as Em by (unfold m; case_decide; lia).
  apply qsafe_bind, qsafe_hpc. eapply (safe_bread_data _ (MkBlock (hda l1 0) x)); [done|done|cbn [b_body]; lia|].
  cbn [b_body]. set (d := take (Z.to_nat m) (bdata x)).
  assert (zlen d = m) as Ld by (unfold d; rewrite zlen_take; lia).
  replace (set_hp (hp s1) s1) with s1 by (by destruct s1).
  apply qsafe_bind, qsafe_hpc. eapply safe_bset; [done|]. apply qsafe_bind, qsafe_mod.
  apply (qrep_skip _ _ _ _ _ m) in R1; [|lia]. set (s2 := set_qq _ _) in *.
  assert (quiet s s2) as Q2 by done. clearbody s2.
  apply qsafe_bind, qsafe_has. replace (has (q_state (qq s2)) Qmsg) with (b_msg (sbits s)) by (by rewrite <- (quiet_sbits s s2)).
  apply qsafe_bind, qsafe_if; intros D.
  - apply qsafe_bind. eapply qsafe_unlink; [exact R1|]. intros s3 R3 _ Gb X3 Q3. set (x' := set_b_rp _ _) in *.
    apply qsafe_bind, qsafe_hpc. eapply safe_bset_next; [eapply qrep_lookup; [done|apply lookup_insert_eq]|].
    apply qsafe_ret. eapply (qrep_insert _ _ _ b _ (MkBlock (hda tf 0) x')) in R3; [|apply lookup_insert_eq].
    rewrite insert_insert_eq in R3. set (s4 := set_hp _ s3) in *.
    assert (quiet s s4) as Q4 by (by eapply quiet_trans). clearbody s4.
    apply qsafe_bind, qsafe_val. fold (half s4). rewrite (quiet_half s s4) by done.
    eapply qsafe_drain; [exact Q4|done|]. intros s5 R5 Dr. rewrite decide_True by done.
    apply qsafe_bind. eapply (qsafe_free_list ((b, x') :: tf)); [done|split_and!; [done|by eapply own_fresh|by apply own_new]|].
    intros s6 R6 Q6. apply qsafe_ret. rewrite <- Ld.
    apply (H2 d (drop (Z.to_nat m) (bdata x)) l1); [done| | |].
    + rewrite app_assoc. unfold d. rewrite take_drop. by rewrite <- E1, cdata_cons.
    + intros E. rewrite E in D. destruct D as [|D]; [done|]. rewrite drop_ge; [done|]. unfold zlen in B2. lia.
    + by eapply drained_quiet.
  - apply qsafe_ret, qsafe_bind, qsafe_val. fold (half s2). rewrite (quiet_half s s2) by done.
    eapply qsafe_drain; [exact Q2|exact R1|]. intros s5 R5 Dr. apply qsafe_bind.
    assert (qsafe (if decide (hda tf 0 <> 0) then hpc (freeblist (hda tf 0)) else cret tt) s5
              (fun _ s6 => qrep s6 ((b, set_b_rp (b_rp x + m) x) :: l1) G /\ quiet s5 s6)) as F.
    { apply qsafe_if; intros E.
      - eapply qsafe_free_list; [exact R5|exact O1|]. done.
      - destruct tf as [|[? ?] tf]; [|by destruct O1]. simpl in O1. subst G1. by apply qsafe_ret. }
    eapply qsafe_mono; [exact F|]. intros _ s6 [R6 Q6]. apply qsafe_ret. rewrite <- Ld.
    apply (H2 d [] ((b, set_b_rp (b_rp x + m) x) :: l1)); [done| |done|].
    + rewrite <- E1, !cdata_cons, bdata_skip by lia. simpl. rewrite app_assoc. unfold d. by rewrite take_drop.
    + by eapply drained_quiet.
Qed.
(** *** Blocks that arrive at the end *)

(** Blocks arrived: the reader that waits for them is woken; [f]: the writers are stopped. *)
Definition filled (f : bool) (s s' : qst) : Prop :=
  keeps s s' /\ sbits s' = with_flow (b_flow (sbits s) || f) (with_starve false (sbits s)) /\
  rr s' = rr s && negb (b_starve (sbits s)) /\ wr s' = wr s.

(** The queue after [k] was linked, [blast] set and the sums added. *)
Lemma qrep_linked s s1 l k G' G n d :
  qrep s l G' -> chain_ok k -> k <> [] -> own (blks (hp s1)) (l ++ k) 0 G ->
  q_bfirst (qq s1) = hda (l ++ k) 0 -> q_blast (qq s1) = lasta k ->
  q_len (qq s1) = s32 (q_len (qq s) + n) -> q_dlen (qq s1) = s32 (q_dlen (qq s) + d) ->
  s32 n = s32 (chain_sum BALLOC k) -> s32 d = s32 (chain_sum BLEN k) -> qrep s1 (l ++ k) G.
Proof.
  intros [O K F L N D] K' NN O1 F1 L1 N1 D1 En Ed. split; [done|by apply chain_ok_app|done| | |].
  - intros _. by rewrite L1, lasta_app.
  - rewrite N1, N, s32_add, chain_sum_app, <- (s32_s32_add _ n), <- (s32_s32_add _ (chain_sum BALLOC k)), En. done.
  - rewrite D1, D, s32_add, chain_sum_app, <- (s32_s32_add _ d), <- (s32_s32_add _ (chain_sum BLEN k)), Ed. done.
Qed.

Lemma qsafe_qappend b y l G s (Q : unit -> qst -> Prop) :
  qrep s l (<[b := MkBlock 0 y]> G) -> G !! b = None -> b <> 0 -> body_ok y ->
  (forall s', qrep s' (l ++ [(b, y)]) G -> quiet s s' -> Q tt s') ->
  qsafe (qappend b (BALLOC y) (BLEN y)) s Q.
Proof.
  intros R Gb B Y H. apply qsafe_bind. eapply (qsafe_link l [(b, y)]); [exact R|by apply own_one|done|].
  intros s1 O1 F1 N1 D1 Q1. apply qsafe_bind, qsafe_mod, qsafe_mod.
  apply H; [|done]. eapply (qrep_linked s _ l [(b, y)] _ G (BALLOC y) (BLEN y));
    [exact R|by apply chain_ok_one|done|exact O1|exact F1|done| | | |].
  - cbn [set_qq qq set_q_dlen set_q_len q_len set_q_blast]. by rewrite N1.
  - cbn [set_qq qq set_q_dlen set_q_len q_dlen set_q_blast]. by rewrite D1.
  - f_equal. simpl. lia.
  - f_equal. simpl. lia.
Qed.

Lemma safe_iallocb n h (Q : Z -> bheap -> Prop) : 0 <= n < 2 ^ 31 ->
  Q 0 h ->
  (forall b x h', b <> 0 -> blks h !! b = None -> fresh_body n x -> blks h' = <[b := MkBlock 0 x]> (blks h) -> Q b h') ->
  safe (R := unit) (iallocb n) h Q.
Proof.
  intros N H0 H. unfold iallocb. apply safe_bind, safe_gets, safe_if; intros D; [by apply safe_ret|].
  unfold safe, cbind. destruct (_allocb_spec (R := unit) n h N) as [->|(b & x & -> & B & F & X & _)].
  { rewrite decide_True by done. by split. }
  rewrite decide_False by done.
  fold (cbind (bset (R := unit) b (set_b_flag BINTR)) (fun _ => x <- bget b;; cmodify (fun s => set_ialloc (u32 (ialloc s + BALLOC (b_body x))) s);; cret b)).
  cut (safe (R := unit) (bset b (set_b_flag BINTR);; x <- bget b;;
    cmodify (fun s => set_ialloc (u32 (ialloc s + BALLOC (b_body x))) s);; cret b)
    (set_blks (<[b := MkBlock 0 x]> (blks h)) h) Q); [by unfold safe, cbind|].
  apply safe_bind. eapply safe_bset; [apply lookup_insert_eq|]. apply safe_bind.
  eapply safe_bget; [apply lookup_insert_eq|]. apply safe_bind. split; [done|]. apply safe_ret.
  eapply (H b (set_b_flag BINTR x)); [done|done|done|]. cbn [set_ialloc set_blks blks]. by rewrite insert_insert_eq.
Qed.

Lemma qsafe_inew s l G n (Q : Z -> qst -> Prop) : 0 <= n < 2 ^ 31 -> qrep s l G ->
  Q 0 s ->
  (forall b x s', b <> 0 -> G !! b = None -> fresh_body n x -> qrep s' l (<[b := MkBlock 0 x]> G) -> quiet s s' -> Q b s') ->
  qsafe (hpc (iallocb n)) s Q.
Proof.
  intros N R H0 H. apply qsafe_hpc, safe_iallocb; [done|by destruct s|]. intros c x h C F X E.
  eapply (H c x); [done|eapply own_fresh; [apply R|done]|done| |done].
  eapply qrep_hp; [done|]. rewrite E. apply own_new; [apply R|done].
Qed.

Lemma qsafe_qproduce p l G s (Q : Z -> qst -> Prop) :
  qrep s l G -> byte_list p -> zlen p < 2 ^ 31 ->
  (forall s', qrep s' l G -> keeps s s' -> sbits s' = with_flow true (sbits s) -> rr s' = rr s -> wr s' = wr s -> Q (-1) s') ->
  Q 0 s ->
  (forall b y s', qrep s' (l ++ [(b, y)]) G -> bdata y = p ->
     filled (bool_decide (q_limit (qq s) <= q_len (qq s'))) s s' -> Q (zlen p) s') ->
  qsafe (qproduce p) s Q.
Proof.
  intros R P L H1 H0 H2. apply qsafe_bind, qsafe_val, qsafe_bind, qsafe_val, qsafe_if; intros D.
  { apply qsafe_bind, qsafe_mod, qsafe_ret. apply H1; [by destruct R; split|done|apply bits_or_flow|done|done]. }
  pose proof (zlen_nonneg p). apply qsafe_bind. eapply qsafe_inew; [lia|done| |].
  { rewrite decide_True by done. by apply qsafe_ret. }
  intros b y s1 B Gb Y R1 Q1. apply fresh_ok in Y as (Y1 & Y2 & Y3); [|lia].
  rewrite decide_False by done. apply qsafe_bind. eapply qsafe_append_out; [done|apply lookup_insert_eq|done|done|].
  intros s2 R2 Q2. rewrite insert_insert_eq in R2. set (y' := grown p y) in *.
  assert (body_ok y') as Y4 by (by apply body_ok_grown).
  apply qsafe_bind. eapply qsafe_bget; [eapply qrep_lookup; [done|apply lookup_insert_eq]|]. cbn [b_body].
  apply qsafe_bind. eapply qsafe_qappend; [exact R2|done|done|done|]. intros s3 R3 Q3.
  assert (quiet s s3) as Qt by (eapply quiet_trans; [eapply quiet_trans|]; done).
  apply qsafe_bind, qsafe_unstarve. intros s4 C4. apply qsafe_bind, qsafe_val.
  apply qsafe_bind, qsafe_reflow. intros s5 C5. apply qsafe_bind, qsafe_when_rr. intros s6 C6. apply qsafe_ret.
  pose proof (ctls_rep _ _ _ _ _ _ _ (ctls_rep _ _ _ _ _ _ _ (ctls_rep _ _ _ _ _ _ _ R3 C4) C5) C6) as R6.
  apply (H2 b y'); [done| |].
  { unfold y'. rewrite bdata_grown, Y2; [done|apply Y1|done]. }
  pose proof (quiet_sbits _ _ Qt) as Es. unfold filled, quiet, ctls, keeps in *.
  destruct C4 as (_ & ? & _ & _ & N4 & _ & B4 & W4 & V4), C5 as (_ & ? & _ & _ & N5 & _ & B5 & W5 & V5),
    C6 as (_ & ? & _ & _ & N6 & _ & B6 & W6 & V6), Qt as (? & _ & Er & Ew).
  split_and!; [intuition congruence..| | |].
  - rewrite B6, B5, B4, Es, N6, N5. assert (q_limit (qq s4) = q_limit (qq s)) as -> by intuition congruence. done.
  - by rewrite W6, W5, W4, Er, Es.
  - by rewrite V6, V5, V4, Ew.
Qed.
Lemma s32_s32 a : s32 (s32 a) = s32 a.
Proof. pose proof (s32_add a 0) as E. by rewrite !Z.add_0_r in E. Qed.

Lemma pass_sum_ok k fuel a x G len d s (Q : Z * Z * Z -> qst -> Prop) :
  own (blks (hp s)) ((a, x) :: k) 0 G -> (length k < fuel)%nat ->
  (forall n m, s32 n = s32 (len + chain_sum BALLOC k) -> s32 m = s32 (d + chain_sum BLEN k) ->
     Q (lasta ((a, x) :: k), n, m) s) ->
  qsafe (pass_sum fuel a len d) s Q.
Proof.
  revert fuel a x G len d. induction k as [|[b y] k IH]; intros [|fuel] a x G len d O L H; simpl in L; try lia;
    pose proof (own_head _ _ _ _ _ _ O) as [A M]; cbn [pass_sum]; apply qsafe_bind; (eapply qsafe_bget; [done|]); cbn [b_next hda].
  - rewrite decide_True by done. apply qsafe_ret, H; by rewrite Z.add_0_r.
  - pose proof O as (_ & _ & O1). pose proof (own_head _ _ _ _ _ _ O1) as [B M1]. rewrite decide_False by done.
    apply qsafe_bind. eapply qsafe_bget; [done|]. cbn [b_body].
    eapply IH; [exact O1|lia|]. intros n m En Em. apply H; cbn [chain_sum foldr fst snd] in *.
    + rewrite En, s32_add. f_equal. unfold chain_sum. simpl. lia.
    + rewrite Em, s32_add. f_equal. unfold chain_sum. simpl. lia.
Qed.

(** The controls after the blocks are queued. *)
Lemma filled_ctls f s s1 s2 b r w : quiet s s1 -> ctls b r w s1 s2 ->
  b = with_flow (b_flow (sbits s) || f) (with_starve false (sbits s)) ->
  r = rr s && negb (b_starve (sbits s)) -> w = wr s -> filled f s s2.
Proof.
  intros Q (_ & K & _ & _ & _ & _ & B & R & W) -> -> ->. unfold filled, quiet, keeps in *. intuition congruence.
Qed.

Lemma qsafe_qpass_add k l G' G s (Q : Z -> qst -> Prop) :
  qrep s l G' -> own G' k 0 G -> k <> [] -> chain_ok k ->
  (forall n s', qrep s' (l ++ k) G -> filled (bool_decide (half s <= q_len (qq s'))) s s' -> Q n s') ->
  qsafe (qpass_add (hda k 0)) s Q.
Proof.
  intros R O NN K H. apply qsafe_bind. eapply qsafe_link; [done|done|done|]. intros s1 O1 F1 N1 D1 Q1.
  destruct k as [|[a x] k]; [done|]. cbn [hda]. pose proof O1 as O2. apply own_app in O2 as (G1 & _ & O2).
  pose proof (own_head _ _ _ _ _ _ O2) as [A M]. apply qsafe_bind. eapply qsafe_bget; [done|]. cbn [b_body].
  apply qsafe_bind, qsafe_fuel, qsafe_bind. pose proof (own_size _ _ _ _ O2) as Sz. simpl in Sz.
  eapply pass_sum_ok; [exact O2|lia|]. intros n d En Ed. apply qsafe_bind, qsafe_mod, qsafe_bind, qsafe_mod.
  set (s2 := set_qq _ _). assert (quiet s s2) as Q2 by done.
  assert (qrep s2 (l ++ (a, x) :: k) G) as R2.
  { eapply (qrep_linked s s2 l _ _ G n d); [exact R|done|done|exact O1|exact F1|done| | |done|done].
    - subst s2. cbn [set_qq qq set_q_dlen set_q_len q_len set_q_blast]. by rewrite N1.
    - subst s2. cbn [set_qq qq set_q_dlen set_q_len q_dlen set_q_blast]. by rewrite D1. }
  clearbody s2. apply qsafe_bind, qsafe_val. fold (half s2). rewrite (quiet_half s s2) by done.
  apply qsafe_bind, qsafe_reflow. intros s3 C3. apply qsafe_bind, qsafe_unstarve. intros s4 C4.
  apply qsafe_bind, qsafe_when_rr. intros s5 C5. apply qsafe_ret.
  pose proof (ctls_trans _ _ _ _ _ _ _ _ _ C3 (ctls_trans _ _ _ _ _ _ _ _ _ C4 C5)) as C.
  apply H; [by eapply ctls_rep|]. pose proof (quiet_sbits _ _ Q2) as Es.
  destruct C3 as (_ & _ & _ & _ & N3 & _ & B3 & W3 & V3), C4 as (_ & _ & _ & _ & _ & _ & B4 & W4 & V4).
  destruct Q2 as (Kp & Est & Er & Ew). eapply filled_ctls; [|exact C| | |].
  - done.
  - destruct C as (_ & _ & _ & _ & Nc & _). by rewrite B4, B3, Es, Nc.
  - by rewrite W4, W3, Er, B3, Es.
  - by rewrite V4, V3.
Qed.

(** On a closed queue the function reads a block that it has freed. *)
Lemma qsafe_qpassnolim k l G' G s (Q : Z -> qst -> Prop) :
  qrep s l G' -> own G' k 0 G -> k <> [] -> chain_ok k -> b_closed (sbits s) = false ->
  (forall n s', qrep s' (l ++ k) G -> filled (bool_decide (half s <= q_len (qq s'))) s s' -> Q n s') ->
  qsafe (qpassnolim (hda k 0)) s Q.
Proof.
  intros R O NN K C H. apply qsafe_bind, qsafe_has. unfold sbits, bitsof in C. simpl in C. rewrite C.
  by eapply qsafe_qpass_add.
Qed.

Lemma qsafe_qpass k l G' G s (Q : Z -> qst -> Prop) :
  qrep s l G' -> own G' k 0 G -> k <> [] -> chain_ok k -> b_closed (sbits s) = false ->
  (q_limit (qq s) <= q_len (qq s) -> forall s', qrep s' l G -> quiet s s' -> Q (-1) s') ->
  (q_len (qq s) < q_limit (qq s) -> forall n s', qrep s' (l ++ k) G ->
     filled (bool_decide (half s <= q_len (qq s'))) s s' -> Q n s') ->
  qsafe (qpass (hda k 0)) s Q.
Proof.
  intros R O NN K C H1 H2. apply qsafe_bind, qsafe_val, qsafe_bind, qsafe_val, qsafe_if; intros D.
  - apply qsafe_bind. eapply qsafe_free_list; [done|done|]. intros s' R' Q'. by apply qsafe_ret, H1.
  - eapply qsafe_qpassnolim; [done..|]. intros. apply H2; [lia|done|done].
Qed.

Lemma last_loop_ok k fuel a x G s (Q : Z -> qst -> Prop) :
  own (blks (hp s)) ((a, x) :: k) 0 G -> (length k < fuel)%nat ->
  Q (lasta ((a, x) :: k)) s -> qsafe (last_loop fuel a) s Q.
Proof.
  revert fuel a x G. induction k as [|[b y] k IH]; intros [|fuel] a x G O L H; simpl in L; try lia;
    pose proof (own_head _ _ _ _ _ _ O) as [A M]; cbn [last_loop]; apply qsafe_bind; (eapply qsafe_bget; [done|]); cbn [b_next hda].
  - rewrite decide_True by done. by apply qsafe_ret.
  - pose proof O as (_ & _ & O1). pose proof (own_head _ _ _ _ _ _ O1) as [B M1]. rewrite decide_False by done.
    eapply IH; [exact O1|lia|done].
Qed.

Lemma qsafe_qaddlist k l G' G s (Q : unit -> qst -> Prop) :
  qrep s l G' -> own G' k 0 G -> k <> [] -> chain_ok k ->
  (forall s', qrep s' (l ++ k) G -> quiet s s' -> Q tt s') -> qsafe (qaddlist (hda k 0)) s Q.
Proof.
  intros R O NN K H. apply qsafe_bind. eapply qsafe_link; [done|done|done|]. intros s1 O1 F1 N1 D1 Q1.
  pose proof O1 as O2. apply own_app in O2 as (G1 & _ & O2).
  apply qsafe_bind, qsafe_hpc, safe_bind, safe_fuel. change 0 with (s32 0) at 2.
  eapply blen_loop_ok; [done|by eapply own_fuel|]. replace (set_hp (hp s1) s1) with s1 by (by destruct s1).
  apply qsafe_bind, qsafe_hpc, safe_bind, safe_fuel. change 0 with (s32 0) at 2.
  eapply blen_loop_ok; [done|by eapply own_fuel|]. replace (set_hp (hp s1) s1) with s1 by (by destruct s1).
  apply qsafe_bind, qsafe_mod, qsafe_bind, qsafe_fuel, qsafe_bind. pose proof (own_size _ _ _ _ O2) as Sz.
  destruct k as [|[a x] k]; [done|]. simpl in Sz. eapply last_loop_ok; [exact O2|cbn; lia|]. apply qsafe_mod.
  apply H; [|done]. eapply (qrep_linked s _ l _ _ G); [exact R|done|done|exact O1|exact F1|done| | | |].
  - cbn [set_qq qq set_q_dlen set_q_len q_len set_q_blast]. by rewrite N1.
  - cbn [set_qq qq set_q_dlen set_q_len q_dlen set_q_blast]. by rewrite D1.
  - by rewrite s32_s32, Z.add_0_l.
  - by rewrite s32_s32, Z.add_0_l.
Qed.
(** *** [qbwrite] and [qiwrite] *)

Lemma filled_kick f s s1 s2 : filled f s s1 -> ctls (sbits s1) (rr s1) (wr s1) s1 s2 -> filled f s s2.
Proof. unfold filled, ctls, keeps. intuition congruence. Qed.

Lemma with_flow_same b : with_flow (b_flow b || false) b = b.
Proof. destruct b. unfold with_flow. simpl. by rewrite orb_false_r. Qed.

(** [kick] and [wakeup] after [qunstarve]. *)
Lemma qsafe_wake_reader (c : bool -> qcmd unit) s s0 l G (Q : unit -> qst -> Prop) :
  quiet s0 s -> qrep s l G ->
  (forall w s (Q : unit -> qst -> Prop), (forall s', ctls (sbits s) (rr s) (wr s) s s' -> Q tt s') -> qsafe (c w) s Q) ->
  (forall s', qrep s' l G -> filled false s0 s' -> Q tt s') ->
  qsafe (w <- qunstarve;; c w;; cwhen w wakeup_rr) s Q.
Proof.
  intros Qt R Hc H. apply qsafe_bind, qsafe_unstarve. intros s1 C1. apply qsafe_bind, Hc. intros s2 C2.
  apply qsafe_when_rr. intros s3 C3.
  pose proof (ctls_trans _ _ _ _ _ _ _ _ _ C1 (ctls_trans _ _ _ _ _ _ _ _ _ C2 C3)) as C.
  apply H; [by eapply ctls_rep|]. pose proof (quiet_sbits _ _ Qt) as Es.
  destruct C1 as (_ & _ & _ & _ & _ & _ & B1 & W1 & V1), C2 as (_ & _ & _ & _ & _ & _ & B2 & W2 & V2).
  destruct Qt as (Kp & Est & Er & Ew). eapply filled_ctls; [|exact C| | |].
  - done.
  - rewrite B2, B1, Es, orb_false_r. done.
  - by rewrite W2, W1, Er, Es.
  - by rewrite V2, V1.
Qed.

Lemma qsafe_qbwrite_put b x l G s (Q : put -> qst -> Prop) :
  qrep s l (<[b := MkBlock 0 x]> G) -> G !! b = None -> b <> 0 -> body_ok x -> q_bypass (qq s) = false ->
  (b_closed (sbits s) = true -> forall e s', qrep s' l G -> quiet s s' -> Q (PErr e) s') ->
  (q_noblock (qq s) <> 0 -> forall s', qrep s' l G -> quiet s s' -> Q (PDone (BLEN x)) s') ->
  (b_closed (sbits s) = false -> forall s', qrep s' (l ++ [(b, x)]) G -> filled false s s' -> Q (PQueued (BLEN x)) s') ->
  qsafe (qbwrite_put b) s Q.
Proof.
  intros R Gb B X By H1 H2 H3. assert (<[b:=MkBlock 0 x]> G !! b = Some (MkBlock 0 x)) as Lb by apply lookup_insert_eq.
  apply qsafe_bind. eapply qsafe_bget; [by eapply qrep_lookup|]. cbn [b_body].
  apply qsafe_bind, qsafe_val. rewrite By. apply qsafe_bind, qsafe_has.
  change (has (q_state (qq s)) Qclosed) with (b_closed (sbits s)). destruct (b_closed (sbits s)) eqn:C.
  { apply qsafe_bind, qsafe_val, qsafe_bind. eapply qsafe_free_out; [done|done|done|].
    intros s' R' Q'. rewrite delete_insert_id in R' by done. apply qsafe_ret, H1; done. }
  apply qsafe_bind, qsafe_val, qsafe_bind, qsafe_val, qsafe_bind, qsafe_val, qsafe_if; intros D.
  { apply qsafe_bind. eapply qsafe_free_out; [done|done|done|].
    intros s' R' Q'. rewrite delete_insert_id in R' by done. apply qsafe_ret, H2; tauto. }
  apply qsafe_bind. eapply (qsafe_link l [(b, x)]); [exact R|by apply own_one|done|].
  intros s1 O1 F1 N1 D1 Q1. apply qsafe_bind, qsafe_mod.
  assert (blks (hp s1) !! b = Some (MkBlock 0 x)) as L1.
  { apply own_app in O1 as (G1 & _ & O1). by apply own_head in O1 as [_ O1]. }
  apply qsafe_bind, qsafe_hpc. eapply safe_bset_next; [exact L1|]. cbn [set_qq hp].
  rewrite insert_id by done. apply qsafe_bind, qsafe_mod. set (s2 := set_qq _ _).
  assert (quiet s s2) as Q2 by done.
  assert (qrep s2 (l ++ [(b, x)]) G) as R2.
  { eapply (qrep_linked s s2 l [(b, x)] _ G (BALLOC x) (BLEN x)); [exact R|by apply chain_ok_one|done|exact O1|exact F1|done| | | |].
    - subst s2. cbn [set_qq qq set_hp set_q_dlen set_q_len q_len set_q_blast]. by rewrite N1.
    - subst s2. cbn [set_qq qq set_hp set_q_dlen set_q_len q_dlen set_q_blast]. by rewrite D1.
    - f_equal. simpl. lia.
    - f_equal. simpl. lia. }
  clearbody s2. set (f := fun w : bool => k <- qhas Qkick;; if decide (w = true \/ k = true) then do_kick else cret tt).
  assert (qsafe (w <- qunstarve;; f w;; cwhen w wakeup_rr) s2 (fun _ s' => Q (PQueued (BLEN x)) s')) as W.
  { eapply qsafe_wake_reader; [exact Q2|exact R2| |by intros; apply H3].
    clear. intros w s Q H. unfold f. apply qsafe_bind, qsafe_has, qsafe_if; intros _; [by apply qsafe_kick|].
    apply qsafe_ret, H. by repeat split. }
  revert W. unfold qsafe, f, cbind. destruct (qunstarve s2) as [[w| |r|] s3]; try done.
  destruct (qhas Qkick s3) as [[k| |r|] s4]; try done.
  destruct ((if decide (w = true \/ k = true) then do_kick else cret tt) s4) as [[[]| |r|] s5]; try done.
  by destruct (cwhen w wakeup_rr s5) as [[[]| |r|] s6].
Qed.

Lemma qsafe_qbwrite_flow s (Q : bool -> qst -> Prop) :
  (q_noblock (qq s) <> 0 \/ qnotfull (qq s) = true -> Q true s) ->
  (qnotfull (qq s) = false -> forall s', ctls (with_flow true (sbits s)) (rr s) (wr s) s s' -> Q false s') ->
  qsafe qbwrite_flow s Q.
Proof.
  intros H1 H2. apply qsafe_bind, qsafe_val, qsafe_bind, qsafe_val, qsafe_if; intros D.
  - by apply qsafe_ret, H1.
  - apply qsafe_bind, qsafe_mod, qsafe_ret, H2.
    + destruct (qnotfull (qq s)); tauto.
    + repeat split; try done. apply bits_or_flow.
Qed.

Lemma qsafe_qwrite_block p sofar l G s (Q : Z -> qst -> Prop) :
  qrep s l G -> byte_list p -> 0 <= sofar <= zlen p ->
  (forall b x s', b <> 0 -> G !! b = None -> body_ok x ->
     bdata x = take (Z.to_nat (Z.min Maxatomic (zlen p - sofar))) (drop (Z.to_nat sofar) p) ->
     qrep s' l (<[b := MkBlock 0 x]> G) -> quiet s s' -> Q b s') ->
  qsafe (qwrite_block p sofar) s Q.
Proof.
  intros R P C H. unfold qwrite_block. set (n := if decide _ then Maxatomic else _).
  assert (n = Z.min Maxatomic (zlen p - sofar)) as En by (unfold n; case_decide; lia).
  unfold Maxatomic in En. set (d := take (Z.to_nat n) (drop (Z.to_nat sofar) p)).
  assert (zlen d = n) as Ld by (unfold d; rewrite zlen_take, zlen_drop; lia).
  assert (byte_list d) as Rd by (by apply Forall_take, Forall_drop).
  apply qsafe_bind. eapply qsafe_new; [|done|].
  { lia. }
  intros b x s1 B Gb Y R1 Q1. apply fresh_ok in Y as (Y1 & Y2 & Y3); [|lia].
  apply qsafe_bind. eapply qsafe_append_out; [done|apply lookup_insert_eq|done|lia|].
  intros s2 R2 Q2. rewrite insert_insert_eq in R2. apply qsafe_ret.
  apply (H b (grown d x)); [done|done|apply body_ok_grown; [done|lia]| |done|by eapply quiet_trans].
  unfold Maxatomic. rewrite <- En, bdata_grown, Y2 by (apply Y1 || done). done.
Qed.
Lemma filled_trans s1 s2 s3 : filled false s1 s2 -> filled false s2 s3 -> filled false s1 s3.
Proof.
  unfold filled, keeps. intros (? & B1 & R1 & W1) (? & B2 & R2 & W2).
  rewrite B2, B1, R2, R1, W2, W1, B1, !orb_false_r. simpl. rewrite andb_true_r. intuition congruence.
Qed.

Lemma quiet_filled s1 s2 s3 : quiet s1 s2 -> filled false s2 s3 -> filled false s1 s3.
Proof.
  intros Q (K2 & B2 & R2 & W2). pose proof (quiet_sbits _ _ Q) as E. destruct Q as (K1 & _ & R1 & W1).
  unfold filled, keeps in *. rewrite B2, R2, W2, E, R1, W1. intuition congruence.
Qed.

Lemma filled_quiet s1 s2 s3 : filled false s1 s2 -> quiet s2 s3 -> filled false s1 s3.
Proof.
  intros (K2 & B2 & R2 & W2) Q. pose proof (quiet_sbits _ _ Q) as E. destruct Q as (K1 & _ & R1 & W1).
  unfold filled, keeps in *. rewrite E, B2, R1, W1. intuition congruence.
Qed.

(** One round of [qiwrite] adds a block. *)
Lemma qsafe_iput (dow : bool) b x l G s (k : bool -> qcmd Z) (Q : Z -> qst -> Prop) :
  qrep s l (<[b := MkBlock 0 x]> G) -> G !! b = None -> b <> 0 -> body_ok x -> (dow = true -> rr s = false) ->
  (forall w s', (w = true -> rr s' = false) -> qrep s' (l ++ [(b, x)]) G -> filled false s s' -> qsafe (k w) s' Q) ->
  qsafe (qappend b (BALLOC x) (BLEN x);; w <- qunstarve;; cwhen (dow || w) (do_kick;; wakeup_rr);; k (dow || w)) s Q.
Proof.
  intros R Gb B X Dw H. apply qsafe_bind. eapply qsafe_qappend; [exact R|done|done|done|]. intros s1 R1 Q1.
  apply qsafe_bind, qsafe_unstarve. intros s2 C2. pose proof (quiet_sbits _ _ Q1) as Es. rewrite Es.
  apply qsafe_bind. set (w := dow || b_starve (sbits s)).
  assert (qsafe (cwhen w (do_kick;; wakeup_rr)) s2 (fun _ s' => ctls (sbits s2) (rr s2 && negb w) (wr s2) s2 s')) as W.
  { destruct w.
    - cbn [cwhen]. apply qsafe_bind, qsafe_kick. intros s3 C3. split; [done|]. rewrite andb_false_r.
      destruct C3 as (E1 & E2 & E3 & E4 & E5 & E6 & E7 & E8 & E9). by split_and!.
    - apply qsafe_ret. rewrite andb_true_r. by repeat split. }
  eapply qsafe_mono; [exact W|]. intros [] s3 C3. cbn beta in C3. pose proof (ctls_trans _ _ _ _ _ _ _ _ _ C2 C3) as C.
  assert (rr s3 = rr s && negb (b_starve (sbits s))) as Er.
  { destruct C as (_ & _ & _ & _ & _ & _ & _ & -> & _). destruct C2 as (_ & _ & _ & _ & _ & _ & _ & -> & _).
    destruct Q1 as (_ & _ & -> & _). unfold w. destruct dow; [|done]. by rewrite Dw. }
  apply H.
  - intros E. destruct C as (_ & _ & _ & _ & _ & _ & _ & -> & _). by rewrite E, andb_false_r.
  - eapply ctls_rep; [|exact C]. done.
  - destruct C2 as (_ & _ & _ & _ & _ & _ & B2 & _ & V2). destruct C as (? & ? & ? & ? & ? & ? & B3 & R3 & V3).
    destruct Q1 as (? & ? & ? & ?). unfold filled. rewrite Er, V3, V2, B3, B2, Es, orb_false_r.
    unfold keeps in *. intuition congruence.
Qed.

Lemma iwrite_loop_ok fuel p sofar dow l G s (Q : Z -> qst -> Prop) :
  qrep s l G -> byte_list p -> zlen p < 2 ^ 31 -> 0 <= sofar <= zlen p -> (Z.to_nat (zlen p - sofar) < fuel)%nat ->
  (dow = true -> rr s = false) ->
  (forall r k s', qrep s' (l ++ k) G -> cdata k = take (Z.to_nat (r - sofar)) (drop (Z.to_nat sofar) p) ->
     sofar <= r <= zlen p -> (if decide (k = []) then quiet s s' else filled false s s') -> Q r s') ->
  qsafe (iwrite_loop fuel p sofar dow) s Q.
Proof.
  revert sofar dow l s. induction fuel as [|fuel IH]; intros sofar dow l s R P L C Fu Dw H; [lia|]. cbn [iwrite_loop].
  set (n := if decide (Maxatomic < zlen p - sofar) then Maxatomic else zlen p - sofar).
  assert (n = Z.min Maxatomic (zlen p - sofar)) as En by (unfold n; case_decide; lia).
  unfold Maxatomic in En. set (d := take (Z.to_nat n) (drop (Z.to_nat sofar) p)).
  assert (zlen d = n) as Ld by (unfold d; rewrite zlen_take, zlen_drop; lia).
  assert (byte_list d) as Rd by (by apply Forall_take, Forall_drop).
  assert (forall s', qrep s' l G -> quiet s s' -> Q sofar s') as H0.
  { intros s' R' Q'. apply (H sofar []); [by rewrite app_nil_r|by rewrite Z.sub_diag|lia|done]. }
  apply qsafe_bind. eapply qsafe_inew; [lia|done| |].
  { rewrite decide_True by done. apply qsafe_ret, H0; [done|apply quiet_refl]. }
  intros b x s1 B Gb Y R1 Q1. apply fresh_ok in Y as (Y1 & Y2 & Y3); [|lia]. rewrite decide_False by done.
  apply qsafe_bind. eapply qsafe_append_out; [done|apply lookup_insert_eq|done|lia|].
  intros s2 R2 Q2. rewrite insert_insert_eq in R2. set (y := grown d x) in *.
  assert (body_ok y) as Yk by (apply body_ok_grown; [done|lia]).
  assert (bdata y = d) as Yd by (unfold y; rewrite bdata_grown, Y2; [done|apply Y1|done]).
  pose proof (BLEN_ok _ Yk) as [_ Yl]. rewrite Yd, Ld in Yl.
  assert (quiet s s2) as Q3 by (by eapply quiet_trans).
  apply qsafe_bind, qsafe_val, qsafe_if; intros D.
  { apply qsafe_bind. eapply qsafe_free_out; [done|apply lookup_insert_eq|done|]. intros s3 R3 Q4.
    rewrite delete_insert_id in R3 by done. apply qsafe_ret, H0; [done|by eapply quiet_trans]. }
  apply qsafe_bind. eapply qsafe_bget; [eapply qrep_lookup; [done|apply lookup_insert_eq]|]. cbn [b_body].
  replace (qappend b (BALLOC y) n) with (qappend b (BALLOC y) (BLEN y)) by congruence.
  apply (qsafe_iput dow b y l G s2 (fun w => m <- qhas Qmsg;;
    if decide (sofar + n < zlen p /\ m = false) then iwrite_loop fuel p (sofar + n) w else cret (sofar + n)));
    [exact R2|done|done|done| |].
  { intros E. destruct Q3 as (_ & _ & -> & _). by apply Dw. }
  intros w s3 Ew R3 F3. pose proof (quiet_filled _ _ _ Q3 F3) as F. apply qsafe_bind, qsafe_has, qsafe_if; intros G1.
  - eapply (IH (sofar + n) w (l ++ [(b, y)])); [exact R3|done|done|lia|lia|done|].
    intros r k s' R' E Cr Fk. rewrite <- app_assoc in R'. apply (H r ((b, y) :: k)); [done| |lia|].
    + assert (drop (Z.to_nat sofar) p = d ++ drop (Z.to_nat (sofar + n)) p) as Ed.
      { rewrite <- (take_drop (Z.to_nat n) (drop (Z.to_nat sofar) p)) at 1. fold d. rewrite drop_drop. do 2 f_equal. lia. }
      rewrite cdata_cons, Yd, E, Ed, ztake_app, Ld, Z.min_r by lia. rewrite (take_ge d) by (unfold zlen in Ld; lia).
      do 3 f_equal. lia.
    + rewrite decide_False by done. case_decide; [by eapply filled_quiet|by eapply filled_trans].
  - apply qsafe_ret, (H (sofar + n) [(b, y)]); [done| |lia|by rewrite decide_False by done].
    rewrite cdata_one, Yd. unfold d. do 2 f_equal. lia.
Qed.

Lemma qsafe_qiwrite p l G s (Q : Z -> qst -> Prop) :
  qrep s l G -> byte_list p -> zlen p < 2 ^ 31 ->
  (forall r k s', qrep s' (l ++ k) G -> cdata k = take (Z.to_nat r) p -> 0 <= r <= zlen p ->
     (if decide (k = []) then quiet s s' else filled false s s') -> Q r s') ->
  qsafe (qiwrite p) s Q.
Proof.
  intros R P L H. pose proof (zlen_nonneg p). eapply iwrite_loop_ok; [done|done|done|lia|unfold zlen; lia|done|].
  intros r k s' R' E C F. rewrite Z.sub_0_r in E. by eapply H.
Qed.
(** *** Closing and emptying *)

Lemma qsafe_qempty l G s (Q : Z -> qst -> Prop) :
  qrep s l G ->
  (forall s', q_bfirst (qq s') = 0 -> q_len (qq s') = 0 -> q_dlen (qq s') = 0 -> own (blks (hp s')) l 0 G ->
     quiet s s' -> Q (hda l 0) s') ->
  qsafe qempty s Q.
Proof.
  intros R H. apply qsafe_bind, qsafe_val, qsafe_bind, qsafe_mod, qsafe_ret. rewrite (r_first _ _ _ R).
  by apply H; [| | |apply R|].
Qed.

Lemma qrep_nil s : q_bfirst (qq s) = 0 -> q_len (qq s) = 0 -> q_dlen (qq s) = 0 -> qrep s [] (blks (hp s)).
Proof. intros. split; [done|constructor|done|done|done|done]. Qed.

Lemma qsafe_qflush l G s (Q : unit -> qst -> Prop) :
  qrep s l G ->
  (forall s', qrep s' [] G -> keeps s s' -> sbits s' = sbits s -> rr s' = rr s -> wr s' = false -> Q tt s') ->
  qsafe qflush s Q.
Proof.
  intros R H. apply qsafe_bind. eapply qsafe_qempty; [done|]. intros s1 F N D O Qt.
  apply qsafe_bind, qsafe_hpc. eapply safe_freeblist; [done|]. intros h E. split; [done|].
  destruct Qt as (K & Es & Er & Ew). apply H; [|done| |done|done].
  - rewrite <- E. by apply (qrep_nil (set_wr false (set_hp h s1))).
  - unfold sbits. simpl. by rewrite Es.
Qed.

Lemma qsafe_qclose l G s (Q : unit -> qst -> Prop) :
  qrep s l G ->
  (forall s', qrep s' [] G -> q_limit (qq s') = q_limit (qq s) -> q_inilim (qq s') = q_inilim (qq s) ->
     q_bypass (qq s') = q_bypass (qq s) ->
     sbits s' = with_flow false (with_starve false (with_closed true (sbits s))) -> rr s' = false -> wr s' = false -> Q tt s') ->
  qsafe qclose s Q.
Proof.
  intros R H. apply qsafe_bind, qsafe_mod, qsafe_bind, qsafe_mod, qsafe_bind, qsafe_mod, qsafe_bind.
  set (s0 := set_qq _ _). assert (qrep s0 l G) as R0 by (by destruct R; split).
  assert (sbits s0 = with_flow false (with_starve false (with_closed true (sbits s)))) as B0.
  { unfold s0, sbits. simpl. by rewrite bits_clr_both, bits_or_closed. }
  assert (q_limit (qq s0) = q_limit (qq s) /\ q_inilim (qq s0) = q_inilim (qq s) /\ q_bypass (qq s0) = q_bypass (qq s)) as (L0 & I0 & P0) by done.
  clearbody s0. eapply qsafe_qempty; [done|]. intros s1 F N D O ((K1 & K2 & K3 & K4) & Es & Er & Ew).
  apply qsafe_bind, qsafe_mod, qsafe_bind, qsafe_hpc. eapply safe_freeblist; [done|]. intros h E.
  apply qsafe_bind. split; [done|]. split; [done|]. apply H; simpl; try congruence.
  - rewrite <- E. by apply qrep_nil.
  - unfold sbits in *. simpl. by rewrite Es.
Qed.

Lemma qsafe_qhangup msg l G s (Q : unit -> qst -> Prop) :
  qrep s l G ->
  (forall s', qrep s' l G -> keeps s s' -> sbits s' = with_closed true (sbits s) -> rr s' = false -> wr s' = false -> Q tt s') ->
  qsafe (qhangup msg) s Q.
Proof.
  intros R H. apply qsafe_bind, qsafe_mod, qsafe_bind, qsafe_mod, qsafe_bind. split; [done|]. split; [done|].
  apply H; [by destruct R; split|done| |done|done]. apply bits_or_closed.
Qed.

Lemma qsafe_qreopen l G s (Q : unit -> qst -> Prop) :
  qrep s l G ->
  (forall s', qrep s' l G -> q_limit (qq s') = q_inilim (qq s) -> q_inilim (qq s') = q_inilim (qq s) ->
     q_bypass (qq s') = q_bypass (qq s) -> q_noblock (qq s') = q_noblock (qq s) ->
     sbits s' = with_starve true (with_closed false (sbits s)) -> rr s' = rr s -> wr s' = wr s -> Q tt s') ->
  qsafe qreopen s Q.
Proof.
  intros R H. apply qsafe_bind, qsafe_mod, qsafe_bind, qsafe_mod, qsafe_bind, qsafe_mod, qsafe_mod.
  apply H; [by destruct R; split|done..| |done|done]. unfold sbits. simpl. by rewrite bits_or_starve, bits_clr_closed.
Qed.

(** *** Readers *)

Lemma qsafe_qputback b n y l G s (Q : unit -> qst -> Prop) :
  qrep s l (<[b := MkBlock n y]> G) -> G !! b = None -> b <> 0 -> body_ok y ->
  (forall s', qrep s' ((b, y) :: l) G -> quiet s s' -> Q tt s') -> qsafe (qputback b) s Q.
Proof.
  intros R Gb B Y H. pose proof R as [O K F L N D]. apply qsafe_bind, qsafe_val. rewrite F.
  pose proof (own_lookup _ _ _ _ _ _ O (lookup_insert_eq _ _ _)) as Lb.
  apply qsafe_bind, qsafe_hpc. eapply safe_bset_next; [done|].
  apply (qrep_insert _ _ _ b (MkBlock n y) (MkBlock (hda l 0) y)) in R; [|apply lookup_insert_eq]. rewrite insert_insert_eq in R.
  set (s1 := set_hp _ s) in *. assert (quiet s s1) as Q1 by done. clear Lb O F L N D.
  apply qsafe_bind. eapply (qsafe_mono _ _ (fun _ s2 => quiet s s2 /\ hp s2 = hp s1 /\ q_len (qq s2) = q_len (qq s1) /\
    q_dlen (qq s2) = q_dlen (qq s1) /\ q_blast (qq s2) = lasta ((b, y) :: l))).
  { apply qsafe_if; intros C; [apply qsafe_mod|apply qsafe_ret]; split_and!; try done.
    - destruct l as [|[a x] l]; [done|]. by destruct R as [(? & _) _ _ _ _ _].
    - destruct l as [|p l]; [done|]. rewrite (r_last _ _ _ R) by done. symmetry. by apply (lasta_app [(b, y)]). }
  intros [] s2 (Q2 & H2 & N2 & D2 & L2).
  apply qsafe_bind, qsafe_mod, qsafe_bind. eapply qsafe_bget.
  { cbn [set_qq hp]. rewrite H2. eapply qrep_lookup; [done|apply lookup_insert_eq]. }
  cbn [b_body]. apply qsafe_mod, H; [|done]. destruct R as [O K' F L N D]. split; cbn [set_qq qq hp].
  - rewrite H2. by split_and!.
  - by apply chain_ok_cons.
  - done.
  - done.
  - cbn [q_len set_q_len set_q_dlen set_q_bfirst]. rewrite N2, N, s32_add. f_equal. simpl. lia.
  - cbn [q_dlen set_q_len set_q_dlen set_q_bfirst]. rewrite D2, D, s32_add. f_equal. simpl. lia.
Qed.

Lemma qsafe_wakeup_iunlock s0 l G s (Q : unit -> qst -> Prop) :
  quiet s0 s -> qrep s l G -> (forall s', qrep s' l G -> drained (half s0) s0 s' -> Q tt s') -> qsafe qwakeup_iunlock s Q.
Proof.
  intros Qt R H. apply qsafe_bind, qsafe_val. fold (half s). rewrite (quiet_half s0 s) by done.
  apply qsafe_bind, qsafe_unflow. intros s1 C1. set (w := flowing (half s0) s) in *.
  assert (qsafe (if w then do_kick;; wakeup_wr else cret tt) s1 (fun _ s' => ctls (sbits s1) (rr s1) (wr s1 && negb w) s1 s')) as W.
  { destruct w.
    - apply qsafe_bind, qsafe_kick. intros s2 (E1 & E2 & E3 & E4 & E5 & E6 & E7 & E8 & E9). split; [done|].
      rewrite andb_false_r. by split_and!.
    - apply qsafe_ret. rewrite andb_true_r. by repeat split. }
  eapply qsafe_mono; [exact W|]. intros [] s2 C2. cbn beta in C2.
  pose proof (ctls_trans _ _ _ _ _ _ _ _ _ C1 C2) as C. apply H; [by eapply ctls_rep|].
  pose proof (quiet_sbits _ _ Qt) as E. destruct Qt as (Kp & _ & Er & Ew).
  destruct C1 as (_ & _ & _ & _ & _ & _ & B2 & R2 & W2). destruct C as (_ & K' & _ & _ & L' & _ & B' & R' & W').
  unfold drained, w, flowing in *. rewrite L', B', B2, E, R', R2, W', W2, Er, Ew, E.
  split_and!; [|done|done|done]. unfold keeps in *. intuition congruence.
Qed.

Lemma qsafe_after_qwait {A} (c : qcmd (rd A)) l G s Q :
  qrep s l G ->
  (l = [] -> b_closed (sbits s) = true -> forall r s', r = REof \/ (exists e, r = RErr e) -> qrep s' [] G -> quiet s s' -> Q r s') ->
  (l = [] -> b_closed (sbits s) = false -> forall s', qrep s' [] G -> ctls (with_starve true (sbits s)) (rr s) (wr s) s s' -> Q RSleep s') ->
  (l <> [] -> qsafe c s Q) -> qsafe (after_qwait c) s Q.
Proof.
  intros R H1 H2 H3. unfold after_qwait. apply qsafe_bind, qsafe_bind, qsafe_val. rewrite (r_first _ _ _ R).
  apply qsafe_if; intros D.
  { apply qsafe_ret. cbn [decide]. rewrite !decide_False by done. apply H3. by intros ->. }
  assert (l = []) as -> by (destruct l as [|[a x] l]; [done|]; destruct R as [(? & _) _ _ _ _ _]; simpl in D; tauto).
  apply qsafe_bind, qsafe_has. change (has (q_state (qq s)) Qclosed) with (b_closed (sbits s)).
  destruct (b_closed (sbits s)) eqn:C.
  - apply qsafe_bind, qsafe_mod, qsafe_bind, qsafe_val. set (s1 := set_qq _ s).
    assert (qrep s1 [] G /\ quiet s s1) as [R1 Q1] by (split; [by destruct R; split|done]). clearbody s1.
    apply qsafe_if; intros E; [apply qsafe_ret|apply qsafe_bind, qsafe_val, qsafe_if; intros E2; apply qsafe_ret].
    + rewrite decide_False, decide_True by done. apply qsafe_bind, qsafe_val, qsafe_ret. apply H1; eauto.
    + rewrite decide_False, decide_True by done. apply qsafe_bind, qsafe_val, qsafe_ret. apply H1; eauto.
    + rewrite decide_True by done. apply qsafe_ret. apply H1; eauto.
  - apply qsafe_bind, qsafe_mod, qsafe_ret, qsafe_ret. apply H2; [done|done|by destruct R; split|].
    repeat split; try done. apply bits_or_starve.
Qed.
(** *** [qread] and [qbread] *)

Lemma lasta_own m k e F : own m k e F -> k <> [] -> lasta k <> 0.
Proof.
  intros O N. destruct k as [|[p z] k _] using rev_ind; [done|]. rewrite lasta_snoc.
  apply own_app in O as (? & _ & ? & _). done.
Qed.

(** The first block of the queue is taken off and linked behind [k]. *)
Lemma qsafe_grab {A} b x l k G' G s (f : Z -> qcmd A) (Q : A -> qst -> Prop) :
  qrep s ((b, x) :: l) G' -> own G' k 0 G ->
  (forall s' G2, qrep s' l G2 -> own G2 (k ++ [(b, x)]) 0 G -> body_ok x -> quiet s s' -> qsafe (f b) s' Q) ->
  qsafe (b <- qremove;; (if decide (lasta k <> 0) then hpc (bset_next (lasta k) b) else cret tt);; f b) s Q.
Proof.
  intros R O H. apply qsafe_bind. eapply qsafe_qremove; [done|]. intros s1 R1 B Gb X Q1.
  assert (G !! b = None) as Gb' by (by eapply own_fresh).
  pose proof (own_new _ _ _ _ b (MkBlock 0 x) O Gb) as O1.
  pose proof (own_concat _ _ _ _ _ _ O1 (own_one b x G B Gb')) as O2. cbn [hda] in O2. unfold relink in O2.
  apply qsafe_bind. destruct k as [|[p z] k _] using rev_ind; [apply qsafe_ret; by eapply H|].
  rewrite lasta_snoc. rewrite list.last_snoc in O2.
  apply own_app in O1 as (G3 & _ & O1). apply own_head in O1 as [P M]. rewrite decide_True by done.
  apply qsafe_hpc. eapply safe_bset_next; [eapply qrep_lookup; [exact R1|done]|].
  eapply H; [eapply qrep_insert; [exact R1|done]|exact O2|done|done].
Qed.

(** [k0] was grabbed; the queue still has [(b, x) :: l]. *)
Lemma grab_loop_ok l fuel len k0 b x G' G s (Q : Z * Z -> qst -> Prop) :
  qrep s ((b, x) :: l) G' -> own G' k0 0 G -> (length l < fuel)%nat -> chain_ok k0 ->
  zlen (cdata (k0 ++ (b, x) :: l)) < 2 ^ 31 -> (k0 = [] \/ zlen (cdata k0) + BLEN x <= len) ->
  (forall k l' G2 s', qrep s' l' G2 -> own G2 k 0 G -> chain_ok k -> k0 ++ (b, x) :: l = k ++ l' -> k <> [] ->
     (length k = 1%nat \/ zlen (cdata k) <= len) -> quiet s s' -> Q (hda k 0, zlen (cdata k)) s') ->
  qsafe (grab_loop fuel len (hda k0 0) (lasta k0) (zlen (cdata k0)) (BLEN x)) s Q.
Proof.
  revert fuel k0 b x G' s. induction l as [|[c y] l IH]; intros [|fuel] k0 b x G' s R O L K T C H; simpl in L; try lia;
    cbn [grab_loop]; (eapply qsafe_grab; [done|done|]); intros s1 G2 R1 O1 X Q1;
    pose proof (BLEN_ok _ X) as [B1 B2]; pose proof (zlen_nonneg (cdata k0));
    (replace (if decide (lasta k0 = 0) then b else hda k0 0) with (hda (k0 ++ [(b, x)]) 0) by
      (destruct k0 as [|p k0]; [done|]; rewrite decide_False by (by eapply lasta_own); by destruct p));
    assert (chain_ok (k0 ++ [(b, x)])) as K1 by (apply chain_ok_app; split; [done|by apply chain_ok_one]);
    assert (zlen (cdata (k0 ++ [(b, x)])) = zlen (cdata k0) + BLEN x) as Ez by (rewrite cdata_app, cdata_one, zlen_app; lia);
    assert (length (k0 ++ [(b, x)]) = 1%nat \/ zlen (cdata (k0 ++ [(b, x)])) <= len) as C' by
      (destruct C as [->|C]; [by left|right; lia]);
    rewrite cdata_app, cdata_cons, !zlen_app in T;
    apply qsafe_bind, qsafe_val; rewrite (r_first _ _ _ R1); cbn [hda].
  - change (zlen (cdata [])) with 0 in T. rewrite s32_small, decide_True by (lia || done). apply qsafe_ret.
    rewrite <- Ez. eapply (H _ []); [done|done|done|by rewrite app_nil_r|by destruct k0|done|done].
  - pose proof (r_ok _ _ _ R1) as K2. apply chain_ok_cons in K2 as [Y K2]. pose proof (BLEN_ok _ Y) as [B3 B4].
    rewrite cdata_cons, zlen_app in T. pose proof (zlen_nonneg (cdata l)). rewrite s32_small by lia.
    pose proof (own_head _ _ _ _ _ _ (r_own _ _ _ R1)) as [Cc M]. rewrite decide_False by done.
    apply qsafe_bind. eapply qsafe_bget; [done|]. cbn [b_body]. rewrite s32_small by lia.
    assert ((k0 ++ [(b, x)]) ++ (c, y) :: l = k0 ++ (b, x) :: (c, y) :: l) as Ea by (by rewrite <- app_assoc).
    rewrite <- Ez. apply qsafe_if; intros D.
    + apply qsafe_ret. eapply (H _ ((c, y) :: l)); [done|done|done|done|by destruct k0|done|done].
    + pose proof (fun P1 P2 P3 P4 P5 => IH fuel (k0 ++ [(b, x)]) c y G2 s1 R1 O1 P1 P2 P3 P4 P5) as I.
      rewrite lasta_snoc in I. apply I; [lia|done| |right; lia|].
      * rewrite Ea, cdata_app, !cdata_cons, !zlen_app. lia.
      * intros k l' G3 s' R3 O3 K3 E NN C3 Q3. rewrite Ea in E. eapply (H k l'); [done..|by eapply quiet_trans].
Qed.

(** What [qread] takes: one block, or several that fit in the read. The empty blocks before
    them are thrown away. *)
Lemma take_loop_ok l fuel len G s (Q : rd (Z * Z) -> qst -> Prop) :
  qrep s l G -> (length l < fuel)%nat -> zlen (cdata l) < 2 ^ 31 ->
  (cdata l = [] -> b_closed (sbits s) = true -> forall r s', r = REof \/ (exists e, r = RErr e) -> qrep s' [] G -> quiet s s' -> Q r s') ->
  (cdata l = [] -> b_closed (sbits s) = false -> forall s', qrep s' [] G -> ctls (with_starve true (sbits s)) (rr s) (wr s) s s' \/
     (keeps s s' /\ sbits s' = with_starve true (sbits s) /\ rr s' = rr s /\ wr s' = wr s) -> Q RSleep s') ->
  (forall k l' G' s', qrep s' l' G' -> own G' k 0 G -> chain_ok k -> cdata l = cdata k ++ cdata l' -> l <> [] ->
     (length k = 1%nat \/ zlen (cdata k) <= len) -> quiet s s' -> Q (RGot (hda k 0, zlen (cdata k))) s') ->
  qsafe (take_loop fuel len) s Q.
Proof.
  revert fuel s. induction l as [|[b x] l IH]; intros [|fuel] s R L T H1 H2 H3; simpl in L; try lia; cbn [take_loop].
  - eapply qsafe_after_qwait; [done| | |done]; intros _ C.
    + intros. by apply H1.
    + intros. apply H2; [done|done|done|by left].
  - eapply qsafe_after_qwait; [done|done|done|]. intros _. pose proof (own_head _ _ _ _ _ _ (r_own _ _ _ R)) as [B M].
    pose proof (r_ok _ _ _ R) as K. apply chain_ok_cons in K as [X K]. pose proof (BLEN_ok _ X) as [B1 B2].
    apply qsafe_bind, qsafe_has, qsafe_bind, qsafe_val. rewrite (r_first _ _ _ R). cbn [hda].
    apply qsafe_bind. eapply qsafe_bget; [done|]. cbn [b_body]. pose proof T as T'.
    rewrite cdata_cons, zlen_app in T'. pose proof (zlen_nonneg (cdata l)). apply qsafe_if; intros D.
    + apply qsafe_bind. eapply qsafe_qremove; [done|]. intros s1 R1 _ Gb _ Q1.
      apply qsafe_bind. eapply qsafe_free_out; [done|apply lookup_insert_eq|done|]. intros s2 R2 Q2.
      rewrite delete_insert_id in R2 by done. assert (quiet s s2) as Q3 by (by eapply quiet_trans).
      assert (cdata ((b, x) :: l) = cdata l) as E by (rewrite cdata_cons, (bdata_nil x) by lia; done).
      rewrite E in *. pose proof (quiet_sbits _ _ Q3) as Es.
      eapply IH; [exact R2|lia|lia| | |].
      * intros E0 C r s' Hr R' Q'. rewrite Es in C. apply H1; [done|done|done|done|by eapply quiet_trans].
      * intros E0 C s' R' Q'. rewrite Es in *. apply H2; [done|done|done|]. right.
        destruct Q3 as (Kp & _ & Er & Ew).
        destruct Q' as [(_ & Kp' & _ & _ & _ & _ & -> & -> & ->)|(Kp' & -> & -> & ->)]; unfold keeps in *; intuition congruence.
      * intros k l' G' s' R' O' K' E' _ C' Q'. eapply H3; [done|done|done|done|done|done|by eapply quiet_trans].
    + destruct (has (q_state (qq s)) Qcoalesce) eqn:Co.
      * apply qsafe_bind, qsafe_fuel, qsafe_bind. pose proof (qrep_fuel _ _ _ R) as F. simpl in F.
        eapply (grab_loop_ok l _ len []); [exact R|done|lia|by constructor|exact T|by left|].
        intros k l' G' s' R' O' K' E NN C' Q'. apply qsafe_ret. simpl in E.
        eapply (H3 k l'); [done|done|done|by rewrite E, cdata_app|done|done|done].
      * apply qsafe_bind. eapply qsafe_qremove; [done|]. intros s1 R1 _ Gb _ Q1. apply qsafe_bind.
        eapply qsafe_bget; [eapply qrep_lookup; [done|apply lookup_insert_eq]|]. apply qsafe_ret. cbn [b_body].
        rewrite <- B2, <- (cdata_one b x). eapply (H3 [(b, x)]); [done|by apply own_one|by apply chain_ok_one| |done|by left|done].
        by rewrite cdata_one, cdata_cons.
Qed.
Lemma qsafe_copy k l G' G len s (Q : bytes * Z -> qst -> Prop) :
  qrep s l G' -> own G' k 0 G -> chain_ok k -> 0 <= len -> (length k = 1%nat \/ zlen (cdata k) <= len) ->
  (forall k2 G2 s', qrep s' l G2 -> own G2 k2 0 G -> chain_ok k2 -> (length k2 <= 1)%nat ->
     cdata k2 = drop (Z.to_nat len) (cdata k) -> quiet s s' -> Q (take (Z.to_nat len) (cdata k), hda k2 0) s') ->
  qsafe (hpc (bl2mem (hda k 0) len)) s Q.
Proof.
  intros R O K L C H. destruct (own_swap _ _ _ _ _ _ _ O (r_own _ _ _ R)) as (G1 & O1 & O2).
  apply qsafe_hpc. eapply safe_bl2mem; [done|done|done|]. intros k2 h O3 K3 Re E.
  destruct (own_swap _ _ _ _ _ _ _ O1 O3) as (G2 & O4 & O5).
  eapply (H k2 G2); [by eapply qrep_hp|done|done| |done|done].
  destruct Re as [->|(kk & a & x & l2 & j & -> & -> & J)]; [simpl; lia|].
  destruct C as [C|C].
  - rewrite length_app in C. simpl in *. lia.
  - rewrite drop_ge in E by (unfold zlen in C; lia). apply chain_ok_cons in K3 as [K3 _].
    pose proof (BLEN_ok _ K3) as [_ B]. rewrite BLEN_skip in B.
    apply (f_equal zlen) in E. rewrite cdata_cons, zlen_app, B in E. pose proof (zlen_nonneg (cdata l2)).
    change (zlen []) with 0 in E. lia.
Qed.

Lemma qsafe_qread_finish k2 l G' G n s (Q : Z -> qst -> Prop) :
  qrep s l G' -> own G' k2 0 G -> chain_ok k2 -> (length k2 <= 1)%nat -> zlen (cdata k2) <= n < 2 ^ 31 ->
  (forall l' s', qrep s' l' G -> (b_msg (sbits s) = false -> cdata l' = cdata k2 ++ cdata l) ->
     (exists lost, cdata k2 ++ cdata l = lost ++ cdata l') ->
     drained (half s) s s' -> Q (n - zlen (cdata k2)) s') ->
  qsafe (qread_finish (hda k2 0) n) s Q.
Proof.
  intros R O K L N H. destruct k2 as [|[a y] [|p k2]]; [| |simpl in L; lia].
  - simpl in O. subst G'. apply qsafe_bind. cbn [hda]. rewrite decide_False by tauto. apply qsafe_ret.
    apply qsafe_bind. eapply qsafe_wakeup_iunlock; [apply quiet_refl|done|]. intros s' R' Dr. apply qsafe_ret.
    specialize (H l s'). change (zlen (cdata [])) with 0 in H. rewrite Z.sub_0_r in H.
    apply H; [done|done|by exists []|done].
  - pose proof O as (A & Ga & E). simpl in E. subst G'. cbn [hda]. apply chain_ok_cons in K as [Y _].
    pose proof (BLEN_ok _ Y) as [B1 B2]. rewrite cdata_one in *. apply qsafe_bind. rewrite decide_True by done.
    apply qsafe_bind. eapply qsafe_bget; [eapply qrep_lookup; [done|apply lookup_insert_eq]|]. cbn [b_body].
    rewrite s32_small by lia. rewrite <- B2. apply qsafe_bind, qsafe_has.
    change (has (q_state (qq s)) Qmsg) with (b_msg (sbits s)). apply qsafe_bind. destruct (b_msg (sbits s)) eqn:M.
    + eapply qsafe_free_out; [done|apply lookup_insert_eq|done|]. intros s1 R1 Q1. rewrite delete_insert_id in R1 by done.
      apply qsafe_ret, qsafe_bind. eapply qsafe_wakeup_iunlock; [exact Q1|done|]. intros s' R' Dr. apply qsafe_ret.
      eapply H; [done|done|by exists (bdata y)|done].
    + eapply qsafe_qputback; [done|done|done|done|]. intros s1 R1 Q1.
      apply qsafe_ret, qsafe_bind. eapply qsafe_wakeup_iunlock; [exact Q1|done|]. intros s' R' Dr. apply qsafe_ret.
      eapply H; [done|done|by exists []|done].
Qed.

Lemma qsafe_qbread l G len s (Q : rd Z -> qst -> Prop) :
  qrep s l G -> zlen (cdata l) < 2 ^ 31 -> 0 <= len ->
  (l = [] -> b_closed (sbits s) = true -> forall r s', r = REof \/ (exists e, r = RErr e) -> qrep s' [] G -> quiet s s' -> Q r s') ->
  (l = [] -> b_closed (sbits s) = false -> forall s', qrep s' [] G -> ctls (with_starve true (sbits s)) (rr s) (wr s) s s' -> Q RSleep s') ->
  (forall b x l' lost s', qrep s' l' (<[b := MkBlock 0 x]> G) -> G !! b = None -> b <> 0 -> body_ok x ->
     cdata l = bdata x ++ lost ++ cdata l' -> (b_msg (sbits s) = false -> lost = []) -> l <> [] ->
     zlen (bdata x) <= len -> drained (half s) s s' -> Q (RGot b) s') ->
  qsafe (qbread len) s Q.
Proof.
  intros R T L H1 H2 H3. eapply qsafe_after_qwait; [done|done|done|]. intros NN.
  destruct l as [|[b x] l]; [done|]. apply qsafe_bind. eapply qsafe_qremove; [done|]. intros s1 R1 B Gb X Q1.
  pose proof (BLEN_ok _ X) as [B1 B2]. rewrite cdata_cons, zlen_app in T. pose proof (zlen_nonneg (cdata l)).
  apply qsafe_bind. eapply qsafe_bget; [eapply qrep_lookup; [done|apply lookup_insert_eq]|]. cbn [b_body].
  assert (forall x' l' lost s2, qrep s2 l' (<[b := MkBlock 0 x']> G) -> quiet s s2 -> body_ok x' ->
    bdata x ++ cdata l = bdata x' ++ lost ++ cdata l' -> (b_msg (sbits s) = false -> lost = []) ->
    zlen (bdata x') <= len -> qsafe (qwakeup_iunlock;; cret (RGot b)) s2 Q) as F.
  { intros x' l' lost s2 R2 Q2 X' E M Lx. apply qsafe_bind. eapply qsafe_wakeup_iunlock; [exact Q2|exact R2|].
    intros s3 R3 Dr. apply qsafe_ret. by eapply (H3 b x' l' lost). }
  apply qsafe_bind, qsafe_if; intros D; [|apply qsafe_ret; by apply (F x l []); [..|lia]].
  apply qsafe_bind, qsafe_has. replace (has (q_state (qq s1)) Qmsg) with (b_msg (sbits s)) by (by rewrite <- (quiet_sbits s s1)).
  set (x' := set_b_wp (b_rp x + len) x). assert (body_ok x') as X' by (apply body_ok_shorten; [done|lia]).
  assert (bdata x' = take (Z.to_nat len) (bdata x)) as Ex by (unfold x'; rewrite bdata_shorten; [done|lia]).
  assert (zlen (bdata x') <= len) as Lx by (rewrite Ex, zlen_take; lia).
  apply qsafe_bind. destruct (b_msg (sbits s)) eqn:M.
  - apply qsafe_ret, qsafe_hpc. eapply safe_bset; [eapply qrep_lookup; [done|apply lookup_insert_eq]|].
    apply (F x' l (drop (Z.to_nat len) (bdata x))); [|done|done| |done|done].
    + eapply (qrep_insert _ _ _ b _ (MkBlock 0 x')) in R1; [|apply lookup_insert_eq]. by rewrite insert_insert_eq in R1.
    + rewrite Ex, app_assoc. by rewrite take_drop.
  - apply qsafe_bind. eapply qsafe_new; [|done|]; [lia|]. intros c y s2 C Gc Y R2 Q2.
    apply fresh_ok in Y as (Y1 & Y2 & Y3); [|lia]. assert (b <> c) as Bc by (intros ->; by rewrite lookup_insert_eq in Gc).
    rewrite lookup_insert_ne in Gc by done.
    apply qsafe_bind, qsafe_hpc. eapply safe_bread.
    { eapply qrep_lookup; [done|]. rewrite lookup_insert_ne by done. apply lookup_insert_eq. }
    { lia. }
    { cbn [b_body]. unfold body_ok in X. lia. }
    { cbn [b_body]. unfold body_ok, BLEN in *. lia. }
    cbn [b_body]. replace (set_hp (hp s2) s2) with s2 by (by destruct s2).
    set (d := ld_bytes _ _ _). assert (d = drop (Z.to_nat len) (bdata x)) as Ed.
    { rewrite <- bdata_skip by lia. unfold d, bdata. rewrite BLEN_skip. done. }
    assert (zlen d = BLEN x - len) as Ld by (unfold d; rewrite zlen_ld_bytes; lia).
    apply qsafe_bind. eapply qsafe_append_out; [done|apply lookup_insert_eq|done|lia|]. intros s3 R3 Q3.
    rewrite insert_insert_eq in R3. eapply qsafe_qputback; [exact R3|by rewrite lookup_insert_ne|done|apply body_ok_grown; [done|lia]|].
    intros s4 R4 Q4. apply qsafe_hpc. eapply safe_bset; [eapply qrep_lookup; [done|apply lookup_insert_eq]|].
    eapply (qrep_insert _ _ _ b _ (MkBlock 0 x')) in R4; [|apply lookup_insert_eq]. rewrite insert_insert_eq in R4.
    eapply (F x' _ []); [exact R4| |done| |done|done].
    + eapply quiet_trans; [eapply quiet_trans; [eapply quiet_trans|]|]; done.
    + rewrite cdata_cons, bdata_grown, Y2 by (apply Y1 || apply ld_bytes_range). simpl.
      by rewrite Ed, Ex, app_assoc, take_drop.
Qed.
End QioSpec.
