(* ===== verification/Qproc.v ===== *)
(** The processes that use a queue, as threads whose steps are the parts of the functions
    of qio.c between two points where another thread may run: one reader at a time holds
    [rlock] (qread, qbread), one writer at a time holds [wlock] (qbwrite, called by the
    loop of qwrite), and the functions that need no lock (qpass, qproduce, qiwrite, qget,
    qconsume, qdiscard, qclose, qhangup, qreopen, qflush) run in one step.

    [sleep] of src/9/port/proc-l4.c tests the condition and then enrols the caller in the
    [Rendez]; [wakeup] does nothing when nobody is enrolled. Whether another thread may run
    between the two is a parameter: Plan 9's [sleep] holds the lock of the [Rendez] there,
    that of LP49 holds none. *)

From S2P Require Import Prelude Mem Block Qio.

(** Where the reader is: before [qwait], before [sleep], between the test of [sleep] and
    the enrolment, enrolled; between the two critical sections of [qread], before and after
    [bl2mem]. [blk]: the call is [qbread]. *)
Inductive rpc :=
  | RIdle
  | RTry (blk : bool) (n : Z) | RSleepy (blk : bool) (n : Z) | REnrol (blk : bool) (n : Z) | RAsleep (blk : bool) (n : Z)
  | RTaken (n first count : Z) | RCopied (d : bytes) (b count : Z).

(** Where the writer that holds [wlock] is: in the loop that waits for room. *)
Inductive wpc := WFree | WHeld (i : Z) | WSleepy (i : Z) | WEnrol (i : Z) | WAsleep (i : Z).

(** [wq]: the calls of [qwrite] under way, the bytes and how far they are. *)
Record sys := Sys { qs : qst; rp : rpc; wp : wpc; wq : gmap Z (bytes * Z) }.
Definition set_qs v s := Sys v (rp s) (wp s) (wq s).
Definition set_rp v s := Sys (qs s) v (wp s) (wq s).
Definition set_wp v s := Sys (qs s) (rp s) v (wq s).
Definition set_wq v s := Sys (qs s) (rp s) (wp s) v.

(** What the outside sees: bytes queued; a read that returned [n] and stored [d]; a block
    of bytes taken; end of file; an error; [qwrite] of thread [i] returned [n]; a [qbwrite]
    in it failed. *)
Inductive ev :=
  | EIn (p : bytes) | ERead (n : Z) (d : bytes) | EEof | EErr (e : bytes)
  | EWrote (i n : Z) | EFailed (i : Z).

Inductive sop :=
  | SRead (blk : bool) (n : Z) | SReader | SWrite (i : Z) (p : bytes) | SWriter (i : Z)
  | SPass (nolim : bool) (p : bytes) | SAddlist (p : bytes) | SProduce (p : bytes) | SIWrite (p : bytes)
  | SGet | SConsume (n : Z) | SDiscard (n : Z)
  | SClose | SHangup (msg : bytes) | SReopen | SFlush.

Section Procs.
Context {MA : Malloc} (atomic : bool).
Abbreviation scmd := (cmd sys unit).

Definition sq {A} (c : cmd qst unit A) : scmd A := fun s => let '(r, q) := c (qs s) in (r, set_qs q s).
Definition rgoto (p : rpc) : scmd unit := cmodify (set_rp p).
Definition wgoto (p : wpc) : scmd unit := cmodify (set_wp p).

(** The bytes of the block [b], which is freed then. *)
Definition eat (b : Z) : cmd qst unit bytes :=
  hpc (x <- bget b;; d <- bread b (b_rp (b_body x)) (BLEN (b_body x));; freeb b;; cret d).

(** *** The reader *)

Definition rtry (blk : bool) (n : Z) : scmd (list ev) :=
  if blk then
    r <- sq (qbread n);;
    match r with
    | RSleep => rgoto (RSleepy blk n);; cret []
    | REof => rgoto RIdle;; cret [EEof]
    | RErr e => rgoto RIdle;; cret [EErr e]
    | RGot b => d <- sq (eat b);; rgoto RIdle;; cret [ERead (zlen d) d]
    end
  else
    r <- sq (qread_take n);;
    match r with
    | RSleep => rgoto (RSleepy blk n);; cret []
    | REof => rgoto RIdle;; cret [EEof]
    | RErr e => rgoto RIdle;; cret [EErr e]
    | RGot (f, c) => rgoto (RTaken n f c);; cret []
    end.

Definition renrol (blk : bool) (n : Z) : scmd (list ev) := sq (cmodify (set_rr true));; rgoto (RAsleep blk n);; cret [].

Definition reader : scmd (list ev) :=
  s <- cget;;
  match rp s with
  | RIdle => cret []
  | RTry blk n => rtry blk n
  | RSleepy blk n =>
      if notempty (qq (qs s)) then rgoto (RTry blk n);; cret []
      else if atomic then renrol blk n
      else rgoto (REnrol blk n);; cret []
  | REnrol blk n => renrol blk n
  | RAsleep blk n => (if rr (qs s) then cret tt else rgoto (RTry blk n));; cret []
  | RTaken n f c => y <- sq (hpc (bl2mem f n));; rgoto (RCopied y.1 y.2 c);; cret []
  | RCopied d b c => n <- sq (qread_finish b c);; rgoto RIdle;; cret [ERead n d]
  end.

(** *** The writers *)

Definition chunk (p : bytes) (sofar : Z) : bytes :=
  take (Z.to_nat (Z.min Maxatomic (zlen p - sofar))) (drop (Z.to_nat sofar) p).

(** [qbwrite] returned to [qwrite] of thread [i]. *)
Definition wnext (i : Z) (p : bytes) (sofar : Z) : scmd (list ev) :=
  y <- sq (qwrite_next p sofar);;
  let '(sofar, more) := y in
  if (more : bool) then cmodify (fun s => set_wq (<[i := (p, sofar)]> (wq s)) s);; cret []
  else cmodify (fun s => set_wq (delete i (wq s)) s);; cret [EWrote i (zlen p)].

Definition wenrol (i : Z) : scmd (list ev) := sq (cmodify (set_wr true));; wgoto (WAsleep i);; cret [].

Definition writer (i : Z) : scmd (list ev) :=
  s <- cget;;
  match wq s !! i with
  | None => cret []
  | Some (p, sofar) =>
      match wp s with
      | WFree =>
          b <- sq (qwrite_block p sofar);;
          r <- sq (qbwrite_put b);;
          match r with
          | PQueued _ => wgoto (WHeld i);; cret [EIn (chunk p sofar)]
          | PDone _ => wnext i p sofar
          | PErr _ => e <- wnext i p sofar;; cret (EFailed i :: e)
          end
      | WHeld j =>
          if decide (j = i) then
            ok <- sq qbwrite_flow;;
            if (ok : bool) then wgoto WFree;; wnext i p sofar else wgoto (WSleepy i);; cret []
          else cret []
      | WSleepy j =>
          if decide (j = i) then
            if qnotfull (qq (qs s)) then wgoto (WHeld i);; cret []
            else if atomic then wenrol i
            else wgoto (WEnrol i);; cret []
          else cret []
      | WEnrol j => if decide (j = i) then wenrol i else cret []
      | WAsleep j => if decide (j = i /\ wr (qs s) = false) then wgoto (WHeld i);; cret [] else cret []
      end
  end.

(** *** All steps *)

(** A caller of [qpass] and [qaddlist] makes its list with [mem2bl]. *)
Definition pass (nolim : bool) (p : bytes) : scmd (list ev) :=
  s <- cget;;
  b <- sq (hpc (mem2bl p));;
  sq (if nolim then qpassnolim b else qpass b);;
  cret (if decide (nolim = false /\ q_limit (qq (qs s)) <= q_len (qq (qs s))) then [] else [EIn p]).

(** A second read waits for [rlock]: the step does nothing. *)
Definition idle (c : scmd (list ev)) : scmd (list ev) :=
  s <- cget;; match rp s with RIdle => c | _ => cret [] end.

(** The read under way has taken bytes that its caller does not have yet. *)
Definition taking (p : rpc) : bool := match p with RTaken _ _ _ | RCopied _ _ _ => true | _ => false end.

(** What the callers of the functions without a lock have to see to: [qpass] and
    [qpassnolim] are not called for a closed queue (they read the list that they have just
    freed), and [qget] and [qconsume] do not come between the two critical sections of
    [qread] (they would have later bytes earlier). *)
Definition may (s : sys) (o : sop) : bool :=
  match o with
  | SPass _ _ => negb (has (q_state (qq (qs s))) Qclosed)
  | SGet | SConsume _ => negb (taking (rp s))
  | _ => true
  end.

(** The blocks that [qget] returns are read and freed by the caller. *)
Definition sstep (o : sop) : scmd (list ev) :=
  match o with
  | SRead blk n => idle (rgoto (RTry blk n);; cret [])
  | SReader => reader
  | SWrite i p =>
      s <- cget;;
      match wq s !! i with Some _ => cret [] | None => cmodify (set_wq (<[i := (p, 0)]> (wq s)));; cret [] end
  | SWriter i => writer i
  | SPass nolim p => pass nolim p
  | SAddlist p => b <- sq (hpc (mem2bl p));; sq (qaddlist b);; cret [EIn p]
  | SProduce p =>
      n <- sq (qproduce p);; cret (if decide (0 < n) then [EIn p] else [])
  | SIWrite p => n <- sq (qiwrite p);; cret [EIn (take (Z.to_nat n) p)]
  | SGet => b <- sq qget;; if decide (b = 0) then cret [] else d <- sq (eat b);; cret [ERead (zlen d) d]
  | SConsume n => y <- sq (qconsume n);; cret (if decide (y.1 = -1) then [] else [ERead y.1 y.2])
  | SDiscard n => sq (qdiscard n);; cret []
  | SClose => sq qclose;; cret []
  | SHangup msg => sq (qhangup msg);; cret []
  | SReopen => sq qreopen;; cret []
  | SFlush => sq qflush;; cret []
  end.

(** The bytes that the blocks take: the kernel has less than 2 GB for them. *)
Definition heap_bytes (m : gmap Z Block) : Z := map_fold (fun _ x n => Z.max 0 (BALLOC (b_body x)) + n) 0 m.
Definition fits (s : sys) : Prop := heap_bytes (blks (hp (qs s))) < 2 ^ 31.
#[global] Instance fits_dec s : Decision (fits s).
Proof. unfold fits. apply _. Defined.

(** The states that a run of the operations leads to, with what the outside saw; every
    operation comes when it may. *)
Inductive reach (s0 : sys) : list sop -> list ev -> sys -> Prop :=
  | reach_nil : fits s0 -> reach s0 [] [] s0
  | reach_step os es s o e s' :
      reach s0 os es s -> may s o = true -> sstep o s = (Go e, s') -> fits s' -> reach s0 (os ++ [o]) (es ++ e) s'.

(** The same as a function. *)
Fixpoint run (os : list sop) (s : sys) : option (list ev * sys) :=
  match os with
  | [] => Some ([], s)
  | o :: os' =>
      if may s o then
        match sstep o s with
        | (Go e, s') => if decide (fits s') then (fun r => (e ++ r.1, r.2)) <$> run os' s' else None
        | _ => None
        end
      else None
  end.
End Procs.

(** The bytes queued and the bytes read. *)
Definition ins (es : list ev) : bytes := concat ((fun e => match e with EIn p => p | _ => [] end) <$> es).
Definition outs (es : list ev) : bytes := concat ((fun e => match e with ERead _ d => d | _ => [] end) <$> es).

(** A queue that was just opened, beside other blocks, and nobody uses it yet. *)
Definition opened (limit msg : Z) (kick : bool) (h : bheap) : sys :=
  Sys (QSt h (default no_queue (qopen true limit msg kick)) false false 0 []) RIdle WFree ∅.
