(* ===== verification/QprocSpec.v ===== *)
(** Every step of the processes of a queue: what is queued, under way and delivered, and
    who sleeps. *)

From S2P Require Import Prelude Mem Block BlockSpec Qio QioSpec Qproc.

(** *** The bytes that the blocks take *)

Lemma heap_bytes_insert m a x : m !! a = None ->
  heap_bytes (<[a := x]> m) = Z.max 0 (BALLOC (b_body x)) + heap_bytes m.
Proof.
  intros N. unfold heap_bytes. rewrite map_fold_insert_L; [done| |done].
  intros. lia.
Qed.

Lemma heap_bytes_nonneg m : 0 <= heap_bytes m.
Proof.
  induction m as [|a x m N IH] using map_ind; [by vm_compute|]. rewrite heap_bytes_insert by done. lia.
Qed.

Lemma own_bytes m l e F : own m l e F -> chain_ok l ->
  chain_sum BALLOC l + heap_bytes F = heap_bytes m /\ zlen (cdata l) <= chain_sum BALLOC l.
Proof.
  revert F. induction l as [|[a x] l IH]; intros F O K.
  - simpl in O. subst. split; [simpl; lia|]. by vm_compute.
  - destruct O as (_ & N & O). apply chain_ok_cons in K as [K1 K2]. apply IH in O as [E L]; [|done].
    rewrite heap_bytes_insert in E by done. cbn [b_body] in E. pose proof (BLEN_ok _ K1) as [B1 B2].
    rewrite cdata_cons, zlen_app. simpl. unfold body_ok, BALLOC, BLEN in *. lia.
Qed.

Section ProcSpec.
Context {MA : Malloc} (atomic : bool).
Abbreviation scmd := (cmd sys unit).

(** *** Runs *)

Definition ssafe {A} (c : scmd A) (s : sys) (Q : A -> sys -> Prop) : Prop :=
  match c s with
  | (Go a, s') => nomem (hp (qs s')) = nomem (hp (qs s)) /\ Q a s'
  | (Abt, s') => nomem (hp (qs s')) = true
  | _ => False
  end.

Lemma ssafe_bind {A B} (c : scmd A) (k : A -> scmd B) s Q :
  ssafe c s (fun a s' => ssafe (k a) s' Q) -> ssafe (cbind c k) s Q.
Proof.
  unfold ssafe, cbind. destruct (c s) as [[a| |r|] s'] eqn:E; try done.
  intros [N H]. destruct (k a s') as [[b| |r|] s2]; try done. by rewrite <- N.
Qed.
Lemma ssafe_ret {A} (a : A) s (Q : A -> sys -> Prop) : Q a s -> ssafe (cret a) s Q.
Proof. done. Qed.
Lemma ssafe_mono {A} (c : scmd A) s (P Q : A -> sys -> Prop) :
  ssafe c s P -> (forall a s', P a s' -> Q a s') -> ssafe c s Q.
Proof. unfold ssafe. destruct (c s) as [[a| |r|] s']; [intros [N H] K; auto|auto..]. Qed.
Lemma ssafe_get s (Q : sys -> sys -> Prop) : Q s s -> ssafe cget s Q.
Proof. done. Qed.
Lemma ssafe_sq {A} (c : cmd qst unit A) s (Q : A -> sys -> Prop) :
  qsafe c (qs s) (fun a q => Q a (set_qs q s)) -> ssafe (sq c) s Q.
Proof. unfold ssafe, qsafe, sq. by destruct (c (qs s)) as [[a| |r|] q]. Qed.
Lemma ssafe_rgoto p s (Q : unit -> sys -> Prop) : Q tt (set_rp p s) -> ssafe (rgoto p) s Q.
Proof. done. Qed.
Lemma ssafe_wgoto p s (Q : unit -> sys -> Prop) : Q tt (set_wp p s) -> ssafe (wgoto p) s Q.
Proof. done. Qed.
Lemma ssafe_mod f s (Q : unit -> sys -> Prop) : qs (f s) = qs s -> Q tt (f s) -> ssafe (cmodify f) s Q.
Proof. intros E H. split; [by rewrite E|done]. Qed.

(** *** The invariant *)

(** The bytes that a read has taken from the queue and not yet returned; [G] are the blocks
    besides the queue's. *)
Definition under_way (p : rpc) (G : gmap Z Block) (d : bytes) : Prop :=
  exists k F, own G k 0 F /\ chain_ok k /\
  match p with
  | RTaken n f c => f = hda k 0 /\ c = zlen (cdata k) /\ c < 2 ^ 31 /\ 0 <= n /\ d = cdata k /\
      (length k = 1%nat \/ zlen (cdata k) <= n)
  | RCopied d0 b c => b = hda k 0 /\ c = zlen d0 + zlen (cdata k) /\ c < 2 ^ 31 /\ d = d0 ++ cdata k /\ (length k <= 1)%nat
  | RTry _ n | RSleepy _ n | REnrol _ n | RAsleep _ n => 0 <= n /\ d = []
  | RIdle => d = []
  end.

Definition asleep (p : rpc) : bool := match p with RAsleep _ _ => true | _ => false end.
Definition sleepy (p : rpc) : bool := match p with RSleepy _ _ | RAsleep _ _ => true | _ => false end.

(** Who waits for [rr] will be woken: the producers have been asked to. *)
Definition woken (p : rpc) (q : qst) (l : chain) : Prop :=
  (rr q = true -> asleep p = true) /\
  (sleepy p = true -> (asleep p = true -> rr q = true) -> l = [] -> b_closed (sbits q) = false ->
     b_starve (sbits q) = true) /\
  (asleep p = true -> rr q = true -> l = [] /\ b_closed (sbits q) = false) /\
  match p with REnrol _ _ => False | _ => True end.

(** The calls of [qwrite]. *)
Definition calls_ok (w : gmap Z (bytes * Z)) : Prop :=
  map_Forall (fun _ c => byte_list c.1 /\ zlen c.1 < 2 ^ 31 /\ 0 <= c.2 <= zlen c.1) w.

(** [ll]: no operation of the run loses bytes; [wk]: nobody but the reader takes bytes, and
    [sleep] is atomic. [a] was queued and [d] delivered. *)
Definition holds (ll wk : bool) (a d : bytes) (p : rpc) (q : qst) (l : chain) (G : gmap Z Block) (u : bytes) : Prop :=
  qrep q l G /\ under_way p G u /\ sublist (d ++ u ++ cdata l) a /\
  (ll = true -> b_msg (sbits q) = false /\ a = d ++ u ++ cdata l) /\
  (wk = true -> atomic = true /\ woken p q l).

Record sinv (ll wk : bool) (a d : bytes) (s : sys) : Prop := SInv {
  i_rep : exists l G u, holds ll wk a d (rp s) (qs s) l G u;
  i_bypass : q_bypass (qq (qs s)) = false;
  i_calls : calls_ok (wq s)
}.

(** *** What the steps of the queue do to the invariant *)

Lemma holds_filled ll wk a d p q q' l k G u f :
  holds ll wk a d p q l G u -> qrep q' (l ++ k) G -> filled f q q' -> k <> [] ->
  holds ll wk (a ++ cdata k) d p q' (l ++ k) G u.
Proof.
  intros (R & U & S & L & W) R' (K & B & Er & Ew) N. split; [done|]. split; [done|]. split_and!.
  - rewrite cdata_app, !app_assoc, <- (app_assoc d). by apply sublist_app.
  - intros E. destruct (L E) as [M ->]. rewrite B, cdata_app, <- !app_assoc. done.
  - intros E. destruct (W E) as (A & W1 & W2 & W3 & W4). split; [done|]. unfold woken. rewrite Er. split_and!; [| | |done].
    + intros [T _]%andb_prop. auto.
    + intros _ _ Z0. apply app_nil in Z0 as [_ ?]. done.
    + intros As [T1 T2]%andb_prop. destruct (W3 As T1) as [Z0 C].
      rewrite W2 in T2; [done|by destruct p|done|done|done].
Qed.

(** Steps that neither wake nor stop readers. *)
Lemma holds_same ll wk a d d' p p' q q' l l' G G' u u' :
  holds ll wk a d p q l G u -> qrep q' l' G' -> under_way p' G' u' ->
  sbits q' = sbits q \/ sbits q' = with_flow false (sbits q) \/ sbits q' = with_flow true (sbits q) -> rr q' = rr q ->
  sublist (d' ++ u' ++ cdata l') (d ++ u ++ cdata l) ->
  (ll = true -> b_msg (sbits q) = false -> d' ++ u' ++ cdata l' = d ++ u ++ cdata l) ->
  (wk = true -> (rr q = true -> asleep p' = true) /\ (sleepy p' = true -> (asleep p' = true -> rr q = true) -> l' = [] ->
      b_closed (sbits q) = false -> b_starve (sbits q) = true) /\
    (asleep p' = true -> rr q = true -> l' = [] /\ b_closed (sbits q) = false) /\
    match p' with REnrol _ _ => False | _ => True end) ->
  holds ll wk a d' p' q' l' G' u'.
Proof.
  intros (R & U & S & L & W) R' U' B Er S' L' W'. split; [done|]. split; [done|].
  assert (b_msg (sbits q') = b_msg (sbits q) /\ b_closed (sbits q') = b_closed (sbits q) /\ b_starve (sbits q') = b_starve (sbits q)) as (B1 & B2 & B3)
    by (by destruct B as [->|[->| ->]]).
  split_and!.
  - by etrans.
  - intros E. destruct (L E) as [M ->]. rewrite B1. split; [done|]. symmetry. by apply L'.
  - intros E. destruct (W E) as (A & _). split; [done|]. unfold woken. rewrite Er, B2, B3. by apply W'.
Qed.

Lemma drained_bits h s s' : drained h s s' ->
  (sbits s' = sbits s \/ sbits s' = with_flow false (sbits s) \/ sbits s' = with_flow true (sbits s)) /\ rr s' = rr s /\ keeps s s'.
Proof. intros (K & B & R & _). split; [|done]. rewrite B. destruct (_ && _); auto. Qed.

Lemma quiet_bits s s' : quiet s s' ->
  (sbits s' = sbits s \/ sbits s' = with_flow false (sbits s) \/ sbits s' = with_flow true (sbits s)) /\ rr s' = rr s /\ keeps s s'.
Proof. intros Q. rewrite (quiet_sbits _ _ Q). destruct Q as (K & _ & R & _). auto. Qed.

(** The bytes of the queue and of a list beside it are below 2 GB. *)
Lemma fits_bound s l G k F : fits s -> qrep (qs s) l G -> own G k 0 F -> chain_ok k ->
  zlen (cdata l) < 2 ^ 31 /\ zlen (cdata k) < 2 ^ 31.
Proof.
  unfold fits. intros Fi R O K. destruct (own_bytes _ _ _ _ (r_own _ _ _ R) (r_ok _ _ _ R)) as [E1 L1].
  destruct (own_bytes _ _ _ _ O K) as [E2 L2]. pose proof (heap_bytes_nonneg F).
  pose proof (zlen_nonneg (cdata l)). pose proof (zlen_nonneg (cdata k)). lia.
Qed.

(** The two conditions on a run that the steps have to respect. *)
Definition sop_ok (o : sop) : Prop :=
  match o with
  | SRead _ n | SConsume n | SDiscard n => 0 <= n
  | SWrite _ p | SPass _ p | SAddlist p | SProduce p | SIWrite p => byte_list p /\ zlen p < 2 ^ 31
  | _ => True
  end.
Definition keeps_bytes (o : sop) : bool := match o with SDiscard _ | SClose | SFlush => false | _ => true end.
Definition only_reader (o : sop) : bool :=
  match o with SGet | SConsume _ | SDiscard _ | SFlush | SAddlist _ => false | _ => true end.

(** [Q] for every outcome that respects the invariant. *)
Definition counted : list ev -> Prop := Forall (fun v => match v with ERead n d => n = zlen d | _ => True end).
Definition stepped (ll wk : bool) (a d : bytes) (e : list ev) (s : sys) : Prop :=
  sinv ll wk (a ++ ins e) (d ++ outs e) s /\ counted e.

Lemma stepped_nil ll wk a d s : sinv ll wk a d s -> stepped ll wk a d [] s.
Proof. split; [by rewrite !app_nil_r|constructor]. Qed.
(** *** The reader *)

(** The state of the system after a step of the queue. *)
Lemma sinv_intro ll wk a d p q l G u s : holds ll wk a d p q l G u -> q_bypass (qq q) = false -> calls_ok (wq s) ->
  forall s', rp s' = p -> qs s' = q -> wq s' = wq s -> sinv ll wk a d s'.
Proof. intros H B C s' <- <- E. split; [eauto|done|by rewrite E]. Qed.

(** A reader that is not enrolled leaves the queue alone: no wakeup is due. *)
Lemma wk_awake p p' (q : qst) (l l' : chain) :
  woken p q l -> asleep p = false -> sleepy p' = false -> match p' with REnrol _ _ => False | _ => True end ->
  (rr q = true -> asleep p' = true) /\ (sleepy p' = true -> (asleep p' = true -> rr q = true) -> l' = [] ->
      b_closed (sbits q) = false -> b_starve (sbits q) = true) /\
    (asleep p' = true -> rr q = true -> l' = [] /\ b_closed (sbits q) = false) /\
    match p' with REnrol _ _ => False | _ => True end.
Proof.
  intros (W1 & _) A S N. assert (rr q = false) as -> by (destruct (rr q); [rewrite W1 in A; done|done]).
  split_and!; [done| | |done]; by destruct p'.
Qed.

Lemma holds_read ll wk a d d' p p' q q' l l' G G' u u' :
  holds ll wk a d p q l G u -> qrep q' l' G' -> under_way p' G' u' ->
  (sbits q' = sbits q \/ sbits q' = with_flow false (sbits q) \/ sbits q' = with_flow true (sbits q)) /\ rr q' = rr q /\ keeps q q' ->
  asleep p = false -> sleepy p' = false -> match p' with REnrol _ _ => False | _ => True end ->
  sublist (d' ++ u' ++ cdata l') (d ++ u ++ cdata l) ->
  (ll = true -> b_msg (sbits q) = false -> d' ++ u' ++ cdata l' = d ++ u ++ cdata l) ->
  holds ll wk a d' p' q' l' G' u'.
Proof.
  intros H R U (B & Er & _) A S N SL L. eapply holds_same; [exact H|done..|].
  intros E. destruct H as (_ & _ & _ & _ & W). destruct (W E) as (_ & W'). by eapply wk_awake.
Qed.

(** The reader goes to sleep: the producers are asked to wake it. *)
Lemma holds_sleep ll wk a d blk n q q' l G u :
  holds ll wk a d (RTry blk n) q l G u -> cdata l = [] -> qrep q' [] G ->
  sbits q' = with_starve true (sbits q) -> rr q' = rr q ->
  holds ll wk a d (RSleepy blk n) q' [] G u.
Proof.
  intros (R & U & S & L & W) E R' B Er. split; [done|]. split; [done|]. rewrite E in S, L. split; [done|]. split.
  - intros E1. rewrite B. by apply L.
  - intros E1. destruct (W E1) as (A & W1 & _). split; [done|]. unfold woken. rewrite B, Er. split_and!; done.
Qed.

Lemma qsafe_eat b x l G s (Q : bytes -> qst -> Prop) :
  qrep s l (<[b := MkBlock 0 x]> G) -> G !! b = None -> b <> 0 -> body_ok x ->
  (forall s', qrep s' l G -> quiet s s' -> Q (bdata x) s') -> qsafe (eat b) s Q.
Proof.
  intros R Gb B X H. apply qsafe_hpc. pose proof (qrep_lookup _ _ _ _ _ R (lookup_insert_eq _ _ _)) as Lb.
  apply safe_bind. eapply safe_bget; [done|]. apply safe_bind. eapply (safe_bread_all _ (MkBlock 0 x)); [done|done|]. cbn [b_body].
  apply safe_bind. eapply safe_freeb; [done|done|]. intros h E. apply safe_ret, H; [|done].
  eapply qrep_delete in R; [|apply lookup_insert_eq|exact E]. by rewrite delete_insert_id in R.
Qed.

Lemma keeps_bypass s s' : keeps s s' -> q_bypass (qq s) = false -> q_bypass (qq s') = false.
Proof. intros (_ & _ & _ & ->). done. Qed.

Lemma rtry_ok ll wk a d blk n s : sinv ll wk a d s -> fits s -> rp s = RTry blk n ->
  ssafe (rtry blk n) s (stepped ll wk a d).
Proof.
  intros [(l & G & u & H) By Ca] Fi E. rewrite E in H. pose proof H as (R & U & _).
  destruct U as (k & F & O & K & Nn & ->). destruct (fits_bound _ _ _ _ _ Fi R O K) as [T _].
  assert (under_way RIdle G []) as U0 by (by exists k, F).
  assert (forall q', qrep q' [] G -> cdata l = [] -> quiet (qs s) q' -> forall e, ins e = [] -> outs e = [] -> counted e -> stepped ll wk a d e (set_rp RIdle (set_qs q' s))) as Eof.
  { intros q' R' El Q' e E1 E2 Ce. split; [|done]. rewrite E1, E2, !app_nil_r.
    eapply (sinv_intro _ _ _ _ RIdle q' [] G []); [|eapply keeps_bypass; [apply Q'|done]|exact Ca|done..].
    eapply holds_read; [exact H|done|done|by apply quiet_bits|done..| |]; rewrite El; [done|done]. }
  assert (forall q', qrep q' [] G -> cdata l = [] -> keeps (qs s) q' -> sbits q' = with_starve true (sbits (qs s)) -> rr q' = rr (qs s) ->
    stepped ll wk a d [] (set_rp (RSleepy blk n) (set_qs q' s))) as Sl.
  { intros q' R' El Kp B Er. apply stepped_nil.
    eapply (sinv_intro _ _ _ _ (RSleepy blk n) q' [] G []); [|by eapply keeps_bypass|exact Ca|done..]. by eapply holds_sleep. }
  unfold rtry. destruct blk; apply ssafe_bind, ssafe_sq.
  - eapply qsafe_qbread; [done|done|done| | |].
    + intros -> C r q' Hr R' Q'. destruct Hr as [->|[e ->]]; apply ssafe_bind, ssafe_rgoto, ssafe_ret; apply Eof; try done; by repeat constructor.
    + intros -> C q' R' Q'. apply ssafe_bind, ssafe_rgoto, ssafe_ret. destruct Q' as (_ & Kp & _ & _ & _ & _ & B & Er & _). by apply Sl.
    + intros b x l' lost q1 R1 Gb B X E1 M NN Lx Dr. apply ssafe_bind, ssafe_sq. eapply qsafe_eat; [exact R1|done|done|done|].
      intros q2 R2 Q2. apply ssafe_bind, ssafe_rgoto, ssafe_ret. split; [|by repeat constructor]. unfold ins, outs. cbn [fmap list_fmap concat]. rewrite !app_nil_r.
      pose proof (drained_quiet _ _ _ _ _ _ _ Dr R1 R2 Q2) as Dr2. apply drained_bits in Dr2 as (Bt & Er & Kp).
      eapply (sinv_intro _ _ _ _ RIdle q2 l' G []); [|by eapply keeps_bypass|exact Ca|done..].
      eapply holds_read; [exact H|done|done|done|done..| |].
      * rewrite E1. simpl. rewrite <- app_assoc. do 2 (apply sublist_app; [done|]). by apply sublist_inserts_l.
      * intros _ E2. rewrite (M E2) in E1. rewrite E1. by rewrite <- !app_assoc.
  - apply qsafe_bind, qsafe_fuel. eapply take_loop_ok; [exact R|by eapply qrep_fuel|done| | |].
    + intros El C r q' Hr R' Q'. destruct Hr as [->|[e ->]]; apply ssafe_bind, ssafe_rgoto, ssafe_ret; apply Eof; try done; by repeat constructor.
    + intros El C q' R' Q'. apply ssafe_bind, ssafe_rgoto, ssafe_ret.
      destruct Q' as [(_ & Kp & _ & _ & _ & _ & B & Er & _)|(Kp & B & Er & _)]; by apply Sl.
    + intros k2 l' G' q' R' O' K' E1 NN C Q'. apply ssafe_bind, ssafe_rgoto, ssafe_ret, stepped_nil.
      eapply (sinv_intro _ _ _ _ (RTaken n (hda k2 0) (zlen (cdata k2))) q' l' G' (cdata k2)); [|eapply keeps_bypass; [apply Q'|done]|exact Ca|done..].
      eapply holds_read; [exact H|done| |by apply quiet_bits|done..| |].
      * exists k2, G. split_and!; try done. rewrite E1, zlen_app in T. pose proof (zlen_nonneg (cdata l')). lia.
      * by rewrite E1.
      * intros _ _. by rewrite E1.
Qed.
Lemma notempty_false q l G : qrep q l G -> notempty (qq q) = false -> l = [] /\ b_closed (sbits q) = false.
Proof.
  intros R [C F]%orb_false_elim. split; [|done]. rewrite (r_first _ _ _ R) in F.
  destruct l as [|[a x] l]; [done|]. apply negb_false_iff in F. simpl in F.
  destruct R as [(? & _) _ _ _ _ _]. by apply Z.eqb_eq in F.
Qed.

(** The reader enrols in [rr]. *)
Lemma holds_enrol ll wk a d p blk n q l G u :
  holds ll wk a d p q l G u -> u = [] -> under_way (RAsleep blk n) G [] ->
  (wk = true -> sleepy p = true /\ asleep p = false /\ notempty (qq q) = false) ->
  holds ll wk a d (RAsleep blk n) (set_rr true q) l G [].
Proof.
  intros (R & U & S & L & W) -> U' Hs. split; [by destruct R; split|]. split; [done|]. split; [done|]. split; [done|].
  intros E. destruct (W E) as (A & W1 & W2 & W3 & W4). destruct (Hs E) as (Hs1 & Hs2 & Hs3).
  destruct (notempty_false _ _ _ R Hs3) as [-> C].
  split; [done|]. split_and!; try done. intros _ _ _ _. apply W2; [done| |done|done]. by rewrite Hs2.
Qed.

Lemma ssafe_ifb {A} (b : bool) (c d : scmd A) s Q :
  (b = true -> ssafe c s Q) -> (b = false -> ssafe d s Q) -> ssafe (if b then c else d) s Q.
Proof. destruct b; auto. Qed.

Lemma reader_ok ll wk a d s : sinv ll wk a d s -> fits s -> ssafe (reader atomic) s (stepped ll wk a d).
Proof.
  intros I Fi. unfold reader. apply ssafe_bind, ssafe_get. destruct (rp s) eqn:E.
  - by apply ssafe_ret, stepped_nil.
  - by apply rtry_ok.
  - pose proof I as [(l & G & u & H) By Ca]. rewrite E in H. pose proof H as (R & U & _ & _ & W).
    pose proof U as (k & F & O & K & Nn & ->). destruct (notempty (qq (qs s))) eqn:Ne.
    + apply ssafe_bind, ssafe_rgoto, ssafe_ret, stepped_nil. eapply (sinv_intro _ _ _ _ (RTry blk n)); [|exact By|exact Ca|done..].
      eapply holds_read; [exact H|done|by exists k, F|by apply quiet_bits, quiet_refl|done..].
    + apply ssafe_ifb; intros At.
      * apply ssafe_bind, ssafe_sq. split; [done|]. apply ssafe_bind, ssafe_rgoto, ssafe_ret, stepped_nil.
        eapply (sinv_intro _ _ _ _ (RAsleep blk n) (set_rr true (qs s))); [|exact By|exact Ca|done..].
        eapply holds_enrol; [exact H|done|by exists k, F|done].
      * apply ssafe_bind, ssafe_rgoto, ssafe_ret, stepped_nil.
        eapply (sinv_intro _ _ _ _ (REnrol blk n)); [|exact By|exact Ca|done..].
        destruct H as (_ & _ & S & L & _). split; [done|]. split; [by exists k, F|]. split; [done|]. split; [done|].
        intros E1. destruct (W E1) as (At' & _). congruence.
  - destruct I as [(l & G & u & H) By Ca]. rewrite E in H. pose proof H as (R & U & _ & _ & W).
    destruct U as (k & F & O & K & Nn & ->).
    apply ssafe_bind, ssafe_sq. split; [done|]. apply ssafe_bind, ssafe_rgoto, ssafe_ret, stepped_nil.
    eapply (sinv_intro _ _ _ _ (RAsleep blk n) (set_rr true (qs s))); [|exact By|exact Ca|done..].
    eapply holds_enrol; [exact H|done|by exists k, F|]. intros E1. by destruct (W E1) as (_ & _ & _ & _ & ?).
  - pose proof I as [(l & G & u & H) By Ca]. rewrite E in H. pose proof H as (R & U & _ & _ & W).
    destruct U as (k & F & O & K & Nn & ->). apply ssafe_bind. destruct (rr (qs s)) eqn:Er.
    + by apply ssafe_ret, ssafe_ret, stepped_nil.
    + apply ssafe_rgoto, ssafe_ret, stepped_nil. eapply (sinv_intro _ _ _ _ (RTry blk n)); [|exact By|exact Ca|done..].
      eapply holds_same; [exact H|done|by exists k, F|by left|done|done|done|]. intros _. by rewrite Er.
  - destruct I as [(l & G & u & H) By Ca]. rewrite E in H. pose proof H as (R & U & _).
    destruct U as (k & F & O & K & -> & -> & Cn & Nn & -> & Le).
    apply ssafe_bind, ssafe_sq. eapply qsafe_copy; [done|done|done|done|done|].
    intros k2 G2 q' R' O' K' Le' E2 Q'. apply ssafe_bind, ssafe_rgoto, ssafe_ret, stepped_nil. cbn [fst snd].
    eapply (sinv_intro _ _ _ _ (RCopied _ _ _) q' l G2 (cdata k)); [|eapply keeps_bypass; [apply Q'|done]|exact Ca|done..].
    eapply holds_read; [exact H|done| |by apply quiet_bits|done..].
    exists k2, F. split; [done|]. split; [done|]. rewrite E2. pose proof (zlen_nonneg (cdata k)).
    split_and!; [done|rewrite zlen_take, zlen_drop by done; lia|done|by rewrite take_drop|done].
  - destruct I as [(l & G & u & H) By Ca]. rewrite E in H. pose proof H as (R & U & _).
    destruct U as (k & F & O & K & -> & -> & Cn & -> & Le). pose proof (zlen_nonneg (cdata k)). pose proof (zlen_nonneg d0).
    apply ssafe_bind, ssafe_sq. eapply qsafe_qread_finish; [done|done|done|done|lia|].
    intros l' q' R' M (lost & El) Dr. apply ssafe_bind, ssafe_rgoto, ssafe_ret. split; [|constructor; [lia|constructor]]. unfold ins, outs. cbn [fmap list_fmap concat].
    rewrite !app_nil_r. apply drained_bits in Dr as (Bt & Er & Kp).
    eapply (sinv_intro _ _ _ _ RIdle q' l' F []); [|by eapply keeps_bypass|exact Ca|done..].
    eapply holds_read; [exact H|done|by exists [], F; split_and!; [|constructor|]|done|done..| |].
    + rewrite <- !app_assoc. do 2 (apply sublist_app; [done|]). rewrite El. simpl. by apply sublist_inserts_l.
    + intros _ E2. simpl. rewrite (M E2). by rewrite <- !app_assoc.
Qed.
(** *** The writers *)

(** Steps that leave the readers' bits and the bytes alone. *)
Lemma holds_ctl ll wk a d p q q' l G G' u :
  holds ll wk a d p q l G u -> qrep q' l G' -> under_way p G' u ->
  sbits q' = sbits q \/ sbits q' = with_flow false (sbits q) \/ sbits q' = with_flow true (sbits q) -> rr q' = rr q ->
  holds ll wk a d p q' l G' u.
Proof.
  intros H R U B Er. eapply holds_same; [exact H|done..|]. intros E. destruct H as (_ & _ & _ & _ & W). by destruct (W E) as (_ & ?).
Qed.

Lemma holds_quiet ll wk a d p q q' l G u : holds ll wk a d p q l G u -> qrep q' l G -> quiet q q' -> holds ll wk a d p q' l G u.
Proof.
  intros H R Q. apply quiet_bits in Q as (B & Er & _). pose proof H as (_ & U & _). by eapply holds_ctl.
Qed.

Lemma ssafe_if {A} (P : Prop) `{Decision P} (c d : scmd A) s Q :
  (P -> ssafe c s Q) -> (~ P -> ssafe d s Q) -> ssafe (if decide P then c else d) s Q.
Proof. by case_decide; auto. Qed.

Lemma wnext_ok ll wk a d i p sofar s (Q : list ev -> sys -> Prop) :
  sinv ll wk a d s -> wq s !! i = Some (p, sofar) ->
  (forall e s', ins e = [] -> outs e = [] -> counted e -> sinv ll wk a d s' -> Q e s') -> ssafe (wnext i p sofar) s Q.
Proof.
  intros [Rp By Ca] Ei H. destruct (Ca _ _ Ei) as (P & L & C). cbn [fst snd] in *.
  apply ssafe_bind, ssafe_sq, qsafe_bind, qsafe_has, qsafe_ret.
  set (n := if decide (Maxatomic < zlen p - sofar) then Maxatomic else zlen p - sofar).
  assert (0 <= n <= zlen p - sofar) as Cn by (unfold n, Maxatomic; case_decide; lia).
  destruct (bool_decide _); (apply ssafe_bind, ssafe_mod; [done|]); apply ssafe_ret, H; try done; try (by repeat constructor); split; try done.
  - apply map_Forall_insert_2; [|done]. cbn [fst snd]. split_and!; [done|done|lia|lia].
  - by apply map_Forall_delete.
Qed.

Lemma sinv_wp ll wk a d w s : sinv ll wk a d s -> sinv ll wk a d (set_wp w s).
Proof. by intros [R B C]. Qed.

Lemma wenrol_ok ll wk a d i s : sinv ll wk a d s -> ssafe (wenrol i) s (stepped ll wk a d).
Proof.
  intros [(l & G & u & H) By Ca]. apply ssafe_bind, ssafe_sq. split; [done|]. apply ssafe_bind, ssafe_wgoto, ssafe_ret, stepped_nil.
  eapply (sinv_intro _ _ _ _ (rp s) (set_wr true (qs s))); [|exact By|exact Ca|done..].
  pose proof H as (R & U & _). eapply holds_ctl; [exact H|by destruct R; split|exact U|by left|done].
Qed.

Lemma writer_ok ll wk a d i s : sinv ll wk a d s -> ssafe (writer atomic i) s (stepped ll wk a d).
Proof.
  intros I. unfold writer. apply ssafe_bind, ssafe_get. destruct (wq s !! i) as [[p sofar]|] eqn:Ei; [|by apply ssafe_ret, stepped_nil].
  assert (forall s', sinv ll wk a d s' -> wq s' = wq s -> ssafe (wnext i p sofar) s' (stepped ll wk a d)) as Nx.
  { intros s' I' Ew. eapply wnext_ok; [exact I'|by rewrite Ew|]. intros e s2 E1 E2 Ce I2. split; [|done]. by rewrite E1, E2, !app_nil_r. }
  destruct (wp s) as [|j|j|j|j].
  - destruct I as [(l & G & u & H) By Ca]. destruct (Ca _ _ Ei) as (P & L & C). cbn [fst snd] in *.
    pose proof H as (R & U & _). apply ssafe_bind, ssafe_sq. eapply qsafe_qwrite_block; [done|done|done|].
    intros b x q1 B Gb X Ex R1 Q1. fold (chunk p sofar) in Ex.
    assert (forall q', qrep q' l G -> quiet q1 q' -> sinv ll wk a d (set_qs q' (set_qs q1 s))) as Same.
    { intros q' R' Q'. eapply (sinv_intro _ _ _ _ (rp s) q'); [|eapply keeps_bypass; [apply Q'|by eapply keeps_bypass; [apply Q1|]]|exact Ca|done..].
      eapply holds_quiet; [exact H|done|by eapply quiet_trans]. }
    apply ssafe_bind, ssafe_sq. eapply qsafe_qbwrite_put; [exact R1|done|done|done|by eapply keeps_bypass; [apply Q1|]| | |].
    + intros _ e q' R' Q'. apply ssafe_bind. eapply (wnext_ok _ _ a d); [by apply Same|exact Ei|]. intros e' s2 E1 E2 Ce I2.
      apply ssafe_ret. split; [|by constructor]. change (ins (EFailed i :: e')) with (ins e').
      change (outs (EFailed i :: e')) with (outs e'). by rewrite E1, E2, !app_nil_r.
    + intros _ q' R' Q'. apply Nx; [by apply Same|done].
    + intros _ q' R' F'. apply ssafe_bind, ssafe_wgoto, ssafe_ret. split; [|by repeat constructor]. unfold ins, outs. cbn [fmap list_fmap concat].
      rewrite !app_nil_r, <- Ex, <- (cdata_one b x).
      eapply (sinv_intro _ _ _ _ (rp s) q' (l ++ [(b, x)]) G u);
        [|eapply keeps_bypass; [apply F'|by eapply keeps_bypass; [apply Q1|]]|exact Ca|done..].
      eapply holds_filled; [exact H|done|by eapply quiet_filled|done].
  - apply ssafe_if; intros D; [|by apply ssafe_ret, stepped_nil]. apply ssafe_bind, ssafe_sq. apply qsafe_qbwrite_flow.
    + intros _. apply ssafe_bind, ssafe_wgoto, Nx; [|done]. apply sinv_wp. by destruct s, I.
    + intros _ q' C'. apply ssafe_bind, ssafe_wgoto, ssafe_ret, stepped_nil, sinv_wp.
      destruct I as [(l & G & u & H) By Ca]. pose proof H as (R & U & _).
      pose proof (ctls_rep _ _ _ _ _ _ _ R C') as R'. destruct C' as (_ & Kp & _ & _ & _ & _ & B & Er & _).
      eapply (sinv_intro _ _ _ _ (rp s) q'); [|by eapply keeps_bypass|exact Ca|done..].
      eapply holds_ctl; [exact H|done|done|by right; right|done].
  - apply ssafe_if; intros D; [|by apply ssafe_ret, stepped_nil].
    destruct (qnotfull _); [by apply ssafe_bind, ssafe_wgoto, ssafe_ret, stepped_nil, sinv_wp|].
    apply ssafe_ifb; intros At; [by apply wenrol_ok|by apply ssafe_bind, ssafe_wgoto, ssafe_ret, stepped_nil, sinv_wp].
  - apply ssafe_if; intros D; [by apply wenrol_ok|by apply ssafe_ret, stepped_nil].
  - apply ssafe_if; intros D; [by apply ssafe_bind, ssafe_wgoto, ssafe_ret, stepped_nil, sinv_wp|by apply ssafe_ret, stepped_nil].
Qed.

(** *** The functions that need no lock *)

(** A list of blocks made of bytes. *)
Lemma qsafe_mem2bl p l G s (Q : Z -> qst -> Prop) : qrep s l G -> byte_list p ->
  (forall k G1 s', qrep s' l G1 -> own G1 k 0 G -> chain_ok k -> k <> [] -> cdata k = p -> quiet s s' -> Q (hda k 0) s') ->
  qsafe (hpc (mem2bl p)) s Q.
Proof.
  intros R P H. apply qsafe_hpc. eapply safe_mem2bl; [done|done|]. intros k h O K N E.
  destruct (own_swap _ _ _ _ _ _ _ (r_own _ _ _ R) O) as (G1 & O1 & O2).
  eapply (H k G1); [by eapply qrep_hp|done..].
Qed.

Lemma stepped_in ll wk a d p s : sinv ll wk (a ++ p) d s -> stepped ll wk a d [EIn p] s.
Proof. intros I. split; [|by repeat constructor]. unfold ins, outs. cbn [fmap list_fmap concat]. by rewrite !app_nil_r. Qed.

Lemma sinv_put ll wk a d s l G u q q' k f : sinv ll wk a d s -> holds ll wk a d (rp s) (qs s) l G u ->
  quiet (qs s) q -> qrep q' (l ++ k) G -> filled f q q' -> k <> [] ->
  forall s', rp s' = rp s -> qs s' = q' -> wq s' = wq s -> sinv ll wk (a ++ cdata k) d s'.
Proof.
  intros [_ By Ca] H Q R F N. assert (filled f (qs s) q') as F'.
  { pose proof (quiet_sbits _ _ Q) as E. destruct Q as (K1 & _ & R1 & W1), F as (K2 & B2 & R2 & W2).
    unfold filled, keeps in *. rewrite B2, R2, W2, E, R1, W1. intuition congruence. }
  eapply (sinv_intro _ _ _ _ (rp s) q' (l ++ k) G u); [by eapply holds_filled|eapply keeps_bypass; [apply F'|done]|done].
Qed.

Lemma sinv_quiet ll wk a d s l G u q' : sinv ll wk a d s -> holds ll wk a d (rp s) (qs s) l G u ->
  qrep q' l G -> quiet (qs s) q' -> forall s', rp s' = rp s -> qs s' = q' -> wq s' = wq s -> sinv ll wk a d s'.
Proof.
  intros [_ By Ca] H R Q. eapply (sinv_intro _ _ _ _ (rp s) q'); [by eapply holds_quiet|eapply keeps_bypass; [apply Q|done]|done].
Qed.

Lemma pass_ok ll wk a d nolim p s : sinv ll wk a d s -> byte_list p -> may s (SPass nolim p) = true ->
  ssafe (pass nolim p) s (stepped ll wk a d).
Proof.
  intros I P C%negb_true_iff. pose proof I as [(l & G & u & H) By Ca]. pose proof H as (R & U & _).
  unfold pass. apply ssafe_bind, ssafe_get.
  apply ssafe_bind, ssafe_sq. eapply qsafe_mem2bl; [done|done|]. intros k G1 q1 R1 O1 K N Ep Q1.
  assert (b_closed (sbits q1) = false) as C1 by (by rewrite (quiet_sbits _ _ Q1)).
  assert (q_limit (qq q1) = q_limit (qq (qs s))) as El by (by destruct Q1 as ((? & _) & _)).
  assert (q_len (qq q1) = q_len (qq (qs s))) as En by (by rewrite (r_len _ _ _ R1), (r_len _ _ _ R)).
  apply ssafe_bind, ssafe_sq. rewrite <- Ep. destruct nolim.
  - eapply qsafe_qpassnolim; [done..|]. intros n q' R' F'. apply ssafe_ret. rewrite decide_False by (intros [? _]; done).
    apply stepped_in. by eapply sinv_put.
  - eapply qsafe_qpass; [done..| |].
    + intros Le q' R' Q'. apply ssafe_ret. cbn [set_qs qs] in Le. rewrite decide_True by (split; [done|lia]). apply stepped_nil.
      eapply sinv_quiet; [done|done|exact R'|by eapply quiet_trans|done..].
    + intros Le n q' R' F'. apply ssafe_ret. cbn [set_qs qs] in Le. rewrite decide_False by (intros [_ ?]; lia). apply stepped_in. by eapply sinv_put.
Qed.

Lemma others_ok o ll wk a d s : sinv ll wk a d s -> fits s -> sop_ok o ->
  (ll = true -> keeps_bytes o = true) -> (wk = true -> only_reader o = true) ->
  match o with SAddlist _ | SProduce _ | SIWrite _ => True | _ => False end ->
  ssafe (sstep atomic o) s (stepped ll wk a d).
Proof.
  intros I Fi P Lk Wk M. pose proof I as [(l & G & u & H) By Ca]. pose proof H as (R & U & S & L & W).
  destruct o; try done; cbn [sstep sop_ok keeps_bytes only_reader] in *; destruct P as [P Lp].
  - apply ssafe_bind, ssafe_sq. eapply qsafe_mem2bl; [done|done|]. intros k G1 q1 R1 O1 K N Ep Q1.
    apply ssafe_bind, ssafe_sq. eapply qsafe_qaddlist; [done..|]. intros q' R' Q'. apply ssafe_ret, stepped_in.
    assert (quiet (qs s) q') as Qt by (by eapply quiet_trans). rewrite <- Ep.
    eapply (sinv_intro _ _ _ _ (rp s) q' (l ++ k) G u); [|eapply keeps_bypass; [apply Qt|done]|exact Ca|done..].
    split; [done|]. split; [done|]. split_and!.
    + rewrite cdata_app, !app_assoc, <- (app_assoc d). by apply sublist_app.
    + intros E. destruct (L E) as [Mg ->]. rewrite (quiet_sbits _ _ Qt), cdata_app, <- !app_assoc. done.
    + intros E. by specialize (Wk E).
  - apply ssafe_bind, ssafe_sq. eapply qsafe_qproduce; [done|done|done| | |].
    + intros q' R' Kp B Er Ew. apply ssafe_ret. rewrite decide_False by lia. apply stepped_nil.
      eapply (sinv_intro _ _ _ _ (rp s) q'); [|by eapply keeps_bypass|exact Ca|done..].
      eapply holds_ctl; [exact H|done|done|by right; right|done].
    + apply ssafe_ret. rewrite decide_False by lia. apply stepped_nil. by destruct s.
    + intros b y q' R' Ey F'. apply ssafe_ret.
      assert (sinv ll wk (a ++ p) d (set_qs q' s)) as I'.
      { rewrite <- Ey, <- (cdata_one b y). eapply sinv_put; [done|done|apply quiet_refl|done|done|done|done..]. }
      destruct (decide (0 < zlen p)); [by apply stepped_in|]. apply stepped_nil. pose proof (zlen_nonneg p).
      destruct p as [|c p]; [by rewrite app_nil_r in I'|]. rewrite zlen_cons in *. pose proof (zlen_nonneg p). lia.
  - apply ssafe_bind, ssafe_sq. eapply qsafe_qiwrite; [done|done|done|]. intros n k q' R' Ek Cn F'. apply ssafe_ret, stepped_in.
    rewrite <- Ek. case_decide as D.
    + subst k. change (cdata []) with (@Datatypes.nil Z). rewrite app_nil_r in *.
      by eapply sinv_quiet; [done|done|exact R'|..].
    + by eapply sinv_put; [done|done|apply quiet_refl|exact R'|..].
Qed.
Lemma own_any G : exists k F, own G k 0 F /\ chain_ok k.
Proof. exists [], G. split; [done|constructor]. Qed.

Lemma under_idle G : under_way RIdle G [].
Proof. destruct (own_any G) as (k & F & O & K). by exists k, F. Qed.

(** A read that has taken nothing does not know which blocks there are. *)
Lemma under_taking p G u : under_way p G u -> taking p = false -> u = [] /\ forall G', under_way p G' [].
Proof.
  intros (k & F & O & K & U) T. assert (u = []) as -> by (destruct p; try done; try apply U).
  split; [done|]. intros G'. destruct (own_any G') as (k' & F' & O' & K'). exists k', F'. split; [done|]. split; [done|].
  by destruct p.
Qed.

(** An operation of a caller that takes bytes while no read has some under way. *)
Lemma idle_read_ok ll wk a d s l G u d1 lost l' G' q' e :
  sinv ll wk a d s -> holds ll wk a d (rp s) (qs s) l G u -> taking (rp s) = false -> (wk = true -> False) ->
  qrep q' l' G' ->
  (sbits q' = sbits (qs s) \/ sbits q' = with_flow false (sbits (qs s)) \/ sbits q' = with_flow true (sbits (qs s))) /\
    rr q' = rr (qs s) /\ keeps (qs s) q' ->
  cdata l = d1 ++ lost ++ cdata l' -> (ll = true -> b_msg (sbits (qs s)) = false -> lost = []) ->
  ins e = [] -> outs e = d1 -> counted e ->
  forall s', rp s' = rp s -> qs s' = q' -> wq s' = wq s -> stepped ll wk a d e s'.
Proof.
  intros [_ By Ca] H E Nw R' (B & Er & Kp) Ec Lo E1 E2 Ce s' Es1 Es2 Es3. split; [|done]. rewrite E1, E2, app_nil_r.
  pose proof H as (_ & U & _). destruct (under_taking _ _ _ U E) as [-> U'].
  eapply (sinv_intro _ _ _ _ (rp s) q' l' G' []); [|by eapply keeps_bypass|exact Ca|done..].
  eapply holds_same; [exact H|done|apply U'|done|done| | |].
  - rewrite Ec. simpl. rewrite <- app_assoc. do 2 (apply sublist_app; [done|]). by apply sublist_inserts_l.
  - intros T M. rewrite Ec, (Lo T M). simpl. by rewrite <- app_assoc.
  - intros T. by destruct (Nw T).
Qed.

Lemma ssafe_idle (c : scmd (list ev)) s Q : (rp s = RIdle -> ssafe c s Q) -> Q [] s -> ssafe (idle c) s Q.
Proof. intros H H0. apply ssafe_bind, ssafe_get. destruct (rp s); [by apply H|by apply ssafe_ret..]. Qed.

Lemma takers_ok o ll wk a d s : sinv ll wk a d s -> sop_ok o -> may s o = true ->
  (ll = true -> keeps_bytes o = true) -> (wk = true -> only_reader o = true) ->
  match o with SGet | SConsume _ | SDiscard _ | SFlush => True | _ => False end ->
  ssafe (sstep atomic o) s (stepped ll wk a d).
Proof.
  intros I P Y Lk Wk M. pose proof I as [(l & G & u & H) By Ca]. pose proof H as (R & U & S & L & W).
  assert (wk = true -> False) as Nw by (intros E; destruct o; by specialize (Wk E)).
  destruct o; try done; cbn [sstep sop_ok keeps_bytes only_reader may] in *.
  - apply negb_true_iff in Y as E. apply ssafe_bind, ssafe_sq. eapply qsafe_qget; [done| |].
    + intros El q' R' Kp B Er Ew. rewrite decide_True by done. apply ssafe_ret. rewrite El in *.
      apply stepped_nil. destruct (under_taking _ _ _ U E) as [-> U']. clear W.
      eapply (sinv_intro _ _ _ _ (rp s) q' [] G []); [|by eapply keeps_bypass|exact Ca|done..].
      split; [done|]. split; [apply U'|]. split; [done|]. split; [|done].
      intros E1. rewrite B. by apply L.
    + intros b x l' q1 El R1 Gb Nb X Dr. rewrite decide_False by done. apply ssafe_bind, ssafe_sq.
      eapply qsafe_eat; [exact R1|done|done|done|]. intros q2 R2 Q2. apply ssafe_ret.
      pose proof (drained_bits _ _ _ (drained_quiet _ _ _ _ _ _ _ Dr R1 R2 Q2)) as Db.
      eapply (idle_read_ok _ _ _ _ s l G u (bdata x) [] l' G q2); [done|done|done|done|done|done|by rewrite El|done|done| |by repeat constructor|done..].
      unfold outs. cbn [fmap list_fmap concat]. apply app_nil_r.
  - apply negb_true_iff in Y as E. apply ssafe_bind, ssafe_sq. eapply qsafe_qconsume; [done|done| |].
    + intros El tf G' q' R' O' Kp B Er Ew. rewrite decide_True by done. apply ssafe_ret, stepped_nil.
      destruct (under_taking _ _ _ U E) as [-> U']. clear W. rewrite El in S, L.
      eapply (sinv_intro _ _ _ _ (rp s) q' [] G' []); [|by eapply keeps_bypass|exact Ca|done..].
      split; [done|]. split; [apply U'|]. split; [done|]. split; [|done].
      intros E1. rewrite B. by apply L.
    + intros d1 lost l' q' R' El Lo Dr. pose proof (zlen_nonneg d1). cbn [fst snd]. rewrite decide_False by lia. apply ssafe_ret.
      apply drained_bits in Dr.
      eapply (idle_read_ok _ _ _ _ s l G u d1 lost l' G q'); [done|done|done|done|done|done|done|intros _; exact Lo|done| |by repeat constructor|done..].
      unfold outs. cbn [fmap list_fmap concat]. apply app_nil_r.
  - apply ssafe_bind, ssafe_sq. eapply qsafe_qdiscard; [done|done|]. intros l' q' R' El Dr. apply ssafe_ret, stepped_nil.
    apply drained_bits in Dr as (B & Er & Kp).
    eapply (sinv_intro _ _ _ _ (rp s) q' l' G u); [|by eapply keeps_bypass|exact Ca|done..].
    eapply holds_same; [exact H|done|exact U|done|done| | |intros E; by destruct (Nw E)].
    + do 2 (apply sublist_app; [done|]). rewrite El. apply sublist_drop.
    + intros E. by specialize (Lk E).
  - apply ssafe_bind, ssafe_sq. eapply qsafe_qflush; [done|]. intros q' R' Kp B Er Ew. apply ssafe_ret, stepped_nil.
    eapply (sinv_intro _ _ _ _ (rp s) q' [] G u); [|by eapply keeps_bypass|exact Ca|done..].
    eapply holds_same; [exact H|done|exact U|by left|done| | |intros E; by destruct (Nw E)].
    + do 2 (apply sublist_app; [done|]). apply sublist_nil_l.
    + intros E. by specialize (Lk E).
Qed.

Lemma states_ok o ll wk a d s : sinv ll wk a d s -> (ll = true -> keeps_bytes o = true) ->
  match o with SClose | SHangup _ | SReopen => True | _ => False end ->
  ssafe (sstep atomic o) s (stepped ll wk a d).
Proof.
  intros I Lk M. pose proof I as [(l & G & u & H) By Ca]. pose proof H as (R & U & S & L & W).
  destruct o; try done; cbn [sstep keeps_bytes] in *; apply ssafe_bind, ssafe_sq.
  - eapply qsafe_qclose; [done|]. intros q' R' _ _ Eb B Er Ew. apply ssafe_ret, stepped_nil.
    eapply (sinv_intro _ _ _ _ (rp s) q' [] G u); [|by rewrite Eb|exact Ca|done..].
    split; [done|]. split; [done|]. split_and!.
    + etrans; [|exact S]. do 2 (apply sublist_app; [done|]). apply sublist_nil_l.
    + intros E. by specialize (Lk E).
    + intros E. destruct (W E) as (A & _ & _ & _ & W4). split; [done|]. unfold woken. by rewrite B, Er.
  - eapply qsafe_qhangup; [done|]. intros q' R' Kp B Er Ew. apply ssafe_ret, stepped_nil.
    eapply (sinv_intro _ _ _ _ (rp s) q' l G u); [|by eapply keeps_bypass|exact Ca|done..].
    split; [done|]. split; [done|]. split; [done|]. split.
    + intros E. rewrite B. by apply L.
    + intros E. destruct (W E) as (A & _ & _ & _ & W4). split; [done|]. unfold woken. by rewrite B, Er.
  - eapply qsafe_qreopen; [done|]. intros q' R' _ _ Eb _ B Er Ew. apply ssafe_ret, stepped_nil.
    eapply (sinv_intro _ _ _ _ (rp s) q' l G u); [|by rewrite Eb|exact Ca|done..].
    split; [done|]. split; [done|]. split; [done|]. split.
    + intros E. rewrite B. by apply L.
    + intros E. destruct (W E) as (A & W1 & W2 & W3 & W4). split; [done|]. unfold woken. rewrite B, Er.
      split_and!; [done|done| |done]. intros As T. by destruct (W3 As T) as [-> _].
Qed.

Lemma sstep_ok o ll wk a d s : sinv ll wk a d s -> fits s -> sop_ok o -> may s o = true ->
  (ll = true -> keeps_bytes o = true) -> (wk = true -> only_reader o = true) ->
  ssafe (sstep atomic o) s (stepped ll wk a d).
Proof.
  intros I Fi P Y Lk Wk. destruct o; try (by apply others_ok); try (by apply takers_ok); try (by apply states_ok).
  - apply ssafe_idle; [intros E|by apply stepped_nil]. apply ssafe_bind, ssafe_rgoto, ssafe_ret, stepped_nil.
    destruct I as [(l & G & u & H) By Ca]. rewrite E in H. pose proof H as (R & (k & F & O & K & ->) & _).
    eapply (sinv_intro _ _ _ _ (RTry blk n)); [|exact By|exact Ca|done..].
    eapply holds_read; [exact H|done|by exists k, F|by apply quiet_bits, quiet_refl|done..].
  - by apply reader_ok.
  - cbn [sstep sop_ok] in *. apply ssafe_bind, ssafe_get. destruct (wq s !! i) eqn:Ei; [by apply ssafe_ret, stepped_nil|].
    apply ssafe_bind, ssafe_mod; [done|]. apply ssafe_ret, stepped_nil. destruct I as [Rp By Ca]. split; [done|done|].
    apply map_Forall_insert_2; [|done]. cbn [fst snd]. pose proof (zlen_nonneg p). split_and!; [apply P|apply P|lia|lia].
  - by apply writer_ok.
  - by apply pass_ok; [|apply P|].
Qed.
End ProcSpec.
