(* ===== verification/QprocThms.v ===== *)
(** What the processes that use a queue can rely on: bytes arrive in order, none is lost,
    none is invented; a reader sleeps only while there is nothing to read, when [sleep] is
    what Plan 9's is; and what happens with the [sleep] of LP49. *)

From S2P Require Import Prelude Mem Block BlockSpec BlockThms Qio QioSpec Qproc QprocSpec.

Lemma absurd_false {P : Prop} : false = true -> P.
Proof. done. Qed.

Section Runs.
Context {MA : Malloc} (atomic : bool).

Lemma ins_app e1 e2 : ins (e1 ++ e2) = ins e1 ++ ins e2.
Proof. unfold ins. by rewrite fmap_app, concat_app. Qed.
Lemma outs_app e1 e2 : outs (e1 ++ e2) = outs e1 ++ outs e2.
Proof. unfold outs. by rewrite fmap_app, concat_app. Qed.

Lemma opened_sinv ll wk limit msg kick h : (ll = true -> has msg Qmsg = false) -> (wk = true -> atomic = true) ->
  sinv atomic ll wk [] [] (opened limit msg kick h).
Proof.
  intros Ll Wk. split; [|done|by apply map_Forall_empty]. exists [], (blks h), []. split; [by apply qrep_nil|].
  split; [apply under_idle|]. split; [done|]. split; [|intros E; split; [by apply Wk|by split_and!]].
  intros E. split; [|done]. unfold sbits. cbn. change (Z.lor msg 1) with (Z.lor msg Qstarve).
  change (b_msg (bitsof (Z.lor msg Qstarve)) = false). rewrite bits_or_starve. by apply Ll.
Qed.

Lemma reach_fits s0 os es s : reach atomic s0 os es s -> fits s.
Proof. by destruct 1. Qed.

Lemma sstep_go ll wk a d o s e s' :
  sinv atomic ll wk a d s -> fits s -> sop_ok o -> may s o = true -> (ll = true -> keeps_bytes o = true) -> (wk = true -> only_reader o = true) ->
  sstep atomic o s = (Go e, s') -> nomem (hp (qs s')) = nomem (hp (qs s)) /\ sinv atomic ll wk (a ++ ins e) (d ++ outs e) s' /\ counted e.
Proof. intros I F P Y L W E. pose proof (sstep_ok atomic o ll wk a d s I F P Y L W) as S. unfold ssafe in S. by rewrite E in S. Qed.

Lemma reach_sinv ll wk s0 os es s : sinv atomic ll wk [] [] s0 -> reach atomic s0 os es s -> Forall sop_ok os ->
  (ll = true -> forallb keeps_bytes os = true) -> (wk = true -> forallb only_reader os = true) ->
  nomem (hp (qs s)) = nomem (hp (qs s0)) /\ sinv atomic ll wk (ins es) (outs es) s /\ counted es.
Proof.
  intros I0 Re. induction Re as [F|os es s o e s' Re IH Y St F]; intros P L W; [split_and!; [done|done|constructor]|].
  apply Forall_app in P as [P1 P2]. apply Forall_cons_1 in P2 as [P2 _].
  assert (forall f (b : bool), (b = true -> forallb f (os ++ [o]) = true) -> (b = true -> forallb f os = true) /\ (b = true -> f o = true)) as Sp.
  { intros f b Hb. split; intros E; specialize (Hb E); rewrite forallb_app in Hb; apply andb_prop in Hb as [H1 H2]; [done|].
    simpl in H2. by rewrite andb_true_r in H2. }
  destruct (Sp _ _ L) as [L1 L2], (Sp _ _ W) as [W1 W2]. destruct (IH P1 L1 W1) as (N & I & C).
  destruct (sstep_go _ _ _ _ _ _ _ _ I (reach_fits _ _ _ _ Re) P2 Y L2 W2 St) as (N' & I' & C').
  rewrite ins_app, outs_app. split_and!; [congruence|done|by apply Forall_app].
Qed.

Lemma reach_app s0 os es s os2 es2 s2 : reach atomic s0 os es s -> reach atomic s os2 es2 s2 ->
  reach atomic s0 (os ++ os2) (es ++ es2) s2.
Proof.
  intros R1 R2. induction R2 as [F|os2 es2 s2 o e s3 R2 IH Y St F]; [by rewrite !app_nil_r|].
  rewrite !app_assoc. by eapply reach_step.
Qed.

Lemma run_reach os s es s' : fits s -> run atomic os s = Some (es, s') -> reach atomic s os es s'.
Proof.
  revert s es. induction os as [|o os IH]; intros s es F E; simpl in E.
  - injection E as <- <-. by constructor.
  - destruct (may s o) eqn:Y; [|done]. destruct (sstep atomic o s) as [[e| |r|] s1] eqn:St; try done. destruct (decide (fits s1)) as [F1|]; [|done].
    destruct (run atomic os s1) as [[es2 s2]|] eqn:R; [|done]. injection E as <- <-. cbn [fst snd].
    apply (reach_app s [o] e s1 os es2); [|by apply IH]. apply (reach_step atomic s [] [] s o e s1); [by constructor|done..].
Qed.
End Runs.

(** C3: a queue as processes use it, in every interleaving of the steps of readers in qread
    and qbread, writers in qwrite, and qaddlist, qproduce, qiwrite, qdiscard, qclose,
    qhangup, qreopen, qflush at any time, qpass and qpassnolim while the queue is not closed
    (on a closed queue they fault: [qpass_of_a_closed_queue_faults]), and qget and qconsume
    except between the two critical sections of a qread ([may]): what readers got is in
    the order in which it was queued, nothing is delivered twice and nothing is invented; and
    unless the queue is a message queue or an operation throws bytes away (qdiscard, qclose,
    qflush), nothing is lost: what was queued is what was read, what a read has under way and
    what the queue holds. Every read returns the number of bytes that it stored; between
    reads [qlen] is the number of bytes in the queue. No step that
    [may] come uses a block after it was freed or copies outside of a buffer; it stops the
    kernel only when there is no memory. *)
Theorem queue_delivers_in_order `{!Malloc} atomic limit msg kick h os es s :
  nomem h = false -> reach atomic (opened limit msg kick h) os es s -> Forall sop_ok os ->
  counted es /\
  (exists rest, sublist (outs es ++ rest) (ins es) /\
     (has msg Qmsg = false -> forallb keeps_bytes os = true -> ins es = outs es ++ rest) /\
     (rp s = RIdle -> exists l G, own (blks (hp (qs s))) l 0 G /\ q_bfirst (qq (qs s)) = hda l 0 /\
        rest = cdata l /\ q_dlen (qq (qs s)) = zlen rest)) /\
  (forall o, sop_ok o -> may s o = true ->
     match sstep atomic o s with
     | (Go _, s') => nomem (hp (qs s')) = false
     | (Abt, s') => nomem (hp (qs s')) = true
     | _ => False
     end).
Proof.
  intros N Re P.
  set (ll := negb (has msg Qmsg) && forallb keeps_bytes os).
  assert (ll = true -> has msg Qmsg = false) as L1 by (intros [E _]%andb_prop; by apply negb_true_iff).
  assert (ll = true -> forallb keeps_bytes os = true) as L2 by (by intros [_ E]%andb_prop).
  destruct (reach_sinv atomic ll false _ _ _ _ (opened_sinv atomic ll false limit msg kick h L1 absurd_false) Re P L2 absurd_false) as (N' & I & C).
  pose proof (reach_fits _ _ _ _ _ Re) as F. split; [done|]. split.
  - pose proof I as [(l & G & u & R & U & S & L & _) _ _]. exists (u ++ cdata l). split; [done|]. split.
    + intros M K. apply L. unfold ll. by rewrite M, K.
    + intros E. destruct U as (k & F' & O & K & U). rewrite E in U. subst u. exists l, G.
      split_and!; [apply R|apply R|done|]. simpl. destruct (fits_bound _ _ _ _ _ F R O K) as [T _].
      pose proof (zlen_nonneg (cdata l)). rewrite (r_dlen _ _ _ R), chain_sum_BLEN by apply R. apply s32_small. lia.
  - intros o Po Yo. destruct (reach_sinv atomic false false _ _ _ _ (opened_sinv atomic false false limit msg kick h absurd_false absurd_false) Re P absurd_false absurd_false) as (_ & I2 & _).
    pose proof (sstep_ok atomic o false false _ _ s I2 F Po Yo) as S. unfold ssafe in S.
    destruct (sstep atomic o s) as [[e| |r|] s'].
    + destruct S as [E _]; [done|done|]. rewrite E, N'. done.
    + apply S; done.
    + apply S; done.
    + apply S; done.
Qed.

(** With a [sleep] that tests its condition and enrols the caller in one step, as Plan
    9's does, a reader that sleeps and that nobody has woken waits with reason: the queue is
    empty and open, and the next producer has been asked for a wakeup (Qstarve). This holds
    in every interleaving of the reader (qread, qbread) with writers (qwrite), qpass,
    qpassnolim, qproduce, qiwrite, qclose, qhangup and qreopen. *)
Theorem a_sleeping_reader_has_nothing_to_read `{!Malloc} limit msg kick h os es s blk n :
  reach true (opened limit msg kick h) os es s -> Forall sop_ok os -> forallb only_reader os = true ->
  rp s = RAsleep blk n -> rr (qs s) = true ->
  q_bfirst (qq (qs s)) = 0 /\ has (q_state (qq (qs s))) Qclosed = false /\ has (q_state (qq (qs s))) Qstarve = true.
Proof.
  intros Re P W E Er.
  destruct (reach_sinv true false true _ _ _ _ (opened_sinv true false true limit msg kick h absurd_false (fun _ => eq_refl)) Re P absurd_false (fun _ => W))
    as (_ & [(l & G & u & R & _ & _ & _ & Wk) _ _] & _).
  destruct (Wk eq_refl) as (_ & _ & W2 & W3 & _). rewrite E in W2, W3. destruct (W3 eq_refl Er) as [-> C].
  split_and!; [apply R|done|]. by apply W2.
Qed.

(** ** A wakeup that is missed *)

(** The operations that put bytes in the queue. *)
Definition writes (o : sop) : bool :=
  match o with SWrite _ _ | SWriter _ | SPass _ _ | SProduce _ | SIWrite _ => true | _ => false end.

Section Lost.
Context {MA : Malloc}.

(** The reader is enrolled and no producer knows of it. *)
Definition lost (p : rpc) (s : sys) : Prop :=
  (exists l G, qrep (qs s) l G) /\ q_bypass (qq (qs s)) = false /\ calls_ok (wq s) /\
  rp s = p /\ rr (qs s) = true /\ b_starve (sbits (qs s)) = false.

Lemma lost_set p s q l G : lost p s -> qrep q l G -> keeps (qs s) q -> rr q = true -> b_starve (sbits q) = false ->
  lost p (set_qs q s).
Proof. intros (_ & By & Ca & E & _) R K Er B. split_and!; [eauto|by eapply keeps_bypass|done..]. Qed.

Lemma lost_quiet p s q l G : lost p s -> qrep q l G -> quiet (qs s) q -> lost p (set_qs q s).
Proof.
  intros L R Q. pose proof L as (_ & _ & _ & _ & Er & B). pose proof (quiet_sbits _ _ Q) as Eb.
  destruct Q as (K & _ & Er' & _). eapply lost_set; [done|done|done|congruence|congruence].
Qed.

Lemma lost_filled p s q l G f : lost p s -> qrep q l G -> filled f (qs s) q -> lost p (set_qs q s).
Proof.
  intros L R (K & Eb & Er' & _). pose proof L as (_ & _ & _ & _ & Er & B).
  eapply lost_set; [done|done|done|by rewrite Er', Er, B|by rewrite Eb].
Qed.

Lemma lost_flow p s q l G : lost p s -> qrep q l G -> keeps (qs s) q -> sbits q = with_flow true (sbits (qs s)) ->
  rr q = rr (qs s) -> lost p (set_qs q s).
Proof.
  intros L R K Eb Er'. pose proof L as (_ & _ & _ & _ & Er & B). eapply lost_set; [done|done|done|congruence|by rewrite Eb].
Qed.

Lemma lost_wp p w s : lost p s -> lost p (set_wp w s).
Proof. done. Qed.

Lemma lost_sinv p s : lost p s -> exists l G, qrep (qs s) l G.
Proof. by intros [? _]. Qed.

Lemma lost_next p i c sofar s : lost p s -> wq s !! i = Some (c, sofar) -> ssafe (wnext i c sofar) s (fun _ => lost p).
Proof.
  intros (Rp & By & Ca & L) Ei. destruct (Ca _ _ Ei) as (P & Le & C). cbn [fst snd] in *.
  apply ssafe_bind, ssafe_sq, qsafe_bind, qsafe_has, qsafe_ret.
  set (n := if decide (Maxatomic < zlen c - sofar) then Maxatomic else zlen c - sofar).
  assert (0 <= n <= zlen c - sofar) as Cn by (unfold n, Maxatomic; case_decide; lia).
  destruct (bool_decide _); (apply ssafe_bind, ssafe_mod; [done|]); apply ssafe_ret; split_and!; try done.
  - apply map_Forall_insert_2; [|done]. cbn [fst snd]. split_and!; [done|done|lia|lia].
  - apply L.
  - apply L.
  - apply L.
  - by apply map_Forall_delete.
  - apply L.
  - apply L.
  - apply L.
Qed.

Lemma lost_writer p i s : lost p s -> ssafe (writer false i) s (fun _ => lost p).
Proof.
  intros L. unfold writer. apply ssafe_bind, ssafe_get. destruct (wq s !! i) as [[c sofar]|] eqn:Ei; [|by apply ssafe_ret].
  pose proof L as ((l & G & R) & By & Ca & Ep & Er & B). destruct (Ca _ _ Ei) as (P & Le & C). cbn [fst snd] in *.
  destruct (wp s) as [|j|j|j|j].
  - apply ssafe_bind, ssafe_sq. eapply qsafe_qwrite_block; [done|done|done|].
    intros b x q1 Nb Gb X Ex R1 Q1. pose proof (lost_quiet _ _ _ _ _ L R1 Q1) as L1.
    apply ssafe_bind, ssafe_sq. eapply qsafe_qbwrite_put; [exact R1|done|done|done|by eapply keeps_bypass; [apply Q1|]| | |].
    + intros _ e q' R' Q'. apply ssafe_bind. eapply ssafe_mono; [by eapply lost_next; [eapply lost_quiet|]|]. intros. by apply ssafe_ret.
    + intros _ q' R' Q'. by eapply lost_next; [eapply lost_quiet|].
    + intros _ q' R' F'. apply ssafe_bind, ssafe_wgoto, ssafe_ret, lost_wp. by eapply lost_filled.
  - apply ssafe_if; intros D; [|by apply ssafe_ret]. apply ssafe_bind, ssafe_sq, qsafe_qbwrite_flow.
    + intros _. apply ssafe_bind, ssafe_wgoto. by eapply lost_next; [apply lost_wp; destruct s|].
    + intros _ q' C'. apply ssafe_bind, ssafe_wgoto, ssafe_ret, lost_wp. pose proof (ctls_rep _ _ _ _ _ _ _ R C') as R'.
      destruct C' as (_ & Kp & _ & _ & _ & _ & Eb & Er' & _). by eapply lost_flow.
  - apply ssafe_if; intros D; [|by apply ssafe_ret].
    destruct (qnotfull _); by apply ssafe_bind, ssafe_wgoto, ssafe_ret.
  - apply ssafe_if; intros D; [|by apply ssafe_ret]. apply ssafe_bind, ssafe_sq. split; [done|].
    apply ssafe_bind, ssafe_wgoto, ssafe_ret, lost_wp. eapply (lost_set _ _ _ l G); [done|by destruct R; split|done..].
  - apply ssafe_if; intros D; [by apply ssafe_bind, ssafe_wgoto, ssafe_ret|by apply ssafe_ret].
Qed.

Lemma lost_step o p s : lost p s -> sop_ok o -> may s o = true -> writes o = true -> ssafe (sstep false o) s (fun _ => lost p).
Proof.
  intros L P C W. pose proof L as ((l & G & R) & By & Ca & Ep & Er & B). destruct o; try done; cbn [sstep sop_ok may] in *.
  - apply ssafe_bind, ssafe_get. destruct (wq s !! i) eqn:Ei; [by apply ssafe_ret|].
    apply ssafe_bind, ssafe_mod; [done|]. apply ssafe_ret. split_and!; try done; [eauto|].
    apply map_Forall_insert_2; [|done]. cbn [fst snd]. pose proof (zlen_nonneg p0). split_and!; [apply P|apply P|lia|lia].
  - by apply lost_writer.
  - destruct P as [P _]. apply negb_true_iff in C. unfold pass. apply ssafe_bind, ssafe_get.
    apply ssafe_bind, ssafe_sq. eapply qsafe_mem2bl; [done|done|]. intros k G1 q1 R1 O1 K N _ Q1.
    assert (b_closed (sbits q1) = false) as C1 by (by rewrite (quiet_sbits _ _ Q1)).
    pose proof (lost_quiet _ _ _ _ _ L R1 Q1) as L1. apply ssafe_bind, ssafe_sq. destruct nolim.
    + eapply qsafe_qpassnolim; [done..|]. intros n q' R' F'. apply ssafe_ret. by eapply lost_filled in F'.
    + eapply qsafe_qpass; [done..| |].
      * intros _ q' R' Q'. apply ssafe_ret. by eapply lost_quiet in Q'.
      * intros _ n q' R' F'. apply ssafe_ret. by eapply lost_filled in F'.
  - destruct P as [P Lp]. apply ssafe_bind, ssafe_sq. eapply qsafe_qproduce; [done|done|done| | |].
    + intros q' R' Kp Eb Er' Ew. apply ssafe_ret. by eapply lost_flow.
    + apply ssafe_ret. by destruct s.
    + intros b y q' R' Ey F'. apply ssafe_ret. by eapply lost_filled.
  - destruct P as [P Lp]. apply ssafe_bind, ssafe_sq. eapply qsafe_qiwrite; [done|done|done|]. intros n k q' R' Ek Cn F'. apply ssafe_ret.
    destruct (decide (k = [])); [by eapply lost_quiet|by eapply lost_filled].
Qed.

Lemma lost_reach p s os es s' : lost p s -> reach false s os es s' -> Forall sop_ok os -> forallb writes os = true -> lost p s'.
Proof.
  intros L Re. induction Re as [F|os es s1 o e s2 Re IH Y St F]; intros P W; [done|].
  apply Forall_app in P as [P1 P2]. apply Forall_cons_1 in P2 as [P2 _]. rewrite forallb_app in W.
  apply andb_prop in W as [W1 W2]. simpl in W2. rewrite andb_true_r in W2.
  pose proof (lost_step o p s1 (IH P1 W1) P2 Y W2) as S. unfold ssafe in S. rewrite St in S. apply S.
Qed.
End Lost.

(** ** Examples *)

Definition no_blocks : bheap := BHeap ∅ 0 false.
Definition demo_start : sys := opened 65536 0 false no_blocks.

(** A read of ten bytes is about to enrol when a write of two bytes comes. *)
Definition lost_ops : list sop := [SRead false 10; SReader; SReader; SWrite 1 [65; 66]; SWriter 1; SReader; SWriter 1].
Definition lost_run : list ev * sys := default ([], demo_start) (run false lost_ops demo_start).

(** C40: with the [sleep] of LP49, which tests its condition and enrols the caller
    afterwards, without a lock, a wakeup can be missed for good: there is a run in which the
    reader is enrolled although the bytes of a finished qwrite are in the queue, and no
    further write of any kind (qwrite, qpass, qpassnolim, qproduce, qiwrite) wakes it, since
    the flag that asks for a wakeup was taken off by the first one. *)
Theorem sleep_misses_its_wakeup :
  exists os es s, reach false demo_start os es s /\ Forall sop_ok os /\
    rp s = RAsleep false 10 /\ ins es = [65; 66] /\ outs es = [] /\ EWrote 1 2 ∈ es /\
    forall os2 es2 s2, Forall sop_ok os2 -> forallb writes os2 = true -> reach false s os2 es2 s2 ->
      rp s2 = RAsleep false 10 /\ rr (qs s2) = true.
Proof.
  assert (run false lost_ops demo_start = Some lost_run /\ rp lost_run.2 = RAsleep false 10 /\ ins lost_run.1 = [65; 66] /\
    outs lost_run.1 = [] /\ lost_run.1 !! 1%nat = Some (EWrote 1 2) /\ rr (qs lost_run.2) = true /\
    b_starve (sbits (qs lost_run.2)) = false) as H by (split_and!; vm_compute; reflexivity).
  revert H. generalize lost_run. intros [es s] (E & Ep & Ei & Eo & Ew & Er & Eb). cbn [fst snd] in *.
  assert (reach false demo_start lost_ops es s) as Re by (apply run_reach; [vm_compute; reflexivity|exact E]).
  assert (Forall sop_ok lost_ops) as P by (repeat constructor; done).
  destruct (reach_sinv false false false _ _ _ _ (opened_sinv false false false 65536 0 false no_blocks absurd_false absurd_false) Re P absurd_false absurd_false)
    as (_ & [(l & G & u & R & _) By Ca] & _).
  assert (lost (RAsleep false 10) s) as L by (split_and!; [by exists l, G|exact By|exact Ca|exact Ep|exact Er|exact Eb]).
  clear E.
  exists lost_ops, es, s. split_and!; [exact Re|exact P|exact Ep|exact Ei|exact Eo|eapply list_elem_of_lookup_2; exact Ew|].
  intros os2 es2 s2 P2 W2 Re2. destruct (lost_reach _ _ _ _ _ L Re2 P2 W2) as (_ & _ & _ & E1 & E2 & _). by split.
Qed.

(** A session: three bytes are written, two read, two more are passed, the rest is read. *)
Definition demo_sops : list sop :=
  [SRead false 2; SReader; SReader; SWrite 1 [1; 2; 3]; SWriter 1; SReader; SReader; SPass false [4; 5]; SReader; SReader;
   SWriter 1; SRead true 9; SReader; SProduce [6]; SRead false 9; SReader; SReader; SReader].
Definition demo_end : list ev * sys := default ([], demo_start) (run true demo_sops demo_start).
Definition demo_asleep : list sop := [SWrite 1 [7]; SWriter 1; SRead false 5; SReader; SReader; SReader; SRead false 5; SReader; SReader].
Definition demo_asleep_end : list ev * sys := default ([], demo_start) (run true demo_asleep demo_start).

Lemma demo_fits : fits demo_start.
Proof. vm_compute. reflexivity. Qed.

Lemma queue_delivers_in_order_witness :
  ins demo_end.1 = [1; 2; 3; 4; 5; 6] /\ outs demo_end.1 = [1; 2; 3; 4; 5] /\
  exists rest, ins demo_end.1 = outs demo_end.1 ++ rest.
Proof.
  assert (run true demo_sops demo_start = Some demo_end /\ ins demo_end.1 = [1; 2; 3; 4; 5; 6] /\
    outs demo_end.1 = [1; 2; 3; 4; 5]) as H by (split_and!; vm_compute; reflexivity).
  revert H. generalize demo_end. intros [es s] (E & Ei & Eo). cbn [fst snd] in *.
  pose proof (run_reach true demo_sops demo_start es s demo_fits E) as Re. clear E.
  assert (Forall sop_ok demo_sops) as P by (repeat constructor; done).
  destruct (queue_delivers_in_order true 65536 0 false no_blocks demo_sops es s eq_refl Re P) as (_ & (rest & _ & L & _) & _).
  split; [exact Ei|]. split; [exact Eo|]. exists rest. apply L; reflexivity.
Defined.

Lemma a_sleeping_reader_has_nothing_to_read_witness :
  rp demo_asleep_end.2 = RAsleep false 5 /\ q_bfirst (qq (qs demo_asleep_end.2)) = 0.
Proof.
  assert (run true demo_asleep demo_start = Some demo_asleep_end /\ rp demo_asleep_end.2 = RAsleep false 5 /\
    rr (qs demo_asleep_end.2) = true) as H by (split_and!; vm_compute; reflexivity).
  revert H. generalize demo_asleep_end. intros [es s] (E & Ep & Er). cbn [fst snd] in *.
  pose proof (run_reach true demo_asleep demo_start es s demo_fits E) as Re. clear E.
  assert (Forall sop_ok demo_asleep) as P by (repeat constructor; done).
  split; [exact Ep|].
  apply (a_sleeping_reader_has_nothing_to_read 65536 0 false no_blocks demo_asleep es s false 5 Re P eq_refl Ep Er).
Defined.

(** ** What the model shows besides *)

(** [qwrite] does not look at what [qbwrite] returns: a write to a closed queue, whose block
    was refused and freed, reports all its bytes as written. *)
Example qwrite_ignores_an_error :
  fst <$> run true [SClose; SWrite 1 [1; 2; 3]; SWriter 1] demo_start = Some [EFailed 1; EWrote 1 3].
Proof. vm_compute. reflexivity. Qed.

(** [qpass] and [qpassnolim] read a block of a closed queue after they have freed it. *)
Example qpass_of_a_closed_queue_faults :
  match (b <- hpc (mem2bl [1; 2; 3]);; qclose;; qpassnolim b) (qs demo_start) with
  | (Abt, s) => nomem (hp s) = false
  | _ => False
  end.
Proof. vm_compute. reflexivity. Qed.

(** [qconsume] finds only empty blocks: it takes them off the queue and returns -1 without
    giving them back. *)
Example qconsume_leaks_empty_blocks :
  match (b <- hpc (mem2bl []);; qaddlist b;; qconsume 10) (qs demo_start) with
  | (Go (n, _), s) => n = -1 /\ q_bfirst (qq s) = 0 /\ size (blks (hp s)) = 1%nat
  | _ => False
  end.
Proof. vm_compute. done. Qed.

(** [pullupqueue] changes the blocks of the queue and not the room that it accounts for. *)
Example pullupqueue_forgets_len :
  match (b <- hpc (mem2bl [1]);; c <- hpc (mem2bl [2; 3]);; qaddlist b;; qaddlist c;; pullupqueue 3;;
         n <- qval q_len;; f <- qval q_bfirst;; m <- hpc (blockalloclen f);; cret (n, m)) (qs demo_start) with
  | (Go (n, m), _) => n <> m
  | _ => False
  end.
Proof. vm_compute. done. Qed.
