(* ===== verification/Utf.v ===== *)
(** UTF-8 and strings of the C library: src/libc/port/rune.c, utflen.c, utfnlen.c,
    utfrune.c, utfrrune.c, utfutf.c, utfecpy.c and the string functions that they
    call.

    A function that only reads memory is a function of the memory [m]; one that writes
    also returns the new memory. A pointer result is an address, 0 is nil. [char] is
    signed, as on the 386. The loops have no bound but the NUL of their string: their
    fuel is one more than the number of stored bytes, which the bytes of a string are
    among, and [None] says that it did not suffice. *)

From S2P Require Import Prelude Mem.

(** [*s] of a [char*]. *)
Definition chr (m : mem) (s : Z) : Z := s8 (rd8 m s).

Definition fuel_of (m : mem) : nat := S (size m).

(** ** Runes: rune.c *)

Definition UTFmax := 3.
Definition Runesync := 128.
Definition Runeself := 128.
Definition Runeerror := 65533.

Definition Bitx := 6.
Definition Tx := 128.
Definition T2 := 192.
Definition T3 := 224.
Definition T4 := 240.
Definition Rune1 := 127.
Definition Rune2 := 2047.
Definition Rune3 := 65535.
Definition Maskx := 63.
Definition Testx := 192.
Definition Bad := Runeerror.

(** The rune at [str] and the number of its bytes. *)
Definition chartorune (m : mem) (str : Z) : Z * Z :=
  let bad := (Bad, 1) in
  let c := rd8 m str in
  if c <? Tx then (c, 1)
  else
    let c1 := Z.lxor (rd8 m (str + 1)) Tx in
    if negb (Z.land c1 Testx =? 0) then bad
    else if c <? T3 then
      if c <? T2 then bad
      else
        let l := Z.land (Z.lor (Z.shiftl c Bitx) c1) Rune2 in
        if l <=? Rune1 then bad else (l, 2)
    else
      let c2 := Z.lxor (rd8 m (str + 2)) Tx in
      if negb (Z.land c2 Testx =? 0) then bad
      else if c <? T4 then
        let l := Z.land (Z.lor (Z.shiftl (Z.lor (Z.shiftl c Bitx) c1) Bitx) c2) Rune3 in
        if l <=? Rune2 then bad else (l, 3)
      else bad.

(** Write the rune [c] at [str]: the number of bytes and the memory. *)
Definition runetochar (m : mem) (str c : Z) : Z * mem :=
  if c <=? Rune1 then (1, wr8 m str c)
  else if c <=? Rune2 then
    (2, wr8 (wr8 m str (Z.lor T2 (Z.shiftr c (1 * Bitx))))
          (str + 1) (Z.lor Tx (Z.land c Maskx)))
  else
    (3, wr8 (wr8 (wr8 m str (Z.lor T3 (Z.shiftr c (2 * Bitx))))
               (str + 1) (Z.lor Tx (Z.land (Z.shiftr c (1 * Bitx)) Maskx)))
          (str + 2) (Z.lor Tx (Z.land c Maskx))).

(** The buffer of [runelen] is on its stack. *)
Definition runelen (c : Z) : Z := fst (runetochar ∅ 0 (u16 c)).

(** Runes in memory are unsigned shorts. *)
Definition rune_get (m : mem) (r : Z) : Z := unle (ld_bytes m r 2).

Fixpoint runenlen_loop (nrune : nat) (m : mem) (r nb : Z) : Z :=
  match nrune with
  | O => nb
  | S n =>
      let c := rune_get m r in
      runenlen_loop n m (r + 2)
        (if c <=? Rune1 then nb + 1 else if c <=? Rune2 then nb + 2 else nb + 3)
  end.

Definition runenlen (m : mem) (r nrune : Z) : Z := s32 (runenlen_loop (Z.to_nat (u32 nrune)) m r 0).

Definition fullrune (m : mem) (str n : Z) : bool :=
  (0 <? n) &&
  (let c := rd8 m str in
   (c <? Tx) || ((1 <? n) && ((c <? T3) || (2 <? n)))).

(** ** String functions *)

Fixpoint strchr_loop (fuel : nat) (m : mem) (s c0 : Z) : option Z :=
  match fuel with
  | O => None
  | S f =>
      let c1 := chr m s in
      if c1 =? 0 then Some 0 else if c1 =? c0 then Some s else strchr_loop f m (s + 1) c0
  end.

Fixpoint strend_loop (fuel : nat) (m : mem) (s : Z) : option Z :=
  match fuel with
  | O => None
  | S f => if chr m s =? 0 then Some s else strend_loop f m (s + 1)
  end.

Definition strchr (m : mem) (s c : Z) : option Z :=
  if c =? 0 then strend_loop (fuel_of m) m s else strchr_loop (fuel_of m) m s (s8 c).

Fixpoint strrchr_loop (fuel : nat) (m : mem) (s c r : Z) : option Z :=
  match fuel with
  | O => None
  | S f =>
      match strchr m s c with
      | None => None
      | Some s' => if s' =? 0 then Some r else strrchr_loop f m (s' + 1) c s'
      end
  end.

Definition strrchr (m : mem) (s c : Z) : option Z :=
  if c =? 0 then strchr m s 0 else strrchr_loop (fuel_of m) m s c 0.

(** A count of bytes: at most [n] rounds. *)
Fixpoint strncmp_loop (n : nat) (m : mem) (s1 s2 : Z) : Z :=
  match n with
  | O => 0
  | S n' =>
      let c1 := u32 (chr m s1) in
      let c2 := u32 (chr m s2) in
      if negb (c1 =? c2) then (if c2 <? c1 then 1 else -1)
      else if c1 =? 0 then 0
      else strncmp_loop n' m (s1 + 1) (s2 + 1)
  end.

Definition strncmp (m : mem) (s1 s2 n : Z) : Z := strncmp_loop (Z.to_nat n) m s1 s2.

(** The inner loop of [strstr]: does the rest [pb] of the second string follow [pa]? *)
Fixpoint strstr_match (fuel : nat) (m : mem) (pa pb : Z) : option bool :=
  match fuel with
  | O => None
  | S f =>
      let c := chr m pb in
      if c =? 0 then Some true
      else if negb (c =? chr m (pa + 1)) then Some false
      else strstr_match f m (pa + 1) (pb + 1)
  end.

Fixpoint strstr_loop (fuel : nat) (m : mem) (p s2 c0 : Z) : option Z :=
  match fuel with
  | O => None
  | S f =>
      if p =? 0 then Some 0
      else
        match strstr_match (fuel_of m) m p s2 with
        | None => None
        | Some true => Some p
        | Some false =>
            match strchr m (p + 1) c0 with
            | None => None
            | Some p' => strstr_loop f m p' s2 c0
            end
        end
  end.

Definition strstr (m : mem) (s1 s2 : Z) : option Z :=
  let c0 := chr m s2 in
  if c0 =? 0 then Some s1
  else
    match strchr m s1 c0 with
    | None => None
    | Some p => strstr_loop (fuel_of m) m p (s2 + 1) c0
    end.

(** Copy at most [n] bytes, one after the other, up to and with the first [c]: the
    address after that, or 0. *)
Fixpoint memccpy_loop (n : nat) (m : mem) (s1 s2 c : Z) : Z * mem :=
  match n with
  | O => (0, m)
  | S n' =>
      let m' := wr8 m s1 (rd8 m s2) in
      if rd8 m s2 =? c then (s1 + 1, m') else memccpy_loop n' m' (s1 + 1) (s2 + 1) c
  end.

Definition memccpy (m : mem) (a1 a2 c n : Z) : Z * mem :=
  memccpy_loop (Z.to_nat n) m a1 a2 (Z.land c 255).

(** ** Strings of runes *)

Fixpoint utflen_loop (fuel : nat) (m : mem) (s n : Z) : option Z :=
  match fuel with
  | O => None
  | S f =>
      let c := rd8 m s in
      if c <? Runeself then
        if c =? 0 then Some n else utflen_loop f m (s + 1) (n + 1)
      else utflen_loop f m (s + snd (chartorune m s)) (n + 1)
  end.

Definition utflen (m : mem) (s : Z) : option Z := utflen_loop (fuel_of m) m s 0.

Fixpoint utfnlen_loop (fuel : nat) (m : mem) (s es n : Z) : option Z :=
  match fuel with
  | O => None
  | S f =>
      if es <=? s then Some n
      else
        let c := rd8 m s in
        if c <? Runeself then
          if c =? 0 then Some n else utfnlen_loop f m (s + 1) es (n + 1)
        else if negb (fullrune m s (es - s)) then Some n
        else utfnlen_loop f m (s + snd (chartorune m s)) es (n + 1)
  end.

Definition utfnlen (m : mem) (s k : Z) : option Z := utfnlen_loop (fuel_of m) m s (s + k) 0.

Fixpoint utfrune_loop (fuel : nat) (m : mem) (s c : Z) : option Z :=
  match fuel with
  | O => None
  | S f =>
      let c1 := rd8 m s in
      if c1 <? Runeself then
        if c1 =? 0 then Some 0
        else if c1 =? c then Some s
        else utfrune_loop f m (s + 1) c
      else
        let '(r, n) := chartorune m s in
        if r =? c then Some s else utfrune_loop f m (s + n) c
  end.

Definition utfrune (m : mem) (s c : Z) : option Z :=
  if c <? Runesync then strchr m s c else utfrune_loop (fuel_of m) m s c.

Fixpoint utfrrune_loop (fuel : nat) (m : mem) (s c s1 : Z) : option Z :=
  match fuel with
  | O => None
  | S f =>
      let c1 := rd8 m s in
      if c1 <? Runeself then
        if c1 =? 0 then Some s1
        else utfrrune_loop f m (s + 1) c (if c1 =? c then s else s1)
      else
        let '(r, n) := chartorune m s in
        utfrrune_loop f m (s + n) c (if r =? c then s else s1)
  end.

Definition utfrrune (m : mem) (s c : Z) : option Z :=
  if c <? Runesync then strrchr m s c else utfrrune_loop (fuel_of m) m s c 0.

Fixpoint utfutf_loop (fuel : nat) (m : mem) (p f s2 n1 n2 : Z) : option Z :=
  match fuel with
  | O => None
  | S fu =>
      match utfrune m p f with
      | None => None
      | Some p =>
          if p =? 0 then Some 0
          else if strncmp m p s2 n2 =? 0 then Some p
          else utfutf_loop fu m (p + n1) f s2 n1 n2
      end
  end.

Definition utfutf (m : mem) (s1 s2 : Z) : option Z :=
  let '(f, n1) := chartorune m s2 in
  if f <=? Runesync then strstr m s1 s2
  else utfutf_loop (fuel_of m) m s1 f s2 n1 (strlen m s2).

(** [while(end>to && ( *--end&0xC0)==0x80);] *)
Fixpoint utfecpy_back (n : nat) (m : mem) (e to : Z) : Z :=
  match n with
  | O => e
  | S n' =>
      if (to <? e) && (Z.land (rd8 m (e - 1)) 192 =? 128)
      then utfecpy_back n' m (e - 1) to
      else if to <? e then e - 1 else e
  end.

Definition utfecpy (m : mem) (to e from : Z) : Z * mem :=
  if e <=? to then (to, m)
  else
    let '(fin, m') := memccpy m to from 0 (e - to) in
    if fin =? 0 then
      let fin := utfecpy_back (Z.to_nat (e - to)) m' (e - 1) to in
      (fin, wr8 m' fin 0)
    else (fin - 1, m').
