(* ===== verification/UtfSpec.v ===== *)
(** UTF-8: a string is a list of runes, and the functions of Utf on strings are
    functions on that list. *)

From S2P Require Import Prelude Mem Utf.

#[export] Instance cstr_dec m p s : Decision (cstr m p s).
Proof. unfold cstr, bytes_at. apply _. Defined.

(** A closed, decidable fact. *)
Ltac closed := apply (bool_decide_unpack _); vm_compute; exact I.

(** ** The specification *)

(** The bytes that encode a rune. *)
Definition enc_rune (r : Z) : list Z :=
  if r <? 128 then [r]
  else if r <? 2048 then [192 + r / 64; 128 + r mod 64]
  else [224 + r / 4096; 128 + r / 64 mod 64; 128 + r mod 64].

Definition tailb (b : Z) : bool := (128 <=? b) && (b <? 192).

(** The rune that starts with the bytes [b], [c], [d] and its length; the rune [Bad]
    with length 1 where no encoding starts. *)
Definition first_rune (b c d : Z) : Z * Z :=
  if b <? 128 then (b, 1)
  else if tailb c && (194 <=? b) && (b <? 224) then ((b - 192) * 64 + (c - 128), 2)
  else
    let r := (b - 224) * 4096 + (c - 128) * 64 + (d - 128) in
    if tailb c && tailb d && (224 <=? b) && (b <? 240) && (2048 <=? r) then (r, 3)
    else (Bad, 1).

(** The runes of a string with their lengths, after [skip] bytes. *)
Fixpoint runes_from (skip : nat) (l : list Z) : list (Z * Z) :=
  match l with
  | [] => []
  | b :: l1 =>
      match skip with
      | S k => runes_from k l1
      | O =>
          let '(r, n) := first_rune b (hd 0 l1) (hd 0 (tl l1)) in
          (r, n) :: runes_from (Z.to_nat (n - 1)) l1
      end
  end.

Abbreviation runes := (runes_from 0).

(** The address of the first rune [c] of the runes [rs] at [p], the address of the
    last one, and how many of them fit into [k] bytes. *)
Fixpoint first_at (p c : Z) (rs : list (Z * Z)) : Z :=
  match rs with
  | [] => 0
  | (r, n) :: rs' => if r =? c then p else first_at (p + n) c rs'
  end.

Fixpoint last_at (p c s1 : Z) (rs : list (Z * Z)) : Z :=
  match rs with
  | [] => s1
  | (r, n) :: rs' => last_at (p + n) c (if r =? c then p else s1) rs'
  end.

Fixpoint fitting (k : Z) (rs : list (Z * Z)) : Z :=
  match rs with
  | [] => 0
  | (r, n) :: rs' => if n <=? k then 1 + fitting (k - n) rs' else 0
  end.

(** ** Bytes *)

Lemma byte_cases (P : Z -> bool) b :
  forallb P (seqZ 0 256) = true -> 0 <= b < 256 -> P b = true.
Proof.
  intros H Hb. rewrite forallb_forall in H. apply H, list_elem_of_In, elem_of_seqZ. lia.
Qed.

Lemma tail_byte c : 0 <= c < 256 ->
  (Z.land (Z.lxor c Tx) Testx =? 0) = tailb c /\ (tailb c = true -> Z.lxor c Tx = c - 128).
Proof.
  intros Hc.
  pose proof (byte_cases (fun c => eqb (Z.land (Z.lxor c Tx) Testx =? 0) (tailb c) &&
    (negb (tailb c) || (Z.lxor c Tx =? c - 128))) c eq_refl Hc) as H.
  apply andb_true_iff in H as [H1 H2]. apply eqb_prop in H1. split; [done|].
  intros T. rewrite T in H2. simpl in H2. by apply Z.eqb_eq.
Qed.

Lemma tailb_spec c : tailb c = true <-> 128 <= c < 192.
Proof. unfold tailb. rewrite andb_true_iff, Z.leb_le, Z.ltb_lt. lia. Qed.

Lemma land_2047 x : Z.land x 2047 = x mod 2048.
Proof. change 2047 with (Z.ones 11). by rewrite Z.land_ones. Qed.
Lemma land_65535 x : Z.land x 65535 = x mod 65536.
Proof. change 65535 with (Z.ones 16). by rewrite Z.land_ones. Qed.
Lemma land_63 x : Z.land x 63 = x mod 64.
Proof. change 63 with (Z.ones 6). by rewrite Z.land_ones. Qed.

(** [a << 6 | b]. *)
Lemma lor_6 a b : 0 <= b < 64 -> Z.lor (Z.shiftl a Bitx) b = b + a * 64.
Proof. intros. rewrite Z.lor_comm. by rewrite lor_shiftl_add. Qed.

(** Decide the comparisons of a goal. *)
Ltac zcases :=
  repeat match goal with
    | |- context [?a <? ?b] => destruct (Z.ltb_spec a b); try lia
    | |- context [?a <=? ?b] => destruct (Z.leb_spec a b); try lia
    | |- context [?a =? ?b] => destruct (Z.eqb_spec a b); try lia
    end; cbn [andb orb negb]; try done.

Lemma chartorune_first m p :
  chartorune m p = first_rune (rd8 m p) (rd8 m (p + 1)) (rd8 m (p + 2)).
Proof.
  unfold chartorune, first_rune.
  set (b := rd8 m p). set (c := rd8 m (p + 1)). set (d := rd8 m (p + 2)).
  assert (0 <= b < 256) as Hb by apply rd8_range.
  destruct (tail_byte c) as [Ec Vc]; [apply rd8_range|].
  destruct (tail_byte d) as [Ed Vd]; [apply rd8_range|].
  rewrite Ec, Ed. unfold Tx, T2, T3, T4, Rune1, Rune2, Rune3 in *.
  destruct (Z.ltb_spec b 128); [done|].
  destruct (tailb c) eqn:Tc; cbn [negb andb]; [|done].
  rewrite Vc by done. apply tailb_spec in Tc.
  destruct (Z.ltb_spec b 224).
  - rewrite lor_6, land_2047 by lia.
    assert (192 <= b -> (c - 128 + b * 64) mod 2048 = (b - 192) * 64 + (c - 128)) as E by zlia.
    destruct (Z.ltb_spec b 192); [|rewrite E by done]; clear E; destruct (tailb d); zcases.
  - replace (194 <=? b) with true by (symmetry; apply Z.leb_le; lia). cbn [andb].
    destruct (tailb d) eqn:Td; cbn [negb andb]; [|done].
    rewrite Vd by done. apply tailb_spec in Td. rewrite !lor_6, land_65535 by lia.
    assert (b < 240 -> (d - 128 + (c - 128 + b * 64) * 64) mod 65536 =
      (b - 224) * 4096 + (c - 128) * 64 + (d - 128)) as E by zlia.
    destruct (Z.ltb_spec b 240); [rewrite E by done|]; clear E; zcases.
Qed.

(** ** Runes of a string *)

Lemma first_rune_len b c d r n : first_rune b c d = (r, n) -> 1 <= n <= 3.
Proof. unfold first_rune. intros H. repeat case_match; simplify_eq; lia. Qed.

Lemma runes_from_drop k l : runes_from k l = runes (drop k l).
Proof. revert k. induction l as [|b l IH]; intros [|k]; [done..|apply IH]. Qed.

Lemma cstr_hd m p l : cstr m p l -> rd8 m p = hd 0 l.
Proof. intros [H _]. destruct l; by apply bytes_at_cons in H as [H _]. Qed.

Lemma first_rune_lead b c d d' : tailb c = false -> first_rune b c d = first_rune b c d'.
Proof. intros H. unfold first_rune. by rewrite H. Qed.

Lemma chartorune_head m p b l :
  cstr m p (b :: l) -> chartorune m p = first_rune b (hd 0 l) (hd 0 (tl l)).
Proof.
  intros (Eb & _ & S)%cstr_cons. rewrite chartorune_first, Eb, (cstr_hd m (p + 1) l) by done.
  destruct l as [|c l]; [by apply first_rune_lead|].
  apply cstr_cons in S as (_ & _ & S). replace (p + 2) with (p + 1 + 1) by lia.
  by rewrite (cstr_hd _ _ _ S).
Qed.

(** The bytes that a rune takes. *)
Lemma first_rune_tail b l r n :
  first_rune b (hd 0 l) (hd 0 (tl l)) = (r, n) ->
  n <= 1 + zlen l /\ Forall (fun x => tailb x = true) (take (Z.to_nat (n - 1)) l).
Proof.
  pose proof (zlen_nonneg l).
  assert (forall x, tailb (hd 0 x) = true -> exists y, x = hd 0 x :: y) as T
    by (intros [|y x]; [done|eauto]).
  unfold first_rune. intros E.
  destruct (b <? 128); [simplify_eq; by split; [lia|constructor]|].
  destruct (tailb (hd 0 l)) eqn:Tc; cbn [andb] in E; [|simplify_eq; by split; [lia|constructor]].
  destruct (T l Tc) as [y Ey]. rewrite Ey in *. cbn [hd tl] in *. rewrite zlen_cons in *.
  pose proof (zlen_nonneg y).
  destruct ((194 <=? b) && (b <? 224)); [simplify_eq; split; [lia|by repeat constructor]|].
  destruct (tailb (hd 0 y)) eqn:Td; cbn [andb] in E; [|simplify_eq; by split; [lia|constructor]].
  destruct (T y Td) as [z ->]. rewrite zlen_cons in *. pose proof (zlen_nonneg z).
  case_match; simplify_eq; split; try lia; by repeat constructor.
Qed.

Lemma cstr_drop m p l k : cstr m p l -> (k <= length l)%nat -> cstr m (p + Z.of_nat k) (drop k l).
Proof.
  revert p l. induction k as [|k IH]; intros p l C L; [by rewrite Z.add_0_r|].
  destruct l as [|b l]; simpl in *; [lia|]. apply cstr_cons in C as (_ & _ & C).
  replace (p + Z.of_nat (S k)) with (p + 1 + Z.of_nat k) by lia. apply IH; [done|lia].
Qed.

(** The head of a string in memory: its rune, and the next string. *)
Lemma rune_head m p b l :
  cstr m p (b :: l) ->
  exists r n, chartorune m p = (r, n) /\ first_rune b (hd 0 l) (hd 0 (tl l)) = (r, n) /\
    1 <= n <= 1 + zlen l /\
    runes (b :: l) = (r, n) :: runes (drop (Z.to_nat (n - 1)) l) /\
    cstr m (p + n) (drop (Z.to_nat (n - 1)) l).
Proof.
  intros S. pose proof (chartorune_head _ _ _ _ S) as E.
  destruct (first_rune b (hd 0 l) (hd 0 (tl l))) as [r n] eqn:F.
  pose proof (first_rune_len _ _ _ _ _ F). destruct (first_rune_tail _ _ _ _ F) as [L _].
  exists r, n. split_and!; try done; try lia.
  - cbn [runes_from]. by rewrite F, runes_from_drop.
  - apply cstr_cons in S as (_ & _ & S).
    apply (cstr_drop _ _ _ (Z.to_nat (n - 1))) in S; [|unfold zlen in L; lia].
    by replace (p + n) with (p + 1 + Z.of_nat (Z.to_nat (n - 1))) by lia.
Qed.

(** Only a one-byte rune is less than 128. *)
Lemma first_rune_small b c d r n :
  first_rune b c d = (r, n) -> 0 <= b -> (b < 128 /\ r = b /\ n = 1) \/ (128 <= b /\ 128 <= r).
Proof.
  unfold first_rune. intros F ?.
  destruct (Z.ltb_spec b 128); [left; by simplify_eq|right; split; [done|]].
  destruct (tailb c) eqn:Tc; cbn [andb] in F; [apply tailb_spec in Tc|by simplify_eq].
  revert F. unfold Bad, Runeerror. zcases; intros F; repeat case_match; simplify_eq; lia.
Qed.

(** ** The loops over the runes of a string *)

Lemma cstr_fuel m p s : cstr m p s -> (length s < fuel_of m)%nat.
Proof.
  intros [B N]. apply bytes_at_app in B as [B _].
  pose proof (nonzero_run_size m p s B N). unfold fuel_of. lia.
Qed.

Lemma length_drop_lt {A} k b (l : list A) f :
  (length (b :: l) < S f)%nat -> (length (drop k l) < f)%nat.
Proof. rewrite length_drop. simpl. lia. Qed.
#[export] Hint Resolve cstr_fuel length_drop_lt : lp49.

Lemma rd8_nil m p : cstr m p [] -> rd8 m p = 0.
Proof. by intros ?%cstr_hd. Qed.

(** What a loop over runes sees of the head of its string. *)
Lemma rune_cases m p b l :
  cstr m p (b :: l) ->
  exists r n, chartorune m p = (r, n) /\ rd8 m p = b /\ b <> 0 /\ 0 <= b < 256 /\
    1 <= n <= 1 + zlen l /\
    runes (b :: l) = (r, n) :: runes (drop (Z.to_nat (n - 1)) l) /\
    cstr m (p + n) (drop (Z.to_nat (n - 1)) l) /\
    (b < 128 /\ r = b /\ n = 1 \/ 128 <= b /\ 128 <= r).
Proof.
  intros S. destruct (rune_head _ _ _ _ S) as (r & n & E & F & L & R & S').
  apply cstr_cons in S as (Eb & Hb & _). pose proof (rd8_range m p).
  exists r, n. split_and!; try done; try lia.
  eapply first_rune_small; [done|lia].
Qed.

Lemma utflen_loop_spec fuel m p s n :
  cstr m p s -> (length s < fuel)%nat ->
  utflen_loop fuel m p n = Some (n + zlen (runes s)).
Proof.
  revert p s n. induction fuel as [|f IH]; intros p s n C L; [lia|]. cbn [utflen_loop].
  destruct s as [|b l].
  - rewrite (rd8_nil _ _ C). simpl. by rewrite zlen_nil, Z.add_0_r.
  - destruct (rune_cases _ _ _ _ C) as (r & k & -> & -> & Hb & _ & Hk & -> & C' & Hr).
    unfold Runeself. rewrite zlen_cons.
    destruct Hr as [(Hb' & -> & ->)|[Hb' Hr]]; zcases; cbn [snd];
      rewrite (IH _ _ _ C') by eauto with lp49; f_equal; lia.
Qed.

Lemma utflen_spec m p s : cstr m p s -> utflen m p = Some (zlen (runes s)).
Proof. intros C. unfold utflen. rewrite (utflen_loop_spec _ _ _ s) by eauto with lp49. done. Qed.

Lemma utfrune_loop_spec fuel m p s c :
  cstr m p s -> (length s < fuel)%nat -> 0 < p ->
  utfrune_loop fuel m p c = Some (first_at p c (runes s)).
Proof.
  revert p s. induction fuel as [|f IH]; intros p s C L P; [lia|]. cbn [utfrune_loop].
  destruct s as [|b l].
  - rewrite (rd8_nil _ _ C). done.
  - destruct (rune_cases _ _ _ _ C) as (r & k & -> & -> & Hb & _ & Hk & -> & C' & Hr).
    unfold Runeself. cbn [first_at].
    destruct Hr as [(Hb' & -> & ->)|[Hb' Hr]]; zcases; apply IH; eauto with lp49; lia.
Qed.

Lemma utfrrune_loop_spec fuel m p s c s1 :
  cstr m p s -> (length s < fuel)%nat ->
  utfrrune_loop fuel m p c s1 = Some (last_at p c s1 (runes s)).
Proof.
  revert p s s1. induction fuel as [|f IH]; intros p s s1 C L; [lia|]. cbn [utfrrune_loop].
  destruct s as [|b l].
  - rewrite (rd8_nil _ _ C). done.
  - destruct (rune_cases _ _ _ _ C) as (r & k & -> & -> & Hb & _ & Hk & -> & C' & Hr).
    unfold Runeself. cbn [last_at].
    destruct Hr as [(Hb' & -> & ->)|[Hb' Hr]]; zcases; apply IH; eauto with lp49.
Qed.

(** ** The string functions *)

(** The index of the first byte [c]. *)
Fixpoint byte_at (p c : Z) (s : list Z) : Z :=
  match s with
  | [] => 0
  | b :: s' => if b =? c then p else byte_at (p + 1) c s'
  end.

Lemma s8_inj a b : 0 <= a < 256 -> 0 <= b < 256 -> (s8 a =? s8 b) = (a =? b).
Proof. intros. apply Bool.eq_iff_eq_true. rewrite !Z.eqb_eq. split; [|by intros ->]. zlia. Qed.

Lemma s8_0 a : 0 <= a < 256 -> (s8 a =? 0) = (a =? 0).
Proof. intros. by rewrite <- (s8_inj a 0) by lia. Qed.

Lemma u8_s8 c : u8 (s8 c) = u8 c.
Proof. zlia. Qed.
Lemma s8_u8 c : s8 (u8 c) = s8 c.
Proof. zlia. Qed.

Lemma strchr_loop_spec fuel m p s c :
  cstr m p s -> (length s < fuel)%nat ->
  strchr_loop fuel m p (s8 c) = Some (byte_at p (u8 c) s).
Proof.
  revert p s. induction fuel as [|f IH]; intros p s C L; [lia|]. cbn [strchr_loop]. unfold chr.
  pose proof (rd8_range m p). rewrite s8_0, <- (s8_u8 c), s8_inj by (done || apply u8_range).
  destruct s as [|b l].
  - by rewrite (rd8_nil _ _ C).
  - apply cstr_cons in C as (-> & Hb & C). cbn [byte_at]. simpl in L. zcases.
    rewrite s8_u8. apply IH; [done|lia].
Qed.

Lemma strchr_spec m p s c : cstr m p s -> c <> 0 -> strchr m p c = Some (byte_at p (u8 c) s).
Proof.
  intros C N. unfold strchr. destruct (Z.eqb_spec c 0); [done|].
  apply strchr_loop_spec; eauto with lp49.
Qed.

(** Induction over the runes of a string. *)
Lemma string_ind (P : list Z -> Prop) :
  (forall s, (forall s', (length s' < length s)%nat -> P s') -> P s) -> forall s, P s.
Proof. intros H. apply (induction_ltof1 _ (@length Z)). exact H. Qed.

Lemma byte_at_skip p c k l :
  Forall (fun b => b <> c) (take k l) -> (k <= length l)%nat ->
  byte_at p c l = byte_at (p + Z.of_nat k) c (drop k l).
Proof.
  revert p l. induction k as [|k IH]; intros p l H L; [by rewrite Z.add_0_r|].
  destruct l as [|b l]; simpl in *; [lia|]. apply Forall_cons_1 in H as [H1 H].
  rewrite (IH (p + 1) l) by (done || lia). zcases. f_equal; lia.
Qed.

Lemma tails_small c k l :
  c < 128 -> Forall (fun x => tailb x = true) (take k l) -> Forall (fun b => b <> c) (take k l).
Proof. intros Hc. apply Forall_impl. intros b ?%tailb_spec. lia. Qed.

(** The bytes of a rune that follow its first. *)
Lemma rune_tail m p b l r n :
  cstr m p (b :: l) -> chartorune m p = (r, n) ->
  Forall (fun x => tailb x = true) (take (Z.to_nat (n - 1)) l).
Proof.
  intros C E. rewrite (chartorune_head _ _ _ _ C) in E. by apply first_rune_tail in E as [_ ?].
Qed.

Lemma byte_at_first_at m p c s :
  cstr m p s -> 0 < c < 128 -> byte_at p c s = first_at p c (runes s).
Proof.
  intros C Hc. revert p C. induction s as [s IH] using string_ind; intros p C.
  destruct s as [|b l]; [done|].
  destruct (rune_cases _ _ _ _ C) as (r & n & E & _ & Hb & _ & Hn & -> & C' & Hr).
  pose proof (rune_tail _ _ _ _ _ _ C E) as T. cbn [byte_at first_at].
  assert (r = c <-> b = c) as Hrc by lia. zcases; try (exfalso; tauto).
  rewrite (byte_at_skip _ _ (Z.to_nat (n - 1)) l) by
    ((apply tails_small; [lia|done]) || (unfold zlen in Hn; lia)).
  replace (p + 1 + Z.of_nat (Z.to_nat (n - 1))) with (p + n) by lia.
  apply IH; [|done]. rewrite length_drop. simpl. lia.
Qed.

Lemma utfrune_spec m p s c :
  cstr m p s -> 0 < p -> 0 < c -> utfrune m p c = Some (first_at p c (runes s)).
Proof.
  intros C P Hc. unfold utfrune, Runesync. destruct (Z.ltb_spec c 128).
  - rewrite (strchr_spec _ _ s) by (done || lia). rewrite u8_small by lia.
    f_equal. eapply byte_at_first_at; [done|lia].
  - apply utfrune_loop_spec; eauto with lp49.
Qed.

(** The address of the last byte [c]. *)
Fixpoint last_byte (p c s1 : Z) (s : list Z) : Z :=
  match s with
  | [] => s1
  | b :: s' => last_byte (p + 1) c (if b =? c then p else s1) s'
  end.

Lemma byte_at_cases p c s : 0 < p ->
  (byte_at p c s = 0 /\ (c ∉ s)) \/
  exists pre post, s = pre ++ c :: post /\ (c ∉ pre) /\ byte_at p c s = p + zlen pre.
Proof.
  revert p. induction s as [|b s IH]; intros p P; [left; split; [done|apply not_elem_of_nil]|].
  cbn [byte_at]. destruct (Z.eqb_spec b c) as [->|N].
  - right. exists [], s. rewrite zlen_nil. split_and!; [done|apply not_elem_of_nil|lia].
  - destruct (IH (p + 1)) as [[E M]|(pre & post & -> & M & E)]; [lia|left|right].
    + rewrite E. split; [done|]. by apply not_elem_of_cons.
    + exists (b :: pre), post. rewrite E, zlen_cons. split_and!; [done| |lia]. by apply not_elem_of_cons.
Qed.

Lemma last_byte_skip p c s1 pre post :
  c ∉ pre -> last_byte p c s1 (pre ++ post) = last_byte (p + zlen pre) c s1 post.
Proof.
  revert p. induction pre as [|b pre IH]; intros p N; [by rewrite zlen_nil, Z.add_0_r|].
  apply not_elem_of_cons in N as [N1 N]. cbn [app last_byte]. zcases.
  rewrite IH, zlen_cons by done. f_equal; lia.
Qed.

Lemma cstr_app m p l k : cstr m p (l ++ k) -> cstr m (p + zlen l) k.
Proof.
  intros C. apply (cstr_drop _ _ _ (length l)) in C; [|rewrite length_app; lia].
  by rewrite drop_app_length in C.
Qed.

Lemma strrchr_loop_spec fuel m p s c s1 :
  cstr m p s -> (length s < fuel)%nat -> 0 < p -> 0 < c < 128 ->
  strrchr_loop fuel m p c s1 = Some (last_byte p c s1 s).
Proof.
  revert p s s1. induction fuel as [|f IH]; intros p s s1 C L P Hc; [lia|]. cbn [strrchr_loop].
  rewrite (strchr_spec _ _ s), u8_small by (done || lia).
  destruct (byte_at_cases p c s P) as [[-> M]|(pre & post & -> & M & ->)].
  - pose proof (last_byte_skip p c s1 s [] M) as E. rewrite app_nil_r in E. by rewrite E.
  - pose proof (zlen_nonneg pre). destruct (Z.eqb_spec (p + zlen pre) 0); [lia|].
    rewrite last_byte_skip by done. cbn [last_byte]. rewrite Z.eqb_refl.
    apply IH; try lia; [|rewrite length_app in L; simpl in L; lia].
    apply cstr_app in C. by apply cstr_cons in C as (_ & _ & ?).
Qed.

Lemma last_byte_last_at m p c s s1 :
  cstr m p s -> 0 < c < 128 -> last_byte p c s1 s = last_at p c s1 (runes s).
Proof.
  intros C Hc. revert p s1 C. induction s as [s IH] using string_ind; intros p s1 C.
  destruct s as [|b l]; [done|].
  destruct (rune_cases _ _ _ _ C) as (r & n & E & _ & Hb & _ & Hn & -> & C' & Hr).
  pose proof (rune_tail _ _ _ _ _ _ C E) as T. cbn [last_byte last_at].
  assert ((b =? c) = (r =? c)) as -> by (apply Bool.eq_iff_eq_true; rewrite !Z.eqb_eq; lia).
  rewrite <- (take_drop (Z.to_nat (n - 1)) l) at 1. rewrite last_byte_skip.
  - unfold zlen in *. rewrite length_take, Nat.min_l by lia.
    replace (p + 1 + Z.of_nat (Z.to_nat (n - 1))) with (p + n) by lia.
    apply IH; [|done]. rewrite length_drop. simpl. lia.
  - intros I. apply (tails_small c) in T; [|lia]. rewrite Forall_forall in T.
    by apply (T c); [apply list_elem_of_In|].
Qed.

Lemma utfrrune_spec m p s c :
  cstr m p s -> 0 < p -> 0 < c -> utfrrune m p c = Some (last_at p c 0 (runes s)).
Proof.
  intros C P Hc. unfold utfrrune, strrchr, Runesync. destruct (Z.ltb_spec c 128).
  - destruct (Z.eqb_spec c 0); [lia|]. rewrite (strrchr_loop_spec _ _ _ s) by (eauto with lp49; lia).
    f_equal. eapply last_byte_last_at; [done|lia].
  - apply utfrrune_loop_spec; eauto with lp49.
Qed.

(** ** Finding a string in a string *)

(** The address of the first place in [s] where [pat] stands. *)
Fixpoint found_at (p : Z) (pat s : list Z) : Z :=
  if decide (pat `prefix_of` s) then p
  else match s with [] => 0 | _ :: s' => found_at (p + 1) pat s' end.

Lemma found_at_prefix p pat s : pat `prefix_of` s -> found_at p pat s = p.
Proof. intros H. destruct s; cbn [found_at]; by rewrite decide_True. Qed.

Lemma prefix_head {A} (b : A) pat s : (b :: pat) `prefix_of` s -> exists s', s = b :: s'.
Proof. intros [k ->]. eauto. Qed.

(** A stretch without the first byte of [pat] is passed over. *)
Lemma found_at_skip p b pat pre post :
  b ∉ pre -> found_at p (b :: pat) (pre ++ post) = found_at (p + zlen pre) (b :: pat) post.
Proof.
  revert p. induction pre as [|c pre IH]; intros p N; [by rewrite zlen_nil, Z.add_0_r|].
  apply not_elem_of_cons in N as [N1 N]. cbn [app found_at]. rewrite decide_False.
  - rewrite IH, zlen_cons by done. f_equal; lia.
  - intros [? [=]]%prefix_head. congruence.
Qed.

Lemma found_at_none p b pat s : b ∉ s -> found_at p (b :: pat) s = 0.
Proof.
  intros N. rewrite <- (app_nil_r s), found_at_skip by done. cbn [found_at].
  rewrite decide_False; [done|]. by intros [? [=]]%prefix_head.
Qed.

Lemma strstr_match_spec fuel m pa pb s pat b :
  cstr m pa (b :: s) -> cstr m pb pat -> (length pat < fuel)%nat ->
  strstr_match fuel m pa pb = Some (bool_decide (pat `prefix_of` s)).
Proof.
  revert pa pb s pat b. induction fuel as [|f IH]; intros pa pb s pat b C D L; [lia|].
  apply cstr_cons in C as (_ & _ & C). cbn [strstr_match]. unfold chr.
  rewrite s8_0, s8_inj by apply rd8_range. destruct pat as [|x pat].
  - rewrite (rd8_nil _ _ D). by rewrite bool_decide_true by apply prefix_nil.
  - apply cstr_cons in D as (-> & Hx & D). simpl in L. destruct (Z.eqb_spec x 0); [done|].
    destruct s as [|y s].
    + rewrite (rd8_nil _ _ C). destruct (Z.eqb_spec x 0); [done|]. cbn [negb].
      rewrite bool_decide_false; [done|]. by intros [? [=]]%prefix_head.
    + pose proof C as C'. apply cstr_cons in C' as (-> & _ & _).
      destruct (Z.eqb_spec x y) as [->|N]; cbn [negb].
      * rewrite (IH _ _ s pat y) by (done || lia). f_equal. apply bool_decide_ext.
        split; [apply prefix_cons|apply prefix_cons_inv_2].
      * rewrite bool_decide_false; [done|]. by intros ?%prefix_cons_inv_1.
Qed.

Lemma byte_at_found p c pat s :
  0 < p ->
  (byte_at p c s = 0 /\ found_at p (c :: pat) s = 0) \/
  exists pre post, s = pre ++ c :: post /\ byte_at p c s = p + zlen pre /\
    found_at p (c :: pat) s = found_at (p + zlen pre) (c :: pat) (c :: post).
Proof.
  intros P. destruct (byte_at_cases p c s P) as [[E N]|(pre & post & -> & N & E)].
  - left. by rewrite found_at_none.
  - right. exists pre, post. by rewrite found_at_skip.
Qed.

Lemma strstr_loop_spec fuel m p s s2 c pat :
  cstr m p s -> cstr m s2 pat -> 0 < c < 256 -> (length s < fuel)%nat -> 0 < p ->
  strstr_loop fuel m (byte_at p c s) s2 (s8 c) = Some (found_at p (c :: pat) s).
Proof.
  intros C D Hc. revert p s C. induction fuel as [|f IH]; intros p s C L P; [lia|].
  cbn [strstr_loop].
  destruct (byte_at_found p c pat s P) as [[-> ->]|(pre & post & -> & -> & ->)]; [done|].
  pose proof (zlen_nonneg pre). destruct (Z.eqb_spec (p + zlen pre) 0); [lia|].
  apply cstr_app in C. rewrite (strstr_match_spec _ _ _ _ post pat c) by eauto with lp49.
  destruct (bool_decide_reflect (pat `prefix_of` post)) as [F|F].
  - by rewrite found_at_prefix by by apply prefix_cons.
  - apply cstr_cons in C as (_ & _ & C).
    rewrite (strchr_spec _ _ post) by (done || zlia). rewrite u8_s8, u8_small by lia.
    rewrite (IH (p + zlen pre + 1) post) by (done || (rewrite length_app in L; simpl in L; lia) || lia).
    cbn [found_at]. rewrite decide_False; [done|]. by intros ?%prefix_cons_inv_2.
Qed.

Lemma strstr_spec m s1 s s2 pat :
  cstr m s1 s -> cstr m s2 pat -> 0 < s1 -> strstr m s1 s2 = Some (found_at s1 pat s).
Proof.
  intros C D P. unfold strstr, chr. pose proof (rd8_range m s2).
  rewrite s8_0 by done. destruct pat as [|c pat].
  - rewrite (rd8_nil _ _ D). by rewrite found_at_prefix by apply prefix_nil.
  - apply cstr_cons in D as (Ec & Hc & D). rewrite Ec in *. destruct (Z.eqb_spec c 0); [done|].
    rewrite (strchr_spec _ _ s) by (done || zlia). rewrite u8_s8, u8_small by lia.
    apply strstr_loop_spec; eauto with lp49; lia.
Qed.

Lemma strncmp_spec m p q s pat :
  cstr m p s -> cstr m q pat ->
  (strncmp m p q (zlen pat) =? 0) = bool_decide (pat `prefix_of` s).
Proof.
  unfold strncmp, zlen. rewrite Nat2Z.id. revert p q s.
  induction pat as [|x pat IH]; intros p q s C D; [by rewrite bool_decide_true by apply prefix_nil|].
  apply cstr_cons in D as (Ex & Hx & D). cbn [length strncmp_loop]. unfold chr.
  pose proof (rd8_range m p) as Rp. pose proof (rd8_range m q) as Rq.
  assert (forall a b, 0 <= a < 256 -> 0 <= b < 256 -> (u32 (s8 a) =? u32 (s8 b)) = (a =? b)) as U.
  { intros a b ??. apply Bool.eq_iff_eq_true. rewrite !Z.eqb_eq. split; [|by intros ->]. zlia. }
  rewrite U, Ex by done. destruct (Z.eqb_spec (rd8 m p) x) as [E|N]; cbn [negb].
  - destruct s as [|y s]; [rewrite (rd8_nil _ _ C) in E; congruence|].
    apply cstr_cons in C as (Ey & Hy & C). assert (y = x) as -> by congruence.
    destruct (Z.eqb_spec (u32 (s8 (rd8 m p))) 0) as [Z0|_]; [exfalso; zlia|].
    rewrite (IH _ _ s) by done. apply bool_decide_ext.
    split; [apply prefix_cons|apply prefix_cons_inv_2].
  - rewrite bool_decide_false; [by case_match|].
    intros [s' ->]%prefix_head. by apply cstr_cons in C as (? & _ & _).
Qed.

Lemma first_rune_2 b c d d' r : first_rune b c d = (r, 2) -> first_rune b c d' = (r, 2).
Proof. unfold first_rune. intros. repeat case_match; simplify_eq; done. Qed.

(** A rune that is not [Bad] is told by its own bytes. *)
Lemma first_rune_prefix b pat s f n :
  first_rune b (hd 0 pat) (hd 0 (tl pat)) = (f, n) -> f <> Bad -> n <= 1 + zlen pat ->
  pat `prefix_of` s -> first_rune b (hd 0 s) (hd 0 (tl s)) = (f, n).
Proof.
  intros F N L [k ->]. pose proof (first_rune_len _ _ _ _ _ F).
  assert (n = 1 \/ n = 2 \/ n = 3) as [->|[->| ->]] by lia.
  - unfold first_rune in *. repeat case_match; simplify_eq; done.
  - destruct pat as [|c pat]; [by rewrite zlen_nil in L|]. simpl in *. by eapply first_rune_2.
  - destruct pat as [|c [|d pat]]; [done..|]. done.
Qed.

(** The length of a rune that is not [Bad]. *)
Lemma first_rune_length b c d f n b' c' d' n' :
  first_rune b c d = (f, n) -> first_rune b' c' d' = (f, n') -> 0 <= b -> 0 <= b' ->
  f <> Bad -> n = n'.
Proof.
  unfold first_rune. intros F F' Hb Hb' N.
  repeat case_match; simplify_eq; try lia; rewrite ?andb_true_iff, ?tailb_spec, ?Z.leb_le, ?Z.ltb_lt,
    ?Z.ltb_ge in *; lia.
Qed.

(** The next rune of a string where [pat] does not stand. *)
Lemma found_at_rune m p x l b pat r n :
  cstr m p (x :: l) -> chartorune m p = (r, n) -> 1 <= n <= 1 + zlen l -> tailb b = false ->
  ~ (b :: pat) `prefix_of` (x :: l) ->
  found_at p (b :: pat) (x :: l) = found_at (p + n) (b :: pat) (drop (Z.to_nat (n - 1)) l).
Proof.
  intros C E Hn Tb N. pose proof (rune_tail _ _ _ _ _ _ C E) as T.
  cbn [found_at]. rewrite decide_False by done.
  rewrite <- (take_drop (Z.to_nat (n - 1)) l) at 1. rewrite found_at_skip.
  - f_equal. unfold zlen in *. rewrite length_take. lia.
  - intros I. rewrite Forall_forall in T. rewrite (T b) in Tb; [done|by apply list_elem_of_In].
Qed.

Section Search.
Context (m : mem) (b : Z) (pat : list Z) (f n : Z).
Hypothesis Hfn : first_rune b (hd 0 pat) (hd 0 (tl pat)) = (f, n).
Hypothesis Hn : n <= 1 + zlen pat.
Hypothesis Hf : 128 <= f /\ f <> Bad.
Hypothesis Hb : 0 <= b.

Lemma lead_not_tail : tailb b = false.
Proof.
  destruct Hf as [H1 H2]. revert Hfn. unfold first_rune, tailb.
  destruct (Z.ltb_spec b 128); [intros [=]; lia|].
  intros F. destruct (Z.ltb_spec b 192); [|by rewrite andb_false_r].
  revert F. destruct (Z.leb_spec 194 b), (Z.leb_spec 224 b); try lia.
  rewrite !andb_false_r. cbn [andb]. intros [=]. congruence.
Qed.

Lemma prefix_rune s : (b :: pat) `prefix_of` s -> exists l, s = b :: l /\
  first_rune b (hd 0 l) (hd 0 (tl l)) = (f, n).
Proof.
  intros P. destruct (prefix_head _ _ _ P) as [l ->]. apply prefix_cons_inv_2 in P.
  exists l. split; [done|]. destruct Hf. by apply (first_rune_prefix b pat).
Qed.

Lemma first_found p s :
  cstr m p s -> 0 < p ->
  (first_at p f (runes s) = 0 /\ found_at p (b :: pat) s = 0) \/
  exists q x l, first_at p f (runes s) = q /\ found_at p (b :: pat) s = found_at q (b :: pat) (x :: l) /\
    cstr m q (x :: l) /\ p <= q /\ (length (x :: l) <= length s)%nat /\ chartorune m q = (f, n).
Proof.
  intros C P. revert p C P. induction s as [s IH] using string_ind; intros p C P.
  destruct s as [|x l].
  { left. split; [done|]. apply found_at_none, not_elem_of_nil. }
  destruct (rune_head _ _ _ _ C) as (r & k & E & F & Hk & R & C'). rewrite R. cbn [first_at].
  pose proof (rd8_range m p) as Rp. pose proof C as (Ex & _)%cstr_cons.
  destruct (Z.eqb_spec r f) as [->|N].
  - right. exists p, x, l. split_and!; try done; try lia. rewrite E. f_equal.
    eapply first_rune_length; [exact F|exact Hfn|lia|done|by destruct Hf].
  - rewrite (found_at_rune _ _ _ _ _ _ _ _ C E) by
      (done || apply lead_not_tail || intros (? & [= -> <-] & ?)%prefix_rune; congruence).
    destruct (IH (drop (Z.to_nat (k - 1)) l)) with (p := p + k)
      as [[-> ->]|(q & y & l' & <- & -> & D & L & S & D')]; [|done|lia|by left|].
    + rewrite length_drop. simpl. lia.
    + right. eexists _, y, l'. split_and!; try done; [lia|]. rewrite length_drop in S. simpl in *. lia.
Qed.

Lemma utfutf_loop_spec fuel s2 p s :
  cstr m s2 (b :: pat) -> cstr m p s -> 0 < p -> (length s < fuel)%nat ->
  utfutf_loop fuel m p f s2 n (zlen (b :: pat)) = Some (found_at p (b :: pat) s).
Proof.
  intros D. revert p s. induction fuel as [|fu IH]; intros p s C P L; [lia|]. cbn [utfutf_loop].
  rewrite (utfrune_spec m p s f) by (done || lia).
  destruct (first_found p s C P) as [[-> ->]|(q & x & l & -> & -> & Cq & Lq & Ll & E)]; [done|].
  destruct (Z.eqb_spec q 0); [lia|]. rewrite (strncmp_spec _ _ _ (x :: l)) by done.
  destruct (bool_decide_reflect ((b :: pat) `prefix_of` (x :: l))) as [F|F];
    [by rewrite found_at_prefix|].
  destruct (rune_head _ _ _ _ Cq) as (r & k & E' & _ & Hk & _ & C'). assert (k = n) as -> by congruence.
  rewrite (found_at_rune _ _ _ _ _ _ _ _ Cq E) by (done || apply lead_not_tail).
  apply IH; [done|lia|]. rewrite length_drop. simpl in *. lia.
Qed.
End Search.

Lemma first_rune_1 b c d c' d' : b < 128 -> first_rune b c d = first_rune b c' d'.
Proof. intros. unfold first_rune. zcases. Qed.

Lemma utfutf_spec m s1 s s2 pat :
  cstr m s1 s -> cstr m s2 pat -> 0 < s1 -> fst (chartorune m s2) <> Bad ->
  utfutf m s1 s2 = Some (found_at s1 pat s).
Proof.
  intros C D P N. unfold utfutf, Runesync. destruct (chartorune m s2) as [f n] eqn:E.
  destruct (Z.leb_spec f 128); [by apply strstr_spec|].
  destruct pat as [|b pat].
  { rewrite chartorune_first, (rd8_nil _ _ D) in E. unfold first_rune in E. simpl in E. by simplify_eq. }
  destruct (rune_head _ _ _ _ D) as (r & k & E' & F & Hk & _ & _). rewrite E in E'. simplify_eq.
  pose proof (rd8_range m s2). pose proof D as (Eb & _)%cstr_cons.
  rewrite (strlen_spec _ _ _ D). apply utfutf_loop_spec; eauto with lp49; try lia.
  by split; [lia|].
Qed.

(** ** Encoded strings *)

Definition enc_runes (rs : list Z) : list Z := concat (map enc_rune rs).

(** Store the runes [rs] one after the other from [p] on. *)
Fixpoint put_runes (m : mem) (p : Z) (rs : list Z) : Z * mem :=
  match rs with
  | [] => (p, m)
  | r :: rs' => let '(n, m') := runetochar m p r in put_runes m' (p + n) rs'
  end.

(** Runes that a string can hold. *)
Definition str_rune (r : Z) : Prop := 0 < r < 65536.
#[export] Instance str_rune_dec r : Decision (str_rune r).
Proof. unfold str_rune. apply _. Defined.

Lemma zlen_enc_rune r : 1 <= zlen (enc_rune r) <= 3.
Proof. unfold enc_rune. repeat case_match; rewrite !zlen_cons, zlen_nil; lia. Qed.

Lemma lor_high a b n w k :
  0 <= n -> 2 ^ n = w -> k = b * w -> 0 <= a < w -> Z.lor k a = k + a.
Proof.
  intros Hn <- -> Ha. rewrite <- Z.shiftl_mul_pow2, Z.lor_comm, lor_shiftl_add by done.
  rewrite Z.shiftl_mul_pow2 by done. lia.
Qed.

Lemma runetochar_spec m p r : 0 <= r < 65536 ->
  runetochar m p r = (zlen (enc_rune r), st_bytes m p (enc_rune r)).
Proof.
  intros Hr. unfold runetochar, enc_rune, Rune1, Rune2, T2, T3, Tx, Bitx, Maskx.
  change (1 * 6) with 6. change (2 * 6) with 12.
  rewrite !Z.shiftr_div_pow2, !land_63 by done.
  change (2 ^ 6) with 64. change (2 ^ 12) with 4096.
  rewrite !(lor_high _ 2 6 64 128) by (done || zlia).
  zcases; cbn [st_bytes]; f_equal.
  - by rewrite (lor_high _ 6 5 32 192) by (done || zlia).
  - rewrite (lor_high _ 14 4 16 224) by (done || zlia).
    by replace (p + 1 + 1) with (p + 2) by lia.
Qed.

Lemma first_rune_enc r l : 0 <= r < 65536 ->
  exists b t, enc_rune r ++ l = b :: t /\ drop (Z.to_nat (zlen (enc_rune r) - 1)) t = l /\
    first_rune b (hd 0 t) (hd 0 (tl t)) = (r, zlen (enc_rune r)).
Proof.
  intros Hr. unfold enc_rune. zcases; cbn [app]; eexists _, _; split_and!; try reflexivity;
    unfold first_rune, tailb; cbn [hd tl].
  - zcases.
  - zcases; try (exfalso; zlia); f_equal; zlia.
  - zcases; try (exfalso; zlia); f_equal; zlia.
Qed.

Lemma runes_enc_rune r l : 0 <= r < 65536 ->
  runes (enc_rune r ++ l) = (r, zlen (enc_rune r)) :: runes l.
Proof.
  intros Hr. destruct (first_rune_enc r l Hr) as (b & t & -> & D & F).
  cbn [runes_from]. by rewrite F, runes_from_drop, D.
Qed.

Lemma runes_enc rs : Forall str_rune rs ->
  runes (enc_runes rs) = map (fun r => (r, zlen (enc_rune r))) rs.
Proof.
  unfold str_rune. induction 1 as [|r rs Hr _ IH]; [done|]. unfold enc_runes in *. cbn [map concat].
  rewrite runes_enc_rune, IH by lia. done.
Qed.

Lemma enc_rune_bytes r : str_rune r -> byte_list (enc_rune r) /\ Forall (fun b => b <> 0) (enc_rune r).
Proof.
  unfold str_rune. intros Hr. unfold enc_rune. zcases; split; repeat constructor; zlia.
Qed.

Lemma enc_runes_bytes rs : Forall str_rune rs ->
  byte_list (enc_runes rs) /\ Forall (fun b => b <> 0) (enc_runes rs).
Proof.
  induction 1 as [|r rs Hr _ [IH1 IH2]]; [by split|]. apply enc_rune_bytes in Hr as [H1 H2].
  unfold enc_runes in *. cbn [map concat]. split; by apply Forall_app.
Qed.

Lemma put_runes_spec m p rs : Forall str_rune rs ->
  put_runes m p rs = (p + zlen (enc_runes rs), st_bytes m p (enc_runes rs)).
Proof.
  intros H. revert m p. induction H as [|r rs Hr _ IH]; intros m p; [by rewrite Z.add_0_r|].
  cbn [put_runes]. unfold str_rune in Hr. rewrite runetochar_spec by lia.
  unfold enc_runes in *. cbn [map concat]. rewrite IH, zlen_app, st_bytes_app. f_equal. lia.
Qed.

(** [fullrune] on an encoded rune: are all its bytes among the first [k]? *)
Lemma fullrune_enc m p r l k :
  str_rune r -> cstr m p (enc_rune r ++ l) -> fullrune m p k = (zlen (enc_rune r) <=? k).
Proof.
  intros Hr C. unfold str_rune in Hr.
  unfold fullrune, enc_rune, Tx, T3 in *. apply cstr_hd in C. rewrite C.
  zcases; cbn [hd app] in *; rewrite !zlen_cons, zlen_nil in *;
    try (exfalso; zlia); done || lia.
Qed.

Lemma utfnlen_loop_spec fuel m p rs es n :
  Forall str_rune rs -> cstr m p (enc_runes rs) -> (length (enc_runes rs) < fuel)%nat ->
  utfnlen_loop fuel m p es n = Some (n + fitting (es - p) (runes (enc_runes rs))).
Proof.
  intros Hrs. revert p rs n Hrs. induction fuel as [|f IH]; intros p rs n Hrs C L; [lia|].
  cbn [utfnlen_loop]. destruct Hrs as [|r rs Hr Hrs].
  { rewrite (rd8_nil _ _ C). simpl. unfold Runeself. zcases; f_equal; lia. }
  unfold enc_runes in *. cbn [map concat] in *. pose proof (zlen_enc_rune r) as Hz.
  pose proof Hr as Hr'. unfold str_rune in Hr'.
  rewrite runes_enc_rune by lia. cbn [fitting]. pose proof (fullrune_enc _ _ _ _ (es - p) Hr C) as F.
  assert (exists b t, enc_rune r ++ concat (map enc_rune rs) = b :: t /\ (b < 128 -> zlen (enc_rune r) = 1) /\
    chartorune m p = (r, zlen (enc_rune r))) as (b & t & Eb & Hb & E).
  { destruct (first_rune_enc r (concat (map enc_rune rs))) as (b & t & Eb & _ & Fr); [lia|].
    exists b, t. rewrite Eb in C. rewrite (chartorune_head _ _ _ _ C). split_and!; try done.
    intros Hb. unfold first_rune in Fr. revert Fr. zcases. intros [=]. lia. }
  rewrite E, F. cbn [snd]. pose proof (cstr_app _ _ _ _ C) as C'.
  assert (length (concat (map enc_rune rs)) < f)%nat as L'.
  { rewrite length_app in L. unfold zlen in Hz. lia. }
  assert (rd8 m p = b /\ b <> 0) as [-> Nb] by (rewrite Eb in C; apply cstr_cons in C; tauto).
  unfold Runeself. destruct (Z.leb_spec es p); [by zcases; rewrite Z.add_0_r|].
  destruct (Z.ltb_spec b 128).
  - rewrite (Hb ltac:(lia)) in *. zcases. rewrite (IH _ rs) by done. f_equal.
    replace (es - (p + 1)) with (es - p - 1) by lia. lia.
  - destruct (Z.leb_spec (zlen (enc_rune r)) (es - p)); cbn [negb]; [|by rewrite Z.add_0_r].
    rewrite (IH _ rs) by done. f_equal.
    replace (es - (p + zlen (enc_rune r))) with (es - p - zlen (enc_rune r)) by lia. lia.
Qed.

Lemma utfnlen_spec m p rs k :
  Forall str_rune rs -> cstr m p (enc_runes rs) ->
  utfnlen m p k = Some (fitting k (runes (enc_runes rs))).
Proof.
  intros H C. unfold utfnlen. rewrite (utfnlen_loop_spec _ _ _ rs) by eauto with lp49.
  f_equal. rewrite Z.add_0_l. f_equal. lia.
Qed.

(** ** Copying a string into a buffer *)

Lemma wr8_0_st m p : wr8 m p 0 = st_bytes m p [0].
Proof. done. Qed.

Lemma memccpy_loop_spec n m a b s :
  cstr m b s -> byte_list s ->
  a + Z.min (Z.of_nat n) (zlen s + 1) <= b \/ b + zlen s + 1 <= a ->
  memccpy_loop n m a b 0 =
    if (length s <? n)%nat then (a + zlen s + 1, st_bytes m a (s ++ [0]))
    else (0, st_bytes m a (take n s)).
Proof.
  revert m a b s. induction n as [|n IH]; intros m a b s C B D; [done|]. cbn [memccpy_loop].
  destruct s as [|x s].
  - rewrite (rd8_nil _ _ C). simpl. f_equal. rewrite zlen_nil. lia.
  - pose proof C as C0. apply cstr_cons in C0 as (-> & Hx & C'). rewrite zlen_cons in *.
    apply Forall_cons_1 in B as [Bx B]. pose proof (zlen_nonneg s).
    destruct (Z.eqb_spec x 0); [done|]. rewrite (IH _ _ _ s); [| |done|lia].
    + change (length (x :: s) <? S n)%nat with (length s <? n)%nat.
      cbn [app take st_bytes]. by case_match; f_equal; lia.
    + apply (cstr_same_out a (a + 1) m); [apply wr8_same_out| |done]; lia.
Qed.

Lemma tail_land b : 0 <= b < 256 -> (Z.land b 192 =? 128) = tailb b.
Proof.
  intros Hb. pose proof (byte_cases (fun b => eqb (Z.land b 192 =? 128) (tailb b)) b eq_refl Hb) as H.
  by apply eqb_prop.
Qed.

Lemma utfecpy_back_spec n m e to :
  to <= e <= to + Z.of_nat n ->
  let fin := utfecpy_back n m e to in
  to <= fin <= e /\ (fin = to \/ fin < e /\ tailb (rd8 m fin) = false).
Proof.
  revert e. induction n as [|n IH]; intros e He; cbn [utfecpy_back]; [lia|].
  rewrite tail_land by apply rd8_range.
  destruct (Z.ltb_spec to e); cbn [andb]; [|lia].
  destruct (tailb (rd8 m (e - 1))) eqn:T; [|split; [lia|by right; split; [lia|]]].
  destruct (IH (e - 1)) as [H1 H2]; [lia|]. cbv zeta. split; [lia|]. destruct H2 as [|[]]; [by left|].
  right. by split; [lia|].
Qed.

(** A place where no rune goes on is the end of one. *)
Lemma enc_runes_cut rs j :
  Forall str_rune rs -> (j <= length (enc_runes rs))%nat ->
  j = 0%nat \/ tailb (nth j (enc_runes rs) 0) = false ->
  exists rs1 rs2, rs = rs1 ++ rs2 /\ take j (enc_runes rs) = enc_runes rs1.
Proof.
  intros H. revert j. induction H as [|r rs Hr Hrs IH]; intros j L D.
  { exists [], []. by destruct j. }
  destruct (decide (j = 0%nat)) as [->|Nj]; [by exists [], (r :: rs)|].
  destruct D as [|D]; [done|]. unfold enc_runes in *. cbn [map concat] in *.
  destruct (decide (length (enc_rune r) <= j)%nat) as [G|G].
  - rewrite app_nth2 in D by lia. rewrite length_app in L.
    destruct (IH (j - length (enc_rune r))%nat) as (rs1 & rs2 & -> & E); [lia|by right|].
    exists (r :: rs1), rs2. split; [done|]. rewrite take_app_ge by lia. by rewrite E.
  - rewrite app_nth1 in D by lia. exfalso. unfold str_rune in Hr.
    assert (forall b, 128 <= b < 192 -> tailb b = true) as T by (intros; by apply tailb_spec).
    revert D G. unfold enc_rune. zcases; cbn [length]; intros D G;
      destruct j as [|[|[|j]]]; try lia; cbn [nth] in D; rewrite T in D by zlia; done.
Qed.

Lemma st_bytes_at m p s : byte_list s -> Forall (fun b => b <> 0) s -> cstr (st_bytes m p (s ++ [0])) p s.
Proof.
  intros B N. split; [|done]. apply bytes_at_st_bytes. apply Forall_app. split; [done|]. by repeat constructor.
Qed.

Lemma bytes_at_nth m p l j :
  bytes_at m p l -> (j < length l)%nat -> rd8 m (p + Z.of_nat j) = nth j l 0.
Proof.
  revert p j. induction l as [|b l IH]; intros p j H L; [simpl in L; lia|].
  apply bytes_at_cons in H as [Hb H]. destruct j as [|j]; [by rewrite Z.add_0_r|].
  simpl in *. rewrite <- (IH (p + 1)) by (done || lia). f_equal. lia.
Qed.

Lemma utfecpy_spec m to e from rs :
  Forall str_rune rs -> cstr m from (enc_runes rs) -> 0 < to < e ->
  e <= from \/ from + zlen (enc_runes rs) + 1 <= to ->
  exists rs1 rs2, rs = rs1 ++ rs2 /\
    let '(fin, m') := utfecpy m to e from in
    fin = to + zlen (enc_runes rs1) /\ fin < e /\ cstr m' to (enc_runes rs1) /\
    same_out to e m m' /\ (zlen (enc_runes rs) < e - to -> rs2 = []).
Proof.
  intros Hrs C Le D. destruct (enc_runes_bytes _ Hrs) as [B N]. unfold utfecpy, memccpy.
  destruct (Z.leb_spec e to); [lia|]. change (Z.land 0 255) with 0.
  rewrite (memccpy_loop_spec _ _ _ _ _ C B) by lia. set (s := enc_runes rs) in *.
  pose proof (zlen_nonneg s). set (n := Z.to_nat (e - to)).
  destruct (Nat.ltb_spec (length s) n) as [G|G].
  - exists rs, []. rewrite app_nil_r. split; [done|].
    destruct (Z.eqb_spec (to + zlen s + 1) 0); [lia|]. fold s. unfold zlen in *.
    split_and!; [lia|lia|by apply st_bytes_at| |done].
    apply st_bytes_same_out; [lia|]. rewrite zlen_app. unfold zlen. simpl. lia.
  - change (0 =? 0) with true. cbv iota.
    set (m1 := st_bytes m to (take n s)). set (fin := utfecpy_back n m1 (e - 1) to).
    destruct (utfecpy_back_spec n m1 (e - 1) to) as [F1 F2]; [lia|]. fold fin in F1, F2.
    set (j := Z.to_nat (fin - to)).
    assert (bytes_at m1 to (take n s)) as A by (by apply bytes_at_st_bytes, Forall_take).
    assert (j < n)%nat as Lj by lia.
    assert (length (take n s) = n) as Ln by (rewrite length_take; lia).
    destruct (enc_runes_cut rs j Hrs) as (rs1 & rs2 & -> & E); [fold s; lia| |].
    { destruct F2 as [->|[_ T]]; [left; lia|right]. fold s.
      rewrite <- (take_drop n s), app_nth1, <- (bytes_at_nth _ _ _ _ A) by lia.
      by replace (to + Z.of_nat j) with fin by lia. }
    fold s in E. exists rs1, rs2. split; [done|]. rewrite <- E.
    assert (zlen (take j s) = fin - to) as Z1 by (unfold zlen; rewrite length_take; lia).
    rewrite Z1. split_and!; [lia|lia| | |unfold zlen in *; lia].
    + split; [|by apply Forall_take]. apply bytes_at_app. rewrite Z1. split.
      * replace (take j s) with (take j (take n s)) by (rewrite take_take; f_equal; lia).
        rewrite <- (take_drop j (take n s)) in A. apply bytes_at_app in A as [A _].
        eapply bytes_at_same_out; [apply (wr8_same_out _ fin _ fin (fin + 1)); lia| |exact A].
        left. rewrite take_take. replace (j `min` n)%nat with j by lia. lia.
      * apply bytes_at_cons. split; [|done]. replace (to + (fin - to)) with fin by lia.
        by rewrite rd8_wr8_eq.
    + transitivity m1; [|apply wr8_same_out; lia]. apply st_bytes_same_out; [lia|].
      unfold zlen. rewrite Ln. lia.
Qed.
