(* ===== verification/UtfThms.v ===== *)
(** What the UTF-8 functions of the C library promise: runes that are written are read
    back, the functions on strings are functions on the list of runes, copying cuts
    between runes; and a search that leaves its string. *)

From S2P Require Import Prelude Mem Utf UtfSpec.

(** Read runes from [p] on until the NUL. *)
Fixpoint get_runes (fuel : nat) (m : mem) (p : Z) : list Z :=
  match fuel with
  | O => []
  | S f =>
      let '(r, n) := chartorune m p in
      if r =? 0 then [] else r :: get_runes f m (p + n)
  end.

Lemma put_runes_string m p rs :
  Forall str_rune rs ->
  put_runes m p (rs ++ [0]) =
    (p + zlen (enc_runes rs) + 1, st_bytes m p (enc_runes rs ++ [0])).
Proof.
  intros H. revert m p. induction H as [|r rs Hr _ IH]; intros m p; [by rewrite Z.add_0_r|].
  cbn [app put_runes]. unfold str_rune in Hr. rewrite runetochar_spec, IH by lia.
  unfold enc_runes. cbn [map concat]. rewrite zlen_app, <- app_assoc.
  rewrite (st_bytes_app _ _ (enc_rune r)). f_equal. lia.
Qed.

Lemma get_runes_spec fuel m p rs :
  Forall str_rune rs -> cstr m p (enc_runes rs) -> (length rs < fuel)%nat ->
  get_runes fuel m p = rs.
Proof.
  intros H. revert fuel p. induction H as [|r rs Hr _ IH]; intros [|f] p C L; try (simpl in L; lia);
    cbn [get_runes].
  - by rewrite chartorune_first, (rd8_nil _ _ C).
  - unfold enc_runes in *. cbn [map concat length] in *. unfold str_rune in Hr.
    destruct (first_rune_enc r (concat (map enc_rune rs))) as (b & t & E & _ & F); [lia|].
    pose proof (cstr_app _ _ _ _ C) as C'. rewrite E in C.
    rewrite (chartorune_head _ _ _ _ C), F. zcases. rewrite IH by (done || lia). done.
Qed.

Lemma runelen_spec r : 0 <= r < 65536 -> runelen r = zlen (enc_rune r).
Proof. intros H. unfold runelen. rewrite u16_small by lia. by rewrite runetochar_spec. Qed.

(** What [runelen] says of the length of an encoding is its length. *)
Lemma runelens rs : Forall str_rune rs -> foldr (fun r n => runelen r + n) 0 rs = zlen (enc_runes rs).
Proof.
  induction 1 as [|r rs Hr _ IH]; [done|]. unfold enc_runes in *. cbn [map concat foldr].
  unfold str_rune in Hr. by rewrite zlen_app, runelen_spec, IH by lia.
Qed.

(** C16: any runes from 1 to 65535 that [runetochar] writes one after the other, with a NUL
    at the end, change no other memory, are as many bytes as [runelen] says, and are what
    [chartorune] reads there again; [utflen] gives their number, and [utfnlen] of the first
    [k] bytes the number of those that lie in them with all their bytes; [fullrune] of [j]
    bytes at any of the runes tells whether all of its bytes are among them. *)
Theorem runes_are_read_back (m : mem) (p k : Z) (rs : list Z) :
  Forall str_rune rs ->
  let '(e, m') := put_runes m p (rs ++ [0]) in
  same_out p e m m' /\
  e = p + foldr (fun r n => runelen r + n) 0 rs + 1 /\
  get_runes (S (length rs)) m' p = rs /\
  utflen m' p = Some (zlen rs) /\
  utfnlen m' p k = Some (fitting k (map (fun r => (r, runelen r)) rs)) /\
  (forall pre r post j, rs = pre ++ r :: post ->
     fullrune m' (p + foldr (fun r n => runelen r + n) 0 pre) j = (runelen r <=? j)).
Proof.
  intros H. rewrite put_runes_string by done.
  destruct (enc_runes_bytes _ H) as [B N]. pose proof (st_bytes_at m p _ B N) as C.
  assert (map (fun r => (r, runelen r)) rs = runes (enc_runes rs)) as ->.
  { rewrite runes_enc by done. apply map_ext_in. intros r Hr.
    rewrite Forall_forall in H. apply H in Hr. unfold str_rune in Hr. by rewrite runelen_spec by lia. }
  split_and!.
  - apply st_bytes_same_out; [lia|]. rewrite zlen_app, zlen_cons, zlen_nil. lia.
  - by rewrite runelens.
  - by apply get_runes_spec; [| |lia].
  - rewrite (utflen_spec _ _ _ C), runes_enc by done. unfold zlen. by rewrite length_map.
  - by apply utfnlen_spec.
  - revert C. generalize (st_bytes m p (enc_runes rs ++ [0])) as m'. intros m' C pre r post j ->. apply Forall_app in H as [H1 H2]. apply Forall_cons_1 in H2 as [H2 _].
    rewrite (runelens pre) by done. unfold enc_runes in *. rewrite map_app, concat_app in C. cbn [map concat] in C.
    apply cstr_app in C. rewrite (fullrune_enc _ _ _ _ _ H2 C). unfold str_rune in H2. by rewrite runelen_spec by lia.
Qed.

(** "aé€" and U+FFFF. *)
Definition sample_runes : list Z := [97; 233; 8364; 65535].

Lemma runes_are_read_back_witness :
  Forall str_rune sample_runes /\
  (let '(e, m') := put_runes ∅ 1000 (sample_runes ++ [0]) in
   same_out 1000 e ∅ m' /\
   e = 1000 + foldr (fun r n => runelen r + n) 0 sample_runes + 1 /\
   get_runes (S (length sample_runes)) m' 1000 = sample_runes /\
   utflen m' 1000 = Some (zlen sample_runes) /\
   utfnlen m' 1000 7 = Some (fitting 7 (map (fun r => (r, runelen r)) sample_runes)) /\
   (forall pre r post j, sample_runes = pre ++ r :: post ->
      fullrune m' (1000 + foldr (fun r n => runelen r + n) 0 pre) j = (runelen r <=? j))).
Proof.
  assert (Forall str_rune sample_runes) as H by closed.
  split; [exact H|]. exact (runes_are_read_back ∅ 1000 7 sample_runes H).
Defined.

(** C30: on any string, valid UTF-8 or not, the library sees the list of its runes, in which
    a byte that starts no encoding is a rune [Bad] of length 1: [utflen] is the length of
    the list, [utfrune] and [utfrrune] give the addresses of the first and the last rune
    [c], and [utfutf] gives the first place where the bytes of another string stand,
    provided that this does not start with [Bad]. *)
Theorem utf_functions_see_runes (m : mem) (p c q : Z) (s pat : list Z) :
  0 < p -> 0 < c -> cstr m p s -> cstr m q pat -> fst (chartorune m q) <> Bad ->
  utflen m p = Some (zlen (runes s)) /\
  utfrune m p c = Some (first_at p c (runes s)) /\
  utfrrune m p c = Some (last_at p c 0 (runes s)) /\
  utfutf m p q = Some (found_at p pat s).
Proof.
  intros P Hc C D N. split_and!;
    [by apply utflen_spec|by apply utfrune_spec|by apply utfrrune_spec|by apply utfutf_spec].
Qed.

(** "é€xé€" with a stray byte before the x, and "€". *)
Definition sample_text : list Z := [195; 169; 226; 130; 172; 130; 120; 195; 169; 226; 130; 172].
Definition sample_mem : mem := st_bytes (st_bytes ∅ 1000 (sample_text ++ [0])) 2000 [226; 130; 172; 0].

Lemma utf_functions_see_runes_witness :
  (0 < 1000 /\ 0 < 233 /\ cstr sample_mem 1000 sample_text /\ cstr sample_mem 2000 [226; 130; 172] /\
   fst (chartorune sample_mem 2000) <> Bad) /\
  utflen sample_mem 1000 = Some (zlen (runes sample_text)) /\
  utfrune sample_mem 1000 233 = Some (first_at 1000 233 (runes sample_text)) /\
  utfrrune sample_mem 1000 233 = Some (last_at 1000 233 0 (runes sample_text)) /\
  utfutf sample_mem 1000 2000 = Some (found_at 1000 [226; 130; 172] sample_text).
Proof.
  assert (cstr sample_mem 1000 sample_text) as C by closed.
  assert (cstr sample_mem 2000 [226; 130; 172]) as D by closed.
  assert (fst (chartorune sample_mem 2000) <> Bad) as N by closed.
  assert (0 < 1000) as P by done. assert (0 < 233) as Q by done.
  exact (conj (conj P (conj Q (conj C (conj D N))))
    (utf_functions_see_runes sample_mem 1000 233 2000 _ _ P Q C D N)).
Defined.

(** C36: [utfecpy] copies a string of encoded runes into the buffer [to, e) so that the
    result is a string of whole runes, the first ones of the source; it ends in the buffer,
    the address of its NUL is returned, nothing outside the buffer changes, and all runes
    are there if they fit with the NUL. *)
Theorem utfecpy_cuts_between_runes (m : mem) (to e from : Z) (rs : list Z) :
  Forall str_rune rs -> cstr m from (enc_runes rs) -> 0 < to < e ->
  e <= from \/ from + zlen (enc_runes rs) + 1 <= to ->
  exists rs1 rs2, rs = rs1 ++ rs2 /\
    let '(fin, m') := utfecpy m to e from in
    fin = to + zlen (enc_runes rs1) /\ fin < e /\ cstr m' to (enc_runes rs1) /\
    same_out to e m m' /\ (zlen (enc_runes rs) < e - to -> rs2 = []).
Proof. intros. by apply utfecpy_spec. Qed.

Lemma utfecpy_cuts_between_runes_witness :
  let m := st_bytes ∅ 1000 (enc_runes sample_runes ++ [0]) in
  exists rs1 rs2, sample_runes = rs1 ++ rs2 /\
    let '(fin, m') := utfecpy m 2000 2005 1000 in
    fin = 2000 + zlen (enc_runes rs1) /\ fin < 2005 /\ cstr m' 2000 (enc_runes rs1) /\
    same_out 2000 2005 m m' /\ (zlen (enc_runes sample_runes) < 2005 - 2000 -> rs2 = []).
Proof.
  intros m. apply (utfecpy_cuts_between_runes m 2000 2005 1000 sample_runes).
  - closed.
  - closed.
  - lia.
  - right. vm_compute. discriminate.
Defined.

(** [utfecpy] gives up the last rune that would fit when it has to cut. *)
Example utfecpy_drops_a_rune_that_fits :
  let m := st_bytes ∅ 1000 [97; 98; 99; 100; 0] in
  let '(fin, m') := utfecpy m 2000 2004 1000 in
  fin = 2002 /\ bytes_at m' 2000 [97; 98; 0].
Proof. vm_compute. done. Qed.

(** [utfutf] looks for a string that starts with the rune U+FFFD, three bytes, and meets
    a byte that starts no encoding, which counts as the same rune: it goes on three bytes
    further, beyond the NUL of the string that it searches, and finds what stands there. *)
Theorem utfutf_leaves_its_string (m : mem) (p q : Z) (s : list Z) :
  0 < p -> cstr m p [128] -> cstr m q [239; 191; 189] -> cstr m (p + 3) ([239; 191; 189] ++ s) ->
  utfutf m p q = Some (p + 3).
Proof.
  intros P C D E. unfold utfutf. rewrite (chartorune_head _ _ _ _ D).
  change (first_rune _ _ _) with (Bad, 3). cbv iota. change (Bad <=? Runesync) with false. cbv iota.
  pose proof (cstr_fuel _ _ _ E) as F. destruct (fuel_of m) as [|[|fu]] eqn:Ef; [simpl in F; lia..|].
  rewrite (strlen_spec _ _ _ D). cbn [utfutf_loop].
  rewrite (utfrune_spec m p [128]) by done.
  change (first_at p Bad (runes [128])) with p.
  destruct (Z.eqb_spec p 0); [lia|]. rewrite (strncmp_spec _ _ _ [128]) by done.
  rewrite bool_decide_false by (intros [k Ek]; simpl in Ek; congruence).
  rewrite (utfrune_spec m (p + 3) ([239; 191; 189] ++ s)) by (done || lia).
  change (runes ([239; 191; 189] ++ s)) with ((Bad, 3) :: runes s). cbn [first_at].
  change (Bad =? Bad) with true. cbv iota. destruct (Z.eqb_spec (p + 3) 0); [lia|].
  rewrite (strncmp_spec _ _ _ ([239; 191; 189] ++ s)) by done.
  by rewrite bool_decide_true by by apply prefix_app_r.
Qed.

Lemma utfutf_leaves_its_string_witness :
  let m := st_bytes (st_bytes ∅ 1000 [128; 0; 1; 239; 191; 189; 0]) 2000 [239; 191; 189; 0] in
  cstr m 1000 [128] /\ utfutf m 1000 2000 = Some (1000 + 3).
Proof.
  intros m. assert (cstr m 1000 [128]) as C by closed. split; [exact C|].
  apply (utfutf_leaves_its_string m 1000 2000 []); [lia|exact C|..]; closed.
Defined.
