(* ===== verification/Cleanname.v ===== *)
(** Cleaning of path names in place, src/libc/port/cleanname.c.

    The characters that the function looks for are ASCII, so that the bytes can be compared
    for them. Fuel as in Utf: one more than the number of stored bytes. *)

From S2P Require Import Prelude Mem Utf.

Definition slash := 47.
Definition dot := 46.
Definition hash := 35.

Definition SEP (x : Z) : bool := (x =? slash) || (x =? 0).

(** The variables of [cleanname] and the memory. *)
Record cn := Cn { c_p : Z; c_q : Z; c_dotdot : Z; c_erased : bool; c_m : mem }.

(** [while(--q > dotdot && *q != '/');] The pointer stops at [dotdot]. *)
Fixpoint backtrack (n : nat) (m : mem) (q dotdot : Z) : Z :=
  match n with
  | O => q
  | S n' =>
      let q := q - 1 in
      if (dotdot <? q) && negb (rd8 m q =? slash) then backtrack n' m q dotdot else q
  end.

(** [while(( *q = *p) != '/' && *q != 0) p++, q++;] *)
Fixpoint copy_elem (fuel : nat) (m : mem) (p q : Z) : option (Z * Z * mem) :=
  match fuel with
  | O => None
  | S f =>
      let m := wr8 m q (rd8 m p) in
      if negb (rd8 m q =? slash) && negb (rd8 m q =? 0)
      then copy_elem f m (p + 1) (q + 1)
      else Some (p, q, m)
  end.

(** [if(q != b) *q++ = '/';] *)
Definition put_slash (m : mem) (q b : Z) : Z * mem :=
  if q =? b then (q, m) else (q + 1, wr8 m q slash).

(** The body of the loop over the path elements. *)
Definition clean_elem (name : Z) (rooted : bool) (fuel : nat) (x : cn) : option cn :=
  let '(Cn p q dotdot er m) := x in
  if rd8 m p =? slash then Some (Cn (p + 1) q dotdot er m)
  else if (rd8 m p =? dot) && SEP (rd8 m (p + 1)) then
    Some (Cn (p + 1) q dotdot (if p =? name then true else er) m)
  else if (rd8 m p =? dot) && (rd8 m (p + 1) =? dot) && SEP (rd8 m (p + 2)) then
    let p := p + 2 in
    let '(q, dotdot, m) :=
      if dotdot <? q then (backtrack (Z.to_nat (q - dotdot)) m q dotdot, dotdot, m)
      else if negb rooted then
        let '(q, m) := put_slash m q name in
        let m := wr8 m q dot in
        let m := wr8 m (q + 1) dot in
        (q + 2, q + 2, m)
      else (q, dotdot, m) in
    Some (Cn p q dotdot (if q =? name then true else er) m)
  else
    let '(q, m) := put_slash m q (name + (if rooted then 1 else 0)) in
    match copy_elem fuel m p q with
    | Some (p, q, m) => Some (Cn p q dotdot er m)
    | None => None
    end.

Fixpoint clean_loop (name : Z) (rooted : bool) (fuel0 fuel : nat) (x : cn) : option cn :=
  match fuel with
  | O => None
  | S f =>
      if rd8 (c_m x) (c_p x) =? 0 then Some x
      else
        match clean_elem name rooted fuel0 x with
        | Some x => clean_loop name rooted fuel0 f x
        | None => None
        end
  end.

(** The memory after [cleanname(name)], which returns [name]. *)
Definition cleanname (m : mem) (name : Z) : option mem :=
  let rooted := rd8 m name =? slash in
  let start := name + (if rooted then 1 else 0) in
  match clean_loop name rooted (fuel_of m) (fuel_of m) (Cn start start start false m) with
  | None => None
  | Some (Cn _ q _ er m) =>
      let '(q, m) := if q =? name then (q + 1, wr8 m q dot) else (q, m) in
      let m := wr8 m q 0 in
      if er && (rd8 m name =? hash) then
        let m := memmove m (name + 2) name (strlen m name + 1) in
        let m := wr8 m name dot in
        Some (wr8 m (name + 1) slash)
      else Some m
  end.
