(* ===== verification/CleannameSpec.v ===== *)
(** [cleanname] as a function on path names: the elements of the name are pushed on a
    stack, from which [..] takes one off, and the name is what the stack holds. *)

From S2P Require Import Prelude Mem Utf UtfSpec Cleanname.

(** ** The specification *)

(** The elements of a name: what stands between the slashes. *)
Fixpoint split (s : list Z) : list (list Z) :=
  match s with
  | [] => [[]]
  | b :: s' =>
      if b =? slash then [] :: split s'
      else match split s' with w :: ws => (b :: w) :: ws | [] => [[b]] end
  end.

Fixpoint join (ws : list (list Z)) : list Z :=
  match ws with
  | [] => []
  | [w] => w
  | w :: ws' => w ++ slash :: join ws'
  end.

(** A path: how many directories up, then which names down. [lost] says that all that the
    name began with is gone at some time. *)
Record path := Path { ups : nat; names : list (list Z); lost : bool }.

Definition words (x : path) : list (list Z) := replicate (ups x) [dot; dot] ++ names x.

Definition push (rooted : bool) (x : path) (e : list Z) : path :=
  let lose (x : path) := Path (ups x) (names x) (lost x || negb rooted && bool_decide (words x = [])) in
  if decide (e = []) then x
  else if decide (e = [dot]) then lose x
  else if decide (e = [dot; dot]) then
    lose (if decide (names x = [])
          then if rooted then x else Path (S (ups x)) [] (lost x)
          else Path (ups x) (removelast (names x)) (lost x))
  else Path (ups x) (names x ++ [e]) (lost x).

Definition root (rooted : bool) : list Z := if rooted then [slash] else [].

Definition render (rooted : bool) (x : path) : list Z := root rooted ++ join (words x).

Definition is_rooted (s : list Z) : bool := hd 0 s =? slash.

Definition path_of (s : list Z) : path := foldl (push (is_rooted s)) (Path 0 [] false) (split s).

(** The clean name; a name that became the name of a device is prefixed with [./]. *)
Definition clean (s : list Z) : list Z :=
  let r := render (is_rooted s) (path_of s) in
  if decide (r = []) then [dot]
  else if lost (path_of s) && (hd 0 r =? hash) then dot :: slash :: r
  else r.

(** ** Names and elements *)

Lemma join_snoc ws w : join (ws ++ [w]) = if decide (ws = []) then w else join ws ++ slash :: w.
Proof.
  induction ws as [|v ws IH]; [done|]. rewrite decide_False by done.
  cbn [app]. destruct ws as [|v' ws]; [done|]. cbn [join app] in *.
  rewrite IH, decide_False by done. by rewrite <- app_assoc.
Qed.

Lemma join_nil ws : Forall (fun w => w <> []) ws -> join ws = [] -> ws = [].
Proof.
  intros H E. destruct H as [|w ws Hw _]; [done|]. cbn [join] in E.
  destruct ws; [done|]. by apply app_eq_nil in E as [? _].
Qed.

(** An element that an element of a path can be. *)
Definition word_ok (w : list Z) : Prop := w <> [] /\ Forall (fun b => b <> slash /\ b <> 0) w.

Lemma split_word w s :
  Forall (fun b => b <> slash /\ b <> 0) w ->
  split (w ++ s) = (w ++ hd [] (split s)) :: tl (split s).
Proof.
  induction 1 as [|b w [Hb _] _ IH]; cbn [app split].
  - by induction s as [|c s _]; cbn [split]; repeat case_match.
  - destruct (Z.eqb_spec b slash); [done|]. by rewrite IH.
Qed.

(** Split off the first element. *)
Lemma first_elem s :
  Forall (fun b => b <> 0) s ->
  exists w rest, s = w ++ rest /\ Forall (fun b => b <> slash /\ b <> 0) w /\
    SEP (hd 0 rest) = true /\ (rest = [] \/ exists r, rest = slash :: r) /\
    forall k x, foldl (push k) x (split s) = foldl (push k) (push k x w) (split rest).
Proof.
  induction 1 as [|b s Hb Hs (w & rest & -> & W & S & R & F)].
  - exists [], []. split_and!; try done. by left.
  - destruct (Z.eqb_spec b slash) as [->|N].
    + exists [], (slash :: w ++ rest). split_and!; try done. right; eauto.
    + exists (b :: w), rest. split_and!; try done; [by constructor|].
      intros k x. rewrite app_comm_cons, split_word by by constructor.
      destruct R as [->|[r ->]]; cbn [split hd tl app]; rewrite ?app_nil_r.
      * done.
      * by rewrite Z.eqb_refl.
Qed.

(** ** The stack in memory *)

Definition path_ok (k : bool) (x : path) : Prop :=
  Forall word_ok (names x) /\ (k = true -> ups x = 0%nat).

Lemma words_ok k x : path_ok k x -> Forall word_ok (words x).
Proof.
  intros [H _]. apply Forall_app. split; [|done]. apply Forall_replicate. split; [done|].
  by repeat constructor.
Qed.

Lemma zlen_root k : zlen (root k) = if k then 1 else 0.
Proof. by destruct k. Qed.

Definition sep_of (ws : list (list Z)) : list Z := if decide (ws = []) then [] else [slash].

(** One more element at the end. *)
Lemma render_snoc k x x' w :
  words x' = words x ++ [w] -> render k x' = render k x ++ sep_of (words x) ++ w.
Proof.
  intros E. unfold render, sep_of. rewrite E, join_snoc, <- app_assoc. f_equal.
  case_decide as H; [by rewrite H|done].
Qed.

Lemma render_empty k x : path_ok k x ->
  words x = [] /\ zlen (render k x) = zlen (root k) \/
  words x <> [] /\ zlen (root k) < zlen (render k x).
Proof.
  intros H. unfold render. destruct (decide (words x = [])) as [->|N].
  - left. by rewrite app_nil_r.
  - right. split; [done|]. rewrite zlen_app. destruct (join (words x)) eqn:E.
    + exfalso. apply N, join_nil; [|done]. pose proof (words_ok k x H) as W. revert W.
      apply Forall_impl. by intros w [? _].
    + rewrite zlen_cons. pose proof (zlen_nonneg l). lia.
Qed.

(** ** The loops inside an element *)

Lemma backtrack_word n m w q dd :
  bytes_at m (q - zlen w) w -> Forall (fun b => b <> slash /\ b <> 0) w ->
  (w = [] -> dd < q) -> dd <= q - zlen w -> q - dd <= Z.of_nat n ->
  (dd < q - zlen w -> rd8 m (q - zlen w - 1) = slash) ->
  backtrack n m q dd = if decide (dd < q - zlen w) then q - zlen w - 1 else dd.
Proof.
  revert n q. induction w as [|b w IH] using rev_ind; intros n q B F N D L Hs.
  - rewrite zlen_nil in *. destruct n as [|n]; [specialize (N eq_refl); lia|]. cbn [backtrack].
    specialize (N eq_refl). rewrite Z.sub_0_r in *. rewrite Hs, Z.eqb_refl, andb_false_r by lia.
    by rewrite decide_True by lia.
  - rewrite zlen_app, zlen_cons, zlen_nil in *. apply bytes_at_app in B as [B Bb].
    apply Forall_app in F as [F Fb]. apply Forall_cons_1 in Fb as [[Fb _] _].
    apply bytes_at_cons in Bb as [Bb _]. pose proof (zlen_nonneg w).
    replace (q - (zlen w + (1 + 0))) with (q - 1 - zlen w) in * by lia.
    replace (q - 1 - zlen w + zlen w) with (q - 1) in Bb by lia.
    destruct n as [|n]; [lia|]. cbn [backtrack]. rewrite Bb.
    destruct (Z.eqb_spec b slash); [done|]. cbn [negb]. rewrite andb_true_r.
    destruct (Z.ltb_spec dd (q - 1)); [apply IH; done || lia|].
    rewrite decide_False by lia. lia.
Qed.

(** [*q = *p] where [q] is not behind [p] leaves what [p] points to as it is. *)
Lemma cstr_wr8 m p q v l : cstr m p l -> q < p \/ q = p /\ v = hd 0 l -> cstr (wr8 m q v) p l.
Proof.
  intros C [H|[-> ->]].
  - apply (cstr_same_out q (q + 1) m); [apply wr8_same_out; lia|lia|done].
  - destruct C as [B N]. split; [|done]. apply (bytes_at_ext m); [|done]. intros a _.
    destruct (Z.eq_dec p a) as [<-|]; [|by apply rd8_wr8_ne].
    rewrite rd8_wr8_eq, <- (cstr_hd m p l) by done. apply u8_small, rd8_range.
Qed.

Lemma copy_elem_spec fuel m p q w rest :
  cstr m p (w ++ rest) -> Forall (fun b => b <> slash /\ b <> 0) w -> SEP (hd 0 rest) = true ->
  q <= p -> (length w < fuel)%nat ->
  exists m', copy_elem fuel m p q = Some (p + zlen w, q + zlen w, m') /\
    bytes_at m' q w /\ cstr m' (p + zlen w) rest /\ same_out q (q + zlen w + 1) m m'.
Proof.
  intros C F Hs. revert fuel m p q C. induction F as [|b w [Hb1 Hb2] _ IH];
    intros [|f] m p q C L Lf; try (simpl in Lf; lia); cbn [copy_elem].
  - pose proof (rd8_range m p) as R. rewrite (cstr_hd _ _ _ C) in R |- *.
    change (zlen []) with 0. cbn [app] in *. rewrite rd8_wr8_eq, u8_small, !Z.add_0_r by done.
    assert (negb (hd 0 rest =? slash) && negb (hd 0 rest =? 0) = false) as ->.
    { unfold SEP in Hs. by destruct (hd 0 rest =? slash), (hd 0 rest =? 0). }
    eexists. split_and!; [done|done| |apply wr8_same_out; lia].
    apply cstr_wr8; [done|]. destruct (Z.eq_dec q p) as [->|]; [by right|left; lia].
  - rewrite zlen_cons. pose proof (zlen_nonneg w).
    assert (cstr (wr8 m q (rd8 m p)) (p + 1) (w ++ rest)) as C1.
    { apply cstr_cons in C as (_ & _ & C). apply cstr_wr8; [done|left; lia]. }
    pose proof (rd8_range m p) as Rb. apply cstr_cons in C as (Eb & _ & _).
    rewrite Eb in C1, Rb |- *. rewrite rd8_wr8_eq, (u8_small b) by done.
    destruct (Z.eqb_spec b slash), (Z.eqb_spec b 0); try done. cbn [negb andb].
    destruct (IH f _ (p + 1) (q + 1) C1) as (m' & -> & B & C' & O); [lia|simpl in Lf; lia|].
    exists m'. replace (p + (1 + zlen w)) with (p + 1 + zlen w) by lia.
    replace (q + (1 + zlen w)) with (q + 1 + zlen w) by lia. split_and!; [done| |done|].
    + apply bytes_at_cons. split; [|done]. rewrite O by lia. rewrite rd8_wr8_eq. by apply u8_small.
    + transitivity (wr8 m q b); [apply wr8_same_out; lia|].
      eapply same_out_weaken; [exact O|lia..].
Qed.

Lemma join_app_le us ns : zlen (join us) <= zlen (join (us ++ ns)).
Proof.
  induction us as [|u us IH]; [change (zlen (join [])) with 0; apply zlen_nonneg|].
  cbn [app join]. destruct us as [|u' us]; cbn [app join] in *.
  - destruct ns; [lia|]. rewrite zlen_app, zlen_cons. pose proof (zlen_nonneg (join (l :: ns))). lia.
  - rewrite !zlen_app, !zlen_cons. lia.
Qed.

(** ** The loop *)

Section Loop.
Context (name : Z) (m0 : mem) (k : bool) (len : Z).

Let b := name + zlen (root k).

(** The clean part ends at [q], the rest of the name starts at [p]. Between the two there is
    room for a slash when one comes next, and for [./] when the beginning is lost. *)
Record cinv (rest : list Z) (st : path) (x : cn) : Prop := CInv {
  ci_rest : cstr (c_m x) (c_p x) rest;
  ci_out : bytes_at (c_m x) name (render k st);
  ci_q : c_q x = name + zlen (render k st);
  ci_dotdot : c_dotdot x = name + zlen (render k (Path (ups st) [] false));
  ci_erased : c_erased x = lost st;
  ci_le : c_q x <= c_p x;
  ci_room : words st = [] \/ c_q x < c_p x \/ SEP (hd 0 rest) = true;
  ci_lost : lost st = true -> k = false /\
    (words st = [] /\ SEP (hd 0 rest) = true /\ c_q x + 1 <= c_p x \/
     c_q x + 2 <= c_p x /\ (words st = [] \/ SEP (hd 0 rest) = true \/ c_q x + 3 <= c_p x));
  ci_first : k = false -> words st = [] -> lost st = true \/ c_p x = name /\ hd 0 rest <> slash;
  ci_ok : path_ok k st;
  ci_end : c_p x + zlen rest = name + len;
  ci_same : same_out name (name + len + 1) m0 (c_m x) }.

Lemma cinv_q rest st x : cinv rest st x ->
  c_q x = b /\ words st = [] \/ b < c_q x /\ words st <> [].
Proof.
  intros I. unfold b. rewrite (ci_q _ _ _ I).
  destruct (render_empty k st (ci_ok _ _ _ I)) as [[? ?]|[? ?]]; [left|right]; (split; [lia|done]).
Qed.

Lemma lost_p rest st x : cinv rest st x ->
  lost st || negb k && bool_decide (words st = []) = if c_p x =? name then true else lost st.
Proof.
  intros I. pose proof (cinv_q _ _ _ I) as Q. pose proof (ci_le _ _ _ I) as L.
  unfold b in Q. rewrite zlen_root in Q. destruct (Z.eqb_spec (c_p x) name) as [E|N].
  - destruct k; [lia|]. rewrite bool_decide_true by (destruct Q as [[? ?]|[? ?]]; [done|lia]).
    by rewrite orb_true_r.
  - case_bool_decide as Hw; [|by rewrite andb_false_r, orb_false_r].
    destruct k eqn:Ek; [by rewrite orb_false_r|].
    destruct (ci_first _ _ _ I Ek Hw) as [->|[]]; done.
Qed.

Lemma cinv_slash rest st x fuel :
  cinv (slash :: rest) st x ->
  exists x', clean_elem name k fuel x = Some x' /\ cinv rest st x'.
Proof.
  intros [C O Q D Er L R Lo F Ok En S]. destruct x as [p q dd er m]. simpl in *.
  apply cstr_cons in C as (Ep & _ & C). rewrite Ep. eexists. split; [done|].
  rewrite zlen_cons in En. constructor; simpl; try done; try lia.
  - intros Hl. destruct (Lo Hl) as [-> H]. split; [done|]. right.
    destruct H as [(H1 & _ & H2)|[H1 _]]; (split; [lia|]); [by left|right; right; lia].
  - intros H1 H2. destruct (F H1 H2) as [|[_ []]]; [by left|done].
Qed.

(** The word [.], and what the function knows when it stands there. *)
Lemma cinv_dot rest st x fuel :
  cinv (dot :: rest) st x -> SEP (hd 0 rest) = true ->
  exists x', clean_elem name k fuel x = Some x' /\ cinv rest (push k st [dot]) x'.
Proof.
  intros I Hs. pose proof (lost_p _ _ _ I) as P. pose proof (cinv_q _ _ _ I) as Hq.
  pose proof I as [C O Q D Er L R Lo F Ok En S]. destruct x as [p q dd er m]. simpl in *.
  apply cstr_cons in C as (Ep & _ & C). rewrite Ep, (cstr_hd _ _ _ C), Hs.
  eexists. split; [done|]. unfold push. rewrite decide_False, decide_True by done.
  rewrite P, <- Er. rewrite zlen_cons in En. constructor; simpl; try done; try lia.
  - intros Hl. destruct (Z.eqb_spec p name) as [E|N].
    + unfold b in Hq. rewrite zlen_root in Hq. destruct k; [lia|]. split; [done|]. left.
      destruct Hq as [[Hq ?]|[Hq ?]]; [|lia]. split_and!; [done|done|lia].
    + rewrite Er in Hl. destruct (Lo Hl) as [-> H]. split; [done|]. right.
      destruct H as [(_ & [=] & _)|[H _]]. split; [lia|]. right; left. done.
  - intros H1 H2. left. destruct (F H1 H2) as [E|[-> _]]; [rewrite Er, E; by case_match|].
    by rewrite Z.eqb_refl.
Qed.

Lemma render_up st : path_ok k st -> names st = [] ->
  render k (Path (ups st) [] false) = render k st.
Proof. intros _ E. unfold render, words. simpl. by rewrite E. Qed.

Lemma render_lost st st' : words st = words st' -> render k st = render k st'.
Proof. unfold render. by intros ->. Qed.

(** [..] takes the last name away. *)
Lemma backtrack_last m st ns w q :
  path_ok k st -> names st = ns ++ [w] ->
  bytes_at m name (render k st) -> q = name + zlen (render k st) ->
  let dd := name + zlen (render k (Path (ups st) [] false)) in
  dd < q /\
  backtrack (Z.to_nat (q - dd)) m q dd = name + zlen (render k (Path (ups st) ns (lost st))).
Proof.
  intros Ok E O Hq dd. set (st' := Path (ups st) ns (lost st)).
  assert (words st = words st' ++ [w]) as W by (unfold words; rewrite E; apply app_assoc).
  assert (word_ok w) as [Hw1 Hw2].
  { destruct Ok as [Ok _]. rewrite E in Ok. by apply Forall_app in Ok as [_ [? _]%Forall_cons_1]. }
  assert (path_ok k st') as Ok'.
  { destruct Ok as [Ok1 Ok2]. rewrite E in Ok1. apply Forall_app in Ok1 as [? _]. by split. }
  pose proof (render_snoc k st' st w W) as R. rewrite R in O, Hq.
  apply bytes_at_app in O as [_ O]. apply bytes_at_app in O as [Os Ow]. rewrite !zlen_app in Hq.
  assert (0 < zlen w) by (destruct w; [done|]; rewrite zlen_cons; pose proof (zlen_nonneg w); lia).
  assert (dd <= q - zlen w /\ (dd < q - zlen w <-> words st' <> []) /\
    (words st' = [] -> name + zlen (render k st') = dd)) as (D1 & D2 & D3).
  { destruct (decide (ns = [])) as [->|N].
    - assert (render k (Path (ups st) [] false) = render k st') as Ed by (by apply render_lost).
      unfold dd. rewrite Ed. unfold sep_of in Hq. case_decide as Hd.
      + rewrite Hd. change (zlen []) with 0 in Hq. split_and!; [lia|split; [lia|done]|done].
      + rewrite zlen_cons in Hq. change (zlen []) with 0 in Hq. split_and!; [lia|split; [done|lia]|done].
    - assert (words st' <> []) as Nw by (unfold words; simpl; by intros [_ ?]%app_eq_nil).
      unfold sep_of in Hq. rewrite decide_False in Hq by done. rewrite zlen_cons in Hq.
      change (zlen []) with 0 in Hq.
      assert (zlen (render k (Path (ups st) [] false)) <= zlen (render k st')) as Le.
      { unfold render. rewrite !zlen_app. unfold words. simpl. rewrite app_nil_r.
        pose proof (join_app_le (replicate (ups st) [dot; dot]) ns). lia. }
      unfold dd. split_and!; [lia|split; [done|lia]|done]. }
  split; [lia|].
  replace (name + zlen (render k st') + zlen (sep_of (words st'))) with (q - zlen w) in Ow by lia.
  rewrite (backtrack_word _ _ w); try done; [|lia..|].
  - case_decide as Hd.
    + apply D2 in Hd. unfold sep_of in Hq. rewrite decide_False in Hq by done.
      rewrite zlen_cons in Hq. change (zlen []) with 0 in Hq. fold st'. lia.
    + destruct (decide (words st' = [])) as [Z0|]; [by rewrite (D3 Z0)|tauto].
  - intros Hd. apply D2 in Hd. unfold sep_of in Os, Hq. rewrite decide_False in Os, Hq by done.
    rewrite zlen_cons in Hq. change (zlen []) with 0 in Hq. apply bytes_at_cons in Os as [Os _].
    replace (q - zlen w - 1) with (name + zlen (render k st')) by lia. done.
Qed.

Lemma put_slash_spec m q st :
  path_ok k st -> bytes_at m name (render k st) -> q = name + zlen (render k st) ->
  let q' := q + zlen (sep_of (words st)) in
  exists m', put_slash m q b = (q', m') /\
    bytes_at m' name (render k st ++ sep_of (words st)) /\ same_out q q' m m'.
Proof.
  intros Ok O Hq q'. unfold put_slash, q', sep_of, b.
  destruct (render_empty k st Ok) as [[-> H]|[Hw H]].
  - rewrite decide_True by done. destruct (Z.eqb_spec q (name + zlen (root k))); [|lia].
    change (zlen []) with 0. rewrite Z.add_0_r, app_nil_r. by exists m.
  - rewrite decide_False by done. destruct (Z.eqb_spec q (name + zlen (root k))); [lia|].
    change (zlen [slash]) with 1. eexists. split_and!; [done| |apply wr8_same_out; lia].
    apply bytes_at_app. split.
    + apply (bytes_at_same_out q (q + 1) m); [apply wr8_same_out; lia|lia|done].
    + rewrite <- Hq. apply bytes_at_cons. split; [by rewrite rd8_wr8_eq|done].
Qed.

(** Room for the slash before a word. *)
Lemma room_sep rest st x : cinv rest st x -> SEP (hd 0 rest) = false ->
  c_q x + zlen (sep_of (words st)) <= c_p x /\
  (lost st = true -> k = false /\ c_q x + zlen (sep_of (words st)) + 2 <= c_p x).
Proof.
  intros I Hs. pose proof (ci_room _ _ _ I) as R. pose proof (ci_le _ _ _ I) as L.
  pose proof (ci_lost _ _ _ I) as Lo. rewrite Hs in *. unfold sep_of. case_decide as Hw.
  - change (zlen []) with 0. split; [lia|]. intros Hl. destruct (Lo Hl) as [-> H].
    split; [done|]. destruct H as [(_ & [=] & _)|[H _]]. lia.
  - change (zlen [slash]) with 1. split; [destruct R as [|[|[=]]]; [done|lia]|].
    intros Hl. destruct (Lo Hl) as [-> H]. split; [done|].
    destruct H as [(? & _)|(H & [?|[[=]|?]])]; [done|done|lia].
Qed.

Lemma cstr_same_before m m' lo hi p l : cstr m p l -> same_out lo hi m m' -> hi <= p -> cstr m' p l.
Proof. intros C S H. apply (cstr_same_out lo hi m); [done|by right|done]. Qed.

Lemma not_sep c : c <> slash /\ c <> 0 -> SEP c = false.
Proof. intros [H1 H2]. unfold SEP. by destruct (Z.eqb_spec c slash), (Z.eqb_spec c 0). Qed.

Lemma not_dots m p w rest :
  cstr m p (w ++ rest) -> word_ok w -> w <> [dot] -> w <> [dot; dot] ->
  (rd8 m p =? slash) = false /\
  (rd8 m p =? dot) && SEP (rd8 m (p + 1)) = false /\
  (rd8 m p =? dot) && (rd8 m (p + 1) =? dot) && SEP (rd8 m (p + 2)) = false.
Proof.
  intros C [Hw Fw] N1 N2. destruct w as [|c w]; [done|]. clear Hw.
  apply Forall_cons_1 in Fw as [Fc Fw]. apply cstr_cons in C as (-> & _ & C).
  split; [by destruct (Z.eqb_spec c slash), Fc|].
  destruct (Z.eqb_spec c dot) as [->|]; [|done]. destruct w as [|d w]; [done|].
  apply Forall_cons_1 in Fw as [Fd Fw]. apply cstr_cons in C as (-> & _ & C).
  rewrite not_sep by done. split; [done|].
  destruct (Z.eqb_spec d dot) as [->|]; [|done]. destruct w as [|e w]; [done|].
  apply Forall_cons_1 in Fw as [Fe Fw]. apply cstr_cons in C as (E & _ & _).
  replace (p + 2) with (p + 1 + 1) by lia. rewrite E. by rewrite not_sep.
Qed.

(** A word that is neither [.] nor [..]. *)
Lemma cinv_word w rest st x fuel :
  cinv (w ++ rest) st x -> word_ok w -> w <> [dot] -> w <> [dot; dot] -> SEP (hd 0 rest) = true ->
  (length w < fuel)%nat ->
  exists x', clean_elem name k fuel x = Some x' /\ cinv rest (push k st w) x'.
Proof.
  intros I Hw N1 N2 Hs Lf. pose proof (room_sep _ _ _ I) as Rm.
  pose proof I as [C O Q D Er L R Lo F Ok En S]. destruct x as [p q dd er m]. simpl in *.
  destruct (not_dots m p w rest C Hw N1 N2) as (E1 & E2 & E3).
  destruct Rm as [Rm Rl].
  { destruct Hw as [Hw Fw]. destruct w; [done|]. apply Forall_cons_1 in Fw as [? _]. by apply not_sep. }
  unfold clean_elem. rewrite E1, E2, E3. clear E1 E2 E3.
  destruct (put_slash_spec m q st Ok O Q) as (m1 & Ep & O1 & S1). unfold b in Ep. rewrite zlen_root in Ep.
  rewrite Ep. clear Ep. set (q1 := q + zlen (sep_of (words st))) in *.
  pose proof (zlen_nonneg (sep_of (words st))). pose proof (zlen_nonneg (render k st)).
  pose proof (zlen_nonneg w). pose proof (zlen_nonneg rest). rewrite zlen_app in En.
  pose proof (cstr_same_before _ _ _ _ _ _ C S1 Rm) as C1.
  destruct (copy_elem_spec fuel m1 p q1 w rest C1) as (m2 & -> & O2 & C2 & S2);
    [by destruct Hw|done..|].
  eexists. split; [done|]. unfold push. rewrite !decide_False by (done || by destruct Hw).
  set (st' := Path (ups st) (names st ++ [w]) (lost st)).
  assert (words st' = words st ++ [w]) as W by apply app_assoc.
  pose proof (render_snoc k st st' w W) as Rd. rewrite app_assoc in Rd.
  assert (words st' <> []) as Nw by (rewrite W; by intros [_ ?]%app_eq_nil).
  constructor; simpl; try done; rewrite ?Rd, ?zlen_app; try lia.
  - apply bytes_at_app. rewrite zlen_app. split.
    + eapply bytes_at_same_out; [exact S2| |exact O1]. rewrite zlen_app. lia.
    + by replace (name + (zlen (render k st) + zlen (sep_of (words st)))) with q1 by lia.
  - by right; right.
  - intros Hl. destruct (Rl Hl) as [-> H']. split; [done|]. right. split; [lia|]. by right; left.
  - destruct Ok as [Ok1 Ok2]. split; [|done]. apply Forall_app. split; [done|]. by constructor.
  - etransitivity; [exact S|]. etransitivity; (eapply same_out_weaken; [eassumption|lia..]).
Qed.

Lemma list_snoc_cases {A} (l : list A) : l = [] \/ exists l' x, l = l' ++ [x].
Proof. induction l using rev_ind; [by left|right; eauto]. Qed.

Lemma push_dotdot st x' :
  x' = (if decide (names st = [])
        then if k then st else Path (S (ups st)) [] (lost st)
        else Path (ups st) (removelast (names st)) (lost st)) ->
  push k st [dot; dot] = Path (ups x') (names x') (lost x' || negb k && bool_decide (words x' = [])).
Proof. by intros ->. Qed.

(** The word [..] at the root, and where there is nothing to go back over. *)
Lemma cinv_up rest st x fuel :
  cinv (dot :: dot :: rest) st x -> SEP (hd 0 rest) = true -> names st = [] ->
  exists x', clean_elem name k fuel x = Some x' /\ cinv rest (push k st [dot; dot]) x'.
Proof.
  intros I Hs En0. destruct (room_sep _ _ _ I) as [Rm Rl]; [done|]. pose proof (cinv_q _ _ _ I) as Hq.
  pose proof I as [C O Q D Er L R Lo F Ok En Sm]. destruct x as [p q dd er m]. simpl in *.
  pose proof C as (Ep & _ & C1)%cstr_cons. pose proof C1 as (Ep1 & _ & C2)%cstr_cons.
  replace (p + 1 + 1) with (p + 2) in C2 by lia. rewrite Ep, Ep1, (cstr_hd _ _ _ C2), Hs.
  rewrite !zlen_cons in En. pose proof (zlen_nonneg rest).
  change (dot =? slash) with false. change (dot =? dot) with true. change (SEP dot) with false. cbn [andb].
  erewrite push_dotdot by done. rewrite decide_True by done.
  rewrite (render_up st Ok En0), <- Q in D. destruct (Z.ltb_spec dd q); [lia|].
  pose proof Ok as [Ok1 Ok2]. unfold b in Hq. rewrite zlen_root in Hq.
  assert (k = true \/ k = false) as [Ek|Ek] by (destruct k; auto); rewrite Ek; cbn [negb andb].
  - rewrite Ek in Hq. destruct (Z.eqb_spec q name); [lia|]. eexists. split; [done|].
    assert (words st = []) as W by (unfold words; by rewrite En0, (Ok2 Ek)).
    rewrite orb_false_r. constructor; simpl; try done; try lia; try (by left).
    + by rewrite (render_up st), D, Q.
    + intros Hl. by rewrite (proj1 (Rl Hl)) in Ek.
    + by rewrite Ek.
  - set (st' := Path (S (ups st)) [] (lost st)).
    assert (words st' = words st ++ [[dot; dot]]) as W.
    { unfold words, st'. simpl. by rewrite En0, !app_nil_r, replicate_cons_app. }
    destruct (put_slash_spec m q st) as (m1 & Eps & O1 & S1); [by split|done|done|].
    assert (b = name) as Eb by (unfold b; rewrite zlen_root, Ek; lia). rewrite Eb in Eps.
    rewrite Eps. clear Eps. set (q1 := q + zlen (sep_of (words st))) in *.
    pose proof (render_snoc k st st' _ W) as Rd. rewrite app_assoc in Rd.
    pose proof (zlen_nonneg (sep_of (words st))). pose proof (zlen_nonneg (render k st)).
    assert (words st' <> []) as Nw by (rewrite W; by intros [_ ?]%app_eq_nil).
    rewrite bool_decide_false, orb_false_r by done. destruct (Z.eqb_spec (q1 + 2) name); [lia|].
    set (m2 := wr8 (wr8 m1 q1 dot) (q1 + 1) dot).
    assert (same_out q1 (q1 + 2) m1 m2) as S2.
    { transitivity (wr8 m1 q1 dot); apply wr8_same_out; lia. }
    eexists. split; [done|]. fold st'.
    constructor; simpl; try done; rewrite ?(render_lost (Path (S (ups st)) [] (lost st)) st'),
      ?(render_lost (Path (S (ups st)) [] false) st'), ?Rd, ?zlen_app by done;
      change (zlen [dot; dot]) with 2; try lia.
    + apply (cstr_same_before m1 _ q1 (q1 + 2)); [|done|lia].
      apply (cstr_same_before m _ q q1); [done..|lia].
    + apply bytes_at_app. rewrite zlen_app. split.
      * eapply bytes_at_same_out; [exact S2| |exact O1]. rewrite zlen_app. lia.
      * replace (name + (zlen (render k st) + zlen (sep_of (words st)))) with q1 by lia.
        apply bytes_at_cons. unfold m2. rewrite rd8_wr8_ne by lia. rewrite rd8_wr8_eq.
        split; [done|]. apply bytes_at_cons. by rewrite rd8_wr8_eq.
    + by right; right.
    + intros Hl. destruct (Rl Hl) as [_ H']. split; [done|]. right. split; [lia|]. by right; left.
    + split; [constructor|]. by rewrite Ek.
    + etransitivity; [exact Sm|]. etransitivity; (eapply same_out_weaken; [eassumption|lia..]).
Qed.

(** The word [..] after a name. *)
Lemma cinv_back rest st x fuel :
  cinv (dot :: dot :: rest) st x -> SEP (hd 0 rest) = true -> names st <> [] ->
  exists x', clean_elem name k fuel x = Some x' /\ cinv rest (push k st [dot; dot]) x'.
Proof.
  intros I Hs Nn. pose proof (cinv_q _ _ _ I) as Hq.
  pose proof I as [C O Q D Er L R Lo F Ok En Sm]. destruct x as [p q dd er m]. simpl in *.
  pose proof C as (Ep & _ & C1)%cstr_cons. pose proof C1 as (Ep1 & _ & C2)%cstr_cons.
  replace (p + 1 + 1) with (p + 2) in C2 by lia. rewrite Ep, Ep1, (cstr_hd _ _ _ C2), Hs.
  rewrite !zlen_cons in En. pose proof (zlen_nonneg rest).
  change (dot =? slash) with false. change (dot =? dot) with true. change (SEP dot) with false. cbn [andb].
  destruct (list_snoc_cases (names st)) as [?|(ns & w & Ens)]; [done|].
  destruct (backtrack_last m st ns w q Ok Ens O Q) as [Hd Hb]. rewrite <- D in Hd, Hb.
  destruct (Z.ltb_spec dd q); [|lia]. rewrite Hb. clear Hb.
  erewrite push_dotdot by done. rewrite decide_False, Ens, removelast_last by done.
  set (st' := Path (ups st) ns (lost st)). simpl.
  assert (path_ok k st') as Ok'.
  { destruct Ok as [Ok1 Ok2]. rewrite Ens in Ok1. apply Forall_app in Ok1 as [? _]. by split. }
  assert (words st = words st' ++ [w]) as W by (unfold words; rewrite Ens; apply app_assoc).
  assert (words st <> []) as Nw by (rewrite W; by intros [_ ?]%app_eq_nil).
  pose proof (render_snoc k st' st w W) as Rd.
  assert (zlen (render k st') < zlen (render k st)) as Lr.
  { rewrite Rd, !zlen_app. pose proof (zlen_nonneg (sep_of (words st'))).
    assert (w <> []) as Hw. { destruct Ok as [Ok1 _]. rewrite Ens in Ok1. by apply Forall_app in Ok1 as [_ [[] _]%Forall_cons_1]. }
    destruct w; [done|]. rewrite zlen_cons. pose proof (zlen_nonneg w). lia. }
  set (q' := name + zlen (render k st')) in *.
  assert ((q' =? name) = negb k && bool_decide (words st' = [])) as Eq.
  { pose proof (zlen_root k) as Zr. unfold q'. destruct (render_empty k st' Ok') as [[-> H']|[Hw H']].
    - rewrite bool_decide_true, andb_true_r, H' by done. rewrite Zr. destruct k; simpl; zcases.
    - rewrite bool_decide_false, andb_false_r by done. destruct k; zcases. }
  rewrite Eq. eexists. split; [done|].
  set (l := lost st || _).
  constructor; simpl; try done; try lia.
  - rewrite (render_lost _ st') by done. rewrite Rd in O. by apply bytes_at_app in O as [O _].
  - unfold l. rewrite Er. by destruct (lost st), (negb k && bool_decide (words st' = [])).
  - intros Hl. assert (k = false) as Ek.
    { unfold l in Hl. apply orb_true_iff in Hl as [Hl|Hl]; [by apply Lo|]. by destruct k. }
    split; [done|]. right. split; [lia|]. by right; left.
  - intros Ek Hw. left. unfold l. rewrite Ek, bool_decide_true by done. apply orb_true_r.
Qed.

(** One round of the loop. *)
Lemma cinv_step rest st x fuel :
  cinv rest st x -> rest <> [] -> (length rest < fuel)%nat ->
  exists x' rest' st', clean_elem name k fuel x = Some x' /\ cinv rest' st' x' /\
    (length rest' < length rest)%nat /\
    foldl (push k) st (split rest) = foldl (push k) st' (split rest').
Proof.
  intros I Hr Lf. destruct (first_elem rest) as (w & rest1 & -> & Fw & Hs & R & Fold).
  { apply (ci_rest _ _ _ I). }
  rewrite Fold, length_app in *. destruct (decide (w = [])) as [->|Nw].
  - destruct R as [->|[r ->]]; [done|]. cbn [app] in *.
    destruct (cinv_slash r st x fuel I) as (x' & E & I').
    exists x', r, st. split_and!; [done|done|simpl; lia|]. cbn [split].
    rewrite Z.eqb_refl. cbn [foldl]. unfold push at 2 3. by rewrite !decide_True by done.
  - assert (exists x', clean_elem name k fuel x = Some x' /\ cinv rest1 (push k st w) x') as (x' & E & I').
    { destruct (decide (w = [dot])) as [->|N1]; [by apply cinv_dot|].
      destruct (decide (w = [dot; dot])) as [->|N2].
      - destruct (decide (names st = [])); [by apply cinv_up|by apply cinv_back].
      - apply cinv_word; try done. lia. }
    exists x', rest1, (push k st w). split_and!; try done. destruct w; [done|simpl; lia].
Qed.

Lemma cleanname_loop_spec fuel0 fuel rest st x :
  cinv rest st x -> (length rest < fuel0)%nat -> (length rest < fuel)%nat ->
  exists x', clean_loop name k fuel0 fuel x = Some x' /\
    cinv [] (foldl (push k) st (split rest)) x'.
Proof.
  revert rest st x. induction fuel as [|f IH]; intros rest st x I L0 L; [lia|]. cbn [clean_loop].
  rewrite (cstr_hd _ _ _ (ci_rest _ _ _ I)). destruct rest as [|c rest].
  - exists x. done.
  - destruct (ci_rest _ _ _ I) as [_ [Hc _]%Forall_cons_1]. cbn [hd].
    destruct (Z.eqb_spec c 0); [done|].
    destruct (cinv_step _ _ _ fuel0 I) as (x' & rest' & st' & -> & I' & L' & ->); [done..|].
    apply IH; [done|lia|lia].
Qed.
End Loop.

(** ** The whole function *)

Lemma cinv_start m name s :
  cstr m name s ->
  exists rest,
    let k := is_rooted s in
    let start := name + (if k then 1 else 0) in
    cinv name m k (zlen s) rest (Path 0 [] false) (Cn start start start false m) /\
    (length rest <= length s)%nat /\
    foldl (push k) (Path 0 [] false) (split rest) = path_of s.
Proof.
  intros C. unfold path_of. destruct (is_rooted s) eqn:K; unfold is_rooted in K.
  - destruct s as [|c s]; [done|]. simpl in K. apply Z.eqb_eq in K as ->. exists s.
    pose proof C as (E & _ & C1)%cstr_cons. cbn [split]. rewrite Z.eqb_refl.
    split_and!; [|simpl; lia|done]. rewrite zlen_cons.
    constructor; cbn [c_p c_q c_dotdot c_erased c_m ups]; try done; try (by left);
      change (zlen (render true (Path 0 [] false))) with 1; try lia; by apply bytes_at_cons.
  - exists s. rewrite Z.add_0_r. split_and!; [|lia|done].
    constructor; cbn [c_p c_q c_dotdot c_erased c_m ups]; try done; try (by left);
      change (zlen (render false (Path 0 [] false))) with 0; lia.
Qed.

Lemma render_nonzero k x : path_ok k x -> Forall (fun b => b <> 0) (render k x).
Proof.
  intros Ok. apply words_ok in Ok. unfold render. apply Forall_app. split; [by destruct k; repeat constructor|].
  induction Ok as [|w ws [_ Fw] _ IH]; [constructor|]. cbn [join].
  assert (Forall (fun b => b <> 0) w) as F by (revert Fw; apply Forall_impl; by intros ? []).
  destruct ws; [done|]. apply Forall_app. split; [done|]. by constructor.
Qed.

(** Write [./] in front of the string at [name]. *)
Lemma prefix_dot_slash m name r :
  cstr m name r ->
  let m1 := memmove m (name + 2) name (strlen m name + 1) in
  let m2 := wr8 (wr8 m1 name dot) (name + 1) slash in
  cstr m2 name (dot :: slash :: r) /\ same_out name (name + 2 + zlen r + 1) m m2.
Proof.
  intros C m1 m2. pose proof C as [B N]. pose proof (zlen_nonneg r).
  assert (cstr m1 (name + 2) r) as C1.
  { split; [|done]. apply bytes_at_memmove; [done|].
    by rewrite (strlen_spec _ _ _ C), zlen_app. }
  split.
  - apply cstr_cons. unfold m2. rewrite rd8_wr8_ne, rd8_wr8_eq by lia. split_and!; [done..|].
    apply cstr_cons. rewrite rd8_wr8_eq. split_and!; [done..|].
    replace (name + 1 + 1) with (name + 2) by lia.
    apply (cstr_same_before (wr8 m1 name dot) _ (name + 1) (name + 2)); [|apply wr8_same_out; lia|lia].
    apply (cstr_same_before m1 _ name (name + 2)); [done|apply wr8_same_out; lia|lia].
  - transitivity m1.
    + apply memmove_same_out; rewrite ?(strlen_spec _ _ _ C); lia.
    + transitivity (wr8 m1 name dot); apply wr8_same_out; lia.
Qed.

Lemma cleanname_spec m name s :
  cstr m name s ->
  exists m', cleanname m name = Some m' /\ cstr m' name (clean s) /\
    zlen (clean s) <= Z.max (zlen s) 1 /\ same_out name (name + Z.max (zlen s) 1 + 1) m m'.
Proof.
  intros C. destruct (cinv_start m name s C) as (rest & I & L & P).
  unfold cleanname. rewrite (cstr_hd _ _ _ C). change (hd 0 s =? slash) with (is_rooted s).
  pose proof (cstr_fuel _ _ _ C). set (k := is_rooted s) in *.
  destruct (cleanname_loop_spec name m k (zlen s) (fuel_of m) (fuel_of m) rest _ _ I) as (x' & -> & I'); [lia..|].
  rewrite P in I'. clear I P. unfold clean. fold k. set (st := path_of s) in *.
  pose proof (cinv_q _ _ _ _ _ _ _ I') as Q. pose proof (zlen_nonneg s).
  destruct I' as [C1 O Hq _ Er Le _ Lo _ Ok En Sm]. destruct x' as [p q dd er m1]. simpl in *.
  change (zlen []) with 0 in En. set (r := render k st) in *. pose proof (zlen_nonneg r).
  destruct (Z.eqb_spec q name) as [E|N].
  - assert (r = []) as -> by (destruct r; [done|rewrite zlen_cons in *; pose proof (zlen_nonneg r); lia]).
    rewrite decide_True, E by done.
    assert (rd8 (wr8 (wr8 m1 name dot) (name + 1) 0) name = dot) as R1.
    { rewrite rd8_wr8_ne by lia. by rewrite rd8_wr8_eq. }
    rewrite R1. change (dot =? hash) with false. rewrite andb_false_r. change (zlen [dot]) with 1. eexists. split_and!; [done| |lia|].
    + apply cstr_cons. split_and!; [done..|]. apply cstr_nil. by rewrite rd8_wr8_eq.
    + transitivity m1; [eapply same_out_weaken; [exact Sm|lia..]|].
      transitivity (wr8 m1 name dot); apply wr8_same_out; lia.
  - assert (r <> []) as Nr by (intros Hr; rewrite Hr in Hq; change (zlen []) with 0 in Hq; lia).
    rewrite decide_False by done.
    assert (cstr (wr8 m1 q 0) name r) as Cr.
    { split; [|by apply (render_nonzero k)]. apply bytes_at_app. rewrite <- Hq. split.
      - eapply bytes_at_same_out; [apply (wr8_same_out _ q _ q (q + 1)); lia| |exact O]. lia.
      - apply bytes_at_cons. by rewrite rd8_wr8_eq. }
    assert (same_out name (name + Z.max (zlen s) 1 + 1) m (wr8 m1 q 0)) as S2.
    { transitivity m1; [eapply same_out_weaken; [exact Sm|lia..]|]. apply wr8_same_out. lia. }
    rewrite (cstr_hd _ _ _ Cr), Er.
    destruct (lost st && (hd 0 r =? hash)) eqn:Hl; [|eexists; split_and!; [done|done|lia|done]].
    apply andb_true_iff in Hl as [Hl _]. destruct (Lo Hl) as [Ek Hl'].
    assert (q + 2 <= p) as Hroom.
    { destruct Hl' as [(Hw & _ & _)|[? _]]; [|done]. exfalso. apply Nr. unfold r, render.
      by rewrite Hw, Ek. }
    destruct (prefix_dot_slash _ _ _ Cr) as [C2 S3]. rewrite !zlen_cons. eexists. split_and!; [done|exact C2|lia|].
    etransitivity; [exact S2|]. eapply same_out_weaken; [exact S3|lia..].
Qed.

(** ** Clean names *)

Definition plain (w : list Z) : Prop := word_ok w /\ w <> [dot] /\ w <> [dot; dot].

Definition plain_path (k : bool) (x : path) : Prop := Forall plain (names x) /\ (k = true -> ups x = 0%nat).

Lemma split_words s : Forall (fun b => b <> 0) s ->
  Forall (fun w => Forall (fun b => b <> slash /\ b <> 0) w) (split s).
Proof.
  induction 1 as [|b s Hb _ IH]; cbn [split]; [by repeat constructor|].
  destruct (Z.eqb_spec b slash); [by constructor|].
  destruct (split s) as [|w ws]; [by repeat constructor|].
  apply Forall_cons_1 in IH as [H1 H2]. by repeat constructor.
Qed.

Lemma push_plain k x w :
  plain_path k x -> Forall (fun b => b <> slash /\ b <> 0) w -> plain_path k (push k x w).
Proof.
  intros [H1 H2] Hw. unfold push. repeat case_decide; try done.
  - destruct k; by split.
  - split; [|done]. simpl. destruct (list_snoc_cases (names x)) as [E|(ns & v & E)]; [done|].
    rewrite E, removelast_last in *. by apply Forall_app in H1 as [? _].
  - split; [|done]. apply Forall_app. split; [done|]. by repeat constructor.
Qed.

Lemma path_of_plain s : Forall (fun b => b <> 0) s -> plain_path (is_rooted s) (path_of s).
Proof.
  intros H. apply split_words in H. unfold path_of. revert H.
  assert (plain_path (is_rooted s) (Path 0 [] false)) as I by (split; [constructor|done]). revert I.
  generalize (Path 0 [] false) (split s). intros x ws Hx Hws. revert x Hx.
  induction Hws as [|w ws Hw _ IH]; intros x Hx; [done|]. by apply IH, push_plain.
Qed.

Lemma split_join ws :
  ws <> [] -> Forall (fun w => Forall (fun b => b <> slash /\ b <> 0) w) ws -> split (join ws) = ws.
Proof.
  intros N H. destruct H as [|w ws Hw Hws]; [done|]. clear N.
  revert w Hw. induction Hws as [|v ws Hv _ IH]; intros w Hw.
  - change (join [w]) with w. rewrite <- (app_nil_r w), split_word, app_nil_r by done.
    cbn [split hd tl]. by rewrite app_nil_r.
  - change (join (w :: v :: ws)) with (w ++ slash :: join (v :: ws)). rewrite split_word by done.
    assert (split (slash :: join (v :: ws)) = [] :: split (join (v :: ws))) as -> by done.
    cbn [hd tl]. rewrite app_nil_r. by rewrite (IH v).
Qed.

Lemma words_split k x : plain_path k x ->
  Forall (fun w => Forall (fun b => b <> slash /\ b <> 0) w) (words x).
Proof.
  intros [H _]. apply Forall_app. split.
  - apply Forall_replicate. by repeat constructor.
  - revert H. apply Forall_impl. by intros w [[_ ?] _].
Qed.

(** Pushing the words of a path gives the path. *)
Lemma push_words k x l : plain_path k x ->
  foldl (push k) (Path 0 [] l) (words x) =
    Path (ups x) (names x) l.
Proof.
  intros [H1 H2]. destruct x as [u ns l']. unfold words. simpl in *. rewrite foldl_app.
  assert (foldl (push k) (Path 0 [] l) (replicate u [dot; dot]) = Path u [] l) as ->.
  { destruct k; [by rewrite H2|]. clear. change u with (0 + u)%nat at 2. generalize 0%nat as v.
    induction u as [|u IH]; intros v; [by rewrite Nat.add_0_r|]. cbn [replicate foldl].
    replace (push false (Path v [] l) [dot; dot]) with (Path (S v) [] l).
    - rewrite IH. f_equal. lia.
    - unfold push. simpl. unfold words. simpl. by rewrite orb_false_r. }
  assert (forall ms, foldl (push k) (Path u ms l) ns = Path u (ms ++ ns) l) as F; [|apply F].
  induction H1 as [|w ns [[Hw _] [N1 N2]] _ IH]; intros ms; [by rewrite app_nil_r|]. cbn [foldl].
  unfold push at 2. rewrite !decide_False by done. simpl. by rewrite IH, <- app_assoc.
Qed.

(** The places that names denote in a tree: [child d w] is called [w] in [d]. *)
Section Places.
Context {D : Type} (child : D -> list Z -> D) (parent : D -> D) (top : D).
Hypothesis parent_child : forall d w, parent (child d w) = d.
Hypothesis parent_top : parent top = top.

Definition go (d : D) (w : list Z) : D :=
  if decide (w = []) then d
  else if decide (w = [dot]) then d
  else if decide (w = [dot; dot]) then parent d
  else child d w.

Lemma go_child d w : w <> [] -> w <> [dot] -> w <> [dot; dot] -> go d w = child d w.
Proof. intros. unfold go. by rewrite !decide_False. Qed.

(** Where the name [s] leads from [d]. *)
Definition place (d : D) (s : list Z) : D :=
  foldl go (if is_rooted s then top else d) (split s).

Definition place_of (k : bool) (d : D) (x : path) : D := foldl go (if k then top else d) (words x).

Lemma place_push k d x w : plain_path k x -> place_of k d (push k x w) = go (place_of k d x) w.
Proof.
  intros [H1 H2]. unfold push, go, place_of.
  destruct (decide (w = [])) as [->|N0]; [done|].
  destruct (decide (w = [dot])) as [->|N1]; [done|].
  destruct (decide (w = [dot; dot])) as [->|N2].
  - destruct (decide (names x = [])) as [E|E].
    + destruct k.
      * unfold words. cbn [ups names]. rewrite (H2 eq_refl), E. simpl. done.
      * unfold words. cbn [ups names]. rewrite E, !app_nil_r, replicate_S_end, foldl_app. done.
    + destruct (list_snoc_cases (names x)) as [E'|(ns & v & E')]; [done|]. unfold words. cbn [ups names].
      rewrite E', removelast_last, app_assoc, (foldl_app _ _ [v]) in *.
      apply Forall_app in H1 as [_ [[[Hv _] [N1' N2']] _]%Forall_cons_1].
      cbn [foldl]. by rewrite go_child, parent_child.
  - unfold words. cbn [ups names]. rewrite app_assoc, (foldl_app _ _ [w]). cbn [foldl].
    by rewrite go_child.
Qed.

Lemma place_path s d : Forall (fun b => b <> 0) s ->
  place d s = place_of (is_rooted s) d (path_of s).
Proof.
  intros H. apply split_words in H. unfold place, path_of. revert H.
  assert (plain_path (is_rooted s) (Path 0 [] false)) as I by (split; [constructor|done]). revert I.
  change (if is_rooted s then top else d) with (place_of (is_rooted s) d (Path 0 [] false)).
  generalize (Path 0 [] false) (split s). intros x ws Hx Hws. revert x Hx.
  induction Hws as [|w ws Hw _ IH]; intros x Hx; [done|]. cbn [foldl].
  rewrite <- place_push by done. by apply IH, push_plain.
Qed.
End Places.

(** Reading back a path that was written: nothing but [lost] can change. *)
Lemma path_of_words k x l : plain_path k x ->
  foldl (push k) (Path 0 [] l) (split (join (words x))) = Path (ups x) (names x) l.
Proof.
  intros H. destruct (decide (words x = [])) as [E|N].
  - rewrite E. simpl. unfold push. simpl. unfold words in E. apply app_eq_nil in E as [E1 ->].
    by destruct (ups x).
  - rewrite split_join by (done || by eapply words_split). by apply push_words.
Qed.

Lemma is_rooted_render k x : plain_path k x -> is_rooted (render k x) = k.
Proof.
  intros H. unfold render, is_rooted. destruct k; [done|]. cbn [root app].
  pose proof (words_split _ _ H) as W. pose proof (words_ok false x) as Wo.
  destruct (words x) as [|w ws]; [done|].
  assert (exists c w', w = c :: w' /\ c <> slash) as (c & w' & -> & Hc).
  { apply Forall_cons_1 in W as [W _].
    assert (path_ok false x) as Ok. { destruct H as [H _]. split; [|done]. revert H. apply Forall_impl. by intros v [? _]. }
    apply Wo in Ok. apply Forall_cons_1 in Ok as [[Nw _] _]. destruct w as [|c w]; [done|].
    apply Forall_cons_1 in W as [[? _] _]. eauto. }
  destruct ws; cbn [join app hd]; by apply Z.eqb_neq.
Qed.

Lemma path_of_render k x : plain_path k x -> path_of (render k x) = Path (ups x) (names x) false.
Proof.
  intros H. unfold path_of. rewrite is_rooted_render by done. rewrite <- path_of_words with (k := k) by done.
  by destruct k.
Qed.

Lemma clean_plain s : Forall (fun b => b <> 0) s ->
  is_rooted (clean s) = is_rooted s /\ words (path_of (clean s)) = words (path_of s) /\
  clean (clean s) = clean s.
Proof.
  intros Hs. pose proof (path_of_plain s Hs) as Hp.
  assert (clean s = let r := render (is_rooted s) (path_of s) in
    if decide (r = []) then [dot] else if lost (path_of s) && (hd 0 r =? hash) then dot :: slash :: r else r)
    as -> by done. cbv zeta.
  set (k := is_rooted s) in *. set (st := path_of s) in *. set (r := render k st).
  pose proof (is_rooted_render k st Hp) as Rr. pose proof (path_of_render k st Hp) as Rp. fold r in Rr, Rp.
  destruct (decide (r = [])) as [E|N].
  - assert (k = false) as Ek by (unfold r, render in E; destruct k; [done|reflexivity]).
    rewrite Ek. assert (words st = []) as ->; [|done].
    assert (words (path_of r) = words st) as <- by by rewrite Rp. by rewrite E.
  - destruct (lost st && (hd 0 r =? hash)) eqn:Hl.
    + apply andb_true_iff in Hl as [_ Hh].
      assert (k = false) as Ek.
      { unfold r, render in Hh. destruct k; [done|reflexivity]. }
      assert (path_of (dot :: slash :: r) = Path (ups st) (names st) true) as P.
      { unfold path_of. change (is_rooted (dot :: slash :: r)) with false.
        change (split (dot :: slash :: r)) with ([dot] :: split r).
        change (foldl (push false) (Path 0 [] false) ([dot] :: split r)) with
          (foldl (push false) (Path 0 [] true) (split r)).
        unfold r, render. rewrite Ek in *. cbn [root app]. by apply path_of_words. }
      rewrite P. split_and!; [by rewrite Ek|done|].
      unfold clean. rewrite P. change (is_rooted (dot :: slash :: r)) with false.
      assert (render false (Path (ups st) (names st) true) = r) as -> by (unfold r; rewrite Ek; done).
      rewrite decide_False by done. by rewrite Hh.
    + rewrite Rp. split_and!; [done|done|]. unfold clean. rewrite Rr, Rp.
      assert (render k (Path (ups st) (names st) false) = r) as -> by done.
      by rewrite decide_False by done.
Qed.

Lemma clean_place {D} (child : D -> list Z -> D) parent top d s :
  (forall d w, parent (child d w) = d) -> parent top = top -> Forall (fun b => b <> 0) s ->
  Forall (fun b => b <> 0) (clean s) ->
  place child parent top d (clean s) = place child parent top d s.
Proof.
  intros H1 H2 N N'. rewrite !place_path by done. unfold place_of.
  destruct (clean_plain s N) as (-> & -> & _). done.
Qed.

(** ** Theorems *)

Lemma cstr_nonzero m p s : cstr m p s -> Forall (fun b => b <> 0) s.
Proof. by intros [_ ?]. Qed.

(** C15: [cleanname] ends on every string and leaves [clean s] in its place, the name that
    remains when empty elements and [.] are dropped and [..] takes the element before it
    away (at the root it is dropped, at the beginning of a relative name it stays); [./] is
    put in front when the beginning of the name was taken away and what is left begins with
    [#]. The result is not longer than the name was, but that the empty name becomes [.],
    and no other memory changes. *)
Theorem cleanname_correct (m : mem) (name : Z) (s : list Z) :
  cstr m name s ->
  exists m', cleanname m name = Some m' /\ cstr m' name (clean s) /\
    zlen (clean s) <= Z.max (zlen s) 1 /\
    same_out name (name + Z.max (zlen s) 1 + 1) m m'.
Proof. apply cleanname_spec. Qed.

(** "a/.//../../b/../#c/" becomes "../#c", "x/../#c" becomes "./#c". *)
Definition sample_name : list Z :=
  [97; 47; 46; 47; 47; 46; 46; 47; 46; 46; 47; 98; 47; 46; 46; 47; 35; 99; 47].
Definition device_name : list Z := [120; 47; 46; 46; 47; 35; 99].

Lemma cleanname_correct_witness :
  clean sample_name = [46; 46; 47; 35; 99] /\ clean device_name = [46; 47; 35; 99] /\
  exists m', cleanname (st_bytes ∅ 1000 (sample_name ++ [0])) 1000 = Some m' /\
    cstr m' 1000 (clean sample_name) /\ zlen (clean sample_name) <= Z.max (zlen sample_name) 1 /\
    same_out 1000 (1000 + Z.max (zlen sample_name) 1 + 1) (st_bytes ∅ 1000 (sample_name ++ [0])) m'.
Proof.
  split; [reflexivity|]. split; [reflexivity|].
  apply (cleanname_correct (st_bytes ∅ 1000 (sample_name ++ [0])) 1000 sample_name).
  closed.
Defined.

(** C31: in every tree in which [..] leads from what a directory has under some name back to
    the directory, and from the top to itself, the name that [cleanname] leaves leads to
    the same place as before, from wherever it is taken; a name that began with a slash
    still does, no other does, and cleaning it again changes nothing. *)
Theorem cleanname_keeps_the_place {D : Type} (child : D -> list Z -> D) (parent : D -> D) (top : D)
    (m : mem) (name : Z) (s : list Z) :
  (forall d w, parent (child d w) = d) -> parent top = top -> cstr m name s ->
  exists m' s', cleanname m name = Some m' /\ cstr m' name s' /\
    (forall d, place child parent top d s' = place child parent top d s) /\
    is_rooted s' = is_rooted s /\
    exists m'', cleanname m' name = Some m'' /\ cstr m'' name s'.
Proof.
  intros H1 H2 C. destruct (cleanname_spec m name s C) as (m' & E & C' & _).
  destruct (clean_plain s (cstr_nonzero _ _ _ C)) as (R & _ & P).
  destruct (cleanname_spec m' name (clean s) C') as (m'' & E' & C'' & _). rewrite P in C''.
  exists m', (clean s). split_and!; [done..| |done|eauto].
  intros d. apply clean_place; [done|done|by eapply cstr_nonzero..].
Qed.

(** A tree: a directory is the list of the names that lead to it, the last first. *)
Lemma cleanname_keeps_the_place_witness :
  let m := st_bytes ∅ 1000 (device_name ++ [0]) in
  let at_ := place (fun d w => w :: d) (@tail (list Z)) [] in
  exists m' s', cleanname m 1000 = Some m' /\ cstr m' 1000 s' /\
    (forall d, at_ d s' = at_ d device_name) /\ is_rooted s' = is_rooted device_name /\
    exists m'', cleanname m' 1000 = Some m'' /\ cstr m'' 1000 s'.
Proof.
  intros m at_.
  apply (cleanname_keeps_the_place (fun d w => w :: d) (@tail (list Z)) [] m 1000 device_name).
  - reflexivity.
  - reflexivity.
  - closed.
Defined.

(** The empty name needs a byte more than it has. *)
Example cleanname_of_nothing_grows :
  match cleanname (st_bytes ∅ 1000 [0; 1]) 1000 with
  | Some m' => bytes_at m' 1000 [46; 0]
  | None => False
  end.
Proof. vm_compute. done. Qed.
