(* ===== verification/Heap.v ===== *)
(** What a program may expect of [malloc]: the interface that the functions which allocate
    are verified against, and an allocator that has it. *)

From S2P Require Import Prelude Mem.

(** [owned m a n]: the program holds the block of [n] bytes at [a]. *)
Definition keeps_blocks (owned : mem -> Z -> Z -> Prop) (m m' : mem) : Prop :=
  forall b k, owned m b k -> owned m' b k /\ forall x, b <= x < b + k -> rd8 m' x = rd8 m x.

Class Heap (malloc : mem -> Z -> Z * mem) (owned : mem -> Z -> Z -> Prop) := {
  (** [malloc] leaves the blocks that are held alone; it fails, or gives a block that
      overlaps none of them. *)
  malloc_spec m n a m' : 0 <= n -> malloc m n = (a, m') ->
    keeps_blocks owned m m' /\
    (a = 0 \/ 0 < a /\ a + n < 2 ^ 32 /\ owned m' a n /\
       forall b k, owned m b k -> a + n <= b \/ b + k <= a);
  (** Writing into a block that is held makes no block another's. *)
  owned_write m m' a n b k :
    owned m a n -> same_out a (a + n) m m' -> owned m b k -> owned m' b k }.

#[export] Instance keeps_blocks_preorder owned : PreOrder (keeps_blocks owned).
Proof.
  split; [by intros m b k|]. intros m1 m2 m3 H1 H2 b k O.
  destruct (H1 b k O) as [O2 E2]. destruct (H2 b k O2) as [O3 E3]. split; [done|].
  intros x Hx. by rewrite E3, E2.
Qed.

Lemma keeps_cstr owned m m' a n s :
  keeps_blocks owned m m' -> owned m a n -> zlen s + 1 <= n -> cstr m a s -> cstr m' a s.
Proof.
  intros K O L [B N]. split; [|done]. apply (bytes_at_ext m); [|done].
  intros x Hx. rewrite zlen_app in Hx. change (zlen [0]) with 1 in Hx.
  apply (K a n O). lia.
Qed.

(** [malloc_spec] for a call that is known. *)
Lemma malloc_result {malloc owned} `{!Heap malloc owned} m n a m' :
  malloc m n = (a, m') -> 0 <= n ->
  keeps_blocks owned m m' /\
  (a = 0 \/ 0 < a /\ a + n < 2 ^ 32 /\ owned m' a n /\
     forall b k, owned m b k -> a + n <= b \/ b + k <= a).
Proof. intros E Hn. by apply (malloc_spec m n). Qed.

(** A block that came from [malloc] may be written: the blocks held before are kept. *)
Lemma fresh_write {malloc owned} `{!Heap malloc owned} m m1 m2 a n :
  0 <= n -> malloc m n = (a, m1) -> a <> 0 -> same_out a (a + n) m1 m2 ->
  keeps_blocks owned m m2 /\ owned m2 a n.
Proof.
  intros Hn E Na S. destruct (malloc_spec m n a m1 Hn E) as [K [?|(_ & _ & Oa & D)]]; [done|].
  split; [|by eapply owned_write]. intros b k O. destruct (K b k O) as [O1 E1].
  split; [by apply (owned_write m1 m2 a n)|]. intros x Hx. rewrite S; [by apply E1|].
  specialize (D b k O). lia.
Qed.

(** ** An allocator: blocks one after the other, the first free address at [brk_at] *)

Definition brk_at : Z := 16.

Definition brk (m : mem) : Z := unle (ld_bytes m brk_at 4).

Definition bump (m : mem) (n : Z) : Z * mem :=
  if (20 <=? brk m) && (brk m + n <? 2 ^ 32)
  then (brk m, st_bytes m brk_at (le 4 (brk m + n)))
  else (0, m).

Definition bump_owned (m : mem) (a n : Z) : Prop := 20 <= a /\ 0 <= n /\ a + n <= brk m.

Lemma brk_ext m m' : (forall x, 16 <= x < 20 -> rd8 m' x = rd8 m x) -> brk m' = brk m.
Proof. intros H. unfold brk. f_equal. by apply ld_bytes_ext. Qed.

Lemma brk_store m v : 0 <= v < 2 ^ 32 -> brk (st_bytes m brk_at (le 4 v)) = v.
Proof.
  intros H. unfold brk. change 4%nat with (Z.to_nat 4).
  rewrite (bytes_at_ld_eq _ _ (le 4 v)); [|apply bytes_at_st_bytes, le_range|done].
  rewrite unle_le. change (256 ^ Z.of_nat 4) with (2 ^ 32). by apply Z.mod_small.
Qed.

#[export] Instance bump_heap : Heap bump bump_owned.
Proof.
  split.
  - intros m n a m' Hn. unfold bump.
    destruct (Z.leb_spec 20 (brk m)); [|intros [= <- <-]; split; [done|by left]].
    destruct (Z.ltb_spec (brk m + n) (2 ^ 32)); cbn [andb]; intros E;
      apply pair_equal_spec in E as [<- <-]; [|split; [done|by left]].
    assert (brk (st_bytes m brk_at (le 4 (brk m + n))) = brk m + n) as Eb by (apply brk_store; lia).
    split; [|right; split_and!; [lia|done| |]].
    + intros b k (H1 & H2 & H3). unfold bump_owned. rewrite Eb. split; [lia|].
      intros x Hx. apply rd8_st_bytes_out. rewrite zlen_le. unfold brk_at. lia.
    + unfold bump_owned. rewrite Eb. lia.
    + intros b k (H1 & H2 & H3). lia.
  - intros m m' a n b k (H1 & H2 & H3) S (H4 & H5 & H6). unfold bump_owned.
    rewrite (brk_ext m m'); [done|]. intros x Hx. apply S. lia.
Qed.
