(* ===== verification/Quote.v ===== *)
(** Quoted words and command lines: src/libc/port/quote.c, the scan of
    src/libc/fmt/fmtquote.c that it calls, needsrcquote.c, tokenize.c, strdup.c,
    strcpy.c, and the commands that are written to files of a server, parsecmd of
    src/lib9p/parse.c.

    [malloc] is a parameter: the address of a block, 0 when there is none, and the memory
    after the call. String constants are read from a memory of their own, [lit]. Fuel as in
    Utf: one more than the number of bytes stored when the function is called. *)

From S2P Require Import Prelude Mem Utf.

Definition quote := 39.
Definition blank := 32.
Definition tab := 9.

(** A string constant, at address 1 of a memory of its own. *)
Definition lit (l : list Z) : mem := st_bytes ∅ 1 (l ++ [0]).

(** A pointer stored in memory. *)
Definition put_ptr (m : mem) (a p : Z) : mem := st_bytes m a (le 4 p).
Definition get_ptr (m : mem) (a : Z) : Z := unle (ld_bytes m a 4).

(** ** needsrcquote.c *)

(** "`^#*[]=|\?${}()'<>&;" *)
Definition rc_special : list Z :=
  [96; 94; 35; 42; 91; 93; 61; 124; 92; 63; 36; 123; 125; 40; 41; 39; 60; 62; 38; 59].

Definition needsrcquote (c : Z) : bool :=
  if c <=? blank then true
  else match strchr (lit rc_special) 1 c with Some a => negb (a =? 0) | None => false end.

(** ** The scan of fmtquote.c *)

Record Quoteinfo := QuoteI {
  quoted : bool; nrunesin : Z; nbytesin : Z; nrunesout : Z; nbytesout : Z }.

Section Setup.
(** [doquote], nil or a function of the program. *)
Context (doquote : option (Z -> bool)).

Definition asks_quote (c : Z) : bool := match doquote with None => false | Some f => f c end.

(** One rune [c] of [w] bytes; [false] leaves the loop. *)
Definition quote_rune (q : Quoteinfo) (c w nout : Z) (runesout : bool) : bool * Quoteinfo :=
  let '(QuoteI qd ri bi ro bo) := q in
  let advance (q : Quoteinfo) :=
    (true, QuoteI (quoted q) (nrunesin q + 1) (nbytesin q + w) (nrunesout q + 1) (nbytesout q + w)) in
  if if runesout then nout <? ro + 1 else nout <? bo + w then (false, q)
  else if (c <=? blank) || (c =? quote) || asks_quote c then
    if negb qd && (if runesout then nout <? 1 + ro + 1 + 1 else nout <? 1 + bo + w + 1)
    then (false, q)
    else
      let '(QuoteI qd ri bi ro bo) := if qd then q else QuoteI true ri bi (ro + 2) (bo + 2) in
      if c =? quote then
        if if runesout then nout <? 1 + ro + 1 else nout <? 1 + bo + w
        then (false, QuoteI qd ri bi ro bo)
        else advance (QuoteI qd ri bi (ro + 1) (bo + 1))
      else advance (QuoteI qd ri bi ro bo)
  else advance q.

(** The loop, over the bytes at [s], or over the runes at [r] when [s] is nil. *)
Fixpoint quote_loop (fuel : nat) (m : mem) (s r nin nout : Z) (q : Quoteinfo) (runesout : bool) :
    option Quoteinfo :=
  match fuel with
  | O => None
  | S f =>
      if nin =? 0 then Some q
      else
        let '(c, w) := if s =? 0 then (rune_get m r, runelen (rune_get m r)) else chartorune m s in
        if c =? 0 then Some q
        else
          let '(go, q) := quote_rune q c w nout runesout in
          if go then
            quote_loop f m (if s =? 0 then 0 else s + w) (if s =? 0 then r + 2 else r)
              (s32 (nin - 1)) nout q runesout
          else Some q
  end.

Definition _quotesetup (m : mem) (s r nin nout : Z) (sharp runesout : bool) : option Quoteinfo :=
  let q := QuoteI false 0 0 0 0 in
  let empty := sharp || (nin =? 0) || (negb (s =? 0) && (rd8 m s =? 0)) ||
    (negb (r =? 0) && (rune_get m r =? 0)) in
  if empty && (nout <? 2) then Some q
  else
    quote_loop (fuel_of m) m s r nin nout
      (if empty then QuoteI true 0 0 2 2 else q) runesout.

Definition _needsquotes (m : mem) (s : Z) : option (bool * Z) :=
  match _quotesetup m s 0 (-1) (2 ^ 31 - 1) false false with
  | None => None
  | Some q => Some (quoted q, nbytesout q)
  end.
End Setup.

(** ** quote.c, strdup.c *)

Fixpoint strcpy_loop (fuel : nat) (m : mem) (s1 s2 : Z) : option mem :=
  match fuel with
  | O => None
  | S f =>
      let '(e, m) := memccpy m s1 s2 0 10000 in
      if e =? 0 then strcpy_loop f m (s1 + 10000) (s2 + 10000) else Some m
  end.

Definition strcpy (m : mem) (s1 s2 : Z) : option mem := strcpy_loop (fuel_of m) m s1 s2.

(** [s] points to where the next byte of the output goes, [t] to the input: copy up to a
    separator outside quotes, for which [sep] gives an address that is not nil. *)
Fixpoint unquote_loop (fuel : nat) (sep : mem -> Z -> option Z) (m : mem) (s t : Z) (quoting : bool) :
    option (Z * Z * mem) :=
  match fuel with
  | O => None
  | S f =>
      let c := chr m t in
      if c =? 0 then Some (s, t, m)
      else
        match if quoting then Some 0 else sep m c with
        | None => None
        | Some a =>
            if negb (a =? 0) then Some (s, t, m)
            else if negb (c =? quote) then
              unquote_loop f sep (wr8 m s (rd8 m t)) (s + 1) (t + 1) quoting
            else if negb quoting then unquote_loop f sep m s (t + 1) true
            else if negb (chr m (t + 1) =? quote) then unquote_loop f sep m s (t + 1) false
            else unquote_loop f sep (wr8 m s (rd8 m (t + 1))) (s + 1) (t + 2) quoting
        end
  end.

Section Alloc.
Context (malloc : mem -> Z -> Z * mem).

Definition strdup (m : mem) (s : Z) : option (Z * mem) :=
  let '(ns, m) := malloc m (strlen m s + 1) in
  if ns =? 0 then Some (0, m)
  else match strcpy m ns s with Some m => Some (ns, m) | None => None end.

(** The separators of [unquotestrdup] are blank and tab. *)
Definition unquotestrdup (m : mem) (s : Z) : option (Z * mem) :=
  match strdup m s with
  | None => None
  | Some (ret, m) =>
      if ret =? 0 then Some (0, m)
      else
        match unquote_loop (fuel_of m) (fun _ c => Some (if (c =? blank) || (c =? tab) then 1 else 0))
                m ret ret false with
        | None => None
        | Some (s, t, m) => Some (ret, if t =? s then m else memmove m s t (strlen m t + 1))
        end
  end.

(** The loop of [quotestrdup]; [r] is a rune made of a [char]. *)
Fixpoint double_quotes (fuel : nat) (m : mem) (t u : Z) : option (Z * mem) :=
  match fuel with
  | O => None
  | S f =>
      if chr m t =? 0 then Some (u, m)
      else
        let r := u16 (chr m t) in
        let '(u, m) := if r =? quote then (u + 1, wr8 m u r) else (u, m) in
        double_quotes f (wr8 m u r) (t + 1) (u + 1)
  end.

Definition quotestrdup (doquote : option (Z -> bool)) (m : mem) (s : Z) : option (Z * mem) :=
  match _needsquotes doquote m s with
  | None => None
  | Some (false, _) => strdup m s
  | Some (true, quotelen) =>
      let '(ret, m) := malloc m (quotelen + 1) in
      if ret =? 0 then Some (0, m)
      else
        match double_quotes (fuel_of m) (wr8 m ret quote) s (ret + 1) with
        | None => None
        | Some (u, m) => Some (ret, wr8 (wr8 m u quote) (u + 1) 0)
        end
  end.
End Alloc.

(** ** tokenize.c *)

Definition qsep : list Z := [32; 9; 13; 10].

Fixpoint skip_seps (fuel : nat) (sep : mem -> Z -> option Z) (m : mem) (s : Z) : option Z :=
  match fuel with
  | O => None
  | S f =>
      if chr m s =? 0 then Some s
      else
        match sep m (chr m s) with
        | None => None
        | Some a => if a =? 0 then Some s else skip_seps f sep m (s + 1)
        end
  end.

Definition qtoken (fuel : nat) (sep : mem -> Z -> option Z) (m : mem) (s : Z) : option (Z * mem) :=
  match unquote_loop fuel sep m s s false with
  | None => None
  | Some (s, t, m) =>
      if chr m s =? 0 then Some (t, m)
      else Some (if t =? s then t + 1 else t, wr8 m s 0)
  end.

(** [n] arguments may still be stored. *)
Fixpoint tokenize_loop (n fuel : nat) (sep : mem -> Z -> option Z) (m : mem) (s args nargs : Z) :
    option (Z * mem) :=
  match n with
  | O => Some (nargs, m)
  | S n' =>
      match skip_seps fuel sep m s with
      | None => None
      | Some s =>
          if chr m s =? 0 then Some (nargs, m)
          else
            match qtoken fuel sep (put_ptr m (args + 4 * nargs) s) s with
            | None => None
            | Some (s, m) => tokenize_loop n' fuel sep m s args (nargs + 1)
            end
      end
  end.

Definition tokenize (m : mem) (s args maxargs : Z) : option (Z * mem) :=
  tokenize_loop (Z.to_nat maxargs) (fuel_of m) (fun _ c => utfrune (lit qsep) 1 c) m s args 0.

(** ** lib9p/parse.c *)

Fixpoint ncmdfield_loop (n : nat) (m : mem) (p : Z) (white : bool) (nf : Z) : Z :=
  match n with
  | O => nf
  | S n' =>
      let nwhite := match strchr (lit qsep) 1 (Z.land (chr m p) 255) with
                    | Some a => negb (a =? 0) | None => true end in
      ncmdfield_loop n' m (p + 1) nwhite (if white && negb nwhite then nf + 1 else nf)
  end.

Definition ncmdfield (m : mem) (p n : Z) : Z :=
  if p =? 0 then 1 else ncmdfield_loop (Z.to_nat n) m p true 0 + 1.

(** The fields of a [Cmdbuf]. *)
Definition cb_buf (cb : Z) : Z := cb.
Definition cb_f (cb : Z) : Z := cb + 4.
Definition cb_nf (cb : Z) : Z := cb + 8.
Definition sizeof_Cmdbuf : Z := 12.

(** [emalloc9p] does not return without a block. *)
Definition emalloc9p (malloc : mem -> Z -> Z * mem) (m : mem) (sz : Z) : option (Z * mem) :=
  let '(v, m) := malloc m sz in
  if v =? 0 then None else Some (v, memset m v 0 sz).

(** The size is computed in 32 bits. *)
Definition parsecmd (malloc : mem -> Z -> Z * mem) (m : mem) (p n : Z) : option (Z * mem) :=
  let nf := ncmdfield m p n in
  match emalloc9p malloc m (u32 (sizeof_Cmdbuf + nf * 4 + n + 1)) with
  | None => None
  | Some (cb, m) =>
      let f := cb + sizeof_Cmdbuf in
      let buf := f + 4 * nf in
      let m := put_ptr m (cb_f cb) f in
      let m := put_ptr m (cb_buf cb) buf in
      let m := memmove m buf p n in
      let n := if (0 <? n) && (chr m (buf + n - 1) =? 10) then n - 1 else n in
      let m := wr8 m (buf + n) 0 in
      match tokenize m buf f (nf - 1) with
      | None => None
      | Some (k, m) =>
          let m := put_ptr m (cb_nf cb) k in
          Some (cb, put_ptr m (f + 4 * k) 0)
      end
  end.
