(* ===== verification/QuoteSpec.v ===== *)
(** Quoted words as lists: which words are quoted and how, how a line is split into words,
    and that the code of Quote does that in place. *)

From S2P Require Import Prelude Mem Utf UtfSpec Heap Quote.

(** ** The specification *)

(** A word with its quotes doubled. *)
Definition doubled (w : list Z) : list Z :=
  concat (map (fun b => if b =? quote then [quote; quote] else [b]) w).

Section Needs.
Context (doquote : option (Z -> bool)).

Definition quote_worthy (c : Z) : bool := (c <=? blank) || (c =? quote) || asks_quote doquote c.

(** A word needs quotes if it is empty or holds a rune that asks for them. *)
Definition needs (w : list Z) : bool :=
  bool_decide (w = []) || existsb quote_worthy (map fst (runes w)).

Definition quoted_word (w : list Z) : list Z :=
  if needs w then quote :: doubled w ++ [quote] else w.
End Needs.

(** White space; the NUL behind a line counts as well. *)
Definition is_sep (b : Z) : bool := bool_decide (b ∈ 0 :: qsep).

Section Split.
(** The bytes that separate words. *)
Context (issep : Z -> bool).

(** The first word of a line, unquoted, and what follows it; [q] inside quotes. *)
Fixpoint token (q : bool) (l : list Z) : list Z * list Z :=
  match l with
  | [] => ([], [])
  | c :: l' =>
      if negb q && issep c then ([], l)
      else if negb (c =? quote) then let '(o, r) := token q l' in (c :: o, r)
      else if negb q then token true l'
      else
        match l' with
        | d :: l'' => if d =? quote then let '(o, r) := token q l'' in (d :: o, r) else token false l'
        | [] => ([], [])
        end
  end.

Fixpoint skip (l : list Z) : list Z :=
  match l with
  | [] => []
  | c :: l' => if issep c then skip l' else l
  end.

(** The words of a line. *)
Fixpoint tokens_upto (n : nat) (l : list Z) : list (list Z) :=
  match n with
  | O => []
  | S n' =>
      match skip l with
      | [] => []
      | _ => let '(o, r) := token false (skip l) in o :: tokens_upto n' r
      end
  end.

Definition tokens (l : list Z) : list (list Z) := tokens_upto (length l) l.

(** The words that white space alone makes of a line. *)
Fixpoint fields (white : bool) (l : list Z) : Z :=
  match l with
  | [] => 0
  | c :: l' => (if white && negb (issep c) then 1 else 0) + fields (issep c) l'
  end.

(** ** Facts about lines *)

Lemma token_rest q l : exists pre, l = pre ++ snd (token q l) /\
  zlen (fst (token q l)) <= zlen pre.
Proof.
  revert q. induction l as [l IH] using string_ind; intros q. destruct l as [|c l]; [by exists []|].
  cbn [token]. destruct (negb q && issep c); [by exists []|].
  assert (forall l' q', (length l' < length (c :: l))%nat -> forall k, l = k ++ l' -> zlen k <= 1 ->
    exists pre, c :: l = pre ++ snd (token q' l') /\ zlen (fst (token q' l')) + 1 <= zlen pre) as Step.
  { intros l' q' L k -> _. destruct (IH l' L q') as (pre & E & Hz). exists (c :: k ++ pre).
    split; [simpl; rewrite <- app_assoc; by rewrite <- E|]. rewrite zlen_cons, zlen_app.
    pose proof (zlen_nonneg k). lia. }
  destruct (negb (c =? quote)).
  { destruct (Step l q ltac:(simpl; lia) []) as (pre & E & Hz); [done|by change (zlen []) with 0|].
    destruct (token q l) as [o r]. exists pre. split; [done|]. simpl in *. rewrite zlen_cons. lia. }
  destruct q; cbn [negb].
  - destruct l as [|d l]; [exists [c]; split; [done|]; by rewrite zlen_cons|].
    destruct (d =? quote).
    + destruct (Step l true ltac:(simpl; lia) [d]) as (pre & E & Hz); [done|by rewrite zlen_cons|].
      destruct (token true l) as [o r]. exists pre. split; [done|]. simpl in *. rewrite zlen_cons. lia.
    + destruct (Step (d :: l) false ltac:(simpl; lia) []) as (pre & E & Hz); [done|by change (zlen []) with 0|].
      exists pre. split; [done|]. lia.
  - destruct (Step l true ltac:(simpl; lia) []) as (pre & E & Hz); [done|by change (zlen []) with 0|].
    exists pre. split; [done|]. lia.
Qed.
End Split.

(** ** Splitting in place *)

Section InPlace.
Context (issep : Z -> bool) (sep : mem -> Z -> option Z).
Hypothesis sep_spec : forall m b, 0 < b < 256 ->
  exists a, sep m (s8 b) = Some a /\ (a =? 0) = negb (issep b).

Lemma token_sep q l : snd (token issep q l) = [] \/
  exists c r, snd (token issep q l) = c :: r /\ issep c = true.
Proof.
  revert q. induction l as [l IH] using string_ind; intros q. destruct l as [|c l]; [by left|].
  cbn [token]. destruct (negb q && issep c) eqn:E.
  { right. apply andb_true_iff in E as [_ E]. by exists c, l. }
  destruct (negb (c =? quote)).
  { specialize (IH l ltac:(simpl; lia) q). by destruct (token issep q l). }
  destruct (negb q); [apply IH; simpl; lia|]. destruct l as [|d l]; [by left|].
  destruct (d =? quote); [|apply IH; simpl; lia].
  specialize (IH l ltac:(simpl; lia) q). by destruct (token issep q l).
Qed.

Lemma chr_nil m t : cstr m t [] -> chr m t = 0.
Proof. intros C. unfold chr. by rewrite (rd8_nil _ _ C). Qed.

Lemma chr_cons m t c l : cstr m t (c :: l) ->
  chr m t = s8 c /\ rd8 m t = c /\ 0 < c < 256 /\ (s8 c =? 0) = false /\
  (s8 c =? quote) = (c =? quote) /\ cstr m (t + 1) l.
Proof.
  intros (E & N & C)%cstr_cons. pose proof (rd8_range m t) as R. rewrite E in R.
  unfold chr. rewrite E. split_and!; try done; try lia.
  - rewrite s8_0 by done. by apply Z.eqb_neq.
  - by rewrite <- (s8_inj c quote) by (done || lia).
Qed.

(** The loop has put [fst w] at [s], and [snd w] is left, which ends at [e]. *)
Definition unquoted (m : mem) (s e : Z) (w : list Z * list Z) (res : option (Z * Z * mem)) : Prop :=
  exists m', res = Some (s + zlen (fst w), e - zlen (snd w), m') /\
    bytes_at m' s (fst w) /\ cstr m' (e - zlen (snd w)) (snd w) /\
    same_out s (s + zlen (fst w)) m m'.

Lemma unquoted_copy m s e d w res :
  unquoted (wr8 m s d) (s + 1) e w res -> 0 <= d < 256 ->
  unquoted m s e (let '(o, r) := w in (d :: o, r)) res.
Proof.
  destruct w as [o r]. intros (m' & -> & B & C & O) Rd. unfold unquoted. simpl in *.
  pose proof (zlen_nonneg o). rewrite zlen_cons. exists m'.
  replace (s + (1 + zlen o)) with (s + 1 + zlen o) by lia. split_and!; [done| |done|].
  - apply bytes_at_cons. split; [|done]. rewrite O by lia. rewrite rd8_wr8_eq. by apply u8_small.
  - transitivity (wr8 m s d); [apply wr8_same_out; lia|]. eapply same_out_weaken; [exact O|lia..].
Qed.

Lemma unquote_loop_spec fuel q m s t l e :
  cstr m t l -> s <= t -> (length l < fuel)%nat -> e = t + zlen l ->
  unquoted m s e (token issep q l) (unquote_loop fuel sep m s t q).
Proof.
  revert q m s t l. induction fuel as [|f IH]; intros q m s t l C L Lf He; [lia|]. cbn [unquote_loop].
  destruct l as [|c l].
  { rewrite (chr_nil _ _ C). exists m. subst e. cbn [token fst snd]. change (zlen []) with 0.
    rewrite !Z.add_0_r, Z.sub_0_r.
    split_and!; [done|done|done|apply same_out_refl]. }
  destruct (chr_cons _ _ _ _ C) as (-> & Ec & Rc & -> & -> & C1). cbn [token].
  destruct (sep_spec m c Rc) as (a & Ea & Hs). simpl in Lf. rewrite zlen_cons in He.
  assert (Hcopy : forall d t' l' q', cstr m t' l' -> s < t' -> (length l' < f)%nat -> e = t' + zlen l' ->
    0 <= d < 256 ->
    unquoted m s e (let '(o, r) := token issep q' l' in (d :: o, r))
      (unquote_loop f sep (wr8 m s d) (s + 1) t' q')).
  { intros d t' l' q' C' L' Ll El Rd. apply unquoted_copy; [|done]. apply IH; [|lia|done|done].
    apply (cstr_same_out s (s + 1) m); [apply wr8_same_out; lia|lia|done]. }
  assert (Hstop : negb q && issep c = true ->
    unquoted m s e (if negb q && issep c then ([], c :: l) else ([], [])) (Some (s, t, m))).
  { intros ->. exists m. cbn [fst snd]. change (zlen []) with 0. rewrite zlen_cons.
    replace (e - (1 + zlen l)) with t by lia. rewrite Z.add_0_r.
    split_and!; [done|done|done|apply same_out_refl]. }
  destruct q; cbn [negb andb] in *.
  - change (0 =? 0) with true. cbn [negb]. destruct (Z.eqb_spec c quote) as [->|N]; cbn [negb].
    + destruct l as [|d l].
      * rewrite (chr_nil _ _ C1). change (0 =? quote) with false. cbn [negb].
        exact (IH false _ s (t + 1) [] C1 ltac:(lia) ltac:(simpl; lia) ltac:(lia)).
      * destruct (chr_cons _ _ _ _ C1) as (-> & Ed & Rd & _ & -> & C2). rewrite zlen_cons in He.
        simpl in Lf. destruct (Z.eqb_spec d quote) as [->|N]; cbn [negb].
        -- rewrite Ed. replace (t + 2) with (t + 1 + 1) by lia. apply Hcopy; try done; lia.
        -- apply (IH false); [done|lia|simpl; lia|rewrite zlen_cons; lia].
    + rewrite Ec. apply Hcopy; try done; lia.
  - rewrite Ea, Hs. destruct (issep c); cbn [negb] in *; [by apply Hstop|].
    destruct (Z.eqb_spec c quote) as [->|N]; cbn [negb].
    + apply IH; [done|lia|lia|lia].
    + rewrite Ec. apply Hcopy; try done; lia.
Qed.
Lemma token_forall (P : Z -> Prop) q l : Forall P l ->
  Forall P (fst (token issep q l)) /\ Forall P (snd (token issep q l)).
Proof.
  revert q. induction l as [l IH] using string_ind; intros q H. destruct H as [|c l Hc H]; [done|].
  cbn [token]. assert (forall q, Forall P (fst (token issep q l)) /\ Forall P (snd (token issep q l))) as IHl
    by (intros; apply IH; [simpl; lia|done]).
  destruct (negb q && issep c); [split; [constructor|by constructor]|].
  destruct (negb (c =? quote)).
  { specialize (IHl q). destruct (token issep q l). split; [constructor; [done|]|]; apply IHl. }
  destruct (negb q); [apply IHl|]. destruct H as [|d l Hd H]; [done|].
  destruct (d =? quote); [|apply IHl].
  specialize (IH l ltac:(simpl; lia) q H). destruct (token issep q l). split; [constructor; [done|]|]; apply IH.
Qed.

Lemma skip_seps_spec fuel m s l :
  cstr m s l -> (length l < fuel)%nat ->
  skip_seps fuel sep m s = Some (s + zlen l - zlen (skip issep l)) /\
  cstr m (s + zlen l - zlen (skip issep l)) (skip issep l).
Proof.
  revert s l. induction fuel as [|f IH]; intros s l C L; [lia|]. cbn [skip_seps].
  destruct l as [|c l].
  { rewrite (chr_nil _ _ C). cbn [skip]. by replace (s + zlen [] - zlen []) with s by lia. }
  destruct (chr_cons _ _ _ _ C) as (-> & _ & Rc & -> & _ & C1). cbn [skip]. simpl in L.
  destruct (sep_spec m c Rc) as (a & -> & ->). destruct (issep c); cbn [negb].
  - destruct (IH _ _ C1) as [-> C2]; [lia|]. rewrite zlen_cons.
    by replace (s + (1 + zlen l) - zlen (skip issep l)) with (s + 1 + zlen l - zlen (skip issep l)) by lia.
  - by replace (s + zlen (c :: l) - zlen (c :: l)) with s by lia.
Qed.

(** [qtoken] leaves the word at [s] and goes on behind it. *)
Lemma qtoken_spec fuel m s l e :
  cstr m s l -> (length l < fuel)%nat -> e = s + zlen l ->
  let '(o, r) := token issep false l in
  exists t m' r', qtoken fuel sep m s = Some (t, m') /\ cstr m' s o /\ cstr m' t r' /\
    t + zlen r' = e /\ (r' = r \/ exists c, r = c :: r' /\ issep c = true) /\
    s + zlen o <= t /\ (r' <> [] -> s + zlen o + 1 <= t) /\ same_out s e m m'.
Proof.
  intros C L E. unfold qtoken.
  pose proof (unquote_loop_spec fuel false m s s l e C ltac:(lia) L E) as U.
  pose proof (token_sep false l) as Rs. pose proof (token_rest issep false l) as (pre & El & Lo).
  destruct (token_forall (fun b => b <> 0) false l) as [No Nr]; [by destruct C|].
  destruct (token issep false l) as [o r]. destruct U as (m1 & -> & B & Cr & O). simpl in *.
  apply (f_equal zlen) in El. rewrite zlen_app in El. pose proof (zlen_nonneg o). pose proof (zlen_nonneg r).
  assert (same_out s e m m1) as O1 by (eapply same_out_weaken; [exact O|lia..]).
  assert (chr m1 (s + zlen o) = 0 <-> rd8 m1 (s + zlen o) = 0) as Hz.
  { unfold chr. pose proof (s8_0 _ (rd8_range m1 (s + zlen o))). rewrite <- !Z.eqb_eq. by rewrite H1. }
  destruct (Z.eqb_spec (chr m1 (s + zlen o)) 0) as [E0|N0].
  - exists (e - zlen r), m1, r. split_and!; try done; try lia.
    + split; [|done]. apply bytes_at_app. split; [done|]. apply bytes_at_cons. split; [by apply Hz|done].
    + by left.
    + intros Hr. destruct (Z.eq_dec (s + zlen o) (e - zlen r)) as [E1|]; [|lia].
      exfalso. rewrite E1, (cstr_hd _ _ _ Cr) in Hz. destruct r as [|c r]; [done|].
      apply Forall_cons_1 in Nr as [Nr _]. simpl in Hz. rewrite <- E1 in Hz. tauto.
  - assert (cstr (wr8 m1 (s + zlen o) 0) s o) as Co.
    { split; [|done]. apply bytes_at_app. split.
      - eapply bytes_at_same_out; [apply (wr8_same_out _ (s + zlen o) _ (s + zlen o) (s + zlen o + 1)); lia|lia|done].
      - apply bytes_at_cons. by rewrite rd8_wr8_eq. }
    assert (s + zlen o < e) as Le.
    { destruct (Z.eq_dec (s + zlen o) e) as [E1|]; [|lia]. exfalso. apply N0, Hz. rewrite E1.
      assert (r = []) as -> by (destruct r; [done|rewrite zlen_cons in *; pose proof (zlen_nonneg r); lia]).
      change (zlen []) with 0 in Cr. rewrite Z.sub_0_r in Cr. by apply rd8_nil. }
    assert (same_out s e m (wr8 m1 (s + zlen o) 0)) as O2.
    { transitivity m1; [done|]. apply wr8_same_out. lia. }
    destruct (Z.eqb_spec (e - zlen r) (s + zlen o)) as [E1|N1].
    + destruct r as [|c r]; [change (zlen []) with 0 in *; lia|]. rewrite zlen_cons in *.
      exists (e - (1 + zlen r) + 1), (wr8 m1 (s + zlen o) 0), r. split_and!; try done; try lia.
      * apply cstr_cons in Cr as (_ & _ & Cr).
        apply (cstr_same_out (s + zlen o) (s + zlen o + 1) m1); [apply wr8_same_out; lia|lia|done].
      * right. destruct Rs as [[=]|(c' & r' & [= <- <-] & Hc)]. by exists c.
    + exists (e - zlen r), (wr8 m1 (s + zlen o) 0), r. split_and!; try done; try lia.
      * apply (cstr_same_out (s + zlen o) (s + zlen o + 1) m1); [apply wr8_same_out; lia|lia|done].
      * by left.
Qed.

(** The pointers at [a] lead, one after the other, to the strings [ws], which lie in order
    between [lo] and [hi]. *)
Fixpoint argv (m : mem) (a : Z) (ws : list (list Z)) (lo hi : Z) : Prop :=
  match ws with
  | [] => True
  | w :: ws' =>
      let p := get_ptr m a in
      cstr m p w /\ lo <= p /\ p + zlen w + 1 <= hi /\ argv m (a + 4) ws' (p + zlen w) hi
  end.

Lemma get_put_ptr m a p : 0 <= p < 2 ^ 32 -> get_ptr (put_ptr m a p) a = p.
Proof.
  intros H. unfold get_ptr, put_ptr.
  change 4%nat with (Z.to_nat 4). rewrite (bytes_at_ld_eq _ _ (le 4 p)); [|apply bytes_at_st_bytes, le_range|done].
  rewrite unle_le. change (256 ^ Z.of_nat 4) with (2 ^ 32). by apply Z.mod_small.
Qed.

Lemma put_ptr_same_out m a p lo hi : lo <= a -> a + 4 <= hi -> same_out lo hi m (put_ptr m a p).
Proof. intros. apply st_bytes_same_out; [done|]. rewrite zlen_le. lia. Qed.

Lemma get_ptr_ext m m' a : (forall x, a <= x < a + 4 -> rd8 m' x = rd8 m x) -> get_ptr m' a = get_ptr m a.
Proof. intros H. unfold get_ptr. f_equal. by apply ld_bytes_ext. Qed.

(** What neither the pointers nor the strings are stored in may change. *)
Lemma argv_ext m m' a ws lo hi :
  argv m a ws lo hi ->
  (forall x, a <= x < a + 4 * zlen ws \/ lo <= x < hi -> rd8 m' x = rd8 m x) ->
  argv m' a ws lo hi.
Proof.
  revert a lo. induction ws as [|w ws IH]; intros a lo H E; [done|]. cbn [argv] in *.
  rewrite zlen_cons in E. pose proof (zlen_nonneg ws). pose proof (zlen_nonneg w).
  rewrite (get_ptr_ext m m') by (intros; apply E; lia).
  destruct H as ([B N] & X1 & X2 & X3). split_and!; try done.
  - split; [|done]. apply (bytes_at_ext m); [|done]. intros x Hx.
    rewrite zlen_app, zlen_cons in Hx. change (zlen []) with 0 in Hx. apply E. lia.
  - apply IH; [done|]. intros x Hx. apply E. lia.
Qed.

Lemma argv_hi m a ws lo hi hi' : argv m a ws lo hi -> hi <= hi' -> argv m a ws lo hi'.
Proof.
  revert a lo. induction ws as [|w ws IH]; intros a lo H L; [done|]. cbn [argv] in *.
  destruct H as (X1 & X2 & X3 & X4). split_and!; [done|done|lia|by apply IH].
Qed.

Lemma argv_lo m a ws lo lo' hi : argv m a ws lo hi -> lo' <= lo -> argv m a ws lo' hi.
Proof. destruct ws; [done|]. cbn [argv]. intros (X1 & X2 & X3 & X4) L. split_and!; [done|lia|done|done]. Qed.

Lemma tokens_upto_sep n c l : issep c = true -> tokens_upto issep n (c :: l) = tokens_upto issep n l.
Proof. intros H. destruct n; [done|]. cbn [tokens_upto skip]. by rewrite H. Qed.

Lemma tokens_upto_length n l : zlen (tokens_upto issep n l) <= Z.of_nat n.
Proof.
  revert l. induction n as [|n IH]; intros l; [done|]. cbn [tokens_upto].
  destruct (skip issep l) as [|c l']; [change (zlen []) with 0; lia|].
  destruct (token issep false (c :: l')) as [o r].
  rewrite zlen_cons. specialize (IH r). lia.
Qed.

Lemma skip_head l : skip issep l = [] \/ exists c l', skip issep l = c :: l' /\ issep c = false.
Proof.
  induction l as [|c l IH]; [by left|]. cbn [skip]. destruct (issep c) eqn:E; [done|]. right. eauto.
Qed.

Lemma skip_length l : (length (skip issep l) <= length l)%nat.
Proof. induction l as [|c l IH]; [done|]. cbn [skip]. case_match; simpl; lia. Qed.

Lemma tokenize_loop_spec n fuel m s l args nargs e :
  cstr m s l -> (length l < fuel)%nat -> e = s + zlen l -> 0 < s -> e < 2 ^ 32 ->
  args + 4 * (nargs + Z.of_nat n) <= s \/ e + 1 <= args + 4 * nargs ->
  let ws := tokens_upto issep n l in
  exists m', tokenize_loop n fuel sep m s args nargs = Some (nargs + zlen ws, m') /\
    argv m' (args + 4 * nargs) ws s (e + 1) /\
    (forall x, ~ (s <= x < e) -> ~ (args + 4 * nargs <= x < args + 4 * (nargs + zlen ws)) ->
       rd8 m' x = rd8 m x).
Proof.
  revert m s l nargs. induction n as [|n IH]; intros m s l nargs C L E P Hi D.
  { exists m. cbn [tokens_upto]. change (zlen []) with 0. rewrite Z.add_0_r. done. }
  cbn [tokenize_loop tokens_upto]. cbv zeta.
  destruct (skip_seps_spec fuel m s l C L) as [-> C1]. pose proof (skip_length l) as Ls.
  set (s1 := s + zlen l - zlen (skip issep l)) in *.
  assert (s <= s1) by (unfold s1, zlen; lia).
  destruct (skip_head l) as [Es|(c & l' & Es & Hc)].
  { rewrite Es in *. rewrite (chr_nil _ _ C1). exists m. change (zlen []) with 0.
    rewrite Z.add_0_r. done. }
  rewrite Es in *. destruct (chr_cons _ _ _ _ C1) as (-> & _ & _ & -> & _ & _).
  set (m1 := put_ptr m (args + 4 * nargs) s1).
  assert (same_out (args + 4 * nargs) (args + 4 * nargs + 4) m m1) as O1 by (apply put_ptr_same_out; lia).
  assert (e = s1 + zlen (c :: l')) as E1 by (unfold s1; rewrite Es; lia). pose proof (zlen_nonneg (c :: l')).
  assert (cstr m1 s1 (c :: l')) as C2.
  { eapply cstr_same_out; [exact O1|lia|done]. }
  pose proof (qtoken_spec fuel m1 s1 _ e C2 ltac:(lia) E1) as Q.
  pose proof (token_rest issep false (c :: l')) as (pre & El & _).
  destruct (token issep false (c :: l')) as [o r].
  destruct Q as (t & m2 & r' & -> & Co & Cr & Et & Hr & Lt & Lt' & O2). simpl in El.
  assert (length r' <= length r)%nat as Lr by (destruct Hr as [->|(d & -> & _)]; simpl; lia).
  assert (length r <= length (c :: l'))%nat as Lr' by (rewrite El, length_app; lia).
  pose proof (zlen_nonneg o). pose proof (zlen_nonneg r').
  destruct (IH m2 t r' (nargs + 1) Cr ltac:(lia) ltac:(lia) ltac:(lia) Hi ltac:(lia)) as (m3 & -> & A & O3).
  assert (tokens_upto issep n r' = tokens_upto issep n r) as Er.
  { destruct Hr as [->|(d & -> & Hd)]; [done|]. by rewrite tokens_upto_sep. }
  rewrite Er in *. set (ws := tokens_upto issep n r) in *. pose proof (zlen_nonneg ws).
  pose proof (tokens_upto_length n r) as Ln. fold ws in Ln. rewrite zlen_cons in *. exists m3. split_and!; [f_equal; f_equal; lia| |].
  - cbn [argv].
    assert (get_ptr m3 (args + 4 * nargs) = s1) as ->.
    { rewrite (get_ptr_ext m1) by (intros; rewrite O3, O2 by lia; done). apply get_put_ptr. lia. }
    assert (r' = [] -> t = e) as Tr by (intros ->; change (zlen []) with 0 in Et; lia).
    assert (s1 + zlen o + 1 <= t \/ t = e) as Tt by (destruct r'; [right; by apply Tr|left; by apply Lt']).
    split_and!; [|lia|lia|].
    + split; [|by destruct Co]. apply (bytes_at_ext m2); [|by destruct Co]. intros x Hx.
      rewrite zlen_app, zlen_cons in Hx. change (zlen []) with 0 in Hx. rewrite O3; [done|lia|lia].
    + replace (args + 4 * nargs + 4) with (args + 4 * (nargs + 1)) by lia. by eapply argv_lo; [|].
  - intros x X1 X2. rewrite O3, O2, O1 by lia. done.
Qed.
End InPlace.

(** ** How many words a line has *)

Section Count.
Context (issep : Z -> bool).

Lemma fields_nonneg w l : 0 <= fields issep w l.
Proof. revert w. induction l as [|c l IH]; intros w; [done|]. cbn [fields]. specialize (IH (issep c)). case_match; lia. Qed.

Lemma fields_app w l k : fields issep w l <= fields issep w (l ++ k).
Proof.
  revert w. induction l as [|c l IH]; intros w; [apply fields_nonneg|]. cbn [app fields].
  specialize (IH (issep c)). lia.
Qed.

(** White space at the end of what was read makes no difference. *)
Lemma fields_suffix w w' pre r :
  r = [] \/ (exists c r', r = c :: r' /\ issep c = true) ->
  fields issep w' r <= fields issep w (pre ++ r).
Proof.
  intros H. revert w. induction pre as [|c pre IH]; intros w; cbn [app fields].
  - destruct H as [->|(c & r' & -> & Hc)]; [done|]. cbn [fields]. rewrite Hc, !andb_false_r. lia.
  - specialize (IH (issep c)). case_match; lia.
Qed.

Lemma fields_skip l : fields issep true l = fields issep true (skip issep l).
Proof.
  induction l as [|c l IH]; [done|]. cbn [skip]. destruct (issep c) eqn:E; [|done].
  cbn [fields]. rewrite E. cbn [negb andb]. by rewrite Z.add_0_l.
Qed.

(** White space makes at least as many fields as quoting leaves words. *)
Lemma tokens_fields n l : zlen (tokens_upto issep n l) <= fields issep true l.
Proof.
  revert l. induction n as [|n IH]; intros l; [apply fields_nonneg|]. cbn [tokens_upto].
  rewrite fields_skip. destruct (skip_head issep l) as [->|(c & l' & -> & Hc)]; [done|].
  pose proof (token_rest issep false (c :: l')) as (pre & El & _).
  pose proof (token_sep issep false (c :: l')) as Hr.
  destruct (token issep false (c :: l')) as [o r]. simpl in El, Hr. rewrite zlen_cons.
  assert (exists pre', l' = pre' ++ r) as [pre' ->].
  { destruct pre as [|d pre]; [|injection El as <- ->; eauto]. simpl in El. subst r.
    destruct Hr as [[=]|(d & r & [= <- <-] & Hd)]. congruence. }
  cbn [fields]. rewrite Hc. cbn [negb andb].
  pose proof (fields_suffix false true pre' r Hr). specialize (IH r). lia.
Qed.

(** With room for all words, more room makes no difference. *)
Lemma tokens_upto_take n k l : (length l <= k)%nat ->
  tokens_upto issep n l = take n (tokens_upto issep k l).
Proof.
  revert k l. induction n as [|n IH]; intros k l Hk; [by rewrite take_0|].
  pose proof (skip_length issep l) as Ls.
  destruct k as [|k]; [destruct l; [done|simpl in Hk; lia]|]. cbn [tokens_upto].
  destruct (skip_head issep l) as [->|(c & l' & E & Hc)]; [done|]. rewrite E in *.
  pose proof (token_rest issep false (c :: l')) as (pre & El & _).
  pose proof (token_sep issep false (c :: l')) as Hr.
  destruct (token issep false (c :: l')) as [o r]. simpl in El, Hr. cbn [take]. f_equal.
  apply IH. destruct pre as [|d pre].
  - simpl in El. subst r. destruct Hr as [[=]|(d & r & [= <- <-] & Hd)]. congruence.
  - apply (f_equal length) in El. rewrite length_app in El. simpl in *. lia.
Qed.

Lemma tokens_enough n l : fields issep true l <= Z.of_nat n -> tokens_upto issep n l = tokens issep l.
Proof.
  intros H. rewrite (tokens_upto_take n (length l)) by done. apply take_ge.
  pose proof (tokens_fields (length l) l) as F. unfold tokens, zlen in *. lia.
Qed.
End Count.

(** ** Quoting a word and reading it again *)

Lemma runes_small m p l b : cstr m p l -> b ∈ l -> b < 128 -> b ∈ map fst (runes l).
Proof.
  intros C I Hb. revert p C I. induction l as [l IH] using string_ind; intros p C I.
  destruct l as [|c l]; [by apply not_elem_of_nil in I|].
  destruct (rune_cases _ _ _ _ C) as (r & n & E & _ & _ & _ & Hn & -> & C' & Hr).
  pose proof (rune_tail _ _ _ _ _ _ C E) as T. cbn [map fst].
  apply elem_of_cons in I as [->|I].
  - destruct Hr as [(_ & -> & _)|[? _]]; [apply elem_of_cons; by left|lia].
  - apply elem_of_cons. right. apply (IH (drop (Z.to_nat (n - 1)) l)) with (p := p + n); [|done|].
    + rewrite length_drop. simpl. lia.
    + rewrite <- (take_drop (Z.to_nat (n - 1)) l) in I. apply elem_of_app in I as [I|I]; [|done].
      rewrite Forall_forall in T. apply list_elem_of_In in I. apply T, tailb_spec in I. lia.
Qed.

(** The bytes of a C string. *)
Definition word (w : list Z) : Prop := byte_list w /\ Forall (fun b => b <> 0) w.

#[export] Instance word_dec w : Decision (word w).
Proof. unfold word. apply _. Defined.

Lemma word_small w b : word w -> b ∈ w -> b < 128 -> b ∈ map fst (runes w).
Proof. intros [B N]. eapply (runes_small _ 1), (st_bytes_at ∅ 1 w B N). Qed.

Section Words.
Context (doquote : option (Z -> bool)).

(** A word that needs no quotes has no white space and no quote. *)
Lemma needless w b : word w -> needs doquote w = false -> b ∈ w -> 32 < b /\ b <> quote.
Proof.
  intros W N I. unfold needs in N. apply orb_false_iff in N as [_ N].
  destruct (decide (b < 128)) as [L|]; [|unfold quote; lia].
  pose proof (word_small w b W I L) as R.
  assert (quote_worthy doquote b = false) as Q.
  { destruct (quote_worthy doquote b) eqn:E; [|done]. rewrite <- N. symmetry. apply existsb_exists.
    exists b. by rewrite <- list_elem_of_In. }
  unfold quote_worthy, blank in Q. rewrite !orb_false_iff, Z.leb_gt, Z.eqb_neq in Q. lia.
Qed.

(** Separators are not above the blank. *)
Context (issep : Z -> bool).
Hypothesis issep_big : forall b, 32 < b -> issep b = false.

Lemma issep_quote : issep quote = false.
Proof. apply issep_big. unfold quote. lia. Qed.

(** What may follow a word. *)
Definition ends (rest : list Z) : Prop := rest = [] \/ exists c r, rest = c :: r /\ issep c = true.

Lemma token_ends rest : ends rest -> token issep false rest = ([], rest).
Proof. intros [->|(c & r & -> & H)]; [done|]. cbn [token]. by rewrite H. Qed.

Lemma token_plain w rest :
  Forall (fun b => 32 < b /\ b <> quote) w -> ends rest -> token issep false (w ++ rest) = (w, rest).
Proof.
  intros H E. induction H as [|b w [H1 H2] _ IH]; [by apply token_ends|]. cbn [app token].
  rewrite issep_big by done. cbn [negb andb]. destruct (Z.eqb_spec b quote); [done|]. by rewrite IH.
Qed.

Lemma token_doubled w rest :
  ends rest -> token issep true (doubled w ++ quote :: rest) = (w, rest).
Proof.
  intros E. unfold doubled. induction w as [|b w IH]; cbn [map concat app].
  - cbn [token]. change (quote =? quote) with true. cbn [negb andb]. destruct rest as [|c r]; [done|].
    destruct E as [[=]|(c' & r' & [= <- <-] & Hc)]. destruct (Z.eqb_spec c quote) as [->|]; [by rewrite issep_quote in Hc|].
    apply token_ends. right. eauto.
  - destruct (Z.eqb_spec b quote) as [->|N].
    + cbn [app token]. change (quote =? quote) with true. cbn [negb andb]. by rewrite IH.
    + cbn [app token]. destruct (Z.eqb_spec b quote); [done|]. cbn [negb andb]. by rewrite IH.
Qed.

Lemma token_quoted w rest : word w -> ends rest -> token issep false (quoted_word doquote w ++ rest) = (w, rest).
Proof.
  intros W E. unfold quoted_word. destruct (needs doquote w) eqn:N.
  - cbn [app token]. rewrite issep_quote. change (quote =? quote) with true. cbn [negb andb].
    rewrite <- app_assoc. by apply token_doubled.
  - apply token_plain; [|done]. apply Forall_forall. intros b I%list_elem_of_In. by eapply needless.
Qed.

Lemma quoted_head w : word w -> exists c l, quoted_word doquote w = c :: l /\ issep c = false.
Proof.
  intros W. unfold quoted_word. destruct (needs doquote w) eqn:N.
  { eexists _, _. split; [reflexivity|]. apply issep_quote. }
  destruct w as [|c w].
  - unfold needs in N. rewrite bool_decide_true in N by done. done.
  - exists c, w. split; [done|]. apply issep_big. eapply needless; [done..|]. apply elem_of_cons. by left.
Qed.

(** A line of words, quoted and separated by blanks. *)
Fixpoint line (ws : list (list Z)) : list Z :=
  match ws with
  | [] => []
  | [w] => quoted_word doquote w
  | w :: ws' => quoted_word doquote w ++ blank :: line ws'
  end.

Lemma tokens_line n ws : issep blank = true -> Forall word ws -> (length ws <= n)%nat -> tokens_upto issep n (line ws) = ws.
Proof.
  intros Hb H. revert n. induction H as [|w ws Hw Hws IH]; intros [|n] L; try (simpl in L; lia); [done..|].
  destruct (quoted_head w Hw) as (c & l & E & Hc).
  assert (exists rest, line (w :: ws) = quoted_word doquote w ++ rest /\ ends rest /\
    tokens_upto issep n rest = ws) as (rest & -> & Er & <-).
  { simpl in L. destruct ws as [|v ws].
    - exists []. rewrite app_nil_r. split_and!; [done|by left|by destruct n].
    - exists (blank :: line (v :: ws)). split_and!; [done|right; by eexists _, _|].
      rewrite tokens_upto_sep by done. apply IH. simpl in *. lia. }
  cbn [tokens_upto]. pose proof (token_quoted w rest Hw Er) as T.
  assert (skip issep (quoted_word doquote w ++ rest) = quoted_word doquote w ++ rest) as ->.
  { rewrite E. cbn [app skip]. by rewrite Hc. }
  rewrite T. rewrite E at 1. done.
Qed.
End Words.

Lemma is_sep_spec b : is_sep b = true <-> b ∈ 0 :: qsep.
Proof. unfold is_sep. apply bool_decide_eq_true. Qed.

Lemma is_sep_big b : 32 < b -> is_sep b = false.
Proof.
  intros H. apply bool_decide_false. unfold qsep. rewrite !elem_of_cons.
  intros [?|[?|[?|[?|[?|[]%not_elem_of_nil]]]]]; lia.
Qed.

(** ** How long a quoted word is *)

Lemma zlen_doubled_cons b l :
  zlen (doubled (b :: l)) = (if b =? quote then 2 else 1) + zlen (doubled l).
Proof. unfold doubled. cbn [map concat]. rewrite zlen_app. by case_match. Qed.

Lemma zlen_doubled_app l k : zlen (doubled (l ++ k)) = zlen (doubled l) + zlen (doubled k).
Proof.
  induction l as [|b l IH]; [by rewrite Z.add_0_l|]. cbn [app]. rewrite !zlen_doubled_cons, IH. lia.
Qed.

Lemma zlen_doubled_tail l : Forall (fun x => tailb x = true) l -> zlen (doubled l) = zlen l.
Proof.
  induction 1 as [|b l Hb _ IH]; [done|]. rewrite zlen_doubled_cons, zlen_cons, IH.
  apply tailb_spec in Hb. unfold quote. zcases. 
Qed.

Lemma zlen_doubled_bound l : zlen l <= zlen (doubled l) <= 2 * zlen l.
Proof. induction l as [|b l IH]; [done|]. rewrite zlen_doubled_cons, zlen_cons. case_match; lia. Qed.

Section Scan.
Context (doquote : option (Z -> bool)).

Lemma quote_rune_room q c w nout :
  nbytesout q + w + 4 <= nout -> 1 <= w -> (c = quote -> w = 1) ->
  exists q', quote_rune doquote q c w nout false = (true, q') /\
    quoted q' = quoted q || quote_worthy doquote c /\
    nbytesout q' = nbytesout q + w + (if c =? quote then 1 else 0) +
      (if quote_worthy doquote c && negb (quoted q) then 2 else 0).
Proof.
  intros H Hw Hq. destruct q as [qd ri bi ro bo]. simpl in H. unfold quote_rune.
  destruct (Z.ltb_spec nout (bo + w)); [lia|]. fold (quote_worthy doquote c).
  destruct (quote_worthy doquote c) eqn:E.
  - destruct (Z.ltb_spec nout (1 + bo + w + 1)); [lia|]. rewrite andb_false_r.
    destruct qd; cbn [negb andb orb quoted nbytesout nrunesin nbytesin nrunesout].
    + destruct (Z.eqb_spec c quote); [destruct (Z.ltb_spec nout (1 + bo + w)); [lia|]|];
        (eexists; split_and!; [done|done|simpl; lia]).
    + destruct (Z.eqb_spec c quote); [destruct (Z.ltb_spec nout (1 + (bo + 2) + w)); [lia|]|];
        (eexists; split_and!; [done|done|simpl; lia]).
  - assert (c <> quote) as Nq.
    { intros ->. unfold quote_worthy in E. rewrite Z.eqb_refl, orb_true_r in E. done. }
    eexists. split_and!; [done|by destruct qd|simpl]. destruct (Z.eqb_spec c quote); [done|]. lia.
Qed.

Lemma quote_loop_spec fuel m p l q nin nout :
  cstr m p l -> 0 < p -> (length l < fuel)%nat -> nin < 0 -> - 2 ^ 31 < nin - zlen l ->
  nbytesout q + 2 * zlen l + 4 + (if quoted q then 0 else 2) <= nout ->
  exists q', quote_loop doquote fuel m p 0 nin nout q false = Some q' /\
    quoted q' = quoted q || existsb (quote_worthy doquote) (map fst (runes l)) /\
    nbytesout q' = nbytesout q + zlen (doubled l) + (if quoted q' && negb (quoted q) then 2 else 0).
Proof.
  revert p l q nin. induction fuel as [|f IH]; intros p l q nin C P L Hn Hm Ho; [lia|]. cbn [quote_loop].
  destruct (Z.eqb_spec nin 0); [lia|]. destruct (Z.eqb_spec p 0); [lia|].
  destruct l as [|b l].
  { rewrite chartorune_first, (rd8_nil _ _ C). exists q. simpl. rewrite orb_false_r.
    split_and!; [done|done|]. change (zlen (doubled [])) with 0. destruct (quoted q); simpl; lia. }
  destruct (rune_cases _ _ _ _ C) as (r & n1 & E & _ & Nb & Rb & Hn1 & -> & C' & Hr).
  pose proof (rune_tail _ _ _ _ _ _ C E) as T. rewrite E, zlen_cons in *.
  pose proof (zlen_nonneg l). destruct (Z.eqb_spec r 0); [lia|].
  set (k := Z.to_nat (n1 - 1)) in *. assert (zlen (drop k l) = zlen l - (n1 - 1)) as Ld.
  { unfold zlen in *. rewrite length_drop. lia. }
  destruct (quote_rune_room q r n1 nout) as (q1 & -> & Q1 & Q2); [case_match; lia|lia|unfold quote; lia|].
  assert (n1 <= n1 + (if r =? quote then 1 else 0) <= n1 + 1 /\ ((r =? quote) = true -> n1 = 1)) as Hd.
  { destruct (Z.eqb_spec r quote); split; try lia; try done. unfold quote in *. lia. }
  replace (s32 (nin - 1)) with (nin - 1) by (symmetry; apply s32_small; lia).
  destruct (IH (p + n1) (drop k l) q1 (nin - 1) C') as (q2 & -> & Q3 & Q4); try lia.
  { rewrite length_drop. simpl in L. lia. }
  { rewrite Ld, Q2, Q1. destruct (r =? quote); destruct (quoted q), (quote_worthy doquote r);
      cbn [andb orb negb] in *; lia. }
  exists q2. cbn [map fst existsb]. rewrite Q3, Q1, orb_assoc. split_and!; [done|done|].
  rewrite Q4, Q3, Q2, Q1.
  assert (zlen (doubled (b :: l)) = n1 + (if r =? quote then 1 else 0) + zlen (doubled (drop k l))) as ->.
  { rewrite <- (take_drop k l) at 1. rewrite zlen_doubled_cons, zlen_doubled_app, (zlen_doubled_tail (take k l)) by done.
    assert (zlen (take k l) = n1 - 1) as -> by (unfold zlen in *; rewrite length_take; lia).
    assert ((b =? quote) = (r =? quote)) as -> by (apply Bool.eq_iff_eq_true; rewrite !Z.eqb_eq; unfold quote; lia).
    destruct (r =? quote); lia. }
  destruct (quoted q), (quote_worthy doquote r), (existsb _ _); cbn [negb andb orb]; lia.
Qed.

Lemma needsquotes_spec m p l :
  cstr m p l -> 0 < p -> 2 * zlen l + 6 < 2 ^ 31 ->
  _needsquotes doquote m p =
    Some (needs doquote l, zlen (doubled l) + if needs doquote l then 2 else 0).
Proof.
  intros C P L. unfold _needsquotes, _quotesetup. cbn [orb].
  change (-1 =? 0) with false. change (0 =? 0) with true. cbn [negb andb orb]. rewrite orb_false_r.
  destruct (Z.eqb_spec p 0); [lia|]. cbn [negb andb]. change (2 ^ 31 - 1 <? 2) with false. rewrite andb_false_r.
  assert ((rd8 m p =? 0) = bool_decide (l = [])) as ->.
  { rewrite (cstr_hd _ _ _ C). destruct l as [|b l]; [done|].
    apply cstr_cons in C as (_ & Nb & _). simpl. by apply Z.eqb_neq. }
  destruct (quote_loop_spec (fuel_of m) m p l
    (if bool_decide (l = []) then QuoteI true 0 0 2 2 else QuoteI false 0 0 0 0) (-1) (2 ^ 31 - 1))
    as (q & -> & Q1 & Q2); try done; try lia; [eauto with lp49| |].
  { case_bool_decide; cbn [nbytesout quoted]; lia. }
  f_equal. unfold needs. case_bool_decide as E; cbn [quoted nbytesout orb] in *; rewrite Q1, Q2, ?Q1.
  - cbn [andb negb]. f_equal. lia.
  - f_equal. cbn [negb]. rewrite andb_true_r. lia.
Qed.
End Scan.

(** ** Copies *)

Lemma strcpy_loop_spec fuel m a b s :
  cstr m b s -> byte_list s -> 0 < a -> (length s < fuel)%nat ->
  a + zlen s + 1 <= b \/ b + zlen s + 1 <= a ->
  strcpy_loop fuel m a b = Some (st_bytes m a (s ++ [0])).
Proof.
  revert m a b s. induction fuel as [|f IH]; intros m a b s C B P L D; [lia|]. cbn [strcpy_loop].
  unfold memccpy. change (Z.land 0 255) with 0.
  rewrite (memccpy_loop_spec _ _ _ _ _ C B) by lia. pose proof (zlen_nonneg s).
  set (N := Z.to_nat 10000). assert (Z.of_nat N = 10000) as EN by (unfold N; lia).
  destruct (Nat.ltb_spec (length s) N) as [G|G]; [by destruct (Z.eqb_spec (a + zlen s + 1) 0); [lia|]|].
  change (0 =? 0) with true. cbv iota.
  assert (zlen (take N s) = 10000 /\ zlen (drop N s) = zlen s - 10000) as [Lt Ld]
    by (unfold zlen in *; rewrite length_take, length_drop; lia).
  pose proof (zlen_nonneg (drop N s)).
  rewrite IH with (s := drop N s); [| |by apply Forall_drop|lia|rewrite length_drop; lia|lia].
  - by rewrite <- Lt, <- st_bytes_app, app_assoc, take_drop.
  - rewrite <- EN. apply cstr_drop; [|done]. apply (cstr_same_out a (a + 10000) m); [|lia|done].
    apply st_bytes_same_out; lia.
Qed.

Lemma strcpy_spec m a b s :
  cstr m b s -> byte_list s -> 0 < a -> a + zlen s + 1 <= b \/ b + zlen s + 1 <= a ->
  strcpy m a b = Some (st_bytes m a (s ++ [0])).
Proof. intros. apply strcpy_loop_spec; eauto with lp49. Qed.

Lemma wr8_u16 m a b : wr8 m a (u16 (s8 b)) = wr8 m a b.
Proof. unfold wr8. f_equal. zlia. Qed.

Lemma double_quotes_spec fuel m t u l :
  cstr m t l -> (length l < fuel)%nat ->
  u + zlen (doubled l) <= t \/ t + zlen l + 1 <= u ->
  double_quotes fuel m t u = Some (u + zlen (doubled l), st_bytes m u (doubled l)).
Proof.
  revert m t u l. induction fuel as [|f IH]; intros m t u l C L D; [lia|]. cbn [double_quotes].
  destruct l as [|b l].
  { rewrite (chr_nil _ _ C). change (zlen (doubled [])) with 0. by rewrite Z.add_0_r. }
  destruct (chr_cons _ _ _ _ C) as (-> & _ & Rb & -> & _ & C1). simpl in L.
  rewrite zlen_doubled_cons, zlen_cons in *. pose proof (zlen_doubled_bound l). pose proof (zlen_nonneg l).
  assert ((u16 (s8 b) =? quote) = (b =? quote)) as ->.
  { apply Bool.eq_iff_eq_true. rewrite !Z.eqb_eq. unfold quote. zlia. }
  rewrite !wr8_u16. assert (forall m', same_out u (u + (if b =? quote then 2 else 1)) m m' -> cstr m' (t + 1) l) as K.
  { intros m' O. eapply cstr_same_out; [exact O|destruct (b =? quote); lia|done]. }
  unfold doubled in *. cbn [map concat]. destruct (Z.eqb_spec b quote) as [->|]; cbn [app st_bytes]; rewrite ?wr8_u16.
  - rewrite (IH _ _ _ l); [f_equal; f_equal; lia| |lia|lia].
    apply K. transitivity (wr8 m u quote); apply wr8_same_out; lia.
  - rewrite (IH _ _ _ l); [f_equal; f_equal; lia| |lia|lia]. apply K, wr8_same_out. lia.
Qed.

Lemma doubled_word w : word w -> word (doubled w).
Proof.
  intros [B N]. induction B as [|b w Hb B IH]; [by split|]. apply Forall_cons_1 in N as [Nb N].
  destruct (IH N) as [B' N']. unfold doubled in *. cbn [map concat].
  destruct (Z.eqb_spec b quote) as [->|]; (split; rewrite Forall_app; (split; [|done]);
    repeat (apply List.Forall_cons || apply List.Forall_nil); unfold quote in *; lia).
Qed.

Lemma quoted_word_word doquote w : word w -> word (quoted_word doquote w).
Proof.
  intros W. unfold quoted_word. destruct (needs doquote w); [|done]. destruct (doubled_word w W) as [B N].
  split; (apply List.Forall_cons; [unfold quote; lia|]); rewrite Forall_app; (split; [done|]);
    repeat (apply List.Forall_cons || apply List.Forall_nil); unfold quote in *; lia.
Qed.

Lemma zlen_quoted doquote w :
  zlen (quoted_word doquote w) = if needs doquote w then zlen (doubled w) + 2 else zlen w.
Proof. unfold quoted_word. case_match; [|done]. rewrite zlen_cons, zlen_app. change (zlen [quote]) with 1. lia. Qed.

Section Strings.
Context {malloc : mem -> Z -> Z * mem} {owned : mem -> Z -> Z -> Prop} `{!Heap malloc owned}.

(** A function has made the string [s] in a block of its own, or there was no memory. *)
Definition made (m : mem) (s : list Z) (res : option (Z * mem)) : Prop :=
  exists a m', res = Some (a, m') /\ keeps_blocks owned m m' /\
    (a = 0 /\ fst (malloc m (zlen s + 1)) = 0 \/
     0 < a /\ a + (zlen s + 1) < 2 ^ 32 /\ owned m' a (zlen s + 1) /\ cstr m' a s /\
       forall b k, owned m b k -> a + (zlen s + 1) <= b \/ b + k <= a).

Lemma make_string m m1 a s :
  word s -> malloc m (zlen s + 1) = (a, m1) -> a <> 0 ->
  made m s (Some (a, st_bytes m1 a (s ++ [0]))).
Proof.
  intros [B N] E Na. pose proof (zlen_nonneg s).
  destruct (fresh_write m m1 (st_bytes m1 a (s ++ [0])) a (zlen s + 1)) as [K O]; [lia|done|done| |].
  { apply st_bytes_same_out; [lia|]. rewrite zlen_app. change (zlen [0]) with 1. lia. }
  destruct (malloc_result _ _ _ _ E ltac:(lia)) as [_ [?|(Pa & La & _ & D)]]; [done|].
  eexists _, _. split_and!; [done|done|]. right. split_and!; [done|done|done|by apply st_bytes_at|done].
Qed.

Lemma strdup_spec m p s :
  cstr m p s -> word s -> owned m p (zlen s + 1) -> made m s (strdup malloc m p).
Proof.
  intros C W O. unfold strdup. rewrite (strlen_spec _ _ _ C). pose proof (zlen_nonneg s).
  destruct (malloc m (zlen s + 1)) as [a m1] eqn:E.
  destruct (malloc_result _ _ _ _ E ltac:(lia)) as [K [->|(Pa & La & Oa & D)]].
  - eexists _, _. split_and!; [done|done|left]. by rewrite E.
  - destruct (Z.eqb_spec a 0); [lia|]. specialize (D _ _ O).
    rewrite (strcpy_spec m1 a p s); [by apply make_string|by eapply keeps_cstr|by destruct W|lia|lia].
Qed.

Lemma quotestrdup_spec doquote m p w :
  cstr m p w -> word w -> 0 < p -> 2 * zlen w + 6 < 2 ^ 31 -> owned m p (zlen w + 1) ->
  made m (quoted_word doquote w) (quotestrdup malloc doquote m p).
Proof.
  intros C W P L O. unfold quotestrdup. rewrite (needsquotes_spec _ _ _ w) by done.
  pose proof (zlen_quoted doquote w) as Zq. pose proof (quoted_word_word doquote w W) as Wq.
  unfold quoted_word in *. destruct (needs doquote w); [|by apply strdup_spec].
  rewrite <- Zq. pose proof (zlen_doubled_bound w). pose proof (zlen_nonneg w).
  destruct (malloc m _) as [a m1] eqn:E.
  destruct (malloc_result _ _ _ _ E ltac:(lia)) as [K [->|(Pa & La & Oa & D)]].
  { eexists _, _. split_and!; [done|done|left]. by rewrite E. }
  destruct (Z.eqb_spec a 0); [lia|]. specialize (D _ _ O).
  assert (cstr m1 p w) as C0 by by eapply keeps_cstr.
  assert (cstr (wr8 m1 a quote) p w) as C1.
  { apply (cstr_same_out a (a + 1) m1); [apply wr8_same_out; lia|lia|done]. }
  rewrite (double_quotes_spec _ _ _ _ w C1) by (eauto with lp49; lia).
  replace (wr8 (wr8 _ _ quote) _ 0) with (st_bytes m1 a ((quote :: doubled w ++ [quote]) ++ [0])).
  - by apply make_string.
  - cbn [app st_bytes]. rewrite <- app_assoc, st_bytes_app. cbn [app st_bytes].
    by replace (a + 1 + zlen (doubled w) + 1) with (a + 1 + zlen (doubled w) + 1) by lia.
Qed.

(** [unquotestrdup] makes what the first word is without its quotes, then what follows it. *)
Definition is_blank (b : Z) : bool := (b =? blank) || (b =? tab).

Lemma unquotestrdup_spec m p l :
  cstr m p l -> word l -> owned m p (zlen l + 1) ->
  let '(o, r) := token is_blank false l in
  exists a m', unquotestrdup malloc m p = Some (a, m') /\ keeps_blocks owned m m' /\
    (a = 0 /\ fst (malloc m (zlen l + 1)) = 0 \/
     0 < a /\ owned m' a (zlen l + 1) /\ cstr m' a (o ++ r)).
Proof.
  intros C W O. destruct (strdup_spec m p l C W O) as (a & m1 & E & K & H).
  unfold unquotestrdup. rewrite E. pose proof (token_rest is_blank false l) as (pre & El & Lo).
  assert (forall (m' : mem) b, 0 < b < 256 -> exists x, Some (if (s8 b =? blank) || (s8 b =? tab) then 1 else 0) = Some x /\
    (x =? 0) = negb (is_blank b)) as Hsep.
  { intros _ b Hb. eexists. split; [done|]. unfold is_blank.
    change (s8 b =? blank) with (s8 b =? s8 blank). change (s8 b =? tab) with (s8 b =? s8 tab).
    rewrite !s8_inj by (unfold blank, tab; lia). by destruct (_ || _). }
  destruct H as [[-> E0]|(Pa & _ & Oa & Ca & Da)].
  { destruct (token is_blank false l). eexists 0, m1. split_and!; [done|done|by left]. }
  destruct (Z.eqb_spec a 0); [lia|].
  pose proof (unquote_loop_spec is_blank
    (fun _ c => Some (if (c =? blank) || (c =? tab) then 1 else 0)) Hsep (fuel_of m1) false m1 a a l _ Ca ltac:(lia)
    (cstr_fuel _ _ _ Ca) eq_refl) as U.
  destruct (token_forall is_blank (fun b => b <> 0) false l) as [No Nr]; [by destruct W|].
  destruct (token is_blank false l) as [o r]. destruct U as (m2 & -> & B & Cr & S2). simpl in *.
  apply (f_equal zlen) in El. rewrite zlen_app in El. pose proof (zlen_nonneg o). pose proof (zlen_nonneg r).
  set (e := a + zlen l) in *. set (m3 := if e - zlen r =? a + zlen o then m2 else _).
  assert (cstr m3 a (o ++ r) /\ same_out a (a + (zlen l + 1)) m1 m3) as [C3 S3].
  { assert (same_out a (a + (zlen l + 1)) m1 m2) as S2' by (eapply same_out_weaken; [exact S2|lia..]).
    unfold m3. destruct (Z.eqb_spec (e - zlen r) (a + zlen o)) as [E1|N1]; (split; [|]); try done.
    - split; [|by apply Forall_app]. rewrite <- app_assoc. apply bytes_at_app. split; [done|].
      rewrite <- E1. apply Cr.
    - assert (cstr (memmove m2 (a + zlen o) (e - zlen r) (zlen r + 1)) (a + zlen o) r) as Cm.
      { split; [|done]. apply bytes_at_memmove; [apply Cr|]. by rewrite zlen_app. }
      rewrite (strlen_spec _ _ _ Cr). split; [|by apply Forall_app]. rewrite <- app_assoc.
      apply bytes_at_app. split; [|apply Cm].
      eapply bytes_at_same_out; [apply (memmove_same_out m2 _ _ (zlen r + 1) (a + zlen o) (a + zlen o + zlen r + 1)); lia|lia|done].
    - transitivity m2; [done|]. apply memmove_same_out; rewrite ?(strlen_spec _ _ _ Cr); lia. }
  exists a, m3. split_and!; [done| |right; split_and!; [done| |done]].
  - intros b k Ob. destruct (K b k Ob) as [Ob1 E1]. split; [by apply (owned_write m1 m3 a (zlen l + 1))|].
    intros x Hx. rewrite S3; [by apply E1|]. specialize (Da b k Ob). lia.
  - by apply (owned_write m1 m3 a (zlen l + 1)).
Qed.
End Strings.

(** ** Commands *)

(** What is read as the command: not the newline at the end, and nothing after a NUL. *)
Definition chomp (l : list Z) : list Z :=
  if decide (list.last l = Some 10) then take (pred (length l)) l else l.

Fixpoint upto0 (l : list Z) : list Z :=
  match l with
  | [] => []
  | b :: l' => if b =? 0 then [] else b :: upto0 l'
  end.

Definition command (l : list Z) : list Z := upto0 (chomp l).

Lemma upto0_prefix l : exists k, l = upto0 l ++ k.
Proof.
  induction l as [|b l [k IH]]; [by exists []|]. cbn [upto0].
  destruct (b =? 0); [by exists (b :: l)|]. exists k. cbn [app]. by rewrite <- IH.
Qed.

Lemma upto0_word l : Forall (fun b => b <> 0) l -> upto0 l = l.
Proof. induction 1 as [|b l Hb _ IH]; [done|]. cbn [upto0]. rewrite IH. zcases. Qed.

Lemma command_prefix l : exists k, l = command l ++ k.
Proof.
  unfold command. destruct (upto0_prefix (chomp l)) as [k E]. unfold chomp in *.
  case_decide; [|by exists k]. exists (k ++ drop (pred (length l)) l).
  by rewrite app_assoc, <- E, take_drop.
Qed.

Lemma cstr_upto0 m p l : bytes_at m p (l ++ [0]) -> cstr m p (upto0 l).
Proof.
  revert p. induction l as [|b l IH]; intros p B.
  - apply cstr_nil. by apply bytes_at_cons in B as [B _].
  - apply bytes_at_cons in B as [Eb B]. cbn [upto0]. destruct (Z.eqb_spec b 0) as [->|].
    + by apply cstr_nil.
    + apply cstr_cons. split_and!; [done|done|by apply IH].
Qed.

Lemma bytes_at_cut m p l k : bytes_at m p l -> (k <= length l)%nat ->
  bytes_at (wr8 m (p + Z.of_nat k) 0) p (take k l ++ [0]).
Proof.
  intros B L. rewrite <- (take_drop k l) in B. apply bytes_at_app in B as [B _].
  assert (zlen (take k l) = Z.of_nat k) as E by (unfold zlen; rewrite length_take; lia).
  apply bytes_at_app. rewrite E. split.
  - eapply bytes_at_same_out; [apply (wr8_same_out _ _ _ (p + Z.of_nat k) (p + Z.of_nat k + 1)); lia|lia|done].
  - apply bytes_at_cons. by rewrite rd8_wr8_eq.
Qed.

(** [parsecmd] ends its copy of the command with a NUL. *)
Lemma command_in_buffer m buf l :
  bytes_at m buf l -> byte_list l ->
  let n := zlen l in
  let n' := if (0 <? n) && (chr m (buf + n - 1) =? 10) then n - 1 else n in
  0 <= n' <= n /\ cstr (wr8 m (buf + n') 0) buf (command l).
Proof.
  intros B R n n'. unfold command, chomp.
  destruct l as [|b l' _] using rev_ind.
  { cbn [list.last]. rewrite decide_False by done. split; [done|]. apply cstr_upto0.
    by apply (bytes_at_cut m buf [] 0). }
  assert (n = zlen l' + 1) as En by (unfold n; rewrite zlen_app; done). pose proof (zlen_nonneg l').
  apply Forall_app in R as [_ [Rb _]%Forall_cons_1].
  assert (chr m (buf + n - 1) = s8 b) as Ec.
  { apply bytes_at_app in B as [_ B]. apply bytes_at_cons in B as [B _]. unfold chr.
    rewrite <- B. do 2 f_equal. lia. }
  assert (n' = if b =? 10 then n - 1 else n) as ->.
  { unfold n'. rewrite Ec. change (s8 b =? 10) with (s8 b =? s8 10). rewrite s8_inj by lia.
    by destruct (Z.ltb_spec 0 n); [|lia]. }
  rewrite list.last_snoc. destruct (Z.eqb_spec b 10) as [->|N].
  - rewrite decide_True by done. split; [lia|]. apply cstr_upto0.
    replace (buf + (n - 1)) with (buf + Z.of_nat (pred (length (l' ++ [10])))).
    + apply bytes_at_cut; [done|lia].
    + rewrite length_app. unfold zlen in En. simpl. lia.
  - rewrite decide_False by congruence. split; [lia|]. apply cstr_upto0.
    pose proof (bytes_at_cut m buf (l' ++ [b]) (length (l' ++ [b])) B ltac:(lia)) as Bc.
    rewrite take_ge in Bc by done. exact Bc.
Qed.

(** The separators of [tokenize]. *)
Lemma qsep_rune : forall (m : mem) b, 0 < b < 256 ->
  exists a, utfrune (lit qsep) 1 (s8 b) = Some a /\ (a =? 0) = negb (is_sep b).
Proof.
  intros _ b Hb.
  pose proof (byte_cases (fun b => match utfrune (lit qsep) 1 (s8 b) with
    | Some a => (b =? 0) || eqb (a =? 0) (negb (is_sep b)) | None => false end) b) as H.
  specialize (H ltac:(vm_compute; reflexivity) ltac:(lia)). cbv beta in H.
  destruct (utfrune (lit qsep) 1 (s8 b)) as [a|]; [|done]. exists a. split; [done|].
  destruct (Z.eqb_spec b 0); [lia|]. by apply eqb_prop.
Qed.

Lemma qsep_char b : 0 <= b < 256 ->
  exists a, strchr (lit qsep) 1 (Z.land (s8 b) 255) = Some a /\ negb (a =? 0) = is_sep b.
Proof.
  intros Hb.
  pose proof (byte_cases (fun b => match strchr (lit qsep) 1 (Z.land (s8 b) 255) with
    | Some a => eqb (negb (a =? 0)) (is_sep b) | None => false end) b) as H.
  specialize (H ltac:(vm_compute; reflexivity) Hb). cbv beta in H.
  destruct (strchr (lit qsep) 1 (Z.land (s8 b) 255)) as [a|]; [|done]. exists a. split; [done|].
  by apply eqb_prop.
Qed.

Lemma ncmdfield_loop_spec n m p w nf :
  ncmdfield_loop n m p w nf = nf + fields is_sep w (ld_bytes m p n).
Proof.
  revert p w nf. induction n as [|n IH]; intros p w nf; [by rewrite Z.add_0_r|].
  cbn [ncmdfield_loop ld_bytes fields]. cbv zeta. unfold chr.
  destruct (qsep_char (rd8 m p)) as (a & -> & ->); [apply rd8_range|]. rewrite IH.
  case_match; lia.
Qed.

Lemma tokenize_spec n m s l args :
  cstr m s l -> 0 < s -> s + zlen l < 2 ^ 32 ->
  args + 4 * Z.of_nat n <= s \/ s + zlen l + 1 <= args ->
  let ws := tokens_upto is_sep n l in
  exists m', tokenize m s args (Z.of_nat n) = Some (zlen ws, m') /\
    argv m' args ws s (s + zlen l + 1) /\
    (forall x, ~ (s <= x < s + zlen l) -> ~ (args <= x < args + 4 * zlen ws) -> rd8 m' x = rd8 m x).
Proof.
  intros C P L D. unfold tokenize. rewrite Nat2Z.id.
  pose proof (tokenize_loop_spec is_sep (fun _ c => utfrune (lit qsep) 1 c) qsep_rune n (fuel_of m)
    m s l args 0 _ C (cstr_fuel _ _ _ C) eq_refl P L) as T.
  rewrite Z.mul_0_r, !Z.add_0_r in T. apply T. lia.
Qed.

(** A [Cmdbuf]: the number of words, their addresses in an array that a nil ends. *)
Definition parsed (m : mem) (cb hi : Z) (ws : list (list Z)) : Prop :=
  get_ptr m (cb_nf cb) = zlen ws /\
  argv m (get_ptr m (cb_f cb)) ws cb hi /\
  get_ptr m (get_ptr m (cb_f cb) + 4 * zlen ws) = 0.

Section Command.
Context {malloc : mem -> Z -> Z * mem} {owned : mem -> Z -> Z -> Prop} `{!Heap malloc owned}.

(** What [parsecmd] asks [malloc] for. *)
Definition command_size (l : list Z) : Z := sizeof_Cmdbuf + (fields is_sep true l + 1) * 4 + zlen l + 1.

Lemma fields_bound w l : fields is_sep w l <= zlen l.
Proof.
  revert w. induction l as [|c l IH]; intros w; [done|]. cbn [fields]. rewrite zlen_cons.
  specialize (IH (is_sep c)). case_match; lia.
Qed.

(** The array and the copy of the command, in the block at [cb]. *)
Lemma parse_in_block m cb l m1 :
  let nf := fields is_sep true l + 1 in
  let f := cb + sizeof_Cmdbuf in
  let buf := f + 4 * nf in
  0 < cb -> cb + command_size l < 2 ^ 32 -> byte_list l ->
  get_ptr m1 (cb_f cb) = f -> bytes_at m1 buf l ->
  same_out cb (cb + command_size l) m m1 ->
  let n := zlen l in
  let n' := if (0 <? n) && (chr m1 (buf + n - 1) =? 10) then n - 1 else n in
  let ws := tokens is_sep (command l) in
  exists k m2, tokenize (wr8 m1 (buf + n') 0) buf f (nf - 1) = Some (k, m2) /\
    parsed (put_ptr (put_ptr m2 (cb_nf cb) k) (f + 4 * k) 0) cb (cb + command_size l) ws /\
    same_out cb (cb + command_size l) m (put_ptr (put_ptr m2 (cb_nf cb) k) (f + 4 * k) 0).
Proof.
  intros nf f buf P Hi R Hf B S n n' ws.
  destruct (command_in_buffer m1 buf l B R) as [Hn C]. fold n in Hn, C. fold n' in Hn, C.
  set (m0 := wr8 m1 (buf + n') 0) in *. set (s := command l) in *.
  destruct (command_prefix l) as [rest El]. fold s in El.
  assert (zlen s + zlen rest = n) as Es by (unfold n; rewrite El at 1; by rewrite zlen_app).
  pose proof (fields_nonneg is_sep true l) as Fn. pose proof (zlen_nonneg s). pose proof (zlen_nonneg rest).
  assert (cb + command_size l = buf + n + 1) as Eh.
  { unfold command_size, buf, f, nf, n. lia. }
  assert (f = cb + 12) as Ef by done.
  destruct (tokenize_spec (Z.to_nat (nf - 1)) m0 buf s f C) as (m2 & E & A & O); [lia|lia|lia|].
  rewrite Z2Nat.id in E by lia.
  assert (tokens_upto is_sep (Z.to_nat (nf - 1)) s = ws) as Ew.
  { apply tokens_enough. pose proof (fields_app is_sep true s rest) as Fa. rewrite <- El in Fa. lia. }
  rewrite Ew in *. pose proof (tokens_upto_length is_sep (Z.to_nat (nf - 1)) s) as Lw. rewrite Ew in Lw.
  pose proof (zlen_nonneg ws). exists (zlen ws), m2. split; [done|].
  set (m3 := put_ptr m2 (cb_nf cb) (zlen ws)). set (m4 := put_ptr m3 (f + 4 * zlen ws) 0).
  assert (forall x, ~ (cb + 8 <= x < cb + 12) -> ~ (f + 4 * zlen ws <= x < f + 4 * zlen ws + 4) ->
    rd8 m4 x = rd8 m2 x) as O4.
  { intros x X1 X2. transitivity (rd8 m3 x).
    - apply (put_ptr_same_out m3 (f + 4 * zlen ws) 0 (f + 4 * zlen ws) (f + 4 * zlen ws + 4)); lia.
    - apply (put_ptr_same_out m2 (cb_nf cb) (zlen ws) (cb + 8) (cb + 12)); unfold cb_nf; lia. }
  assert (get_ptr m4 (cb_f cb) = f) as Gf.
  { rewrite (get_ptr_ext m1); [done|]. unfold cb_f. intros x Hx. rewrite O4, O by lia.
    apply rd8_wr8_ne. lia. }
  assert (zlen ws < 2 ^ 32) by lia.
  split; [unfold parsed; rewrite Gf; split_and!|].
  - rewrite (get_ptr_ext m3); [by apply get_put_ptr|]. unfold cb_nf. intros x Hx.
    apply (put_ptr_same_out m3 (f + 4 * zlen ws) 0 (f + 4 * zlen ws) (f + 4 * zlen ws + 4)); lia.
  - apply (argv_hi _ _ _ _ (buf + zlen s + 1)); [|lia]. apply (argv_lo _ _ _ buf); [|lia].
    apply (argv_ext m2); [exact A|]. intros x Hx. apply O4; lia.
  - by apply get_put_ptr.
  - intros x Hx. rewrite O4, O by (unfold cb_nf; lia). unfold m0. rewrite rd8_wr8_ne by lia. by apply S.
Qed.

Lemma parsecmd_spec m p l :
  bytes_at m p l -> byte_list l -> 0 < p -> owned m p (zlen l) -> zlen l < 2 ^ 29 ->
  parsecmd malloc m p (zlen l) = None /\ fst (malloc m (command_size l)) = 0 \/
  exists cb m', parsecmd malloc m p (zlen l) = Some (cb, m') /\ keeps_blocks owned m m' /\
    owned m' cb (command_size l) /\
    parsed m' cb (cb + command_size l) (tokens is_sep (command l)).
Proof.
  intros B R P O Ll. unfold parsecmd, ncmdfield. destruct (Z.eqb_spec p 0); [lia|].
  rewrite ncmdfield_loop_spec, Z.add_0_l, (bytes_at_ld_eq m p l) by done.
  pose proof (fields_nonneg is_sep true l) as Fn. pose proof (zlen_nonneg l).
  fold (command_size l). unfold emalloc9p. pose proof (fields_bound true l) as Fb.
  assert (0 <= command_size l < 2 ^ 32) as [Sz Sz'] by (unfold command_size, sizeof_Cmdbuf; lia).
  rewrite u32_small by done.
  destruct (malloc m (command_size l)) as [cb m1] eqn:E.
  destruct (malloc_result _ _ _ _ E Sz) as [K [->|(Pc & Lc & Oc & D)]]; [by left|right].
  destruct (Z.eqb_spec cb 0); [lia|]. specialize (D _ _ O). destruct (K _ _ O) as [_ Kp].
  set (f := cb + sizeof_Cmdbuf). set (nf := fields is_sep true l + 1) in *. set (buf := f + 4 * nf).
  assert (cb + command_size l = buf + zlen l + 1) as Eh by (unfold command_size, buf, f, nf; lia).
  assert (f = cb + 12) as Ef by done.
  set (m2 := put_ptr (put_ptr (memset m1 cb 0 (command_size l)) (cb_f cb) f) (cb_buf cb) buf).
  assert (same_out cb (cb + command_size l) m1 m2) as S2.
  { transitivity (memset m1 cb 0 (command_size l)); [apply memset_same_out; lia|].
    transitivity (put_ptr (memset m1 cb 0 (command_size l)) (cb_f cb) f);
      apply put_ptr_same_out; unfold cb_f, cb_buf; lia. }
  assert (bytes_at m2 p l) as B2.
  { apply (bytes_at_ext m); [|done]. intros x Hx. rewrite S2 by lia. by apply Kp. }
  set (m3 := memmove m2 buf p (zlen l)).
  assert (same_out buf (buf + zlen l) m2 m3) as S3 by (apply memmove_same_out; lia).
  destruct (parse_in_block m1 cb l m3) as (k & m4 & Et & Hp & S4); try done.
  - unfold cb_f. rewrite (get_ptr_ext m2) by (intros; apply S3; lia).
    unfold m2. rewrite (get_ptr_ext (put_ptr (memset m1 cb 0 (command_size l)) (cb_f cb) f)).
    + by apply get_put_ptr; lia.
    + intros x Hx. apply (put_ptr_same_out _ _ _ cb (cb + 4)); unfold cb_buf; lia.
  - by apply bytes_at_memmove.
  - transitivity m2; [done|]. eapply same_out_weaken; [exact S3|lia..].
  - fold f in Et, Hp, S4. fold nf in Et, Hp, S4. fold buf in Et. rewrite Et.
    eexists cb, _. split; [done|].
    destruct (fresh_write m m1 _ cb (command_size l) Sz E ltac:(lia) S4) as [K' O']. done.
Qed.
End Command.
