(* ===== verification/QuoteThms.v ===== *)
(** Quoting and command lines: what is quoted is read back, and every command that is
    written to a file of a server is split into its words. *)

From S2P Require Import Prelude Mem Utf UtfSpec Heap Quote QuoteSpec.

Lemma token_of_quoted doquote w : word w -> token is_blank false (quoted_word doquote w) = (w, []).
Proof.
  intros W. rewrite <- (app_nil_r (quoted_word doquote w)).
  apply token_quoted; [|done|by left].
  intros b Hb. unfold is_blank, blank, tab. zcases.
Qed.

Lemma last_app_ne {A} (k l : list A) : l <> [] -> list.last (k ++ l) = list.last l.
Proof.
  intros N. destruct l as [|x l _] using rev_ind; [done|]. by rewrite app_assoc, !list.last_snoc.
Qed.

Lemma last_in {A} (l : list A) x : list.last l = Some x -> x ∈ l.
Proof.
  destruct l as [|y l _] using rev_ind; [done|]. rewrite list.last_snoc. intros [= ->].
  apply elem_of_app. right. by apply list_elem_of_singleton.
Qed.

Lemma last_quoted doquote w : word w -> list.last (quoted_word doquote w) <> Some 10.
Proof.
  intros W. unfold quoted_word. destruct (needs doquote w) eqn:N.
  - rewrite app_comm_cons, list.last_snoc. done.
  - intros L%last_in. destruct (needless doquote w 10 W N L). lia.
Qed.

Lemma line_word doquote ws : Forall word ws -> word (line doquote ws).
Proof.
  induction 1 as [|w ws Hw Hws [B' N']]; [by split|]. cbn [line].
  destruct (quoted_word_word doquote w Hw) as [B N].
  destruct ws; [by split|]. split; rewrite Forall_app; (split; [done|]);
    (apply List.Forall_cons; [unfold blank; lia|done]).
Qed.

Lemma last_line doquote ws : Forall word ws -> list.last (line doquote ws) <> Some 10.
Proof.
  induction 1 as [|w ws Hw Hws IH]; [done|]. cbn [line]. destruct ws as [|v ws]; [by apply last_quoted|].
  rewrite last_app_ne by done. set (rest := line doquote (v :: ws)) in *.
  destruct rest as [|c rest]; [done|]. change (blank :: c :: rest) with ([blank] ++ c :: rest).
  by rewrite last_app_ne.
Qed.

Lemma line_length doquote ws : Forall word ws -> (length ws <= length (line doquote ws))%nat.
Proof.
  induction 1 as [|w ws Hw Hws IH]; [done|]. cbn [line].
  assert (1 <= length (quoted_word doquote w))%nat.
  { destruct (quoted_head doquote is_sep is_sep_big w Hw) as (c & l & -> & _). simpl. lia. }
  destruct ws; [done|]. rewrite length_app. simpl in *. lia.
Qed.

Lemma command_line doquote ws nl :
  Forall word ws -> nl = [] \/ nl = [10] -> command (line doquote ws ++ nl) = line doquote ws.
Proof.
  intros H Hn. unfold command, chomp. destruct (line_word doquote ws H) as [_ N].
  destruct Hn as [->| ->].
  - rewrite app_nil_r, decide_False by (by apply last_line). by apply upto0_word.
  - rewrite list.last_snoc, decide_True by done. rewrite length_app. cbn [length].
    rewrite Nat.add_1_r. cbn [pred]. rewrite take_app_length. by apply upto0_word.
Qed.

(** [tokenize] sees a quoted word as one. *)
Lemma tokenize_quoted doquote w m a args n :
  word w -> 0 < a -> a + zlen (quoted_word doquote w) < 2 ^ 32 -> cstr m a (quoted_word doquote w) -> (0 < n)%nat ->
  args + 4 * Z.of_nat n <= a \/ a + zlen (quoted_word doquote w) + 1 <= args ->
  exists m', tokenize m a args (Z.of_nat n) = Some (1, m') /\
    a <= get_ptr m' args <= a + zlen (quoted_word doquote w) /\ cstr m' (get_ptr m' args) w.
Proof.
  intros W P L C Hn D. destruct (tokenize_spec n m a _ args C P L D) as (m' & E & A & _).
  assert (tokens_upto is_sep n (quoted_word doquote w) = [w]) as T.
  { apply (tokens_line doquote is_sep is_sep_big n [w]); [done|by constructor|simpl; lia]. }
  rewrite T in E, A.
  exists m'. split; [done|]. destruct A as (Cw & ? & ? & _). split; [pose proof (zlen_nonneg w); lia|done].
Qed.

Section Heap.
Context {malloc : mem -> Z -> Z * mem} {owned : mem -> Z -> Z -> Prop} `{!Heap malloc owned}.

(** C29: [quotestrdup] makes a copy of a word that is quoted when it is empty or holds a blank
    or another control character, a quote, or a rune that the function [doquote] of the
    program asks for; [unquotestrdup] makes of it the word again. Both write nothing but a
    block of their own, which is as long as they ask [malloc] for, and give nil only when
    [malloc] does. [tokenize] of the copy, with an array of any length beside it, finds one
    argument, and what the array points to, in the copy, is the word. *)
Theorem quoting_round_trips (doquote : option (Z -> bool)) (m : mem) (p : Z) (w : list Z) :
  word w -> 0 < p -> 2 * zlen w + 6 < 2 ^ 31 -> cstr m p w -> owned m p (zlen w + 1) ->
  exists a m1, quotestrdup malloc doquote m p = Some (a, m1) /\ keeps_blocks owned m m1 /\
    (a = 0 /\ fst (malloc m (zlen (quoted_word doquote w) + 1)) = 0 \/
     0 < a /\ owned m1 a (zlen (quoted_word doquote w) + 1) /\
     cstr m1 a (quoted_word doquote w) /\
     exists b m2, unquotestrdup malloc m1 a = Some (b, m2) /\ keeps_blocks owned m1 m2 /\
       (b = 0 /\ fst (malloc m1 (zlen (quoted_word doquote w) + 1)) = 0 \/
        0 < b /\ cstr m2 b w) /\
     forall args n, (0 < n)%nat ->
       args + 4 * Z.of_nat n <= a \/ a + zlen (quoted_word doquote w) + 1 <= args ->
       exists m3, tokenize m1 a args (Z.of_nat n) = Some (1, m3) /\
         a <= get_ptr m3 args <= a + zlen (quoted_word doquote w) /\ cstr m3 (get_ptr m3 args) w).
Proof.
  intros W P L C O. destruct (quotestrdup_spec doquote m p w C W P L O) as (a & m1 & E & K & H).
  exists a, m1. split_and!; [done|done|]. destruct H as [?|(Pa & La & Oa & Ca & _)]; [by left|right].
  split_and!; [done..|].
  pose proof (unquotestrdup_spec m1 a _ Ca (quoted_word_word doquote w W) Oa) as U.
  rewrite token_of_quoted in U by done. destruct U as (b & m2 & Eb & Kb & H).
  exists b, m2. split_and!; [done|done| |].
  { rewrite app_nil_r in H. destruct H as [?|(? & _ & ?)]; [by left|by right]. }
  intros args n Hn D. by apply tokenize_quoted; [..|lia| | |]; try lia.
Qed.

(** C10: [parsecmd] makes a [Cmdbuf] of any bytes that are written as a command, fewer than
    2^29 (the size of the block is computed in 32 bits), in a block of the size that it asks
    for, and leaves every other block alone; it does not return only
    when there is no memory. The words of the [Cmdbuf] are those of the command up to its
    newline or a NUL, with their quotes taken away, all of them: the array has room for
    them and for the nil at its end. A line made of words that were quoted where they need
    it, with or without a newline, gives the words. *)
Theorem commands_are_split_into_words (m : mem) (p : Z) (l : list Z) :
  bytes_at m p l -> byte_list l -> 0 < p -> owned m p (zlen l) -> zlen l < 2 ^ 29 ->
  (parsecmd malloc m p (zlen l) = None /\ fst (malloc m (command_size l)) = 0 \/
   exists cb m', parsecmd malloc m p (zlen l) = Some (cb, m') /\ keeps_blocks owned m m' /\
     owned m' cb (command_size l) /\
     parsed m' cb (cb + command_size l) (tokens is_sep (command l))) /\
  (forall doquote ws nl, l = line doquote ws ++ nl -> nl = [] \/ nl = [10] -> Forall word ws ->
     tokens is_sep (command l) = ws).
Proof.
  intros B R P O Ll. split; [by apply parsecmd_spec|]. intros dq ws nl -> Hn H.
  rewrite (command_line dq ws nl) by done. apply tokens_line; [exact is_sep_big|done..|].
  by apply line_length.
Qed.
End Heap.

(** ** The theorems at work, with the allocator of Heap *)

(** The memory of a program: the free space begins at 8192. *)
Definition start (p : Z) (l : list Z) : mem := st_bytes (st_bytes ∅ brk_at (le 4 8192)) p l.

#[export] Instance bump_owned_dec m a n : Decision (bump_owned m a n).
Proof. unfold bump_owned. apply _. Defined.

#[export] Instance bytes_at_dec m p l : Decision (bytes_at m p l).
Proof. unfold bytes_at. apply _. Defined.

(** "it's" *)
Definition sample_word : list Z := [105; 116; 39; 115].

Lemma quoting_round_trips_witness :
  let m := start 4096 (sample_word ++ [0]) in
  quoted_word None sample_word = [39; 105; 116; 39; 39; 115; 39] /\
  exists a m1, quotestrdup bump None m 4096 = Some (a, m1) /\ keeps_blocks bump_owned m m1 /\
    (a = 0 /\ fst (bump m (zlen (quoted_word None sample_word) + 1)) = 0 \/
     0 < a /\ bump_owned m1 a (zlen (quoted_word None sample_word) + 1) /\
     cstr m1 a (quoted_word None sample_word) /\
     exists b m2, unquotestrdup bump m1 a = Some (b, m2) /\ keeps_blocks bump_owned m1 m2 /\
       (b = 0 /\ fst (bump m1 (zlen (quoted_word None sample_word) + 1)) = 0 \/
        0 < b /\ cstr m2 b sample_word) /\
     forall args n, (0 < n)%nat ->
       args + 4 * Z.of_nat n <= a \/ a + zlen (quoted_word None sample_word) + 1 <= args ->
       exists m3, tokenize m1 a args (Z.of_nat n) = Some (1, m3) /\
         a <= get_ptr m3 args <= a + zlen (quoted_word None sample_word) /\ cstr m3 (get_ptr m3 args) sample_word).
Proof.
  intros m. split; [reflexivity|]. apply (quoting_round_trips None m 4096 sample_word); closed.
Defined.

(** "chmod 'a b' 'it''s'" and a newline *)
Definition sample_words : list (list Z) := [[99; 104; 109; 111; 100]; [97; 32; 98]; sample_word].
Definition sample_line : list Z := line None sample_words ++ [10].

Lemma commands_are_split_into_words_witness :
  let m := start 4096 sample_line in
  tokens is_sep (command sample_line) = sample_words /\
  (parsecmd bump m 4096 (zlen sample_line) = None /\ fst (bump m (command_size sample_line)) = 0 \/
   exists cb m', parsecmd bump m 4096 (zlen sample_line) = Some (cb, m') /\
     keeps_blocks bump_owned m m' /\ bump_owned m' cb (command_size sample_line) /\
     parsed m' cb (cb + command_size sample_line) (tokens is_sep (command sample_line))).
Proof.
  intros m.
  assert (byte_list sample_line) as B by closed. assert (bytes_at m 4096 sample_line) as A by closed.
  assert (bump_owned m 4096 (zlen sample_line)) as O by closed. assert (0 < 4096) as P by closed.
  assert (zlen sample_line < 2 ^ 29) as L by closed.
  destruct (commands_are_split_into_words m 4096 sample_line A B P O L) as [H1 H2].
  split; [|exact H1]. apply (H2 None sample_words [10]).
  - reflexivity.
  - right. reflexivity.
  - closed.
Defined.
