(* ===== verification/Sums.v ===== *)
(** Sums over the objects of a heap: how many references they hold together. *)

From S2P Require Import Prelude.

Lemma alter_is_insert {V} (h : V -> V) (m : gmap Z V) i v : m !! i = Some v -> alter h i m = <[i := h v]> m.
Proof.
  intros H. apply map_eq. intros j. destruct (decide (j = i)) as [->|Hne].
  - by rewrite lookup_alter_eq, lookup_insert_eq, H.
  - by rewrite lookup_alter_ne, lookup_insert_ne by done.
Qed.

Section Sums.
Context {V : Type}.
Implicit Types (m : gmap Z V) (f g : Z -> V -> Z).

Definition msum f m : Z := map_fold (fun k v n => f k v + n) 0 m.

Lemma msum_empty f : msum f ∅ = 0.
Proof. apply map_fold_empty. Qed.

Lemma msum_insert_new f m i v : m !! i = None -> msum f (<[i := v]> m) = f i v + msum f m.
Proof. intros H. unfold msum. apply (map_fold_insert_L (fun k v n => f k v + n)); [intros; lia|done]. Qed.

Lemma msum_delete f m i v : m !! i = Some v -> msum f (delete i m) = msum f m - f i v.
Proof.
  intros H. rewrite <- (insert_delete_id m i v) at 2 by done.
  rewrite msum_insert_new by apply lookup_delete_eq. lia.
Qed.

Lemma msum_update f m i u v : m !! i = Some u -> msum f (<[i := v]> m) = msum f m - f i u + f i v.
Proof.
  intros H. rewrite <- insert_delete_eq, msum_insert_new by apply lookup_delete_eq.
  rewrite (msum_delete f m i u) by done. lia.
Qed.

Lemma msum_ext f g m : (forall i v, m !! i = Some v -> f i v = g i v) -> msum f m = msum g m.
Proof.
  induction m as [|i v m Hi IH] using map_ind; [by rewrite !msum_empty|]. intros H.
  rewrite !msum_insert_new by done. rewrite (H i v) by apply lookup_insert_eq.
  f_equal. apply IH. intros j u Hj. apply H. rewrite lookup_insert_ne; [done|]. intros ->. by rewrite Hi in Hj.
Qed.

Lemma msum_nonneg f m : (forall i v, m !! i = Some v -> 0 <= f i v) -> 0 <= msum f m.
Proof.
  induction m as [|i v m Hi IH] using map_ind; [by rewrite msum_empty|]. intros H.
  rewrite msum_insert_new by done. pose proof (H i v (lookup_insert_eq _ _ _)).
  assert (0 <= msum f m); [|lia]. apply IH. intros j u Hj. apply H.
  rewrite lookup_insert_ne; [done|]. intros ->. by rewrite Hi in Hj.
Qed.

(** What one object holds is at most what all hold. *)
Lemma msum_ge f m i v : (forall j u, m !! j = Some u -> 0 <= f j u) -> m !! i = Some v -> f i v <= msum f m.
Proof.
  intros H Hi. pose proof (msum_delete f m i v Hi). assert (0 <= msum f (delete i m)); [|lia].
  apply msum_nonneg. intros j u [_ Hj]%lookup_delete_Some. by apply H.
Qed.

Lemma msum_zero f m : (forall i v, m !! i = Some v -> f i v = 0) -> msum f m = 0.
Proof.
  intros H. rewrite (msum_ext f (fun _ _ => 0)) by done. clear H.
  induction m as [|i v m Hi IH] using map_ind; [apply msum_empty|]. by rewrite msum_insert_new.
Qed.

(** An update that leaves the number as it is. *)
Lemma msum_keep f m i u v : m !! i = Some u -> f i u = f i v -> msum f (<[i := v]> m) = msum f m.
Proof. intros H E. rewrite (msum_update f m i u v H). lia. Qed.

Lemma msum_alter f m i h : (forall v, f i (h v) = f i v) -> msum f (alter h i m) = msum f m.
Proof.
  intros H. destruct (m !! i) as [v|] eqn:E.
  - rewrite (alter_is_insert h m i v E). by apply (msum_keep f m i v).
  - by rewrite alter_id by (intros ? E'; by rewrite E in E').
Qed.
End Sums.
