(* ===== verification/Chan.v ===== *)
(** Channels of the kernel: the data of src/9/port/portdat.h and, of src/9/port/chan.c,
    reference counts, [newchan], [cclose], [chanfree], the paths of channels and
    [putmhead]. Mount and Fgrp model the functions that work on them.

    Channels, paths, mount points and groups are objects of a heap; 0 is [nil]; an object
    that is not allocated may not be used. [smalloc] waits until there is memory. A freed
    channel stays in memory with the flag [CFREE] and is used again. The close functions of
    the devices and of the mount driver are not part of this model: the channels that they
    are called for are recorded, in order. Strings that only one object has are values. The
    operations hold the locks of what they change, and each of them is one step. *)

From S2P Require Import Prelude Mem Fcall9P Cleanname.

Definition QTDIR : Z := 0x80.

(** The bit of [flag] of a channel that is not in use. *)
Definition CFREE : Z := 0x0010.

(** Qids, addresses and counts; of a channel, the fields that the functions modelled here
    use or reset. *)
Record Chan := MkChan {
  c_ref : Z;
  c_next : Z;
  c_link : Z;
  c_offset : Z;
  c_type : Z;
  c_dev : Z;
  c_mode : Z;
  c_flag : Z;
  c_qid : Qid;
  c_fid : Z;
  c_iounit : Z;
  c_umh : Z;
  c_umc : Z;
  c_uri : Z;
  c_dri : Z;
  c_dirrock : Z;
  c_mux : Z;
  c_mchan : Z;
  c_path : Z }.

Record Path := MkPath {
  p_ref : Z;
  p_s : list Z;
  p_mtpt : list Z;
  p_alen : Z;
  p_malen : Z }.

Record Mount := MkMount {
  mt_id : Z;
  mt_next : Z;
  mt_head : Z;
  mt_copy : Z;
  mt_order : Z;
  mt_to : Z;
  mt_flag : Z;
  mt_spec : option (list Z) }.

Record Mhead := MkMhead {
  mh_ref : Z;
  mh_from : Z;
  mh_mount : Z;
  mh_hash : Z }.

Record Pgrp := MkPgrp {
  pg_ref : Z;
  pg_noattach : Z;
  pg_id : Z;
  pg_mnthash : list Z }.

Record Fgrp := MkFgrp {
  fg_ref : Z;
  fg_fd : list Z;
  fg_maxfd : Z;
  fg_exceed : Z }.

(** What is left in [up->errstr]. *)
Inductive kerr := Enoerror | Emount | Eunmount | Eunion | Enocreate | Ebadfd | Ebadusefd | Enofd | Eclone.

(** What functions return when they fail. *)
Definition ONERR : Z := 0xf001f001.

(** The memory of the kernel: objects, the free channels and the list of all channels, the
    counters, the next address of [smalloc]. *)
Record kst := KSt {
  chans : gmap Z Chan;
  paths : gmap Z Path;
  mounts : gmap Z Mount;
  mheads : gmap Z Mhead;
  pgrps : gmap Z Pgrp;
  fgrps : gmap Z Fgrp;
  chan_free : Z;
  chan_list : Z;
  chan_fid : Z;
  mountid : Z;
  pgrpid : Z;
  npath : Z;
  brk : Z;
  kerrstr : kerr;
  devclosed : list Z;
  muxclosed : list Z }.

(** *** Fields *)

Definition set_c_ref x v := MkChan x (c_next v) (c_link v) (c_offset v) (c_type v) (c_dev v) (c_mode v) (c_flag v) (c_qid v) (c_fid v) (c_iounit v) (c_umh v) (c_umc v) (c_uri v) (c_dri v) (c_dirrock v) (c_mux v) (c_mchan v) (c_path v).
Definition set_c_next x v := MkChan (c_ref v) x (c_link v) (c_offset v) (c_type v) (c_dev v) (c_mode v) (c_flag v) (c_qid v) (c_fid v) (c_iounit v) (c_umh v) (c_umc v) (c_uri v) (c_dri v) (c_dirrock v) (c_mux v) (c_mchan v) (c_path v).
Definition set_c_link x v := MkChan (c_ref v) (c_next v) x (c_offset v) (c_type v) (c_dev v) (c_mode v) (c_flag v) (c_qid v) (c_fid v) (c_iounit v) (c_umh v) (c_umc v) (c_uri v) (c_dri v) (c_dirrock v) (c_mux v) (c_mchan v) (c_path v).
Definition set_c_offset x v := MkChan (c_ref v) (c_next v) (c_link v) x (c_type v) (c_dev v) (c_mode v) (c_flag v) (c_qid v) (c_fid v) (c_iounit v) (c_umh v) (c_umc v) (c_uri v) (c_dri v) (c_dirrock v) (c_mux v) (c_mchan v) (c_path v).
Definition set_c_type x v := MkChan (c_ref v) (c_next v) (c_link v) (c_offset v) x (c_dev v) (c_mode v) (c_flag v) (c_qid v) (c_fid v) (c_iounit v) (c_umh v) (c_umc v) (c_uri v) (c_dri v) (c_dirrock v) (c_mux v) (c_mchan v) (c_path v).
Definition set_c_dev x v := MkChan (c_ref v) (c_next v) (c_link v) (c_offset v) (c_type v) x (c_mode v) (c_flag v) (c_qid v) (c_fid v) (c_iounit v) (c_umh v) (c_umc v) (c_uri v) (c_dri v) (c_dirrock v) (c_mux v) (c_mchan v) (c_path v).
Definition set_c_mode x v := MkChan (c_ref v) (c_next v) (c_link v) (c_offset v) (c_type v) (c_dev v) x (c_flag v) (c_qid v) (c_fid v) (c_iounit v) (c_umh v) (c_umc v) (c_uri v) (c_dri v) (c_dirrock v) (c_mux v) (c_mchan v) (c_path v).
Definition set_c_flag x v := MkChan (c_ref v) (c_next v) (c_link v) (c_offset v) (c_type v) (c_dev v) (c_mode v) x (c_qid v) (c_fid v) (c_iounit v) (c_umh v) (c_umc v) (c_uri v) (c_dri v) (c_dirrock v) (c_mux v) (c_mchan v) (c_path v).
Definition set_c_qid x v := MkChan (c_ref v) (c_next v) (c_link v) (c_offset v) (c_type v) (c_dev v) (c_mode v) (c_flag v) x (c_fid v) (c_iounit v) (c_umh v) (c_umc v) (c_uri v) (c_dri v) (c_dirrock v) (c_mux v) (c_mchan v) (c_path v).
Definition set_c_fid x v := MkChan (c_ref v) (c_next v) (c_link v) (c_offset v) (c_type v) (c_dev v) (c_mode v) (c_flag v) (c_qid v) x (c_iounit v) (c_umh v) (c_umc v) (c_uri v) (c_dri v) (c_dirrock v) (c_mux v) (c_mchan v) (c_path v).
Definition set_c_iounit x v := MkChan (c_ref v) (c_next v) (c_link v) (c_offset v) (c_type v) (c_dev v) (c_mode v) (c_flag v) (c_qid v) (c_fid v) x (c_umh v) (c_umc v) (c_uri v) (c_dri v) (c_dirrock v) (c_mux v) (c_mchan v) (c_path v).
Definition set_c_umh x v := MkChan (c_ref v) (c_next v) (c_link v) (c_offset v) (c_type v) (c_dev v) (c_mode v) (c_flag v) (c_qid v) (c_fid v) (c_iounit v) x (c_umc v) (c_uri v) (c_dri v) (c_dirrock v) (c_mux v) (c_mchan v) (c_path v).
Definition set_c_umc x v := MkChan (c_ref v) (c_next v) (c_link v) (c_offset v) (c_type v) (c_dev v) (c_mode v) (c_flag v) (c_qid v) (c_fid v) (c_iounit v) (c_umh v) x (c_uri v) (c_dri v) (c_dirrock v) (c_mux v) (c_mchan v) (c_path v).
Definition set_c_uri x v := MkChan (c_ref v) (c_next v) (c_link v) (c_offset v) (c_type v) (c_dev v) (c_mode v) (c_flag v) (c_qid v) (c_fid v) (c_iounit v) (c_umh v) (c_umc v) x (c_dri v) (c_dirrock v) (c_mux v) (c_mchan v) (c_path v).
Definition set_c_dri x v := MkChan (c_ref v) (c_next v) (c_link v) (c_offset v) (c_type v) (c_dev v) (c_mode v) (c_flag v) (c_qid v) (c_fid v) (c_iounit v) (c_umh v) (c_umc v) (c_uri v) x (c_dirrock v) (c_mux v) (c_mchan v) (c_path v).
Definition set_c_dirrock x v := MkChan (c_ref v) (c_next v) (c_link v) (c_offset v) (c_type v) (c_dev v) (c_mode v) (c_flag v) (c_qid v) (c_fid v) (c_iounit v) (c_umh v) (c_umc v) (c_uri v) (c_dri v) x (c_mux v) (c_mchan v) (c_path v).
Definition set_c_mux x v := MkChan (c_ref v) (c_next v) (c_link v) (c_offset v) (c_type v) (c_dev v) (c_mode v) (c_flag v) (c_qid v) (c_fid v) (c_iounit v) (c_umh v) (c_umc v) (c_uri v) (c_dri v) (c_dirrock v) x (c_mchan v) (c_path v).
Definition set_c_mchan x v := MkChan (c_ref v) (c_next v) (c_link v) (c_offset v) (c_type v) (c_dev v) (c_mode v) (c_flag v) (c_qid v) (c_fid v) (c_iounit v) (c_umh v) (c_umc v) (c_uri v) (c_dri v) (c_dirrock v) (c_mux v) x (c_path v).
Definition set_c_path x v := MkChan (c_ref v) (c_next v) (c_link v) (c_offset v) (c_type v) (c_dev v) (c_mode v) (c_flag v) (c_qid v) (c_fid v) (c_iounit v) (c_umh v) (c_umc v) (c_uri v) (c_dri v) (c_dirrock v) (c_mux v) (c_mchan v) x.

Definition set_p_ref x v := MkPath x (p_s v) (p_mtpt v) (p_alen v) (p_malen v).
Definition set_p_s x v := MkPath (p_ref v) x (p_mtpt v) (p_alen v) (p_malen v).
Definition set_p_mtpt x v := MkPath (p_ref v) (p_s v) x (p_alen v) (p_malen v).
Definition set_p_alen x v := MkPath (p_ref v) (p_s v) (p_mtpt v) x (p_malen v).
Definition set_p_malen x v := MkPath (p_ref v) (p_s v) (p_mtpt v) (p_alen v) x.

Definition set_mt_id x v := MkMount x (mt_next v) (mt_head v) (mt_copy v) (mt_order v) (mt_to v) (mt_flag v) (mt_spec v).
Definition set_mt_next x v := MkMount (mt_id v) x (mt_head v) (mt_copy v) (mt_order v) (mt_to v) (mt_flag v) (mt_spec v).
Definition set_mt_head x v := MkMount (mt_id v) (mt_next v) x (mt_copy v) (mt_order v) (mt_to v) (mt_flag v) (mt_spec v).
Definition set_mt_copy x v := MkMount (mt_id v) (mt_next v) (mt_head v) x (mt_order v) (mt_to v) (mt_flag v) (mt_spec v).
Definition set_mt_order x v := MkMount (mt_id v) (mt_next v) (mt_head v) (mt_copy v) x (mt_to v) (mt_flag v) (mt_spec v).
Definition set_mt_to x v := MkMount (mt_id v) (mt_next v) (mt_head v) (mt_copy v) (mt_order v) x (mt_flag v) (mt_spec v).
Definition set_mt_flag x v := MkMount (mt_id v) (mt_next v) (mt_head v) (mt_copy v) (mt_order v) (mt_to v) x (mt_spec v).
Definition set_mt_spec x v := MkMount (mt_id v) (mt_next v) (mt_head v) (mt_copy v) (mt_order v) (mt_to v) (mt_flag v) x.

Definition set_mh_ref x v := MkMhead x (mh_from v) (mh_mount v) (mh_hash v).
Definition set_mh_from x v := MkMhead (mh_ref v) x (mh_mount v) (mh_hash v).
Definition set_mh_mount x v := MkMhead (mh_ref v) (mh_from v) x (mh_hash v).
Definition set_mh_hash x v := MkMhead (mh_ref v) (mh_from v) (mh_mount v) x.

Definition set_pg_ref x v := MkPgrp x (pg_noattach v) (pg_id v) (pg_mnthash v).
Definition set_pg_noattach x v := MkPgrp (pg_ref v) x (pg_id v) (pg_mnthash v).
Definition set_pg_id x v := MkPgrp (pg_ref v) (pg_noattach v) x (pg_mnthash v).
Definition set_pg_mnthash x v := MkPgrp (pg_ref v) (pg_noattach v) (pg_id v) x.

Definition set_fg_ref x v := MkFgrp x (fg_fd v) (fg_maxfd v) (fg_exceed v).
Definition set_fg_fd x v := MkFgrp (fg_ref v) x (fg_maxfd v) (fg_exceed v).
Definition set_fg_maxfd x v := MkFgrp (fg_ref v) (fg_fd v) x (fg_exceed v).
Definition set_fg_exceed x v := MkFgrp (fg_ref v) (fg_fd v) (fg_maxfd v) x.

Definition set_chans x v := KSt x (paths v) (mounts v) (mheads v) (pgrps v) (fgrps v) (chan_free v) (chan_list v) (chan_fid v) (mountid v) (pgrpid v) (npath v) (brk v) (kerrstr v) (devclosed v) (muxclosed v).
Definition set_paths x v := KSt (chans v) x (mounts v) (mheads v) (pgrps v) (fgrps v) (chan_free v) (chan_list v) (chan_fid v) (mountid v) (pgrpid v) (npath v) (brk v) (kerrstr v) (devclosed v) (muxclosed v).
Definition set_mounts x v := KSt (chans v) (paths v) x (mheads v) (pgrps v) (fgrps v) (chan_free v) (chan_list v) (chan_fid v) (mountid v) (pgrpid v) (npath v) (brk v) (kerrstr v) (devclosed v) (muxclosed v).
Definition set_mheads x v := KSt (chans v) (paths v) (mounts v) x (pgrps v) (fgrps v) (chan_free v) (chan_list v) (chan_fid v) (mountid v) (pgrpid v) (npath v) (brk v) (kerrstr v) (devclosed v) (muxclosed v).
Definition set_pgrps x v := KSt (chans v) (paths v) (mounts v) (mheads v) x (fgrps v) (chan_free v) (chan_list v) (chan_fid v) (mountid v) (pgrpid v) (npath v) (brk v) (kerrstr v) (devclosed v) (muxclosed v).
Definition set_fgrps x v := KSt (chans v) (paths v) (mounts v) (mheads v) (pgrps v) x (chan_free v) (chan_list v) (chan_fid v) (mountid v) (pgrpid v) (npath v) (brk v) (kerrstr v) (devclosed v) (muxclosed v).
Definition set_chan_free x v := KSt (chans v) (paths v) (mounts v) (mheads v) (pgrps v) (fgrps v) x (chan_list v) (chan_fid v) (mountid v) (pgrpid v) (npath v) (brk v) (kerrstr v) (devclosed v) (muxclosed v).
Definition set_chan_list x v := KSt (chans v) (paths v) (mounts v) (mheads v) (pgrps v) (fgrps v) (chan_free v) x (chan_fid v) (mountid v) (pgrpid v) (npath v) (brk v) (kerrstr v) (devclosed v) (muxclosed v).
Definition set_chan_fid x v := KSt (chans v) (paths v) (mounts v) (mheads v) (pgrps v) (fgrps v) (chan_free v) (chan_list v) x (mountid v) (pgrpid v) (npath v) (brk v) (kerrstr v) (devclosed v) (muxclosed v).
Definition set_mountid x v := KSt (chans v) (paths v) (mounts v) (mheads v) (pgrps v) (fgrps v) (chan_free v) (chan_list v) (chan_fid v) x (pgrpid v) (npath v) (brk v) (kerrstr v) (devclosed v) (muxclosed v).
Definition set_pgrpid x v := KSt (chans v) (paths v) (mounts v) (mheads v) (pgrps v) (fgrps v) (chan_free v) (chan_list v) (chan_fid v) (mountid v) x (npath v) (brk v) (kerrstr v) (devclosed v) (muxclosed v).
Definition set_npath x v := KSt (chans v) (paths v) (mounts v) (mheads v) (pgrps v) (fgrps v) (chan_free v) (chan_list v) (chan_fid v) (mountid v) (pgrpid v) x (brk v) (kerrstr v) (devclosed v) (muxclosed v).
Definition set_brk x v := KSt (chans v) (paths v) (mounts v) (mheads v) (pgrps v) (fgrps v) (chan_free v) (chan_list v) (chan_fid v) (mountid v) (pgrpid v) (npath v) x (kerrstr v) (devclosed v) (muxclosed v).
Definition set_kerrstr x v := KSt (chans v) (paths v) (mounts v) (mheads v) (pgrps v) (fgrps v) (chan_free v) (chan_list v) (chan_fid v) (mountid v) (pgrpid v) (npath v) (brk v) x (devclosed v) (muxclosed v).
Definition set_devclosed x v := KSt (chans v) (paths v) (mounts v) (mheads v) (pgrps v) (fgrps v) (chan_free v) (chan_list v) (chan_fid v) (mountid v) (pgrpid v) (npath v) (brk v) (kerrstr v) x (muxclosed v).
Definition set_muxclosed x v := KSt (chans v) (paths v) (mounts v) (mheads v) (pgrps v) (fgrps v) (chan_free v) (chan_list v) (chan_fid v) (mountid v) (pgrpid v) (npath v) (brk v) (kerrstr v) (devclosed v) x.


(** ** Accesses *)

Section Chan.
Context {R : Type}.
Abbreviation kcmd := (cmd kst R).

Definition look {A} (f : kst -> gmap Z A) (p : Z) : kcmd A := fun s =>
  match f s !! p with Some x => (Go x, s) | None => (Abt, s) end.

Definition chget : Z -> kcmd Chan := look chans.
Definition pget : Z -> kcmd Path := look paths.
Definition mtget : Z -> kcmd Mount := look mounts.
Definition mhget : Z -> kcmd Mhead := look mheads.
Definition pgget : Z -> kcmd Pgrp := look pgrps.
Definition fgget : Z -> kcmd Fgrp := look fgrps.

Definition put {A} (f : kst -> gmap Z A) (set : gmap Z A -> kst -> kst) (p : Z) (g : A -> A) : kcmd unit :=
  fun s => match f s !! p with Some x => (Go tt, set (<[p := g x]> (f s)) s) | None => (Abt, s) end.

Definition chset : Z -> (Chan -> Chan) -> kcmd unit := put chans set_chans.
Definition pset : Z -> (Path -> Path) -> kcmd unit := put paths set_paths.
Definition mtset : Z -> (Mount -> Mount) -> kcmd unit := put mounts set_mounts.
Definition mhset : Z -> (Mhead -> Mhead) -> kcmd unit := put mheads set_mheads.
Definition pgset : Z -> (Pgrp -> Pgrp) -> kcmd unit := put pgrps set_pgrps.
Definition fgset : Z -> (Fgrp -> Fgrp) -> kcmd unit := put fgrps set_fgrps.

(** [smalloc] of one object, which is stored with [set]. *)
Definition smalloc {A} (f : kst -> gmap Z A) (set : gmap Z A -> kst -> kst) (x : A) : kcmd Z :=
  fun s => (Go (brk s), set (<[brk s := x]> (f s)) (set_brk (brk s + 1) s)).

Definition free {A} (f : kst -> gmap Z A) (set : gmap Z A -> kst -> kst) (p : Z) : kcmd unit :=
  fun s => match f s !! p with Some _ => (Go tt, set (delete p (f s)) s) | None => (Abt, s) end.

(** [ERROR_RETURN(e, val)] *)
Definition error_return {A} (e : kerr) (val : A) : kcmd A := cmodify (set_kerrstr e);; cret val.

(** An access to the element [i] of an array of [n]. *)
Definition in_array (i n : Z) : kcmd unit := if decide (0 <= i < n) then cret tt else cabort.
End Chan.

(** ** Reference counts: the objects that begin with a [Ref] *)

Inductive obj := RChan (c : Z) | RPath (p : Z) | RMhead (m : Z) | RPgrp (g : Z) | RFgrp (f : Z).

Definition rcount (r : obj) (s : kst) : option Z :=
  match r with
  | RChan c => c_ref <$> chans s !! c
  | RPath p => p_ref <$> paths s !! p
  | RMhead m => mh_ref <$> mheads s !! m
  | RPgrp g => pg_ref <$> pgrps s !! g
  | RFgrp f => fg_ref <$> fgrps s !! f
  end.

Definition set_rcount (r : obj) (x : Z) (s : kst) : kst :=
  match r with
  | RChan c => set_chans (alter (set_c_ref x) c (chans s)) s
  | RPath p => set_paths (alter (set_p_ref x) p (paths s)) s
  | RMhead m => set_mheads (alter (set_mh_ref x) m (mheads s)) s
  | RPgrp g => set_pgrps (alter (set_pg_ref x) g (pgrps s)) s
  | RFgrp f => set_fgrps (alter (set_fg_ref x) f (fgrps s)) s
  end.

Section Refs.
Context {R : Type}.
Abbreviation kcmd := (cmd kst R).

Definition incref (r : obj) : kcmd Z := fun s =>
  match rcount r s with
  | Some n => let x := s32 (n + 1) in (Go x, set_rcount r x s)
  | None => (Abt, s)
  end.

(** A negative count is a [panic]. *)
Definition decref (r : obj) : kcmd Z := fun s =>
  match rcount r s with
  | Some n =>
      let x := s32 (n - 1) in
      if decide (x < 0) then (Abt, s) else (Go x, set_rcount r x s)
  | None => (Abt, s)
  end.

(** The counters [mountid], [pgrpid] and [npath] are [Ref]s, too. *)
Definition incref_ (get : kst -> Z) (set : Z -> kst -> kst) : kcmd Z := fun s =>
  let x := s32 (get s + 1) in (Go x, set x s).
Definition decref_ (get : kst -> Z) (set : Z -> kst -> kst) : kcmd Z := fun s =>
  let x := s32 (get s - 1) in if decide (x < 0) then (Abt, s) else (Go x, set x s).
End Refs.

(** ** Channels *)

(** [newchan] resets the fields that a close or a read could take for its own. *)
Definition reset_chan (c : Chan) : Chan :=
  set_c_type 0 (set_c_flag 0 (set_c_ref 1 (set_c_dev 0 (set_c_offset 0 (set_c_iounit 0
    (set_c_umh 0 (set_c_uri 0 (set_c_dri 0 (set_c_mchan 0 (set_c_mux 0 (set_c_path 0
    (set_c_dirrock 0 c)))))))))))).

Definition zero_chan : Chan := MkChan 0 0 0 0 0 0 0 0 (MkQid 0 0 0) 0 0 0 0 0 0 0 0 0 0.

Definition is_free (c : Chan) : bool := negb (Z.land (c_flag c) CFREE =? 0).

Definition PATHSLOP : Z := 20.
Definition PATHMSLOP : Z := 20.

(** What [free] leaves in an [Mhead]'s list. *)
Definition CafeBeef : Z := 0xCafeBeef.

Definition isdotdot (p : list Z) : bool := bool_decide (p = [dot; dot]).

(** The text before the first slash, and the rest; the rest is empty without a slash. *)
Fixpoint cut_slash (s : list Z) : list Z * list Z :=
  match s with
  | [] => ([], [])
  | x :: s' => if x =? slash then ([], s) else let '(a, b) := cut_slash s' in (x :: a, b)
  end.

(** [cleanname] of a string that is the only one in memory. *)
Definition cleanname_of (s : list Z) : option (list Z) :=
  (fun m => ld_bytes m 1 (Z.to_nat (strlen m 1))) <$> cleanname (st_bytes ∅ 1 (s ++ [0])) 1.

(** The new text of [p->s]. *)
Definition fixdotdotname (s : list Z) : option (list Z) :=
  match s with
  | x :: _ =>
      if x =? hash then
        match cut_slash s with
        | (a, []) => Some s
        | (a, r) =>
            (fun r' => if bool_decide (r' = [slash]) && negb (nth 1 s 0 =? slash) then a else a ++ r') <$>
              cleanname_of r
        end
      else cleanname_of s
  | [] => cleanname_of s
  end.

Section Close.
Context {R : Type}.
Abbreviation kcmd := (cmd kst R).

Definition newchan : kcmd Z :=
  c <- cgets chan_free;;
  c <- (if decide (c <> 0) then
          co <- chget c;; cmodify (set_chan_free (c_next co));; cret c
        else
          c <- smalloc chans set_chans zero_chan;;
          fid <- cgets chan_fid;;
          cmodify (set_chan_fid (s32 (fid + 1)));;
          link <- cgets chan_list;;
          chset c (fun co => set_c_link link (set_c_fid (s32 (fid + 1)) co));;
          cmodify (set_chan_list c);;
          cret c);;
  chset c reset_chan;;
  cret c.

(** [putmhead] gives up a reference to the top of a mount list. *)
Definition putmhead (m : Z) : kcmd unit :=
  if decide (m = 0) then cret tt
  else
    r <- decref (RMhead m);;
    if decide (r = 0) then mhset m (set_mh_mount CafeBeef);; free mheads set_mheads m else cret tt.

(** [devtab[c->type]->close(c)] and [muxclose(c->mux)]. *)
Definition dev_close (c : Z) : kcmd unit := cmodify (fun s => set_devclosed (devclosed s ++ [c]) s).
Definition muxclose (m : Z) : kcmd unit := cmodify (fun s => set_muxclosed (muxclosed s ++ [m]) s).

(** *** Closing: [pathclose] and [chanfree] call [cclose], which calls them *)

Section Rec.
Variable close : Z -> kcmd Z.

Fixpoint mtpt_close (l : list Z) : kcmd Z :=
  match l with
  | [] => cret 1
  | c :: l' =>
      if decide (c <> 0) then
        rc <- close c;;
        if decide (rc = ONERR) then cret ONERR else mtpt_close l'
      else mtpt_close l'
  end.

Definition pathclose_ (p : Z) : kcmd Z :=
  if decide (p = 0) then cret 1
  else
    r <- decref (RPath p);;
    if decide (r <> 0) then cret 1
    else
      decref_ npath set_npath;;
      po <- pget p;;
      rc <- mtpt_close (p_mtpt po);;
      if decide (rc = ONERR) then cret ONERR
      else free paths set_paths p;; cret 1.

Definition chanfree_ (c : Z) : kcmd unit :=
  chset c (set_c_flag CFREE);;
  co <- chget c;;
  cwhen (bool_decide (c_dirrock co <> 0)) (chset c (set_c_dirrock 0));;
  co <- chget c;;
  cwhen (bool_decide (c_umh co <> 0)) (putmhead (c_umh co);; chset c (set_c_umh 0));;
  co <- chget c;;
  cwhen (bool_decide (c_umc co <> 0)) (close (c_umc co);; chset c (set_c_umc 0));;
  co <- chget c;;
  cwhen (bool_decide (c_mux co <> 0)) (muxclose (c_mux co);; chset c (set_c_mux 0));;
  co <- chget c;;
  cwhen (bool_decide (c_mchan co <> 0)) (close (c_mchan co);; chset c (set_c_mchan 0));;
  co <- chget c;;
  pathclose_ (c_path co);;
  chset c (set_c_path 0);;
  nx <- cgets chan_free;;
  chset c (set_c_next nx);;
  cmodify (set_chan_free c).
End Rec.

(** The close of a channel may close others, each of them once. *)
Fixpoint cclose_rec (fuel : nat) (c : Z) : kcmd Z :=
  match fuel with
  | O => cabort
  | S f =>
      co <- chget c;;
      if is_free co then cabort (* panic *)
      else
        r <- decref (RChan c);;
        if decide (r <> 0) then cret 0
        else dev_close c;; chanfree_ (cclose_rec f) c;; cret 0
  end.

Definition cclose (c : Z) : kcmd Z := fuel <- cgets (fun s => S (size (chans s)));; cclose_rec fuel c.
Definition chanfree : Z -> kcmd unit := chanfree_ cclose.
Definition pathclose : Z -> kcmd Z := pathclose_ cclose.

(** *** Paths *)

Definition newpath (s : list Z) : kcmd Z :=
  p <- smalloc paths set_paths (MkPath 1 s [0] (zlen s + PATHSLOP) PATHMSLOP);;
  incref_ npath set_npath;;
  cret p.

Fixpoint mtpt_incref (l : list Z) : kcmd unit :=
  match l with
  | [] => cret tt
  | c :: l' => (if decide (c <> 0) then incref (RChan c);; cret tt else cret tt);; mtpt_incref l'
  end.

Definition copypath (p : Z) : kcmd Z :=
  po <- pget p;;
  pp <- smalloc paths set_paths (MkPath 1 (p_s po) (p_mtpt po) (p_alen po) (p_malen po));;
  incref_ npath set_npath;;
  mtpt_incref (p_mtpt po);;
  cret pp.

Definition uniquepath (p : Z) : kcmd Z :=
  po <- pget p;;
  if decide (p_ref po > 1) then new <- copypath p;; pathclose p;; cret new else cret p.

(** The name becomes longer: [memmove(p->s+p->len, s, i+1)]. *)
Definition addname (p : Z) (s : list Z) : kcmd unit :=
  let i := zlen s in
  po <- pget p;;
  cwhen (bool_decide (zlen (p_s po) + 1 + i + 1 > p_alen po))
    (pset p (set_p_alen (zlen (p_s po) + 1 + i + 1 + PATHSLOP)));;
  po <- pget p;;
  let len := zlen (p_s po) in
  cwhen ((0 <? len) && negb (bool_decide (list.last (p_s po) = Some slash)) && negb (nth 0 s 0 =? slash))
    (in_array len (p_alen po);; pset p (set_p_s (p_s po ++ [slash])));;
  po <- pget p;;
  in_array (zlen (p_s po) + i) (p_alen po);;
  pset p (set_p_s (p_s po ++ s)).

(** The element was [..]: its name goes, and the last mount point. *)
Definition addup (p : Z) : kcmd Z :=
  po <- pget p;;
  match fixdotdotname (p_s po) with
  | None => cabort
  | Some s' =>
      in_array (zlen s') (p_alen po);;
      pset p (set_p_s s');;
      if decide (1 < zlen (p_mtpt po)) then
        let c := nth (Z.to_nat (zlen (p_mtpt po) - 1)) (p_mtpt po) 0 in
        pset p (set_p_mtpt (take (Z.to_nat (zlen (p_mtpt po) - 1)) (p_mtpt po)));;
        (if decide (c <> 0) then cclose c;; cret tt else cret tt);;
        cret p
      else cret p
  end.

(** Any other element: one mount point more. *)
Definition addmtpt (p from : Z) : kcmd Z :=
  po <- pget p;;
  cwhen (bool_decide (p_malen po <= zlen (p_mtpt po)))
    (pset p (set_p_malen (zlen (p_mtpt po) + 1 + PATHMSLOP)));;
  po <- pget p;;
  in_array (zlen (p_mtpt po)) (p_malen po);;
  pset p (set_p_mtpt (p_mtpt po ++ [from]));;
  (if decide (from <> 0) then incref (RChan from);; cret tt else cret tt);;
  cret p.

Definition addelem (p : Z) (s : list Z) (from : Z) : kcmd Z :=
  if decide (s = [dot]) then cret p
  else
    p <- uniquepath p;;
    addname p s;;
    if isdotdot s then addup p else addmtpt p from.
End Close.
