(* ===== verification/ChanSpec.v ===== *)
(** The reference counts of the kernel's objects: the count of each is the number of the
    references that other objects have to it and of those that are held by running code. *)

From S2P Require Import Prelude Mem Sums Fcall9P Cleanname Chan.

#[export] Instance obj_eq_dec : EqDecision obj.
Proof. solve_decision. Defined.

(** ** References *)

(** How often [r] is in a list. *)
Fixpoint occ (r : obj) (l : list obj) : Z :=
  match l with [] => 0 | x :: l' => (if decide (r = x) then 1 else 0) + occ r l' end.

Definition nzr (k : Z -> obj) (x : Z) : list obj := if decide (x = 0) then [] else [k x].

(** What each object refers to; a free channel, or a path about to be freed, to nothing. *)
Definition out_chan (c : Chan) : list obj :=
  if is_free c then []
  else nzr RMhead (c_umh c) ++ nzr RChan (c_umc c) ++ nzr RChan (c_mchan c) ++ nzr RPath (c_path c).
Definition out_chans (l : list Z) : list obj := concat (nzr RChan <$> l).
Definition out_path (p : Path) : list obj := if decide (p_ref p = 0) then [] else out_chans (p_mtpt p).
Definition out_mount (m : Mount) : list obj := [RChan (mt_to m)].
Definition out_fgrp (f : Fgrp) : list obj := out_chans (fg_fd f).

(** A mount point in a table refers to its file, and the table to it. *)
Definition out_mhead (A : gset Z) (m : Z) (mo : Mhead) : list obj :=
  if decide (m ∈ A) then [RChan (mh_from mo); RMhead m] else [].

(** The references to [r]; [A] are the mount points in the tables. *)
Definition refs (s : kst) (A : gset Z) (r : obj) : Z :=
  msum (fun _ c => occ r (out_chan c)) (chans s) + msum (fun _ p => occ r (out_path p)) (paths s) +
  msum (fun _ m => occ r (out_mount m)) (mounts s) + msum (fun m mo => occ r (out_mhead A m mo)) (mheads s) +
  msum (fun _ f => occ r (out_fgrp f)) (fgrps s).

Definition count_of (r : obj) (s : kst) : Z := default 0 (rcount r s).

(** The free channels, linked by [next]. *)
Fixpoint free_chain (s : kst) (l : list Z) (h : Z) : Prop :=
  match l with
  | [] => h = 0
  | c :: l' => h = c /\ c <> 0 /\ exists co, chans s !! c = Some co /\ is_free co = true /\ free_chain s l' (c_next co)
  end.

(** All objects of the heap are between 0 and [b]. *)
Definition below {A} (b : Z) (m : gmap Z A) : Prop := forall a x, m !! a = Some x -> 0 < a < b.

(** The invariant: [ext r] references to [r] are held outside the heap. *)
Record rc (s : kst) (A : gset Z) (ext : obj -> Z) : Prop := {
  rc_ext r : 0 <= ext r;
  rc_eq r : count_of r s = refs s A r + ext r;
  rc_chan c co : chans s !! c = Some co -> (is_free co = true <-> c_ref co = 0);
  rc_pos m mo : mheads s !! m = Some mo -> 0 < mh_ref mo;
  rc_max r n : rcount r s = Some n -> n < 2 ^ 31;
  rc_att m : m ∈ A -> is_Some (mheads s !! m);
  rc_brk : 0 < brk s;
  rc_addr : below (brk s) (chans s) /\ below (brk s) (paths s) /\ below (brk s) (mounts s) /\
    below (brk s) (mheads s) /\ below (brk s) (pgrps s) /\ below (brk s) (fgrps s);
  rc_free : exists l, NoDup l /\ free_chain s l (chan_free s);
  rc_npath : npath s = msum (fun _ p => if decide (p_ref p = 0) then 0 else 1) (paths s);
  rc_paths : npath s < 2 ^ 31 }.

(** A change of what is held. *)
Definition hold (ext : obj -> Z) (r : obj) (d : Z) : obj -> Z :=
  fun x => if decide (x = r) then ext x + d else ext x.

Lemma hold_eq ext r d : hold ext r d r = ext r + d.
Proof. unfold hold. by rewrite decide_True. Qed.
Lemma hold_ne ext r d x : x <> r -> hold ext r d x = ext x.
Proof. intros H. unfold hold. by rewrite decide_False. Qed.

Lemma occ_nonneg r l : 0 <= occ r l.
Proof. induction l as [|x l IH]; cbn; [done|]. case_decide; lia. Qed.
Lemma occ_app r l l' : occ r (l ++ l') = occ r l + occ r l'.
Proof. induction l as [|x l IH]; cbn; [done|]. lia. Qed.
Lemma occ_one r x : occ r [x] = if decide (r = x) then 1 else 0.
Proof. cbn. lia. Qed.
Lemma occ_in r l : r ∈ l -> 0 < occ r l.
Proof.
  induction l as [|x l IH]; [by intros H%not_elem_of_nil|]. cbn. pose proof (occ_nonneg r l).
  intros [->|H1]%elem_of_cons; [rewrite decide_True by done; lia|]. specialize (IH H1). case_decide; lia.
Qed.

Lemma rc_hold s A ext ext' : (forall r, ext r = ext' r) -> rc s A ext -> rc s A ext'.
Proof.
  intros E [H1 H2 H3 H4 H5 H6 H7 H8 H9 H10 H11]. constructor; try done.
  - intros r. by rewrite <- E.
  - intros r. by rewrite <- E.
Qed.

Lemma refs_parts s A r :
  0 <= msum (fun _ c => occ r (out_chan c)) (chans s) /\ 0 <= msum (fun _ p => occ r (out_path p)) (paths s) /\
  0 <= msum (fun _ m => occ r (out_mount m)) (mounts s) /\
  0 <= msum (fun m mo => occ r (out_mhead A m mo)) (mheads s) /\
  0 <= msum (fun _ f => occ r (out_fgrp f)) (fgrps s).
Proof. split_and!; apply msum_nonneg; intros; apply occ_nonneg. Qed.

Lemma refs_nonneg s A r : 0 <= refs s A r.
Proof. unfold refs. pose proof (refs_parts s A r). lia. Qed.

(** What an object refers to is referred to. *)
Lemma refs_chan s A c co r : chans s !! c = Some co -> r ∈ out_chan co -> 0 < refs s A r.
Proof.
  intros H Hr%occ_in. pose proof (refs_parts s A r). unfold refs.
  pose proof (msum_ge (fun _ c => occ r (out_chan c)) _ c co (fun _ _ _ => occ_nonneg _ _) H). cbv beta in *. lia.
Qed.
Lemma refs_path s A p po r : paths s !! p = Some po -> r ∈ out_path po -> 0 < refs s A r.
Proof.
  intros H Hr%occ_in. pose proof (refs_parts s A r). unfold refs.
  pose proof (msum_ge (fun _ c => occ r (out_path c)) _ p po (fun _ _ _ => occ_nonneg _ _) H). cbv beta in *. lia.
Qed.
Lemma refs_mount s A m mo : mounts s !! m = Some mo -> 0 < refs s A (RChan (mt_to mo)).
Proof.
  intros H. pose proof (refs_parts s A (RChan (mt_to mo))). unfold refs.
  pose proof (msum_ge (fun _ c => occ (RChan (mt_to mo)) (out_mount c)) _ m mo (fun _ _ _ => occ_nonneg _ _) H) as G.
  cbv beta in *. unfold out_mount in G at 1. rewrite occ_one, decide_True in G by done. lia.
Qed.
Lemma refs_mhead s A m mo r : mheads s !! m = Some mo -> r ∈ out_mhead A m mo -> 0 < refs s A r.
Proof.
  intros H Hr%occ_in. pose proof (refs_parts s A r). unfold refs.
  pose proof (msum_ge (fun m c => occ r (out_mhead A m c)) _ m mo (fun _ _ _ => occ_nonneg _ _) H). cbv beta in *. lia.
Qed.
Lemma refs_fgrp s A f fo r : fgrps s !! f = Some fo -> r ∈ out_fgrp fo -> 0 < refs s A r.
Proof.
  intros H Hr%occ_in. pose proof (refs_parts s A r). unfold refs.
  pose proof (msum_ge (fun _ c => occ r (out_fgrp c)) _ f fo (fun _ _ _ => occ_nonneg _ _) H). cbv beta in *. lia.
Qed.

Lemma rcount_some s A ext r : rc s A ext -> 0 < ext r \/ 0 < refs s A r -> exists n, rcount r s = Some n /\ 0 < n.
Proof.
  intros I H. pose proof (rc_eq _ _ _ I r) as E. pose proof (rc_ext _ _ _ I r). pose proof (refs_nonneg s A r).
  unfold count_of in E. destruct (rcount r s) as [n|]; cbn in E; [|lia]. exists n. split; [done|lia].
Qed.

(** A channel that is referred to or held is not free. *)
Lemma live_chan s A ext c : rc s A ext -> 0 < ext (RChan c) \/ 0 < refs s A (RChan c) ->
  exists co, chans s !! c = Some co /\ is_free co = false /\ 0 < c_ref co.
Proof.
  intros I H. destruct (rcount_some _ _ _ _ I H) as (n & Hn & Hp). cbn in Hn.
  destruct (chans s !! c) as [co|] eqn:E; [|done]. injection Hn as <-. exists co. split_and!; [done| |done].
  pose proof (rc_chan _ _ _ I c co E). destruct (is_free co); [lia|done].
Qed.

#[local] Arguments occ : simpl never.
#[local] Arguments refs : simpl never.
#[local] Arguments out_path : simpl never.
#[local] Arguments msum : simpl never.
#[local] Arguments size : simpl never.

Lemma below_insert {A} b (m : gmap Z A) a x : below b m -> 0 < a < b -> below b (<[a := x]> m).
Proof.
  intros H Ha a' y. destruct (decide (a' = a)) as [->|Hne]; [by rewrite lookup_insert_eq|].
  rewrite lookup_insert_ne by done. apply H.
Qed.
Lemma below_delete {A} b (m : gmap Z A) a : below b m -> below b (delete a m).
Proof. intros H a' y [_ Hl]%lookup_delete_Some. by apply (H a' y). Qed.
Lemma below_mono {A} b b' (m : gmap Z A) : below b m -> b <= b' -> below b' m.
Proof. intros H Hb a x Hx. specialize (H a x Hx). lia. Qed.
Lemma below_fresh {A} b (m : gmap Z A) : below b m -> m !! b = None.
Proof. intros H. destruct (m !! b) as [x|] eqn:E; [|done]. specialize (H _ _ E). lia. Qed.
Lemma below_in {A} b (m : gmap Z A) a x : below b m -> m !! a = Some x -> 0 < a < b.
Proof. intros H Hx. by apply (H a x). Qed.

(** The free channels stay as they are. *)
Lemma free_chain_ext s s' l h :
  (forall c co, c ∈ l -> chans s !! c = Some co -> is_free co = true ->
     exists co', chans s' !! c = Some co' /\ is_free co' = true /\ c_next co' = c_next co) ->
  free_chain s l h -> free_chain s' l h.
Proof.
  revert h; induction l as [|c l IH]; intros h H; cbn; [done|].
  intros (-> & Hc & co & Hco & Hf & Hl). split_and!; try done.
  destruct (H c co (list_elem_of_here _ _) Hco Hf) as (co' & Hco' & Hf' & Hn). exists co'. rewrite Hn.
  split_and!; try done. apply IH; [|done]. intros d do Hd. apply H. by right.
Qed.

Lemma free_chain_in s l h c : free_chain s l h -> c ∈ l -> exists co, chans s !! c = Some co /\ is_free co = true.
Proof.
  revert h; induction l as [|d l IH]; intros h; cbn; [by intros _ H%not_elem_of_nil|].
  intros (-> & _ & co & Hco & Hf & Hl) [->|Hin]%elem_of_cons; [by eauto|by eapply IH].
Qed.

(** *** Counts *)

Lemma rcount_set r x s n : rcount r s = Some n -> rcount r (set_rcount r x s) = Some x.
Proof.
  destruct r; cbn; rewrite lookup_alter_eq; [destruct (chans s !! c)|destruct (paths s !! p)|
    destruct (mheads s !! m)|destruct (pgrps s !! g)|destruct (fgrps s !! f)]; by cbn.
Qed.

Lemma rcount_set_ne r r' x s : r' <> r -> rcount r' (set_rcount r x s) = rcount r' s.
Proof. destruct r, r'; cbn; intros Hne; try done; (rewrite lookup_alter_ne; [done|congruence]). Qed.

Lemma path_alive_alter V (f : Path -> V) (z : V) p x n (m : gmap Z Path) :
  p_ref <$> m !! p = Some n -> n <> 0 -> x <> 0 -> forall g : V -> Z,
  (forall po, f (set_p_ref x po) = f po) ->
  msum (fun _ po => g (if decide (p_ref po = 0) then z else f po)) (alter (set_p_ref x) p m) =
  msum (fun _ po => g (if decide (p_ref po = 0) then z else f po)) m.
Proof.
  intros Hp Hn Hx g Hf. destruct (m !! p) as [po|] eqn:E; [|done]. cbn in Hp. injection Hp as Hp.
  rewrite (alter_is_insert _ _ _ _ E). apply (msum_keep _ _ _ po); [done|].
  cbn [p_ref set_p_ref]. rewrite !decide_False by congruence. by rewrite Hf.
Qed.

Lemma refs_set_rcount s A r n x r' : rcount r s = Some n -> n <> 0 -> x <> 0 ->
  refs (set_rcount r x s) A r' = refs s A r'.
Proof.
  intros Hr Hn Hx. unfold refs, out_path. destruct r; cbn in *; rewrite ?msum_alter by done; try done.
  by rewrite (path_alive_alter _ _ _ _ _ _ _ Hr Hn Hx).
Qed.

Lemma below_alter {A} b (m : gmap Z A) f a : below b m -> below b (alter f a m).
Proof.
  intros H a' y. destruct (decide (a' = a)) as [->|Hne].
  - rewrite lookup_alter_eq. destruct (m !! a) as [x|] eqn:E; [|done]. intros _. by apply (H a x).
  - rewrite lookup_alter_ne by done. apply H.
Qed.

(** The count of an object that stays alive is changed. *)
Lemma rc_recount s A ext r n n' : rc s A ext -> rcount r s = Some n -> 0 < n -> 0 < n' < 2 ^ 31 ->
  0 <= ext r + (n' - n) -> rc (set_rcount r n' s) A (hold ext r (n' - n)).
Proof.
  intros I Hr Hn Hn' He. constructor.
  - intros r'. destruct (decide (r' = r)) as [->|Hne]; [by rewrite hold_eq|].
    rewrite hold_ne by done. apply I.
  - intros r'. rewrite (refs_set_rcount _ _ _ n) by (done || lia). pose proof (rc_eq _ _ _ I r') as E. unfold count_of in *.
    destruct (decide (r' = r)) as [->|Hne].
    + rewrite (rcount_set _ _ _ _ Hr), hold_eq. rewrite Hr in E. cbn in *. lia.
    + by rewrite rcount_set_ne, hold_ne by done.
  - intros c co. destruct r as [c0| | | |]; cbn; try apply I.
    destruct (decide (c = c0)) as [->|Hne]; [|rewrite lookup_alter_ne by done; apply I].
    rewrite lookup_alter_eq. cbn in Hr. destruct (chans s !! c0) as [co0|] eqn:E; [|done]. cbn in *.
    injection Hr as Hr. intros [= <-]. cbn. pose proof (rc_chan _ _ _ I c0 co0 E) as Hc.
    change (is_free (set_c_ref n' co0)) with (is_free co0). rewrite Hc. lia.
  - intros m mo. destruct r as [| |m0| |]; cbn in *; try apply I.
    destruct (decide (m = m0)) as [->|Hne]; [|rewrite lookup_alter_ne by done; apply I].
    rewrite lookup_alter_eq. destruct (mheads s !! m0); [|done]. intros [= <-]. cbn. lia.
  - intros r' m Hm. destruct (decide (r' = r)) as [->|Hne].
    + rewrite (rcount_set _ _ _ _ Hr) in Hm. injection Hm as <-. lia.
    + rewrite rcount_set_ne in Hm by done. by apply (rc_max _ _ _ I r').
  - intros m Hm. destruct (rc_att _ _ _ I m Hm) as [mo Hmo]. destruct r as [| |m0| |]; cbn; try by eexists.
    destruct (decide (m = m0)) as [->|Hne]; [rewrite lookup_alter_eq, Hmo; by eexists|].
    rewrite lookup_alter_ne by done. by eexists.
  - destruct r; apply I.
  - pose proof (rc_addr _ _ _ I) as H. destruct r; cbn; split_and!; try apply below_alter; apply H.
  - destruct (rc_free _ _ _ I) as (l & Hd & Hl). exists l. split; [done|].
    destruct r as [c0| | | |]; cbn; (eapply free_chain_ext; [|exact Hl]); intros c co _ Hc Hf; eauto.
    cbn. destruct (decide (c = c0)) as [->|Hne]; [|rewrite lookup_alter_ne by done; eauto].
    rewrite lookup_alter_eq, Hc. cbn. eexists. by split_and!.
  - destruct r as [|p| | |]; cbn in *; try apply I. rewrite (rc_npath _ _ _ I).
    symmetry. by apply (path_alive_alter Z (fun _ => 1) 0 p n' n (paths s)) with (g := fun z => z); try lia.
  - destruct r; apply I.
Qed.

Section Counting.
Context {R : Type}.

Lemma incref_count_ok s A ext r n : rc s A ext -> rcount r s = Some n -> 0 < n < 2 ^ 31 - 1 ->
  incref (R := R) r s = (Go (n + 1), set_rcount r (n + 1) s) /\ rc (set_rcount r (n + 1) s) A (hold ext r 1).
Proof.
  intros I Hr Hn. unfold incref. rewrite Hr. rewrite s32_small by lia. split; [done|].
  pose proof (rc_ext _ _ _ I r). eapply rc_hold; [|apply (rc_recount s A ext r n (n + 1)); try done; try lia].
  intros r'. unfold hold. case_decide; lia.
Qed.

(** A reference is given up that is not the last one. *)
Lemma decref_ok s A ext r n : rc s A ext -> rcount r s = Some n -> 1 < n -> 0 < ext r ->
  decref (R := R) r s = (Go (n - 1), set_rcount r (n - 1) s) /\ rc (set_rcount r (n - 1) s) A (hold ext r (-1)).
Proof.
  intros I Hr Hn He. pose proof (rc_max _ _ _ I r n Hr). unfold decref. rewrite Hr. rewrite s32_small by lia. rewrite decide_False by lia. split; [done|].
  eapply rc_hold; [|apply (rc_recount s A ext r n (n - 1)); try done; try lia].
  intros r'. unfold hold. case_decide; lia.
Qed.

Lemma decref_last s r : rcount r s = Some 1 -> decref (R := R) r s = (Go 0, set_rcount r 0 s).
Proof. intros Hr. unfold decref. by rewrite Hr. Qed.
End Counting.

(** *** Changes of one object *)

Definition at_ (r x : obj) (d : Z) : Z := if decide (r = x) then d else 0.

Lemma at_eq r d : at_ r r d = d.
Proof. unfold at_. by rewrite decide_True. Qed.
Lemma at_ne r x d : r <> x -> at_ r x d = 0.
Proof. intros H. unfold at_. by rewrite decide_False. Qed.

(** Counts of the heap after an insertion into one of its maps. *)
Lemma count_chan c co s r :
  count_of r (set_chans (<[c := co]> (chans s)) s) = if decide (r = RChan c) then c_ref co else count_of r s.
Proof.
  unfold count_of. case_decide as E; [subst r; cbn; by rewrite lookup_insert_eq|].
  destruct r; cbn; try done. rewrite lookup_insert_ne; [done|congruence].
Qed.
Lemma count_path p po s r :
  count_of r (set_paths (<[p := po]> (paths s)) s) = if decide (r = RPath p) then p_ref po else count_of r s.
Proof.
  unfold count_of. case_decide as E; [subst r; cbn; by rewrite lookup_insert_eq|].
  destruct r; cbn; try done. rewrite lookup_insert_ne; [done|congruence].
Qed.
Lemma count_mhead m mo s r :
  count_of r (set_mheads (<[m := mo]> (mheads s)) s) = if decide (r = RMhead m) then mh_ref mo else count_of r s.
Proof.
  unfold count_of. case_decide as E; [subst r; cbn; by rewrite lookup_insert_eq|].
  destruct r; cbn; try done. rewrite lookup_insert_ne; [done|congruence].
Qed.
Lemma count_fgrp f fo s r :
  count_of r (set_fgrps (<[f := fo]> (fgrps s)) s) = if decide (r = RFgrp f) then fg_ref fo else count_of r s.
Proof.
  unfold count_of. case_decide as E; [subst r; cbn; by rewrite lookup_insert_eq|].
  destruct r; cbn; try done. rewrite lookup_insert_ne; [done|congruence].
Qed.

(** A channel changes, its references go to [ext] and come from there; [h] is the first free
    channel then. *)
Lemma rc_upd_chan_free s A ext ext' c co co' h : rc s A ext -> chans s !! c = Some co ->
  (forall r, ext' r = ext r + occ r (out_chan co) - occ r (out_chan co') + at_ r (RChan c) (c_ref co' - c_ref co)) ->
  (forall r, 0 <= ext' r) -> (is_free co' = true <-> c_ref co' = 0) -> c_ref co' < 2 ^ 31 ->
  (exists l, NoDup l /\ free_chain (set_chans (<[c := co']> (chans s)) s) l h) ->
  rc (set_chan_free h (set_chans (<[c := co']> (chans s)) s)) A ext'.
Proof.
  intros I Hc He Hp Hf Hm (l & Hd & Hl).
  constructor; cbn [brk chans paths mounts mheads pgrps fgrps npath chan_free set_chans set_chan_free]; try apply I.
  - done.
  - intros r. etrans; [apply (count_chan c co' s r)|]. rewrite He. pose proof (rc_eq _ _ _ I r) as E. unfold refs in *.
    cbn [set_chans set_chan_free chans paths mounts mheads fgrps].
    rewrite (msum_update _ _ _ _ _ Hc). cbv beta. unfold at_. case_decide as Hr; [|lia]. subst r.
    unfold count_of in E. cbn in E. rewrite Hc in E. cbn in E. lia.
  - intros d do. destruct (decide (d = c)) as [->|Hne].
    + rewrite lookup_insert_eq. by intros [= <-].
    + rewrite lookup_insert_ne by done. apply I.
  - intros r n Hr. destruct (decide (r = RChan c)) as [->|Hne].
    + cbn in Hr. rewrite lookup_insert_eq in Hr. cbn in Hr. by injection Hr as <-.
    + apply (rc_max _ _ _ I r). rewrite <- Hr. destruct r; cbn; try done. rewrite lookup_insert_ne; [done|congruence].
  - pose proof (rc_addr _ _ _ I) as H. split_and!; try apply H. apply below_insert; [apply H|].
    apply (below_in _ (chans s) c co); [apply H|done].
  - exists l. split; [done|]. eapply free_chain_ext; [|exact Hl]. eauto.
Qed.

Lemma set_chan_free_id s : set_chan_free (chan_free s) s = s.
Proof. by destruct s. Qed.

Lemma rc_upd_chan s A ext ext' c co co' : rc s A ext -> chans s !! c = Some co ->
  (forall r, ext' r = ext r + occ r (out_chan co) - occ r (out_chan co') + at_ r (RChan c) (c_ref co' - c_ref co)) ->
  (forall r, 0 <= ext' r) -> (is_free co' = true <-> c_ref co' = 0) -> c_ref co' < 2 ^ 31 ->
  (is_free co = true -> is_free co' = true /\ c_next co' = c_next co) ->
  rc (set_chans (<[c := co']> (chans s)) s) A ext'.
Proof.
  intros I Hc He Hp Hf Hm Hn. rewrite <- (set_chan_free_id (set_chans _ _)). apply (rc_upd_chan_free s A ext ext' c co co'); try done.
  destruct (rc_free _ _ _ I) as (l & Hd & Hl). exists l. split; [done|].
  eapply free_chain_ext; [|exact Hl]. intros d do _ Hdo Hfr. cbn.
  destruct (decide (d = c)) as [->|Hne]; [|rewrite lookup_insert_ne by done; eauto].
  rewrite lookup_insert_eq. rewrite Hc in Hdo. injection Hdo as <-. destruct (Hn Hfr). eauto.
Qed.

Lemma rc_upd_path s A ext ext' p po po' : rc s A ext -> paths s !! p = Some po ->
  (forall r, ext' r = ext r + occ r (out_path po) - occ r (out_path po') + at_ r (RPath p) (p_ref po' - p_ref po)) ->
  (forall r, 0 <= ext' r) -> p_ref po' < 2 ^ 31 -> (p_ref po' = 0 <-> p_ref po = 0) ->
  rc (set_paths (<[p := po']> (paths s)) s) A ext'.
Proof.
  intros I Hc He Hp Hm Hz. constructor; cbn [brk chans paths mounts mheads pgrps fgrps npath chan_free set_paths]; try apply I.
  - done.
  - intros r. rewrite count_path, He. pose proof (rc_eq _ _ _ I r) as E. unfold refs in *. cbn [set_paths chans paths mounts mheads fgrps].
    rewrite (msum_update _ _ _ _ _ Hc). cbv beta. unfold at_. case_decide as Hr; [|lia]. subst r.
    unfold count_of in E. cbn in E. rewrite Hc in E. cbn in E. lia.
  - intros r n Hr. destruct (decide (r = RPath p)) as [->|Hne].
    + cbn in Hr. rewrite lookup_insert_eq in Hr. cbn in Hr. by injection Hr as <-.
    + apply (rc_max _ _ _ I r). rewrite <- Hr. destruct r; cbn; try done. rewrite lookup_insert_ne; [done|congruence].
  - pose proof (rc_addr _ _ _ I) as H. split_and!; try apply H. apply below_insert; [apply H|].
    apply (below_in _ (paths s) p po); [apply H|done].
  - destruct (rc_free _ _ _ I) as (l & Hd & Hl). exists l. split; [done|]. eapply free_chain_ext; [|exact Hl]. eauto.
  - rewrite (rc_npath _ _ _ I). symmetry. apply (msum_keep _ _ _ po); [done|]. repeat case_decide; tauto || lia.
Qed.

(** A mount point changes, but not its file; or it is not in a table. *)
Lemma rc_upd_mhead s A ext m mo mo' : rc s A ext -> mheads s !! m = Some mo ->
  (m ∈ A -> mh_from mo' = mh_from mo) -> mh_ref mo' = mh_ref mo ->
  rc (set_mheads (<[m := mo']> (mheads s)) s) A ext.
Proof.
  intros I Hc Hfr Hr0. constructor; cbn [brk chans paths mounts mheads pgrps fgrps npath chan_free set_mheads]; try apply I.
  - intros r. rewrite count_mhead. pose proof (rc_eq _ _ _ I r) as E. unfold refs in *. cbn [set_mheads chans paths mounts mheads fgrps].
    rewrite (msum_keep _ (mheads s) m mo mo' Hc) by (unfold out_mhead; case_decide; [by rewrite Hfr by done|done]).
    case_decide as Hr; [|lia]. subst r.
    unfold count_of in E. cbn in E. rewrite Hc in E. cbn in E. lia.
  - intros d do. destruct (decide (d = m)) as [->|Hne].
    + rewrite lookup_insert_eq. intros [= <-]. rewrite Hr0. by apply (rc_pos _ _ _ I m).
    + rewrite lookup_insert_ne by done. apply I.
  - intros r n Hr. destruct (decide (r = RMhead m)) as [->|Hne].
    + cbn in Hr. rewrite lookup_insert_eq in Hr. cbn in Hr. injection Hr as <-. rewrite Hr0.
      apply (rc_max _ _ _ I (RMhead m)). cbn. by rewrite Hc.
    + apply (rc_max _ _ _ I r). rewrite <- Hr. destruct r; cbn; try done. rewrite lookup_insert_ne; [done|congruence].
  - intros d Hd. destruct (decide (d = m)) as [->|Hne]; [rewrite lookup_insert_eq; by eexists|].
    rewrite lookup_insert_ne by done. by apply (rc_att _ _ _ I).
  - pose proof (rc_addr _ _ _ I) as H. split_and!; try apply H. apply below_insert; [apply H|].
    apply (below_in _ (mheads s) m mo); [apply H|done].
  - destruct (rc_free _ _ _ I) as (l & Hd & Hl). exists l. split; [done|]. eapply free_chain_ext; [|exact Hl]. eauto.
Qed.

Lemma rc_upd_fgrp s A ext ext' f fo fo' : rc s A ext -> fgrps s !! f = Some fo ->
  (forall r, ext' r = ext r + occ r (out_fgrp fo) - occ r (out_fgrp fo') + at_ r (RFgrp f) (fg_ref fo' - fg_ref fo)) ->
  (forall r, 0 <= ext' r) -> fg_ref fo' < 2 ^ 31 ->
  rc (set_fgrps (<[f := fo']> (fgrps s)) s) A ext'.
Proof.
  intros I Hc He Hp Hm. constructor; cbn [brk chans paths mounts mheads pgrps fgrps npath chan_free set_fgrps]; try apply I.
  - done.
  - intros r. rewrite count_fgrp, He. pose proof (rc_eq _ _ _ I r) as E. unfold refs in *. cbn [set_fgrps chans paths mounts mheads fgrps].
    rewrite (msum_update _ _ _ _ _ Hc). cbv beta. unfold at_. case_decide as Hr; [|lia]. subst r.
    unfold count_of in E. cbn in E. rewrite Hc in E. cbn in E. lia.
  - intros r n Hr. destruct (decide (r = RFgrp f)) as [->|Hne].
    + cbn in Hr. rewrite lookup_insert_eq in Hr. cbn in Hr. by injection Hr as <-.
    + apply (rc_max _ _ _ I r). rewrite <- Hr. destruct r; cbn; try done. rewrite lookup_insert_ne; [done|congruence].
  - pose proof (rc_addr _ _ _ I) as H. split_and!; try apply H. apply below_insert; [apply H|].
    apply (below_in _ (fgrps s) f fo); [apply H|done].
  - destruct (rc_free _ _ _ I) as (l & Hd & Hl). exists l. split; [done|]. eapply free_chain_ext; [|exact Hl]. eauto.
Qed.

(** *** New objects *)

Lemma count_fresh s A ext r n : rc s A ext -> rcount r s = Some n ->
  match r with RChan a | RPath a | RMhead a | RPgrp a | RFgrp a => 0 < a < brk s end.
Proof.
  intros I H. destruct (rc_addr _ _ _ I) as (H1 & H2 & H3 & H4 & H5 & H6).
  destruct r; cbn in H; [destruct (chans s !! c) eqn:E|destruct (paths s !! p) eqn:E|destruct (mheads s !! m) eqn:E|
    destruct (pgrps s !! g) eqn:E|destruct (fgrps s !! f) eqn:E]; try done; eauto.
Qed.

(** The parts of the invariant that an allocation keeps. *)
Ltac rc_grow I :=
  let H := fresh in pose proof (rc_addr _ _ _ I) as H; pose proof (rc_brk _ _ _ I);
  split_and!; try apply below_insert; try (eapply below_mono; [apply H|lia]); lia.
Ltac rc_chain I :=
  let l := fresh in let Hd := fresh in let Hl := fresh in
  destruct (rc_free _ _ _ I) as (l & Hd & Hl); exists l; split; [done|];
  eapply free_chain_ext; [|exact Hl]; eauto.

Lemma rc_new_mount s A ext ext' mo : rc s A ext ->
  (forall r, ext' r = ext r - occ r (out_mount mo)) -> (forall r, 0 <= ext' r) ->
  rc (set_mounts (<[brk s := mo]> (mounts s)) (set_brk (brk s + 1) s)) A ext'.
Proof.
  intros I He Hp. pose proof (below_fresh _ (mounts s) (proj1 (proj2 (proj2 (rc_addr _ _ _ I))))) as Hf.
  constructor; cbn [brk chans paths mounts mheads pgrps fgrps npath chan_free set_mounts set_brk]; try apply I.
  - done.
  - intros r. pose proof (rc_eq _ _ _ I r) as E. rewrite He. unfold refs in *. cbn.
    rewrite msum_insert_new by done. change (count_of r _) with (count_of r s). lia.
  - pose proof (rc_brk _ _ _ I). lia.
  - rc_grow I.
  - rc_chain I.
Qed.

Lemma count_new_mhead s mo r :
  count_of r (set_mheads (<[brk s := mo]> (mheads s)) (set_brk (brk s + 1) s)) =
  if decide (r = RMhead (brk s)) then mh_ref mo else count_of r s.
Proof. rewrite <- (count_mhead (brk s) mo s r). by destruct r. Qed.

Lemma rc_new_mhead s A ext mo : rc s A ext -> 0 < mh_ref mo < 2 ^ 31 ->
  rc (set_mheads (<[brk s := mo]> (mheads s)) (set_brk (brk s + 1) s)) A (hold ext (RMhead (brk s)) (mh_ref mo)).
Proof.
  intros I Hr. pose proof (below_fresh _ (mheads s) (proj1 (proj2 (proj2 (proj2 (rc_addr _ _ _ I)))))) as Hf.
  assert (brk s ∉ A) as HA by (intros H; destruct (rc_att _ _ _ I _ H) as [? E]; by rewrite Hf in E).
  assert (forall r, refs (set_mheads (<[brk s := mo]> (mheads s)) (set_brk (brk s + 1) s)) A r = refs s A r) as HR.
  { intros r. unfold refs. cbn. rewrite msum_insert_new by done. unfold out_mhead at 1. by rewrite decide_False. }
  constructor; cbn [brk chans paths mounts mheads pgrps fgrps npath chan_free set_mheads set_brk]; try apply I.
  - intros r. unfold hold. pose proof (rc_ext _ _ _ I r). case_decide; lia.
  - intros r. pose proof (rc_eq _ _ _ I r) as E. rewrite HR, count_new_mhead. unfold hold. case_decide; [|done].
    subst r. unfold count_of in E. cbn in E. rewrite Hf in E. cbn in E. lia.
  - intros m mo'. destruct (decide (m = brk s)) as [->|Hne].
    + rewrite lookup_insert_eq. intros [= <-]. lia.
    + rewrite lookup_insert_ne by done. apply I.
  - intros r n Hn. destruct (decide (r = RMhead (brk s))) as [->|Hne].
    + cbn in Hn. rewrite lookup_insert_eq in Hn. cbn in Hn. injection Hn as <-. lia.
    + apply (rc_max _ _ _ I r). rewrite <- Hn. destruct r; cbn; try done. rewrite lookup_insert_ne; [done|congruence].
  - intros m Hm. rewrite lookup_insert_ne; [by apply (rc_att _ _ _ I)|]. by intros <-.
  - pose proof (rc_brk _ _ _ I). lia.
  - rc_grow I.
  - rc_chain I.
Qed.

Lemma count_new_path s po r :
  count_of r (set_npath (npath s + 1) (set_paths (<[brk s := po]> (paths s)) (set_brk (brk s + 1) s))) =
  if decide (r = RPath (brk s)) then p_ref po else count_of r s.
Proof. rewrite <- (count_path (brk s) po s r). by destruct r. Qed.

Lemma rc_new_path s A ext ext' po : rc s A ext -> 0 < p_ref po < 2 ^ 31 -> npath s < 2 ^ 31 - 1 ->
  (forall r, ext' r = ext r - occ r (out_path po) + at_ r (RPath (brk s)) (p_ref po)) -> (forall r, 0 <= ext' r) ->
  rc (set_npath (npath s + 1) (set_paths (<[brk s := po]> (paths s)) (set_brk (brk s + 1) s))) A ext'.
Proof.
  intros I Hr Hb He Hp. pose proof (below_fresh _ (paths s) (proj1 (proj2 (rc_addr _ _ _ I)))) as Hf.
  constructor; cbn [brk chans paths mounts mheads pgrps fgrps npath chan_free set_paths set_brk set_npath]; try apply I.
  - done.
  - intros r. pose proof (rc_eq _ _ _ I r) as E. rewrite count_new_path, He. unfold refs in *. cbn.
    rewrite msum_insert_new by done. unfold at_. case_decide; [|lia].
    subst r. unfold count_of in E. cbn in E. rewrite Hf in E. cbn in E. lia.
  - intros r n Hn. destruct (decide (r = RPath (brk s))) as [->|Hne].
    + cbn in Hn. rewrite lookup_insert_eq in Hn. cbn in Hn. injection Hn as <-. lia.
    + apply (rc_max _ _ _ I r). rewrite <- Hn. destruct r; cbn; try done. rewrite lookup_insert_ne; [done|congruence].
  - pose proof (rc_brk _ _ _ I). lia.
  - rc_grow I.
  - rc_chain I.
  - rewrite msum_insert_new by done. rewrite decide_False by lia. rewrite (rc_npath _ _ _ I). lia.
  - lia.
Qed.

Lemma count_new_pgrp s go r :
  count_of r (set_pgrps (<[brk s := go]> (pgrps s)) (set_brk (brk s + 1) s)) =
  if decide (r = RPgrp (brk s)) then pg_ref go else count_of r s.
Proof.
  unfold count_of. case_decide as E; [subst r; cbn; by rewrite lookup_insert_eq|].
  destruct r; cbn; try done. rewrite lookup_insert_ne; [done|congruence].
Qed.

Lemma rc_new_pgrp s A ext go : rc s A ext -> 0 < pg_ref go < 2 ^ 31 ->
  rc (set_pgrps (<[brk s := go]> (pgrps s)) (set_brk (brk s + 1) s)) A (hold ext (RPgrp (brk s)) (pg_ref go)).
Proof.
  intros I Hr. pose proof (below_fresh _ (pgrps s) (proj1 (proj2 (proj2 (proj2 (proj2 (rc_addr _ _ _ I))))))) as Hf.
  constructor; cbn [brk chans paths mounts mheads pgrps fgrps npath chan_free set_pgrps set_brk]; try apply I.
  - intros r. unfold hold. pose proof (rc_ext _ _ _ I r). case_decide; lia.
  - intros r. pose proof (rc_eq _ _ _ I r) as E. rewrite count_new_pgrp. unfold refs in *. cbn. unfold hold. case_decide; [|done].
    subst r. unfold count_of in E. cbn in E. rewrite Hf in E. cbn in E. lia.
  - intros r n Hn. destruct (decide (r = RPgrp (brk s))) as [->|Hne].
    + cbn in Hn. rewrite lookup_insert_eq in Hn. cbn in Hn. injection Hn as <-. lia.
    + apply (rc_max _ _ _ I r). rewrite <- Hn. destruct r; cbn; try done. rewrite lookup_insert_ne; [done|congruence].
  - pose proof (rc_brk _ _ _ I). lia.
  - rc_grow I.
  - rc_chain I.
Qed.

Lemma count_new_fgrp s fo r :
  count_of r (set_fgrps (<[brk s := fo]> (fgrps s)) (set_brk (brk s + 1) s)) =
  if decide (r = RFgrp (brk s)) then fg_ref fo else count_of r s.
Proof.
  unfold count_of. case_decide as E; [subst r; cbn; by rewrite lookup_insert_eq|].
  destruct r; cbn; try done. rewrite lookup_insert_ne; [done|congruence].
Qed.

Lemma rc_new_fgrp s A ext fo : rc s A ext -> 0 <= fg_ref fo < 2 ^ 31 -> (forall r, occ r (out_fgrp fo) = 0) ->
  rc (set_fgrps (<[brk s := fo]> (fgrps s)) (set_brk (brk s + 1) s)) A (hold ext (RFgrp (brk s)) (fg_ref fo)).
Proof.
  intros I Hr Ho. pose proof (below_fresh _ (fgrps s) (proj2 (proj2 (proj2 (proj2 (proj2 (rc_addr _ _ _ I))))))) as Hf.
  constructor; cbn [brk chans paths mounts mheads pgrps fgrps npath chan_free set_fgrps set_brk]; try apply I.
  - intros r. unfold hold. pose proof (rc_ext _ _ _ I r). case_decide; lia.
  - intros r. pose proof (rc_eq _ _ _ I r) as E. rewrite count_new_fgrp. unfold refs in *. cbn.
    rewrite msum_insert_new by done. rewrite Ho. unfold hold. case_decide; [|lia].
    subst r. unfold count_of in E. cbn in E. rewrite Hf in E. cbn in E. lia.
  - intros r n Hn. destruct (decide (r = RFgrp (brk s))) as [->|Hne].
    + cbn in Hn. rewrite lookup_insert_eq in Hn. cbn in Hn. injection Hn as <-. lia.
    + apply (rc_max _ _ _ I r). rewrite <- Hn. destruct r; cbn; try done. rewrite lookup_insert_ne; [done|congruence].
  - pose proof (rc_brk _ _ _ I). lia.
  - rc_grow I.
  - rc_chain I.
Qed.

(** *** Objects that go, and changes that no reference depends on *)

Lemma rc_del_mount s A ext ext' m mo : rc s A ext -> mounts s !! m = Some mo ->
  (forall r, ext' r = ext r + occ r (out_mount mo)) -> rc (set_mounts (delete m (mounts s)) s) A ext'.
Proof.
  intros I Hm He.
  constructor; cbn [brk chans paths mounts mheads pgrps fgrps npath chan_free set_mounts]; try apply I.
  - intros r. rewrite He. pose proof (rc_ext _ _ _ I r). pose proof (occ_nonneg r (out_mount mo)). lia.
  - intros r. pose proof (rc_eq _ _ _ I r) as E. rewrite He. unfold refs in *. cbn.
    rewrite (msum_delete _ _ _ _ Hm). change (count_of r _) with (count_of r s). lia.
  - pose proof (rc_addr _ _ _ I) as H. split_and!; try apply H. apply below_delete, H.
  - rc_chain I.
Qed.

Lemma rc_del_mhead s A ext m mo : rc s A ext -> mheads s !! m = Some mo -> mh_ref mo = 1 -> 0 < ext (RMhead m) ->
  (m ∉ A) /\ rc (set_mheads (delete m (mheads s)) s) A (hold ext (RMhead m) (-1)).
Proof.
  intros I Hm Hr Hx.
  assert (refs s A (RMhead m) = 0) as Hz.
  { pose proof (rc_eq _ _ _ I (RMhead m)) as E. unfold count_of in E. cbn in E. rewrite Hm in E. cbn in E.
    pose proof (refs_nonneg s A (RMhead m)). lia. }
  assert (m ∉ A) as HA.
  { intros HA. assert (0 < refs s A (RMhead m)); [|lia]. apply (refs_mhead s A m mo); [done|].
    unfold out_mhead. rewrite decide_True by done. right. left. }
  assert (ext (RMhead m) = 1) as Hx1.
  { pose proof (rc_eq _ _ _ I (RMhead m)) as E. unfold count_of in E. cbn in E. rewrite Hm in E. cbn in E. lia. }
  split; [done|].
  constructor; cbn [brk chans paths mounts mheads pgrps fgrps npath chan_free set_mheads]; try apply I.
  - intros r. unfold hold. pose proof (rc_ext _ _ _ I r). case_decide; [subst r; lia|lia].
  - intros r. pose proof (rc_eq _ _ _ I r) as E. unfold refs in *. cbn.
    rewrite (msum_delete _ _ _ _ Hm). unfold out_mhead at 2. rewrite decide_False by done. change (occ r []) with 0.
    unfold hold. case_decide as Hd.
    + subst r. unfold count_of in *. cbn in *. rewrite lookup_delete_eq. rewrite Hm in E. cbn in *. lia.
    + assert (count_of r (set_mheads (delete m (mheads s)) s) = count_of r s) as ->; [|lia].
      unfold count_of. destruct r; cbn; try done. rewrite lookup_delete_ne; [done|congruence].
  - intros d do [_ Hd]%lookup_delete_Some. by apply (rc_pos _ _ _ I d).
  - intros r n Hn. apply (rc_max _ _ _ I r). rewrite <- Hn. destruct r as [| |d| |]; cbn in *; try done.
    destruct (decide (d = m)) as [->|Hne]; [by rewrite lookup_delete_eq in Hn|]. by rewrite lookup_delete_ne.
  - intros d Hd. rewrite lookup_delete_ne by (by intros <-). by apply (rc_att _ _ _ I).
  - pose proof (rc_addr _ _ _ I) as H. split_and!; try apply H. apply below_delete, H.
  - rc_chain I.
Qed.

Lemma out_path_alive po : p_ref po <> 0 -> out_path po = out_chans (p_mtpt po).
Proof. intros H. unfold out_path. by rewrite decide_False. Qed.
Lemma out_path_dead po : p_ref po = 0 -> out_path po = [].
Proof. intros H. unfold out_path. by rewrite decide_True. Qed.

(** The last reference to a path: the path is about to be freed. *)
Lemma rc_path_dies s A ext ext' p po : rc s A ext -> paths s !! p = Some po -> p_ref po = 1 -> 0 < ext (RPath p) ->
  (forall r, ext' r = hold ext (RPath p) (-1) r + occ r (out_chans (p_mtpt po))) ->
  rc (set_npath (npath s - 1) (set_rcount (RPath p) 0 s)) A ext'.
Proof.
  intros I Hp Hr Hx He. cbn [set_rcount]. rewrite (alter_is_insert _ _ _ _ Hp).
  assert (forall r, count_of r (set_npath (npath s - 1) (set_paths (<[p := set_p_ref 0 po]> (paths s)) s)) =
     if decide (r = RPath p) then 0 else count_of r s) as HC.
  { intros r. etrans; [|apply (count_path p (set_p_ref 0 po) s r)]. by destruct r. }
  constructor; cbn [brk chans paths mounts mheads pgrps fgrps npath chan_free set_paths set_npath]; try apply I.
  - intros r. rewrite He. unfold hold. pose proof (rc_ext _ _ _ I r). pose proof (occ_nonneg r (out_chans (p_mtpt po))).
    case_decide; [subst r; lia|lia].
  - intros r. rewrite HC, He. pose proof (rc_eq _ _ _ I r) as E. unfold refs in *. cbn.
    rewrite (msum_update _ _ _ _ _ Hp). cbv beta. rewrite (out_path_alive po), (out_path_dead (set_p_ref 0 po)) by (done || lia).
    change (occ r []) with 0. unfold hold. case_decide; [|lia].
    subst r. unfold count_of in E. cbn in E. rewrite Hp in E. cbn in E. lia.
  - intros r n Hn. destruct (decide (r = RPath p)) as [->|Hne].
    + cbn in Hn. rewrite lookup_insert_eq in Hn. cbn in Hn. injection Hn as <-. lia.
    + apply (rc_max _ _ _ I r). rewrite <- Hn. destruct r; cbn; try done. rewrite lookup_insert_ne; [done|congruence].
  - pose proof (rc_addr _ _ _ I) as H. split_and!; try apply H. apply below_insert; [apply H|].
    apply (below_in _ (paths s) p po); [apply H|done].
  - rc_chain I.
  - rewrite (msum_update _ _ _ _ _ Hp). cbn. rewrite Hr, (rc_npath _ _ _ I). rewrite (decide_False (P := 1 = 0)), (decide_True (P := 0 = 0)) by done. lia.
  - pose proof (rc_paths _ _ _ I). lia.
Qed.

Lemma rc_del_path s A ext p po : rc s A ext -> paths s !! p = Some po -> p_ref po = 0 ->
  rc (set_paths (delete p (paths s)) s) A ext.
Proof.
  intros I Hp Hr.
  constructor; cbn [brk chans paths mounts mheads pgrps fgrps npath chan_free set_paths]; try apply I.
  - intros r. pose proof (rc_eq _ _ _ I r) as E. unfold refs in *. cbn.
    rewrite (msum_delete _ _ _ _ Hp). rewrite (out_path_dead po) by done. change (occ r []) with 0.
    assert (count_of r (set_paths (delete p (paths s)) s) = count_of r s) as ->; [|lia].
    unfold count_of. destruct r as [|q| | |]; cbn; try done. destruct (decide (q = p)) as [->|Hne].
    + rewrite lookup_delete_eq, Hp. cbn. by rewrite Hr.
    + by rewrite lookup_delete_ne.
  - intros r n Hn. apply (rc_max _ _ _ I r). rewrite <- Hn. destruct r as [|d| | |]; cbn in *; try done.
    destruct (decide (d = p)) as [->|Hne]; [by rewrite lookup_delete_eq in Hn|]. by rewrite lookup_delete_ne.
  - pose proof (rc_addr _ _ _ I) as H. split_and!; try apply H. apply below_delete, H.
  - rc_chain I.
  - rewrite (msum_delete _ _ _ _ Hp). rewrite decide_True by done. rewrite (rc_npath _ _ _ I). lia.
Qed.

Lemma rc_del_fgrp s A ext ext' f fo : rc s A ext -> fgrps s !! f = Some fo -> fg_ref fo = 0 ->
  (forall r, ext' r = ext r + occ r (out_fgrp fo)) -> rc (set_fgrps (delete f (fgrps s)) s) A ext'.
Proof.
  intros I Hp Hr He.
  constructor; cbn [brk chans paths mounts mheads pgrps fgrps npath chan_free set_fgrps]; try apply I.
  - intros r. rewrite He. pose proof (rc_ext _ _ _ I r). pose proof (occ_nonneg r (out_fgrp fo)). lia.
  - intros r. pose proof (rc_eq _ _ _ I r) as E. rewrite He. unfold refs in *. cbn.
    rewrite (msum_delete _ _ _ _ Hp).
    assert (count_of r (set_fgrps (delete f (fgrps s)) s) = count_of r s) as ->; [|lia].
    unfold count_of. destruct r as [| | | |q]; cbn; try done. destruct (decide (q = f)) as [->|Hne].
    + rewrite lookup_delete_eq, Hp. cbn. by rewrite Hr.
    + by rewrite lookup_delete_ne.
  - intros r n Hn. apply (rc_max _ _ _ I r). rewrite <- Hn. destruct r as [| | | |d]; cbn in *; try done.
    destruct (decide (d = f)) as [->|Hne]; [by rewrite lookup_delete_eq in Hn|]. by rewrite lookup_delete_ne.
  - pose proof (rc_addr _ _ _ I) as H. split_and!; try apply H. apply below_delete, H.
  - rc_chain I.
Qed.

Lemma rc_del_pgrp s A ext g go : rc s A ext -> pgrps s !! g = Some go -> pg_ref go = 0 ->
  rc (set_pgrps (delete g (pgrps s)) s) A ext.
Proof.
  intros I Hp Hr.
  constructor; cbn [brk chans paths mounts mheads pgrps fgrps npath chan_free set_pgrps]; try apply I.
  - intros r. pose proof (rc_eq _ _ _ I r) as E. unfold refs in *. cbn.
    assert (count_of r (set_pgrps (delete g (pgrps s)) s) = count_of r s) as ->; [|lia].
    unfold count_of. destruct r as [| | |q|]; cbn; try done. destruct (decide (q = g)) as [->|Hne].
    + rewrite lookup_delete_eq, Hp. cbn. by rewrite Hr.
    + by rewrite lookup_delete_ne.
  - intros r n Hn. apply (rc_max _ _ _ I r). rewrite <- Hn. destruct r as [| | |d|]; cbn in *; try done.
    destruct (decide (d = g)) as [->|Hne]; [by rewrite lookup_delete_eq in Hn|]. by rewrite lookup_delete_ne.
  - pose proof (rc_addr _ _ _ I) as H. split_and!; try apply H. apply below_delete, H.
  - rc_chain I.
Qed.

(** The count of a name space. *)
Lemma rc_upd_pgrp s A ext g go go' : rc s A ext -> pgrps s !! g = Some go ->
  pg_ref go' < 2 ^ 31 -> 0 <= ext (RPgrp g) + (pg_ref go' - pg_ref go) ->
  rc (set_pgrps (<[g := go']> (pgrps s)) s) A (hold ext (RPgrp g) (pg_ref go' - pg_ref go)).
Proof.
  intros I Hg Hm Hp.
  constructor; cbn [brk chans paths mounts mheads pgrps fgrps npath chan_free set_pgrps]; try apply I.
  - intros r. unfold hold. pose proof (rc_ext _ _ _ I r). case_decide; [by subst r|done].
  - intros r. pose proof (rc_eq _ _ _ I r) as E. unfold refs in *. cbn. unfold hold, count_of in *. case_decide as Hd.
    + subst r. cbn in *. rewrite lookup_insert_eq. rewrite Hg in E. cbn in *. lia.
    + destruct r; cbn in *; try done. rewrite lookup_insert_ne; [done|congruence].
  - intros r n Hn. destruct (decide (r = RPgrp g)) as [->|Hne].
    + cbn in Hn. rewrite lookup_insert_eq in Hn. cbn in Hn. by injection Hn as <-.
    + apply (rc_max _ _ _ I r). rewrite <- Hn. destruct r; cbn; try done. rewrite lookup_insert_ne; [done|congruence].
  - pose proof (rc_addr _ _ _ I) as H. split_and!; try apply H. apply below_insert; [apply H|].
    apply (below_in _ (pgrps s) g go); [apply H|done].
  - rc_chain I.
Qed.

Lemma rc_upd_mount s A ext m mo mo' : rc s A ext -> mounts s !! m = Some mo -> mt_to mo' = mt_to mo ->
  rc (set_mounts (<[m := mo']> (mounts s)) s) A ext.
Proof.
  intros I Hm Ht.
  constructor; cbn [brk chans paths mounts mheads pgrps fgrps npath chan_free set_mounts]; try apply I.
  - intros r. pose proof (rc_eq _ _ _ I r) as E. unfold refs in *. cbn.
    rewrite (msum_keep _ (mounts s) m mo mo' Hm) by (unfold out_mount; by rewrite Ht). exact E.
  - pose proof (rc_addr _ _ _ I) as H. split_and!; try apply H. apply below_insert; [apply H|].
    apply (below_in _ (mounts s) m mo); [apply H|done].
  - rc_chain I.
Qed.

(** The fields that the invariant does not mention. *)
Lemma rc_same s s' A ext : rc s A ext ->
  chans s' = chans s -> paths s' = paths s -> mounts s' = mounts s -> mheads s' = mheads s -> pgrps s' = pgrps s ->
  fgrps s' = fgrps s -> chan_free s' = chan_free s -> brk s' = brk s -> npath s' = npath s -> rc s' A ext.
Proof.
  intros [H1 H2 H3 H4 H5 H6 H7 H8 H9 H10 H11] E1 E2 E3 E4 E5 E6 E7 E8 E9.
  assert (forall r, rcount r s' = rcount r s) as HC by (intros []; cbn; congruence).
  constructor; try (rewrite ?E1, ?E2, ?E3, ?E4, ?E5, ?E6, ?E7, ?E8, ?E9; done).
  - intros r. unfold count_of, refs. rewrite HC, E1, E2, E3, E4, E6. apply H2.
  - intros r n. rewrite HC. apply H5.
  - destruct H9 as (l & Hd & Hl). exists l. split; [done|]. rewrite E7. eapply free_chain_ext; [|exact Hl].
    intros c co _ Hc Hf. rewrite E1. eauto.
Qed.

(** *** Mount points enter a table and leave it *)

Lemma msum_change {V} (f g : Z -> V -> Z) (m : gmap Z V) i v : m !! i = Some v ->
  (forall j u, j <> i -> m !! j = Some u -> g j u = f j u) -> msum g m = msum f m - f i v + g i v.
Proof.
  intros Hi H. rewrite <- (insert_delete_id m i v Hi), !msum_insert_new by apply lookup_delete_eq.
  rewrite (msum_ext g f); [lia|]. intros j u [Hj Hl]%lookup_delete_Some. apply H; [|done]. by intros ->.
Qed.

Lemma rc_attach s A ext ext' m mo : rc s A ext -> mheads s !! m = Some mo -> m ∉ A ->
  (forall r, ext' r = ext r - occ r [RChan (mh_from mo); RMhead m]) -> (forall r, 0 <= ext' r) ->
  rc s ({[m]} ∪ A) ext'.
Proof.
  intros I Hm HA He Hp. constructor; try apply I.
  - done.
  - intros r. pose proof (rc_eq _ _ _ I r) as E. rewrite He. unfold refs in *.
    rewrite (msum_change (fun k v => occ r (out_mhead A k v)) _ _ _ _ Hm).
    + unfold out_mhead at 2 3. rewrite decide_False by done. rewrite decide_True by (apply elem_of_union_l; by apply elem_of_singleton).
      change (occ r []) with 0. lia.
    + intros j u Hj _. unfold out_mhead. assert (j ∈ A <-> j ∈ {[m]} ∪ A) as HE by (rewrite elem_of_union, elem_of_singleton; tauto).
      repeat case_decide; tauto || done.
  - intros d [->%elem_of_singleton|Hd]%elem_of_union; [by eexists|by apply (rc_att _ _ _ I)].
Qed.

Lemma rc_detach s A ext ext' m mo : rc s A ext -> mheads s !! m = Some mo -> m ∈ A ->
  (forall r, ext' r = ext r + occ r [RChan (mh_from mo); RMhead m]) ->
  rc s (A ∖ {[m]}) ext'.
Proof.
  intros I Hm HA He. constructor; try apply I.
  - intros r. rewrite He. pose proof (rc_ext _ _ _ I r). pose proof (occ_nonneg r [RChan (mh_from mo); RMhead m]). lia.
  - intros r. pose proof (rc_eq _ _ _ I r) as E. rewrite He. unfold refs in *.
    rewrite (msum_change (fun k v => occ r (out_mhead A k v)) _ _ _ _ Hm).
    + unfold out_mhead at 2 3. rewrite decide_True by done. rewrite decide_False by (rewrite elem_of_difference, elem_of_singleton; tauto).
      change (occ r []) with 0. lia.
    + intros j u Hj _. unfold out_mhead. assert (j ∈ A <-> j ∈ A ∖ {[m]}) as HE by (rewrite elem_of_difference, elem_of_singleton; tauto).
      repeat case_decide; tauto || done.
  - intros d [Hd _]%elem_of_difference. by apply (rc_att _ _ _ I).
Qed.

(** ** What closing does *)

Definition same_ident (co co' : Chan) : Prop :=
  c_type co' = c_type co /\ c_dev co' = c_dev co /\ c_qid co' = c_qid co.

(** The closes from [s] to [s'], with the channel [c] (or 0) on its way to the free list: the
    others keep their contents, but for counts, unless they become free. *)
Record closing (c : Z) (s s' : kst) : Prop := {
  cl_mounts : mounts s' = mounts s;
  cl_pgrps : pgrps s' = pgrps s;
  cl_fgrps : fgrps s' = fgrps s;
  cl_brk : brk s' = brk s;
  cl_mountid : mountid s' = mountid s;
  cl_pgrpid : pgrpid s' = pgrpid s;
  cl_error : kerrstr s' = kerrstr s;
  cl_counts r : count_of r s' <= count_of r s;
  cl_npath : npath s' <= npath s;
  cl_chans d co : chans s !! d = Some co -> exists co', chans s' !! d = Some co' /\ same_ident co co' /\
    if decide (d = c) then is_free co = false /\ is_free co' = true
    else (is_free co' = false -> is_free co = false /\ co' = set_c_ref (c_ref co') co) /\
         (is_free co = true -> co' = co);
  cl_back d co' : chans s' !! d = Some co' -> is_Some (chans s !! d);
  cl_mheads m mo' : mheads s' !! m = Some mo' ->
    exists mo, mheads s !! m = Some mo /\ mo' = set_mh_ref (mh_ref mo') mo;
  cl_paths p po' : paths s' !! p = Some po' ->
    exists po, paths s !! p = Some po /\ po' = set_p_ref (p_ref po') po;
  cl_dying p po : paths s !! p = Some po -> p_ref po = 0 -> paths s' !! p = Some po;
  cl_free l : NoDup l -> free_chain s l (chan_free s) -> exists new, NoDup (new ++ l) /\
    free_chain s' (new ++ l) (chan_free s') /\
    forall d, d ∈ new -> d <> c /\ exists co, chans s !! d = Some co /\ is_free co = false }.

Definition closes : kst -> kst -> Prop := closing 0.

Lemma set_c_ref_twice x y co : set_c_ref x (set_c_ref y co) = set_c_ref x co.
Proof. by destruct co. Qed.
Lemma set_c_ref_id co : set_c_ref (c_ref co) co = co.
Proof. by destruct co. Qed.
Lemma set_mh_ref_twice x y mo : set_mh_ref x (set_mh_ref y mo) = set_mh_ref x mo.
Proof. by destruct mo. Qed.
Lemma set_mh_ref_id mo : set_mh_ref (mh_ref mo) mo = mo.
Proof. by destruct mo. Qed.
Lemma set_p_ref_twice x y po : set_p_ref x (set_p_ref y po) = set_p_ref x po.
Proof. by destruct po. Qed.
Lemma set_p_ref_id po : set_p_ref (p_ref po) po = po.
Proof. by destruct po. Qed.

Lemma closes_refl s A ext : rc s A ext -> closes s s.
Proof.
  intros I. constructor; try done.
  - intros d co Hd. exists co. split_and!; try done. rewrite decide_False by (destruct (rc_addr _ _ _ I) as [H _]; specialize (H _ _ Hd); lia).
    split; [|done]. intros ?. by rewrite set_c_ref_id.
  - intros m mo Hm. exists mo. by rewrite set_mh_ref_id.
  - intros p po Hp. exists po. by rewrite set_p_ref_id.
  - intros l Hd Hl. exists []. split_and!; [done..|]. by intros d Hi%not_elem_of_nil.
Qed.

Lemma closing_trans c s1 s2 s3 A ext : rc s1 A ext -> closing c s1 s2 -> closes s2 s3 -> closing c s1 s3.
Proof.
  intros I H G. constructor; try (etrans; [apply G|apply H]).
  - intros d co Hd. destruct (cl_chans _ _ _ H d co Hd) as (co1 & Hd1 & E1 & K1).
    destruct (cl_chans _ _ _ G d co1 Hd1) as (co2 & Hd2 & E2 & K2). exists co2.
    split_and!; [done|unfold same_ident in *; intuition congruence|].
    rewrite decide_False in K2 by (destruct (rc_addr _ _ _ I) as [B _]; specialize (B _ _ Hd); lia).
    destruct (decide (d = c)) as [E|E].
    + destruct K1 as [K1 K1']. split; [done|]. destruct K2 as [_ K2]. rewrite (K2 K1'). done.
    + destruct K1 as [K1 K1'], K2 as [K2 K2']. split.
      * intros Hf. destruct (K2 Hf) as [Hf1 Eq]. destruct (K1 Hf1) as [Hf0 Eq0]. split; [done|].
        rewrite Eq, Eq0. by rewrite !set_c_ref_twice.
      * intros Hf. rewrite (K1' Hf) in *. by apply K2'.
  - intros d co Hd. destruct (cl_back _ _ _ G d co Hd) as [co1 Hd1]. by apply (cl_back _ _ _ H d co1).
  - intros m mo Hm. destruct (cl_mheads _ _ _ G m mo Hm) as (mo1 & Hm1 & E1).
    destruct (cl_mheads _ _ _ H m mo1 Hm1) as (mo0 & Hm0 & E0). exists mo0. split; [done|].
    rewrite E1, E0. by rewrite !set_mh_ref_twice.
  - intros p po Hp. destruct (cl_paths _ _ _ G p po Hp) as (po1 & Hp1 & E1).
    destruct (cl_paths _ _ _ H p po1 Hp1) as (po0 & Hp0 & E0). exists po0. split; [done|].
    rewrite E1, E0. by rewrite !set_p_ref_twice.
  - intros p po Hp Hz. apply (cl_dying _ _ _ G); [|done]. by apply (cl_dying _ _ _ H).
  - intros l Hnd Hl. destruct (cl_free _ _ _ H l Hnd Hl) as (n1 & Hnd1 & Hl1 & Hn1).
    destruct (cl_free _ _ _ G _ Hnd1 Hl1) as (n2 & Hnd2 & Hl2 & Hn2). exists (n2 ++ n1).
    rewrite <- app_assoc. split_and!; [done..|]. intros d [Hd|Hd]%elem_of_app; [|by apply Hn1].
    destruct (Hn2 d Hd) as (Hd0 & co1 & Hc1 & Hf1).
    destruct (cl_back _ _ _ H d co1 Hc1) as [co Hco]. destruct (cl_chans _ _ _ H d co Hco) as (co1' & Hc1' & _ & K).
    assert (co1' = co1) as -> by congruence. destruct (decide (d = c)) as [->|E]; [by destruct K; congruence|].
    split; [done|]. exists co. split; [done|]. by apply K.
Qed.

Lemma closes_trans s1 s2 s3 A ext : rc s1 A ext -> closes s1 s2 -> closes s2 s3 -> closes s1 s3.
Proof. apply closing_trans. Qed.

(** A change of a count that leaves the object alive. *)
Lemma closes_recount s A ext r n n' : rc s A ext -> rcount r s = Some n -> 0 < n' <= n ->
  match r with RPgrp _ | RFgrp _ => False | _ => True end -> closes s (set_rcount r n' s).
Proof.
  intros I Hr Hn' Hk. pose proof (closes_refl s A ext I) as G.
  assert (0 < n) as Hn by lia.
  assert (forall r', count_of r' (set_rcount r n' s) <= count_of r' s) as HC.
  { intros r'. unfold count_of. destruct (decide (r' = r)) as [->|Hne].
    - rewrite (rcount_set _ _ _ _ Hr), Hr. cbn. lia.
    - by rewrite rcount_set_ne. }
  destruct r as [c|p|m| |]; try done; cbn in *; constructor; try apply G; try done; cbn.
  - intros d co Hd. destruct (cl_chans _ _ _ G d co Hd) as (co' & Hd' & E & K).
    destruct (decide (d = c)) as [->|Hne]; [|rewrite lookup_alter_ne by done; by exists co'].
    rewrite lookup_alter_eq, Hd. cbn. exists (set_c_ref n' co). assert (co' = co) as -> by congruence.
    split_and!; [done..|]. rewrite Hd in Hr. cbn in Hr. injection Hr as Hr.
    case_decide; [done|]. pose proof (rc_chan _ _ _ I c co Hd).
    change (is_free (set_c_ref n' co)) with (is_free co). split; [done|]. intros Hf. rewrite Hf in *. lia.
  - intros d co. destruct (decide (d = c)) as [->|Hne]; [rewrite lookup_alter_eq|rewrite lookup_alter_ne by done; by eauto].
    destruct (chans s !! c); [by eexists|done].
  - intros l Hnd Hl. exists []. split_and!; [done| |by intros d Hi%not_elem_of_nil].
    eapply free_chain_ext; [|exact Hl]. intros d co _ Hc Hf. cbn.
    destruct (decide (d = c)) as [->|Hne]; [|rewrite lookup_alter_ne by done; eauto].
    rewrite lookup_alter_eq, Hc. cbn. eexists. by split_and!.
  - intros q po. destruct (decide (q = p)) as [->|Hne].
    + rewrite lookup_alter_eq. destruct (paths s !! p) as [po0|]; [|done]. cbn. intros [= <-]. by exists po0.
    + rewrite lookup_alter_ne by done. apply G.
  - intros q po Hq Hz. destruct (decide (q = p)) as [->|Hne]; [rewrite Hq in Hr; cbn in Hr; injection Hr; lia|].
    by rewrite lookup_alter_ne.
  - intros l Hnd Hl. exists []. split_and!; [done| |by intros d Hi%not_elem_of_nil].
    eapply free_chain_ext; [|exact Hl]. eauto.
  - intros q mo. destruct (decide (q = m)) as [->|Hne].
    + rewrite lookup_alter_eq. destruct (mheads s !! m) as [mo0|]; [|done]. cbn. intros [= <-]. by exists mo0.
    + rewrite lookup_alter_ne by done. apply G.
  - intros l Hnd Hl. exists []. split_and!; [done| |by intros d Hi%not_elem_of_nil].
    eapply free_chain_ext; [|exact Hl]. eauto.
Qed.

(** The channels in use. *)
Definition live (s : kst) : gmap Z Chan := filter (fun p : Z * Chan => is_free p.2 = false) (chans s).
Definition nlive (s : kst) : nat := size (live s).

Lemma live_lookup s d co : live s !! d = Some co <-> chans s !! d = Some co /\ is_free co = false.
Proof. apply map_lookup_filter_Some. Qed.

Lemma closing_live c s s' d co' : closing c s s' -> live s' !! d = Some co' ->
  d <> c /\ exists co, live s !! d = Some co /\ co' = set_c_ref (c_ref co') co.
Proof.
  intros H [Hd Hf]%live_lookup. destruct (cl_back _ _ _ H d co' Hd) as [co Hco].
  destruct (cl_chans _ _ _ H d co Hco) as (co1 & Hd1 & _ & K). assert (co1 = co') as -> by congruence.
  case_decide as E; [destruct K; congruence|]. split; [done|]. destruct K as [K _]. destruct (K Hf) as [Hf0 Eq].
  exists co. split; [|done]. by apply live_lookup.
Qed.

Lemma closing_nlive c s s' : closing c s s' -> (nlive s' <= nlive s)%nat.
Proof.
  intros H. unfold nlive. rewrite <- !size_dom. apply subseteq_size. intros d [co' Hd]%elem_of_dom.
  destruct (closing_live _ _ _ _ _ H Hd) as (_ & co & Hco & _). apply elem_of_dom. by eexists.
Qed.

Lemma closing_nlive_lt c co s s' : closing c s s' -> live s !! c = Some co -> (nlive s' < nlive s)%nat.
Proof.
  intros H Hc. unfold nlive. rewrite <- !size_dom.
  assert (size (dom (live s')) <= size (dom (live s) ∖ {[c]}))%nat as HS.
  { apply subseteq_size. intros d [co' Hd]%elem_of_dom.
    destruct (closing_live _ _ _ _ _ H Hd) as (Hne & co0 & Hco & _).
    apply elem_of_difference. split; [apply elem_of_dom; by eexists|]. by rewrite elem_of_singleton. }
  rewrite size_difference in HS.
  - rewrite size_singleton in HS. assert (size (dom (live s)) <> 0)%nat; [|lia].
    intros E%size_empty_inv. assert (c ∈ (∅ : gset Z)) as Hin by (apply E, elem_of_dom; by eexists).
    by apply not_elem_of_empty in Hin.
  - intros d ->%elem_of_singleton. apply elem_of_dom. by eexists.
Qed.

(** ** Giving up references *)

Definition less (ext : obj -> Z) (l : list obj) : obj -> Z := fun r => ext r - occ r l.
Definition covers (ext : obj -> Z) (l : list obj) : Prop := forall r, occ r l <= ext r.

Lemma covers_one ext r : (forall x, 0 <= ext x) -> 0 < ext r -> covers ext [r].
Proof. intros H Hr x. rewrite occ_one. case_decide; [subst x; lia|apply H]. Qed.
Lemma covers_held ext r : covers ext [r] -> 0 < ext r.
Proof. intros H. specialize (H r). rewrite occ_one, decide_True in H by done. lia. Qed.
Lemma covers_app ext l l' : covers ext (l ++ l') -> covers ext l /\ covers (less ext l) l'.
Proof.
  intros H. unfold covers, less in *. split; intros r; specialize (H r); rewrite occ_app in H;
    pose proof (occ_nonneg r l'); lia.
Qed.
Lemma less_app ext l l' r : less (less ext l) l' r = less ext (l ++ l') r.
Proof. unfold less. rewrite occ_app. lia. Qed.
Lemma hold_less ext r x : hold ext r (-1) x = less ext [r] x.
Proof. unfold hold, less. rewrite occ_one. case_decide; lia. Qed.
Lemma occ_nil r : occ r [] = 0.
Proof. done. Qed.
Lemma less_nil ext r : less ext [] r = ext r.
Proof. unfold less. rewrite occ_nil. lia. Qed.

(** The freed channels, of a state with the same channels and free list. *)
Lemma closing_same_free s s' : chans s' = chans s -> chan_free s' = chan_free s ->
  forall l c, NoDup l -> free_chain s l (chan_free s) -> exists new, NoDup (new ++ l) /\
    free_chain s' (new ++ l) (chan_free s') /\
    forall d, d ∈ new -> d <> c /\ exists co, chans s !! d = Some co /\ is_free co = false.
Proof.
  intros E1 E2 l c Hnd Hl. exists []. split_and!; [done| |by intros d Hi%not_elem_of_nil]. rewrite E2.
  eapply free_chain_ext; [|exact Hl]. rewrite E1. eauto.
Qed.

Lemma free_chain_chans s s' l h : chans s' = chans s -> free_chain s l h -> free_chain s' l h.
Proof. intros E. apply free_chain_ext. rewrite E. eauto. Qed.

Lemma closes_path_dies s po p n s2 : paths s !! p = Some po -> p_ref po = 1 ->
  closes (set_npath n (set_rcount (RPath p) 0 s)) s2 -> n <= npath s ->
  (exists po2, paths s2 !! p = Some po2 /\ p_ref po2 = 0) -> closes s (set_paths (delete p (paths s2)) s2).
Proof.
  intros Hp Hr H Hnp (po2 & Hp2 & Hz2). constructor; try apply H.
  - intros r. trans (count_of r s2).
    + unfold count_of. destruct r as [|q| | |]; try done. cbn. destruct (decide (q = p)) as [->|Hne].
      * rewrite lookup_delete_eq, Hp2. cbn. lia.
      * by rewrite lookup_delete_ne.
    + etrans; [apply H|]. unfold count_of. destruct r as [|q| | |]; try done. cbn. destruct (decide (q = p)) as [->|Hne].
      * rewrite lookup_alter_eq, Hp. cbn. lia.
      * by rewrite lookup_alter_ne.
  - pose proof (cl_npath _ _ _ H). cbn in *. lia.
  - cbn. intros q po' [Hne Hq]%lookup_delete_Some. destruct (cl_paths _ _ _ H q po' Hq) as (po1 & Hq1 & E).
    exists po1. split; [|done]. cbn in Hq1. by rewrite lookup_alter_ne in Hq1.
  - cbn. intros q po' Hq Hz. assert (q <> p) as Hne by (intros ->; congruence).
    rewrite lookup_delete_ne by done. apply (cl_dying _ _ _ H); [|done]. cbn. by rewrite lookup_alter_ne.
  - intros l Hnd Hl. destruct (cl_free _ _ _ H l Hnd) as (new & ? & ? & ?).
    { eapply free_chain_chans; [|exact Hl]. done. }
    exists new. split_and!; try done. by apply (free_chain_chans s2).
Qed.

Section Giving.
Context {R : Type}.

Lemma putmhead_ok s A ext m : rc s A ext -> covers ext (nzr RMhead m) ->
  exists s', putmhead (R := R) m s = (Go tt, s') /\ rc s' A (less ext (nzr RMhead m)) /\ closes s s'.
Proof.
  intros I. unfold nzr, putmhead. case_decide as Hz.
  { intros _. exists s. split_and!; [done| |by eapply closes_refl]. eapply rc_hold; [|exact I]. intros r. by rewrite less_nil. }
  intros Hc%covers_held. destruct (rcount_some s A ext (RMhead m) I) as (n & Hn & Hp); [by left|].
  destruct (decide (n = 1)) as [->|Hn1].
  - rewrite (cbind_go _ _ _ _ _ (decref_last _ _ Hn)). rewrite decide_True by done. cbn in Hn.
    destruct (mheads s !! m) as [mo|] eqn:Hm; [|done]. cbn in Hn. injection Hn as Hn.
    assert (set_rcount (RMhead m) 0 s = set_mheads (<[m := set_mh_ref 0 mo]> (mheads s)) s) as ->
      by (cbn; by rewrite (alter_is_insert _ _ _ _ Hm)).
    unfold cbind, mhset, free, put. cbn [mheads set_mheads]. rewrite !lookup_insert_eq. cbn [mheads set_mheads].
    rewrite lookup_insert_eq. rewrite insert_insert_eq, delete_insert_eq.
    destruct (rc_del_mhead s A ext m mo I Hm Hn Hc) as [_ I'].
    eexists. split_and!; [reflexivity| |].
    + eapply rc_hold; [|exact I']. intros r. apply hold_less.
    + pose proof (closes_refl _ _ _ I) as G. constructor; try apply G.
      * intros r. unfold count_of. destruct r as [| |d| |]; try done. cbn. destruct (decide (d = m)) as [->|Hne].
        -- rewrite lookup_delete_eq, Hm. cbn. lia.
        -- by rewrite lookup_delete_ne.
      * cbn. intros d mo' [_ Hd]%lookup_delete_Some. by apply G.
      * intros l. by apply (closing_same_free s).
  - destruct (decref_ok (R := R) s A ext (RMhead m) n I Hn ltac:(lia) Hc) as [E I'].
    rewrite (cbind_go _ _ _ _ _ E). rewrite decide_False by lia. eexists. split_and!; [reflexivity| |].
    + eapply rc_hold; [|exact I']. intros r. apply hold_less.
    + apply (closes_recount s A ext (RMhead m) n); try done; lia.
Qed.

Definition close_ok (n : nat) (close : Z -> cmd kst R Z) : Prop :=
  forall s A ext c, rc s A ext -> covers ext [RChan c] -> (nlive s < n)%nat ->
    exists s', close c s = (Go 0, s') /\ rc s' A (less ext [RChan c]) /\ closes s s'.

Lemma out_chans_cons c l : out_chans (c :: l) = nzr RChan c ++ out_chans l.
Proof. done. Qed.

Lemma mtpt_close_ok n close l : close_ok n close -> forall s A ext, rc s A ext -> covers ext (out_chans l) ->
  (nlive s < n)%nat ->
  exists s', mtpt_close close l s = (Go 1, s') /\ rc s' A (less ext (out_chans l)) /\ closes s s'.
Proof.
  intros H. induction l as [|c l IH]; intros s A ext I Hc Hn; cbn [mtpt_close].
  { exists s. split_and!; [done| |by eapply closes_refl]. eapply rc_hold; [|exact I]. intros r. by rewrite less_nil. }
  rewrite out_chans_cons in *. unfold nzr in *. destruct (decide (c = 0)) as [Hz|Hz].
  - rewrite decide_False by (intros ?; done). by apply IH.
  - rewrite decide_True by done. apply covers_app in Hc as [Hc Hc'].
    destruct (H s A ext c I Hc Hn) as (s1 & E1 & I1 & C1). rewrite (cbind_go _ _ _ _ _ E1).
    rewrite decide_False by done. pose proof (closing_nlive _ _ _ C1).
    destruct (IH s1 A _ I1 Hc' ltac:(lia)) as (s2 & E2 & I2 & C2). exists s2. split_and!; [done| |by eapply closes_trans].
    eapply rc_hold; [|exact I2]. intros r. apply less_app.
Qed.

Lemma pathclose_ok n close p : close_ok n close -> forall s A ext, rc s A ext -> covers ext (nzr RPath p) ->
  (nlive s < n)%nat ->
  exists s', pathclose_ close p s = (Go 1, s') /\ rc s' A (less ext (nzr RPath p)) /\ closes s s'.
Proof.
  intros H s A ext I. unfold nzr, pathclose_. case_decide as Hz.
  { intros _ _. exists s. split_and!; [done| |by eapply closes_refl]. eapply rc_hold; [|exact I]. intros r. by rewrite less_nil. }
  intros Hc Hl. pose proof (covers_held _ _ Hc) as Hh.
  destruct (rcount_some s A ext (RPath p) I) as (n0 & Hn & Hp); [by left|].
  destruct (decide (n0 = 1)) as [->|Hn1].
  - rewrite (cbind_go _ _ _ _ _ (decref_last _ _ Hn)). rewrite decide_False by (intros ?; done).
    cbn in Hn. destruct (paths s !! p) as [po|] eqn:Hpo; [|done]. cbn in Hn. injection Hn as Hn.
    set (ext1 := fun r => hold ext (RPath p) (-1) r + occ r (out_chans (p_mtpt po))).
    pose proof (rc_path_dies s A ext ext1 p po I Hpo Hn Hh (fun r => eq_refl)) as I1.
    assert (decref_ (R := R) npath set_npath (set_rcount (RPath p) 0 s) =
      (Go (npath s - 1), set_npath (npath s - 1) (set_rcount (RPath p) 0 s))) as E1.
    { pose proof (msum_ge (fun _ q => if decide (p_ref q = 0) then 0 else 1) (paths s) p po) as G. cbv beta in G.
      rewrite <- (rc_npath _ _ _ I) in G. rewrite Hn, decide_False in G by done.
      unfold decref_. change (npath (set_rcount (RPath p) 0 s)) with (npath s).
      pose proof (rc_paths _ _ _ I).
      rewrite s32_small by (assert (1 <= npath s) by (apply G; [intros; case_decide; lia|done]); lia).
      rewrite decide_False; [done|]. assert (1 <= npath s) by (apply G; [intros; case_decide; lia|done]). lia. }
    rewrite (cbind_go _ _ _ _ _ E1).
    set (s1 := set_npath (npath s - 1) (set_rcount (RPath p) 0 s)) in *.
    assert (paths s1 !! p = Some (set_p_ref 0 po)) as Hp1 by (cbn; by rewrite lookup_alter_eq, Hpo).
    assert (pget (R := R) p s1 = (Go (set_p_ref 0 po), s1)) as E2 by (unfold pget, look; by rewrite Hp1).
    rewrite (cbind_go _ _ _ _ _ E2). cbn [p_mtpt set_p_ref].
    destruct (mtpt_close_ok n close (p_mtpt po) H s1 A ext1 I1) as (s2 & E3 & I2 & C2).
    { intros r. unfold ext1, hold. pose proof (rc_ext _ _ _ I r). case_decide; [subst r; lia|lia]. }
    { exact Hl. }
    rewrite (cbind_go _ _ _ _ _ E3). rewrite decide_False by done.
    pose proof (cl_dying _ _ _ C2 p _ Hp1 eq_refl) as Hp2.
    unfold free, cbind. rewrite Hp2. eexists. split_and!; [reflexivity| |].
    + eapply rc_hold; [|by apply (rc_del_path s2 A _ p _ I2 Hp2)]. intros r. unfold less, ext1. rewrite hold_less. unfold less. lia.
    + apply (closes_path_dies s po p (npath s - 1)); [done..|lia|by eauto].
  - destruct (decref_ok (R := R) s A ext (RPath p) n0 I Hn ltac:(lia) Hh) as [E I'].
    rewrite (cbind_go _ _ _ _ _ E). rewrite decide_True by lia. eexists. split_and!; [reflexivity| |].
    + eapply rc_hold; [|exact I']. intros r. apply hold_less.
    + apply (closes_recount s A ext (RPath p) n0); try done; lia.
Qed.
End Giving.

(** *** A channel on its way to the free list *)

Record dying (s : kst) (c : Z) (co : Chan) (sk : kst) (A : gset Z) (ext : obj -> Z) (ck : Chan) : Prop := {
  dy_rc : rc sk A ext;
  dy_closing : closing c s sk;
  dy_chan : chans sk !! c = Some ck;
  dy_free : is_free ck = true;
  dy_ident : same_ident co ck }.

Lemma set_chan_twice sk c co co' : set_chans (<[c := co']> (chans (set_chans (<[c := co]> (chans sk)) sk)))
  (set_chans (<[c := co]> (chans sk)) sk) = set_chans (<[c := co']> (chans sk)) sk.
Proof. cbn. unfold set_chans. cbn. by rewrite insert_insert_eq. Qed.

Lemma count_chan_le s sk c ck ck' r : (forall r, count_of r sk <= count_of r s) -> chans sk !! c = Some ck ->
  c_ref ck' <= c_ref ck -> count_of r (set_chans (<[c := ck']> (chans sk)) sk) <= count_of r s.
Proof.
  intros H Hc Hr. rewrite count_chan. case_decide as E; [|done]. subst r. specialize (H (RChan c)).
  assert (count_of (RChan c) sk = c_ref ck) as E by (unfold count_of; cbn; by rewrite Hc). lia.
Qed.

Section Dying.
Context {R : Type} (s : kst) (c : Z) (co : Chan) (A0 : gset Z) (ext0 : obj -> Z).
Context (I0 : rc s A0 ext0) (Hc0 : live s !! c = Some co).

Lemma dying_close sk sk' A ext ext' ck : dying s c co sk A ext ck -> closes sk sk' -> rc sk' A ext' ->
  dying s c co sk' A ext' ck.
Proof using I0 Hc0.
  intros [I C Hc Hf Hi] G I'. constructor; try done.
  - by eapply closing_trans.
  - destruct (cl_chans _ _ _ G c ck Hc) as (ck' & Hc' & _ & K). rewrite decide_False in K.
    + destruct K as [_ K]. by rewrite Hc', K.
    + destruct (rc_addr _ _ _ I) as [B _]. specialize (B _ _ Hc). lia.
Qed.

Lemma closing_set sk ck ck' : closing c s sk -> chans sk !! c = Some ck ->
  is_free ck' = true -> same_ident co ck' -> c_ref ck' <= c_ref ck ->
  closing c s (set_chans (<[c := ck']> (chans sk)) sk).
Proof using I0 Hc0.
  intros C Hc Hf Hi Hr. apply live_lookup in Hc0 as [Hs Hl]. constructor; try apply C.
  - intros r. apply (count_chan_le s sk c ck); [apply C|done..].
  - intros d do Hd. destruct (decide (d = c)) as [->|Hne].
    + cbn. rewrite lookup_insert_eq. exists ck'. assert (do = co) as -> by congruence. by split_and!.
    + cbn. rewrite lookup_insert_ne by done. destruct (cl_chans _ _ _ C d do Hd) as (do' & Hd' & E & K).
      rewrite decide_False in K by done. by exists do'.
  - cbn. intros d do. destruct (decide (d = c)) as [->|Hne]; [by eauto|]. rewrite lookup_insert_ne by done. apply C.
  - intros l Hnd Hch. destruct (cl_free _ _ _ C l Hnd Hch) as (new & Hnd' & Hch' & Hn). exists new.
    split_and!; [done| |done]. eapply free_chain_ext; [|exact Hch'].
    intros d do [Hd|Hd]%elem_of_app Hdo Hdf; cbn; exists do; (rewrite lookup_insert_ne; [done|]); intros <-.
    + by destruct (Hn c Hd).
    + destruct (free_chain_in _ _ _ _ Hch Hd) as (co' & Hco' & Hf'). congruence.
Qed.

Lemma dying_set sk A ext ck ck' : dying s c co sk A ext ck -> is_free ck' = true -> c_ref ck' = c_ref ck ->
  same_ident co ck' -> c_next ck' = c_next ck ->
  dying s c co (set_chans (<[c := ck']> (chans sk)) sk) A ext ck'.
Proof using I0 Hc0.
  intros [I C Hc Hf Hi] Hf' Hr Hi' Hn. constructor; try done.
  - apply (rc_upd_chan sk A ext ext c ck ck' I Hc); try done.
    + intros r. unfold out_chan, at_. rewrite Hf, Hf', Hr. case_decide; lia.
    + apply I.
    + rewrite Hr. split; [|done]. intros _. by apply (rc_chan _ _ _ I c ck Hc).
    + rewrite Hr. apply (rc_max _ _ _ I (RChan c)). cbn. by rewrite Hc.
  - apply (closing_set sk ck); try done. lia.
  - cbn. by rewrite lookup_insert_eq.
Qed.

Lemma chset_dying sk A ext ck g : dying s c co sk A ext ck -> is_free (g ck) = true -> c_ref (g ck) = c_ref ck ->
  same_ident co (g ck) -> c_next (g ck) = c_next ck ->
  exists sk', chset (R := R) c g sk = (Go tt, sk') /\ dying s c co sk' A ext (g ck).
Proof using I0 Hc0.
  intros D Hf Hr Hi Hn. unfold chset, put. rewrite (dy_chan _ _ _ _ _ _ _ D).
  eexists. split; [reflexivity|]. by apply (dying_set sk A ext ck).
Qed.

Lemma chget_dying sk A ext ck : dying s c co sk A ext ck -> chget (R := R) c sk = (Go ck, sk).
Proof. intros D. unfold chget, look. by rewrite (dy_chan _ _ _ _ _ _ _ D). Qed.

(** [if(c->x != nil){ act; c->x = nil; }] *)
Lemma when_dying {B} sk A ext ck (x : Z) (act : cmd kst R B) (g : Chan -> Chan) l :
  dying s c co sk A ext ck -> (x = 0 -> g ck = ck /\ l = []) ->
  is_free (g ck) = true -> c_ref (g ck) = c_ref ck -> same_ident co (g ck) -> c_next (g ck) = c_next ck ->
  (x <> 0 -> exists b sk', act sk = (Go b, sk') /\ rc sk' A (less ext l) /\ closes sk sk') ->
  exists sk', cwhen (bool_decide (x <> 0)) (act;; chset c g) sk = (Go tt, sk') /\
    dying s c co sk' A (less ext l) (g ck).
Proof using I0 Hc0.
  intros D H0 Hf Hr Hi Hn Ha. destruct (decide (x = 0)) as [Hx|Hx].
  - destruct (H0 Hx) as [-> ->]. rewrite bool_decide_false by (intros ?; done). exists sk. split; [done|].
    destruct D. constructor; try done. eapply rc_hold; [|done]. intros r. by rewrite less_nil.
  - rewrite bool_decide_true by done. destruct (Ha Hx) as (b & sk1 & E & I1 & C1).
    pose proof (dying_close sk sk1 A ext _ ck D C1 I1) as D1.
    destruct (chset_dying sk1 A _ ck g D1 Hf Hr Hi Hn) as (sk2 & E2 & D2). exists sk2. split; [|done].
    cbn [cwhen]. by rewrite (cbind_go _ _ _ _ _ E).
Qed.
End Dying.

Lemma closes_devclosed s A ext l : rc s A ext -> rc (set_devclosed l s) A ext /\ closes s (set_devclosed l s).
Proof.
  intros I. split; [by apply (rc_same s)|]. pose proof (closes_refl _ _ _ I) as G. constructor; try apply G.
  intros l'. by apply (closing_same_free s).
Qed.
Lemma closes_muxclosed s A ext l : rc s A ext -> rc (set_muxclosed l s) A ext /\ closes s (set_muxclosed l s).
Proof.
  intros I. split; [by apply (rc_same s)|]. pose proof (closes_refl _ _ _ I) as G. constructor; try apply G.
  intros l'. by apply (closing_same_free s).
Qed.

Lemma nzr_ne k x : x <> 0 -> nzr k x = [k x].
Proof. intros H. unfold nzr. by rewrite decide_False. Qed.

Lemma set_dirrock_id c : c_dirrock c = 0 -> set_c_dirrock 0 c = c.
Proof. intros H. rewrite <- H. by destruct c. Qed.
Lemma set_umh_id c : c_umh c = 0 -> set_c_umh 0 c = c.
Proof. intros H. rewrite <- H. by destruct c. Qed.
Lemma set_umc_id c : c_umc c = 0 -> set_c_umc 0 c = c.
Proof. intros H. rewrite <- H. by destruct c. Qed.
Lemma set_mux_id c : c_mux c = 0 -> set_c_mux 0 c = c.
Proof. intros H. rewrite <- H. by destruct c. Qed.
Lemma set_mchan_id c : c_mchan c = 0 -> set_c_mchan 0 c = c.
Proof. intros H. rewrite <- H. by destruct c. Qed.

Section Closing.
Context {R : Type}.

(** The channel loses its last reference: it is [dying] from the moment its flag is set. *)
Lemma dying_start s A ext c co l : rc s A ext -> live s !! c = Some co -> c_ref co = 1 -> covers ext [RChan c] ->
  let ck := set_c_flag CFREE (set_c_ref 0 co) in
  dying s c co (set_devclosed l (set_chans (<[c := ck]> (chans s)) s)) A
    (fun r => less ext [RChan c] r + occ r (out_chan co)) ck.
Proof.
  intros I [Hc Hf]%live_lookup Hr Hh ck.
  assert (rc (set_chans (<[c := ck]> (chans s)) s) A (fun r => less ext [RChan c] r + occ r (out_chan co))) as I1.
  { apply (rc_upd_chan s A ext _ c co ck I Hc); try done.
    - intros r. change (out_chan ck) with ([] : list obj). rewrite occ_nil. unfold less, at_. rewrite occ_one, Hr. cbn.
      case_decide; lia.
    - intros r. pose proof (Hh r). pose proof (occ_nonneg r (out_chan co)). unfold less. lia. }
  constructor; try done.
  - by apply closes_devclosed.
  - pose proof (closes_refl _ _ _ I) as G. constructor; try apply G.
    + intros r. apply (count_chan_le s s c co); try done. cbn. lia.
    + cbn. intros d do Hd. destruct (decide (d = c)) as [->|Hne].
      * rewrite lookup_insert_eq. assert (do = co) as -> by congruence. exists ck. by split_and!.
      * rewrite lookup_insert_ne by done. exists do. split_and!; [done..| |done]. intros ?. split; [done|].
        by rewrite set_c_ref_id.
    + cbn. intros d do. destruct (decide (d = c)) as [->|Hne]; [by eauto|]. rewrite lookup_insert_ne by done. by eauto.
    + intros l0 Hnd Hch. exists []. split_and!; [done| |by intros d Hi%not_elem_of_nil].
      eapply free_chain_ext; [|exact Hch]. intros d do Hd Hdo Hdf. exists do. cbn. rewrite lookup_insert_ne; [done|].
      intros <-. congruence.
  - cbn. by rewrite lookup_insert_eq.
Qed.

(** The channel comes to the front of the free list. *)
Lemma dying_push s A0 ext0 c co sk A ext ck : rc s A0 ext0 -> live s !! c = Some co ->
  dying s c co sk A ext ck ->
  let s' := set_chan_free c (set_chans (<[c := set_c_next (chan_free sk) ck]> (chans sk)) sk) in
  rc s' A ext /\ closes s s'.
Proof.
  intros I0 Hc0 D. pose proof Hc0 as [Hs Hl]%live_lookup. destruct D as [I C Hc Hf Hi]. cbv zeta.
  assert (forall l, NoDup l -> free_chain s l (chan_free s) -> exists new, NoDup (c :: new ++ l) /\
    free_chain (set_chans (<[c := set_c_next (chan_free sk) ck]> (chans sk)) sk) (c :: new ++ l) c /\
    forall d, d ∈ c :: new -> d <> 0 /\ exists do, chans s !! d = Some do /\ is_free do = false) as HF.
  { intros l Hnd Hch. destruct (cl_free _ _ _ C l Hnd Hch) as (new & Hnd' & Hch' & Hn). exists new.
    assert (c ∉ new ++ l) as Hni.
    { intros [Hd|Hd]%elem_of_app; [by destruct (Hn c Hd)|].
      destruct (free_chain_in _ _ _ _ Hch Hd) as (co' & Hco' & Hf'). congruence. }
    assert (c <> 0) as Hc0'. { destruct (rc_addr _ _ _ I) as [B _]. specialize (B _ _ Hc). lia. }
    split_and!.
    - by constructor.
    - cbn. split_and!; [done..|]. exists (set_c_next (chan_free sk) ck). rewrite lookup_insert_eq. split_and!; [done..|].
      cbn. eapply free_chain_ext; [|exact Hch']. intros d do Hd Hdo Hdf. exists do. cbn.
      rewrite lookup_insert_ne; [done|]. by intros <-.
    - intros d [->|Hd]%elem_of_cons; [by eauto|]. destruct (Hn d Hd) as (Hne & do & Hdo & Hdf). split; [|by eauto].
      destruct (rc_addr _ _ _ I0) as [B _]. specialize (B _ _ Hdo). lia. }
  split.
  - apply (rc_upd_chan_free sk A ext ext c ck); try done.
    + intros r. unfold out_chan. change (is_free (set_c_next _ _)) with (is_free ck). rewrite Hf, occ_nil. unfold at_. cbn.
      case_decide; lia.
    + apply I.
    + cbn. apply (rc_chan _ _ _ I c ck Hc).
    + cbn. apply (rc_max _ _ _ I (RChan c)). cbn. by rewrite Hc.
    + destruct (rc_free _ _ _ I0) as (l & Hnd & Hch). destruct (HF l Hnd Hch) as (new & ? & ? & _). by exists (c :: new ++ l).
  - constructor; try apply C.
    + intros r. apply (count_chan_le s sk c ck); [apply C|done|cbn; lia].
    + cbn. intros d do Hd. destruct (cl_chans _ _ _ C d do Hd) as (do' & Hd' & E & K).
      assert (d <> 0) as Hd0 by (destruct (rc_addr _ _ _ I0) as [B _]; specialize (B _ _ Hd); lia).
      destruct (decide (d = 0)) as [|_]; [done|]. destruct (decide (d = c)) as [->|Hne].
      * rewrite lookup_insert_eq. assert (do = co) as -> by congruence. eexists. split_and!; [done|done|..].
        { change (is_free (set_c_next _ _)) with (is_free ck). by rewrite Hf. }
        { by rewrite Hl. }
      * rewrite lookup_insert_ne by done. by exists do'.
    + cbn. intros d do. destruct (decide (d = c)) as [->|Hne]; [by eauto|]. rewrite lookup_insert_ne by done. apply C.
    + intros l Hnd Hch. destruct (HF l Hnd Hch) as (new & ? & ? & ?). exists (c :: new). split_and!; [done| |done].
      by apply (free_chain_chans (set_chans (<[c := set_c_next (chan_free sk) ck]> (chans sk)) sk)).
Qed.

Lemma chanfree_ok n (close : Z -> cmd kst R Z) s A ext c co : close_ok n close -> rc s A ext ->
  live s !! c = Some co -> c_ref co = 1 -> covers ext [RChan c] -> (nlive s <= n)%nat ->
  exists s', chanfree_ close c (set_devclosed (devclosed s ++ [c]) (set_rcount (RChan c) 0 s)) = (Go tt, s') /\
    rc s' A (less ext [RChan c]) /\ closes s s'.
Proof.
  intros HC I Hl Hr Hh Hn. pose proof Hl as [Hc Hf]%live_lookup.
  pose proof (dying_start s A ext c co (devclosed s ++ [c]) I Hl Hr Hh) as D. cbv zeta in D.
  set (ck := set_c_flag CFREE (set_c_ref 0 co)) in *.
  set (s1 := set_devclosed (devclosed s ++ [c]) (set_chans (<[c := ck]> (chans s)) s)) in *.
  set (E1 := fun r => less ext [RChan c] r + occ r (out_chan co)) in *.
  assert (out_chan co = nzr RMhead (c_umh co) ++ nzr RChan (c_umc co) ++ nzr RChan (c_mchan co) ++ nzr RPath (c_path co)) as Ho
    by (unfold out_chan; by rewrite Hf).
  assert (covers E1 (out_chan co)) as Hcov by (intros r; pose proof (Hh r); unfold E1, less; lia).
  rewrite Ho in Hcov. apply covers_app in Hcov as [H1 Hcov]. apply covers_app in Hcov as [H2 Hcov].
  apply covers_app in Hcov as [H3 H4].
  pose proof (closing_nlive_lt c co s s1 (dy_closing _ _ _ _ _ _ _ D) Hl) as Hn1.
  unfold chanfree_.
  assert (chset (R := R) c (set_c_flag CFREE) (set_devclosed (devclosed s ++ [c]) (set_rcount (RChan c) 0 s)) = (Go tt, s1)) as E.
  { unfold chset, put. cbn. rewrite lookup_alter_eq, Hc. cbn. unfold s1, set_chans, set_devclosed. cbn.
    by rewrite insert_alter_eq. }
  rewrite (cbind_go _ _ _ _ _ E). clear E. rewrite (cbind_go _ _ _ _ _ (chget_dying s c co s1 _ _ ck D)).
  assert (forall x, dying s c co x A E1 (set_c_dirrock 0 ck) -> (nlive x < n)%nat) as Hlive.
  { intros x Dx. pose proof (closing_nlive_lt c co s x (dy_closing _ _ _ _ _ _ _ Dx) Hl). lia. }
  (* dirrock *)
  assert (exists s2, cwhen (R := R) (bool_decide (c_dirrock ck <> 0)) (chset c (set_c_dirrock 0)) s1 = (Go tt, s2) /\
    dying s c co s2 A E1 (set_c_dirrock 0 ck)) as (s2 & E2 & D2).
  { destruct (decide (c_dirrock ck = 0)) as [Hz|Hz].
    - rewrite bool_decide_false by (intros ?; done). exists s1. split; [done|]. by rewrite set_dirrock_id.
    - rewrite bool_decide_true by done. by apply (chset_dying s c co A ext I Hl s1 A E1 ck). }
  rewrite (cbind_go _ _ _ _ _ E2). rewrite (cbind_go _ _ _ _ _ (chget_dying s c co s2 _ _ _ D2)). clear E2 D.
  (* umh *)
  destruct (when_dying (R := R) s c co A ext I Hl s2 A E1 _ (c_umh co) (putmhead (c_umh co)) (set_c_umh 0)
    (nzr RMhead (c_umh co)) D2) as (s3 & E3 & D3); try done.
  { intros Hz. split; [by apply set_umh_id|]. by rewrite Hz. }
  { intros _. destruct (putmhead_ok (R := R) s2 A E1 (c_umh co) (dy_rc _ _ _ _ _ _ _ D2) H1) as (x & ? & ? & ?). eauto. }
  rewrite (cbind_go _ _ _ _ _ E3). rewrite (cbind_go _ _ _ _ _ (chget_dying s c co s3 _ _ _ D3)). clear E3.
  (* umc *)
  assert (forall x ext' ck', dying s c co x A ext' ck' -> (nlive x < n)%nat) as Hnl.
  { intros x ext' ck' Dx. pose proof (closing_nlive_lt c co s x (dy_closing _ _ _ _ _ _ _ Dx) Hl). lia. }
  destruct (when_dying s c co A ext I Hl s3 A _ _ (c_umc co) (close (c_umc co)) (set_c_umc 0)
    (nzr RChan (c_umc co)) D3) as (s4 & E4 & D4); try done.
  { intros Hz. split; [by apply set_umc_id|]. by rewrite Hz. }
  { intros Hz. rewrite (nzr_ne RChan (c_umc co)) in H2 |- * by done.
    destruct (HC s3 A _ (c_umc co) (dy_rc _ _ _ _ _ _ _ D3) H2 (Hnl _ _ _ D3)) as (x & ? & ? & ?). eauto. }
  rewrite (cbind_go _ _ _ _ _ E4). rewrite (cbind_go _ _ _ _ _ (chget_dying s c co s4 _ _ _ D4)). clear E4.
  (* mux *)
  destruct (when_dying (R := R) s c co A ext I Hl s4 A _ _ (c_mux co) (muxclose (c_mux co)) (set_c_mux 0) [] D4)
    as (s5 & E5 & D5); try done.
  { intros Hz. split; [by apply set_mux_id|done]. }
  { intros _. exists tt. eexists. split; [reflexivity|]. apply closes_muxclosed. eapply rc_hold; [|apply D4].
    intros r. by rewrite less_nil. }
  rewrite (cbind_go _ _ _ _ _ E5). rewrite (cbind_go _ _ _ _ _ (chget_dying s c co s5 _ _ _ D5)). clear E5.
  (* mchan *)
  destruct (when_dying s c co A ext I Hl s5 A _ _ (c_mchan co) (close (c_mchan co)) (set_c_mchan 0)
    (nzr RChan (c_mchan co)) D5) as (s6 & E6 & D6); try done.
  { intros Hz. split; [by apply set_mchan_id|]. by rewrite Hz. }
  { intros Hz. rewrite (nzr_ne RChan (c_mchan co)) in H3 |- * by done.
    destruct (HC s5 A _ (c_mchan co) (dy_rc _ _ _ _ _ _ _ D5)) as (x & ? & ? & ?); [|by apply (Hnl _ _ _ D5)|by eauto].
    intros r. rewrite less_nil. apply H3. }
  rewrite (cbind_go _ _ _ _ _ E6). rewrite (cbind_go _ _ _ _ _ (chget_dying s c co s6 _ _ _ D6)). clear E6.
  (* path *)
  destruct (pathclose_ok n close (c_path co) HC s6 A _ (dy_rc _ _ _ _ _ _ _ D6)) as (s7 & E7 & I7 & C7).
  { intros r. pose proof (H4 r). unfold less in *. rewrite occ_nil. lia. }
  { by apply (Hnl _ _ _ D6). }
  pose proof (dying_close s c co A ext I Hl s6 s7 A _ _ _ D6 C7 I7) as D7.
  rewrite (cbind_go _ _ _ _ _ E7). clear E7.
  destruct (chset_dying (R := R) s c co A ext I Hl s7 A _ _ (set_c_path 0) D7) as (s8 & E8 & D8); try done.
  rewrite (cbind_go _ _ _ _ _ E8). clear E8.
  destruct (dying_push s A ext c co s8 A _ _ I Hl D8) as [I9 C9]. eexists. split_and!; [| |exact C9].
  - unfold cbind, cgets, chset, put. rewrite (dy_chan _ _ _ _ _ _ _ D8). reflexivity.
  - eapply rc_hold; [|exact I9]. intros r. unfold less, E1, less. rewrite Ho, !occ_app, occ_nil. lia.
Qed.
End Closing.

Section Cclose.
Context {R : Type}.

Lemma cclose_rec_ok fuel : close_ok fuel (cclose_rec (R := R) fuel).
Proof.
  induction fuel as [|f IH]; intros s A ext c I Hc Hn; [lia|]. cbn [cclose_rec].
  pose proof (covers_held _ _ Hc) as Hh. destruct (live_chan s A ext c I) as (co & Hco & Hf & Hp); [by left|].
  assert (chget (R := R) c s = (Go co, s)) as E1 by (unfold chget, look; by rewrite Hco).
  rewrite (cbind_go _ _ _ _ _ E1), Hf. assert (rcount (RChan c) s = Some (c_ref co)) as Hr by (cbn; by rewrite Hco).
  destruct (decide (c_ref co = 1)) as [E|E].
  - rewrite E in Hr. rewrite (cbind_go _ _ _ _ _ (decref_last _ _ Hr)). rewrite decide_False by (intros ?; done).
    destruct (chanfree_ok f (cclose_rec f) s A ext c co IH I) as (s' & Es & I' & C'); try done.
    { by apply live_lookup. }
    { lia. }
    exists s'. split_and!; [|done..]. unfold dev_close. unfold cbind at 1, cmodify.
    change (devclosed (set_rcount (RChan c) 0 s)) with (devclosed s). by rewrite (cbind_go _ _ _ _ _ Es).
  - destruct (decref_ok (R := R) s A ext (RChan c) _ I Hr ltac:(lia) Hh) as [Ed I'].
    rewrite (cbind_go _ _ _ _ _ Ed). rewrite decide_True by lia. eexists. split_and!; [reflexivity| |].
    + eapply rc_hold; [|exact I']. intros r. apply hold_less.
    + apply (closes_recount s A ext (RChan c) (c_ref co)); try done; lia.
Qed.

Lemma nlive_size s : (nlive s <= size (chans s))%nat.
Proof. apply map_subseteq_size, map_filter_subseteq. Qed.

(** A reference to a channel is given up, and with the last one all that it refers to. *)
Lemma cclose_ok s A ext c : rc s A ext -> covers ext [RChan c] ->
  exists s', cclose (R := R) c s = (Go 0, s') /\ rc s' A (less ext [RChan c]) /\ closes s s'.
Proof.
  intros I Hc. unfold cclose. unfold cbind, cgets. apply cclose_rec_ok; [done..|].
  pose proof (nlive_size s). lia.
Qed.

Lemma cclose_any n : close_ok n (cclose (R := R)).
Proof. intros s A ext c I Hc _. by apply cclose_ok. Qed.

Lemma pathclose_spec s A ext p : rc s A ext -> covers ext (nzr RPath p) ->
  exists s', pathclose (R := R) p s = (Go 1, s') /\ rc s' A (less ext (nzr RPath p)) /\ closes s s'.
Proof. intros I Hc. apply (pathclose_ok (S (nlive s))); [apply cclose_any|done..|lia]. Qed.

(** [if(c) cclose(c);] *)
Lemma cclose_if s A ext c : rc s A ext -> covers ext (nzr RChan c) ->
  exists s', (if decide (c <> 0) then cclose (R := R) c;; cret tt else cret tt) s = (Go tt, s') /\
    rc s' A (less ext (nzr RChan c)) /\ closes s s'.
Proof.
  intros I. unfold nzr. case_decide as Hz.
  - intros _. rewrite decide_False by (intros ?; done). exists s. split_and!; [done| |by eapply closes_refl].
    eapply rc_hold; [|exact I]. intros r. by rewrite less_nil.
  - intros Hc. rewrite decide_True by done. destruct (cclose_ok s A ext c I Hc) as (s' & E & ? & ?).
    exists s'. by rewrite (cbind_go _ _ _ _ _ E).
Qed.
End Cclose.

(** *** What operations leave as it is *)

Record keeps (A : gset Z) (s s' : kst) : Prop := {
  kp_mounts : mounts s' = mounts s;
  kp_pgrps : pgrps s' = pgrps s;
  kp_mheads m mo : m ∈ A -> mheads s !! m = Some mo -> exists n, mheads s' !! m = Some (set_mh_ref n mo);
  kp_back m mo' : mheads s' !! m = Some mo' -> exists mo, mheads s !! m = Some mo /\ mo' = set_mh_ref (mh_ref mo') mo;
  kp_chans c co : chans s !! c = Some co -> exists co', chans s' !! c = Some co' /\ same_ident co co';
  kp_mountid : mountid s' = mountid s;
  kp_brk : brk s <= brk s' }.

Lemma closing_keeps c s s' A ext : rc s' A ext -> closing c s s' -> keeps A s s'.
Proof.
  intros I C. constructor; try apply C.
  - intros m mo Hm Hmo. destruct (rc_att _ _ _ I m Hm) as [mo' Hmo'].
    destruct (cl_mheads _ _ _ C m mo' Hmo') as (mo0 & Hmo0 & E). exists (mh_ref mo').
    rewrite Hmo'. congruence.
  - intros d co Hd. destruct (cl_chans _ _ _ C d co Hd) as (co' & ? & ? & _). eauto.
  - by rewrite (cl_brk _ _ _ C).
Qed.

Lemma kkeeps_refl A s : keeps A s s.
Proof.
  constructor; try done.
  - intros m mo _ Hm. exists (mh_ref mo). by rewrite set_mh_ref_id.
  - intros m mo Hm. exists mo. by rewrite set_mh_ref_id.
  - intros c co Hc. by exists co.
Qed.

Lemma kkeeps_trans A s1 s2 s3 : keeps A s1 s2 -> keeps A s2 s3 -> keeps A s1 s3.
Proof.
  intros H G. constructor; try (etrans; [apply G|apply H]).
  - intros m mo Hm Hmo. destruct (kp_mheads _ _ _ H m mo Hm Hmo) as (n & E1).
    destruct (kp_mheads _ _ _ G m _ Hm E1) as (n' & E2). exists n'. by rewrite set_mh_ref_twice in E2.
  - intros m mo2 Hm. destruct (kp_back _ _ _ G m mo2 Hm) as (mo1 & Hm1 & E1).
    destruct (kp_back _ _ _ H m mo1 Hm1) as (mo & Hm0 & E2). exists mo. split; [done|]. by rewrite E1, E2, !set_mh_ref_twice.
  - intros c co Hc. destruct (kp_chans _ _ _ H c co Hc) as (co1 & Hc1 & E1).
    destruct (kp_chans _ _ _ G c co1 Hc1) as (co2 & Hc2 & E2). exists co2. split; [done|].
    unfold same_ident in *. intuition congruence.
  - pose proof (kp_brk _ _ _ H). pose proof (kp_brk _ _ _ G). lia.
Qed.

(** ** Taking references *)

(** Counts and the number of paths may grow by [k] and still be [long]s. *)
Definition room (s : kst) (k : Z) : Prop :=
  0 <= k /\ k < 2 ^ 31 - 1 /\ (forall r, count_of r s + k < 2 ^ 31) /\ npath s + k < 2 ^ 31.

Lemma room_closing c s s' k : closing c s s' -> room s k -> room s' k.
Proof.
  intros C (H0 & H1 & H2 & H3). split_and!; [done|done| |].
  - intros r. pose proof (cl_counts _ _ _ C r). specialize (H2 r). lia.
  - pose proof (cl_npath _ _ _ C). lia.
Qed.

Lemma room_less s k k' : room s k -> 0 <= k' <= k -> room s k'.
Proof.
  intros (H0 & H1 & H2 & H3) Hk. split_and!; [lia|lia| |lia]. intros r. specialize (H2 r). lia.
Qed.

Lemma count_set_rcount r n x s r' : rcount r s = Some n ->
  count_of r' (set_rcount r x s) = if decide (r' = r) then x else count_of r' s.
Proof.
  intros Hr. unfold count_of. case_decide as E; [subst r'; by rewrite (rcount_set _ _ _ _ Hr)|].
  by rewrite rcount_set_ne.
Qed.

Lemma room_incref s k r n : room s (k + 1) -> 0 <= k -> rcount r s = Some n -> room (set_rcount r (n + 1) s) k.
Proof.
  intros (H0 & H1 & H2 & H3) Hk Hr. split_and!; [done|lia| |].
  - intros r'. rewrite (count_set_rcount _ _ _ _ _ Hr). pose proof (H2 r) as E. unfold count_of in E. rewrite Hr in E. cbn in E.
    specialize (H2 r'). case_decide; lia.
  - destruct r; cbn; lia.
Qed.

(** Only the counts of channels change. *)
Record recounted (s s' : kst) : Prop := {
  re_rest : s' = set_chans (chans s') s;
  re_chans c : exists f, chans s' !! c = f <$> chans s !! c /\ forall co, f co = set_c_ref (c_ref (f co)) co }.

Lemma recounted_refl s : recounted s s.
Proof. constructor; [by destruct s|]. intros c. exists (fun co => co). split; [by destruct (chans s !! c)|]. intros co. by rewrite set_c_ref_id. Qed.

Lemma recounted_trans s1 s2 s3 : recounted s1 s2 -> recounted s2 s3 -> recounted s1 s3.
Proof.
  intros [E1 H1] [E2 H2]. constructor.
  - rewrite E2, E1. done.
  - intros c. destruct (H1 c) as (f & Hf & Gf), (H2 c) as (g & Hg & Gg). exists (fun co => g (f co)).
    split; [rewrite Hg, Hf; by destruct (chans s1 !! c)|].
    intros co. rewrite Gg at 1. rewrite Gf at 2. by rewrite set_c_ref_twice.
Qed.

Lemma recounted_set c x s : recounted s (set_rcount (RChan c) x s).
Proof.
  constructor; [done|]. intros d. cbn. destruct (decide (d = c)) as [->|Hne].
  - exists (set_c_ref x). rewrite lookup_alter_eq. by split.
  - exists (fun co => co). rewrite lookup_alter_ne by done. split; [by destruct (chans s !! d)|].
    intros co. by rewrite set_c_ref_id.
Qed.

Lemma recounted_keeps A s s' : recounted s s' -> keeps A s s'.
Proof.
  intros [E H]. constructor; try (rewrite E; done).
  - intros m mo _ Hm. exists (mh_ref mo). rewrite E. by rewrite set_mh_ref_id.
  - intros m mo Hm. exists mo. rewrite E in Hm. by rewrite set_mh_ref_id.
  - intros c co Hc. destruct (H c) as (f & Hf & Gf). rewrite Hc in Hf. exists (f co). split; [done|].
    by rewrite Gf.
Qed.

(** What does not depend on the rest of the memory can be done before it changes. *)
Definition beside_chans (F : kst -> kst) : Prop :=
  (forall s, chans (F s) = chans s) /\ forall s x, set_chans x (F s) = F (set_chans x s).

Section Taking.
Context {R : Type}.

Lemma incref_frame F c s n s' : beside_chans F ->
  incref (R := R) (RChan c) s = (Go n, s') -> incref (R := R) (RChan c) (F s) = (Go n, F s').
Proof.
  intros [H1 H2]. unfold incref. cbn. rewrite H1. destruct (chans s !! c) as [co|]; [|done]. cbn.
  intros [= <- <-]. f_equal. by rewrite H2.
Qed.

Lemma mtpt_incref_frame F l : beside_chans F -> forall s s',
  mtpt_incref (R := R) l s = (Go tt, s') -> mtpt_incref (R := R) l (F s) = (Go tt, F s').
Proof.
  intros HF. induction l as [|c l IH]; intros s s'; cbn [mtpt_incref].
  { unfold cret. by intros [= <-]. }
  destruct (decide (c <> 0)) as [Hc|Hc]; [|apply IH].
  intros (u & s1 & E1 & E2)%cbind_go_inv. apply cbind_go_inv in E1 as (n & s0 & E0 & E1).
  injection E1 as <- <-.
  rewrite (cbind_go _ _ (F s) tt (F s0)); [by apply IH|].
  by rewrite (cbind_go _ _ _ _ _ (incref_frame F c s n s0 HF E0)).
Qed.

Lemma incref_room s A ext r k : rc s A ext -> 0 < ext r \/ 0 < refs s A r -> room s (k + 1) -> 0 <= k ->
  exists n, rcount r s = Some n /\ incref (R := R) r s = (Go (n + 1), set_rcount r (n + 1) s) /\
    rc (set_rcount r (n + 1) s) A (hold ext r 1) /\ room (set_rcount r (n + 1) s) k /\
    forall r', refs (set_rcount r (n + 1) s) A r' = refs s A r'.
Proof.
  intros I Hl Hm Hk. destruct (rcount_some s A ext r I Hl) as (n & Hn & Hp). exists n.
  pose proof Hm as (H0 & H1 & H2 & _). specialize (H2 r). unfold count_of in H2. rewrite Hn in H2. cbn in H2.
  destruct (incref_count_ok (R := R) s A ext r n I Hn) as [E I']; [lia|].
  split_and!; try done; [by apply room_incref|]. intros r'. apply (refs_set_rcount _ _ _ n); done || lia.
Qed.

Lemma mtpt_incref_ok A l : forall s ext k, rc s A ext ->
  (forall c, c ∈ l -> c <> 0 -> 0 < ext (RChan c) \/ 0 < refs s A (RChan c)) ->
  room s (zlen l + k) -> 0 <= k ->
  exists s', mtpt_incref (R := R) l s = (Go tt, s') /\ rc s' A (fun r => ext r + occ r (out_chans l)) /\
    recounted s s' /\ room s' k.
Proof.
  induction l as [|c l IH]; intros s ext k I Hl Hm Hk; cbn [mtpt_incref].
  - exists s. split_and!; [done| |apply recounted_refl|done]. eapply rc_hold; [|exact I]. intros r.
    change (out_chans []) with ([] : list obj). rewrite occ_nil. lia.
  - rewrite out_chans_cons. rewrite zlen_cons in Hm. pose proof (zlen_nonneg l). unfold nzr.
    destruct (decide (c = 0)) as [Hz|Hz].
    + rewrite decide_False by (intros ?; done).
      destruct (IH s ext k I) as (s' & E & I' & Rc & Rm); [|by eapply room_less; [done|lia]|done|by exists s'].
      intros d Hd. apply Hl. by right.
    + rewrite decide_True by done.
      destruct (incref_room s A ext (RChan c) (zlen l + k) I) as (n & Hn & E & I1 & Rm1 & Hrefs).
      { apply Hl; [left|done]. }
      { by replace (zlen l + k + 1) with (1 + zlen l + k) by lia. }
      { lia. }
      destruct (IH (set_rcount (RChan c) (n + 1) s) (hold ext (RChan c) 1) k I1) as (s' & E' & I' & Rc & Rm); [|done..|].
      * intros d Hd Hd0. rewrite Hrefs. destruct (Hl d) as [He|He]; [by right|done| |by right].
        left. unfold hold. case_decide; lia.
      * exists s'. split_and!; [|..|eapply recounted_trans; [apply recounted_set|done]|done].
        -- rewrite (cbind_go _ _ s tt (set_rcount (RChan c) (n + 1) s)); [done|]. by rewrite (cbind_go _ _ _ _ _ E).
        -- eapply rc_hold; [|exact I']. intros r. rewrite occ_app, occ_one. unfold hold. case_decide; lia.
Qed.
End Taking.

(** ** Paths and new channels *)

Lemma in_out_chans c l : c ∈ l -> c <> 0 -> RChan c ∈ out_chans l.
Proof.
  induction l as [|d l IH]; [by intros H%not_elem_of_nil|]. rewrite out_chans_cons.
  intros [->|H]%elem_of_cons Hc; apply elem_of_app; [left; rewrite nzr_ne by done; by left|right; by apply IH].
Qed.

Section Paths.
Context {R : Type}.

Lemma incref_npath s k : room s (k + 1) -> 0 <= k -> 0 <= npath s ->
  incref_ (R := R) npath set_npath s = (Go (npath s + 1), set_npath (npath s + 1) s).
Proof. intros (_ & _ & _ & H) Hk Hn. unfold incref_. by rewrite s32_small by lia. Qed.

Lemma npath_nonneg s A ext : rc s A ext -> 0 <= npath s.
Proof. intros I. rewrite (rc_npath _ _ _ I). apply msum_nonneg. intros. case_decide; lia. Qed.

Lemma room_new_path s k po : room s (k + 1) -> 0 <= k -> p_ref po = 1 ->
  room (set_npath (npath s + 1) (set_paths (<[brk s := po]> (paths s)) (set_brk (brk s + 1) s))) k.
Proof.
  intros (H0 & H1 & H2 & H3) Hk Hr. split_and!; [done|lia| |cbn; lia].
  intros r. rewrite count_new_path. specialize (H2 r). case_decide; lia.
Qed.

Lemma keeps_new_path A s po :
  keeps A s (set_npath (npath s + 1) (set_paths (<[brk s := po]> (paths s)) (set_brk (brk s + 1) s))).
Proof.
  pose proof (kkeeps_refl A s) as G. constructor; try apply G. cbn. lia.
Qed.

Lemma newpath_ok s A ext str k : rc s A ext -> room s (k + 1) -> 0 <= k ->
  exists s', newpath (R := R) str s = (Go (brk s), s') /\ rc s' A (hold ext (RPath (brk s)) 1) /\ keeps A s s' /\
    paths s' = <[brk s := MkPath 1 str [0] (zlen str + PATHSLOP) PATHMSLOP]> (paths s) /\ room s' k.
Proof.
  intros I Hm Hk. set (po := MkPath 1 str [0] (zlen str + PATHSLOP) PATHMSLOP).
  eexists. split_and!.
  - unfold newpath, smalloc. unfold cbind at 1. fold po.
    erewrite cbind_go; [reflexivity|]. unfold incref_. cbn. pose proof (npath_nonneg _ _ _ I).
    destruct Hm as (_ & _ & _ & Hm). by rewrite s32_small by lia.
  - apply (rc_new_path s A ext _ po I); try done.
    + destruct Hm as (_ & _ & _ & Hm). lia.
    + intros r. change (out_path po) with ([] : list obj). rewrite occ_nil. unfold hold, at_. case_decide; cbn; lia.
    + intros r. unfold hold. pose proof (rc_ext _ _ _ I r). case_decide; lia.
  - apply keeps_new_path.
  - done.
  - by apply room_new_path.
Qed.

Lemma pget_go p s po : paths s !! p = Some po -> pget (R := R) p s = (Go po, s).
Proof. intros H. unfold pget, look. by rewrite H. Qed.

Lemma pset_go p g s po : paths s !! p = Some po ->
  pset (R := R) p g s = (Go tt, set_paths (<[p := g po]> (paths s)) s).
Proof. intros H. unfold pset, put. by rewrite H. Qed.

Lemma copypath_ok s A ext p po k : rc s A ext -> paths s !! p = Some po -> p_ref po <> 0 ->
  room s (zlen (p_mtpt po) + (k + 1)) -> 0 <= k ->
  exists s', copypath (R := R) p s = (Go (brk s), s') /\ rc s' A (hold ext (RPath (brk s)) 1) /\ keeps A s s' /\
    paths s' = <[brk s := set_p_ref 1 po]> (paths s) /\ room s' k.
Proof.
  intros I Hp Hr Hm Hk. pose proof (zlen_nonneg (p_mtpt po)).
  destruct (mtpt_incref_ok (R := R) A (p_mtpt po) s ext (k + 1) I) as (s1 & E1 & I1 & Rc & Rm1); [|done|lia|].
  { intros c Hc Hc0. right. apply (refs_path s A p po); [done|]. rewrite out_path_alive by done.
    by apply in_out_chans. }
  set (po' := MkPath 1 (p_s po) (p_mtpt po) (p_alen po) (p_malen po)).
  set (F := fun x => set_npath (npath s + 1) (set_paths (<[brk s := po']> (paths s)) (set_brk (brk s + 1) x))).
  assert (F s1 = set_npath (npath s1 + 1) (set_paths (<[brk s1 := po']> (paths s1)) (set_brk (brk s1 + 1) s1))) as HF.
  { unfold F. destruct Rc as [-> _]. done. }
  assert (brk s1 = brk s) as Hb by (by destruct Rc as [-> _]).
  exists (F s1). split_and!.
  - unfold copypath. rewrite (cbind_go _ _ _ _ _ (pget_go _ _ _ Hp)). unfold smalloc. unfold cbind at 1. fold po'.
    erewrite cbind_go; [|unfold incref_; cbn; pose proof (npath_nonneg _ _ _ I); destruct Hm as (_ & _ & _ & Hm);
      by rewrite s32_small by lia].
    rewrite (cbind_go _ _ _ tt (F s1)); [done|].
    by apply (mtpt_incref_frame F (p_mtpt po)).
  - rewrite HF. apply (rc_new_path s1 A _ _ po' I1); [done|..].
    + destruct Rm1 as (_ & _ & _ & ?). lia.
    + intros r. rewrite out_path_alive by done. rewrite Hb. change (p_mtpt po') with (p_mtpt po).
      change (p_ref po') with 1. unfold hold, at_. case_decide; lia.
    + intros r. unfold hold. pose proof (rc_ext _ _ _ I r). case_decide; lia.
  - eapply kkeeps_trans; [by apply recounted_keeps|]. rewrite HF. apply keeps_new_path.
  - done.
  - rewrite HF. by apply room_new_path.
Qed.

Lemma closes_path s s' A ext p po : rc s' A ext -> closes s s' -> 0 < ext (RPath p) -> paths s !! p = Some po ->
  exists n, paths s' !! p = Some (set_p_ref n po) /\ 0 < n <= p_ref po.
Proof.
  intros I C He Hp. destruct (rcount_some s' A ext (RPath p) I) as (n & Hn & Hpos); [by left|].
  cbn in Hn. destruct (paths s' !! p) as [po'|] eqn:E; [|done]. injection Hn as <-.
  destruct (cl_paths _ _ _ C p po' E) as (po0 & Hp0 & Eq). assert (po0 = po) as -> by congruence.
  exists (p_ref po'). rewrite <- Eq. split_and!; [done..|].
  pose proof (cl_counts _ _ _ C (RPath p)) as H. unfold count_of in H. cbn in H. rewrite E, Hp in H. done.
Qed.

(** [uniquepath]: a path that only the caller has, in exchange for the one it had. *)
Lemma uniquepath_ok s A ext p po k : rc s A ext -> covers ext [RPath p] -> paths s !! p = Some po ->
  room s (zlen (p_mtpt po) + (k + 1)) -> 0 <= k ->
  exists p' s', uniquepath (R := R) p s = (Go p', s') /\
    rc s' A (hold (less ext [RPath p]) (RPath p') 1) /\ keeps A s s' /\ room s' k /\
    paths s' !! p' = Some (set_p_ref 1 po) /\ (1 < p_ref po -> p' <> p) /\
    (forall q po', paths s' !! q = Some po' -> exists po0, (paths s !! q = Some po0 \/ q = p' /\ po0 = po) /\ po' = set_p_ref (p_ref po') po0).
Proof.
  intros I Hc Hp Hm Hk. pose proof (covers_held _ _ Hc) as Hh. pose proof (zlen_nonneg (p_mtpt po)).
  destruct (rcount_some s A ext (RPath p) I) as (n & Hn & Hpos); [by left|]. cbn in Hn. rewrite Hp in Hn. injection Hn as Hn.
  unfold uniquepath. rewrite (cbind_go _ _ _ _ _ (pget_go _ _ _ Hp)). case_decide as H1.
  - destruct (copypath_ok s A ext p po k I Hp ltac:(lia) Hm Hk) as (s1 & E1 & I1 & K1 & P1 & Rm1).
    rewrite (cbind_go _ _ _ _ _ E1).
    assert (brk s <> p) as Hne. { destruct (rc_addr _ _ _ I) as (_ & B & _). specialize (B _ _ Hp). lia. }
    assert (p <> 0) as Hp0. { destruct (rc_addr _ _ _ I) as (_ & B & _). specialize (B _ _ Hp). lia. }
    destruct (pathclose_spec (R := R) s1 A _ p I1) as (s2 & E2 & I2 & C2).
    { rewrite nzr_ne by done. intros r. pose proof (Hc r). unfold hold. rewrite occ_one in *. case_decide; case_decide; lia. }
    rewrite (cbind_go _ _ _ _ _ E2). exists (brk s), s2.
    assert (rc s2 A (hold (less ext [RPath p]) (RPath (brk s)) 1)) as I3.
    { eapply rc_hold; [|exact I2]. intros r. rewrite nzr_ne by done. unfold less, hold. case_decide; lia. }
    split_and!; [done|done| | | |done|].
    + eapply kkeeps_trans; [exact K1|]. by eapply closing_keeps.
    + by eapply room_closing.
    + destruct (closes_path s1 s2 A _ (brk s) (set_p_ref 1 po) I3 C2) as (m & Hm' & Hb).
      * rewrite hold_eq. pose proof (rc_ext _ _ _ I2 (RPath (brk s))) as He. unfold less in *. rewrite occ_one.
        rewrite decide_False by congruence. pose proof (rc_ext _ _ _ I (RPath (brk s))). lia.
      * rewrite P1. by rewrite lookup_insert_eq.
      * cbn in Hb. assert (m = 1) as -> by lia. by rewrite set_p_ref_twice in Hm'.
    + intros q po' Hq. destruct (cl_paths _ _ _ C2 q po' Hq) as (po0 & Hq0 & Eq). rewrite P1 in Hq0.
      destruct (decide (q = brk s)) as [->|Hqne].
      * rewrite lookup_insert_eq in Hq0. injection Hq0 as <-. exists po. split; [by right|].
        by rewrite set_p_ref_twice in Eq.
      * rewrite lookup_insert_ne in Hq0 by done. exists po0. split; [by left|done].
  - exists p, s. assert (p_ref po = 1) as Hr1 by lia. split_and!; [done| |apply kkeeps_refl|by eapply room_less; [done|lia]| |lia|].
    + eapply rc_hold; [|exact I]. intros r. unfold hold, less. rewrite occ_one. case_decide; lia.
    + rewrite Hp. f_equal. rewrite <- Hr1. by rewrite set_p_ref_id.
    + intros q po' Hq. exists po'. split; [by left|]. by rewrite set_p_ref_id.
Qed.
End Paths.
