(* ===== verification/PathSpec.v ===== *)
(** New channels, and the paths of channels: their names are kept clean, in arrays that are
    long enough, with a reference to each mount point that was crossed. *)

From S2P Require Import Prelude Mem Sums Fcall9P UtfSpec Cleanname CleannameSpec Chan ChanSpec.

(** ** Names *)

Definition kpath_ok (po : Path) : Prop :=
  zlen (p_s po) + 1 <= p_alen po /\ 1 <= zlen (p_mtpt po) <= p_malen po /\
  Forall (fun b => 0 < b < 256) (p_s po).
Definition paths_ok (s : kst) : Prop := forall p po, paths s !! p = Some po -> kpath_ok po.

(** The element [e] at the end of the name [s]. *)
Definition joined (s e : list Z) : list Z :=
  if (0 <? zlen s) && negb (bool_decide (list.last s = Some slash)) && negb (nth 0 e 0 =? slash)
  then (s ++ [slash]) ++ e else s ++ e.

(** What [fixdotdotname] leaves of a name with [..] at its end; a name on a device, as
    [#s/boot], keeps the device. *)
Definition fixed_name (s : list Z) : list Z :=
  if decide (hd 0 s = hash) then
    let '(a, r) := cut_slash s in
    if decide (r = []) then s
    else if bool_decide (clean r = [slash]) && negb (nth 1 s 0 =? slash) then a else a ++ clean r
  else clean s.

(** The name of a path after [addelem]. *)
Definition path_name (s e : list Z) : list Z :=
  if decide (e = [dot]) then s
  else if isdotdot e then fixed_name (joined s e) else joined s e.

Lemma cleanname_of_spec s : Forall (fun b => 0 < b < 256) s -> cleanname_of s = Some (clean s).
Proof.
  intros H. unfold cleanname_of.
  assert (cstr (st_bytes ∅ 1 (s ++ [0])) 1 s) as C.
  { apply st_bytes_at; eapply List.Forall_impl; try exact H; cbn; lia. }
  destruct (cleanname_spec _ _ _ C) as (m' & E & C' & _). rewrite E. unfold fmap, option_fmap, option_map. f_equal.
  rewrite (strlen_spec _ _ _ C'). apply bytes_at_ld_eq; [|done]. destruct C' as [B _].
  by apply bytes_at_app in B as [B _].
Qed.

Lemma clean_bytes s : Forall (fun b => 0 < b < 256) s -> Forall (fun b => 0 < b < 256) (clean s).
Proof.
  intros H. assert (cstr (st_bytes ∅ 1 (s ++ [0])) 1 s) as C.
  { apply st_bytes_at; eapply List.Forall_impl; try exact H; cbn; lia. }
  destruct (cleanname_spec _ _ _ C) as (m' & _ & [B N] & _). apply bytes_at_app in B as [B _].
  assert (byte_list (clean s)) as BL by (rewrite <- B; apply ld_bytes_range). clear B. rename BL into B.
  rewrite Forall_forall in N, B |- *. intros b Hb. specialize (N b Hb). specialize (B b Hb).
  cbn in *. lia.
Qed.

Lemma cut_slash_spec s : let '(a, r) := cut_slash s in s = a ++ r /\ (r = [] \/ hd 0 r = slash).
Proof.
  induction s as [|x s IH]; cbn; [by split; [|left]|]. destruct (x =? slash) eqn:E; [split; [done|right]; cbn; lia|].
  destruct (cut_slash s) as [a r]. destruct IH as [-> ?]. by split.
Qed.

Lemma fixdotdotname_spec s : Forall (fun b => 0 < b < 256) s -> fixdotdotname s = Some (fixed_name s).
Proof.
  intros H. unfold fixdotdotname, fixed_name. destruct s as [|x s']; cbn [hd].
  { rewrite decide_False by done. by apply cleanname_of_spec. }
  destruct (x =? hash) eqn:E.
  - rewrite decide_True by lia. pose proof (cut_slash_spec (x :: s')) as C.
    destruct (cut_slash (x :: s')) as [a [|y r]]; [done|]. destruct C as [C _].
    rewrite decide_False by done. rewrite cleanname_of_spec; [done|]. rewrite C in H. by apply Forall_app in H as [_ ?].
  - rewrite decide_False by lia. by apply cleanname_of_spec.
Qed.

Lemma zlen_clean s : Forall (fun b => 0 < b < 256) s -> zlen (clean s) <= Z.max (zlen s) 1.
Proof.
  intros H. assert (cstr (st_bytes ∅ 1 (s ++ [0])) 1 s) as C.
  { apply st_bytes_at; eapply List.Forall_impl; try exact H; cbn; lia. }
  by destruct (cleanname_spec _ _ _ C) as (m' & _ & _ & L & _).
Qed.

Lemma zlen_fixed s : Forall (fun b => 0 < b < 256) s -> s <> [] -> zlen (fixed_name s) <= zlen s.
Proof.
  intros H Hs. assert (1 <= zlen s) as L by (destruct s; [done|]; rewrite zlen_cons; pose proof (zlen_nonneg s); lia).
  unfold fixed_name. case_decide; [|pose proof (zlen_clean s H); lia].
  pose proof (cut_slash_spec s) as C. destruct (cut_slash s) as [a r]. destruct C as [C _]. case_decide; [done|].
  rewrite C in H |- *. apply Forall_app in H as [_ H]. rewrite zlen_app.
  assert (1 <= zlen r) as Lr by (destruct r; [done|]; rewrite zlen_cons; pose proof (zlen_nonneg r); lia).
  pose proof (zlen_clean r H). destruct (_ && _); rewrite ?zlen_app; lia.
Qed.

Lemma fixed_bytes s : Forall (fun b => 0 < b < 256) s -> Forall (fun b => 0 < b < 256) (fixed_name s).
Proof.
  intros H. unfold fixed_name. case_decide; [|by apply clean_bytes].
  pose proof (cut_slash_spec s) as C. destruct (cut_slash s) as [a r]. destruct C as [C _]. case_decide; [done|].
  rewrite C in H. apply Forall_app in H as [Ha Hr]. destruct (_ && _); [done|]. apply Forall_app. split; [done|].
  by apply clean_bytes.
Qed.

(** ** [addelem] *)

(** The array of references of a path does not change: nor do the counts. *)
Lemma rc_path_rest s A ext p po po' : rc s A ext -> paths s !! p = Some po -> p_ref po' = p_ref po ->
  p_mtpt po' = p_mtpt po -> rc (set_paths (<[p := po']> (paths s)) s) A ext.
Proof.
  intros I Hp Hr Hm. apply (rc_upd_path s A ext ext p po po' I Hp).
  - intros r. assert (out_path po' = out_path po) as -> by (unfold out_path; by rewrite Hr, Hm).
    rewrite Hr. unfold at_. case_decide; lia.
  - apply I.
  - rewrite Hr. apply (rc_max _ _ _ I (RPath p)). cbn. by rewrite Hp.
  - by rewrite Hr.
Qed.

Lemma keeps_set_path A s m : keeps A s (set_paths m s).
Proof. pose proof (kkeeps_refl A s) as G. constructor; apply G. Qed.

Lemma room_set_path s k p po po' : room s k -> paths s !! p = Some po -> p_ref po' = p_ref po ->
  room (set_paths (<[p := po']> (paths s)) s) k.
Proof.
  intros (H0 & H1 & H2 & H3) Hp Hr. split_and!; [done|done| |done]. intros r. rewrite count_path.
  pose proof (H2 (RPath p)) as E. unfold count_of in E. cbn in E. rewrite Hp in E. cbn in E.
  specialize (H2 r). case_decide; lia.
Qed.

Section Addelem.
Context {R : Type}.

Lemma set_path_twice s p x y : set_paths (<[p := x]> (paths (set_paths (<[p := y]> (paths s)) s))) (set_paths (<[p := y]> (paths s)) s) =
  set_paths (<[p := x]> (paths s)) s.
Proof. unfold set_paths. cbn. by rewrite insert_insert_eq. Qed.

Lemma in_array_go i n s : 0 <= i < n -> in_array (R := R) i n s = (Go tt, s).
Proof. intros H. unfold in_array. by rewrite decide_True. Qed.

Lemma addname_ok s p po e : paths s !! p = Some po -> zlen (p_s po) + 1 <= p_alen po ->
  exists a, addname (R := R) p e s = (Go tt, set_paths (<[p := set_p_s (joined (p_s po) e) (set_p_alen a po)]> (paths s)) s) /\
    zlen (joined (p_s po) e) + 1 <= a.
Proof.
  intros Hp Ha. unfold addname. rewrite (cbind_go _ _ _ _ _ (pget_go _ _ _ Hp)).
  pose proof (zlen_nonneg (p_s po)). pose proof (zlen_nonneg e).
  set (a := if decide (zlen (p_s po) + 1 + zlen e + 1 > p_alen po) then zlen (p_s po) + 1 + zlen e + 1 + PATHSLOP else p_alen po).
  assert (zlen (p_s po) + 1 + zlen e + 1 <= a) as Hlen by (unfold a; case_decide; unfold PATHSLOP; lia).
  set (s1 := set_paths (<[p := set_p_alen a po]> (paths s)) s).
  assert (cwhen (R := R) (bool_decide (zlen (p_s po) + 1 + zlen e + 1 > p_alen po))
    (pset p (set_p_alen (zlen (p_s po) + 1 + zlen e + 1 + PATHSLOP))) s = (Go tt, s1)) as E1.
  { unfold s1, a. case_decide as Hd.
    - rewrite bool_decide_true by done. cbn [cwhen]. by rewrite (pset_go _ _ _ _ Hp).
    - rewrite bool_decide_false by done. cbn [cwhen]. unfold cret. do 2 f_equal.
      assert (set_p_alen (p_alen po) po = po) as -> by (by destruct po).
      rewrite insert_id by done. by destruct s. }
  rewrite (cbind_go _ _ _ _ _ E1). clear E1.
  assert (paths s1 !! p = Some (set_p_alen a po)) as Hp1 by (unfold s1; cbn; by rewrite lookup_insert_eq).
  rewrite (cbind_go _ _ _ _ _ (pget_go _ _ _ Hp1)). cbn [p_s p_alen set_p_alen].
  exists a. unfold joined.
  set (b := (0 <? zlen (p_s po)) && negb (bool_decide (list.last (p_s po) = Some slash)) && negb (nth 0 e 0 =? slash)).
  set (s2 := set_paths (<[p := set_p_s (if b then p_s po ++ [slash] else p_s po) (set_p_alen a po)]> (paths s)) s).
  assert (cwhen (R := R) b (in_array (zlen (p_s po)) a;; pset p (set_p_s (p_s po ++ [slash]))) s1 = (Go tt, s2)) as E2.
  { unfold s2. destruct b; cbn [cwhen].
    - rewrite (cbind_go _ _ _ tt s1) by (apply in_array_go; lia). rewrite (pset_go _ _ _ _ Hp1).
      unfold s1. by rewrite set_path_twice.
    - unfold cret. by destruct po. }
  rewrite (cbind_go _ _ _ _ _ E2). clear E2.
  assert (paths s2 !! p = Some (set_p_s (if b then p_s po ++ [slash] else p_s po) (set_p_alen a po))) as Hp2
    by (unfold s2; cbn; by rewrite lookup_insert_eq).
  rewrite (cbind_go _ _ _ _ _ (pget_go _ _ _ Hp2)). cbn [p_s p_alen set_p_alen set_p_s].
  assert (zlen (if b then p_s po ++ [slash] else p_s po) <= zlen (p_s po) + 1) as Hb.
  { destruct b; rewrite ?zlen_app, ?zlen_cons, ?zlen_nil; lia. }
  rewrite (cbind_go _ _ _ tt s2).
  2: { apply in_array_go. pose proof (zlen_nonneg (if b then p_s po ++ [slash] else p_s po)). lia. }
  rewrite (pset_go _ _ _ _ Hp2). unfold s2. rewrite set_path_twice.
  assert ((if b then (p_s po ++ [slash]) ++ e else p_s po ++ e) = (if b then p_s po ++ [slash] else p_s po) ++ e) as -> by (by destruct b).
  split; [done|]. rewrite zlen_app. lia.
Qed.

Lemma joined_bytes a e : Forall (fun b => 0 < b < 256) a -> Forall (fun b => 0 < b < 256) e ->
  Forall (fun b => 0 < b < 256) (joined a e).
Proof.
  intros Ha He. unfold joined. destruct (_ && _); repeat (apply Forall_app; split); try done.
  by repeat constructor.
Qed.

(** The references to the mount points of a path after [addelem]. *)
Definition path_mtpt (l : list Z) (e : list Z) (from : Z) : list Z :=
  if decide (e = [dot]) then l
  else if isdotdot e then (if decide (1 < zlen l) then take (Z.to_nat (zlen l - 1)) l else l)
  else l ++ [from].

Lemma paths_ok_upd s p po : paths_ok s -> kpath_ok po -> paths_ok (set_paths (<[p := po]> (paths s)) s).
Proof.
  intros H Hp q po'. cbn. destruct (decide (q = p)) as [->|Hne].
  - rewrite lookup_insert_eq. by intros [= <-].
  - rewrite lookup_insert_ne by done. apply H.
Qed.

Lemma paths_ok_closes s s' : paths_ok s -> closes s s' -> paths_ok s'.
Proof.
  intros H C p po Hp. destruct (cl_paths _ _ _ C p po Hp) as (po0 & Hp0 & E). specialize (H p po0 Hp0).
  by rewrite E.
Qed.

Lemma occ_out_app l l' r : occ r (out_chans (l ++ l')) = occ r (out_chans l) + occ r (out_chans l').
Proof. unfold out_chans. by rewrite fmap_app, concat_app, occ_app. Qed.

(** A channel that is held, or has a mount point in a table. *)
Definition anchored (s : kst) (A : gset Z) (ext : obj -> Z) (c : Z) : Prop :=
  0 < ext (RChan c) \/ exists m mo, m ∈ A /\ mheads s !! m = Some mo /\ mh_from mo = c.

Lemma anchored_alive s A ext c : anchored s A ext c -> 0 < ext (RChan c) \/ 0 < refs s A (RChan c).
Proof.
  intros [H|(m & mo & Hm & Hmo & <-)]; [by left|right]. apply (refs_mhead s A m mo); [done|].
  unfold out_mhead. rewrite decide_True by done. by left.
Qed.

Lemma anchored_keeps s s' A ext ext' c : keeps A s s' -> ext (RChan c) <= ext' (RChan c) ->
  anchored s A ext c -> anchored s' A ext' c.
Proof.
  intros K He [H|(m & mo & Hm & Hmo & <-)]; [left; lia|right].
  destruct (kp_mheads _ _ _ K m mo Hm Hmo) as (n & E). by exists m, (set_mh_ref n mo).
Qed.

Lemma drop_last_one (l : list Z) : (0 < length l)%nat ->
  drop (Z.to_nat (Z.of_nat (length l) - 1)) l = [nth (Z.to_nat (Z.of_nat (length l) - 1)) l 0].
Proof.
  intros H. destruct (list.last l) as [x|] eqn:E; [|apply list.last_None in E as ->; cbn in H; lia].
  apply list.last_Some in E as [l' ->]. rewrite length_app in *. cbn [length] in *.
  replace (Z.to_nat (Z.of_nat (length l' + 1) - 1)) with (length l') by lia.
  rewrite drop_app_length. rewrite app_nth2 by lia. by rewrite Nat.sub_diag.
Qed.

(** The path [q] that only the caller has, after [addup] and [addmtpt]. *)
(** Of the paths but [q] only counts change, or they go. *)
Definition others_kept (q : Z) (s s' : kst) : Prop :=
  forall x xo', x <> q -> paths s' !! x = Some xo' -> exists xo, paths s !! x = Some xo /\ xo' = set_p_ref (p_ref xo') xo.

Lemma others_kept_trans q s1 s2 s3 : others_kept q s1 s2 -> others_kept q s2 s3 -> others_kept q s1 s3.
Proof.
  intros H G x xo Hx H3. destruct (G x xo Hx H3) as (xo2 & H2 & ->). destruct (H x xo2 Hx H2) as (xo1 & H1 & ->).
  exists xo1. by rewrite !set_p_ref_twice.
Qed.

Lemma others_kept_eq q s s' : (forall x, x <> q -> paths s' !! x = paths s !! x) -> others_kept q s s'.
Proof. intros H x xo Hx. rewrite H by done. intros Hxo. exists xo. by rewrite set_p_ref_id. Qed.

Lemma others_kept_closes q s s' : closes s s' -> others_kept q s s'.
Proof. intros C x xo _. apply (cl_paths _ _ _ C). Qed.

Lemma addup_ok s A ext q po k : rc s A ext -> paths_ok s -> paths s !! q = Some po -> p_ref po = 1 -> 0 < ext (RPath q) ->
  p_s po <> [] -> room s k ->
  exists s' po', addup (R := R) q s = (Go q, s') /\ rc s' A ext /\ keeps A s s' /\ room s' k /\ paths_ok s' /\
    paths s' !! q = Some po' /\ p_s po' = fixed_name (p_s po) /\
    p_mtpt po' = (if decide (1 < zlen (p_mtpt po)) then take (Z.to_nat (zlen (p_mtpt po) - 1)) (p_mtpt po) else p_mtpt po) /\
    p_ref po' = 1 /\ others_kept q s s'.
Proof.
  intros I Ok Hq Hr Hh Hne Rm. destruct (Ok q po Hq) as (Oa & [Om1 Om2] & Ob). unfold addup.
  rewrite (cbind_go _ _ _ _ _ (pget_go _ _ _ Hq)). rewrite fixdotdotname_spec by done.
  pose proof (zlen_fixed _ Ob Hne) as Hz. pose proof (zlen_nonneg (fixed_name (p_s po))) as Hz0.
  rewrite (cbind_go _ _ _ tt s) by (apply in_array_go; lia). rewrite (cbind_go _ _ _ _ _ (pset_go _ _ _ _ Hq)).
  set (po3 := set_p_s (fixed_name (p_s po)) po).
  set (s3 := set_paths (<[q := po3]> (paths s)) s).
  pose proof (rc_path_rest s A _ q po po3 I Hq eq_refl eq_refl) as I3. fold s3 in I3.
  pose proof (keeps_set_path A s (<[q := po3]> (paths s))) as K3. fold s3 in K3.
  pose proof (room_set_path s k q po po3 Rm Hq eq_refl) as Rm3. fold s3 in Rm3.
  assert (paths s3 !! q = Some po3) as Hq3 by (unfold s3; cbn; by rewrite lookup_insert_eq).
  assert (kpath_ok po3) as O3 by (split_and!; [cbn; lia|done|done|by apply fixed_bytes]).
  assert (paths_ok s3) as Ok3 by (by apply paths_ok_upd).
  assert (others_kept q s s3) as P3 by (apply others_kept_eq; intros x Hx; unfold s3; cbn; by rewrite lookup_insert_ne).
  case_decide as H1; [|by exists s3, po3].
  rewrite (cbind_go _ _ _ _ _ (pset_go _ _ _ _ Hq3)).
  set (n := Z.to_nat (zlen (p_mtpt po) - 1)) in *.
  set (c := nth n (p_mtpt po) 0). set (po4 := set_p_mtpt (take n (p_mtpt po)) po3).
  set (s4 := set_paths (<[q := po4]> (paths s3)) s3).
  assert (forall r, occ r (out_path po3) - occ r (out_path po4) = occ r (nzr RChan c)) as Hocc.
  { intros r. rewrite !out_path_alive by (cbn; lia). change (p_mtpt po3) with (p_mtpt po). change (p_mtpt po4) with (take n (p_mtpt po)).
    assert (p_mtpt po = take n (p_mtpt po) ++ [c]) as E.
    { unfold c, n, zlen. rewrite <- (take_drop n (p_mtpt po)) at 1. f_equal.
      apply drop_last_one. unfold zlen in H1. lia. }
    rewrite E at 1. rewrite occ_out_app. change (out_chans [c]) with (nzr RChan c ++ []). rewrite app_nil_r. lia. }
  assert (rc s4 A (fun r => ext r + occ r (nzr RChan c))) as I4.
  { apply (rc_upd_path s3 A _ _ q po3 po4 I3 Hq3); try done.
    - intros r. rewrite <- (Hocc r). change (p_ref po4) with (p_ref po3). unfold at_. case_decide; lia.
    - intros r. pose proof (rc_ext _ _ _ I3 r). pose proof (occ_nonneg r (nzr RChan c)). lia.
    - cbn. lia. }
  assert (paths_ok s4) as Ok4.
  { unfold s4. apply paths_ok_upd; [done|]. destruct O3 as (? & ? & ?). split_and!; try done; cbn in *;
      unfold n, zlen in *; rewrite length_take; lia. }
  assert (paths s4 !! q = Some po4) as Hq4 by (unfold s4; cbn; by rewrite lookup_insert_eq).
  destruct (cclose_if (R := R) s4 A _ c I4) as (s5 & E5 & I5 & C5); [intros r; pose proof (rc_ext _ _ _ I3 r); lia|].
  rewrite (cbind_go _ _ _ _ _ E5).
  assert (rc s5 A ext) as I6 by (eapply rc_hold; [|exact I5]; intros r; unfold less; lia).
  destruct (closes_path s4 s5 A _ q po4 I6 C5) as (m & Hq5 & Hm); [done|done|].
  change (p_ref po4) with (p_ref po) in Hm.
  exists s5, (set_p_ref m po4). split_and!; try done; [| | |cbn; lia|].
  - eapply kkeeps_trans; [exact K3|]. eapply kkeeps_trans; [apply (keeps_set_path A s3)|]. by eapply closing_keeps.
  - eapply room_closing; [exact C5|]. by apply (room_set_path s3 k q po3).
  - by apply (paths_ok_closes s4).
  - eapply others_kept_trans; [exact P3|]. eapply others_kept_trans; [|by apply others_kept_closes].
    apply others_kept_eq. intros x Hx. unfold s4. cbn. by rewrite lookup_insert_ne.
Qed.

(** The array is long enough for one more. *)
Lemma addmtpt_room s p po : paths s !! p = Some po ->
  exists a, zlen (p_mtpt po) < a /\
    cwhen (R := R) (bool_decide (p_malen po <= zlen (p_mtpt po))) (pset p (set_p_malen (zlen (p_mtpt po) + 1 + PATHMSLOP))) s =
    (Go tt, set_paths (<[p := set_p_malen a po]> (paths s)) s).
Proof.
  intros Hp. case_bool_decide as Hd; cbn [cwhen].
  - exists (zlen (p_mtpt po) + 1 + PATHMSLOP). split; [unfold PATHMSLOP; lia|]. by rewrite (pset_go _ _ _ _ Hp).
  - exists (p_malen po). split; [lia|]. assert (set_p_malen (p_malen po) po = po) as -> by (by destruct po).
    rewrite (insert_id (paths s)) by done. unfold cret. by destruct s.
Qed.

(** A reference to [from] is taken, if there is one. *)
Lemma incref_if s A ext from k : rc s A ext -> from = 0 \/ anchored s A ext from -> room s (k + 1) -> 0 <= k ->
  exists s', (if decide (from <> 0) then incref (R := R) (RChan from);; cret tt else cret tt) s = (Go tt, s') /\
    rc s' A (fun r => ext r + occ r (nzr RChan from)) /\ recounted s s' /\ room s' k.
Proof.
  intros I Hfrom Rm Hk. unfold nzr. destruct (decide (from = 0)) as [Hz|Hz].
  - rewrite decide_False by (intros ?; done). exists s. split_and!; [done| |apply recounted_refl|by eapply room_less; [done|lia]].
    eapply rc_hold; [|exact I]. intros r. rewrite occ_nil. lia.
  - rewrite decide_True by done. destruct Hfrom as [?|Hfrom]; [done|].
    destruct (incref_room (R := R) s A _ (RChan from) k I) as (n & Hn & E & I4 & Rm4 & _); [by apply anchored_alive|done|done|].
    eexists. split_and!; [by rewrite (cbind_go _ _ _ _ _ E)| |apply recounted_set|done].
    eapply rc_hold; [|exact I4]. intros r. rewrite occ_one. unfold hold. case_decide; lia.
Qed.

Lemma incref_if_frame F from s s' : beside_chans F ->
  (if decide (from <> 0) then incref (R := R) (RChan from);; cret tt else cret tt) s = (Go tt, s') ->
  (if decide (from <> 0) then incref (R := R) (RChan from);; cret tt else cret tt) (F s) = (Go tt, F s').
Proof.
  intros HF. case_decide; [|by intros [= ->]]. intros (n & s1 & E & E')%cbind_go_inv. injection E' as ->.
  by rewrite (cbind_go _ _ _ _ _ (incref_frame F from s n s' HF E)).
Qed.

Lemma addmtpt_ok s A ext q po from k : rc s A ext -> paths_ok s -> paths s !! q = Some po -> p_ref po = 1 ->
  from = 0 \/ anchored s A ext from -> room s (k + 1) -> 0 <= k ->
  exists s' po', addmtpt (R := R) q from s = (Go q, s') /\ rc s' A ext /\ keeps A s s' /\ room s' k /\ paths_ok s' /\
    paths s' !! q = Some po' /\ p_s po' = p_s po /\ p_mtpt po' = p_mtpt po ++ [from] /\ p_ref po' = 1 /\ others_kept q s s'.
Proof.
  intros I Ok Hq Hr Hfrom Rm Hk. destruct (Ok q po Hq) as (Oa & [Om1 Om2] & Ob). unfold addmtpt.
  rewrite (cbind_go _ _ _ _ _ (pget_go _ _ _ Hq)).
  destruct (addmtpt_room s q po Hq) as (a & Ha & E3). rewrite (cbind_go _ _ _ _ _ E3).
  set (po3 := set_p_malen a po) in *. set (s3 := set_paths (<[q := po3]> (paths s)) s) in *.
  assert (paths s3 !! q = Some po3) as Hq3 by (unfold s3; cbn; by rewrite lookup_insert_eq).
  rewrite (cbind_go _ _ _ _ _ (pget_go _ _ _ Hq3)). change (p_mtpt po3) with (p_mtpt po). change (p_malen po3) with a.
  pose proof (zlen_nonneg (p_mtpt po)).
  rewrite (cbind_go _ _ _ tt s3) by (apply in_array_go; lia).
  rewrite (cbind_go _ _ _ _ _ (pset_go _ _ _ _ Hq3)).
  set (po4 := set_p_mtpt (p_mtpt po ++ [from]) po3).
  set (F := fun x => set_paths (<[q := po4]> (paths s3)) x).
  pose proof (rc_path_rest s A _ q po po3 I Hq eq_refl eq_refl) as I3. fold s3 in I3.
  pose proof (keeps_set_path A s (<[q := po3]> (paths s))) as K3. fold s3 in K3.
  pose proof (room_set_path s (k + 1) q po po3 Rm Hq eq_refl) as Rm3. fold s3 in Rm3.
  assert (paths_ok (F s3)) as Ok4.
  { unfold F, s3. rewrite set_path_twice. apply paths_ok_upd; [done|].
    split_and!; cbn; rewrite ?zlen_app, ?zlen_cons, ?zlen_nil; try lia; done. }
  destruct (incref_if s3 A ext from k I3) as (s4 & E4 & I4 & Rc & Rm4); [|done|done|].
  { destruct Hfrom as [?|Hfrom]; [by left|right]. by apply (anchored_keeps s s3 A ext). }
  change (set_paths (<[q := po4]> (paths s3)) s3) with (F s3).
  rewrite (cbind_go _ _ _ _ _ (incref_if_frame F from s3 s4 ltac:(done) E4)).
  assert (paths s4 = paths s3) as Hp4 by (by destruct Rc as [-> _]).
  assert (F s4 = set_paths (<[q := po4]> (paths s4)) s4) as HF by (unfold F; by rewrite Hp4).
  exists (F s4), po4. split_and!; try done.
  - rewrite HF. apply (rc_upd_path s4 A _ _ q po3 po4 I4); try (done || (cbn; lia)); [by rewrite Hp4| |].
    + intros r. rewrite !out_path_alive by (cbn; lia). change (p_mtpt po3) with (p_mtpt po).
      change (p_mtpt po4) with (p_mtpt po ++ [from]). rewrite occ_out_app.
      change (out_chans [from]) with (nzr RChan from ++ []). rewrite app_nil_r. change (p_ref po4) with (p_ref po3).
      unfold at_. destruct (decide (r = RPath q)); lia.
    + apply I.
  - eapply kkeeps_trans; [exact K3|]. eapply kkeeps_trans; [by apply recounted_keeps|]. apply keeps_set_path.
  - rewrite HF. by apply (room_set_path s4 k q po3); rewrite ?Hp4.
  - cbn. by rewrite lookup_insert_eq.
  - apply others_kept_eq. intros x Hx. unfold s3. cbn. by rewrite !lookup_insert_ne.
Qed.

Lemma joined_nonempty a e : e <> [] -> joined a e <> [].
Proof. intros He. unfold joined. destruct (_ && _); by intros [_ ?]%app_eq_nil. Qed.

Lemma addelem_ok s A ext p po e from k : rc s A ext -> paths_ok s -> paths s !! p = Some po -> covers ext [RPath p] ->
  (from = 0 \/ anchored s A ext from) -> Forall (fun b => 0 < b < 256) e ->
  room s (zlen (p_mtpt po) + (k + 2)) -> 0 <= k ->
  exists p' s' po', addelem (R := R) p e from s = (Go p', s') /\
    rc s' A (hold (less ext [RPath p]) (RPath p') 1) /\ keeps A s s' /\ room s' k /\ paths_ok s' /\
    paths s' !! p' = Some po' /\ p_s po' = path_name (p_s po) e /\ p_mtpt po' = path_mtpt (p_mtpt po) e from /\
    (e <> [dot] -> p_ref po' = 1 /\ (1 < p_ref po -> p' <> p)) /\ others_kept p' s s'.
Proof.
  intros I Ok Hp Hc Hfrom He Hm Hk. unfold addelem, path_name, path_mtpt.
  destruct (decide (e = [dot])) as [Hdot|Hdot].
  { exists p, s, po. pose proof (zlen_nonneg (p_mtpt po)). split_and!; try done.
    - eapply rc_hold; [|exact I]. intros r. unfold hold, less. rewrite occ_one. case_decide; lia.
    - apply kkeeps_refl.
    - eapply room_less; [done|lia].
    - by apply others_kept_eq. }
  destruct (uniquepath_ok (R := R) s A ext p po (k + 1) I Hc Hp) as (q & s1 & E1 & I1 & K1 & Rm1 & Hq1 & Hqp & P1); [|lia|].
  { by replace (k + 1 + 1) with (k + 2) by lia. }
  rewrite (cbind_go _ _ _ _ _ E1).
  destruct (Ok p po Hp) as (Oa & Om & Ob).
  assert (paths_ok s1) as Ok1 by (intros x px Hx; destruct (P1 x px Hx) as (p0 & [Hp0|[_ ->]] & ->); [apply (Ok x p0 Hp0)|apply (Ok p po Hp)]).
  destruct (addname_ok s1 q (set_p_ref 1 po) e Hq1 Oa) as (a & E2 & La). cbn [p_s set_p_ref] in E2, La.
  set (po2 := set_p_s (joined (p_s po) e) (set_p_alen a (set_p_ref 1 po))) in *.
  set (s2 := set_paths (<[q := po2]> (paths s1)) s1) in *.
  rewrite (cbind_go _ _ _ _ _ E2).
  pose proof (rc_path_rest s1 A _ q (set_p_ref 1 po) po2 I1 Hq1 eq_refl eq_refl) as I2. fold s2 in I2.
  pose proof (kkeeps_trans _ _ _ _ K1 (keeps_set_path A s1 (<[q := po2]> (paths s1)))) as K2. fold s2 in K2.
  pose proof (room_set_path s1 (k + 1) q (set_p_ref 1 po) po2 Rm1 Hq1 eq_refl) as Rm2. fold s2 in Rm2.
  assert (paths s2 !! q = Some po2) as Hq2 by (unfold s2; cbn; by rewrite lookup_insert_eq).
  pose proof (joined_bytes (p_s po) e Ob He) as Hj.
  assert (paths_ok s2) as Ok2 by (apply paths_ok_upd; [done|split_and!; [exact La|apply Om..|exact Hj]]).
  assert (others_kept q s s2) as O2.
  { intros x xo Hx. unfold s2. cbn. rewrite lookup_insert_ne by done. intros Hxo.
    destruct (P1 x xo Hxo) as (x0 & [Hx0|[? _]] & E); [by exists x0|done]. }
  destruct (isdotdot e) eqn:Hdd.
  - destruct (addup_ok s2 A _ q po2 (k + 1) I2 Ok2 Hq2 eq_refl) as (s3 & po3 & E3 & I3 & K3 & Rm3 & Ok3 & Hq3 & Hs & Hl & Hr & O3); [| |done|].
    + rewrite hold_eq. pose proof (Hc (RPath q)). unfold less. lia.
    + apply joined_nonempty. unfold isdotdot in Hdd. by apply bool_decide_eq_true in Hdd as ->.
    + exists q, s3, po3. split_and!; try done; [by eapply kkeeps_trans| |by eapply others_kept_trans]. eapply room_less; [done|lia].
  - destruct (addmtpt_ok s2 A _ q po2 from k I2 Ok2 Hq2 eq_refl) as (s3 & po3 & E3 & I3 & K3 & Rm3 & Ok3 & Hq3 & Hs & Hl & Hr & O3); [|done|done|].
    + destruct Hfrom as [?|Hfrom]; [by left|right]. apply (anchored_keeps s s2 A ext); [done| |done].
      unfold hold, less. rewrite decide_False by done. rewrite occ_one, decide_False by done. lia.
    + exists q, s3, po3. split_and!; try done; [by eapply kkeeps_trans|by eapply others_kept_trans].
Qed.
End Addelem.
