(* ===== verification/Mount.v ===== *)
(** The mount table of a name space: of src/9/port/chan.c [cmount], [cunmount], [findmount],
    [domount] and [undomount], of src/9/port/pgrp.c [newpgrp], [closepgrp],
    [pgrpcpy], [newmount] and [mountfree].

    A process group has a hash table of mount points. A mount point, [Mhead], has the channel
    of the file that is mounted upon and the list of what is mounted there, [Mount]s. [pg]
    is the group of the process, [up->pgrp]. Fuel for a list is one more than the number of
    objects of its kind. *)

From S2P Require Import Prelude Mem Fcall9P Chan.

(** Flags of bind and mount. *)
Definition MORDER := 0x0003.
Definition MREPL := 0x0000.
Definition MBEFORE := 0x0001.
Definition MAFTER := 0x0002.
Definition MCREATE := 0x0004.

Definition MNTLOG := 5.
Definition MNTHASH := Z.shiftl 1 MNTLOG.

(** The index of [MOUNTH(pg, qid)]. *)
Definition MOUNTH (path : Z) : Z := Z.land path (Z.shiftl 1 MNTLOG - 1).

Definition eqqid (a b : Qid) : bool := (q_path a =? q_path b) && (q_vers a =? q_vers b).

Definition eqchantdqid (a : Chan) (type dev : Z) (qid : Qid) (skipvers : bool) : bool :=
  if negb (q_path (c_qid a) =? q_path qid) then false
  else if negb skipvers && negb (q_vers (c_qid a) =? q_vers qid) then false
  else if negb (c_type a =? type) then false
  else if negb (c_dev a =? dev) then false
  else true.

Definition eqchan (a b : Chan) (skipvers : bool) : bool :=
  if negb (q_path (c_qid a) =? q_path (c_qid b)) then false
  else if negb skipvers && negb (q_vers (c_qid a) =? q_vers (c_qid b)) then false
  else if negb (c_type a =? c_type b) then false
  else if negb (c_dev a =? c_dev b) then false
  else true.

(** The places of a link in a chain of the hash table, [Mhead **l]. *)
Inductive hloc := HTab (i : Z) | HHash (m : Z).

Section Mount.
Context {R : Type}.
Abbreviation kcmd := (cmd kst R).

Definition set_elem (i x : Z) (l : list Z) : list Z := <[Z.to_nat i := x]> l.

Definition hlink (pg : Z) (l : hloc) : kcmd Z :=
  match l with
  | HTab i =>
      po <- pgget pg;;
      match pg_mnthash po !! Z.to_nat i with Some m => cret m | None => cabort end
  | HHash m => mo <- mhget m;; cret (mh_hash mo)
  end.

Definition set_hlink (pg : Z) (l : hloc) (x : Z) : kcmd unit :=
  match l with
  | HTab i => pgset pg (fun po => set_pg_mnthash (set_elem i x (pg_mnthash po)) po)
  | HHash m => mhset m (set_mh_hash x)
  end.

Definition hfuel : kcmd nat := cgets (fun s => S (size (mheads s))).
Definition mfuel : kcmd nat := cgets (fun s => S (size (mounts s))).

(** *** pgrp.c: [newmount], [mountfree]; chan.c: [newmhead] *)

Definition newmount (mh to flag : Z) (spec : option (list Z)) : kcmd Z :=
  m <- smalloc mounts set_mounts (MkMount 0 0 mh 0 0 to 0 None);;
  incref (RChan to);;
  id <- incref_ mountid set_mountid;;
  mtset m (fun mo => set_mt_spec spec (set_mt_flag flag (set_mt_id (u32 id) mo)));;
  cret m.

Fixpoint mountfree_loop (fuel : nat) (m : Z) : kcmd unit :=
  match fuel with
  | O => cabort
  | S fuel' =>
      if decide (m = 0) then cret tt
      else
        mo <- mtget m;;
        cclose (mt_to mo);;
        mtset m (set_mt_id 0);;
        free mounts set_mounts m;;
        mountfree_loop fuel' (mt_next mo)
  end.

Definition mountfree (m : Z) : kcmd unit := fuel <- mfuel;; mountfree_loop fuel m.

Definition newmhead (from : Z) : kcmd Z :=
  mh <- smalloc mheads set_mheads (MkMhead 1 from 0 0);;
  incref (RChan from);;
  cret mh.

(** *** chan.c: [cmount] *)

(** The loop over the chain: the mount point of [old], or 0, and the link that leads there. *)
Fixpoint find_mhead (fuel : nat) (pg : Z) (l : hloc) (old : Chan) : kcmd (Z * hloc) :=
  match fuel with
  | O => cabort
  | S fuel' =>
      m <- hlink pg l;;
      if decide (m = 0) then cret (0, l)
      else
        mo <- mhget m;;
        from <- chget (mh_from mo);;
        if eqchan from old true then cret (m, l)
        else find_mhead fuel' pg (HHash m) old
  end.

(** Nothing is mounted on [old] yet: a new mount point in the table. *)
Definition add_mhead (pg : Z) (l : hloc) (old order : Z) : kcmd Z :=
  m <- newmhead old;;
  set_hlink pg l m;;
  (if decide (order <> MREPL) then
     f <- newmount m old 0 None;; mhset m (set_mh_mount f)
   else cret tt);;
  cret m.

(** The loop that copies a union: [prev] is the [Mount] that the next one is linked to. *)
Fixpoint copy_union (fuel : nat) (m um prev flg : Z) : kcmd unit :=
  match fuel with
  | O => cabort
  | S fuel' =>
      if decide (um = 0) then cret tt
      else
        uo <- mtget um;;
        f <- newmount m (mt_to uo) flg (mt_spec uo);;
        mtset prev (set_mt_next f);;
        uo <- mtget um;;
        copy_union fuel' m (mt_next uo) f flg
  end.

(** [for(f = ..; f->next; f = f->next);] *)
Fixpoint last_mount (fuel : nat) (f : Z) : kcmd Z :=
  match fuel with
  | O => cabort
  | S fuel' => fo <- mtget f;; if decide (mt_next fo = 0) then cret f else last_mount fuel' (mt_next fo)
  end.

(** The union is bound with create permission, but is not a simple mount point with it. *)
Definition bad_create (flag mh : Z) : kcmd bool :=
  if decide (Z.land flag MCREATE <> 0 /\ mh <> 0) then
    mho <- mhget mh;;
    if decide (mh_mount mho <> 0) then
      mo <- mtget (mh_mount mho);;
      cret (bool_decide (mt_next mo <> 0) || bool_decide (Z.land (mt_flag mo) MCREATE = 0))
    else cret false
  else cret false.

(** A mount that replaces takes away what was mounted at [m]. *)
Definition drop_mounts (m order : Z) : kcmd unit :=
  mo <- mhget m;;
  (if decide (mh_mount mo <> 0 /\ order = MREPL) then
     mountfree (mh_mount mo);; mhset m (set_mh_mount 0)
   else cret tt).

(** The list at [m] gets [nm] and the union behind it. *)
Definition link_mount (m nm order : Z) : kcmd unit :=
  mo <- mhget m;;
  fuel <- mfuel;;
  if decide (mh_mount mo <> 0 /\ order = MAFTER) then
    f <- last_mount fuel (mh_mount mo);; mtset f (set_mt_next nm)
  else
    f <- last_mount fuel nm;;
    mtset f (set_mt_next (mh_mount mo));;
    mhset m (set_mh_mount nm).

(** The union that is mounted is copied behind [nm]. *)
Definition mount_union (m nm mh order : Z) : kcmd unit :=
  if decide (mh <> 0) then
    mho <- mhget mh;;
    if decide (mh_mount mho <> 0) then
      um <- mtget (mh_mount mho);;
      fuel <- mfuel;;
      copy_union fuel m (mt_next um) nm (if decide (order = MREPL) then MAFTER else order)
    else cret tt
  else cret tt.

(** The mount at the mount point [m], which is in the table. *)
Definition mount_at (m new flag : Z) (spec : option (list Z)) (mh : Z) : kcmd Z :=
  let order := Z.land flag MORDER in
  nm <- newmount m new flag spec;;
  mount_union m nm mh order;;
  drop_mounts m order;;
  cwhen (bool_decide (Z.land flag MCREATE <> 0))
    (mtset nm (fun mo => set_mt_flag (Z.lor (mt_flag mo) MCREATE) mo));;
  link_mount m nm order;;
  mo <- mtget nm;;
  cret (mt_id mo).

(** [if(m == nil) ..]: the mount point of [old], a new one if there is none. *)
Definition get_mhead (pg old order : Z) (oc : Chan) : kcmd Z :=
  ml <- (fuel <- hfuel;; find_mhead fuel pg (HTab (MOUNTH (q_path (c_qid oc)))) oc);;
  if decide (ml.1 = 0) then add_mhead pg ml.2 old order else cret ml.1.

Definition cmount (pg new old flag : Z) (spec : option (list Z)) : kcmd Z :=
  oc <- chget old;;
  nc <- chget new;;
  if decide (Z.land QTDIR (Z.lxor (q_type (c_qid oc)) (q_type (c_qid nc))) <> 0) then
    error_return Emount ONERR
  else
    let order := Z.land flag MORDER in
    if decide (Z.land (q_type (c_qid oc)) QTDIR = 0 /\ order <> MREPL) then error_return Emount ONERR
    else
      bad <- bad_create flag (c_umh nc);;
      if (bad : bool) then error_return Emount ONERR
      else m <- get_mhead pg old order oc;; mount_at m new flag spec (c_umh nc).

(** *** chan.c: [cunmount], [findmount], [domount], [undomount] *)

(** The loop over the union: the link that leads to the [Mount] of [mounted], the [Mhead]
    (0) or the [Mount] before it; [None] when there is none. *)
Fixpoint find_mounted (fuel : nat) (prev f : Z) (mounted : Chan) : kcmd (option (Z * Z)) :=
  match fuel with
  | O => cabort
  | S fuel' =>
      if decide (f = 0) then cret None
      else
        fo <- mtget f;;
        to <- chget (mt_to fo);;
        hit <- (if eqchan to mounted true then cret true
                else if decide (c_mchan to <> 0) then mc <- chget (c_mchan to);; cret (eqchan mc mounted true)
                else cret false);;
        if (hit : bool) then cret (Some (prev, f)) else find_mounted fuel' f (mt_next fo) mounted
  end.

(** [*p = x] *)
Definition set_mlink (m prev x : Z) : kcmd unit :=
  if decide (prev = 0) then mhset m (set_mh_mount x) else mtset prev (set_mt_next x).

Definition cunmount (pg mnt mounted : Z) : kcmd Z :=
  mc <- chget mnt;;
  fuel <- hfuel;;
  ml <- find_mhead fuel pg (HTab (MOUNTH (q_path (c_qid mc)))) mc;;
  let '(m, l) := ml in
  if decide (m = 0) then error_return Eunmount ONERR
  else
    mo <- mhget m;;
    if decide (mounted = 0) then
      set_hlink pg l (mh_hash mo);;
      mountfree (mh_mount mo);;
      mhset m (set_mh_mount 0);;
      cclose (mh_from mo);;
      putmhead m;;
      cret 0
    else
      to <- chget mounted;;
      fuel <- mfuel;;
      r <- find_mounted fuel 0 (mh_mount mo) to;;
      match r with
      | None => error_return Eunion ONERR
      | Some (prev, f) =>
          fo <- mtget f;;
          set_mlink m prev (mt_next fo);;
          mtset f (set_mt_next 0);;
          mountfree f;;
          mo <- mhget m;;
          if decide (mh_mount mo = 0) then
            set_hlink pg l (mh_hash mo);;
            cclose (mh_from mo);;
            putmhead m;;
            cret 0
          else cret 0
      end.

(** The loop of [findmount]: the [Mhead] of the file, or 0. *)
Fixpoint find_tdqid (fuel : nat) (m type dev : Z) (qid : Qid) : kcmd Z :=
  match fuel with
  | O => cabort
  | S fuel' =>
      if decide (m = 0) then cret 0
      else
        mo <- mhget m;;
        if decide (mh_from mo = 0) then find_tdqid fuel' (mh_hash mo) type dev qid
        else
          from <- chget (mh_from mo);;
          if eqchantdqid from type dev qid true then cret m
          else find_tdqid fuel' (mh_hash mo) type dev qid
  end.

(** [*cp] and [*mp] before the call, and after it with the result; both pointers are there. *)
Definition findmount (pg cp mp type dev : Z) (qid : Qid) : kcmd (bool * Z * Z) :=
  fuel <- hfuel;;
  m <- hlink pg (HTab (MOUNTH (q_path qid)));;
  m <- find_tdqid fuel m type dev qid;;
  if decide (m = 0) then cret (false, cp, mp)
  else
    incref (RMhead m);;
    cwhen (bool_decide (mp <> 0)) (putmhead mp);;
    (if decide (cp <> 0) then cclose cp;; cret tt else cret tt);;
    mo <- mhget m;;
    f <- mtget (mh_mount mo);;
    incref (RChan (mt_to f));;
    cret (true, mt_to f, m).

(** [*cp], [*mp] and [*path] before and after the call. *)
Definition domount (pg cp mp path : Z) : kcmd (bool * Z * Z * Z) :=
  co <- chget cp;;
  r <- findmount pg cp mp (c_type co) (c_dev co) (c_qid co);;
  let '(found, cp, mp) := r in
  if negb found then cret (false, cp, mp, path)
  else
    p <- uniquepath path;;
    po <- pget p;;
    if decide (zlen (p_mtpt po) <= 0) then cret (true, cp, mp, p)
    else
      mo <- mhget mp;;
      incref (RChan (mh_from mo));;
      let lc := zlen (p_mtpt po) - 1 in
      let c := nth (Z.to_nat lc) (p_mtpt po) 0 in
      (if decide (c <> 0) then cclose c;; cret tt else cret tt);;
      mo <- mhget mp;;
      pset p (fun po => set_p_mtpt (set_elem lc (mh_from mo) (p_mtpt po)) po);;
      cret (true, cp, mp, p).

Definition undomount (c path : Z) : kcmd Z :=
  po <- pget path;;
  let n := zlen (p_mtpt po) - 1 in
  let nc := nth (Z.to_nat n) (p_mtpt po) 0 in
  if decide (0 < zlen (p_mtpt po) /\ nc <> 0) then
    cclose c;;
    pset path (fun po => set_p_mtpt (set_elem n 0 (p_mtpt po)) po);;
    cret nc
  else cret c.

(** *** pgrp.c: [newpgrp], [closepgrp], [pgrpcpy] *)

Definition newpgrp : kcmd Z :=
  p <- smalloc pgrps set_pgrps (MkPgrp 1 0 0 (replicate (Z.to_nat MNTHASH) 0));;
  id <- incref_ pgrpid set_pgrpid;;
  pgset p (set_pg_id (u32 id));;
  cret p.

(** The chain that begins with [f]. *)
Fixpoint closepgrp_chain (fuel : nat) (f : Z) : kcmd unit :=
  match fuel with
  | O => cabort
  | S fuel' =>
      if decide (f = 0) then cret tt
      else
        fo <- mhget f;;
        cclose (mh_from fo);;
        fo <- mhget f;;
        mountfree (mh_mount fo);;
        mhset f (set_mh_mount 0);;
        fo <- mhget f;;
        putmhead f;;
        closepgrp_chain fuel' (mh_hash fo)
  end.

Fixpoint closepgrp_tab (fuel : nat) (hs : list Z) : kcmd unit :=
  match hs with
  | [] => cret tt
  | h :: hs' => closepgrp_chain fuel h;; closepgrp_tab fuel hs'
  end.

Definition closepgrp (p : Z) : kcmd unit :=
  r <- decref (RPgrp p);;
  if decide (r <> 0) then cret tt
  else
    pgset p (set_pg_id (u32 (-1)));;
    fuel <- hfuel;;
    po <- pgget p;;
    closepgrp_tab fuel (pg_mnthash po);;
    free pgrps set_pgrps p.

(** The loop of [pgrpinsert]: [m] goes before the first one with a greater id; [prev] is the
    one before [f], 0 for [*order]. The result is [*order] after the call. *)
Fixpoint insert_order (fuel : nat) (head prev f m : Z) : kcmd Z :=
  match fuel with
  | O => cabort
  | S fuel' =>
      if decide (f = 0) then mtset prev (set_mt_order m);; cret head
      else
        mo <- mtget m;;
        fo <- mtget f;;
        if decide (mt_id mo < mt_id fo) then
          mtset m (set_mt_order f);;
          if decide (prev = 0) then cret m else mtset prev (set_mt_order m);; cret head
        else insert_order fuel' head f (mt_order fo) m
  end.

Definition pgrpinsert (order m : Z) : kcmd Z :=
  mtset m (set_mt_order 0);;
  if decide (order = 0) then cret m
  else fuel <- mfuel;; insert_order fuel order 0 order m.

(** The [Mount]s from [m] on are copied to the end of the list of [mh], whose last one is
    [prev], 0 for none. *)
Fixpoint copy_mounts (fuel : nat) (mh m prev order : Z) : kcmd Z :=
  match fuel with
  | O => cabort
  | S fuel' =>
      if decide (m = 0) then cret order
      else
        mo <- mtget m;;
        n <- newmount mh (mt_to mo) (mt_flag mo) (mt_spec mo);;
        mtset m (set_mt_copy n);;
        order <- pgrpinsert order m;;
        set_mlink mh prev n;;
        mo <- mtget m;;
        copy_mounts fuel' mh (mt_next mo) n order
  end.

(** The chain from [f] on is copied to the place [l]. *)
Fixpoint copy_chain (fuel : nat) (to f : Z) (l : hloc) (order : Z) : kcmd Z :=
  match fuel with
  | O => cabort
  | S fuel' =>
      if decide (f = 0) then cret order
      else
        fo <- mhget f;;
        mh <- newmhead (mh_from fo);;
        set_hlink to l mh;;
        mf <- mfuel;;
        order <- copy_mounts mf mh (mh_mount fo) 0 order;;
        fo <- mhget f;;
        copy_chain fuel' to (mh_hash fo) (HHash mh) order
  end.

Fixpoint copy_tab (n : nat) (i : Z) (to from order : Z) : kcmd Z :=
  match n with
  | O => cret order
  | S n' =>
      fuel <- hfuel;;
      f <- hlink from (HTab i);;
      order <- copy_chain fuel to f (HTab i) order;;
      copy_tab n' (i + 1) to from order
  end.

(** New ids in the order of the old ones: [m->copy->mountid = mountid.ref++]. *)
Fixpoint renumber (fuel : nat) (m : Z) : kcmd unit :=
  match fuel with
  | O => cabort
  | S fuel' =>
      if decide (m = 0) then cret tt
      else
        mo <- mtget m;;
        id <- cgets mountid;;
        cmodify (set_mountid (s32 (id + 1)));;
        mtset (mt_copy mo) (set_mt_id (u32 id));;
        renumber fuel' (mt_order mo)
  end.

Definition pgrpcpy (to from : Z) : kcmd unit :=
  order <- copy_tab (Z.to_nat MNTHASH) 0 to from 0;;
  fuel <- mfuel;;
  renumber fuel order.
End Mount.
