(* ===== verification/MountSpec.v ===== *)
(** What the functions that make and free [Mount]s do to the memory, and the lists of what
    is mounted at a mount point. *)

From S2P Require Import Prelude Mem Links Sums Fcall9P Chan ChanSpec Mount.

(** ** What is left as it is but for the [Mount]s *)

Record keepm (A : gset Z) (s s' : kst) : Prop := {
  km_pgrps : pgrps s' = pgrps s;
  km_mheads m mo : m ∈ A -> mheads s !! m = Some mo -> exists n, mheads s' !! m = Some (set_mh_ref n mo);
  km_back m mo' : mheads s' !! m = Some mo' -> exists mo, mheads s !! m = Some mo /\ mo' = set_mh_ref (mh_ref mo') mo;
  km_chans c co : chans s !! c = Some co -> exists co', chans s' !! c = Some co' /\ same_ident co co';
  km_brk : brk s <= brk s' }.

Lemma keeps_keepm A s s' : keeps A s s' -> keepm A s s'.
Proof. intros K. constructor; apply K. Qed.

Lemma keepm_refl A s : keepm A s s.
Proof. apply keeps_keepm, kkeeps_refl. Qed.

Lemma keepm_trans A s1 s2 s3 : keepm A s1 s2 -> keepm A s2 s3 -> keepm A s1 s3.
Proof.
  intros H G. constructor; try (etrans; [apply G|apply H]).
  - intros m mo Hm Hmo. destruct (km_mheads _ _ _ H m mo Hm Hmo) as (n & E1).
    destruct (km_mheads _ _ _ G m _ Hm E1) as (n' & E2). exists n'. by rewrite set_mh_ref_twice in E2.
  - intros m mo2 Hm. destruct (km_back _ _ _ G m mo2 Hm) as (mo1 & Hm1 & E1).
    destruct (km_back _ _ _ H m mo1 Hm1) as (mo & Hm0 & E2). exists mo. split; [done|]. by rewrite E1, E2, !set_mh_ref_twice.
  - intros c co Hc. destruct (km_chans _ _ _ H c co Hc) as (co1 & Hc1 & E1).
    destruct (km_chans _ _ _ G c co1 Hc1) as (co2 & Hc2 & E2). exists co2. split; [done|].
    unfold same_ident in *. intuition congruence.
  - pose proof (km_brk _ _ _ H). pose proof (km_brk _ _ _ G). lia.
Qed.

Lemma keepm_mounts A s X : keepm A s (set_mounts X s).
Proof. pose proof (keepm_refl A s) as G. constructor; apply G. Qed.

Lemma keepm_mono A B s s' : B ⊆ A -> keepm A s s' -> keepm B s s'.
Proof. intros H G. constructor; try apply G. intros m mo Hm. apply (km_mheads _ _ _ G). set_solver. Qed.

Lemma room_same s s' k : chans s' = chans s -> paths s' = paths s -> mheads s' = mheads s -> pgrps s' = pgrps s ->
  fgrps s' = fgrps s -> npath s' = npath s -> room s k -> room s' k.
Proof.
  intros E1 E2 E3 E4 E5 E6 (H0 & H1 & H2 & H3). split_and!; [done|done| |by rewrite E6].
  intros r. specialize (H2 r). unfold count_of, rcount in *. destruct r; by rewrite ?E1, ?E2, ?E3, ?E4, ?E5.
Qed.

(** ** The closes do not look at the [Mount]s *)

Section Beside.
Context {R : Type} (X : gmap Z Mount).

Definition beside {B} (c : cmd kst R B) : Prop :=
  forall s r s', c s = (r, s') -> c (set_mounts X s) = (r, set_mounts X s').

Lemma beside_bind {B C} (c : cmd kst R B) (k : B -> cmd kst R C) :
  beside c -> (forall b, beside (k b)) -> beside (cbind c k).
Proof.
  intros Hc Hk s r s'. unfold cbind. destruct (c s) as [x s1] eqn:E. rewrite (Hc _ _ _ E).
  destruct x; [|by intros [= <- <-]..]. apply Hk.
Qed.
Lemma beside_ret {B} (b : B) : beside (cret b).
Proof. intros s r s'. unfold cret. by intros [= <- <-]. Qed.
Lemma beside_abort {B} : beside (@cabort kst R B).
Proof. intros s r s'. unfold cabort. by intros [= <- <-]. Qed.
Lemma beside_gets {B} (f : kst -> B) : (forall s, f (set_mounts X s) = f s) -> beside (cgets f).
Proof. intros H s r s'. unfold cgets. rewrite H. by intros [= <- <-]. Qed.
Lemma beside_modify f : (forall s, f (set_mounts X s) = set_mounts X (f s)) -> beside (cmodify f).
Proof. intros H s r s'. unfold cmodify. rewrite H. by intros [= <- <-]. Qed.
Lemma beside_when b (c : cmd kst R unit) : beside c -> beside (cwhen b c).
Proof. intros H. destruct b; [done|apply beside_ret]. Qed.
Lemma beside_look {V} (f : kst -> gmap Z V) p : (forall s, f (set_mounts X s) = f s) -> beside (look f p).
Proof. intros H s r s'. unfold look. rewrite H. destruct (f s !! p); by intros [= <- <-]. Qed.
Lemma beside_put {V} (f : kst -> gmap Z V) set p g : (forall s, f (set_mounts X s) = f s) ->
  (forall m s, set m (set_mounts X s) = set_mounts X (set m s)) -> beside (put f set p g).
Proof. intros H H' s r s'. unfold put. rewrite H. destruct (f s !! p); [rewrite H'|]; by intros [= <- <-]. Qed.
Lemma beside_free {V} (f : kst -> gmap Z V) set p : (forall s, f (set_mounts X s) = f s) ->
  (forall m s, set m (set_mounts X s) = set_mounts X (set m s)) -> beside (free f set p).
Proof. intros H H' s r s'. unfold free. rewrite H. destruct (f s !! p); [rewrite H'|]; by intros [= <- <-]. Qed.
Lemma beside_decref o : beside (decref o).
Proof.
  intros s r s'. unfold decref. assert (rcount o (set_mounts X s) = rcount o s) as -> by (by destruct o).
  destruct (rcount o s) as [n|]; [|by intros [= <- <-]].
  destruct (decide (s32 (n - 1) < 0)); [by intros [= <- <-]|].
  assert (forall x, set_rcount o x (set_mounts X s) = set_mounts X (set_rcount o x s)) as -> by (by destruct o).
  by intros [= <- <-].
Qed.
Lemma beside_decref_npath : beside (decref_ npath set_npath).
Proof. intros s r s'. unfold decref_. cbn. case_decide; by intros [= <- <-]. Qed.

Ltac beside_step :=
  match goal with
  | |- beside (cbind _ _) => apply beside_bind; [|intros ?]
  | |- beside (cret _) => apply beside_ret
  | |- beside cabort => apply beside_abort
  | |- beside (cgets _) => by apply beside_gets
  | |- beside (cmodify _) => by apply beside_modify
  | |- beside (cwhen _ _) => apply beside_when
  | |- beside (chget _) => by apply beside_look
  | |- beside (pget _) => by apply beside_look
  | |- beside (chset _ _) => by apply beside_put
  | |- beside (mhset _ _) => by apply beside_put
  | |- beside (free _ _ _) => by apply beside_free
  | |- beside (decref _) => apply beside_decref
  | |- beside (decref_ _ _) => apply beside_decref_npath
  | |- beside (if _ then _ else _) => case_match
  end.

Lemma beside_putmhead m : beside (putmhead m).
Proof. unfold putmhead. repeat beside_step. Qed.

Lemma beside_mtpt_close close l : (forall c, beside (close c)) -> beside (mtpt_close close l).
Proof. intros H. induction l as [|c l IH]; cbn; repeat (beside_step || apply H || apply IH). Qed.

Lemma beside_chanfree close c : (forall c, beside (close c)) -> beside (chanfree_ close c).
Proof.
  intros H. unfold chanfree_, pathclose_, muxclose.
  repeat (beside_step || apply H || apply beside_putmhead || by apply beside_mtpt_close).
Qed.

Lemma beside_cclose_rec n : forall c, beside (cclose_rec n c).
Proof.
  induction n as [|n IH]; intros c; cbn [cclose_rec]; unfold dev_close;
    repeat (beside_step || by apply beside_chanfree).
Qed.

Lemma beside_cclose c : beside (cclose c).
Proof. unfold cclose. apply beside_bind; [by apply beside_gets|]. intros n. apply beside_cclose_rec. Qed.
End Beside.

(** ** Lists of [Mount]s *)

(** What a [Mount] says. *)
Record mval := MVal { v_to : Z; v_flag : Z; v_spec : option (list Z) }.

Definition mval_of (mo : Mount) : mval := MVal (mt_to mo) (mt_flag mo) (mt_spec mo).

(** The [Mount] at the address [a], if it is one of the mount point [m], and the next one. *)
Definition mnode (s : kst) (m a : Z) : option (mval * Z) :=
  match mounts s !! a with
  | Some mo => if decide (mt_head mo = m) then Some (mval_of mo, mt_next mo) else None
  | None => None
  end.

Record mlist (s : kst) (m : Z) (l : list (Z * mval)) : Prop := {
  ml_seg : seg (mnode s m) l 0;
  ml_nodup : NoDup l.*1 }.

Lemma mnode_some s m a v n : mnode s m a = Some (v, n) <->
  exists mo, mounts s !! a = Some mo /\ mt_head mo = m /\ mval_of mo = v /\ mt_next mo = n.
Proof.
  unfold mnode. destruct (mounts s !! a) as [mo|]; [|split; [done|by intros (? & ? & _)]].
  case_decide; split; try done.
  - intros [= <- <-]. by exists mo.
  - by intros (mo' & [= <-] & _ & <- & <-).
  - by intros (mo' & [= <-] & ? & _).
Qed.

Lemma mlist_nil s m : mlist s m [].
Proof. split; [done|constructor]. Qed.

Lemma mlist_cons s m a v l : mlist s m ((a, v) :: l) <->
  a <> 0 /\ mnode s m a = Some (v, hd_or l 0) /\ (a ∉ l.*1) /\ mlist s m l.
Proof.
  split; [intros [(? & ? & ?) [? ?]%list.NoDup_cons]; by split_and!|]. intros (? & ? & ? & [? ?]). split; [done|].
  by apply list.NoDup_cons.
Qed.

(** The id of a [Mount] and what [pgrpcpy] notes in it are not part of what it says. *)
Definition same_mount (mo mo' : Mount) : Prop :=
  mo' = set_mt_id (mt_id mo') (set_mt_copy (mt_copy mo') (set_mt_order (mt_order mo') mo)).

Lemma same_mount_refl mo : same_mount mo mo.
Proof. by destruct mo. Qed.

Lemma same_mount_trans m1 m2 m3 : same_mount m1 m2 -> same_mount m2 m3 -> same_mount m1 m3.
Proof. unfold same_mount. intros -> ->. by destruct m1. Qed.

Lemma mlist_like s s' m l :
  (forall a mo, a ∈ l.*1 -> mounts s !! a = Some mo -> exists mo', mounts s' !! a = Some mo' /\ same_mount mo mo') ->
  mlist s m l -> mlist s' m l.
Proof.
  intros H [Hs Hd]. split; [|done]. eapply seg_ext; [|exact Hs]. intros a Ha.
  destruct (seg_in _ _ _ _ Hs Ha) as (_ & x & Hx). rewrite Hx. destruct x as [v n].
  apply mnode_some in Hx as (mo & Hmo & Hh & Hv & Hn). apply mnode_some. destruct (H a mo Ha Hmo) as (mo' & Hmo' & E).
  exists mo'. rewrite Hmo', E. by split_and!.
Qed.

Lemma mlist_ext s s' m l : (forall a mo, a ∈ l.*1 -> mounts s !! a = Some mo -> mounts s' !! a = Some mo) ->
  mlist s m l -> mlist s' m l.
Proof.
  intros H. apply mlist_like. intros a mo Ha Hmo. exists mo. split; [by apply H|apply same_mount_refl].
Qed.

Lemma mlist_same s s' m l : mounts s' = mounts s -> mlist s m l -> mlist s' m l.
Proof. intros E. apply mlist_ext. intros a mo _. by rewrite E. Qed.

Lemma mlist_in s m l a : mlist s m l -> a ∈ l.*1 -> exists mo, mounts s !! a = Some mo /\ mt_head mo = m.
Proof.
  intros [Hs _] Ha. destruct (seg_in _ _ _ _ Hs Ha) as (_ & [v n] & Hx).
  apply mnode_some in Hx as (mo & ? & ? & _). eauto.
Qed.

Lemma mlist_size s m l : mlist s m l -> (length l <= size (mounts s))%nat.
Proof.
  intros [Hs Hd]. eapply (seg_size (mounts s)); [done|done|]. intros a [[v n] (mo & ? & _)%mnode_some]. by eexists.
Qed.

Lemma mlist_below s A ext m l a : rc s A ext -> mlist s m l -> a ∈ l.*1 -> 0 < a < brk s.
Proof.
  intros I Hl Ha. destruct (mlist_in _ _ _ _ Hl Ha) as (mo & Hmo & _).
  by apply (proj1 (proj2 (proj2 (rc_addr _ _ _ I))) a mo).
Qed.

Lemma hd_or_in (l : list (Z * mval)) e : l <> [] -> hd_or l e ∈ l.*1.
Proof. destruct l as [|[a v] l]; [done|]. intros _. by left. Qed.

Section Mounts.
Context {R : Type}.

Lemma mtget_go a s mo : mounts s !! a = Some mo -> mtget (R := R) a s = (Go mo, s).
Proof. intros H. unfold mtget, look. by rewrite H. Qed.

Lemma mtset_go a g s mo : mounts s !! a = Some mo ->
  mtset (R := R) a g s = (Go tt, set_mounts (<[a := g mo]> (mounts s)) s).
Proof. intros H. unfold mtset, put. by rewrite H. Qed.

Lemma mhget_go a s mo : mheads s !! a = Some mo -> mhget (R := R) a s = (Go mo, s).
Proof. intros H. unfold mhget, look. by rewrite H. Qed.

Lemma mhset_go a g s mo : mheads s !! a = Some mo ->
  mhset (R := R) a g s = (Go tt, set_mheads (<[a := g mo]> (mheads s)) s).
Proof. intros H. unfold mhset, put. by rewrite H. Qed.

Lemma chget_go a s co : chans s !! a = Some co -> chget (R := R) a s = (Go co, s).
Proof. intros H. unfold chget, look. by rewrite H. Qed.

(** The id of the next [Mount]. *)
Definition next_id (s : kst) : Z := s32 (mountid s + 1).

Lemma newmount_ok s A ext m to flag spec k : rc s A ext -> 0 < ext (RChan to) \/ 0 < refs s A (RChan to) ->
  room s (k + 1) -> 0 <= k ->
  exists s', newmount (R := R) m to flag spec s = (Go (brk s), s') /\ rc s' A ext /\ keepm A s s' /\
    mounts s' = <[brk s := MkMount (u32 (next_id s)) 0 m 0 0 to flag spec]> (mounts s) /\
    mountid s' = next_id s /\ brk s' = brk s + 1 /\ mheads s' = mheads s /\ room s' k.
Proof.
  intros I Hto Rm Hk. destruct (incref_room (R := R) s A ext (RChan to) k I Hto Rm Hk) as (n & Hn & E & I1 & Rm1 & _).
  set (mo := MkMount (u32 (next_id s)) 0 m 0 0 to flag spec).
  set (s1 := set_rcount (RChan to) (n + 1) s) in *.
  set (s2 := set_mounts (<[brk s := mo]> (mounts s1)) (set_brk (brk s1 + 1) s1)).
  exists (set_mountid (next_id s) s2). split_and!; try done.
  - unfold newmount, smalloc. unfold cbind at 1.
    set (F := fun x => set_mounts (<[brk s := MkMount 0 0 m 0 0 to 0 None]> (mounts s)) (set_brk (brk s + 1) x)).
    change (set_mounts _ (set_brk _ s)) with (F s).
    rewrite (cbind_go _ _ _ _ _ (incref_frame F to s (n + 1) s1 ltac:(done) E)).
    unfold incref_. unfold cbind at 1. change (s32 (mountid (F s1) + 1)) with (next_id s).
    assert (mounts (set_mountid (next_id s) (F s1)) !! brk s = Some (MkMount 0 0 m 0 0 to 0 None)) as Hb
      by (cbn; by rewrite lookup_insert_eq).
    rewrite (cbind_go _ _ _ _ _ (mtset_go (brk s) _ _ _ Hb)).
    unfold cret. do 2 f_equal. cbn. by rewrite insert_insert_eq.
  - assert (rc s2 A ext) as I2.
    { apply (rc_new_mount s1 A _ ext mo I1); [|apply I]. intros r. unfold hold. change (out_mount mo) with [RChan to].
      rewrite occ_one. case_decide; lia. }
    apply (rc_same s2); [exact I2|..]; try done.
  - pose proof (keepm_refl A s) as G. constructor; try apply G.
    + intros d do Hd. destruct (recounted_keeps A s s1 (recounted_set to (n + 1) s)) as [_ _ _ _ G' _ _]. by apply (G' d).
    + cbn. lia.
Qed.

(** [mountfree]: the list goes, with what it refers to. *)
Lemma mountfree_loop_ok m l : forall fuel s A ext, rc s A ext -> mlist s m l -> (length l < fuel)%nat ->
  exists s', mountfree_loop (R := R) fuel (hd_or l 0) s = (Go tt, s') /\ rc s' A ext /\ keepm A s s' /\
    mounts s' = foldr delete (mounts s) l.*1 /\ mountid s' = mountid s /\ brk s' = brk s /\
    (forall k, room s k -> room s' k).
Proof.
  induction l as [|[a v] l IH]; intros [|fuel] s A ext I Hl Hf; try (cbn in Hf; lia).
  { exists s. split_and!; try done. apply keepm_refl. }
  apply mlist_cons in Hl as (Ha & Hn & Hni & Hl). apply mnode_some in Hn as (mo & Hmo & Hh & Hv & Hn).
  cbn [hd_or mountfree_loop]. rewrite decide_False by done. rewrite (cbind_go _ _ _ _ _ (mtget_go _ _ _ Hmo)).
  set (s0 := set_mounts (delete a (mounts s)) s).
  assert (rc s0 A (fun r => ext r + occ r (out_mount mo))) as I0 by (by apply (rc_del_mount s A ext _ a mo)).
  destruct (cclose_ok (R := R) s0 A _ (mt_to mo) I0) as (s1 & E1 & I1 & C1).
  { intros r. pose proof (rc_ext _ _ _ I r). change (out_mount mo) with [RChan (mt_to mo)]. lia. }
  assert (rc s1 A ext) as I1'.
  { eapply rc_hold; [|exact I1]. intros r. unfold less. change (out_mount mo) with [RChan (mt_to mo)]. lia. }
  pose proof (beside_cclose (mounts s) (mt_to mo) _ _ _ E1) as E1'.
  assert (set_mounts (mounts s) s0 = s) as Hs0 by (by destruct s). rewrite Hs0 in E1'.
  rewrite (cbind_go _ _ _ _ _ E1').
  assert (mounts (set_mounts (mounts s) s1) !! a = Some mo) as Hmo' by done.
  rewrite (cbind_go _ _ _ _ _ (mtset_go a _ _ mo Hmo')).
  unfold free. unfold cbind at 1. cbn [mounts set_mounts]. rewrite lookup_insert_eq.
  assert (set_mounts (delete a (<[a := set_mt_id 0 mo]> (mounts s)))
    (set_mounts (<[a := set_mt_id 0 mo]> (mounts s)) (set_mounts (mounts s) s1)) = s1) as ->.
  { pose proof (cl_mounts _ _ _ C1) as Hm. cbn in Hm. rewrite delete_insert_eq, <- Hm. by destruct s1. }
  assert (keepm A s s1) as K1.
  { eapply keepm_trans; [apply (keepm_mounts A s (delete a (mounts s)))|]. by eapply keeps_keepm, closing_keeps. }
  rewrite Hn. destruct (IH fuel s1 A ext I1') as (s' & E & I' & K' & Hm & Hid & Hb & Hr).
  { eapply mlist_ext; [|exact Hl]. intros b bo Hb. rewrite (cl_mounts _ _ _ C1). cbn.
    rewrite lookup_delete_ne; [done|]. by intros ->. }
  { cbn in Hf. lia. }
  exists s'. split_and!; try done.
  - by eapply keepm_trans.
  - rewrite Hm, (cl_mounts _ _ _ C1). cbn. clear. induction l.*1 as [|b r IH]; cbn; [done|].
    rewrite IH. apply delete_delete.
  - by rewrite Hid, (cl_mountid _ _ _ C1).
  - by rewrite Hb, (cl_brk _ _ _ C1).
  - intros k Rm. apply Hr. eapply room_closing; [exact C1|]. by apply (room_same s).
Qed.

Lemma mountfree_ok s A ext m l : rc s A ext -> mlist s m l ->
  exists s', mountfree (R := R) (hd_or l 0) s = (Go tt, s') /\ rc s' A ext /\ keepm A s s' /\
    mounts s' = foldr delete (mounts s) l.*1 /\ mountid s' = mountid s /\ brk s' = brk s /\
    (forall k, room s k -> room s' k).
Proof.
  intros I Hl. unfold mountfree, mfuel. unfold cbind, cgets. apply (mountfree_loop_ok m); [done..|].
  pose proof (mlist_size _ _ _ Hl). lia.
Qed.

(** The last one of a list. *)
Lemma last_mount_ok m l a v : forall fuel s, mlist s m (l ++ [(a, v)]) -> (length l < fuel)%nat ->
  last_mount (R := R) fuel (hd_or (l ++ [(a, v)]) 0) s = (Go a, s).
Proof.
  induction l as [|[b w] l IH]; intros [|fuel] s Hl Hf; try (cbn in Hf; lia).
  - apply mlist_cons in Hl as (Ha & (mo & Hmo & _ & _ & Hn)%mnode_some & _). cbn [app hd_or last_mount].
    rewrite (cbind_go _ _ _ _ _ (mtget_go _ _ _ Hmo)). cbn in Hn. rewrite Hn. by rewrite decide_True.
  - cbn [app] in *. apply mlist_cons in Hl as (Hb & (mo & Hmo & _ & _ & Hn)%mnode_some & _ & Hl). cbn [hd_or last_mount].
    rewrite (cbind_go _ _ _ _ _ (mtget_go _ _ _ Hmo)). rewrite Hn.
    rewrite decide_False; [apply IH; [done|cbn in Hf; lia]|].
    destruct l as [|[c w'] l]; apply mlist_cons in Hl; apply Hl.
Qed.
End Mounts.

(** ** Copies of lists *)

(** A new [Mount] goes behind [prev], the last one. *)
Lemma keep_mounts_relink s s' p po x : mounts s !! p = Some po -> mounts s' = <[p := set_mt_next x po]> (mounts s) ->
  forall b bo, b <> p -> mounts s !! b = Some bo -> mounts s' !! b = Some bo.
Proof. intros Hp -> b bo Hb Hbo. by rewrite lookup_insert_ne. Qed.

(** What [l] says, as copies with the flag [flg] of what is mounted. *)
Definition copies (flg : Z) (l l' : list (Z * mval)) : Prop :=
  Forall2 (fun x y => v_to y.2 = v_to x.2 /\ v_spec y.2 = v_spec x.2 /\ v_flag y.2 = flg) l l'.

Section CopyUnion.
Context {R : Type}.

Lemma copy_union_ok m u flg A ext l : forall fuel s prev po k, rc s A ext -> mlist s u l -> (length l < fuel)%nat ->
  mounts s !! prev = Some po -> mt_next po = 0 -> (prev ∉ l.*1) -> room s (zlen l + k) -> 0 <= k ->
  exists s' l', copy_union (R := R) fuel m (hd_or l 0) prev flg s = (Go tt, s') /\ rc s' A ext /\ keepm A s s' /\
    mlist s' m l' /\ copies flg l l' /\ mounts s' !! prev = Some (set_mt_next (hd_or l' 0) po) /\
    (forall a mo, a <> prev -> mounts s !! a = Some mo -> mounts s' !! a = Some mo) /\
    Forall (fun a => brk s <= a) l'.*1 /\ mheads s' = mheads s /\ room s' k.
Proof.
  induction l as [|[a v] l IH]; intros [|fuel] s prev po k I Hl Hf Hp Hpn Hpl Rm Hk; try (cbn in Hf; lia).
  { exists s, []. split_and!; try done; try apply keepm_refl; try apply mlist_nil; try by constructor.
    rewrite Hp. cbn. f_equal. destruct po; cbn in *; by subst. }
  apply mlist_cons in Hl as (Ha & (uo & Huo & Hh & Hv & Hn)%mnode_some & Hni & Hl).
  cbn [hd_or copy_union]. rewrite decide_False by done. rewrite (cbind_go _ _ _ _ _ (mtget_go _ _ _ Huo)).
  rewrite zlen_cons in Rm. pose proof (zlen_nonneg l).
  destruct (newmount_ok (R := R) s A ext m (mt_to uo) flg (mt_spec uo) (zlen l + k) I) as (s1 & E1 & I1 & K1 & M1 & Id1 & B1 & H1 & Rm1).
  { right. by apply (refs_mount s A a). }
  { by replace (zlen l + k + 1) with (1 + zlen l + k) by lia. }
  { lia. }
  rewrite (cbind_go _ _ _ _ _ E1).
  pose proof (proj1 (proj2 (proj2 (rc_addr _ _ _ I)))) as Hbl.
  assert (prev <> brk s) as Hpb by (specialize (Hbl _ _ Hp); lia).
  assert (a <> brk s) as Hab by (specialize (Hbl _ _ Huo); lia).
  assert (a <> prev) as Hap by (intros ->; apply Hpl; by left).
  assert (mounts s1 !! prev = Some po) as Hp1 by (by rewrite M1, lookup_insert_ne).
  rewrite (cbind_go _ _ _ _ _ (mtset_go _ _ _ _ Hp1)).
  set (s2 := set_mounts (<[prev := set_mt_next (brk s) po]> (mounts s1)) s1).
  assert (rc s2 A ext) as I2 by (by apply (rc_upd_mount s1 A ext prev po)).
  assert (forall b bo, b <> prev -> mounts s !! b = Some bo -> mounts s2 !! b = Some bo) as Keep.
  { intros b bo Hb Hbo. unfold s2. cbn. rewrite lookup_insert_ne, M1, lookup_insert_ne; [done| |done].
    specialize (Hbl _ _ Hbo). lia. }
  assert (mounts s2 !! a = Some uo) as Ha2 by (by apply Keep).
  rewrite (cbind_go _ _ _ _ _ (mtget_go _ _ _ Ha2)). rewrite Hn.
  set (no := MkMount (u32 (next_id s)) 0 m 0 0 (mt_to uo) flg (mt_spec uo)).
  assert (mounts s2 !! brk s = Some no) as Hno by (unfold s2; cbn; by rewrite lookup_insert_ne, M1, lookup_insert_eq).
  destruct (IH fuel s2 (brk s) no k I2) as (s' & l' & E & I' & K' & Hl' & Hc & Hb' & Keep' & Fa & Hm' & Rm'); try done.
  { eapply mlist_ext; [|exact Hl]. intros b bo Hb. apply Keep. intros ->. apply Hpl. by right. }
  { cbn in Hf. lia. }
  { intros Hin. pose proof (mlist_below s A ext u l _ I Hl Hin). lia. }
  exists s', ((brk s, mval_of no) :: l'). split_and!; try done.
  - eapply keepm_trans; [exact K1|]. eapply keepm_trans; [apply (keepm_mounts A s1)|exact K'].
  - apply mlist_cons. split_and!; [|..|done].
    + pose proof (rc_brk _ _ _ I). lia.
    + apply mnode_some. by eexists.
    + intros Hin. rewrite list.Forall_forall in Fa. specialize (Fa _ Hin). change (brk s2) with (brk s1) in Fa. lia.
  - constructor; [|done]. by rewrite <- Hv.
  - cbn [hd_or]. rewrite (Keep' prev (set_mt_next (brk s) po)); [done|done|]. unfold s2. cbn. by rewrite lookup_insert_eq.
  - intros b bo Hb Hbo. apply Keep'; [|by apply Keep]. specialize (Hbl _ _ Hbo). lia.
  - constructor; [cbn; lia|]. eapply List.Forall_impl; [|exact Fa]. intros x. change (brk s2) with (brk s1). cbn. lia.
  - by rewrite Hm', <- H1.
Qed.
End CopyUnion.

(** ** The tables of the groups *)

(** A mount point: its channel, what that stands for, and what is mounted there. *)
Abbreviation nskey := (Z * Z * Z)%type.
Record mhval := MHVal { hv_from : Z; hv_key : nskey; hv_mounts : list (Z * mval) }.

Definition key_of (co : Chan) : nskey := (c_type co, c_dev co, q_path (c_qid co)).

(** Chains of mount points with their addresses; a table is a list of chains. *)
Abbreviation chain := (list (Z * mhval)).
Abbreviation tab := (list (list (Z * mhval))).
Definition heads (T : tab) : list Z := (concat T).*1.

Definition hnode (s : kst) (m : Z) : option (Z * Z) := (fun mo => (mh_from mo, mh_hash mo)) <$> mheads s !! m.
Definition hnodes (ch : chain) : list (Z * Z) := (fun x => (x.1, hv_from x.2)) <$> ch.

(** The mount point [m], which is in the chain [i]. *)
Record mhead_ok (s : kst) (i : Z) (m : Z) (v : mhval) : Prop := {
  mk_list : mlist s m (hv_mounts v);
  mk_first : exists mo, mheads s !! m = Some mo /\ mh_mount mo = hd_or (hv_mounts v) 0;
  mk_chan : exists co, chans s !! hv_from v = Some co /\ key_of co = hv_key v;
  mk_index : MOUNTH (hv_key v).2 = i }.

Definition chain_ok (s : kst) (i : Z) (h : Z) (ch : chain) : Prop :=
  h = hd_or (hnodes ch) 0 /\ seg (hnode s) (hnodes ch) 0 /\ Forall (fun x => mhead_ok s i x.1 x.2) ch.

Definition table (s : kst) (g : Z) (T : tab) : Prop :=
  exists go, pgrps s !! g = Some go /\ length T = Z.to_nat MNTHASH /\ length (pg_mnthash go) = Z.to_nat MNTHASH /\
    forall i ch, T !! i = Some ch -> exists h, pg_mnthash go !! i = Some h /\ chain_ok s (Z.of_nat i) h ch.

(** The tables [L] of the groups. [A] are the mount points in the tables; those that are
    nowhere, but for [X], have nothing mounted. *)
Record ns (s : kst) (A X : gset Z) (L : gmap Z tab) : Prop := {
  ns_att m : m ∈ A <-> exists g T, L !! g = Some T /\ m ∈ heads T;
  ns_nodup g T : L !! g = Some T -> NoDup (heads T);
  ns_disj g g' T T' m : L !! g = Some T -> L !! g' = Some T' -> m ∈ heads T -> m ∈ heads T' -> g = g';
  ns_keys g T : L !! g = Some T -> NoDup (hv_key <$> (concat T).*2);
  ns_table g T : L !! g = Some T -> table s g T;
  ns_det m mo : mheads s !! m = Some mo -> m ∉ A -> m ∉ X -> mh_mount mo = 0 }.
