(* ===== verification/TableSpec.v ===== *)
(** The hash tables of mount points: changes of one chain, of what is mounted at one mount
    point, and what they mean for the name space. *)

From S2P Require Import Prelude Mem Links Sums Fcall9P Chan ChanSpec Mount MountSpec.

(** ** The name space: what is mounted on each file *)

Abbreviation ment := (Z * Z * option (list Z))%type.
Definition ment_of (v : mval) : ment := (v_to v, v_flag v, v_spec v).
Definition entry (x : Z * mhval) : nskey * list ment := (hv_key x.2, ment_of <$> (hv_mounts x.2).*2).
Definition nsm (l : chain) : gmap nskey (list ment) := list_to_map (entry <$> l).
Definition nsmap (T : tab) : gmap nskey (list ment) := nsm (concat T).

Lemma entry_keys l : (entry <$> l).*1 = hv_key <$> l.*2.
Proof. rewrite <- !list_fmap_compose. done. Qed.

Lemma nsm_mid (a : chain) x b : NoDup (hv_key <$> (a ++ x :: b).*2) ->
  nsm (a ++ x :: b) = <[hv_key x.2 := ment_of <$> (hv_mounts x.2).*2]> (nsm (a ++ b)).
Proof.
  intros H. unfold nsm. rewrite <- entry_keys in H.
  rewrite (list_to_map_proper (entry <$> a ++ x :: b) (entry x :: (entry <$> (a ++ b))) H); [done|].
  rewrite <- (fmap_cons entry). apply fmap_Permutation. by rewrite Permutation_middle.
Qed.

Lemma keys_mid (a : chain) x b : NoDup (hv_key <$> (a ++ x :: b).*2) <->
  (hv_key x.2 ∉ hv_key <$> (a ++ b).*2) /\ NoDup (hv_key <$> (a ++ b).*2).
Proof.
  rewrite <- list.NoDup_cons. assert (a ++ x :: b ≡ₚ x :: a ++ b) as -> by (by rewrite Permutation_middle). done.
Qed.

Lemma heads_mid (a b : chain) x : NoDup (a ++ x :: b).*1 <-> (x.1 ∉ (a ++ b).*1) /\ NoDup (a ++ b).*1.
Proof.
  rewrite <- list.NoDup_cons. assert (a ++ x :: b ≡ₚ x :: a ++ b) as -> by (by rewrite Permutation_middle). done.
Qed.

Lemma nsm_none (l : chain) k : k ∉ hv_key <$> l.*2 -> nsm l !! k = None.
Proof. intros H. apply not_elem_of_list_to_map. by rewrite entry_keys. Qed.

Lemma nsm_in (l : chain) x : NoDup (hv_key <$> l.*2) -> x ∈ l -> nsm l !! hv_key x.2 = Some (ment_of <$> (hv_mounts x.2).*2).
Proof.
  intros Hd Hx. apply elem_of_list_to_map; [by rewrite entry_keys|]. change (entry x ∈ entry <$> l).
  by apply list_elem_of_fmap_2.
Qed.

Lemma nsm_remove (a : chain) x b : NoDup (hv_key <$> (a ++ x :: b).*2) -> nsm (a ++ b) = delete (hv_key x.2) (nsm (a ++ x :: b)).
Proof.
  intros H. rewrite nsm_mid by done. apply keys_mid in H as [H _]. rewrite delete_insert_id; [done|]. by apply nsm_none.
Qed.

Lemma nsm_relist (a : chain) m v b l : NoDup (hv_key <$> (a ++ (m, v) :: b).*2) ->
  nsm (a ++ (m, MHVal (hv_from v) (hv_key v) l) :: b) = <[hv_key v := ment_of <$> l.*2]> (nsm (a ++ (m, v) :: b)).
Proof.
  intros H. rewrite (nsm_mid a (m, v)) by done. cbn [snd]. rewrite insert_insert_eq.
  apply (nsm_mid a (m, MHVal (hv_from v) (hv_key v) l)).
  by apply (keys_mid a (m, MHVal (hv_from v) (hv_key v) l)), (keys_mid a (m, v)).
Qed.

(** One chain of a table changes. *)
Lemma concat_mid {V} (T : list (list V)) i ch1 mid ch2 : T !! i = Some (ch1 ++ mid ++ ch2) ->
  exists a b, concat T = a ++ mid ++ b /\ forall mid', concat (<[i := ch1 ++ mid' ++ ch2]> T) = a ++ mid' ++ b.
Proof.
  intros H. exists (concat (take i T) ++ ch1), (ch2 ++ concat (drop (S i) T)). split.
  - rewrite <- (take_drop_middle T i _ H) at 1. rewrite concat_app. cbn. by rewrite !app_assoc.
  - intros mid'. assert (i < length T)%nat by (by eapply lookup_lt_Some).
    rewrite insert_take_drop by done. rewrite concat_app. cbn. by rewrite !app_assoc.
Qed.

(** ** Chains and tables when other things change *)

Definition same_at (s s' : kst) (m : Z) : Prop :=
  (forall mo, mheads s !! m = Some mo -> exists n, mheads s' !! m = Some (set_mh_ref n mo)) /\
  (forall a mo, mounts s !! a = Some mo -> mt_head mo = m -> exists mo', mounts s' !! a = Some mo' /\ same_mount mo mo').

Lemma same_at_eq s s' m : (forall mo, mheads s !! m = Some mo -> exists n, mheads s' !! m = Some (set_mh_ref n mo)) ->
  (forall a mo, mounts s !! a = Some mo -> mt_head mo = m -> mounts s' !! a = Some mo) -> same_at s s' m.
Proof. intros H1 H2. split; [done|]. intros a mo Ha Hm. exists mo. split; [by apply H2|apply same_mount_refl]. Qed.

Lemma same_at_refl s m : same_at s s m.
Proof. apply same_at_eq; [|done]. intros mo Hmo. exists (mh_ref mo). by rewrite set_mh_ref_id. Qed.

Definition idents (s s' : kst) : Prop :=
  forall c co, chans s !! c = Some co -> exists co', chans s' !! c = Some co' /\ same_ident co co'.

Lemma same_ident_key co co' : same_ident co co' -> key_of co' = key_of co.
Proof. intros (E1 & E2 & E3). unfold key_of. by rewrite E1, E2, E3. Qed.

Lemma idents_key s s' c k : idents s s' -> (exists co, chans s !! c = Some co /\ key_of co = k) ->
  exists co, chans s' !! c = Some co /\ key_of co = k.
Proof. intros H (co & Hc & <-). destruct (H c co Hc) as (co' & ? & ?). exists co'. by rewrite (same_ident_key co co'). Qed.

Lemma mhead_ok_same s s' i m v : mhead_ok s i m v -> idents s s' -> same_at s s' m -> mhead_ok s' i m v.
Proof.
  intros [Hl (mo & Hmo & Hf) Hc Hi] Hid [H1 H2]. constructor; try done.
  - eapply mlist_like; [|exact Hl]. intros a ao Ha Hao. apply H2; [done|].
    destruct (mlist_in _ _ _ _ Hl Ha) as (ao' & Hao' & <-). congruence.
  - destruct (H1 mo Hmo) as (n & E). by exists (set_mh_ref n mo).
  - by eapply idents_key.
Qed.

Lemma hnode_same s s' m : is_Some (mheads s !! m) -> same_at s s' m -> hnode s' m = hnode s m.
Proof. intros [mo Hmo] [H1 _]. destruct (H1 mo Hmo) as (n & E). unfold hnode. by rewrite E, Hmo. Qed.

Lemma hnodes_fst ch : (hnodes ch).*1 = ch.*1.
Proof. unfold hnodes. by rewrite <- list_fmap_compose. Qed.

Lemma hnodes_app a b : hnodes (a ++ b) = hnodes a ++ hnodes b.
Proof. apply fmap_app. Qed.

Lemma hseg_same s s' l e : seg (hnode s) l e -> (forall m, m ∈ l.*1 -> same_at s s' m) -> seg (hnode s') l e.
Proof.
  intros H Hs. eapply seg_ext; [|exact H]. intros m Hm. apply hnode_same; [|by apply Hs].
  destruct (seg_in _ _ _ _ H Hm) as (_ & x & Hx). unfold hnode in Hx. destruct (mheads s !! m); [by eexists|done].
Qed.

(** A part of a chain, which leads to [e]. *)
Definition part_ok (s : kst) (i : Z) (ch : chain) (e : Z) : Prop :=
  seg (hnode s) (hnodes ch) e /\ Forall (fun x => mhead_ok s i x.1 x.2) ch.

Lemma part_app s i a b e : part_ok s i (a ++ b) e <-> part_ok s i a (hd_or (hnodes b) e) /\ part_ok s i b e.
Proof. unfold part_ok. rewrite hnodes_app, seg_app, list.Forall_app. tauto. Qed.

Lemma part_cons s i m v b e : part_ok s i ((m, v) :: b) e <->
  (m <> 0 /\ hnode s m = Some (hv_from v, hd_or (hnodes b) e) /\ mhead_ok s i m v) /\ part_ok s i b e.
Proof. unfold part_ok. cbn. rewrite list.Forall_cons. tauto. Qed.

Lemma part_same s s' i ch e : part_ok s i ch e -> idents s s' -> (forall m, m ∈ ch.*1 -> same_at s s' m) -> part_ok s' i ch e.
Proof.
  intros (Hs & Hf) Hid H. split.
  - eapply hseg_same; [done|]. intros m. rewrite hnodes_fst. apply H.
  - rewrite list.Forall_forall in *. intros x Hx. apply (mhead_ok_same s); [by apply Hf|done|].
    apply H. by apply list_elem_of_fmap_2.
Qed.

Lemma chain_ok_same s s' i h ch : chain_ok s i h ch -> idents s s' -> (forall m, m ∈ ch.*1 -> same_at s s' m) ->
  chain_ok s' i h ch.
Proof. intros (-> & H) Hid Hs. split; [done|]. by apply (part_same s). Qed.

Lemma in_heads T i ch m : T !! i = Some ch -> m ∈ ch.*1 -> m ∈ heads T.
Proof.
  intros Hi (x & -> & Hx)%list_elem_of_fmap. apply list_elem_of_fmap_2. apply list_elem_of_In, in_concat.
  exists ch. split; apply list_elem_of_In; [by eapply list_elem_of_lookup_2|done].
Qed.

Lemma table_same s s' g T : table s g T -> idents s s' -> pgrps s' !! g = pgrps s !! g ->
  (forall m, m ∈ heads T -> same_at s s' m) -> table s' g T.
Proof.
  intros (go & Hg & HT & Hl & H) Hid Hp Hs. exists go. split_and!; [by rewrite Hp|done..|].
  intros i ch Hi. destruct (H i ch Hi) as (h & Hh & Hc). exists h. split; [done|].
  eapply chain_ok_same; [done..|]. intros m Hm. apply Hs. by eapply in_heads.
Qed.

(** The chain [i] of a table changes. *)
Lemma table_change s s' g T i ch' h' go' : table s g T -> idents s s' -> (i < length T)%nat ->
  pgrps s' !! g = Some go' -> length (pg_mnthash go') = Z.to_nat MNTHASH ->
  (forall j go, j <> i -> pgrps s !! g = Some go -> pg_mnthash go' !! j = pg_mnthash go !! j) ->
  pg_mnthash go' !! i = Some h' -> chain_ok s' (Z.of_nat i) h' ch' ->
  (forall j ch m, j <> i -> T !! j = Some ch -> m ∈ ch.*1 -> same_at s s' m) ->
  table s' g (<[i := ch']> T).
Proof.
  intros (go & Hg & HT & Hl & H) Hid Hi Hg' Hl' Hj Hh' Hc' Hs. exists go'. split_and!; [done|by rewrite length_insert|done|].
  intros j ch Hch. destruct (decide (j = i)) as [->|Hne].
  - rewrite list_lookup_insert_eq in Hch by done. injection Hch as <-. by exists h'.
  - rewrite list_lookup_insert_ne in Hch by done. destruct (H j ch Hch) as (h & Hh & Hc). exists h.
    split; [by rewrite (Hj j go)|]. eapply chain_ok_same; [done..|]. intros m. by apply (Hs j ch).
Qed.

(** ** Changes of the tables *)

(** All but the mount points of [P] is as it was. *)
Record rest (A P : gset Z) (s s' : kst) : Prop := {
  rs_same m : m ∈ A -> m ∉ P -> same_at s s' m;
  rs_back m mo' : m ∉ P -> mheads s' !! m = Some mo' -> exists mo, mheads s !! m = Some mo /\ mh_mount mo' = mh_mount mo;
  rs_idents : idents s s' }.

Lemma keepm_rest A P s s' : keepm A s s' ->
  (forall a mo, mounts s !! a = Some mo -> mt_head mo ∈ A -> mt_head mo ∉ P -> mounts s' !! a = Some mo) -> rest A P s s'.
Proof.
  intros K H. constructor.
  - intros m Hm HP. apply same_at_eq; [intros mo; by apply (km_mheads _ _ _ K)|]. intros a mo Ha <-. by apply H.
  - intros m mo' _ Hm. destruct (km_back _ _ _ K m mo' Hm) as (mo & ? & ->). by exists mo.
  - intros c co. apply (km_chans _ _ _ K).
Qed.

Lemma ns_table_in s A X L g T m : ns s A X L -> L !! g = Some T -> m ∈ heads T -> m ∈ A.
Proof. intros N Hg Hm. apply (ns_att _ _ _ _ N). eauto. Qed.

(** Nothing changes in the tables. *)
Lemma ns_same s s' A X L : ns s A X L -> rest A X s s' -> A ## X ->
  (forall g T, L !! g = Some T -> pgrps s' !! g = pgrps s !! g) -> ns s' A X L.
Proof.
  intros N K HX Hp. constructor; try apply N.
  - intros g T Hg. apply (table_same s); [by apply (ns_table _ _ _ _ N)|apply K|by apply (Hp g T)|].
    intros m Hm. assert (m ∈ A) by (by eapply ns_table_in). apply (rs_same _ _ _ _ K); [done|]. intros Hx. by apply (HX m).
  - intros m mo' Hm Ha Hx. destruct (rs_back _ _ _ _ K m mo' Hx Hm) as (mo & Hmo & ->). by apply (ns_det _ _ _ _ N m).
Qed.

Lemma heads_split (T : tab) i ch1 m v ch2 : T !! i = Some (ch1 ++ (m, v) :: ch2) -> NoDup (heads T) ->
  (forall j ch, j <> i -> T !! j = Some ch -> m ∉ ch.*1) /\ (m ∉ ch1.*1) /\ (m ∉ ch2.*1).
Proof.
  intros Hi Hd. pose proof (take_drop_middle T i _ Hi) as E. unfold heads in Hd. rewrite <- E in Hd.
  rewrite concat_app in Hd. cbn in Hd. rewrite <- (app_assoc ch1), fmap_app, fmap_app in Hd. cbn in Hd.
  apply list.NoDup_app in Hd as (H1 & H2 & H3). apply list.NoDup_app in H3 as (H4 & H5 & H6).
  apply list.NoDup_cons in H6 as [H6 _]. rewrite fmap_app in H6. split_and!.
  - intros j ch Hj Hch Hm. destruct (decide (j < i)%nat) as [Hlt|Hge].
    + apply (H2 m); [|rewrite elem_of_app; right; by left]. apply (in_heads (take i T) j ch); [|done].
      by rewrite lookup_take_lt.
    + apply H6. apply elem_of_app. right. apply (in_heads (drop (S i) T) (j - S i) ch); [|done].
      rewrite lookup_drop. by replace (S i + (j - S i))%nat with j by lia.
  - intros Hm. apply (H5 m Hm). by left.
  - intros Hm. apply H6. apply elem_of_app. by left.
Qed.

(** What the pure part of [ns] says of a change of one chain. *)
Record lay (A : gset Z) (L : gmap Z tab) : Prop := {
  ly_att m : m ∈ A <-> exists g T, L !! g = Some T /\ m ∈ heads T;
  ly_nodup g T : L !! g = Some T -> NoDup (heads T);
  ly_disj g g' T T' m : L !! g = Some T -> L !! g' = Some T' -> m ∈ heads T -> m ∈ heads T' -> g = g';
  ly_keys g T : L !! g = Some T -> NoDup (hv_key <$> (concat T).*2) }.

Lemma ns_lay s A X L : ns s A X L -> lay A L.
Proof. intros N. constructor; apply N. Qed.

Lemma lay_ns s A X L : lay A L -> (forall g T, L !! g = Some T -> table s g T) ->
  (forall m mo, mheads s !! m = Some mo -> m ∉ A -> m ∉ X -> mh_mount mo = 0) -> ns s A X L.
Proof. intros [] H1 H2. by constructor. Qed.

Lemma lay_change A A' L g T T' : lay A L -> L !! g = Some T -> NoDup (heads T') -> NoDup (hv_key <$> (concat T').*2) ->
  (forall m, m ∈ heads T' -> m ∈ heads T \/ m ∉ A) ->
  (forall m, m ∈ A' <-> m ∈ heads T' \/ m ∈ A /\ m ∉ heads T) -> lay A' (<[g := T']> L).
Proof.
  intros Y Hg Hn Hk Hnew HA. constructor.
  - intros m. rewrite HA. split.
    + intros [Hm|[Hm Hno]]; [exists g, T'; by rewrite lookup_insert_eq|].
      apply (ly_att _ _ Y) in Hm as (g1 & T1 & Hg1 & Hm). exists g1, T1. rewrite lookup_insert_ne; [done|]. intros ->.
      by rewrite Hg in Hg1; injection Hg1 as ->.
    + intros (g1 & T1 & Hg1 & Hm). destruct (decide (g1 = g)) as [->|Hne].
      * rewrite lookup_insert_eq in Hg1. injection Hg1 as <-. by left.
      * rewrite lookup_insert_ne in Hg1 by done. right. split; [apply (ly_att _ _ Y); eauto|].
        intros Hm'. apply Hne. by apply (ly_disj _ _ Y g1 g T1 T m).
  - intros g1 T1. destruct (decide (g1 = g)) as [->|Hne].
    + rewrite lookup_insert_eq. by intros [= <-].
    + rewrite lookup_insert_ne by done. apply Y.
  - assert (forall g1 T1 m, g1 <> g -> L !! g1 = Some T1 -> m ∈ heads T1 -> m ∈ heads T' -> False) as Hc.
    { intros g1 T1 m Hne Hg1 Hm1 Hm. destruct (Hnew m Hm) as [Ho|Ho].
      - apply Hne. by apply (ly_disj _ _ Y g1 g T1 T m).
      - apply Ho, (ly_att _ _ Y). eauto. }
    intros g1 g2 T1 T2 m. destruct (decide (g1 = g)) as [->|H1], (decide (g2 = g)) as [->|H2]; try done;
      rewrite ?lookup_insert_eq, ?lookup_insert_ne by done; try (by intros; by eapply Y).
    + intros [= <-] Hg2 Hm1 Hm2. exfalso. by apply (Hc g2 T2 m).
    + intros Hg1 [= <-] Hm1 Hm2. exfalso. by apply (Hc g1 T1 m).
  - intros g1 T1. destruct (decide (g1 = g)) as [->|Hne].
    + rewrite lookup_insert_eq. by intros [= <-].
    + rewrite lookup_insert_ne by done. apply Y.
Qed.

(** The other tables. *)
Lemma other_tables s s' A X L g T T' P : ns s A X L -> L !! g = Some T -> rest A P s s' ->
  (forall m, m ∈ P -> m ∈ heads T \/ m ∉ A) -> (forall g1 T1, g1 <> g -> L !! g1 = Some T1 -> pgrps s' !! g1 = pgrps s !! g1) ->
  table s' g T' -> forall g1 T1, <[g := T']> L !! g1 = Some T1 -> table s' g1 T1.
Proof.
  intros N Hg K HP Hp Ht g1 T1. destruct (decide (g1 = g)) as [->|Hne].
  - rewrite lookup_insert_eq. by intros [= <-].
  - rewrite lookup_insert_ne by done. intros Hg1.
    apply (table_same s); [by apply (ns_table _ _ _ _ N)|apply K|by apply (Hp g1 T1)|].
    intros m Hm. pose proof (ns_table_in _ _ _ _ _ _ _ N Hg1 Hm). apply (rs_same _ _ _ _ K); [done|].
    intros [Hm'|?]%HP; [|done]. apply Hne. by apply (ns_disj _ _ _ _ N g1 g T1 T m).
Qed.

(** Some mount points of a table, which nothing else has. *)
Lemma mid_heads (T : tab) i ch1 mid ch2 x : T !! i = Some (ch1 ++ mid ++ ch2) -> x ∈ (ch1 ++ ch2).*1 -> x ∈ heads T.
Proof.
  intros Hi Hx. eapply in_heads; [exact Hi|]. rewrite !fmap_app, !elem_of_app in *. tauto.
Qed.

(** The chain [i] of the table of [g] gets [mid'] for [mid]; [P] are the mount points that
    change. *)
Lemma ns_change s s' A A' X L g T i ch1 mid mid' ch2 h' go' P : ns s A ∅ L -> L !! g = Some T ->
  T !! i = Some (ch1 ++ mid ++ ch2) -> rest A P s s' ->
  (forall m, m ∈ P -> m ∈ (ch1 ++ mid ++ ch2).*1 \/ m ∉ A) ->
  (forall g1, g1 <> g -> pgrps s' !! g1 = pgrps s !! g1) ->
  pgrps s' !! g = Some go' -> length (pg_mnthash go') = Z.to_nat MNTHASH ->
  (forall j go, j <> i -> pgrps s !! g = Some go -> pg_mnthash go' !! j = pg_mnthash go !! j) ->
  pg_mnthash go' !! i = Some h' -> chain_ok s' (Z.of_nat i) h' (ch1 ++ mid' ++ ch2) ->
  let T' := <[i := ch1 ++ mid' ++ ch2]> T in
  NoDup (heads T') -> NoDup (hv_key <$> (concat T').*2) ->
  (forall m, m ∈ mid'.*1 -> m ∈ mid.*1 \/ m ∉ A) ->
  (forall m, m ∈ mid.*1 -> m ∉ mid'.*1 -> m ∈ P) ->
  (forall m, m ∈ A' <-> m ∈ mid'.*1 \/ m ∈ A /\ m ∉ mid.*1) ->
  (forall m mo, mheads s' !! m = Some mo -> m ∈ P -> m ∉ A' -> m ∉ X -> mh_mount mo = 0) ->
  ns s' A' X (<[g := T']> L).
Proof.
  intros N Hg Hi K HP Hp Hg' Hl' Hj Hh' Hc' T' Hnd Hk Hnew Hold HA' Hdet.
  assert (i < length T)%nat as Hlt by (by eapply lookup_lt_Some).
  pose proof (ns_nodup _ _ _ _ N g T Hg) as Hd.
  destruct (concat_mid T i ch1 mid ch2 Hi) as (a & b & E1 & E2). specialize (E2 mid'). fold T' in E2.
  assert (forall m, m ∈ heads T' <-> m ∈ a.*1 \/ m ∈ mid'.*1 \/ m ∈ b.*1) as HT'.
  { intros m. unfold heads. by rewrite E2, !fmap_app, !elem_of_app. }
  assert (forall m, m ∈ heads T <-> m ∈ a.*1 \/ m ∈ mid.*1 \/ m ∈ b.*1) as HT.
  { intros m. unfold heads. by rewrite E1, !fmap_app, !elem_of_app. }
  assert (forall m, m ∈ mid.*1 -> (m ∉ a.*1) /\ (m ∉ b.*1)) as Hmid.
  { intros m Hm. unfold heads in Hd. rewrite E1, !fmap_app in Hd. apply list.NoDup_app in Hd as (_ & H1 & H2).
    apply list.NoDup_app in H2 as (_ & H2 & _). split; [intros Ha; apply (H1 m Ha), elem_of_app; by left|by apply H2]. }
  assert (forall m, m ∈ heads T -> m ∈ A) as HTA by (intros m; by eapply ns_table_in).
  assert (forall m, m ∈ (ch1 ++ mid ++ ch2).*1 -> m ∈ heads T) as Hin by (intros m; by apply (in_heads T i)).
  apply lay_ns.
  - apply (lay_change A A' L g T T'); [by eapply ns_lay|done..| |].
    + intros m. rewrite HT', HT. intros [?|[Hm|?]]; [tauto| |tauto]. destruct (Hnew m Hm); tauto.
    + intros m. rewrite HA', HT', HT. specialize (Hmid m). pose proof (HTA m) as H. rewrite HT in H.
      destruct (decide (m ∈ a.*1)), (decide (m ∈ b.*1)), (decide (m ∈ mid.*1)); tauto.
  - apply (other_tables s s' A ∅ L g T T' P N Hg K); [|by intros; apply Hp|].
    + intros m [Hm|Hm]%HP; [left; by apply Hin|by right].
    + apply (table_change s s' g T i _ h' go'); try done; [by apply (ns_table _ _ _ _ N)|apply K|].
      intros j ch x Hne Hch Hx. assert (x ∈ heads T) as Hxh by (by eapply in_heads).
      apply (rs_same _ _ _ _ K); [by apply HTA|]. intros [Hm|?]%HP; [|by apply HTA in Hxh].
      apply list_elem_of_fmap in Hm as ([x' v] & Ex & Hm). cbn in Ex. subst x'. apply list_elem_of_split in Hm as (c1 & c2 & E).
      rewrite E in Hi. by apply (proj1 (heads_split _ _ _ _ _ _ Hi Hd) j ch).
  - intros m mo Hm Hma Hx0. destruct (decide (m ∈ P)) as [HPm|HPm]; [by apply (Hdet m)|].
    destruct (rs_back _ _ _ _ K m mo HPm Hm) as (mo0 & Hmo0 & ->). apply (ns_det _ _ _ _ N m); [done| |set_solver].
    intros Ha. apply Hma, HA'. destruct (decide (m ∈ mid'.*1)) as [?|Hno]; [by left|right]. split; [done|].
    intros Hmm. by apply HPm, Hold.
Qed.

(** *** The place of a link in a chain *)

Definition loc_of (i : nat) (ch : chain) : hloc :=
  match list.last ch with Some (p, _) => HHash p | None => HTab (Z.of_nat i) end.
Definition pred_of (ch : chain) : gset Z := match list.last ch with Some (p, _) => {[p]} | None => ∅ end.
Definition link_st (g : Z) (i : nat) (ch : chain) (h : Z) (s : kst) : kst :=
  match list.last ch with
  | Some (p, _) => set_mheads (alter (set_mh_hash h) p (mheads s)) s
  | None => set_pgrps (alter (fun po => set_pg_mnthash (<[i := h]> (pg_mnthash po)) po) g (pgrps s)) s
  end.

Lemma pred_in ch x : x ∈ pred_of ch -> x ∈ ch.*1.
Proof.
  unfold pred_of. destruct (list.last ch) as [[p v]|] eqn:E; [|by intros ?%not_elem_of_empty].
  intros ->%elem_of_singleton. apply list.last_Some in E as [c ->]. rewrite fmap_app. apply elem_of_app. right. by left.
Qed.

Lemma link_same_at g i ch h s m : m ∉ pred_of ch -> same_at s (link_st g i ch h s) m.
Proof.
  intros Hm. unfold link_st, pred_of in *. destruct (list.last ch) as [[p v]|]; apply same_at_eq; try done.
  - intros mo Hmo. exists (mh_ref mo). cbn. rewrite lookup_alter_ne by set_solver. by rewrite set_mh_ref_id.
  - intros mo Hmo. exists (mh_ref mo). cbn. by rewrite set_mh_ref_id.
Qed.

Lemma link_idents g i ch h s : idents s (link_st g i ch h s).
Proof. intros c co Hc. exists co. unfold link_st. by destruct (list.last ch) as [[p v]|]. Qed.

Lemma link_rest A g i ch h s : rest A (pred_of ch) s (link_st g i ch h s).
Proof.
  constructor; [intros m _; apply link_same_at| |apply link_idents].
  intros m mo' Hm. unfold link_st, pred_of in *. destruct (list.last ch) as [[p v]|]; cbn; [|by eauto].
  rewrite lookup_alter_ne by set_solver. eauto.
Qed.

Lemma link_st_mount g i ch h s m mo' : mheads (link_st g i ch h s) !! m = Some mo' ->
  exists mo, mheads s !! m = Some mo /\ mo' = set_mh_hash (mh_hash mo') mo.
Proof.
  unfold link_st. assert (forall mo, set_mh_hash (mh_hash mo) mo = mo) as Hid by (by intros []).
  destruct (list.last ch) as [[p v]|]; cbn; [|intros H; exists mo'; by rewrite Hid].
  destruct (decide (m = p)) as [->|Hne].
  - rewrite lookup_alter_eq. destruct (mheads s !! p) as [mo|]; [|done]. intros [= <-]. by exists mo.
  - rewrite lookup_alter_ne by done. intros H. exists mo'. by rewrite Hid.
Qed.

(** The part before the link. *)
Lemma part_link s g i j ch e e' : part_ok s j ch e -> NoDup ch.*1 -> part_ok (link_st g i ch e' s) j ch e'.
Proof.
  intros [Hs Hf] Hd. destruct (list.last ch) as [[p v]|] eqn:E.
  - apply list.last_Some in E as [c ->]. assert (link_st g i (c ++ [(p, v)]) e' s = set_mheads (alter (set_mh_hash e') p (mheads s)) s) as ->.
    { unfold link_st. by rewrite list.last_snoc. }
    split.
    + rewrite hnodes_app in *. cbn in *. eapply seg_relink; [exact Hs| |..].
      * change [(p, hv_from v)] with (hnodes [(p, v)]). rewrite <- hnodes_app, hnodes_fst. done.
      * apply seg_app in Hs as [_ Hs]. cbn in Hs. destruct Hs as (_ & Hs & _). unfold hnode in *. cbn.
        rewrite lookup_alter_eq. destruct (mheads s !! p) as [mo|]; [|done]. cbn in *. by injection Hs as ->.
      * intros b Hb. unfold hnode. cbn. by rewrite lookup_alter_ne.
    + eapply list.Forall_impl; [exact Hf|]. intros [m w] [Hl (mo & Hmo & Hm) Hc Hi]. constructor; [by apply (mlist_same s)| |done..].
      cbn in *. destruct (decide (m = p)) as [->|Hne]; [rewrite lookup_alter_eq, Hmo; by eexists|].
      rewrite lookup_alter_ne by done. by exists mo.
  - apply list.last_None in E as ->. split; [done|constructor].
Qed.

Section Links.
Context {R : Type}.

Lemma hlink_ok g T i ch1 ch2 s : table s g T -> T !! i = Some (ch1 ++ ch2) ->
  hlink (R := R) g (loc_of i ch1) s = (Go (hd_or (hnodes ch2) 0), s).
Proof.
  intros (go & Hg & _ & _ & H) Hi. destruct (H i _ Hi) as (h & Hh & -> & Hs). unfold hlink, loc_of.
  destruct (list.last ch1) as [[p v]|] eqn:E.
  - apply list.last_Some in E as [c ->]. rewrite <- app_assoc in Hs. apply part_app in Hs as [_ Hs].
    apply part_cons in Hs as [(_ & Hs & _) _]. unfold hnode in Hs. destruct (mheads s !! p) as [mo|] eqn:Hmo; [|done].
    cbn in Hs. injection Hs as _ Hs. by rewrite (cbind_go _ _ _ _ _ (mhget_go _ _ _ Hmo)), <- Hs.
  - apply list.last_None in E as ->. unfold pgget. rewrite (cbind_go _ _ s go s) by (unfold look; by rewrite Hg).
    rewrite Nat2Z.id, Hh. done.
Qed.

Lemma set_hlink_ok g i ch h s go : pgrps s !! g = Some go ->
  (forall p, p ∈ pred_of ch -> is_Some (mheads s !! p)) ->
  set_hlink (R := R) g (loc_of i ch) h s = (Go tt, link_st g i ch h s).
Proof.
  intros Hg Hp. unfold set_hlink, loc_of, link_st, pred_of in *. destruct (list.last ch) as [[p v]|].
  - destruct (Hp p) as [mo Hmo]; [set_solver|]. rewrite (mhset_go _ _ _ _ Hmo). by rewrite (alter_is_insert _ _ _ _ Hmo).
  - unfold pgset, put. rewrite Hg. rewrite (alter_is_insert _ _ _ _ Hg). unfold set_elem. by rewrite Nat2Z.id.
Qed.
End Links.

(** *** The changes that the operations make *)

Lemma link_other g i ch h s g1 : g1 <> g -> pgrps (link_st g i ch h s) !! g1 = pgrps s !! g1.
Proof. intros H. unfold link_st. destruct (list.last ch) as [[p v]|]; cbn; [done|]. by rewrite lookup_alter_ne. Qed.

Lemma link_pgrp g i ch h s go : pgrps s !! g = Some go -> (i < length (pg_mnthash go))%nat ->
  exists go', pgrps (link_st g i ch h s) !! g = Some go' /\ length (pg_mnthash go') = length (pg_mnthash go) /\
    (forall j, j <> i -> pg_mnthash go' !! j = pg_mnthash go !! j) /\
    pg_mnthash go' !! i = if decide (ch = []) then Some h else pg_mnthash go !! i.
Proof.
  intros Hg Hi. unfold link_st. destruct (list.last ch) as [[p v]|] eqn:E.
  - exists go. rewrite decide_False by (by intros ->). done.
  - apply list.last_None in E as ->. eexists. split_and!.
    + cbn. by rewrite lookup_alter_eq, Hg.
    + cbn. by rewrite length_insert.
    + intros j Hj. cbn. by rewrite list_lookup_insert_ne.
    + rewrite decide_True by done. cbn. by rewrite list_lookup_insert_eq.
Qed.

Lemma heads_parts (T : tab) i ch1 mid ch2 : T !! i = Some (ch1 ++ mid ++ ch2) -> NoDup (heads T) ->
  NoDup ch1.*1 /\ (forall m, m ∈ ch1.*1 -> (m ∉ mid.*1) /\ (m ∉ ch2.*1)) /\ (forall m, m ∈ mid.*1 -> m ∉ ch2.*1).
Proof.
  intros Hi Hd. destruct (concat_mid T i [] (ch1 ++ mid ++ ch2) []) as (a & b & E & _).
  { by rewrite app_nil_r. }
  unfold heads in Hd. rewrite E, !fmap_app in Hd. apply list.NoDup_app in Hd as (_ & _ & Hd).
  apply list.NoDup_app in Hd as (Hd & _ & _). apply list.NoDup_app in Hd as (H1 & H2 & H3).
  apply list.NoDup_app in H3 as (_ & H3 & _). split_and!; [done| |done].
  intros m Hm. specialize (H2 m Hm). rewrite elem_of_app in H2. tauto.
Qed.

(** The link behind [ch1] leads around [mid], or to [mid']. *)
Lemma ns_link s A A' X L g T i ch1 mid mid' ch2 :
  let s' := link_st g i ch1 (hd_or (hnodes (mid' ++ ch2)) 0) s in
  let T' := <[i := ch1 ++ mid' ++ ch2]> T in
  ns s A ∅ L -> L !! g = Some T -> T !! i = Some (ch1 ++ mid ++ ch2) ->
  part_ok s' (Z.of_nat i) mid' (hd_or (hnodes ch2) 0) ->
  NoDup (heads T') -> NoDup (hv_key <$> (concat T').*2) ->
  (forall m, m ∈ mid'.*1 -> m ∈ mid.*1 \/ m ∉ A) ->
  (forall m, m ∈ A' <-> m ∈ mid'.*1 \/ m ∈ A /\ m ∉ mid.*1) ->
  (forall m mo, mheads s !! m = Some mo -> m ∈ mid.*1 -> m ∉ A' -> m ∉ X -> mh_mount mo = 0) ->
  ns s' A' X (<[g := T']> L).
Proof.
  intros s' T' N Hg Hi Hp Hnd Hk Hnew HA' Hdet.
  pose proof (ns_table _ _ _ _ N g T Hg) as (go & Hgo & HT & Hl & Hc).
  assert (i < length T)%nat as Hlt by (by eapply lookup_lt_Some).
  destruct (Hc i _ Hi) as (h & Hh & -> & Hall). apply part_app in Hall as [Hp1 Hall]. apply part_app in Hall as [_ Hp2].
  destruct (heads_parts T i ch1 mid ch2 Hi (ns_nodup _ _ _ _ N g T Hg)) as (D1 & D2 & D3).
  destruct (link_pgrp g i ch1 (hd_or (hnodes (mid' ++ ch2)) 0) s go Hgo) as (go' & Hgo' & Hl' & Hj & Hi'); [lia|].
  assert (forall m, m ∈ heads T -> m ∈ A) as HTA by (intros m; by eapply ns_table_in).
  eapply (ns_change s s' A A' X L g T i ch1 mid mid' ch2 (hd_or (hnodes (ch1 ++ mid' ++ ch2)) 0) go' (pred_of ch1 ∪ list_to_set mid.*1));
    try done.
  - pose proof (link_rest A g i ch1 (hd_or (hnodes (mid' ++ ch2)) 0) s) as Rs. constructor; [|..|apply Rs].
    + intros m Hm H. apply Rs; [done|]. intros H'. by apply H, elem_of_union_l.
    + intros m mo' H. apply Rs. intros H'. by apply H, elem_of_union_l.
  - intros m [Hm|Hm%elem_of_list_to_set]%elem_of_union; left; rewrite !fmap_app, !elem_of_app; [|tauto].
    apply pred_in in Hm. tauto.
  - intros g1 H. by apply link_other.
  - by rewrite Hl'.
  - intros j go1 H1 H2. rewrite Hgo in H2. injection H2 as <-. by apply Hj.
  - rewrite Hi'. case_decide as E; [by subst|]. rewrite Hh. f_equal. destruct ch1 as [|[p v] ch1]; [done|]. done.
  - split; [done|]. apply part_app. split; [by apply (part_link s g i _ ch1 _ _ Hp1)|]. apply part_app. split; [done|].
    apply (part_same s); [done|apply link_idents|]. intros m Hm. apply link_same_at. intros H%pred_in.
    by apply (D2 m H).
  - intros m Hm _. apply elem_of_union_r. by apply elem_of_list_to_set.
  - intros m mo' Hm Hmp HmA HmX. destruct (link_st_mount _ _ _ _ _ _ _ Hm) as (mo & Hmo & ->). cbn.
    apply elem_of_union in Hmp as [Hmp|Hmp%elem_of_list_to_set]; [|by apply (Hdet m)].
    exfalso. apply HmA, HA'. right. apply pred_in in Hmp. split; [|by apply D2].
    apply HTA. eapply in_heads; [exact Hi|]. rewrite fmap_app. apply elem_of_app. by left.
Qed.

Lemma concat_perm (T : tab) i ch1 mid mid' ch2 : T !! i = Some (ch1 ++ mid ++ ch2) ->
  exists r, concat T ≡ₚ mid ++ r /\ concat (<[i := ch1 ++ mid' ++ ch2]> T) ≡ₚ mid' ++ r.
Proof.
  intros Hi. destruct (concat_mid T i ch1 mid ch2 Hi) as (a & b & E1 & E2). exists (a ++ b).
  rewrite E1, E2. split; by rewrite !app_assoc, (Permutation_app_comm a).
Qed.

(** A mount point leaves a table. *)
Lemma ns_unlink s A L g T i ch1 m v ch2 : ns s A ∅ L -> L !! g = Some T -> T !! i = Some (ch1 ++ (m, v) :: ch2) ->
  let s' := link_st g i ch1 (hd_or (hnodes ch2) 0) s in
  let T' := <[i := ch1 ++ ch2]> T in
  ns s' (A ∖ {[m]}) {[m]} (<[g := T']> L) /\ nsmap T' = delete (hv_key v) (nsmap T).
Proof.
  intros N Hg Hi s' T'. destruct (concat_mid T i ch1 [(m, v)] ch2 Hi) as (a & b & E1 & E2).
  specialize (E2 []). cbn [app] in E1, E2. fold T' in E2.
  pose proof (ns_keys _ _ _ _ N g T Hg) as Hk. rewrite E1 in Hk.
  pose proof (ns_nodup _ _ _ _ N g T Hg) as Hd. unfold heads in Hd. rewrite E1 in Hd.
  split; [|unfold nsmap; rewrite E1, E2; by apply (nsm_remove a (m, v))].
  apply (ns_link s A (A ∖ {[m]}) {[m]} L g T i ch1 [(m, v)] [] ch2); try done.
  - change (NoDup (concat T').*1). rewrite E2. by apply (heads_mid a b (m, v)).
  - change (NoDup (hv_key <$> (concat T').*2)). rewrite E2. by apply (keys_mid a (m, v)).
  - cbn. intros x Hx. by apply not_elem_of_nil in Hx.
  - intros x. cbn. rewrite elem_of_difference, elem_of_singleton, list_elem_of_singleton. pose proof (not_elem_of_nil x). tauto.
  - cbn. intros x mo _ [->|?%not_elem_of_nil]%elem_of_cons _ Hx; [|done]. set_solver.
Qed.

(** A new mount point at the end of a chain. *)
Lemma ns_add s A L g T i ch m v : ns s A ∅ L -> L !! g = Some T -> T !! i = Some ch -> m ∉ A -> m <> 0 ->
  hv_key v ∉ (hv_key <$> (concat T).*2) -> mhead_ok s (Z.of_nat i) m v -> hnode s m = Some (hv_from v, 0) ->
  let s' := link_st g i ch m s in
  let T' := <[i := ch ++ [(m, v)]]> T in
  ns s' ({[m]} ∪ A) ∅ (<[g := T']> L) /\ nsmap T' = <[hv_key v := ment_of <$> (hv_mounts v).*2]> (nsmap T).
Proof.
  intros N Hg Hi Hm Hm0 Hkv Hv Hn s' T'. assert (T !! i = Some (ch ++ [] ++ [])) as Hi' by (by rewrite !app_nil_r).
  destruct (concat_mid T i ch [] [] Hi') as (a & b & E1 & E2).
  specialize (E2 [(m, v)]). cbn [app] in E1, E2. fold T' in E2.
  pose proof (ns_keys _ _ _ _ N g T Hg) as Hk. rewrite E1 in Hk, Hkv.
  pose proof (ns_nodup _ _ _ _ N g T Hg) as Hd. unfold heads in Hd. rewrite E1 in Hd.
  assert (forall x, x ∈ (a ++ b).*1 -> x ∈ A) as HTA by (intros x Hx; eapply ns_table_in; [exact N|exact Hg|unfold heads; by rewrite E1]).
  assert (NoDup (hv_key <$> (a ++ (m, v) :: b).*2)) as Hk' by (by apply (keys_mid a (m, v))).
  split; [|unfold nsmap; rewrite E1, E2; by apply (nsm_mid a (m, v))].
  assert (m ∉ pred_of ch) as Hmp. { intros Hp%pred_in. apply Hm, HTA. rewrite <- E1. by apply (in_heads T i ch). }
  apply (ns_link s A ({[m]} ∪ A) ∅ L g T i ch [] [(m, v)] []); try done.
  - apply part_cons. split; [split_and!; [done|..]|split; [done|constructor]].
    + rewrite (hnode_same s); [done| |by apply link_same_at]. unfold hnode in Hn. destruct (mheads s !! m); [by eexists|done].
    + apply (mhead_ok_same s); [done|apply link_idents|by apply link_same_at].
  - change (NoDup (concat T').*1). rewrite E2. apply heads_mid. split; [|done]. intros Hx. by apply Hm, HTA.
  - change (NoDup (hv_key <$> (concat T').*2)). by rewrite E2.
  - cbn. intros x [->|?%not_elem_of_nil]%elem_of_cons; [by right|done].
  - intros x. cbn. rewrite elem_of_union, elem_of_singleton, elem_of_cons. pose proof (not_elem_of_nil x). tauto.
  - cbn. intros x mo _ Hx. by apply not_elem_of_nil in Hx.
Qed.

(** What is mounted at [m] changes to [l]. *)
Lemma ns_relist s s' A L g T i ch1 m v ch2 l : ns s A ∅ L -> L !! g = Some T -> T !! i = Some (ch1 ++ (m, v) :: ch2) ->
  rest A {[m]} s s' -> pgrps s' = pgrps s -> mlist s' m l ->
  (forall mo, mheads s !! m = Some mo -> exists mo', mheads s' !! m = Some mo' /\ mh_from mo' = mh_from mo /\
     mh_hash mo' = mh_hash mo /\ mh_mount mo' = hd_or l 0) ->
  let T' := <[i := ch1 ++ (m, MHVal (hv_from v) (hv_key v) l) :: ch2]> T in
  ns s' A ∅ (<[g := T']> L) /\ nsmap T' = <[hv_key v := ment_of <$> l.*2]> (nsmap T).
Proof.
  intros N Hg Hi K Hp Hl Hm T'. set (v' := MHVal (hv_from v) (hv_key v) l) in *.
  destruct (concat_mid T i ch1 [(m, v)] ch2 Hi) as (a & b & E1 & E2).
  specialize (E2 [(m, v')]). cbn [app] in E1, E2. fold T' in E2.
  pose proof (ns_keys _ _ _ _ N g T Hg) as Hk. rewrite E1 in Hk.
  pose proof (ns_nodup _ _ _ _ N g T Hg) as Hd.
  assert (forall x, x ∈ heads T -> x ∈ A) as HTA by (intros x; by eapply ns_table_in).
  split; [|unfold nsmap; rewrite E1, E2; by apply nsm_relist].
  pose proof (ns_table _ _ _ _ N g T Hg) as (go & Hgo & HT & Hlg & Hc).
  destruct (Hc i _ Hi) as (h & Hh & -> & Hall). apply part_app in Hall as [Hp1 Hall]. apply part_cons in Hall as [(Hm0 & Hn & Hok) Hp2].
  destruct (heads_parts T i ch1 [(m, v)] ch2 Hi Hd) as (D1 & D2 & D3).
  assert (forall x, x ∈ ch1.*1 \/ x ∈ ch2.*1 -> same_at s s' x) as Hs.
  { intros x Hx. apply (rs_same _ _ _ _ K).
    - apply HTA. eapply in_heads; [exact Hi|]. rewrite fmap_app, elem_of_app. cbn. rewrite elem_of_cons. tauto.
    - intros ->%elem_of_singleton. destruct Hx as [Hx|Hx]; [apply (proj1 (D2 m Hx))|apply (D3 m); [|done]]; by left. }
  eapply (ns_change s s' A A ∅ L g T i ch1 [(m, v)] [(m, v')] ch2 (hd_or (hnodes (ch1 ++ (m, v) :: ch2)) 0) go {[m]}); try done.
  - intros x ->%elem_of_singleton. left. rewrite fmap_app, elem_of_app. right. by left.
  - intros. by rewrite Hp.
  - by rewrite Hp.
  - intros j go1 _ Hgo1. congruence.
  - split; [rewrite !hnodes_app, !hd_or_app; done|]. apply part_app. split; [|apply part_cons; split; [split_and!; [done|..]|]].
    + apply (part_same s); [exact Hp1|apply K|]. intros x Hx. apply Hs. by left.
    + unfold hnode in *. destruct (mheads s !! m) as [mo|] eqn:Hmo; [|done].
      destruct (Hm mo eq_refl) as (mo' & -> & F1 & F2 & _). cbn in *. by rewrite F1, F2.
    + destruct Hok as [_ (mo & Hmo & _) Hch Hix]. destruct (Hm mo Hmo) as (mo' & Hmo' & F1 & F2 & F3).
      constructor; [done|by exists mo'|by eapply idents_key; [apply K|]|done].
    + apply (part_same s); [exact Hp2|apply K|]. intros x Hx. apply Hs. by right.
  - change (NoDup (concat T').*1). unfold heads in Hd. rewrite E2, fmap_app. rewrite E1, fmap_app in Hd. done.
  - change (NoDup (hv_key <$> (concat T').*2)). rewrite E2. by apply (keys_mid a (m, v')), (keys_mid a (m, v)).
  - cbn. tauto.
  - intros x. cbn. rewrite elem_of_cons. split.
    + intros Hx. destruct (decide (x = m)) as [->|Hne]; [by left; left|right]. split; [done|].
      intros [?|?%not_elem_of_nil]; done.
    + intros [[->|?%not_elem_of_nil]|[? _]]; try done. apply HTA. eapply in_heads; [exact Hi|].
      rewrite fmap_app, elem_of_app. right. by left.
  - intros x mo _ ->%elem_of_singleton Hx. exfalso. apply Hx, HTA. eapply in_heads; [exact Hi|].
    rewrite fmap_app, elem_of_app. right. by left.
Qed.

(** ** Looking for a mount point *)

Lemma eqchan_key a b : eqchan a b true = bool_decide (key_of a = key_of b).
Proof.
  unfold eqchan, key_of. cbn [negb andb].
  destruct (Z.eqb_spec (q_path (c_qid a)) (q_path (c_qid b))), (Z.eqb_spec (c_type a) (c_type b)), (Z.eqb_spec (c_dev a) (c_dev b));
    cbn; symmetry; try (apply bool_decide_eq_false; congruence). apply bool_decide_eq_true. congruence.
Qed.

Lemma eqchantdqid_key a type dev qid : eqchantdqid a type dev qid true = bool_decide (key_of a = (type, dev, q_path qid)).
Proof.
  unfold eqchantdqid, key_of. cbn [negb andb].
  destruct (Z.eqb_spec (q_path (c_qid a)) (q_path qid)), (Z.eqb_spec (c_type a) type), (Z.eqb_spec (c_dev a) dev);
    cbn; symmetry; try (apply bool_decide_eq_false; congruence). apply bool_decide_eq_true. congruence.
Qed.

Definition hindex (k : nskey) : nat := Z.to_nat (MOUNTH k.2).

Lemma MOUNTH_range x : 0 <= MOUNTH x < MNTHASH.
Proof. unfold MOUNTH, MNTHASH, MNTLOG. change (Z.shiftl 1 5 - 1) with (Z.ones 5). rewrite Z.land_ones by lia.
  change (Z.shiftl 1 5) with (2 ^ 5). by apply Z.mod_pos_bound. Qed.

Lemma hindex_loc k : HTab (MOUNTH k.2) = loc_of (hindex k) [].
Proof. unfold loc_of, hindex. cbn. rewrite Z2Nat.id; [done|]. apply MOUNTH_range. Qed.

Lemma table_chain s g T k : table s g T -> exists ch, T !! hindex k = Some ch.
Proof.
  intros (go & _ & HT & _ & _). apply lookup_lt_is_Some. rewrite HT. pose proof (MOUNTH_range k.2). unfold hindex. lia.
Qed.

Lemma table_chain_ok s g T i ch : table s g T -> T !! i = Some ch -> exists h, chain_ok s (Z.of_nat i) h ch.
Proof. intros (go & _ & _ & _ & H) Hi. destruct (H i ch Hi) as (h & _ & ?). eauto. Qed.

Lemma chain_mhead s i h ch x : chain_ok s i h ch -> x ∈ ch -> mhead_ok s i x.1 x.2.
Proof. intros (_ & _ & Hf) Hx. rewrite list.Forall_forall in Hf. by apply Hf. Qed.

(** The mount points of a file are in its chain. *)
Lemma key_in_chain s g T k ch : table s g T -> T !! hindex k = Some ch -> k ∈ hv_key <$> (concat T).*2 ->
  k ∈ hv_key <$> ch.*2.
Proof.
  intros Ht Hi (v & -> & Hv)%list_elem_of_fmap. apply list_elem_of_fmap in Hv as ([m w] & -> & Hv).
  apply list_elem_of_In, in_concat in Hv as (c & Hc & Hx). apply list_elem_of_In in Hc, Hx.
  apply list_elem_of_lookup in Hc as [j Hj]. destruct (table_chain_ok _ _ _ _ _ Ht Hj) as (h & Hok).
  pose proof (mk_index _ _ _ _ (chain_mhead _ _ _ _ _ Hok Hx)) as E. cbn in E. unfold hindex in Hi. cbn in Hi. rewrite E in Hi.
  rewrite Nat2Z.id in Hi. assert (c = ch) as -> by congruence. apply list_elem_of_fmap_2. by apply (list_elem_of_fmap_2 snd) in Hx.
Qed.

Lemma chain_size s i h ch : chain_ok s i h ch -> NoDup ch.*1 -> (length ch <= size (mheads s))%nat.
Proof.
  intros (_ & Hs & _) Hd. rewrite <- (length_fmap (fun x : Z * mhval => (x.1, hv_from x.2)) ch).
  eapply (seg_size (mheads s)); [exact Hs|by rewrite hnodes_fst|]. intros m [x Hx]. unfold hnode in Hx.
  destruct (mheads s !! m); [by eexists|done].
Qed.

Section Find.
Context {R : Type}.

Lemma find_mhead_ok g T i old s ch2 : forall ch1 fuel, table s g T -> T !! i = Some (ch1 ++ ch2) ->
  (length ch2 < fuel)%nat ->
  exists d1 d2, ch2 = d1 ++ d2 /\ (key_of old ∉ hv_key <$> d1.*2) /\
    (d2 = [] \/ exists m v d, d2 = (m, v) :: d /\ hv_key v = key_of old) /\
    find_mhead (R := R) fuel g (loc_of i ch1) old s = (Go (hd_or (hnodes d2) 0, loc_of i (ch1 ++ d1)), s).
Proof.
  induction ch2 as [|[m v] ch2 IH]; intros ch1 [|fuel] Ht Hi Hf; try (cbn in Hf; lia); cbn [find_mhead];
    rewrite (cbind_go _ _ _ _ _ (hlink_ok g T i ch1 _ s Ht Hi)).
  { exists [], []. rewrite !app_nil_r. split_and!; [done|apply not_elem_of_nil|by left|done]. }
  destruct (table_chain_ok _ _ _ _ _ Ht Hi) as (h & Hok). pose proof Hok as (_ & Hp).
  apply part_app in Hp as [_ Hp]. apply part_cons in Hp as [(Hm0 & Hn & Hmk) _].
  change (hd_or (hnodes ((m, v) :: ch2)) 0) with m. rewrite decide_False by done.
  unfold hnode in Hn. destruct (mheads s !! m) as [mo|] eqn:Hmo; [|done]. cbn in Hn. injection Hn as Hfr _.
  rewrite (cbind_go _ _ _ _ _ (mhget_go _ _ _ Hmo)).
  destruct (mk_chan _ _ _ _ Hmk) as (co & Hco & Hk). rewrite Hfr. rewrite (cbind_go _ _ _ _ _ (chget_go _ _ _ Hco)).
  rewrite eqchan_key. case_bool_decide as E.
  - exists [], ((m, v) :: ch2). rewrite app_nil_r. split_and!; [done|apply not_elem_of_nil| |done].
    right. exists m, v, ch2. split; [done|]. congruence.
  - destruct (IH (ch1 ++ [(m, v)]) fuel Ht) as (d1 & d2 & -> & Hno & Hd2 & E2); [by rewrite <- app_assoc|cbn in Hf; lia|].
    exists ((m, v) :: d1), d2. split_and!; [done| |done|].
    + cbn. intros [?|?]%elem_of_cons; [|done]. congruence.
    + assert (loc_of i (ch1 ++ [(m, v)]) = HHash m) as El by (unfold loc_of; by rewrite list.last_snoc).
      rewrite El in E2. rewrite E2. by rewrite <- app_assoc.
Qed.

(** The whole table: the mount point of [old] is found, or there is none. *)
Lemma find_mhead_table s A X L g T old : ns s A X L -> L !! g = Some T ->
  (exists ch, T !! hindex (key_of old) = Some ch /\ (key_of old ∉ hv_key <$> (concat T).*2) /\
     (fuel <- hfuel;; find_mhead (R := R) fuel g (HTab (MOUNTH (q_path (c_qid old)))) old) s =
       (Go (0, loc_of (hindex (key_of old)) ch), s)) \/
  (exists ch1 m v ch2, T !! hindex (key_of old) = Some (ch1 ++ (m, v) :: ch2) /\ hv_key v = key_of old /\ m <> 0 /\
     (fuel <- hfuel;; find_mhead (R := R) fuel g (HTab (MOUNTH (q_path (c_qid old)))) old) s =
       (Go (m, loc_of (hindex (key_of old)) ch1), s)).
Proof.
  intros N Hg. pose proof (ns_table _ _ _ _ N g T Hg) as Ht. destruct (table_chain s g T (key_of old) Ht) as (ch & Hi).
  destruct (table_chain_ok _ _ _ _ _ Ht Hi) as (h & Hok).
  assert (NoDup ch.*1) as Hd.
  { destruct (heads_parts T (hindex (key_of old)) ch [] []) as (? & _); [by rewrite !app_nil_r|by apply (ns_nodup _ _ _ _ N g)|done]. }
  pose proof (chain_size _ _ _ _ Hok Hd) as Hsz. unfold hfuel. rewrite (cbind_go _ _ s (S (size (mheads s))) s) by done.
  change (q_path (c_qid old)) with (key_of old).2. rewrite hindex_loc.
  destruct (find_mhead_ok g T (hindex (key_of old)) old s ch [] (S (size (mheads s))) Ht Hi) as (d1 & d2 & -> & Hno & Hd2 & E); [lia|].
  destruct Hd2 as [->|(m & v & d & -> & Hk)].
  - left. exists d1. rewrite app_nil_r in *. split_and!; [done| |done]. intros Hin. by eapply Hno, key_in_chain.
  - right. exists d1, m, v, d. split_and!; try done. destruct Hok as (_ & Hp). apply part_app in Hp as [_ Hp].
    by apply part_cons in Hp as [(? & _) _].
Qed.

Lemma find_tdqid_ok s i type dev qid ch : forall fuel, part_ok s i ch 0 -> (forall x, x ∈ ch -> hv_from x.2 <> 0) ->
  (length ch < fuel)%nat ->
  exists d1 d2, ch = d1 ++ d2 /\ ((type, dev, q_path qid) ∉ hv_key <$> d1.*2) /\
    (d2 = [] \/ exists m v d, d2 = (m, v) :: d /\ hv_key v = (type, dev, q_path qid)) /\
    find_tdqid (R := R) fuel (hd_or (hnodes ch) 0) type dev qid s = (Go (hd_or (hnodes d2) 0), s).
Proof.
  induction ch as [|[m v] ch IH]; intros [|fuel] Hp Hz Hf; try (cbn in Hf; lia).
  { exists [], []. split_and!; [done|apply not_elem_of_nil|by left|done]. }
  apply part_cons in Hp as [(Hm0 & Hn & Hmk) Hp].
  change (hd_or (hnodes ((m, v) :: ch)) 0) with m. cbn [find_tdqid]. rewrite decide_False by done.
  unfold hnode in Hn. destruct (mheads s !! m) as [mo|] eqn:Hmo; [|done]. cbn in Hn. injection Hn as Hfr Hh.
  rewrite (cbind_go _ _ _ _ _ (mhget_go _ _ _ Hmo)). rewrite decide_False.
  2: { rewrite Hfr. apply (Hz (m, v)). by left. }
  destruct (mk_chan _ _ _ _ Hmk) as (co & Hco & Hk). rewrite Hfr. rewrite (cbind_go _ _ _ _ _ (chget_go _ _ _ Hco)).
  rewrite eqchantdqid_key. case_bool_decide as E.
  - exists [], ((m, v) :: ch). split_and!; [done|apply not_elem_of_nil| |done].
    right. exists m, v, ch. split; [done|]. congruence.
  - destruct (IH fuel Hp) as (d1 & d2 & -> & Hno & Hd2 & E2); [intros x Hx; apply Hz; by right|cbn in Hf; lia|].
    exists ((m, v) :: d1), d2. split_and!; [done| |done|by rewrite Hh].
    cbn. intros [?|?]%elem_of_cons; [|done]. congruence.
Qed.
End Find.
