(* ===== verification/MountOps.v ===== *)
(** What [cmount], [cunmount] and [findmount] do to the tables, and that they keep the
    counts. *)

From S2P Require Import Prelude Mem Links Sums Fcall9P Chan ChanSpec Mount MountSpec TableSpec.

(** ** Steps at one mount point *)

Record only (A : gset Z) (m : Z) (s s' : kst) : Prop := {
  on_rest : rest A {[m]} s s';
  on_pgrps : pgrps s' = pgrps s;
  on_head mo : mheads s !! m = Some mo -> exists mo', mheads s' !! m = Some mo' /\ mh_from mo' = mh_from mo /\ mh_hash mo' = mh_hash mo }.

Lemma same_at_trans s1 s2 s3 m : same_at s1 s2 m -> same_at s2 s3 m -> same_at s1 s3 m.
Proof.
  intros [H1 H2] [G1 G2]. split.
  - intros mo Hmo. destruct (H1 mo Hmo) as (n & E). destruct (G1 _ E) as (n' & E'). exists n'. by rewrite set_mh_ref_twice in E'.
  - intros a mo Ha Hm. destruct (H2 a mo Ha Hm) as (mo1 & Ha1 & E1).
    destruct (G2 a mo1 Ha1) as (mo2 & Ha2 & E2); [by rewrite E1|]. exists mo2. split; [done|]. by eapply same_mount_trans.
Qed.

Lemma idents_trans s1 s2 s3 : idents s1 s2 -> idents s2 s3 -> idents s1 s3.
Proof.
  intros H G c co Hc. destruct (H c co Hc) as (co1 & Hc1 & E1). destruct (G c co1 Hc1) as (co2 & Hc2 & E2).
  exists co2. split; [done|]. unfold same_ident in *. intuition congruence.
Qed.

Lemma rest_trans A P s1 s2 s3 : rest A P s1 s2 -> rest A P s2 s3 -> rest A P s1 s3.
Proof.
  intros [H1 H2 H3] [G1 G2 G3]. constructor.
  - intros m Hm HP. eapply same_at_trans; eauto.
  - intros m mo3 HP Hmo3. destruct (G2 m mo3 HP Hmo3) as (mo2 & Hmo2 & ->). by apply H2.
  - by eapply idents_trans.
Qed.

Lemma only_trans A m s1 s2 s3 : only A m s1 s2 -> only A m s2 s3 -> only A m s1 s3.
Proof.
  intros [H1 H2 H3] [G1 G2 G3]. constructor; [by eapply rest_trans|congruence|].
  intros mo Hmo. destruct (H3 mo Hmo) as (mo1 & Hmo1 & ? & ?). destruct (G3 mo1 Hmo1) as (mo2 & ? & ? & ?).
  exists mo2. split_and!; [done|congruence..].
Qed.

Lemma keepm_only A m s s' : keepm A s s' -> m ∈ A ->
  (forall a mo, mounts s !! a = Some mo -> mt_head mo <> m -> mounts s' !! a = Some mo) -> only A m s s'.
Proof.
  intros K Hm H. constructor.
  - apply keepm_rest; [done|]. intros a mo Ha _ Hne. apply H; [done|]. intros E. apply Hne. by apply elem_of_singleton.
  - apply K.
  - intros mo Hmo. destruct (km_mheads _ _ _ K m mo Hm Hmo) as (n & E). by exists (set_mh_ref n mo).
Qed.

Lemma only_refl A m s : only A m s s.
Proof.
  constructor; [|done|].
  - constructor; [|by eauto|by intros c co ?; exists co].
    intros x _ _. apply same_at_refl.
  - intros mo Hmo. by exists mo.
Qed.

(** A [Mount] of [m] changes. *)
Lemma only_mount A m s a ao ao' : mounts s !! a = Some ao -> mt_head ao = m ->
  only A m s (set_mounts (<[a := ao']> (mounts s)) s).
Proof.
  intros Ha Hm. constructor; [|done|intros mo Hmo; by exists mo].
  constructor; [|by eauto|by intros c co ?; exists co].
  intros x _ Hx. apply same_at_eq; [intros mo Hmo; exists (mh_ref mo); by rewrite set_mh_ref_id|].
  intros b bo Hb Hbm. cbn. rewrite lookup_insert_ne; [done|]. intros ->. apply Hx, elem_of_singleton. congruence.
Qed.

(** What is mounted changes. *)
Lemma only_head A m s mo x : mheads s !! m = Some mo -> only A m s (set_mheads (<[m := set_mh_mount x mo]> (mheads s)) s).
Proof.
  intros Hm. constructor; [|done|].
  - constructor; [| |by intros c co ?; exists co].
    + intros b _ Hb. apply same_at_eq; [|done]. intros bo Hbo. exists (mh_ref bo). cbn.
      rewrite lookup_insert_ne by (intros <-; by apply Hb, elem_of_singleton). by rewrite set_mh_ref_id.
    + intros b bo Hb. cbn. rewrite lookup_insert_ne by (intros <-; by apply Hb, elem_of_singleton). by eauto.
  - intros mo0 Hmo0. cbn. rewrite lookup_insert_eq. eexists. split; [done|]. cbn. split; congruence.
Qed.

Lemma rc_set_mount_field s A ext m mo x : rc s A ext -> mheads s !! m = Some mo ->
  rc (set_mheads (<[m := set_mh_mount x mo]> (mheads s)) s) A ext.
Proof. intros I Hm. by apply (rc_upd_mhead s A ext m mo). Qed.

Lemma room_upd_mhead s k m mo mo' : room s k -> mheads s !! m = Some mo -> mh_ref mo' = mh_ref mo ->
  room (set_mheads (<[m := mo']> (mheads s)) s) k.
Proof.
  intros (H0 & H1 & H2 & H3) Hm Hr. split_and!; [done|done| |done]. intros r. rewrite count_mhead.
  pose proof (H2 (RMhead m)) as E. unfold count_of in E. cbn in E. rewrite Hm in E. cbn in E.
  specialize (H2 r). case_decide; lia.
Qed.

Lemma rc_link s A ext g i ch h : rc s A ext -> rc (link_st g i ch h s) A ext.
Proof.
  intros I. unfold link_st. destruct (list.last ch) as [[p v]|].
  - destruct (mheads s !! p) as [mo|] eqn:Hm.
    + rewrite (alter_is_insert _ _ _ _ Hm). by apply (rc_upd_mhead s A ext p mo).
    + assert (alter (set_mh_hash h) p (mheads s) = mheads s) as -> by (by apply alter_id; rewrite Hm). by destruct s.
  - destruct (pgrps s !! g) as [go|] eqn:Hg.
    + rewrite (alter_is_insert _ _ _ _ Hg). set (go' := set_pg_mnthash _ go). pose proof (rc_ext _ _ _ I (RPgrp g)).
      pose proof (rc_max _ _ _ I (RPgrp g) (pg_ref go)) as Hx. cbn in Hx. rewrite Hg in Hx. specialize (Hx eq_refl).
      assert (pg_ref go' = pg_ref go) as Hr by done.
      eapply rc_hold; [|apply (rc_upd_pgrp s A ext g go go' I Hg); lia]. intros r. unfold hold. case_decide; lia.
    + rewrite alter_id by (by rewrite Hg). by destruct s.
Qed.

Lemma count_link g i ch h s r : count_of r (link_st g i ch h s) = count_of r s.
Proof.
  unfold link_st, count_of. destruct (list.last ch) as [[p v]|], r as [c|q|m|g'|f]; try done; cbn.
  - destruct (decide (m = p)) as [->|Hne]; [rewrite lookup_alter_eq; by destruct (mheads s !! p)|by rewrite lookup_alter_ne].
  - destruct (decide (g' = g)) as [->|Hne]; [rewrite lookup_alter_eq; by destruct (pgrps s !! g)|by rewrite lookup_alter_ne].
Qed.

Lemma room_link g i ch h s k : room s k -> room (link_st g i ch h s) k.
Proof.
  intros (H0 & H1 & H2 & H3). split_and!; [done|done|intros r; by rewrite count_link|].
  unfold link_st. by destruct (list.last ch) as [[p v]|].
Qed.

(** ** A new mount point *)

Lemma ns_weaken s A X X' L : ns s A X L -> X ⊆ X' -> ns s A X' L.
Proof. intros N H. constructor; try apply N. intros m mo Hm Ha Hx. apply (ns_det _ _ _ _ N m); [done..|]. set_solver. Qed.

Lemma ns_drop s A m L : ns s A {[m]} L -> (forall mo, mheads s !! m = Some mo -> mh_mount mo = 0) -> ns s A ∅ L.
Proof.
  intros N H. constructor; try apply N. intros x mo Hx Ha _. destruct (decide (x = m)) as [->|Hne]; [by apply H|].
  apply (ns_det _ _ _ _ N x); [done..|]. by intros ?%elem_of_singleton.
Qed.

Section NewHead.
Context {R : Type}.

Lemma newmhead_ok s A ext from k : rc s A ext -> 0 < ext (RChan from) \/ 0 < refs s A (RChan from) ->
  room s (k + 1) -> 0 <= k ->
  exists s', newmhead (R := R) from s = (Go (brk s), s') /\ rc s' ({[brk s]} ∪ A) ext /\
    mheads s' = <[brk s := MkMhead 1 from 0 0]> (mheads s) /\ mounts s' = mounts s /\ pgrps s' = pgrps s /\
    idents s s' /\ brk s' = brk s + 1 /\ mountid s' = mountid s /\ room s' k.
Proof.
  intros I Hf Rm Hk. destruct (incref_room (R := R) s A ext (RChan from) k I Hf Rm Hk) as (n & Hn & E & I1 & Rm1 & _).
  set (s1 := set_rcount (RChan from) (n + 1) s) in *. set (mo := MkMhead 1 from 0 0).
  set (F := fun x => set_mheads (<[brk s := mo]> (mheads s)) (set_brk (brk s + 1) x)).
  assert (brk s ∉ A) as HA.
  { intros H. destruct (rc_att _ _ _ I _ H) as [x Hx].
    pose proof (below_in _ (mheads s) _ _ (proj1 (proj2 (proj2 (proj2 (rc_addr _ _ _ I))))) Hx). lia. }
  exists (F s1). split_and!; try done.
  - unfold newmhead, smalloc. unfold cbind at 1. change (set_mheads _ (set_brk _ s)) with (F s).
    by rewrite (cbind_go _ _ _ _ _ (incref_frame F from s (n + 1) s1 ltac:(done) E)).
  - pose proof (rc_new_mhead s1 A _ mo I1 ltac:(cbn; lia)) as I2.
    change (set_mheads (<[brk s1 := mo]> (mheads s1)) (set_brk (brk s1 + 1) s1)) with (F s1) in I2.
    change (brk s1) with (brk s) in I2.
    apply (rc_attach (F s1) A _ _ (brk s) mo I2); [cbn; by rewrite lookup_insert_eq|done| |apply I].
    intros r. cbn [mh_from mo]. change [RChan from; RMhead (brk s)] with ([RChan from] ++ [RMhead (brk s)]).
    rewrite occ_app, !occ_one. unfold hold. cbn [mh_ref mo]. repeat case_decide; try congruence; lia.
  - intros d do Hd. destruct (recounted_keeps A s s1 (recounted_set from (n + 1) s)) as [_ _ _ _ G _ _]. by apply (G d).
  - destruct Rm1 as (H0 & H1 & H2 & H3). split_and!; [done|done| |done]. intros r.
    change (F s1) with (set_mheads (<[brk s1 := mo]> (mheads s1)) (set_brk (brk s1 + 1) s1)).
    rewrite count_new_mhead. change (mh_ref mo) with 1. specialize (H2 r). case_decide; lia.
Qed.

Lemma link_mhead g i ch h s m : m ∉ pred_of ch -> mheads (link_st g i ch h s) !! m = mheads s !! m.
Proof.
  unfold link_st, pred_of. destruct (list.last ch) as [[p v]|]; [|done]. intros Hm. cbn. rewrite lookup_alter_ne; [done|].
  intros ->. by apply Hm, elem_of_singleton.
Qed.

(** What a new mount point has: the file itself, if it is to be a union. *)
Definition first_mounts (old order : Z) : list ment := if decide (order <> MREPL) then [(old, 0, None)] else [].

Lemma newmhead_ns s s' A L m from : ns s A ∅ L -> mheads s' = <[m := MkMhead 1 from 0 0]> (mheads s) ->
  mheads s !! m = None -> m ∉ A -> mounts s' = mounts s -> pgrps s' = pgrps s -> idents s s' -> ns s' A ∅ L.
Proof.
  intros N Hh Hm HA Hmt Hp Hid. apply (ns_drop _ _ m); [|intros mo; rewrite Hh, lookup_insert_eq; by intros [= <-]].
  apply (ns_same s); [by apply (ns_weaken s A ∅)| |set_solver|by intros; rewrite Hp].
  constructor; [..|done].
  - intros x Hx Hxm. apply same_at_eq; [|intros a ao; by rewrite Hmt]. intros mo Hmo. exists (mh_ref mo). rewrite set_mh_ref_id, Hh.
    rewrite lookup_insert_ne; [done|]. intros ->. by rewrite Hm in Hmo.
  - intros x mo' Hx. rewrite Hh, lookup_insert_ne by (intros ->; by apply Hx, elem_of_singleton). eauto.
Qed.

Lemma add_mhead_ok s A ext L g T ch old order oc k : rc s A ext -> ns s A ∅ L -> L !! g = Some T ->
  chans s !! old = Some oc -> T !! hindex (key_of oc) = Some ch -> 0 < ext (RChan old) ->
  key_of oc ∉ hv_key <$> (concat T).*2 -> room s (k + 2) -> 0 <= k ->
  exists s' v, let m := brk s in let T' := <[hindex (key_of oc) := ch ++ [(m, v)]]> T in
    add_mhead (R := R) g (loc_of (hindex (key_of oc)) ch) old order s = (Go m, s') /\ rc s' ({[m]} ∪ A) ext /\
    ns s' ({[m]} ∪ A) ∅ (<[g := T']> L) /\ hv_key v = key_of oc /\
    ment_of <$> (hv_mounts v).*2 = first_mounts old order /\
    nsmap T' = <[key_of oc := first_mounts old order]> (nsmap T) /\
    (forall x xo, mheads s !! x = Some xo -> exists xo', mheads s' !! x = Some xo' /\ mh_mount xo' = mh_mount xo) /\
    (forall a mo, mounts s !! a = Some mo -> mounts s' !! a = Some mo) /\ idents s s' /\ m <> 0 /\ room s' k.
Proof.
  intros I N Hg Hoc Hi Hh Hk Rm Hk0.
  destruct (newmhead_ok s A ext old (k + 1) I (or_introl Hh)) as (s1 & E1 & I1 & H1 & M1 & P1 & Id1 & B1 & _ & Rm1); [|lia|].
  { by replace (k + 1 + 1) with (k + 2) by lia. }
  set (m := brk s) in *. set (i := hindex (key_of oc)) in *.
  assert (mheads s !! m = None) as Hfresh by (by apply below_fresh, I).
  assert (m ∉ A) as HA by (intros Ha; destruct (rc_att _ _ _ I m Ha) as [? E]; by rewrite Hfresh in E).
  assert (m <> 0) as Hm0 by (pose proof (rc_brk _ _ _ I); lia).
  pose proof (newmhead_ns s s1 A L m old N H1 Hfresh HA M1 P1 Id1) as N1.
  set (v := MHVal old (key_of oc) []).
  assert (mheads s1 !! m = Some (MkMhead 1 old 0 0)) as Hm1 by (by rewrite H1, lookup_insert_eq).
  destruct (ns_add s1 A L g T i ch m v N1 Hg Hi HA Hm0 Hk) as [N2 Hns2].
  { constructor; [apply mlist_nil|by exists (MkMhead 1 old 0 0)|by apply (idents_key s s1); eauto|].
    cbn. unfold i, hindex. rewrite Z2Nat.id; [done|]. apply MOUNTH_range. }
  { unfold hnode. by rewrite Hm1. }
  set (s2 := link_st g i ch m s1) in *.
  pose proof (ns_table _ _ _ _ N1 g T Hg) as (go & Hgo & _).
  assert (set_hlink (R := R) g (loc_of i ch) m s1 = (Go tt, s2)) as E2.
  { apply (set_hlink_ok g i ch m s1 go Hgo). intros p Hp%pred_in. apply (rc_att _ _ _ I1), elem_of_union_r.
    eapply ns_table_in; [exact N1|exact Hg|by eapply in_heads]. }
  pose proof (rc_link s1 _ ext g i ch m I1) as I2. fold s2 in I2.
  pose proof (room_link g i ch m s1 _ Rm1) as Rm2. fold s2 in Rm2.
  assert (forall x xo, mheads s !! x = Some xo -> exists xo', mheads s2 !! x = Some xo' /\ mh_mount xo' = mh_mount xo) as Fw.
  { intros x xo Hx. assert (mheads s1 !! x = Some xo) as Hx1 by (rewrite H1, lookup_insert_ne; [done|by intros ->; rewrite Hfresh in Hx]).
    unfold s2, link_st. destruct (list.last ch) as [[p w]|]; cbn; [|by eauto].
    destruct (decide (x = p)) as [->|Hne]; [rewrite lookup_alter_eq, Hx1; by eexists|]. rewrite lookup_alter_ne by done. eauto. }
  assert (mounts s2 = mounts s) as M2 by (rewrite <- M1; unfold s2, link_st; by destruct (list.last ch) as [[p w]|]).
  assert (idents s s2) as Id2 by (eapply idents_trans; [exact Id1|apply link_idents]).
  unfold add_mhead. rewrite (cbind_go _ _ _ _ _ E1), (cbind_go _ _ _ _ _ E2). unfold first_mounts.
  case_decide as Ho.
  2: { exists s2, v. split_and!; try done; [|eapply room_less; [done|lia]]. intros a mo. by rewrite M2. }
  assert (mheads s2 !! m = Some (MkMhead 1 old 0 0)) as Hm2.
  { rewrite <- Hm1. apply link_mhead. intros Hp%pred_in. apply HA. eapply ns_table_in; [exact N1|exact Hg|by eapply in_heads]. }
  destruct (newmount_ok (R := R) s2 _ ext m old 0 None k I2 (or_introl Hh) Rm2 Hk0) as (s3 & E3 & I3 & K3 & M3 & _ & _ & H3 & Rm3).
  assert (mheads s3 !! m = Some (MkMhead 1 old 0 0)) as Hm3 by (by rewrite H3).
  rewrite (cbind_go _ _ _ tt (set_mheads (<[m := set_mh_mount (brk s2) (MkMhead 1 old 0 0)]> (mheads s3)) s3)).
  2: { rewrite (cbind_go _ _ _ _ _ E3). by apply (mhset_go m (set_mh_mount (brk s2)) s3). }
  set (s4 := set_mheads (<[m := set_mh_mount (brk s2) (MkMhead 1 old 0 0)]> (mheads s3)) s3).
  set (l := [(brk s2, MVal old 0 None)]).
  set (v' := MHVal old (key_of oc) l).
  assert (only ({[m]} ∪ A) m s2 s4) as On.
  { eapply only_trans; [|by apply only_head]. apply keepm_only; [done|set_solver|].
    intros a ao Ha _. rewrite M3, lookup_insert_ne; [done|]. intros <-.
    pose proof (below_in _ (mounts s2) _ _ (proj1 (proj2 (proj2 (rc_addr _ _ _ I2)))) Ha). lia. }
  destruct (ns_relist s2 s4 _ _ g (<[i := ch ++ [(m, v)]]> T) i ch m v [] l N2) as [N4 Hns4].
  { by rewrite lookup_insert_eq. }
  { rewrite list_lookup_insert_eq; [done|]. by eapply lookup_lt_Some. }
  { apply On. }
  { apply On. }
  { apply mlist_cons. split_and!; [pose proof (rc_brk _ _ _ I2); lia| |apply not_elem_of_nil|apply mlist_nil].
    apply mnode_some. exists (MkMount (u32 (next_id s2)) 0 m 0 0 old 0 None). split_and!; try done.
    unfold s4. cbn [mounts set_mheads]. by rewrite M3, lookup_insert_eq. }
  { intros mo Hmo. rewrite Hm2 in Hmo. injection Hmo as <-. eexists. split; [unfold s4; cbn; by rewrite lookup_insert_eq|done]. }
  rewrite list_insert_insert_eq, insert_insert_eq in N4. rewrite list_insert_insert_eq, Hns2, insert_insert_eq in Hns4.
  exists s4, v'. split_and!; try done.
  - by apply (rc_set_mount_field s3).
  - intros x xo Hx. destruct (Fw x xo Hx) as (xo' & Hx' & Hmx). exists xo'. split; [|done]. unfold s4. cbn.
    rewrite lookup_insert_ne; [by rewrite H3|]. intros ->. by rewrite Hfresh in Hx.
  - intros a ao Ha. unfold s4. cbn. rewrite M3, lookup_insert_ne; [by rewrite M2|]. intros <-.
    rewrite <- M2 in Ha. pose proof (below_in _ (mounts s2) _ _ (proj1 (proj2 (proj2 (rc_addr _ _ _ I2)))) Ha). lia.
  - eapply idents_trans; [exact Id2|]. intros c co. apply (km_chans _ _ _ K3).
  - by apply (room_upd_mhead s3 k m (MkMhead 1 old 0 0)).
Qed.
End NewHead.

(** ** The mount at a mount point *)

Lemma mlist_app s m l0 a v l1 ao : mlist s m (l0 ++ [(a, v)]) -> mlist s m l1 ->
  NoDup ((l0 ++ [(a, v)]) ++ l1).*1 -> mounts s !! a = Some ao ->
  mlist (set_mounts (<[a := set_mt_next (hd_or l1 0) ao]> (mounts s)) s) m ((l0 ++ [(a, v)]) ++ l1).
Proof.
  intros [H0 D0] [H1 D1] Hd Ha. split; [|done]. apply seg_app. split.
  - eapply seg_relink; [exact H0|exact D0| |].
    + apply seg_app in H0 as [_ H0]. cbn in H0. destruct H0 as (_ & (mo & Hmo & Hh & Hv & _)%mnode_some & _).
      apply mnode_some. exists (set_mt_next (hd_or l1 0) ao). cbn. rewrite lookup_insert_eq.
      rewrite Ha in Hmo. injection Hmo as <-. by split_and!.
    + intros b Hb. unfold mnode. cbn. by rewrite lookup_insert_ne.
  - eapply seg_ext; [|exact H1]. intros b Hb. unfold mnode. cbn. rewrite lookup_insert_ne; [done|]. intros <-.
    rewrite fmap_app in Hd. apply list.NoDup_app in Hd as (_ & Hd & _). apply (Hd a); [|done].
    rewrite fmap_app, elem_of_app. right. by left.
Qed.

(** What is mounted, and what was: a union behind or before the other. *)
Definition joined_mounts {V} (order : Z) (cur new : list V) : list V :=
  if decide (cur <> [] /\ order = MAFTER) then cur ++ new else new ++ cur.

Lemma only_rc_head A ext m s mo x : rc s A ext -> mheads s !! m = Some mo ->
  let s' := set_mheads (<[m := set_mh_mount x mo]> (mheads s)) s in
  only A m s s' /\ rc s' A ext /\ (forall k, room s k -> room s' k).
Proof.
  intros I Hm s'. split_and!; [by apply only_head|by apply rc_set_mount_field|]. intros k Rm. by apply (room_upd_mhead s k m mo).
Qed.

Lemma only_rc_mount A ext m s a ao ao' : rc s A ext -> mounts s !! a = Some ao -> mt_head ao = m -> mt_to ao' = mt_to ao ->
  let s' := set_mounts (<[a := ao']> (mounts s)) s in
  only A m s s' /\ rc s' A ext /\ (forall k, room s k -> room s' k).
Proof.
  intros I Ha Hm Ht s'. split_and!; [by apply (only_mount A m s a ao)|by apply (rc_upd_mount s A ext a ao)|].
  intros k Rm. by apply (room_same s).
Qed.

Lemma list_snoc_ex (l : list (Z * mval)) : l <> [] -> exists l' a v, l = l' ++ [(a, v)].
Proof. destruct l as [|[a v] l' _] using rev_ind; [done|]. intros _. by exists l', a, v. Qed.

Section MountAt.
Context {R : Type}.

(** [f] is the last one of [l0], which then leads to [l1]. *)
Lemma append_mounts s A ext m l0 l1 : rc s A ext -> mlist s m l0 -> mlist s m l1 -> l0 <> [] -> NoDup (l0 ++ l1).*1 ->
  exists f fo, (fuel <- mfuel;; last_mount (R := R) fuel (hd_or l0 0)) s = (Go f, s) /\ mounts s !! f = Some fo /\
    let s' := set_mounts (<[f := set_mt_next (hd_or l1 0) fo]> (mounts s)) s in
    only A m s s' /\ rc s' A ext /\ (forall k, room s k -> room s' k) /\ mlist s' m (l0 ++ l1).
Proof.
  intros I H0 H1 Hne Hd. destruct (list_snoc_ex l0 Hne) as (l & a & v & ->).
  destruct (mlist_in s m _ a H0) as (ao & Ha & Hm); [rewrite fmap_app, elem_of_app; right; by left|].
  exists a, ao. pose proof (mlist_size _ _ _ H0) as Hs. rewrite length_app in Hs. cbn in Hs.
  destruct (only_rc_mount A ext m s a ao (set_mt_next (hd_or l1 0) ao) I Ha Hm eq_refl) as (G1 & G2 & G3).
  cbv zeta. split_and!; try done.
  - unfold mfuel. rewrite (cbind_go _ _ s (S (size (mounts s))) s) by done. apply (last_mount_ok m); [done|lia].
  - by apply mlist_app.
Qed.

Lemma link_mount_ok s A ext m mo l0 l1 order : rc s A ext -> mheads s !! m = Some mo -> mh_mount mo = hd_or l0 0 ->
  mlist s m l0 -> mlist s m l1 -> l1 <> [] -> NoDup (l0 ++ l1).*1 ->
  exists s', link_mount (R := R) m (hd_or l1 0) order s = (Go tt, s') /\ only A m s s' /\ rc s' A ext /\
    (forall k, room s k -> room s' k) /\ mlist s' m (joined_mounts order l0 l1) /\
    (exists mo', mheads s' !! m = Some mo' /\ mh_mount mo' = hd_or (joined_mounts order l0 l1) 0) /\
    (forall a ao, mounts s !! a = Some ao -> exists x, mounts s' !! a = Some (set_mt_next x ao)).
Proof.
  intros I Hm Hf H0 H1 Hne Hd. unfold link_mount, joined_mounts. rewrite (cbind_go _ _ _ _ _ (mhget_go _ _ _ Hm)).
  assert (forall a ao f fo x, mounts s !! f = Some fo -> mounts s !! a = Some ao ->
    exists y, <[f := set_mt_next x fo]> (mounts s) !! a = Some (set_mt_next y ao)) as Hx.
  { intros a ao f fo x H2 H3. destruct (decide (a = f)) as [->|Hn]; [exists x; rewrite lookup_insert_eq; congruence|].
    exists (mt_next ao). rewrite lookup_insert_ne by done. rewrite H3. by destruct ao. }
  rewrite Hf. assert (hd_or l0 0 <> 0 <-> l0 <> []) as Hl0.
  { destruct l0 as [|[a v] l]; [done|]. apply mlist_cons in H0 as (? & _). done. }
  assert (mfuel (R := R) s = (Go (S (size (mounts s))), s)) as Ef by done.
  rewrite (cbind_go _ _ _ _ _ Ef).
  destruct (decide (l0 <> [] /\ order = MAFTER)) as [[Hn Ho]|Hno].
  - rewrite (decide_True (P := hd_or l0 0 <> 0 /\ order = MAFTER)) by (by rewrite Hl0).
    destruct (append_mounts s A ext m l0 l1 I H0 H1 Hn Hd) as (f & fo & E & Hfo & G1 & G2 & G3 & G4).
    rewrite (cbind_go _ _ _ _ _ Ef) in E. rewrite (cbind_go _ _ _ _ _ E), (mtset_go _ _ _ _ Hfo).
    eexists. split_and!; try done.
    + exists mo. split; [done|]. rewrite Hf. by destruct l0.
    + intros a ao. by apply Hx.
  - rewrite (decide_False (P := hd_or l0 0 <> 0 /\ order = MAFTER)) by (by rewrite Hl0).
    destruct (append_mounts s A ext m l1 l0 I H1 H0 Hne) as (f & fo & E & Hfo & G1 & G2 & G3 & G4).
    { rewrite fmap_app in *. by rewrite Permutation_app_comm. }
    rewrite (cbind_go _ _ _ _ _ Ef) in E. rewrite (cbind_go _ _ _ _ _ E), (cbind_go _ _ _ _ _ (mtset_go _ _ _ _ Hfo)).
    set (s1 := set_mounts _ s) in *. assert (mheads s1 !! m = Some mo) as Hm1 by done.
    rewrite (mhset_go _ _ _ _ Hm1). destruct (only_rc_head A ext m s1 mo (hd_or l1 0) G2 Hm1) as (K1 & K2 & K3).
    eexists. split_and!; try done.
    + by eapply only_trans.
    + by apply (mlist_same s1).
    + eexists. split; [cbn; by rewrite lookup_insert_eq|]. cbn. by destruct l1.
    + intros a ao. by apply Hx.
Qed.

(** The list of mounted things that is copied with a channel that has one. *)
Definition union_list (s : kst) (mh : Z) (u : list (Z * mval)) : Prop :=
  mh = 0 /\ u = [] \/ mh <> 0 /\ mlist s mh u /\ exists mho, mheads s !! mh = Some mho /\ mh_mount mho = hd_or u 0.

Lemma union_list_keep s s' mh u : union_list s mh u ->
  (forall x xo, mheads s !! x = Some xo -> exists xo', mheads s' !! x = Some xo' /\ mh_mount xo' = mh_mount xo) ->
  (forall a mo, mounts s !! a = Some mo -> mounts s' !! a = Some mo) -> union_list s' mh u.
Proof.
  intros [H|(Hz & Hl & mho & Hm & Hf)] H1 H2; [by left|right]. split_and!; [done| |].
  - eapply mlist_ext; [|exact Hl]. intros a ao _. apply H2.
  - destruct (H1 mh mho Hm) as (mho' & ? & ?). exists mho'. split; [done|congruence].
Qed.

Definition copy_flag (order : Z) : Z := if decide (order = MREPL) then MAFTER else order.

Lemma mount_union_ok s A ext m nm no mh u order k : rc s A ext -> union_list s mh u -> mounts s !! nm = Some no ->
  mt_next no = 0 -> (nm ∉ u.*1) -> room s (zlen u + k) -> 0 <= k ->
  exists s' l', mount_union (R := R) m nm mh order s = (Go tt, s') /\ rc s' A ext /\ keepm A s s' /\ mlist s' m l' /\
    copies (copy_flag order) (tail u) l' /\ mounts s' !! nm = Some (set_mt_next (hd_or l' 0) no) /\
    (forall a mo, a <> nm -> mounts s !! a = Some mo -> mounts s' !! a = Some mo) /\
    Forall (fun a => brk s <= a) l'.*1 /\ mheads s' = mheads s /\ room s' k.
Proof.
  intros I Hu Hn Hnx Hni Rm Hk. pose proof (zlen_nonneg u).
  assert (forall (c : cmd kst R unit), c s = (Go tt, s) -> tail u = [] -> exists s' l', c s = (Go tt, s') /\ rc s' A ext /\ keepm A s s' /\ mlist s' m l' /\
    copies (copy_flag order) (tail u) l' /\ mounts s' !! nm = Some (set_mt_next (hd_or l' 0) no) /\
    (forall a mo, a <> nm -> mounts s !! a = Some mo -> mounts s' !! a = Some mo) /\
    Forall (fun a => brk s <= a) l'.*1 /\ mheads s' = mheads s /\ room s' k) as Hnone.
  { intros c Hc ->. exists s, []. split_and!; try done; try apply keepm_refl; try apply mlist_nil; try by constructor.
    - rewrite Hn. cbn. f_equal. destruct no; cbn in *; by subst.
    - eapply room_less; [done|lia]. }
  unfold mount_union. destruct Hu as [[-> ->]|(Hz & Hl & mho & Hm & Hf)].
  { by apply Hnone. }
  rewrite decide_True by done. rewrite (cbind_go _ _ _ _ _ (mhget_go _ _ _ Hm)). rewrite Hf.
  destruct u as [|[a v] u]; [by apply Hnone|].
  apply mlist_cons in Hl as (Ha & (ao & Hao & Hh & Hv & Hnext)%mnode_some & Hau & Hl).
  change (hd_or ((a, v) :: u) 0) with a. rewrite decide_True by done. rewrite (cbind_go _ _ _ _ _ (mtget_go _ _ _ Hao)).
  unfold mfuel. rewrite (cbind_go _ _ s (S (size (mounts s))) s) by done. rewrite Hnext. cbn [tail].
  apply (copy_union_ok m mh (copy_flag order) A ext u (S (size (mounts s))) s nm no k I Hl); try done.
  - pose proof (mlist_size _ _ _ Hl). lia.
  - intros Hin. apply Hni. by right.
  - rewrite zlen_cons in Rm. pose proof (zlen_nonneg u). eapply room_less; [done|lia].
Qed.
End MountAt.

Lemma lor_create flag : Z.land flag MCREATE <> 0 -> Z.lor flag MCREATE = flag.
Proof.
  intros H. apply Z.bits_inj. intros n. rewrite Z.lor_spec. change MCREATE with (2 ^ 2) in *.
  rewrite Z.pow2_bits_eqb by lia. destruct (Z.eqb_spec 2 n) as [<-|]; [|by rewrite orb_false_r].
  rewrite orb_true_r. symmetry. destruct (Z.testbit flag 2) eqn:E; [done|]. exfalso. apply H.
  apply Z.bits_inj. intros k. rewrite Z.land_spec, Z.pow2_bits_eqb, Z.bits_0 by lia.
  destruct (Z.eqb_spec 2 k) as [<-|]; [by rewrite E|by rewrite andb_false_r].
Qed.

(** What is mounted after a mount with [flag] of the channel [new], which had the union [u],
    where [cur] was mounted. *)
Definition mounted (flag new : Z) (spec : option (list Z)) (u cur : list ment) : list ment :=
  let order := Z.land flag MORDER in
  joined_mounts order (if decide (order = MREPL) then [] else cur)
    ((new, flag, spec) :: ((fun e : ment => (e.1.1, copy_flag order, e.2)) <$> tail u)).

Lemma copies_ment flg l l' : copies flg l l' ->
  ment_of <$> l'.*2 = (fun e : ment => (e.1.1, flg, e.2)) <$> (ment_of <$> l.*2).
Proof.
  induction 1 as [|[a x] [b y] l l' (H1 & H2 & H3) H IH]; [done|]. cbn in *. rewrite IH. f_equal.
  unfold ment_of. cbn. by rewrite H1, H2, H3.
Qed.

Lemma joined_fmap {V W} (f : V -> W) order l0 l1 : f <$> joined_mounts order l0 l1 = joined_mounts order (f <$> l0) (f <$> l1).
Proof.
  unfold joined_mounts. destruct l0 as [|x l0].
  - rewrite !decide_False by (by intros [? _]). by rewrite fmap_app.
  - destruct (decide (order = MAFTER)).
    + rewrite !decide_True by done. by rewrite fmap_app.
    + rewrite !decide_False by (by intros [_ ?]). by rewrite fmap_app.
Qed.

Section MountAt2.
Context {R : Type}.

Lemma drop_mounts_ok s A ext m mo l0 order : rc s A ext -> m ∈ A -> mheads s !! m = Some mo -> mh_mount mo = hd_or l0 0 ->
  mlist s m l0 ->
  let l0' := if decide (order = MREPL) then [] else l0 in
  exists s', drop_mounts (R := R) m order s = (Go tt, s') /\ only A m s s' /\ rc s' A ext /\ (forall k, room s k -> room s' k) /\
    (forall a ao, a ∉ l0.*1 -> mounts s !! a = Some ao -> mounts s' !! a = Some ao) /\
    mlist s' m l0' /\ (exists mo', mheads s' !! m = Some mo' /\ mh_mount mo' = hd_or l0' 0).
Proof.
  intros I HmA Hm Hf Hl l0'. unfold drop_mounts. rewrite (cbind_go _ _ _ _ _ (mhget_go _ _ _ Hm)). rewrite Hf.
  assert (hd_or l0 0 <> 0 <-> l0 <> []) as Hl0.
  { destruct l0 as [|[a v] l]; [done|]. apply mlist_cons in Hl as (? & _). done. }
  destruct (decide (hd_or l0 0 <> 0 /\ order = MREPL)) as [[Hn ->]|Hno].
  - unfold l0'. rewrite decide_True by done.
    destruct (mountfree_ok (R := R) s A ext m l0 I Hl) as (s1 & E1 & I1 & K1 & M1 & _ & _ & R1).
    rewrite (cbind_go _ _ _ _ _ E1). destruct (km_mheads _ _ _ K1 m mo HmA Hm) as (n & Hm1).
    rewrite (mhset_go _ _ _ _ Hm1). destruct (only_rc_head A ext m s1 _ 0 I1 Hm1) as (O2 & I2 & R2).
    assert (forall a ao, a ∉ l0.*1 -> mounts s !! a = Some ao -> mounts s1 !! a = Some ao) as Keep.
    { intros a ao Ha Hao. rewrite M1. clear - Ha Hao. induction l0.*1 as [|b r IH]; [done|]. cbn.
      apply not_elem_of_cons in Ha as [? Ha]. rewrite lookup_delete_ne by done. by apply IH. }
    eexists. split_and!; [done|..|by eexists; split; [cbn; by rewrite lookup_insert_eq|]].
    + eapply only_trans; [|exact O2]. apply keepm_only; [done..|]. intros a ao Ha Hne. apply Keep; [|done].
      intros Hin. destruct (mlist_in _ _ _ _ Hl Hin) as (ao' & Hao' & Hh). congruence.
    + done.
    + intros k Rm. by apply R2, R1.
    + done.
    + apply mlist_nil.
  - exists s. assert (l0' = l0) as ->.
    { unfold l0'. case_decide; [|done]. destruct l0 as [|x l]; [done|]. exfalso. apply Hno. split; [by apply Hl0|done]. }
    split_and!; try done; [apply only_refl|by exists mo].
Qed.

Lemma mount_at_ok s A ext L g T i ch1 m v ch2 new flag spec mh u k : rc s A ext -> ns s A ∅ L -> L !! g = Some T ->
  T !! i = Some (ch1 ++ (m, v) :: ch2) -> 0 < ext (RChan new) -> union_list s mh u -> room s (zlen u + (k + 1)) -> 0 <= k ->
  exists s' l, let T' := <[i := ch1 ++ (m, MHVal (hv_from v) (hv_key v) l) :: ch2]> T in
    mount_at (R := R) m new flag spec mh s = (Go (u32 (next_id s)), s') /\ rc s' A ext /\ ns s' A ∅ (<[g := T']> L) /\
    nsmap T' = <[hv_key v := mounted flag new spec (ment_of <$> u.*2) (ment_of <$> (hv_mounts v).*2)]> (nsmap T) /\
    l <> [] /\ room s' k.
Proof.
  intros I N Hg Hi Hnew Hu Rm Hk. pose proof (zlen_nonneg u). set (order := Z.land flag MORDER).
  assert (m ∈ A) as HmA.
  { eapply ns_table_in; [exact N|exact Hg|]. eapply in_heads; [exact Hi|]. rewrite fmap_app, elem_of_app. right. by left. }
  destruct (table_chain_ok _ _ _ _ _ (ns_table _ _ _ _ N g T Hg) Hi) as (h & Hok).
  destruct (chain_mhead _ _ _ _ (m, v) Hok) as [Hl0 (mo & Hmo & Hf) _ _].
  { rewrite elem_of_app. right. by left. }
  cbn [fst snd] in *. set (l0 := hv_mounts v) in *.
  destruct (newmount_ok (R := R) s A ext m new flag spec (zlen u + k) I (or_introl Hnew)) as (s1 & E1 & I1 & K1 & M1 & _ & B1 & H1 & Rm1).
  { by replace (zlen u + k + 1) with (zlen u + (k + 1)) by lia. }
  { lia. }
  pose proof (proj1 (proj2 (proj2 (rc_addr _ _ _ I)))) as Hbl.
  set (nm := brk s) in *. set (no := MkMount (u32 (next_id s)) 0 m 0 0 new flag spec) in *.
  assert (forall a ao, mounts s !! a = Some ao -> a <> nm) as Hnm by (intros a ao Ha; specialize (Hbl _ _ Ha); unfold nm; lia).
  assert (forall a ao, mounts s !! a = Some ao -> mounts s1 !! a = Some ao) as Keep1.
  { intros a ao Ha. rewrite M1, lookup_insert_ne; [done|]. intros <-. by apply (Hnm _ _ Ha). }
  assert (nm ∉ u.*1) as Hnu.
  { destruct Hu as [[_ ->]|(_ & Hul & _)]; [apply not_elem_of_nil|]. intros Hin.
    destruct (mlist_in _ _ _ _ Hul Hin) as (ao & Hao & _). by apply (Hnm _ _ Hao). }
  assert (nm ∉ l0.*1) as Hnl.
  { intros Hin. destruct (mlist_in _ _ _ _ Hl0 Hin) as (ao & Hao & _). by apply (Hnm _ _ Hao). }
  destruct (mount_union_ok (R := R) s1 A ext m nm no mh u order k I1) as (s2 & lc & E2 & I2 & K2 & Lc & Cc & Mn2 & Keep2 & Fb & H2 & Rm2); try done.
  { apply (union_list_keep s); [done|rewrite H1; by eauto|done]. }
  { rewrite M1. by rewrite lookup_insert_eq. }
  set (l1 := (nm, MVal new flag spec) :: lc).
  assert (forall a, a ∈ lc.*1 -> nm < a) as Hlc by (intros a Ha; rewrite list.Forall_forall in Fb; specialize (Fb a Ha); unfold nm; lia).
  assert (forall a, a ∈ l1.*1 -> a ∉ l0.*1) as Hdj.
  { intros a Ha Hin. destruct (mlist_in _ _ _ _ Hl0 Hin) as (ao & Hao & _). specialize (Hbl _ _ Hao). fold nm in Hbl.
    cbn in Ha. apply elem_of_cons in Ha as [->|Ha]; [lia|]. specialize (Hlc a Ha). lia. }
  assert (mlist s2 m l1) as L1.
  { apply mlist_cons. split_and!; [pose proof (rc_brk _ _ _ I); unfold nm; lia| |by intros Ha%Hlc; lia|done].
    apply mnode_some. eexists. split_and!; [exact Mn2|done..]. }
  assert (mlist s2 m l0) as L0.
  { eapply mlist_ext; [|exact Hl0]. intros a ao _ Hao. apply Keep2; [by eapply Hnm|by apply Keep1]. }
  assert (mheads s2 !! m = Some mo) as Hm2 by (by rewrite H2, H1).
  destruct (drop_mounts_ok s2 A ext m mo l0 order I2 HmA Hm2 Hf L0) as (s3 & E3 & O3 & I3 & R3 & Keep3 & L3 & mo3 & Hm3 & Hf3).
  set (l0' := if decide (order = MREPL) then [] else l0) in *.
  assert (mlist s3 m l1) as L13.
  { eapply mlist_ext; [|exact L1]. intros a ao Ha. apply Keep3. by apply Hdj. }
  assert (mounts s3 !! nm = Some (set_mt_next (hd_or lc 0) no)) as Hn3 by (apply Keep3; [done|exact Mn2]).
  assert (cwhen (R := R) (bool_decide (Z.land flag MCREATE <> 0)) (mtset nm (fun mo => set_mt_flag (Z.lor (mt_flag mo) MCREATE) mo)) s3 = (Go tt, s3)) as E4.
  { case_bool_decide as Hc; [|done]. cbn [cwhen]. rewrite (mtset_go _ _ _ _ Hn3). cbn [mt_flag set_mt_next no].
    rewrite lor_create by done. rewrite insert_id by done. by destruct s3. }
  destruct (link_mount_ok (R := R) s3 A ext m mo3 l0' l1 order I3 Hm3 Hf3 L3 L13) as (s5 & E5 & O5 & I5 & R5 & L5 & (mo5 & Hm5 & Hf5) & Id5).
  { done. }
  { rewrite fmap_app. apply list.NoDup_app. split_and!; [apply L3| |apply L13]. intros a Ha Hb. apply (Hdj a Hb).
    unfold l0' in Ha. case_decide; [by apply not_elem_of_nil in Ha|done]. }
  destruct (Id5 nm _ Hn3) as (x & Hn5).
  assert (only A m s s5) as O.
  { eapply only_trans; [apply (keepm_only A m s s1); [done..|intros a ao Ha _; by apply Keep1]|].
    eapply only_trans; [apply (keepm_only A m s1 s2); [done..|]|by eapply only_trans].
    intros a ao Ha Hne. apply Keep2; [|done]. intros ->. rewrite M1, lookup_insert_eq in Ha. by injection Ha as <-. }
  destruct (ns_relist s s5 A L g T i ch1 m v ch2 (joined_mounts order l0' l1) N Hg Hi) as [N5 Hns5]; [apply O|apply O|done| |].
  { intros mo0 Hmo0. destruct (on_head _ _ _ _ O mo0 Hmo0) as (mo' & Hmo' & ? & ?). exists mo'. split_and!; try done. congruence. }
  exists s5, (joined_mounts order l0' l1). split_and!; try done.
  - unfold mount_at. fold order. rewrite (cbind_go _ _ _ _ _ E1), (cbind_go _ _ _ _ _ E2), (cbind_go _ _ _ _ _ E3), (cbind_go _ _ _ _ _ E4).
    change nm with (hd_or l1 0). rewrite (cbind_go _ _ _ _ _ E5). change (hd_or l1 0) with nm.
    by rewrite (cbind_go _ _ _ _ _ (mtget_go _ _ _ Hn5)).
  - rewrite Hns5. f_equal. rewrite !joined_fmap. unfold mounted. fold order. f_equal.
    + unfold l0'. destruct (decide (order = MREPL)); reflexivity.
    + unfold l1. cbn. f_equal. rewrite (copies_ment _ _ _ Cc). by destruct u as [|[a w] u].
  - unfold joined_mounts. unfold l1. destruct (decide (l0' <> [] /\ order = MAFTER)) as [[Hd _]|_]; [by destruct l0'|done].
  - eapply room_less; [by apply R5, R3|lia].
Qed.
End MountAt2.

(** ** The name spaces of all groups *)

(** Something is mounted at all mount points, but for [X]. *)
Definition full (X : gset Z) (L : gmap Z tab) : Prop :=
  forall g T x, L !! g = Some T -> x ∈ concat T -> x.1 ∉ X -> hv_mounts x.2 <> [].

(** The invariant: counts, tables, and no mount point without a mount; [ext] are the
    references that are held. *)
Definition all_heads (L : gmap Z tab) : gset Z := list_to_set (map_to_list L ≫= fun p => heads p.2).

Record nsok (s : kst) (L : gmap Z tab) (ext : obj -> Z) : Prop := {
  nk_rc : rc s (all_heads L) ext;
  nk_ns : ns s (all_heads L) ∅ L;
  nk_full : full ∅ L }.

Lemma elem_of_all_heads L m : m ∈ all_heads L <-> exists g T, L !! g = Some T /\ m ∈ heads T.
Proof.
  unfold all_heads. rewrite elem_of_list_to_set, list_elem_of_bind. split.
  - intros ([g T] & Hm & Hg). exists g, T. by rewrite <- elem_of_map_to_list.
  - intros (g & T & Hg & Hm). exists (g, T). by rewrite elem_of_map_to_list.
Qed.

Lemma nsok_intro s A L ext : rc s A ext -> ns s A ∅ L -> full ∅ L -> nsok s L ext.
Proof.
  intros I N F. assert (A = all_heads L) as E by (apply set_eq; intros m; rewrite elem_of_all_heads; apply N).
  rewrite E in I, N. by constructor.
Qed.

(** What is mounted at the mount point [mh], if it is one of a table. *)
Definition union_at (L : gmap Z tab) (mh : Z) (u : list ment) : Prop :=
  (exists g T v, L !! g = Some T /\ (mh, v) ∈ concat T /\ u = ment_of <$> (hv_mounts v).*2) \/
  (forall g T, L !! g = Some T -> mh ∉ heads T) /\ u = [].

Lemma head_in_mhead s A X L g T m v : ns s A X L -> L !! g = Some T -> (m, v) ∈ concat T ->
  exists i, mhead_ok s i m v.
Proof.
  intros N Hg Hv. apply list_elem_of_In, in_concat in Hv as (c & Hc & Hx). apply list_elem_of_In in Hc, Hx.
  apply list_elem_of_lookup in Hc as [j Hj]. destruct (table_chain_ok _ _ _ _ _ (ns_table _ _ _ _ N g T Hg) Hj) as (h & Hok).
  exists (Z.of_nat j). by apply (chain_mhead _ _ _ _ (m, v) Hok).
Qed.

Lemma head_from s A X L g T m v mo : ns s A X L -> L !! g = Some T -> (m, v) ∈ concat T -> mheads s !! m = Some mo ->
  mh_from mo = hv_from v.
Proof.
  intros N Hg Hv Hmo. apply list_elem_of_In, in_concat in Hv as (c & Hc & Hx). apply list_elem_of_In in Hc, Hx.
  apply list_elem_of_lookup in Hc as [j Hj]. destruct (table_chain_ok _ _ _ _ _ (ns_table _ _ _ _ N g T Hg) Hj) as (h & _ & Hp).
  apply list_elem_of_split in Hx as (c1 & c2 & ->). apply part_app in Hp as [_ Hp]. apply part_cons in Hp as [(_ & Hn & _) _].
  unfold hnode in Hn. rewrite Hmo in Hn. by injection Hn as -> _.
Qed.

Lemma head_in_concat (T : tab) m : m ∈ heads T -> exists v, (m, v) ∈ concat T.
Proof. intros ([m' v] & E & H)%list_elem_of_fmap. cbn in E. subst m'. by exists v. Qed.

Lemma union_ex s A L mh : ns s A ∅ L -> (mh <> 0 -> is_Some (mheads s !! mh)) -> (0 ∉ A) ->
  exists ul, union_list s mh ul /\ union_at L mh (ment_of <$> ul.*2).
Proof.
  intros N Hm H0. destruct (decide (mh = 0)) as [->|Hz].
  { exists []. split; [by left|]. right. split; [|done]. intros g T Hg Hin. apply H0. by eapply ns_table_in. }
  destruct (Hm Hz) as [mo Hmo]. destruct (decide (mh ∈ A)) as [Ha|Ha].
  - apply (ns_att _ _ _ _ N) in Ha as (g & T & Hg & Hin). destruct (head_in_concat T mh Hin) as [v Hv].
    destruct (head_in_mhead _ _ _ _ _ _ _ _ N Hg Hv) as (i & Hok). exists (hv_mounts v). split.
    + right. split_and!; [done|apply Hok|]. apply Hok.
    + left. by exists g, T, v.
  - exists []. split.
    + right. split_and!; [done|apply mlist_nil|]. exists mo. split; [done|]. apply (ns_det _ _ _ _ N mh); [done..|apply not_elem_of_empty].
    + right. split; [|done]. intros g T Hg Hin. apply Ha. by eapply ns_table_in.
Qed.

Lemma union_unique s A L mh u u' : ns s A ∅ L -> union_at L mh u -> union_at L mh u' -> u = u'.
Proof.
  intros N [(g & T & v & Hg & Hv & ->)|[Hno ->]] [(g' & T' & v' & Hg' & Hv' & ->)|[Hno' ->]]; try done.
  - assert (mh ∈ heads T /\ mh ∈ heads T') as [H1 H2] by (split; by apply (list_elem_of_fmap_2 fst) in Hv, Hv').
    assert (g = g') as <- by (by apply (ns_disj _ _ _ _ N g g' T T' mh)). assert (T = T') as <- by congruence.
    assert (v = v') as <-; [|done]. pose proof (ns_nodup _ _ _ _ N g T Hg) as Hd. unfold heads in Hd.
    apply list_elem_of_lookup in Hv as [i Hi]. apply list_elem_of_lookup in Hv' as [j Hj].
    assert (i = j) as <-; [|congruence]. apply (list.NoDup_lookup _ i j mh Hd); rewrite list_lookup_fmap; [by rewrite Hi|by rewrite Hj].
  - exfalso. apply (Hno' g T Hg). by apply (list_elem_of_fmap_2 fst) in Hv.
  - exfalso. apply (Hno g' T' Hg'). by apply (list_elem_of_fmap_2 fst) in Hv'.
Qed.

(** A mount with create permission of a union that is more than a mount with it. *)
Definition create_refused (flag : Z) (u : list ment) : bool :=
  bool_decide (Z.land flag MCREATE <> 0) &&
  match u with [] => false | e :: u' => bool_decide (u' <> []) || bool_decide (Z.land e.1.2 MCREATE = 0) end.

(** The mounts that [cmount] refuses. *)
Definition mount_refused (oc nc : Chan) (flag : Z) (u : list ment) : bool :=
  bool_decide (Z.land QTDIR (Z.lxor (q_type (c_qid oc)) (q_type (c_qid nc))) <> 0) ||
  bool_decide (Z.land (q_type (c_qid oc)) QTDIR = 0 /\ Z.land flag MORDER <> MREPL) ||
  create_refused flag u.

(** The lists that are not empty. *)
Lemma full_relist s A L g T i ch1 m v ch2 l : ns s A ∅ L -> L !! g = Some T -> T !! i = Some (ch1 ++ (m, v) :: ch2) ->
  full {[m]} L -> l <> [] -> full ∅ (<[g := <[i := ch1 ++ (m, MHVal (hv_from v) (hv_key v) l) :: ch2]> T]> L).
Proof.
  intros N Hg Hi F Hl g1 T1 x. destruct (concat_mid T i ch1 [(m, v)] ch2 Hi) as (a & b & D1 & D2).
  specialize (D2 [(m, MHVal (hv_from v) (hv_key v) l)]). cbn [app] in D1, D2.
  pose proof (ns_nodup _ _ _ _ N g T Hg) as Hd. unfold heads in Hd. rewrite D1 in Hd. apply (heads_mid a b (m, v)) in Hd as [Hd _].
  destruct (decide (g1 = g)) as [->|Hne].
  - rewrite lookup_insert_eq. intros [= <-] Hx _. rewrite D2 in Hx. rewrite elem_of_app, elem_of_cons in Hx.
    destruct Hx as [Hx|[->|Hx]]; [|done|]; apply (F g T x Hg); rewrite ?D1, ?elem_of_app, ?elem_of_cons; try tauto;
      intros Hxm%elem_of_singleton; apply Hd; cbn [fst]; rewrite <- Hxm, fmap_app, elem_of_app; [left|right]; by apply list_elem_of_fmap_2.
  - rewrite lookup_insert_ne by done. intros Hg1 Hx _. apply (F g1 T1 x Hg1 Hx). intros Hxm%elem_of_singleton. apply Hne.
    apply (ns_disj _ _ _ _ N g1 g T1 T m); [done|done|rewrite <- Hxm; by apply list_elem_of_fmap_2|].
    eapply in_heads; [exact Hi|]. rewrite fmap_app, elem_of_app. right. by left.
Qed.

(** A table loses mount points. *)
Lemma full_sub X L g T T' : full X L -> L !! g = Some T -> (forall x, x ∈ concat T' -> x ∈ concat T) -> full X (<[g := T']> L).
Proof.
  intros F Hg H g1 T1 x. destruct (decide (g1 = g)) as [->|Hne].
  - rewrite lookup_insert_eq. intros [= <-] Hx. by apply (F g T x Hg), H.
  - rewrite lookup_insert_ne by done. apply F.
Qed.

Section Cmount.
Context {R : Type}.

Lemma bad_create_ok s flag mh ul : union_list s mh ul ->
  bad_create (R := R) flag mh s = (Go (create_refused flag (ment_of <$> ul.*2)), s).
Proof.
  intros Hu. unfold bad_create, create_refused. destruct (decide (Z.land flag MCREATE <> 0)) as [Hc|Hc].
  2: { rewrite decide_False by tauto. rewrite bool_decide_false by done. done. }
  rewrite bool_decide_true by done. cbn [andb]. destruct Hu as [[-> ->]|(Hz & Hl & mo & Hm & Hf)].
  { by rewrite decide_False by (by intros [_ ?]). }
  rewrite decide_True by done. rewrite (cbind_go _ _ _ _ _ (mhget_go _ _ _ Hm)). rewrite Hf.
  destruct ul as [|[a v] ul]; [done|]. apply mlist_cons in Hl as (Ha & (ao & Hao & Hh & Hv & Hn)%mnode_some & _ & Hl).
  change (hd_or ((a, v) :: ul) 0) with a. rewrite decide_True by done. rewrite (cbind_go _ _ _ _ _ (mtget_go _ _ _ Hao)).
  rewrite Hn. cbn [fmap list_fmap snd ment_of fst]. rewrite <- Hv. cbn. unfold cret. do 3 f_equal.
  apply bool_decide_ext. destruct ul as [|[b w] ul]; [done|]. apply mlist_cons in Hl as (? & _). done.
Qed.

(** [get_mhead]: the mount point of [old] is in its chain then. *)
Lemma get_mhead_ok s L ext g T old order oc k : nsok s L ext -> L !! g = Some T -> chans s !! old = Some oc ->
  0 < ext (RChan old) -> room s (k + 2) -> 0 <= k ->
  exists s' A' i ch1 m v ch2 T', get_mhead (R := R) g old order oc s = (Go m, s') /\ rc s' A' ext /\
    ns s' A' ∅ (<[g := T']> L) /\ full {[m]} (<[g := T']> L) /\ T' !! i = Some (ch1 ++ (m, v) :: ch2) /\
    hv_key v = key_of oc /\
    ment_of <$> (hv_mounts v).*2 = default (first_mounts old order) (nsmap T !! key_of oc) /\
    (forall l, <[key_of oc := l]> (nsmap T') = <[key_of oc := l]> (nsmap T)) /\
    (forall x xo, mheads s !! x = Some xo -> exists xo', mheads s' !! x = Some xo' /\ mh_mount xo' = mh_mount xo) /\
    (forall a mo, mounts s !! a = Some mo -> mounts s' !! a = Some mo) /\ room s' k.
Proof.
  intros [I N F] Hg Hoc Hh Rm Hk. unfold get_mhead.
  destruct (find_mhead_table (R := R) s _ _ L g T oc N Hg) as [(ch & Hi & Hno & E)|(ch1 & m & v & ch2 & Hi & Hkv & Hm0 & E)];
    rewrite (cbind_go _ _ _ _ _ E); cbn [fst snd].
  - rewrite decide_True by done.
    destruct (add_mhead_ok (R := R) s _ ext L g T ch old order oc k I N Hg Hoc Hi Hh Hno Rm Hk)
      as (s' & v & E' & I' & N' & Hkv & Hv & Hns & Fh & Fm & _ & Hm0 & Rm').
    set (T' := <[_ := _]> T) in *.
    exists s', ({[brk s]} ∪ all_heads L), (hindex (key_of oc)), ch, (brk s), v, [], T'. split_and!; try done.
    + intros g1 T1 x. destruct (decide (g1 = g)) as [->|Hne].
      * rewrite lookup_insert_eq. intros [= <-] Hx Hxm. apply (F g T x Hg); [|apply not_elem_of_empty].
        destruct (concat_mid T (hindex (key_of oc)) ch [] []) as (a & b & E1 & E2); [by rewrite !app_nil_r|].
        specialize (E2 [(brk s, v)]). cbn [app] in E1, E2. fold T' in E2. rewrite E2 in Hx. rewrite E1.
        rewrite elem_of_app, elem_of_cons in Hx. rewrite elem_of_app. destruct Hx as [?|[->|?]]; [tauto| |tauto].
        exfalso. apply Hxm. by apply elem_of_singleton.
      * rewrite lookup_insert_ne by done. intros Hg1 Hx _. apply (F g1 T1 x Hg1 Hx), not_elem_of_empty.
    + unfold T'. rewrite list_lookup_insert_eq; [done|]. by eapply lookup_lt_Some.
    + rewrite Hv. unfold nsmap. by rewrite nsm_none.
    + intros l. by rewrite Hns, insert_insert_eq.
  - rewrite decide_False by done. exists s, (all_heads L), (hindex (key_of oc)), ch1, m, v, ch2, T.
    rewrite insert_id by done. split_and!; try done.
    + intros g1 T1 x Hg1 Hx _. apply (F g1 T1 x Hg1 Hx), not_elem_of_empty.
    + rewrite <- Hkv. unfold nsmap. pose proof (nsm_in (concat T) (m, v)) as G. cbn [snd] in G.
      rewrite G; [done|by apply (ns_keys _ _ _ _ N g)|]. apply list_elem_of_In, in_concat. eexists. split; [apply list_elem_of_In; by eapply list_elem_of_lookup_2|].
      apply list_elem_of_In, elem_of_app. right. by left.
    + by eauto.
    + eapply room_less; [done|lia].
Qed.

(** [cmount]: the mount is refused, or the name space of the group changes at the key of
    [old]. *)
Lemma cmount_ok s L ext g T new old flag spec oc nc u k : nsok s L ext -> L !! g = Some T ->
  chans s !! old = Some oc -> chans s !! new = Some nc -> 0 < ext (RChan old) -> 0 < ext (RChan new) ->
  union_at L (c_umh nc) u -> room s (zlen u + (k + 3)) -> 0 <= k ->
  if mount_refused oc nc flag u then cmount (R := R) g new old flag spec s = (Go ONERR, set_kerrstr Emount s)
  else exists id s' T', cmount (R := R) g new old flag spec s = (Go id, s') /\ nsok s' (<[g := T']> L) ext /\ room s' k /\
    nsmap T' = <[key_of oc := mounted flag new spec u
      (default (first_mounts old (Z.land flag MORDER)) (nsmap T !! key_of oc))]> (nsmap T).
Proof.
  intros NK Hg Hoc Hnc Ho Hn Hu Rm Hk. pose proof NK as [I N F]. pose proof (zlen_nonneg u).
  destruct (union_ex s _ L (c_umh nc) N) as (ul & Hul & Hu').
  { intros Hz. destruct (live_chan _ _ _ new I (or_introl Hn)) as (co & Hco & Hf & _). assert (co = nc) as -> by congruence.
    destruct (rcount_some _ _ _ (RMhead (c_umh nc)) I) as (n & Hc & _); [|cbn in Hc; destruct (mheads s !! c_umh nc); [by eexists|done]].
    right. apply (refs_chan s _ new nc); [done|]. unfold out_chan. rewrite Hf. rewrite nzr_ne by done. by left. }
  { intros Ha. destruct (rc_att _ _ _ I 0 Ha) as [mo Hmo].
    pose proof (below_in _ (mheads s) _ _ (proj1 (proj2 (proj2 (proj2 (rc_addr _ _ _ I))))) Hmo). lia. }
  assert (u = ment_of <$> ul.*2) as -> by (by eapply union_unique).
  unfold cmount. rewrite (cbind_go _ _ _ _ _ (chget_go _ _ _ Hoc)), (cbind_go _ _ _ _ _ (chget_go _ _ _ Hnc)).
  unfold mount_refused. destruct (decide (Z.land QTDIR (Z.lxor (q_type (c_qid oc)) (q_type (c_qid nc))) <> 0)) as [H1|H1].
  { by rewrite (bool_decide_true _ H1). }
  rewrite (bool_decide_false _ H1). cbn [orb].
  destruct (decide (Z.land (q_type (c_qid oc)) QTDIR = 0 /\ Z.land flag MORDER <> MREPL)) as [H2|H2].
  { by rewrite (bool_decide_true _ H2). }
  rewrite (bool_decide_false _ H2). cbn [orb].
  rewrite (cbind_go _ _ _ _ _ (bad_create_ok s flag (c_umh nc) ul Hul)). destruct (create_refused flag _) eqn:Hcr; [done|].
  destruct (get_mhead_ok s L ext g T old (Z.land flag MORDER) oc (zlen ul + (k + 1)) NK Hg Hoc Ho)
    as (s1 & A1 & i & ch1 & m & v & ch2 & T1 & E1 & I1 & N1 & F1 & Hi1 & Hkv & Hcur & Hins & Fh & Fm & Rm1).
  { unfold zlen in *. rewrite !length_fmap in Rm. by replace (Z.of_nat (length ul) + (k + 1) + 2) with (Z.of_nat (length ul) + (k + 3)) by lia. }
  { pose proof (zlen_nonneg ul). lia. }
  rewrite (cbind_go _ _ _ _ _ E1).
  destruct (mount_at_ok (R := R) s1 A1 ext (<[g := T1]> L) g T1 i ch1 m v ch2 new flag spec (c_umh nc) ul k I1 N1)
    as (s2 & l & E2 & I2 & N2 & Hns2 & Hl & Rm2); try done.
  { by rewrite lookup_insert_eq. }
  { by apply (union_list_keep s). }
  set (T2 := <[i := _]> T1) in *. rewrite insert_insert_eq in N2.
  exists (u32 (next_id s1)), s2, T2. split_and!; [done| |done|by rewrite Hns2, Hkv, Hcur, Hins].
  eapply nsok_intro; [done..|]. pose proof (full_relist s1 A1 _ g T1 i ch1 m v ch2 l N1 (lookup_insert_eq _ _ _) Hi1 F1 Hl) as Fl.
  by rewrite insert_insert_eq in Fl.
Qed.
End Cmount.
