(* ===== verification/UnmountSpec.v ===== *)
(** What [findmount], [cunmount] and [undomount] do. *)

From S2P Require Import Prelude Mem Links Sums Fcall9P Chan ChanSpec Mount MountSpec TableSpec MountOps.

(** ** Steps that leave the tables as they are *)

Lemma ns_keeps s s' A L : ns s A ∅ L -> keeps A s s' -> ns s' A ∅ L.
Proof.
  intros N K. apply (ns_same s); [done| |set_solver|intros g T _; by rewrite (kp_pgrps _ _ _ K)].
  apply keepm_rest; [by apply keeps_keepm|]. intros a mo Ha _ _. by rewrite (kp_mounts _ _ _ K).
Qed.

Lemma nsok_keeps s s' L ext ext' : nsok s L ext -> rc s' (all_heads L) ext' -> keeps (all_heads L) s s' -> nsok s' L ext'.
Proof. intros [I N F] I' K. constructor; [done|by apply (ns_keeps s)|done]. Qed.

Lemma keeps_recount_mhead A s m x : keeps A s (set_rcount (RMhead m) x s).
Proof.
  constructor; try done.
  - intros d mo _ Hd. cbn. destruct (decide (d = m)) as [->|Hne]; [rewrite lookup_alter_eq, Hd; by exists x|].
    rewrite lookup_alter_ne by done. exists (mh_ref mo). by rewrite set_mh_ref_id.
  - intros d mo'. cbn. destruct (decide (d = m)) as [->|Hne].
    + rewrite lookup_alter_eq. destruct (mheads s !! m) as [mo|]; [|done]. intros [= <-]. by exists mo.
    + rewrite lookup_alter_ne by done. exists mo'. by rewrite set_mh_ref_id.
  - intros c co Hc. by exists co.
Qed.

Lemma nsm_lookup (T : tab) k e : nsmap T !! k = Some e -> exists m v, (m, v) ∈ concat T /\ hv_key v = k /\ e = ment_of <$> (hv_mounts v).*2.
Proof.
  intros H%elem_of_list_to_map_2. apply list_elem_of_fmap in H as ([m v] & E & H). injection E as -> ->. by exists m, v.
Qed.

Section Findmount.
Context {R : Type}.

Lemma hlink_tab s g T i ch : table s g T -> T !! i = Some ch -> hlink (R := R) g (HTab (Z.of_nat i)) s = (Go (hd_or (hnodes ch) 0), s).
Proof. intros Ht Hi. by apply (hlink_ok g T i [] ch s). Qed.

Lemma key_place s A X L g T k ch d1 d2 : ns s A X L -> L !! g = Some T -> T !! hindex k = Some ch -> ch = d1 ++ d2 ->
  (d2 = [] -> k ∉ hv_key <$> d1.*2) -> (d2 = [] \/ exists m v d, d2 = (m, v) :: d /\ hv_key v = k) ->
  nsmap T !! k = match d2 with [] => None | x :: _ => Some (ment_of <$> (hv_mounts x.2).*2) end.
Proof.
  intros N Hg Hi -> Hno Hd2. destruct Hd2 as [->|(m & v & d & -> & Hk)].
  - apply nsm_none. intros Hin. apply Hno; [done|]. rewrite app_nil_r in Hi. eapply key_in_chain; [by apply (ns_table _ _ _ _ N)|done..].
  - pose proof (nsm_in (concat T) (m, v)) as G. cbn [snd] in G. rewrite <- Hk. apply G; [by apply (ns_keys _ _ _ _ N g)|].
    apply list_elem_of_In, in_concat. eexists. split; [apply list_elem_of_In; by eapply list_elem_of_lookup_2|].
    apply list_elem_of_In, elem_of_app. right. by left.
Qed.

(** [findmount]: what is mounted first, and the mount point, in exchange for [*cp] and [*mp]. *)
Lemma findmount_ok s L ext g T cp mp type dev qid k : nsok s L ext -> L !! g = Some T ->
  covers ext (nzr RMhead mp ++ nzr RChan cp) -> room s (k + 2) -> 0 <= k ->
  match nsmap T !! (type, dev, q_path qid) with
  | None => findmount (R := R) g cp mp type dev qid s = (Go (false, cp, mp), s)
  | Some [] => False
  | Some (e :: _) => exists m s', findmount (R := R) g cp mp type dev qid s = (Go (true, e.1.1, m), s') /\
      nsok s' L (hold (hold (less ext (nzr RMhead mp ++ nzr RChan cp)) (RMhead m) 1) (RChan e.1.1) 1) /\
      keeps (all_heads L) s s' /\ room s' k /\
      (exists v, (m, v) ∈ concat T /\ hv_key v = (type, dev, q_path qid)) /\
      (forall p po', paths s' !! p = Some po' -> exists po, paths s !! p = Some po /\ po' = set_p_ref (p_ref po') po)
  end.
Proof.
  intros NK Hg Hc Rm Hk. pose proof NK as [I N F]. set (key := (type, dev, q_path qid)).
  pose proof (ns_table _ _ _ _ N g T Hg) as Ht. destruct (table_chain s g T key Ht) as (ch & Hi).
  destruct (table_chain_ok _ _ _ _ _ Ht Hi) as (h & Hok). pose proof Hok as (_ & Hp).
  assert (NoDup ch.*1) as Hd.
  { destruct (heads_parts T (hindex key) ch [] []) as (? & _); [by rewrite !app_nil_r|by apply (ns_nodup _ _ _ _ N g)|done]. }
  pose proof (chain_size _ _ _ _ Hok Hd) as Hsz.
  assert (forall x, x ∈ ch -> hv_from x.2 <> 0) as Hz.
  { intros x Hx Hx0. destruct (mk_chan _ _ _ _ (chain_mhead _ _ _ _ _ Hok Hx)) as (co & Hco & _).
    pose proof (below_in _ (chans s) _ _ (proj1 (rc_addr _ _ _ I)) Hco). lia. }
  destruct (find_tdqid_ok (R := R) s _ type dev qid ch (S (size (mheads s))) Hp Hz) as (d1 & d2 & E & Hno & Hd2 & Ef); [lia|].
  rewrite (key_place s _ _ L g T key ch d1 d2 N Hg Hi E (fun _ => Hno) Hd2).
  unfold findmount, hfuel. rewrite (cbind_go _ _ s (S (size (mheads s))) s) by done.
  change (HTab (MOUNTH (q_path qid))) with (HTab (MOUNTH key.2)). rewrite hindex_loc.
  rewrite (cbind_go _ _ _ _ _ (hlink_ok g T (hindex key) [] ch s Ht Hi)), (cbind_go _ _ _ _ _ Ef).
  destruct Hd2 as [->|(m & v & d & -> & Hkv)]; [by rewrite decide_True|].
  change (hd_or (hnodes ((m, v) :: d)) 0) with m. cbn [snd].
  assert ((m, v) ∈ ch) as Hmch by (rewrite E, elem_of_app; right; by left).
  pose proof (chain_mhead _ _ _ _ _ Hok Hmch) as Hmk. cbn [fst snd] in Hmk.
  assert ((m, v) ∈ concat T) as HmT.
  { apply list_elem_of_In, in_concat. exists ch. split; apply list_elem_of_In; [by eapply list_elem_of_lookup_2|done]. }
  destruct (hv_mounts v) as [|[a w] l] eqn:Hv; [exfalso; by apply (F g T (m, v) Hg HmT (not_elem_of_empty _))|].
  cbn [fmap list_fmap snd]. destruct (mk_first _ _ _ _ Hmk) as (mo & Hmo & Hf). pose proof (mk_list _ _ _ _ Hmk) as Hl.
  rewrite Hv in Hf, Hl. apply mlist_cons in Hl as (Ha & (ao & Hao & Hh & Hw & Hn)%mnode_some & _).
  assert (m ∈ all_heads L) as HmA by (eapply ns_table_in; [exact N|exact Hg|by apply (list_elem_of_fmap_2 fst) in HmT]).
  assert (m <> 0) as Hm0.
  { intros ->. pose proof (below_in _ (mheads s) _ _ (proj1 (proj2 (proj2 (proj2 (rc_addr _ _ _ I))))) Hmo). lia. }
  rewrite decide_False by done.
  destruct (incref_room (R := R) s _ ext (RMhead m) (k + 1) I) as (n & Hcn & E1 & I1 & Rm1 & _).
  { right. apply (refs_mhead s _ m mo); [done|]. unfold out_mhead. rewrite decide_True by done. right. by left. }
  { by replace (k + 1 + 1) with (k + 2) by lia. }
  { lia. }
  rewrite (cbind_go _ _ _ _ _ E1). pose proof (keeps_recount_mhead (all_heads L) s m (n + 1)) as K1.
  set (s1 := set_rcount (RMhead m) (n + 1) s) in *.
  assert (covers (hold ext (RMhead m) 1) (nzr RMhead mp ++ nzr RChan cp)) as Hc1.
  { intros r. specialize (Hc r). unfold hold. case_decide; lia. }
  apply covers_app in Hc1 as [Hc1 Hc2].
  destruct (putmhead_ok (R := R) s1 _ _ mp I1 Hc1) as (s2 & E2 & I2 & C2).
  rewrite (cbind_go _ _ _ tt s2).
  2: { case_bool_decide; cbn [cwhen]; [done|]. unfold putmhead in E2. rewrite decide_True in E2 by lia. done. }
  destruct (cclose_if (R := R) s2 _ _ cp I2 Hc2) as (s3 & E3 & I3 & C3).
  rewrite (cbind_go _ _ _ _ _ E3).
  assert (keeps (all_heads L) s s3) as K3.
  { eapply kkeeps_trans; [exact K1|]. eapply kkeeps_trans; [exact (closing_keeps _ _ _ _ _ I2 C2)|exact (closing_keeps _ _ _ _ _ I3 C3)]. }
  destruct (kp_mheads _ _ _ K3 m mo HmA Hmo) as (n3 & Hm3). rewrite (cbind_go _ _ _ _ _ (mhget_go _ _ _ Hm3)).
  change (mh_mount (set_mh_ref n3 mo)) with (mh_mount mo). rewrite Hf. change (hd_or ((a, w) :: l) 0) with a.
  assert (mounts s3 !! a = Some ao) as Ha3 by (by rewrite (kp_mounts _ _ _ K3)).
  rewrite (cbind_go _ _ _ _ _ (mtget_go _ _ _ Ha3)).
  assert (room s3 (k + 1)) as Rm3 by (eapply room_closing; [exact C3|]; by eapply room_closing).
  destruct (incref_room (R := R) s3 _ _ (RChan (mt_to ao)) k I3) as (n4 & Hn4 & E4 & I4 & Rm4 & _); [|done|done|].
  { right. by apply (refs_mount s3 _ a). }
  rewrite (cbind_go _ _ _ _ _ E4). rewrite <- Hw. cbn [ment_of v_to mval_of fst].
  exists m, (set_rcount (RChan (mt_to ao)) (n4 + 1) s3).
  assert (keeps (all_heads L) s (set_rcount (RChan (mt_to ao)) (n4 + 1) s3)) as K4.
  { eapply kkeeps_trans; [exact K3|]. apply recounted_keeps, recounted_set. }
  split_and!; try done; [|by exists v|].
  2: { intros p po' Hpp. destruct (cl_paths _ _ _ C3 p po' Hpp) as (po2 & Hp2 & ->).
    destruct (cl_paths _ _ _ C2 p po2 Hp2) as (po1 & Hp1 & ->). exists po1. split; [done|]. by rewrite !set_p_ref_twice. }
  apply (nsok_keeps s _ L ext); [done| |done]. eapply rc_hold; [|exact I4]. intros r.
  unfold hold, less. rewrite occ_app. destruct (decide (r = RChan (mt_to ao))), (decide (r = RMhead m)); lia.
Qed.
End Findmount.

(** ** [cunmount] *)

(** The channel [c] is mounted and stands for [mo], itself or what a mount driver's channel
    is for. *)
Definition unmount_hit (s : kst) (mo : Chan) (c : Z) : bool :=
  match chans s !! c with
  | Some t =>
      eqchan t mo true ||
      (negb (c_mchan t =? 0) && match chans s !! c_mchan t with Some mc => eqchan mc mo true | None => false end)
  | None => false
  end.

(** A list without the first element that [p] holds of. *)
Fixpoint remove_first {V} (p : V -> bool) (l : list V) : option (list V) :=
  match l with
  | [] => None
  | x :: l' => if p x then Some l' else cons x <$> remove_first p l'
  end.

(** What is mounted in a name space after [cunmount] of all that is mounted. *)
Definition set_mounted (k : nskey) (l : list ment) (N : gmap nskey (list ment)) : gmap nskey (list ment) :=
  if decide (l = []) then delete k N else <[k := l]> N.

Section Unmount.
Context {R : Type}.

Lemma find_mounted_ok m mo l : forall fuel s A ext prev, rc s A ext -> mlist s m l -> (length l < fuel)%nat ->
  match remove_first (fun x => unmount_hit s mo (v_to x.2)) l with
  | None => find_mounted (R := R) fuel prev (hd_or l 0) mo s = (Go None, s)
  | Some r => exists la f w lb, l = la ++ (f, w) :: lb /\ r = la ++ lb /\
      find_mounted (R := R) fuel prev (hd_or l 0) mo s =
        (Go (Some (match list.last la with Some x => x.1 | None => prev end, f)), s)
  end.
Proof.
  induction l as [|[a w] l IH]; intros [|fuel] s A ext prev I Hl Hf; try (cbn in Hf; lia); [done|].
  apply mlist_cons in Hl as (Ha & (ao & Hao & Hh & Hv & Hn)%mnode_some & Hal & Hl).
  cbn [hd_or find_mounted remove_first]. rewrite decide_False by done. rewrite (cbind_go _ _ _ _ _ (mtget_go _ _ _ Hao)).
  assert (v_to w = mt_to ao) as Hto by (by rewrite <- Hv).
  destruct (live_chan s A ext (mt_to ao) I) as (to & Hto' & Hfr & _); [right; by apply (refs_mount s A a)|].
  rewrite (cbind_go _ _ _ _ _ (chget_go _ _ _ Hto')). cbn [snd]. unfold unmount_hit at 1. rewrite Hto, Hto'.
  set (hit := eqchan to mo true || _).
  assert ((if eqchan to mo true then cret (R := R) true
     else if decide (c_mchan to <> 0) then mc <- chget (c_mchan to);; cret (eqchan mc mo true) else cret false) s = (Go hit, s)) as Eh.
  { unfold hit. destruct (eqchan to mo true); [done|]. cbn [orb]. destruct (Z.eqb_spec (c_mchan to) 0) as [Hz|Hz]; cbn [negb andb].
    - by rewrite decide_False by (intros ?; done).
    - rewrite decide_True by done.
      destruct (live_chan s A ext (c_mchan to) I) as (mc & Hmc & _ & _).
      { right. apply (refs_chan s A (mt_to ao) to); [done|]. unfold out_chan. rewrite Hfr, !elem_of_app.
        right. right. left. rewrite nzr_ne by done. by left. }
      rewrite (cbind_go _ _ _ _ _ (chget_go _ _ _ Hmc)). by rewrite Hmc. }
  rewrite (cbind_go _ _ _ _ _ Eh). clear Eh. destruct hit; [by exists [], a, w, l|]. rewrite Hn.
  specialize (IH fuel s A ext a I Hl ltac:(cbn in Hf; lia)). destruct (remove_first _ l) as [r|]; [|done].
  destruct IH as (la & f & w' & lb & -> & -> & E). exists ((a, w) :: la), f, w', lb. split_and!; [done..|].
  rewrite E. destruct la as [|y la]; [done|].
  change (list.last ((a, w) :: y :: la)) with (list.last (y :: la)). destruct (list.last (y :: la)) eqn:El; [done|].
  by apply list.last_None in El.
Qed.

(** A [Mount] is taken out of the list at [m]. *)
Lemma set_mlink_ok s A ext m mo la f w lb prev : rc s A ext -> mheads s !! m = Some mo ->
  mh_mount mo = hd_or (la ++ (f, w) :: lb) 0 -> mlist s m (la ++ (f, w) :: lb) ->
  prev = match list.last la with Some x => x.1 | None => 0 end ->
  exists s' mo', (set_mlink (R := R) m prev (hd_or lb 0);; mtset f (set_mt_next 0)) s = (Go tt, s') /\
    only A m s s' /\ rc s' A ext /\ (forall k, room s k -> room s' k) /\ mlist s' m (la ++ lb) /\ mlist s' m [(f, w)] /\
    mheads s' !! m = Some mo' /\ mh_mount mo' = hd_or (la ++ lb) 0 /\ idents s s'.
Proof.
  intros I Hm Hf Hl ->. pose proof Hl as [Hs Hd].
  assert (Permutation (la ++ (f, w) :: lb) ((f, w) :: la ++ lb)) as Hperm by (by rewrite Permutation_middle).
  assert (NoDup ((f, w) :: la ++ lb).*1) as Hd' by (by rewrite <- Hperm).
  cbn in Hd'. apply list.NoDup_cons in Hd' as [Hfn Hd'].
  apply seg_app in Hs as [Hs1 Hs2]. cbn in Hs2. destruct Hs2 as (Hf0 & Hnf & Hs2).
  pose proof Hnf as (fo & Hfo & Hfh & Hfv & Hfx)%mnode_some.
  (* the link *)
  assert (exists s1 mo1, set_mlink (R := R) m match list.last la with Some x => x.1 | None => 0 end (hd_or lb 0) s = (Go tt, s1) /\
    only A m s s1 /\ rc s1 A ext /\ (forall k, room s k -> room s1 k) /\ mlist s1 m (la ++ lb) /\
    mounts s1 !! f = Some fo /\ mheads s1 !! m = Some mo1 /\ mh_mount mo1 = hd_or (la ++ lb) 0 /\ chans s1 = chans s) as
    (s1 & mo1 & E1 & O1 & I1 & R1 & L1 & Hf1 & Hm1 & Hmt1 & C1).
  { unfold set_mlink. destruct (list.last la) as [[p pv]|] eqn:El.
    - apply list.last_Some in El as [la' ->]. cbn [fst].
      destruct (seg_in _ _ _ p Hs1) as (Hp0 & [y z] & (po & Hpo & Hph & _)%mnode_some); [rewrite fmap_app, elem_of_app; right; by left|].
      rewrite decide_False by done. rewrite (mtset_go _ _ _ _ Hpo).
      destruct (only_rc_mount A ext m s p po (set_mt_next (hd_or lb 0) po) I Hpo Hph eq_refl) as (G1 & G2 & G3).
      assert (p <> f) as Hpf. { intros ->. apply Hfn. rewrite !fmap_app, !elem_of_app. left. right. by left. }
      eexists _, mo. split_and!; try done.
      + split; [|done]. apply seg_app. split.
        * eapply seg_relink; [exact Hs1|by rewrite fmap_app in Hd'; apply list.NoDup_app in Hd' as (? & _)| |].
          -- apply seg_app in Hs1 as [_ Hs1]. cbn in Hs1. destruct Hs1 as (_ & (po' & Hpo' & _ & Hpv & _)%mnode_some & _).
             apply mnode_some. exists (set_mt_next (hd_or lb 0) po). cbn. rewrite lookup_insert_eq.
             assert (po' = po) as <- by congruence. by split_and!.
          -- intros b Hb. unfold mnode. cbn. by rewrite lookup_insert_ne.
        * eapply seg_ext; [|exact Hs2]. intros b Hb. unfold mnode. cbn. rewrite lookup_insert_ne; [done|]. intros <-.
          rewrite !fmap_app in Hd'. apply list.NoDup_app in Hd' as (_ & Hd' & _). apply (Hd' p); [|done].
          rewrite elem_of_app. right. by left.
      + cbn. by rewrite lookup_insert_ne.
      + rewrite Hf. by destruct la'.
    - apply list.last_None in El as ->. rewrite decide_True by done. rewrite (mhset_go _ _ _ _ Hm).
      destruct (only_rc_head A ext m s mo (hd_or lb 0) I Hm) as (G1 & G2 & G3).
      eexists _, (set_mh_mount (hd_or lb 0) mo). split_and!; try done. cbn. by rewrite lookup_insert_eq. }
  rewrite (cbind_go _ _ _ _ _ E1), (mtset_go _ _ _ _ Hf1).
  destruct (only_rc_mount A ext m s1 f fo (set_mt_next 0 fo) I1 Hf1 Hfh eq_refl) as (G1 & G2 & G3).
  eexists _, mo1. split_and!; try done.
  - by eapply only_trans.
  - eapply mlist_ext; [|exact L1]. intros b bo Hb Hbo. cbn. rewrite lookup_insert_ne; [done|]. by intros ->.
  - apply mlist_cons. split_and!; [done| |apply not_elem_of_nil|apply mlist_nil].
    apply mnode_some. exists (set_mt_next 0 fo). cbn. rewrite lookup_insert_eq. by split_and!.
  - intros c co Hco. exists co. cbn. by rewrite C1.
Qed.
End Unmount.

Lemma without_disjoint (A : gset Z) m : A ∖ {[m]} ## {[m]}.
Proof. by intros x [_ ?]%elem_of_difference ?. Qed.
Lemma without_sub (A : gset Z) m : A ∖ {[m]} ⊆ A.
Proof. by intros x [? _]%elem_of_difference. Qed.
Lemma without_in (A : gset Z) m x : x ∈ A ∖ {[m]} -> x ∈ A /\ x <> m.
Proof. intros [? Hx]%elem_of_difference. split; [done|]. intros ->. by apply Hx, elem_of_singleton. Qed.

Lemma remove_first_fmap {V W} (f : V -> W) p (l : list V) : remove_first p (list_fmap _ _ f l) = option_map (list_fmap _ _ f) (remove_first (fun x => p (f x)) l).
Proof.
  induction l as [|x l IH]; [done|]. cbn. destruct (p (f x)); [done|]. change (list_fmap V W f) with (fmap (M := list) f) in *.
  cbn in *. rewrite IH. by destruct (remove_first _ l).
Qed.

Lemma remove_first_ment s mo (l : list (Z * mval)) :
  remove_first (fun e : ment => unmount_hit s mo e.1.1) (ment_of <$> l.*2) =
  option_map (fun r => ment_of <$> r.*2) (remove_first (fun x => unmount_hit s mo (v_to x.2)) l).
Proof.
  pose proof (remove_first_fmap (fun x : Z * mval => ment_of x.2) (fun e : ment => unmount_hit s mo e.1.1) l) as E. cbn in E.
  assert (forall r : list (Z * mval), list_fmap _ _ (fun x : Z * mval => ment_of x.2) r = ment_of <$> r.*2) as F.
  { intros r. rewrite <- list_fmap_compose. done. }
  rewrite <- F, E. by destruct (remove_first _ l); [cbn; rewrite F|].
Qed.

(** A mount point that is in no table any more, with nothing mounted. *)
Lemma ns_keeps_sub s s' A B L : B ⊆ A -> ns s B ∅ L -> keeps A s s' -> ns s' B ∅ L.
Proof.
  intros HB N K. apply (ns_same s); [done| |set_solver|intros g T _; by rewrite (kp_pgrps _ _ _ K)].
  apply keepm_rest; [by eapply keepm_mono, keeps_keepm|]. intros a mo Ha _ _. by rewrite (kp_mounts _ _ _ K).
Qed.

Section Cunmount.
Context {R : Type}.

Lemma free_mhead_ok s A ext L m mo : rc s A ext -> ns s (A ∖ {[m]}) ∅ L -> m ∈ A -> mheads s !! m = Some mo ->
  exists s', (cclose (R := R) (mh_from mo);; putmhead m;; cret 0) s = (Go 0, s') /\ rc s' (A ∖ {[m]}) ext /\
    ns s' (A ∖ {[m]}) ∅ L /\ (forall k, room s k -> room s' k).
Proof.
  intros I N Hm Hmo.
  assert (rc s (A ∖ {[m]}) (fun r => ext r + occ r [RChan (mh_from mo); RMhead m])) as I1 by (by apply (rc_detach s A ext _ m mo)).
  assert (m <> 0) as Hm0.
  { intros ->. pose proof (below_in _ (mheads s) _ _ (proj1 (proj2 (proj2 (proj2 (rc_addr _ _ _ I))))) Hmo). lia. }
  destruct (cclose_ok (R := R) s _ _ (mh_from mo) I1) as (s1 & E1 & I2 & C1).
  { intros r. pose proof (rc_ext _ _ _ I r). change [RChan (mh_from mo); RMhead m] with ([RChan (mh_from mo)] ++ [RMhead m]).
    rewrite occ_app. pose proof (occ_nonneg r [RMhead m]). lia. }
  rewrite (cbind_go _ _ _ _ _ E1).
  destruct (putmhead_ok (R := R) s1 _ _ m I2) as (s2 & E2 & I3 & C2).
  { rewrite nzr_ne by done. intros r. pose proof (rc_ext _ _ _ I r). unfold less.
    change [RChan (mh_from mo); RMhead m] with ([RChan (mh_from mo)] ++ [RMhead m]). rewrite occ_app. lia. }
  rewrite (cbind_go _ _ _ _ _ E2). exists s2. split_and!; [done| | |].
  - eapply rc_hold; [|exact I3]. intros r. rewrite nzr_ne by done. unfold less.
    change [RChan (mh_from mo); RMhead m] with ([RChan (mh_from mo)] ++ [RMhead m]). rewrite occ_app. lia.
  - apply (ns_keeps s1); [|exact (closing_keeps _ _ _ _ _ I3 C2)].
    apply (ns_keeps s); [done|exact (closing_keeps _ _ _ _ _ I2 C1)].
  - intros k Rm. eapply room_closing; [exact C2|]. by eapply room_closing.
Qed.

(** The mount point leaves its chain. *)
Lemma unlink_ok s A ext L g T i ch1 m v ch2 mo : rc s A ext -> ns s A ∅ L -> L !! g = Some T ->
  T !! i = Some (ch1 ++ (m, v) :: ch2) -> mheads s !! m = Some mo ->
  let s' := link_st g i ch1 (mh_hash mo) s in let T' := <[i := ch1 ++ ch2]> T in
  set_hlink (R := R) g (loc_of i ch1) (mh_hash mo) s = (Go tt, s') /\ rc s' A ext /\
  ns s' (A ∖ {[m]}) {[m]} (<[g := T']> L) /\ nsmap T' = delete (hv_key v) (nsmap T) /\
  mheads s' !! m = Some mo /\ mounts s' = mounts s /\ (forall k, room s k -> room s' k) /\ m ∈ A.
Proof.
  intros I N Hg Hi Hmo s' T'. pose proof (ns_table _ _ _ _ N g T Hg) as Ht. pose proof Ht as (go & Hgo & _).
  destruct (table_chain_ok _ _ _ _ _ Ht Hi) as (h & Hok). destruct Hok as (_ & Hp).
  apply part_app in Hp as [_ Hp]. apply part_cons in Hp as [(Hm0 & Hn & _) _].
  unfold hnode in Hn. rewrite Hmo in Hn. cbn in Hn. injection Hn as Hfr Hh.
  destruct (heads_split T i ch1 m v ch2 Hi (ns_nodup _ _ _ _ N g T Hg)) as (_ & Hm1 & _).
  destruct (ns_unlink s A L g T i ch1 m v ch2 N Hg Hi) as [N1 Hns].
  unfold s'. rewrite Hh. split_and!; try done.
  - apply (set_hlink_ok g i ch1 _ s go Hgo). intros p Hp%pred_in. apply (rc_att _ _ _ I).
    eapply ns_table_in; [exact N|exact Hg|]. eapply in_heads; [exact Hi|]. rewrite fmap_app, elem_of_app. by left.
  - by apply rc_link.
  - rewrite link_mhead; [done|]. by intros ?%pred_in.
  - unfold link_st. by destruct (list.last ch1) as [[p w]|].
  - intros k. apply room_link.
  - eapply ns_table_in; [exact N|exact Hg|]. eapply in_heads; [exact Hi|]. rewrite fmap_app, elem_of_app. right. by left.
Qed.

Lemma full_unlink L g T i ch1 x ch2 : full ∅ L -> L !! g = Some T -> T !! i = Some (ch1 ++ x :: ch2) ->
  full ∅ (<[g := <[i := ch1 ++ ch2]> T]> L).
Proof.
  intros F Hg Hi. apply (full_sub _ L g T); [done..|]. intros y. destruct (concat_mid T i ch1 [x] ch2 Hi) as (a & b & E1 & E2).
  specialize (E2 []). cbn [app] in E1, E2. rewrite E1, E2, !elem_of_app, elem_of_cons. tauto.
Qed.

(** All that is mounted goes. *)
Lemma unmount_all_ok s L ext g T i ch1 m v ch2 mo : nsok s L ext -> L !! g = Some T ->
  T !! i = Some (ch1 ++ (m, v) :: ch2) -> mheads s !! m = Some mo ->
  exists s' T',
    (set_hlink (R := R) g (loc_of i ch1) (mh_hash mo);; mountfree (mh_mount mo);; mhset m (set_mh_mount 0);;
     cclose (mh_from mo);; putmhead m;; cret 0) s = (Go 0, s') /\
    nsok s' (<[g := T']> L) ext /\ nsmap T' = delete (hv_key v) (nsmap T) /\ (forall k, room s k -> room s' k).
Proof.
  intros NK Hg Hi Hmo. pose proof NK as [I N F].
  destruct (unlink_ok s _ ext L g T i ch1 m v ch2 mo I N Hg Hi Hmo) as (E1 & I1 & N1 & Hns & Hm1 & M1 & R1 & HmA).
  set (s1 := link_st g i ch1 (mh_hash mo) s) in *. set (T' := <[i := ch1 ++ ch2]> T) in *.
  rewrite (cbind_go _ _ _ _ _ E1).
  destruct (table_chain_ok _ _ _ _ _ (ns_table _ _ _ _ N g T Hg) Hi) as (h & Hok).
  destruct (chain_mhead _ _ _ _ (m, v) Hok) as [Hl (mo' & Hmo' & Hf) _ _]; [rewrite elem_of_app; right; by left|].
  cbn [fst snd] in *. assert (mo' = mo) as -> by congruence.
  destruct (mountfree_ok (R := R) s1 _ ext m (hv_mounts v) I1) as (s2 & E2 & I2 & K2 & M2 & _ & _ & R2); [by apply (mlist_same s)|].
  rewrite Hf. rewrite (cbind_go _ _ _ _ _ E2).
  destruct (km_mheads _ _ _ K2 m mo HmA Hm1) as (n & Hm2). rewrite (cbind_go _ _ _ _ _ (mhset_go _ _ _ _ Hm2)).
  destruct (only_rc_head (all_heads L) ext m s2 _ 0 I2 Hm2) as (O3 & I3 & R3).
  set (s3 := set_mheads _ s2) in *.
  assert (mheads s3 !! m = Some (set_mh_mount 0 (set_mh_ref n mo))) as Hm3 by (unfold s3; cbn; by rewrite lookup_insert_eq).
  assert (ns s3 (all_heads L ∖ {[m]}) ∅ (<[g := T']> L)) as N3.
  { apply (ns_drop _ _ m); [|intros x; rewrite Hm3; by intros [= <-]].
    apply (ns_same s1); [done| |apply without_disjoint|].
    - apply (rest_trans _ _ _ s2).
      + apply keepm_rest; [eapply keepm_mono; [apply without_sub|exact K2]|]. intros a ao Ha Hin _. rewrite M2, M1.
        assert (a ∉ (hv_mounts v).*1) as Hna.
        { intros Hin'. rewrite M1 in Ha. destruct (mlist_in _ _ _ _ Hl Hin') as (ao' & Hao' & Hh').
          assert (ao' = ao) as -> by congruence. apply without_in in Hin as [_ Hin]. by apply Hin. }
        rewrite M1 in Ha. clear - Ha Hna. induction (hv_mounts v).*1 as [|b r IH]; [done|]. cbn.
        apply not_elem_of_cons in Hna as [? Hna]. rewrite lookup_delete_ne by done. by apply IH.
      + pose proof (on_rest _ _ _ _ O3) as Rs. constructor; try apply Rs. intros x Hx. apply Rs. by apply without_in in Hx as [? _].
    - intros g1 T1 _. rewrite (on_pgrps _ _ _ _ O3). by rewrite (km_pgrps _ _ _ K2). }
  destruct (free_mhead_ok s3 _ ext _ m _ I3 N3 HmA Hm3) as (s4 & E4 & I4 & N4 & R4).
  exists s4, T'. split_and!; [exact E4| |done|by intros k Rm; apply R4, R3, R2, R1].
  eapply nsok_intro; [done..|]. by eapply full_unlink.
Qed.

(** One of the things that are mounted goes. *)
Lemma unmount_one_ok s L ext g T i ch1 m v ch2 mo la f w lb prev : nsok s L ext -> L !! g = Some T ->
  T !! i = Some (ch1 ++ (m, v) :: ch2) -> mheads s !! m = Some mo -> hv_mounts v = la ++ (f, w) :: lb ->
  prev = match list.last la with Some x => x.1 | None => 0 end ->
  exists s' T',
    (fo <- mtget f;; set_mlink (R := R) m prev (mt_next fo);; mtset f (set_mt_next 0);; mountfree f;;
     mo <- mhget m;;
     if decide (mh_mount mo = 0) then
       set_hlink g (loc_of i ch1) (mh_hash mo);; cclose (mh_from mo);; putmhead m;; cret 0
     else cret 0) s = (Go 0, s') /\
    nsok s' (<[g := T']> L) ext /\
    nsmap T' = set_mounted (hv_key v) (ment_of <$> (la ++ lb).*2) (nsmap T) /\ (forall k, room s k -> room s' k).
Proof.
  intros NK Hg Hi Hmo Hv Hprev. pose proof NK as [I N F].
  destruct (table_chain_ok _ _ _ _ _ (ns_table _ _ _ _ N g T Hg) Hi) as (h & Hok).
  destruct (chain_mhead _ _ _ _ (m, v) Hok) as [Hl (mo' & Hmo' & Hf) _ _]; [rewrite elem_of_app; right; by left|].
  cbn [fst snd] in *. assert (mo' = mo) as -> by congruence. rewrite Hv in Hl, Hf.
  assert (m ∈ all_heads L) as HmA.
  { eapply ns_table_in; [exact N|exact Hg|]. eapply in_heads; [exact Hi|]. rewrite fmap_app, elem_of_app. right. by left. }
  destruct (set_mlink_ok (R := R) s (all_heads L) ext m mo la f w lb prev I Hmo Hf Hl Hprev)
    as (s1 & mo1 & E1 & O1 & I1 & R1 & L1 & Lf & Hm1 & Hf1 & _).
  assert (exists fo, mounts s !! f = Some fo /\ mt_next fo = hd_or lb 0) as (fo & Hfo & Hfn).
  { destruct Hl as [Hs _]. apply seg_app in Hs as [_ Hs]. cbn in Hs. destruct Hs as (_ & (fo & ? & _ & _ & ?)%mnode_some & _). by exists fo. }
  rewrite (cbind_go _ _ _ _ _ (mtget_go _ _ _ Hfo)), Hfn.
  apply cbind_go_inv in E1 as (u & s0 & E0 & E1). rewrite (cbind_go _ _ _ _ _ E0), (cbind_go _ _ _ _ _ E1).
  destruct (mountfree_ok (R := R) s1 _ ext m [(f, w)] I1 Lf) as (s2 & E2 & I2 & K2 & M2 & _ & _ & R2).
  change (hd_or [(f, w)] 0) with f in E2. rewrite (cbind_go _ _ _ _ _ E2).
  destruct (km_mheads _ _ _ K2 m mo1 HmA Hm1) as (n & Hm2). rewrite (cbind_go _ _ _ _ _ (mhget_go _ _ _ Hm2)).
  assert (f ∉ (la ++ lb).*1) as Hfn'.
  { intros Hin. destruct Hl as [_ Hd]. assert (la ++ (f, w) :: lb ≡ₚ (f, w) :: la ++ lb) as E by (by rewrite Permutation_middle).
    rewrite E in Hd. cbn in Hd. by apply list.NoDup_cons in Hd as [? _]. }
  assert (only (all_heads L) m s s2) as O.
  { eapply only_trans; [exact O1|]. apply keepm_only; [done..|]. intros a ao Ha Hne. rewrite M2. cbn.
    rewrite lookup_delete_ne; [done|]. intros <-. destruct (mlist_in _ _ _ f Lf) as (fo' & Hfo' & Hh); [by left|]. congruence. }
  assert (mlist s2 m (la ++ lb)) as L2.
  { eapply mlist_ext; [|exact L1]. intros a ao Ha Hao. rewrite M2. cbn. rewrite lookup_delete_ne; [done|]. by intros <-. }
  destruct (ns_relist s s2 _ L g T i ch1 m v ch2 (la ++ lb) N Hg Hi) as [N2 Hns2]; [apply O|apply O|done| |].
  { intros mo0 Hmo0. destruct (on_head _ _ _ _ O mo0 Hmo0) as (mo2 & Hmo2 & ? & ?). exists mo2. split_and!; try done.
    rewrite Hm2 in Hmo2. by injection Hmo2 as <-. }
  set (T2 := <[i := _]> T) in *. cbn [mh_mount set_mh_ref]. rewrite Hf1.
  assert (full {[m]} L) as F' by (intros g1 T1 x Hg1 Hx _; apply (F g1 T1 x Hg1 Hx), not_elem_of_empty).
  unfold set_mounted. destruct (decide (hd_or (la ++ lb) 0 = 0)) as [Hz|Hz].
  - assert (la ++ lb = []) as Hnil.
    { revert L2 Hz. clear. destruct (la ++ lb) as [|[a x] l]; [done|]. intros (Ha & _)%mlist_cons Hz. by destruct (Ha Hz). }
    rewrite Hnil in *. rewrite decide_True by done.
    assert (T2 !! i = Some (ch1 ++ (m, MHVal (hv_from v) (hv_key v) []) :: ch2)) as Hi2.
    { unfold T2. rewrite list_lookup_insert_eq; [by rewrite Hnil|]. by eapply lookup_lt_Some. }
    destruct (unlink_ok s2 _ ext _ g T2 i ch1 m _ ch2 _ I2 N2 (lookup_insert_eq _ _ _) Hi2 Hm2)
      as (E3 & I3 & N3 & Hns3 & Hm3 & M3 & R3 & _).
    set (s3 := link_st _ _ _ _ s2) in *. cbn [mh_hash mh_from set_mh_ref] in *. rewrite (cbind_go _ _ _ _ _ E3).
    set (T3 := <[i := ch1 ++ ch2]> T2) in *. rewrite insert_insert_eq in N3.
    assert (ns s3 (all_heads L ∖ {[m]}) ∅ (<[g := T3]> L)) as N3'.
    { apply (ns_drop _ _ m); [done|]. intros x Hx. rewrite Hm3 in Hx. injection Hx as <-. cbn. by rewrite Hf1. }
    destruct (free_mhead_ok s3 _ ext _ m _ I3 N3' HmA Hm3) as (s4 & E4 & I4 & N4 & R4).
    exists s4, T3. split_and!; [exact E4| | |by intros k Rm; apply R4, R3, R2, R1].
    + eapply nsok_intro; [done..|]. unfold T3, T2. rewrite list_insert_insert_eq. by eapply full_unlink.
    + cbn [hv_key] in Hns3. rewrite Hns3, Hns2. by rewrite delete_insert_eq.
  - rewrite decide_False.
    2: { intros Hnil. apply Hz. apply (f_equal length) in Hnil. rewrite !length_fmap in Hnil.
       apply nil_length_inv in Hnil. by rewrite Hnil. }
    exists s2, T2. split_and!; [done| |done|by intros k Rm; apply R2, R1].
    eapply nsok_intro; [done..|]. apply (full_relist s (all_heads L) L g T i ch1 m v ch2); try done. intros Hnil. by rewrite Hnil in Hz.
Qed.

(** [cunmount]: all, or the first one that is [mounted] or stands for it. *)
Lemma cunmount_ok s L ext g T mnt mounted mc : nsok s L ext -> L !! g = Some T -> chans s !! mnt = Some mc ->
  (mounted <> 0 -> is_Some (chans s !! mounted)) ->
  match nsmap T !! key_of mc with
  | None => cunmount (R := R) g mnt mounted s = (Go ONERR, set_kerrstr Eunmount s)
  | Some cur =>
      match (if decide (mounted = 0) then Some []
             else remove_first (fun e : ment => unmount_hit s (default zero_chan (chans s !! mounted)) e.1.1) cur) with
      | None => cunmount (R := R) g mnt mounted s = (Go ONERR, set_kerrstr Eunion s)
      | Some l => exists s' T', cunmount (R := R) g mnt mounted s = (Go 0, s') /\ nsok s' (<[g := T']> L) ext /\
          nsmap T' = set_mounted (key_of mc) l (nsmap T) /\ (forall k, room s k -> room s' k)
      end
  end.
Proof.
  intros NK Hg Hmc Hmt. pose proof NK as [I N F].
  unfold cunmount. rewrite (cbind_go _ _ _ _ _ (chget_go _ _ _ Hmc)).
  destruct (find_mhead_table (R := R) s _ _ L g T mc N Hg) as [(ch & Hi & Hno & E)|(ch1 & m & v & ch2 & Hi & Hkv & Hm0 & E)].
  - apply cbind_go_inv in E as (fuel & s0 & E0 & E). injection E0 as <- <-. unfold hfuel.
    rewrite (cbind_go _ _ s (S (size (mheads s))) s) by done. rewrite (cbind_go _ _ _ _ _ E). unfold nsmap. by rewrite nsm_none.
  - apply cbind_go_inv in E as (fuel & s0 & E0 & E). injection E0 as <- <-. unfold hfuel.
    rewrite (cbind_go _ _ s (S (size (mheads s))) s) by done. rewrite (cbind_go _ _ _ _ _ E).
    pose proof (key_place s _ _ L g T (key_of mc) _ ch1 ((m, v) :: ch2) N Hg Hi eq_refl) as G. cbn [snd] in G. rewrite G; clear G.
    2: { discriminate. }
    2: { right. by exists m, v, ch2. }
    rewrite (decide_False (P := m = 0)) by done.
    destruct (table_chain_ok _ _ _ _ _ (ns_table _ _ _ _ N g T Hg) Hi) as (h & Hok).
    destruct (chain_mhead _ _ _ _ (m, v) Hok) as [Hl (mo & Hmo & Hf) _ _]; [rewrite elem_of_app; right; by left|].
    cbn [fst snd] in *. rewrite (cbind_go _ _ _ _ _ (mhget_go _ _ _ Hmo)). destruct (decide (mounted = 0)) as [Hz|Hz].
    + destruct (unmount_all_ok s L ext g T _ ch1 m v ch2 mo NK Hg Hi Hmo) as (s' & T' & E' & NK' & Hns & Rr).
      exists s', T'. split_and!; try done. unfold set_mounted. rewrite decide_True by done. by rewrite <- Hkv.
    + destruct (Hmt Hz) as [to Hto]. rewrite Hto. cbn [default]. rewrite remove_first_ment.
      rewrite (cbind_go _ _ _ _ _ (chget_go _ _ _ Hto)). unfold mfuel. rewrite (cbind_go _ _ s (S (size (mounts s))) s) by done.
      pose proof (find_mounted_ok (R := R) m to (hv_mounts v) (S (size (mounts s))) s _ ext 0 I Hl) as G. rewrite Hf.
      pose proof (mlist_size _ _ _ Hl). specialize (G ltac:(lia)).
      destruct (remove_first _ (hv_mounts v)) as [r|]; cbn [option_map].
      * destruct G as (la & f & w & lb & Hla & -> & Ef). rewrite (cbind_go _ _ _ _ _ Ef).
        destruct (unmount_one_ok s L ext g T _ ch1 m v ch2 mo la f w lb _ NK Hg Hi Hmo Hla eq_refl) as (s' & T' & E' & NK' & Hns & Rr).
        exists s', T'. split_and!; try done. by rewrite <- Hkv.
      * by rewrite (cbind_go _ _ _ _ _ G).
Qed.
End Cunmount.
