(* ===== verification/PgrpSpec.v ===== *)
(** What [closepgrp] and [newpgrp] do: with its last reference a group gives up all that is
    mounted in its name space. *)

From S2P Require Import Prelude Mem Links Sums Fcall9P Chan ChanSpec Mount MountSpec TableSpec MountOps UnmountSpec.

(** The addresses of what is mounted in a chain. *)
Definition mounts_of (ch : chain) : list Z := ch ≫= fun x => (hv_mounts x.2).*1.

Lemma elem_foldr_delete {V} (l : list Z) (m : gmap Z V) a v :
  foldr delete m l !! a = Some v <-> m !! a = Some v /\ a ∉ l.
Proof.
  induction l as [|b l IH]; cbn; [by pose proof (not_elem_of_nil a); tauto|].
  rewrite lookup_delete_Some, IH, not_elem_of_cons. split; intros; intuition congruence.
Qed.

Lemma foldr_delete_app {V} (l l' : list Z) (m : gmap Z V) : foldr delete m (l ++ l') = foldr delete (foldr delete m l) l'.
Proof.
  apply map_eq. intros a. apply option_eq. intros v. rewrite !elem_foldr_delete, not_elem_of_app. tauto.
Qed.

(** What a mount point is in [s']: gone, or without a mount. *)
Definition empty_head (s' : kst) (m : Z) : Prop := forall mo, mheads s' !! m = Some mo -> mh_mount mo = 0.

Record closed (A : gset Z) (ch : chain) (s s' : kst) : Prop := {
  cd_rest : rest (A ∖ list_to_set ch.*1) (list_to_set ch.*1) s s';
  cd_pgrps : pgrps s' = pgrps s;
  cd_mounts : mounts s' = foldr delete (mounts s) (mounts_of ch);
  cd_heads m : m ∈ ch.*1 -> empty_head s' m;
  cd_room k : room s k -> room s' k }.

Section Close.
Context {R : Type}.

Lemma close_mhead_ok {B} (k : Z -> cmd kst R B) s A ext m mo v : rc s A ext -> m ∈ A -> mheads s !! m = Some mo ->
  mlist s m (hv_mounts v) -> mh_mount mo = hd_or (hv_mounts v) 0 ->
  exists s', (cclose (mh_from mo);; fo <- mhget m;; mountfree (mh_mount fo);; mhset m (set_mh_mount 0);;
    fo <- mhget m;; putmhead m;; k (mh_hash fo)) s = k (mh_hash mo) s' /\
    rc s' (A ∖ {[m]}) ext /\ closed A [(m, v)] s s'.
Proof.
  intros I Hm Hmo Hl Hf.
  assert (rc s (A ∖ {[m]}) (fun r => ext r + occ r [RChan (mh_from mo); RMhead m])) as I1 by (by apply (rc_detach s A ext _ m mo)).
  assert (forall r, occ r [RChan (mh_from mo); RMhead m] = occ r [RChan (mh_from mo)] + occ r [RMhead m]) as Hocc.
  { intros r. by rewrite <- occ_app. }
  assert (m <> 0) as Hm0.
  { intros ->. pose proof (below_in _ (mheads s) _ _ (proj1 (proj2 (proj2 (proj2 (rc_addr _ _ _ I))))) Hmo). lia. }
  destruct (cclose_ok (R := R) s _ _ (mh_from mo) I1) as (s1 & E1 & I2 & C1).
  { intros r. rewrite Hocc. pose proof (rc_ext _ _ _ I r). pose proof (occ_nonneg r [RMhead m]). lia. }
  rewrite (cbind_go _ _ _ _ _ E1). pose proof (closing_keeps _ _ _ _ _ I2 C1) as K1.
  assert (exists n, mheads s1 !! m = Some (set_mh_ref n mo)) as (n1 & Hm1).
  { destruct (rcount_some s1 _ _ (RMhead m) I2) as (n & Hn & _).
    { left. unfold less. rewrite Hocc. pose proof (rc_ext _ _ _ I (RMhead m)). rewrite !occ_one, (decide_True (P := RMhead m = RMhead m)) by done. lia. }
    cbn in Hn. destruct (mheads s1 !! m) as [mo1|] eqn:Hmo1; [|done].
    destruct (cl_mheads _ _ _ C1 m mo1 Hmo1) as (mo' & Hmo' & E). exists (mh_ref mo1). rewrite E. congruence. }
  rewrite (cbind_go _ _ _ _ _ (mhget_go _ _ _ Hm1)). cbn [mh_mount set_mh_ref]. rewrite Hf.
  destruct (mountfree_ok (R := R) s1 _ _ m (hv_mounts v) I2) as (s2 & E2 & I3 & K2 & M2 & _ & _ & R2).
  { apply (mlist_same s); [apply K1|done]. }
  rewrite (cbind_go _ _ _ _ _ E2).
  assert (forall sx extx, rc sx (A ∖ {[m]}) extx -> 0 < extx (RMhead m) -> exists x, mheads sx !! m = Some x) as Held.
  { intros sx extx Ix Hx. destruct (rcount_some sx _ _ (RMhead m) Ix (or_introl Hx)) as (n & Hn & _).
    cbn in Hn. destruct (mheads sx !! m) as [x|]; [by exists x|done]. }
  assert (less (fun r => ext r + occ r [RChan (mh_from mo); RMhead m]) [RChan (mh_from mo)] (RMhead m) = ext (RMhead m) + 1) as Hext.
  { unfold less. rewrite Hocc, !occ_one, (decide_True (P := RMhead m = RMhead m)) by done. lia. }
  pose proof (rc_ext _ _ _ I (RMhead m)) as Hext0.
  destruct (Held s2 _ I3) as (mo2 & Hm2); [lia|].
  destruct (km_back _ _ _ K2 m mo2 Hm2) as (mo2' & Hm2' & E). rewrite Hm1 in Hm2'. injection Hm2' as <-. rewrite set_mh_ref_twice in E.
  rewrite (cbind_go _ _ _ _ _ (mhset_go _ _ _ _ Hm2)).
  destruct (only_rc_head (A ∖ {[m]}) _ m s2 mo2 0 I3 Hm2) as (O3 & I4 & R3). set (s3 := set_mheads _ s2) in *.
  assert (mheads s3 !! m = Some (set_mh_mount 0 mo2)) as Hm3 by (unfold s3; cbn; by rewrite lookup_insert_eq).
  rewrite (cbind_go _ _ _ _ _ (mhget_go _ _ _ Hm3)).
  destruct (putmhead_ok (R := R) s3 _ _ m I4) as (s4 & E4 & I5 & C4).
  { rewrite nzr_ne by done. intros r. rewrite occ_one. pose proof (rc_ext _ _ _ I4 r). case_decide; [subst r; lia|done]. }
  rewrite (cbind_go _ _ _ _ _ E4). rewrite E. cbn [mh_hash set_mh_mount set_mh_ref].
  pose proof (closing_keeps _ _ _ _ _ I5 C4) as K4.
  assert (mounts s4 = foldr delete (mounts s) (hv_mounts v).*1) as M4.
  { rewrite (kp_mounts _ _ _ K4). unfold s3. cbn [mounts set_mheads]. by rewrite M2, (kp_mounts _ _ _ K1). }
  exists s4. split_and!; [done| |constructor].
  - eapply rc_hold; [|exact I5]. intros r. rewrite nzr_ne by done. unfold less. rewrite Hocc. lia.
  - cbn [fmap list_fmap list_to_set fst]. rewrite union_empty_r_L. eapply rest_trans; [|eapply rest_trans; [|eapply rest_trans; [apply O3|]]].
    + apply (keepm_rest _ _ s s1); [by apply keeps_keepm|]. intros a ao Ha _ _. by rewrite (kp_mounts _ _ _ K1).
    + apply (keepm_rest _ _ s1 s2); [done|]. intros a ao Ha Hin _. rewrite M2. apply elem_foldr_delete. split; [done|].
      intros Hal. destruct (mlist_in _ _ _ _ Hl Hal) as (ao' & Hao' & Hh). rewrite (kp_mounts _ _ _ K1) in Ha.
      assert (ao' = ao) as -> by congruence. apply without_in in Hin as [_ Hin]. by apply Hin.
    + apply (keepm_rest _ _ s3 s4); [by apply keeps_keepm|]. intros a ao Ha _ _. by rewrite (kp_mounts _ _ _ K4).
  - rewrite (kp_pgrps _ _ _ K4), (on_pgrps _ _ _ _ O3), (km_pgrps _ _ _ K2). apply K1.
  - rewrite M4. unfold mounts_of. cbn. by rewrite app_nil_r.
  - cbn. intros x [->|?%not_elem_of_nil]%elem_of_cons; [|done]. intros y Hy.
    destruct (kp_back _ _ _ K4 m y Hy) as (y' & Hy' & ->). rewrite Hm3 in Hy'. by injection Hy' as <-.
  - intros kk Rm. eapply room_closing; [exact C4|]. apply R3, R2. by eapply room_closing.
Qed.
End Close.

(** ** A whole chain, a whole table *)

Lemma closed_nil A s : closed A [] s s.
Proof.
  constructor; try done; [|by intros m ?%not_elem_of_nil].
  apply keepm_rest; [apply keepm_refl|done].
Qed.

Lemma mounts_of_app a b : mounts_of (a ++ b) = mounts_of a ++ mounts_of b.
Proof. apply bind_app. Qed.

Lemma closed_app A ch1 ch2 s1 s2 s3 : closed A ch1 s1 s2 -> closed (A ∖ list_to_set ch1.*1) ch2 s2 s3 -> closed A (ch1 ++ ch2) s1 s3.
Proof.
  intros H G. assert (list_to_set (C := gset Z) (ch1 ++ ch2).*1 = list_to_set ch1.*1 ∪ list_to_set ch2.*1) as E.
  { by rewrite fmap_app, list_to_set_app_L. }
  constructor.
  - rewrite E. assert (forall x, x ∈ A ∖ (list_to_set ch1.*1 ∪ list_to_set ch2.*1) ->
      x ∈ A ∖ list_to_set ch1.*1 /\ x ∈ (A ∖ list_to_set ch1.*1) ∖ list_to_set ch2.*1) as Hx.
    { clear. intros x. rewrite !elem_of_difference, elem_of_union. tauto. }
    apply (rest_trans _ _ s1 s2).
    + pose proof (cd_rest _ _ _ _ H) as [R1 R2 R3]. constructor; [|..|done].
      * intros m [Hm _]%Hx Hn. apply R1; [done|]. rewrite elem_of_union in Hn. tauto.
      * intros m mo' Hn. apply R2. rewrite elem_of_union in Hn. tauto.
    + pose proof (cd_rest _ _ _ _ G) as [R1 R2 R3]. constructor; [|..|done].
      * intros m [_ Hm]%Hx Hn. apply R1; [done|]. rewrite elem_of_union in Hn. tauto.
      * intros m mo' Hn. apply R2. rewrite elem_of_union in Hn. tauto.
  - by rewrite (cd_pgrps _ _ _ _ G), (cd_pgrps _ _ _ _ H).
  - by rewrite (cd_mounts _ _ _ _ G), (cd_mounts _ _ _ _ H), mounts_of_app, foldr_delete_app.
  - intros m. rewrite fmap_app, elem_of_app. intros Hm mo Hmo. destruct (decide (m ∈ ch2.*1)) as [H2|H2]; [by eapply (cd_heads _ _ _ _ G)|].
    destruct Hm as [Hm|?]; [|done]. destruct (rs_back _ _ _ _ (cd_rest _ _ _ _ G) m mo) as (mo0 & Hmo0 & ->); [by rewrite elem_of_list_to_set|done|].
    by apply (cd_heads _ _ _ _ H m Hm).
  - intros k Rm. by apply G, H.
Qed.

Section Close2.
Context {R : Type}.

Lemma closepgrp_chain_ok i ch : forall fuel s A ext, rc s A ext -> part_ok s i ch 0 -> NoDup ch.*1 ->
  (forall m, m ∈ ch.*1 -> m ∈ A) -> (length ch < fuel)%nat ->
  exists s', closepgrp_chain (R := R) fuel (hd_or (hnodes ch) 0) s = (Go tt, s') /\
    rc s' (A ∖ list_to_set ch.*1) ext /\ closed A ch s s'.
Proof.
  induction ch as [|[m v] ch IH]; intros [|fuel] s A ext I Hp Hd HA Hf; try (cbn in Hf; lia).
  { exists s. split_and!; [done| |apply closed_nil]. cbn. by rewrite difference_empty_L. }
  apply part_cons in Hp as [(Hm0 & Hn & Hok) Hp]. cbn in Hd. apply list.NoDup_cons in Hd as [Hni Hd].
  change (hd_or (hnodes ((m, v) :: ch)) 0) with m. cbn [closepgrp_chain]. rewrite decide_False by done.
  unfold hnode in Hn. destruct (mheads s !! m) as [mo|] eqn:Hmo; [|done]. cbn in Hn. injection Hn as Hfr Hh.
  rewrite (cbind_go _ _ _ _ _ (mhget_go _ _ _ Hmo)).
  destruct Hok as [Hl (mo' & Hmo' & Hfst) _ _]. assert (mo' = mo) as -> by congruence.
  destruct (close_mhead_ok (closepgrp_chain (R := R) fuel) s A ext m mo v I) as (s1 & E1 & I1 & C1); try done.
  { apply HA. by left. }
  rewrite E1, Hh. pose proof (cd_rest _ _ _ _ C1) as Rs. cbn [fmap list_fmap list_to_set fst] in Rs. rewrite union_empty_r_L in Rs.
  assert (forall x, x ∈ ch.*1 -> x ∈ A ∖ {[m]}) as HA'.
  { intros x Hx. apply elem_of_difference. split; [apply HA; by right|]. intros ->%elem_of_singleton. done. }
  destruct (IH fuel s1 (A ∖ {[m]}) ext I1) as (s2 & E2 & I2 & C2); try done.
  { apply (part_same s); [done|apply Rs|]. intros x Hx. apply Rs; [by apply HA'|]. intros ->%elem_of_singleton. done. }
  { cbn in Hf. lia. }
  exists s2. split_and!; [done| |].
  - assert (A ∖ list_to_set ((m, v) :: ch).*1 = (A ∖ {[m]}) ∖ list_to_set ch.*1) as ->; [|done].
    apply set_eq. intros x. cbn [fmap list_fmap fst list_to_set]. rewrite !elem_of_difference, elem_of_union. tauto.
  - apply (closed_app A [(m, v)] ch s s1 s2 C1). cbn [fmap list_fmap list_to_set fst]. by rewrite union_empty_r_L.
Qed.

Lemma closepgrp_tab_ok fuel T : forall n hs s A ext, rc s A ext -> NoDup (heads T) -> (forall m, m ∈ heads T -> m ∈ A) ->
  length hs = length T ->
  (forall i ch, T !! i = Some ch -> exists h, hs !! i = Some h /\ chain_ok s (Z.of_nat (n + i)) h ch) ->
  (forall ch, ch ∈ T -> (length ch < fuel)%nat) ->
  exists s', closepgrp_tab (R := R) fuel hs s = (Go tt, s') /\
    rc s' (A ∖ list_to_set (heads T)) ext /\ closed A (concat T) s s'.
Proof.
  induction T as [|ch T IH]; intros n [|h hs] s A ext I Hd HA Hlen Hc Hf; try done.
  { exists s. split_and!; [done| |apply closed_nil]. cbn. by rewrite difference_empty_L. }
  unfold heads in Hd, HA. cbn in Hd, HA. rewrite fmap_app in Hd. apply list.NoDup_app in Hd as (D1 & D2 & D3).
  destruct (Hc 0%nat ch eq_refl) as (h' & [= <-] & -> & Hp). cbn [closepgrp_tab].
  destruct (closepgrp_chain_ok (Z.of_nat (n + 0)) ch fuel s A ext I Hp D1) as (s1 & E1 & I1 & C1).
  { intros m Hm. apply HA. rewrite fmap_app, elem_of_app. by left. }
  { apply Hf. by left. }
  rewrite (cbind_go _ _ _ _ _ E1). pose proof (cd_rest _ _ _ _ C1) as Rs.
  assert (forall m, m ∈ heads T -> m ∈ A ∖ list_to_set ch.*1) as HA'.
  { intros m Hm. apply elem_of_difference. split; [apply HA; rewrite fmap_app, elem_of_app; by right|].
    intros Hm'%elem_of_list_to_set. by apply (D2 m). }
  destruct (IH (S n) hs s1 (A ∖ list_to_set ch.*1) ext I1) as (s2 & E2 & I2 & C2); try done.
  { by injection Hlen. }
  { intros i c Hi. destruct (Hc (S i) c Hi) as (h0 & Hh0 & Hok). exists h0. split; [done|].
    replace (S n + i)%nat with (n + S i)%nat by lia. apply (chain_ok_same s); [done|apply Rs|]. intros m Hm.
    assert (m ∈ heads T) as HmT by (by eapply in_heads). apply Rs; [by apply HA'|]. apply HA' in HmT. by apply elem_of_difference in HmT as [_ ?]. }
  { intros c Hin. apply Hf. by right. }
  exists s2. split_and!; [done| |].
  - assert (A ∖ list_to_set (heads (ch :: T)) = (A ∖ list_to_set ch.*1) ∖ list_to_set (heads T)) as ->; [|done].
    apply set_eq. intros x. unfold heads. cbn. rewrite fmap_app, list_to_set_app_L, !elem_of_difference, elem_of_union. tauto.
  - by apply (closed_app A ch (concat T) s s1 s2).
Qed.
End Close2.

(** ** [closepgrp] and [newpgrp] *)

Lemma ns_upd_pgrp s A X L g go go' : ns s A X L -> pgrps s !! g = Some go -> pg_mnthash go' = pg_mnthash go ->
  ns (set_pgrps (<[g := go']> (pgrps s)) s) A X L.
Proof.
  intros N Hg Hm. constructor; try apply N. intros g1 T1 Hg1. destruct (ns_table _ _ _ _ N g1 T1 Hg1) as (go1 & Hgo1 & H1 & H2 & H3).
  assert (exists go2, <[g := go']> (pgrps s) !! g1 = Some go2 /\ pg_mnthash go2 = pg_mnthash go1) as (go2 & Hgo2 & E).
  { destruct (decide (g1 = g)) as [->|Hne]; [exists go'; rewrite lookup_insert_eq; split; [done|congruence]|].
    exists go1. by rewrite lookup_insert_ne. }
  exists go2. cbn [pgrps set_pgrps]. rewrite E. split_and!; try done. intros i ch Hi. destruct (H3 i ch Hi) as (h & Hh & Hc).
  exists h. split; [done|]. apply (chain_ok_same s); [done|by intros c co ?; exists co|]. intros m _. apply same_at_eq; [|done].
  intros mo Hmo. exists (mh_ref mo). by rewrite set_mh_ref_id.
Qed.

Lemma ns_delete s A L g T : ns s A ∅ L -> L !! g = Some T -> ns s (A ∖ list_to_set (heads T)) (list_to_set (heads T)) (delete g L).
Proof.
  intros N Hg. constructor.
  - intros m. rewrite elem_of_difference, elem_of_list_to_set. rewrite (ns_att _ _ _ _ N). split.
    + intros ((g1 & T1 & Hg1 & Hm) & Hno). exists g1, T1. split; [|done]. apply lookup_delete_Some. split; [|done].
      intros <-. apply Hno. by rewrite Hg in Hg1; injection Hg1 as <-.
    + intros (g1 & T1 & [Hne Hg1]%lookup_delete_Some & Hm). split; [by exists g1, T1|]. intros Hm'. apply Hne.
      by apply (ns_disj _ _ _ _ N g g1 T T1 m).
  - intros g1 T1 [_ Hg1]%lookup_delete_Some. by apply (ns_nodup _ _ _ _ N g1).
  - intros g1 g2 T1 T2 m [_ H1]%lookup_delete_Some [_ H2]%lookup_delete_Some. by apply (ns_disj _ _ _ _ N).
  - intros g1 T1 [_ Hg1]%lookup_delete_Some. by apply (ns_keys _ _ _ _ N g1).
  - intros g1 T1 [_ Hg1]%lookup_delete_Some. by apply (ns_table _ _ _ _ N).
  - intros m mo Hm Ha Hx. apply (ns_det _ _ _ _ N m); [done| |apply not_elem_of_empty]. intros HA. apply Ha, elem_of_difference. done.
Qed.

Lemma ns_drop_all s A X L : ns s A X L -> (forall m, m ∈ X -> empty_head s m) -> ns s A ∅ L.
Proof.
  intros N H. constructor; try apply N. intros m mo Hm Ha _. destruct (decide (m ∈ X)) as [Hx|Hx]; [by apply (H m)|].
  by apply (ns_det _ _ _ _ N m).
Qed.

Lemma room_upd_pgrp s k g go go' : room s k -> pgrps s !! g = Some go -> pg_ref go' <= pg_ref go ->
  room (set_pgrps (<[g := go']> (pgrps s)) s) k.
Proof.
  intros (H0 & H1 & H2 & H3) Hg Hr. split_and!; [done|done| |done]. intros r.
  pose proof (H2 (RPgrp g)) as E. unfold count_of in E. cbn in E. rewrite Hg in E. cbn in E. specialize (H2 r).
  unfold count_of in *. destruct r as [c|p|m|g1|f]; try done. cbn in *. destruct (decide (g1 = g)) as [->|Hne].
  - rewrite lookup_insert_eq. cbn. lia.
  - by rewrite lookup_insert_ne.
Qed.

Lemma rc_upd_pgrp_field s A ext g go go' : rc s A ext -> pgrps s !! g = Some go -> pg_ref go' = pg_ref go ->
  rc (set_pgrps (<[g := go']> (pgrps s)) s) A ext.
Proof.
  intros I Hg Hr. pose proof (rc_ext _ _ _ I (RPgrp g)).
  pose proof (rc_max _ _ _ I (RPgrp g) (pg_ref go)) as Hx. cbn in Hx. rewrite Hg in Hx. specialize (Hx eq_refl).
  eapply rc_hold; [|apply (rc_upd_pgrp s A ext g go go' I Hg); lia]. intros r. unfold hold. case_decide; lia.
Qed.

Lemma chain_in_size s A X L g T ch : ns s A X L -> L !! g = Some T -> ch ∈ T -> (length ch <= size (mheads s))%nat.
Proof.
  intros N Hg [i Hi]%list_elem_of_lookup. destruct (table_chain_ok _ _ _ _ _ (ns_table _ _ _ _ N g T Hg) Hi) as (h & Hok).
  apply (chain_size _ _ _ _ Hok). destruct (heads_parts T i ch [] []) as (? & _); [by rewrite !app_nil_r|by apply (ns_nodup _ _ _ _ N g)|done].
Qed.

Section Closepgrp.
Context {R : Type}.

(** The last reference to the group: all that is mounted in it goes, and the group. *)
Lemma closepgrp_last s L ext g T go : nsok s L ext -> L !! g = Some T -> pgrps s !! g = Some go -> pg_ref go = 1 ->
  0 < ext (RPgrp g) ->
  exists s', closepgrp (R := R) g s = (Go tt, s') /\ nsok s' (delete g L) (less ext [RPgrp g]) /\
    pgrps s' = delete g (pgrps s) /\ mounts s' = foldr delete (mounts s) (mounts_of (concat T)) /\
    (forall m, m ∈ heads T -> empty_head s' m) /\ (forall k, room s k -> room s' k).
Proof.
  intros [I N F] Hg Hgo Hr He. unfold closepgrp.
  assert (rcount (RPgrp g) s = Some 1) as Hc by (cbn; by rewrite Hgo; cbn; rewrite Hr).
  rewrite (cbind_go _ _ _ _ _ (decref_last _ _ Hc)). rewrite decide_False by lia.
  set (go1 := set_pg_ref 0 go). set (go2 := set_pg_id (u32 (-1)) go1).
  assert (set_rcount (RPgrp g) 0 s = set_pgrps (<[g := go1]> (pgrps s)) s) as -> by (cbn; by rewrite (alter_is_insert _ _ _ _ Hgo)).
  set (s1 := set_pgrps (<[g := go1]> (pgrps s)) s).
  assert (pgrps s1 !! g = Some go1) as Hg1 by (unfold s1; cbn; by rewrite lookup_insert_eq).
  assert (rc s1 (all_heads L) (less ext [RPgrp g])) as I1.
  { eapply rc_hold; [|apply (rc_upd_pgrp s _ ext g go go1 I Hgo); cbn; lia]. intros r. unfold hold, less. rewrite occ_one.
    cbn [pg_ref go1 set_pg_ref]. case_decide; lia. }
  assert (pgset (R := R) g (set_pg_id (u32 (-1))) s1 = (Go tt, set_pgrps (<[g := go2]> (pgrps s1)) s1)) as Eset
    by (unfold pgset, put; by rewrite Hg1).
  rewrite (cbind_go _ _ _ _ _ Eset). set (s2 := set_pgrps (<[g := go2]> (pgrps s1)) s1).
  pose proof (rc_upd_pgrp_field s1 _ _ g go1 go2 I1 Hg1 eq_refl) as I2. fold s2 in I2.
  assert (pgrps s2 !! g = Some go2) as Hg2 by (unfold s2; cbn; by rewrite lookup_insert_eq).
  pose proof (ns_upd_pgrp s1 _ _ L g go1 go2 (ns_upd_pgrp s _ _ L g go go1 N Hgo eq_refl) Hg1 eq_refl) as N2. fold s2 in N2.
  unfold hfuel. rewrite (cbind_go _ _ s2 (S (size (mheads s2))) s2) by done.
  assert (pgget (R := R) g s2 = (Go go2, s2)) as Eget by (unfold pgget, look; by rewrite Hg2). rewrite (cbind_go _ _ _ _ _ Eget).
  destruct (ns_table _ _ _ _ N2 g T Hg) as (go' & Hgo' & HT & Hl & Hch). assert (go' = go2) as -> by congruence.
  destruct (closepgrp_tab_ok (R := R) (S (size (mheads s2))) T 0 (pg_mnthash go2) s2 (all_heads L) _ I2)
    as (s3 & E3 & I3 & C3); [by apply (ns_nodup _ _ _ _ N g)|intros m; by apply (ns_table_in _ _ _ _ _ _ _ N Hg)|lia|done| |].
  { intros ch Hin. pose proof (chain_in_size _ _ _ _ _ _ _ N2 Hg Hin). lia. }
  rewrite (cbind_go _ _ _ _ _ E3). unfold free.
  assert (pgrps s3 !! g = Some go2) as Hg3 by (by rewrite (cd_pgrps _ _ _ _ C3)). rewrite Hg3.
  eexists. split_and!; [reflexivity| |..].
  - apply (nsok_intro _ (all_heads L ∖ list_to_set (heads T))); [by apply (rc_del_pgrp s3 _ _ g go2)| |].
    + apply (ns_drop_all _ _ (list_to_set (heads T))); [|intros m Hm%elem_of_list_to_set; by apply (cd_heads _ _ _ _ C3)].
      apply (ns_same s2); [by apply ns_delete| |by intros x [_ ?]%elem_of_difference ?|].
      * pose proof (cd_rest _ _ _ _ C3) as Rs. constructor; apply Rs.
      * intros g1 T1 [Hne _]%lookup_delete_Some. cbn. rewrite lookup_delete_ne by done. by rewrite (cd_pgrps _ _ _ _ C3).
    + intros g1 T1 x [_ Hg1']%lookup_delete_Some. by apply (F g1).
  - cbn. rewrite (cd_pgrps _ _ _ _ C3). cbn. by rewrite !delete_insert_eq.
  - cbn. by rewrite (cd_mounts _ _ _ _ C3).
  - intros m Hm. by apply (cd_heads _ _ _ _ C3).
  - intros k Rm. assert (room s3 k) as (H0 & H1 & H2 & H3).
    { apply C3. apply (room_upd_pgrp s1 k g go1); [|done|done]. by apply (room_upd_pgrp s k g go); [| |cbn; lia]. }
    split_and!; [done|done| |done]. intros r. specialize (H2 r). unfold count_of in *. destruct r as [c|p|m|g1|f]; try done. cbn in *.
    destruct (decide (g1 = g)) as [->|Hne]; [rewrite lookup_delete_eq; cbn; lia|by rewrite lookup_delete_ne].
Qed.

(** Another reference is left. *)
Lemma closepgrp_more s L ext g T go : nsok s L ext -> L !! g = Some T -> pgrps s !! g = Some go -> 1 < pg_ref go ->
  0 < ext (RPgrp g) ->
  let s' := set_pgrps (<[g := set_pg_ref (pg_ref go - 1) go]> (pgrps s)) s in
  closepgrp (R := R) g s = (Go tt, s') /\ nsok s' L (less ext [RPgrp g]).
Proof.
  intros [I N F] Hg Hgo Hr He s'. unfold closepgrp.
  assert (rcount (RPgrp g) s = Some (pg_ref go)) as Hc by (cbn; by rewrite Hgo).
  destruct (decref_ok (R := R) s _ ext (RPgrp g) (pg_ref go) I Hc Hr He) as [E I']. rewrite (cbind_go _ _ _ _ _ E).
  rewrite decide_True by lia.
  assert (set_rcount (RPgrp g) (pg_ref go - 1) s = s') as Es by (unfold s'; cbn; by rewrite (alter_is_insert _ _ _ _ Hgo)).
  rewrite Es in *. split; [done|]. constructor; [|by apply (ns_upd_pgrp s _ _ L g go)|done].
  eapply rc_hold; [|exact I']. intros r. apply hold_less.
Qed.
End Closepgrp.
