(* ===== verification/PgrpcpySpec.v ===== *)
(** [pgrpcpy]: a copy of a name space, and the order of the ids of its [Mount]s. *)

From Stdlib Require Import Sorting.Sorted.
From S2P Require Import Prelude Mem Links Sums Fcall9P Chan ChanSpec Mount MountSpec TableSpec MountOps UnmountSpec PgrpSpec.

(** ** The list of [Mount]s in the order of their ids *)

Definition onode (s : kst) (a : Z) : option (Z * Z) := (fun mo => (mt_id mo, mt_order mo)) <$> mounts s !! a.

Record olist (s : kst) (h : Z) (ol : list (Z * Z)) : Prop := {
  ol_head : h = hd_or ol 0;
  ol_seg : seg (onode s) ol 0;
  ol_nodup : NoDup ol.*1 }.

Fixpoint insert_id (x : Z * Z) (ol : list (Z * Z)) : list (Z * Z) :=
  match ol with
  | [] => [x]
  | y :: r => if decide (x.2 < y.2) then x :: y :: r else y :: insert_id x r
  end.

Abbreviation id_sorted := (StronglySorted (fun x y : Z * Z => x.2 <= y.2)).

Lemma insert_id_perm x ol : insert_id x ol ≡ₚ x :: ol.
Proof.
  induction ol as [|y r IH]; [done|]. cbn. case_decide; [done|]. rewrite IH. apply Permutation_swap.
Qed.

Lemma insert_id_sorted x ol : id_sorted ol -> id_sorted (insert_id x ol).
Proof.
  induction 1 as [|y r Hr IH Hy]; cbn; [by repeat constructor|]. case_decide as Hd.
  - constructor; [by constructor|]. constructor; [lia|]. eapply List.Forall_impl; [|exact Hy]. cbn. lia.
  - constructor; [done|]. apply list.Forall_forall. intros z Hz. rewrite insert_id_perm in Hz.
    apply elem_of_cons in Hz as [->|Hz]; [lia|]. rewrite list.Forall_forall in Hy. by apply Hy.
Qed.

(** Only links of that list change. *)
Record reordered (s s' : kst) : Prop := {
  ro_rest : s' = set_mounts (mounts s') s;
  ro_some a mo : mounts s !! a = Some mo -> exists o, mounts s' !! a = Some (set_mt_order o mo);
  ro_back a mo' : mounts s' !! a = Some mo' -> is_Some (mounts s !! a) }.

Lemma reordered_refl s : reordered s s.
Proof.
  constructor; [by destruct s| |by eexists]. intros a mo Ha. exists (mt_order mo). rewrite Ha. by destruct mo.
Qed.

Lemma reordered_trans s1 s2 s3 : reordered s1 s2 -> reordered s2 s3 -> reordered s1 s3.
Proof.
  intros [E1 H1 B1] [E2 H2 B2]. constructor.
  - rewrite E2, E1. done.
  - intros a mo Ha. destruct (H1 a mo Ha) as (o & Ha1). destruct (H2 a _ Ha1) as (o' & Ha2). exists o'. by destruct mo.
  - intros a mo Ha. destruct (B2 a mo Ha) as [mo2 Ha2]. by apply (B1 a mo2).
Qed.

Lemma reordered_set s a ao o : mounts s !! a = Some ao ->
  reordered s (set_mounts (<[a := set_mt_order o ao]> (mounts s)) s).
Proof.
  intros Ha. constructor; [done| |].
  - intros b bo Hb. cbn. destruct (decide (b = a)) as [->|Hne]; [rewrite lookup_insert_eq; exists o; congruence|].
    rewrite lookup_insert_ne by done. exists (mt_order bo). rewrite Hb. by destruct bo.
  - intros b bo. cbn. destruct (decide (b = a)) as [->|Hne]; [by eexists|]. rewrite lookup_insert_ne by done. by eexists.
Qed.

Section Order.
Context {R : Type}.

Lemma rc_reorder s A ext a ao o : rc s A ext -> mounts s !! a = Some ao ->
  rc (set_mounts (<[a := set_mt_order o ao]> (mounts s)) s) A ext.
Proof. intros I Ha. by apply (rc_upd_mount s A ext a ao). Qed.

Lemma onode_insert s a ao b : b <> a -> onode (set_mounts (<[a := ao]> (mounts s)) s) b = onode s b.
Proof. intros H. unfold onode. cbn. by rewrite lookup_insert_ne. Qed.

(** The place of [m] is behind [dn]. *)
Lemma insert_order_ok m mo rest : forall fuel head dn s A ext, rc s A ext -> olist s head (dn ++ rest) -> dn ++ rest <> [] ->
  mounts s !! m = Some mo -> mt_order mo = 0 -> (m ∉ (dn ++ rest).*1) -> m <> 0 -> (length rest < fuel)%nat ->
  exists s' head', insert_order (R := R) fuel head (match list.last dn with Some x => x.1 | None => 0 end) (hd_or rest 0) m s = (Go head', s') /\
    rc s' A ext /\ reordered s s' /\ olist s' head' (dn ++ insert_id (m, mt_id mo) rest).
Proof.
  induction rest as [|[f fid] rest IH]; intros [|fuel] head dn s A ext I [Hh Hs Hd] Hne Hm Ho Hni Hm0 Hf; try (cbn in Hf; lia); cbn [insert_order hd_or].
  - (* at the end *)
    rewrite app_nil_r in *. destruct dn as [|[p pid] dn _] using rev_ind; [done|].
    rewrite list.last_snoc. cbn [fst]. rewrite decide_True by done.
    apply seg_app in Hs as [Hs1 Hs2]. cbn in Hs2. destruct Hs2 as (Hp0 & Hpn & _).
    unfold onode in Hpn. destruct (mounts s !! p) as [po|] eqn:Hp; [|done]. cbn in Hpn. injection Hpn as Hpi Hpo.
    rewrite (cbind_go _ _ _ _ _ (mtset_go _ _ _ _ Hp)).
    assert (p <> m) as Hpm by (intros ->; apply Hni; rewrite fmap_app, elem_of_app; right; by left).
    eexists _, _. split_and!; [done|by apply rc_reorder|by apply reordered_set|]. constructor.
    + rewrite Hh. by rewrite !hd_or_app.
    + apply seg_app. split.
      * eapply (seg_relink (onode s)); [apply seg_app; split; [exact Hs1|]|done| |].
        -- cbn. split_and!; [done| |done]. unfold onode. rewrite Hp. cbn. by rewrite Hpi, Hpo.
        -- unfold onode. cbn. rewrite lookup_insert_eq. cbn. by rewrite Hpi.
        -- intros b Hb. by apply onode_insert.
      * cbn. split_and!; [done| |done]. unfold onode. cbn. rewrite lookup_insert_ne by done. rewrite Hm. cbn. by rewrite Ho.
    + rewrite !fmap_app. apply list.NoDup_app. split_and!; [by rewrite fmap_app in Hd| |by repeat constructor; apply not_elem_of_nil].
      intros x Hx ->%list_elem_of_singleton. apply Hni. by rewrite fmap_app.
  - apply seg_app in Hs as [Hs1 Hs2]. cbn in Hs2. destruct Hs2 as (Hf0 & Hfn & Hs2).
    unfold onode in Hfn. destruct (mounts s !! f) as [fo|] eqn:Hfo; [|done]. cbn in Hfn. injection Hfn as Hfi Hfx.
    rewrite decide_False by done. rewrite (cbind_go _ _ _ _ _ (mtget_go _ _ _ Hm)), (cbind_go _ _ _ _ _ (mtget_go _ _ _ Hfo)).
    rewrite Hfi. cbn [insert_id snd]. destruct (decide (mt_id mo < fid)) as [Hlt|Hge].
    + (* here *)
      rewrite (cbind_go _ _ _ _ _ (mtset_go _ _ _ _ Hm)).
      set (s1 := set_mounts (<[m := set_mt_order f mo]> (mounts s)) s).
      assert (rc s1 A ext) as I1 by (by apply rc_reorder).
      assert (reordered s s1) as R1 by (by apply reordered_set).
      assert (onode s1 m = Some (mt_id mo, f)) as Hm1 by (unfold onode, s1; cbn; by rewrite lookup_insert_eq).
      assert (forall x, x ∈ (dn ++ (f, fid) :: rest).*1 -> onode s1 x = onode s x) as Same.
      { intros x Hx. apply onode_insert. by intros ->. }
      assert (NoDup (dn ++ (m, mt_id mo) :: (f, fid) :: rest).*1) as Hd'.
      { assert (dn ++ (m, mt_id mo) :: (f, fid) :: rest ≡ₚ (m, mt_id mo) :: dn ++ (f, fid) :: rest) as -> by (by rewrite Permutation_middle).
        cbn. by apply list.NoDup_cons. }
      assert (seg (onode s1) ((f, fid) :: rest) 0) as Hseg2.
      { eapply (seg_ext (onode s)); [intros x Hx; apply Same; rewrite fmap_app, elem_of_app; by right|]. cbn. split_and!; try done.
        unfold onode. rewrite Hfo. cbn. by rewrite Hfi, Hfx. }
      destruct (list.last dn) as [[p pid]|] eqn:El.
      * apply list.last_Some in El as [dn' ->]. cbn [fst].
        assert (p ∈ ((dn' ++ [(p, pid)]) ++ (f, fid) :: rest).*1) as Hin by (rewrite !fmap_app, !elem_of_app; left; right; by left).
        assert (p <> m) as Hpm by (intros ->; done).
        apply seg_app in Hs1 as [Hs0 Hs1]. cbn in Hs1. destruct Hs1 as (Hp0 & Hpn & _).
        unfold onode in Hpn. destruct (mounts s !! p) as [po|] eqn:Hp; [|done]. cbn in Hpn. injection Hpn as Hpi Hpx.
        rewrite decide_False by done. assert (mounts s1 !! p = Some po) as Hp1 by (unfold s1; cbn; by rewrite lookup_insert_ne).
        rewrite (cbind_go _ _ _ _ _ (mtset_go _ _ _ _ Hp1)).
        eexists _, _. split_and!; [done|by apply rc_reorder|eapply reordered_trans; [exact R1|by apply reordered_set]|].
        assert (forall x, x <> p -> onode (set_mounts (<[p := set_mt_order m po]> (mounts s1)) s1) x = onode s1 x) as Same2.
        { intros x Hx. by apply onode_insert. }
        constructor; [rewrite Hh; by rewrite !hd_or_app| |done]. apply seg_app. split.
        -- eapply (seg_relink (onode s1)); [apply seg_app; split|by rewrite fmap_app in Hd; apply list.NoDup_app in Hd as (? & _)|..].
           ++ eapply (seg_ext (onode s)); [intros x Hx; apply Same; rewrite !fmap_app, !elem_of_app; by left; left|exact Hs0].
           ++ cbn. split_and!; [done| |done]. rewrite Same by done. unfold onode. rewrite Hp. cbn. rewrite Hpi, Hpx. reflexivity.
           ++ unfold onode. cbn. rewrite lookup_insert_eq. cbn. by rewrite Hpi.
           ++ intros b Hb. by apply Same2.
        -- eapply (seg_ext (onode s1)).
           ++ intros x Hx. apply Same2. intros ->. rewrite fmap_app in Hd'. apply list.NoDup_app in Hd' as (_ & Hd' & _).
              apply (Hd' p); [|done]. rewrite fmap_app, elem_of_app. right. by left.
           ++ split; [done|split; [exact Hm1|exact Hseg2]].
      * apply list.last_None in El as ->. rewrite decide_True by done. eexists s1, m. split; [done|]. split; [done|]. split; [done|].
        constructor; [done| |done]. split; [done|split; [exact Hm1|exact Hseg2]].
    + (* further on *)
      destruct (IH fuel head (dn ++ [(f, fid)]) s A ext I) as (s' & head' & E & I' & R' & O'); try done.
      { rewrite <- app_assoc. constructor; [done| |done]. apply seg_app. split; [done|]. cbn. split_and!; try done.
        unfold onode. rewrite Hfo. cbn. by rewrite Hfi, Hfx. }
      { by rewrite <- app_assoc. }
      { by rewrite <- app_assoc. }
      { cbn in Hf. lia. }
      rewrite list.last_snoc in E. cbn [fst] in E. rewrite <- app_assoc in O'. rewrite Hfx.
      exists s', head'. by split_and!.
Qed.

Lemma pgrpinsert_ok m mo order ol s A ext : rc s A ext -> olist s order ol -> mounts s !! m = Some mo -> (m ∉ ol.*1) ->
  exists s' order', pgrpinsert (R := R) order m s = (Go order', s') /\ rc s' A ext /\ reordered s s' /\
    olist s' order' (insert_id (m, mt_id mo) ol).
Proof.
  intros I O Hm Hni. unfold pgrpinsert. rewrite (cbind_go _ _ _ _ _ (mtset_go _ _ _ _ Hm)).
  set (mo1 := set_mt_order 0 mo). set (s1 := set_mounts (<[m := mo1]> (mounts s)) s).
  assert (m <> 0) as Hm0 by (pose proof (below_in _ (mounts s) _ _ (proj1 (proj2 (proj2 (rc_addr _ _ _ I)))) Hm); lia).
  assert (rc s1 A ext) as I1 by (by apply rc_reorder).
  assert (reordered s s1) as R1 by (by apply reordered_set).
  assert (mounts s1 !! m = Some mo1) as Hm1 by (unfold s1; cbn; by rewrite lookup_insert_eq).
  assert (olist s1 order ol) as O1.
  { destruct O as [Hh Hs Hd]. constructor; try done. eapply (seg_ext (onode s)); [|exact Hs]. intros x Hx.
    apply onode_insert. by intros ->. }
  destruct ol as [|[f fid] ol].
  - destruct O1 as [-> _ _]. cbn [hd_or]. rewrite decide_True by done. exists s1, m. split_and!; try done.
    constructor; [done| |by repeat constructor; apply not_elem_of_nil]. cbn. split_and!; [done| |done].
    unfold onode. rewrite Hm1. done.
  - pose proof O1 as [Hh Hs Hd]. cbn in Hh. subst order. rewrite decide_False by (by destruct Hs).
    unfold mfuel. rewrite (cbind_go _ _ s1 (S (size (mounts s1))) s1) by done.
    assert (length ((f, fid) :: ol) <= size (mounts s1))%nat as Hsz.
    { eapply (seg_size (mounts s1)); [exact Hs|done|]. intros a [x Hx]. unfold onode in Hx. destruct (mounts s1 !! a); [by eexists|done]. }
    destruct (insert_order_ok m mo1 ((f, fid) :: ol) (S (size (mounts s1))) f [] s1 A ext I1 O1) as (s' & head' & E & I' & R' & O'); try done.
    { lia. }
    exists s', head'. split_and!; [done|done|by eapply reordered_trans|done].
Qed.
End Order.

(** ** The copies of what is mounted at one mount point *)

Lemma olist_same s s' h ol : olist s h ol -> (forall x, x ∈ ol.*1 -> onode s' x = onode s x) -> olist s' h ol.
Proof. intros [Hh Hs Hd] H. constructor; try done. by eapply (seg_ext (onode s)). Qed.

Lemma reordered_same_mount s s' a mo : reordered s s' -> mounts s !! a = Some mo ->
  exists mo', mounts s' !! a = Some mo' /\ same_mount mo mo' /\ mt_id mo' = mt_id mo /\ mt_copy mo' = mt_copy mo.
Proof.
  intros Ro Ha. destruct (ro_some _ _ Ro a mo Ha) as (o & Ha'). eexists. split; [exact Ha'|]. split_and!; [|done..]. by destruct mo.
Qed.

Lemma only_like A m s s' : s' = set_mounts (mounts s') s ->
  (forall a mo, mounts s !! a = Some mo -> exists mo', mounts s' !! a = Some mo' /\ same_mount mo mo') -> only A m s s'.
Proof.
  intros E H. constructor; [|by rewrite E|intros mo Hmo; exists mo; by rewrite E].
  constructor; [|intros x xo _ Hx; rewrite E in Hx; by exists xo|intros c co Hc; exists co; by rewrite E].
  intros x _ _. split; [|intros a mo Ha _; by apply H]. intros mo Hmo. exists (mh_ref mo). rewrite E. by rewrite set_mh_ref_id.
Qed.

(** The [Mount]s of other mount points than [h] keep what they say; of those of [S] the
    copies are noted. *)
Definition noted (h : Z) (S : list Z) (s s' : kst) : Prop :=
  forall a mo, mounts s !! a = Some mo -> mt_head mo <> h ->
    exists mo', mounts s' !! a = Some mo' /\ same_mount mo mo' /\ mt_id mo' = mt_id mo /\ (a ∉ S -> mt_copy mo' = mt_copy mo).

Lemma noted_keep h S s s' : (forall a mo, mounts s !! a = Some mo -> mt_head mo <> h -> mounts s' !! a = Some mo) -> noted h S s s'.
Proof. intros H a mo Ha Hh. exists mo. split_and!; [by apply H|apply same_mount_refl|done..]. Qed.

Lemma noted_trans h S1 S2 S s1 s2 s3 : noted h S1 s1 s2 -> noted h S2 s2 s3 -> (forall a, a ∈ S1 \/ a ∈ S2 -> a ∈ S) -> noted h S s1 s3.
Proof.
  intros H G HS a mo Ha Hh. destruct (H a mo Ha Hh) as (mo1 & Ha1 & E1 & I1 & C1).
  destruct (G a mo1 Ha1) as (mo2 & Ha2 & E2 & I2 & C2); [by rewrite E1|].
  exists mo2. split_and!; [done|by eapply same_mount_trans|congruence|]. intros Hn. rewrite C2, C1; [done|..]; intros Hin; apply Hn, HS; tauto.
Qed.

Section CopyMounts.
Context {R : Type}.

(** [n] comes behind the last one of [lm]. *)
Lemma set_mlink_append s A ext h ho lm n v : rc s A ext -> mheads s !! h = Some ho -> mh_mount ho = hd_or lm 0 ->
  mlist s h lm -> mlist s h [(n, v)] -> (n ∉ lm.*1) ->
  exists s', set_mlink (R := R) h (match list.last lm with Some x => x.1 | None => 0 end) n s = (Go tt, s') /\
    only A h s s' /\ rc s' A ext /\ (forall k, room s k -> room s' k) /\ mlist s' h (lm ++ [(n, v)]) /\
    (exists ho', mheads s' !! h = Some ho' /\ mh_mount ho' = hd_or (lm ++ [(n, v)]) 0) /\
    (forall a ao, mounts s !! a = Some ao -> mt_head ao <> h -> mounts s' !! a = Some ao) /\
    (forall x, onode s' x = onode s x) /\ brk s' = brk s /\ mountid s' = mountid s.
Proof.
  intros I Hho Hf Hl Hn Hni. unfold set_mlink. destruct (list.last lm) as [[p pv]|] eqn:El.
  - apply list.last_Some in El as [la ->]. cbn [fst].
    destruct (mlist_in _ _ _ p Hl) as (po & Hp & Hph); [rewrite fmap_app, elem_of_app; right; by left|].
    assert (p <> 0) as Hp0. { destruct Hl as [Hs _]. destruct (seg_in _ _ _ p Hs) as (? & _); [rewrite fmap_app, elem_of_app; right; by left|done]. }
    rewrite decide_False by done. rewrite (mtset_go _ _ _ _ Hp).
    destruct (only_rc_mount A ext h s p po (set_mt_next n po) I Hp Hph eq_refl) as (O & I' & Rr).
    eexists. split_and!; try done.
    + apply (mlist_app s h la p pv [(n, v)] po); try done. rewrite fmap_app. apply list.NoDup_app.
      split_and!; [apply Hl| |by repeat constructor; apply not_elem_of_nil]. intros x Hx ->%list_elem_of_singleton. done.
    + exists ho. split; [done|]. rewrite Hf. by destruct la.
    + intros a ao Ha Hah. cbn. rewrite lookup_insert_ne; [done|]. intros <-. congruence.
    + intros x. unfold onode. cbn. destruct (decide (x = p)) as [->|Hx]; [by rewrite lookup_insert_eq, Hp|by rewrite lookup_insert_ne].
  - apply list.last_None in El as ->. rewrite decide_True by done. rewrite (mhset_go _ _ _ _ Hho).
    destruct (only_rc_head A ext h s ho n I Hho) as (O & I' & Rr).
    eexists. split_and!; try done; [by apply (mlist_same s)|]. exists (set_mh_mount n ho). cbn. by rewrite lookup_insert_eq.
Qed.

(** The copy of what is mounted at another mount point goes behind [lm]. *)
Record copied (A : gset Z) (h u : Z) (lm l : list (Z * mval)) (ol : list (Z * Z)) (s s' : kst) (l' : list (Z * mval)) (ol' : list (Z * Z)) : Prop := {
  cy_only : only A h s s';
  cy_list : mlist s' h (lm ++ l');
  cy_head : exists ho', mheads s' !! h = Some ho' /\ mh_mount ho' = hd_or (lm ++ l') 0;
  cy_vals : l'.*2 = l.*2;
  cy_order : ol'.*1 ≡ₚ l.*1 ++ ol.*1 /\ (id_sorted ol -> id_sorted ol');
  cy_copies : Forall2 (fun x y => exists mo, mounts s' !! x.1 = Some mo /\ mt_copy mo = y.1) l l';
  cy_noted : noted h l.*1 s s';
  cy_new : Forall (fun a => brk s <= a) l'.*1;
  cy_brk : brk s <= brk s';
  cy_id : 0 <= mountid s -> mountid s + zlen l < 2 ^ 31 -> mountid s' = mountid s + zlen l }.

Lemma copy_mounts_ok A ext h u l : forall fuel s ho lm order ol k, rc s A ext -> h ∈ A -> u <> h ->
  mheads s !! h = Some ho -> mh_mount ho = hd_or lm 0 -> mlist s h lm -> mlist s u l -> olist s order ol ->
  (forall a, a ∈ l.*1 -> a ∉ ol.*1) -> (forall a mo, a ∈ ol.*1 -> mounts s !! a = Some mo -> mt_head mo <> h) ->
  (length l < fuel)%nat -> room s (zlen l + k) -> 0 <= k ->
  exists s' order' l' ol', copy_mounts (R := R) fuel h (hd_or l 0) (match list.last lm with Some x => x.1 | None => 0 end) order s = (Go order', s') /\
    rc s' A ext /\ copied A h u lm l ol s s' l' ol' /\ olist s' order' ol' /\ room s' k.
Proof.
  induction l as [|[a v] l IH]; intros [|fuel] s ho lm order ol k I HhA Hu Hho Hf Hlm Hl Ho Hdj Hoh Hfu Rm Hk; try (cbn in Hfu; lia).
  { exists s, order, [], ol. split_and!; try done. rewrite ?app_nil_r. constructor; try done; rewrite ?app_nil_r.
    - apply only_refl.
    - done.
    - by exists ho.
    - by apply noted_keep.
    - intros. rewrite zlen_nil. lia. }
  apply mlist_cons in Hl as (Ha & (ao & Hao & Hah & Hv & Hn)%mnode_some & Hni & Hl).
  rewrite zlen_cons in Rm. pose proof (zlen_nonneg l). cbn [hd_or copy_mounts]. rewrite decide_False by done.
  rewrite (cbind_go _ _ _ _ _ (mtget_go _ _ _ Hao)).
  destruct (newmount_ok (R := R) s A ext h (mt_to ao) (mt_flag ao) (mt_spec ao) (zlen l + k) I) as (s1 & E1 & I1 & K1 & M1 & Id1 & B1 & H1 & Rm1).
  { right. by apply (refs_mount s A a). }
  { by replace (zlen l + k + 1) with (1 + zlen l + k) by lia. }
  { lia. }
  rewrite (cbind_go _ _ _ _ _ E1). pose proof (proj1 (proj2 (proj2 (rc_addr _ _ _ I)))) as Hbl.
  set (n := brk s) in *. set (no := MkMount (u32 (next_id s)) 0 h 0 0 (mt_to ao) (mt_flag ao) (mt_spec ao)) in *.
  assert (forall b bo, mounts s !! b = Some bo -> b <> n) as Hnew by (intros b bo Hb; specialize (Hbl _ _ Hb); unfold n; lia).
  assert (forall b bo, mounts s !! b = Some bo -> mounts s1 !! b = Some bo) as Keep1.
  { intros b bo Hb. rewrite M1, lookup_insert_ne; [done|]. intros <-. by apply (Hnew _ _ Hb). }
  assert (mounts s1 !! n = Some no) as Hn1 by (by rewrite M1, lookup_insert_eq).
  (* the copy is noted *)
  assert (mounts s1 !! a = Some ao) as Ha1 by (by apply Keep1).
  rewrite (cbind_go _ _ _ _ _ (mtset_go _ _ _ _ Ha1)).
  set (ao2 := set_mt_copy n ao). set (s2 := set_mounts (<[a := ao2]> (mounts s1)) s1).
  assert (a <> n) as Han by (by apply (Hnew a ao)).
  assert (same_mount ao ao2) as Sa by (by destruct ao).
  assert (rc s2 A ext) as I2 by (by apply (rc_upd_mount s1 A ext a ao)).
  assert (mounts s2 !! a = Some ao2) as Ha2 by (unfold s2; cbn; by rewrite lookup_insert_eq).
  assert (olist s2 order ol) as O2.
  { apply (olist_same s); [done|]. intros x Hx. assert (x <> a) as Hxa by (intros ->; by apply (Hdj a (list_elem_of_here _ _))).
    destruct Ho as [_ Hs _]. destruct (seg_in _ _ _ x Hs Hx) as (_ & y & Hy). unfold onode in *. unfold s2. cbn.
    rewrite lookup_insert_ne by done. destruct (mounts s !! x) as [xo|] eqn:Hxo; [|done]. by rewrite (Keep1 x xo). }
  destruct (pgrpinsert_ok (R := R) a ao2 order ol s2 A ext I2 O2 Ha2) as (s3 & order3 & E3 & I3 & R3 & O3).
  { apply Hdj. by left. }
  rewrite (cbind_go _ _ _ _ _ E3).
  set (ol3 := insert_id (a, mt_id ao2) ol) in *.
  pose proof (ro_rest _ _ R3) as Es3.
  destruct (ro_some _ _ R3 a ao2 Ha2) as (oa & Ha3).
  assert (mounts s2 !! n = Some no) as Hn2 by (unfold s2; cbn; by rewrite lookup_insert_ne).
  destruct (ro_some _ _ R3 n no Hn2) as (on & Hn3).
  assert (noted h [a] s s3) as N3.
  { intros b bo Hb Hbh. destruct (decide (b = a)) as [->|Hba].
    - assert (bo = ao) as -> by congruence. eexists. split; [exact Ha3|]. split_and!; [by destruct ao|done|].
      intros Hna. exfalso. apply Hna. by left.
    - assert (mounts s2 !! b = Some bo) as Hb2 by (unfold s2; cbn; rewrite lookup_insert_ne by done; by apply Keep1).
      destruct (reordered_same_mount _ _ _ _ R3 Hb2) as (bo' & ? & ? & ? & ?). by exists bo'. }
  assert (forall lx, mlist s h lx -> mlist s3 h lx) as Mh.
  { intros lx. apply mlist_like. intros b bo _ Hb. destruct (decide (b = a)) as [->|Hba].
    - assert (bo = ao) as -> by congruence. eexists. split; [exact Ha3|]. by destruct ao.
    - assert (mounts s2 !! b = Some bo) as Hb2 by (unfold s2; cbn; rewrite lookup_insert_ne by done; by apply Keep1).
      destruct (reordered_same_mount _ _ _ _ R3 Hb2) as (bo' & ? & ? & _). by exists bo'. }
  assert (n <> 0) as Hn0 by (pose proof (rc_brk _ _ _ I); unfold n; lia).
  assert (mlist s3 h [(n, v)]) as Ln.
  { apply mlist_cons. split_and!; [done| |apply not_elem_of_nil|apply mlist_nil]. apply mnode_some.
    exists (set_mt_order on no). by rewrite <- Hv. }
  assert (n ∉ lm.*1) as Hnl by (intros Hin; destruct (mlist_in _ _ _ _ Hlm Hin) as (bo & Hb & _); by apply (Hnew _ _ Hb)).
  assert (mheads s3 !! h = Some ho) as Hho3 by (rewrite Es3; cbn; by rewrite H1).
  destruct (set_mlink_append s3 A ext h ho lm n v I3 Hho3 Hf (Mh lm Hlm) Ln Hnl)
    as (s4 & E4 & O4 & I4 & R4 & L4 & (ho4 & Hho4 & Hf4) & Keep4 & On4 & B4 & Id4).
  rewrite (cbind_go _ _ _ _ _ E4).
  assert (noted h [a] s s4) as N4.
  { apply (noted_trans h [a] [] [a] s s3 s4 N3); [by apply noted_keep|]. intros b [?|?%not_elem_of_nil]; done. }
  destruct (N4 a ao Hao) as (ao4 & Ha4 & Sa4 & Ia4 & _); [congruence|].
  rewrite (cbind_go _ _ _ _ _ (mtget_go _ _ _ Ha4)). assert (mt_next ao4 = hd_or l 0) as -> by (rewrite Sa4; done).
  assert (mt_copy ao4 = n) as Hca.
  { assert (mounts s4 !! a = Some (set_mt_order oa ao2)) as G by (apply Keep4; [done|cbn; congruence]). rewrite Ha4 in G. by injection G as ->. }
  assert (ol3.*1 ≡ₚ a :: ol.*1) as P3 by (unfold ol3; by rewrite insert_id_perm).
  destruct (IH fuel s4 ho4 (lm ++ [(n, v)]) order3 ol3 k I4 HhA Hu Hho4 Hf4 L4) as (s' & order' & l' & ol' & E5 & I5 & C5 & O5 & Rm5).
  { eapply mlist_like; [|exact Hl]. intros b bo Hb Hbo. destruct (mlist_in _ _ _ _ Hl Hb) as (bo' & Hbo' & Hbh).
    destruct (N4 b bo Hbo) as (b4 & ? & ? & _); [congruence|]. by exists b4. }
  { apply (olist_same s3); [done|]. intros x _. by apply On4. }
  { intros b Hb. rewrite P3. apply not_elem_of_cons. split; [by intros ->|]. apply Hdj. by right. }
  { intros b bo. rewrite P3. intros Hb Hbo. assert (exists b0, mounts s !! b = Some b0 /\ mt_head b0 <> h) as (b0 & Hb0 & Hh0).
    { apply elem_of_cons in Hb as [->|Hb]; [exists ao; split; [done|congruence]|].
      destruct Ho as [_ Hs _]. destruct (seg_in _ _ _ b Hs Hb) as (_ & y & Hy). unfold onode in Hy.
      destruct (mounts s !! b) as [b0|] eqn:Hb0; [|done]. exists b0. split; [done|]. by apply (Hoh b). }
    destruct (N4 b b0 Hb0 Hh0) as (b4 & Hb4 & Sb & _). assert (b4 = bo) as -> by congruence. by rewrite Sb. }
  { cbn in Hfu. lia. }
  { apply R4. rewrite Es3. by apply (room_same s1). }
  { done. }
  rewrite list.last_snoc in E5. cbn [fst] in E5.
  exists s', order', ((n, v) :: l'), ol'. split_and!; try done.
  constructor.
  - eapply only_trans; [apply (keepm_only A h s s1); [done..|by intros b bo Hb _; apply Keep1]|].
    eapply only_trans; [|eapply only_trans; [exact O4|apply C5]]. eapply only_trans.
    + apply (only_like A h s1 s2); [done|]. intros b bo Hb. unfold s2. cbn. destruct (decide (b = a)) as [->|Hba].
      * rewrite lookup_insert_eq. exists ao2. by assert (bo = ao) as -> by congruence.
      * rewrite lookup_insert_ne by done. exists bo. split; [done|apply same_mount_refl].
    + apply (only_like A h s2 s3); [done|]. intros b bo Hb. destruct (reordered_same_mount _ _ _ _ R3 Hb) as (b' & ? & ? & _). by exists b'.
  - pose proof (cy_list _ _ _ _ _ _ _ _ _ _ C5) as L5. by rewrite <- app_assoc in L5.
  - pose proof (cy_head _ _ _ _ _ _ _ _ _ _ C5) as L5. by rewrite <- app_assoc in L5.
  - cbn. f_equal. apply C5.
  - destruct (cy_order _ _ _ _ _ _ _ _ _ _ C5) as [P5 S5]. split.
    + rewrite P5, P3. cbn. by rewrite Permutation_middle.
    + intros S. apply S5. by apply insert_id_sorted.
  - constructor; [|apply C5]. cbn. destruct (cy_noted _ _ _ _ _ _ _ _ _ _ C5 a ao4 Ha4) as (ao5 & Ha5 & _ & _ & C).
    { rewrite Sa4. cbn. congruence. }
    exists ao5. split; [done|]. rewrite C; done.
  - apply (noted_trans h [a] l.*1 _ s s4 s' N4); [apply C5|]. intros b [->%list_elem_of_singleton|?]; [by left|by right].
  - constructor; [cbn; lia|]. eapply List.Forall_impl; [|apply (cy_new _ _ _ _ _ _ _ _ _ _ C5)]. cbn. intros x Hx.
    rewrite B4, Es3 in Hx. cbn in Hx. rewrite B1 in Hx. lia.
  - pose proof (cy_brk _ _ _ _ _ _ _ _ _ _ C5) as Hb.
    rewrite B4, Es3 in Hb. cbn in Hb. rewrite B1 in Hb. lia.
  - rewrite zlen_cons. intros Hm0 Hm1. pose proof (cy_id _ _ _ _ _ _ _ _ _ _ C5) as G.
    assert (mountid s4 = mountid s + 1) as E.
    { rewrite Id4, Es3. cbn. rewrite Id1. unfold next_id. apply s32_small. lia. }
    rewrite G; lia.
Qed.
End CopyMounts.

(** ** The copies of chains and tables *)

(** A mount point and its copy. *)
Definition copy_of (x y : Z * mhval) : Prop :=
  hv_from y.2 = hv_from x.2 /\ hv_key y.2 = hv_key x.2 /\ (hv_mounts y.2).*2 = (hv_mounts x.2).*2.

(** The copy of the [Mount] [a] is [c]. *)
Definition copy_at (s : kst) (a c : Z) : Prop := exists mo, mounts s !! a = Some mo /\ mt_copy mo = c.

Lemma keys_chain (T : tab) i ch : T !! i = Some ch -> NoDup (hv_key <$> (concat T).*2) -> NoDup (hv_key <$> ch.*2).
Proof.
  intros Hi Hd. destruct (concat_mid T i [] ch []) as (a & b & E & _); [by rewrite app_nil_r|].
  rewrite E, !fmap_app in Hd. apply list.NoDup_app in Hd as (_ & _ & Hd). by apply list.NoDup_app in Hd as (? & _).
Qed.

Section CopyTab.
Context {R : Type} (L : gmap Z tab) (from to : Z) (T : tab) (ext : obj -> Z).
Hypothesis from_to : from <> to.
Hypothesis L_from : L !! from = Some T.

Record copying (s : kst) (A : gset Z) (T' : tab) (order : Z) (ol : list (Z * Z)) : Prop := {
  cg_rc : rc s A ext;
  cg_ns : ns s A ∅ (<[to := T']> L);
  cg_full : full ∅ (<[to := T']> L);
  cg_order : olist s order ol;
  cg_heads a mo : a ∈ ol.*1 -> mounts s !! a = Some mo -> mt_head mo ∈ heads T }.

(** The [Mount]s of the first table keep what they say, and those that are not in [S] their
    copies. *)
Definition kept (S : list Z) (s s' : kst) : Prop :=
  forall a mo, mounts s !! a = Some mo -> mt_head mo ∈ heads T ->
    exists mo', mounts s' !! a = Some mo' /\ same_mount mo mo' /\ mt_id mo' = mt_id mo /\ (a ∉ S -> mt_copy mo' = mt_copy mo).

Lemma kept_trans S1 S2 s1 s2 s3 : kept S1 s1 s2 -> kept S2 s2 s3 -> kept (S1 ++ S2) s1 s3.
Proof.
  intros H G a mo Ha Hh. destruct (H a mo Ha Hh) as (mo1 & Ha1 & E1 & I1 & C1).
  destruct (G a mo1 Ha1) as (mo2 & Ha2 & E2 & I2 & C2); [by rewrite E1|].
  exists mo2. split_and!; [done|by eapply same_mount_trans|congruence|]. rewrite not_elem_of_app. intros [? ?]. rewrite C2, C1; done.
Qed.

Lemma kept_refl S s : kept S s s.
Proof. intros a mo Ha _. exists mo. split_and!; [done|apply same_mount_refl|done..]. Qed.

Lemma copying_from s A T' order ol : copying s A T' order ol -> <[to := T']> L !! from = Some T.
Proof. intros _. by rewrite lookup_insert_ne. Qed.

Lemma copying_to s A T' order ol : copying s A T' order ol -> <[to := T']> L !! to = Some T'.
Proof. intros _. by rewrite lookup_insert_eq. Qed.

Lemma concat_snoc (T' : tab) i dn x : T' !! i = Some dn -> concat (<[i := dn ++ [x]]> T') ≡ₚ x :: concat T'.
Proof.
  intros Hi. destruct (concat_perm T' i dn [] [x] []) as (r & E1 & E2); [by rewrite !app_nil_r|]. cbn [app] in *. by rewrite E2, E1.
Qed.

(** One mount point is copied to the end of the chain [dn]. *)
Lemma copy_head_ok s A T' order ol i dn f v k : copying s A T' order ol -> (f, v) ∈ concat T -> T' !! i = Some dn ->
  Z.of_nat i = MOUNTH (hv_key v).2 -> hv_key v ∉ (hv_key <$> (concat T').*2) ->
  (forall a, a ∈ (hv_mounts v).*1 -> a ∉ ol.*1) -> room s (zlen (hv_mounts v) + (k + 1)) -> 0 <= k ->
  exists fo m s1 s' v' order' ol', mheads s !! f = Some fo /\ newmhead (R := R) (mh_from fo) s = (Go m, s1) /\ m <> 0 /\
    (set_hlink (R := R) to (loc_of i dn) m;; mf <- mfuel;; copy_mounts mf m (mh_mount fo) 0 order) s1 = (Go order', s') /\
    copying s' ({[m]} ∪ A) (<[i := dn ++ [(m, v')]]> T') order' ol' /\ copy_of (f, v) (m, v') /\
    ol'.*1 ≡ₚ (hv_mounts v).*1 ++ ol.*1 /\ (id_sorted ol -> id_sorted ol') /\
    Forall2 (copy_at s') (hv_mounts v).*1 (hv_mounts v').*1 /\ kept (hv_mounts v).*1 s s' /\
    (0 <= mountid s -> mountid s + zlen (hv_mounts v) < 2 ^ 31 -> mountid s' = mountid s + zlen (hv_mounts v)) /\ room s' k.
Proof.
  intros C Hfv Hi Hix Hk Hdj Rm Hk0. pose proof C as [I N F O Hoh].
  pose proof (copying_from _ _ _ _ _ C) as Lf. pose proof (copying_to _ _ _ _ _ C) as Lt. pose proof (zlen_nonneg (hv_mounts v)).
  destruct (head_in_mhead _ _ _ _ _ _ _ _ N Lf Hfv) as (j & [Hl (fo & Hfo & Hff) Hch Hjx]).
  assert (f ∈ A) as HfA by (eapply ns_table_in; [exact N|exact Lf|by apply (list_elem_of_fmap_2 fst) in Hfv]).
  pose proof (head_from _ _ _ _ _ _ _ _ fo N Lf Hfv Hfo) as Hfrom.
  destruct (newmhead_ok (R := R) s A ext (mh_from fo) (zlen (hv_mounts v) + k) I) as (s1 & E1 & I1 & H1 & M1 & P1 & Id1 & B1 & Mid1 & Rm1).
  { right. apply (refs_mhead s A f fo); [done|]. unfold out_mhead. rewrite decide_True by done. by left. }
  { by replace (zlen (hv_mounts v) + k + 1) with (zlen (hv_mounts v) + (k + 1)) by lia. }
  { lia. }
  set (m := brk s) in *.
  assert (mheads s !! m = None) as Hfresh by (by apply below_fresh, I).
  assert (m ∉ A) as HmA by (intros Ha; destruct (rc_att _ _ _ I m Ha) as [? E]; by rewrite Hfresh in E).
  assert (m <> 0) as Hm0 by (pose proof (rc_brk _ _ _ I); unfold m; lia).
  assert (m <> f) as Hmf by (intros E; rewrite E in Hfresh; congruence).
  assert (m ∉ heads T) as HmT by (intros Hin; apply HmA; exact (ns_table_in _ _ _ _ _ _ _ N Lf Hin)).
  pose proof (newmhead_ns s s1 A _ m (mh_from fo) N H1 Hfresh HmA M1 P1 Id1) as N1.
  set (v0 := MHVal (mh_from fo) (hv_key v) []).
  assert (mheads s1 !! m = Some (MkMhead 1 (mh_from fo) 0 0)) as Hm1 by (by rewrite H1, lookup_insert_eq).
  destruct (ns_add s1 A _ to T' i dn m v0 N1 Lt Hi HmA Hm0 Hk) as [N2 _].
  { constructor; [apply mlist_nil|by exists (MkMhead 1 (mh_from fo) 0 0)| |by rewrite Hix].
    cbn [hv_from hv_key v0]. rewrite Hfrom. by apply (idents_key s s1). }
  { unfold hnode. by rewrite Hm1. }
  set (s2 := link_st to i dn m s1) in *. set (T2 := <[i := dn ++ [(m, v0)]]> T') in *. rewrite insert_insert_eq in N2.
  pose proof (ns_table _ _ _ _ N1 to T' Lt) as (go & Hgo & _).
  assert (set_hlink (R := R) to (loc_of i dn) m s1 = (Go tt, s2)) as E2.
  { apply (set_hlink_ok to i dn m s1 go Hgo). intros p Hp%pred_in. apply (rc_att _ _ _ I1), elem_of_union_r.
    eapply ns_table_in; [exact N1|exact Lt|by eapply in_heads]. }
  pose proof (rc_link s1 _ ext to i dn m I1) as I2. fold s2 in I2.
  pose proof (room_link to i dn m s1 _ Rm1) as Rm2. fold s2 in Rm2.
  assert (mounts s2 = mounts s) as M2 by (rewrite <- M1; unfold s2, link_st; by destruct (list.last dn) as [[p w]|]).
  assert (mountid s2 = mountid s) as Mid2 by (rewrite <- Mid1; unfold s2, link_st; by destruct (list.last dn) as [[p w]|]).
  assert (mheads s2 !! m = Some (MkMhead 1 (mh_from fo) 0 0)) as Hm2.
  { rewrite <- Hm1. apply link_mhead. intros Hp%pred_in. apply HmA. eapply ns_table_in; [exact N1|exact Lt|by eapply in_heads]. }
  destruct (copy_mounts_ok (R := R) ({[m]} ∪ A) ext m f (hv_mounts v) (S (size (mounts s2))) s2 (MkMhead 1 (mh_from fo) 0 0) [] order ol k I2)
    as (s3 & order' & l' & ol' & E3 & I3 & C3 & O3 & Rm3); try done.
  { apply elem_of_union_l. by apply elem_of_singleton. }
  { apply mlist_nil. }
  { by apply (mlist_same s). }
  { apply (olist_same s); [done|]. intros x _. unfold onode. by rewrite M2. }
  { intros a ao Ha. rewrite M2. intros Hao E. apply HmT. rewrite <- E. by apply (Hoh a). }
  { rewrite M2. pose proof (mlist_size _ _ _ Hl). lia. }
  cbn [list.last app] in *. destruct C3 as [C1 C2 C3 C4 [C5 C5'] C6 C7 C8 C9 C10]. cbn [app] in *.
  assert (i < length T')%nat as Hlt by (by eapply lookup_lt_Some).
  destruct (ns_relist s2 s3 _ _ to T2 i dn m v0 [] l' N2) as [N3 _].
  { by rewrite lookup_insert_eq. }
  { unfold T2. by rewrite list_lookup_insert_eq. }
  { apply C1. }
  { apply C1. }
  { done. }
  { intros mo Hmo. destruct (on_head _ _ _ _ C1 mo Hmo) as (mo' & Hmo' & ? & ?). exists mo'. split_and!; try done.
    destruct C3 as (ho' & Hho' & ?). congruence. }
  set (v' := MHVal (hv_from v0) (hv_key v0) l') in *. unfold T2 in N3. rewrite list_insert_insert_eq, insert_insert_eq in N3.
  exists fo, m, s1, s3, v', order', ol'. split_and!; try done.
  - rewrite (cbind_go _ _ _ _ _ E2). unfold mfuel. rewrite (cbind_go _ _ s2 (S (size (mounts s2))) s2) by done. by rewrite Hff.
  - constructor; [done|done| |done|].
    + intros g1 T1 x. destruct (decide (g1 = to)) as [->|Hne].
      * rewrite lookup_insert_eq. intros [= <-] Hx _. rewrite (concat_snoc T' i dn (m, v') Hi) in Hx.
        apply elem_of_cons in Hx as [->|Hx]; [|by apply (F to T' x Lt Hx), not_elem_of_empty].
        cbn. intros ->. pose proof (F from T (f, v) Lf Hfv (not_elem_of_empty _)) as Hne. cbn in Hne, C4. by destruct (hv_mounts v).
      * rewrite lookup_insert_ne by done. intros Hg1 Hx Hx0. apply (F g1 T1 x); [by rewrite lookup_insert_ne|done..].
    + intros a ao. rewrite C5. intros Ha Hao.
      assert (exists a0, mounts s !! a = Some a0 /\ mt_head a0 ∈ heads T) as (a0 & Ha0 & Hh0).
      { apply elem_of_app in Ha as [Ha|Ha].
        - destruct (mlist_in _ _ _ _ Hl Ha) as (a0 & Ha0 & Hh0). exists a0. split; [done|]. rewrite Hh0. by apply (list_elem_of_fmap_2 fst) in Hfv.
        - destruct O as [_ Hs _]. destruct (seg_in _ _ _ a Hs Ha) as (_ & y & Hy). unfold onode in Hy.
          destruct (mounts s !! a) as [a0|] eqn:Ha0; [|done]. exists a0. split; [done|]. by apply (Hoh a). }
      rewrite <- M2 in Ha0. destruct (C7 a a0 Ha0) as (a3 & Ha3 & E & _); [by intros E; rewrite E in Hh0|].
      assert (a3 = ao) as -> by congruence. by rewrite E.
  - clear -C6. induction C6 as [|x y l l' Hx H IH]; [constructor|]. constructor; [exact Hx|exact IH].
  - intros a mo Ha Hh. rewrite <- M2 in Ha. apply (C7 a mo Ha). intros E. by rewrite E in Hh.
  - intros. rewrite C10; rewrite Mid2; done.
Qed.

(** What a loop has done: the [Mount]s of [l] are copied to those of [r]. *)
Record copied_chain (s s' : kst) (l r : chain) (ol ol' : list (Z * Z)) (k : Z) : Prop := {
  ct_copy : Forall2 copy_of l r;
  ct_order : ol'.*1 ≡ₚ mounts_of l ++ ol.*1;
  ct_sorted : id_sorted ol -> id_sorted ol';
  ct_at : Forall2 (copy_at s') (mounts_of l) (mounts_of r);
  ct_kept : kept (mounts_of l) s s';
  ct_id : 0 <= mountid s -> mountid s + zlen (mounts_of l) < 2 ^ 31 -> mountid s' = mountid s + zlen (mounts_of l);
  ct_room : room s' k }.

Lemma copied_nil s ol k : room s k -> copied_chain s s [] [] ol ol k.
Proof. intros Rm. constructor; try done; [apply kept_refl|]. intros. cbn. unfold zlen. cbn. lia. Qed.

Lemma copy_at_kept S s s' l r : kept S s s' -> (forall a mo, a ∈ l -> mounts s !! a = Some mo -> mt_head mo ∈ heads T) ->
  (forall a, a ∈ l -> a ∉ S) -> Forall2 (copy_at s) l r -> Forall2 (copy_at s') l r.
Proof.
  intros K Hh HS. induction 1 as [|a c l r (mo & Ha & Hc) H IH]; [constructor|]. constructor.
  - destruct (K a mo Ha) as (mo' & Ha' & _ & _ & E); [apply (Hh a); [by left|done]|]. exists mo'. split; [done|].
    rewrite E; [done|]. apply HS. by left.
  - apply IH; [intros b bo Hb; apply Hh; by right|intros b Hb; apply HS; by right].
Qed.

Lemma copied_app s1 s2 s3 l1 l2 r1 r2 ol1 ol2 ol3 k1 k : copied_chain s1 s2 l1 r1 ol1 ol2 k1 -> copied_chain s2 s3 l2 r2 ol2 ol3 k ->
  (forall a mo, a ∈ mounts_of l1 -> mounts s2 !! a = Some mo -> mt_head mo ∈ heads T) ->
  (forall a, a ∈ mounts_of l1 -> a ∉ mounts_of l2) -> copied_chain s1 s3 (l1 ++ l2) (r1 ++ r2) ol1 ol3 k.
Proof.
  intros [A1 B1 C1 D1 E1 F1 G1] [A2 B2 C2 D2 E2 F2 G2] Hh Hd. constructor; try done.
  - by apply Forall2_app.
  - rewrite mounts_of_app, B2, B1, !app_assoc. apply Permutation_app_tail, Permutation_app_comm.
  - intros S. by apply C2, C1.
  - rewrite !mounts_of_app. apply Forall2_app; [|done]. by apply (copy_at_kept (mounts_of l2) s2).
  - rewrite mounts_of_app. by eapply kept_trans.
  - rewrite mounts_of_app, zlen_app. pose proof (zlen_nonneg (mounts_of l1)). pose proof (zlen_nonneg (mounts_of l2)).
    intros H1 H2. rewrite F2; rewrite F1; lia.
Qed.

(** The [Mount]s of the first table are those of its mount points, each of one. *)
Lemma mounts_in s A T' order ol l a : copying s A T' order ol -> (forall x, x ∈ l -> x ∈ concat T) -> a ∈ mounts_of l ->
  exists x mo, x ∈ l /\ a ∈ (hv_mounts x.2).*1 /\ mounts s !! a = Some mo /\ mt_head mo = x.1 /\ mt_head mo ∈ heads T.
Proof.
  intros C Hl (x & Hx & Hin)%list_elem_of_bind. pose proof (Hl x Hin) as HxT. destruct x as [f v].
  destruct (head_in_mhead _ _ _ _ _ _ _ _ (cg_ns _ _ _ _ _ C) (copying_from _ _ _ _ _ C) HxT) as (j & [Hml _ _ _]).
  destruct (mlist_in _ _ _ _ Hml Hx) as (mo & Hmo & Hh). exists (f, v), mo. split_and!; try done.
  rewrite Hh. by apply (list_elem_of_fmap_2 fst) in HxT.
Qed.

Lemma in_concat_chain i ch x : T !! i = Some ch -> x ∈ ch -> x ∈ concat T.
Proof.
  intros Hi Hx. apply list_elem_of_In, in_concat. exists ch. split; apply list_elem_of_In; [by eapply list_elem_of_lookup_2|done].
Qed.

Lemma copy_chain_ok i rest : forall fuel s A sd dn T' order ol k, copying s A T' order ol -> T !! i = Some (sd ++ rest) ->
  T' !! i = Some dn -> (forall x, x ∈ rest -> hv_key x.2 ∉ hv_key <$> (concat T').*2) ->
  (forall a, a ∈ mounts_of rest -> a ∉ ol.*1) -> (length rest < fuel)%nat ->
  room s (zlen rest + zlen (mounts_of rest) + k) -> 0 <= k ->
  exists s' A' r order' ol', copy_chain (R := R) fuel to (hd_or (hnodes rest) 0) (loc_of i dn) order s = (Go order', s') /\
    copying s' A' (<[i := dn ++ r]> T') order' ol' /\ copied_chain s s' rest r ol ol' k.
Proof.
  induction rest as [|[f v] rest IH]; intros [|fuel] s A sd dn T' order ol k C Hi Hi' Hk Hdj Hf Rm Hk0; try (cbn in Hf; lia).
  { exists s, A, [], order, ol. rewrite app_nil_r, list_insert_id by done. split_and!; [done|done|]. by apply copied_nil. }
  pose proof C as [I N F O Hoh]. pose proof (copying_from _ _ _ _ _ C) as Lf.
  assert ((f, v) ∈ concat T) as Hfv by (eapply in_concat_chain; [exact Hi|]; rewrite elem_of_app; right; by left).
  rewrite zlen_cons in Rm. unfold mounts_of in Rm, Hdj. cbn in Rm, Hdj. fold (mounts_of rest) in Rm, Hdj. rewrite zlen_app in Rm.
  pose proof (zlen_nonneg rest). pose proof (zlen_nonneg (mounts_of rest)).
  assert (zlen (hv_mounts v).*1 = zlen (hv_mounts v)) as Hz by (unfold zlen; by rewrite length_fmap). rewrite Hz in Rm.
  destruct (table_chain_ok _ _ _ _ _ (ns_table _ _ _ _ N from T Lf) Hi) as (h & Hok).
  destruct (copy_head_ok s A T' order ol i dn f v (zlen rest + zlen (mounts_of rest) + k) C Hfv Hi')
    as (fo & m & s1 & s2 & v' & order2 & ol2 & Hfo & E1 & Hm0 & E2 & C2 & Cp & P2 & S2 & At2 & K2 & Mid2 & Rm2).
  { symmetry. apply (mk_index s _ f v). apply (chain_mhead _ _ _ _ (f, v) Hok). rewrite elem_of_app. right. by left. }
  { apply (Hk (f, v)). by left. }
  { intros a Ha. apply Hdj. rewrite elem_of_app. by left. }
  { by replace (zlen (hv_mounts v) + (zlen rest + zlen (mounts_of rest) + k + 1)) with (1 + zlen rest + (zlen (hv_mounts v) + zlen (mounts_of rest)) + k) by lia. }
  { lia. }
  assert (f <> 0) as Hf0.
  { intros ->. pose proof (below_in _ (mheads s) _ _ (proj1 (proj2 (proj2 (proj2 (rc_addr _ _ _ I))))) Hfo). lia. }
  change (hd_or (hnodes ((f, v) :: rest)) 0) with f. cbn [copy_chain]. rewrite decide_False by done.
  rewrite (cbind_go _ _ _ _ _ (mhget_go _ _ _ Hfo)), (cbind_go _ _ _ _ _ E1).
  apply cbind_go_inv in E2 as (u & s1' & E2 & E3). rewrite (cbind_go _ _ _ _ _ E2).
  apply cbind_go_inv in E3 as (mf & s1'' & E3 & E4). rewrite (cbind_go _ _ _ _ _ E3), (cbind_go _ _ _ _ _ E4).
  (* the next one of the first table *)
  pose proof C2 as [I2 N2 F2 O2 Hoh2]. pose proof (copying_from _ _ _ _ _ C2) as Lf2.
  assert (exists fo2, mheads s2 !! f = Some fo2 /\ mh_hash fo2 = hd_or (hnodes rest) 0) as (fo2 & Hfo2 & Hnx).
  { destruct (table_chain_ok _ _ _ _ _ (ns_table _ _ _ _ N2 from T Lf2) Hi) as (h2 & _ & Hp2).
    apply part_app in Hp2 as [_ Hp2]. apply part_cons in Hp2 as [(_ & Hn2 & _) _]. unfold hnode in Hn2.
    destruct (mheads s2 !! f) as [fo2|]; [|done]. injection Hn2 as _ Hn2. by exists fo2. }
  rewrite (cbind_go _ _ _ _ _ (mhget_go _ _ _ Hfo2)), Hnx.
  assert (HHash m = loc_of i (dn ++ [(m, v')])) as -> by (unfold loc_of; by rewrite list.last_snoc).
  destruct Cp as (Cp1 & Cp2 & Cp3). cbn [snd] in Cp1, Cp2, Cp3.
  assert (copied_chain s s2 [(f, v)] [(m, v')] ol ol2 (zlen rest + zlen (mounts_of rest) + k)) as CC1.
  { constructor; try done; unfold mounts_of; cbn; rewrite ?app_nil_r; try done.
    - by repeat constructor.
    - by rewrite Hz. }
  assert (forall a, a ∈ mounts_of [(f, v)] -> a ∉ mounts_of rest) as Hsep.
  { intros a Ha Hb.
    destruct (mounts_in s A T' order ol [(f, v)] a C) as (x & mo & Hx & _ & Hmo & Hh & _); [by intros x ->%list_elem_of_singleton|done|].
    apply list_elem_of_singleton in Hx as ->.
    destruct (mounts_in s A T' order ol rest a C) as (y & mo' & Hy & _ & Hmo' & Hh' & _); [|done|].
    { intros y Hy. eapply in_concat_chain; [exact Hi|]. rewrite elem_of_app. right. by right. }
    assert (mo' = mo) as -> by congruence. cbn in Hh. rewrite Hh in Hh'.
    destruct (heads_split T i sd f v rest Hi (ns_nodup _ _ _ _ N from T Lf)) as (_ & _ & Hno). apply Hno. rewrite Hh'.
    by apply list_elem_of_fmap_2. }
  destruct (IH fuel s2 _ (sd ++ [(f, v)]) (dn ++ [(m, v')]) (<[i := dn ++ [(m, v')]]> T') order2 ol2 k C2)
    as (s' & A' & r & order' & ol' & E5 & C5 & CC5).
  { by rewrite <- app_assoc. }
  { rewrite list_lookup_insert_eq; [done|]. by eapply lookup_lt_Some. }
  { intros x Hx. rewrite (concat_snoc T' i dn (m, v') Hi'). cbn. rewrite not_elem_of_cons. split; [|apply Hk; by right].
    rewrite Cp2. intros E. pose proof (ns_keys _ _ _ _ N from T Lf) as Hd.
    apply (keys_chain T i) in Hi as Hdc; [|done]. rewrite fmap_app, fmap_app in Hdc. cbn in Hdc.
    apply list.NoDup_app in Hdc as (_ & _ & Hdc). apply list.NoDup_cons in Hdc as [Hdc _]. apply Hdc. rewrite <- E.
    apply list_elem_of_fmap_2. by apply list_elem_of_fmap_2. }
  { intros a Ha. rewrite P2, elem_of_app. intros [Hin|Hin].
    - apply (Hsep a); [|done]. unfold mounts_of. cbn. by rewrite app_nil_r.
    - apply (Hdj a); [|done]. rewrite elem_of_app. by right. }
  { cbn in Hf. lia. }
  { done. }
  { done. }
  exists s', A', ((m, v') :: r), order', ol'. rewrite E5. split_and!; [done| |].
  - rewrite list_insert_insert_eq in C5. by rewrite <- app_assoc in C5.
  - apply (copied_app s s2 s' [(f, v)] rest [(m, v')] r ol ol2 ol' _ k CC1 CC5); [|done].
    intros a mo Ha Hmo. destruct (mounts_in s2 _ _ order2 ol2 [(f, v)] a C2) as (x & mo' & _ & _ & Hmo' & _ & ?); [by intros x ->%list_elem_of_singleton|done|].
    congruence.
Qed.

Lemma copied_keys s s' l r ol ol' k : copied_chain s s' l r ol ol' k -> hv_key <$> r.*2 = hv_key <$> l.*2.
Proof. intros [H _ _ _ _ _ _]. induction H as [|x y l r (_ & E & _) H IH]; [done|]. cbn. by rewrite E, IH. Qed.

Lemma copy_tab_ok n : forall i s A T' order ol k, copying s A T' order ol -> length T' = (i + n)%nat -> length T = (i + n)%nat ->
  (forall j, (i <= j < i + n)%nat -> T' !! j = Some []) ->
  (forall x, x ∈ concat (drop i T) -> hv_key x.2 ∉ hv_key <$> (concat T').*2) ->
  (forall a, a ∈ mounts_of (concat (drop i T)) -> a ∉ ol.*1) ->
  room s (zlen (concat (drop i T)) + zlen (mounts_of (concat (drop i T))) + k) -> 0 <= k ->
  exists s' A' rs order' ol', copy_tab (R := R) n (Z.of_nat i) to from order s = (Go order', s') /\
    copying s' A' (take i T' ++ rs) order' ol' /\ copied_chain s s' (concat (drop i T)) (concat rs) ol ol' k.
Proof.
  induction n as [|n IH]; intros i s A T' order ol k C Hl' Hl Hz Hk Hdj Rm Hk0.
  { exists s, A, [], order, ol. rewrite app_nil_r, take_ge by lia. split_and!; [done|done|].
    rewrite (drop_ge T) by lia. apply copied_nil. eapply room_less; [done|].
    pose proof (zlen_nonneg (concat (drop i T))). pose proof (zlen_nonneg (mounts_of (concat (drop i T)))). lia. }
  destruct (lookup_lt_is_Some_2 T i) as [ch Hi]; [lia|]. rewrite (drop_S _ _ _ Hi) in *. cbn [concat] in *.
  rewrite mounts_of_app, !zlen_app in *.
  pose proof C as [I N F O Hoh]. pose proof (copying_from _ _ _ _ _ C) as Lf. pose proof (ns_table _ _ _ _ N from T Lf) as Ht.
  pose proof (zlen_nonneg (concat (drop (S i) T))). pose proof (zlen_nonneg (mounts_of (concat (drop (S i) T)))).
  assert (forall x, x ∈ ch -> x ∈ concat T) as HchT by (intros x; by apply (in_concat_chain i)).
  assert (forall x, x ∈ concat (drop (S i) T) -> x ∈ concat T) as HdT.
  { intros x Hx. rewrite <- (take_drop (S i) T), concat_app, elem_of_app. by right. }
  destruct (table_chain_ok _ _ _ _ _ Ht Hi) as (h & Hok).
  assert (NoDup ch.*1) as Hd.
  { destruct (heads_parts T i ch [] []) as (? & _); [by rewrite !app_nil_r|by apply (ns_nodup _ _ _ _ N from)|done]. }
  pose proof (chain_size _ _ _ _ Hok Hd) as Hsz.
  set (k1 := zlen (concat (drop (S i) T)) + zlen (mounts_of (concat (drop (S i) T))) + k).
  destruct (copy_chain_ok i ch (S (size (mheads s))) s A [] [] T' order ol k1 C Hi) as (s1 & A1 & r & order1 & ol1 & E1 & C1 & CC1).
  { apply Hz. lia. }
  { intros x Hx. apply Hk. rewrite elem_of_app. by left. }
  { intros a Ha. apply Hdj. rewrite elem_of_app. by left. }
  { lia. }
  { unfold k1. by replace (zlen ch + zlen (mounts_of ch) + (zlen (concat (drop (S i) T)) + zlen (mounts_of (concat (drop (S i) T))) + k)) with
      (zlen ch + zlen (concat (drop (S i) T)) + (zlen (mounts_of ch) + zlen (mounts_of (concat (drop (S i) T)))) + k) by lia. }
  { unfold k1. lia. }
  cbn [app] in C1. cbn [copy_tab]. unfold hfuel. rewrite (cbind_go _ _ s (S (size (mheads s))) s) by done.
  rewrite (cbind_go _ _ _ _ _ (hlink_tab (R := R) s from T i ch Ht Hi)).
  change (HTab (Z.of_nat i)) with (loc_of i []). rewrite (cbind_go _ _ _ _ _ E1).
  replace (Z.of_nat i + 1) with (Z.of_nat (S i)) by lia.
  assert (i < length T')%nat as Hlt by lia.
  assert (forall a, a ∈ mounts_of ch -> a ∉ mounts_of (concat (drop (S i) T))) as Hsep.
  { intros a Ha Hb. destruct (mounts_in s A T' order ol ch a C HchT Ha) as (x & mo & Hx & _ & Hmo & Hh & _).
    destruct (mounts_in s A T' order ol _ a C HdT Hb) as (y & mo' & Hy & _ & Hmo' & Hh' & _).
    assert (mo' = mo) as -> by congruence. rewrite Hh in Hh'.
    pose proof (ns_nodup _ _ _ _ N from T Lf) as Hn. unfold heads in Hn. rewrite <- (take_drop_middle T i ch Hi), concat_app in Hn. cbn in Hn.
    rewrite !fmap_app in Hn. apply list.NoDup_app in Hn as (_ & _ & Hn). apply list.NoDup_app in Hn as (_ & Hn & _).
    apply (Hn x.1); [by apply list_elem_of_fmap_2|]. rewrite Hh'. by apply list_elem_of_fmap_2. }
  assert (concat (<[i := r]> T') ≡ₚ r ++ concat T') as Pr.
  { destruct (concat_perm T' i [] [] r []) as (q & Q1 & Q2); [apply Hz; lia|]. rewrite app_nil_r in Q2. cbn [app] in *. by rewrite Q2, Q1. }
  destruct (IH (S i) s1 A1 (<[i := r]> T') order1 ol1 k C1) as (s2 & A2 & rs & order2 & ol2 & E2 & C2 & CC2).
  { rewrite length_insert. lia. }
  { lia. }
  { intros j Hj. rewrite list_lookup_insert_ne by lia. apply Hz. lia. }
  { intros x Hx. rewrite Pr, !fmap_app, elem_of_app, (copied_keys _ _ _ _ _ _ _ CC1). intros [Hin|Hin].
    - pose proof (ns_keys _ _ _ _ N from T Lf) as Hn. rewrite <- (take_drop_middle T i ch Hi), concat_app in Hn. cbn in Hn.
      rewrite !fmap_app in Hn. apply list.NoDup_app in Hn as (_ & _ & Hn). apply list.NoDup_app in Hn as (_ & Hn & _).
      apply (Hn _ Hin). apply list_elem_of_fmap_2. by apply list_elem_of_fmap_2.
    - apply (Hk x); [|done]. rewrite elem_of_app. by right. }
  { intros a Ha. rewrite (ct_order _ _ _ _ _ _ _ CC1), elem_of_app. intros [Hin|Hin]; [by apply (Hsep a)|].
    apply (Hdj a); [|done]. rewrite elem_of_app. by right. }
  { apply (ct_room _ _ _ _ _ _ _ CC1). }
  { done. }
  exists s2, A2, (r :: rs), order2, ol2. rewrite E2. split_and!; [done| |].
  - rewrite (take_S_r _ i r) in C2 by (by rewrite list_lookup_insert_eq). rewrite take_insert_ge in C2 by lia. by rewrite <- app_assoc in C2.
  - cbn [concat]. apply (copied_app s s1 s2 ch _ r _ ol ol1 ol2 _ k CC1 CC2); [|done].
    intros a mo Ha Hmo. destruct (mounts_in s1 _ _ order1 ol1 ch a C1 HchT Ha) as (x & mo' & _ & _ & Hmo' & _ & ?). congruence.
Qed.
End CopyTab.

(** ** New ids in the order of the old ones *)

Definition id_of (s : kst) (a : Z) : Z := default 0 (mt_id <$> mounts s !! a).

Lemma id_sorted_lookup l p q x y : id_sorted l -> l !! p = Some x -> l !! q = Some y -> (p <= q)%nat -> x.2 <= y.2.
Proof.
  intros S. revert p q. induction S as [|z l S IH Hz]; intros p q; [done|]. rewrite list.Forall_forall in Hz.
  destruct p as [|p], q as [|q]; cbn; intros Hp Hq Hpq; try lia; [assert (x = y) by congruence; subst; lia| |].
  - injection Hp as ->. apply Hz. by eapply list_elem_of_lookup_2.
  - apply (IH p q); [done|done|lia].
Qed.

Lemma mounts_of_nodup s (ch : chain) : NoDup ch.*1 -> (forall x, x ∈ ch -> mlist s x.1 (hv_mounts x.2)) -> NoDup (mounts_of ch).
Proof.
  induction ch as [|x ch IH]; cbn; [constructor|]. intros [Hx Hd]%list.NoDup_cons H. unfold mounts_of. cbn. fold (mounts_of ch).
  apply list.NoDup_app. split_and!.
  - apply H. by left.
  - intros a Ha (y & Hay & Hy)%list_elem_of_bind.
    destruct (mlist_in s x.1 _ a (H x (list_elem_of_here _ _)) Ha) as (mo & Hmo & Hh).
    destruct (mlist_in s y.1 _ a (H y (list_elem_of_further _ _ _ Hy)) Hay) as (mo' & Hmo' & Hh').
    apply Hx. assert (mo' = mo) as -> by congruence. rewrite <- Hh, Hh'. by apply list_elem_of_fmap_2.
  - apply IH; [done|]. intros y Hy. apply H. by right.
Qed.

Section Renumber.
Context {R : Type}.

Lemma renumber_ok A ext ol : forall fuel s cs, rc s A ext -> olist s (hd_or ol 0) ol -> Forall2 (copy_at s) ol.*1 cs -> NoDup cs ->
  (forall c, c ∈ cs -> is_Some (mounts s !! c) /\ c ∉ ol.*1) -> (length ol < fuel)%nat ->
  0 <= mountid s -> mountid s + zlen ol < 2 ^ 31 ->
  exists s', renumber (R := R) fuel (hd_or ol 0) s = (Go tt, s') /\ rc s' A ext /\
    s' = set_mountid (mountid s + zlen ol) (set_mounts (mounts s') s) /\
    (forall a mo, mounts s !! a = Some mo -> exists mo', mounts s' !! a = Some mo' /\ same_mount mo mo' /\ (a ∉ cs -> mt_id mo' = mt_id mo)) /\
    (forall j c, cs !! j = Some c -> id_of s' c = mountid s + Z.of_nat j).
Proof.
  induction ol as [|[a id] ol IH]; intros [|fuel] s cs I O At Hd Hc Hf H0 H1; try (cbn in Hf; lia).
  { apply list.Forall2_nil_inv_l in At as ->. exists s. split_and!; try done.
    - rewrite zlen_nil, Z.add_0_r. by destruct s.
    - intros a mo Ha. exists mo. split_and!; [done|apply same_mount_refl|done]. }
  cbn in At. apply list.Forall2_cons_inv_l in At as (c & cs' & (mo & Hmo & Hcp) & At & ->).
  apply list.NoDup_cons in Hd as [Hcn Hd]. rewrite zlen_cons in H1. pose proof (zlen_nonneg ol).
  destruct O as [_ Hs Hdo]. cbn in Hs, Hdo. destruct Hs as (Ha0 & Hn & Hs). apply list.NoDup_cons in Hdo as [Hao Hdo].
  unfold onode in Hn. rewrite Hmo in Hn. cbn in Hn. injection Hn as Hid Hnx.
  cbn [hd_or renumber]. rewrite decide_False by done. rewrite (cbind_go _ _ _ _ _ (mtget_go _ _ _ Hmo)).
  rewrite (cbind_go _ _ s (mountid s) s) by done. set (s1 := set_mountid (mountid s + 1) s).
  assert (cmodify (R := R) (set_mountid (s32 (mountid s + 1))) s = (Go tt, s1)) as E1.
  { unfold cmodify. rewrite s32_small by lia. done. }
  rewrite (cbind_go _ _ _ _ _ E1). rewrite Hcp, Hnx.
  destruct (Hc c (list_elem_of_here _ _)) as [[co Hco] Hca]. cbn in Hca. apply not_elem_of_cons in Hca as [Hca Hco'].
  assert (mounts s1 !! c = Some co) as Hco1 by done. rewrite (cbind_go _ _ _ _ _ (mtset_go _ _ _ _ Hco1)).
  set (co2 := set_mt_id (u32 (mountid s)) co). set (s2 := set_mounts (<[c := co2]> (mounts s1)) s1).
  assert (rc s2 A ext) as I2.
  { apply (rc_upd_mount s1 A ext c co); [|done|done]. apply (rc_same s); [exact I|..]; done. }
  assert (forall b, b <> c -> mounts s2 !! b = mounts s !! b) as Ne by (intros b Hb; unfold s2; cbn; by rewrite lookup_insert_ne).
  assert (same_mount co co2) as Sc by (by destruct co).
  destruct (IH fuel s2 cs' I2) as (s' & E & I' & Es & Sm & Ids).
  { constructor; [done| |done]. eapply (seg_ext (onode s)); [|exact Hs]. intros x Hx. unfold onode. rewrite Ne; [done|]. by intros ->. }
  { assert (forall x, x ∈ ol.*1 -> x <> c) as Hx by (intros x Hx ->; done). clear - At Hx Ne.
    induction At as [|x y l l' (xo & Hxo & E) H IH]; [constructor|]. constructor.
    - exists xo. rewrite Ne; [done|]. apply Hx. by left.
    - apply IH. intros z Hz. apply Hx. by right. }
  { done. }
  { intros d Hdin. destruct (Hc d (list_elem_of_further _ _ _ Hdin)) as [Hsome Hnot]. cbn in Hnot. apply not_elem_of_cons in Hnot as [_ Hnot].
    split; [|done]. rewrite Ne; [done|]. by intros ->. }
  { cbn in Hf. lia. }
  { change (mountid s2) with (mountid s + 1). lia. }
  { change (mountid s2) with (mountid s + 1). lia. }
  exists s'. split_and!; [done|done| | |].
  - rewrite Es, zlen_cons. change (mountid s2) with (mountid s + 1).
    replace (mountid s + 1 + zlen ol) with (mountid s + (1 + zlen ol)) by lia. done.
  - intros b bo Hb. destruct (decide (b = c)) as [->|Hbc].
    + destruct (Sm c co2) as (b' & Hb' & E1' & _); [unfold s2; cbn; by rewrite lookup_insert_eq|].
      exists b'. split_and!; [done| |intros Hn; exfalso; apply Hn; by left].
      assert (bo = co) as -> by congruence. by eapply same_mount_trans.
    + destruct (Sm b bo) as (b' & Hb' & E1' & Hid'); [by rewrite Ne|]. exists b'. split_and!; [done|done|].
      intros Hn. apply Hid'. intros Hin. apply Hn. by right.
  - intros [|j] d; cbn; intros Hj.
    + injection Hj as <-. destruct (Sm c co2) as (b' & Hb' & _ & Hid'); [unfold s2; cbn; by rewrite lookup_insert_eq|].
      unfold id_of. rewrite Hb'. cbn. rewrite Hid' by done. cbn. rewrite u32_small by lia. lia.
    + rewrite (Ids j d Hj). change (mountid s2) with (mountid s + 1). lia.
Qed.
End Renumber.

(** ** [pgrpcpy] *)

Lemma onode_val s ol e x : seg (onode s) ol e -> x ∈ ol -> id_of s x.1 = x.2 /\ is_Some (mounts s !! x.1).
Proof.
  revert e. induction ol as [|[a id] ol IH]; intros e; [by intros _ ?%not_elem_of_nil|].
  cbn. intros (_ & Hn & Hs) [->|Hx]%elem_of_cons; [|by apply (IH e)].
  unfold onode in Hn. unfold id_of. cbn. destruct (mounts s !! a) as [mo|]; [|done]. by injection Hn as <- _.
Qed.

Definition copy_in (s : kst) (a : Z) : Z := default 0 (mt_copy <$> mounts s !! a).

Lemma copy_at_in s l r : Forall2 (copy_at s) l r -> r = copy_in s <$> l.
Proof. induction 1 as [|a c l r (mo & Ha & <-) H IH]; [done|]. cbn. rewrite <- IH. f_equal. unfold copy_in. by rewrite Ha. Qed.

Lemma copy_in_at s l : (forall a, a ∈ l -> is_Some (mounts s !! a)) -> Forall2 (copy_at s) l (copy_in s <$> l).
Proof.
  induction l as [|a l IH]; intros H; constructor; [|apply IH; intros b Hb; apply H; by right].
  destruct (H a (list_elem_of_here _ _)) as [mo Hmo]. exists mo. split; [done|]. unfold copy_in. by rewrite Hmo.
Qed.

Lemma copies_nsm l r : Forall2 copy_of l r -> nsm r = nsm l.
Proof.
  intros H. unfold nsm. f_equal. induction H as [|x y l r (_ & E1 & E2) H IH]; [done|]. cbn. rewrite IH.
  unfold entry. by rewrite E1, E2.
Qed.

(** The copies get their ids in the order of the ids of what they are copies of. *)
Lemma copies_in_order s0 s1 s' ol M p q a b : olist s1 (hd_or ol 0) ol -> id_sorted ol -> ol.*1 ≡ₚ M ->
  (forall x, x ∈ M -> id_of s1 x = id_of s0 x) ->
  (forall j c, (copy_in s1 <$> ol.*1) !! j = Some c -> id_of s' c = mountid s1 + Z.of_nat j) ->
  M !! p = Some a -> M !! q = Some b -> id_of s0 a < id_of s0 b ->
  id_of s' (copy_in s1 a) < id_of s' (copy_in s1 b).
Proof.
  intros [_ Hs _] Hso P Hid Hj Ha%list_elem_of_lookup_2 Hb%list_elem_of_lookup_2 Hlt.
  rewrite <- (Hid a Ha), <- (Hid b Hb) in Hlt. rewrite <- P in Ha, Hb.
  apply list_elem_of_fmap in Ha as (x & -> & Hx), Hb as (y & -> & Hy).
  destruct (onode_val _ _ _ _ Hs Hx) as [Ex _], (onode_val _ _ _ _ Hs Hy) as [Ey _]. rewrite Ex, Ey in Hlt.
  apply list_elem_of_lookup in Hx as [i Hi], Hy as [j Hjy].
  rewrite (Hj i), (Hj j); [|by rewrite !list_lookup_fmap, Hjy|by rewrite !list_lookup_fmap, Hi].
  destruct (decide (j <= i)%nat) as [Hle|]; [|lia]. pose proof (id_sorted_lookup ol j i y x Hso Hjy Hi Hle). lia.
Qed.

(** New ids change nothing of the tables. *)
Lemma nsok_ids s s' L ext n : nsok s L ext -> rc s' (all_heads L) ext -> s' = set_mountid n (set_mounts (mounts s') s) ->
  (forall a mo, mounts s !! a = Some mo -> exists mo', mounts s' !! a = Some mo' /\ same_mount mo mo') -> nsok s' L ext.
Proof.
  intros [_ N F] I E H. constructor; [done| |done]. apply (ns_same s); [done| |set_solver|intros g T _; by rewrite E].
  constructor; [|intros m mo _ Hm; rewrite E in Hm; by exists mo|intros c co Hc; exists co; by rewrite E].
  intros m _ _. split; [|intros a mo Ha _; by apply H]. intros mo Hmo. exists (mh_ref mo). by rewrite E, set_mh_ref_id.
Qed.

Section Pgrpcpy.
Context {R : Type}.

(** The copy of a name space is the same name space; its [Mount]s are new ones, whose ids
    have the order of those of the first. *)
Lemma pgrpcpy_ok s L ext from to T k : nsok s L ext -> from <> to -> L !! from = Some T ->
  L !! to = Some (replicate (Z.to_nat MNTHASH) []) -> 0 <= mountid s -> mountid s + 2 * zlen (mounts_of (concat T)) < 2 ^ 31 ->
  room s (zlen (concat T) + zlen (mounts_of (concat T)) + k) -> 0 <= k ->
  exists s' T', pgrpcpy (R := R) to from s = (Go tt, s') /\ nsok s' (<[to := T']> L) ext /\ nsmap T' = nsmap T /\
    (forall p q a b a' b', mounts_of (concat T) !! p = Some a -> mounts_of (concat T) !! q = Some b ->
      mounts_of (concat T') !! p = Some a' -> mounts_of (concat T') !! q = Some b' ->
      id_of s a < id_of s b -> id_of s' a' < id_of s' b') /\
    (forall a mo, mounts s !! a = Some mo -> mt_head mo ∈ heads T -> exists mo', mounts s' !! a = Some mo' /\ same_mount mo mo') /\
    length (mounts_of (concat T')) = length (mounts_of (concat T)).
Proof.
  intros [I N F] Hne Lf Lt Hm0 Hm1 Rm Hk. pose proof (zlen_nonneg (mounts_of (concat T))) as Hz0.
  assert (length T = Z.to_nat MNTHASH) as HlT by (destruct (ns_table _ _ _ _ N from T Lf) as (go & _ & ? & _); done).
  set (T0 := replicate (Z.to_nat MNTHASH) ([] : chain)) in *.
  assert (concat T0 = []) as HT0 by reflexivity.
  assert (<[to := T0]> L = L) as EL by (by apply fin_maps.insert_id).
  destruct (copy_tab_ok (R := R) L from to T ext Hne Lf (Z.to_nat MNTHASH) 0 s (all_heads L) T0 0 [] k)
    as (s1 & A1 & T' & order & ol & E1 & C1 & [Cp Po So At Kp Id Rm1]).
  { constructor; rewrite ?EL; [done|done|done| |by intros a mo ?%not_elem_of_nil].
    constructor; [done|done|constructor]. }
  { done. }
  { done. }
  { intros j Hj. apply lookup_replicate_2. lia. }
  { rewrite HT0. intros x _. apply not_elem_of_nil. }
  { intros a _. apply not_elem_of_nil. }
  { done. }
  { done. }
  change (take 0 T0 ++ T') with T' in C1. rewrite drop_0 in *. cbn [app fmap list_fmap] in Po. rewrite app_nil_r in Po.
  destruct C1 as [I1 N1 F1 O1 Ho1]. specialize (So (SSorted_nil _)).
  set (M := mounts_of (concat T)) in *. set (M' := mounts_of (concat T')) in *.
  assert (<[to := T']> L !! from = Some T) as Lf1 by (by rewrite lookup_insert_ne).
  assert (<[to := T']> L !! to = Some T') as Lt1 by (by rewrite lookup_insert_eq).
  apply copy_at_in in At. set (cs := copy_in s1 <$> ol.*1).
  assert (cs ≡ₚ M') as Pc by (unfold cs; by rewrite At, Po).
  assert (forall x, x ∈ concat T' -> mlist s1 x.1 (hv_mounts x.2)) as Ml.
  { intros [m v] Hx. by destruct (head_in_mhead _ _ _ _ _ _ _ _ N1 Lt1 Hx) as (j & [? _ _ _]). }
  pose proof O1 as [Hh Hs Hd]. subst order.
  destruct (renumber_ok (R := R) A1 ext ol (S (size (mounts s1))) s1 cs I1 O1) as (s' & E2 & I2 & Es & Sm & Ids).
  { apply copy_in_at. intros a (x & -> & Hx)%list_elem_of_fmap. by apply (onode_val s1 ol 0 x). }
  { rewrite Pc. apply (mounts_of_nodup s1); [by apply (ns_nodup _ _ _ _ N1 to)|done]. }
  { intros c. rewrite Pc. intros (x & Hc & Hx)%list_elem_of_bind. destruct (mlist_in _ _ _ _ (Ml x Hx) Hc) as (mo & Hmo & Hhd).
    split; [by exists mo|]. intros Ho. apply Hne. apply (ns_disj _ _ _ _ N1 from to T T' (mt_head mo)); try done; [by apply (Ho1 c)|].
    rewrite Hhd. by apply (list_elem_of_fmap_2 fst). }
  { assert (length ol <= size (mounts s1))%nat; [|lia]. eapply (seg_size (mounts s1)); [exact Hs|done|].
    intros a [x Hx]. unfold onode in Hx. destruct (mounts s1 !! a); [by eexists|done]. }
  { rewrite Id; lia. }
  { assert (zlen ol = zlen M) as ->; [|rewrite Id; lia]. unfold zlen. by rewrite <- Po, length_fmap. }
  assert (forall x, x ∈ M -> id_of s1 x = id_of s x) as Hid.
  { intros x (y & Hy & Hin)%list_elem_of_bind. destruct y as [m v]. destruct (head_in_mhead _ _ _ _ _ _ _ _ N Lf Hin) as (j & [Hl _ _ _]).
    destruct (mlist_in _ _ _ _ Hl Hy) as (mo & Hmo & Hhd). destruct (Kp x mo Hmo) as (mo' & Hmo' & _ & E & _).
    - rewrite Hhd. by apply (list_elem_of_fmap_2 fst) in Hin.
    - unfold id_of. by rewrite Hmo, Hmo'. }
  exists s', T'. fold M'. split_and!.
  - unfold pgrpcpy. rewrite (cbind_go _ _ _ _ _ E1). unfold mfuel. by rewrite (cbind_go (cgets _) _ s1 (S (size (mounts s1))) s1).
  - assert (nsok s1 (<[to := T']> L) ext) as Ok1 by (by apply (nsok_intro s1 A1)).
    apply (nsok_ids s1 s' _ ext (mountid s1 + zlen ol) Ok1); [|exact Es|].
    + assert (A1 = all_heads (<[to := T']> L)) as <-; [|done]. apply set_eq. intros m. rewrite elem_of_all_heads. apply N1.
    + intros a mo Ha. destruct (Sm a mo Ha) as (mo' & ? & ? & _). by exists mo'.
  - unfold nsmap. by apply copies_nsm.
  - intros p q a b a' b' Ha Hb. rewrite At, !list_lookup_fmap, Ha, Hb. cbn. intros [= <-] [= <-].
    apply (copies_in_order s s1 s' ol M p q a b O1 So Po Hid Ids Ha Hb).
  - intros a mo Ha Hhd. destruct (Kp a mo Ha Hhd) as (mo1 & Ha1 & S1 & _). destruct (Sm a mo1 Ha1) as (mo2 & Ha2 & S2 & _).
    exists mo2. split; [done|by eapply same_mount_trans].
  - rewrite At. apply length_fmap.
Qed.
End Pgrpcpy.

(** ** The size of a name space *)

Lemma nodup_size {V} (m : gmap Z V) l : NoDup l -> (forall a, a ∈ l -> is_Some (m !! a)) -> (length l <= size m)%nat.
Proof.
  intros Hd H. rewrite <- size_dom, <- (size_list_to_set (C := gset Z) l Hd). apply subseteq_size.
  intros a Ha%elem_of_list_to_set. by apply elem_of_dom, H.
Qed.

Lemma table_sizes s L ext g T : nsok s L ext -> L !! g = Some T ->
  zlen (concat T) <= Z.of_nat (size (mheads s)) /\ zlen (mounts_of (concat T)) <= Z.of_nat (size (mounts s)).
Proof.
  intros [I N F] Hg.
  assert (forall x, x ∈ concat T -> exists i, mhead_ok s i x.1 x.2) as Hx by (intros [m v]; by eapply head_in_mhead). split.
  - unfold zlen. rewrite <- (length_fmap fst). apply Nat2Z.inj_le, nodup_size; [by apply (ns_nodup _ _ _ _ N g)|].
    intros a (x & -> & Hin)%list_elem_of_fmap. destruct (Hx x Hin) as (i & [_ (mo & Hmo & _) _ _]). by exists mo.
  - unfold zlen. apply Nat2Z.inj_le, nodup_size.
    + apply (mounts_of_nodup s); [by apply (ns_nodup _ _ _ _ N g)|]. intros x Hin. by destruct (Hx x Hin) as (i & [? _ _ _]).
    + intros a (x & Ha & Hin)%list_elem_of_bind. destruct (Hx x Hin) as (i & [Hl _ _ _]).
      destruct (mlist_in _ _ _ _ Hl Ha) as (mo & Hmo & _). by exists mo.
Qed.
