(* ===== verification/CrossSpec.v ===== *)
(** Crossing mount points with a path: what [domount] and [undomount] do; new channels and
    new groups. *)

From S2P Require Import Prelude Mem Links Sums Fcall9P Cleanname Chan ChanSpec PathSpec Mount MountSpec TableSpec MountOps UnmountSpec PgrpSpec.

(** ** The closes do not look at a path that stays *)

Section Aside.
Context {R : Type} (p : Z) (g : Path -> Path).
Hypothesis g_ref : forall po, p_ref (g po) = p_ref po.
Hypothesis g_set : forall n po, g (set_p_ref n po) = set_p_ref n (g po).

Definition aside_st (s : kst) : kst := set_paths (alter g p (paths s)) s.
Definition stays (s : kst) : Prop := exists po, paths s !! p = Some po /\ p_ref po <> 0.

(** If the path is there after the command, it was there before and its other fields do not
    matter. *)
Definition aside {B} (c : cmd kst R B) : Prop :=
  forall s x s', c s = (Go x, s') -> stays s' -> stays s /\ c (aside_st s) = (Go x, aside_st s').

Lemma aside_bind {B C} (c : cmd kst R B) (k : B -> cmd kst R C) : aside c -> (forall b, aside (k b)) -> aside (cbind c k).
Proof.
  intros Hc Hk s x s' (b & s1 & E1 & E2)%cbind_go_inv Hs. destruct (Hk b s1 x s' E2 Hs) as [Hs1 E2'].
  destruct (Hc s b s1 E1 Hs1) as [Hs0 E1']. split; [done|]. by rewrite (cbind_go _ _ _ _ _ E1').
Qed.
Lemma aside_ret {B} (b : B) : aside (cret b).
Proof. intros s x s'. unfold cret. by intros [= <- <-]. Qed.
Lemma aside_abort {B} : aside (@cabort kst R B).
Proof. by intros s x s'. Qed.
Lemma aside_gets {B} (f : kst -> B) : (forall s, f (aside_st s) = f s) -> aside (cgets f).
Proof. intros H s x s'. unfold cgets. rewrite H. by intros [= <- <-]. Qed.
Lemma aside_modify f : (forall s, f (aside_st s) = aside_st (f s)) -> (forall s, paths (f s) = paths s) -> aside (cmodify f).
Proof. intros H H' s x s'. unfold cmodify. rewrite H. intros [= <- <-]. unfold stays. by rewrite H'. Qed.
Lemma aside_when b (c : cmd kst R unit) : aside c -> aside (cwhen b c).
Proof. intros H. destruct b; [done|apply aside_ret]. Qed.
Lemma aside_look {V} (f : kst -> gmap Z V) a : (forall s, f (aside_st s) = f s) -> aside (look f a).
Proof. intros H s x s'. unfold look. rewrite H. destruct (f s !! a); by intros [= <- <-]. Qed.
Lemma aside_put {V} (f : kst -> gmap Z V) set a h : (forall s, f (aside_st s) = f s) ->
  (forall m s, set m (aside_st s) = aside_st (set m s)) -> (forall m s, paths (set m s) = paths s) -> aside (put f set a h).
Proof.
  intros H H' Hp s x s'. unfold put. rewrite H. destruct (f s !! a); [rewrite H'|done]. intros [= <- <-]. unfold stays. by rewrite Hp.
Qed.
Lemma aside_free {V} (f : kst -> gmap Z V) set a : (forall s, f (aside_st s) = f s) ->
  (forall m s, set m (aside_st s) = aside_st (set m s)) -> (forall m s, paths (set m s) = paths s) -> aside (free f set a).
Proof.
  intros H H' Hp s x s'. unfold free. rewrite H. destruct (f s !! a); [rewrite H'|done]. intros [= <- <-]. unfold stays. by rewrite Hp.
Qed.
Lemma aside_free_path q : aside (free paths set_paths q).
Proof.
  intros s x s'. unfold free. destruct (paths s !! q) eqn:E; [|done]. intros [= <- <-]. intros (po & Hp & Hr). cbn in Hp.
  apply lookup_delete_Some in Hp as [Hne Hp]. split; [by exists po|]. unfold aside_st. cbn. rewrite lookup_alter_ne by done.
  rewrite E. assert (delete q (alter g p (paths s)) = alter g p (delete q (paths s))) as -> by (by rewrite delete_alter_ne). done.
Qed.
Lemma aside_decref o : aside (decref o).
Proof.
  intros s x s'. unfold decref.
  assert (rcount o (aside_st s) = rcount o s) as ->.
  { destruct o as [c|q|m|g0|f]; try done. cbn. destruct (decide (q = p)) as [->|Hne]; [|by rewrite lookup_alter_ne].
    rewrite lookup_alter_eq. destruct (paths s !! p); cbn; [by rewrite g_ref|done]. }
  destruct (rcount o s) as [n|] eqn:Hn; [|done]. destruct (decide (s32 (n - 1) < 0)); [done|]. intros [= <- <-].
  assert (set_rcount o (s32 (n - 1)) (aside_st s) = aside_st (set_rcount o (s32 (n - 1)) s)) as ->.
  { destruct o as [c|q|m|g0|f]; try done. unfold aside_st, set_rcount, set_paths. cbn. f_equal. destruct (decide (q = p)) as [->|Hne].
    - rewrite !alter_alter_eq. apply alter_ext. intros po _. cbn. by rewrite g_set.
    - by rewrite alter_alter_ne. }
  intros Hs. split; [|done]. destruct Hs as (po & Hp & Hr). destruct o as [c|q|m|g0|f]; try (by exists po).
  cbn in Hp, Hn. destruct (decide (q = p)) as [->|Hne]; [|rewrite lookup_alter_ne in Hp by done; by exists po].
  destruct (paths s !! p) as [po0|] eqn:E; [|done]. exists po0. split; [done|]. rewrite lookup_alter_eq, E in Hp. cbn in Hp, Hn.
  injection Hp as <-. injection Hn as <-. cbn in Hr. intros H0. rewrite H0 in *. done.
Qed.
Lemma aside_decref_npath : aside (decref_ npath set_npath).
Proof. intros s x s'. unfold decref_. cbn. case_decide; [done|]. by intros [= <- <-]. Qed.

Ltac aside_step :=
  match goal with
  | |- aside (cbind _ _) => apply aside_bind; [|intros ?]
  | |- aside (cret _) => apply aside_ret
  | |- aside cabort => apply aside_abort
  | |- aside (cgets _) => by apply aside_gets
  | |- aside (cmodify _) => by apply aside_modify
  | |- aside (cwhen _ _) => apply aside_when
  | |- aside (chget _) => by apply aside_look
  | |- aside (chset _ _) => by apply aside_put
  | |- aside (mhset _ _) => by apply aside_put
  | |- aside (free paths _ _) => apply aside_free_path
  | |- aside (free _ _ _) => by apply aside_free
  | |- aside (decref _) => apply aside_decref
  | |- aside (decref_ _ _) => apply aside_decref_npath
  | |- aside (if _ then _ else _) => case_match
  end.

Lemma aside_putmhead m : aside (putmhead m).
Proof. unfold putmhead. repeat aside_step. Qed.

Lemma aside_mtpt_close close l : (forall c, aside (close c)) -> aside (mtpt_close close l).
Proof. intros H. induction l as [|c l IH]; cbn; repeat (aside_step || apply H || apply IH). Qed.

Lemma aside_pget q : q <> p -> aside (pget q).
Proof.
  intros Hq s x s'. unfold pget, look. unfold aside_st at 1. cbn. rewrite lookup_alter_ne by done.
  destruct (paths s !! q); [|done]. by intros [= <- <-].
Qed.

Lemma decref_path_zero q s r s' : decref (R := R) (RPath q) s = (Go r, s') -> r = 0 -> exists po, paths s' !! q = Some po /\ p_ref po = 0.
Proof.
  unfold decref. cbn. destruct (paths s !! q) as [po|] eqn:E; [|done]. cbn. case_decide; [done|]. intros [= <- <-] ->.
  cbn. rewrite lookup_alter_eq, E. by eexists.
Qed.

Lemma aside_pathclose close q : (forall c, aside (close c)) -> aside (pathclose_ close q).
Proof.
  intros H. unfold pathclose_. case_decide as Hq0; [apply aside_ret|].
  intros s x s' (r & s1 & E1 & E2)%cbind_go_inv Hs. destruct (decide (r <> 0)) as [Hr|Hr] eqn:Er.
  { injection E2 as <- <-. destruct (aside_decref _ _ _ _ E1 Hs) as [Hs0 E]. split; [done|].
    rewrite (cbind_go _ _ _ _ _ E). by rewrite Er. }
  assert (r = 0) as -> by lia. clear Er Hr.
  assert (q <> p) as Hqp.
  { intros ->. apply cbind_go_inv in E2 as (n & s2 & E2 & E3). apply cbind_go_inv in E3 as (po & s3 & E3 & E4).
    apply cbind_go_inv in E4 as (rc' & s4 & E4 & E5).
    assert (aside (if decide (rc' = ONERR) then cret ONERR else free paths set_paths p;; cret 1)) as A5 by (repeat aside_step).
    destruct (A5 _ _ _ E5 Hs) as [S4 _]. destruct (aside_mtpt_close close _ H _ _ _ E4 S4) as [S3 _].
    assert (s3 = s2) as ->. { unfold pget, look in E3. destruct (paths s2 !! p); [by injection E3 as _ ->|done]. }
    destruct (aside_decref_npath _ _ _ E2 S3) as [(po1 & Hpo1 & Hr1) _].
    destruct (decref_path_zero _ _ _ _ E1 eq_refl) as (po2 & Hpo2 & Hr2). congruence. }
  match type of E2 with ?c s1 = _ => assert (aside c) as A end.
  { apply aside_bind; [apply aside_decref_npath|intros _]. apply aside_bind; [by apply aside_pget|intros po].
    repeat (aside_step || by apply aside_mtpt_close). }
  destruct (A _ _ _ E2 Hs) as [Hs1 E2']. destruct (aside_decref _ _ _ _ E1 Hs1) as [Hs0 E1']. split; [done|].
  rewrite (cbind_go _ _ _ _ _ E1'). exact E2'.
Qed.

Lemma aside_chanfree close c : (forall c, aside (close c)) -> aside (chanfree_ close c).
Proof.
  intros H. unfold chanfree_, muxclose.
  repeat (aside_step || apply H || apply aside_putmhead || by apply aside_pathclose).
Qed.

Lemma aside_cclose_rec n : forall c, aside (cclose_rec n c).
Proof.
  induction n as [|n IH]; intros c; cbn [cclose_rec]; unfold dev_close; repeat (aside_step || by apply aside_chanfree).
Qed.

Lemma aside_cclose c : aside (cclose c).
Proof. unfold cclose. apply aside_bind; [by apply aside_gets|]. intros n. apply aside_cclose_rec. Qed.
End Aside.

(** ** [undomount] and [domount] *)

Lemma occ_set_elem l i x r : (i < length l)%nat ->
  occ r (out_chans (<[i := x]> l)) = occ r (out_chans l) - occ r (nzr RChan (nth i l 0)) + occ r (nzr RChan x).
Proof.
  revert i. induction l as [|y l IH]; intros [|i] H; cbn in H; try lia.
  - change (<[0%nat := x]> (y :: l)) with (x :: l). rewrite !out_chans_cons, !occ_app. cbn [nth]. lia.
  - change (<[S i := x]> (y :: l)) with (y :: <[i := x]> l). rewrite !out_chans_cons, !occ_app, IH by lia. cbn [nth]. lia.
Qed.

Lemma rc_set_mtpt s A ext ext' p po i x : rc s A ext -> paths s !! p = Some po -> p_ref po <> 0 -> (i < length (p_mtpt po))%nat ->
  (forall r, ext' r = ext r + occ r (nzr RChan (nth i (p_mtpt po) 0)) - occ r (nzr RChan x)) -> (forall r, 0 <= ext' r) ->
  rc (set_paths (<[p := set_p_mtpt (<[i := x]> (p_mtpt po)) po]> (paths s)) s) A ext'.
Proof.
  intros I Hp Hr Hi He Hn. apply (rc_upd_path s A ext ext' p po); try done.
  - intros r. rewrite He, !out_path_alive by done. change (p_mtpt (set_p_mtpt ?l po)) with l. rewrite occ_set_elem by done.
    change (p_ref (set_p_mtpt ?l po)) with (p_ref po). unfold at_. case_decide; lia.
  - apply (rc_max _ _ _ I (RPath p)). cbn. by rewrite Hp.
Qed.

Lemma paths_ok_mtpt s p po i x : paths_ok s -> paths s !! p = Some po ->
  paths_ok (set_paths (<[p := set_p_mtpt (<[i := x]> (p_mtpt po)) po]> (paths s)) s).
Proof.
  intros Ok Hp. apply paths_ok_upd; [done|]. destruct (Ok p po Hp) as (H1 & H2 & H3). split_and!; try done; cbn;
    unfold zlen in *; rewrite length_insert; apply H2.
Qed.

Section Cross.
Context {R : Type}.

(** Over a mount point back to the file that is mounted upon. *)
Lemma undomount_ok s L ext c path po : nsok s L ext -> paths_ok s -> paths s !! path = Some po ->
  covers ext [RPath path; RChan c] ->
  let n := (length (p_mtpt po) - 1)%nat in
  let nc := nth n (p_mtpt po) 0 in
  if decide (nc = 0) then undomount (R := R) c path s = (Go c, s)
  else exists s' x, undomount (R := R) c path s = (Go nc, s') /\
    nsok s' L (hold (less ext [RChan c]) (RChan nc) 1) /\ keeps (all_heads L) s s' /\ paths_ok s' /\
    paths s' !! path = Some (set_p_mtpt (<[n := 0]> (p_mtpt po)) (set_p_ref x po)) /\ (forall k, room s k -> room s' k).
Proof.
  intros NK Ok Hp Hc n nc. pose proof NK as [I N F]. destruct (Ok path po Hp) as (_ & [Hm _] & _).
  unfold undomount. rewrite (cbind_go _ _ _ _ _ (pget_go _ _ _ Hp)).
  assert (Z.to_nat (zlen (p_mtpt po) - 1) = n) as En by (unfold zlen, n; lia). rewrite En. fold nc.
  destruct (decide (nc = 0)) as [Hz|Hz]; [by rewrite decide_False by tauto|]. rewrite decide_True by (split; [lia|done]).
  change [RPath path; RChan c] with ([RPath path] ++ [RChan c]) in Hc.
  assert (0 < ext (RPath path)) as Hpe by (apply covers_app in Hc as [Hc _]; by apply covers_held).
  destruct (cclose_ok (R := R) s _ ext c I) as (s1 & E1 & I1 & C1).
  { intros r. specialize (Hc r). rewrite occ_app in Hc. pose proof (occ_nonneg r [RPath path]). lia. }
  rewrite (cbind_go _ _ _ _ _ E1).
  assert (0 < less ext [RChan c] (RPath path)) as Hpe1 by (unfold less; rewrite occ_one, decide_False by done; lia).
  destruct (closes_path s s1 _ _ path po I1 C1 Hpe1 Hp) as (x & Hp1 & Hx). rewrite (cbind_go _ _ _ _ _ (pset_go _ _ _ _ Hp1)).
  unfold set_elem. rewrite En. change (p_mtpt (set_p_ref x po)) with (p_mtpt po).
  pose proof (paths_ok_closes s s1 Ok C1) as Ok1.
  eexists _, x. split; [done|].
  assert (n < length (p_mtpt po))%nat as Hlt by (unfold zlen in Hm; unfold n; lia).
  assert (keeps (all_heads L) s (set_paths (<[path := set_p_mtpt (<[n := 0]> (p_mtpt po)) (set_p_ref x po)]> (paths s1)) s1)) as K.
  { eapply kkeeps_trans; [exact (closing_keeps _ _ _ _ _ I1 C1)|apply keeps_set_path]. }
  split_and!.
  - apply (nsok_keeps s _ L ext); [done| |done].
    apply (rc_set_mtpt s1 _ _ _ path (set_p_ref x po) n 0 I1 Hp1); try done; [cbn; lia| |].
    + intros r. change (p_mtpt (set_p_ref x po)) with (p_mtpt po). fold nc. rewrite nzr_ne by done. rewrite occ_one.
      change (nzr RChan 0) with ([] : list obj). rewrite occ_nil. unfold hold. case_decide; lia.
    + intros r. pose proof (rc_ext _ _ _ I1 r). unfold hold. case_decide; lia.
  - done.
  - by apply (paths_ok_mtpt s1 path (set_p_ref x po)).
  - cbn. by rewrite lookup_insert_eq.
  - intros k Rm. apply (room_set_path s1 k path (set_p_ref x po)); [|done|done]. by eapply room_closing.
Qed.

(** [cclose] while the path still has an old element: as after the change. *)
Lemma cclose_under s A ext p po i x k : rc s A ext -> paths s !! p = Some po -> p_ref po = 1 -> 0 < ext (RPath p) ->
  (i < length (p_mtpt po))%nat -> 0 < ext (RChan x) -> x <> 0 -> room s k ->
  let c := nth i (p_mtpt po) 0 in
  exists s' s2, (if decide (c <> 0) then cclose (R := R) c;; cret tt else cret tt) s = (Go tt, s') /\
    paths s' !! p = Some po /\ s2 = set_paths (<[p := set_p_mtpt (<[i := x]> (p_mtpt po)) po]> (paths s')) s' /\
    rc s2 A (less ext [RChan x]) /\ keeps A s s2 /\ keeps A s s' /\ room s2 k /\
    (paths_ok s -> paths_ok s2).
Proof.
  intros I Hp Hr He Hi Hx Hx0 Rm c. set (po1 := set_p_mtpt (<[i := x]> (p_mtpt po)) po).
  set (s1 := set_paths (<[p := po1]> (paths s)) s).
  assert (rc s1 A (fun r => less ext [RChan x] r + occ r (nzr RChan c))) as I1.
  { apply (rc_set_mtpt s A ext _ p po i x I Hp); [lia|done| |].
    - intros r. rewrite (nzr_ne _ x) by done. unfold less. fold c. lia.
    - intros r. unfold less. rewrite occ_one. pose proof (rc_ext _ _ _ I r). pose proof (occ_nonneg r (nzr RChan c)). case_decide; subst; lia. }
  destruct (cclose_if (R := R) s1 A _ c I1) as (s2 & E2 & I2 & C2).
  { intros r. unfold less. rewrite occ_one. pose proof (rc_ext _ _ _ I r). case_decide; subst; lia. }
  assert (rc s2 A (less ext [RChan x])) as I2' by (eapply rc_hold; [|exact I2]; intros r; unfold less; lia).
  assert (paths s1 !! p = Some po1) as Hp1 by (unfold s1; cbn; by rewrite lookup_insert_eq).
  destruct (closes_path s1 s2 A _ p po1 I2' C2) as (n & Hp2 & Hn); [unfold less; rewrite occ_one, decide_False by done; lia|done|].
  change (p_ref po1) with (p_ref po) in Hn. assert (n = 1) as -> by lia. rewrite <- Hr in Hp2.
  change (p_ref po) with (p_ref po1) in Hp2. rewrite set_p_ref_id in Hp2.
  set (g := set_p_mtpt (p_mtpt po)).
  assert (aside (R := R) p g (if decide (c <> 0) then cclose c;; cret tt else cret tt)) as As.
  { case_decide; [|apply aside_ret]. apply aside_bind; [by apply aside_cclose|intros _; apply aside_ret]. }
  destruct (As s1 tt s2 E2) as [_ E]; [exists po1; split; [done|cbn; lia]|].
  assert (g po1 = po) as Hg by (by destruct po).
  assert (aside_st p g s1 = s) as Es1.
  { unfold aside_st, s1. cbn. rewrite (alter_is_insert _ _ _ _ (lookup_insert_eq _ _ _)), Hg, insert_insert_eq, insert_id by done. by destruct s. }
  rewrite Es1 in E. exists (aside_st p g s2), s2.
  assert (paths (aside_st p g s2) = <[p := po]> (paths s2)) as Ep by (unfold aside_st; cbn; by rewrite (alter_is_insert _ _ _ _ Hp2), Hg).
  split_and!; [done|by rewrite Ep, lookup_insert_eq| |done| | | |].
  - rewrite Ep, insert_insert_eq. fold po1. rewrite insert_id by done. by destruct s2.
  - eapply kkeeps_trans; [apply (keeps_set_path A s (<[p := po1]> (paths s)))|]. by eapply closing_keeps.
  - eapply kkeeps_trans; [|apply (keeps_set_path A s2)]. eapply kkeeps_trans; [apply (keeps_set_path A s (<[p := po1]> (paths s)))|].
    by eapply closing_keeps.
  - eapply room_closing; [exact C2|]. by apply (room_set_path s k p po).
  - intros Ok. apply (paths_ok_closes s1); [|done]. by apply paths_ok_mtpt.
Qed.

(** Over the mount points of the file [*cp]: [*path] gets the file as its last mount point. *)
Lemma domount_ok s L ext g T cp co mp path po k : nsok s L ext -> L !! g = Some T -> chans s !! cp = Some co ->
  paths_ok s -> paths s !! path = Some po -> covers ext ([RPath path] ++ nzr RMhead mp ++ nzr RChan cp) ->
  room s (zlen (p_mtpt po) + (k + 4)) -> 0 <= k ->
  match nsmap T !! key_of co with
  | None => domount (R := R) g cp mp path s = (Go (false, cp, mp, path), s)
  | Some [] => False
  | Some (e :: _) => exists m v p s' po', domount (R := R) g cp mp path s = (Go (true, e.1.1, m, p), s') /\
      nsok s' L (hold (hold (hold (less ext ([RPath path] ++ nzr RMhead mp ++ nzr RChan cp)) (RMhead m) 1) (RChan e.1.1) 1) (RPath p) 1) /\
      keeps (all_heads L) s s' /\ paths_ok s' /\ room s' k /\ (m, v) ∈ concat T /\ hv_key v = key_of co /\
      paths s' !! p = Some po' /\ p_s po' = p_s po /\ p_mtpt po' = <[(length (p_mtpt po) - 1)%nat := hv_from v]> (p_mtpt po)
  end.
Proof.
  intros NK Hg Hco Ok Hp Hc Rm Hk. pose proof NK as [I N F]. destruct (Ok path po Hp) as (_ & [Hm _] & _).
  pose proof (covers_app _ _ _ Hc) as [Hc1 _].
  assert (covers ext (nzr RMhead mp ++ nzr RChan cp)) as Hc2.
  { intros r. specialize (Hc r). rewrite occ_app in Hc. pose proof (occ_nonneg r [RPath path]). lia. }
  pose proof (findmount_ok (R := R) s L ext g T cp mp (c_type co) (c_dev co) (c_qid co) (zlen (p_mtpt po) + (k + 1 + 1)) NK Hg Hc2) as Fm.
  change (c_type co, c_dev co, q_path (c_qid co)) with (key_of co) in Fm.
  unfold domount. rewrite (cbind_go _ _ _ _ _ (chget_go _ _ _ Hco)).
  destruct (nsmap T !! key_of co) as [[|e u]|] eqn:Hu.
  { apply Fm; [by replace (zlen (p_mtpt po) + (k + 1 + 1) + 2) with (zlen (p_mtpt po) + (k + 4)) by lia|lia]. }
  2: { rewrite (cbind_go _ _ s (false, cp, mp) s); [done|].
    apply Fm; [by replace (zlen (p_mtpt po) + (k + 1 + 1) + 2) with (zlen (p_mtpt po) + (k + 4)) by lia|lia]. }
  destruct Fm as (m & s1 & E1 & NK1 & K1 & Rm1 & (v & Hv & Hkv) & Pb).
  { by replace (zlen (p_mtpt po) + (k + 1 + 1) + 2) with (zlen (p_mtpt po) + (k + 4)) by lia. }
  { lia. }
  rewrite (cbind_go _ _ _ _ _ E1). cbn [negb]. pose proof NK1 as [I1 N1 F1].
  set (ext1 := hold (hold (less ext (nzr RMhead mp ++ nzr RChan cp)) (RMhead m) 1) (RChan e.1.1) 1) in *.
  (* the path is still there *)
  assert (forall r, occ r [RPath path] <= ext1 r) as Hc3.
  { intros r. unfold ext1, hold, less. specialize (Hc r). rewrite !occ_app in *. case_decide; case_decide; lia. }
  assert (0 < ext1 (RPath path)) as Hpe by (by apply covers_held).
  destruct (rcount_some s1 _ ext1 (RPath path) I1) as (n & Hn & Hn0); [by left|]. cbn in Hn.
  destruct (paths s1 !! path) as [po1|] eqn:Hp1; [|done]. destruct (Pb path po1 Hp1) as (po0 & Hp0 & Epo).
  assert (po0 = po) as -> by congruence.
  assert (paths_ok s1) as Ok1 by (intros q qo Hq; destruct (Pb q qo Hq) as (q0 & Hq0 & ->); apply (Ok q q0 Hq0)).
  assert (p_mtpt po1 = p_mtpt po /\ p_s po1 = p_s po) as [Em Es] by (by rewrite Epo).
  rewrite <- Em in Rm1.
  destruct (uniquepath_ok (R := R) s1 _ ext1 path po1 (k + 1) I1 Hc3 Hp1 Rm1) as (p & s2 & E2 & I2 & K2 & Rm2 & Hp2 & _ & Pb2); [lia|].
  rewrite (cbind_go _ _ _ _ _ E2), (cbind_go _ _ _ _ _ (pget_go _ _ _ Hp2)).
  change (p_mtpt (set_p_ref 1 po1)) with (p_mtpt po1). rewrite Em, decide_False by lia.
  assert (paths_ok s2) as Ok2.
  { intros q qo Hq. destruct (Pb2 q qo Hq) as (q0 & [Hq0|[_ ->]] & ->); [apply (Ok1 q q0 Hq0)|apply (Ok1 path po1 Hp1)]. }
  pose proof (nsok_keeps _ _ _ _ _ NK1 I2 K2) as NK2. pose proof NK2 as [_ N2 _].
  (* the file *)
  destruct (head_in_mhead _ _ _ _ _ _ _ _ N2 Hg Hv) as (j & [_ (mo & Hmo & _) (fo & Hfo & _) _]).
  assert (m ∈ all_heads L) as HmA by (eapply ns_table_in; [exact N2|exact Hg|by apply (list_elem_of_fmap_2 fst) in Hv]).
  pose proof (head_from _ _ _ _ _ _ _ _ mo N2 Hg Hv Hmo) as Hfrom. set (from := mh_from mo) in *.
  assert (from <> 0) as Hf0 by (rewrite Hfrom; pose proof (below_in _ (chans s2) _ _ (proj1 (rc_addr _ _ _ I2)) Hfo); lia).
  rewrite (cbind_go _ _ _ _ _ (mhget_go _ _ _ Hmo)). fold from.
  destruct (incref_room (R := R) s2 _ _ (RChan from) k I2) as (nf & Hnf & E3 & I3 & Rm3 & _); [|done|done|].
  { right. apply (refs_mhead s2 _ m mo); [done|]. unfold out_mhead. rewrite decide_True by done. by left. }
  rewrite (cbind_go _ _ _ _ _ E3). set (s3 := set_rcount (RChan from) (nf + 1) s2) in *.
  assert (Z.to_nat (zlen (p_mtpt po) - 1) = (length (p_mtpt po) - 1)%nat) as En by (unfold zlen; lia).
  set (po2 := set_p_ref 1 po1) in *.
  destruct (cclose_under s3 _ _ p po2 (length (p_mtpt po) - 1)%nat from k I3) as (s4 & s5 & E4 & Hp4 & E5 & I5 & K5 & K4 & Rm5 & Ok5); try done.
  { rewrite hold_ne by done. rewrite hold_eq. unfold less. rewrite occ_one. specialize (Hc3 (RPath p)). rewrite occ_one in Hc3. lia. }
  { unfold po2. cbn. rewrite Em. unfold zlen in Hm. lia. }
  { rewrite hold_eq. pose proof (rc_ext _ _ _ I2 (RChan from)). lia. }
  change (p_mtpt po2) with (p_mtpt po1) in *. rewrite Em in *. rewrite En, (cbind_go _ _ _ _ _ E4).
  destruct (kp_mheads _ _ _ K4 m mo HmA Hmo) as (n4 & Hm4). rewrite (cbind_go _ _ _ _ _ (mhget_go _ _ _ Hm4)).
  change (mh_from (set_mh_ref n4 mo)) with from. rewrite (cbind_go _ _ _ _ _ (pset_go _ _ _ _ Hp4)).
  unfold set_elem. rewrite En. change (p_mtpt po2) with (p_mtpt po1). rewrite Em, <- E5.
  assert (keeps (all_heads L) s s5) as K.
  { eapply kkeeps_trans; [exact K1|]. eapply kkeeps_trans; [exact K2|]. eapply kkeeps_trans; [|exact K5]. apply recounted_keeps, recounted_set. }
  exists m, v, p, s5. eexists. split_and!; [done| |done| |done|done|done|by rewrite E5; cbn; rewrite lookup_insert_eq|exact Es|by rewrite <- Hfrom].
  - apply (nsok_keeps s _ L ext); [done| |done]. eapply rc_hold; [|exact I5]. intros r.
    unfold ext1, hold, less. rewrite !occ_app, !occ_one.
    destruct (decide (r = RChan e.1.1)), (decide (r = RMhead m)), (decide (r = RPath p)), (decide (r = RChan from)); lia.
  - by apply Ok5.
Qed.
End Cross.
