(* ===== verification/NewSpec.v ===== *)
(** New channels and new groups. *)

From S2P Require Import Prelude Mem Links Sums Fcall9P Cleanname Chan ChanSpec Mount MountSpec TableSpec MountOps.

#[local] Arguments occ : simpl never.
#[local] Arguments refs : simpl never.
#[local] Arguments out_path : simpl never.
#[local] Arguments msum : simpl never.

(** ** A new channel *)

Lemma count_new_chan s co r :
  count_of r (set_chans (<[brk s := co]> (chans s)) (set_brk (brk s + 1) s)) =
  if decide (r = RChan (brk s)) then c_ref co else count_of r s.
Proof.
  unfold count_of. case_decide as E; [subst r; cbn; by rewrite lookup_insert_eq|].
  destruct r; cbn; try done. rewrite lookup_insert_ne; [done|congruence].
Qed.

Lemma rc_new_chan s A ext co : rc s A ext -> is_free co = false -> out_chan co = [] -> 0 < c_ref co < 2 ^ 31 ->
  rc (set_chans (<[brk s := co]> (chans s)) (set_brk (brk s + 1) s)) A (hold ext (RChan (brk s)) (c_ref co)).
Proof.
  intros I Hf Ho Hr. pose proof (below_fresh _ (chans s) (proj1 (rc_addr _ _ _ I))) as Hn.
  constructor; cbn [brk chans paths mounts mheads pgrps fgrps npath chan_free set_chans set_brk]; try apply I.
  - intros r. unfold hold. pose proof (rc_ext _ _ _ I r). case_decide; lia.
  - intros r. pose proof (rc_eq _ _ _ I r) as E. rewrite count_new_chan. unfold refs in *. cbn [set_chans set_brk chans paths mounts mheads fgrps].
    rewrite msum_insert_new by done. rewrite Ho, occ_nil. unfold hold. case_decide; [|lia].
    subst r. unfold count_of in E. cbn in E. rewrite Hn in E. cbn in E. lia.
  - intros c co'. destruct (decide (c = brk s)) as [->|Hne].
    + rewrite lookup_insert_eq. intros [= <-]. rewrite Hf. split; [done|lia].
    + rewrite lookup_insert_ne by done. apply I.
  - intros r n Hc. destruct (decide (r = RChan (brk s))) as [->|Hne].
    + cbn in Hc. rewrite lookup_insert_eq in Hc. cbn in Hc. injection Hc as <-. lia.
    + apply (rc_max _ _ _ I r). rewrite <- Hc. destruct r; cbn; try done. rewrite lookup_insert_ne; [done|congruence].
  - pose proof (rc_brk _ _ _ I). lia.
  - rc_grow I.
  - destruct (rc_free _ _ _ I) as (l & Hd & Hl). exists l. split; [done|]. eapply free_chain_ext; [|exact Hl].
    intros c co' _ Hc Hfc. exists co'. cbn. rewrite lookup_insert_ne; [done|]. intros <-. by rewrite Hn in Hc.
Qed.

(** A channel that is not the file of a mount point may change. *)
Lemma ns_other_chan s s' A L : ns s A ∅ L ->
  (forall g T x, L !! g = Some T -> x ∈ concat T -> chans s' !! hv_from x.2 = chans s !! hv_from x.2) ->
  mounts s' = mounts s -> mheads s' = mheads s -> pgrps s' = pgrps s -> ns s' A ∅ L.
Proof.
  intros N Hc Em Eh Ep. constructor; try apply N; [|intros m mo; rewrite Eh; apply N].
  intros g T Hg. destruct (ns_table _ _ _ _ N g T Hg) as (go & Hgo & H1 & H2 & H3). exists go. rewrite Ep. split_and!; try done.
  intros i ch Hi. destruct (H3 i ch Hi) as (h & Hh & Hhd & Hs & Hf). exists h. split; [done|]. split; [done|]. split.
  - eapply seg_ext; [|exact Hs]. intros m _. unfold hnode. by rewrite Eh.
  - rewrite list.Forall_forall in *. intros [m v] Hx. destruct (Hf (m, v) Hx) as [Hl (mo & Hmo & Hf1) (co & Hco & Hk) Hi1].
    constructor; cbn in *; [by apply (mlist_same s)|by exists mo; rewrite Eh| |done].
    exists co. split; [|done]. rewrite <- Hco. apply (Hc g T (m, v) Hg). apply list_elem_of_In, in_concat. exists ch.
    split; apply list_elem_of_In; [by eapply list_elem_of_lookup_2|done].
Qed.

(** The files of mount points are in use. *)
Lemma from_live s L ext g T x : nsok s L ext -> L !! g = Some T -> x ∈ concat T ->
  exists co, chans s !! hv_from x.2 = Some co /\ is_free co = false.
Proof.
  intros [I N F] Hg Hx. destruct x as [m v]. destruct (head_in_mhead _ _ _ _ _ _ _ _ N Hg Hx) as (j & [_ (mo & Hmo & _) _ _]).
  pose proof (head_from _ _ _ _ _ _ _ _ mo N Hg Hx Hmo) as E. cbn [snd]. rewrite <- E.
  destruct (live_chan s (all_heads L) ext (mh_from mo) I) as (co & ? & ? & _); [|by exists co]. right.
  apply (refs_mhead s _ m mo); [done|]. unfold out_mhead. rewrite decide_True; [by left|].
  eapply ns_table_in; [exact N|exact Hg|]. by apply (list_elem_of_fmap_2 fst) in Hx.
Qed.

Lemma nsok_new_chan s L ext co : nsok s L ext -> is_free co = false -> out_chan co = [] -> 0 < c_ref co < 2 ^ 31 ->
  nsok (set_chans (<[brk s := co]> (chans s)) (set_brk (brk s + 1) s)) L (hold ext (RChan (brk s)) (c_ref co)).
Proof.
  intros NK Hf Ho Hr. pose proof NK as [I N F]. constructor; [by apply rc_new_chan| |done].
  apply (ns_other_chan s); try done. intros g T x Hg Hx. destruct (from_live _ _ _ _ _ _ NK Hg Hx) as (fo & Hfo & _).
  cbn. rewrite lookup_insert_ne; [done|]. pose proof (below_in _ (chans s) _ _ (proj1 (rc_addr _ _ _ I)) Hfo). lia.
Qed.

Lemma nsok_same s s' L ext : nsok s L ext -> chans s' = chans s -> paths s' = paths s -> mounts s' = mounts s ->
  mheads s' = mheads s -> pgrps s' = pgrps s -> fgrps s' = fgrps s -> chan_free s' = chan_free s -> brk s' = brk s ->
  npath s' = npath s -> nsok s' L ext.
Proof.
  intros [I N F] E1 E2 E3 E4 E5 E6 E7 E8 E9. constructor; [by apply (rc_same s)| |done].
  apply (ns_other_chan s); try done. intros. by rewrite E1.
Qed.

(** ** A new group *)

Definition empty_tab : tab := replicate (Z.to_nat MNTHASH) [].

Lemma heads_empty : heads empty_tab = [].
Proof. reflexivity. Qed.

Lemma nsok_new_pgrp s L ext id : nsok s L ext ->
  nsok (set_pgrps (<[brk s := MkPgrp 1 0 id (replicate (Z.to_nat MNTHASH) 0)]> (pgrps s)) (set_brk (brk s + 1) s))
    (<[brk s := empty_tab]> L) (hold ext (RPgrp (brk s)) 1).
Proof.
  intros [I N F]. set (g := brk s). set (go := MkPgrp 1 0 id (replicate (Z.to_nat MNTHASH) 0)).
  set (s' := set_pgrps _ _). assert (pgrps s !! g = None) as Hfresh by (by apply below_fresh, I).
  assert (L !! g = None) as HL.
  { destruct (L !! g) as [T|] eqn:E; [|done]. destruct (ns_table _ _ _ _ N g T E) as (x & Hx & _). congruence. }
  assert (forall m, ~ m ∈ heads empty_tab) as He by (intros m; rewrite heads_empty; apply not_elem_of_nil).
  apply (nsok_intro s' (all_heads L)).
  - by apply rc_new_pgrp.
  - constructor; [| | | | |apply N].
    + intros m. rewrite (ns_att _ _ _ _ N m). split; intros (g1 & T1 & Hg1 & Hm).
      * exists g1, T1. rewrite lookup_insert_ne; [done|]. by intros <-; rewrite HL in Hg1.
      * destruct (decide (g1 = g)) as [->|Hne]; [rewrite lookup_insert_eq in Hg1; injection Hg1 as <-; by apply He in Hm|].
        rewrite lookup_insert_ne in Hg1 by done. by exists g1, T1.
    + intros g1 T1 [[<- <-]|[_ H]]%lookup_insert_Some; [rewrite heads_empty; constructor|by apply (ns_nodup _ _ _ _ N g1)].
    + intros g1 g2 T1 T2 m [[<- <-]|[_ H1]]%lookup_insert_Some [[<- <-]|[_ H2]]%lookup_insert_Some Hm1 Hm2;
        [done|by apply He in Hm1|by apply He in Hm2|by apply (ns_disj _ _ _ _ N g1 g2 T1 T2 m)].
    + intros g1 T1 [[<- <-]|[_ H]]%lookup_insert_Some; [by constructor|by apply (ns_keys _ _ _ _ N g1)].
    + intros g1 T1 [[<- <-]|[Hne H]]%lookup_insert_Some.
      * exists go. unfold s'. cbn [pgrps set_pgrps]. rewrite lookup_insert_eq. split_and!; [done..|].
        intros i ch [-> Hi]%lookup_replicate. exists 0. split; [by apply lookup_replicate_2|]. split; [done|]. by split.
      * apply (table_same s); [by apply (ns_table _ _ _ _ N)|by intros c co Hc; exists co| |].
        -- unfold s'. cbn. by rewrite lookup_insert_ne.
        -- intros m _. apply same_at_eq; [|done]. intros mo Hmo. exists (mh_ref mo). by rewrite set_mh_ref_id.
  - intros g1 T1 x [[<- <-]|[_ H]]%lookup_insert_Some Hx; [by apply not_elem_of_nil in Hx|by apply (F g1 T1 x)].
Qed.

Section New.
Context {R : Type}.

(** [newchan]: a channel that the caller has, from the free ones or a new one. *)
Lemma newchan_ok s L ext : nsok s L ext ->
  (forall co, chans s !! chan_free s = Some co -> c_umc co = 0) ->
  exists c s' co, newchan (R := R) s = (Go c, s') /\ nsok s' L (hold ext (RChan c) 1) /\ chans s' !! c = Some (reset_chan co) /\
    (forall d, d <> c -> chans s' !! d = chans s !! d) /\
    (if decide (chan_free s = 0) then c = brk s /\ co = set_c_link (chan_list s) (set_c_fid (s32 (chan_fid s + 1)) zero_chan)
     else c = chan_free s /\ chans s !! c = Some co) /\
    mounts s' = mounts s /\ mheads s' = mheads s /\ pgrps s' = pgrps s /\ paths s' = paths s.
Proof.
  intros NK Hu. pose proof NK as [I N F]. unfold newchan. rewrite (cbind_go _ _ s (chan_free s) s) by done.
  destruct (decide (chan_free s = 0)) as [Hz|Hz].
  - rewrite decide_False by tauto. set (co0 := set_c_link (chan_list s) (set_c_fid (s32 (chan_fid s + 1)) zero_chan)).
    set (b := brk s). set (s1 := set_chans (<[b := reset_chan co0]> (chans s)) (set_brk (b + 1) s)).
    assert (nsok s1 L (hold ext (RChan b) 1)) as NK1 by (by apply (nsok_new_chan s L ext (reset_chan co0) NK)).
    set (s2 := set_chan_list b (set_chan_fid (s32 (chan_fid s + 1)) s1)).
    exists b, s2, co0. split_and!; try done; [|by apply (nsok_same s1)|unfold s2, s1; cbn; by rewrite lookup_insert_eq|].
    + unfold smalloc. unfold cbind at 1. unfold cbind at 1. fold b. rewrite (cbind_go _ _ _ (chan_fid s) _) by done.
      unfold cmodify at 1. unfold cbind at 1. rewrite (cbind_go _ _ _ (chan_list s) _) by done.
      set (sx := set_chan_fid (s32 (chan_fid s + 1)) (set_chans (<[b := zero_chan]> (chans s)) (set_brk (b + 1) s))).
      assert (chans sx !! b = Some zero_chan) as Hx by (unfold sx; cbn; by rewrite lookup_insert_eq).
      unfold chset at 1, put. rewrite (cbind_go _ _ sx tt (set_chans (<[b := co0]> (chans sx)) sx)) by (unfold put; by rewrite Hx).
      unfold cmodify, cret. unfold cbind at 1. unfold cbind. unfold chset, put. cbn [chans set_chan_list set_chans].
      rewrite lookup_insert_eq. do 2 f_equal. unfold sx. cbn. by rewrite !insert_insert_eq.
    + intros d Hd. unfold s2, s1. cbn. by rewrite lookup_insert_ne.
  - rewrite decide_True by done. destruct (rc_free _ _ _ I) as (l & Hd & Hl). destruct l as [|c l]; [done|].
    destruct Hl as (Ec & Hc0 & co & Hco & Hf & Hl). apply list.NoDup_cons in Hd as [Hcl Hd]. rewrite Ec in *.
    rewrite (cbind_go _ _ s c (set_chan_free (c_next co) s)).
    2: { by rewrite (cbind_go _ _ _ _ _ (chget_go _ _ _ Hco)). }
    set (s1 := set_chan_free (c_next co) s). assert (chans s1 !! c = Some co) as Hco1 by done.
    unfold chset, put. unfold cbind at 1. rewrite Hco1.
    set (s2 := set_chan_free (c_next co) (set_chans (<[c := reset_chan co]> (chans s)) s)).
    assert (rc s2 (all_heads L) (hold ext (RChan c) 1)) as I2.
    { pose proof (proj1 (rc_chan _ _ _ I c co Hco) Hf) as Hr.
      apply (rc_upd_chan_free s _ ext _ c co (reset_chan co) (c_next co) I Hco); try done.
      - intros r. unfold out_chan. rewrite Hf. change (is_free (reset_chan co)) with false. cbn [reset_chan].
        change (nzr RMhead (c_umh (reset_chan co)) ++ nzr RChan (c_umc (reset_chan co)) ++ _) with (nzr RChan (c_umc co) ++ ([] : list obj)).
        rewrite (Hu co Hco), occ_nil. change (nzr RChan 0 ++ []) with ([] : list obj). rewrite occ_nil.
        change (c_ref (reset_chan co)) with 1. rewrite Hr. unfold hold, at_. case_decide; lia.
      - intros r. pose proof (rc_ext _ _ _ I r). unfold hold. case_decide; lia.
      - exists l. split; [done|]. eapply free_chain_ext; [|exact Hl]. intros d do Hin Hdo Hdf. exists do. cbn.
        rewrite lookup_insert_ne; [done|]. by intros ->. }
    exists c, s2, co. split_and!; try done; [|unfold s2; cbn; by rewrite lookup_insert_eq|intros d Hdc; unfold s2; cbn; by rewrite lookup_insert_ne].
    constructor; [done| |done]. apply (ns_other_chan s); try done. intros g T x Hg Hx.
    destruct (from_live _ _ _ _ _ _ NK Hg Hx) as (fo & Hfo & Hff). unfold s2. cbn. rewrite lookup_insert_ne; [done|].
    intros E. rewrite <- E in Hfo. congruence.
Qed.

(** [newpgrp]: a group in whose name space nothing is mounted. *)
Lemma newpgrp_ok s L ext : nsok s L ext ->
  exists s', newpgrp (R := R) s = (Go (brk s), s') /\ nsok s' (<[brk s := empty_tab]> L) (hold ext (RPgrp (brk s)) 1) /\
    nsmap empty_tab = ∅ /\ chans s' = chans s /\ mounts s' = mounts s /\ mheads s' = mheads s.
Proof.
  intros NK. set (g := brk s). set (go := fun id => MkPgrp 1 0 id (replicate (Z.to_nat MNTHASH) 0)).
  set (sn := fun id => set_pgrps (<[g := go id]> (pgrps s)) (set_brk (g + 1) s)). set (n := s32 (pgrpid s + 1)).
  exists (set_pgrpid n (sn (u32 n))). split_and!; try done.
  - unfold newpgrp, smalloc. unfold cbind at 1. fold g. unfold incref_. unfold cbind at 1. cbn [pgrpid set_pgrps set_brk]. fold n.
    unfold pgset, put. unfold cbind. cbn [pgrps set_pgrpid set_pgrps]. rewrite lookup_insert_eq. unfold cret, sn. do 2 f_equal.
    cbn. by rewrite insert_insert_eq.
  - apply (nsok_same (sn (u32 n))); try done. by apply nsok_new_pgrp.
Qed.
End New.
