(* ===== verification/NsThms.v ===== *)
(** The name space: what mounts, unmounts, walks over mount points, copies of a name space
    and its end do, and the names of paths. *)

From S2P Require Import Prelude Mem Links Sums Fcall9P Cleanname Chan ChanSpec PathSpec Mount MountSpec TableSpec MountOps UnmountSpec PgrpSpec PgrpcpySpec CrossSpec NewSpec.

Lemma mount_point_chan s L ext g T m v : nsok s L ext -> L !! g = Some T -> (m, v) ∈ concat T ->
  exists fo, chans s !! hv_from v = Some fo /\ key_of fo = hv_key v /\ hv_from v <> 0.
Proof.
  intros [I N F] Hg Hv. destruct (head_in_mhead _ _ _ _ _ _ _ _ N Hg Hv) as (j & [_ _ (fo & Hfo & Hk) _]).
  exists fo. split_and!; [done..|]. pose proof (below_in _ (chans s) _ _ (proj1 (rc_addr _ _ _ I)) Hfo). lia.
Qed.

Section Theorems.
Context {R : Type}.

(** C4: [cmount] refuses exactly a file on a directory or the other way round, a union on a
    file, and a mount with create permission of a union without it, and changes nothing then
    but the error. Otherwise the name space is as before but for the file of [old], where
    the new channel is mounted, with a copy of the union that it was part of, before or
    behind what was mounted there or in its place, and a directory that becomes a union has
    itself in it. Reference counts and hash table stay right, and no other name space
    changes. *)
Theorem mounts_change_the_name_space s L ext g T new old flag spec oc nc u k : nsok s L ext -> L !! g = Some T ->
  chans s !! old = Some oc -> chans s !! new = Some nc -> 0 < ext (RChan old) -> 0 < ext (RChan new) ->
  union_at L (c_umh nc) u -> room s (zlen u + (k + 3)) -> 0 <= k ->
  if mount_refused oc nc flag u then cmount (R := R) g new old flag spec s = (Go ONERR, set_kerrstr Emount s)
  else exists id s' T', cmount (R := R) g new old flag spec s = (Go id, s') /\ nsok s' (<[g := T']> L) ext /\ room s' k /\
    nsmap T' = <[key_of oc := mounted flag new spec u
      (default (first_mounts old (Z.land flag MORDER)) (nsmap T !! key_of oc))]> (nsmap T).
Proof. apply cmount_ok. Qed.

(** C18: [cunmount] fails exactly when nothing is mounted on the file, or not the channel
    that is asked for. Otherwise the first mount of that channel, or all of them, are gone
    from the file's mounts; when none is left the file is itself again. What was mounted is
    closed, counts and table stay right, and no other name space changes. *)
Theorem unmounts_change_the_name_space s L ext g T mnt mounted mc : nsok s L ext -> L !! g = Some T ->
  chans s !! mnt = Some mc -> (mounted <> 0 -> is_Some (chans s !! mounted)) ->
  match nsmap T !! key_of mc with
  | None => cunmount (R := R) g mnt mounted s = (Go ONERR, set_kerrstr Eunmount s)
  | Some cur =>
      match (if decide (mounted = 0) then Some []
             else remove_first (fun e : ment => unmount_hit s (default zero_chan (chans s !! mounted)) e.1.1) cur) with
      | None => cunmount (R := R) g mnt mounted s = (Go ONERR, set_kerrstr Eunion s)
      | Some l => exists s' T', cunmount (R := R) g mnt mounted s = (Go 0, s') /\ nsok s' (<[g := T']> L) ext /\
          nsmap T' = set_mounted (key_of mc) l (nsmap T) /\ (forall k, room s k -> room s' k)
      end
  end.
Proof. apply cunmount_ok. Qed.

(** C13: The name space that [pgrpcpy] makes for a new group maps every file to what the old
    one maps it to; its mounts are new ones with ids in the order of the old ids; the old
    name space stays as it was, and all counts are right. *)
Theorem rfork_copies_the_name_space s L ext from to T k : nsok s L ext -> from <> to -> L !! from = Some T ->
  L !! to = Some empty_tab -> 0 <= mountid s -> mountid s + 2 * zlen (mounts_of (concat T)) < 2 ^ 31 ->
  room s (zlen (concat T) + zlen (mounts_of (concat T)) + k) -> 0 <= k ->
  exists s' T', pgrpcpy (R := R) to from s = (Go tt, s') /\ nsok s' (<[to := T']> L) ext /\ nsmap T' = nsmap T /\
    (forall p q a b a' b', mounts_of (concat T) !! p = Some a -> mounts_of (concat T) !! q = Some b ->
      mounts_of (concat T') !! p = Some a' -> mounts_of (concat T') !! q = Some b' ->
      id_of s a < id_of s b -> id_of s' a' < id_of s' b') /\
    (forall a mo, mounts s !! a = Some mo -> mt_head mo ∈ heads T -> exists mo', mounts s' !! a = Some mo' /\ same_mount mo mo') /\
    length (mounts_of (concat T')) = length (mounts_of (concat T)).
Proof. apply pgrpcpy_ok. Qed.

(** C19: When the last process of a group gives it up, the group and its mounts are freed,
    what was mounted and mounted upon is closed, each once, and no other name space changes;
    as long as there is another process, nothing but the count of the group does. *)
Theorem the_last_process_takes_the_name_space s L ext g T go : nsok s L ext -> L !! g = Some T ->
  pgrps s !! g = Some go -> 0 < ext (RPgrp g) ->
  if decide (pg_ref go = 1) then
    exists s', closepgrp (R := R) g s = (Go tt, s') /\ nsok s' (delete g L) (less ext [RPgrp g]) /\
      pgrps s' = delete g (pgrps s) /\ mounts s' = foldr delete (mounts s) (mounts_of (concat T)) /\
      (forall m, m ∈ heads T -> empty_head s' m) /\ (forall k, room s k -> room s' k)
  else
    let s' := set_pgrps (<[g := set_pg_ref (pg_ref go - 1) go]> (pgrps s)) s in
    closepgrp (R := R) g s = (Go tt, s') /\ nsok s' L (less ext [RPgrp g]).
Proof.
  intros NK Hg Hgo He. case_decide as Hr; [by eapply closepgrp_last|].
  destruct (rcount_some s _ ext (RPgrp g) (nk_rc _ _ _ NK)) as (n & Hn & Hp); [by left|].
  cbn in Hn. rewrite Hgo in Hn. injection Hn as <-. apply (closepgrp_more s L ext g T go); try done. lia.
Qed.

(** C12: [domount] on a file where something is mounted gives the channel that is mounted
    first, in exchange for the one that it got, and notes the file in the path;
    [undomount] of that channel with that path gives the file back. On a file where nothing
    is mounted [domount] changes nothing. *)
Theorem dotdot_undoes_a_mount_crossing s L ext g T cp co mp path po k : nsok s L ext -> L !! g = Some T ->
  chans s !! cp = Some co -> paths_ok s -> paths s !! path = Some po ->
  covers ext ([RPath path] ++ nzr RMhead mp ++ nzr RChan cp) -> room s (zlen (p_mtpt po) + (k + 4)) -> 0 <= k ->
  match nsmap T !! key_of co with
  | None => domount (R := R) g cp mp path s = (Go (false, cp, mp, path), s)
  | Some [] => False
  | Some (e :: _) => exists m v p s1 s2 fo,
      domount (R := R) g cp mp path s = (Go (true, e.1.1, m, p), s1) /\ (m, v) ∈ concat T /\
      undomount (R := R) e.1.1 p s1 = (Go (hv_from v), s2) /\
      nsok s2 L (hold (hold (hold (less ext ([RPath path] ++ nzr RMhead mp ++ nzr RChan cp)) (RMhead m) 1) (RPath p) 1) (RChan (hv_from v)) 1) /\
      chans s2 !! hv_from v = Some fo /\ key_of fo = key_of co /\ room s2 k
  end.
Proof.
  intros NK Hg Hco Ok Hp Hc Rm Hk. pose proof (domount_ok (R := R) s L ext g T cp co mp path po k NK Hg Hco Ok Hp Hc Rm Hk) as D.
  destruct (nsmap T !! key_of co) as [[|e u]|]; [done| |done].
  destruct D as (m & v & p & s1 & po1 & E1 & NK1 & K1 & Ok1 & Rm1 & Hv & Hkv & Hp1 & _ & Hl).
  destruct (Ok path po Hp) as (_ & [Hlen _] & _). unfold zlen in Hlen.
  destruct (mount_point_chan s1 L _ g T m v NK1 Hg Hv) as (fo & _ & _ & Hf0).
  pose proof (undomount_ok (R := R) s1 L _ e.1.1 p po1 NK1 Ok1 Hp1) as U.
  assert (nth (length (p_mtpt po1) - 1) (p_mtpt po1) 0 = hv_from v) as En.
  { rewrite Hl, length_insert. apply nth_lookup_Some. apply list_lookup_insert_eq. lia. }
  cbv zeta in U. rewrite En, decide_False in U by done.
  destruct U as (s2 & x & E2 & NK2 & K2 & _ & _ & Rm2).
  { intros r. pose proof (Hc r). unfold hold, less. rewrite !occ_app in *.
    change [RPath p; RChan e.1.1] with ([RPath p] ++ [RChan e.1.1]). rewrite occ_app, !occ_one in *.
    destruct (decide (r = RPath p)), (decide (r = RChan e.1.1)), (decide (r = RMhead m)); lia. }
  destruct (mount_point_chan s2 L _ g T m v NK2 Hg Hv) as (fo2 & Hfo2 & Hk2 & _).
  exists m, v, p, s1, s2, fo2. split_and!; try done; [|congruence|by apply Rm2].
  destruct NK2 as [I2 N2 F2]. constructor; [|done..]. eapply rc_hold; [|exact I2]. intros r. unfold hold, less. rewrite occ_one.
  destruct (decide (r = RMhead m)), (decide (r = RChan e.1.1)), (decide (r = RPath p)), (decide (r = RChan (hv_from v))); lia.
Qed.

(** C20: [addelem] gives a path with the element at the end of its name, behind one slash, or
    without the last element when it is [..], and with the mount point that the element has
    led over noted. Unless the element is [.], which changes nothing, it is the caller's own:
    nobody else has a reference to it, and it is not the path that the caller gave when that
    was shared. Every path but the new one that still has a reference to it is there as it
    was, but for its count: what other holders of the path see stays. *)
Theorem path_names_follow_walks s A ext p po e from k : rc s A ext -> paths_ok s -> paths s !! p = Some po -> covers ext [RPath p] ->
  (from = 0 \/ anchored s A ext from) -> Forall (fun b => 0 < b < 256) e ->
  room s (zlen (p_mtpt po) + (k + 2)) -> 0 <= k ->
  exists p' s' po', addelem (R := R) p e from s = (Go p', s') /\
    rc s' A (hold (less ext [RPath p]) (RPath p') 1) /\ keeps A s s' /\ room s' k /\ paths_ok s' /\
    paths s' !! p' = Some po' /\ p_s po' = path_name (p_s po) e /\ p_mtpt po' = path_mtpt (p_mtpt po) e from /\
    (e = [dot] -> p' = p /\ s' = s) /\
    (e <> [dot] -> p_ref po' = 1 /\ (1 < p_ref po -> p' <> p)) /\
    others_kept p' s s' /\
    forall x, x <> p' -> 0 < less ext [RPath p] (RPath x) \/ 0 < refs s' A (RPath x) ->
      exists xo n, paths s !! x = Some xo /\ paths s' !! x = Some (set_p_ref n xo).
Proof.
  intros I Ok Hp Hc Hf He Hm Hk.
  destruct (addelem_ok (R := R) s A ext p po e from k I Ok Hp Hc Hf He Hm Hk)
    as (p' & s' & po' & E & I' & K & Rm & Ok' & Hp' & Hs & Hl & Hr & O).
  exists p', s', po'. split_and!; try done.
  - intros ->. unfold addelem in E. rewrite decide_True in E by done. by injection E as <- <-.
  - intros x Hx Hh. destruct (rcount_some s' A _ (RPath x) I') as (n & Hn & _).
    { destruct Hh as [Hh|Hh]; [left|by right]. by rewrite hold_ne by congruence. }
    cbn in Hn. destruct (paths s' !! x) as [xo'|] eqn:Hx'; [|done].
    destruct (O x xo' Hx Hx') as (xo & Hxo & Exo). exists xo, (p_ref xo'). by rewrite <- Exo.
Qed.
End Theorems.

(** ** The theorems at work *)

(** No object is there. *)
Definition boot : kst := KSt ∅ ∅ ∅ ∅ ∅ ∅ 0 0 0 0 0 0 1 Enoerror [] [].

Lemma boot_ok : nsok boot ∅ (fun _ => 0).
Proof.
  apply (nsok_intro boot ∅).
  - constructor; try done.
    + intros r; destruct r; reflexivity.
    + intros r n; destruct r; cbn; rewrite lookup_empty; done.
    + exists ([] : list Z). split; [constructor|done].
  - constructor; try done. intros m. split; [by intros ?%not_elem_of_empty|by intros (g & T & ? & _)].
  - by intros g T x.
Qed.

(** [room] of a state. *)
Definition room_in (s : kst) (k : Z) : bool :=
  let low {V} (f : V -> Z) (m : gmap Z V) := forallb (fun p => f p.2 + k <? 2 ^ 31) (map_to_list m) in
  (0 <=? k) && (k <? 2 ^ 31 - 1) && low c_ref (chans s) && low p_ref (paths s) && low mh_ref (mheads s) &&
  low pg_ref (pgrps s) && low fg_ref (fgrps s) && (npath s + k <? 2 ^ 31).

Lemma forallb_lookup {V} (f : V -> Z) k (m : gmap Z V) a : k < 2 ^ 31 ->
  forallb (fun p => f p.2 + k <? 2 ^ 31) (map_to_list m) = true -> default 0 (f <$> m !! a) + k < 2 ^ 31.
Proof.
  intros Hk H. destruct (m !! a) as [x|] eqn:E; [|cbn; lia]. rewrite forallb_forall in H.
  specialize (H (a, x)). cbn in *. apply Z.ltb_lt, H. apply list_elem_of_In. by apply elem_of_map_to_list.
Qed.

Lemma room_check s k : room_in s k = true -> room s k.
Proof.
  unfold room_in. cbv zeta. rewrite !andb_true_iff, Z.leb_le, !Z.ltb_lt. intros (((((((H0 & H1) & H2) & H3) & H4) & H5) & H6) & H7).
  split_and!; [done|done| |done]. intros r. unfold count_of. destruct r; cbn; apply forallb_lookup; done || lia.
Qed.

(** A directory. *)
Definition dir_chan (path : Z) : Chan := set_c_qid (MkQid path 0 QTDIR) (set_c_ref 1 zero_chan).
Definition add_chan (co : Chan) (s : kst) : kst := set_chans (<[brk s := co]> (chans s)) (set_brk (brk s + 1) s).

Lemma add_dir_ok s L ext path : nsok s L ext -> nsok (add_chan (dir_chan path) s) L (hold ext (RChan (brk s)) 1).
Proof. intros NK. by apply (nsok_new_chan s L ext (dir_chan path)). Qed.

(** Two directories, 1 and 2, the group 3 and the path 4, which is called "/". *)
Definition run {A} (c : cmd kst unit A) (s : kst) : kst := snd (c s).
Definition sample : kst := run (newpath [47]) (run newpgrp (add_chan (dir_chan 9) (add_chan (dir_chan 5) boot))).
Definition sample_names : gmap Z tab := {[3 := empty_tab]}.
Definition sample_refs : obj -> Z :=
  hold (hold (hold (hold (fun _ => 0) (RChan 1) 1) (RChan 2) 1) (RPgrp 3) 1) (RPath 4) 1.

Lemma run_go {A} (c : cmd kst unit A) s x s' : c s = (Go x, s') -> run c s = s'.
Proof. intros E. unfold run. by rewrite E. Qed.

Lemma sample_ok : nsok sample sample_names sample_refs.
Proof.
  pose proof (add_dir_ok _ _ _ 9 (add_dir_ok _ _ _ 5 boot_ok)) as NK2. set (s2 := add_chan _ (add_chan _ boot)) in *.
  destruct (newpgrp_ok (R := unit) s2 _ _ NK2) as (s3 & E3 & NK3 & _).
  destruct (newpath_ok (R := unit) s3 (all_heads (<[3 := empty_tab]> ∅)) (hold (hold (hold (fun _ => 0) (RChan 1) 1) (RChan 2) 1) (RPgrp 3) 1) [47] 0)
    as (s4 & E4 & I4 & K4 & _).
  - apply NK3.
  - rewrite <- (run_go _ _ _ _ E3). apply room_check. vm_compute. reflexivity.
  - done.
  - assert (brk s3 = 4) as Hb by (rewrite <- (run_go _ _ _ _ E3); vm_compute; reflexivity). rewrite Hb in *.
    unfold sample. fold s2. rewrite (run_go _ _ _ _ E3), (run_go _ _ _ _ E4). apply (nsok_keeps s3 s4 _ _ _ NK3 I4 K4).
Qed.

Lemma mounts_change_the_name_space_witness :
  exists id s' T', cmount (R := unit) 3 2 1 MBEFORE None sample = (Go id, s') /\ nsok s' (<[3 := T']> sample_names) sample_refs /\
    nsmap T' = <[(0, 0, 5) := [(2, MBEFORE, None); (1, 0, None)]]> ∅.
Proof.
  pose proof (mounts_change_the_name_space (R := unit) sample sample_names sample_refs 3 empty_tab 2 1 MBEFORE None
    (dir_chan 5) (dir_chan 9) [] 0 sample_ok) as H.
  assert (mount_refused (dir_chan 5) (dir_chan 9) MBEFORE [] = false) as E by reflexivity. rewrite E in H.
  destruct H as (id & s' & T' & E1 & NK & _ & Hn).
  1-5: vm_compute; reflexivity.
  - right. split; [|reflexivity]. unfold sample_names. intros g T [<- <-]%lookup_singleton_Some. rewrite heads_empty. apply not_elem_of_nil.
  - apply room_check. vm_compute. reflexivity.
  - done.
  - exists id, s', T'. split_and!; [exact E1|exact NK|]. rewrite Hn. reflexivity.
Defined.

(** What is mounted when 2 is mounted in the place of 1. *)
Definition sample_mounted : kst := run (cmount 3 2 1 MREPL None) sample.

Lemma sample_mounted_ok : exists T, nsok sample_mounted {[3 := T]} sample_refs /\ nsmap T = {[(0, 0, 5) := [(2, 0, None)]]}.
Proof.
  pose proof (cmount_ok (R := unit) sample sample_names sample_refs 3 empty_tab 2 1 MREPL None (dir_chan 5) (dir_chan 9) [] 0 sample_ok) as H.
  assert (mount_refused (dir_chan 5) (dir_chan 9) MREPL [] = false) as E by reflexivity. rewrite E in H.
  destruct H as (id & s' & T' & E1 & NK & _ & Hn).
  1-5: vm_compute; reflexivity.
  - right. split; [|reflexivity]. unfold sample_names. intros g T [<- <-]%lookup_singleton_Some. rewrite heads_empty. apply not_elem_of_nil.
  - apply room_check. vm_compute. reflexivity.
  - done.
  - exists T'. unfold sample_mounted. rewrite (run_go _ _ _ _ E1). split; [exact NK|]. rewrite Hn. reflexivity.
Qed.

(** [cunmount] of all on a file, and of a channel that is not mounted there. *)
Lemma unmounts_change_the_name_space_witness :
  (exists s' T', cunmount (R := unit) 3 1 0 sample_mounted = (Go 0, s') /\ nsok s' {[3 := T']} sample_refs /\ nsmap T' = ∅) /\
  cunmount (R := unit) 3 1 1 sample_mounted = (Go ONERR, set_kerrstr Eunion sample_mounted).
Proof.
  destruct sample_mounted_ok as (T & NK & Hn).
  assert (exists co, chans sample_mounted !! 1 = Some co /\ key_of co = (0, 0, 5) /\
    eqchan (set_c_qid (MkQid 9 0 QTDIR) zero_chan) co true = false) as (co & Hco & Hk & _) by (vm_compute; by eexists).
  assert (is_Some (chans sample_mounted !! 1)) as Hs by (by exists co).
  pose proof (unmounts_change_the_name_space (R := unit) sample_mounted {[3 := T]} sample_refs 3 T 1 0 co NK) as H0.
  pose proof (unmounts_change_the_name_space (R := unit) sample_mounted {[3 := T]} sample_refs 3 T 1 1 co NK) as H1.
  rewrite Hk, Hn, !lookup_singleton_eq in H0, H1. split.
  - destruct H0 as (s' & T' & E & NK' & Hn' & _); [done|exact Hco|done|].
    exists s', T'. split_and!; [exact E|by rewrite insert_singleton_eq in NK'|by rewrite Hn'].
  - rewrite decide_False in H1 by done.
    assert (remove_first (fun e : ment => unmount_hit sample_mounted (default zero_chan (chans sample_mounted !! 1)) e.1.1) [(2, 0, None)] = None)
      as Er by (vm_compute; reflexivity).
    rewrite Er in H1. apply H1; [done|exact Hco|done].
Defined.

(** A new group gets a copy. *)
Definition sample_forked : kst := run newpgrp sample_mounted.

Lemma rfork_copies_the_name_space_witness :
  exists T s' T', nsmap T = {[(0, 0, 5) := [(2, 0, None)]]} /\ pgrpcpy (R := unit) (brk sample_mounted) 3 sample_forked = (Go tt, s') /\
    nsok s' (<[brk sample_mounted := T']> (<[brk sample_mounted := empty_tab]> {[3 := T]})) (hold sample_refs (RPgrp (brk sample_mounted)) 1) /\
    nsmap T' = nsmap T.
Proof.
  destruct sample_mounted_ok as (T & NK & Hn). destruct (newpgrp_ok (R := unit) _ _ _ NK) as (s1 & E1 & NK1 & _ & _ & Em & Eh).
  assert (brk sample_mounted <> 3) as Hb by (vm_compute; discriminate).
  assert (sample_forked = s1) as Er by (exact (run_go _ _ _ _ E1)). subst s1.
  assert (zlen (concat T) <= 2 /\ zlen (mounts_of (concat T)) <= 2) as [Hz1 Hz2].
  { destruct (table_sizes _ _ _ 3 T NK (lookup_singleton_eq _ _)) as [H1 H2].
    assert (size (mheads sample_mounted) = 1%nat) as S1 by (vm_compute; reflexivity).
    assert (size (mounts sample_mounted) = 1%nat) as S2 by (vm_compute; reflexivity). lia. }
  destruct (rfork_copies_the_name_space (R := unit) sample_forked _ _ 3 (brk sample_mounted) T 0 NK1) as (s' & T' & E & NK' & Hn' & _).
  - done.
  - rewrite lookup_insert_ne by done. apply lookup_singleton_eq.
  - apply lookup_insert_eq.
  - vm_compute. discriminate.
  - assert (mountid sample_forked = 1) as -> by (vm_compute; reflexivity). lia.
  - eapply (room_less _ 100); [apply room_check; vm_compute; reflexivity|]. pose proof (zlen_nonneg (concat T)). pose proof (zlen_nonneg (mounts_of (concat T))). lia.
  - done.
  - exists T, s', T'. by split_and!.
Defined.

Lemma the_last_process_takes_the_name_space_witness :
  exists T s', closepgrp (R := unit) 3 sample_mounted = (Go tt, s') /\ nsok s' (delete 3 {[3 := T]}) (less sample_refs [RPgrp 3]) /\
    pgrps s' = delete 3 (pgrps sample_mounted) /\ mounts s' = foldr delete (mounts sample_mounted) (mounts_of (concat T)).
Proof.
  destruct sample_mounted_ok as (T & NK & Hn).
  assert (exists go, pgrps sample_mounted !! 3 = Some go /\ pg_ref go = 1) as (go & Hgo & Hr) by (vm_compute; by eexists).
  pose proof (the_last_process_takes_the_name_space (R := unit) sample_mounted _ _ 3 T go NK) as H.
  rewrite decide_True in H by done. destruct H as (s' & E & NK' & Hp & Hm & _); [apply lookup_singleton_eq|exact Hgo|done|].
  exists T, s'. split; [exact E|]. split; [exact NK'|]. split; [exact Hp|exact Hm].
Defined.

#[export] Instance kpath_ok_dec po : Decision (kpath_ok po).
Proof. unfold kpath_ok. apply _. Defined.
#[export] Instance paths_ok_dec s : Decision (paths_ok s) := decide (map_Forall (fun _ po => kpath_ok po) (paths s)).

(** The walk to 1 crosses to 2, [..] comes back. *)
Lemma dotdot_undoes_a_mount_crossing_witness :
  exists m v p s1 s2, domount (R := unit) 3 1 0 4 sample_mounted = (Go (true, 2, m, p), s1) /\
    undomount (R := unit) 2 p s1 = (Go (hv_from v), s2) /\
    exists fo, chans s2 !! hv_from v = Some fo /\ key_of fo = (0, 0, 5).
Proof.
  destruct sample_mounted_ok as (T & NK & Hn).
  assert (exists co, chans sample_mounted !! 1 = Some co /\ key_of co = (0, 0, 5)) as (co & Hco & Hk) by (vm_compute; by eexists).
  assert (exists po, paths sample_mounted !! 4 = Some po /\ zlen (p_mtpt po) = 1) as (po & Hpo & Hz) by (vm_compute; by eexists).
  pose proof (dotdot_undoes_a_mount_crossing (R := unit) sample_mounted _ _ 3 T 1 co 0 4 po 0 NK) as H.
  rewrite Hk, Hn, !lookup_singleton_eq in H. destruct H as (m & v & p & s1 & s2 & fo & E1 & _ & E2 & _ & Hfo & Hkf & _).
  - done.
  - exact Hco.
  - apply (bool_decide_unpack (paths_ok sample_mounted)). vm_compute. exact I.
  - exact Hpo.
  - intros r. unfold sample_refs, hold. change ([RPath 4] ++ nzr RMhead 0 ++ nzr RChan 1) with ([RPath 4] ++ [RChan 1]).
    rewrite occ_app, !occ_one. repeat (case_decide; try lia).
  - rewrite Hz. apply room_check. vm_compute. reflexivity.
  - done.
  - exists m, v, p, s1, s2. split; [exact E1|]. split; [exact E2|]. exists fo. split; [exact Hfo|exact Hkf].
Defined.

(** The path "/" becomes "/a". *)
Lemma path_names_follow_walks_witness :
  exists p s' po', addelem (R := unit) 4 [97] 0 sample = (Go p, s') /\ paths s' !! p = Some po' /\ p_s po' = [47; 97] /\
    p_mtpt po' = [0; 0] /\ p_ref po' = 1.
Proof.
  assert (exists po, paths sample !! 4 = Some po /\ p_s po = [47] /\ p_mtpt po = [0]) as (po & Hpo & Hs & Hm) by (vm_compute; by eexists).
  destruct (path_names_follow_walks (R := unit) sample (all_heads sample_names) sample_refs 4 po [97] 0 0) as (p & s' & po' & E & _ & _ & _ & _ & Hp & Hn & Hl & _ & Hr & _).
  - apply sample_ok.
  - apply (bool_decide_unpack (paths_ok sample)). vm_compute. exact I.
  - exact Hpo.
  - intros r. unfold sample_refs, hold. rewrite occ_one. repeat (case_decide; try lia).
  - by left.
  - by repeat constructor.
  - rewrite Hm. apply room_check. vm_compute. reflexivity.
  - done.
  - exists p, s', po'. split; [exact E|]. split; [exact Hp|].
    destruct Hr as [Hr _]; [discriminate|]. rewrite Hn, Hl, Hs, Hm. split; [reflexivity|split; [reflexivity|exact Hr]].
Defined.
